(* ===== verification/_CoqProject ===== *)
-Q . S2P
Prelude.v
JsString.v
Regex.v
JsNumber.v
JsNumberFacts.v
Json.v
JsonFacts.v
JsonPretty.v
JsInteger.v
JsMap.v
JsEncode.v
HttpStatusCodeRules.v
BillingExpr.v
BillingText.v
BillingRuleFacts.v
BillingRules.v
TierExpr.v
TierFacts.v
TierRoundTrip.v
Messages.v
ChatStream.v
ChatRuns.v
ImageGeneration.v
StatusCodeRiskGuard.v
ModelMapping.v
Payment.v
Throughput.v
Currency.v
Price.v
DynamicPrice.v
Filters.v
ChannelUtils.v
JsDate.v
ChannelTypeConfig.v
AccountImport.v
AccountImportFacts.v
ChannelForm.v
Notifications.v
NotificationFacts.v
NavModules.v
AdminModules.v
SidebarConfig.v
NavFacts.v
ParamOverride.v
ParamOverrideFacts.v
PriceTables.v
SettingsJson.v
RatioSettings.v
UpstreamSync.v
UpstreamSyncFacts.v
ModelPricing.v
ModelPricingFacts.v
GroupRatio.v
GroupSpecial.v
GroupRatioFacts.v
Charts.v
ChartFacts.v
ApiKeys.v
TieredEditor.v
DashboardPrefs.v
ChatLinks.v
KeyActions.v
SettingsForm.v
TableUrlState.v
UsageLogs.v
TierReading.v
Passkey.v
SecureVerification.v
AuthSession.v
ApiClient.v
WalletInfo.v
TopupPage.v
TopupFacts.v
WalletActions.v
WalletPage.v
BillingHistory.v
ChannelUpstream.v
ChannelDrawer.v
