(* ===== verification/Prelude.v ===== *)
(** * SynthApi dashboard logic

    SynthApi is an AI-gateway: a Go server that relays requests to upstream providers and a web
    dashboard in TypeScript ([src/web/default]) in which administrators configure channels, prices and
    modules and users chat, pay and read their logs.  This development models the logic of the
    dashboard, the part of it that decides something, and proves what makes it correct.  Paths below are
    relative to [src/web/default/src].

    ** The model

    Code is translated definition by definition, keeping the names of the source where Rocq allows it.
    Values are those of the language: a string is a list of UTF-16 code units ([JsString]), a number a
    64-bit float with the shortest decimal text and the parsing rules of the standard ([JsNumber]), parsed JSON a
    tree whose objects keep insertion order with integer keys first ([Json]), a regular
    expression a syntax tree run by a backtracking matcher with captures ([Regex]), a date a number of
    milliseconds ([JsDate]).  Code that can throw returns an [outcome] (this file), a parser an [option];
    React state is a record and every handler a function on it, so that runs of a page are lists of events; where
    effects matter, one round of them after a rendering is a function too ([TieredEditor]).

    What is not under [src] or depends on the machine is an argument of the definitions that use it:
    [toLowerCase], [localeCompare] and [toLocaleString], [Date.parse] and the clock, the UTF-8 decoder and whether the platform
    has [btoa] or [Buffer], the URL parser, how the router reads an address, the marks react-hook-form sets on changed fields and the
    fields a zod schema refuses, the server's answers, what the browser's event source, notifier and storage do, the
    fresh ids.  Requests that are under way are tasks whose answers come in any order.  Hypotheses on them are stated where they are used (for instance that three seconds pass between two
    polls).

    ** Files

    Language: [Prelude] (tactics, lists, sets as arrays, stable sorting, outcomes), [JsString], [Regex], [JsNumber],
    [JsNumberFacts], [JsInteger] (arithmetic on whole numbers is exact), [JsMap] (maps and running totals), [Json],
    [JsonFacts] (the text of a value parses back to it), [JsonPretty] (so does its indented text), [JsEncode] (base64, UTF-8 and
    percent encoding with their inverses), [JsDate].

    Rules and prices.
    - [HttpStatusCodeRules]: [lib/http-status-code-rules.ts], status codes that trigger a retry or a ban.
    - [BillingExpr], [BillingText], [BillingRuleFacts], [BillingRules]: [features/pricing/lib/billing-expr.ts],
      billing expressions and the request rules that multiply them.
    - [TierExpr], [TierFacts], [TierRoundTrip]: [features/pricing/lib/tier-expr.ts], the visual editor of tiers;
      [TierReading]: the readers of the price page and the logs on what that editor writes.
    - [Price], [DynamicPrice], [Filters]: [features/pricing/lib/price.ts], [dynamic-price.ts], [filters.ts].
    - [Currency]: [lib/currency.ts]; [Throughput]: [features/usage-logs/lib/throughput.ts]; [UsageLogs]: the other files
      of that directory, what a log row shows and the parameters of the requests for logs.

    Wallet ([features/wallet]).
    - [Payment]: [lib/payment.ts]; [WalletInfo]: [hooks/use-topup-info.ts] and the methods on offer in [recharge-form-card.tsx].
    - [TopupPage], [TopupFacts]: [index.tsx] with [use-payment.ts], [use-waffo-payment.ts], [use-waffo-pancake-payment.ts] and the payment dialog.
    - [WalletActions]: redeeming, transferring and buying; [WalletPage]: the whole page, with every order it places; [BillingHistory]: [use-billing-history.ts] and its dialog.

    Channels.
    - [StatusCodeRiskGuard], [ModelMapping], [ChannelUtils], [ChannelTypeConfig]: the files of these names under
      [features/channels/lib], with the tables of [channels/constants.ts].
    - [ChannelForm]: [features/channels/lib/channel-form.ts], the form in both directions.
    - [AccountImport], [AccountImportFacts]: [features/accounts/lib/account-channel-map.ts].
    - [ParamOverride], [ParamOverrideFacts]: [features/channels/components/dialogs/param-override-editor-dialog.tsx], the
      editor of a channel's parameter overrides with its state and handlers.
    - [ChannelDrawer]: [components/drawers/channel-mutate-drawer.tsx] with its two questions and
      [use-channel-mutate-form.ts]: filling, editing, checking and sending a channel.
    - [ChannelUpstream]: [use-channel-upstream-updates.ts] and [upstream-update-dialog.tsx], models found upstream.

    System settings ([features/system-settings/models], and [hooks/use-settings-form.ts] in [SettingsForm]).
    - [SettingsJson]: [utils.ts] and [utils/json-parser.ts], options as JSON texts; [RatioSettings]: [ratio-settings-card.tsx].
    - [PriceTables], [UpstreamSync], [UpstreamSyncFacts]: [upstream-ratio-sync.tsx] with its helpers and table, choosing among the prices
      of upstream sites and writing the choice.
    - [ModelPricing], [ModelPricingFacts]: [pricing-format.ts], [model-pricing-sheet.tsx], [model-ratio-visual-editor.tsx].
    - [TieredEditor]: [tiered-pricing-editor.tsx], the state and the effects of the editor of tiers and rules.
    - [GroupRatio], [GroupRatioFacts]: [group-ratio-visual-editor.tsx]; [GroupSpecial]: [group-special-usable-editor.tsx].

    Keys and charts.
    - [ApiKeys]: [features/keys/lib/api-key-form.ts], [api-keys-mutate-drawer.tsx], [auto-group-order-editor.tsx].
    - [KeyActions]: [api-keys-provider.tsx] and [data-table-bulk-actions.tsx], fetching, copying and testing keys.
    - [ChatLinks]: [features/chat/lib] and the pages that open an external chat client with a key.
    - [Charts], [ChartFacts]: [features/dashboard/lib/charts.ts]; [DashboardPrefs]: [features/dashboard/lib/filters.ts].

    Session.
    - [AuthSession]: [stores/auth-store.ts], the logins, the guards of the routes and what ends a session.
    - [ApiClient]: [lib/api.ts], [lib/handle-server-error.ts] and the error handlers of [main.tsx].
    - [Passkey]: [lib/passkey.ts]; [SecureVerification]: [features/auth/secure-verification] and the
      two places that use it.

    Playground.
    - [Messages]: [features/playground/lib/message-utils.ts] and [attachment-text.ts].
    - [ChatStream], [ChatRuns]: the hooks [use-stream-request.ts], [use-chat-handler.ts], [use-playground-state.ts] and the
      handlers of [index.tsx] as one state machine.
    - [ImageGeneration]: the image part of [use-chat-handler.ts].

    Dashboard.
    - [Notifications], [NotificationFacts]: [stores/notification-store.ts] and [hooks/use-notifications.ts].
    - [NavModules], [AdminModules], [SidebarConfig], [NavFacts]: [lib/nav-modules.ts], [hooks/use-top-nav-links.ts],
      [features/system-settings/maintenance/config.ts] and [hooks/use-sidebar-config.ts], four readers of the same
      settings.
    - [TableUrlState]: [hooks/use-table-url-state.ts], tables whose page, search and filters are in the address.

    ** What is shown

    - Round trips: request rules and combined expressions are read back as they were written unless a condition on a parameter is one of those
      the editor writes with a guard, and then are not read at all; tier configurations and imports of one account per line are read
      back as they were written, extra settings of a channel with their threshold rounded; what the override editor saved it opens and saves
      again unchanged, if every value keeps its meaning as text; opening a model's prices without conflicts or the group tables and saving without
      a change keeps every entry, and for an API key it is said what changes; options of the server survive the form of a
      settings section, filters the address bar, a key the link that hands it to a chat client, bytes the ceremony of a passkey, and a user
      a reload of the page.
    - Agreement of independent readers: on every text the settings page writes, the sidebar (where users may narrow it), the guard of the
      playground, the header and the editor read the same switches; two status-code rules normalise alike exactly when they select the
      same codes; a headline price is the price of the cheapest group; the prices the logs show for a recorded label are those of the first
      tier configured with that label.
    - State machines: the history of the playground page is kept whatever happens, and as long as no edited message is sent while a
      reply is streamed, one generation runs at a time and settles (a stop always ends it); what a streamed reply shows, thinking tags
      included; that no announcement reaches the operating system twice, that the
      announcement dialog is open exactly while something is unread; that the ratios of the price panel follow the prices on screen from the first
      change of the input price on, that rows of the group tables keep distinct identities and the options say what the rows say, that an order of
      groups in an API key is distinct, on offer and bounded, that the tiered price editor comes to rest and reports every edit; that every
      order the wallet places was confirmed for what the dialog showed, the rounding of one provider apart, and once; that models found
      upstream are applied to their channel as selected; that whoever asked for the text of a key is answered once.
    - Safety: a channel is saved only after the checks and questions it needs; protected calls run only after a verification; pages of the
      layout for users are shown only to a session the server confirmed, the public pages that ask for a user to any user that is stored,
      and all guards with their redirections settle; an error is reported once, and the errors of a request at most once a minute.
    - Types: a selection of upstream prices never mixes a fixed price, ratios and an expression for one model.
    - Refinement: the arrays of the notification store implement sets; saving prices and synchronising them is an update of maps
      at the chosen models; one-pass aggregations by tag, time, model and user are grouping followed by a sum.
    - Totality and termination: an import returns and accounts for each item unless a token has an
      impossible expiry; an image request ends after 300 polls at most; the search for a free group name ends; a batch of new keys stops at the
      first refusal.
    - Conservation: the calls and quotas of the items, the charts and the totals are the same numbers.
    - Exactness and bounds of the parsers, filters, sorts and texts, errors included.
    - Divergences: some theorems state what the code does where a comment or another part of the code
      says otherwise (an error report that is overwritten, a threshold that is rounded, a stop that is reported as an
      error, a switch that is read in two ways, hash keys that collide, rules that cannot be edited, a text
      that becomes a number, a fixed price that wins over new ratios, a price field that rounds, usage that is in no chart, limits that are
      switched on by saving, an expression that the opening of its editor replaces by zero, presets numbered before they are
      filtered, a prefix written twice, tiers confused at a boundary, a dismissed verification that still runs, a redirect to any
      address after a login, orders smaller than their quote, selections that reach the next channel, a created channel's values that stay
      in the form).

    ** Fuel and bounds

    Fuel is given by the input and proved or chosen to be enough: a regular expression never iterates
    without consuming, so [length + 1] rounds suffice ([m_star]); the JSON parser gets twice the length of the
    text ([parse_value_text]); [think_loop] gets the length of the text; decimal and base-36 digits get the
    size of the number; polling gets 301 turns, one more than fifteen minutes allow ([wait_returns]); the search for a group name
    gets as many rounds as there are rows ([fresh_index_total]).  32-bit hashes are computed with their wrap-around
    ([to_int32]); sums of counts are exact below [2^53] ([fold_nadd_int]).

    ** Not modelled

    The Go server (relay, billing, controllers, models); the older dashboard under [src/web/classic]; the Electron
    shell; React rendering, routing, translations and styling; HTTP clients, which only pass values on; the DOM
    (form submission for payments, favicon, badge); evaluating a billing expression with [new Function]; the extraction
    of text from uploaded files; texts of the dayjs library; the declarative per-field checks of the zod schemas.  Members
    inherited from [Object.prototype] are modelled only where a file says so.

    Still open: the pages of the image and video workbenches, stored playground settings, the dialogs that fetch models and
    credentials of a channel, the documents. *)

From stdpp Require Export base list numbers strings sorting sets.
From Stdlib Require Export ZArith NArith.

Declare Scope js_scope.
Delimit Scope js_scope with js.
#[global] Open Scope js_scope.
#[global] Set Default Goal Selector "!".

(** ** Hint databases and tactics of the development *)

Create HintDb js discriminated.

(** Case analysis on the first [match]/[if] scrutinee of the goal. *)
Ltac break_match :=
  match goal with
  | |- context [match ?x with _ => _ end] =>
      lazymatch x with
      | context [match _ with _ => _ end] => fail
      | _ => destruct x eqn:?
      end
  end.

(** The same in a hypothesis. *)
Ltac break_match_in H :=
  match type of H with
  | context [match ?x with _ => _ end] =>
      lazymatch x with
      | context [match _ with _ => _ end] => fail
      | _ => destruct x eqn:?
      end
  end.

(** Turn boolean (in)equations on machine comparisons into propositions. *)
Ltac breflect :=
  repeat match goal with
  | H : andb _ _ = true |- _ => apply andb_true_iff in H as [? ?]
  | H : orb _ _ = false |- _ => apply orb_false_iff in H as [? ?]
  | H : negb _ = true |- _ => apply negb_true_iff in H
  | H : negb _ = false |- _ => apply negb_false_iff in H
  | H : Z.leb _ _ = true |- _ => apply Z.leb_le in H
  | H : Z.leb _ _ = false |- _ => apply Z.leb_gt in H
  | H : Z.ltb _ _ = true |- _ => apply Z.ltb_lt in H
  | H : Z.ltb _ _ = false |- _ => apply Z.ltb_ge in H
  | H : Z.eqb _ _ = true |- _ => apply Z.eqb_eq in H
  | H : Z.eqb _ _ = false |- _ => apply Z.eqb_neq in H
  | H : N.leb _ _ = true |- _ => apply N.leb_le in H
  | H : N.leb _ _ = false |- _ => apply N.leb_gt in H
  | H : N.ltb _ _ = true |- _ => apply N.ltb_lt in H
  | H : N.ltb _ _ = false |- _ => apply N.ltb_ge in H
  | H : N.eqb _ _ = true |- _ => apply N.eqb_eq in H
  | H : N.eqb _ _ = false |- _ => apply N.eqb_neq in H
  | H : Nat.eqb _ _ = true |- _ => apply Nat.eqb_eq in H
  | H : Nat.eqb _ _ = false |- _ => apply Nat.eqb_neq in H
  | H : bool_decide _ = true |- _ => apply bool_decide_eq_true in H
  | H : bool_decide _ = false |- _ => apply bool_decide_eq_false in H
  end.

(** ** Outcomes: a value or a thrown exception *)

Inductive outcome (A : Type) := Ret (a : A) | Throw.
Arguments Ret {A} _.
Arguments Throw {A}.

#[export] Instance outcome_ret : MRet outcome := λ A, @Ret A.
#[export] Instance outcome_bind : MBind outcome :=
  λ A B f o, match o with Ret a => f a | Throw => Throw end.

Definition returns {A} (o : outcome A) : Prop := ∃ a, o = Ret a.

Lemma returns_ret {A} (a : A) : returns (Ret a).
Proof. by exists a. Qed.

Lemma returns_bind {A B} (o : outcome A) (f : A → outcome B) : returns o → (∀ a, returns (f a)) → returns (o ≫= f).
Proof. intros [a ->] H. apply H. Qed.

(** ** Generic list facts *)

Section filter_bool.
Context {A : Type}.
Implicit Types (f g : A → bool) (l : list A).

Lemma elem_of_bfilter f l x : x ∈ List.filter f l ↔ x ∈ l ∧ f x = true.
Proof. rewrite !list_elem_of_In. apply List.filter_In. Qed.

Lemma bfilter_id f l : (∀ x, x ∈ l → f x = true) → List.filter f l = l.
Proof.
  induction l as [|a l IH]; intros H; [done|]. simpl.
  rewrite H by set_solver. f_equal. apply IH. set_solver.
Qed.

Lemma bfilter_none f l : (∀ x, x ∈ l → f x = false) → List.filter f l = [].
Proof.
  induction l as [|a l IH]; intros H; [done|]. simpl.
  rewrite H by set_solver. apply IH. set_solver.
Qed.

Lemma bfilter_idemp f l : List.filter f (List.filter f l) = List.filter f l.
Proof. apply bfilter_id. intros x Hx. by apply elem_of_bfilter in Hx as [_ ?]. Qed.

Lemma bfilter_NoDup f l : NoDup l → NoDup (List.filter f l).
Proof. rewrite !NoDup_ListNoDup. apply List.NoDup_filter. Qed.

Lemma bfilter_sublist f l : List.filter f l `sublist_of` l.
Proof. induction l as [|x l IH]; simpl; [done|]. destruct (f x); by constructor. Qed.

Lemma bfilter_Forall (P : A → Prop) f l : Forall P l → Forall P (List.filter f l).
Proof. rewrite !Forall_forall. intros H x [Hx _]%elem_of_bfilter. auto. Qed.

Lemma bfilter_app f l1 l2 :
  List.filter f (l1 ++ l2) = List.filter f l1 ++ List.filter f l2.
Proof. apply List.filter_app. Qed.
End filter_bool.

Lemma elem_of_lmap {A B} (f : A → B) l y :
  y ∈ List.map f l ↔ ∃ x, y = f x ∧ x ∈ l.
Proof.
  rewrite list_elem_of_In, List.in_map_iff. setoid_rewrite list_elem_of_In.
  naive_solver.
Qed.

Lemma NoDup_map_inj {A B} (f : A → B) l x y : NoDup (map f l) → x ∈ l → y ∈ l → f x = f y → x = y.
Proof.
  induction l as [|a l IH]; [by intros _ ?%not_elem_of_nil|]. cbn [map]. rewrite NoDup_cons. intros [Hn Hd] Hx Hy E.
  apply elem_of_cons in Hx as [->|Hx]; apply elem_of_cons in Hy as [->|Hy]; [done|..|by apply IH].
  - destruct Hn. rewrite E. apply elem_of_lmap. by exists y.
  - destruct Hn. rewrite <- E. apply elem_of_lmap. by exists x.
Qed.

(** [new Set(xs)] spread back into an array: first occurrences, in order. *)
Section set_of_array.
Context {A : Type} `{EqDecision A}.
Implicit Types (l seen : list A).

Definition set_has (x : A) l : bool := bool_decide (x ∈ l).

Definition set_add l (x : A) : list A := if set_has x l then l else l ++ [x].

Definition array_of_set l : list A := fold_left set_add l [].

Lemma set_has_true x l : set_has x l = true ↔ x ∈ l.
Proof. apply bool_decide_eq_true. Qed.

Lemma set_has_false x l : set_has x l = false ↔ x ∉ l.
Proof. apply bool_decide_eq_false. Qed.

Lemma elem_of_set_add l x y : y ∈ set_add l x ↔ y ∈ l ∨ y = x.
Proof.
  unfold set_add. destruct (set_has x l) eqn:E.
  - apply set_has_true in E. naive_solver.
  - rewrite elem_of_app, list_elem_of_singleton. naive_solver.
Qed.

Lemma set_add_NoDup l x : NoDup l → NoDup (set_add l x).
Proof.
  intros H. unfold set_add. destruct (set_has x l) eqn:E; [done|].
  apply set_has_false in E. apply NoDup_app. split_and!; [done| |apply NoDup_singleton].
  set_solver.
Qed.

Lemma elem_of_fold_set_add l acc y :
  y ∈ fold_left set_add l acc ↔ y ∈ acc ∨ y ∈ l.
Proof.
  revert acc. induction l as [|a l IH]; intros acc; simpl; [set_solver|].
  rewrite IH, elem_of_set_add. set_solver.
Qed.

Lemma fold_set_add_NoDup l acc : NoDup acc → NoDup (fold_left set_add l acc).
Proof.
  revert acc. induction l as [|a l IH]; intros acc; simpl; auto using set_add_NoDup.
Qed.

Lemma fold_set_add_disjoint l acc :
  NoDup l → (∀ x, x ∈ l → x ∉ acc) → fold_left set_add l acc = acc ++ l.
Proof.
  revert acc. induction l as [|a l IH]; intros acc Hnd Hdis; simpl; [by rewrite app_nil_r|].
  apply NoDup_cons in Hnd as [Ha Hnd]. unfold set_add at 2.
  replace (set_has a acc) with false by (symmetry; apply set_has_false; set_solver).
  rewrite IH; [by rewrite <- app_assoc|done|set_solver].
Qed.

Lemma elem_of_array_of_set l x : x ∈ array_of_set l ↔ x ∈ l.
Proof. unfold array_of_set. rewrite elem_of_fold_set_add. set_solver. Qed.

Lemma array_of_set_NoDup l : NoDup (array_of_set l).
Proof. apply fold_set_add_NoDup, NoDup_nil_2. Qed.

Lemma array_of_set_id l : NoDup l → array_of_set l = l.
Proof. intros. unfold array_of_set. rewrite fold_set_add_disjoint; set_solver. Qed.

Lemma array_of_set_nil l : array_of_set l = [] ↔ l = [].
Proof.
  split; [|by intros ->]. intros H. destruct l as [|a l]; [done|].
  assert (Ha : a ∈ array_of_set (a :: l)) by (apply elem_of_array_of_set; set_solver).
  rewrite H in Ha. set_solver.
Qed.
End set_of_array.

#[export] Hint Resolve array_of_set_NoDup bfilter_NoDup : js.

(** [Array.prototype.sort(cmp)]: a stable sort by a three-way comparator; the
    comparator returns the sign of [a] against [b]. *)
Section stable_sort.
Context {A : Type} (cmp : A → A → Z).

Fixpoint sort_insert (x : A) (l : list A) : list A :=
  match l with
  | [] => [x]
  | y :: l' => if (cmp x y <=? 0)%Z then x :: y :: l' else y :: sort_insert x l'
  end.

Fixpoint array_sort (l : list A) : list A :=
  match l with
  | [] => []
  | x :: l' => sort_insert x (array_sort l')
  end.

Definition cmp_le (x y : A) : Prop := (cmp x y ≤ 0)%Z.

Lemma sort_insert_Permutation x l : sort_insert x l ≡ₚ x :: l.
Proof.
  induction l as [|y l IH]; simpl; [done|]. case_match; [done|].
  rewrite IH. apply Permutation_swap.
Qed.

Lemma array_sort_Permutation l : array_sort l ≡ₚ l.
Proof. induction l as [|x l IH]; simpl; [done|]. by rewrite sort_insert_Permutation, IH. Qed.

Lemma elem_of_array_sort l x : x ∈ array_sort l ↔ x ∈ l.
Proof. by rewrite array_sort_Permutation. Qed.

Context (Htotal : ∀ x y, (cmp x y > 0)%Z → (cmp y x ≤ 0)%Z)
        (Htrans : ∀ x y z, cmp_le x y → cmp_le y z → cmp_le x z).

Lemma sort_insert_sorted x l :
  StronglySorted cmp_le l → StronglySorted cmp_le (sort_insert x l).
Proof using Htotal Htrans.
  induction 1 as [|y l Hl IH Hy]; simpl; [repeat constructor|].
  destruct (Z.leb_spec (cmp x y) 0) as [Hle|Hgt].
  - constructor; [by constructor|]. constructor; [done|].
    rewrite Forall_forall in Hy |- *. intros z Hz. eapply Htrans; [exact Hle|]. by apply Hy.
  - constructor; [done|]. rewrite sort_insert_Permutation. constructor; [|done].
    apply Htotal. lia.
Qed.

Lemma array_sort_sorted l : StronglySorted cmp_le (array_sort l).
Proof using Htotal Htrans. induction l; simpl; [constructor|by apply sort_insert_sorted]. Qed.

Lemma array_sort_id l : StronglySorted cmp_le l → array_sort l = l.
Proof.
  induction 1 as [|x l Hl IH Hx]; simpl; [done|]. rewrite IH.
  destruct l as [|y l]; simpl; [done|].
  apply Forall_cons in Hx as [Hxy _]. unfold cmp_le in Hxy.
  by rewrite (proj2 (Z.leb_le _ _)).
Qed.
End stable_sort.

(** What a comparator promises to its callers: it orders any two elements one way or
    the other, and transitively. *)
Class Comparator {A} (cmp : A → A → Z) : Prop := {
  comparator_total : ∀ x y, (cmp x y > 0)%Z → (cmp y x ≤ 0)%Z;
  comparator_trans : ∀ x y z, cmp_le cmp x y → cmp_le cmp y z → cmp_le cmp x z }.

Lemma sorted_by {A} (cmp : A → A → Z) `{!Comparator cmp} l : StronglySorted (cmp_le cmp) (array_sort cmp l).
Proof. apply array_sort_sorted; [apply comparator_total|apply comparator_trans]. Qed.

(** A comparator through a key. *)
Lemma comparator_on {A B} (f : A → B) (cmp : B → B → Z) :
  Comparator cmp → Comparator (λ x y, cmp (f x) (f y)).
Proof.
  intros H. split.
  - intros x y. apply comparator_total.
  - intros x y z. apply (comparator_trans (f x) (f y) (f z)).
Qed.

#[export] Instance Z_sub_comparator : Comparator Z.sub.
Proof. split; unfold cmp_le; intros; lia. Qed.

(** Sorting is stable: elements a class [p] of mutually equal keys keep their order. *)
Lemma sort_insert_filter {A} (cmp : A → A → Z) (p : A → bool) x l :
  (∀ a b, p a = true → p b = true → (cmp a b ≤ 0)%Z) →
  List.filter p (sort_insert cmp x l) = List.filter p (x :: l).
Proof.
  intros Hp. induction l as [|y l IH]; simpl; [done|].
  destruct (Z.leb_spec (cmp x y) 0) as [Hle|Hgt]; [done|]. simpl.
  rewrite IH. simpl. destruct (p x) eqn:Ex, (p y) eqn:Ey; try done.
  specialize (Hp x y Ex Ey). lia.
Qed.

Lemma array_sort_filter {A} (cmp : A → A → Z) (p : A → bool) l :
  (∀ a b, p a = true → p b = true → (cmp a b ≤ 0)%Z) →
  List.filter p (array_sort cmp l) = List.filter p l.
Proof.
  intros Hp. induction l as [|x l IH]; simpl; [done|].
  rewrite sort_insert_filter by done. simpl. by rewrite IH.
Qed.

Lemma StronglySorted_weaken {A} (R S : A → A → Prop) l :
  (∀ a b, R a b → S a b) → StronglySorted R l → StronglySorted S l.
Proof.
  intros HRS. induction 1 as [|x l Hl IH Hx]; constructor; [done|].
  eapply Forall_impl; [exact Hx|]. auto.
Qed.

Lemma lmap_id {A} (f : A → A) l : Forall (λ x, f x = x) l → map f l = l.
Proof. induction 1 as [|x l Hx _ IH]; simpl; [done|]. by rewrite Hx, IH. Qed.

(** Comparators that agree on the pairs that are compared sort alike. *)
Lemma sort_insert_agree {A} (c1 c2 : A → A → Z) x l :
  (∀ y, y ∈ l → (c1 x y ≤ 0)%Z ↔ (c2 x y ≤ 0)%Z) → sort_insert c1 x l = sort_insert c2 x l.
Proof.
  induction l as [|y l IH]; intros H; simpl; [done|].
  assert ((c1 x y <=? 0)%Z = (c2 x y <=? 0)%Z) as ->.
  { assert ((c1 x y ≤ 0)%Z ↔ (c2 x y ≤ 0)%Z) by (apply H; set_solver).
    destruct (Z.leb_spec (c1 x y) 0), (Z.leb_spec (c2 x y) 0); lia. }
  case_match; [done|]. rewrite IH by set_solver. done.
Qed.

Lemma array_sort_agree {A} (R : A → A → Prop) (c1 c2 : A → A → Z) l :
  (∀ x y, R x y → (c1 x y ≤ 0)%Z ↔ (c2 x y ≤ 0)%Z) → StronglySorted R l → array_sort c1 l = array_sort c2 l.
Proof.
  intros H. induction 1 as [|x l Hl IH Hx]; simpl; [done|]. rewrite IH. apply sort_insert_agree.
  intros y Hy. apply H. rewrite Forall_forall in Hx. apply Hx. by apply elem_of_array_sort in Hy.
Qed.

Lemma array_sort_map {A B} (f : A → B) (cmp : B → B → Z) l :
  map f (array_sort (λ x y, cmp (f x) (f y)) l) = array_sort cmp (map f l).
Proof.
  induction l as [|x l IH]; [done|]. simpl. rewrite <- IH.
  generalize (array_sort (λ x y, cmp (f x) (f y)) l) as l'. clear. induction l' as [|y l' IH]; simpl; [done|].
  destruct (_ <=? 0)%Z; [done|]. simpl. by rewrite IH.
Qed.

(** An element that the comparator puts before all others comes first. *)
Lemma array_sort_head {A} `{EqDecision A} (cmp : A → A → Z) (m : A) l :
  (∀ y, (cmp m y ≤ 0)%Z) → (∀ y, y ≠ m → (cmp y m > 0)%Z) → m ∈ l → head (array_sort cmp l) = Some m.
Proof.
  intros H1 H2. induction l as [|x l IH]; intros Hm; [by apply elem_of_nil in Hm|]. simpl.
  destruct (decide (x = m)) as [->|Hne].
  - destruct (array_sort cmp l) as [|y l']; simpl; [done|]. specialize (H1 y). by rewrite (proj2 (Z.leb_le _ _)).
  - assert (Hh : head (array_sort cmp l) = Some m) by (apply IH; set_solver).
    destruct (array_sort cmp l) as [|y l']; [done|]. simpl in *. injection Hh as ->. specialize (H2 x Hne).
    by destruct (Z.leb_spec (cmp x m) 0); [lia|].
Qed.

(** Sorting by a two-valued class puts the first class first and keeps the order in each. *)
Lemma array_sort_classes {A} (p : A → bool) (cmp : A → A → Z) l :
  (∀ x y, cmp x y = if Bool.eqb (p x) (p y) then 0 else if p x then -1 else 1)%Z →
  array_sort cmp l = List.filter p l ++ List.filter (λ x, negb (p x)) l.
Proof.
  intros Hcmp. induction l as [|x l IH]; [done|]. simpl. rewrite IH. clear IH.
  assert (Hne : ∀ a, Forall (λ y, p y = true) a → p x = false → ∀ b,
    sort_insert cmp x (a ++ b) = a ++ sort_insert cmp x b).
  { induction 1 as [|y a Hy _ IHa]; intros Hx b; [done|]. simpl. rewrite Hcmp, Hx, Hy. simpl. by rewrite IHa. }
  destruct (p x) eqn:Hx; simpl.
  - destruct (List.filter p l ++ _) as [|y r]; simpl; [done|]. rewrite Hcmp, Hx. by destruct (p y).
  - rewrite Hne by (done || apply Forall_forall; intros y Hy; by apply elem_of_bfilter in Hy as [_ ?]).
    f_equal. destruct (List.filter (λ x, negb (p x)) l) as [|y r] eqn:E; simpl; [done|].
    assert (Hy : y ∈ List.filter (λ x, negb (p x)) l) by (rewrite E; set_solver).
    apply elem_of_bfilter in Hy as [_ Hy%negb_true_iff]. by rewrite Hcmp, Hx, Hy.
Qed.

(** ** Counting *)

Definition countb {A} (f : A → bool) (l : list A) : nat := length (List.filter f l).

Lemma countb_snoc {A} (f : A → bool) l x : countb f (l ++ [x]) = countb f l + Nat.b2n (f x).
Proof. unfold countb. rewrite bfilter_app, length_app. cbn. by destruct (f x). Qed.

Lemma countb_delete {A} (f : A → bool) l n x : l !! n = Some x → countb f (delete n l) + Nat.b2n (f x) = countb f l.
Proof.
  unfold countb. revert n. induction l as [|y l IH]; intros [|n] H; try discriminate.
  - injection H as ->. cbn. destruct (f x); cbn; lia.
  - change (delete (S n) (y :: l)) with (y :: delete n l). cbn [List.filter]. specialize (IH n H). destruct (f y); cbn [length]; lia.
Qed.
