(* ===== verification/JsString.v ===== *)
(** * JavaScript strings

    A JavaScript string is a sequence of UTF-16 code units; here a [list N].
    This file models the [String.prototype] methods the sources call ([trim],
    [split], [join], [slice], [indexOf], [includes], [startsWith], [endsWith]),
    the default string order of [Array.prototype.sort], and decimal integers,
    with the lemmas the components share. *)

From S2P Require Import Prelude.

Abbreviation str := (list N).

(** ** Literals: a Rocq string is UTF-8 text, read as UTF-16 code units *)

Definition utf16_encode (cp : N) : str :=
  if (cp <? 65536)%N then [cp]
  else let u := (cp - 65536)%N in
       [(55296 + u / 1024)%N; (56320 + u mod 1024)%N].

Fixpoint utf8_decode (bs : list N) (need : nat) (acc : N) : str :=
  match bs with
  | [] => []
  | b :: bs' =>
      match need with
      | O => if (b <? 128)%N then b :: utf8_decode bs' 0 0
             else if (b <? 224)%N then utf8_decode bs' 1 (b - 192)
             else if (b <? 240)%N then utf8_decode bs' 2 (b - 224)
             else utf8_decode bs' 3 (b - 240)
      | S n => let a := (acc * 64 + (b - 128))%N in
               match n with
               | O => utf16_encode a ++ utf8_decode bs' 0 0
               | S _ => utf8_decode bs' n a
               end
      end
  end.

Fixpoint string_bytes (s : string) : list N :=
  match s with
  | EmptyString => []
  | String a s' => Ascii.N_of_ascii a :: string_bytes s'
  end.

Definition js (s : string) : str := utf8_decode (string_bytes s) 0 0.

(** The double quote. *)
Definition dq : str := [34%N].

(** ** Characters *)

(** ECMAScript WhiteSpace and LineTerminator: what [trim] strips and [\s] matches. *)
Definition is_space (c : N) : bool :=
  ((9 <=? c) && (c <=? 13) || (c =? 32) || (c =? 160) || (c =? 5760)
   || ((8192 <=? c) && (c <=? 8202)) || (c =? 8232) || (c =? 8233)
   || (c =? 8239) || (c =? 8287) || (c =? 12288) || (c =? 65279))%N.

Definition is_digit (c : N) : bool := ((48 <=? c) && (c <=? 57))%N.

(** Truthiness of a string: [filter(Boolean)], [if (!s)]. *)
Definition truthy (s : str) : bool := match s with [] => false | _ => true end.

Lemma nonempty_case {A} (s : str) (a b : A) : s ≠ [] → match s with [] => a | _ => b end = b.
Proof. by destruct s. Qed.

(** ** [trim] *)

Fixpoint trim_start (s : str) : str :=
  match s with
  | [] => []
  | c :: s' => if is_space c then trim_start s' else s
  end.

Definition trim_end (s : str) : str := rev (trim_start (rev s)).

Definition trim (s : str) : str := trim_end (trim_start s).

Definition head_ok (s : str) : Prop :=
  match s with [] => True | c :: _ => is_space c = false end.

(** A string [trim] leaves alone: no white space at either end. *)
Definition trimmed (s : str) : Prop := head_ok s ∧ head_ok (rev s).

#[export] Instance head_ok_dec s : Decision (head_ok s).
Proof. destruct s; simpl; apply _. Defined.

#[export] Instance trimmed_dec s : Decision (trimmed s).
Proof. unfold trimmed. apply _. Defined.

Lemma trim_start_head_ok s : head_ok (trim_start s).
Proof. induction s as [|c s IH]; simpl; [done|]. by destruct (is_space c) eqn:E. Qed.

Lemma trim_start_id s : head_ok s → trim_start s = s.
Proof. destruct s as [|c s]; simpl; [done|]. by intros ->. Qed.

Lemma trim_start_suffix s : ∃ p, s = p ++ trim_start s ∧ Forall (λ c, is_space c = true) p.
Proof.
  induction s as [|c s [p [IH Hp]]]; simpl; [by exists []|].
  destruct (is_space c) eqn:E.
  - exists (c :: p). split; [simpl; by f_equal|by constructor].
  - by exists [].
Qed.

(** [trim s] is [s] without a white-space prefix and suffix. *)
Lemma trim_decompose s :
  ∃ p q, s = p ++ trim s ++ q ∧
    Forall (λ c, is_space c = true) p ∧ Forall (λ c, is_space c = true) q.
Proof.
  destruct (trim_start_suffix s) as [p [Hp Fp]].
  destruct (trim_start_suffix (rev (trim_start s))) as [q [Hq Fq]].
  exists p, (rev q). unfold trim, trim_end. split_and!; [|done|].
  - rewrite <- rev_app_distr, <- Hq, rev_involutive. done.
  - rewrite Forall_forall in Fq |- *. intros c Hc. apply Fq.
    by rewrite list_elem_of_In, in_rev, <- list_elem_of_In.
Qed.

Lemma trim_id s : trimmed s → trim s = s.
Proof.
  intros [H1 H2]. unfold trim, trim_end.
  by rewrite (trim_start_id s), (trim_start_id (rev s)), rev_involutive.
Qed.

Lemma head_ok_app_nonempty s1 s2 : s1 ≠ [] → head_ok (s1 ++ s2) ↔ head_ok s1.
Proof. by destruct s1. Qed.

Lemma trim_trimmed s : trimmed (trim s).
Proof.
  unfold trim, trim_end, trimmed. rewrite rev_involutive.
  split; [|apply trim_start_head_ok].
  destruct (trim_start_suffix (rev (trim_start s))) as [q [Hq Fq]].
  set (u := trim_start (rev (trim_start s))) in *.
  assert (Hs : trim_start s = rev u ++ rev q).
  { rewrite <- rev_app_distr, <- Hq. by rewrite rev_involutive. }
  pose proof (trim_start_head_ok s) as Hh. rewrite Hs in Hh.
  destruct (decide (rev u = [])) as [->|Hne]; [done|].
  by apply head_ok_app_nonempty in Hh.
Qed.

Lemma trim_idemp s : trim (trim s) = trim s.
Proof. apply trim_id, trim_trimmed. Qed.

Lemma trimmed_nil : trimmed [].
Proof. done. Qed.

(** White space inside a string can only come from the string it was cut from. *)
Lemma elem_of_trim c s : c ∈ trim s → c ∈ s.
Proof. destruct (trim_decompose s) as (p & q & H & _). rewrite H at 2. set_solver. Qed.

Lemma trimmed_no_space s : Forall (λ c, is_space c = false) s → trimmed s.
Proof.
  intros H. split; [destruct H; done|].
  apply Forall_rev in H. by destruct H.
Qed.

Lemma trimmed_app s1 s2 :
  s1 ≠ [] → s2 ≠ [] → head_ok s1 → head_ok (rev s2) → trimmed (s1 ++ s2).
Proof.
  intros. split; [by apply head_ok_app_nonempty|].
  rewrite rev_app_distr. apply head_ok_app_nonempty; [|done].
  intros E. apply (f_equal (@rev N)) in E. rewrite rev_involutive in E. done.
Qed.

#[export] Hint Resolve trim_trimmed trimmed_nil : js.

(** ** Prefixes, substrings, [slice] *)

Fixpoint starts_with (p s : str) : bool :=
  match p, s with
  | [], _ => true
  | a :: p', b :: s' => (a =? b)%N && starts_with p' s'
  | _ :: _, [] => false
  end.

Definition ends_with (p s : str) : bool := starts_with (rev p) (rev s).

(** [s.includes(p)]. *)
Fixpoint includes (p s : str) : bool :=
  starts_with p s || match s with [] => false | _ :: s' => includes p s' end.

(** [s.indexOf(p)] from the start of [s]; [None] is -1. *)
Fixpoint index_of (p s : str) : option nat :=
  if starts_with p s then Some 0
  else match s with [] => None | _ :: s' => S <$> index_of p s' end.

(** [s.slice(a, b)] for 0 <= a, b counted from the front. *)
Definition slice (a b : nat) (s : str) : str := take (b - a) (drop a s).

Lemma starts_with_spec p s : starts_with p s = true ↔ ∃ t, s = p ++ t.
Proof.
  revert s. induction p as [|a p IH]; intros s; simpl; [naive_solver|].
  destruct s as [|b s]; [naive_solver|].
  rewrite andb_true_iff, N.eqb_eq, IH. naive_solver.
Qed.

Lemma starts_with_app p t : starts_with p (p ++ t) = true.
Proof. apply starts_with_spec. eauto. Qed.

Lemma includes_spec p s : includes p s = true ↔ ∃ u t, s = u ++ p ++ t.
Proof.
  induction s as [|c s IH]; simpl; rewrite orb_true_iff, starts_with_spec.
  - split; [|intros (u & t & H)].
    + intros [[t H]|]; [by exists [], t|done].
    + destruct u; [|done]. left. by exists t.
  - rewrite IH. split.
    + intros [[t H]|(u & t & ->)]; [by exists [], t|by exists (c :: u), t].
    + intros ([|d u] & t & H); [left; by exists t|].
      right. simplify_eq/=. by exists u, t.
Qed.

Lemma index_of_Some p s n :
  index_of p s = Some n ↔
    (∃ u t, s = u ++ p ++ t ∧ length u = n) ∧
    (∀ u' t', s = u' ++ p ++ t' → n ≤ length u').
Proof.
  revert n. induction s as [|c s IH]; intros n; simpl.
  - destruct (starts_with p []) eqn:E.
    + apply starts_with_spec in E as [t E]. split.
      * intros [= <-]. split; [by exists [], t|]. intros; lia.
      * intros [(u & t' & E' & <-) Hmin]. specialize (Hmin [] t E). simpl in *. f_equal. lia.
    + split; [done|]. intros [(u & t & E' & _) _].
      assert (starts_with p [] = true); [|congruence].
      apply starts_with_spec. destruct u; [|done]. by exists t.
  - destruct (starts_with p (c :: s)) eqn:E.
    + apply starts_with_spec in E as [t E]. split.
      * intros [= <-]. split; [by exists [], t|]. intros; lia.
      * intros [_ Hmin]. specialize (Hmin [] t E). simpl in *. f_equal. lia.
    + assert (Hno : ∀ t, c :: s ≠ p ++ t).
      { intros t H. assert (starts_with p (c :: s) = true); [|congruence].
        apply starts_with_spec. eauto. }
      rewrite fmap_Some. setoid_rewrite IH. split.
      * intros (m & [(u & t & -> & <-) Hmin] & ->). split; [by exists (c :: u), t|].
        intros [|d u'] t' H; [by destruct (Hno t')|]. simplify_eq/=.
        apply le_n_S, (Hmin u' t'). congruence.
      * intros [([|d u] & t & H & <-) Hmin]; [by destruct (Hno t)|]. simplify_eq/=.
        exists (length u). split; [|done]. split; [by exists u, t|].
        intros u' t' Hu'. specialize (Hmin (d :: u') t'). simpl in Hmin.
        rewrite Hu' in Hmin. specialize (Hmin eq_refl). lia.
Qed.

Lemma index_of_None p s : index_of p s = None ↔ includes p s = false.
Proof.
  induction s as [|c s IH]; simpl.
  - by destruct (starts_with p []).
  - destruct (starts_with p (c :: s)); simpl; [done|].
    rewrite <- IH. apply fmap_None.
Qed.

(** ** [split] and [join] *)

(** [split] by a non-empty separator string; [skip] counts the separator's
    remaining units, [cur] is the current piece reversed. *)
Fixpoint split_go (sep : str) (skip : nat) (cur s : str) : list str :=
  match s with
  | [] => [rev cur]
  | c :: s' =>
      match skip with
      | S k => split_go sep k cur s'
      | O => if starts_with sep s
             then rev cur :: split_go sep (length sep - 1) [] s'
             else split_go sep 0 (c :: cur) s'
      end
  end.

Definition split (sep s : str) : list str := split_go sep 0 [] s.

Fixpoint join (sep : str) (l : list str) : str :=
  match l with
  | [] => []
  | [s] => s
  | s :: l' => s ++ sep ++ join sep l'
  end.

Lemma join_cons sep s l : l ≠ [] → join sep (s :: l) = s ++ sep ++ join sep l.
Proof. by destruct l. Qed.

Lemma split_go_nonempty sep k cur s : split_go sep k cur s ≠ [].
Proof.
  revert k cur. induction s as [|c s IH]; intros [|k] cur; simpl; try done.
  by destruct (starts_with _ _).
Qed.

Lemma split_go_skip sep k cur p s :
  length p = k → split_go sep k cur (p ++ s) = split_go sep 0 cur s.
Proof. revert k. induction p as [|c p IH]; intros [|k]; simpl; [done..|]. intros. apply IH. lia. Qed.

Lemma split_go_join sep s k cur :
  sep ≠ [] → length s ≤ k →
  join sep (split_go sep 0 cur s) = rev cur ++ s.
Proof.
  intros Hsep. revert s cur. induction k as [|k IH]; intros s cur Hk.
  { destruct s; simpl in *; [by rewrite app_nil_r|lia]. }
  destruct s as [|c s]; [simpl; by rewrite app_nil_r|]. cbn [split_go].
  destruct (starts_with sep (c :: s)) eqn:E.
  - apply starts_with_spec in E as [t Ht].
    destruct sep as [|d sep]; [done|]. injection Ht as <- ->.
    replace (length (c :: sep) - 1) with (length sep) by (simpl; lia).
    rewrite split_go_skip by done.
    rewrite join_cons by apply split_go_nonempty. rewrite IH; [done|].
    simpl in Hk. rewrite length_app in Hk. lia.
  - rewrite IH by (simpl in Hk; lia). simpl. by rewrite <- app_assoc.
Qed.

(** Joining the pieces of a split gives the string back. *)
Lemma join_split sep s : sep ≠ [] → join sep (split sep s) = s.
Proof. intros. unfold split. by rewrite (split_go_join _ _ (length s)). Qed.

Section split_char.
Variable c : N.

Lemma split_go_clean cur s : c ∉ s → split_go [c] 0 cur s = [rev cur ++ s].
Proof.
  revert cur. induction s as [|d s IH]; intros cur H; simpl; [by rewrite app_nil_r|].
  replace (c =? d)%N with false by (symmetry; apply N.eqb_neq; set_solver).
  simpl. rewrite IH by set_solver. simpl. by rewrite <- app_assoc.
Qed.

Lemma split_go_sep cur p s :
  c ∉ p → split_go [c] 0 cur (p ++ c :: s) = (rev cur ++ p) :: split [c] s.
Proof.
  revert cur. induction p as [|d p IH]; intros cur H; simpl.
  - rewrite N.eqb_refl. simpl. by rewrite app_nil_r.
  - replace (c =? d)%N with false by (symmetry; apply N.eqb_neq; set_solver).
    simpl. rewrite IH by set_solver. simpl. by rewrite <- app_assoc.
Qed.

Lemma split_go_app cur a b : split_go [c] 0 cur (a ++ c :: b) = split_go [c] 0 cur a ++ split [c] b.
Proof.
  revert cur. induction a as [|d a IH]; intros cur; simpl.
  - by rewrite N.eqb_refl.
  - destruct (c =? d)%N; simpl; by rewrite IH.
Qed.

(** A text is split at each separator. *)
Lemma split_app a b : split [c] (a ++ c :: b) = split [c] a ++ split [c] b.
Proof. apply split_go_app. Qed.

(** Splitting a join by one character recovers the pieces. *)
Lemma split_join l :
  l ≠ [] → Forall (λ s, c ∉ s) l → split [c] (join [c] l) = l.
Proof.
  induction l as [|s l IH]; [done|]. intros _ Hall.
  apply Forall_cons in Hall as [Hs Hall].
  destruct l as [|s' l]; [apply (split_go_clean [] s Hs)|].
  rewrite join_cons by done. unfold split. simpl.
  rewrite (split_go_sep [] s _ Hs). simpl. f_equal. apply IH; [done|exact Hall].
Qed.

Lemma split_go_not_elem k cur s p :
  c ∉ cur → p ∈ split_go [c] k cur s → c ∉ p.
Proof.
  revert k cur. induction s as [|d s IH]; intros k cur Hc Hp; simpl in Hp.
  - apply list_elem_of_singleton in Hp as ->. by rewrite list_elem_of_In, <- in_rev, <- list_elem_of_In.
  - destruct k as [|k]; [|by eapply IH].
    destruct (c =? d)%N eqn:E; simpl in Hp.
    + apply elem_of_cons in Hp as [->|Hp].
      * by rewrite list_elem_of_In, <- in_rev, <- list_elem_of_In.
      * eapply (IH 0); [|exact Hp]. set_solver.
    + apply N.eqb_neq in E. eapply IH; [|exact Hp]. set_solver.
Qed.

(** No piece of a split contains the separator. *)
Lemma split_not_elem s p : p ∈ split [c] s → c ∉ p.
Proof. apply split_go_not_elem. set_solver. Qed.
End split_char.

(** ** The default order of [Array.prototype.sort]: code unit order *)

Fixpoint str_cmp (a b : str) : Z :=
  match a, b with
  | [], [] => 0
  | [], _ :: _ => -1
  | _ :: _, [] => 1
  | x :: a', y :: b' =>
      if (x =? y)%N then str_cmp a' b' else if (x <? y)%N then -1 else 1
  end%Z.

Lemma str_cmp_total a b : (str_cmp a b > 0)%Z → (str_cmp b a ≤ 0)%Z.
Proof.
  revert b. induction a as [|x a IH]; intros [|y b]; simpl; try lia.
  rewrite (N.eqb_sym y x). destruct (N.eqb_spec x y); [apply IH|].
  destruct (N.ltb_spec x y), (N.ltb_spec y x); lia.
Qed.

Lemma str_cmp_trans a b c :
  cmp_le str_cmp a b → cmp_le str_cmp b c → cmp_le str_cmp a c.
Proof.
  unfold cmp_le. revert b c.
  induction a as [|x a IH]; intros [|y b] [|z c]; simpl; try lia.
  destruct (N.eqb_spec x y), (N.eqb_spec y z), (N.eqb_spec x z); subst; try done; try lia;
    try apply IH;
    repeat match goal with |- context [N.ltb ?a ?b] => destruct (N.ltb_spec a b) end; lia.
Qed.

#[export] Instance str_cmp_comparator : Comparator str_cmp.
Proof. split; [apply str_cmp_total|apply str_cmp_trans]. Qed.

Lemma str_cmp_antisym a b : cmp_le str_cmp a b → cmp_le str_cmp b a → a = b.
Proof.
  unfold cmp_le. revert b. induction a as [|x a IH]; intros [|y b]; simpl; try done; try lia.
  rewrite (N.eqb_sym y x). destruct (N.eqb_spec x y) as [->|].
  - intros. f_equal. by apply IH.
  - destruct (N.ltb_spec x y), (N.ltb_spec y x); lia.
Qed.

(** ** Decimal integers *)

Definition dec_val (s : str) : N := fold_left (λ acc c, acc * 10 + (c - 48))%N s 0%N.

Fixpoint dec_digits (fuel : nat) (n : N) (acc : str) : str :=
  match fuel with
  | O => acc
  | S f => let acc' := (48 + n mod 10)%N :: acc in
           if (n <? 10)%N then acc' else dec_digits f (n / 10)%N acc'
  end.

(** Decimal digits of a natural number; [N.size_nat n] digits are enough. *)
Definition N_dec (n : N) : str := dec_digits (S (N.size_nat n)) n [].

Definition Z_dec (z : Z) : str :=
  if (z <? 0)%Z then 45%N :: N_dec (Z.to_N (- z)) else N_dec (Z.to_N z).

Lemma dec_digits_val fuel n acc :
  (n < 10 ^ N.of_nat fuel)%N → fuel ≠ 0 →
  fold_left (λ a c, a * 10 + (c - 48))%N (dec_digits fuel n acc) 0%N
  = fold_left (λ a c, a * 10 + (c - 48))%N acc n.
Proof.
  revert n acc. induction fuel as [|f IH]; intros n acc Hn Hf; [done|].
  cbn [dec_digits]. destruct (N.ltb_spec n 10) as [Hlt|Hge].
  - cbn [fold_left]. f_equal. rewrite N.mod_small by done. lia.
  - destruct f as [|f]; [simpl in Hn; lia|].
    rewrite IH; [|apply N.Div0.div_lt_upper_bound; rewrite Nat2N.inj_succ, N.pow_succ_r' in Hn; lia|done].
    cbn [fold_left]. f_equal. pose proof (N.Div0.div_mod n 10) as Hdm. revert Hdm.
    generalize (n / 10)%N (n mod 10)%N. intros; lia.
Qed.

Lemma N_size_bound n : (n < 10 ^ N.of_nat (S (N.size_nat n)))%N.
Proof.
  destruct n as [|p]; [simpl; lia|].
  assert (H : (N.pos p < 2 ^ N.of_nat (Pos.size_nat p))%N).
  { induction p as [p IH|p IH|]; [..|done]; cbn [Pos.size_nat];
      rewrite Nat2N.inj_succ, N.pow_succ_r'; revert IH;
      generalize (2 ^ N.of_nat (Pos.size_nat p))%N; intros; lia. }
  eapply N.lt_le_trans; [exact H|]. cbn [N.size_nat].
  etrans; [apply (N.pow_le_mono_l 2 10); lia|]. apply N.pow_le_mono_r; lia.
Qed.

Lemma dec_val_N_dec n : dec_val (N_dec n) = n.
Proof. unfold dec_val, N_dec. by rewrite dec_digits_val by (apply N_size_bound || done). Qed.

Lemma N_dec_inj a b : N_dec a = N_dec b → a = b.
Proof. intros H. rewrite <- (dec_val_N_dec a), <- (dec_val_N_dec b). by rewrite H. Qed.

Lemma Z_dec_nonneg z : (0 ≤ z)%Z → Z_dec z = N_dec (Z.to_N z).
Proof. intros H. unfold Z_dec. destruct (Z.ltb_spec z 0); [lia|done]. Qed.

Lemma is_digit_spec c : is_digit c = true ↔ (48 ≤ c ≤ 57)%N.
Proof. unfold is_digit. rewrite andb_true_iff, !N.leb_le. done. Qed.

Lemma dec_digits_digits fuel n acc :
  Forall (λ c, is_digit c = true) acc → Forall (λ c, is_digit c = true) (dec_digits fuel n acc).
Proof.
  revert n acc. induction fuel as [|f IH]; intros n acc H; simpl; [done|].
  assert (Forall (λ c, is_digit c = true) ((48 + n mod 10)%N :: acc)).
  { constructor; [|done]. apply is_digit_spec. pose proof (N.mod_lt n 10) as Hm.
    revert Hm. generalize (n mod 10)%N. intros; lia. }
  case_match; auto.
Qed.

Lemma N_dec_digits n : Forall (λ c, is_digit c = true) (N_dec n).
Proof. by apply dec_digits_digits. Qed.

Lemma N_dec_nonempty n : N_dec n ≠ [].
Proof.
  unfold N_dec. generalize (N.size_nat n) as f. intros f. simpl.
  assert (H : ∀ f n acc, acc ≠ [] → dec_digits f n acc ≠ []).
  { clear. induction f as [|f IH]; intros n acc Hacc; simpl; [done|]. case_match; [done|]. by apply IH. }
  case_match; [done|]. by apply H.
Qed.

Lemma digit_not_space c : is_digit c = true → is_space c = false.
Proof.
  intros H%is_digit_spec. unfold is_space.
  repeat (rewrite orb_false_iff || rewrite andb_false_iff || rewrite N.eqb_neq
          || rewrite N.leb_gt); lia.
Qed.

#[export] Hint Resolve N_dec_digits N_dec_nonempty digit_not_space : js.
