(* ===== verification/Regex.v ===== *)
(** * Regular expressions

    The sources parse text with JavaScript [RegExp]s.  This file models the
    part of ECMAScript regular expressions they use (without flags other than
    [g] and [s]): character classes, sequence, ordered alternation, greedy and
    lazy iteration, optional parts, capture groups, back references, [^], [$] and
    [\b], by the backtracking semantics of the standard: a matcher takes a
    continuation and tries the alternatives in order.

    Iteration carries fuel; an iteration that consumes nothing is refused (as in
    the standard), so [length input + 1] is always enough ([m_star]). *)

From S2P Require Import Prelude JsString.

(** ** Syntax *)

Inductive regex :=
  | RChar (p : N → bool)                   (** one code unit of a class *)
  | REmpty
  | RSeq (r1 r2 : regex)
  | RAlt (r1 r2 : regex)
  | RStar (greedy : bool) (r : regex)      (** [r*] and [r*?] *)
  | ROpt (r : regex)                       (** [r?] *)
  | RGroup (n : nat) (r : regex)           (** capture group [n], from 1 *)
  | RBackref (n : nat)                     (** [\n] *)
  | RBol | REol                            (** [^] and [$] *)
  | RWordB.                                (** [\b] *)

Fixpoint rlit (s : str) : regex :=
  match s with
  | [] => REmpty
  | [c] => RChar (N.eqb c)
  | c :: s' => RSeq (RChar (N.eqb c)) (rlit s')
  end.

Fixpoint rseq (l : list regex) : regex :=
  match l with [] => REmpty | [r] => r | r :: l' => RSeq r (rseq l') end.

Fixpoint ralt (l : list regex) : regex :=
  match l with [] => REmpty | [r] => r | r :: l' => RAlt r (ralt l') end.

Definition rstar := RStar true.
Definition rplus (r : regex) : regex := RSeq r (rstar r).

(** The groups a regular expression sets (cleared at each iteration). *)
Fixpoint groups (r : regex) : list nat :=
  match r with
  | RSeq r1 r2 | RAlt r1 r2 => groups r1 ++ groups r2
  | RStar _ r | ROpt r => groups r
  | RGroup n r => n :: groups r
  | _ => []
  end.

(** ** Matching *)

(** The matcher's state: the input before (reversed) and after the position,
    and the captures, group 0 included. *)
Record mstate := mk { before : str; after : str; caps : list (option str) }.

Definition clear_caps (ns : list nat) (cs : list (option str)) : list (option str) :=
  fold_right (λ n cs, <[n := None]> cs) cs ns.

Definition is_word (c : N) : bool :=
  (is_digit c || ((65 <=? c) && (c <=? 90)) || ((97 <=? c) && (c <=? 122)) || (c =? 95))%N.

Definition word_at (l : str) : bool := match l with [] => false | c :: _ => is_word c end.

(** The standard's RepeatMatcher for [*]: [mr] matches one iteration. *)
Fixpoint star_loop (mr : (mstate → option mstate) → mstate → option mstate) (gs : list nat)
  (greedy : bool) (k : mstate → option mstate) (fuel : nat) (x : mstate) : option mstate :=
  match fuel with
  | O => k x
  | S f =>
      let again := mr
        (λ y, if length (after y) =? length (after x) then None
              else star_loop mr gs greedy k f y)
        (mk (before x) (after x) (clear_caps gs (caps x))) in
      if greedy
      then match again with Some y => Some y | None => k x end
      else match k x with Some y => Some y | None => again end
  end.

Fixpoint m (r : regex) (k : mstate → option mstate) (x : mstate) {struct r} : option mstate :=
  match r with
  | REmpty => k x
  | RChar p =>
      match after x with
      | c :: rest => if p c then k (mk (c :: before x) rest (caps x)) else None
      | [] => None
      end
  | RSeq r1 r2 => m r1 (m r2 k) x
  | RAlt r1 r2 => match m r1 k x with Some y => Some y | None => m r2 k x end
  | ROpt r1 =>
      match m r1 (λ y, if length (after y) =? length (after x) then None else k y)
              (mk (before x) (after x) (clear_caps (groups r1) (caps x))) with
      | Some y => Some y
      | None => k x
      end
  | RStar greedy r1 => star_loop (m r1) (groups r1) greedy k (S (length (after x))) x
  | RGroup n r1 =>
      m r1 (λ y, k (mk (before y) (after y)
                      (<[n := Some (take (length (after x) - length (after y)) (after x))]> (caps y)))) x
  | RBackref n =>
      match caps x !! n with
      | Some (Some s) =>
          if starts_with s (after x)
          then k (mk (rev s ++ before x) (drop (length s) (after x)) (caps x))
          else None
      | _ => k x
      end
  | RBol => match before x with [] => k x | _ => None end
  | REol => match after x with [] => k x | _ => None end
  | RWordB => if xorb (word_at (before x)) (word_at (after x)) then k x else None
  end.

(** ** [RegExp.prototype.exec] and the methods built on it *)

(** [ng] is the number of groups; the result of a match at a position. *)
Definition match_at (ng : nat) (r : regex) (bef aft : str) : option mstate :=
  m (RGroup 0 r) Some (mk bef aft (replicate (S ng) None)).

(** Search from a position on: the state after the first match. *)
Fixpoint exec_from (ng : nat) (r : regex) (bef aft : str) : option mstate :=
  match match_at ng r bef aft with
  | Some y => Some y
  | None => match aft with [] => None | c :: aft' => exec_from ng r (c :: bef) aft' end
  end.

(** [s.match(re)] without the [g] flag: the captures, group 0 first. *)
Definition match_re (ng : nat) (r : regex) (s : str) : option (list (option str)) :=
  caps <$> exec_from ng r [] s.

Definition test_re (r : regex) (s : str) : bool :=
  match exec_from 0 r [] s with Some _ => true | None => false end.

(** [while ((m = re.exec(s)) !== null)] with the [g] flag: the captures of the
    successive matches, for expressions that match no empty text (a match of an
    empty text would make that loop of the source run forever). *)
Fixpoint exec_all (fuel : nat) (ng : nat) (r : regex) (bef aft : str) : list (list (option str)) :=
  match fuel with
  | O => []
  | S f =>
      match exec_from ng r bef aft with
      | None => []
      | Some y => caps y :: exec_all f ng r (before y) (after y)
      end
  end.

Definition match_all (ng : nat) (r : regex) (s : str) : list (list (option str)) :=
  exec_all (S (length s)) ng r [] s.

(** [s.split(re)] without captures, following the standard's loop: at each
    position try the expression there; a match that is empty at the piece's start is
    skipped. [cur] is the current piece reversed. *)
Fixpoint split_re_go (fuel : nat) (r : regex) (cur bef aft : str) : list str :=
  match fuel with
  | O => [rev cur ++ aft]
  | S f =>
      match aft with
      | [] => [rev cur]
      | c :: aft' =>
          match match_at 0 r bef aft with
          | Some y =>
              if (length cur =? 0) && (length (after y) =? length aft)
              then split_re_go f r (c :: cur) (c :: bef) aft'
              else rev cur :: split_re_go f r [] (before y) (after y)
          | None => split_re_go f r (c :: cur) (c :: bef) aft'
          end
      end
  end.

Definition split_re (r : regex) (s : str) : list str :=
  match s with
  | [] => match match_at 0 r [] [] with Some _ => [] | None => [[]] end
  | _ => split_re_go (2 * S (length s)) r [] [] s
  end.

(** [s.replace(re, t)] with the [g] flag and a replacement without [$]. *)
Fixpoint replace_all_go (fuel : nat) (r : regex) (t : str) (bef aft : str) : str :=
  match fuel with
  | O => aft
  | S f =>
      match match_at 0 r bef aft with
      | Some y =>
          if length (after y) =? length aft
          then t ++ match aft with [] => [] | c :: aft' => c :: replace_all_go f r t (c :: bef) aft' end
          else t ++ replace_all_go f r t (before y) (after y)
      | None => match aft with [] => [] | c :: aft' => c :: replace_all_go f r t (c :: bef) aft' end
      end
  end.

Definition replace_all (r : regex) (t s : str) : str := replace_all_go (S (length s)) r t [] s.

(** [s.replace(re, f)] without the [g] flag: the first match is replaced by a text
    made from its captures. *)
Definition replace_first (ng : nat) (r : regex) (f : list (option str) → str) (s : str) : str :=
  match exec_from ng r [] s with
  | Some y => take (length (before y) - length (default [] (default None (caps y !! 0)))) s ++ f (caps y) ++ after y
  | None => s
  end.

(** ** Equations *)

Lemma m_lit s k bef t cs :
  m (rlit s) k (mk bef (s ++ t) cs) = k (mk (rev s ++ bef) t cs).
Proof.
  revert bef. induction s as [|c s IH]; intros bef; [done|].
  destruct s as [|d s]; [simpl; by rewrite N.eqb_refl|].
  change (rlit (c :: d :: s)) with (RSeq (RChar (N.eqb c)) (rlit (d :: s))).
  cbn [m after app]. rewrite N.eqb_refl. change (d :: s ++ t) with ((d :: s) ++ t).
  cbn [before caps]. rewrite (IH (c :: bef)). simpl. by rewrite <- !app_assoc.
Qed.

Lemma m_lit_fail s k bef t cs :
  starts_with s t = false → m (rlit s) k (mk bef t cs) = None.
Proof.
  revert bef t. induction s as [|c s IH]; intros bef t; [done|].
  destruct s as [|d s].
  - simpl. destruct t as [|e t]; [done|]. simpl. rewrite andb_true_r. by intros ->.
  - change (rlit (c :: d :: s)) with (RSeq (RChar (N.eqb c)) (rlit (d :: s))).
    destruct t as [|e t]; [done|]. cbn [starts_with]. cbn [m after].
    destruct (c =? e)%N; [|done]. simpl andb. intros H. apply IH. exact H.
Qed.

(** Iteration of a class, without fuel: the greedy run. *)
Fixpoint star_run (p : N → bool) (k : mstate → option mstate) (cs : list (option str))
  (bef aft : str) : option mstate :=
  match aft with
  | [] => k (mk bef [] cs)
  | c :: aft' =>
      if p c
      then match star_run p k cs (c :: bef) aft' with
           | Some y => Some y
           | None => k (mk bef aft cs)
           end
      else k (mk bef aft cs)
  end.

Lemma m_star p k bef aft cs :
  m (rstar (RChar p)) k (mk bef aft cs) = star_run p k cs bef aft.
Proof.
  assert (H : ∀ f bef, length aft < f →
    star_loop (m (RChar p)) [] true k f (mk bef aft cs) = star_run p k cs bef aft).
  { clear bef. induction aft as [|c aft IH]; intros [|f] bef Hf; try (simpl in Hf; lia); [done|].
    cbn [star_loop m after clear_caps fold_right before caps star_run].
    destruct (p c); [|done].
    replace (length aft =? length (c :: aft)) with false
      by (symmetry; apply Nat.eqb_neq; simpl; lia).
    rewrite IH by (simpl in Hf; lia). done. }
  apply H. simpl. lia.
Qed.

(** A greedy class run commits to the longest prefix when the continuation
    accepts there... *)
Lemma star_run_commit p k cs bef w t y :
  Forall (λ c, p c = true) w →
  match t with [] => True | c :: _ => p c = false end →
  k (mk (rev w ++ bef) t cs) = Some y →
  star_run p k cs bef (w ++ t) = Some y.
Proof.
  intros Hw Ht. revert bef. induction Hw as [|c w Hc Hw IH]; intros bef Hk.
  - destruct t as [|c t]; simpl in *; [done|]. by rewrite Ht.
  - simpl. rewrite Hc. rewrite IH; [done|]. simpl in Hk. by rewrite <- app_assoc in Hk.
Qed.

(** ... and, when the continuation refuses every position that starts with a
    character of the class, it is the only position that matters. *)
Lemma star_run_det p k cs bef w t :
  Forall (λ c, p c = true) w →
  match t with [] => True | c :: _ => p c = false end →
  (∀ bef' c s, p c = true → k (mk bef' (c :: s) cs) = None) →
  star_run p k cs bef (w ++ t) = k (mk (rev w ++ bef) t cs).
Proof.
  intros Hw Ht Hk. revert bef. induction Hw as [|c w Hc Hw IH]; intros bef.
  - destruct t as [|c t]; simpl in *; [done|]. by rewrite Ht.
  - simpl. rewrite Hc, IH, <- app_assoc. simpl. rewrite Hk by done.
    by destruct (k (mk (rev w ++ c :: bef) t cs)).
Qed.

(** A continuation that fails on the whole class run makes the run fail. *)
Lemma star_run_none p k cs bef w t :
  Forall (λ c, p c = true) w →
  match t with [] => True | c :: _ => p c = false end →
  (∀ w1 w2, w = w1 ++ w2 → k (mk (rev w1 ++ bef) (w2 ++ t) cs) = None) →
  star_run p k cs bef (w ++ t) = None.
Proof.
  intros Hw Ht. revert bef. induction Hw as [|c w Hc Hw IH]; intros bef Hk.
  - specialize (Hk [] [] eq_refl). destruct t as [|c t]; simpl in *; [done|]. by rewrite Ht.
  - simpl. rewrite Hc, IH.
    + apply (Hk [] (c :: w) eq_refl).
    + intros w1 w2 ->. specialize (Hk (c :: w1) w2 eq_refl). simpl in Hk. by rewrite <- app_assoc in Hk.
Qed.

(** [p+] on a non-empty run. *)
Lemma m_plus p k bef c w t cs :
  p c = true →
  m (rplus (RChar p)) k (mk bef (c :: w ++ t) cs) = star_run p k cs (c :: bef) (w ++ t).
Proof. intros Hc. unfold rplus. cbn [m after]. rewrite Hc. apply m_star. Qed.

(** Group captures: the text consumed. *)
Lemma take_consumed (w t : str) : take (length (w ++ t) - length t) (w ++ t) = w.
Proof. rewrite length_app. replace (length w + length t - length t) with (length w) by lia. apply take_app_length. Qed.

(** An anchored expression is only tried at the start. *)
Lemma exec_from_bol_moved ng r c bef aft : exec_from ng (RSeq RBol r) (c :: bef) aft = None.
Proof. revert c bef. induction aft as [|d aft IH]; intros c bef; simpl; [done|apply IH]. Qed.

Lemma exec_from_bol ng r s :
  exec_from ng (RSeq RBol r) [] s = match_at ng r [] s.
Proof.
  destruct s as [|c s]; cbn [exec_from].
  - unfold match_at at 1. cbn [m before]. fold (match_at ng r [] []).
    unfold match_at. cbn [m]. by destruct (m r _ _).
  - rewrite exec_from_bol_moved. unfold match_at at 1. cbn [m before].
    unfold match_at. cbn [m]. by destruct (m r _ _).
Qed.

Lemma match_re_bol ng r s : match_re ng (RSeq RBol r) s = caps <$> match_at ng r [] s.
Proof. unfold match_re. by rewrite exec_from_bol. Qed.

(** ** Step equations *)

Lemma m_seq r1 r2 k : m (RSeq r1 r2) k = m r1 (m r2 k).
Proof. done. Qed.

Lemma m_alt r1 r2 k x :
  m (RAlt r1 r2) k x = match m r1 k x with Some y => Some y | None => m r2 k x end.
Proof. done. Qed.

Lemma m_group n r k bef aft cs :
  m (RGroup n r) k (mk bef aft cs) =
  m r (λ y, k (mk (before y) (after y)
                 (<[n := Some (take (length aft - length (after y)) aft)]> (caps y)))) (mk bef aft cs).
Proof. done. Qed.

Lemma m_eol k bef cs : m REol k (mk bef [] cs) = k (mk bef [] cs).
Proof. done. Qed.

Lemma m_eol_fail k bef c t cs : m REol k (mk bef (c :: t) cs) = None.
Proof. done. Qed.

Lemma m_lit_head_fail c s k bef d t cs :
  c ≠ d → m (rlit (c :: s)) k (mk bef (d :: t) cs) = None.
Proof. intros H. apply m_lit_fail. simpl. by rewrite (proj2 (N.eqb_neq c d)). Qed.

(** A captured run [p+] whose continuation refuses characters of the class. *)
Lemma m_group_plus_det n p k bef w t cs :
  w ≠ [] → Forall (λ c, p c = true) w →
  match t with [] => True | c :: _ => p c = false end →
  (∀ bef' c s cs', p c = true → k (mk bef' (c :: s) cs') = None) →
  m (RGroup n (rplus (RChar p))) k (mk bef (w ++ t) cs) = k (mk (rev w ++ bef) t (<[n := Some w]> cs)).
Proof.
  intros Hne Hw Ht Hk. rewrite m_group. destruct w as [|c w]; [done|].
  pose proof (Forall_cons_1 _ _ _ Hw) as [Hc Hw']. simpl app. rewrite m_plus by done.
  rewrite star_run_det; [|done|done|].
  - cbn [before after caps]. change (c :: w ++ t) with ((c :: w) ++ t). rewrite take_consumed.
    simpl. by rewrite <- app_assoc.
  - intros bef' c' s Hc'. simpl. by apply Hk.
Qed.

(** A captured run [p+] whose continuation accepts at its end. *)
Lemma m_group_plus_commit n p k bef w t cs y :
  w ≠ [] → Forall (λ c, p c = true) w →
  match t with [] => True | c :: _ => p c = false end →
  k (mk (rev w ++ bef) t (<[n := Some w]> cs)) = Some y →
  m (RGroup n (rplus (RChar p))) k (mk bef (w ++ t) cs) = Some y.
Proof.
  intros Hne Hw Ht Hk. rewrite m_group. destruct w as [|c w]; [done|].
  apply Forall_cons in Hw as [Hc Hw].
  change (mk bef ((c :: w) ++ t) cs) with (mk bef (c :: w ++ t) cs). rewrite m_plus by done.
  apply star_run_commit; [done|done|]. cbn [before after caps]. rewrite take_consumed.
  simpl in Hk. by rewrite <- app_assoc in Hk.
Qed.

Lemma m_group_plus_end n p k bef w cs y :
  w ≠ [] → Forall (λ c, p c = true) w →
  k (mk (rev w ++ bef) [] (<[n := Some w]> cs)) = Some y →
  m (RGroup n (rplus (RChar p))) (m REol k) (mk bef w cs) = Some y.
Proof.
  intros Hne Hw Hk. pose proof (m_group_plus_commit n p (m REol k) bef w [] cs y Hne Hw I Hk) as H.
  by rewrite app_nil_r in H.
Qed.

(** The same for a run [p*]. *)
Lemma m_group_star_det n p k bef w t cs :
  Forall (λ c, p c = true) w →
  match t with [] => True | c :: _ => p c = false end →
  (∀ bef' c s cs', p c = true → k (mk bef' (c :: s) cs') = None) →
  m (RGroup n (rstar (RChar p))) k (mk bef (w ++ t) cs) = k (mk (rev w ++ bef) t (<[n := Some w]> cs)).
Proof.
  intros Hw Ht Hk. rewrite m_group, m_star, star_run_det; [|done|done|].
  - cbn [before after caps]. by rewrite take_consumed.
  - intros bef' c' s Hc'. simpl. by apply Hk.
Qed.

(** A greedy run that swallows the continuation's text and gives it back. *)
Lemma star_run_backtrack p k cs bef w t y :
  Forall (λ c, p c = true) (w ++ t) →
  k (mk (rev w ++ bef) t cs) = Some y →
  (∀ t1 t2, t = t1 ++ t2 → t1 ≠ [] → k (mk (rev t1 ++ rev w ++ bef) t2 cs) = None) →
  star_run p k cs bef (w ++ t) = Some y.
Proof.
  revert bef. induction w as [|c w IH]; intros bef Hall Hk Hno.
  - simpl in *. destruct t as [|c t]; [done|]. simpl.
    apply Forall_cons in Hall as [Hc Hall]. rewrite Hc. rewrite <- (app_nil_r t).
    rewrite star_run_none; [by rewrite app_nil_r|done|done|].
    intros w1 w2 ->. specialize (Hno (c :: w1) w2). rewrite app_nil_r.
    simpl in Hno. rewrite <- app_assoc in Hno. by apply Hno.
  - simpl in *. apply Forall_cons in Hall as [Hc Hall]. rewrite Hc.
    rewrite IH; [done|done|by rewrite <- app_assoc in Hk|].
    intros t1 t2 Ht Hne. specialize (Hno t1 t2 Ht Hne). by rewrite <- !app_assoc in Hno.
Qed.

(** ** What a match consumes *)

(** All characters an expression can consume satisfy [P]. *)
Fixpoint over (P : N → Prop) (r : regex) : Prop :=
  match r with
  | RChar p => ∀ c, p c = true → P c
  | RSeq r1 r2 | RAlt r1 r2 => over P r1 ∧ over P r2
  | RStar _ r | ROpt r | RGroup _ r => over P r
  | RBackref _ => False
  | _ => True
  end.

Definition consumed (P : N → Prop) (k : mstate → option mstate) (x y : mstate) : Prop :=
  ∃ w x', after x = w ++ after x' ∧ Forall P w ∧ k x' = Some y.

Lemma m_over P r : over P r → ∀ k x y, m r k x = Some y → consumed P k x y.
Proof.
  induction r as [p| |r1 IH1 r2 IH2|r1 IH1 r2 IH2|g r IH|r IH|n r IH|n| | |];
    simpl over; intros Hov k x y Hm.
  - cbn [m] in Hm. destruct (after x) as [|c t] eqn:E; [done|].
    destruct (p c) eqn:Ep; [|done]. exists [c], (mk (c :: before x) t (caps x)).
    split_and!; [done|by repeat constructor; auto|done].
  - exists [], x. done.
  - destruct Hov as [H1 H2]. rewrite m_seq in Hm.
    apply (IH1 H1) in Hm as (w1 & x1 & Ha1 & Hw1 & Hm). apply (IH2 H2) in Hm as (w2 & x2 & Ha2 & Hw2 & Hm).
    exists (w1 ++ w2), x2. split_and!; [by rewrite Ha1, Ha2, app_assoc|by apply Forall_app|done].
  - destruct Hov as [H1 H2]. rewrite m_alt in Hm. destruct (m r1 k x) as [z|] eqn:E1.
    + simplify_eq. by apply (IH1 H1).
    + by apply (IH2 H2).
  - change (star_loop (m r) (groups r) g k (S (length (after x))) x = Some y) in Hm.
    assert (H : ∀ f x, star_loop (m r) (groups r) g k f x = Some y → consumed P k x y).
    { clear x Hm. induction f as [|f IHf]; intros x0 Hm; [by exists [], x0|].
      cbn [star_loop] in Hm. cbv zeta in Hm. set (again := m r _ _) in Hm.
      assert (Hag : again = Some y → consumed P k x0 y).
      { intros Hy. apply (IH Hov) in Hy as (w & x1 & Ha & Hw & Hy). simpl in Ha.
        destruct (_ =? _); [done|]. apply IHf in Hy as (w2 & x2 & Ha2 & Hw2 & Hk).
        exists (w ++ w2), x2. split_and!; [by rewrite Ha, Ha2, app_assoc|by apply Forall_app|done]. }
      destruct g.
      - destruct again; [simplify_eq; by apply Hag|by exists [], x0].
      - destruct (k x0) eqn:Ek; [simplify_eq; by exists [], x0|by apply Hag]. }
    by eapply H.
  - cbn [m] in Hm. destruct (m r _ _) as [z|] eqn:E.
    + simplify_eq. apply (IH Hov) in E as (w & x1 & Ha & Hw & Hy). destruct (_ =? _); [done|].
      by exists w, x1.
    + by exists [], x.
  - cbn [m] in Hm. apply (IH Hov) in Hm as (w & x1 & Ha & Hw & Hy).
    eexists w, _. split_and!; [|done|exact Hy]. done.
  - done.
  - cbn [m] in Hm. destruct (before x); [by exists [], x|done].
  - cbn [m] in Hm. destruct (after x) eqn:E; [|done]. exists [], x. done.
  - cbn [m] in Hm. destruct (xorb _ _); [by exists [], x|done].
Qed.

(** A fully anchored expression that matches consists of its own characters. *)
Lemma test_anchored_over P r s :
  over P r → test_re (RSeq RBol (RSeq r REol)) s = true → Forall P s.
Proof.
  intros Hov. unfold test_re. rewrite exec_from_bol. unfold match_at. rewrite m_group, m_seq.
  destruct (m r _ _) as [y|] eqn:E; [|done]. intros _.
  apply (m_over P r Hov) in E as (w & x' & Ha & Hw & Hk). simpl in Ha.
  destruct x' as [b a cs]. simpl in *. destruct a; [|done]. by rewrite app_nil_r in Ha; subst.
Qed.

(** ** Sequences, optional parts and repeated pieces *)

Lemma m_rseq_app l1 l2 k : m (rseq (l1 ++ l2)) k = m (rseq l1) (m (rseq l2) k).
Proof.
  induction l1 as [|r l1 IH]; [done|].
  destruct l1 as [|r' l1]; [by destruct l2|].
  change (m r (m (rseq ((r' :: l1) ++ l2)) k) = m r (m (rseq (r' :: l1)) (m (rseq l2) k))).
  by rewrite IH.
Qed.

Lemma m_rseq_cons r l k : m (rseq (r :: l)) k = m r (m (rseq l) k).
Proof. apply (m_rseq_app [r] l). Qed.

Lemma m_opt_take r k bef aft cs y :
  m r (λ z, if length (after z) =? length aft then None else k z) (mk bef aft (clear_caps (groups r) cs)) = Some y →
  m (ROpt r) k (mk bef aft cs) = Some y.
Proof. cbn [m before after caps]. by intros ->. Qed.

Lemma m_opt_skip r k bef aft cs :
  (∀ k' cs', m r k' (mk bef aft cs') = None) → m (ROpt r) k (mk bef aft cs) = k (mk bef aft cs).
Proof. intros H. cbn [m before after caps]. by rewrite H. Qed.

(** [r*] over a list of pieces it takes one by one, when it refuses what follows. *)
Lemma m_star_pieces {A} (r : regex) (piece : A → str) k t cs l :
  groups r = [] →
  (∀ a bef u k, a ∈ l → (u = t ∨ ∃ b u', b ∈ l ∧ u = piece b ++ u') →
     ∃ bef', ∀ y, k (mk bef' u cs) = Some y → m r k (mk bef (piece a ++ u) cs) = Some y) →
  Forall (λ a, piece a ≠ []) l →
  (∀ k bef, m r k (mk bef t cs) = None) →
  ∀ bef, ∃ bef', ∀ y, k (mk bef' t cs) = Some y →
    m (rstar r) k (mk bef (concat (map piece l) ++ t) cs) = Some y.
Proof.
  intros Hg Htake Hne Hstop bef.
  assert (H : ∀ l' f bef, (∀ a, a ∈ l' → a ∈ l) → length (concat (map piece l') ++ t) < f →
    ∃ bef', ∀ y, k (mk bef' t cs) = Some y →
      star_loop (m r) [] true k f (mk bef (concat (map piece l') ++ t) cs) = Some y).
  { clear bef. induction l' as [|a l' IH]; intros [|f] bef Hin Hf; try (simpl in Hf; lia).
    - exists bef. intros y Hk. cbn [map concat app star_loop before after caps clear_caps fold_right]. cbv zeta.
      by rewrite Hstop, Hk.
    - cbn [map concat] in *. rewrite <- app_assoc in *.
      cbn [star_loop before after caps clear_caps fold_right]. cbv zeta.
      assert (a ∈ l) as Ha by (apply Hin; set_solver).
      assert (length (piece a) ≠ 0) as Hla.
      { rewrite Forall_forall in Hne. specialize (Hne a Ha). by destruct (piece a). }
      set (u := concat (map piece l') ++ t) in *. rewrite length_app in Hf.
      match goal with |- context [m r ?k0 _] => set (k' := k0) end.
      destruct (Htake a bef u k' Ha) as [bef1 H1].
      { destruct l' as [|b l']; [by left|]. right. exists b, (concat (map piece l') ++ t).
        split; [apply Hin; set_solver|]. unfold u. simpl. by rewrite <- app_assoc. }
      destruct (IH f bef1) as [bef2 H2]; [intros b Hb; apply Hin; set_solver|lia|].
      exists bef2. intros y Hk. rewrite (H1 y); [done|]. unfold k'. cbn [after].
      rewrite (proj2 (Nat.eqb_neq _ _)); [by apply H2|]. rewrite length_app. lia. }
  unfold rstar. cbn [m]. rewrite Hg. apply H; [done|]. simpl. lia.
Qed.

(** ** Whole matches *)

Lemma match_re_some ng r s cs :
  (∀ k, ∃ bef, ∀ y, k (mk bef [] cs) = Some y → m r k (mk [] s (replicate (S ng) None)) = Some y) →
  match_re ng (RSeq RBol r) s = Some (<[0 := Some s]> cs).
Proof.
  intros H. rewrite match_re_bol. unfold match_at. rewrite m_group. cbn [after].
  set (k := λ y, Some _). destruct (H k) as [bef Hb]. rewrite (Hb _ eq_refl). simpl.
  by rewrite Nat.sub_0_r, firstn_all.
Qed.

Lemma match_re_none ng r s :
  (∀ k, m r k (mk [] s (replicate (S ng) None)) = None) → match_re ng (RSeq RBol r) s = None.
Proof. intros H. rewrite match_re_bol. unfold match_at. by rewrite m_group, H. Qed.

Lemma m_backref n w k bef t cs :
  cs !! n = Some (Some w) → m (RBackref n) k (mk bef (w ++ t) cs) = k (mk (rev w ++ bef) t cs).
Proof. intros H. cbn [m caps after]. rewrite H, starts_with_app, drop_app_length. done. Qed.

Lemma over_lit (P : N → Prop) s : Forall P s → over P (rlit s).
Proof.
  induction 1 as [|c s Hc Hs IH]; [done|]. destruct s as [|d s].
  - simpl. intros x Hx. apply N.eqb_eq in Hx. by subst.
  - cbn [rlit over]. split; [|exact IH]. intros x Hx. apply N.eqb_eq in Hx. by subst.
Qed.

Lemma m_rseq_eol P l k x y :
  Forall (over P) l → m (rseq (l ++ [REol])) k x = Some y → Forall P (after x).
Proof.
  intros Hl. revert x. induction Hl as [|r l Hr Hl IH]; intros x Hm.
  - simpl in Hm. destruct (after x); done.
  - assert (m r (m (rseq (l ++ [REol])) k) x = Some y) as Hm'.
    { simpl in Hm. by destruct (l ++ [REol]) eqn:E; [destruct l|]. }
    apply (m_over P r Hr) in Hm' as (w & x' & Ha & Hw & Hk).
    rewrite Ha. apply Forall_app. split; [done|]. by apply IH.
Qed.

(** ** Searching *)

Lemma exec_from_here ng r bef aft y : match_at ng r bef aft = Some y → exec_from ng r bef aft = Some y.
Proof. intros H. destruct aft; cbn [exec_from]; by rewrite H. Qed.

Lemma exec_from_next ng r bef c aft :
  match_at ng r bef (c :: aft) = None → exec_from ng r bef (c :: aft) = exec_from ng r (c :: bef) aft.
Proof. intros H. cbn [exec_from]. by rewrite H. Qed.

(** A position whose next character the expression cannot start with is passed over. *)
Lemma exec_from_over ng r bef w t :
  (∀ bef' c s, c ∈ w → match_at ng r bef' (c :: s) = None) →
  exec_from ng r bef (w ++ t) = exec_from ng r (rev w ++ bef) t.
Proof.
  revert bef. induction w as [|c w IH]; intros bef H; [done|]. simpl app.
  rewrite exec_from_next by (apply H; set_solver).
  rewrite IH by (intros; apply H; set_solver). simpl. by rewrite <- app_assoc.
Qed.

(** Lazy iteration of a class, without fuel. *)
Fixpoint lazy_run (p : N → bool) (k : mstate → option mstate) (cs : list (option str))
  (bef aft : str) : option mstate :=
  match k (mk bef aft cs) with
  | Some y => Some y
  | None => match aft with
            | c :: aft' => if p c then lazy_run p k cs (c :: bef) aft' else None
            | [] => None
            end
  end.

Lemma m_lazy p k bef aft cs :
  m (RStar false (RChar p)) k (mk bef aft cs) = lazy_run p k cs bef aft.
Proof.
  assert (H : ∀ f bef, length aft < f →
    star_loop (m (RChar p)) [] false k f (mk bef aft cs) = lazy_run p k cs bef aft).
  { clear bef. induction aft as [|c aft IH]; intros [|f] bef Hf; try (simpl in Hf; lia);
      cbn [star_loop m after clear_caps fold_right before caps lazy_run]; [done|].
    destruct (k _); [done|]. destruct (p c); [|done].
    replace (length aft =? length (c :: aft)) with false
      by (symmetry; apply Nat.eqb_neq; simpl; lia).
    rewrite IH by (simpl in Hf; lia). done. }
  apply H. simpl. lia.
Qed.

(** [c+$] accepts exactly a non-empty run of [c] up to the end. *)
Lemma m_plus_eol p k bef aft cs :
  m (rplus (RChar p)) (m REol k) (mk bef aft cs)
  = if truthy aft && forallb p aft then k (mk (rev aft ++ bef) [] cs) else None.
Proof.
  assert (H : ∀ aft bef, star_run p (m REol k) cs bef aft
                         = if forallb p aft then k (mk (rev aft ++ bef) [] cs) else None).
  { clear aft bef. intros aft. induction aft as [|c aft IH]; intros bef; [done|]. cbn [star_run forallb]. destruct (p c); [|done].
    rewrite IH. simpl rev. rewrite <- app_assoc. simpl.
    destruct (forallb p aft); [|done]. by destruct (k _). }
  destruct aft as [|c aft]; [done|]. unfold rplus. cbn [m after truthy andb forallb].
  destruct (p c); [|done]. rewrite m_star, H. simpl. by rewrite <- app_assoc.
Qed.

(** ** What a replacement leaves *)

Lemma match_at_suffix r bef aft y :
  over (λ _, True) r → match_at 0 r bef aft = Some y → ∃ w, aft = w ++ after y.
Proof.
  intros Hov Hm. unfold match_at in Hm. apply (m_over (λ _, True) (RGroup 0 r) Hov) in Hm as (w & x' & Ha & _ & Hk).
  injection Hk as <-. by exists w.
Qed.

(** Every character comes from the text or from the replacement. *)
Lemma replace_all_Forall (P : N → Prop) r t s :
  over (λ _, True) r → Forall P t → Forall P s → Forall P (replace_all r t s).
Proof.
  intros Hov Ht. unfold replace_all. generalize (S (length s)). intros fuel. generalize (@nil N).
  revert s. induction fuel as [|f IH]; intros s bef Hs; [done|]. cbn [replace_all_go].
  assert (Forall P match s with [] => [] | c :: aft' => c :: replace_all_go f r t (c :: bef) aft' end) as Hnext.
  { destruct s as [|c s]; [done|]. apply Forall_cons in Hs as [Hc Hs]. constructor; [done|by apply IH]. }
  destruct (match_at 0 r bef s) as [y|] eqn:E; [|done].
  apply match_at_suffix in E as [w ->]; [|done]. apply Forall_app in Hs as [_ Hs].
  destruct (length (after y) =? _); apply Forall_app; split; [exact Ht|exact Hnext|exact Ht|by apply IH].
Qed.

(** Replacing the characters of a class leaves none of them. *)
Lemma replace_char_none (p : N → bool) t s :
  Forall (λ c, p c = false) t → Forall (λ c, p c = false) (replace_all (RChar p) t s).
Proof.
  intros Ht. unfold replace_all. assert (∀ fuel s bef, length s < fuel →
    Forall (λ c, p c = false) (replace_all_go fuel (RChar p) t bef s)) as H; [|apply H; lia].
  clear s. induction fuel as [|f IH]; intros s bef Hlen; [lia|]. cbn [replace_all_go].
  unfold match_at. rewrite m_group. cbn [m after]. destruct s as [|c s]; [constructor|]. cbn in Hlen.
  destruct (p c) eqn:Ep; cbn [after before].
  - assert (length s =? length (c :: s) = false) as -> by (apply Nat.eqb_neq; cbn; lia).
    apply Forall_app. split; [done|]. apply IH. lia.
  - constructor; [done|]. apply IH. lia.
Qed.
