(* ===== verification/JsNumber.v ===== *)
(** * JavaScript numbers

    A JavaScript number is an IEEE 754 binary64 value: the Standard Library's
    [spec_float] at precision 53 and maximal exponent 1024, whose operations
    round to nearest, ties to even.  This file adds the conversions the sources
    use: [Number(s)], [String(x)], [Number.isFinite], comparisons, [Math.max],
    [Math.min] and the truthiness of a number.

    Decimal text is converted by rounding the exact rational value once, as the
    standard asks; [String(x)] prints the shortest digits that read back as [x],
    found by trying 1, 2, ... digits.  Seventeen digits suffice for binary64; the
    search falls back on the exact expansion, so that reading a printed number
    back is the identity by construction ([number_of_string_of]). *)

From S2P Require Import Prelude JsString.
From Stdlib Require Export SpecFloat.

Local Open Scope Z_scope.

Abbreviation num := spec_float.

Definition prec : Z := 53.
Definition emax : Z := 1024.

#[export] Instance num_eq_dec : EqDecision num.
Proof. solve_decision. Defined.

Definition valid_num (x : num) : bool := valid_binary prec emax x.

(** ** Arithmetic and comparison *)

Definition nadd : num → num → num := SFadd prec emax.
Definition nsub : num → num → num := SFsub prec emax.
Definition nmul : num → num → num := SFmul prec emax.
Definition ndiv : num → num → num := SFdiv prec emax.
Definition nlt (a b : num) : bool := SFltb a b.
Definition nle (a b : num) : bool := SFleb a b.
(** [===] on numbers *)
Definition num_eqb (a b : num) : bool := SFeqb a b.

Definition is_nan (x : num) : bool := match x with S754_nan => true | _ => false end.

Definition is_finite (x : num) : bool :=
  match x with S754_zero _ | S754_finite _ _ _ => true | _ => false end.

(** [Boolean(x)]: zero and NaN are falsy. *)
Definition num_truthy (x : num) : bool :=
  match x with S754_zero _ | S754_nan => false | _ => true end.

Definition pzero : num := S754_zero false.

(** [x || 0] *)
Definition or_zero (x : num) : num := if num_truthy x then x else pzero.

(** The integer [z] as a number (rounded when it is not representable). *)
Definition num_of_Z (z : Z) : num := binary_normalize prec emax z 0 false.

Definition math_max (a b : num) : num :=
  if is_nan a || is_nan b then S754_nan
  else match a, b with
       | S754_zero s1, S754_zero s2 => S754_zero (s1 && s2)
       | _, _ => if nlt a b then b else a
       end.

Definition math_min (a b : num) : num :=
  if is_nan a || is_nan b then S754_nan
  else match a, b with
       | S754_zero s1, S754_zero s2 => S754_zero (s1 || s2)
       | _, _ => if nlt b a then b else a
       end.

(** ** [Number(s)] *)

Definition set_sign (neg : bool) (x : num) : num := if neg then SFopp x else x.

(** [n / d] rounded, for positive integers. *)
Definition round_ratio (n d : positive) : num :=
  let '(q, e, l) := SFdiv_core_binary prec emax (Zpos n) 0 (Zpos d) 0 in
  binary_round_aux prec emax false q e l.

(** The decimal [d * 10^e] rounded to a number. *)
Definition dec_to_num (d : N) (e : Z) : num :=
  match d with
  | N0 => pzero
  | Npos p =>
      if 0 <=? e then binary_normalize prec emax (Zpos p * 10 ^ e) 0 false
      else round_ratio p (Z.to_pos (10 ^ (- e)))
  end.

Fixpoint take_while (p : N → bool) (s : str) : str * str :=
  match s with
  | [] => ([], [])
  | c :: s' => if p c then let '(a, b) := take_while p s' in (c :: a, b) else ([], s)
  end.

(** A signed exponent part after [e]: all of [s] must be consumed. *)
Definition parse_exponent (s : str) : option Z :=
  let '(neg, t) := match s with
                   | c :: t => if (c =? 43)%N then (false, t) else if (c =? 45)%N then (true, t) else (false, s)
                   | [] => (false, [])
                   end in
  if truthy t && forallb is_digit t
  then Some (if neg : bool then - Z.of_N (dec_val t) else Z.of_N (dec_val t))
  else None.

(** StrUnsignedDecimalLiteral: digits, fraction, exponent. *)
Definition parse_udecimal (s : str) : option (N * Z) :=
  let '(ip, r1) := take_while is_digit s in
  let '(fp, r2) := match r1 with
                   | c :: t => if (c =? 46)%N then take_while is_digit t else ([], r1)
                   | [] => ([], [])
                   end in
  if negb (truthy ip) && negb (truthy fp) then None
  else
    let d := dec_val (ip ++ fp) in
    let e0 := - Z.of_nat (length fp) in
    match r2 with
    | [] => Some (d, e0)
    | c :: t =>
        if ((c =? 101) || (c =? 69))%N then
          match parse_exponent t with Some e => Some (d, e0 + e) | None => None end
        else None
    end.

Definition hex_digit (c : N) : option N :=
  if is_digit c then Some (c - 48)%N
  else if ((97 <=? c) && (c <=? 102))%N then Some (c - 87)%N
  else if ((65 <=? c) && (c <=? 70))%N then Some (c - 55)%N
  else None.

Fixpoint parse_radix (radix : N) (acc : N) (s : str) : option N :=
  match s with
  | [] => Some acc
  | c :: s' =>
      match hex_digit c with
      | Some d => if (d <? radix)%N then parse_radix radix (acc * radix + d)%N s' else None
      | None => None
      end
  end.

(** [Number(s)] for a string. *)
Definition number_of_string (s : str) : num :=
  let t := trim s in
  match t with
  | [] => pzero
  | 48%N :: x :: r =>
      let radix := if ((x =? 120) || (x =? 88))%N then 16%N
                   else if ((x =? 111) || (x =? 79))%N then 8%N
                   else if ((x =? 98) || (x =? 66))%N then 2%N else 0%N in
      if (radix =? 0)%N then
        match parse_udecimal t with Some (d, e) => dec_to_num d e | None => S754_nan end
      else match r with
           | [] => S754_nan
           | _ => match parse_radix radix 0 r with
                  | Some n => num_of_Z (Z.of_N n)
                  | None => S754_nan
                  end
           end
  | c :: r =>
      let '(neg, u) := if (c =? 43)%N then (false, r) else if (c =? 45)%N then (true, r) else (false, t) in
      if bool_decide (u = js "Infinity") then S754_infinity neg
      else match parse_udecimal u with
           | Some (d, e) => set_sign neg (dec_to_num d e)
           | None => S754_nan
           end
  end.

(** ** [String(x)] *)

(** Least [n] with [v < 10^n], for [v = nu / de]. *)
Definition dec_exponent (nu de : positive) : Z :=
  let q := Z.pos nu / Z.pos de in
  if 0 <? q then Z.of_nat (length (N_dec (Z.to_N q)))
  else
    (fix go (fuel : nat) (j : Z) : Z :=
       match fuel with
       | O => 1 - j
       | S f => if Z.pos de <=? Z.pos nu * 10 ^ j then 1 - j else go f (j + 1)
       end) 400%nat 1.

(** Is the magnitude of [x] what [s * 10^e] reads as? *)
Definition reads_as (x : num) (s : N) (e : Z) : bool := bool_decide (dec_to_num s e = x).

(** [s * 10^e] for exact rationals: floor of [v / 10^e]. *)
Definition floor_at (nu de : positive) (e : Z) : N :=
  Z.to_N (if 0 <=? e then Z.pos nu / (Z.pos de * 10 ^ e) else Z.pos nu * 10 ^ (- e) / Z.pos de).

(** Twice the distance test: is the floor candidate nearer to [v]? *)
Definition floor_nearer (nu de : positive) (e : Z) (s : N) : bool :=
  let s2 := 2 * Z.of_N s + 1 in
  if 0 <=? e
  then (2 * Z.pos nu <? s2 * Z.pos de * 10 ^ e)
       || ((2 * Z.pos nu =? s2 * Z.pos de * 10 ^ e) && N.even s)
  else (2 * Z.pos nu * 10 ^ (- e) <? s2 * Z.pos de)
       || ((2 * Z.pos nu * 10 ^ (- e) =? s2 * Z.pos de) && N.even s).

(** Shortest digits [s] and exponent [e] with [s * 10^e] reading as [x]. *)
Fixpoint shortest (fuel : nat) (x : num) (nu de : positive) (n : Z) (k : Z) : option (N * Z) :=
  match fuel with
  | O => None
  | S f =>
      let e := n - k in
      let lo := floor_at nu de e in
      let hi := (lo + 1)%N in
      match reads_as x lo e, reads_as x hi e with
      | true, true => Some (if floor_nearer nu de e lo then lo else hi, e)
      | true, false => Some (lo, e)
      | false, true => Some (hi, e)
      | false, false => shortest f x nu de n (k + 1)
      end
  end.

(** Drop trailing decimal zeros (they only arise when rounding up carries). *)
Fixpoint strip_zeros (fuel : nat) (s : N) (e : Z) : N * Z :=
  match fuel with
  | O => (s, e)
  | S f => if (s mod 10 =? 0)%N && negb (s =? 0)%N then strip_zeros f (s / 10)%N (e + 1) else (s, e)
  end.

(** The magnitude [m * 2^e] as digits and a decimal exponent. *)
Definition digits_of (p : positive) (e : Z) : N * Z :=
  let x := S754_finite false p e in
  let nu := if 0 <=? e then Z.to_pos (Z.pos p * 2 ^ e) else p in
  let de := if 0 <=? e then 1%positive else Z.to_pos (2 ^ (- e)) in
  match shortest 17 x nu de (dec_exponent nu de) 1 with
  | Some (s, e') =>
      let '(s', e'') := strip_zeros 20 s e' in
      if reads_as x s' e'' then (s', e'') else (s, e')
  | None => if 0 <=? e then (Z.to_N (Z.pos p * 2 ^ e), 0)
            else (Z.to_N (Z.pos p * 5 ^ (- e)), e)
  end.

Definition zeros (n : Z) : str := replicate (Z.to_nat n) 48%N.

(** Number::toString for a positive finite value [s * 10^e]. *)
Definition format_digits (s : N) (e : Z) : str :=
  let ds := N_dec s in
  let k := Z.of_nat (length ds) in
  let n := k + e in
  if (k <=? n) && (n <=? 21) then ds ++ zeros (n - k)
  else if (0 <? n) && (n <=? 21) then take (Z.to_nat n) ds ++ js "." ++ drop (Z.to_nat n) ds
  else if (-6 <? n) && (n <=? 0) then js "0." ++ zeros (- n) ++ ds
  else
    let ex := (if 0 <? n - 1 then js "+" else js "-") ++ N_dec (Z.abs_N (n - 1)) in
    match ds with
    | [d] => [d] ++ js "e" ++ ex
    | d :: ds' => [d] ++ js "." ++ ds' ++ js "e" ++ ex
    | [] => []
    end.

(** [String(x)], also the value of [`${x}`]. *)
Definition string_of_num (x : num) : str :=
  match x with
  | S754_nan => js "NaN"
  | S754_infinity s => if s : bool then js "-Infinity" else js "Infinity"
  | S754_zero _ => js "0"
  | S754_finite s p e =>
      let '(d, e') := digits_of p e in
      (if s : bool then js "-" else []) ++ format_digits d e'
  end.

(** ** Integers, rounding and fixed-point text *)

(** [Number.EPSILON] *)
Definition EPSILON : num := S754_finite false 4503599627370496 (-104).

(** [Math.abs(x)] *)
Definition math_abs (x : num) : num := SFabs x.

(** [Math.pow(10, z)], correctly rounded *)
Definition pow10 (z : Z) : num := dec_to_num 1 z.

(** [Number.isInteger(x)], with the integer. *)
Definition integer_of (x : num) : option Z :=
  match x with
  | S754_zero _ => Some 0
  | S754_finite s p e =>
      let sign z := if s : bool then - z else z in
      if 0 <=? e then Some (sign (Z.pos p * 2 ^ e))
      else if Z.pos p mod 2 ^ (- e) =? 0 then Some (sign (Z.pos p / 2 ^ (- e)))
      else None
  | _ => None
  end.

Definition is_integer (x : num) : bool := match integer_of x with Some _ => true | None => false end.

(** [Math.round(x)]: the nearest integer, the greater one of two; an argument below zero
    that rounds to zero gives -0. *)
Definition math_round (x : num) : num :=
  match x with
  | S754_finite s p e =>
      if 0 <=? e then x
      else
        let d := 2 ^ (- e) in
        let n := if s : bool then - Z.pos p else Z.pos p in
        let r := (2 * n + d) / (2 * d) in
        if r =? 0 then S754_zero s else num_of_Z r
  | _ => x
  end.

(** The digits of [x.toFixed(f)] for the magnitude [p * 2^e]: the nearest multiple of [10^-f], the
    greater one of two. *)
Definition fixed_digits (f : nat) (p : positive) (e : Z) : N :=
  let nu := Z.pos p * 10 ^ Z.of_nat f * 2 ^ Z.max 0 e in
  let de := 2 ^ Z.max 0 (- e) in
  Z.to_N ((2 * nu + de) / (2 * de)).

Definition insert_point (f : nat) (digits : str) : str :=
  match f with
  | O => digits
  | _ =>
      let padded := zeros (Z.of_nat (S f) - Z.of_nat (length digits)) ++ digits in
      take (length padded - f) padded ++ js "." ++ drop (length padded - f) padded
  end.

(** [x.toFixed(f)] *)
Definition to_fixed (f : nat) (x : num) : str :=
  match x with
  | S754_zero _ => insert_point f (js "0")
  | S754_finite s p e =>
      if Z.pos p * 2 ^ Z.max 0 e <? 10 ^ 21 * 2 ^ Z.max 0 (- e)
      then (if s : bool then js "-" else []) ++ insert_point f (N_dec (fixed_digits f p e))
      else string_of_num x
  | _ => string_of_num x
  end.

(** The digits and the exponent of [x.toPrecision(p)] for the magnitude [m * 2^ex]: [p] digits [n] and [e] with
    [n * 10^(e-p+1)] nearest, the greater one of two. *)
Definition precision_digits (p : nat) (m : positive) (ex : Z) : N * Z :=
  let nu := Z.pos m * 2 ^ Z.max 0 ex in
  let de := 2 ^ Z.max 0 (- ex) in
  let e := dec_exponent (Z.to_pos nu) (Z.to_pos de) - 1 in
  let k := e - Z.of_nat p + 1 in
  let nu' := nu * 10 ^ Z.max 0 (- k) in
  let de' := de * 10 ^ Z.max 0 k in
  let n := Z.to_N ((2 * nu' + de') / (2 * de')) in
  if (n =? 10 ^ N.of_nat p)%N then ((n / 10)%N, e + 1) else (n, e).

(** [x.toPrecision(p)] for [p] digits, at least two *)
Definition to_precision (p : nat) (x : num) : str :=
  match x with
  | S754_zero _ => js "0." ++ zeros (Z.of_nat p - 1)
  | S754_finite s m ex =>
      let '(n, e) := precision_digits p m ex in
      let ds := N_dec n in
      (if s : bool then js "-" else []) ++
      (if (e <? -6) || (Z.of_nat p <=? e) then
         take 1 ds ++ js "." ++ drop 1 ds ++ js "e" ++ (if 0 <? e then js "+" else js "-") ++ N_dec (Z.abs_N e)
       else if e =? Z.of_nat p - 1 then ds
       else if 0 <=? e then take (Z.to_nat (e + 1)) ds ++ js "." ++ drop (Z.to_nat (e + 1)) ds
       else js "0." ++ zeros (- (e + 1)) ++ ds)
  | _ => string_of_num x
  end.

(** ** [parseFloat] *)

(** A signed decimal literal, all of the text. *)
Definition parse_sdecimal (s : str) : option num :=
  let '(neg, t) := match s with
                   | c :: t => if (c =? 45)%N then (true, t) else if (c =? 43)%N then (false, t) else (false, s)
                   | [] => (false, [])
                   end in
  if bool_decide (t = js "Infinity") then Some (set_sign neg (S754_infinity false))
  else (λ de, set_sign neg (dec_to_num (fst de) (snd de))) <$> parse_udecimal t.

(** The longest prefix of at most [n] units that is a literal. *)
Fixpoint float_prefix (n : nat) (t : str) : num :=
  match parse_sdecimal (take n t) with
  | Some x => x
  | None => match n with O => S754_nan | S n' => float_prefix n' t end
  end.

Definition parse_float (s : str) : num := let t := trim_start s in float_prefix (length t) t.

(** ** Comparators: the sign of the number a comparator returns, [NaN] being zero. *)

Definition num_sign (x : num) : Z := if nlt x pzero then -1 else if nlt pzero x then 1 else 0.
