(* ===== verification/JsNumberFacts.v ===== *)
(** * Facts about JavaScript numbers

    The rounding of an exact value is the value ([round_exact]); reading a
    printed number back is the identity ([number_of_string_of]). *)

From S2P Require Import Prelude JsString JsNumber.

Local Open Scope Z_scope.

(** ** Exact values are not rounded *)

Lemma digits2_log2 p : Zpos (digits2_pos p) = Z.log2 (Zpos p) + 1.
Proof.
  assert (H : ∀ q, digits2_pos q = Pos.size q) by (induction q as [q IH|q IH|]; simpl; congruence).
  rewrite H. destruct p as [p|p|]; simpl; lia.
Qed.

Lemma Zdigits2_shift p j : 0 ≤ j → Zdigits2 (Zpos p * 2 ^ j) = Zpos (digits2_pos p) + j.
Proof.
  intros Hj. assert (Hp : 0 < Zpos p * 2 ^ j) by (pose proof (Z.pow_pos_nonneg 2 j); nia).
  destruct (Zpos p * 2 ^ j) as [|q|q] eqn:E; [lia| |lia]. cbn [Zdigits2].
  rewrite !digits2_log2, <- E, Z.log2_mul_pow2 by lia. lia.
Qed.

Lemma shr_1_even q : shr_1 (Build_shr_record (Zpos q * 2) false false) = Build_shr_record (Zpos q) false false.
Proof. by rewrite Z.mul_comm. Qed.

Lemma shift_pos q k : 0 ≤ k → ∃ r, Zpos q * 2 ^ k = Zpos r.
Proof.
  intros Hk. exists (Z.to_pos (Zpos q * 2 ^ k)). rewrite Z2Pos.id; [done|].
  pose proof (Z.pow_pos_nonneg 2 k). nia.
Qed.

Lemma pow2_xI n : 2 ^ Zpos n~1 = 2 ^ Zpos n * 2 ^ Zpos n * 2.
Proof.
  rewrite Pos2Z.inj_xI. replace (2 * Zpos n + 1) with (Zpos n + Zpos n + 1) by lia.
  by rewrite !Z.pow_add_r by lia.
Qed.

Lemma pow2_xO n : 2 ^ Zpos n~0 = 2 ^ Zpos n * 2 ^ Zpos n.
Proof.
  rewrite (Pos2Z.inj_xO n). replace (2 * Zpos n) with (Zpos n + Zpos n) by lia.
  by rewrite Z.pow_add_r by lia.
Qed.

Lemma iter_shr_exact n p :
  iter_pos shr_1 n (Build_shr_record (Zpos p * 2 ^ Zpos n) false false)
  = Build_shr_record (Zpos p) false false.
Proof.
  revert p. induction n as [n IH|n IH|]; intros p; cbn [iter_pos].
  - rewrite pow2_xI.
    destruct (shift_pos p (Zpos n)) as [r1 H1]; [lia|]. destruct (shift_pos r1 (Zpos n)) as [r2 H2]; [lia|].
    rewrite !Z.mul_assoc, H1, H2, shr_1_even, <- H2, IH, <- H1. apply IH.
  - rewrite pow2_xO.
    destruct (shift_pos p (Zpos n)) as [r1 H1]; [lia|].
    rewrite !Z.mul_assoc, H1, IH, <- H1. apply IH.
  - apply shr_1_even.
Qed.

Lemma shr_exact p j e : 0 ≤ j →
  shr (Build_shr_record (Zpos p * 2 ^ j) false false) (e - j) j = (Build_shr_record (Zpos p) false false, e).
Proof.
  intros Hj. unfold shr. destruct j as [|n|]; [|rewrite iter_shr_exact|lia].
  - change (2 ^ 0) with 1. rewrite Z.mul_1_r. by rewrite Z.sub_0_r.
  - f_equal. lia.
Qed.

Lemma bounded_spec p e :
  bounded prec emax p e = true →
  fexp prec emax (Zpos (digits2_pos p) + e) = e ∧ (e <=? emax - prec) = true.
Proof. unfold bounded, canonical_mantissa. rewrite andb_true_iff, Z.eqb_eq. done. Qed.

(** Rounding [p * 2^e], written with a mantissa shifted by [j], gives [p * 2^e]. *)
Lemma round_exact p e j :
  bounded prec emax p e = true → 0 ≤ j →
  binary_round_aux prec emax false (Zpos p * 2 ^ j) (e - j) loc_Exact = S754_finite false p e.
Proof.
  intros [Hf He]%bounded_spec Hj. unfold binary_round_aux, shr_fexp at 1. cbn [shr_record_of_loc].
  rewrite Zdigits2_shift by done.
  replace (Zpos (digits2_pos p) + j + (e - j)) with (Zpos (digits2_pos p) + e) by lia.
  rewrite Hf. replace (e - (e - j)) with j by lia. rewrite shr_exact by done.
  cbn [shr_m loc_of_shr_record round_nearest_even]. unfold shr_fexp. cbn [Zdigits2].
  rewrite Hf, Z.sub_diag. cbn [shr shr_m shr_record_of_loc]. by rewrite He.
Qed.

Lemma shl_align_exact q e : shl_align q 0 e = (Z.to_pos (Zpos q * 2 ^ Z.max 0 (- e)), Z.min 0 e).
Proof.
  unfold shl_align. rewrite Z.sub_0_r. destruct e as [|d|d].
  - simpl. by rewrite Pos.mul_1_r.
  - rewrite Z.max_l, Z.min_l by lia. change (2 ^ 0) with 1. by rewrite Z.mul_1_r.
  - rewrite Z.max_r, Z.min_r by lia. f_equal.
    assert (H : Zpos (Pos.iter xO q d) = Zpos q * 2 ^ Zpos d).
    { apply (Pos.peano_ind (λ d, Zpos (Pos.iter xO q d) = Zpos q * 2 ^ Zpos d)).
      - simpl Pos.iter. change (2 ^ 1) with 2. lia.
      - intros d' IH. rewrite Pos.iter_succ, (Pos2Z.inj_xO (Pos.iter _ _ _)), IH, Pos2Z.inj_succ, Z.pow_succ_r by lia. lia. }
    change (- Z.neg d) with (Z.pos d). rewrite <- H. done.
Qed.

(** An integer that is a representable number. *)
Lemma normalize_exact p e :
  bounded prec emax p e = true → 0 ≤ e →
  binary_normalize prec emax (Zpos p * 2 ^ e) 0 false = S754_finite false p e.
Proof.
  intros Hb He. assert (Hpos : 0 < Zpos p * 2 ^ e) by (pose proof (Z.pow_pos_nonneg 2 e); nia).
  destruct (Zpos p * 2 ^ e) as [|q|q] eqn:E; [lia| |lia].
  cbn [binary_normalize]. unfold binary_round. rewrite Z.add_0_r.
  assert (Hd : fexp prec emax (Zpos (digits2_pos q)) = e).
  { change (Zpos (digits2_pos q)) with (Zdigits2 (Zpos q)). rewrite <- E, Zdigits2_shift by done.
    by apply bounded_spec in Hb as [? _]. }
  rewrite Hd, shl_align_exact, Z.max_l, Z.min_l by lia. change (2 ^ 0) with 1. rewrite Z.mul_1_r.
  simpl Z.to_pos. rewrite <- E. rewrite <- (round_exact p e e Hb He). f_equal. lia.
Qed.

Lemma new_location_0 n : new_location n 0 = loc_Exact.
Proof. unfold new_location, new_location_even, new_location_odd. by destruct (Z.even n). Qed.

(** [p * 2^e] with [e < 0], as the ratio of [p * 5^-e] and [10^-e]. *)
Lemma ratio_exact p e :
  bounded prec emax p e = true → e < 0 →
  round_ratio (Z.to_pos (Zpos p * 5 ^ (- e))) (Z.to_pos (10 ^ (- e))) = S754_finite false p e.
Proof.
  intros Hb He. pose proof (Z.pow_pos_nonneg 5 (- e)) as H5. pose proof (Z.pow_pos_nonneg 10 (- e)) as H10.
  pose proof (Z.pow_pos_nonneg 2 (- e)) as H2.
  assert (H10' : 10 ^ (- e) = 5 ^ (- e) * 2 ^ (- e)) by (rewrite <- Z.pow_mul_l; done).
  unfold round_ratio, SFdiv_core_binary. rewrite !Z2Pos.id by nia. rewrite !Z.add_0_r, Z.sub_diag.
  set (e' := Z.min _ 0).
  assert (He' : e' ≤ e).
  { destruct (bounded_spec _ _ Hb) as [Hf _]. unfold e'. apply Z.min_le_iff. left.
    assert (Hdig : Zdigits2 (Zpos p * 5 ^ (- e)) - Zdigits2 (10 ^ (- e)) ≤ Zpos (digits2_pos p) + e).
    { replace (Zpos p * 5 ^ (- e)) with (Zpos (Z.to_pos (Zpos p * 5 ^ (- e)))) by (rewrite Z2Pos.id; nia).
      assert (Hm : 10 ^ (- e) = Zpos (Z.to_pos (5 ^ (- e))) * 2 ^ (- e)) by (rewrite Z2Pos.id; lia).
      rewrite Hm, Zdigits2_shift by lia. cbn [Zdigits2]. rewrite !digits2_log2, !Z2Pos.id by nia.
      pose proof (Z.log2_mul_above (Zpos p) (5 ^ (- e))). lia. }
    unfold fexp in *. lia. }
  rewrite Z.sub_0_l.
  replace (match - e' with Z0 => Zpos p * 5 ^ (- e) | Z.pos _ => _ | Z.neg _ => 0 end)
    with (Zpos p * 5 ^ (- e) * 2 ^ (- e'))
    by (destruct e' as [|d|d]; [lia|lia|rewrite Z.shiftl_mul_pow2 by lia; reflexivity]).
  replace (Zpos p * 5 ^ (- e) * 2 ^ (- e')) with (Zpos p * 2 ^ (e - e') * 10 ^ (- e))
    by (rewrite H10'; replace (- e') with ((e - e') + - e) by lia; rewrite Z.pow_add_r by lia; lia).
  pose proof (Z.div_mul (Zpos p * 2 ^ (e - e')) (10 ^ (- e))) as Hdiv.
  pose proof (Z_mod_mult (Zpos p * 2 ^ (e - e')) (10 ^ (- e))) as Hmod.
  unfold Z.div, Z.modulo in Hdiv, Hmod. destruct (Z.div_eucl _ _) as [q r].
  rewrite Hdiv by lia. subst r. rewrite new_location_0.
  replace e' with (e - (e - e')) at 2 by lia. apply round_exact; [done|lia].
Qed.

(** ** Digits that read back *)

Lemma dec_to_num_exact_int p e :
  bounded prec emax p e = true → 0 ≤ e →
  dec_to_num (Z.to_N (Zpos p * 2 ^ e)) 0 = S754_finite false p e.
Proof.
  intros Hb He. destruct (shift_pos p e He) as [q Hq]. rewrite Hq. simpl Z.to_N.
  cbn [dec_to_num]. simpl (0 <=? 0). cbn match. change (10 ^ 0) with 1.
  rewrite Z.mul_1_r, <- Hq. by apply normalize_exact.
Qed.

Lemma dec_to_num_exact_frac p e :
  bounded prec emax p e = true → e < 0 →
  dec_to_num (Z.to_N (Zpos p * 5 ^ (- e))) e = S754_finite false p e.
Proof.
  intros Hb He. pose proof (Z.pow_pos_nonneg 5 (- e)) as H5.
  assert (H : ∃ q, Zpos p * 5 ^ (- e) = Zpos q).
  { exists (Z.to_pos (Zpos p * 5 ^ (- e))). rewrite Z2Pos.id; nia. }
  destruct H as [q Hq]. rewrite Hq. simpl Z.to_N. cbn [dec_to_num].
  rewrite (proj2 (Z.leb_gt 0 e)) by lia.
  replace q with (Z.to_pos (Zpos p * 5 ^ (- e))) by (rewrite Hq; done). by apply ratio_exact.
Qed.

Lemma shortest_reads f x nu de n k s e :
  shortest f x nu de n k = Some (s, e) → dec_to_num s e = x.
Proof.
  revert k. induction f as [|f IH]; intros k; cbn [shortest]; [done|]. cbv zeta.
  destruct (reads_as x (floor_at nu de (n - k)) (n - k)) eqn:E1;
  destruct (reads_as x (floor_at nu de (n - k) + 1) (n - k)) eqn:E2;
    unfold reads_as in *; breflect; intros H; simplify_eq; try done; [by case_match|by eapply IH].
Qed.

Lemma digits_of_reads p e :
  bounded prec emax p e = true →
  let '(s, e') := digits_of p e in dec_to_num s e' = S754_finite false p e.
Proof.
  intros Hb. unfold digits_of. cbv zeta.
  destruct (shortest 17 _ _ _ _ 1) as [[s e1]|] eqn:E.
  - apply shortest_reads in E. destruct (strip_zeros 20 s e1) as [s' e''].
    destruct (reads_as _ s' e'') eqn:Er; [|done]. unfold reads_as in Er. by breflect.
  - destruct (Z.leb_spec 0 e); [by apply dec_to_num_exact_int|by apply dec_to_num_exact_frac].
Qed.

(** ** Reading the printed forms *)

Definition digits (s : str) : Prop := Forall (λ c, is_digit c = true) s.

Lemma take_while_app p w t :
  Forall (λ c, p c = true) w → match t with [] => True | c :: _ => p c = false end →
  take_while p (w ++ t) = (w, t).
Proof.
  intros Hw Ht. induction Hw as [|c w Hc _ IH]; simpl.
  - destruct t as [|c t]; [done|]. simpl. by rewrite Ht.
  - by rewrite Hc, IH.
Qed.

Lemma dec_val_app a b : dec_val (a ++ b) = (dec_val a * 10 ^ N.of_nat (length b) + dec_val b)%N.
Proof.
  assert (H : ∀ x, fold_left (λ acc c, acc * 10 + (c - 48))%N b x
                   = (x * 10 ^ N.of_nat (length b) + dec_val b)%N).
  { unfold dec_val. induction b as [|c b IH]; intros x; [simpl; lia|].
    cbn [fold_left length]. rewrite IH, (IH (0 * 10 + (c - 48))%N), Nat2N.inj_succ, N.pow_succ_r'. lia. }
  unfold dec_val at 1 2. rewrite fold_left_app. apply H.
Qed.

Lemma dec_val_zeros n : dec_val (replicate n 48%N) = 0%N.
Proof.
  induction n as [|n IH]; [done|]. change (replicate (S n) 48%N) with ([48%N] ++ replicate n 48%N).
  rewrite dec_val_app, IH. done.
Qed.

Lemma dec_val_zeros' n : dec_val (zeros n) = 0%N.
Proof. apply dec_val_zeros. Qed.

Lemma zeros_digits n : digits (zeros n).
Proof. unfold digits, zeros. apply Forall_replicate. done. Qed.

Lemma length_zeros n : 0 ≤ n → Z.of_nat (length (zeros n)) = n.
Proof. intros. unfold zeros. rewrite length_replicate. lia. Qed.

Lemma parse_exponent_signed (neg : bool) n :
  parse_exponent ((if neg then js "-" else js "+") ++ N_dec n)
  = Some (if neg then - Z.of_N n else Z.of_N n).
Proof.
  assert (Hd : truthy (N_dec n) && forallb is_digit (N_dec n) = true).
  { apply andb_true_iff. split; [pose proof (N_dec_nonempty n); by destruct (N_dec n)|].
    apply forallb_forall. intros c Hc. pose proof (N_dec_digits n) as H. rewrite Forall_forall in H.
    by apply H, list_elem_of_In. }
  unfold parse_exponent. destruct neg.
  - change (js "-" ++ N_dec n) with (45%N :: N_dec n). cbn [N.eqb Pos.eqb].
    by rewrite Hd, dec_val_N_dec.
  - change (js "+" ++ N_dec n) with (43%N :: N_dec n). cbn [N.eqb Pos.eqb].
    by rewrite Hd, dec_val_N_dec.
Qed.

(** A literal with integer digits, fraction digits and no exponent. *)
Lemma parse_udecimal_plain ip : digits ip → ip ≠ [] → parse_udecimal ip = Some (dec_val ip, 0).
Proof.
  intros Hd Hne. unfold parse_udecimal. rewrite <- (app_nil_r ip) at 1.
  rewrite take_while_app by done. rewrite app_nil_r. by destruct ip.
Qed.

Lemma parse_udecimal_frac ip fp :
  digits ip → digits fp → ip ≠ [] →
  parse_udecimal (ip ++ js "." ++ fp) = Some (dec_val (ip ++ fp), - Z.of_nat (length fp)).
Proof.
  intros Hi Hf Hne. unfold parse_udecimal. change (js "." ++ fp) with (46%N :: fp).
  rewrite take_while_app by done. cbn [N.eqb Pos.eqb].
  rewrite <- (app_nil_r fp) at 1. rewrite take_while_app by done. by destruct ip.
Qed.

Lemma parse_udecimal_exp ip fp (neg : bool) n :
  digits ip → digits fp → ip ≠ [] →
  parse_udecimal (ip ++ js "." ++ fp ++ js "e" ++ (if neg then js "-" else js "+") ++ N_dec n)
  = Some (dec_val (ip ++ fp), - Z.of_nat (length fp) + if neg then - Z.of_N n else Z.of_N n).
Proof.
  intros Hi Hf Hne. unfold parse_udecimal.
  change (js "." ++ fp ++ js "e" ++ ?x) with (46%N :: (fp ++ 101%N :: x)).
  rewrite take_while_app by done. cbn [N.eqb Pos.eqb].
  rewrite take_while_app by done. rewrite parse_exponent_signed. by destruct ip.
Qed.

Lemma parse_udecimal_int_exp ip (neg : bool) n :
  digits ip → ip ≠ [] →
  parse_udecimal (ip ++ js "e" ++ (if neg then js "-" else js "+") ++ N_dec n)
  = Some (dec_val ip, if neg then - Z.of_N n else Z.of_N n).
Proof.
  intros Hi Hne. unfold parse_udecimal. change (js "e" ++ ?x) with (101%N :: x).
  rewrite take_while_app by done. cbn [N.eqb Pos.eqb orb]. rewrite app_nil_r, parse_exponent_signed.
  by destruct ip.
Qed.

(** The printed form of [s * 10^e] is a decimal literal of that value. *)
Lemma parse_format s e :
  (0 < s)%N →
  ∃ d e', parse_udecimal (format_digits s e) = Some (d, e') ∧ dec_to_num d e' = dec_to_num s e.
Proof.
  intros Hs. unfold format_digits. pose proof (N_dec_digits s) as Hd. pose proof (N_dec_nonempty s) as Hne.
  pose proof (dec_val_N_dec s) as Hv.
  set (k := Z.of_nat (length (N_dec s))). cbv zeta.
  destruct ((k <=? k + e) && (k + e <=? 21)) eqn:E1.
  { breflect. replace (k + e - k) with e by lia.
    exists (dec_val (N_dec s ++ zeros e)), 0. split.
    - apply parse_udecimal_plain; [apply Forall_app; split; [done|apply zeros_digits]|by destruct (N_dec s)].
    - rewrite dec_val_app. rewrite dec_val_zeros', Hv, N.add_0_r.
      assert (Hpow : Z.of_N (s * 10 ^ N.of_nat (length (zeros e))) = Z.of_N s * 10 ^ e).
      { rewrite N2Z.inj_mul, N2Z.inj_pow, nat_N_Z, length_zeros by lia. done. }
      destruct s as [|ps]; [lia|]. pose proof (Z.pow_pos_nonneg 10 e).
      destruct (N.pos ps * 10 ^ N.of_nat (length (zeros e)))%N as [|q] eqn:Eq; [simpl in Hpow; nia|].
      cbn [dec_to_num]. simpl (0 <=? 0). cbn match. rewrite (proj2 (Z.leb_le 0 e)) by lia.
      change (10 ^ 0) with 1. rewrite Z.mul_1_r. simpl Z.of_N in Hpow. by rewrite Hpow. }
  destruct ((0 <? k + e) && (k + e <=? 21)) eqn:E2.
  { breflect. apply andb_false_iff in E1 as [E1|E1]; breflect; [|lia].
    exists s, e. split; [|done].
    rewrite parse_udecimal_frac.
    - rewrite take_drop, Hv, length_drop. do 2 f_equal. subst k. lia.
    - by apply Forall_take.
    - by apply Forall_drop.
    - intros Ht. apply (f_equal length) in Ht. rewrite length_take in Ht. simpl in Ht. subst k. lia. }
  destruct ((-6 <? k + e) && (k + e <=? 0)) eqn:E3.
  { breflect. exists s, e. split; [|done]. change (js "0.") with (js "0" ++ js "."). rewrite <- app_assoc.
    rewrite parse_udecimal_frac; [|by repeat constructor|apply Forall_app; split; [apply zeros_digits|done]|done].
    rewrite !dec_val_app, dec_val_zeros', Hv, length_app, Nat2Z.inj_add, length_zeros by lia.
    do 2 f_equal. subst k. lia. }
  assert (Hn : k + e - 1 ≠ 0).
  { repeat match goal with H : _ && _ = false |- _ => apply andb_false_iff in H as [?|?] end; breflect; lia. }
  exists s, e. split; [|done]. subst k. destruct (N_dec s) as [|d ds] eqn:Eds; [done|].
  assert (Hex : ∀ n : Z, n ≠ 0 → (if 0 <? n then js "+" else js "-") = (if n <? 0 then js "-" else js "+")).
  { intros n Hn0. destruct (Z.ltb_spec 0 n), (Z.ltb_spec n 0); try done; lia. }
  rewrite Hex by done.
  assert (Hval : ∀ n : Z, (if n <? 0 then - Z.of_N (Z.abs_N n) else Z.of_N (Z.abs_N n)) = n).
  { intros n. destruct (Z.ltb_spec n 0); lia. }
  apply Forall_cons in Hd as [Hd0 Hd].
  destruct ds as [|d' ds].
  - rewrite parse_udecimal_int_exp; [|by repeat constructor|done]. rewrite Hv, Hval. do 2 f_equal. simpl. lia.
  - rewrite (parse_udecimal_exp [d] (d' :: ds)); [|by repeat constructor|done|done].
    cbn [app]. rewrite Hv, Hval. do 2 f_equal. cbn [length]. lia.
Qed.

(** Characters of a printed number. *)
Definition num_char (c : N) : bool :=
  is_digit c || ((c =? 46) || (c =? 101) || (c =? 43) || (c =? 45))%N.

Lemma num_char_not_space c : num_char c = true → is_space c = false.
Proof.
  unfold num_char. rewrite !orb_true_iff, !N.eqb_eq.
  intros [H|[[[->| ->]| ->]| ->]]; [by apply digit_not_space|done..].
Qed.

Lemma format_digits_shape s e :
  ∃ c t, format_digits s e = c :: t ∧ is_digit c = true ∧ Forall (λ c, num_char c = true) t.
Proof.
  unfold format_digits. pose proof (N_dec_digits s) as Hd. pose proof (N_dec_nonempty s) as Hne.
  assert (Hnc : ∀ l, digits l → Forall (λ c, num_char c = true) l).
  { intros l Hl. eapply Forall_impl; [exact Hl|]. intros c Hc. unfold num_char. by rewrite Hc. }
  destruct (N_dec s) as [|d ds] eqn:Eds; [done|]. cbv zeta. clear Hne.
  pose proof (Forall_cons_1 _ _ _ Hd) as [Hd0 Hds].
  assert (Hex : ∀ n m, Forall (λ c, num_char c = true) ((if 0 <? n then js "+" else js "-") ++ N_dec m)).
  { intros n m. apply Forall_app; split; [destruct (0 <? n); by repeat constructor|].
    apply Hnc, N_dec_digits. }
  destruct (_ && _); [eexists _, _; split_and!; [reflexivity|done|]|].
  { apply Forall_app; split; [by apply Hnc|apply Hnc, zeros_digits]. }
  destruct (_ && _) eqn:E2.
  { breflect. destruct (Z.to_nat _) as [|n] eqn:En; [lia|].
    eexists _, _. split_and!; [reflexivity|done|]. simpl.
    apply Forall_app; split; [by apply Hnc, Forall_take|].
    constructor; [done|]. by apply Hnc, Forall_drop. }
  clear E2. destruct (_ && _); [eexists _, _; split_and!; [reflexivity|done|]|].
  { constructor; [done|]. apply Forall_app; split; [apply Hnc, zeros_digits|by apply Hnc]. }
  destruct ds as [|d' ds]; eexists _, _; (split_and!; [reflexivity|done|]).
  - constructor; [done|]. apply Hex.
  - constructor; [done|]. apply Hnc, Forall_cons in Hds as [? ?]. constructor; [done|].
    apply Forall_app; split; [done|]. constructor; [done|]. apply Hex.
Qed.

(** [Number] of an unsigned decimal literal. *)
Lemma number_of_udecimal c t d e :
  is_digit c = true → Forall (λ c, num_char c = true) t →
  parse_udecimal (c :: t) = Some (d, e) →
  number_of_string (c :: t) = dec_to_num d e ∧ number_of_string (45%N :: c :: t) = set_sign true (dec_to_num d e).
Proof.
  intros Hc Ht Hp.
  assert (Htrim : trim (c :: t) = c :: t ∧ trim (45%N :: c :: t) = 45%N :: c :: t).
  { assert (Hsp : Forall (λ c, is_space c = false) (c :: t)).
    { constructor; [by apply digit_not_space|]. eapply Forall_impl; [exact Ht|]. apply num_char_not_space. }
    split; apply trim_id, trimmed_no_space; [done|by constructor]. }
  destruct Htrim as [Ht1 Ht2]. apply is_digit_spec in Hc as Hc'.
  assert (HnI : ∀ u, c :: u ≠ js "Infinity").
  { intros u. change (js "Infinity") with (73%N :: js "nfinity"). intros [= ->]. lia. }
  split.
  - unfold number_of_string. rewrite Ht1.
    destruct (decide (c = 48%N)) as [->|Hc0].
    + destruct t as [|x r]; [cbn; cbn in Hp; by simplify_eq|].
      apply Forall_cons in Ht as [Hx _].
      replace (_ =? 0)%N with true; [by rewrite Hp|].
      unfold num_char in Hx. rewrite !orb_true_iff, !N.eqb_eq in Hx.
      destruct Hx as [Hx|[[[->| ->]| ->]| ->]]; try done. apply is_digit_spec in Hx.
      repeat (rewrite (proj2 (N.eqb_neq x _)) by lia). done.
    +
      destruct c as [|pc]; [lia|].
      assert (Hgo : (if (N.pos pc =? 43)%N then (false, t) else if (N.pos pc =? 45)%N then (true, t) else (false, N.pos pc :: t))
                    = (false, N.pos pc :: t)).
      { by rewrite !(proj2 (N.eqb_neq (N.pos pc) _)) by lia. }
      rewrite Hgo, bool_decide_false by apply HnI. rewrite Hp. cbn [set_sign].
      repeat (destruct pc as [pc|pc|]; try reflexivity; try lia).
  - unfold number_of_string. rewrite Ht2. cbn [N.eqb Pos.eqb].
    rewrite bool_decide_false by apply HnI. by rewrite Hp.
Qed.

(** [Number(String(x))] is [x] for every finite non-zero number. *)
Lemma number_of_string_of s p e :
  valid_num (S754_finite s p e) = true →
  number_of_string (string_of_num (S754_finite s p e)) = S754_finite s p e.
Proof.
  intros Hb. cbn [string_of_num]. pose proof (digits_of_reads p e Hb) as Hr.
  destruct (digits_of p e) as [d e'].
  assert (Hd : (0 < d)%N) by (destruct d; [discriminate Hr|lia]).
  destruct (format_digits_shape d e') as (c & t & Hf & Hc & Ht).
  destruct (parse_format d e' Hd) as (d2 & e2 & Hp & Hv). rewrite Hf in Hp |- *.
  destruct (number_of_udecimal c t d2 e2 Hc Ht Hp) as [H1 H2].
  rewrite Hv, Hr in H1, H2. destruct s; [exact H2|exact H1].
Qed.

(** ** Comparisons *)

(** The order of numbers is the lexicographic order of a key. *)
Definition num_key (x : num) : Z * Z * Z :=
  match x with
  | S754_zero _ | S754_nan => (0, 0, 0)
  | S754_infinity s => (if s : bool then -2 else 2, 0, 0)
  | S754_finite s p e => if s : bool then (-1, - e, - Zpos p) else (1, e, Zpos p)
  end.

Definition key_lt (x y : Z * Z * Z) : Prop :=
  let '(a1, b1, c1) := x in let '(a2, b2, c2) := y in
  a1 < a2 ∨ a1 = a2 ∧ (b1 < b2 ∨ b1 = b2 ∧ c1 < c2).

Lemma compare_key a b :
  is_nan a = false → is_nan b = false →
  SFcompare a b = Some (if decide (key_lt (num_key a) (num_key b)) then Lt
                        else if decide (key_lt (num_key b) (num_key a)) then Gt else Eq).
Proof.
  destruct a as [[]|[]| |[] p1 e1], b as [[]|[]| |[] p2 e2]; try done; intros _ _; cbn [SFcompare num_key]; f_equal;
    try (repeat (case_decide as H; [try done; unfold key_lt in H; lia|]); unfold key_lt in *; first [done|lia]).
  all: change (PosDef.Pos.compare_cont Eq p1 p2) with (p1 ?= p2)%positive.
  all: destruct (Z.compare_spec e1 e2), (Pos.compare_spec p1 p2);
    repeat (case_decide; unfold key_lt in *; try done; try lia); try done; try lia.
Qed.

Lemma nlt_spec a b :
  nlt a b = true ↔ is_nan a = false ∧ is_nan b = false ∧ key_lt (num_key a) (num_key b).
Proof.
  unfold nlt, SFltb. destruct (is_nan a) eqn:Ha; [destruct a; naive_solver|].
  destruct (is_nan b) eqn:Hb; [destruct b; try done; destruct a as [[]|[]| |[]]; naive_solver|].
  rewrite compare_key by done. repeat case_decide; naive_solver.
Qed.

Lemma nle_spec a b :
  nle a b = true ↔ is_nan a = false ∧ is_nan b = false ∧ ¬ key_lt (num_key b) (num_key a).
Proof.
  unfold nle, SFleb. destruct (is_nan a) eqn:Ha; [destruct a; naive_solver|].
  destruct (is_nan b) eqn:Hb; [destruct b; try done; destruct a as [[]|[]| |[]]; naive_solver|].
  rewrite compare_key by done. unfold key_lt. destruct (num_key a) as [[??]?], (num_key b) as [[??]?].
  repeat case_decide; split; intros; try done; naive_solver lia.
Qed.

Lemma finite_not_nan x : is_finite x = true → is_nan x = false.
Proof. by destruct x. Qed.

(** On numbers, [a < b] is the negation of [b <= a]. *)
Lemma not_lt_le x y : is_finite x = true → is_finite y = true → nlt x y = false → nle y x = true.
Proof.
  intros Hx Hy H. apply nle_spec. split_and!; auto using finite_not_nan. intros Hk.
  apply not_true_iff_false in H. apply H, nlt_spec. auto using finite_not_nan.
Qed.

Lemma nlt_trans a b c : nlt a b = true → nlt b c = true → nlt a c = true.
Proof.
  rewrite !nlt_spec. unfold key_lt. destruct (num_key a) as [[??]?], (num_key b) as [[??]?], (num_key c) as [[??]?].
  intros (? & ? & ?) (? & ? & ?). split_and!; [done|done|lia].
Qed.

Lemma nlt_le_asymm a b : nlt a b = true → nle b a = true → False.
Proof. rewrite nlt_spec, nle_spec. tauto. Qed.

Lemma nle_refl a : is_nan a = false → nle a a = true.
Proof. intros H. apply nle_spec. split_and!; [done|done|]. unfold key_lt. destruct (num_key a) as [[??]?]. lia. Qed.

Lemma nlt_irrefl a : nlt a a = false.
Proof.
  apply not_true_iff_false. intros (_ & _ & H)%nlt_spec. unfold key_lt in H. destruct (num_key a) as [[??]?]. lia.
Qed.

(** A number that is not [NaN] equals itself. *)
Lemma num_eqb_refl n : is_nan n = false → num_eqb n n = true.
Proof.
  destruct n as [s|s| |s p e]; try done; intros _; unfold num_eqb, SFeqb, SFcompare; [by destruct s|].
  rewrite Z.compare_refl, Pos.compare_refl. by destruct s.
Qed.
