(* ===== verification/Json.v ===== *)
(** * JSON

    [JSON.parse] and [JSON.stringify] as the sources use them (no reviver, no
    replacer, no indentation), on values as JavaScript sees them after parsing:
    an object is the list of its own properties in JavaScript's enumeration order
    (array-index keys first, in increasing order, then the other keys by first
    insertion), which is what [Object.keys], [Object.values] and [Object.entries]
    return. *)

From S2P Require Import Prelude JsString JsNumber.

Unset Elimination Schemes.
Inductive json :=
  | JNull
  | JBool (b : bool)
  | JNum (x : num)
  | JStr (s : str)
  | JArr (l : list json)
  | JObj (o : list (str * json)).
Set Elimination Schemes.

Section json_ind.
Variable P : json → Prop.
Hypotheses (Hnull : P JNull) (Hbool : ∀ b, P (JBool b)) (Hnum : ∀ x, P (JNum x))
  (Hstr : ∀ s, P (JStr s)) (Harr : ∀ l, Forall P l → P (JArr l))
  (Hobj : ∀ o, Forall (λ kv, P (snd kv)) o → P (JObj o)).

Fixpoint json_ind (v : json) : P v :=
  match v with
  | JNull => Hnull
  | JBool b => Hbool b
  | JNum x => Hnum x
  | JStr s => Hstr s
  | JArr l => Harr l ((fix go l : Forall P l :=
                         match l with
                         | [] => Forall_nil_2 _
                         | x :: l => Forall_cons_2 _ _ _ (json_ind x) (go l)
                         end) l)
  | JObj o => Hobj o ((fix go o : Forall (λ kv, P (snd kv)) o :=
                         match o with
                         | [] => Forall_nil_2 _
                         | kv :: o => Forall_cons_2 _ _ _ (json_ind (snd kv)) (go o)
                         end) o)
  end.
End json_ind.

(** Equality of values is decidable. *)
Fixpoint json_eq_dec (a b : json) {struct a} : Decision (a = b).
Proof.
  refine (match a, b with
  | JNull, JNull => left eq_refl
  | JBool x, JBool y => cast_if (decide (x = y))
  | JNum x, JNum y => cast_if (decide (x = y))
  | JStr x, JStr y => cast_if (decide (x = y))
  | JArr l, JArr l' =>
      cast_if ((fix go (l l' : list json) : Decision (l = l') :=
         match l, l' with
         | [], [] => left eq_refl
         | x :: l, y :: l' => cast_if_and (json_eq_dec x y) (go l l')
         | _, _ => right _
         end) l l')
  | JObj o, JObj o' =>
      cast_if ((fix go (o o' : list (str * json)) : Decision (o = o') :=
         match o, o' with
         | [], [] => left eq_refl
         | (k, x) :: o, (j, y) :: o' => cast_if_and3 (decide (k = j)) (json_eq_dec x y) (go o o')
         | _, _ => right _
         end) o o')
  | _, _ => right _
  end); clear json_eq_dec; try clear go; abstract congruence.
Defined.
#[export] Instance json_eq : EqDecision json := json_eq_dec.

(** ** Objects *)

Abbreviation obj := (list (str * json)).

Fixpoint obj_get (k : str) (o : obj) : option json :=
  match o with
  | [] => None
  | (k', v) :: o' => if bool_decide (k = k') then Some v else obj_get k o'
  end.

(** An array-index key: the canonical decimal of an integer below 2^32 - 1. *)
Definition is_index (k : str) : bool :=
  truthy k && forallb is_digit k
  && bool_decide (N_dec (dec_val k) = k) && (dec_val k <? 4294967295)%N.

(** Insert a new key at its place in the enumeration order. *)
Fixpoint obj_insert_new (k : str) (v : json) (o : obj) : obj :=
  match o with
  | [] => [(k, v)]
  | (k', v') :: o' =>
      if is_index k && (negb (is_index k') || (dec_val k <? dec_val k')%N)
      then (k, v) :: o
      else (k', v') :: obj_insert_new k v o'
  end.

Fixpoint obj_replace (k : str) (v : json) (o : obj) : obj :=
  match o with
  | [] => []
  | (k', v') :: o' =>
      if bool_decide (k = k') then (k', v) :: o' else (k', v') :: obj_replace k v o'
  end.

(** [o[k] = v] *)
Definition obj_set (k : str) (v : json) (o : obj) : obj :=
  match obj_get k o with Some _ => obj_replace k v o | None => obj_insert_new k v o end.

(** [delete o[k]] *)
Definition obj_delete (k : str) (o : obj) : obj :=
  List.filter (λ kv, negb (bool_decide (k = fst kv))) o.

(** [{ ...a, ...b }] *)
Definition obj_spread (a b : obj) : obj := fold_left (λ o kv, obj_set (fst kv) (snd kv) o) b a.

Definition obj_keys (o : obj) : list str := map fst o.
Definition obj_values (o : obj) : list json := map snd o.

(** ** [JSON.stringify] *)

Definition hex_char (n : N) : N := (if n <? 10 then 48 + n else 87 + n)%N.

Definition hex4 (c : N) : str :=
  [hex_char (c / 4096); hex_char (c / 256 mod 16); hex_char (c / 16 mod 16); hex_char (c mod 16)]%N.

Definition uescape (c : N) : str := 92%N :: 117%N :: hex4 c.

Definition is_high (c : N) : bool := ((55296 <=? c) && (c <=? 56319))%N.
Definition is_low (c : N) : bool := ((56320 <=? c) && (c <=? 57343))%N.

Definition quote_unit (c : N) : str :=
  if (c =? 34)%N then [92; 34]%N
  else if (c =? 92)%N then [92; 92]%N
  else if (c =? 8)%N then [92; 98]%N
  else if (c =? 12)%N then [92; 102]%N
  else if (c =? 10)%N then [92; 110]%N
  else if (c =? 13)%N then [92; 114]%N
  else if (c =? 9)%N then [92; 116]%N
  else if (c <? 32)%N then uescape c
  else [c].

Fixpoint quote_body (s : str) : str :=
  match s with
  | [] => []
  | c :: s' =>
      if is_high c then
        match s' with
        | d :: s'' => if is_low d then c :: d :: quote_body s'' else uescape c ++ quote_body s'
        | [] => uescape c
        end
      else if is_low c then uescape c ++ quote_body s'
      else quote_unit c ++ quote_body s'
  end.

(** [JSON.stringify] of a string. *)
Definition json_quote (s : str) : str := 34%N :: quote_body s ++ [34%N].

Fixpoint json_stringify (v : json) : str :=
  match v with
  | JNull => js "null"
  | JBool b => if b then js "true" else js "false"
  | JNum x => if is_finite x then string_of_num x else js "null"
  | JStr s => json_quote s
  | JArr l => js "[" ++ join (js ",") (map json_stringify l) ++ js "]"
  | JObj o => js "{" ++ join (js ",") (map (λ kv, json_quote (fst kv) ++ js ":" ++ json_stringify (snd kv)) o)
              ++ js "}"
  end.

(** ** [JSON.parse] *)

Definition json_ws (c : N) : bool := ((c =? 32) || (c =? 9) || (c =? 10) || (c =? 13))%N.

Definition skip_ws (s : str) : str := snd (take_while json_ws s).

(** The characters of a string literal up to its closing quote. *)
Fixpoint parse_chars (s : str) : option (str * str) :=
  match s with
  | [] => None
  | c :: s1 =>
      if (c =? 34)%N then Some ([], s1)
      else if (c =? 92)%N then
        match s1 with
        | [] => None
        | e :: s2 =>
            let ret (u : N) := match parse_chars s2 with Some (t, r) => Some (u :: t, r) | None => None end in
            if (e =? 34)%N then ret 34%N
            else if (e =? 92)%N then ret 92%N
            else if (e =? 47)%N then ret 47%N
            else if (e =? 98)%N then ret 8%N
            else if (e =? 102)%N then ret 12%N
            else if (e =? 110)%N then ret 10%N
            else if (e =? 114)%N then ret 13%N
            else if (e =? 116)%N then ret 9%N
            else if (e =? 117)%N then
              match s2 with
              | h1 :: h2 :: h3 :: h4 :: s3 =>
                  match hex_digit h1, hex_digit h2, hex_digit h3, hex_digit h4 with
                  | Some d1, Some d2, Some d3, Some d4 =>
                      match parse_chars s3 with
                      | Some (t, r) => Some ((d1 * 4096 + d2 * 256 + d3 * 16 + d4)%N :: t, r)
                      | None => None
                      end
                  | _, _, _, _ => None
                  end
              | _ => None
              end
            else None
        end
      else if (c <? 32)%N then None
      else match parse_chars s1 with Some (t, r) => Some (c :: t, r) | None => None end
  end.

(** JSON number grammar: -?(0|[1-9]\d* )(\.\d+)?([eE][+-]?\d+)? *)
(** A fraction part, if there is one; [None] is a point without digits. *)
Definition parse_frac (r : str) : option (str * str) :=
  match r with
  | c :: t => if (c =? 46)%N then
                let '(fp, r') := take_while is_digit t in if truthy fp then Some (fp, r') else None
              else Some ([], r)
  | [] => Some ([], [])
  end.

(** An exponent part, if there is one. *)
Definition parse_exp (r : str) : option (Z * str) :=
  match r with
  | c :: t =>
      if ((c =? 101) || (c =? 69))%N then
        let '(neg, t') := match t with
                          | d :: t' => if (d =? 43)%N then (false, t') else if (d =? 45)%N then (true, t') else (false, t)
                          | [] => (false, t)
                          end in
        let '(ed, r') := take_while is_digit t' in
        if truthy ed then Some ((if neg : bool then - Z.of_N (dec_val ed) else Z.of_N (dec_val ed))%Z, r') else None
      else Some (0%Z, r)
  | [] => Some (0%Z, [])
  end.

(** No leading zero. *)
Definition int_ok (ip : str) : bool := match ip with [] => false | [_] => true | d :: _ => negb (d =? 48)%N end.

Definition parse_unsigned (neg : bool) (u : str) : option (num * str) :=
  let '(ip, r1) := take_while is_digit u in
  if negb (int_ok ip) then None
  else match parse_frac r1 with
       | None => None
       | Some (fp, r2) =>
           match parse_exp r2 with
           | None => None
           | Some (e, r3) => Some (set_sign neg (dec_to_num (dec_val (ip ++ fp)) (- Z.of_nat (length fp) + e)%Z), r3)
           end
       end.

Definition parse_number (s : str) : option (num * str) :=
  match s with
  | c :: t => if (c =? 45)%N then parse_unsigned true t else parse_unsigned false s
  | [] => parse_unsigned false s
  end.

(** Fuel counts nested and successive values; [2 * length s + 1] is enough because
    every value and every separator consumes at least one code unit. *)
Fixpoint parse_value (fuel : nat) (s : str) : option (json * str) :=
  match fuel with
  | O => None
  | S f =>
      match skip_ws s with
      | [] => None
      | c :: t =>
          if (c =? 34)%N then
            match parse_chars t with Some (x, r) => Some (JStr x, r) | None => None end
          else if (c =? 91)%N then
            match skip_ws t with
            | d :: r => if (d =? 93)%N then Some (JArr [], r) else
                          match parse_elems f t with Some (l, r) => Some (JArr l, r) | None => None end
            | [] => None
            end
          else if (c =? 123)%N then
            match skip_ws t with
            | d :: r => if (d =? 125)%N then Some (JObj [], r) else
                          match parse_members f t with
                          | Some (l, r) => Some (JObj (fold_left (λ o kv, obj_set (fst kv) (snd kv) o) l []), r)
                          | None => None
                          end
            | [] => None
            end
          else if starts_with (js "null") (c :: t) then Some (JNull, drop 3 t)
          else if starts_with (js "true") (c :: t) then Some (JBool true, drop 3 t)
          else if starts_with (js "false") (c :: t) then Some (JBool false, drop 4 t)
          else match parse_number (c :: t) with Some (x, r) => Some (JNum x, r) | None => None end
      end
  end
(** One or more values separated by commas, up to [']']. *)
with parse_elems (fuel : nat) (s : str) : option (list json * str) :=
  match fuel with
  | O => None
  | S f =>
      match parse_value f s with
      | None => None
      | Some (v, r) =>
          match skip_ws r with
          | c :: r' =>
              if (c =? 93)%N then Some ([v], r')
              else if (c =? 44)%N then
                match parse_elems f r' with Some (l, r'') => Some (v :: l, r'') | None => None end
              else None
          | [] => None
          end
      end
  end
(** One or more members separated by commas, up to ['}']. *)
with parse_members (fuel : nat) (s : str) : option (list (str * json) * str) :=
  match fuel with
  | O => None
  | S f =>
      match skip_ws s with
      | q :: t =>
          if negb (q =? 34)%N then None else
          match parse_chars t with
          | None => None
          | Some (k, r0) =>
              match skip_ws r0 with
              | c0 :: r1 =>
                  if negb (c0 =? 58)%N then None else
                  match parse_value f r1 with
                  | None => None
                  | Some (v, r) =>
                      match skip_ws r with
                      | c :: r' =>
                          if (c =? 125)%N then Some ([(k, v)], r')
                          else if (c =? 44)%N then
                            match parse_members f r' with
                            | Some (l, r'') => Some ((k, v) :: l, r'')
                            | None => None
                            end
                          else None
                      | [] => None
                      end
                  end
              | [] => None
              end
          end
      | [] => None
      end
  end.

(** [JSON.parse(s)]; [None] is a thrown SyntaxError. *)
Definition json_parse (s : str) : option json :=
  match parse_value (S (2 * length s)) s with
  | Some (v, r) => match skip_ws r with [] => Some v | _ => None end
  | None => None
  end.

(** [String(v)] of a parsed JSON value. *)
Fixpoint json_to_string (v : json) : str :=
  match v with
  | JNull => js "null"
  | JBool b => if b then js "true" else js "false"
  | JNum x => string_of_num x
  | JStr s => s
  | JArr l => join (js ",") (map (λ v, match v with JNull => [] | _ => json_to_string v end) l)
  | JObj _ => js "[object Object]"
  end.

(** [Number(v)] of a JSON value. *)
Definition to_number (v : json) : num :=
  match v with
  | JNull => num_of_Z 0
  | JBool b => num_of_Z (if b then 1 else 0)
  | JNum x => x
  | JStr s => number_of_string s
  | JArr _ => number_of_string (json_to_string v)
  | JObj _ => S754_nan
  end.

(** [Number(v)] of a field that may be [undefined]. *)
Definition opt_number (v : option json) : num :=
  match v with Some v => to_number v | None => S754_nan end.

(** [if (v)] on a parsed value, [undefined] being [None] *)
Definition json_truthy (v : option json) : bool :=
  match v with
  | None | Some JNull => false
  | Some (JBool b) => b
  | Some (JNum x) => num_truthy x
  | Some (JStr s) => truthy s
  | Some (JArr _) | Some (JObj _) => true
  end.

(** [v ?? w] *)
Definition coalesce (v w : option json) : option json := match v with None | Some JNull => w | _ => v end.

(** [v?.k] for the property names used here, which no string, array or number has *)
Definition opt_prop (k : str) (v : option json) : option json :=
  match v with Some (JObj o) => obj_get k o | _ => None end.

(** [v?.[0]] *)
Definition opt_first (v : option json) : option json :=
  match v with
  | Some (JArr l) => head l
  | Some (JStr (c :: _)) => Some (JStr [c])
  | Some (JObj o) => obj_get (js "0") o
  | _ => None
  end.

(** [if (v) f(v)]: a truthy value as the text it is concatenated as.  The declared type of
    every field read this way is [string]. *)
Definition truthy_text (v : option json) : option str :=
  if json_truthy v then match v with Some w => Some (json_to_string w) | None => None end else None.

(** [Object.entries(v)] of a JSON value that is not [null]: the members of an object, the
    elements of an array, the characters of a string, nothing for a number or a boolean. *)
Definition entries_of (v : json) : obj :=
  match v with
  | JObj o => o
  | JArr l => imap (λ i x, (N_dec (N.of_nat i), x)) l
  | JStr s => imap (λ i c, (N_dec (N.of_nat i), JStr [c])) s
  | _ => []
  end.

(** [JSON.parse(s)] as the validators use it: an object, and nothing when the text does
    not parse or is [null], an array or a primitive. *)
Definition parse_object (s : str) : option obj :=
  match json_parse s with Some (JObj o) => Some o | _ => None end.

(** ** Strings round trip *)

Definition code_unit (c : N) : Prop := (c < 65536)%N.
Definition units (s : str) : Prop := Forall code_unit s.

Lemma hex_digit_char n : (n < 16)%N → hex_digit (hex_char n) = Some n.
Proof.
  intros Hn. unfold hex_char, hex_digit, is_digit.
  assert (H : n ∈ [0;1;2;3;4;5;6;7;8;9;10;11;12;13;14;15]%N).
  { rewrite !elem_of_cons, elem_of_nil. lia. }
  rewrite !elem_of_cons, elem_of_nil in H.
  repeat (destruct H as [->|H]; [reflexivity|]). done.
Qed.

Lemma hex4_value c : (c < 65536)%N →
  (c / 4096 * 4096 + c / 256 mod 16 * 256 + c / 16 mod 16 * 16 + c mod 16 = c)%N.
Proof. intros. zify. Z.to_euclidean_division_equations. lia. Qed.

Lemma parse_chars_uescape c t :
  (c < 65536)%N →
  parse_chars (uescape c ++ t) = match parse_chars t with Some (u, r) => Some (c :: u, r) | None => None end.
Proof.
  intros Hc. unfold uescape, hex4. simpl app.
  assert (H16 : (∀ x, x mod 16 < 16)%N) by (intros; by apply N.mod_lt).
  assert (H4096 : (c / 4096 < 16)%N) by (apply N.Div0.div_lt_upper_bound; lia).
  cbn -[hex_char N.div N.modulo N.mul N.add].
  rewrite !hex_digit_char by auto. by rewrite hex4_value.
Qed.

Lemma parse_chars_plain c t :
  c ≠ 34%N → c ≠ 92%N → (32 ≤ c)%N →
  parse_chars (c :: t) = match parse_chars t with Some (u, r) => Some (c :: u, r) | None => None end.
Proof.
  intros H1 H2 H3. cbn [parse_chars]. rewrite (proj2 (N.eqb_neq c 34)), (proj2 (N.eqb_neq c 92)) by done.
  by rewrite (proj2 (N.ltb_ge c 32)).
Qed.

Lemma parse_chars_unit c t :
  code_unit c →
  parse_chars (quote_unit c ++ t) = match parse_chars t with Some (u, r) => Some (c :: u, r) | None => None end.
Proof.
  intros Hc. unfold quote_unit.
  repeat match goal with |- context [(c =? ?n)%N] => destruct (N.eqb_spec c n) as [->|?]; [reflexivity|] end.
  destruct (N.ltb_spec c 32); [by apply parse_chars_uescape|]. by apply parse_chars_plain.
Qed.

(** Reading a quoted string stops at the closing quote with the string. *)
Lemma parse_chars_quote s t :
  units s → parse_chars (quote_body s ++ 34%N :: t) = Some (s, t).
Proof.
  induction s as [s IH] using (induction_ltof1 _ (@length N)). unfold ltof in IH. intros Hs.
  destruct s as [|c s]; [done|]. apply Forall_cons in Hs as [Hc Hs].
  cbn [quote_body]. destruct (is_high c) eqn:Eh.
  - unfold is_high in Eh. breflect. destruct s as [|d s].
    + rewrite parse_chars_uescape by done. done.
    + destruct (is_low d) eqn:El.
      * unfold is_low in El. breflect. simpl app.
        rewrite !parse_chars_plain by lia. apply Forall_cons in Hs as [Hd Hs].
        by rewrite IH by (simpl; lia || done).
      * rewrite <- app_assoc, parse_chars_uescape by done. by rewrite IH by (simpl; lia || done).
  - destruct (is_low c).
    + rewrite <- app_assoc, parse_chars_uescape by done. by rewrite IH by (simpl; lia || done).
    + rewrite <- app_assoc, parse_chars_unit by done. by rewrite IH by (simpl; lia || done).
Qed.

(** [JSON.parse(JSON.stringify(s))] is [s]. *)
Lemma json_parse_quote s : units s → json_parse (json_quote s) = Some (JStr s).
Proof.
  intros Hs. unfold json_parse, json_quote.
  cbn -[parse_chars quote_body Nat.mul]. by rewrite parse_chars_quote.
Qed.
