(* ===== verification/JsonFacts.v ===== *)
(** * [JSON.parse] inverts [JSON.stringify]

    Every value whose strings are made of code units, whose numbers are finite
    doubles other than negative zero, and whose objects enumerate their keys in the language's
    order is read back from its text. *)

From S2P Require Import Prelude JsString JsNumber JsNumberFacts Json.

Local Open Scope Z_scope.

(** ** Number literals *)

Definition exp_sign (neg : bool) : str := if neg then js "-" else js "+".

(** A literal: integer digits, fraction digits, exponent. *)
Definition lit (ip fp : str) (ex : option (bool * N)) : str :=
  ip ++ match fp with [] => [] | _ => 46%N :: fp end
  ++ match ex with None => [] | Some (neg, n) => 101%N :: exp_sign neg ++ N_dec n end.

Definition exp_val (ex : option (bool * N)) : Z :=
  match ex with None => 0 | Some (neg, n) => if neg : bool then - Z.of_N n else Z.of_N n end.

Definition lit_ok (ip fp : str) : Prop := digits ip ∧ digits fp ∧ int_ok ip = true.

(** The units that may follow a value. *)
Definition stops (t : str) : Prop :=
  match t with [] => True | c :: _ => num_char c = false ∧ c ≠ 69%N end.

Lemma stop_char c : num_char c = false → is_digit c = false ∧ c ≠ 46%N ∧ c ≠ 101%N.
Proof. unfold num_char. rewrite !orb_false_iff, !N.eqb_neq. tauto. Qed.

Lemma digits_stop p t : digits p → stops t → take_while is_digit (p ++ t) = (p, t).
Proof. intros Hp Ht. apply take_while_app; [done|]. destruct t as [|c t]; [done|]. by destruct Ht as [[? _]%stop_char _]. Qed.

Lemma int_ok_ne ip : int_ok ip = true → ip ≠ [].
Proof. by destruct ip. Qed.

Definition exp_text (ex : option (bool * N)) : str :=
  match ex with None => [] | Some (neg, n) => 101%N :: exp_sign neg ++ N_dec n end.

Lemma parse_exp_text ex t : stops t → parse_exp (exp_text ex ++ t) = Some (exp_val ex, t).
Proof.
  intros Ht. destruct ex as [[neg n]|]; cbn [exp_text exp_val].
  - pose proof (N_dec_digits n) as Hd. pose proof (N_dec_nonempty n) as Hne.
    cbn [app parse_exp N.eqb Pos.eqb orb]. rewrite <- app_assoc.
    destruct neg; [change (exp_sign true) with [45%N]|change (exp_sign false) with [43%N]];
      cbn [app N.eqb Pos.eqb]; rewrite digits_stop by done; rewrite dec_val_N_dec; by destruct (N_dec n).
  - destruct t as [|c t]; [done|]. destruct Ht as [(_ & _ & H1)%stop_char H2]. cbn [app parse_exp].
    by rewrite (proj2 (N.eqb_neq c 101)), (proj2 (N.eqb_neq c 69)).
Qed.

Lemma exp_text_head ex t :
  stops t → match exp_text ex ++ t with [] => True | c :: _ => is_digit c = false ∧ c ≠ 46%N end.
Proof. intros Ht. destruct ex as [[neg n]|]; [done|]. destruct t as [|c t]; [done|]. by destruct Ht as [(? & ? & _)%stop_char _]. Qed.

Lemma parse_frac_text fp rest :
  digits fp → match rest with [] => True | c :: _ => is_digit c = false ∧ c ≠ 46%N end →
  parse_frac (match fp with [] => [] | _ => 46%N :: fp end ++ rest) = Some (fp, rest).
Proof.
  intros Hf Hr. destruct fp as [|f fp]; cbn [app].
  - destruct rest as [|c u]; [done|]. destruct Hr as [_ Hc]. cbn [parse_frac]. by rewrite (proj2 (N.eqb_neq c 46)).
  - cbn [parse_frac N.eqb Pos.eqb]. rewrite app_comm_cons, take_while_app; [done|done|]. destruct rest; [done|]. by destruct Hr.
Qed.

Lemma parse_unsigned_lit neg ip fp ex t :
  lit_ok ip fp → stops t →
  parse_unsigned neg (lit ip fp ex ++ t)
  = Some (set_sign neg (dec_to_num (dec_val (ip ++ fp)) (- Z.of_nat (length fp) + exp_val ex)), t).
Proof.
  intros (Hi & Hf & Hok) Ht. unfold lit. rewrite <- !app_assoc. fold (exp_text ex).
  pose proof (exp_text_head ex t Ht) as Hx. unfold parse_unsigned. rewrite take_while_app; [|done|].
  2: { destruct fp; [|done]. cbn [app]. destruct (exp_text ex ++ t); [done|]. by destruct Hx. }
  rewrite Hok. cbn [negb]. by rewrite parse_frac_text, parse_exp_text.
Qed.

Lemma parse_number_lit (neg : bool) ip fp ex t :
  lit_ok ip fp → stops t →
  parse_number ((if neg then js "-" else []) ++ lit ip fp ex ++ t)
  = Some (set_sign neg (dec_to_num (dec_val (ip ++ fp)) (- Z.of_nat (length fp) + exp_val ex)), t).
Proof.
  intros Hl Ht. pose proof (parse_unsigned_lit neg ip fp ex t Hl Ht) as H. destruct neg; [exact H|]. cbn [app].
  destruct Hl as (Hi & _ & Hok). unfold lit in *. destruct ip as [|d ip]; [done|]. cbn [app] in *.
  apply Forall_cons in Hi as [Hd%is_digit_spec _]. cbn [parse_number]. by rewrite (proj2 (N.eqb_neq d 45)) by lia.
Qed.

(** ** The text of a number is such a literal *)

Lemma dec_digits_head f n acc :
  (0 < n)%N → (n < 10 ^ N.of_nat f)%N → ∃ c t, dec_digits f n acc = c :: t ∧ c ≠ 48%N.
Proof.
  revert n acc. induction f as [|f IH]; intros n acc H0 Hn; [simpl in Hn; lia|].
  cbn [dec_digits]. destruct (N.ltb_spec n 10) as [Hlt|Hge].
  - exists (48 + n mod 10)%N, acc. split; [done|]. rewrite N.mod_small by done. lia.
  - apply IH; [|apply N.Div0.div_lt_upper_bound; rewrite Nat2N.inj_succ, N.pow_succ_r' in Hn; lia].
    apply N.div_str_pos. lia.
Qed.

Lemma N_dec_head n : (0 < n)%N → ∃ c t, N_dec n = c :: t ∧ c ≠ 48%N.
Proof. intros H. by apply dec_digits_head, N_size_bound. Qed.

Lemma int_ok_head c t : c ≠ 48%N → int_ok (c :: t) = true.
Proof. intros H. destruct t; [done|]. cbn. by rewrite (proj2 (N.eqb_neq c 48)). Qed.

Lemma format_lit s e :
  (0 < s)%N → ∃ ip fp ex, format_digits s e = lit ip fp ex ∧ lit_ok ip fp.
Proof.
  intros Hs. pose proof (N_dec_digits s) as Hd. destruct (N_dec_head s Hs) as (c & ds & Eds & Hc).
  unfold format_digits. rewrite Eds in *. set (k := Z.of_nat (length (c :: ds))). cbv zeta.
  pose proof (Forall_cons_1 _ _ _ Hd) as [Hc' Hds].
  destruct ((k <=? k + e) && (k + e <=? 21)) eqn:E1.
  { exists ((c :: ds) ++ zeros (k + e - k)), [], None. split; [unfold lit; by rewrite !app_nil_r|].
    split_and!; [apply Forall_app; split; [done|apply zeros_digits]|constructor|by apply int_ok_head]. }
  destruct ((0 <? k + e) && (k + e <=? 21)) eqn:E2.
  { breflect. apply andb_false_iff in E1 as [E1|E1]; breflect; [|lia]. set (n := Z.to_nat (k + e)).
    exists (take n (c :: ds)), (drop n (c :: ds)), None.
    assert (drop n (c :: ds) ≠ []) as Hne.
    { intros Hl%(f_equal length). rewrite length_drop in Hl. change (length []) with 0%nat in Hl. subst k n. lia. }
    split; [unfold lit; rewrite app_nil_r; by destruct (drop n (c :: ds))|].
    split_and!; [by apply Forall_take|by apply Forall_drop|]. destruct n as [|n1] eqn:En; [lia|]. by apply int_ok_head. }
  destruct ((-6 <? k + e) && (k + e <=? 0)) eqn:E3.
  { exists [48%N], (zeros (- (k + e)) ++ c :: ds), None. split.
    - unfold lit. rewrite app_nil_r. change (js "0.") with [48%N; 46%N]. by destruct (zeros (- (k + e))).
    - split_and!; [by repeat constructor|apply Forall_app; split; [apply zeros_digits|done]|done]. }
  set (m := k + e - 1).
  assert ((if 0 <? m then js "+" else js "-") = exp_sign (negb (0 <? m))) as -> by by destruct (0 <? m).
  exists [c], ds, (Some (negb (0 <? m), Z.abs_N m)). split; [by destruct ds|].
  split_and!; [by repeat constructor|done|done].
Qed.

(** A literal read as an unsigned decimal. *)
Lemma parse_udecimal_lit ip fp ex :
  lit_ok ip fp →
  parse_udecimal (lit ip fp ex) = Some (dec_val (ip ++ fp), - Z.of_nat (length fp) + exp_val ex).
Proof.
  intros (Hi & Hf & Hok). assert (ip ≠ []) as Hne by by destruct ip.
  assert (∀ neg : bool, exp_sign neg = if neg then js "-" else js "+") as Hs by done.
  destruct fp as [|f fp], ex as [[neg n]|]; unfold lit; cbn [exp_val].
  - rewrite app_nil_r. cbn [app]. change (101%N :: exp_sign neg ++ N_dec n) with (js "e" ++ exp_sign neg ++ N_dec n).
    rewrite Hs, parse_udecimal_int_exp by done. done.
  - rewrite !app_nil_r. by rewrite parse_udecimal_plain.
  - change ((46%N :: f :: fp) ++ 101%N :: exp_sign neg ++ N_dec n) with (js "." ++ (f :: fp) ++ js "e" ++ exp_sign neg ++ N_dec n).
    by rewrite Hs, parse_udecimal_exp.
  - rewrite app_nil_r. change (46%N :: f :: fp) with (js "." ++ f :: fp). rewrite parse_udecimal_frac by done.
    by rewrite Z.add_0_r.
Qed.

(** Numbers that JSON keeps: finite doubles other than [-0]. *)
Definition json_num (x : num) : bool :=
  match x with S754_zero s => negb s | S754_finite _ _ _ => valid_num x | _ => false end.

Lemma parse_number_text x t :
  json_num x = true → stops t → parse_number (string_of_num x ++ t) = Some (x, t).
Proof.
  intros Hx Ht. destruct x as [s| | |s p e]; try done.
  - destruct s; [done|]. change (string_of_num (S754_zero false)) with (lit [48%N] [] None).
    assert (lit_ok [48%N] []) as Hok by by repeat constructor. exact (parse_number_lit false [48%N] [] None t Hok Ht).
  - cbn [string_of_num]. pose proof (digits_of_reads p e Hx) as Hr. destruct (digits_of p e) as [d e'].
    assert (Hd : (0 < d)%N) by (destruct d; [discriminate Hr|lia]).
    destruct (format_lit d e' Hd) as (ip & fp & ex & Hf & Hok). destruct (parse_format d e' Hd) as (d2 & e2 & Hp & Hv).
    rewrite Hf in Hp |- *. rewrite parse_udecimal_lit in Hp by done. injection Hp as <- <-.
    rewrite <- app_assoc. change (if s then js "-" else []) with (if s then js "-" else @nil N).
    rewrite parse_number_lit by done. rewrite Hv, Hr. by destruct s.
Qed.

(** ** Values *)

(** The language's order of keys: array indices first, ascending, then the others. *)
Definition canonical_keys (ks : list str) : Prop :=
  NoDup ks ∧ ∃ a b, ks = a ++ b ∧ StronglySorted (λ k k', (dec_val k < dec_val k')%N) a ∧
                    Forall (λ k, is_index k = true) a ∧ Forall (λ k, is_index k = false) b.

Definition canonical (o : obj) : Prop := canonical_keys (map fst o).

Lemma obj_get_None k o : k ∉ map fst o → obj_get k o = None.
Proof.
  induction o as [|[k' v'] o IH]; [done|]. cbn [map fst]. rewrite not_elem_of_cons. intros [Hk Ho]. cbn [obj_get].
  rewrite bool_decide_false by done. auto.
Qed.

Lemma obj_get_Some k o v : obj_get k o = Some v → k ∈ map fst o.
Proof.
  induction o as [|[k' v'] o IH]; [done|]. cbn [obj_get map fst]. destruct (decide (k = k')) as [->|Hne]; [by left|].
  rewrite bool_decide_false by done. right. auto.
Qed.

Lemma obj_insert_new_end k v o :
  is_index k = false ∨ Forall (λ kv, is_index (fst kv) = true ∧ (dec_val (fst kv) < dec_val k)%N) o →
  obj_insert_new k v o = o ++ [(k, v)].
Proof.
  intros H. induction o as [|[k' v'] o IH]; [done|]. cbn [obj_insert_new].
  assert (is_index k && (negb (is_index k') || (dec_val k <? dec_val k')%N) = false) as ->.
  { destruct H as [->|H]; [done|]. inversion H as [|? ? [Hi Hl] _]; subst. cbn [fst] in *. rewrite Hi. cbn [negb orb].
    rewrite (proj2 (N.ltb_ge _ _)) by lia. apply andb_false_r. }
  rewrite IH; [done|]. destruct H as [?|H]; [by left|right]. by inversion H.
Qed.

Lemma obj_set_new k v o :
  k ∉ map fst o → is_index k = false ∨ Forall (λ kv, is_index (fst kv) = true ∧ (dec_val (fst kv) < dec_val k)%N) o →
  obj_set k v o = o ++ [(k, v)].
Proof. intros Hk H. unfold obj_set. rewrite obj_get_None by done. by apply obj_insert_new_end. Qed.

(** Appending members in the language's order is setting them one by one. *)
Lemma fold_obj_set_sorted l acc a :
  NoDup (map fst acc ++ map fst l) → map fst acc ++ map fst l = a →
  StronglySorted (λ k k', (dec_val k < dec_val k')%N) a → Forall (λ k, is_index k = true) a →
  fold_left (λ o kv, obj_set (fst kv) (snd kv) o) l acc = acc ++ l.
Proof.
  revert acc. induction l as [|[k v] l IH]; intros acc Hn Ea Hs Hi; [by rewrite app_nil_r|]. cbn [fold_left fst snd].
  assert (obj_set k v acc = acc ++ [(k, v)]) as ->.
  { subst a. cbn [map fst] in *. apply obj_set_new.
    - rewrite NoDup_app in Hn. destruct Hn as (_ & Hn & _). intros Hin. apply (Hn k Hin). by left.
    - right. apply Forall_forall. intros [k' v'] Hin. cbn [fst].
      assert (k' ∈ map fst acc) as Hk' by (apply elem_of_lmap; by exists (k', v')). split.
      + rewrite Forall_forall in Hi. apply Hi, elem_of_app. by left.
      + clear -Hs Hk'. revert Hk'. generalize dependent (map fst acc). intros ks. induction ks as [|x ks IH]; intros Hs Hk; [by apply elem_of_nil in Hk|].
        cbn [app] in Hs. apply StronglySorted_inv in Hs as [Hs Hx]. apply elem_of_cons in Hk as [->|Hk]; [|by apply IH].
        rewrite Forall_forall in Hx. apply Hx, elem_of_app. right. by left. }
  rewrite IH, <- app_assoc; [done| | |done..].
  all: rewrite map_app, <- app_assoc; done.
Qed.

Lemma fold_obj_set l acc :
  NoDup (map fst (acc ++ l)) → Forall (λ kv, is_index (fst kv) = false) l →
  fold_left (λ o kv, obj_set (fst kv) (snd kv) o) l acc = acc ++ l.
Proof.
  revert acc. induction l as [|[k v] l IH]; intros acc Hn Hi; [by rewrite app_nil_r|].
  apply Forall_cons in Hi as [Hk Hi]. cbn [fold_left fst snd]. rewrite obj_set_new; [|..|by left].
  - rewrite IH, <- app_assoc; [done| |done]. by rewrite <- app_assoc.
  - rewrite map_app, NoDup_app in Hn. destruct Hn as (_ & Hn & _). intros Hin. apply (Hn k Hin). cbn. by left.
Qed.

Lemma canonical_fold o : canonical o → fold_left (λ o kv, obj_set (fst kv) (snd kv) o) o [] = o.
Proof.
  intros (Hn & a & b & E & Hs & Ha & Hb).
  assert (∃ oa ob, o = oa ++ ob ∧ map fst oa = a ∧ map fst ob = b) as (oa & ob & -> & <- & <-).
  { exists (take (length a) o), (drop (length a) o). split; [by rewrite take_drop|].
    rewrite <- firstn_map, <- skipn_map, E. split; [apply take_app_length|apply drop_app_length]. }
  rewrite fold_left_app. rewrite (fold_obj_set_sorted oa [] (map fst oa)); [|cbn|done..].
  - cbn [app]. apply fold_obj_set; [done|]. by rewrite Forall_map in Hb.
  - rewrite map_app, NoDup_app in Hn. tauto.
Qed.

Unset Elimination Schemes.
Inductive json_ok : json → Prop :=
  | ok_null : json_ok JNull
  | ok_bool b : json_ok (JBool b)
  | ok_num x : json_num x = true → json_ok (JNum x)
  | ok_str s : units s → json_ok (JStr s)
  | ok_arr l : Forall json_ok l → json_ok (JArr l)
  | ok_obj o : Forall (λ kv, units (fst kv)) o → Forall (λ kv, json_ok (snd kv)) o → canonical o → json_ok (JObj o).
Set Elimination Schemes.

Lemma json_num_head x : json_num x = true → ∃ c u, string_of_num x = c :: u ∧ (is_digit c = true ∨ c = 45%N).
Proof.
  destruct x as [s| | |s p e]; try done; intros _; [by exists 48%N, []; split; [|left]|]. cbn [string_of_num].
  destruct (digits_of p e) as [d e']. destruct (format_digits_shape d e') as (c & t & -> & Hc & _).
  destruct s; [by exists 45%N, (c :: t); split; [|right]|exists c, t; auto].
Qed.

(** The first unit of a value's text. *)
Definition value_head (c : N) : bool := negb (json_ws c) && negb (c =? 93)%N && negb (c =? 125)%N.

Lemma stringify_head v : json_ok v → ∃ c u, json_stringify v = c :: u ∧ value_head c = true.
Proof.
  intros H. destruct H as [|[]|x Hx| | |]; try by eexists _, _.
  cbn [json_stringify]. replace (is_finite x) with true by by destruct x.
  destruct (json_num_head x Hx) as (c & u & -> & Hc). exists c, u. split; [done|].
  destruct Hc as [Hc%is_digit_spec| ->]; [|done]. unfold value_head, json_ws.
  repeat match goal with |- context [(c =? ?n)%N] => rewrite (proj2 (N.eqb_neq c n)) by lia end. done.
Qed.

Lemma skip_ws_head c t : json_ws c = false → skip_ws (c :: t) = c :: t.
Proof. intros H. unfold skip_ws. simpl. by rewrite H. Qed.

Lemma skip_ws_value v t : json_ok v →
  ∃ c u, json_stringify v ++ t = c :: u ∧ skip_ws (json_stringify v ++ t) = c :: u ∧ (c =? 93)%N = false ∧ (c =? 125)%N = false.
Proof.
  intros (c & u & -> & Hc)%stringify_head. exists c, (u ++ t). unfold value_head in Hc.
  apply andb_true_iff in Hc as [[?%negb_true_iff ?%negb_true_iff]%andb_true_iff ?%negb_true_iff].
  split; [done|]. split; [by apply skip_ws_head|done].
Qed.

Lemma parse_value_num f x t : json_num x = true → stops t → parse_value (S f) (string_of_num x ++ t) = Some (JNum x, t).
Proof.
  intros Hx Ht. pose proof (parse_number_text x t Hx Ht) as Hp. destruct (json_num_head x Hx) as (c & u & E & Hc).
  rewrite E in Hp |- *. cbn [app] in *. assert (45 ≤ c ≤ 57)%N as Hr by (destruct Hc as [Hc%is_digit_spec| ->]; lia).
  cbn [parse_value]. rewrite skip_ws_head.
  2: { unfold json_ws. repeat match goal with |- context [(c =? ?n)%N] => rewrite (proj2 (N.eqb_neq c n)) by lia end. done. }
  rewrite !(proj2 (N.eqb_neq c _)) by lia.
  change (js "null") with (110%N :: js "ull"). change (js "true") with (116%N :: js "rue").
  change (js "false") with (102%N :: js "alse"). cbn [starts_with].
  repeat match goal with |- context [(?n =? c)%N] => rewrite (proj2 (N.eqb_neq n c)) by lia end.
  cbn [andb]. by rewrite Hp.
Qed.

Definition reads_back (v : json) : Prop :=
  json_ok v → ∀ f t, stops t → (2 * length (json_stringify v) ≤ f)%nat → parse_value f (json_stringify v ++ t) = Some (v, t).

Lemma stringify_length v : json_ok v → (1 ≤ length (json_stringify v))%nat.
Proof. intros (c & u & -> & _)%stringify_head. simpl. lia. Qed.

Lemma parse_elems_text v l t f :
  Forall reads_back (v :: l) → Forall json_ok (v :: l) →
  (2 * length (join (js ",") (map json_stringify (v :: l))) + 1 ≤ f)%nat →
  parse_elems f (join (js ",") (map json_stringify (v :: l)) ++ 93%N :: t) = Some (v :: l, t).
Proof.
  revert v f. induction l as [|w l IH]; intros v f Hr Hok Hf; inversion Hr as [|? ? Hv Hr']; inversion Hok as [|? ? Ov Ok']; subst.
  - cbn [map join] in *. destruct f as [|f]; [lia|]. cbn [parse_elems].
    rewrite Hv; [|done|done|lia]. by rewrite skip_ws_head.
  - cbn [map] in *. rewrite join_cons in * by done. rewrite !length_app in Hf. rewrite <- !app_assoc.
    change (js ",") with [44%N] in *. cbn [app length] in Hf |- *. destruct f as [|f]; [lia|]. cbn [parse_elems].
    rewrite Hv; [|done|done|lia]. rewrite skip_ws_head by done. cbn [N.eqb Pos.eqb].
    by rewrite IH by (done || lia).
Qed.

Definition member_text (kv : str * json) : str := json_quote (fst kv) ++ js ":" ++ json_stringify (snd kv).

Lemma parse_member_step f kv rest :
  reads_back (snd kv) → json_ok (snd kv) → units (fst kv) → stops rest →
  (2 * length (member_text kv) ≤ f)%nat →
  parse_members (S f) (member_text kv ++ rest)
  = match skip_ws rest with
    | c :: r' => if (c =? 125)%N then Some ([kv], r')
                 else if (c =? 44)%N then
                   match parse_members f r' with Some (l, r'') => Some (kv :: l, r'') | None => None end
                 else None
    | [] => None
    end.
Proof.
  destruct kv as [k v]. cbn [fst snd]. unfold member_text, json_quote. cbn [fst snd]. intros Hv Ov Hk Hs Hf.
  change (js ":") with [58%N] in *. rewrite <- !app_assoc. cbn [app] in *. rewrite <- !app_assoc. cbn [app].
  cbn [parse_members]. rewrite skip_ws_head by done. cbn [N.eqb Pos.eqb negb].
  rewrite parse_chars_quote by done. rewrite skip_ws_head by done. cbn [N.eqb Pos.eqb negb].
  rewrite Hv; [done|done|done|]. cbn [length] in Hf. rewrite !length_app in Hf. cbn [length] in Hf. lia.
Qed.

Lemma parse_members_text kv l t f :
  Forall (λ kv, reads_back (snd kv)) (kv :: l) → Forall (λ kv, json_ok (snd kv)) (kv :: l) → Forall (λ kv, units (fst kv)) (kv :: l) →
  (2 * length (join (js ",") (map member_text (kv :: l))) + 1 ≤ f)%nat →
  parse_members f (join (js ",") (map member_text (kv :: l)) ++ 125%N :: t) = Some (kv :: l, t).
Proof.
  revert kv f. induction l as [|w l IH]; intros kv f Hr Hok Hu Hf;
    inversion Hr as [|? ? Hv Hr']; inversion Hok as [|? ? Ov Ok']; inversion Hu as [|? ? Uv Hu']; subst.
  - cbn [map join] in *. destruct f as [|f]; [lia|].
    rewrite parse_member_step; [|done|done|done|done|lia]. by rewrite skip_ws_head.
  - cbn [map] in *. rewrite join_cons in * by done. rewrite !length_app in Hf. rewrite <- !app_assoc.
    change (js ",") with [44%N] in *. cbn [app length] in Hf |- *. destruct f as [|f]; [lia|].
    rewrite parse_member_step; [|done|done|done|done|lia]. rewrite skip_ws_head by done. cbn [N.eqb Pos.eqb].
    by rewrite IH by (done || lia).
Qed.

Lemma parse_value_text v : reads_back v.
Proof.
  induction v as [|b|x|s|l IH|o IH] using json_ind; intros Hok f t Ht Hf; inversion Hok as [| |? Hx|? Hs|? Hl|? Hu Ho Hc]; subst;
    (destruct f as [|f]; [apply stringify_length in Hok; lia|]).
  - done.
  - by destruct b.
  - cbn [json_stringify]. replace (is_finite x) with true by by destruct x. by apply parse_value_num.
  - cbn [json_stringify]. unfold json_quote. rewrite <- app_comm_cons, <- app_assoc. cbn [parse_value app].
    rewrite skip_ws_head by done. cbn [N.eqb Pos.eqb]. by rewrite parse_chars_quote.
  - cbn [json_stringify] in *. change (js "[") with [91%N] in *. change (js "]") with [93%N] in *.
    rewrite <- !app_assoc. cbn [app] in *. cbn [parse_value]. rewrite skip_ws_head by done. cbn [N.eqb Pos.eqb].
    destruct l as [|v l]; [cbn [map join app]; by rewrite skip_ws_head|].
    inversion Hl as [|? ? Ov _]; subst. cbn [map] in *.
    assert (∃ c u, join (js ",") (json_stringify v :: map json_stringify l) ++ 93%N :: t = c :: u ∧
                   skip_ws (c :: u) = c :: u ∧ (c =? 93)%N = false) as (c & u & E & Hw & Hne).
    { destruct (stringify_head v Ov) as (c & u & E & Hc). destruct l as [|w l]; cbn [map join].
      all: rewrite E; eexists _, _; split; [reflexivity|]; split; [apply skip_ws_head; unfold value_head in Hc|unfold value_head in Hc];
        apply andb_true_iff in Hc as [[?%negb_true_iff ?%negb_true_iff]%andb_true_iff _]; done. }
    rewrite E, Hw, Hne, <- E. change (json_stringify v :: map json_stringify l) with (map json_stringify (v :: l)) in *.
    rewrite parse_elems_text; [done|done|done|]. cbn [length] in Hf. rewrite length_app in Hf. cbn [length] in Hf. lia.
  - cbn [json_stringify] in *. change (js "{") with [123%N] in *. change (js "}") with [125%N] in *.
    rewrite <- !app_assoc. cbn [app] in *. cbn [parse_value]. rewrite skip_ws_head by done. cbn [N.eqb Pos.eqb].
    fold member_text in *. destruct o as [|kv o]; [cbn [map join app]; by rewrite skip_ws_head|].
    assert (∃ u, join (js ",") (map member_text (kv :: o)) ++ 125%N :: t = 34%N :: u) as (u & E).
    { destruct o; cbn [map join]; unfold member_text, json_quote; eexists; reflexivity. }
    rewrite E, skip_ws_head by done. cbn [N.eqb Pos.eqb]. rewrite <- E.
    rewrite parse_members_text; [by rewrite canonical_fold|done|done|done|].
    cbn [length] in Hf. rewrite length_app in Hf. cbn [length] in Hf. lia.
Qed.

(** [JSON.parse(JSON.stringify(v))] is [v]. *)
Lemma json_parse_stringify v : json_ok v → json_parse (json_stringify v) = Some v.
Proof.
  intros Hok. unfold json_parse. rewrite <- (app_nil_r (json_stringify v)) at 2.
  by rewrite parse_value_text by (done || lia).
Qed.

(** Objects whose keys are distinct and not array indices. *)
Lemma canonical_plain o :
  NoDup (map fst o) → Forall (λ kv, is_index (fst kv) = false) o → canonical o.
Proof. intros Hn Hi. split; [done|]. exists [], (map fst o). split_and!; [done|constructor|constructor|by rewrite Forall_map]. Qed.

(** ** The text of a value is one line *)

(** Printable: no control characters. *)
Definition printable (s : str) : Prop := Forall (λ c, (32 ≤ c)%N) s.

Lemma printable_lit s : forallb (λ c, (32 <=? c)%N) s = true → printable s.
Proof. intros H. apply Forall_forall. intros c Hc%list_elem_of_In. rewrite forallb_forall in H. by apply N.leb_le, H. Qed.

Lemma printable_uescape c : printable (uescape c).
Proof.
  assert (∀ n, (32 ≤ hex_char n)%N) as H by (intros n; unfold hex_char; destruct (N.ltb_spec n 10); lia).
  unfold uescape, hex4. repeat constructor; try apply H; lia.
Qed.

Lemma printable_quote_unit c : printable (quote_unit c).
Proof.
  unfold quote_unit.
  repeat match goal with |- context [(c =? ?n)%N] => destruct (c =? n)%N; [by apply printable_lit|] end.
  destruct (N.ltb_spec c 32); [apply printable_uescape|]. constructor; [done|constructor].
Qed.

Lemma printable_quote_body s : printable (quote_body s).
Proof.
  induction s as [s IH] using (induction_ltof1 _ (@length N)). unfold ltof in IH.
  destruct s as [|c s]; [constructor|]. cbn [quote_body].
  destruct (is_high c) eqn:Eh; [|destruct (is_low c)].
  - unfold is_high in Eh. breflect. destruct s as [|d s]; [apply printable_uescape|].
    destruct (is_low d) eqn:El.
    + unfold is_low in El. breflect. repeat (constructor; [lia|]). apply IH. simpl. lia.
    + apply Forall_app; split; [apply printable_uescape|]. apply IH. simpl. lia.
  - apply Forall_app; split; [apply printable_uescape|]. apply IH. simpl. lia.
  - apply Forall_app; split; [apply printable_quote_unit|]. apply IH. simpl. lia.
Qed.

Lemma printable_quote s : printable (json_quote s).
Proof. constructor; [lia|]. apply Forall_app; split; [apply printable_quote_body|by apply printable_lit]. Qed.

Lemma printable_num x : json_num x = true → printable (string_of_num x).
Proof.
  assert (∀ c, num_char c = true → (32 ≤ c)%N) as Hn.
  { intros c. unfold num_char. rewrite !orb_true_iff, !N.eqb_eq. intros [H%is_digit_spec|H]; lia. }
  destruct x as [s| | |s p e]; try done; intros _; [by apply printable_lit|]. cbn [string_of_num].
  destruct (digits_of p e) as [d e']. destruct (format_digits_shape d e') as (c & t & -> & Hc%is_digit_spec & Ht).
  apply Forall_app; split; [destruct s; by apply printable_lit|]. constructor; [lia|].
  eapply Forall_impl; [exact Ht|]. exact Hn.
Qed.

Lemma printable_join sep l : printable sep → Forall printable l → printable (join sep l).
Proof.
  intros Hs Hl. induction Hl as [|s l Hs' Hl IH]; [constructor|]. destruct l as [|s' l]; [done|].
  rewrite join_cons by done. repeat (apply Forall_app; split); done.
Qed.

Lemma printable_stringify v : json_ok v → printable (json_stringify v).
Proof.
  induction v as [|b|x|s|l IH|o IH] using json_ind; intros Hok; inversion Hok as [| |? Hx|? Hs|? Hl|? Hu Ho Hc]; subst.
  - by apply printable_lit.
  - destruct b; by apply printable_lit.
  - cbn [json_stringify]. replace (is_finite x) with true by by destruct x. by apply printable_num.
  - apply printable_quote.
  - apply Forall_app; split; [by apply printable_lit|]. apply Forall_app; split; [|by apply printable_lit].
    apply printable_join; [by apply printable_lit|]. apply Forall_forall. intros s (v & -> & Hv)%elem_of_lmap.
    rewrite Forall_forall in IH, Hl. by apply IH, Hl.
  - apply Forall_app; split; [by apply printable_lit|]. apply Forall_app; split; [|by apply printable_lit].
    apply printable_join; [by apply printable_lit|]. apply Forall_forall. intros s (kv & -> & Hv)%elem_of_lmap.
    rewrite Forall_forall in IH, Ho. apply Forall_app; split; [apply printable_quote|].
    apply Forall_app; split; [by apply printable_lit|]. by apply IH, Ho.
Qed.

Lemma stringify_no_newline v : json_ok v → 10%N ∉ json_stringify v.
Proof. intros H Hin. apply printable_stringify in H. pose proof (proj1 (Forall_forall _ _) H _ Hin) as Hc. simpl in Hc. lia. Qed.

Lemma stringify_obj_trimmed o : trimmed (json_stringify (JObj o)).
Proof. apply (trimmed_app (js "{")); [done|by destruct (join _ _)|done|]. rewrite rev_app_distr. done. Qed.

Lemma num_no_space x : json_num x = true → Forall (λ c, is_space c = false) (string_of_num x).
Proof.
  destruct x as [s| | |s p e]; try done; intros _; [by destruct s; repeat constructor|]. cbn [string_of_num].
  destruct (digits_of p e) as [d e']. destruct (format_digits_shape d e') as (c & t & -> & Hc%digit_not_space & Ht).
  apply Forall_app; split; [destruct s; by repeat constructor|]. constructor; [done|].
  eapply Forall_impl; [exact Ht|]. exact num_char_not_space.
Qed.

Lemma stringify_trimmed v : json_ok v → trimmed (json_stringify v).
Proof.
  intros H. destruct H as [|[]|x Hx|s _|l _|o _ _ _]; [done|done|done|..].
  - cbn [json_stringify]. replace (is_finite x) with true by by destruct x. by apply trimmed_no_space, num_no_space.
  - apply (trimmed_app [34%N]); [done|by destruct (quote_body s)|done|]. by rewrite rev_app_distr.
  - apply (trimmed_app (js "[")); [done|by destruct (join _ _)|done|]. by rewrite rev_app_distr.
  - apply stringify_obj_trimmed.
Qed.

Lemma stringify_ne v : json_ok v → json_stringify v ≠ [].
Proof. intros (c & u & -> & _)%stringify_head. done. Qed.

(** ** Reading and writing members *)

Lemma obj_get_replace k k' v o :
  obj_get k' (obj_replace k v o) = if bool_decide (k' = k) then (if obj_get k o then Some v else None) else obj_get k' o.
Proof.
  induction o as [|[q w] o IH]; [by case_bool_decide|]. cbn [obj_replace obj_get].
  destruct (decide (k = q)) as [->|Hq].
  - rewrite (bool_decide_true (q = q)) by done. cbn [obj_get]. by case_bool_decide.
  - rewrite (bool_decide_false (k = q)) by done. cbn [obj_get]. destruct (decide (k' = q)) as [->|Hq'].
    + rewrite (bool_decide_true (q = q)), (bool_decide_false (q = k)) by congruence. done.
    + rewrite (bool_decide_false (k' = q)) by done. apply IH.
Qed.

Lemma obj_get_insert_new k k' v o :
  obj_get k o = None → obj_get k' (obj_insert_new k v o) = if bool_decide (k' = k) then Some v else obj_get k' o.
Proof.
  induction o as [|[q w] o IH]; intros Hk; [done|]. cbn [obj_insert_new].
  destruct (is_index k && _); [done|]. cbn [obj_get] in *. destruct (decide (k = q)) as [->|Hq].
  { by rewrite bool_decide_true in Hk. }
  rewrite (bool_decide_false (k = q)) in Hk by done. destruct (decide (k' = q)) as [->|Hq'].
  - rewrite (bool_decide_true (q = q)), (bool_decide_false (q = k)) by congruence. done.
  - rewrite (bool_decide_false (k' = q)) by done. by apply IH.
Qed.

Lemma obj_get_set k k' v o : obj_get k' (obj_set k v o) = if bool_decide (k' = k) then Some v else obj_get k' o.
Proof.
  unfold obj_set. destruct (obj_get k o) as [w|] eqn:E; [|by apply obj_get_insert_new].
  rewrite obj_get_replace, E. done.
Qed.

Lemma obj_get_set_eq k v o : obj_get k (obj_set k v o) = Some v.
Proof. by rewrite obj_get_set, bool_decide_true. Qed.

Lemma obj_get_set_ne k k' v o : k' ≠ k → obj_get k' (obj_set k v o) = obj_get k' o.
Proof. intros. by rewrite obj_get_set, bool_decide_false. Qed.

Lemma obj_get_delete k k' o : obj_get k' (obj_delete k o) = if bool_decide (k' = k) then None else obj_get k' o.
Proof.
  unfold obj_delete. induction o as [|[q w] o IH]; [by case_bool_decide|]. cbn [List.filter fst].
  destruct (decide (k = q)) as [->|Hq].
  - rewrite (bool_decide_true (q = q)) by done. cbn [negb]. rewrite IH. cbn [obj_get].
    destruct (decide (k' = q)) as [->|Hq']; [by rewrite bool_decide_true|by rewrite !(bool_decide_false (k' = q))].
  - rewrite (bool_decide_false (k = q)) by done. cbn [negb obj_get]. destruct (decide (k' = q)) as [->|Hq'].
    + rewrite (bool_decide_true (q = q)), (bool_decide_false (q = k)) by congruence. done.
    + by rewrite (bool_decide_false (k' = q)) by done.
Qed.

Lemma map_fst_replace k v o : map fst (obj_replace k v o) = map fst o.
Proof. induction o as [|[q w] o IH]; [done|]. cbn. destruct (bool_decide _); cbn; by rewrite ?IH. Qed.

Lemma obj_set_keys k v o : is_index k = false → map fst (obj_set k v o) = map fst o ++ if obj_get k o then [] else [k].
Proof.
  intros Hk. unfold obj_set. destruct (obj_get k o); [by rewrite map_fst_replace, app_nil_r|].
  rewrite obj_insert_new_end by by left. by rewrite map_app.
Qed.

Lemma obj_get_elem k o v : obj_get k o = Some v → (k, v) ∈ o.
Proof.
  induction o as [|[q w] o IH]; [done|]. cbn [obj_get]. destruct (decide (k = q)) as [->|Hq].
  - rewrite bool_decide_true by done. intros [= ->]. by left.
  - rewrite bool_decide_false by done. right. auto.
Qed.

Lemma obj_get_fresh k o : obj_get k o = None → k ∉ map fst o.
Proof.
  induction o as [|[q w] o IH]; [by intros _ ?%elem_of_nil|]. cbn [obj_get map fst]. destruct (decide (k = q)) as [->|Hq].
  - by rewrite bool_decide_true.
  - rewrite bool_decide_false by done. intros Hk%IH [->|?]%elem_of_cons; done.
Qed.

Lemma obj_set_ok k v o :
  is_index k = false → units k → json_ok v → json_ok (JObj o) → json_ok (JObj (obj_set k v o)).
Proof.
  intros Hk Hu Hv Ho. inversion Ho as [| | | | |? Huo Hvo (Hn & a & b & E & Hs & Ha & Hb)]; subst.
  assert (∀ P : str * json → Prop, P (k, v) → Forall P o → Forall P (obj_set k v o)) as Hall.
  { intros P HP Hf. unfold obj_set. destruct (obj_get k o).
    - clear -HP Hf. induction Hf as [|[q w] o Hq Hf IH]; [constructor|]. cbn [obj_replace].
      case_bool_decide; subst; constructor; done.
    - rewrite obj_insert_new_end by by left. apply Forall_app. by repeat constructor. }
  constructor.
  - by apply Hall.
  - by apply Hall.
  - unfold canonical. rewrite obj_set_keys by done. destruct (obj_get k o) eqn:Eg; [rewrite app_nil_r; split; eauto 10|].
    split.
    + apply NoDup_app. split_and!; [done| |apply NoDup_singleton]. intros x Hx ->%list_elem_of_singleton.
      by apply obj_get_fresh in Eg.
    + exists a, (b ++ [k]). rewrite E, <- app_assoc. split_and!; [done|done|done|]. apply Forall_app. by repeat constructor.
Qed.

Lemma obj_delete_ok k o : json_ok (JObj o) → json_ok (JObj (obj_delete k o)).
Proof.
  intros Ho. inversion Ho as [| | | | |? Huo Hvo (Hn & a & b & E & Hs & Ha & Hb)]; subst.
  assert (Hkeys : map fst (obj_delete k o) = List.filter (λ q, negb (bool_decide (k = q))) (map fst o)).
  { unfold obj_delete. clear. induction o as [|[q w] o IH]; [done|]. cbn. destruct (bool_decide (k = q)); cbn; by rewrite IH. }
  constructor; [by apply bfilter_Forall|by apply bfilter_Forall|].
  unfold canonical. rewrite Hkeys, E, bfilter_app. split; [rewrite <- bfilter_app, <- E; by apply bfilter_NoDup|].
  eexists _, _. split; [reflexivity|]. split_and!.
  - clear -Hs. induction Hs as [|q ks Hs IH Hq]; [constructor|]. cbn. destruct (negb _); [|done]. constructor; [done|].
    by apply bfilter_Forall.
  - by apply bfilter_Forall.
  - by apply bfilter_Forall.
Qed.

(** An object whose keys are among fixed plain keys. *)
Lemma object_ok (ks : list str) (o : obj) :
  map fst o `sublist_of` ks → NoDup ks → Forall (λ k, is_index k = false ∧ units k) ks → Forall (λ kv, json_ok (snd kv)) o →
  json_ok (JObj o).
Proof.
  intros Hs Hn Hk Hv. assert (Forall (λ k, is_index k = false ∧ units k) (map fst o)) as Hf.
  { apply Forall_forall. intros k Hin. rewrite Forall_forall in Hk. by apply Hk, (sublist_subseteq _ _ Hs). }
  rewrite Forall_map in Hf. constructor; [|exact Hv|].
  - eapply Forall_impl; [exact Hf|]. intros kv [_ H]. exact H.
  - apply canonical_plain; [by eapply sublist_NoDup|]. eapply Forall_impl; [exact Hf|]. intros kv [H _]. exact H.
Qed.

Lemma obj_insert_new_Permutation k v o : obj_insert_new k v o ≡ₚ (k, v) :: o.
Proof.
  induction o as [|[k' v'] o IH]; [done|]. cbn [obj_insert_new]. destruct (is_index k && _); [done|]. rewrite IH. apply Permutation_swap.
Qed.

Lemma obj_set_NoDup k v o : NoDup (map fst o) → NoDup (map fst (obj_set k v o)).
Proof.
  intros H. unfold obj_set. destruct (obj_get k o) eqn:E; [by rewrite map_fst_replace|].
  assert (map fst (obj_insert_new k v o) ≡ₚ k :: map fst o) as ->.
  { change (k :: map fst o) with (map fst ((k, v) :: o)). apply (fmap_Permutation fst), obj_insert_new_Permutation. }
  apply NoDup_cons. split; [by apply obj_get_fresh|done].
Qed.

Lemma obj_filter_NoDup (p : str * json → bool) o : NoDup (map fst o) → NoDup (map fst (List.filter p o)).
Proof. intros H. eapply sublist_NoDup; [exact H|]. apply (fmap_sublist fst), bfilter_sublist. Qed.

Lemma obj_delete_NoDup k o : NoDup (map fst o) → NoDup (map fst (obj_delete k o)).
Proof. apply obj_filter_NoDup. Qed.

Lemma obj_get_filter (p : str → bool) k o : obj_get k (List.filter (λ kv, p (fst kv)) o) = if p k then obj_get k o else None.
Proof.
  induction o as [|[k' v] o IH]; [by destruct (p k)|]. cbn [List.filter fst]. destruct (p k') eqn:E; cbn [obj_get fst snd].
  - case_bool_decide as Hk; [subst; by rewrite E|done].
  - rewrite IH. case_bool_decide as Hk; [subst; by rewrite E|done].
Qed.

Lemma elem_obj_get k v o : NoDup (map fst o) → (k, v) ∈ o → obj_get k o = Some v.
Proof.
  induction o as [|[k' v'] o IH]; [by intros _ ?%not_elem_of_nil|]. cbn [map fst obj_get]. rewrite NoDup_cons. intros [Hn Hd] Hin.
  apply elem_of_cons in Hin as [[= <- <-]|Hin]; [by rewrite bool_decide_eq_true_2|].
  rewrite bool_decide_eq_false_2; [by apply IH|]. intros <-. apply Hn. apply elem_of_lmap. by exists (k, v).
Qed.

#[export] Hint Resolve obj_set_NoDup obj_filter_NoDup obj_delete_NoDup : js.

(** Setting a key twice keeps the second value. *)
Lemma obj_replace_twice k v w o : obj_replace k v (obj_replace k w o) = obj_replace k v o.
Proof.
  induction o as [|[q x] o IH]; [done|]. cbn. destruct (bool_decide (k = q)) eqn:E; cbn; rewrite E; [done|by rewrite IH].
Qed.

Lemma obj_replace_inserted k v w o : obj_get k o = None → obj_replace k v (obj_insert_new k w o) = obj_insert_new k v o.
Proof.
  induction o as [|[q x] o IH]; cbn; [by rewrite bool_decide_eq_true_2|]. destruct (bool_decide (k = q)) eqn:E; [done|]. intros Hg.
  destruct (is_index k && _); cbn; [by rewrite bool_decide_eq_true_2|]. by rewrite E, IH.
Qed.

Lemma obj_set_set k v w o : obj_set k v (obj_set k w o) = obj_set k v o.
Proof.
  unfold obj_set at 1. rewrite obj_get_set_eq. unfold obj_set. destruct (obj_get k o) eqn:E; [apply obj_replace_twice|by apply obj_replace_inserted].
Qed.

(** ** [parseFloat(String(x))] *)

Lemma parse_sdecimal_of_num x : json_num x = true → parse_sdecimal (string_of_num x) = Some x.
Proof.
  intros Hx. destruct x as [s| | |s p e]; try done; [by destruct s|].
  cbn [string_of_num]. pose proof (digits_of_reads p e Hx) as Hr. destruct (digits_of p e) as [d e'].
  assert (Hd : (0 < d)%N) by (destruct d; [discriminate Hr|lia]).
  destruct (format_digits_shape d e') as (c & t & Hf & Hc & _). destruct (parse_format d e' Hd) as (d2 & e2 & Hp & Hv).
  rewrite Hf in Hp |- *. apply is_digit_spec in Hc.
  assert (∀ u, c :: u ≠ js "Infinity") as HnI by (intros u; change (js "Infinity") with (73%N :: js "nfinity"); intros [= ->]; lia).
  unfold parse_sdecimal. destruct s.
  - change (js "-" ++ c :: t) with (45%N :: c :: t). cbn [N.eqb Pos.eqb]. rewrite bool_decide_false by apply HnI.
    rewrite Hp. cbn [fmap option_fmap option_map fst snd set_sign]. by rewrite Hv, Hr.
  - cbn [app]. rewrite !(proj2 (N.eqb_neq c _)) by lia. rewrite bool_decide_false by apply HnI.
    rewrite Hp. cbn [fmap option_fmap option_map fst snd set_sign]. by rewrite Hv, Hr.
Qed.

Lemma parse_float_of_num x : json_num x = true → parse_float (string_of_num x) = x.
Proof.
  intros Hx. unfold parse_float. rewrite trim_start_id.
  - pose proof (parse_sdecimal_of_num x Hx) as H. destruct (length (string_of_num x)) as [|n] eqn:E; cbn [float_prefix].
    + apply nil_length_inv in E. rewrite E in H. discriminate H.
    + by rewrite <- E, firstn_all, H.
  - destruct (json_num_head x Hx) as (c & u & -> & [Hc|Hc]); cbn [head_ok]; [by apply digit_not_space|by subst c].
Qed.

Lemma string_of_num_truthy x : json_num x = true → truthy (string_of_num x) = true.
Proof. intros Hx. by destruct (json_num_head x Hx) as (c & u & -> & _). Qed.
