(* ===== verification/JsonPretty.v ===== *)
(** * [JSON.stringify(v, null, 2)]

    The indented text of a JSON value, and the proof that it parses back to the value. *)

From S2P Require Import Prelude JsString JsNumber Json JsonFacts.

Definition nl : str := [10%N].

(** The end of a line that is followed by another member. *)
Definition sep : str := 44%N :: nl.

(** The text of a value whose first line is already indented by [ind]. *)
Fixpoint pretty (ind : str) (v : json) {struct v} : str :=
  match v with
  | JArr (x :: l) =>
      let ind' := ind ++ js "  " in
      js "[" ++ nl ++ join sep (map (λ w, ind' ++ pretty ind' w) (x :: l)) ++ nl ++ ind ++ js "]"
  | JObj (kv :: o) =>
      let ind' := ind ++ js "  " in
      js "{" ++ nl ++
      join sep (map (λ kv, ind' ++ json_quote (fst kv) ++ js ": " ++ pretty ind' (snd kv)) (kv :: o)) ++
      nl ++ ind ++ js "}"
  | _ => json_stringify v
  end.

Definition json_pretty (v : json) : str := pretty [] v.

Example pretty_nested :
  json_pretty (JObj [(js "a", JArr [JBool true; JArr []]); (js "b", JObj [])]) =
  join nl [js "{"; js "  " ++ json_quote (js "a") ++ js ": ["; js "    true,"; js "    []"; js "  ],";
           js "  " ++ json_quote (js "b") ++ js ": {}"; js "}"].
Proof. vm_compute. reflexivity. Qed.

(** ** White space *)

Definition blank_text (w : str) : Prop := Forall (λ c, json_ws c = true) w.

Lemma skip_ws_app w s : blank_text w → skip_ws (w ++ s) = skip_ws s.
Proof.
  intros H. unfold skip_ws. induction H as [|c w Hc _ IH]; [done|]. cbn [app take_while]. rewrite Hc.
  by destruct (take_while json_ws (w ++ s)).
Qed.

Lemma parse_value_ws f w s : blank_text w → parse_value f (w ++ s) = parse_value f s.
Proof. intros H. destruct f; [done|]. cbn [parse_value]. by rewrite skip_ws_app. Qed.

Lemma parse_members_ws f w s : blank_text w → parse_members f (w ++ s) = parse_members f s.
Proof. intros H. destruct f; [done|]. cbn [parse_members]. by rewrite skip_ws_app. Qed.

Lemma parse_elems_ws f w s : blank_text w → parse_elems f (w ++ s) = parse_elems f s.
Proof. intros H. destruct f; [done|]. cbn [parse_elems]. by rewrite parse_value_ws. Qed.

Lemma blank_nl : blank_text nl.
Proof. by repeat constructor. Qed.

Lemma blank_indent ind : blank_text ind → blank_text (ind ++ js "  ").
Proof. intros H. apply Forall_app. split; [exact H|by repeat constructor]. Qed.

Lemma stops_nl t : stops (nl ++ t).
Proof. by split. Qed.

(** ** Reading back *)

Definition reads_pretty (v : json) : Prop :=
  json_ok v → ∀ ind f t, blank_text ind → stops t → (2 * length (pretty ind v) ≤ f)%nat →
  parse_value f (pretty ind v ++ t) = Some (v, t).

(** A simple value has the same text with and without indentation. *)
Lemma pretty_flat ind v :
  pretty ind v = json_stringify v ∨ (∃ x l, v = JArr (x :: l)) ∨ (∃ kv o, v = JObj (kv :: o)).
Proof. destruct v as [| | | |[|x l]|[|kv o]]; eauto. Qed.

Definition elem_text (ind : str) (v : json) : str := ind ++ pretty ind v.

Lemma elem_length ind v : length (elem_text ind v) = length ind + length (pretty ind v).
Proof. apply length_app. Qed.

Lemma parse_elem f ind v t : blank_text ind → reads_pretty v → json_ok v → stops t →
  (2 * length (elem_text ind v) ≤ f)%nat → parse_value f (elem_text ind v ++ t) = Some (v, t).
Proof.
  intros Hi Hv Ov Ht Hf. unfold elem_text. rewrite <- app_assoc, parse_value_ws by done. rewrite elem_length in Hf.
  apply Hv; [done|done|done|lia].
Qed.

Lemma parse_pretty_elems ind ind0 v l t f :
  blank_text ind → blank_text ind0 → Forall reads_pretty (v :: l) → Forall json_ok (v :: l) →
  (2 * length (join sep (map (elem_text ind) (v :: l))) + 1 ≤ f)%nat →
  parse_elems f (join sep (map (elem_text ind) (v :: l)) ++ nl ++ ind0 ++ 93%N :: t) = Some (v :: l, t).
Proof.
  intros Hi Hi0. revert v f. induction l as [|w l IH]; intros v f Hr Hok Hf; inversion Hr as [|? ? Hv Hr']; inversion Hok as [|? ? Ov Ok']; subst.
  - cbn [map join] in *. destruct f as [|f]; [lia|]. cbn [parse_elems].
    rewrite parse_elem; [|done|done|done|apply stops_nl|lia]. rewrite !skip_ws_app by (done || apply blank_nl). by rewrite skip_ws_head.
  - cbn [map] in *. rewrite join_cons in * by done. rewrite !length_app in Hf. rewrite <- !app_assoc.
    change (length sep) with 2 in Hf. change (sep ++ ?x) with (44%N :: nl ++ x). destruct f as [|f]; [lia|]. cbn [parse_elems].
    rewrite parse_elem; [|done|done|done|by split|lia]. rewrite skip_ws_head by done. cbn [N.eqb Pos.eqb].
    rewrite parse_elems_ws by apply blank_nl.
    by rewrite IH by (done || lia).
Qed.

Definition pretty_member (ind : str) (kv : str * json) : str :=
  ind ++ json_quote (fst kv) ++ js ": " ++ pretty ind (snd kv).

Lemma parse_pretty_member f ind kv rest : blank_text ind →
  reads_pretty (snd kv) → json_ok (snd kv) → units (fst kv) → stops rest → (2 * length (pretty_member ind kv) ≤ f)%nat →
  parse_members (S f) (pretty_member ind kv ++ rest)
  = match skip_ws rest with
    | c :: r' => if (c =? 125)%N then Some ([kv], r')
                 else if (c =? 44)%N then
                   match parse_members f r' with Some (l, r'') => Some (kv :: l, r'') | None => None end
                 else None
    | [] => None
    end.
Proof.
  destruct kv as [k v]. cbn [fst snd]. unfold pretty_member, json_quote. cbn [fst snd]. intros Hi Hv Ov Hk Hs Hf.
  rewrite <- app_assoc, parse_members_ws by done. rewrite !length_app in Hf. cbn [length] in Hf. rewrite !length_app in Hf.
  change (js ": ") with (58%N :: [32%N]) in *. cbn [app length] in *. rewrite <- !app_assoc. cbn [app].
  cbn [parse_members]. rewrite skip_ws_head by done. cbn [N.eqb Pos.eqb negb].
  rewrite parse_chars_quote by done. rewrite skip_ws_head by done. cbn [N.eqb Pos.eqb negb].
  change (32%N :: ?x) with ([32%N] ++ x). rewrite parse_value_ws by (by repeat constructor).
  rewrite Hv; [done|done|done|done|lia].
Qed.

Lemma parse_pretty_members ind ind0 kv l t f :
  blank_text ind → blank_text ind0 → Forall (λ kv, reads_pretty (snd kv)) (kv :: l) → Forall (λ kv, json_ok (snd kv)) (kv :: l) →
  Forall (λ kv, units (fst kv)) (kv :: l) →
  (2 * length (join sep (map (pretty_member ind) (kv :: l))) + 1 ≤ f)%nat →
  parse_members f (join sep (map (pretty_member ind) (kv :: l)) ++ nl ++ ind0 ++ 125%N :: t) = Some (kv :: l, t).
Proof.
  intros Hi Hi0. revert kv f. induction l as [|w l IH]; intros kv f Hr Hok Hu Hf;
    inversion Hr as [|? ? Hv Hr']; inversion Hok as [|? ? Ov Ok']; inversion Hu as [|? ? Uv Hu']; subst.
  - cbn [map join] in *. destruct f as [|f]; [lia|].
    rewrite parse_pretty_member; [|done|done|done|done|apply stops_nl|lia].
    rewrite !skip_ws_app by (done || apply blank_nl). by rewrite skip_ws_head.
  - cbn [map] in *. rewrite join_cons in * by done. rewrite !length_app in Hf. rewrite <- !app_assoc.
    change (length sep) with 2 in Hf. change (sep ++ ?x) with (44%N :: nl ++ x). destruct f as [|f]; [lia|].
    rewrite parse_pretty_member; [|done|done|done|done|by split|lia]. rewrite skip_ws_head by done. cbn [N.eqb Pos.eqb].
    rewrite parse_members_ws by apply blank_nl.
    by rewrite IH by (done || lia).
Qed.

(** The first unit of an indented text is that of the value. *)
Lemma pretty_head ind v : json_ok v → ∃ c u, pretty ind v = c :: u ∧ value_head c = true.
Proof.
  intros H. destruct (pretty_flat ind v) as [->|[(x & l & ->)|(kv & o & ->)]]; [by apply stringify_head|..];
    by eexists _, _.
Qed.

Lemma join_head sep (s : str) l : ∃ u, join sep (s :: l) = s ++ u.
Proof. destruct l as [|s' l]; [exists []; by rewrite app_nil_r|]. exists (sep ++ join sep (s' :: l)). by apply join_cons. Qed.

Lemma parse_pretty_text v : reads_pretty v.
Proof.
  induction v as [|b|x|s|l IH|o IH] using json_ind; intros Hok ind f t Hi Ht Hf; try (by apply parse_value_text).
  - destruct l as [|v l]; [by apply parse_value_text|]. inversion Hok as [| | | |? Hl|]; subst.
    cbn [pretty] in Hf |- *. set (ind' := ind ++ js "  ") in *.
    assert (blank_text ind') as Hi' by by apply blank_indent.
    change (map (λ w, ind' ++ pretty ind' w) (v :: l)) with (map (elem_text ind') (v :: l)) in *.
    change (js "[") with [91%N] in *. change (js "]") with [93%N] in *. rewrite !length_app in Hf. cbn [length app] in Hf |- *.
    rewrite <- !app_assoc. cbn [app]. destruct f as [|f]; [lia|]. cbn [parse_value]. rewrite skip_ws_head by done. cbn [N.eqb Pos.eqb].
    destruct (join_head sep (elem_text ind' v) (map (elem_text ind') l)) as (u & E).
    change (elem_text ind' v :: map (elem_text ind') l) with (map (elem_text ind') (v :: l)) in E.
    inversion Hl as [|? ? Ov _]; subst. destruct (pretty_head ind' v Ov) as (c & u' & Ep & Hc).
    assert (skip_ws (nl ++ join sep (map (elem_text ind') (v :: l)) ++ nl ++ ind ++ 93%N :: t)
            = c :: u' ++ u ++ nl ++ ind ++ 93%N :: t) as ->.
    { rewrite skip_ws_app by apply blank_nl. rewrite E. unfold elem_text. rewrite <- !app_assoc, skip_ws_app, Ep by done.
      cbn [app]. apply skip_ws_head. unfold value_head in Hc. apply andb_true_iff in Hc as [[?%negb_true_iff _]%andb_true_iff _]. done. }
    assert ((c =? 93)%N = false) as ->.
    { unfold value_head in Hc. apply andb_true_iff in Hc as [[_ ?%negb_true_iff]%andb_true_iff _]. done. }
    rewrite parse_elems_ws by apply blank_nl.
    rewrite parse_pretty_elems; [done|done|done|done|done|lia].
  - destruct o as [|kv o]; [by apply parse_value_text|]. inversion Hok as [| | | | |? Hu Ho Hc]; subst.
    cbn [pretty] in Hf |- *. set (ind' := ind ++ js "  ") in *.
    assert (blank_text ind') as Hi' by by apply blank_indent.
    change (map (λ kv, ind' ++ json_quote (fst kv) ++ js ": " ++ pretty ind' (snd kv)) (kv :: o))
      with (map (pretty_member ind') (kv :: o)) in *.
    change (js "{") with [123%N] in *. change (js "}") with [125%N] in *. rewrite !length_app in Hf. cbn [length app] in Hf |- *.
    rewrite <- !app_assoc. cbn [app]. destruct f as [|f]; [lia|]. cbn [parse_value]. rewrite skip_ws_head by done. cbn [N.eqb Pos.eqb].
    destruct (join_head sep (pretty_member ind' kv) (map (pretty_member ind') o)) as (u & E).
    change (pretty_member ind' kv :: map (pretty_member ind') o) with (map (pretty_member ind') (kv :: o)) in E.
    assert (∃ u', skip_ws (nl ++ join sep (map (pretty_member ind') (kv :: o)) ++ nl ++ ind ++ 125%N :: t) = 34%N :: u') as (u' & ->).
    { rewrite skip_ws_app by apply blank_nl. rewrite E. unfold pretty_member, json_quote. rewrite <- !app_assoc, skip_ws_app by done.
      cbn [app]. eexists. by apply skip_ws_head. }
    cbn [N.eqb Pos.eqb]. rewrite parse_members_ws by apply blank_nl.
    rewrite parse_pretty_members; [by rewrite canonical_fold|done|done|done|done|done|lia].
Qed.

(** [JSON.parse(JSON.stringify(v, null, 2))] is [v]. *)
Lemma json_parse_pretty v : json_ok v → json_parse (json_pretty v) = Some v.
Proof.
  intros Hok. unfold json_parse, json_pretty. rewrite <- (app_nil_r (pretty [] v)) at 2.
  rewrite (parse_pretty_text v Hok [] _ []); [done|constructor|done|lia].
Qed.
