(* ===== verification/JsInteger.v ===== *)
(** * Integers among JavaScript numbers

    Integers below [2^53] in absolute value are numbers, and adding, subtracting and comparing them
    is exact: rounding never shows in a count.  The components that add up counters ([Charts]) are reasoned
    about on [Z] through these lemmas. *)

From S2P Require Import Prelude JsString JsNumber JsNumberFacts.

Local Open Scope Z_scope.

(** [Number.isSafeInteger] *)
Definition safe (z : Z) : Prop := Z.abs z < 2 ^ 53.

(** The mantissa and exponent of a positive safe integer. *)
Definition int_exp (p : positive) : Z := Zpos (digits2_pos p) - prec.
Definition int_mant (p : positive) : positive := Z.to_pos (Zpos p * 2 ^ (- int_exp p)).

Lemma safe_digits p : safe (Zpos p) → Zpos (digits2_pos p) ≤ 53.
Proof.
  unfold safe. rewrite digits2_log2. simpl Z.abs. intros H.
  pose proof (Z.log2_lt_pow2 (Zpos p) 53 ltac:(lia)) as [H1 _]. specialize (H1 H). lia.
Qed.

Lemma int_mant_spec p : safe (Zpos p) → Zpos (int_mant p) = Zpos p * 2 ^ (- int_exp p) ∧ -53 < int_exp p ≤ 0.
Proof.
  intros H%safe_digits. unfold int_mant, int_exp, prec in *.
  pose proof (Z.pow_pos_nonneg 2 (- (Zpos (digits2_pos p) - 53))). split; [|lia]. rewrite Z2Pos.id; nia.
Qed.

Lemma fexp_small d : 1 ≤ d ≤ 53 → fexp prec emax d = d - prec.
Proof. unfold fexp, prec, emax, emin. lia. Qed.

Lemma int_bounded p : safe (Zpos p) → bounded prec emax (int_mant p) (int_exp p) = true.
Proof.
  intros H. destruct (int_mant_spec p H) as [Hm He]. apply safe_digits in H.
  assert (Hd : Zpos (digits2_pos (int_mant p)) = prec).
  { change (Zdigits2 (Zpos (int_mant p)) = prec). rewrite Hm, Zdigits2_shift by lia. unfold int_exp, prec. lia. }
  unfold bounded, canonical_mantissa. rewrite Hd, andb_true_iff, Z.eqb_eq, Z.leb_le.
  rewrite fexp_small by (unfold int_exp, prec in *; lia). unfold emax, prec in *. lia.
Qed.

Lemma round_aux_sign m e l : binary_round_aux prec emax true m e l = SFopp (binary_round_aux prec emax false m e l).
Proof. unfold binary_round_aux. repeat break_match; done. Qed.

Lemma shl_align_scaled p k e : 0 ≤ k →
  shl_align (Z.to_pos (Zpos p * 2 ^ k)) (- k) e =
  (Z.to_pos (Zpos p * 2 ^ (k + Z.max 0 (- k - e))), Z.min (- k) e).
Proof.
  intros Hk. pose proof (shl_align_exact (Z.to_pos (Zpos p * 2 ^ k)) (e + k)) as H. unfold shl_align in *.
  replace (e - - k) with (e + k) by lia. rewrite Z.sub_0_r in H.
  pose proof (Z.pow_pos_nonneg 2 k). rewrite Z2Pos.id in H by nia.
  rewrite <- Z.mul_assoc, <- Z.pow_add_r in H by lia. replace (- (e + k)) with (- k - e) in H by lia.
  destruct (e + k) eqn:E; pose proof (f_equal fst H) as H1; cbn [fst] in H1; rewrite <- H1; f_equal; lia.
Qed.

(** A safe integer, written with a mantissa shifted by [k], is rounded to itself. *)
Lemma normalize_scaled z k : safe z → 0 ≤ k → binary_normalize prec emax (z * 2 ^ k) (- k) false = num_of_Z z.
Proof.
  intros Hz Hk. pose proof (Z.pow_pos_nonneg 2 k ltac:(lia) Hk) as H2.
  assert (Hr : ∀ p j, safe (Zpos p) → 0 ≤ j →
    binary_round prec emax false (Z.to_pos (Zpos p * 2 ^ j)) (- j) = S754_finite false (int_mant p) (int_exp p)).
  { intros p j Hp Hj. pose proof (Z.pow_pos_nonneg 2 j ltac:(lia) Hj). unfold binary_round.
    pose proof (safe_digits p Hp). destruct (int_mant_spec p Hp) as [Hm He].
    assert (Hd : Zpos (digits2_pos (Z.to_pos (Zpos p * 2 ^ j))) = Zpos (digits2_pos p) + j).
    { change (Zdigits2 (Zpos (Z.to_pos (Zpos p * 2 ^ j))) = Zpos (digits2_pos p) + j).
      rewrite Z2Pos.id, Zdigits2_shift by nia. done. }
    rewrite Hd. replace (Zpos (digits2_pos p) + j + - j) with (Zpos (digits2_pos p)) by lia.
    rewrite fexp_small by lia. change (Zpos (digits2_pos p) - prec) with (int_exp p).
    rewrite shl_align_scaled by done.
    rewrite <- (round_exact (int_mant p) (int_exp p) (int_exp p - Z.min (- j) (int_exp p))) by (try apply int_bounded; lia || done).
    rewrite Hm, <- Z.mul_assoc, <- Z.pow_add_r by lia.
    pose proof (Z.pow_pos_nonneg 2 (j + Z.max 0 (- j - int_exp p))). rewrite Z2Pos.id by nia. f_equal; [do 2 f_equal|]; lia. }
  assert (Hn : ∀ p, num_of_Z (Zpos p) = binary_round prec emax false p 0) by done.
  assert (Hn' : ∀ p, num_of_Z (Zneg p) = binary_round prec emax true p 0) by done.
  assert (Hs : ∀ p e, binary_round prec emax true p e = SFopp (binary_round prec emax false p e)).
  { intros p e. unfold binary_round. destruct shl_align. apply round_aux_sign. }
  destruct z as [|p|p].
  - done.
  - pose proof (Hr p k Hz Hk) as R1. pose proof (Hr p 0 Hz ltac:(lia)) as R0. change (2 ^ 0) with 1 in R0.
    rewrite Z.mul_1_r in R0. simpl Z.to_pos in R0. change (- 0) with 0 in R0. rewrite Hn. rewrite R0, <- R1.
    rewrite <- (Z2Pos.id (Zpos p * 2 ^ k)) at 1 by nia. done.
  - pose proof (Hr p k Hz Hk) as R1. pose proof (Hr p 0 Hz ltac:(lia)) as R0. change (2 ^ 0) with 1 in R0.
    rewrite Z.mul_1_r in R0. simpl Z.to_pos in R0. change (- 0) with 0 in R0. rewrite Hn', Hs. rewrite R0, <- R1, <- Hs.
    replace (Z.neg p * 2 ^ k) with (- Zpos (Z.to_pos (Zpos p * 2 ^ k))) by (rewrite Z2Pos.id; nia). done.
Qed.

(** ** Arithmetic *)

(** The form of a safe integer other than zero. *)
Lemma num_of_pos p : safe (Zpos p) → num_of_Z (Zpos p) = S754_finite false (int_mant p) (int_exp p).
Proof.
  intros Hp. destruct (int_mant_spec p Hp) as [Hm He].
  rewrite <- (normalize_scaled (Zpos p) (- int_exp p) Hp), <- Hm, Z.opp_involutive by lia.
  cbn [binary_normalize]. unfold binary_round. destruct (bounded_spec _ _ (int_bounded p Hp)) as [Hf _].
  rewrite Hf. unfold shl_align. rewrite Z.sub_diag.
  pose proof (round_exact (int_mant p) (int_exp p) 0 (int_bounded p Hp)) as R. change (2 ^ 0) with 1 in R.
  rewrite Z.mul_1_r, Z.sub_0_r in R. apply R. lia.
Qed.

Lemma num_of_neg p : num_of_Z (Zneg p) = SFopp (num_of_Z (Zpos p)).
Proof. unfold num_of_Z. cbn [binary_normalize]. unfold binary_round. destruct shl_align. apply round_aux_sign. Qed.

Lemma num_of_opp z : z ≠ 0 → num_of_Z (- z) = SFopp (num_of_Z z).
Proof.
  destruct z as [|p|p]; intros H; [done|apply num_of_neg|]. change (- Z.neg p) with (Zpos p). rewrite num_of_neg.
  unfold SFopp. by destruct (num_of_Z (Zpos p)) as [[]|[]| |[] ? ?].
Qed.

Lemma safe_finite z : safe z → is_finite (num_of_Z z) = true.
Proof.
  intros H. destruct z as [|p|p]; [done|by rewrite num_of_pos|].
  rewrite num_of_neg, num_of_pos by done. done.
Qed.

(** The mantissa aligned on a smaller exponent. *)
Lemma align_int p e : safe (Zpos p) → e ≤ int_exp p →
  Zpos (fst (shl_align (int_mant p) (int_exp p) e)) = Zpos p * 2 ^ (- e).
Proof.
  intros Hp He. destruct (int_mant_spec p Hp) as [Hm Hb].
  pose proof (shl_align_exact (int_mant p) (e - int_exp p)) as H. unfold shl_align in *. rewrite Z.sub_0_r in H.
  pose proof (Z.pow_pos_nonneg 2 (- e)).
  assert (Ha : Zpos (int_mant p) * 2 ^ Z.max 0 (- (e - int_exp p)) = Zpos p * 2 ^ (- e)).
  { rewrite Hm, <- Z.mul_assoc, <- Z.pow_add_r by lia. do 2 f_equal. lia. }
  rewrite Ha in H. destruct (e - int_exp p) eqn:E; [| lia |]; pose proof (f_equal fst H) as H1; cbn [fst] in *;
    rewrite H1, Z2Pos.id; nia.
Qed.

(** A nonzero safe integer, as a sign, a mantissa and an exponent. *)
Lemma int_parts z : safe z → z ≠ 0 → ∃ s m e, num_of_Z z = S754_finite s m e ∧ e ≤ 0 ∧
  ∀ e', e' ≤ e → cond_Zopp s (Zpos (fst (shl_align m e e'))) = z * 2 ^ (- e').
Proof.
  intros Hz Hn. destruct z as [|p|p]; [done| |].
  - exists false, (int_mant p), (int_exp p). destruct (int_mant_spec p Hz) as [_ ?].
    split; [by apply num_of_pos|]. split; [lia|]. intros e' He'. cbn [cond_Zopp]. by apply align_int.
  - exists true, (int_mant p), (int_exp p). destruct (int_mant_spec p Hz) as [_ ?].
    split; [by rewrite num_of_neg, num_of_pos|]. split; [lia|]. intros e' He'. cbn [cond_Zopp]. rewrite align_int by done. lia.
Qed.

Lemma nadd_int a b : safe a → safe b → safe (a + b) → nadd (num_of_Z a) (num_of_Z b) = num_of_Z (a + b).
Proof.
  intros Ha Hb Hs.
  destruct (decide (a = 0)) as [->|Hna].
  { rewrite Z.add_0_l. pose proof (safe_finite b Hb). unfold nadd. change (num_of_Z 0) with (S754_zero false).
    destruct (decide (b = 0)) as [->|]; [done|]. destruct (int_parts b Hb) as (s & m & e & -> & _); done. }
  destruct (decide (b = 0)) as [->|Hnb].
  { rewrite Z.add_0_r. change (num_of_Z 0) with (S754_zero false).
    destruct (int_parts a Ha Hna) as (s & m & e & -> & _); done. }
  destruct (int_parts a Ha Hna) as (s & m & e & Ea & He & Pa), (int_parts b Hb Hnb) as (s' & m' & e' & Eb & He' & Pb).
  rewrite Ea, Eb. unfold nadd, SFadd. rewrite Pa, Pb by lia. rewrite <- Z.mul_add_distr_r.
  rewrite <- (normalize_scaled (a + b) (- Z.min e e')) by (lia || done). by rewrite !Z.opp_involutive.
Qed.

Lemma nsub_int a b : safe a → safe b → safe (a - b) → nsub (num_of_Z a) (num_of_Z b) = num_of_Z (a - b).
Proof.
  intros Ha Hb Hs.
  destruct (decide (b = 0)) as [->|Hnb].
  { rewrite Z.sub_0_r. change (num_of_Z 0) with (S754_zero false). destruct (decide (a = 0)) as [->|Hna]; [done|].
    destruct (int_parts a Ha Hna) as (s & m & e & -> & _); done. }
  destruct (decide (a = 0)) as [->|Hna].
  { rewrite Z.sub_0_l, num_of_opp by done. change (num_of_Z 0) with (S754_zero false).
    destruct (int_parts b Hb Hnb) as (s & m & e & -> & _); done. }
  destruct (int_parts a Ha Hna) as (s & m & e & Ea & He & Pa), (int_parts b Hb Hnb) as (s' & m' & e' & Eb & He' & Pb).
  rewrite Ea, Eb. unfold nsub, SFsub. rewrite Pa, Pb by lia. rewrite <- Z.mul_sub_distr_r.
  rewrite <- (normalize_scaled (a - b) (- Z.min e e')) by (lia || done). by rewrite !Z.opp_involutive.
Qed.

Lemma num_sign_int z : safe z → num_sign (num_of_Z z) = Z.sgn z.
Proof.
  intros H. destruct z as [|p|p]; [done|by rewrite num_of_pos|]. rewrite num_of_neg, num_of_pos by done. done.
Qed.

(** A comparator [b - a] on counts orders them as integers. *)
Lemma sign_of_difference a b : 0 ≤ a < 2 ^ 53 → 0 ≤ b < 2 ^ 53 →
  num_sign (nsub (num_of_Z b) (num_of_Z a)) = Z.sgn (b - a).
Proof. intros Ha Hb. rewrite nsub_int by (unfold safe; lia). apply num_sign_int. unfold safe. lia. Qed.

Lemma or_zero_int z : safe z → or_zero (num_of_Z z) = num_of_Z z.
Proof.
  intros H. destruct z as [|p|p]; [done|by rewrite num_of_pos|]. rewrite num_of_neg, num_of_pos by done. done.
Qed.

(** ** Sums of counts *)

Definition zsum (l : list Z) : Z := foldr Z.add 0 l.

Lemma zsum_app l1 l2 : zsum (l1 ++ l2) = zsum l1 + zsum l2.
Proof. unfold zsum. induction l1 as [|x l1 IH]; simpl; lia. Qed.

#[export] Instance zsum_perm : Proper ((≡ₚ) ==> (=)) zsum.
Proof. intros l1 l2 H. unfold zsum. induction H; simpl; lia. Qed.

Lemma zsum_nonneg l : Forall (Z.le 0) l → 0 ≤ zsum l.
Proof. unfold zsum. induction 1; simpl in *; lia. Qed.

Lemma zsum_elem l x : Forall (Z.le 0) l → x ∈ l → x ≤ zsum l.
Proof.
  intros H Hx. induction Hx as [x l|x y l Hx IH]; inversion H as [|? ? Hy Hl]; subst; cbn; fold (zsum l).
  - pose proof (zsum_nonneg l Hl). lia.
  - pose proof (IH Hl). lia.
Qed.

(** Adding up counts from the left is exact while the total is safe. *)
Lemma fold_nadd_int l a : 0 ≤ a → Forall (Z.le 0) l → a + zsum l < 2 ^ 53 →
  fold_left nadd (map num_of_Z l) (num_of_Z a) = num_of_Z (a + zsum l).
Proof.
  revert a. induction l as [|x l IH]; intros a Ha Hl Hs.
  - cbn in *. by rewrite Z.add_0_r.
  - inversion Hl as [|? ? Hx Hl']; subst. pose proof (zsum_nonneg l Hl'). cbn in *. fold (zsum l) in *.
    rewrite nadd_int by (unfold safe; lia). rewrite IH by (lia || done). f_equal. lia.
Qed.

Lemma zsum_flat_map {A B} (f : B → Z) (h : A → list B) l :
  zsum (map f (flat_map h l)) = zsum (map (λ x, zsum (map f (h x))) l).
Proof. induction l as [|x l IH]; simpl; [done|]. rewrite map_app, zsum_app, IH. done. Qed.

Lemma zsum_sublist l l' : Forall (Z.le 0) l' → l `sublist_of` l' → zsum l ≤ zsum l'.
Proof.
  intros H Hs. induction Hs as [|x l l' _ IH|x l l' _ IH].
  - done.
  - inversion H; subst. specialize (IH ltac:(done)). cbn. fold (zsum l) (zsum l'). lia.
  - inversion H; subst. specialize (IH ltac:(done)). cbn. fold (zsum l'). lia.
Qed.

#[export] Instance descending_comparator {A} (c : A → Z) : Comparator (λ a b, c b - c a).
Proof. split; unfold cmp_le; intros; lia. Qed.

Lemma sorted_descending {A} (c : A → Z) l : StronglySorted (λ a b, c b ≤ c a) (array_sort (λ a b, c b - c a) l).
Proof. eapply StronglySorted_weaken; [|apply sorted_by, descending_comparator]. intros a b. unfold cmp_le. lia. Qed.

(** ** Products, quotients and integer parts *)

Lemma round_int p k : safe (Zpos p) → 0 ≤ k + int_exp p →
  binary_round_aux prec emax false (Zpos p * 2 ^ k) (- k) loc_Exact = num_of_Z (Zpos p).
Proof.
  intros Hp Hk. destruct (int_mant_spec p Hp) as [Hm He]. rewrite num_of_pos by done.
  rewrite <- (round_exact (int_mant p) (int_exp p) (k + int_exp p)) by (done || by apply int_bounded).
  rewrite Hm, <- Z.mul_assoc, <- Z.pow_add_r by lia. f_equal; [do 2 f_equal|]; lia.
Qed.

Lemma digits_mul p q :
  Zpos (digits2_pos p) + Zpos (digits2_pos q) - 1 ≤ Zpos (digits2_pos (p * q)) ≤ Zpos (digits2_pos p) + Zpos (digits2_pos q).
Proof.
  rewrite !digits2_log2, Pos2Z.inj_mul. pose proof (Z.log2_mul_below (Zpos p) (Zpos q)).
  pose proof (Z.log2_mul_above (Zpos p) (Zpos q)). lia.
Qed.

Lemma nmul_int p q : safe (Zpos p) → safe (Zpos q) → safe (Zpos p * Zpos q) →
  nmul (num_of_Z (Zpos p)) (num_of_Z (Zpos q)) = num_of_Z (Zpos p * Zpos q).
Proof.
  intros Hp Hq Hpq. change (Zpos p * Zpos q) with (Zpos (p * q)) in *.
  rewrite (num_of_pos p), (num_of_pos q) by done. cbn [nmul SFmul xorb]. unfold nmul, SFmul. cbn [xorb].
  rewrite <- (round_int (p * q) (- (int_exp p + int_exp q))); [|done|].
  - destruct (int_mant_spec p Hp) as [Hm1 ?], (int_mant_spec q Hq) as [Hm2 ?].
    rewrite Z.opp_involutive, Pos2Z.inj_mul, Hm1, Hm2, Z.opp_add_distr, Z.pow_add_r, Pos2Z.inj_mul by lia. f_equal. lia.
  - pose proof (digits_mul p q). apply safe_digits in Hp, Hq. unfold int_exp, prec in *. lia.
Qed.

Lemma ndiv_int p q : safe (Zpos p) → safe (Zpos q) → safe (Zpos p * Zpos q) →
  ndiv (num_of_Z (Zpos p * Zpos q)) (num_of_Z (Zpos q)) = num_of_Z (Zpos p).
Proof.
  intros Hp Hq Hpq. change (Zpos p * Zpos q) with (Zpos (p * q)) in *. pose proof (digits_mul p q) as Hd.
  destruct (int_mant_spec (p * q) Hpq) as [Hm1 He1], (int_mant_spec q Hq) as [Hm2 He2].
  assert (Hd1 : ∀ r, safe (Zpos r) → Zdigits2 (Zpos (int_mant r)) = prec).
  { intros r Hr. destruct (int_mant_spec r Hr) as [-> ?]. rewrite Zdigits2_shift by lia. unfold int_exp, prec. lia. }
  pose proof (safe_digits p Hp) as Hp'. pose proof (safe_digits _ Hpq) as Hpq'. pose proof (safe_digits q Hq) as Hq'.
  rewrite (num_of_pos (p * q)), (num_of_pos q) by done. unfold ndiv, SFdiv, SFdiv_core_binary. cbn [xorb]. rewrite !Hd1 by done.
  set (de := int_exp (p * q) - int_exp q).
  replace (prec + int_exp (p * q) - (prec + int_exp q)) with de by (unfold de; lia).
  assert (Hf : fexp prec emax de = de - prec) by (unfold fexp, emin, de, int_exp, emax, prec in *; lia).
  rewrite Hf, Z.min_l by (unfold prec; lia). replace (de - (de - prec)) with prec by lia. cbn [prec].
  change (match prec with 0 => _ | Z.pos _ => ?a | Z.neg _ => _ end) with a. rewrite Z.shiftl_mul_pow2 by (unfold prec; lia).
  assert (Hq2 : Zpos (int_mant (p * q)) * 2 ^ prec = Zpos p * 2 ^ (prec - de) * Zpos (int_mant q)).
  { rewrite Hm1, Hm2, Pos2Z.inj_mul. replace (prec - de) with (- int_exp (p * q) + prec + int_exp q) by (unfold de; lia).
    rewrite <- !Z.mul_assoc, <- (Z.pow_add_r 2 (- int_exp (p * q))) by (unfold prec; lia).
    rewrite (Z.mul_comm (2 ^ _) (Zpos q * _)), <- Z.mul_assoc, <- Z.pow_add_r by (unfold prec, int_exp in *; lia).
    rewrite (Z.mul_assoc (Zpos p)), (Z.mul_assoc (Zpos p)). f_equal. f_equal. lia. }
  rewrite Hq2. pose proof (Z.div_mul (Zpos p * 2 ^ (prec - de)) (Zpos (int_mant q))) as Hdiv.
  pose proof (Z_mod_mult (Zpos p * 2 ^ (prec - de)) (Zpos (int_mant q))) as Hmod.
  unfold Z.div, Z.modulo in Hdiv, Hmod. destruct (Z.div_eucl _ _) as [z r]. rewrite Hdiv by lia. subst r.
  rewrite new_location_0. replace (de - prec) with (- (prec - de)) by lia. apply round_int; [done|].
  unfold de, int_exp, prec in *. lia.
Qed.

(** [Math.floor(x)] *)
Definition math_floor (x : num) : num :=
  match x with
  | S754_finite s p e => if 0 <=? e then x else num_of_Z ((if s : bool then - Z.pos p else Z.pos p) / 2 ^ (- e))
  | _ => x
  end.

(** A nonzero safe integer is a multiple of its last binary place. *)
Lemma int_mantissa z : safe z → z ≠ 0 → ∃ s m e, num_of_Z z = S754_finite s m e ∧ e ≤ 0 ∧
  (if s : bool then - Zpos m else Zpos m) = z * 2 ^ (- e).
Proof.
  intros Hz Hn. destruct (int_parts z Hz Hn) as (s & m & e & E & He & Hm). exists s, m, e. split; [done|]. split; [done|].
  rewrite <- (Hm e) by lia. unfold shl_align. by rewrite Z.sub_diag.
Qed.

Lemma math_floor_int z : safe z → math_floor (num_of_Z z) = num_of_Z z.
Proof.
  intros Hz. destruct (decide (z = 0)) as [->|Hn]; [done|].
  destruct (int_mantissa z Hz Hn) as (s & m & e & E & He & Hm). rewrite E. unfold math_floor.
  destruct (0 <=? e); [done|]. pose proof (Z.pow_pos_nonneg 2 (- e)). rewrite Hm, Z.div_mul by lia. exact E.
Qed.

Lemma math_round_int z : safe z → math_round (num_of_Z z) = num_of_Z z.
Proof.
  intros Hz. destruct (decide (z = 0)) as [->|Hn]; [done|].
  destruct (int_mantissa z Hz Hn) as (s & m & e & E & He & Hm). rewrite E. unfold math_round.
  destruct (0 <=? e); [done|]. pose proof (Z.pow_pos_nonneg 2 (- e)). rewrite Hm.
  assert (Hr : (2 * (z * 2 ^ (- e)) + 2 ^ (- e)) / (2 * 2 ^ (- e)) = z).
  { symmetry. apply (Z.div_unique_pos _ _ z (2 ^ (- e))); lia. }
  rewrite Hr. by rewrite (proj2 (Z.eqb_neq z 0) Hn).
Qed.

Lemma num_of_Z_finite z : safe z → z ≠ 0 → num_truthy (num_of_Z z) = true.
Proof. intros Hz Hn. by destruct (int_mantissa z Hz Hn) as (s & m & e & -> & _). Qed.

Lemma nlt_zero_int z : safe z → nlt pzero (num_of_Z z) = (0 <? z).
Proof.
  intros Hz. destruct z as [|p|p]; [done|by rewrite num_of_pos|]. rewrite num_of_neg, num_of_pos by done. done.
Qed.

(** An integer is recognised as one, also after it was printed. *)
Lemma integer_of_int z : safe z → integer_of (num_of_Z z) = Some z.
Proof.
  intros Hz. destruct (decide (z = 0)) as [->|Hn]; [done|].
  destruct (int_mantissa z Hz Hn) as (s & m & e & -> & He & Hm). unfold integer_of.
  destruct (Z.leb_spec 0 e).
  - assert (e = 0) as -> by lia. rewrite Z.mul_1_r in *. f_equal. simpl in Hm. destruct s; lia.
  - pose proof (Z.pow_pos_nonneg 2 (- e)). destruct s.
    + replace (Z.pos m) with (- z * 2 ^ (- e)) by lia. rewrite Z.mod_mul, Z.div_mul by lia. simpl. f_equal. lia.
    + rewrite Hm, Z.mod_mul, Z.div_mul by lia. done.
Qed.

Lemma number_of_string_int z : safe z → number_of_string (string_of_num (num_of_Z z)) = num_of_Z z.
Proof.
  intros Hz. destruct z as [|p|p]; [done|..].
  - rewrite num_of_pos by done. apply number_of_string_of. by apply int_bounded.
  - rewrite num_of_neg, num_of_pos by done. cbn [SFopp]. apply number_of_string_of. by apply int_bounded.
Qed.

(** ** Comparisons *)

Lemma int_exp_mono p q : safe (Zpos p) → safe (Zpos q) → (int_exp p < int_exp q → Zpos p < Zpos q) ∧
  (int_exp p = int_exp q → (int_mant p ?= int_mant q)%positive = (p ?= q)%positive).
Proof.
  intros Hp Hq. destruct (int_mant_spec p Hp) as [Em He], (int_mant_spec q Hq) as [Em' He']. split.
  - unfold int_exp, prec. rewrite !digits2_log2. intros H. destruct (Z.lt_ge_cases (Z.pos p) (Z.pos q)) as [|Hge]; [done|].
    apply Z.log2_le_mono in Hge. lia.
  - intros E. rewrite E in Em. change ((Z.pos (int_mant p) ?= Z.pos (int_mant q)) = (Z.pos p ?= Z.pos q)). rewrite Em, Em'. pose proof (Z.pow_pos_nonneg 2 (- int_exp q)).
    symmetry. apply Zmult_compare_compat_r. lia.
Qed.

Lemma compare_pos p q : safe (Zpos p) → safe (Zpos q) →
  SFcompare (num_of_Z (Zpos p)) (num_of_Z (Zpos q)) = Some (Zpos p ?= Zpos q).
Proof.
  intros Hp Hq. rewrite !num_of_pos by done. cbn [SFcompare]. f_equal.
  destruct (int_exp_mono p q Hp Hq) as [H1 H2], (int_exp_mono q p Hq Hp) as [H3 _].
  destruct (Z.compare_spec (int_exp p) (int_exp q)) as [E|E|E].
  - apply H2, E.
  - symmetry. apply Z.compare_lt_iff. auto.
  - symmetry. apply Z.compare_gt_iff. auto.
Qed.

(** Integers compare as integers. *)
Lemma compare_int a b : safe a → safe b → SFcompare (num_of_Z a) (num_of_Z b) = Some (a ?= b).
Proof.
  intros Ha Hb. destruct a as [|p|p], b as [|q|q]; try done.
  - by rewrite num_of_pos.
  - by rewrite num_of_neg, num_of_pos.
  - by rewrite num_of_pos.
  - by apply compare_pos.
  - by rewrite num_of_neg, !num_of_pos.
  - by rewrite num_of_neg, num_of_pos.
  - by rewrite num_of_neg, !num_of_pos.
  - rewrite !num_of_neg, !num_of_pos by done. cbn [SFopp SFcompare negb]. f_equal.
    pose proof (compare_pos p q Ha Hb) as H. rewrite !num_of_pos in H by done. cbn [SFcompare] in H. injection H as H.
    change (Z.neg p ?= Z.neg q) with (CompOpp (p ?= q)%positive). change (Z.pos p ?= Z.pos q) with (p ?= q)%positive in H. rewrite <- H.
    destruct (int_exp p ?= int_exp q); [|done|done]. done.
Qed.

Lemma nlt_int a b : safe a → safe b → nlt (num_of_Z a) (num_of_Z b) = (a <? b).
Proof. intros Ha Hb. unfold nlt, SFltb. by rewrite compare_int. Qed.

Lemma nle_int a b : safe a → safe b → nle (num_of_Z a) (num_of_Z b) = (a <=? b).
Proof. intros Ha Hb. unfold nle, SFleb. rewrite compare_int by done. unfold Z.leb. by destruct (a ?= b). Qed.

Lemma math_max_int a b : safe a → safe b → math_max (num_of_Z a) (num_of_Z b) = num_of_Z (Z.max a b).
Proof.
  intros Ha Hb. unfold math_max.
  assert (∀ z, safe z → is_nan (num_of_Z z) = false) as Hnan.
  { intros z Hz%safe_finite. by destruct (num_of_Z z). }
  rewrite !Hnan by done. cbn [orb].
  assert (∀ z, safe z → num_of_Z z = S754_zero false ∧ z = 0 ∨ z ≠ 0 ∧ ∃ s m e, num_of_Z z = S754_finite s m e) as Hz.
  { intros z Hz. destruct (decide (z = 0)) as [->|Hn]; [by left|right]. split; [done|].
    destruct (int_mantissa z Hz Hn) as (s & m & e & E & _). by exists s, m, e. }
  pose proof (nlt_int a b Ha Hb) as Hlt.
  assert ((if nlt (num_of_Z a) (num_of_Z b) then num_of_Z b else num_of_Z a) = num_of_Z (Z.max a b)) as Hmax.
  { rewrite Hlt. destruct (Z.ltb_spec a b); [by rewrite Z.max_r by lia|by rewrite Z.max_l by lia]. }
  destruct (Hz a Ha) as [[Ea ->]|[_ (sa & ma & ea & Ea)]], (Hz b Hb) as [[Eb ->]|[_ (sb & mb & eb & Eb)]].
  - done.
  - rewrite Ea, Eb in *. exact Hmax.
  - rewrite Ea, Eb in *. exact Hmax.
  - rewrite Ea, Eb in *. exact Hmax.
Qed.
