(* ===== verification/JsMap.v ===== *)
(** * JavaScript maps

    [Map<string, V>]: an association list in order of insertion; [set] on a present key keeps its
    place.  The one loop the sources write over maps is the running total: for each item, read the entry of its key,
    combine, write it back.  [tally_get] says what the loop leaves under a key, and [tally_keys] in which order
    the keys stand; that is, the loop is a grouping followed by a fold of each group. *)

From S2P Require Import Prelude.

Section maps.
Context {K : Type} `{EqDecision K} {V : Type}.
Implicit Types (m : list (K * V)) (k : K) (v : V).

(** [m.get(k)] *)
Fixpoint mget m k : option V :=
  match m with [] => None | (k', v) :: m' => if decide (k' = k) then Some v else mget m' k end.

(** [m.has(k)] *)
Definition mhas m k : bool := match mget m k with Some _ => true | None => false end.

(** [m.set(k, v)] *)
Fixpoint mset m k v : list (K * V) :=
  match m with
  | [] => [(k, v)]
  | (k', v') :: m' => if decide (k' = k) then (k', v) :: m' else (k', v') :: mset m' k v
  end.

Lemma mget_set m k v j : mget (mset m k v) j = if decide (k = j) then Some v else mget m j.
Proof.
  induction m as [|[k' v'] m IH]; simpl; [done|].
  destruct (decide (k' = k)) as [->|]; simpl; [by repeat case_decide|].
  rewrite IH. repeat case_decide; congruence.
Qed.

Lemma mget_set_eq m k v : mget (mset m k v) k = Some v.
Proof. rewrite mget_set. by case_decide. Qed.

Lemma mset_keys m k v : map fst (mset m k v) = set_add (map fst m) k.
Proof.
  unfold set_add, set_has. induction m as [|[k' v'] m IH]; simpl; [done|].
  destruct (decide (k' = k)) as [->|Hk]; simpl.
  - rewrite bool_decide_true; [done|]. constructor.
  - rewrite IH. rewrite (bool_decide_ext (k ∈ k' :: map fst m) (k ∈ map fst m)); [|rewrite elem_of_cons; naive_solver].
    by case_bool_decide.
Qed.

Lemma mget_elem m k : is_Some (mget m k) ↔ k ∈ map fst m.
Proof.
  induction m as [|[k' v'] m IH]; simpl.
  - split; [by intros []|intros H; inversion H].
  - rewrite elem_of_cons. case_decide; [naive_solver|]. rewrite IH. naive_solver.
Qed.

Lemma mget_none m k : mget m k = None ↔ k ∉ map fst m.
Proof. rewrite <- mget_elem, <- eq_None_not_Some. done. Qed.

Lemma mget_in m k v : NoDup (map fst m) → mget m k = Some v ↔ (k, v) ∈ m.
Proof.
  induction m as [|[k' v'] m IH]; simpl; intros Hnd.
  - split; [done|intros H; inversion H].
  - inversion Hnd as [|? ? Hk Hnd']; subst. rewrite elem_of_cons. case_decide as Hd.
    + subst k'. split; [intros [= ->]; by left|]. intros [[= ->]|H]; [done|].
      exfalso. apply Hk. apply elem_of_lmap. exists (k, v). done.
    + rewrite IH by done. naive_solver.
Qed.

(** An entry is determined by its key, so a map is the list of its keys with what they are mapped to. *)
Lemma mget_entries m (f : K → V) : NoDup (map fst m) → (∀ k, k ∈ map fst m → mget m k = Some (f k)) →
  m = map (λ k, (k, f k)) (map fst m).
Proof.
  intros Hnd Hf. rewrite map_map. symmetry. apply lmap_id. apply Forall_forall. intros [k v] Hin. simpl.
  f_equal. assert (Hk : k ∈ map fst m) by (apply elem_of_lmap; by exists (k, v)).
  specialize (Hf k Hk). apply mget_in in Hin; [|done]. congruence.
Qed.

End maps.

(** ** Running totals *)

Section tally.
Context {K : Type} `{EqDecision K} {V X : Type} (key : X → K) (step : option V → X → V).

Definition tally_item (m : list (K * V)) (x : X) : list (K * V) := mset m (key x) (step (mget m (key x)) x).

Definition tally (m : list (K * V)) (l : list X) : list (K * V) := fold_left tally_item l m.

(** The items of one key. *)
Definition group (k : K) (l : list X) : list X := List.filter (λ x, bool_decide (key x = k)) l.

Definition group_fold (o : option V) (l : list X) : option V := fold_left (λ o x, Some (step o x)) l o.

Lemma tally_get l m k : mget (tally m l) k = group_fold (mget m k) (group k l).
Proof.
  revert m. induction l as [|x l IH]; intros m; simpl; [done|].
  rewrite IH. unfold tally_item. rewrite mget_set. by case_decide; case_bool_decide; subst.
Qed.

Lemma tally_keys l m : map fst (tally m l) = fold_left set_add (map key l) (map fst m).
Proof.
  revert m. induction l as [|x l IH]; intros m; simpl; [done|]. rewrite IH. unfold tally_item. by rewrite mset_keys.
Qed.

(** Keys stand in the order in which they first occur. *)
Lemma tally_keys_nil l : map fst (tally [] l) = array_of_set (map key l).
Proof. apply tally_keys. Qed.

Lemma tally_NoDup l : NoDup (map fst (tally [] l)).
Proof. rewrite tally_keys_nil. apply array_of_set_NoDup. Qed.

Lemma elem_of_group k l x : x ∈ group k l ↔ x ∈ l ∧ key x = k.
Proof. unfold group. rewrite elem_of_bfilter, bool_decide_eq_true. done. Qed.

Lemma group_nil k l : group k l = [] ↔ k ∉ map key l.
Proof.
  split.
  - intros H Hk. apply elem_of_lmap in Hk as (x & -> & Hx).
    assert (Hx' : x ∈ group (key x) l) by (by apply elem_of_group). rewrite H in Hx'. inversion Hx'.
  - intros H. apply bfilter_none. intros x Hx. apply bool_decide_eq_false. intros <-. apply H. apply elem_of_lmap. by exists x.
Qed.

End tally.

(** Grouping the items of a group by another key. *)
Lemma group_group {K1 K2 X} `{EqDecision K1, EqDecision K2} (key1 : X → K1) (key2 : X → K2) k1 k2 l :
  group key2 k2 (group key1 k1 l) = group (λ x, (key1 x, key2 x)) (k1, k2) l.
Proof.
  unfold group. induction l as [|x l IH]; simpl; [done|].
  rewrite <- IH. repeat (case_bool_decide; simpl); naive_solver.
Qed.

(** The groups of a list make up the list. *)
Lemma groups_permutation {K X} `{EqDecision K} (key : X → K) l ks :
  NoDup ks → (∀ x, x ∈ l → key x ∈ ks) → flat_map (λ k, group key k l) ks ≡ₚ l.
Proof.
  intros Hnd. revert l. induction ks as [|k ks IH]; intros l Hl.
  - destruct l as [|x l]; [done|]. exfalso. specialize (Hl x ltac:(constructor)). inversion Hl.
  - inversion Hnd as [|? ? Hk Hnd']; subst. simpl.
    assert (E : flat_map (λ k', group key k' l) ks = flat_map (λ k', group key k' (List.filter (λ x, negb (bool_decide (key x = k))) l)) ks).
    { clear IH Hl. induction ks as [|k' ks IH]; simpl; [done|]. inversion Hnd' as [|? ? Hk' Hnd'']; subst.
      apply not_elem_of_cons in Hk as [Hkk Hk]. f_equal; [|apply IH; [by constructor| |]; done].
      unfold group. clear IH. induction l as [|x l IHl]; simpl; [done|]. repeat (case_bool_decide; simpl); congruence. }
    rewrite E, IH; [|done|].
    + unfold group. clear. induction l as [|x l IH]; simpl; [done|]. case_bool_decide; simpl; [by rewrite IH|].
      rewrite <- Permutation_middle. by rewrite IH.
    + intros x Hx. apply elem_of_bfilter in Hx as [Hx Hb]. apply Hl in Hx. apply negb_true_iff, bool_decide_eq_false in Hb.
      apply elem_of_cons in Hx as [?|?]; done.
Qed.

(** ** Concatenation of groups *)

Lemma flat_map_Permutation {A B} (f h : A → list B) l l' :
  l ≡ₚ l' → (∀ x, f x ≡ₚ h x) → flat_map f l ≡ₚ flat_map h l'.
Proof.
  intros H Hf. assert (E : flat_map f l ≡ₚ flat_map h l) by (clear H; induction l as [|x l IH]; simpl; [done|by rewrite (Hf x), IH]).
  rewrite E. clear E Hf. induction H as [|x l l' _ IH|x y l|l1 l2 l3 _ IH1 _ IH2]; simpl.
  - done.
  - by rewrite IH.
  - rewrite !app_assoc. by rewrite (Permutation_app_comm (h y)).
  - by rewrite IH1.
Qed.

(** The part of a concatenation that carries one of the keys. *)
Lemma filter_flat_map {K B} `{EqDecision K} (key : B → K) (f : K → list B) ks k :
  NoDup ks → (∀ k' b, b ∈ f k' → key b = k') → k ∈ ks →
  List.filter (λ b, bool_decide (key b = k)) (flat_map f ks) = f k.
Proof.
  intros Hnd Hf. revert Hnd. induction ks as [|k' ks IH]; intros Hnd Hk; [by apply elem_of_nil in Hk|].
  inversion Hnd as [|? ? Hk' Hnd']; subst. simpl. rewrite bfilter_app. destruct (decide (k' = k)) as [->|Hne].
  - rewrite bfilter_id, bfilter_none; [by rewrite app_nil_r| |].
    + intros b Hb. apply bool_decide_eq_false. intros E. apply list_elem_of_In, in_flat_map in Hb as (k2 & Hk2 & Hb).
      apply list_elem_of_In in Hk2, Hb. apply Hf in Hb. congruence.
    + intros b Hb. apply bool_decide_eq_true. by apply Hf.
  - rewrite bfilter_none; [apply IH; [done|]; by apply elem_of_cons in Hk as [?|?]|].
    intros b Hb. apply bool_decide_eq_false. apply Hf in Hb. congruence.
Qed.

#[export] Instance bfilter_Permutation {A} (p : A → bool) : Proper ((≡ₚ) ==> (≡ₚ)) (List.filter p).
Proof.
  intros l l' H. induction H as [|x l l' _ IH|x y l|l1 l2 l3 _ IH1 _ IH2]; simpl.
  - done.
  - destruct (p x); by rewrite IH.
  - destruct (p x), (p y); try done. constructor.
  - by rewrite IH1.
Qed.

Lemma list_prod_flat_map {A B} (l : list A) (l' : list B) : list_prod l l' = flat_map (λ x, map (pair x) l') l.
Proof. induction l as [|x l IH]; simpl; [done|]. by rewrite IH. Qed.

#[export] Instance list_prod_Permutation {A B} : Proper ((≡ₚ) ==> (≡ₚ) ==> (≡ₚ)) (@list_prod A B).
Proof. intros l1 l2 Hl k1 k2 Hk. rewrite !list_prod_flat_map. apply flat_map_Permutation; [done|]. intros x. by rewrite Hk. Qed.
