(* ===== verification/JsEncode.v ===== *)
(** * base64 and percent encoding

    [window.btoa], the UTF-8 bytes of a string and [encodeURIComponent], with the decoders that the receivers of
    encoded texts use, and the facts that decoding gives back what was encoded. *)

From S2P Require Import Prelude JsString JsNumber Json.

(** ** base64 *)

(** The sixty-four digits: capital letters, small letters, digits, plus and slash. *)
Definition b64_char (n : N) : N :=
  (if n <? 26 then 65 + n else if n <? 52 then 71 + n else if n <? 62 then n - 4 else if n =? 62 then 43 else 47)%N.

Definition b64_val (c : N) : option N :=
  (if (65 <=? c) && (c <=? 90) then Some (c - 65)
   else if (97 <=? c) && (c <=? 122) then Some (c - 71)
   else if (48 <=? c) && (c <=? 57) then Some (c + 4)
   else if c =? 43 then Some 62 else if c =? 47 then Some 63 else None)%N.

(** Three bytes become four digits; one or two bytes at the end are padded. *)
Fixpoint base64 (bs : list N) : str :=
  match bs with
  | [] => []
  | [a] => [b64_char (a / 4); b64_char (a mod 4 * 16); 61; 61]%N
  | [a; b] => [b64_char (a / 4); b64_char (a mod 4 * 16 + b / 16); b64_char (b mod 16 * 4); 61]%N
  | a :: b :: c :: r =>
      b64_char (a / 4)%N :: b64_char (a mod 4 * 16 + b / 16)%N :: b64_char (b mod 16 * 4 + c / 64)%N
      :: b64_char (c mod 64)%N :: base64 r
  end.

(** The decoder: groups of four digits, padding only in the last one. *)
Fixpoint unbase64 (s : str) : option (list N) :=
  match s with
  | [] => Some []
  | c1 :: c2 :: c3 :: c4 :: r =>
      v1 ← b64_val c1; v2 ← b64_val c2;
      if (c3 =? 61)%N then if (c4 =? 61)%N && negb (truthy r) then Some [v1 * 4 + v2 / 16]%N else None
      else v3 ← b64_val c3;
           if (c4 =? 61)%N then if truthy r then None else Some [v1 * 4 + v2 / 16; v2 mod 16 * 16 + v3 / 4]%N
           else v4 ← b64_val c4; t ← unbase64 r;
                Some (v1 * 4 + v2 / 16 :: v2 mod 16 * 16 + v3 / 4 :: v3 mod 4 * 64 + v4 :: t)%N
  | _ => None
  end.

(** [window.btoa]: a string of bytes, or an exception. *)
Definition is_byte (c : N) : bool := (c <? 256)%N.
Definition btoa (s : str) : outcome str := if forallb is_byte s then Ret (base64 s) else Throw.

Definition bytes (bs : list N) : Prop := Forall (λ b, b < 256)%N bs.

Lemma b64_val_char n : (n < 64)%N → b64_val (b64_char n) = Some n.
Proof.
  intros H. unfold b64_val, b64_char.
  repeat match goal with
  | |- context [N.ltb ?a ?b] => destruct (N.ltb_spec a b)
  | |- context [N.eqb ?a ?b] => destruct (N.eqb_spec a b)
  | |- context [N.leb ?a ?b] => destruct (N.leb_spec a b)
  end; simpl; f_equal; lia.
Qed.

(** Digits are no padding and need no escape. *)
Lemma b64_char_not_pad n : (n < 64)%N → (b64_char n =? 61)%N = false.
Proof.
  intros H. apply N.eqb_neq. unfold b64_char.
  repeat match goal with
  | |- context [N.ltb ?a ?b] => destruct (N.ltb_spec a b)
  | |- context [N.eqb ?a ?b] => destruct (N.eqb_spec a b)
  end; lia.
Qed.

Ltac euclid := zify; Z.to_euclidean_division_equations; lia.

Lemma unbase64_base64 bs : bytes bs → unbase64 (base64 bs) = Some bs.
Proof.
  induction bs as [bs IH] using (induction_ltof1 _ (@length N)). unfold ltof in IH. intros H.
  destruct bs as [|a [|b [|c r]]]; [done|..].
  - apply Forall_cons in H as [Ha _]. cbn -[N.mul N.add N.div N.modulo b64_val b64_char].
    rewrite !b64_val_char by euclid. cbn -[N.mul N.add N.div N.modulo]. do 2 f_equal. euclid.
  - apply Forall_cons in H as [Ha [Hb _]%Forall_cons]. cbn -[N.mul N.add N.div N.modulo b64_val b64_char N.eqb].
    rewrite !b64_val_char, b64_char_not_pad by euclid. cbn -[N.mul N.add N.div N.modulo]. f_equal.
    f_equal; [euclid|]. f_equal. euclid.
  - apply Forall_cons in H as [Ha [Hb [Hc Hr]%Forall_cons]%Forall_cons]. cbn -[N.mul N.add N.div N.modulo b64_val b64_char N.eqb].
    rewrite !b64_val_char, !b64_char_not_pad by euclid. cbn -[N.mul N.add N.div N.modulo].
    rewrite IH by (simpl; lia || done). cbn -[N.mul N.add N.div N.modulo]. f_equal.
    f_equal; [euclid|]. f_equal; [euclid|]. f_equal. euclid.
Qed.

(** What the digits and the padding are. *)
Definition is_b64 (c : N) : bool := match b64_val c with Some _ => true | None => (c =? 61)%N end.

Lemma is_b64_char n : (n < 64)%N → is_b64 (b64_char n) = true.
Proof. intros H. unfold is_b64. by rewrite b64_val_char. Qed.

Lemma base64_digits bs : bytes bs → Forall (λ c, is_b64 c = true) (base64 bs).
Proof.
  induction bs as [bs IH] using (induction_ltof1 _ (@length N)). unfold ltof in IH. intros H.
  destruct bs as [|a [|b [|c r]]]; [constructor|..]; cbn [base64 app].
  - apply Forall_cons in H as [Ha _]. repeat constructor; try apply is_b64_char; euclid.
  - apply Forall_cons in H as [Ha [Hb _]%Forall_cons]. repeat constructor; try apply is_b64_char; euclid.
  - apply Forall_cons in H as [Ha [Hb [Hc Hr]%Forall_cons]%Forall_cons].
    repeat (constructor; [apply is_b64_char; euclid|]). apply IH; [simpl; lia|done].
Qed.

(** ** UTF-8 *)

Definition utf8_bytes (cp : N) : list N :=
  (if cp <? 128 then [cp]
   else if cp <? 2048 then [192 + cp / 64; 128 + cp mod 64]
   else if cp <? 65536 then [224 + cp / 4096; 128 + cp / 64 mod 64; 128 + cp mod 64]
   else [240 + cp / 262144; 128 + cp / 4096 mod 64; 128 + cp / 64 mod 64; 128 + cp mod 64])%N.

(** The code point of a surrogate pair. *)
Definition pair_cp (h l : N) : N := (65536 + (h - 55296) * 1024 + (l - 56320))%N.

(** [Buffer.from(s, 'utf-8')]: a lone surrogate becomes the replacement character. *)
Fixpoint utf8_encode (s : str) : list N :=
  match s with
  | [] => []
  | c :: s' =>
      if is_high c then
        match s' with
        | d :: s'' => if is_low d then utf8_bytes (pair_cp c d) ++ utf8_encode s''
                      else utf8_bytes 65533 ++ utf8_encode s'
        | [] => utf8_bytes 65533
        end
      else if is_low c then utf8_bytes 65533 ++ utf8_encode s'
      else utf8_bytes c ++ utf8_encode s'
  end.

(** ** Percent encoding *)

Definition hex_upper (n : N) : N := (if n <? 10 then 48 + n else 55 + n)%N.
Definition percent (b : N) : str := [37%N; hex_upper (b / 16); hex_upper (b mod 16)].
Definition percents (bs : list N) : str := concat (map percent bs).

(** Letters, digits and the marks that [encodeURIComponent] keeps. *)
Definition uri_unreserved (c : N) : bool :=
  ((65 <=? c) && (c <=? 90) || (97 <=? c) && (c <=? 122) || is_digit c)%N || bool_decide (c ∈ js "-_.!~*'()").

Fixpoint encodeURIComponent (s : str) : outcome str :=
  match s with
  | [] => Ret []
  | c :: s' =>
      if uri_unreserved c then t ← encodeURIComponent s'; Ret (c :: t)
      else if is_low c then Throw
      else if is_high c then
        match s' with
        | d :: s'' => if is_low d then t ← encodeURIComponent s''; Ret (percents (utf8_bytes (pair_cp c d)) ++ t) else Throw
        | [] => Throw
        end
      else t ← encodeURIComponent s'; Ret (percents (utf8_bytes c) ++ t)
  end.

(** The receiver's reading: escapes are bytes, the bytes are UTF-8 text. *)
Fixpoint unpercent (s : str) : list N :=
  match s with
  | [] => []
  | c :: s' =>
      match s' with
      | h :: l :: r =>
          if (c =? 37)%N then
            match hex_digit h, hex_digit l with
            | Some x, Some y => (x * 16 + y)%N :: unpercent r
            | _, _ => c :: unpercent s'
            end
          else c :: unpercent s'
      | _ => c :: unpercent s'
      end
  end.

Definition percent_decode (s : str) : str := utf8_decode (unpercent s) 0 0.

Lemma hex_digit_upper n : (n < 16)%N → hex_digit (hex_upper n) = Some n.
Proof.
  intros Hn. assert (n ∈ [0;1;2;3;4;5;6;7;8;9;10;11;12;13;14;15]%N) as H by (rewrite !elem_of_cons, elem_of_nil; lia).
  rewrite !elem_of_cons, elem_of_nil in H.
  repeat (destruct H as [->|H]; [reflexivity|]). done.
Qed.

Lemma unpercent_percent b t : (b < 256)%N → unpercent (percent b ++ t) = b :: unpercent t.
Proof.
  intros Hb. unfold percent. cbn -[hex_digit hex_upper N.div N.modulo N.mul N.add].
  rewrite !hex_digit_upper by euclid. f_equal. euclid.
Qed.

Lemma unpercent_percents bs t : bytes bs → unpercent (percents bs ++ t) = bs ++ unpercent t.
Proof.
  induction 1 as [|b bs Hb Hbs IH]; [done|]. unfold percents in *. cbn [map concat].
  rewrite <- app_assoc, unpercent_percent by done. cbn [app]. f_equal. exact IH.
Qed.

Lemma unpercent_plain c t : (c =? 37)%N = false → unpercent (c :: t) = c :: unpercent t.
Proof. intros H. cbn [unpercent]. rewrite H. by destruct t as [|? [|??]]. Qed.

Lemma utf8_bytes_bytes cp : (cp < 1114112)%N → bytes (utf8_bytes cp).
Proof.
  intros H. unfold utf8_bytes, bytes.
  repeat match goal with |- context [N.ltb ?a ?b] => destruct (N.ltb_spec a b) end; repeat constructor; euclid.
Qed.

(** The bytes of a code point decode to its code units. *)
Lemma utf8_decode_bytes cp bs : (cp < 1114112)%N →
  utf8_decode (utf8_bytes cp ++ bs) 0 0 = utf16_encode cp ++ utf8_decode bs 0 0.
Proof.
  intros H. unfold utf8_bytes.
  destruct (N.ltb_spec cp 128); [|destruct (N.ltb_spec cp 2048); [|destruct (N.ltb_spec cp 65536)]];
    cbn -[N.mul N.add N.div N.modulo utf16_encode N.sub N.ltb];
    repeat match goal with |- context [N.ltb ?a ?b] => destruct (N.ltb_spec a b); try euclid end.
  - unfold utf16_encode. by rewrite (proj2 (N.ltb_lt _ _)) by lia.
  - do 2 f_equal. euclid.
  - do 2 f_equal. euclid.
  - do 2 f_equal. euclid.
Qed.

Lemma utf16_pair h l : is_high h = true → is_low l = true → utf16_encode (pair_cp h l) = [h; l].
Proof.
  unfold is_high, is_low, utf16_encode, pair_cp. intros. breflect.
  rewrite (proj2 (N.ltb_ge _ _)) by lia. f_equal; [euclid|]. f_equal. euclid.
Qed.

Lemma uri_unreserved_ascii c : uri_unreserved c = true → (c < 128)%N ∧ (c =? 37)%N = false.
Proof.
  unfold uri_unreserved. rewrite orb_true_iff. intros [H|H].
  - unfold is_digit in H. rewrite !orb_true_iff, !andb_true_iff, !N.leb_le in H. rewrite N.eqb_neq. lia.
  - apply bool_decide_eq_true in H.
    replace (js "-_.!~*'()") with [45; 95; 46; 33; 126; 42; 39; 40; 41]%N in H by reflexivity. rewrite !elem_of_cons, elem_of_nil in H.
    repeat (destruct H as [->|H]; [done|]). done.
Qed.

(** Decoding an encoded component gives it back. *)
Lemma percent_decode_encode s e : units s → encodeURIComponent s = Ret e → percent_decode e = s.
Proof.
  revert e. induction s as [s IH] using (induction_ltof1 _ (@length N)). unfold ltof in IH. intros e Hu.
  destruct s as [|c s]; [by intros [= <-]|]. apply Forall_cons in Hu as [Hc Hu]. unfold code_unit in Hc. cbn [encodeURIComponent].
  destruct (uri_unreserved c) eqn:Er.
  { apply uri_unreserved_ascii in Er as [Ha Hp]. destruct (encodeURIComponent s) as [t|] eqn:E; [|done]. intros [= <-].
    unfold percent_decode. rewrite unpercent_plain by done. cbn [utf8_decode]. rewrite (proj2 (N.ltb_lt _ _)) by done.
    f_equal. apply (IH s); [simpl; lia|done..]. }
  destruct (is_low c) eqn:El; [done|]. destruct (is_high c) eqn:Eh.
  - destruct s as [|d s]; [done|]. destruct (is_low d) eqn:Ed; [|done]. apply Forall_cons in Hu as [Hd Hu].
    destruct (encodeURIComponent s) as [t|] eqn:E; [|done]. intros [= <-].
    assert (pair_cp c d < 1114112)%N as Hcp by (unfold is_high, is_low, pair_cp in *; breflect; lia).
    unfold percent_decode. rewrite unpercent_percents by by apply utf8_bytes_bytes.
    rewrite utf8_decode_bytes, utf16_pair by done. cbn [app]. do 2 f_equal. apply (IH s); [simpl; lia|done..].
  - destruct (encodeURIComponent s) as [t|] eqn:E; [|done]. intros [= <-].
    unfold percent_decode. rewrite unpercent_percents by (apply utf8_bytes_bytes; lia).
    rewrite utf8_decode_bytes by lia. unfold utf16_encode. rewrite (proj2 (N.ltb_lt _ _)) by done.
    cbn [app]. f_equal. apply (IH s); [simpl; lia|done..].
Qed.

(** A string of one-byte units is always encoded. *)
Lemma encodeURIComponent_bytes s : bytes s → returns (encodeURIComponent s).
Proof.
  induction 1 as [|c s Hc Hs IH]; [apply returns_ret|]. cbn [encodeURIComponent].
  assert (is_low c = false ∧ is_high c = false) as [-> ->].
  { unfold is_low, is_high. split; apply andb_false_iff; left; apply N.leb_gt; lia. }
  destruct (uri_unreserved c); apply returns_bind; try done; intros; apply returns_ret.
Qed.

Lemma is_b64_byte c : is_b64 c = true → (c < 128)%N.
Proof.
  unfold is_b64, b64_val.
  repeat match goal with
  | |- context [N.leb ?a ?b] => destruct (N.leb_spec a b)
  | |- context [N.eqb ?a ?b] => destruct (N.eqb_spec a b)
  end; simpl; try done; lia.
Qed.

Lemma base64_units bs : bytes bs → bytes (base64 bs) ∧ units (base64 bs).
Proof.
  intros H%base64_digits. split; eapply Forall_impl; try exact H; intros c Hc%is_b64_byte; [simpl|unfold code_unit]; lia.
Qed.

(** ** [window.atob] *)

(** ASCII white space is ignored; padding may be left out; one digit alone is an error. *)
Definition b64_space (c : N) : bool := ((c =? 9) || (c =? 10) || (c =? 12) || (c =? 13) || (c =? 32))%N.

Fixpoint unbase64_digits (vs : list N) : option (list N) :=
  match vs with
  | [] => Some []
  | [_] => None
  | [v1; v2] => Some [v1 * 4 + v2 / 16]%N
  | [v1; v2; v3] => Some [v1 * 4 + v2 / 16; v2 mod 16 * 16 + v3 / 4]%N
  | v1 :: v2 :: v3 :: v4 :: r =>
      t ← unbase64_digits r; Some (v1 * 4 + v2 / 16 :: v2 mod 16 * 16 + v3 / 4 :: v3 mod 4 * 64 + v4 :: t)%N
  end.

(** One or two padding characters at the end of a text whose length is a multiple of four. *)
Definition strip_padding (s : str) : str :=
  if (length s mod 4 =? 0)%nat then
    match rev s with
    | c :: r =>
        if (c =? 61)%N then match r with d :: r' => if (d =? 61)%N then rev r' else rev r | [] => [] end else s
    | [] => s
    end
  else s.

Definition atob (s : str) : outcome str :=
  match mapM b64_val (strip_padding (List.filter (λ c, negb (b64_space c)) s)) with
  | Some vs => match unbase64_digits vs with Some bs => Ret bs | None => Throw end
  | None => Throw
  end.

(** The digits of an encoding without its padding. *)
Fixpoint base64_digits_of (bs : list N) : list N :=
  match bs with
  | [] => []
  | [a] => [a / 4; a mod 4 * 16]%N
  | [a; b] => [a / 4; a mod 4 * 16 + b / 16; b mod 16 * 4]%N
  | a :: b :: c :: r => (a / 4 :: a mod 4 * 16 + b / 16 :: b mod 16 * 4 + c / 64 :: c mod 64 :: base64_digits_of r)%N
  end.

Definition padding_of (bs : list N) : str := match (length bs mod 3)%nat with 1%nat => [61; 61]%N | 2%nat => [61]%N | _ => [] end.

Lemma padding_of_cons3 a b c bs : padding_of (a :: b :: c :: bs) = padding_of bs.
Proof.
  unfold padding_of. assert (length (a :: b :: c :: bs) mod 3 = length bs mod 3) as ->; [|done].
  change (length (a :: b :: c :: bs)) with (3 + length bs). rewrite Nat.Div0.add_mod, Nat.Div0.mod_same, Nat.add_0_l. apply Nat.Div0.mod_mod.
Qed.

Lemma base64_as_digits bs : base64 bs = map b64_char (base64_digits_of bs) ++ padding_of bs.
Proof.
  induction bs as [bs IH] using (induction_ltof1 _ (@length N)). unfold ltof in IH.
  destruct bs as [|a [|b [|c r]]]; [done..|]. rewrite padding_of_cons3. cbn [base64 base64_digits_of map app].
  do 4 f_equal. apply IH. simpl. lia.
Qed.

Lemma base64_digits_small bs : bytes bs → Forall (λ v, v < 64)%N (base64_digits_of bs).
Proof.
  induction bs as [bs IH] using (induction_ltof1 _ (@length N)). unfold ltof in IH. intros H.
  destruct bs as [|a [|b [|c r]]]; [constructor|..]; cbn [base64_digits_of].
  - apply Forall_cons in H as [Ha _]. repeat constructor; euclid.
  - apply Forall_cons in H as [Ha [Hb _]%Forall_cons]. repeat constructor; euclid.
  - apply Forall_cons in H as [Ha [Hb [Hc Hr]%Forall_cons]%Forall_cons].
    repeat (constructor; [euclid|]). apply IH; [simpl; lia|done].
Qed.

Lemma unbase64_digits_of bs : bytes bs → unbase64_digits (base64_digits_of bs) = Some bs.
Proof.
  induction bs as [bs IH] using (induction_ltof1 _ (@length N)). unfold ltof in IH. intros H.
  destruct bs as [|a [|b [|c r]]]; [done|..].
  - apply Forall_cons in H as [Ha _]. cbn -[N.mul N.add N.div N.modulo]. do 2 f_equal. euclid.
  - apply Forall_cons in H as [Ha [Hb _]%Forall_cons]. cbn -[N.mul N.add N.div N.modulo]. f_equal. f_equal; [euclid|]. f_equal. euclid.
  - apply Forall_cons in H as [Ha [Hb [Hc Hr]%Forall_cons]%Forall_cons]. cbn -[N.mul N.add N.div N.modulo].
    rewrite IH by (simpl; lia || done). cbn -[N.mul N.add N.div N.modulo]. f_equal.
    f_equal; [euclid|]. f_equal; [euclid|]. f_equal. euclid.
Qed.

Lemma length_base64_digits bs : (length (base64_digits_of bs) + length (padding_of bs)) mod 4 = 0.
Proof.
  induction bs as [bs IH] using (induction_ltof1 _ (@length N)). unfold ltof in IH.
  destruct bs as [|a [|b [|c r]]]; [done..|]. rewrite padding_of_cons3. cbn [base64_digits_of length].
  replace (S (S (S (S (length (base64_digits_of r))))) + length (padding_of r)) with (4 + (length (base64_digits_of r) + length (padding_of r))) by lia.
  rewrite Nat.Div0.add_mod, Nat.Div0.mod_same, Nat.add_0_l, Nat.Div0.mod_mod. apply IH. simpl. lia.
Qed.

(** The padding of an encoding is found again: no digit is the padding character. *)
Lemma strip_padding_base64 bs : bytes bs → strip_padding (base64 bs) = map b64_char (base64_digits_of bs).
Proof.
  intros H%base64_digits_small. unfold strip_padding. rewrite base64_as_digits, length_app, length_map, length_base64_digits.
  cbn [Nat.eqb]. rewrite rev_app_distr. assert (head (rev (map b64_char (base64_digits_of bs))) ≠ Some 61%N) as Hh.
  { rewrite <- map_rev. apply Forall_rev in H. destruct H as [|v l Hv _]; [done|]. cbn. intros [= E]. apply b64_char_not_pad in Hv.
    by rewrite E in Hv. }
  set (ds := map b64_char (base64_digits_of bs)) in *.
  unfold padding_of. destruct (length bs mod 3) as [|[|[|n]]]; cbn [rev app N.eqb Pos.eqb].
  - rewrite app_nil_r. destruct (rev ds) as [|c r]; [done|]. cbn in Hh. by rewrite (proj2 (N.eqb_neq c 61)) by congruence.
  - apply rev_involutive.
  - destruct (rev ds) as [|c r] eqn:E; [by rewrite <- (rev_involutive ds), E|]. cbn in Hh.
    rewrite (proj2 (N.eqb_neq c 61)) by congruence. by rewrite <- E, rev_involutive.
  - rewrite app_nil_r. destruct (rev ds) as [|c r]; [done|]. cbn in Hh. by rewrite (proj2 (N.eqb_neq c 61)) by congruence.
Qed.

Lemma atob_base64 bs : bytes bs → atob (base64 bs) = Ret bs.
Proof.
  intros H. unfold atob. rewrite bfilter_id.
  - rewrite strip_padding_base64 by done. pose proof (base64_digits_small bs H) as Hs.
    assert (mapM b64_val (map b64_char (base64_digits_of bs)) = Some (base64_digits_of bs)) as ->.
    { clear -Hs. induction Hs as [|v l Hv _ IH]; [done|]. cbn [map mapM]. rewrite b64_val_char by done. cbn. by rewrite IH. }
    by rewrite unbase64_digits_of.
  - intros c Hc. apply base64_digits in H. rewrite Forall_forall in H. specialize (H c Hc). unfold is_b64 in H.
    apply negb_true_iff. unfold b64_space.
    destruct (N.eqb_spec c 9) as [->|]; [done|]. destruct (N.eqb_spec c 10) as [->|]; [done|].
    destruct (N.eqb_spec c 12) as [->|]; [done|]. destruct (N.eqb_spec c 13) as [->|]; [done|].
    destruct (N.eqb_spec c 32) as [->|]; [done|]. done.
Qed.
