(* ===== verification/HttpStatusCodeRules.v ===== *)
(** * HTTP status code rules ([web/default/src/lib/http-status-code-rules.ts])

    The rule editor accepts a comma-separated list of status codes and code
    ranges, normalises it to a minimal list of disjoint, non-adjacent ranges and
    prints that list back.  [parseHttpStatusCodeRules] is the exported entry
    point; [parseToken], [isNumber] and [mergeRanges] are its helpers.

    Codes are integers ([Z]): [Number.parseInt] is exact below 2^53 and rounds
    monotonically above, and the only test made on a parsed code is membership of
    100..599, so the rounding of longer digit strings is not observable. *)

From S2P Require Import Prelude JsString.

Local Open Scope Z_scope.

(** ** Data *)

Record StatusCodeRange := mkRange { start : Z; end_ : Z }.

#[export] Instance StatusCodeRange_eq_dec : EqDecision StatusCodeRange.
Proof. solve_decision. Defined.

Record ParsedHttpStatusCodeRules := mkParsed {
  ok : bool;
  ranges : list StatusCodeRange;
  tokens : list str;
  normalized : str;
  invalidTokens : list str }.

(** ** Operations *)

(** [/^\d+$/.test(s)] *)
Definition isNumber (s : str) : bool := truthy s && forallb is_digit s.

(** [Number.parseInt(s, 10)] on a string of digits. *)
Definition parseInt10 (s : str) : Z := Z.of_N (dec_val s).

Definition isValidCode (code : Z) : bool := (100 <=? code) && (code <=? 599).

(** [s.replace(/\s/g, '')] *)
Definition remove_spaces (s : str) : str := List.filter (λ c, negb (is_space c)) s.

Definition parseToken (token : str) : option StatusCodeRange :=
  let cleaned := remove_spaces (trim token) in
  if negb (truthy cleaned) then None
  else if includes (js "-") cleaned then
    match split (js "-") cleaned with
    | a :: b :: _ =>
        if negb (isNumber a) || negb (isNumber b) then None
        else
          let s := parseInt10 a in
          let e := parseInt10 b in
          if negb (isValidCode s) || negb (isValidCode e) || (s >? e) then None
          else Some (mkRange s e)
    | _ => None
    end
  else if negb (isNumber cleaned) then None
  else
    let code := parseInt10 cleaned in
    if negb (isValidCode code) then None else Some (mkRange code code).

(** [(a, b) => a.start !== b.start ? a.start - b.start : a.end - b.end] *)
Definition range_cmp (a b : StatusCodeRange) : Z :=
  if negb (start a =? start b) then start a - start b else end_ a - end_ b.

(** The body of the [reduce] callback: [merged] is the accumulator array. *)
Definition merge_step (merged : list StatusCodeRange) (current : StatusCodeRange)
  : list StatusCodeRange :=
  match last merged with
  | None => merged ++ [current]
  | Some l =>
      if start current >? end_ l + 1 then merged ++ [current]
      else removelast merged ++ [mkRange (start l) (Z.max (end_ l) (end_ current))]
  end.

Definition mergeRanges (ranges : list StatusCodeRange) : list StatusCodeRange :=
  match ranges with
  | [] => []
  | _ => fold_left merge_step (array_sort range_cmp ranges) []
  end.

Definition range_token (r : StatusCodeRange) : str :=
  if start r =? end_ r then Z_dec (start r) else Z_dec (start r) ++ js "-" ++ Z_dec (end_ r).

(** [raw.replace(/[，]/g, ',')] *)
Definition replace_fullwidth_comma (s : str) : str :=
  map (λ c, if (c =? 65292)%N then 44%N else c) s.

Definition rule_segments (raw : str) : list str :=
  List.filter truthy (map trim (split (js ",") (replace_fullwidth_comma raw))).

(** The loop over the segments: parsed ranges and invalid tokens, in order. *)
Fixpoint collect_tokens (segments : list str) : list StatusCodeRange * list str :=
  match segments with
  | [] => ([], [])
  | seg :: rest =>
      let '(rs, bad) := collect_tokens rest in
      match parseToken seg with
      | None => (rs, seg :: bad)
      | Some r => (r :: rs, bad)
      end
  end.

(** [input] is the argument after [(input ?? '').toString()]. *)
Definition parseHttpStatusCodeRules (input : str) : ParsedHttpStatusCodeRules :=
  let raw := trim input in
  if (length raw =? 0)%nat then mkParsed true [] [] [] []
  else
    let '(rs, bad) := collect_tokens (rule_segments raw) in
    if (0 <? length bad)%nat then mkParsed false [] [] raw bad
    else
      let merged := mergeRanges rs in
      let toks := map range_token merged in
      mkParsed true merged toks (join (js ",") toks) [].

(** ** Specification *)

(** The status codes a list of ranges selects. *)
Definition covers (rs : list StatusCodeRange) (c : Z) : Prop :=
  ∃ r, r ∈ rs ∧ start r ≤ c ≤ end_ r.

Definition range_ok (r : StatusCodeRange) : Prop := start r ≤ end_ r.

(** Ranges that neither overlap nor touch, in increasing order. *)
Definition apart (a b : StatusCodeRange) : Prop := end_ a + 1 < start b.

Definition canonical (rs : list StatusCodeRange) : Prop :=
  Forall range_ok rs ∧ StronglySorted apart rs.

(** ** [mergeRanges] *)

(** The reduction as a recursion on the last range of the accumulator. *)
Fixpoint merge_from (l : StatusCodeRange) (rs : list StatusCodeRange) : list StatusCodeRange :=
  match rs with
  | [] => [l]
  | c :: rs' =>
      if start c >? end_ l + 1 then l :: merge_from c rs'
      else merge_from (mkRange (start l) (Z.max (end_ l) (end_ c))) rs'
  end.

Lemma fold_merge_step init l rs :
  fold_left merge_step rs (init ++ [l]) = init ++ merge_from l rs.
Proof.
  revert init l. induction rs as [|c rs IH]; intros init l; simpl; [done|].
  unfold merge_step at 2. rewrite last_snoc.
  destruct (start c >? end_ l + 1).
  - rewrite IH. by rewrite <- app_assoc.
  - rewrite removelast_last. apply IH.
Qed.

Lemma mergeRanges_from rs :
  mergeRanges rs = match array_sort range_cmp rs with [] => [] | r :: rs' => merge_from r rs' end.
Proof.
  unfold mergeRanges. destruct rs as [|r0 rs0]; [done|].
  destruct (array_sort range_cmp (r0 :: rs0)) as [|r rs]; [done|].
  apply (fold_merge_step [] r rs).
Qed.

Lemma range_cmp_total x y : range_cmp x y > 0 → range_cmp y x ≤ 0.
Proof. unfold range_cmp. destruct (Z.eqb_spec (start x) (start y)), (Z.eqb_spec (start y) (start x)); simpl; lia. Qed.

Lemma range_cmp_trans x y z :
  cmp_le range_cmp x y → cmp_le range_cmp y z → cmp_le range_cmp x z.
Proof.
  unfold cmp_le, range_cmp.
  destruct (Z.eqb_spec (start x) (start y)), (Z.eqb_spec (start y) (start z)),
    (Z.eqb_spec (start x) (start z)); simpl; lia.
Qed.

#[export] Instance range_cmp_comparator : Comparator range_cmp.
Proof. split; [apply range_cmp_total|apply range_cmp_trans]. Qed.

Definition start_le (a b : StatusCodeRange) : Prop := start a ≤ start b.

Lemma sorted_by_start rs : StronglySorted start_le (array_sort range_cmp rs).
Proof.
  apply (StronglySorted_weaken (cmp_le range_cmp)).
  - intros a b. unfold cmp_le, range_cmp, start_le. destruct (Z.eqb_spec (start a) (start b)); simpl; lia.
  - apply (sorted_by range_cmp).
Qed.

(** One reduction run: the result is canonical and selects the codes of the
    last range together with those of the remaining ones. *)
Lemma merge_from_spec rs l :
  range_ok l → Forall range_ok rs → Forall (start_le l) rs → StronglySorted start_le rs →
  canonical (merge_from l rs) ∧
  Forall (start_le l) (merge_from l rs) ∧
  (∀ c, covers (merge_from l rs) c ↔ (start l ≤ c ≤ end_ l) ∨ covers rs c).
Proof.
  revert l. induction rs as [|r rs IH]; intros l Hl Hrs Hle Hsort; simpl.
  { split_and!.
    - split; [by constructor|by repeat constructor].
    - constructor; [unfold start_le; lia|constructor].
    - intros c. unfold covers. set_solver. }
  apply Forall_cons in Hrs as [Hr Hrs]. apply Forall_cons in Hle as [Hlr Hle].
  apply StronglySorted_inv in Hsort as [Hsort Hrle].
  unfold range_ok, start_le in *. destruct (start r >? end_ l + 1) eqn:Egap.
  - apply Z.gtb_lt in Egap. destruct (IH r Hr Hrs Hrle Hsort) as ((Hok & Hap) & Hmin & Hcov).
    split_and!.
    + split; [by constructor|]. constructor; [done|].
      eapply Forall_impl; [exact Hmin|]. unfold apart. intros x Hx; simpl in Hx. lia.
    + constructor; [lia|]. eapply Forall_impl; [exact Hmin|]. intros x Hx; simpl in Hx. lia.
    + intros c. unfold covers in *. setoid_rewrite elem_of_cons. specialize (Hcov c). naive_solver.
  - rewrite Z.gtb_ltb in Egap. apply Z.ltb_ge in Egap.
    destruct (IH (mkRange (start l) (Z.max (end_ l) (end_ r)))) as (Hcan & Hmin & Hcov);
      simpl; [lia|done..|].
    split_and!; [done|exact Hmin|]. intros c. rewrite Hcov. simpl. unfold covers.
    setoid_rewrite elem_of_cons. split.
    + intros [Hc|?]; [|naive_solver].
      destruct (decide (c ≤ end_ l)); [left; lia|]. right. exists r. split; [by left|lia].
    + intros [Hc|(x & [->|Hx] & Hc)]; [left; lia|left; lia|right; eauto].
Qed.

Lemma mergeRanges_spec rs :
  Forall range_ok rs →
  canonical (mergeRanges rs) ∧ (∀ c, covers (mergeRanges rs) c ↔ covers rs c).
Proof.
  intros Hok. rewrite mergeRanges_from.
  pose proof (array_sort_Permutation range_cmp rs) as Hperm.
  pose proof (sorted_by_start rs) as Hsort.
  rewrite <- Hperm in Hok.
  assert (Hcov : ∀ c, covers rs c ↔ covers (array_sort range_cmp rs) c).
  { intros c. unfold covers. by setoid_rewrite Hperm. }
  setoid_rewrite Hcov.
  destruct (array_sort range_cmp rs) as [|r rs'].
  { split; [by repeat constructor|done]. }
  apply Forall_cons in Hok as [Hr Hok]. apply StronglySorted_inv in Hsort as [Hsort Hle].
  destruct (merge_from_spec rs' r Hr Hok Hle Hsort) as (Hcan & _ & Hc).
  split; [done|]. intros c. rewrite Hc. unfold covers. setoid_rewrite elem_of_cons.
  naive_solver.
Qed.

(** *** Uniqueness of the canonical form *)

Lemma canonical_cons r rs :
  canonical (r :: rs) → range_ok r ∧ canonical rs ∧ (∀ c, covers rs c → end_ r + 1 < c).
Proof.
  intros [Hok Hs]. apply Forall_cons in Hok as [Hr Hok].
  apply StronglySorted_inv in Hs as [Hs Hap]. split_and!; [done|done|].
  intros c (x & Hx & Hc). rewrite Forall_forall in Hap. specialize (Hap x Hx). unfold apart in Hap. lia.
Qed.

Lemma covers_cons r rs c : covers (r :: rs) c ↔ start r ≤ c ≤ end_ r ∨ covers rs c.
Proof. unfold covers. setoid_rewrite elem_of_cons. naive_solver. Qed.

Lemma covers_nil c : ¬ covers [] c.
Proof. intros (r & Hr & _). set_solver. Qed.

Lemma canonical_unique rs1 rs2 :
  canonical rs1 → canonical rs2 → (∀ c, covers rs1 c ↔ covers rs2 c) → rs1 = rs2.
Proof.
  revert rs2. induction rs1 as [|r1 rs1 IH]; intros [|r2 rs2] H1 H2 Hc.
  - done.
  - apply canonical_cons in H2 as (Hr & _ & _). unfold range_ok in Hr.
    destruct (covers_nil (start r2)). apply Hc, covers_cons. lia.
  - apply canonical_cons in H1 as (Hr & _ & _). unfold range_ok in Hr.
    destruct (covers_nil (start r1)). apply Hc, covers_cons. lia.
  - apply canonical_cons in H1 as (Hr1 & H1 & Hb1). apply canonical_cons in H2 as (Hr2 & H2 & Hb2).
    unfold range_ok in *. setoid_rewrite covers_cons in Hc.
    assert (Hs : start r1 = start r2).
    { pose proof (proj1 (Hc (start r1))) as A. pose proof (proj2 (Hc (start r2))) as B.
      destruct A as [A|A%Hb2]; [lia| |]; destruct B as [B|B%Hb1]; lia. }
    assert (He : end_ r1 = end_ r2).
    { pose proof (proj1 (Hc (end_ r1))) as A. pose proof (proj2 (Hc (end_ r2))) as B.
      destruct (Z.lt_trichotomy (end_ r1) (end_ r2)) as [Hlt|[?|Hlt]]; [|done|].
      - destruct (proj2 (Hc (end_ r1 + 1))) as [C|C%Hb1]; lia.
      - destruct (proj1 (Hc (end_ r2 + 1))) as [C|C%Hb2]; lia. }
    destruct r1 as [s1 e1], r2 as [s2 e2]; simpl in *; subst. f_equal.
    apply IH; [done|done|]. intros c. split; intros Hx.
    + destruct (proj1 (Hc c)) as [C|C]; [by right|apply Hb1 in Hx; lia|done].
    + destruct (proj2 (Hc c)) as [C|C]; [by right|apply Hb2 in Hx; lia|done].
Qed.

Lemma covers_merge_canonical rs : canonical rs → mergeRanges rs = rs.
Proof.
  intros Hcan. destruct (mergeRanges_spec rs) as [H1 H2]; [apply Hcan|].
  by apply canonical_unique.
Qed.

(** ** Tokens *)

Definition code_ok (c : Z) : Prop := 100 ≤ c ≤ 599.

Lemma isValidCode_spec c : isValidCode c = true ↔ code_ok c.
Proof. unfold isValidCode, code_ok. rewrite andb_true_iff, !Z.leb_le. done. Qed.

(** Every parsed token is an ordered range of codes 100..599. *)
Lemma parseToken_ok tok r :
  parseToken tok = Some r → range_ok r ∧ code_ok (start r) ∧ code_ok (end_ r).
Proof.
  unfold parseToken, range_ok. rewrite <- !isValidCode_spec. intros H.
  repeat (break_match_in H; try discriminate H); simplify_eq/=;
    repeat match goal with
    | H : orb _ _ = false |- _ => apply orb_false_iff in H as [? ?]
    | H : negb _ = false |- _ => apply negb_false_iff in H
    | H : (_ >? _) = false |- _ => rewrite Z.gtb_ltb in H; apply Z.ltb_ge in H
    end; split_and!; auto; lia.
Qed.

Lemma isNumber_N_dec n : isNumber (N_dec n) = true.
Proof.
  unfold isNumber. pose proof (N_dec_nonempty n). pose proof (N_dec_digits n) as Hd.
  rewrite (proj2 (forallb_forall is_digit (N_dec n))).
  - by destruct (N_dec n).
  - intros c Hc. rewrite Forall_forall in Hd. by apply Hd, list_elem_of_In.
Qed.

Lemma parseInt10_Z_dec z : 0 ≤ z → parseInt10 (Z_dec z) = z.
Proof. intros H. unfold parseInt10. rewrite Z_dec_nonneg, dec_val_N_dec by done. lia. Qed.

(** Characters of a printed rule: digits and the dash. *)
Definition rule_char (c : N) : Prop := is_digit c = true ∨ c = 45%N.

Lemma rule_char_not_space c : rule_char c → is_space c = false.
Proof. intros [?| ->]; [by apply digit_not_space|done]. Qed.

Lemma rule_char_lt c : rule_char c → (45 ≤ c < 58)%N.
Proof. intros [H| ->]; [apply is_digit_spec in H|]; lia. Qed.

Lemma Z_dec_chars z : 0 ≤ z → Forall (λ c, is_digit c = true) (Z_dec z).
Proof. intros. rewrite Z_dec_nonneg by done. apply N_dec_digits. Qed.

Lemma range_token_chars r : 0 ≤ start r → 0 ≤ end_ r → Forall rule_char (range_token r).
Proof.
  intros Hs He. unfold range_token.
  assert (Hd : ∀ z, 0 ≤ z → Forall rule_char (Z_dec z)).
  { intros z Hz. eapply Forall_impl; [by apply Z_dec_chars|]. by left. }
  case_match; [by apply Hd|].
  apply Forall_app; split; [by apply Hd|]. apply Forall_app; split; [|by apply Hd].
  apply Forall_singleton. by right.
Qed.

Lemma range_token_nonempty r : 0 ≤ start r → range_token r ≠ [].
Proof.
  intros Hs. unfold range_token. rewrite Z_dec_nonneg by done.
  pose proof (N_dec_nonempty (Z.to_N (start r))). case_match; [done|]. by destruct (N_dec _).
Qed.

Lemma remove_spaces_id s : Forall (λ c, is_space c = false) s → remove_spaces s = s.
Proof. intros H. apply bfilter_id. rewrite Forall_forall in H. intros c Hc. by rewrite H. Qed.

Lemma no_dash_includes s : Forall (λ c, is_digit c = true) s → includes (js "-") s = false.
Proof.
  intros H. apply not_true_is_false. rewrite includes_spec. intros (u & t & ->).
  change (js "-") with [45%N] in H. rewrite !Forall_app in H. destruct H as (_ & H & _).
  inversion H; discriminate.
Qed.

(** Printing a range of codes and reading it back is the identity. *)
Lemma parseToken_range_token r :
  range_ok r → code_ok (start r) → code_ok (end_ r) → parseToken (range_token r) = Some r.
Proof.
  intros Hr Hs He. destruct r as [s e]. unfold range_ok, code_ok in *. simpl in *.
  assert (Hns : Forall (λ c, is_space c = false) (range_token (mkRange s e))).
  { eapply Forall_impl; [apply range_token_chars; simpl; lia|]. apply rule_char_not_space. }
  unfold parseToken. rewrite trim_id, remove_spaces_id by (auto using trimmed_no_space).
  destruct (range_token (mkRange s e)) as [|c0 s0] eqn:Etok;
    [by apply range_token_nonempty in Etok; simpl; lia|].
  cbn [truthy negb]. rewrite <- Etok. clear Etok Hns. unfold range_token. simpl.
  assert (Hnum : ∀ z, 0 ≤ z → isNumber (Z_dec z) = true).
  { intros z Hz. rewrite Z_dec_nonneg by done. apply isNumber_N_dec. }
  assert (Hval : ∀ z, 100 ≤ z ≤ 599 → isValidCode z = true) by (intros; by apply isValidCode_spec).
  destruct (Z.eqb_spec s e) as [->|Hne].
  - rewrite no_dash_includes, Hnum, parseInt10_Z_dec, Hval by (auto using Z_dec_chars with lia).
    done.
  - change (js "-") with [45%N].
    replace (includes _ _) with true
      by (symmetry; apply includes_spec; by exists (Z_dec s), (Z_dec e)).
    assert (Hnd : ∀ z, 0 ≤ z → 45%N ∉ Z_dec z).
    { intros z Hz Hin. pose proof (Z_dec_chars z Hz) as Hd. rewrite Forall_forall in Hd.
      by specialize (Hd _ Hin). }
    change (Z_dec s ++ [45%N] ++ Z_dec e) with (Z_dec s ++ 45%N :: Z_dec e).
    unfold split. rewrite split_go_sep by (apply Hnd; lia).
    unfold split. rewrite split_go_clean by (apply Hnd; lia). cbn [rev app].
    rewrite !Hnum, !parseInt10_Z_dec, !Hval by lia. cbn [negb orb].
    replace (s >? e) with false by (symmetry; rewrite Z.gtb_ltb; apply Z.ltb_ge; lia). done.
Qed.

(** ** The whole parser *)

Lemma collect_tokens_spec segs :
  collect_tokens segs = (omap parseToken segs, List.filter (λ s, bool_decide (parseToken s = None)) segs).
Proof.
  induction segs as [|seg segs IH]; simpl; [done|]. rewrite IH.
  by destruct (parseToken seg) eqn:E.
Qed.

Definition invalid_segments (raw : str) : list str :=
  List.filter (λ s, bool_decide (parseToken s = None)) (rule_segments raw).

Lemma parse_unfold input :
  parseHttpStatusCodeRules input =
    if decide (invalid_segments (trim input) = [])
    then let merged := mergeRanges (omap parseToken (rule_segments (trim input))) in
         mkParsed true merged (map range_token merged) (join (js ",") (map range_token merged)) []
    else mkParsed false [] [] (trim input) (invalid_segments (trim input)).
Proof.
  unfold parseHttpStatusCodeRules.
  destruct (Nat.eqb_spec (length (trim input)) 0) as [E|E].
  { apply nil_length_inv in E. rewrite E. done. }
  rewrite collect_tokens_spec. fold (invalid_segments (trim input)).
  destruct (decide (invalid_segments (trim input) = [])) as [->|Hne]; [done|].
  by destruct (invalid_segments (trim input)).
Qed.

Lemma parsed_tokens_ok segs : Forall range_ok (omap parseToken segs).
Proof.
  apply Forall_forall. intros r (seg & _ & H)%list_elem_of_omap.
  by apply parseToken_ok in H as [? _].
Qed.

Lemma covers_tokens segs c :
  covers (omap parseToken segs) c ↔
  ∃ seg r, seg ∈ segs ∧ parseToken seg = Some r ∧ start r ≤ c ≤ end_ r.
Proof. unfold covers. setoid_rewrite list_elem_of_omap. naive_solver. Qed.

Lemma covers_endpoints rs r :
  canonical rs → r ∈ rs → covers rs (start r) ∧ covers rs (end_ r).
Proof.
  intros [Hok _] Hr. rewrite Forall_forall in Hok. specialize (Hok r Hr). unfold range_ok in Hok.
  split; exists r; (split; [done|lia]).
Qed.

Lemma covers_codes segs c : covers (omap parseToken segs) c → code_ok c.
Proof.
  intros (seg & r & _ & H & Hc)%covers_tokens. apply parseToken_ok in H as (_ & H1 & H2).
  unfold code_ok in *. lia.
Qed.

(** The ranges of an accepted input, all properties together. *)
Lemma parse_ok_ranges input :
  let p := parseHttpStatusCodeRules input in
  ok p = true →
  canonical (ranges p) ∧
  Forall (λ r, code_ok (start r) ∧ code_ok (end_ r)) (ranges p) ∧
  normalized p = join (js ",") (map range_token (ranges p)) ∧
  p = mkParsed true (ranges p) (map range_token (ranges p)) (normalized p) [] ∧
  (∀ c, covers (ranges p) c ↔ covers (omap parseToken (rule_segments (trim input))) c).
Proof.
  intros p. unfold p. rewrite parse_unfold. case_decide as Hinv; [|done]. intros _. cbn zeta. simpl.
  destruct (mergeRanges_spec (omap parseToken (rule_segments (trim input)))) as [Hcan Hcov];
    [apply parsed_tokens_ok|].
  split_and!; [done| |done|done|done].
  apply Forall_forall. intros r Hr. destruct (covers_endpoints _ _ Hcan Hr) as [H1 H2].
  split; eapply covers_codes; by apply Hcov.
Qed.

Lemma segments_of_tokens rs :
  rs ≠ [] → Forall (λ r, code_ok (start r) ∧ code_ok (end_ r)) rs →
  rule_segments (join (js ",") (map range_token rs)) = map range_token rs.
Proof.
  intros Hne Hok. change (js ",") with [44%N].
  assert (Hch : Forall (λ t, t ≠ [] ∧ Forall rule_char t) (map range_token rs)).
  { apply Forall_fmap. eapply Forall_impl; [exact Hok|]. intros r [H1 H2]. unfold code_ok in *.
    split; [apply range_token_nonempty; lia|apply range_token_chars; lia]. }
  assert (Hcs : Forall (λ c, (c < 58)%N) (join [44%N] (map range_token rs))).
  { clear Hne Hok. revert Hch. generalize (map range_token rs) as ts.
    induction ts as [|t ts IH]; intros Hch; [constructor|].
    apply Forall_cons in Hch as [[_ Ht] Hch].
    assert (Ht' : Forall (λ c, (c < 58)%N) t).
    { eapply Forall_impl; [exact Ht|]. intros c Hc%rule_char_lt. lia. }
    destruct ts as [|t' ts]; [done|]. rewrite join_cons by done.
    apply Forall_app; split; [done|]. apply Forall_app; split; [by repeat constructor|]. by apply IH. }
  unfold rule_segments, replace_fullwidth_comma.
  replace (map _ (join [44%N] (map range_token rs))) with (join [44%N] (map range_token rs)).
  2:{ symmetry. apply lmap_id. eapply Forall_impl; [exact Hcs|]. intros c Hc.
      cbv beta in *. destruct (N.eqb_spec c 65292); [lia|done]. }
  change (js ",") with [44%N]. rewrite split_join.
  - replace (map trim (map range_token rs)) with (map range_token rs).
    + apply bfilter_id. intros t Ht. rewrite Forall_forall in Hch. apply Hch in Ht as [? _]. by destruct t.
    + symmetry. apply lmap_id. eapply Forall_impl; [exact Hch|]. intros t [_ Ht].
      apply trim_id, trimmed_no_space. eapply Forall_impl; [exact Ht|]. apply rule_char_not_space.
  - by destruct rs.
  - eapply Forall_impl; [exact Hch|]. intros t [_ Ht] Hin. rewrite Forall_forall in Ht.
    apply Ht, rule_char_lt in Hin. lia.
Qed.

Lemma join_comma_no_space ts :
  Forall (λ t, Forall rule_char t) ts → Forall (λ c, is_space c = false) (join (js ",") ts).
Proof.
  intros H. induction H as [|t ts Ht Hts IH]; [constructor|].
  assert (Ht' : Forall (λ c, is_space c = false) t)
    by (eapply Forall_impl; [exact Ht|]; apply rule_char_not_space).
  destruct ts as [|t' ts]; [done|]. rewrite join_cons by done.
  apply Forall_app; split; [done|]. apply Forall_app; split; [by repeat constructor|exact IH].
Qed.

(** Reading a canonical list of code ranges back from its print. *)
Lemma parse_print rs :
  canonical rs → Forall (λ r, code_ok (start r) ∧ code_ok (end_ r)) rs →
  parseHttpStatusCodeRules (join (js ",") (map range_token rs)) =
    mkParsed true rs (map range_token rs) (join (js ",") (map range_token rs)) [].
Proof.
  intros Hcan Hok. destruct (decide (rs = [])) as [->|Hne]; [done|].
  assert (Hns : trim (join (js ",") (map range_token rs)) = join (js ",") (map range_token rs)).
  { apply trim_id, trimmed_no_space, join_comma_no_space, Forall_fmap.
    eapply Forall_impl; [exact Hok|]. intros r [H1 H2]. unfold code_ok in *.
    apply range_token_chars; lia. }
  assert (Hpt : Forall (λ r, parseToken (range_token r) = Some r) rs).
  { destruct Hcan as [Hr _]. rewrite Forall_forall in Hok, Hr |- *. intros r Hin.
    destruct (Hok r Hin). apply parseToken_range_token; auto. }
  rewrite parse_unfold, Hns. unfold invalid_segments.
  rewrite segments_of_tokens by done. rewrite bfilter_none.
  2:{ intros t (r & -> & Hr)%elem_of_lmap. rewrite Forall_forall in Hpt.
      apply bool_decide_eq_false. by rewrite Hpt. }
  rewrite decide_True by done.
  assert (Hom : omap parseToken (map range_token rs) = rs).
  { clear -Hpt. induction Hpt as [|r rs Hr _ IH]; simpl; [done|]. rewrite Hr. f_equal. exact IH. }
  cbv zeta. rewrite Hom, covers_merge_canonical by done. done.
Qed.

(** ** Properties *)

(** Accepted input.  When [parseHttpStatusCodeRules] accepts a text, the
    ranges it returns are in increasing order, neither overlap nor touch, and a
    status code lies in one of them exactly when it lies in the range of one of
    the comma-separated tokens of the text; every selected code is in 100..599. *)
Theorem parse_selects_union_of_tokens input :
  let p := parseHttpStatusCodeRules input in
  ok p = true →
  canonical (ranges p) ∧
  (∀ c, covers (ranges p) c ↔
     ∃ seg r, seg ∈ rule_segments (trim input) ∧ parseToken seg = Some r ∧ start r ≤ c ≤ end_ r) ∧
  (∀ c, covers (ranges p) c → 100 ≤ c ≤ 599).
Proof.
  cbv zeta. intros Hok. destruct (parse_ok_ranges input Hok) as (Hcan & Hcodes & _ & _ & Hcov).
  split_and!; [done| |].
  - intros c. rewrite Hcov. apply covers_tokens.
  - intros c Hc. by apply Hcov, covers_codes in Hc.
Qed.

Lemma parse_selects_union_of_tokens_witness :
  canonical (ranges (parseHttpStatusCodeRules (js "500-505, 504，401,403,402"))).
Proof.
  apply (parse_selects_union_of_tokens (js "500-505, 504，401,403,402")). vm_compute. reflexivity.
Defined.

(** Rejected input.  The parser rejects exactly when some non-empty segment
    is not a valid token; it then reports precisely the invalid segments, in the
    order of the text, returns no ranges and echoes the trimmed text. *)
Theorem parse_rejects_exactly_invalid_tokens input :
  let p := parseHttpStatusCodeRules input in
  (ok p = false ↔ ∃ seg, seg ∈ rule_segments (trim input) ∧ parseToken seg = None) ∧
  (ok p = false →
     p = mkParsed false [] [] (trim input)
           (List.filter (λ s, bool_decide (parseToken s = None)) (rule_segments (trim input)))).
Proof.
  intros p. unfold p. rewrite parse_unfold. unfold invalid_segments.
  assert (Hex : (∃ seg, seg ∈ rule_segments (trim input) ∧ parseToken seg = None) ↔
    List.filter (λ s, bool_decide (parseToken s = None)) (rule_segments (trim input)) ≠ []).
  { split.
    - intros (seg & Hs & Hn) E. assert (Hin : seg ∈ @nil str); [|set_solver].
      rewrite <- E. apply elem_of_bfilter. by rewrite bool_decide_eq_true.
    - destruct (List.filter _ _) as [|seg l] eqn:E; [done|]. intros _. exists seg.
      assert (Hin : seg ∈ seg :: l) by set_solver. rewrite <- E in Hin.
      apply elem_of_bfilter in Hin as [? Hd]. by apply bool_decide_eq_true in Hd. }
  rewrite Hex. case_decide; simpl; split; try done; naive_solver.
Qed.

Lemma parse_rejects_exactly_invalid_tokens_witness :
  parseHttpStatusCodeRules (js "99,404,foo,500-400") =
  mkParsed false [] [] (js "99,404,foo,500-400") [js "99"; js "foo"; js "500-400"].
Proof.
  rewrite (proj2 (parse_rejects_exactly_invalid_tokens (js "99,404,foo,500-400")));
    vm_compute; reflexivity.
Defined.

(** Normalisation is idempotent.  The normalised text of an accepted input
    is itself accepted and parses to the very same result (ranges, tokens and
    normalised text). *)
Theorem parse_normalized_roundtrip input :
  let p := parseHttpStatusCodeRules input in
  ok p = true → parseHttpStatusCodeRules (normalized p) = p.
Proof.
  intros p Hok. destruct (parse_ok_ranges input Hok) as (Hcan & Hcodes & Hn & Hp & _).
  fold p in Hcan, Hcodes, Hn, Hp. rewrite Hn, parse_print by done. rewrite Hp at 4.
  by rewrite Hn.
Qed.

Lemma parse_normalized_roundtrip_witness :
  parseHttpStatusCodeRules (js "401-403,500-505") = parseHttpStatusCodeRules (js "500-505,504,401,403,402").
Proof.
  exact (parse_normalized_roundtrip (js "500-505,504,401,403,402") eq_refl).
Defined.

(** The normalised text is a canonical name of the selected set: two
    accepted inputs normalise to the same text exactly when they select the same
    status codes. *)
Theorem normalized_iff_same_codes input1 input2 :
  let p1 := parseHttpStatusCodeRules input1 in
  let p2 := parseHttpStatusCodeRules input2 in
  ok p1 = true → ok p2 = true →
  (normalized p1 = normalized p2 ↔ ∀ c, covers (ranges p1) c ↔ covers (ranges p2) c).
Proof.
  intros p1 p2 H1 H2.
  destruct (parse_ok_ranges input1 H1) as (Hcan1 & Hc1 & Hn1 & _ & _).
  destruct (parse_ok_ranges input2 H2) as (Hcan2 & Hc2 & Hn2 & _ & _).
  fold p1 in Hcan1, Hc1, Hn1. fold p2 in Hcan2, Hc2, Hn2. split.
  - intros E. rewrite Hn1, Hn2 in E. apply (f_equal (ranges ∘ parseHttpStatusCodeRules)) in E.
    unfold compose in E. rewrite !parse_print in E by done. simpl in E. by rewrite E.
  - intros Hcov. rewrite Hn1, Hn2. by rewrite (canonical_unique _ _ Hcan1 Hcan2 Hcov).
Qed.

Lemma normalized_iff_same_codes_witness :
  normalized (parseHttpStatusCodeRules (js "400,402,401")) =
  normalized (parseHttpStatusCodeRules (js "400-402")).
Proof.
  apply (normalized_iff_same_codes (js "400,402,401") (js "400-402")); [vm_compute; reflexivity..|].
  intros c. vm_compute ranges. reflexivity.
Defined.

(** A range token is read up to its second dash only: anything after
    [a-b-] is ignored, so a text such as ["200-210-300"] is accepted as the range
    200-210 (the server's parser, which requires exactly two parts, rejects it). *)
Theorem parseToken_ignores_third_part a b rest :
  Forall (λ c, is_digit c = true) a → Forall (λ c, is_digit c = true) b →
  Forall (λ c, is_space c = false) rest →
  parseToken (a ++ js "-" ++ b ++ js "-" ++ rest) = parseToken (a ++ js "-" ++ b).
Proof.
  intros Ha Hb Hrest. change (js "-") with [45%N].
  assert (Hsp : ∀ s, Forall (λ c, is_digit c = true) s → Forall (λ c, is_space c = false) s).
  { intros s Hs. eapply Forall_impl; [exact Hs|]. apply digit_not_space. }
  assert (Hnd : ∀ s, Forall (λ c, is_digit c = true) s → 45%N ∉ s).
  { intros s Hs Hin. rewrite Forall_forall in Hs. by specialize (Hs _ Hin). }
  assert (Hclean : ∀ s, Forall (λ c, is_space c = false) s → remove_spaces (trim s) = s).
  { intros s Hs. rewrite trim_id, remove_spaces_id by auto using trimmed_no_space. done. }
  unfold parseToken.
  rewrite !Hclean by (repeat apply Forall_app_2; try apply Forall_singleton; auto).
  replace (truthy (a ++ [45%N] ++ b ++ [45%N] ++ rest)) with true by by destruct a.
  replace (truthy (a ++ [45%N] ++ b)) with true by by destruct a.
  replace (includes (js "-") (a ++ [45%N] ++ b ++ [45%N] ++ rest)) with true
    by (symmetry; apply includes_spec; by exists a, (b ++ [45%N] ++ rest)).
  replace (includes (js "-") (a ++ [45%N] ++ b)) with true
    by (symmetry; apply includes_spec; by exists a, b).
  change (js "-") with [45%N]. simpl ([45%N] ++ _). unfold split.
  rewrite !split_go_sep by auto. unfold split.
  rewrite split_go_sep, split_go_clean by auto. done.
Qed.

Lemma parseToken_ignores_third_part_witness :
  parseToken (js "200-210-300") = Some (mkRange 200 210).
Proof.
  change (js "200-210-300") with (js "200" ++ js "-" ++ js "210" ++ js "-" ++ js "300").
  rewrite parseToken_ignores_third_part; [vm_compute; reflexivity|repeat constructor..].
Defined.
