(* ===== verification/BillingExpr.v ===== *)
(** * Billing expressions ([web/default/src/features/pricing/lib/billing-expr.ts])

    The variable registry, the parser of tiered prices, the parser of request
    rules, the split and the combination of a billing expression with its request
    rules, and the builder the rule editor uses.  Text is parsed with the
    source's regular expressions, written here as [regex] terms next to their
    literal (Q stands for the double quote); a [JSON.parse] that throws inside the request-rule parser is the
    outcome [Throw]. *)

From S2P Require Import Prelude JsString JsNumber Json Regex.

(** ** Variable registry *)

Inductive side := Input | Output | Condition.

Record BillingVar := {
  key : str;
  field : option str;
  tierField : option str;
  label_ : str;
  shortLabel : str;
  side_ : side;
  isBase : bool;
  isConditionOnly : bool;
  group_ : option str }.

Definition BILLING_VARS : list BillingVar :=
  [ {| key := js "p"; field := Some (js "inputPrice"); tierField := Some (js "input_unit_cost");
       label_ := js "Input price"; shortLabel := js "Input"; side_ := Input;
       isBase := true; isConditionOnly := false; group_ := None |};
    {| key := js "c"; field := Some (js "outputPrice"); tierField := Some (js "output_unit_cost");
       label_ := js "Completion price"; shortLabel := js "Output"; side_ := Output;
       isBase := true; isConditionOnly := false; group_ := None |};
    {| key := js "len"; field := None; tierField := None;
       label_ := js "Input length"; shortLabel := js "Length"; side_ := Condition;
       isBase := false; isConditionOnly := true; group_ := None |};
    {| key := js "cr"; field := Some (js "cacheReadPrice"); tierField := Some (js "cache_read_unit_cost");
       label_ := js "Cache read price"; shortLabel := js "Cache Read"; side_ := Input;
       isBase := false; isConditionOnly := false; group_ := Some (js "cache") |};
    {| key := js "cc"; field := Some (js "cacheCreatePrice"); tierField := Some (js "cache_create_unit_cost");
       label_ := js "Cache create price"; shortLabel := js "Cache Write"; side_ := Input;
       isBase := false; isConditionOnly := false; group_ := Some (js "cache") |};
    {| key := js "cc1h"; field := Some (js "cacheCreate1hPrice"); tierField := Some (js "cache_create_1h_unit_cost");
       label_ := js "Cache create (1h) price"; shortLabel := js "Cache Write (1h)"; side_ := Input;
       isBase := false; isConditionOnly := false; group_ := Some (js "cache") |};
    {| key := js "img"; field := Some (js "imagePrice"); tierField := Some (js "image_unit_cost");
       label_ := js "Image input price"; shortLabel := js "Image In"; side_ := Input;
       isBase := false; isConditionOnly := false; group_ := Some (js "media") |};
    {| key := js "img_o"; field := Some (js "imageOutputPrice"); tierField := Some (js "image_output_unit_cost");
       label_ := js "Image output price"; shortLabel := js "Image Out"; side_ := Output;
       isBase := false; isConditionOnly := false; group_ := Some (js "media") |};
    {| key := js "ai"; field := Some (js "audioInputPrice"); tierField := Some (js "audio_input_unit_cost");
       label_ := js "Audio input price"; shortLabel := js "Audio In"; side_ := Input;
       isBase := false; isConditionOnly := false; group_ := Some (js "media") |};
    {| key := js "ao"; field := Some (js "audioOutputPrice"); tierField := Some (js "audio_output_unit_cost");
       label_ := js "Audio output price"; shortLabel := js "Audio Out"; side_ := Output;
       isBase := false; isConditionOnly := false; group_ := Some (js "media") |} ].

Definition BILLING_PRICING_VARS : list BillingVar :=
  List.filter (λ v, negb (isConditionOnly v)) BILLING_VARS.

Definition BILLING_CONDITION_VARS : list str :=
  map key (List.filter (λ v, isBase v || isConditionOnly v) BILLING_VARS).

(** [v.field as string]: every pricing variable has a field. *)
Definition BILLING_VAR_KEY_TO_FIELD : list (str * str) :=
  map (λ v, (key v, default [] (field v))) BILLING_PRICING_VARS.

Definition BILLING_EXTRA_VARS : list BillingVar :=
  List.filter (λ v, negb (isBase v) && negb (isConditionOnly v)) BILLING_VARS.

Record CacheVar := { cv_field : str; exprVar : str }.

Definition BILLING_CACHE_VAR_MAP : list CacheVar :=
  map (λ v, {| cv_field := default [] (tierField v); exprVar := key v |}) BILLING_EXTRA_VARS.

(** ** Regular expressions *)

Definition c_digit := RChar is_digit.
Definition c_space := RChar is_space.
Definition r_spaces := rstar c_space.                          (* \s* *)

(** [\d.eE+-] and [\d.eE+] *)
Definition num_class (c : N) : bool :=
  is_digit c || ((c =? 46) || (c =? 101) || (c =? 69) || (c =? 43) || (c =? 45))%N.
Definition cond_num_class (c : N) : bool :=
  is_digit c || ((c =? 46) || (c =? 101) || (c =? 69) || (c =? 43))%N.
Definition r_num := rplus (RChar num_class).
Definition r_cond_num := rplus (RChar cond_num_class).

Definition not_quote (c : N) : bool := negb (c =? 34)%N.
(** [.] without the [s] flag *)
Definition not_newline (c : N) : bool :=
  negb ((c =? 10) || (c =? 13) || (c =? 8232) || (c =? 8233))%N.
Definition any_unit (c : N) : bool := true.

(** /\b(p|c|cr|...)\s*\*\s*([\d.eE+-]+)/g *)
Definition BILLING_VAR_REGEX : regex :=
  rseq [RWordB; RGroup 1 (ralt (map (λ v, rlit (key v)) BILLING_PRICING_VARS));
        r_spaces; rlit (js "*"); r_spaces; RGroup 2 r_num].

(** /^-?(?:\d+\.?\d*|\.\d+)(?:[eE][+-]?\d+)?$/ *)
Definition NUMERIC_LITERAL_REGEX : regex :=
  RSeq RBol (rseq
    [ROpt (rlit (js "-"));
     RAlt (rseq [rplus c_digit; ROpt (rlit (js ".")); rstar c_digit])
          (rseq [rlit (js "."); rplus c_digit]);
     ROpt (rseq [RChar (λ c, (c =? 101) || (c =? 69))%N;
                 ROpt (RChar (λ c, (c =? 43) || (c =? 45))%N);
                 rplus c_digit]);
     REol]).

Definition is_numeric_literal (s : str) : bool := test_re NUMERIC_LITERAL_REGEX s.

(** ** Conditions and rules *)

Definition SOURCE_PARAM := js "param".
Definition SOURCE_HEADER := js "header".
Definition SOURCE_TIME := js "time".
Definition MATCH_EQ := js "eq".
Definition MATCH_CONTAINS := js "contains".
Definition MATCH_GT := js "gt".
Definition MATCH_GTE := js "gte".
Definition MATCH_LT := js "lt".
Definition MATCH_LTE := js "lte".
Definition MATCH_EXISTS := js "exists".
Definition MATCH_RANGE := js "range".

Definition TIME_FUNCS : list str := [js "hour"; js "minute"; js "weekday"; js "month"; js "day"].

(** [source] of a [ParamHeaderCondition]. *)
Inductive ph_source := Param | Header.

Record ParamHeaderCondition := {
  source : ph_source; path : str; ph_mode : str; ph_value : str }.

Record TimeCondition := {
  timeFunc : str; timezone : str; t_mode : str; t_value : str;
  rangeStart : str; rangeEnd : str }.

Inductive RequestCondition :=
  | CTime (c : TimeCondition)
  | CParamHeader (c : ParamHeaderCondition).

Record RequestRuleGroup := { conditions : list RequestCondition; multiplier : str }.

#[export] Instance ph_source_eq_dec : EqDecision ph_source.
Proof. solve_decision. Defined.
#[export] Instance ParamHeaderCondition_eq_dec : EqDecision ParamHeaderCondition.
Proof. solve_decision. Defined.
#[export] Instance TimeCondition_eq_dec : EqDecision TimeCondition.
Proof. solve_decision. Defined.
#[export] Instance RequestCondition_eq_dec : EqDecision RequestCondition.
Proof. solve_decision. Defined.
#[export] Instance RequestRuleGroup_eq_dec : EqDecision RequestRuleGroup.
Proof. solve_decision. Defined.

Record TierCondition := { tc_var : str; tc_op : str; tc_value : num }.

(** The price fields of a parsed tier, in the order they are assigned. *)
Record ParsedTier := {
  tier_label : str; tier_conditions : list TierCondition; prices : list (str * num) }.

(** ** Tier parser *)

(** A captured group that takes part in every match. *)
Definition cap (cs : list (option str)) (n : nat) : str := default [] (default None (cs !! n)).

(** /^v(\d+):([\s\S]* )$/ *)
Definition VERSION_RE : regex :=
  RSeq RBol (rseq [rlit (js "v"); RGroup 1 (rplus c_digit); rlit (js ":");
                   RGroup 2 (rstar (RChar any_unit)); REol]).

Definition stripExprVersion (exprStr : str) : num * str :=
  if negb (truthy exprStr) then (num_of_Z 1, [])
  else match match_re 2 VERSION_RE exprStr with
       | Some cs => (number_of_string (cap cs 1), cap cs 2)
       | None => (num_of_Z 1, exprStr)
       end.

(** The first coefficient of each variable of a tier body. *)
Fixpoint collect_coeffs (ms : list (list (option str))) (coeffs : list (str * num)) : list (str * num) :=
  match ms with
  | [] => coeffs
  | cs :: ms' =>
      let v := cap cs 1 in
      if existsb (λ kv, bool_decide (fst kv = v)) coeffs then collect_coeffs ms' coeffs
      else collect_coeffs ms' (coeffs ++ [(v, number_of_string (cap cs 2))])
  end.

Fixpoint coeff_of (v : str) (coeffs : list (str * num)) : num :=
  match coeffs with
  | [] => S754_nan
  | (k, x) :: l => if bool_decide (k = v) then x else coeff_of v l
  end.

Definition parseTierBody (bodyStr : str) : list (str * num) :=
  let coeffs := collect_coeffs (match_all 2 BILLING_VAR_REGEX bodyStr) [] in
  map (λ kf, (snd kf, or_zero (coeff_of (fst kf) coeffs))) BILLING_VAR_KEY_TO_FIELD.

Definition cond_var : regex := ralt [rlit (js "p"); rlit (js "c"); rlit (js "len")].
Definition cond_op : regex := ralt [rlit (js "<"); rlit (js "<="); rlit (js ">"); rlit (js ">=")].

(** (?:p|c|len)\s*(?:<|<=|>|>=)\s*[\d.eE+]+ *)
Definition one_cond : regex := rseq [cond_var; r_spaces; cond_op; r_spaces; r_cond_num].

(** The condition group, as group [n]. *)
Definition condGroup (n : nat) : regex :=
  RGroup n (rseq [one_cond; rstar (rseq [r_spaces; rlit (js "&&"); r_spaces; one_cond])]).

(** (?:COND\s*\?\s* )?tier\(Q([^Q]* )Q,\s* *)
Definition tier_head : list regex :=
  [ROpt (rseq [condGroup 1; r_spaces; rlit (js "?"); r_spaces]);
   rlit (js "tier(" ++ dq); RGroup 2 (rstar (RChar not_quote)); rlit (dq ++ js ","); r_spaces].

Definition tierRe : regex :=
  rseq (tier_head ++ [RGroup 3 (rplus (RChar (λ c, negb (c =? 41)%N))); rlit (js ")")]).

Definition AND_RE : regex := rseq [r_spaces; rlit (js "&&"); r_spaces].

(** /^(p|c|len)\s*(<|<=|>|>=)\s*([\d.eE+]+)$/ *)
Definition COND_RE : regex :=
  RSeq RBol (rseq [RGroup 1 cond_var; r_spaces; RGroup 2 cond_op; r_spaces; RGroup 3 r_cond_num; REol]).

Definition parse_conditions (condStr : str) : list TierCondition :=
  if truthy condStr then
    omap (λ cp, (λ cs, {| tc_var := cap cs 1; tc_op := cap cs 2; tc_value := number_of_string (cap cs 3) |})
                  <$> match_re 3 COND_RE (trim cp))
         (split_re AND_RE condStr)
  else [].

Definition parseTiersFromExpr (exprStr : str) : list ParsedTier :=
  if negb (truthy exprStr) then []
  else
    let body := snd (stripExprVersion exprStr) in
    map (λ cs, {| tier_label := cap cs 2; tier_conditions := parse_conditions (cap cs 1);
                  prices := parseTierBody (cap cs 3) |})
        (match_all 3 tierRe body).

(** ** Request rule parser *)

(** The scanning loop of [splitTopLevelMultiply] and [splitTopLevelAnd]: cut at
    [sep] outside parentheses. [skip] counts the separator's remaining units. *)
Fixpoint split_top_go (sep : str) (skip : nat) (depth : Z) (cur s : str) : list str :=
  match s with
  | [] => [trim (rev cur)]
  | c :: s' =>
      match skip with
      | S k => split_top_go sep k depth cur s'
      | O =>
          let depth' := (if (c =? 40)%N then depth + 1 else if (c =? 41)%N then depth - 1 else depth)%Z in
          if (depth' =? 0)%Z && starts_with sep s
          then trim (rev cur) :: split_top_go sep (length sep - 1) depth' [] s'
          else split_top_go sep 0 depth' (c :: cur) s'
      end
  end.

Definition split_top (sep expr : str) : list str :=
  List.filter truthy (split_top_go sep 0 0 [] expr).

Definition splitTopLevelMultiply (expr : str) : list str := split_top (js " * ") expr.
Definition splitTopLevelAnd (expr : str) : list str := split_top (js " && ") expr.

(** The value a literal denotes; [None] is [null] (no literal, or the JSON [null]). *)
Definition parseExprLiteral (raw : str) : option json :=
  let text := trim raw in
  if bool_decide (text = js "true") || bool_decide (text = js "false") then Some (JStr text)
  else if is_numeric_literal text then Some (JStr text)
  else match json_parse text with Some JNull => None | r => r end.

Definition r_timefunc : regex := RGroup 1 (ralt (map rlit TIME_FUNCS)).
(** \(Q([^Q]+)Q\) with the quoted text as group [n] *)
Definition r_quoted (n : nat) : regex :=
  rseq [rlit (js "(" ++ dq); RGroup n (rplus (RChar not_quote)); rlit (dq ++ js ")")].

(** (hour|...)\(Q([^Q]+)Q\) >= ([\d.eE+-]+) \|\| \1\(Q\2Q\) < ([\d.eE+-]+) *)
Definition time_range_body : list regex :=
  [r_timefunc; r_quoted 2; rlit (js " >= "); RGroup 3 r_num; rlit (js " || ");
   RBackref 1; rlit (js "(" ++ dq); RBackref 2; rlit (dq ++ js ") < "); RGroup 4 r_num].

Definition TIME_RANGE_RE : regex := RSeq RBol (rseq (time_range_body ++ [REol])).
Definition TIME_RANGE_PAREN_RE : regex :=
  RSeq RBol (rseq ([rlit (js "(")] ++ time_range_body ++ [rlit (js ")"); REol])).
(** /^(hour|...)\(Q([^Q]+)Q\) (==|>=|<) ([\d.eE+-]+)$/ *)
Definition TIME_CMP_RE : regex :=
  RSeq RBol (rseq [r_timefunc; r_quoted 2; rlit (js " ");
                   RGroup 3 (ralt [rlit (js "=="); rlit (js ">="); rlit (js "<")]);
                   rlit (js " "); RGroup 4 r_num; REol]).

Definition time_range_of (cs : list (option str)) : RequestCondition :=
  CTime {| timeFunc := cap cs 1; timezone := cap cs 2; t_mode := MATCH_RANGE; t_value := [];
           rangeStart := cap cs 3; rangeEnd := cap cs 4 |}.

Definition time_op_mode (op : str) : str :=
  if bool_decide (op = js "==") then MATCH_EQ
  else if bool_decide (op = js ">=") then MATCH_GTE
  else if bool_decide (op = js "<") then MATCH_LT
  else MATCH_EQ.

Definition tryParseTimeCondition (expr : str) : option RequestCondition :=
  match match_re 4 TIME_RANGE_RE expr with
  | Some cs => Some (time_range_of cs)
  | None =>
  match match_re 4 TIME_RANGE_PAREN_RE expr with
  | Some cs => Some (time_range_of cs)
  | None =>
  match match_re 4 TIME_CMP_RE expr with
  | Some cs =>
      Some (CTime {| timeFunc := cap cs 1; timezone := cap cs 2; t_mode := time_op_mode (cap cs 3);
                     t_value := cap cs 4; rangeStart := []; rangeEnd := [] |})
  | None => None
  end end end.

(** Q(?:[^Q\\]|\\.)*Q *)
Definition r_json_string : regex :=
  rseq [rlit dq;
        rstar (RAlt (RChar (λ c, negb ((c =? 34) || (c =? 92))%N))
                    (RSeq (RChar (N.eqb 92)) (RChar not_newline)));
        rlit dq].

Definition HEADER_EXISTS_RE : regex :=
  RSeq RBol (rseq [rlit (js "header"); r_quoted 1; rlit (js " != " ++ dq ++ dq); REol]).
Definition PARAM_EXISTS_RE : regex :=
  RSeq RBol (rseq [rlit (js "param"); r_quoted 1; rlit (js " != nil"); REol]).
Definition HEADER_HAS_RE : regex :=
  RSeq RBol (rseq [rlit (js "has(header"); r_quoted 1; rlit (js ", "); RGroup 2 r_json_string;
                   rlit (js ")"); REol]).
Definition PARAM_HAS_RE : regex :=
  RSeq RBol (rseq [rlit (js "param"); r_quoted 1; rlit (js " != nil && has(param"); r_quoted 2;
                   rlit (js ", "); RGroup 3 r_json_string; rlit (js ")"); REol]).
Definition PARAM_CMP_RE : regex :=
  RSeq RBol (rseq [rlit (js "param"); r_quoted 1; rlit (js " != nil && param"); r_quoted 2; rlit (js " ");
                   RGroup 3 (ralt [rlit (js ">"); rlit (js ">="); rlit (js "<"); rlit (js "<=")]);
                   rlit (js " "); RGroup 4 r_num; REol]).
(** /^(param|header)\(Q([^Q]+)Q\) == (.+)$/ *)
Definition EQ_RE : regex :=
  RSeq RBol (rseq [RGroup 1 (ralt [rlit (js "param"); rlit (js "header")]); r_quoted 2; rlit (js " == ");
                   RGroup 3 (rplus (RChar not_newline)); REol]).

Definition ph (s : ph_source) (p mode value : str) : RequestCondition :=
  CParamHeader {| source := s; path := p; ph_mode := mode; ph_value := value |}.

Definition param_op_mode (op : str) : str :=
  if bool_decide (op = js ">") then MATCH_GT
  else if bool_decide (op = js ">=") then MATCH_GTE
  else if bool_decide (op = js "<") then MATCH_LT
  else MATCH_LTE.

(** [JSON.parse(m[n])] of a quoted text; it throws on an escape JSON does not know. *)
Definition json_parse_or_throw (s : str) : outcome str :=
  match json_parse s with Some v => Ret (json_to_string v) | None => Throw end.

(** The last pattern of [tryParseRequestCondition]: equality with a literal. *)
Definition tryParseEquality (expr : str) : outcome (option RequestCondition) :=
  match match_re 3 EQ_RE expr with
  | Some cs =>
      match parseExprLiteral (cap cs 3) with
      | None => Ret None
      | Some v =>
          Ret (Some (ph (if bool_decide (cap cs 1 = js "param") then Param else Header)
                        (cap cs 2) MATCH_EQ (json_to_string v)))
      end
  | None => Ret None
  end.

(** The numeric comparison pattern, then equality. *)
Definition tryParseComparison (expr : str) : outcome (option RequestCondition) :=
  match match_re 4 PARAM_CMP_RE expr with
  | Some cs =>
      if bool_decide (cap cs 1 = cap cs 2)
      then Ret (Some (ph Param (cap cs 1) (param_op_mode (cap cs 3)) (cap cs 4)))
      else tryParseEquality expr
  | None => tryParseEquality expr
  end.

Definition tryParseRequestCondition (expr : str) : outcome (option RequestCondition) :=
  match tryParseTimeCondition expr with
  | Some tc => Ret (Some tc)
  | None =>
  match match_re 1 HEADER_EXISTS_RE expr with
  | Some cs => Ret (Some (ph Header (cap cs 1) MATCH_EXISTS []))
  | None =>
  match match_re 1 PARAM_EXISTS_RE expr with
  | Some cs => Ret (Some (ph Param (cap cs 1) MATCH_EXISTS []))
  | None =>
  match match_re 2 HEADER_HAS_RE expr with
  | Some cs => v ← json_parse_or_throw (cap cs 2); Ret (Some (ph Header (cap cs 1) MATCH_CONTAINS v))
  | None =>
  match match_re 3 PARAM_HAS_RE expr with
  | Some cs =>
      if bool_decide (cap cs 1 = cap cs 2)
      then v ← json_parse_or_throw (cap cs 3); Ret (Some (ph Param (cap cs 1) MATCH_CONTAINS v))
      else tryParseComparison expr
  | None => tryParseComparison expr
  end end end end end.

(** /^\((.+) \? ([\d.eE+-]+) : 1\)$/s *)
Definition FACTOR_RE : regex :=
  RSeq RBol (rseq [rlit (js "("); RGroup 1 (rplus (RChar any_unit)); rlit (js " ? "); RGroup 2 r_num;
                   rlit (js " : 1)"); REol]).

(** The loop over the conjuncts: [None] as soon as one does not parse. *)
Fixpoint parse_conjuncts (parts : list str) : outcome (option (list RequestCondition)) :=
  match parts with
  | [] => Ret (Some [])
  | ap :: parts' =>
      c ← tryParseRequestCondition (trim ap);
      match c with
      | None => Ret None
      | Some cond =>
          rest ← parse_conjuncts parts';
          Ret (match rest with Some l => Some (cond :: l) | None => None end)
      end
  end.

Definition tryParseRuleGroupFactor (part : str) : outcome (option RequestRuleGroup) :=
  match match_re 2 FACTOR_RE part with
  | None => Ret None
  | Some cs =>
      conds ← parse_conjuncts (splitTopLevelAnd (cap cs 1));
      Ret (match conds with
           | None | Some [] => None
           | Some l => Some {| conditions := l; multiplier := cap cs 2 |}
           end)
  end.

Fixpoint parse_factors (parts : list str) : outcome (option (list RequestRuleGroup)) :=
  match parts with
  | [] => Ret (Some [])
  | part :: parts' =>
      g ← tryParseRuleGroupFactor part;
      match g with
      | None => Ret None
      | Some group =>
          rest ← parse_factors parts';
          Ret (match rest with Some l => Some (group :: l) | None => None end)
      end
  end.

Definition tryParseRequestRuleExpr (expr : str) : outcome (option (list RequestRuleGroup)) :=
  let trimmed := trim expr in
  if negb (truthy trimmed) then Ret (Some [])
  else parse_factors (splitTopLevelMultiply trimmed).

(** ** Combine and split a billing expression and its request rules *)

(** The loop of [hasFullOuterParens]: [Some d] is the final depth, [None] an
    early [return false]. *)
Fixpoint outer_parens_depth (depth : Z) (s : str) : option Z :=
  match s with
  | [] => Some depth
  | c :: s' =>
      let depth' := (if (c =? 40)%N then depth + 1 else if (c =? 41)%N then depth - 1 else depth)%Z in
      if (depth' =? 0)%Z && truthy s' then None else outer_parens_depth depth' s'
  end.

Definition hasFullOuterParens (expr : str) : bool :=
  starts_with (js "(") expr && ends_with (js ")") expr
  && bool_decide (outer_parens_depth 0 expr = Some 0%Z).

(** [s.slice(1, -1)] *)
Definition slice_inner (s : str) : str := removelast (tl s).

(** The [while] loop; each round shortens the text, so its length is enough fuel. *)
Fixpoint unwrap_go (fuel : nat) (current : str) : str :=
  match fuel with
  | O => current
  | S f => if hasFullOuterParens current then unwrap_go f (trim (slice_inner current)) else current
  end.

Definition unwrapOuterParens (expr : str) : str := unwrap_go (length expr) (trim expr).

Record SplitResult := { billingExpr : str; requestRuleExpr : str }.

(** [parts.forEach]: (ruleParts, baseParts). *)
Fixpoint partition_parts (parts : list str) : outcome (list str * list str) :=
  match parts with
  | [] => Ret ([], [])
  | part :: parts' =>
      parsed ← tryParseRequestRuleExpr part;
      rest ← partition_parts parts';
      Ret (match parsed with
           | Some (_ :: _) => (part :: fst rest, snd rest)
           | _ => (fst rest, part :: snd rest)
           end)
  end.

Definition splitBillingExprAndRequestRules (expr : str) : outcome SplitResult :=
  let trimmed := trim expr in
  if negb (truthy trimmed) then Ret {| billingExpr := []; requestRuleExpr := [] |}
  else
    let parts := splitTopLevelMultiply trimmed in
    if length parts <=? 1 then Ret {| billingExpr := trimmed; requestRuleExpr := [] |}
    else
      rb ← partition_parts parts;
      Ret (match rb with
           | (ruleParts, [base]) =>
               match ruleParts with
               | [] => {| billingExpr := trimmed; requestRuleExpr := [] |}
               | _ => {| billingExpr := unwrapOuterParens base;
                         requestRuleExpr := join (js " * ") ruleParts |}
               end
           | _ => {| billingExpr := trimmed; requestRuleExpr := [] |}
           end).

Definition combineBillingExpr (baseExpr requestRuleExpr : str) : str :=
  let base := trim baseExpr in
  let rules := trim requestRuleExpr in
  if negb (truthy base) then []
  else if negb (truthy rules) then base
  else js "(" ++ base ++ js ") * " ++ rules.

(** ** Editor: empty constructors, match options, normalisation *)

Definition createEmptyCondition : ParamHeaderCondition :=
  {| source := Param; path := []; ph_mode := MATCH_EQ; ph_value := [] |}.

Definition createEmptyTimeCondition : TimeCondition :=
  {| timeFunc := js "hour"; timezone := js "Asia/Shanghai"; t_mode := MATCH_GTE; t_value := [];
     rangeStart := []; rangeEnd := [] |}.

Definition createEmptyRuleGroup : RequestRuleGroup :=
  {| conditions := [CParamHeader createEmptyCondition]; multiplier := [] |}.

Definition createEmptyTimeRuleGroup : RequestRuleGroup :=
  {| conditions := [CTime createEmptyTimeCondition]; multiplier := [] |}.

Record MatchOption := { mo_value : str; labelKey : str }.

Definition getRequestRuleMatchOptions (source : str) : list MatchOption :=
  if bool_decide (source = SOURCE_TIME) then
    [ {| mo_value := MATCH_EQ; labelKey := js "Equals" |};
      {| mo_value := MATCH_GTE; labelKey := js "Greater than or equal" |};
      {| mo_value := MATCH_LT; labelKey := js "Less than" |};
      {| mo_value := MATCH_RANGE; labelKey := js "Overnight range" |} ]
  else
    let base :=
      [ {| mo_value := MATCH_EQ; labelKey := js "Equals" |};
        {| mo_value := MATCH_CONTAINS; labelKey := js "Contains" |};
        {| mo_value := MATCH_EXISTS; labelKey := js "Exists" |} ] in
    if bool_decide (source = SOURCE_HEADER) then base
    else base ++
      [ {| mo_value := MATCH_GT; labelKey := js "Greater than" |};
        {| mo_value := MATCH_GTE; labelKey := js "Greater than or equal" |};
        {| mo_value := MATCH_LT; labelKey := js "Less than" |};
        {| mo_value := MATCH_LTE; labelKey := js "Less than or equal" |} ].

Definition isTimeFunc (value : str) : bool := bool_decide (value ∈ TIME_FUNCS).

Definition option_has (source mode : str) : bool :=
  existsb (λ item, bool_decide (mo_value item = mode)) (getRequestRuleMatchOptions source).

(** [Partial<RequestCondition>]: any field may be missing ([null] or
    [undefined]); [pc_source] and [pc_mode] are the raw strings. *)
Record PartialCondition := {
  pc_source : option str; pc_mode : option str; pc_value : option str;
  pc_path : option str;
  pc_timeFunc : option str; pc_timezone : option str;
  pc_rangeStart : option str; pc_rangeEnd : option str }.

(** The mode when the source offers it, else the fallback. *)
Definition mode_or (source : str) (mode : option str) (fallback : str) : str :=
  match mode with
  | Some md => if option_has source md then md else fallback
  | None => fallback
  end.

(** [s || fallback] *)
Definition or_default (s : option str) (fallback : str) : str :=
  match s with Some t => if truthy t then t else fallback | None => fallback end.

Definition normalizeCondition (cond : option PartialCondition) : RequestCondition :=
  let get {A} (f : PartialCondition → option A) : option A := c ← cond; f c in
  if bool_decide (get pc_source = Some SOURCE_TIME) then
    CTime {| timeFunc := match get pc_timeFunc with
                         | Some f => if isTimeFunc f then f else js "hour"
                         | None => js "hour"
                         end;
             timezone := or_default (get pc_timezone) (js "Asia/Shanghai");
             t_mode := mode_or SOURCE_TIME (get pc_mode) MATCH_GTE;
             t_value := default [] (get pc_value);
             rangeStart := default [] (get pc_rangeStart);
             rangeEnd := default [] (get pc_rangeEnd) |}
  else
    let src := if bool_decide (get pc_source = Some SOURCE_HEADER) then Header else Param in
    let src_name := match src with Header => SOURCE_HEADER | Param => SOURCE_PARAM end in
    CParamHeader {| source := src;
                    path := or_default (get pc_path) [];
                    ph_mode := mode_or src_name (get pc_mode) MATCH_EQ;
                    ph_value := default [] (get pc_value) |}.

(** A complete condition seen as a partial one. *)
Definition partial_of (cond : RequestCondition) : PartialCondition :=
  match cond with
  | CTime c =>
      {| pc_source := Some SOURCE_TIME; pc_mode := Some (t_mode c); pc_value := Some (t_value c);
         pc_path := None; pc_timeFunc := Some (timeFunc c); pc_timezone := Some (timezone c);
         pc_rangeStart := Some (rangeStart c); pc_rangeEnd := Some (rangeEnd c) |}
  | CParamHeader c =>
      {| pc_source := Some (match source c with Param => SOURCE_PARAM | Header => SOURCE_HEADER end);
         pc_mode := Some (ph_mode c); pc_value := Some (ph_value c); pc_path := Some (path c);
         pc_timeFunc := None; pc_timezone := None; pc_rangeStart := None; pc_rangeEnd := None |}
  end.

(** ** Editor: build expression strings *)

Definition buildExprLiteral (mode value : str) : str :=
  let text := trim value in
  if bool_decide (mode = MATCH_CONTAINS) then json_quote text
  else if bool_decide (text = js "true") || bool_decide (text = js "false") then text
  else if is_numeric_literal text then text
  else json_quote text.

Definition time_mode_op (mode : str) : str :=
  if bool_decide (mode = MATCH_EQ) then js "=="
  else if bool_decide (mode = MATCH_GTE) then js ">="
  else if bool_decide (mode = MATCH_LT) then js "<"
  else js "==".

Definition buildTimeConditionExpr (cond : TimeCondition) : str :=
  match normalizeCondition (Some (partial_of (CTime cond))) with
  | CTime n =>
      let fn := timeFunc n ++ js "(" ++ json_quote (timezone n) ++ js ")" in
      if bool_decide (t_mode n = MATCH_RANGE) then
        let s := trim (rangeStart n) in
        let e := trim (rangeEnd n) in
        if negb (is_numeric_literal s) || negb (is_numeric_literal e) then []
        else fn ++ js " >= " ++ s ++ js " || " ++ fn ++ js " < " ++ e
      else
        let v := trim (t_value n) in
        if negb (is_numeric_literal v) then []
        else fn ++ js " " ++ time_mode_op (t_mode n) ++ js " " ++ v
  | CParamHeader _ => []
  end.

Definition param_mode_op (mode : str) : str :=
  if bool_decide (mode = MATCH_GT) then js ">"
  else if bool_decide (mode = MATCH_GTE) then js ">="
  else if bool_decide (mode = MATCH_LT) then js "<"
  else js "<=".

Definition buildRequestConditionExpr (cond : RequestCondition) : str :=
  match cond with
  | CTime c => buildTimeConditionExpr c
  | CParamHeader c =>
      match normalizeCondition (Some (partial_of (CParamHeader c))) with
      | CTime _ => []
      | CParamHeader n =>
          let p := trim (path n) in
          if negb (truthy p) then []
          else
            let sourceExpr := match source n with
                              | Header => js "header(" ++ json_quote p ++ js ")"
                              | Param => js "param(" ++ json_quote p ++ js ")"
                              end in
            if bool_decide (ph_mode n = MATCH_EXISTS) then
              match source n with
              | Header => sourceExpr ++ js " != " ++ dq ++ dq
              | Param => sourceExpr ++ js " != nil"
              end
            else if bool_decide (ph_mode n = MATCH_CONTAINS) then
              let lit := buildExprLiteral (ph_mode n) (ph_value n) in
              match source n with
              | Header => js "has(" ++ sourceExpr ++ js ", " ++ lit ++ js ")"
              | Param => sourceExpr ++ js " != nil && has(" ++ sourceExpr ++ js ", " ++ lit ++ js ")"
              end
            else if bool_decide (ph_mode n ∈ [MATCH_GT; MATCH_GTE; MATCH_LT; MATCH_LTE]) then
              let numText := trim (ph_value n) in
              if negb (is_numeric_literal numText) then []
              else sourceExpr ++ js " != nil && " ++ sourceExpr ++ js " " ++ param_mode_op (ph_mode n)
                     ++ js " " ++ numText
            else sourceExpr ++ js " == " ++ buildExprLiteral (ph_mode n) (ph_value n)
      end
  end.

Definition buildRuleGroupFactor (group : RequestRuleGroup) : str :=
  let mult := trim (multiplier group) in
  if negb (is_numeric_literal mult) then []
  else
    let condExprs := List.filter truthy (map buildRequestConditionExpr (conditions group)) in
    match condExprs with
    | [] => []
    | _ =>
        let combined := match condExprs with
                        | [e] => e
                        | _ => join (js " && ")
                                 (map (λ e, if includes (js " || ") e then js "(" ++ e ++ js ")" else e) condExprs)
                        end in
        js "(" ++ combined ++ js " ? " ++ mult ++ js " : 1)"
    end.

Definition buildRequestRuleExpr (groups : list RequestRuleGroup) : str :=
  join (js " * ") (List.filter truthy (map buildRuleGroupFactor groups)).
