(* ===== verification/BillingText.v ===== *)
(** * Texts the billing-expression scanners do not cut

    Facts about the scanning loops of [billing-expr.ts] that do not depend on
    what a condition looks like: parenthesis depth and balance, the positions at
    which [splitTopLevelMultiply] and [splitTopLevelAnd] may cut, splitting a
    joined list back into its parts, and the loop of [unwrapOuterParens]. *)

From S2P Require Import Prelude JsString Json Regex BillingExpr.

(** ** Substrings and barriers *)

(** An occurrence of [p] cannot cross a character that [p] does not have. *)
Lemma starts_with_barrier p q a b :
  q ∉ p → starts_with p (a ++ q :: b) = starts_with p a.
Proof.
  revert a. induction p as [|c p IH]; intros a Hq; [by destruct a|].
  apply not_elem_of_cons in Hq as [Hc Hq]. destruct a as [|d a]; simpl.
  - by rewrite (proj2 (N.eqb_neq c q)).
  - by rewrite IH.
Qed.

Lemma includes_barrier p q a b :
  q ∉ p → p ≠ [] → includes p (a ++ q :: b) = includes p a || includes p b.
Proof.
  intros Hq Hp. induction a as [|c a IH].
  - pose proof (starts_with_barrier p q [] b Hq) as H. simpl in *. rewrite H.
    by destruct p.
  - cbn [app includes]. rewrite IH.
    change (c :: a ++ q :: b) with ((c :: a) ++ q :: b). rewrite starts_with_barrier by done.
    by rewrite orb_assoc.
Qed.

Lemma includes_head c p s : c ∉ s → includes (c :: p) s = false.
Proof.
  induction s as [|d s IH]; [done|]. rewrite not_elem_of_cons. intros [Hd Hs].
  cbn [includes starts_with]. by rewrite (proj2 (N.eqb_neq c d)), IH.
Qed.

Lemma includes_middle p u t : includes p (u ++ p ++ t) = true.
Proof. apply includes_spec. by exists u, t. Qed.

(** ** Parenthesis depth *)

Definition pstep (d : Z) (c : N) : Z :=
  (if (c =? 40)%N then d + 1 else if (c =? 41)%N then d - 1 else d)%Z.

Definition net (s : str) : Z := fold_left pstep s 0%Z.

(** From depth [d], the depth never falls below zero. *)
Fixpoint depth_ok (d : Z) (s : str) : bool :=
  match s with
  | [] => true
  | c :: s' => (0 <=? pstep d c)%Z && depth_ok (pstep d c) s'
  end.

Definition balanced (s : str) : bool := depth_ok 0 s && (net s =? 0)%Z.

Definition no_paren (c : N) : bool := negb ((c =? 40) || (c =? 41))%N.

Lemma pstep_add d c : pstep d c = (d + pstep 0 c)%Z.
Proof. unfold pstep. repeat case_match; lia. Qed.

Lemma fold_pstep d s : fold_left pstep s d = (d + net s)%Z.
Proof.
  unfold net. revert d. induction s as [|c s IH]; intros d; simpl; [lia|].
  rewrite IH, (IH (pstep 0 c)), (pstep_add d). lia.
Qed.

Lemma net_cons c s : net (c :: s) = (pstep 0 c + net s)%Z.
Proof. unfold net at 1. simpl. apply fold_pstep. Qed.

Lemma net_app a b : net (a ++ b) = (net a + net b)%Z.
Proof. unfold net at 1. rewrite fold_left_app. apply fold_pstep. Qed.

Lemma depth_ok_app d a b : depth_ok d (a ++ b) = depth_ok d a && depth_ok (d + net a) b.
Proof.
  revert d. induction a as [|c a IH]; intros d; simpl; [by rewrite Z.add_0_r|].
  rewrite IH, andb_assoc, net_cons, (pstep_add d). do 2 f_equal. lia.
Qed.

Lemma depth_ok_mono d e s : (d ≤ e)%Z → depth_ok d s = true → depth_ok e s = true.
Proof.
  revert d e. induction s as [|c s IH]; intros d e Hle; [done|]. simpl.
  rewrite !andb_true_iff, !Z.leb_le, (pstep_add d), (pstep_add e). intros [H1 H2].
  split; [lia|]. apply (IH (d + pstep 0 c)%Z); [lia|done].
Qed.

Lemma balanced_spec s : balanced s = true ↔ depth_ok 0 s = true ∧ net s = 0%Z.
Proof. unfold balanced. by rewrite andb_true_iff, Z.eqb_eq. Qed.

Lemma balanced_app a b : balanced a = true → balanced b = true → balanced (a ++ b) = true.
Proof.
  rewrite !balanced_spec, depth_ok_app, net_app. intros [Ha Na] [Hb Nb].
  rewrite Ha, Na, Nb. by rewrite Z.add_0_r, Hb.
Qed.

Lemma balanced_no_paren s : Forall (λ c, no_paren c = true) s → balanced s = true.
Proof.
  intros H. apply balanced_spec. induction H as [|c s Hc Hs [IH1 IH2]]; [done|].
  assert (E : pstep 0 c = 0%Z).
  { unfold no_paren in Hc. unfold pstep. by destruct (c =? 40)%N, (c =? 41)%N. }
  rewrite net_cons. simpl. by rewrite E, IH1, IH2.
Qed.

Lemma balanced_group s : balanced s = true → balanced (40%N :: s ++ [41%N]) = true.
Proof.
  rewrite !balanced_spec. intros [H N]. split.
  - simpl. rewrite depth_ok_app, (depth_ok_mono 0 1), N by (done || lia). done.
  - rewrite net_cons, net_app, N. done.
Qed.

Lemma balanced_cons c s : no_paren c = true → balanced s = true → balanced (c :: s) = true.
Proof. intros Hc Hs. change (c :: s) with ([c] ++ s). apply balanced_app; [apply balanced_no_paren; by constructor|done]. Qed.

#[export] Hint Resolve balanced_app balanced_cons balanced_group balanced_no_paren : js.

(** ** Cut-free text *)

(** Scanning [e] from depth [d] with [t] behind it meets no cut at [sep]. *)
Fixpoint clean (sep : str) (d : Z) (e t : str) : Prop :=
  match e with
  | [] => True
  | c :: e' => (pstep d c = 0%Z → starts_with sep (c :: e' ++ t) = false) ∧ clean sep (pstep d c) e' t
  end.

Lemma clean_app sep d a b t :
  clean sep d (a ++ b) t ↔ clean sep d a (b ++ t) ∧ clean sep (d + net a) b t.
Proof.
  revert d. induction a as [|c a IH]; intros d; simpl.
  - rewrite Z.add_0_r. tauto.
  - rewrite IH, <- app_assoc, net_cons, (pstep_add d).
    replace (d + pstep 0 c + net a)%Z with (d + (pstep 0 c + net a))%Z by lia. tauto.
Qed.

Lemma clean_deep sep d e t : (0 < d)%Z → depth_ok 0 e = true → clean sep d e t.
Proof.
  intros Hd H.
  assert (G : ∀ d0, (d0 < d)%Z → depth_ok d0 e = true → clean sep d e t); [|by apply (G 0%Z)].
  clear H Hd. revert d. induction e as [|c e IH]; intros d d0 Hlt H; [done|].
  simpl in *. apply andb_true_iff in H as [H1 H2]. rewrite Z.leb_le in H1.
  rewrite (pstep_add d0) in H1, H2. rewrite (pstep_add d). split; [lia|].
  apply (IH _ (d0 + pstep 0 c)%Z); [lia|done].
Qed.

Lemma clean_group sep d e t :
  hd_error sep = Some 32%N → (0 ≤ d)%Z → balanced e = true →
  clean sep d (40%N :: e ++ [41%N]) t.
Proof.
  intros Hs Hd [H N]%balanced_spec. destruct sep as [|c0 sep]; simplify_eq/=.
  split; [by unfold pstep; simpl; lia|]. apply clean_app. split.
  - apply clean_deep; [unfold pstep; simpl; lia|done].
  - done.
Qed.

Lemma clean_no_space sep d e t :
  hd_error sep = Some 32%N → 32%N ∉ e → clean sep d e t.
Proof.
  intros Hs. destruct sep as [|c0 sep]; simplify_eq/=. revert d.
  induction e as [|c e IH]; intros d; [done|]. rewrite not_elem_of_cons. intros [Hc He].
  cbn [clean starts_with]. split; [|by apply IH]. intros _. by rewrite (proj2 (N.eqb_neq 32 c)).
Qed.

Lemma clean_text sep d w q t :
  q ∉ sep → includes sep w = false → clean sep d w (q :: t).
Proof.
  intros Hq. revert d. induction w as [|c w IH]; intros d; [done|].
  cbn [includes clean]. rewrite orb_false_iff. intros [H1 H2]. split; [|by apply IH].
  intros _. change (c :: w ++ q :: t) with ((c :: w) ++ q :: t). by rewrite starts_with_barrier.
Qed.

(** ** Splitting *)

Lemma split_top_clean sep d cur e t :
  clean sep d e t →
  split_top_go sep 0 d cur (e ++ t) = split_top_go sep 0 (d + net e) (rev e ++ cur) t.
Proof.
  revert d cur. induction e as [|c e IH]; intros d cur; [by rewrite Z.add_0_r|].
  cbn [clean]. intros [H1 H2]. cbn [app split_top_go]. cbv zeta. fold (pstep d c).
  replace ((pstep d c =? 0)%Z && starts_with sep (c :: e ++ t)) with false.
  - rewrite IH by done. rewrite net_cons, (pstep_add d), Z.add_assoc. simpl. by rewrite <- app_assoc.
  - symmetry. apply andb_false_iff. destruct (Z.eqb_spec (pstep d c) 0); [right; auto|by left].
Qed.

Lemma split_top_skip sep d cur w t :
  split_top_go sep (length w) d cur (w ++ t) = split_top_go sep 0 d cur t.
Proof. induction w as [|c w IH]; [done|]. done. Qed.

Lemma split_top_cut sep d cur t :
  hd_error sep = Some 32%N → d = 0%Z →
  split_top_go sep 0 d cur (sep ++ t) = trim (rev cur) :: split_top_go sep 0 0 [] t.
Proof.
  intros Hs ->. destruct sep as [|c sep]; simplify_eq/=.
  rewrite starts_with_app, Nat.sub_0_r. simpl. by rewrite split_top_skip.
Qed.

(** A part: trimmed, non-empty, closed, and not cut whatever follows. *)
Definition part_ok (sep e : str) : Prop :=
  trimmed e ∧ e ≠ [] ∧ net e = 0%Z ∧ ∀ t, clean sep 0 e t.

Lemma split_top_go_join sep es :
  hd_error sep = Some 32%N → es ≠ [] → Forall (part_ok sep) es →
  split_top_go sep 0 0 [] (join sep es) = es.
Proof.
  intros Hs Hne H. induction H as [|e es (Ht & He & Hn & Hc) Hes IH]; [done|].
  destruct es as [|e' es].
  - simpl. rewrite <- (app_nil_r e) at 1. rewrite split_top_clean by done. simpl.
    rewrite app_nil_r, rev_involutive. f_equal. by apply trim_id.
  - rewrite join_cons by done. rewrite split_top_clean by done.
    rewrite split_top_cut by (done || lia). rewrite app_nil_r, rev_involutive, IH by done.
    f_equal. by apply trim_id.
Qed.

(** Splitting the joined parts gives them back. *)
Lemma split_top_join sep es :
  hd_error sep = Some 32%N → es ≠ [] → Forall (part_ok sep) es →
  split_top sep (join sep es) = es.
Proof.
  intros Hs Hne H. unfold split_top. rewrite split_top_go_join by done. apply bfilter_id.
  intros x Hx. rewrite Forall_forall in H. destruct (H x Hx) as (_ & Hx' & _). by destruct x.
Qed.

Lemma join_trimmed sep es :
  es ≠ [] → Forall (λ e, trimmed e ∧ e ≠ []) es → trimmed (join sep es) ∧ join sep es ≠ [].
Proof.
  intros Hne H. induction H as [|e es [Ht He] Hes IH]; [done|].
  destruct es as [|e' es]; [done|]. destruct (IH ltac:(done)) as [IH1 IH2].
  rewrite join_cons by done. split; [|by destruct e].
  destruct Ht as [Ht1 Ht2], IH1 as [IH1 IH1']. split.
  - by apply head_ok_app_nonempty.
  - rewrite !rev_app_distr, <- app_assoc. apply head_ok_app_nonempty; [|done].
    intros E. apply IH2. by apply (f_equal (rev (A:=N))) in E; rewrite rev_involutive in E.
Qed.

(** ** [unwrapOuterParens] *)

Lemma trim_length s : length (trim s) ≤ length s.
Proof.
  destruct (trim_decompose s) as (p & q & E & _). rewrite E at 2. rewrite !length_app. lia.
Qed.

Lemma slice_inner_length s : s ≠ [] → length (slice_inner s) < length s.
Proof.
  intros Hs. unfold slice_inner. destruct s as [|c s]; [done|]. simpl.
  destruct s as [|d s]; [simpl; lia|].
  pose proof (f_equal length (app_removelast_last 0%N (l := d :: s) ltac:(done))) as H.
  rewrite length_app in H. simpl in *. lia.
Qed.

Lemma unwrap_go_spec fuel s :
  length s ≤ fuel → trimmed s →
  hasFullOuterParens (unwrap_go fuel s) = false ∧ trimmed (unwrap_go fuel s).
Proof.
  revert s. induction fuel as [|f IH]; intros s Hl Ht; simpl.
  - destruct s; [done|simpl in Hl; lia].
  - destruct (hasFullOuterParens s) eqn:E; [|done]. apply IH; [|apply trim_trimmed].
    assert (s ≠ []) as Hne by (by intros ->).
    pose proof (slice_inner_length s Hne). pose proof (trim_length (slice_inner s)). lia.
Qed.

Lemma unwrap_go_fuel f1 f2 s :
  length s ≤ f1 → length s ≤ f2 → unwrap_go f1 s = unwrap_go f2 s.
Proof.
  revert f2 s. induction f1 as [|f1 IH]; intros f2 s H1 H2.
  - destruct s; [by destruct f2|simpl in H1; lia].
  - destruct f2 as [|f2]; [destruct s; [done|simpl in H2; lia]|]. simpl.
    destruct (hasFullOuterParens s) eqn:E; [|done].
    assert (s ≠ []) as Hne by (by intros ->).
    pose proof (slice_inner_length s Hne). pose proof (trim_length (slice_inner s)).
    apply IH; lia.
Qed.

Lemma outer_parens_inner d s :
  (0 < d)%Z → depth_ok 0 s = true → outer_parens_depth d (s ++ [41%N]) = Some (d + net s - 1)%Z.
Proof.
  intros Hd Hs.
  assert (G : ∀ d0, (d0 < d)%Z → depth_ok d0 s = true →
    outer_parens_depth d (s ++ [41%N]) = Some (d + net s - 1)%Z); [|by apply (G 0%Z)].
  clear Hd Hs. revert d. induction s as [|c s IH]; intros d d0 Hlt Hok.
  - simpl. rewrite Z.add_0_r, andb_false_r. done.
  - cbn [app outer_parens_depth]. cbv zeta. fold (pstep d c). simpl in Hok.
    apply andb_true_iff in Hok as [H1 H2]. rewrite Z.leb_le in H1.
    rewrite (pstep_add d0) in H1, H2. rewrite net_cons.
    replace (truthy (s ++ [41%N])) with true by (by destruct s).
    rewrite andb_true_r. destruct (Z.eqb_spec (pstep d c) 0) as [E|_].
    + rewrite (pstep_add d) in E. lia.
    + rewrite (IH _ (d0 + pstep 0 c)%Z); [f_equal; rewrite (pstep_add d); lia|rewrite (pstep_add d); lia|done].
Qed.

Lemma hasFullOuterParens_group s : balanced s = true → hasFullOuterParens (40%N :: s ++ [41%N]) = true.
Proof.
  intros [H N]%balanced_spec. unfold hasFullOuterParens. rewrite !andb_true_iff. split_and!.
  - done.
  - unfold ends_with. change (40%N :: s ++ [41%N]) with ((40%N :: s) ++ [41%N]). by rewrite rev_app_distr.
  - apply bool_decide_eq_true. cbn [outer_parens_depth]. cbv zeta. change (if (40 =? 40)%N then (0 + 1)%Z else _) with 1%Z.
    change ((1 =? 0)%Z) with false. cbn [andb].
    rewrite outer_parens_inner by (done || lia). f_equal. lia.
Qed.

(** A pair of parentheses around a balanced text is removed. *)
Lemma unwrap_group s :
  balanced s = true → unwrapOuterParens (40%N :: s ++ [41%N]) = unwrapOuterParens s.
Proof.
  intros Hs. unfold unwrapOuterParens. rewrite (trim_id (_ :: _)).
  - cbn [length unwrap_go]. rewrite hasFullOuterParens_group by done.
    unfold slice_inner. cbn [tl]. rewrite removelast_last. apply unwrap_go_fuel.
    + rewrite length_app. pose proof (trim_length s). simpl. lia.
    + apply trim_length.
  - split; [done|]. change (40%N :: s ++ [41%N]) with ((40%N :: s) ++ [41%N]). by rewrite rev_app_distr.
Qed.
