(* ===== verification/BillingRuleFacts.v ===== *)
(** * Request rules: what the builder writes, the parser reads back

    Matching facts for the regular expressions of [tryParseRequestCondition] on
    the texts [buildRequestConditionExpr] produces, and the round trips of
    [billing-expr.ts]: rule groups through [buildRequestRuleExpr] and
    [tryParseRequestRuleExpr], a billing expression through
    [combineBillingExpr] and [splitBillingExprAndRequestRules]. *)

From S2P Require Import Prelude JsString JsNumber Json Regex BillingExpr BillingText.

(** ** Numeric literals *)

Lemma numeric_literal_chars s :
  is_numeric_literal s = true → s ≠ [] ∧ Forall (λ c, num_class c = true) s.
Proof.
  intros H. split; [by intros ->|]. revert H.
  unfold is_numeric_literal, test_re, NUMERIC_LITERAL_REGEX. rewrite exec_from_bol.
  unfold match_at. rewrite m_group.
  match goal with |- context [rseq [?a; ?b; ?c; REol]] =>
    change (rseq [a; b; c; REol]) with (rseq ([a; b; c] ++ [REol])); set (l := [a; b; c]) end.
  destruct (m _ _ _) as [y|] eqn:E; [|done]. intros _.
  apply (m_rseq_eol (λ c, num_class c = true)) in E; [done|].
  assert (∀ c, is_digit c = true → num_class c = true) as Hd
    by (intros c Hc; unfold num_class; by rewrite Hc).
  assert (∀ d c, (d =? c)%N = true → num_class d = true → num_class c = true) as Heq
    by (intros d c Hdc Hcl; apply N.eqb_eq in Hdc; by subst).
  assert (∀ c d, (c =? 101) || (c =? 69) = d → d = true → num_class c = true)%N as He
    by (intros c d <- [H|H]%orb_true_iff; apply N.eqb_eq in H; by subst).
  assert (∀ c d, (c =? 43) || (c =? 45) = d → d = true → num_class c = true)%N as Hs
    by (intros c d <- [H|H]%orb_true_iff; apply N.eqb_eq in H; by subst).
  unfold l. apply Forall_cons; split; [|apply Forall_cons; split; [|apply Forall_singleton]];
    change (js "-") with [45%N]; change (js ".") with [46%N];
    cbn [over rseq rlit rplus rstar c_digit]; split_and?; unfold c_digit; simpl over; eauto;
    intros c Hc; by eapply Heq.
Qed.

Lemma num_class_plain c :
  num_class c = true → is_space c = false ∧ c ≠ 34%N ∧ no_paren c = true ∧ c ≠ 63%N ∧ c ≠ 32%N.
Proof.
  unfold num_class. rewrite !orb_true_iff, is_digit_spec, !N.eqb_eq. intros H.
  assert (c ∈ [43;45;46;48;49;50;51;52;53;54;55;56;57;69;101])%N as Hin.
  { rewrite !elem_of_cons, elem_of_nil. lia. }
  clear H. revert c Hin. apply Forall_forall. repeat constructor; vm_compute; try done; by split_and!.
Qed.

Lemma numeric_trimmed s : is_numeric_literal s = true → trimmed s.
Proof.
  intros [_ H]%numeric_literal_chars. apply trimmed_no_space.
  eapply Forall_impl; [exact H|]. intros c Hc. by apply num_class_plain in Hc as [? _].
Qed.

Lemma numeric_trim s : is_numeric_literal s = true → trim s = s.
Proof. intros H. by apply trim_id, numeric_trimmed. Qed.

Lemma numeric_not_in c s : is_numeric_literal s = true → num_class c = false → c ∉ s.
Proof.
  intros [_ H]%numeric_literal_chars Hc Hin. rewrite Forall_forall in H. by rewrite (H c Hin) in Hc.
Qed.

Lemma numeric_balanced s : is_numeric_literal s = true → balanced s = true.
Proof.
  intros [_ H]%numeric_literal_chars. apply balanced_no_paren. eapply Forall_impl; [exact H|].
  intros c Hc. by apply num_class_plain in Hc as (_ & _ & ? & _).
Qed.

(** ** Texts *)

(** Characters [JSON.stringify] copies and the scanners do not look at. *)
Definition plain_char (c : N) : bool :=
  ((32 <=? c) && (c <? 65536) && not_quote c && negb (c =? 92) && no_paren c
   && negb (is_high c) && negb (is_low c) && not_newline c)%N.

Definition plain (s : str) : bool := forallb plain_char s && negb (includes (js " || ") s).

Lemma plain_char_spec c :
  plain_char c = true →
  (32 ≤ c < 65536)%N ∧ not_quote c = true ∧ c ≠ 92%N ∧ no_paren c = true ∧ is_high c = false
  ∧ is_low c = false ∧ not_newline c = true.
Proof.
  unfold plain_char. rewrite !andb_true_iff, !negb_true_iff, N.leb_le, N.ltb_lt, N.eqb_neq. tauto.
Qed.

Lemma quote_unit_plain c : plain_char c = true → quote_unit c = [c].
Proof.
  intros (Hr & Hq & H92 & _)%plain_char_spec. unfold not_quote in Hq. apply negb_true_iff in Hq.
  unfold quote_unit. rewrite Hq.
  repeat (rewrite (proj2 (N.eqb_neq c _)) by lia). by rewrite (proj2 (N.ltb_ge c 32)) by lia.
Qed.

Lemma quote_body_plain s : forallb plain_char s = true → quote_body s = s.
Proof.
  induction s as [|c s IH]; [done|]. cbn [forallb]. rewrite andb_true_iff. intros [Hc Hs].
  pose proof (plain_char_spec c Hc) as (_ & _ & _ & _ & Hh & Hl & _).
  cbn [quote_body]. rewrite Hh, Hl, quote_unit_plain by done. by rewrite IH.
Qed.

Lemma json_quote_plain s : forallb plain_char s = true → json_quote s = dq ++ s ++ dq.
Proof. intros Hs. unfold json_quote. by rewrite quote_body_plain. Qed.

Lemma plain_forall (P : N → Prop) s :
  (∀ c, plain_char c = true → P c) → forallb plain_char s = true → Forall P s.
Proof.
  intros HP Hs. apply Forall_forall. intros c Hc. apply HP.
  rewrite forallb_forall in Hs. apply Hs. by apply list_elem_of_In.
Qed.

Lemma plain_no_quote s : forallb plain_char s = true → Forall (λ c, not_quote c = true) s.
Proof. apply plain_forall. intros c (_ & ? & _)%plain_char_spec. done. Qed.

Lemma plain_no_paren s : forallb plain_char s = true → Forall (λ c, no_paren c = true) s.
Proof. apply plain_forall. intros c (_ & _ & _ & ? & _)%plain_char_spec. done. Qed.

Lemma plain_no_newline s : forallb plain_char s = true → Forall (λ c, not_newline c = true) s.
Proof. apply plain_forall. intros c (_ & _ & _ & _ & _ & _ & ?)%plain_char_spec. done. Qed.

Lemma plain_units s : forallb plain_char s = true → units s.
Proof. apply plain_forall. intros c (? & _)%plain_char_spec. unfold code_unit. lia. Qed.

(** ** Matching the pieces of a condition *)

(** [(Q w Q)] *)
Definition qt (w : str) : str := (js "(" ++ dq) ++ w ++ dq ++ js ")".

Definition quotable (w : str) : Prop := w ≠ [] ∧ Forall (λ c, not_quote c = true) w.

Lemma m_quoted n k bef w t cs :
  quotable w →
  m (r_quoted n) k (mk bef (qt w ++ t) cs) = k (mk (rev (qt w) ++ bef) t (<[n := Some w]> cs)).
Proof.
  intros [Hne Hw]. unfold r_quoted, qt. cbn [rseq]. rewrite !m_seq, <- !app_assoc.
  rewrite (app_assoc (js "(") dq), m_lit.
  rewrite m_group_plus_det; [|done|done|done|].
  - rewrite (app_assoc dq (js ")")), m_lit. f_equal. f_equal.
    rewrite !rev_app_distr, <- !app_assoc. done.
  - intros bef' c s cs' Hc. apply m_lit_head_fail. unfold not_quote in Hc.
    apply negb_true_iff, N.eqb_neq in Hc. congruence.
Qed.

Lemma m_timefunc k bef f t cs :
  f ∈ TIME_FUNCS →
  m r_timefunc k (mk bef (f ++ 40%N :: t) cs)
  = k (mk (rev f ++ bef) (40%N :: t) (<[1 := Some f]> cs)).
Proof.
  intros Hf. unfold r_timefunc. rewrite m_group.
  set (k' := λ y, k _).
  assert (m (ralt (map rlit TIME_FUNCS)) k' (mk bef (f ++ 40%N :: t) cs)
          = k' (mk (rev f ++ bef) (40%N :: t) cs)) as ->.
  { clearbody k'. revert f Hf. apply Forall_forall. unfold TIME_FUNCS.
    repeat apply Forall_cons_2; [vm_compute; by destruct (k' _)..|done]. }
  unfold k'. cbn [before after caps]. by rewrite take_consumed.
Qed.

(** A numeral and what follows it. *)
Lemma m_num_commit n k bef v t cs y :
  is_numeric_literal v = true →
  match t with [] => True | c :: _ => num_class c = false end →
  k (mk (rev v ++ bef) t (<[n := Some v]> cs)) = Some y →
  m (RGroup n r_num) k (mk bef (v ++ t) cs) = Some y.
Proof.
  intros [Hne Hv]%numeric_literal_chars Ht Hk. by apply m_group_plus_commit.
Qed.

(** A numeral before a character outside its class. *)
Lemma m_num_det n k bef v t cs :
  is_numeric_literal v = true →
  match t with [] => True | c :: _ => num_class c = false end →
  (∀ bef' d s cs', num_class d = true → k (mk bef' (d :: s) cs') = None) →
  m (RGroup n r_num) k (mk bef (v ++ t) cs) = k (mk (rev v ++ bef) t (<[n := Some v]> cs)).
Proof. intros [Hne Hv]%numeric_literal_chars Hc Hk. by apply m_group_plus_det. Qed.

Lemma lit_space_refuses_num s k bef d t cs :
  num_class d = true → m (rlit (32%N :: s)) k (mk bef (d :: t) cs) = None.
Proof.
  intros Hd. apply m_lit_head_fail. apply num_class_plain in Hd as (_ & _ & _ & _ & ?). congruence.
Qed.

(** The iteration [(?:p|r)*] over characters of [p]. *)
Lemma star_alt_commit p r k w d t cs y :
  groups r = [] → p d = false → (∀ k bef cs, m r k (mk bef (d :: t) cs) = None) →
  Forall (λ c, p c = true) w → ∀ bef,
  k (mk (rev w ++ bef) (d :: t) cs) = Some y →
  m (rstar (RAlt (RChar p) r)) k (mk bef (w ++ d :: t) cs) = Some y.
Proof.
  intros Hg Hd Hr Hw bef Hk.
  assert (H : ∀ f bef, length w < f → k (mk (rev w ++ bef) (d :: t) cs) = Some y →
    star_loop (m (RAlt (RChar p) r)) [] true k f (mk bef (w ++ d :: t) cs) = Some y).
  { clear bef Hk. induction Hw as [|c w Hc Hw IH]; intros [|f] bef Hl Hk; try (simpl in Hl; lia).
    - cbn [app star_loop before after caps clear_caps fold_right]. cbv zeta.
      rewrite m_alt, Hr. cbn [m after]. by rewrite Hd.
    - cbn [app star_loop before after caps clear_caps fold_right]. cbv zeta.
      rewrite m_alt. cbn [m after before caps]. rewrite Hc.
      replace (_ =? _) with false by (symmetry; apply Nat.eqb_neq; simpl; lia).
      rewrite IH; [done|simpl in Hl; lia|]. simpl in Hk. by rewrite <- app_assoc in Hk. }
  unfold rstar. cbn [m]. simpl groups. rewrite Hg. apply H; [|done].
  simpl. rewrite length_app. simpl. lia.
Qed.

(** A plain JSON string literal. *)
Lemma m_json_string k bef w t cs y :
  forallb plain_char w = true →
  k (mk (rev (dq ++ w ++ dq) ++ bef) t cs) = Some y →
  m r_json_string k (mk bef ((dq ++ w ++ dq) ++ t) cs) = Some y.
Proof.
  intros Hw Hk. unfold r_json_string. cbn [rseq]. rewrite !m_seq, <- !app_assoc, m_lit.
  apply star_alt_commit; [done|done|done| |].
  - eapply plain_forall; [|exact Hw]. intros c (_ & Hq & H92 & _)%plain_char_spec.
    unfold not_quote in Hq. apply negb_true_iff in Hq. by rewrite Hq, (proj2 (N.eqb_neq c 92)).
  - change (34%N :: t) with (dq ++ t). rewrite m_lit.
    by rewrite !rev_app_distr, <- !app_assoc in Hk.
Qed.

(** ** Matching whole conditions *)

(** The texts of the time conditions. *)
Definition time_range_text (f tz s e : str) : str :=
  f ++ qt tz ++ js " >= " ++ s ++ js " || " ++ f ++ qt tz ++ js " < " ++ e.
Definition time_cmp_text (f tz op v : str) : str := f ++ qt tz ++ js " " ++ op ++ js " " ++ v.

Section time.
Context (f tz : str) (Hf : f ∈ TIME_FUNCS) (Htz : quotable tz).

Lemma qt_app t : qt tz ++ t = (js "(" ++ dq) ++ tz ++ (dq ++ js ")") ++ t.
Proof. unfold qt. by rewrite <- !app_assoc. Qed.

Lemma qt_open t : qt tz ++ t = 40%N :: drop 1 (qt tz) ++ t.
Proof. done. Qed.

Lemma m_time_head k bef t cs :
  m r_timefunc (m (r_quoted 2) k) (mk bef (f ++ qt tz ++ t) cs)
  = k (mk (rev (qt tz) ++ rev f ++ bef) t (<[2 := Some tz]> (<[1 := Some f]> cs))).
Proof.
  rewrite qt_open, m_timefunc by done.
  change (40%N :: drop 1 (qt tz) ++ t) with (qt tz ++ t). by rewrite m_quoted.
Qed.

(** The range body on its text; [t] is empty or closes a parenthesis. *)
Lemma m_time_range_body r k bef s e t cs :
  is_numeric_literal s = true → is_numeric_literal e = true → length cs = 5 →
  match t with [] => True | c :: _ => num_class c = false end →
  ∃ bef', ∀ y,
    m r k (mk bef' t (<[4 := Some e]> (<[3 := Some s]> (<[2 := Some tz]> (<[1 := Some f]> cs))))) = Some y →
    m (rseq (time_range_body ++ [r])) k (mk bef (time_range_text f tz s e ++ t) cs) = Some y.
Proof.
  intros Hs He Hcs Ht. eexists. intros y Hk. unfold time_range_body, time_range_text.
  cbn [app rseq]. rewrite !m_seq, <- !app_assoc, m_time_head, m_lit.
  rewrite m_num_det; [|done|done|intros; by apply (lit_space_refuses_num (js "|| "))].
  rewrite m_lit.
  rewrite m_backref by (destruct cs as [|? [|? [|? [|? [|? cs]]]]]; simplify_eq/=; done).
  rewrite qt_app, m_lit.
  rewrite m_backref by (destruct cs as [|? [|? [|? [|? [|? cs]]]]]; simplify_eq/=; done).
  change ((dq ++ js ")") ++ js " < " ++ ?u) with ((dq ++ js ") < ") ++ u).
  rewrite m_lit. apply m_num_commit; [done|done|exact Hk].
Qed.

Definition range_caps (s e : str) : list (option str) :=
  [None; Some f; Some tz; Some s; Some e].

Definition time_range (s e : str) : RequestCondition :=
  CTime {| timeFunc := f; timezone := tz; t_mode := MATCH_RANGE; t_value := [];
           rangeStart := s; rangeEnd := e |}.

Lemma parse_time_range s e :
  is_numeric_literal s = true → is_numeric_literal e = true →
  tryParseTimeCondition (time_range_text f tz s e) = Some (time_range s e).
Proof.
  intros Hs He. unfold tryParseTimeCondition, TIME_RANGE_RE.
  rewrite (match_re_some _ _ _ (range_caps s e)); [done|].
  intros k. rewrite <- (app_nil_r (time_range_text f tz s e)).
  destruct (m_time_range_body REol k [] s e [] (replicate 5 None)) as [bef H]; [done..|].
  exists bef. intros y Hk. by apply H.
Qed.

Lemma time_range_re_paren t : match_re 4 TIME_RANGE_RE (40%N :: t) = None.
Proof. unfold TIME_RANGE_RE. by apply match_re_none. Qed.

Lemma parse_time_range_paren s e :
  is_numeric_literal s = true → is_numeric_literal e = true →
  tryParseTimeCondition (js "(" ++ time_range_text f tz s e ++ js ")") = Some (time_range s e).
Proof.
  intros Hs He. unfold tryParseTimeCondition. 
  replace (match_re 4 TIME_RANGE_RE _) with (@None (list (option str))) by (symmetry; apply time_range_re_paren).
  unfold TIME_RANGE_PAREN_RE. rewrite (match_re_some _ _ _ (range_caps s e)); [done|].
  intros k.
  change (m (rseq ([rlit (js "(")] ++ time_range_body ++ [rlit (js ")"); REol])) k)
    with (m (rlit (js "(")) (m (rseq (time_range_body ++ [RSeq (rlit (js ")")) REol])) k)).
  rewrite m_lit.
  destruct (m_time_range_body (RSeq (rlit (js ")")) REol) k (rev (js "(") ++ []) s e (js ")") (replicate 5 None))
    as [bef H]; [done..|].
  eexists. intros y Hk. apply H. rewrite m_seq, <- (app_nil_r (js ")")), m_lit. exact Hk.
Qed.

Lemma parse_time_cmp op v :
  op ∈ [js "=="; js ">="; js "<"] → is_numeric_literal v = true →
  tryParseTimeCondition (time_cmp_text f tz op v)
  = Some (CTime {| timeFunc := f; timezone := tz; t_mode := time_op_mode op; t_value := v;
                   rangeStart := []; rangeEnd := [] |}).
Proof.
  intros Hop Hv. unfold tryParseTimeCondition, time_cmp_text.
  assert (match_re 4 TIME_RANGE_RE (f ++ qt tz ++ js " " ++ op ++ js " " ++ v) = None) as ->.
  { unfold TIME_RANGE_RE. apply match_re_none. intros k. unfold time_range_body.
    cbn [app rseq]. rewrite !m_seq, m_time_head.
    rewrite !elem_of_cons, elem_of_nil in Hop. destruct Hop as [->|[->|[->|[]]]]; [done| |done].
    change (js " " ++ js ">=" ++ js " " ++ v) with (js " >= " ++ v). rewrite m_lit.
    rewrite <- (app_nil_r v), m_num_det; [done|done|done|].
    intros. by apply (lit_space_refuses_num (js "|| ")). }
  assert (match_re 4 TIME_RANGE_PAREN_RE (f ++ qt tz ++ js " " ++ op ++ js " " ++ v) = None) as ->.
  { unfold TIME_RANGE_PAREN_RE. apply match_re_none. intros k.
    clear -Hf. revert f Hf. apply Forall_forall. unfold TIME_FUNCS.
    repeat apply Forall_cons_2; done. }
  unfold TIME_CMP_RE.
  rewrite (match_re_some _ _ _ [None; Some f; Some tz; Some op; Some v]); [done|].
  intros k. eexists. intros y Hk. cbn [rseq]. rewrite !m_seq, m_time_head, m_lit, m_group.
  set (k' := λ z, m (rlit (js " ")) _ _).
  assert (m (ralt [rlit (js "=="); rlit (js ">="); rlit (js "<")]) k'
    (mk (rev (js " ") ++ rev (qt tz) ++ rev f ++ []) (op ++ js " " ++ v)
       (<[2:=Some tz]> (<[1:=Some f]> (replicate 5 None))))
    = k' (mk (rev op ++ rev (js " ") ++ rev (qt tz) ++ rev f ++ []) (js " " ++ v)
       (<[2:=Some tz]> (<[1:=Some f]> (replicate 5 None))))) as ->.
  { clearbody k'. generalize (rev (js " ") ++ rev (qt tz) ++ rev f ++ []).
    generalize (<[2:=Some tz]> (<[1:=Some f]> (replicate 5 None))). intros cs bef.
    rewrite !elem_of_cons, elem_of_nil in Hop.
    destruct Hop as [->|[->|[->|[]]]]; vm_compute; by destruct (k' _). }
  unfold k'. cbn [before after caps]. rewrite take_consumed, m_lit.
  rewrite <- (app_nil_r v) at 1. apply m_num_commit; [done|done|exact Hk].
Qed.
End time.

(** *** Parameter and header conditions *)

Lemma not_time pre t :
  pre ∈ [js "param("; js "header("; js "has("] → tryParseTimeCondition (pre ++ t) = None.
Proof.
  rewrite !elem_of_cons, elem_of_nil. unfold tryParseTimeCondition, TIME_RANGE_RE, TIME_RANGE_PAREN_RE, TIME_CMP_RE.
  intros [->|[->|[->|[]]]]; by rewrite !match_re_none.
Qed.

(** [param(Q p Q)] and [header(Q p Q)], as the regular expressions see them. *)
Definition src_name (s : ph_source) : str := match s with Param => js "param" | Header => js "header" end.

Section path.
Context (p : str) (Hp : quotable p).

Lemma qt_time s t : tryParseTimeCondition (src_name s ++ qt p ++ t) = None.
Proof.
  destruct s.
  - change (src_name Param ++ qt p ++ t) with (js "param(" ++ drop 1 (qt p) ++ t). apply not_time. set_solver.
  - change (src_name Header ++ qt p ++ t) with (js "header(" ++ drop 1 (qt p) ++ t). apply not_time. set_solver.
Qed.

Lemma parse_header_exists :
  tryParseRequestCondition (js "header" ++ qt p ++ js " != " ++ dq ++ dq) = Ret (Some (ph Header p MATCH_EXISTS [])).
Proof.
  unfold tryParseRequestCondition. rewrite (qt_time Header). unfold HEADER_EXISTS_RE.
  rewrite (match_re_some _ _ _ [None; Some p]); [done|].
  intros k. eexists. intros y Hk. cbn [rseq]. rewrite !m_seq, m_lit, m_quoted by done.
  rewrite <- (app_nil_r (js " != " ++ dq ++ dq)), m_lit. exact Hk.
Qed.

Lemma header_re_param t : match_re 1 HEADER_EXISTS_RE (js "param" ++ t) = None.
Proof. unfold HEADER_EXISTS_RE. by apply match_re_none. Qed.

Lemma parse_param_exists :
  tryParseRequestCondition (js "param" ++ qt p ++ js " != nil") = Ret (Some (ph Param p MATCH_EXISTS [])).
Proof.
  unfold tryParseRequestCondition. rewrite (qt_time Param), header_re_param. unfold PARAM_EXISTS_RE.
  rewrite (match_re_some _ _ _ [None; Some p]); [done|].
  intros k. eexists. intros y Hk. cbn [rseq]. rewrite !m_seq, m_lit, m_quoted by done.
  rewrite <- (app_nil_r (js " != nil")), m_lit. exact Hk.
Qed.

Lemma parse_header_contains v :
  forallb plain_char v = true →
  tryParseRequestCondition (js "has(" ++ js "header" ++ qt p ++ js ", " ++ (dq ++ v ++ dq) ++ js ")")
  = Ret (Some (ph Header p MATCH_CONTAINS v)).
Proof.
  intros Hv. unfold tryParseRequestCondition. rewrite not_time by set_solver.
  unfold HEADER_EXISTS_RE, PARAM_EXISTS_RE. rewrite !match_re_none by done.
  unfold HEADER_HAS_RE. rewrite (match_re_some _ _ _ [None; Some p; Some (dq ++ v ++ dq)]).
  - rewrite <- (json_quote_plain v) by done.
    change (cap _ 2) with (json_quote v). unfold json_parse_or_throw.
    by rewrite json_parse_quote by by apply plain_units.
  - intros k. eexists. intros y Hk. cbn [rseq]. rewrite !m_seq.
    rewrite (app_assoc (js "has(")). rewrite m_lit, m_quoted, m_lit, m_group by done.
    apply m_json_string; [done|]. cbn [before after caps]. rewrite take_consumed.
    rewrite <- (app_nil_r (js ")")), m_lit. exact Hk.
Qed.

Lemma m_src s k bef t cs :
  m (RGroup 1 (ralt [rlit (js "param"); rlit (js "header")])) k (mk bef (src_name s ++ t) cs)
  = k (mk (rev (src_name s) ++ bef) t (<[1 := Some (src_name s)]> cs)).
Proof.
  rewrite m_group. set (k' := λ z, k _).
  replace (m _ k' _) with (k' (mk (rev (src_name s) ++ bef) t cs)).
  - unfold k'. cbn [before after caps]. by rewrite take_consumed.
  - clearbody k'. destruct s; vm_compute; by destruct (k' _).
Qed.

(** An equality reaches the last pattern. *)
Lemma eq_reaches_last s lit :
  tryParseRequestCondition (src_name s ++ qt p ++ js " == " ++ lit)
  = tryParseEquality (src_name s ++ qt p ++ js " == " ++ lit).
Proof.
  unfold tryParseRequestCondition. rewrite qt_time.
  unfold HEADER_EXISTS_RE, PARAM_EXISTS_RE, HEADER_HAS_RE, PARAM_HAS_RE, tryParseComparison, PARAM_CMP_RE.
  destruct s; cbn [src_name].
  - rewrite (match_re_none 1 (rseq [rlit (js "header"); _; _; _])) by done.
    rewrite (match_re_none 2 (rseq [rlit (js "has(header"); _; _; _; _; _])) by done.
    rewrite !match_re_none; [done|..]; intros k; cbn [rseq]; rewrite !m_seq, m_lit, m_quoted by done; done.
  - rewrite (match_re_none 1 (rseq [rlit (js "header"); _; _; _])).
    + by rewrite !match_re_none.
    + intros k. cbn [rseq]. rewrite !m_seq, m_lit, m_quoted by done. done.
Qed.

Lemma parse_eq s lit v :
  lit ≠ [] → Forall (λ c, not_newline c = true) lit → parseExprLiteral lit = Some (JStr v) →
  tryParseRequestCondition (src_name s ++ qt p ++ js " == " ++ lit)
  = Ret (Some (ph s p MATCH_EQ v)).
Proof.
  intros Hne Hl Hv. rewrite eq_reaches_last. unfold tryParseEquality, EQ_RE.
  rewrite (match_re_some _ _ _ [None; Some (src_name s); Some p; Some lit]).
  - change (cap _ 3) with lit. rewrite Hv. change (cap _ 1) with (src_name s).
    change (cap _ 2) with p. by destruct s.
  - intros k. eexists. intros y Hk. cbn [rseq]. rewrite !m_seq, m_src, m_quoted, m_lit by done.
    apply m_group_plus_end; [done|done|exact Hk].
Qed.
End path.

(** ** Literals *)

Lemma head_not_numeric c s : num_class c = false → is_numeric_literal (c :: s) = false.
Proof.
  intros Hc. destruct (is_numeric_literal (c :: s)) eqn:E; [|done].
  apply numeric_literal_chars in E as [_ E]. apply Forall_cons in E as [E _]. congruence.
Qed.

Lemma trimmed_quote s : trimmed (json_quote s).
Proof.
  split; [done|]. unfold json_quote. change (34%N :: ?u ++ [34%N]) with ((34%N :: u) ++ [34%N]).
  by rewrite rev_app_distr.
Qed.

Lemma parse_build_literal v :
  units v → trim v = v → parseExprLiteral (buildExprLiteral MATCH_EQ v) = Some (JStr v).
Proof.
  intros Hu Ht. unfold buildExprLiteral. rewrite Ht.
  replace (bool_decide (MATCH_EQ = MATCH_CONTAINS)) with false by done.
  destruct (bool_decide _ || bool_decide _) eqn:Eb; [|destruct (is_numeric_literal v) eqn:En].
  - unfold parseExprLiteral. by rewrite Ht, Eb.
  - unfold parseExprLiteral. by rewrite Ht, Eb, En.
  - unfold parseExprLiteral. rewrite (trim_id _ (trimmed_quote v)).
    replace (bool_decide (json_quote v = js "true")) with false by done.
    replace (bool_decide (json_quote v = js "false")) with false by done.
    cbn [orb]. unfold json_quote at 1. rewrite head_not_numeric by done.
    by rewrite json_parse_quote.
Qed.

Lemma build_literal_cases v :
  forallb plain_char v = true → trim v = v →
  (buildExprLiteral MATCH_EQ v = v ∧ (v = js "true" ∨ v = js "false" ∨ is_numeric_literal v = true))
  ∨ buildExprLiteral MATCH_EQ v = dq ++ v ++ dq.
Proof.
  intros Hv Ht. unfold buildExprLiteral. rewrite Ht.
  replace (bool_decide (MATCH_EQ = MATCH_CONTAINS)) with false by done.
  destruct (bool_decide _ || bool_decide _) eqn:Eb; [|destruct (is_numeric_literal v) eqn:En].
  - left. split; [done|]. rewrite orb_true_iff, !bool_decide_eq_true in Eb. tauto.
  - left. auto.
  - right. by rewrite json_quote_plain.
Qed.

(** ** Well-formed rules *)

Definition wf_time (c : TimeCondition) : bool :=
  isTimeFunc (timeFunc c) && truthy (timezone c) && plain (timezone c)
  && (if bool_decide (t_mode c = MATCH_RANGE)
      then bool_decide (t_value c = []) && is_numeric_literal (rangeStart c) && is_numeric_literal (rangeEnd c)
      else bool_decide (t_mode c ∈ [MATCH_EQ; MATCH_GTE; MATCH_LT]) && is_numeric_literal (t_value c)
           && bool_decide (rangeStart c = []) && bool_decide (rangeEnd c = [])).

(** A plain text that [trim] leaves alone. *)
Definition wf_text (s : str) : bool := plain s && bool_decide (trim s = s).

Definition wf_param_header (c : ParamHeaderCondition) : bool :=
  truthy (path c) && wf_text (path c)
  && ((bool_decide (ph_mode c = MATCH_EXISTS) && bool_decide (ph_value c = []))
      || (bool_decide (source c = Header) && bool_decide (ph_mode c = MATCH_CONTAINS) && wf_text (ph_value c))
      || (bool_decide (ph_mode c = MATCH_EQ) && wf_text (ph_value c)
          && negb (includes (js " && ") (ph_value c)))).

Definition wf_condition (c : RequestCondition) : bool :=
  match c with CTime c => wf_time c | CParamHeader c => wf_param_header c end.

(** The groups that the parser gives back: those whose conditions on parameters are not of a kind that is written with a guard.  The groups that
    the editor writes, guarded ones included, are those of [written_group] in [BillingRules]. *)
Definition wf_group (g : RequestRuleGroup) : bool :=
  is_numeric_literal (multiplier g) && negb (bool_decide (conditions g = []))
  && forallb wf_condition (conditions g).

(** ** The text of a well-formed condition *)

Lemma or_default_truthy s d : truthy s = true → or_default (Some s) d = s.
Proof. intros H. unfold or_default. by rewrite H. Qed.

Lemma or_default_nil s : or_default (Some s) [] = s.
Proof. by destruct s. Qed.

Lemma option_has_elem src md :
  option_has src md = true ↔ md ∈ map mo_value (getRequestRuleMatchOptions src).
Proof.
  unfold option_has. rewrite existsb_exists, elem_of_lmap. split.
  - intros (o & Ho & E%bool_decide_eq_true). exists o. by rewrite list_elem_of_In.
  - intros (o & -> & Ho). exists o. by rewrite <- list_elem_of_In, bool_decide_eq_true.
Qed.

Lemma mode_or_some src md d : option_has src md = true → mode_or src (Some md) d = md.
Proof. intros H. unfold mode_or. by rewrite H. Qed.

Lemma normalize_time c :
  isTimeFunc (timeFunc c) = true → truthy (timezone c) = true → option_has SOURCE_TIME (t_mode c) = true →
  normalizeCondition (Some (partial_of (CTime c))) = CTime c.
Proof.
  intros Hf Hz Hm. unfold normalizeCondition. cbn [partial_of pc_source pc_timeFunc pc_timezone pc_mode
    pc_value pc_rangeStart pc_rangeEnd mbind option_bind].
  rewrite bool_decide_eq_true_2 by done. rewrite Hf, or_default_truthy, mode_or_some by done. by destruct c.
Qed.

Lemma normalize_param_header c :
  option_has (src_name (source c)) (ph_mode c) = true →
  normalizeCondition (Some (partial_of (CParamHeader c))) = CParamHeader c.
Proof.
  intros Hm. unfold normalizeCondition. cbn [partial_of pc_source pc_path pc_mode pc_value mbind option_bind].
  destruct c as [[] p md v]; cbn [source path ph_mode ph_value src_name] in *.
  - replace (bool_decide (Some SOURCE_PARAM = Some SOURCE_TIME)) with false by done.
    replace (bool_decide (Some SOURCE_PARAM = Some SOURCE_HEADER)) with false by done.
    by rewrite or_default_nil, mode_or_some.
  - replace (bool_decide (Some SOURCE_HEADER = Some SOURCE_TIME)) with false by done.
    replace (bool_decide (Some SOURCE_HEADER = Some SOURCE_HEADER)) with true by done.
    by rewrite or_default_nil, mode_or_some.
Qed.

Definition AND := js " && ".
Definition OR := js " || ".

(** What the round trip needs of the text [e] of a condition [c]. *)
Record reads (e : str) (c : RequestCondition) : Prop := {
  reads_part : part_ok AND e;
  reads_balanced : balanced e = true;
  reads_parse : tryParseRequestCondition e = Ret (Some c);
  reads_or : includes OR e = true → tryParseRequestCondition (40%N :: e ++ [41%N]) = Ret (Some c) }.

(** The text before the quoted argument: a name. *)
Definition name_like (pre : str) : Prop :=
  pre ≠ [] ∧ Forall (λ c, is_space c = false ∧ no_paren c = true) pre.

Lemma name_like_timefunc f : isTimeFunc f = true → name_like f.
Proof.
  unfold isTimeFunc. rewrite bool_decide_eq_true. revert f. apply Forall_forall. unfold TIME_FUNCS.
  repeat apply Forall_cons_2; [split; [done|]; vm_compute; repeat apply Forall_cons_2; done..|done].
Qed.

Lemma name_like_src s : name_like (src_name s).
Proof. destruct s; (split; [done|]; vm_compute; repeat apply Forall_cons_2; done). Qed.

Lemma name_like_no_space pre : name_like pre → 32%N ∉ pre.
Proof. intros [_ H] Hin. rewrite Forall_forall in H. by destruct (H _ Hin). Qed.

Lemma qt_group p : qt p = 40%N :: (dq ++ p ++ dq) ++ [41%N].
Proof. unfold qt. by rewrite <- !app_assoc. Qed.

Lemma quoted_balanced p : forallb plain_char p = true → balanced (dq ++ p ++ dq) = true.
Proof. intros Hp. auto using plain_no_paren with js. Qed.

(** The space between an operator and a numeral. *)
Definition starts_num (w : str) : Prop := match w with [] => False | c :: _ => c ≠ 38%N ∧ c ≠ 124%N ∧ c ≠ 32%N end.

Lemma numeric_starts v : is_numeric_literal v = true → starts_num v.
Proof.
  intros [Hne Hv]%numeric_literal_chars. destruct v as [|c v]; [done|].
  apply Forall_cons in Hv as [Hc _]. simpl. split_and!; intros ->; done.
Qed.

Lemma clean_space d w t : starts_num w → clean AND d [32%N] (w ++ t).
Proof.
  intros Hw. destruct w as [|c w]; [done|]. destruct Hw as (H1 & _). split; [|done]. intros _.
  change ((38 =? c)%N && starts_with (js "& ") (w ++ t) = false). by rewrite (proj2 (N.eqb_neq 38 c)).
Qed.

Lemma starts_num_timefunc f : isTimeFunc f = true → starts_num f.
Proof.
  unfold isTimeFunc. rewrite bool_decide_eq_true. revert f. apply Forall_forall. unfold TIME_FUNCS.
  by repeat apply Forall_cons_2.
Qed.

Lemma starts_num_app w t : starts_num w → starts_num (w ++ t).
Proof. by destruct w. Qed.

Section shape.
Context (pre p post : str) (Hpre : name_like pre) (Hp : forallb plain_char p = true).
Context (Hne : post ≠ []) (Hend : head_ok (rev post)) (Hbal : balanced post = true).
Context (Hclean : ∀ t, clean AND 0 post t).

Lemma shape_balanced : balanced (pre ++ qt p ++ post) = true.
Proof using Hpre Hp Hbal.
  rewrite qt_group. destruct Hpre as [_ Hn].
  assert (balanced pre = true) by (apply balanced_no_paren; eapply Forall_impl; [exact Hn|by intros ? []]).
  auto using quoted_balanced with js.
Qed.

Lemma shape_part : part_ok AND (pre ++ qt p ++ post).
Proof using Hpre Hp Hne Hend Hbal Hclean.
  destruct Hpre as [Hpne Hn]. split_and!.
  - split.
    + apply head_ok_app_nonempty; [done|]. destruct pre as [|c l]; [done|].
      by apply Forall_cons in Hn as [[? _] _].
    + rewrite app_assoc, rev_app_distr. apply head_ok_app_nonempty; [|done].
      intros E. apply Hne. by apply (f_equal (rev (A:=N))) in E; rewrite rev_involutive in E.
  - intros E%app_nil. by destruct E.
  - apply balanced_spec. apply shape_balanced.
  - intros t. assert (balanced pre = true) as [_ Np]%balanced_spec
      by (apply balanced_no_paren; eapply Forall_impl; [exact Hn|by intros ? []]).
    assert (net (qt p) = 0%Z) as Nq.
    { rewrite qt_group. by apply balanced_spec, balanced_group, quoted_balanced. }
    rewrite !clean_app, Np, Nq. split_and!.
    + apply clean_no_space; [done|by apply name_like_no_space].
    + rewrite qt_group. apply clean_group; [done|done|]. by apply quoted_balanced.
    + apply Hclean.
Qed.

(** Disjunctions only come from what follows the argument. *)
Lemma shape_or : includes OR p = false → includes OR (pre ++ qt p ++ post) = includes OR (41%N :: post).
Proof using Hpre.
  clear Hp Hne Hend Hbal Hclean. intros Hor. unfold qt. rewrite <- !app_assoc.
  replace (pre ++ js "(" ++ dq ++ p ++ dq ++ js ")" ++ post)
    with ((pre ++ js "(") ++ 34%N :: p ++ 34%N :: 41%N :: post) by (by rewrite <- app_assoc).
  assert (includes OR (pre ++ js "(") = false) as E.
  { apply (includes_head 32%N (js "|| ")). rewrite elem_of_app.
    intros [H|H]; [by eapply name_like_no_space|set_solver]. }
  assert (34%N ∉ OR) by (vm_compute; set_solver).
  by rewrite !includes_barrier, E, Hor.
Qed.
End shape.

(** *** Each kind of condition reads back *)

Lemma plain_spec s : plain s = true ↔ forallb plain_char s = true ∧ includes OR s = false.
Proof. unfold plain. by rewrite andb_true_iff, negb_true_iff. Qed.

Lemma wf_text_spec s :
  wf_text s = true ↔ forallb plain_char s = true ∧ includes OR s = false ∧ trim s = s.
Proof. unfold wf_text. rewrite andb_true_iff, plain_spec, bool_decide_eq_true. tauto. Qed.

Lemma plain_quotable s : truthy s = true → forallb plain_char s = true → quotable s.
Proof. intros H1 H2. split; [by intros ->|by apply plain_no_quote]. Qed.

Lemma or_space_num v : is_numeric_literal v = true → includes OR (32%N :: v) = false.
Proof.
  intros Hv. pose proof (numeric_starts v Hv) as Hs.
  change (includes OR (32%N :: v)) with (starts_with OR (32%N :: v) || includes OR v).
  rewrite (includes_head 32%N (js "|| ")) by by eapply numeric_not_in. rewrite orb_false_r.
  destruct v as [|c v]; [done|]. destruct Hs as (_ & H & _).
  change ((124 =? c)%N && starts_with (js "| ") v = false). by rewrite (proj2 (N.eqb_neq 124 c)).
Qed.

Lemma head_ok_rev_app a b : b ≠ [] → head_ok (rev b) → head_ok (rev (a ++ b)).
Proof.
  intros Hne Hb. rewrite rev_app_distr. apply head_ok_app_nonempty; [|done].
  intros E. apply Hne. by apply (f_equal (rev (A:=N))) in E; rewrite rev_involutive in E.
Qed.

Lemma head_ok_rev_num a v : is_numeric_literal v = true → head_ok (rev (a ++ v)).
Proof.
  intros Hv. pose proof (numeric_trimmed v Hv) as [_ Ht]. apply numeric_literal_chars in Hv as [Hne _].
  by apply head_ok_rev_app.
Qed.

(** An operator and a numeral after the argument. *)
Lemma op_num_post a v :
  a ∈ [js " =="; js " >="; js " <"; js " >"; js " <="] → is_numeric_literal v = true →
  let post := a ++ 32%N :: v in
  head_ok (rev post) ∧ balanced post = true ∧ (∀ t, clean AND 0 post t) ∧ includes OR (41%N :: post) = false.
Proof.
  intros Ha Hv. cbv zeta.
  assert (balanced a = true ∧ (∀ t, clean AND 0 a (32%N :: t)) ∧ net a = 0%Z ∧
          includes OR (41%N :: a ++ 32%N :: v) = includes OR (32%N :: v)) as (Hb & Hc & Hn & Ho).
  { rewrite !elem_of_cons, elem_of_nil in Ha. destruct Ha as [->|[->|[->|[->|[->|[]]]]]];
      (split_and!; [done|intros t; vm_compute; by repeat split|done|]).
    - change (41%N :: js " ==" ++ 32%N :: v) with ((41%N :: js " =") ++ 61%N :: 32%N :: v).
      by rewrite includes_barrier by (vm_compute; set_solver || done).
    - change (41%N :: js " >=" ++ 32%N :: v) with ((41%N :: js " >") ++ 61%N :: 32%N :: v).
      by rewrite includes_barrier by (vm_compute; set_solver || done).
    - change (41%N :: js " <" ++ 32%N :: v) with ((41%N :: js " ") ++ 60%N :: 32%N :: v).
      by rewrite includes_barrier by (vm_compute; set_solver || done).
    - change (41%N :: js " >" ++ 32%N :: v) with ((41%N :: js " ") ++ 62%N :: 32%N :: v).
      by rewrite includes_barrier by (vm_compute; set_solver || done).
    - change (41%N :: js " <=" ++ 32%N :: v) with ((41%N :: js " <") ++ 61%N :: 32%N :: v).
      by rewrite includes_barrier by (vm_compute; set_solver || done). }
  split_and!.
  - change (a ++ 32%N :: v) with (a ++ [32%N] ++ v). rewrite app_assoc. by apply head_ok_rev_num.
  - apply balanced_app; [done|]. apply balanced_cons; [done|by apply numeric_balanced].
  - intros t. rewrite clean_app, Hn. split; [apply Hc|]. change (32%N :: v) with ([32%N] ++ v).
    rewrite clean_app. split; [apply clean_space, numeric_starts, Hv|].
    apply clean_no_space; [done|]. by eapply numeric_not_in.
  - rewrite Ho. by apply or_space_num.
Qed.

Lemma parse_of_time e c : tryParseTimeCondition e = Some c → tryParseRequestCondition e = Ret (Some c).
Proof. unfold tryParseRequestCondition. by intros ->. Qed.

Section time_reads.
Context (f tz : str) (Hf : isTimeFunc f = true) (Htz : truthy tz = true) (Hpl : plain tz = true).

Lemma reads_time_cmp op v :
  op ∈ [js "=="; js ">="; js "<"] → is_numeric_literal v = true →
  reads (time_cmp_text f tz op v)
    (CTime {| timeFunc := f; timezone := tz; t_mode := time_op_mode op; t_value := v;
              rangeStart := []; rangeEnd := [] |}).
Proof.
  intros Hop Hv. pose proof Hpl as [Hp Hor]%plain_spec. pose proof (name_like_timefunc f Hf) as Hn.
  assert (time_cmp_text f tz op v = f ++ qt tz ++ (js " " ++ op) ++ 32%N :: v) as E
    by (unfold time_cmp_text; by rewrite <- !app_assoc).
  destruct (op_num_post (js " " ++ op) v) as (H1 & H2 & H3 & H4); [|done|].
  { rewrite !elem_of_cons, elem_of_nil in Hop. destruct Hop as [->|[->|[->|[]]]]; vm_compute; set_solver. }
  split.
  - rewrite E. apply shape_part; [done..| |done|done|done]. by intros [_ ?]%app_nil.
  - rewrite E. by apply shape_balanced.
  - apply parse_of_time, parse_time_cmp; [|by apply plain_quotable|done..].
    by apply bool_decide_eq_true in Hf.
  - rewrite E, shape_or by done. by rewrite H4.
Qed.

Lemma reads_time_range s e :
  is_numeric_literal s = true → is_numeric_literal e = true →
  reads (time_range_text f tz s e) (time_range f tz s e).
Proof.
  intros Hs He. pose proof Hpl as [Hp Hor]%plain_spec. pose proof (name_like_timefunc f Hf) as Hn.
  pose proof (op_num_post (js " >=") s ltac:(vm_compute; set_solver) Hs) as (_ & B1 & C1 & _).
  pose proof (op_num_post (js " <") e ltac:(vm_compute; set_solver) He) as (E2 & B2 & C2 & _).
  assert (f ∈ TIME_FUNCS) as Hf' by by apply bool_decide_eq_true in Hf.
  set (inner := f ++ qt tz ++ js " <" ++ 32%N :: e).
  assert (part_ok AND inner) as ([_ Hie] & Hine & Hin & Hic) by (apply shape_part; [done..|by intros [_ ?]%app_nil|done|done|done]).
  assert (balanced inner = true) as Hib by by apply shape_balanced.
  assert (time_range_text f tz s e = f ++ qt tz ++ (js " >=" ++ 32%N :: s) ++ js " || " ++ inner) as E
    by (unfold time_range_text, inner; by rewrite <- !app_assoc).
  split.
  - rewrite E. apply shape_part; [done..| | | |].
    + by intros [_ ?]%app_nil.
    + apply head_ok_rev_app; [by intros [_ ?]%app_nil|]. by apply head_ok_rev_app.
    + auto with js.
    + intros t. apply balanced_spec in B1 as [_ N1].
      apply clean_app. split; [apply C1|]. rewrite N1. apply clean_app. split; [|apply Hic].
      change (js " || ") with (js " ||" ++ [32%N]). rewrite clean_app. split; [by vm_compute|].
      apply clean_space. unfold inner. by apply starts_num_app, starts_num_timefunc.
  - rewrite E. apply shape_balanced; auto with js.
  - apply parse_of_time, parse_time_range; [done|by apply plain_quotable|done..].
  - intros _. apply parse_of_time, parse_time_range_paren; [done|by apply plain_quotable|done..].
Qed.
End time_reads.

Section path_reads.
Context (p : str) (Hpt : truthy p = true) (Hpl : forallb plain_char p = true) (Hor : includes OR p = false).

Let Hq : quotable p := plain_quotable p Hpt Hpl.

Lemma reads_exists s :
  reads (src_name s ++ qt p ++ match s with Param => js " != nil" | Header => js " != " ++ dq ++ dq end)
    (ph s p MATCH_EXISTS []).
Proof.
  split.
  - apply shape_part; [apply name_like_src|done|by destruct s..].
  - apply shape_balanced; [apply name_like_src|done|by destruct s].
  - destruct s; [by apply parse_param_exists|by apply parse_header_exists].
  - rewrite shape_or by (done || apply name_like_src). by destruct s.
Qed.

(** [has(param(..), ..)] and [has(header(..), ..)] *)
Definition has_text (s : ph_source) (v : str) : str :=
  js "has(" ++ src_name s ++ qt p ++ js ", " ++ (dq ++ v ++ dq) ++ js ")".

Lemma has_text_group s v :
  has_text s v = js "has" ++ 40%N :: (src_name s ++ qt p ++ js ", " ++ (dq ++ v ++ dq)) ++ [41%N].
Proof. unfold has_text. by rewrite <- !app_assoc. Qed.

Lemma has_inner_balanced s v :
  forallb plain_char v = true → balanced (src_name s ++ qt p ++ js ", " ++ (dq ++ v ++ dq)) = true.
Proof.
  intros Hv. apply shape_balanced; [apply name_like_src|done|].
  apply balanced_app; [done|by apply quoted_balanced].
Qed.

Lemma has_part s v : forallb plain_char v = true → part_ok AND (has_text s v).
Proof.
  intros Hv. pose proof (has_inner_balanced s v Hv) as Hb. rewrite has_text_group. split_and!.
  - split; [done|]. rewrite app_comm_cons, app_assoc, rev_app_distr. done.
  - done.
  - rewrite net_app. by apply balanced_group, balanced_spec in Hb as [_ ->].
  - intros t. apply clean_app. split; [apply clean_no_space; [done|vm_compute; set_solver]|]. by apply clean_group.
Qed.

Lemma reads_contains v :
  forallb plain_char v = true → includes OR v = false →
  reads (has_text Header v) (ph Header p MATCH_CONTAINS v).
Proof.
  intros Hv Hvo. split.
  - by apply has_part.
  - rewrite has_text_group. by apply balanced_app; [|apply balanced_group, has_inner_balanced].
  - by apply parse_header_contains.
  - assert (34%N ∉ OR) by (vm_compute; set_solver).
    unfold has_text, qt. rewrite <- !app_assoc.
    change (js "has(" ++ src_name Header ++ js "(" ++ dq ++ p ++ dq ++ js ")" ++ js ", " ++ dq ++ v ++ dq ++ js ")")
      with ((js "has(" ++ js "header(") ++ 34%N :: p ++ 34%N :: js "), " ++ 34%N :: v ++ 34%N :: js ")").
    by rewrite !includes_barrier, Hor, Hvo by done.
Qed.

Lemma reads_eq s v :
  wf_text v = true → includes AND v = false →
  reads (src_name s ++ qt p ++ js " == " ++ buildExprLiteral MATCH_EQ v) (ph s p MATCH_EQ v).
Proof.
  intros (Hv & Hvo & Ht)%wf_text_spec Hva.
  set (lit := buildExprLiteral MATCH_EQ v).
  assert (lit ≠ [] ∧ Forall (λ c, not_newline c = true) lit ∧
          head_ok (rev (js " == " ++ lit)) ∧ balanced (js " == " ++ lit) = true ∧
          (∀ t, clean AND 0 (js " == " ++ lit) t) ∧ includes OR (41%N :: js " == " ++ lit) = false)
    as (L1 & L2 & L3 & L4 & L5 & L6).
  { destruct (build_literal_cases v Hv Ht) as [[E Hc]|E]; fold lit in E; rewrite E.
    - destruct Hc as [->|[->|Hn]].
      + split_and!; try done. by repeat apply Forall_cons_2.
      + split_and!; try done. by repeat apply Forall_cons_2.
      + destruct (op_num_post (js " ==") v) as (H1 & H2 & H3 & H4); [vm_compute; set_solver|done|].
        split_and!; [by apply numeric_literal_chars in Hn as [? _]|by apply plain_no_newline|done..].
    - assert (34%N ∉ OR ∧ 34%N ∉ AND) as [Q1 Q2] by (vm_compute; set_solver). split_and!.
      + done.
      + apply Forall_app; split; [by apply Forall_cons_2|]. apply Forall_app; split; [by apply plain_no_newline|by apply Forall_cons_2].
      + rewrite !app_assoc. by rewrite rev_app_distr.
      + apply balanced_app; [done|by apply quoted_balanced].
      + intros t. apply clean_app. split; [vm_compute; by repeat split|]. apply clean_app.
        split; [vm_compute; by repeat split|]. apply clean_app. split.
        * by apply clean_text.
        * apply plain_no_paren, balanced_no_paren, balanced_spec in Hv as [_ Hv]. rewrite Hv.
          vm_compute; by repeat split.
      + change (41%N :: js " == " ++ dq ++ v ++ dq) with ((41%N :: js " == ") ++ 34%N :: v ++ 34%N :: []).
        by rewrite !includes_barrier, Hvo by done. }
  split.
  - apply shape_part; [apply name_like_src|done|by intros [_ ?]%app_nil|done..].
  - apply shape_balanced; [apply name_like_src|done..].
  - apply parse_eq; [done..|]. apply parse_build_literal; [by apply plain_units|done].
  - rewrite shape_or by (done || apply name_like_src). by rewrite L6.
Qed.
End path_reads.

Lemma fn_text pre p t :
  forallb plain_char p = true → (pre ++ js "(" ++ json_quote p ++ js ")") ++ t = pre ++ qt p ++ t.
Proof. intros Hp. rewrite json_quote_plain by done. unfold qt. by rewrite <- !app_assoc. Qed.

Lemma time_condition_reads c : wf_time c = true → reads (buildTimeConditionExpr c) (CTime c).
Proof.
  unfold wf_time. rewrite !andb_true_iff. intros [[[Hf Hz] Hp] Hm].
  pose proof Hp as [Hpc _]%plain_spec. unfold buildTimeConditionExpr.
  destruct c as [f tz md v s e]. cbn [timeFunc timezone t_mode t_value rangeStart rangeEnd] in *.
  destruct (bool_decide (md = MATCH_RANGE)) eqn:Em.
  - apply bool_decide_eq_true in Em as ->. apply andb_true_iff in Hm as [[Hv Hs]%andb_true_iff He].
    apply bool_decide_eq_true in Hv as ->. rewrite normalize_time by done.
    cbn [timeFunc timezone t_mode t_value rangeStart rangeEnd]. rewrite bool_decide_eq_true_2 by done.
    rewrite !numeric_trim by done. rewrite Hs, He. cbn [negb orb].
    rewrite fn_text by done.
    rewrite !fn_text by done. by apply reads_time_range.
  - rewrite !andb_true_iff in Hm. destruct Hm as [[[Hmd Hv] Hs] He].
    apply bool_decide_eq_true in Hs as ->. apply bool_decide_eq_true in He as ->.
    apply bool_decide_eq_true in Hmd.
    assert (∃ op, op ∈ [js "=="; js ">="; js "<"] ∧ time_mode_op md = op ∧ time_op_mode op = md
                  ∧ option_has SOURCE_TIME md = true) as (op & Hop & Eop & Emd & Hopt).
    { clear Em. revert md Hmd. apply Forall_forall.
      apply Forall_cons_2; [exists (js "=="); split_and!; [set_solver|done..]|].
      apply Forall_cons_2; [exists (js ">="); split_and!; [set_solver|done..]|].
      apply Forall_cons_2; [exists (js "<"); split_and!; [set_solver|done..]|done]. }
    rewrite normalize_time by done.
    cbn [timeFunc timezone t_mode t_value rangeStart rangeEnd]. rewrite Em.
    rewrite !numeric_trim by done. rewrite Hv. cbn [negb].
    rewrite fn_text by done. rewrite Eop, <- Emd. by apply reads_time_cmp.
Qed.

Lemma param_header_condition_reads c :
  wf_param_header c = true → reads (buildRequestConditionExpr (CParamHeader c)) (CParamHeader c).
Proof.
  unfold wf_param_header. rewrite !andb_true_iff, !orb_true_iff, !andb_true_iff.
  intros [[Ht (Hp & Hor & Htr)%wf_text_spec] Hm]. destruct c as [s p md v].
  cbn [source path ph_mode ph_value] in *. unfold buildRequestConditionExpr.
  assert (∀ t, match s with
               | Header => js "header(" ++ json_quote p ++ js ")"
               | Param => js "param(" ++ json_quote p ++ js ")"
               end ++ t = src_name s ++ qt p ++ t) as Esrc.
  { intros t. destruct s; rewrite <- fn_text by done; done. }
  assert (option_has (src_name s) md = true) as Hopt.
  { destruct Hm as [[[Hm _]|[[Hs Hm] _]]|[[Hm _] _]]; apply bool_decide_eq_true in Hm as ->;
      [by destruct s| |by destruct s]. by apply bool_decide_eq_true in Hs as ->. }
  rewrite normalize_param_header by done. cbn [source path ph_mode ph_value].
  rewrite Htr, Ht. cbn [negb].
  destruct Hm as [[[Hm Hv]|[[Hs Hm] Hv]]|[[Hm Hv] Hva]]; apply bool_decide_eq_true in Hm as ->.
  - apply bool_decide_eq_true in Hv as ->. rewrite bool_decide_eq_true_2 by done.
    replace (match s with Param => _ | Header => _ end) with
      (src_name s ++ qt p ++ match s with Param => js " != nil" | Header => js " != " ++ dq ++ dq end)
      by (destruct s; by rewrite Esrc). by apply reads_exists.
  - apply bool_decide_eq_true in Hs as ->. apply wf_text_spec in Hv as (Hv & Hvo & Hvt).
    replace (bool_decide (MATCH_CONTAINS = MATCH_EXISTS)) with false by done.
    rewrite bool_decide_eq_true_2 by done. rewrite (Esrc (js ", " ++ _)).
    unfold buildExprLiteral. rewrite Hvt, json_quote_plain by done. by apply reads_contains.
  - replace (bool_decide (MATCH_EQ = MATCH_EXISTS)) with false by done.
    replace (bool_decide (MATCH_EQ = MATCH_CONTAINS)) with false by done.
    replace (bool_decide (MATCH_EQ ∈ [MATCH_GT; MATCH_GTE; MATCH_LT; MATCH_LTE])) with false by done.
    rewrite Esrc. apply reads_eq; [done..|]. by apply negb_true_iff in Hva.
Qed.

Lemma condition_reads c : wf_condition c = true → reads (buildRequestConditionExpr c) c.
Proof. destruct c; [apply time_condition_reads|apply param_header_condition_reads]. Qed.

(** ** A rule group factor *)

Lemma m_group_any n k bef w t cs y :
  w ≠ [] → k (mk (rev w ++ bef) t (<[n := Some w]> cs)) = Some y →
  (∀ t1 t2 bef' cs', t = t1 ++ t2 → t1 ≠ [] → k (mk bef' t2 cs') = None) →
  m (RGroup n (rplus (RChar any_unit))) k (mk bef (w ++ t) cs) = Some y.
Proof.
  intros Hne Hk Hno. rewrite m_group. destruct w as [|c w]; [done|].
  change (mk bef ((c :: w) ++ t) cs) with (mk bef (c :: w ++ t) cs). rewrite m_plus by done.
  apply star_run_backtrack.
  - by apply Forall_forall.
  - cbn [before after caps]. rewrite take_consumed. simpl in Hk. by rewrite <- app_assoc in Hk.
  - intros t1 t2 E Ht1. by apply (Hno t1).
Qed.

(** The mark [ ? ] occurs once in the tail of a factor. *)
Lemma factor_tail_marks mult t1 t2 :
  is_numeric_literal mult = true → js " ? " ++ mult ++ js " : 1)" = t1 ++ t2 → t1 ≠ [] →
  starts_with (js " ? ") t2 = false.
Proof.
  intros Hm E Ht1. destruct (starts_with (js " ? ") t2) eqn:Es; [|done].
  apply starts_with_spec in Es as [t ->]. destruct t1 as [|c t1]; [done|].
  change (js " ? " ++ mult ++ js " : 1)") with (32%N :: 63%N :: 32%N :: mult ++ js " : 1)") in E.
  destruct t1 as [|d t1]; [by vm_compute in E|].
  injection E as _ _ E.
  assert (63%N ∈ 32%N :: mult ++ js " : 1)") as Hin.
  { rewrite E, elem_of_app. right. vm_compute js. set_solver. }
  apply elem_of_cons in Hin as [?|Hin]; [done|]. apply elem_of_app in Hin as [Hin|Hin].
  - by destruct (numeric_not_in 63 mult Hm eq_refl Hin).
  - vm_compute in Hin. set_solver.
Qed.

Lemma match_factor body mult :
  body ≠ [] → is_numeric_literal mult = true →
  match_re 2 FACTOR_RE (js "(" ++ body ++ js " ? " ++ mult ++ js " : 1)")
  = Some [Some (js "(" ++ body ++ js " ? " ++ mult ++ js " : 1)"); Some body; Some mult].
Proof.
  intros Hne Hm. unfold FACTOR_RE. rewrite (match_re_some _ _ _ [None; Some body; Some mult]); [done|].
  intros k. eexists. intros y Hk. cbn [rseq]. rewrite !m_seq, m_lit.
  apply m_group_any; [done| |].
  - rewrite m_lit. apply m_num_commit; [done|done|].
    rewrite <- (app_nil_r (js " : 1)")), m_lit. exact Hk.
  - intros t1 t2 bef' cs' E Ht1. by apply m_lit_fail, (factor_tail_marks mult t1).
Qed.

Lemma parse_conjuncts_all es cs :
  Forall2 (λ e c, trimmed e ∧ tryParseRequestCondition e = Ret (Some c)) es cs →
  parse_conjuncts es = Ret (Some cs).
Proof.
  induction 1 as [|e c es cs [Ht He] _ IH]; [done|]. cbn [parse_conjuncts].
  rewrite trim_id, He by done. simpl. by rewrite IH.
Qed.

(** The conjuncts [buildRuleGroupFactor] writes. *)
Definition conjuncts (es : list str) : list str :=
  match es with
  | [e] => [e]
  | _ => map (λ e, if includes OR e then js "(" ++ e ++ js ")" else e) es
  end.

Lemma conjuncts_reads es cs :
  Forall2 reads es cs →
  Forall (part_ok AND) (conjuncts es) ∧ Forall (λ e, balanced e = true) (conjuncts es)
  ∧ Forall2 (λ e c, trimmed e ∧ tryParseRequestCondition e = Ret (Some c)) (conjuncts es) cs.
Proof.
  assert (G : ∀ es cs, Forall2 reads es cs →
    let l := map (λ e, if includes OR e then js "(" ++ e ++ js ")" else e) es in
    Forall (part_ok AND) l ∧ Forall (λ e, balanced e = true) l
    ∧ Forall2 (λ e c, trimmed e ∧ tryParseRequestCondition e = Ret (Some c)) l cs).
  { clear. induction 1 as [|e c es cs [Hp Hb Hr Ho] _ IH]; cbv zeta in *; [done|].
    destruct IH as (I1 & I2 & I3). cbn [map]. pose proof Hp as [Ht _].
    destruct (includes OR e); [|split_and!; by constructor].
    change (js "(" ++ e ++ js ")") with (40%N :: e ++ [41%N]).
    assert (trimmed (40%N :: e ++ [41%N])) by (split; [done|rewrite app_comm_cons, rev_app_distr; done]).
    split_and!; (constructor; [|done]).
    - split_and!; [done|done| |by intros t; apply clean_group].
      by apply balanced_group, balanced_spec in Hb as [_ ?].
    - by apply balanced_group.
    - auto. }
  intros H. destruct es as [|e [|e' es]]; [by apply G| |by apply G].
  inversion H as [|? c ? ? [Hp Hb Hr _] Hnil]; subst. inversion Hnil; subst.
  pose proof Hp as [Ht _]. simpl. split_and!; (constructor; [done|constructor]).
Qed.

Definition MUL := js " * ".

Lemma balanced_join sep es :
  balanced sep = true → Forall (λ e, balanced e = true) es → balanced (join sep es) = true.
Proof.
  intros Hs. induction 1 as [|e [|e' es] He Hes IH]; [done..|].
  rewrite join_cons by done. auto with js.
Qed.

Lemma group_reads g :
  wf_group g = true →
  part_ok MUL (buildRuleGroupFactor g) ∧ tryParseRuleGroupFactor (buildRuleGroupFactor g) = Ret (Some g)
  ∧ balanced (buildRuleGroupFactor g) = true.
Proof.
  unfold wf_group. rewrite !andb_true_iff, negb_true_iff, bool_decide_eq_false. intros [[Hm Hne] Hc].
  destruct g as [conds mult]. cbn [conditions multiplier] in *.
  set (es := map buildRequestConditionExpr conds).
  assert (Forall2 reads es conds) as Hr.
  { unfold es. clear Hne es. induction conds as [|c conds IH]; [constructor|].
    cbn [forallb] in Hc. apply andb_true_iff in Hc as [H1 H2].
    constructor; [by apply condition_reads|by apply IH]. }
  assert (es ≠ []) as Hes by (by destruct conds).
  assert (List.filter truthy es = es) as Hf.
  { apply bfilter_id. intros e He. apply list_elem_of_lookup in He as [i Hi].
    destruct (Forall2_lookup_l _ _ _ _ _ Hr Hi) as (c & _ & Hrd).
    destruct (reads_part _ _ Hrd) as (_ & Hn & _). by destruct e. }
  destruct (conjuncts_reads es conds Hr) as (C1 & C2 & C3).
  set (body := join AND (conjuncts es)).
  assert (conjuncts es ≠ []) as Hcne by (by destruct es as [|? [|? ?]]).
  assert (buildRuleGroupFactor {| conditions := conds; multiplier := mult |}
          = js "(" ++ body ++ js " ? " ++ mult ++ js " : 1)") as E.
  { unfold buildRuleGroupFactor. cbn [conditions multiplier]. rewrite numeric_trim, Hm by done.
    cbn [negb]. fold es. rewrite Hf. unfold body, conjuncts. clear -Hes. by destruct es as [|? [|? ?]]. }
  assert (body ≠ []) as Hbne.
  { unfold body. apply join_trimmed; [done|]. eapply Forall_impl; [exact C1|]. by intros ? (? & ? & _). }
  assert (balanced (body ++ js " ? " ++ mult ++ js " : 1") = true) as Hbb.
  { apply balanced_app; [by apply balanced_join|].
    apply balanced_app; [done|]. by apply balanced_app; [apply numeric_balanced|]. }
  assert (js "(" ++ body ++ js " ? " ++ mult ++ js " : 1)"
          = 40%N :: (body ++ js " ? " ++ mult ++ js " : 1") ++ [41%N]) as E' by (by rewrite <- !app_assoc).
  rewrite E. split_and!.
  - rewrite E'. split_and!; [|done| |by intros t; apply clean_group].
    + split; [done|]. rewrite app_comm_cons, rev_app_distr. done.
    + by apply balanced_group, balanced_spec in Hbb as [_ ?].
  - unfold tryParseRuleGroupFactor. rewrite match_factor by done.
    change (cap _ 1) with body. change (cap _ 2) with mult.
    unfold splitTopLevelAnd, body. rewrite split_top_join by done.
    rewrite (parse_conjuncts_all _ conds) by done. simpl. by destruct conds.
  - rewrite E'. by apply balanced_group.
Qed.
