(* ===== verification/BillingRules.v ===== *)
(** * Properties of the request-rule language

    The theorems about [billing-expr.ts] that its callers (the rule editor and
    the price views) rely on. *)

From S2P Require Import Prelude JsString JsNumber Json Regex BillingExpr BillingText BillingRuleFacts.

(** ** Rule expressions *)

Lemma groups_reads gs :
  forallb wf_group gs = true →
  Forall2 (λ e g, part_ok MUL e ∧ tryParseRuleGroupFactor e = Ret (Some g) ∧ balanced e = true)
    (map buildRuleGroupFactor gs) gs.
Proof.
  induction gs as [|g gs IH]; [constructor|]. cbn [forallb map]. rewrite andb_true_iff. intros [Hg Hgs].
  constructor; [by apply group_reads|by apply IH].
Qed.

Lemma parse_factors_all es gs :
  Forall2 (λ e g, part_ok MUL e ∧ tryParseRuleGroupFactor e = Ret (Some g) ∧ balanced e = true) es gs →
  parse_factors es = Ret (Some gs).
Proof.
  induction 1 as [|e g es gs (_ & He & _) _ IH]; [done|]. cbn [parse_factors]. rewrite He. simpl. by rewrite IH.
Qed.

Lemma factors_parts gs :
  forallb wf_group gs = true → Forall (part_ok MUL) (map buildRuleGroupFactor gs).
Proof.
  intros H%groups_reads. induction H as [|e g es gs' (He & _) _ IH]; by constructor.
Qed.

Lemma build_rule_expr gs :
  forallb wf_group gs = true →
  buildRequestRuleExpr gs = join MUL (map buildRuleGroupFactor gs).
Proof.
  intros H. unfold buildRequestRuleExpr. rewrite bfilter_id; [done|].
  intros e He. pose proof (factors_parts gs H) as Hp. rewrite Forall_forall in Hp.
  destruct (Hp e He) as (_ & Hne & _). by destruct e.
Qed.

Lemma rule_expr_trimmed gs :
  gs ≠ [] → forallb wf_group gs = true →
  trimmed (buildRequestRuleExpr gs) ∧ buildRequestRuleExpr gs ≠ [].
Proof.
  intros Hne H. rewrite build_rule_expr by done. apply join_trimmed; [by destruct gs|].
  eapply Forall_impl; [by apply factors_parts|]. by intros e (? & ? & _).
Qed.

Lemma rules_read_back (groups : list RequestRuleGroup) (Hwf : forallb wf_group groups = true) :
  tryParseRequestRuleExpr (buildRequestRuleExpr groups) = Ret (Some groups).
Proof.
  destruct groups as [|g gs]; [done|]. set (l := g :: gs) in *.
  destruct (rule_expr_trimmed l ltac:(done) Hwf) as [Ht Hne].
  unfold tryParseRequestRuleExpr. rewrite trim_id by done.
  replace (truthy (buildRequestRuleExpr l)) with true by (by destruct (buildRequestRuleExpr l)).
  cbn [negb]. rewrite build_rule_expr by done. unfold splitTopLevelMultiply.
  rewrite split_top_join; [|done|done|by apply factors_parts].
  by apply parse_factors_all, groups_reads.
Qed.

(** ** Splitting a combined expression *)

Lemma single_part e : part_ok MUL e → splitTopLevelMultiply e = [e].
Proof. intros He. apply (split_top_join MUL [e]); [done|done|]. by constructor. Qed.

Lemma partition_rules gs :
  forallb wf_group gs = true →
  partition_parts (map buildRuleGroupFactor gs) = Ret (map buildRuleGroupFactor gs, []).
Proof.
  induction gs as [|g gs IH]; [done|]. cbn [forallb map partition_parts].
  rewrite andb_true_iff. intros [Hg Hgs]. destruct (group_reads g Hg) as (Hp & Hr & _).
  pose proof Hp as (Ht & Hne & _). unfold tryParseRequestRuleExpr at 1. rewrite trim_id by done.
  replace (truthy (buildRuleGroupFactor g)) with true by (by destruct (buildRuleGroupFactor g)).
  cbn [negb]. rewrite single_part by done. cbn [parse_factors]. rewrite Hr. simpl. rewrite IH by done. done.
Qed.

(** A factor that matches [FACTOR_RE] ends with the mark. *)
Lemma factor_re_ends s : match_re 2 FACTOR_RE s ≠ None → ends_with (js " : 1)") s = true.
Proof.
  unfold FACTOR_RE. rewrite match_re_bol. unfold match_at. rewrite m_group. cbn [rseq]. rewrite !m_seq.
  set (r := RSeq (rlit (js "(")) (RSeq (RGroup 1 (rplus (RChar any_unit))) (RSeq (rlit (js " ? ")) (RGroup 2 r_num)))).
  set (k := λ y, Some _). destruct (m (rlit (js "(")) _ _) as [y|] eqn:E; [intros _|done].
  assert (m r (m (rlit (js " : 1)")) (m REol k)) (mk [] s (replicate 3 None)) = Some y) as E'
    by (unfold r; rewrite !m_seq; exact E).
  apply (m_over (λ _, True)) in E'; [|unfold r; vm_compute; tauto].
  destruct E' as (w & [b a cs] & Ha & _ & Hm). simpl in Ha.
  destruct (starts_with (js " : 1)") a) eqn:Es; [|by rewrite m_lit_fail in Hm].
  apply starts_with_spec in Es as [t ->]. rewrite m_lit in Hm. destruct t as [|c t]; [|done].
  rewrite app_nil_r in Ha. subst s. unfold ends_with. rewrite rev_app_distr. apply starts_with_app.
Qed.

Lemma base_not_rule base :
  balanced base = true → ends_with (js " : 1") base = false →
  tryParseRequestRuleExpr (40%N :: base ++ [41%N]) = Ret None ∧ part_ok MUL (40%N :: base ++ [41%N]).
Proof.
  intros Hb He.
  assert (trimmed (40%N :: base ++ [41%N])) as Ht by (split; [done|rewrite app_comm_cons, rev_app_distr; done]).
  assert (part_ok MUL (40%N :: base ++ [41%N])) as Hp.
  { split_and!; [done|done| |by intros t; apply clean_group].
    by apply balanced_group, balanced_spec in Hb as [_ ?]. }
  split; [|done]. unfold tryParseRequestRuleExpr. rewrite trim_id by done. cbn [truthy negb].
  rewrite single_part by done. cbn [parse_factors]. unfold tryParseRuleGroupFactor.
  destruct (match_re 2 FACTOR_RE _) as [cs|] eqn:E; [exfalso|done].
  assert (ends_with (js " : 1)") (40%N :: base ++ [41%N]) = true) as Hend by (apply factor_re_ends; by rewrite E).
  unfold ends_with in Hend, He. rewrite app_comm_cons, rev_app_distr in Hend.
  change (starts_with (rev (js " : 1")) (rev base ++ [40%N]) = true) in Hend.
  rewrite starts_with_barrier in Hend by (vm_compute; set_solver). congruence.
Qed.

Lemma split_of_combined (base : str) (groups : list RequestRuleGroup)
  (Ht : trim base = base) (Hne : base ≠ []) (Hb : balanced base = true)
  (He : ends_with (js " : 1") base = false)
  (Hg : groups ≠ []) (Hwf : forallb wf_group groups = true) :
  splitBillingExprAndRequestRules (combineBillingExpr base (buildRequestRuleExpr groups))
  = Ret {| billingExpr := unwrapOuterParens base; requestRuleExpr := buildRequestRuleExpr groups |}.
Proof.
  destruct (rule_expr_trimmed groups Hg Hwf) as [Hrt Hrne].
  destruct (base_not_rule base Hb He) as [Hbase Hbp].
  unfold combineBillingExpr. rewrite Ht, (trim_id (buildRequestRuleExpr groups)) by done.
  replace (truthy base) with true by (by destruct base).
  replace (truthy (buildRequestRuleExpr groups)) with true by (by destruct (buildRequestRuleExpr groups)).
  cbn [negb].
  set (parts := (40%N :: base ++ [41%N]) :: map buildRuleGroupFactor groups).
  assert (js "(" ++ base ++ js ") * " ++ buildRequestRuleExpr groups = join MUL parts) as ->.
  { unfold parts. rewrite build_rule_expr, join_cons by (done || by destruct groups).
    change (40%N :: base ++ [41%N]) with (js "(" ++ base ++ js ")"). by rewrite <- !app_assoc. }
  assert (Forall (part_ok MUL) parts) as Hparts by (constructor; [done|by apply factors_parts]).
  destruct (join_trimmed MUL parts) as [Hjt Hjne]; [done| |].
  { eapply Forall_impl; [exact Hparts|]. by intros e (? & ? & _). }
  unfold splitBillingExprAndRequestRules. rewrite trim_id by done.
  replace (truthy (join MUL parts)) with true by (by destruct (join MUL parts)). cbn [negb].
  unfold splitTopLevelMultiply. rewrite split_top_join by done.
  assert (length parts <=? 1 = false) as -> by (unfold parts; by destruct groups).
  unfold parts. cbn [partition_parts]. rewrite Hbase, partition_rules by done.
  unfold mbind, outcome_bind. cbn [fst snd].
  rewrite (unwrap_group base Hb), build_rule_expr by done. by destruct groups.
Qed.

(** ** Outer parentheses *)

Definition opening (c : N) : bool := is_space c || (c =? 40)%N.
Definition closing (c : N) : bool := is_space c || (c =? 41)%N.

(** [s] is [core] inside spaces and parentheses. *)
Definition wrapped (core s : str) : Prop :=
  ∃ l r, s = l ++ core ++ r ∧ Forall (λ c, opening c = true) l ∧ Forall (λ c, closing c = true) r.

Lemma wrapped_trans a b c : wrapped a b → wrapped b c → wrapped a c.
Proof.
  intros (l1 & r1 & -> & Hl1 & Hr1) (l2 & r2 & -> & Hl2 & Hr2).
  exists (l2 ++ l1), (r1 ++ r2). rewrite <- !app_assoc. split_and!; [done|by apply Forall_app..].
Qed.

Lemma wrapped_trim s : wrapped (trim s) s.
Proof.
  destruct (trim_decompose s) as (p & q & E & Hp & Hq). exists p, q. split_and!; [done|..].
  - eapply Forall_impl; [exact Hp|]. intros c Hc. unfold opening. by rewrite Hc.
  - eapply Forall_impl; [exact Hq|]. intros c Hc. unfold closing. by rewrite Hc.
Qed.

Lemma wrapped_slice s : hasFullOuterParens s = true → wrapped (slice_inner s) s.
Proof.
  unfold hasFullOuterParens. rewrite !andb_true_iff. intros [[Hs He] _].
  apply starts_with_spec in Hs as [u ->]. unfold ends_with in He.
  apply starts_with_spec in He as [v Hv]. change (js "(" ++ u) with (40%N :: u) in *.
  apply (f_equal (rev (A:=N))) in Hv. rewrite rev_involutive, rev_app_distr in Hv.
  change (rev (rev (js ")"))) with [41%N] in Hv.
  destruct (rev v) as [|d w]; [done|]. injection Hv as <- ->.
  exists [40%N], [41%N]. split_and!; [|by constructor..].
  unfold slice_inner. cbn [tl]. by rewrite removelast_last.
Qed.

Lemma wrapped_unwrap_go fuel s : wrapped (unwrap_go fuel s) s.
Proof.
  revert s. induction fuel as [|f IH]; intros s; cbn [unwrap_go].
  - exists [], []. by rewrite app_nil_r.
  - destruct (hasFullOuterParens s) eqn:E; [|exists [], []; by rewrite app_nil_r].
    eapply wrapped_trans; [apply IH|]. eapply wrapped_trans; [apply wrapped_trim|by apply wrapped_slice].
Qed.

(** [unwrapOuterParens] terminates on every text with a trimmed text that has
    no further pair of outer parentheses, and it removes nothing but spaces and
    parentheses around it: the source is that text between opening parentheses
    and spaces on the left and closing parentheses and spaces on the right. *)
Theorem unwrap_outer_parens_complete (expr : str) :
  hasFullOuterParens (unwrapOuterParens expr) = false ∧ trimmed (unwrapOuterParens expr) ∧
  wrapped (unwrapOuterParens expr) expr.
Proof.
  unfold unwrapOuterParens.
  destruct (unwrap_go_spec (length expr) (trim expr)) as [H1 H2]; [apply trim_length|apply trim_trimmed|].
  split_and!; [done|done|]. eapply wrapped_trans; [apply wrapped_unwrap_go|apply wrapped_trim].
Qed.

(** ** Normalisation *)

Lemma mode_or_has src md d : option_has src d = true → option_has src (mode_or src md d) = true.
Proof. intros Hd. unfold mode_or. destruct md as [x|]; [|done]. by destruct (option_has src x) eqn:E. Qed.

(** [normalizeCondition] always returns a condition the editor can show (a time
    condition over a known function with a time zone, a mode its source
    offers), and normalising a normalised condition changes nothing. *)
Theorem normalize_condition_sound (cond : option PartialCondition) :
  match normalizeCondition cond with
  | CTime c => isTimeFunc (timeFunc c) = true ∧ timezone c ≠ [] ∧
               t_mode c ∈ map mo_value (getRequestRuleMatchOptions SOURCE_TIME)
  | CParamHeader c => ph_mode c ∈ map mo_value (getRequestRuleMatchOptions (src_name (source c)))
  end ∧
  normalizeCondition (Some (partial_of (normalizeCondition cond))) = normalizeCondition cond.
Proof.
  destruct (normalizeCondition cond) as [c|c] eqn:E; unfold normalizeCondition in E; cbv zeta in E;
    destruct (bool_decide (_ = Some SOURCE_TIME)) in E; simplify_eq.
  - match goal with |- context [CTime ?c] => set (n := c) end.
    assert (isTimeFunc (timeFunc n) = true ∧ timezone n ≠ [] ∧ option_has SOURCE_TIME (t_mode n) = true) as (H1 & H2 & H3).
    { unfold n. cbn [timeFunc timezone t_mode]. split_and!.
      - destruct (mbind _ cond) as [f|]; [|done]. by destruct (isTimeFunc f) eqn:Ef.
      - unfold or_default. by destruct cond as [[? ? ? ? ? [[|]|] ? ?]|].
      - by apply mode_or_has. }
    rewrite <- option_has_elem. split; [done|]. apply normalize_time; [done| |done].
    destruct (timezone n); [by destruct H2|done].
  - match goal with |- context [CParamHeader ?c] => set (n := c) end.
    assert (option_has (src_name (source n)) (ph_mode n) = true) as H.
    { unfold n. cbn [source ph_mode]. destruct (bool_decide (_ = Some SOURCE_HEADER)); by apply mode_or_has. }
    rewrite <- option_has_elem. split; [done|]. by apply normalize_param_header.
Qed.

(** ** Guarded parameter conditions *)

Lemma m_src_param k bef t cs :
  m (RGroup 1 (ralt [rlit (js "param"); rlit (js "header")])) k (mk bef (js "param" ++ t) cs)
  = k (mk (rev (js "param") ++ bef) t (<[1 := Some (js "param")]> cs)).
Proof. apply (m_src Param). Qed.

(** The second conjunct of a guarded parameter condition is no condition of its own. *)
Lemma param_tail_unknown p post :
  quotable p → starts_with (js " != nil") post = false → starts_with (js " == ") post = false →
  tryParseRequestCondition (js "param" ++ qt p ++ post) = Ret None.
Proof.
  intros Hp H1 H2. unfold tryParseRequestCondition, tryParseComparison, tryParseEquality.
  rewrite (qt_time p Hp Param), header_re_param.
  unfold PARAM_EXISTS_RE, HEADER_HAS_RE, PARAM_HAS_RE, PARAM_CMP_RE, EQ_RE.
  assert (∀ x, starts_with (js " != nil" ++ x) post = false) as H1'.
  { intros x. destruct (starts_with (js " != nil" ++ x) post) eqn:E; [|done].
    apply starts_with_spec in E as [t ->]. by rewrite <- app_assoc, starts_with_app in H1. }
  rewrite (match_re_none 2 (rseq [rlit (js "has(header"); _; _; _; _; _])) by done.
  rewrite !match_re_none; [done|..]; intros k; cbn [rseq]; rewrite !m_seq.
  - rewrite m_src_param, m_quoted by done. by apply m_lit_fail.
  - rewrite m_lit, m_quoted by done. apply m_lit_fail, (H1' (js " && param")).
  - rewrite m_lit, m_quoted by done. apply m_lit_fail, (H1' (js " && has(param")).
  - rewrite m_lit, m_quoted by done. by apply m_lit_fail.
Qed.

Lemma has_param_unknown p v : tryParseRequestCondition (has_text p Param v) = Ret None.
Proof.
  unfold tryParseRequestCondition, tryParseComparison, tryParseEquality, has_text.
  rewrite not_time by set_solver.
  unfold HEADER_EXISTS_RE, PARAM_EXISTS_RE, HEADER_HAS_RE, PARAM_HAS_RE, PARAM_CMP_RE, EQ_RE.
  by rewrite !match_re_none.
Qed.

Lemma two_conjuncts_fail e1 e2 c mult :
  reads e1 c → part_ok AND e2 → tryParseRequestCondition e2 = Ret None →
  is_numeric_literal mult = true →
  tryParseRuleGroupFactor (js "(" ++ (e1 ++ AND ++ e2) ++ js " ? " ++ mult ++ js " : 1)") = Ret None.
Proof.
  intros [Hp1 _ Hr1 _] Hp2 Hr2 Hm. pose proof Hp1 as (Ht1 & Hne1 & _). pose proof Hp2 as (Ht2 & _).
  unfold tryParseRuleGroupFactor. rewrite match_factor; [|by destruct e1|done].
  change (cap _ 1) with (join AND [e1; e2]). unfold splitTopLevelAnd.
  rewrite split_top_join; [|done|done|by constructor; [done|constructor; [done|constructor]]].
  cbn [parse_conjuncts]. rewrite !trim_id, Hr1 by done. simpl. by rewrite Hr2.
Qed.

Definition GUARDED_MODES : list str := [MATCH_CONTAINS; MATCH_GT; MATCH_GTE; MATCH_LT; MATCH_LTE].

(** The editor's text of a guarded parameter condition. *)
Lemma guarded_text p mode v :
  truthy p = true → wf_text p = true → mode ∈ GUARDED_MODES →
  (if bool_decide (mode = MATCH_CONTAINS) then wf_text v else is_numeric_literal v) = true →
  ∃ e2, buildRequestConditionExpr (ph Param p mode v) = (js "param" ++ qt p ++ js " != nil") ++ AND ++ e2
        ∧ part_ok AND e2 ∧ balanced e2 = true ∧ tryParseRequestCondition e2 = Ret None
        ∧ ∃ x w, e2 = x :: w ∧ x ∉ OR ∧ includes OR w = false.
Proof.
  intros Ht (Hp & Hor & Htr)%wf_text_spec Hmode Hv.
  unfold buildRequestConditionExpr, ph.
  assert (option_has SOURCE_PARAM mode = true) as Hopt.
  { clear -Hmode. revert mode Hmode. apply Forall_forall. by repeat apply Forall_cons_2. }
  rewrite normalize_param_header by done. cbn [source path ph_mode ph_value]. rewrite Htr, Ht. cbn [negb].
  assert (bool_decide (mode = MATCH_EXISTS) = false) as ->.
  { clear -Hmode. revert mode Hmode. apply Forall_forall. by repeat apply Forall_cons_2. }
  destruct (bool_decide (mode = MATCH_CONTAINS)) eqn:Em.
  - apply bool_decide_eq_true in Em as ->. apply wf_text_spec in Hv as (Hv & Hvo & Hvt).
    exists (has_text p Param v). split_and!.
    + unfold buildExprLiteral. rewrite Hvt, (json_quote_plain v), (json_quote_plain p) by done.
      rewrite bool_decide_eq_true_2 by done. unfold has_text, qt. by rewrite <- !app_assoc.
    + by apply has_part.
    + rewrite has_text_group. by apply balanced_app; [|apply balanced_group, has_inner_balanced].
    + apply has_param_unknown.
    + exists 104%N, (js "as(param(" ++ 34%N :: p ++ 34%N :: js "), " ++ 34%N :: v ++ 34%N :: js ")").
      assert (34%N ∉ OR) by (vm_compute; set_solver). split_and!; [unfold has_text, qt; by rewrite <- !app_assoc|vm_compute; set_solver|].
      by rewrite !includes_barrier, Hor, Hvo by done.
  - assert (mode ∈ [MATCH_GT; MATCH_GTE; MATCH_LT; MATCH_LTE]) as Hnum.
    { apply bool_decide_eq_false in Em. apply elem_of_cons in Hmode as [?|?]; done. }
    rewrite bool_decide_eq_true_2, numeric_trim, Hv by done. cbn [negb].
    assert (js " " ++ param_mode_op mode ∈ [js " =="; js " >="; js " <"; js " >"; js " <="]
            ∧ ∀ t, starts_with (js " != nil") ((js " " ++ param_mode_op mode) ++ t) = false
                 ∧ starts_with (js " == ") ((js " " ++ param_mode_op mode) ++ t) = false) as [Hop Hpre].
    { clear -Hnum. revert mode Hnum. apply Forall_forall.
      repeat apply Forall_cons_2; [vm_compute; set_solver..|done]. }
    destruct (op_num_post _ v Hop Hv) as (P1 & P2 & P3 & P4).
    exists (js "param" ++ qt p ++ (js " " ++ param_mode_op mode) ++ 32%N :: v). split_and!.
    + rewrite !json_quote_plain by done. unfold qt. by rewrite <- !app_assoc.
    + apply shape_part; [apply (name_like_src Param)|done|by intros [_ ?]%app_nil|done..].
    + apply shape_balanced; [apply (name_like_src Param)|done..].
    + destruct (Hpre (32%N :: v)). apply param_tail_unknown; [by apply plain_quotable|done..].
    + exists 112%N, (js "aram" ++ qt p ++ (js " " ++ param_mode_op mode) ++ 32%N :: v). split_and!; [done|vm_compute; set_solver|].
      rewrite shape_or; [done| |done]. split; [done|]. vm_compute. by repeat constructor.
Qed.

(** A parameter condition that the builder guards with a nil check (contains,
    and the four numeric comparisons) does not come back: whatever the path, value
    and multiplier, the rule text the editor writes for it is rejected by
    [tryParseRequestRuleExpr], because [splitTopLevelAnd] cuts the guard from the
    comparison before the patterns for the guarded form are tried. *)
Theorem guarded_param_condition_not_read_back (p mode v mult : str)
  (Hp : truthy p = true ∧ wf_text p = true) (Hmode : mode ∈ GUARDED_MODES)
  (Hv : (if bool_decide (mode = MATCH_CONTAINS) then wf_text v else is_numeric_literal v) = true)
  (Hm : is_numeric_literal mult = true) :
  tryParseRequestRuleExpr (buildRequestRuleExpr [{| conditions := [ph Param p mode v]; multiplier := mult |}])
  = Ret None.
Proof.
  destruct Hp as [Ht Hp]. pose proof Hp as (Hpc & Hor & Htr)%wf_text_spec.
  destruct (guarded_text p mode v Ht Hp Hmode Hv) as (e2 & E & He2 & Hb2 & Hr2 & _).
  pose proof (reads_exists p Ht Hpc Hor Param) as Hr1.
  set (e1 := js "param" ++ qt p ++ js " != nil") in *.
  assert (buildRequestRuleExpr [{| conditions := [ph Param p mode v]; multiplier := mult |}]
          = js "(" ++ (e1 ++ AND ++ e2) ++ js " ? " ++ mult ++ js " : 1)") as ->.
  { unfold buildRequestRuleExpr, buildRuleGroupFactor. cbn [map conditions multiplier].
    rewrite E, numeric_trim, Hm by done. by cbn. }
  set (text := js "(" ++ _).
  assert (part_ok MUL text ∧ trimmed text) as [Hpart Htt].
  { assert (text = 40%N :: ((e1 ++ AND ++ e2) ++ js " ? " ++ mult ++ js " : 1") ++ [41%N]) as ->
      by (unfold text; by rewrite <- !app_assoc).
    assert (balanced ((e1 ++ AND ++ e2) ++ js " ? " ++ mult ++ js " : 1") = true) as Hb.
    { pose proof (reads_balanced _ _ Hr1). pose proof (numeric_balanced mult Hm).
      assert (balanced AND = true ∧ balanced (js " ? ") = true ∧ balanced (js " : 1") = true) as (? & ? & ?) by done.
      auto 10 with js. }
    assert (trimmed (40%N :: ((e1 ++ AND ++ e2) ++ js " ? " ++ mult ++ js " : 1") ++ [41%N]))
      by (split; [done|rewrite app_comm_cons, rev_app_distr; done]).
    split; [|done]. split_and!; [done|done| |by intros t; apply clean_group].
    by apply balanced_group, balanced_spec in Hb as [_ ?]. }
  unfold tryParseRequestRuleExpr. rewrite trim_id by done. replace (truthy text) with true by done.
  cbn [negb]. rewrite single_part by done. cbn [parse_factors]. unfold text.
  by rewrite (two_conjuncts_fail e1 e2 (ph Param p MATCH_EXISTS [])).
Qed.

Lemma guarded_param_condition_not_read_back_witness :
  tryParseRequestRuleExpr
    (buildRequestRuleExpr [{| conditions := [ph Param (js "max_tokens") MATCH_GT (js "4096")]; multiplier := js "2" |}])
  = Ret None.
Proof.
  apply (guarded_param_condition_not_read_back (js "max_tokens") MATCH_GT (js "4096") (js "2")).
  - split; vm_compute; reflexivity.
  - vm_compute. set_solver.
  - vm_compute. reflexivity.
  - vm_compute. reflexivity.
Defined.

(** ** Everything the editor writes

    Groups as the rule editor holds them: also the parameter conditions that are written with a guard. *)

Definition guarded_condition (c : RequestCondition) : bool :=
  match c with
  | CTime _ => false
  | CParamHeader c =>
      bool_decide (source c = Param) && truthy (path c) && wf_text (path c) && bool_decide (ph_mode c ∈ GUARDED_MODES)
      && (if bool_decide (ph_mode c = MATCH_CONTAINS) then wf_text (ph_value c) else is_numeric_literal (ph_value c))
  end.

Definition written_group (g : RequestRuleGroup) : bool :=
  is_numeric_literal (multiplier g) && negb (bool_decide (conditions g = []))
  && forallb (λ c, wf_condition c || guarded_condition c) (conditions g).

Lemma guarded_not_wf c : guarded_condition c = true → wf_condition c = false.
Proof.
  destruct c as [c|[s p m v]]; [done|]. cbn [guarded_condition wf_condition]. unfold wf_param_header. cbn [source path ph_mode ph_value].
  rewrite !andb_true_iff, !bool_decide_eq_true. intros [[[[-> _] _] Hm] _].
  assert (bool_decide (m = MATCH_EXISTS) = false ∧ bool_decide (m = MATCH_EQ) = false) as [-> ->].
  { clear -Hm. revert m Hm. apply Forall_forall. by repeat apply Forall_cons_2. }
  rewrite (bool_decide_eq_false_2 (Param = Header)) by done. by rewrite !andb_false_r.
Qed.

(** The conjuncts a condition is read as, and what reading them gives. *)
Record pieces (e : str) (c : RequestCondition) (ps : list str) : Prop := {
  p_text : e = join AND ps;
  p_ne : ps ≠ [];
  p_parts : Forall (part_ok AND) ps;
  p_balanced : Forall (λ e, balanced e = true) ps;
  p_parse : ∀ rest, parse_conjuncts (ps ++ rest) =
    if wf_condition c then match parse_conjuncts rest with Ret r => Ret (option_map (cons c) r) | Throw => Throw end else Ret None }.

Lemma pieces_read e c : wf_condition c = true → part_ok AND e → balanced e = true → tryParseRequestCondition e = Ret (Some c) → pieces e c [e].
Proof.
  intros Hc Hp Hb Hr. split; [done|done|by constructor|by constructor|].
  intros rest. pose proof Hp as [Ht _]. cbn [app parse_conjuncts]. rewrite trim_id, Hr, Hc by done. cbn. by destruct (parse_conjuncts rest) as [[|]|].
Qed.

Lemma guarded_or p e2 : truthy p = true → wf_text p = true → (∃ x w, e2 = x :: w ∧ x ∉ OR ∧ includes OR w = false) →
  includes OR ((js "param" ++ qt p ++ js " != nil") ++ AND ++ e2) = false.
Proof.
  intros Ht (Hp & Hor & _)%wf_text_spec (x & w & -> & Hx & Hw). rewrite <- !app_assoc.
  rewrite shape_or by (done || apply (name_like_src Param)). unfold AND.
  change (41%N :: js " != nil" ++ js " && " ++ x :: w) with (js ") != nil && " ++ x :: w). by rewrite includes_barrier, Hw.
Qed.

Lemma guarded_pieces c : guarded_condition c = true → ∃ ps, pieces (buildRequestConditionExpr c) c ps ∧ includes OR (buildRequestConditionExpr c) = false.
Proof.
  intros Hg. pose proof (guarded_not_wf c Hg) as Hw. destruct c as [c|[s p m v]]; [done|]. cbn [guarded_condition source path ph_mode ph_value] in Hg.
  rewrite !andb_true_iff, !bool_decide_eq_true in Hg. destruct Hg as [[[[-> Ht] Hp] Hm] Hv].
  destruct (guarded_text p m v Ht Hp Hm Hv) as (e2 & E & He2 & Hb2 & Hr2 & Ho2). fold (ph Param p m v). rewrite E.
  pose proof Hp as (Hpc & Hor & Htr)%wf_text_spec. pose proof (reads_exists p Ht Hpc Hor Param) as [Hp1 Hb1 Hr1 _].
  cbn [src_name] in *. set (e1 := js "param" ++ qt p ++ js " != nil") in *.
  exists [e1; e2]. split; [|by apply guarded_or]. split; [done|done|constructor; [done|by constructor]..|].
  intros rest. pose proof Hp1 as [Ht1 _]. pose proof He2 as [Ht2 _]. cbn [app parse_conjuncts]. fold (ph Param p m v) in Hw.
  rewrite !trim_id by done. change SOURCE_PARAM with (js "param") in *. rewrite Hr1, Hw. cbn. by rewrite Hr2.
Qed.

Lemma condition_pieces c : wf_condition c || guarded_condition c = true →
  (∃ ps, pieces (buildRequestConditionExpr c) c ps) ∧
  ∃ ps, pieces (if includes OR (buildRequestConditionExpr c) then js "(" ++ buildRequestConditionExpr c ++ js ")" else buildRequestConditionExpr c) c ps.
Proof.
  intros [Hc|Hg]%orb_true_iff.
  - destruct (condition_reads c Hc) as [Hp Hb Hr Ho]. set (e := buildRequestConditionExpr c) in *. split; [exists [e]; by apply pieces_read|].
    destruct (includes OR e) eqn:Eo; [|exists [e]; by apply pieces_read]. change (js "(" ++ e ++ js ")") with (40%N :: e ++ [41%N]).
    exists [40%N :: e ++ [41%N]]. apply pieces_read; [done| |by apply balanced_group|by apply Ho].
    split_and!; [|done| |by intros t; apply clean_group].
    + split; [done|]. rewrite app_comm_cons, rev_app_distr. done.
    + by apply balanced_group, balanced_spec in Hb as [_ ?].
  - destruct (guarded_pieces c Hg) as (ps & Hps & ->). split; by exists ps.
Qed.

Lemma conjuncts_pieces cs : forallb (λ c, wf_condition c || guarded_condition c) cs = true →
  ∃ pss, Forall2 (λ ec ps, pieces ec.1 ec.2 ps) (zip (conjuncts (map buildRequestConditionExpr cs)) cs) pss ∧
         length (conjuncts (map buildRequestConditionExpr cs)) = length cs.
Proof.
  intros H. rewrite forallb_forall in H.
  assert (∀ c, c ∈ cs → wf_condition c || guarded_condition c = true) as H' by (intros c Hc; apply H; by apply list_elem_of_In).
  assert (G : ∀ f cs, (∀ c, c ∈ cs → ∃ ps, pieces (f (buildRequestConditionExpr c)) c ps) →
    ∃ pss, Forall2 (λ ec ps, pieces ec.1 ec.2 ps) (zip (map f (map buildRequestConditionExpr cs)) cs) pss).
  { clear. intros f cs. induction cs as [|c cs IH]; intros H; [by exists []|].
    destruct (H c) as [ps Hps]; [left|]. destruct IH as [pss Hpss]; [intros c' Hc'; apply H; by right|].
    exists (ps :: pss). by constructor. }
  destruct cs as [|c [|c' cs]].
  - by exists [].
  - destruct (proj1 (condition_pieces c (H' c ltac:(left)))) as [ps Hps]. exists [ps]. split; [|done]. by constructor; [|constructor].
  - destruct (G (λ e, if includes OR e then js "(" ++ e ++ js ")" else e) (c :: c' :: cs)) as [pss Hpss].
    + intros x Hx. exact (proj2 (condition_pieces x (H' x Hx))).
    + exists pss. split; [exact Hpss|]. cbn [map conjuncts length]. by rewrite !length_map.
Qed.

Lemma join_as_concat sep pss : Forall (λ ps, ps ≠ []) pss → join sep (concat pss) = join sep (map (join sep) pss).
Proof.
  induction 1 as [|ps pss Hps Hne IH]; [done|]. cbn [concat map]. destruct pss as [|ps' pss]; [by rewrite app_nil_r|].
  rewrite (join_cons _ (join sep ps)) by done. rewrite <- IH. assert (concat (ps' :: pss) ≠ []) as Hc.
  { apply Forall_cons in Hne as [Hne _]. cbn [concat]. by destruct ps'. }
  clear -Hps Hc. induction ps as [|a ps IHp]; [done|]. destruct ps as [|b ps]; [by rewrite <- join_cons|].
  change ((a :: b :: ps) ++ concat (ps' :: pss)) with (a :: ((b :: ps) ++ concat (ps' :: pss))).
  rewrite (join_cons _ a ((b :: ps) ++ _)), (join_cons _ a (b :: ps)), IHp by done. by rewrite <- !app_assoc.
Qed.

Lemma parse_pieces es cs pss :
  Forall2 (λ ec ps, pieces ec.1 ec.2 ps) (zip es cs) pss → length es = length cs →
  parse_conjuncts (concat pss) = Ret (if forallb wf_condition cs then Some cs else None) ∧
  join AND es = join AND (concat pss) ∧ Forall (part_ok AND) (concat pss) ∧ Forall (λ e, balanced e = true) (concat pss) ∧
  (cs ≠ [] → concat pss ≠ []).
Proof.
  intros H Hl. assert (Forall (λ ps, ps ≠ []) pss ∧ map (join AND) pss = es ∧ Forall (part_ok AND) (concat pss) ∧
    Forall (λ e, balanced e = true) (concat pss) ∧ parse_conjuncts (concat pss) = Ret (if forallb wf_condition cs then Some cs else None) ∧
    (cs ≠ [] → concat pss ≠ [])) as (H1 & H2 & H3 & H4 & H5 & H6).
  - revert cs pss H Hl. induction es as [|e es IH]; intros [|c cs] pss H Hl; try done.
    { inversion H; subst. done. }
    cbn [zip zip_with] in H. apply Forall2_cons_inv_l in H as (ps & pss' & [Ht Hn Hp Hb Hr] & H & ->). cbn [fst snd] in *.
    destruct (IH cs pss' H ltac:(by injection Hl)) as (I1 & I2 & I3 & I4 & I5 & I6). cbn [concat map].
    split_and!; [by constructor|by rewrite I2, Ht|by apply Forall_app|by apply Forall_app| |].
    + rewrite Hr, I5. cbn [forallb]. destruct (wf_condition c); [|done]. by destruct (forallb wf_condition cs).
    + intros _ E%app_nil. by destruct E.
  - split_and!; [done| |done|done|done]. by rewrite join_as_concat, H2.
Qed.
Lemma pieces_text_ne e c ps : pieces e c ps → truthy e = true.
Proof.
  intros [-> Hn Hp _ _]. assert (join AND ps ≠ []) as H by (apply join_trimmed; [done|]; eapply Forall_impl; [exact Hp|]; by intros ? (? & ? & _)).
  by destruct (join AND ps).
Qed.

Lemma written_wf g : written_group g = true → wf_group g = forallb wf_condition (conditions g).
Proof. unfold written_group, wf_group. rewrite !andb_true_iff. by intros [[-> ->] _]. Qed.

Lemma group_part body : balanced body = true → part_ok MUL (40%N :: body ++ [41%N]).
Proof.
  intros Hb. split_and!; [|done| |by intros t; apply clean_group].
  - split; [done|]. rewrite app_comm_cons, rev_app_distr. done.
  - by apply balanced_group, balanced_spec in Hb as [_ ?].
Qed.

Lemma guarded_groups gs : forallb written_group gs = true →
  (if forallb wf_group gs then false else true) = existsb (λ g, existsb guarded_condition (conditions g)) gs.
Proof.
  induction gs as [|g gs IH]; [done|]. cbn [forallb existsb]. rewrite andb_true_iff. intros [Hg Hgs]. rewrite <- (IH Hgs), (written_wf g Hg).
  assert (forallb wf_condition (conditions g) = negb (existsb guarded_condition (conditions g))) as ->.
  { unfold written_group in Hg. rewrite !andb_true_iff in Hg. destruct Hg as [_ Hc]. clear -Hc. induction (conditions g) as [|c cs IH]; [done|].
    cbn [forallb existsb] in *. apply andb_true_iff in Hc as [Hc Hcs]. rewrite (IH Hcs). destruct (guarded_condition c) eqn:E.
    - by rewrite (guarded_not_wf c E).
    - by rewrite orb_false_r in Hc; rewrite Hc. }
  by destruct (existsb guarded_condition (conditions g)), (forallb wf_group gs).
Qed.

(** The text of a group is one factor, and it is read back exactly if no condition of the group is guarded. *)
Lemma group_written g : written_group g = true →
  part_ok MUL (buildRuleGroupFactor g) ∧ tryParseRuleGroupFactor (buildRuleGroupFactor g) = Ret (if wf_group g then Some g else None)
  ∧ balanced (buildRuleGroupFactor g) = true.
Proof.
  intros Hg. rewrite (written_wf g Hg). revert Hg. unfold written_group. rewrite !andb_true_iff, negb_true_iff, bool_decide_eq_false. intros [[Hm Hne] Hc].
  destruct g as [conds mult]. cbn [conditions multiplier] in *. set (es := map buildRequestConditionExpr conds).
  assert (es ≠ []) as Hes by (by destruct conds).
  assert (List.filter truthy es = es) as Hf.
  { apply bfilter_id. intros e (c & -> & Hin)%elem_of_lmap. rewrite forallb_forall in Hc.
    destruct (proj1 (condition_pieces c (Hc c (proj1 (list_elem_of_In _ _) Hin)))) as [ps Hps]. by eapply pieces_text_ne. }
  destruct (conjuncts_pieces conds Hc) as (pss & Hpss & Hl). destruct (parse_pieces _ _ _ Hpss Hl) as (Hr & Ht & Hp & Hb & Hn).
  fold es in Ht. specialize (Hn Hne). set (body := join AND (concat pss)) in *.
  assert (buildRuleGroupFactor {| conditions := conds; multiplier := mult |} = js "(" ++ body ++ js " ? " ++ mult ++ js " : 1)") as E.
  { unfold buildRuleGroupFactor. cbn [conditions multiplier]. rewrite numeric_trim, Hm by done.
    cbn [negb]. fold es. rewrite Hf, <- Ht. unfold conjuncts. clear -Hes. by destruct es as [|? [|? ?]]. }
  assert (body ≠ []) as Hbne.
  { unfold body. apply join_trimmed; [done|]. eapply Forall_impl; [exact Hp|]. by intros ? (? & ? & _). }
  assert (balanced (body ++ js " ? " ++ mult ++ js " : 1") = true) as Hbb.
  { apply balanced_app; [by apply balanced_join|]. apply balanced_app; [done|]. by apply balanced_app; [apply numeric_balanced|]. }
  assert (js "(" ++ body ++ js " ? " ++ mult ++ js " : 1)" = 40%N :: (body ++ js " ? " ++ mult ++ js " : 1") ++ [41%N]) as E'
    by (by rewrite <- !app_assoc).
  rewrite E. split_and!.
  - rewrite E'. by apply group_part.
  - unfold tryParseRuleGroupFactor. rewrite match_factor by done. change (cap _ 1) with body. change (cap _ 2) with mult.
    unfold splitTopLevelAnd, body. rewrite split_top_join by done. rewrite Hr. cbn [mbind outcome_bind].
    destruct (forallb wf_condition conds); [|done]. by destruct conds.
  - rewrite E'. by apply balanced_group.
Qed.

Lemma factors_written gs : forallb written_group gs = true → Forall (part_ok MUL) (map buildRuleGroupFactor gs).
Proof.
  intros H. rewrite forallb_forall in H. apply Forall_forall. intros e (g & -> & Hg)%elem_of_lmap.
  apply group_written, H, list_elem_of_In, Hg.
Qed.

Lemma written_rule_expr gs : forallb written_group gs = true → buildRequestRuleExpr gs = join MUL (map buildRuleGroupFactor gs).
Proof.
  intros H. unfold buildRequestRuleExpr. rewrite bfilter_id; [done|].
  intros e He. destruct (proj1 (Forall_forall _ _) (factors_written gs H) e He) as (_ & Hne & _). by destruct e.
Qed.

Lemma written_trimmed gs : gs ≠ [] → forallb written_group gs = true → trimmed (buildRequestRuleExpr gs) ∧ buildRequestRuleExpr gs ≠ [].
Proof.
  intros Hne H. rewrite written_rule_expr by done. apply join_trimmed; [by destruct gs|].
  eapply Forall_impl; [by apply factors_written|]. by intros e (? & ? & _).
Qed.

Lemma parse_factors_written gs : forallb written_group gs = true →
  parse_factors (map buildRuleGroupFactor gs) = Ret (if forallb wf_group gs then Some gs else None).
Proof.
  induction gs as [|g gs IH]; [done|]. cbn [forallb map parse_factors]. rewrite andb_true_iff. intros [Hg Hgs].
  rewrite (proj1 (proj2 (group_written g Hg))), (IH Hgs). cbn [mbind outcome_bind]. destruct (wf_group g); [|done]. by destruct (forallb wf_group gs).
Qed.

Lemma written_read groups : forallb written_group groups = true →
  tryParseRequestRuleExpr (buildRequestRuleExpr groups) = Ret (if forallb wf_group groups then Some groups else None).
Proof.
  intros Hw. destruct groups as [|g gs]; [done|]. set (l := g :: gs) in *.
  destruct (written_trimmed l ltac:(done) Hw) as [Ht Hne].
  unfold tryParseRequestRuleExpr. rewrite trim_id by done. replace (truthy (buildRequestRuleExpr l)) with true by (by destruct (buildRequestRuleExpr l)).
  cbn [negb]. rewrite written_rule_expr by done. unfold splitTopLevelMultiply.
  rewrite split_top_join; [|done|done|by apply factors_written]. by rewrite parse_factors_written.
Qed.

(** C1: The rule editor reads back what it saved unless a parameter condition is guarded.  For every list of groups with a numeric multiplier, at least one
    condition and, in the conditions, plain texts (trimmed, without quotes, backslashes, parentheses, control characters, surrogates or
    the operators themselves) and numerals as the modes ask for, over every source and every mode the editor offers: the parser gives back exactly the
    same groups if no condition is a [contains] or a comparison of a parameter, and refuses the text if one is. *)
Theorem request_rules_round_trip (groups : list RequestRuleGroup) (Hw : forallb written_group groups = true) :
  tryParseRequestRuleExpr (buildRequestRuleExpr groups) =
  Ret (if existsb (λ g, existsb guarded_condition (conditions g)) groups then None else Some groups).
Proof.
  rewrite <- (guarded_groups groups Hw), (written_read groups Hw). by destruct (forallb wf_group groups).
Qed.

Definition sample_groups : list RequestRuleGroup :=
  [ {| conditions := [CTime {| timeFunc := js "hour"; timezone := js "Asia/Shanghai"; t_mode := MATCH_RANGE;
                               t_value := []; rangeStart := js "21"; rangeEnd := js "6" |};
                      ph Param (js "service_tier") MATCH_EQ (js "fast lane")];
       multiplier := js "1.5" |};
    {| conditions := [ph Header (js "x-beta") MATCH_CONTAINS (js "a * b"); ph Param (js "stream") MATCH_EXISTS []];
       multiplier := js "2e-1" |} ].

(** The same with a group whose second condition is guarded. *)
Definition guarded_groups_sample : list RequestRuleGroup :=
  sample_groups ++ [{| conditions := [ph Param (js "stream") MATCH_EXISTS []; ph Param (js "max_tokens") MATCH_GT (js "4096")]; multiplier := js "2" |}].

Lemma request_rules_round_trip_witness :
  tryParseRequestRuleExpr (buildRequestRuleExpr sample_groups) = Ret (Some sample_groups) ∧
  tryParseRequestRuleExpr (buildRequestRuleExpr guarded_groups_sample) = Ret None.
Proof.
  split.
  - refine (request_rules_round_trip sample_groups _). vm_compute. reflexivity.
  - refine (request_rules_round_trip guarded_groups_sample _). vm_compute. reflexivity.
Defined.

(** A factor alone is a rule, or is not one if a condition is guarded. *)
Lemma factor_rule g : written_group g = true → tryParseRequestRuleExpr (buildRuleGroupFactor g) = Ret (if wf_group g then Some [g] else None).
Proof.
  intros Hg. destruct (group_written g Hg) as (Hp & Hr & _). pose proof Hp as (Ht & Hne & _).
  unfold tryParseRequestRuleExpr. rewrite trim_id by done. replace (truthy (buildRuleGroupFactor g)) with true by (by destruct (buildRuleGroupFactor g)).
  cbn [negb]. rewrite single_part by done. cbn [parse_factors]. rewrite Hr. by destruct (wf_group g).
Qed.

Lemma partition_written gs : forallb written_group gs = true →
  partition_parts (map buildRuleGroupFactor gs) =
  Ret (map buildRuleGroupFactor (List.filter wf_group gs), map buildRuleGroupFactor (List.filter (λ g, negb (wf_group g)) gs)).
Proof.
  induction gs as [|g gs IH]; [done|]. cbn [forallb map partition_parts]. rewrite andb_true_iff. intros [Hg Hgs].
  rewrite (factor_rule g Hg), (IH Hgs). cbn [mbind outcome_bind fst snd List.filter]. by destruct (wf_group g).
Qed.

Lemma filter_all {A} (f : A → bool) l :
  if forallb f l then List.filter f l = l ∧ List.filter (λ x, negb (f x)) l = [] else List.filter (λ x, negb (f x)) l ≠ [].
Proof.
  induction l as [|x l IH]; [done|]. cbn [forallb List.filter]. destruct (f x) eqn:E; cbn [negb andb]; [|done].
  destruct (forallb f l); [|done]. destruct IH as [-> ->]. done.
Qed.

(** C4: Splitting undoes combining unless a parameter condition is guarded.  For a non-empty base with balanced parentheses that is not itself a request rule, and a
    non-empty list of groups as in the theorem on rules, the combined text splits into the base, without spaces and redundant parentheses around
    it, and exactly the text of the rules, if no parameter condition is a [contains] or a comparison; if one is, the split takes the whole combined text for
    the base and finds no rules. *)
Theorem split_combine_round_trip (base : str) (groups : list RequestRuleGroup)
  (Hne : trim base ≠ []) (Hb : balanced (trim base) = true) (Hr : tryParseRequestRuleExpr (js "(" ++ trim base ++ js ")") = Ret None)
  (Hg : groups ≠ []) (Hw : forallb written_group groups = true) :
  splitBillingExprAndRequestRules (combineBillingExpr base (buildRequestRuleExpr groups)) = Ret
    (if existsb (λ g, existsb guarded_condition (conditions g)) groups
     then {| billingExpr := combineBillingExpr base (buildRequestRuleExpr groups); requestRuleExpr := [] |}
     else {| billingExpr := unwrapOuterParens (trim base); requestRuleExpr := buildRequestRuleExpr groups |}).
Proof.
  destruct (written_trimmed groups Hg Hw) as [Hrt Hrne]. set (b := trim base) in *.
  assert (combineBillingExpr base (buildRequestRuleExpr groups) = join MUL ((40%N :: b ++ [41%N]) :: map buildRuleGroupFactor groups)) as ->.
  { unfold combineBillingExpr. rewrite (trim_id (buildRequestRuleExpr groups)) by done. fold b. replace (truthy b) with true by (by destruct b).
    replace (truthy (buildRequestRuleExpr groups)) with true by (by destruct (buildRequestRuleExpr groups)). cbn [negb].
    rewrite written_rule_expr, join_cons by (done || by destruct groups). change (40%N :: b ++ [41%N]) with (js "(" ++ b ++ js ")"). by rewrite <- !app_assoc. }
  set (parts := _ :: map _ _). assert (Forall (part_ok MUL) parts) as Hparts by (constructor; [by apply group_part|by apply factors_written]).
  destruct (join_trimmed MUL parts) as [Hjt Hjne]; [done| |].
  { eapply Forall_impl; [exact Hparts|]. by intros e (? & ? & _). }
  unfold splitBillingExprAndRequestRules. rewrite trim_id by done. replace (truthy (join MUL parts)) with true by (by destruct (join MUL parts)).
  cbn [negb]. unfold splitTopLevelMultiply. rewrite split_top_join by done.
  assert (length parts <=? 1 = false) as -> by (unfold parts; by destruct groups). 
  change (partition_parts parts) with (partition_parts ((40%N :: b ++ [41%N]) :: map buildRuleGroupFactor groups)). cbn [partition_parts].
  change (tryParseRequestRuleExpr (40%N :: b ++ [41%N]) = Ret None) in Hr. rewrite Hr, partition_written by done. cbn [mbind outcome_bind fst snd].
  rewrite <- (guarded_groups groups Hw). pose proof (filter_all wf_group groups) as Hf. destruct (forallb wf_group groups) eqn:E.
  - destruct Hf as [-> ->]. cbn [map]. rewrite (unwrap_group b Hb), written_rule_expr by done. by destruct groups.
  - destruct (List.filter (λ g, negb (wf_group g)) groups) as [|x l]; [done|]. by destruct (map buildRuleGroupFactor (List.filter wf_group groups)).
Qed.

Lemma split_combine_round_trip_witness :
  splitBillingExprAndRequestRules (combineBillingExpr (js " p * 3 + c * 15") (buildRequestRuleExpr sample_groups))
  = Ret {| billingExpr := unwrapOuterParens (trim (js " p * 3 + c * 15")); requestRuleExpr := buildRequestRuleExpr sample_groups |} ∧
  splitBillingExprAndRequestRules (combineBillingExpr (js "p * 3") (buildRequestRuleExpr guarded_groups_sample))
  = Ret {| billingExpr := combineBillingExpr (js "p * 3") (buildRequestRuleExpr guarded_groups_sample); requestRuleExpr := [] |}.
Proof.
  split.
  - refine (split_combine_round_trip (js " p * 3 + c * 15") sample_groups _ _ _ _ _); [discriminate|vm_compute; reflexivity..|discriminate|vm_compute; reflexivity].
  - refine (split_combine_round_trip (js "p * 3") guarded_groups_sample _ _ _ _ _); [discriminate|vm_compute; reflexivity..|discriminate|vm_compute; reflexivity].
Defined.

(** ** Errors and spacing *)

Definition bad_escape_rule : str :=
  js "(has(header(" ++ dq ++ js "x" ++ dq ++ js "), " ++ dq ++ js "\q" ++ dq ++ js ") ? 2 : 1)".

(** The rule parser is not total: a header-contains rule whose string literal
    has an escape JSON does not know matches the pattern, and the [JSON.parse] after
    it throws instead of the parser returning [null]; the exception also leaves
    [splitBillingExprAndRequestRules]. *)
Theorem bad_escape_throws :
  tryParseRequestRuleExpr bad_escape_rule = Throw ∧
  splitBillingExprAndRequestRules (js "p * 3 * " ++ bad_escape_rule) = Throw.
Proof. split; vm_compute; reflexivity. Qed.

Definition spaced_tier : str := js "tier(" ++ dq ++ js "base" ++ dq ++ js ", p * 3 + c * 15)".
Definition unspaced_tier : str := js "tier(" ++ dq ++ js "base" ++ dq ++ js ", p*3+c*15)".

Definition first_price (field : str) (ts : list ParsedTier) : option num :=
  t ← head ts; snd <$> find (λ kv, bool_decide (fst kv = field)) (prices t).

(** The coefficient pattern reads the [+] of an unspaced sum as part of the
    number: [p * 3 + c * 15] has input price 3, the same expression written
    [p*3+c*15] has input price 0, with the output price 15 in both. *)
Theorem unspaced_sum_loses_price :
  first_price (js "inputPrice") (parseTiersFromExpr spaced_tier) = Some (num_of_Z 3) ∧
  first_price (js "inputPrice") (parseTiersFromExpr unspaced_tier) = Some (num_of_Z 0) ∧
  first_price (js "outputPrice") (parseTiersFromExpr spaced_tier) = Some (num_of_Z 15) ∧
  first_price (js "outputPrice") (parseTiersFromExpr unspaced_tier) = Some (num_of_Z 15).
Proof. split_and!; vm_compute; reflexivity. Qed.
