(* ===== verification/TierExpr.v ===== *)
(** * The visual tier editor ([web/default/src/features/pricing/lib/tier-expr.ts])

    Tiers and their normalisation, the expression generated from a visual
    configuration, and the parser that recovers the configuration from an
    expression.  A tier is a JavaScript object whose fields may be missing: a
    [Partial<VisualTier>] is the record [VisualTier] with optional fields (an
    absent field is [None], a present one any JSON value).  [evalExprLocally]
    runs the expression through [new Function] and is not modelled. *)

From S2P Require Import Prelude JsString JsNumber Json Regex BillingExpr.

Definition CACHE_MODE_TIMED := js "timed".
Definition CACHE_MODE_GENERIC := js "generic".

Record TierConditionInput := { ci_var : str; ci_op : str; ci_value : json }.

Record VisualTier := {
  label : option str;
  tier_conds : option (list TierConditionInput);
  input_unit_cost : option json;
  output_unit_cost : option json;
  cache_mode : option str;
  extra_costs : list (str * json) (** the fields of [BILLING_CACHE_VAR_MAP] that are present *) }.

(** [tier[field]] for a cache, image or audio field. *)
Definition extra_cost (t : VisualTier) (field : str) : option json :=
  snd <$> find (λ kv, bool_decide (fst kv = field)) (extra_costs t).

Definition empty_tier : VisualTier :=
  {| label := None; tier_conds := None; input_unit_cost := None; output_unit_cost := None;
     cache_mode := None; extra_costs := [] |}.

Definition getTierCacheMode (tier : option VisualTier) : str :=
  let mode := t ← tier; cache_mode t in
  if bool_decide (mode = Some CACHE_MODE_TIMED) then CACHE_MODE_TIMED
  else if bool_decide (mode = Some CACHE_MODE_GENERIC) then CACHE_MODE_GENERIC
  else if nlt (num_of_Z 0) (opt_number (t ← tier; extra_cost t (js "cache_create_1h_unit_cost")))
       then CACHE_MODE_TIMED else CACHE_MODE_GENERIC.

(** A field of the object literal that [...tier] overrides when it is present. *)
Definition spread {A} (dflt : A) (own : option A) : option A := Some (default dflt own).

Definition normalizeVisualTier (tier : VisualTier) : VisualTier :=
  {| label := spread [] (label tier);
     input_unit_cost := spread (JNum (or_zero (opt_number (input_unit_cost tier)))) (input_unit_cost tier);
     output_unit_cost := spread (JNum (or_zero (opt_number (output_unit_cost tier)))) (output_unit_cost tier);
     cache_mode := spread (getTierCacheMode (Some tier)) (cache_mode tier);
     tier_conds := spread [] (tier_conds tier);
     extra_costs := map (λ f, (f, JNum (or_zero (opt_number (extra_cost tier f)))))
                        [js "cache_read_unit_cost"; js "cache_create_unit_cost"; js "cache_create_1h_unit_cost";
                         js "image_unit_cost"; js "image_output_unit_cost"; js "audio_input_unit_cost";
                         js "audio_output_unit_cost"] |}.

(** [VisualConfig] is its tiers; [None] stands for [null] and [undefined]. *)
Definition VisualConfig := list VisualTier.

Definition createDefaultVisualConfig : VisualConfig :=
  [normalizeVisualTier
     {| tier_conds := Some []; input_unit_cost := Some (JNum (num_of_Z 0));
        output_unit_cost := Some (JNum (num_of_Z 0)); label := Some (js "base");
        cache_mode := Some CACHE_MODE_GENERIC; extra_costs := [] |}].

Definition normalizeVisualConfig (config : option VisualConfig) : VisualConfig :=
  match config with
  | None | Some [] => createDefaultVisualConfig
  | Some tiers => map normalizeVisualTier tiers
  end.

(** ** Generating an expression *)

Definition condition_given (c : TierConditionInput) : bool :=
  truthy (ci_var c) && truthy (ci_op c)
  && match ci_value c with JNull => false | JStr [] => false | _ => true end.

Definition buildConditionStr (conditions : option (list TierConditionInput)) : str :=
  match conditions with
  | None | Some [] => []
  | Some cs =>
      join (js " && ")
        (map (λ c, ci_var c ++ js " " ++ ci_op c ++ js " " ++ json_to_string (ci_value c))
           (List.filter condition_given cs))
  end.

Definition cost_part (v : str) (x : num) : str := v ++ js " * " ++ string_of_num x.

Definition buildTierBodyExpr (tier : VisualTier) : str :=
  let ic := or_zero (opt_number (input_unit_cost tier)) in
  let oc := or_zero (opt_number (output_unit_cost tier)) in
  join (js " + ")
    ([cost_part (js "p") ic; cost_part (js "c") oc] ++
     omap (λ cv, let v := or_zero (opt_number (extra_cost tier (cv_field cv))) in
                 if num_eqb v (num_of_Z 0) then None else Some (cost_part (exprVar cv) v))
          BILLING_CACHE_VAR_MAP).

Definition tier_call (lbl : str) (tier : VisualTier) : str :=
  js "tier(" ++ dq ++ lbl ++ dq ++ js ", " ++ buildTierBodyExpr tier ++ js ")".

Definition ZERO_EXPR := js "p * 0 + c * 0".

(** The loop over several tiers; [i] counts from 0, the last one is unguarded. *)
Fixpoint multi_parts (i : nat) (tiers : list VisualTier) : list str :=
  match tiers with
  | [] => []
  | tier :: rest =>
      let lbl := or_default (label tier) (js "tier_" ++ N_dec (N.of_nat (S i))) in
      let body := tier_call lbl tier in
      let cond := buildConditionStr (tier_conds tier) in
      (if negb (bool_decide (rest = [])) && truthy cond then cond ++ js " ? " ++ body else body)
      :: multi_parts (S i) rest
  end.

Definition generateExprFromVisualConfig (config : option VisualConfig) : str :=
  match config with
  | None | Some [] => ZERO_EXPR
  | Some [tier] =>
      let body := tier_call (or_default (label tier) (js "default")) tier in
      let cond := buildConditionStr (tier_conds tier) in
      if truthy cond then cond ++ js " ? " ++ body ++ js " : " ++ ZERO_EXPR else body
  | Some tiers => join (js " : ") (multi_parts 0 tiers)
  end.

(** ** Parsing an expression *)

(** (?:\s*\+\s*V\s*\*\s*(NUM))? with the coefficient as group [n] *)
Definition opt_cost (n : nat) (v : str) : regex :=
  ROpt (rseq [r_spaces; rlit (js "+"); r_spaces; rlit v; r_spaces; rlit (js "*"); r_spaces; RGroup n r_num]).

(** The body pattern; its groups start at [n]. *)
Definition bodyPat (n : nat) : list regex :=
  [rlit (js "p"); r_spaces; rlit (js "*"); r_spaces; RGroup n r_num; r_spaces; rlit (js "+"); r_spaces;
   rlit (js "c"); r_spaces; rlit (js "*"); r_spaces; RGroup (S n) r_num]
  ++ imap (λ i cv, opt_cost (S (S n) + i) (exprVar cv)) BILLING_CACHE_VAR_MAP.

(** /^v\d+:([\s\S]* )$/ *)
Definition VISUAL_VERSION_RE : regex :=
  RSeq RBol (rseq [rlit (js "v"); rplus c_digit; rlit (js ":"); RGroup 1 (rstar (RChar any_unit)); REol]).

Definition singleRe : regex :=
  RSeq RBol (rseq ([rlit (js "tier(" ++ dq); RGroup 1 (rstar (RChar not_quote)); rlit (dq ++ js ","); r_spaces]
                   ++ bodyPat 2 ++ [rlit (js ")"); REol])).

Definition multiTierRe : regex := rseq (tier_head ++ bodyPat 3 ++ [rlit (js ")")]).

(** The tier of a match; [n] is the group of the label. *)
Definition tier_of_match (conditions : list TierConditionInput) (n : nat) (cs : list (option str)) : VisualTier :=
  {| tier_conds := Some conditions;
     input_unit_cost := Some (JNum (number_of_string (cap cs (n + 1))));
     output_unit_cost := Some (JNum (number_of_string (cap cs (n + 2))));
     label := Some (cap cs n);
     cache_mode := None;
     extra_costs := flat_map (λ x, x)
       (imap (λ i cv, match default None (cs !! (n + 3 + i)) with
                      | Some val => [(cv_field cv, JNum (number_of_string val))]
                      | None => []
                      end) BILLING_CACHE_VAR_MAP) |}.

Definition parse_input_conditions (condStr : str) : list TierConditionInput :=
  map (λ c, {| ci_var := tc_var c; ci_op := tc_op c; ci_value := JNum (tc_value c) |})
      (parse_conditions condStr).

(** [s.replace(/\s+/g, '')] *)
Definition strip_spaces (s : str) : str := replace_all (rplus c_space) [] s.

Definition tryParseVisualConfig (exprStr : option str) : option VisualConfig :=
  match exprStr with
  | None | Some [] => None
  | Some exprStr =>
      let body := match match_re 1 VISUAL_VERSION_RE exprStr with
                  | Some cs => cap cs 1
                  | None => exprStr
                  end in
      match match_re 10 singleRe body with
      | Some cs => Some (normalizeVisualConfig (Some [normalizeVisualTier (tier_of_match [] 1 cs)]))
      | None =>
          let tiers := map (λ cs, normalizeVisualTier (tier_of_match (parse_input_conditions (cap cs 1)) 2 cs))
                           (match_all 11 multiTierRe body) in
          if bool_decide (tiers = []) then None
          else
            let cfg := normalizeVisualConfig (Some tiers) in
            let regenerated := generateExprFromVisualConfig (Some cfg) in
            if bool_decide (strip_spaces regenerated = strip_spaces body) then Some cfg else None
      end
  end.

(** ** Estimator *)

Definition ESTIMATOR_VARS : list (str * str) :=
  [(js "cr", js "cacheReadTokens"); (js "cc", js "cacheCreateTokens"); (js "cc1h", js "cacheCreate1hTokens");
   (js "img", js "imageTokens"); (js "img_o", js "imageOutputTokens"); (js "ai", js "audioInputTokens");
   (js "ao", js "audioOutputTokens")].

Definition exprUsesExtraVars (exprStr : str) : bool :=
  if negb (truthy exprStr) then false
  else test_re (rseq [RWordB; RGroup 1 (ralt (map (λ f, rlit (fst f)) ESTIMATOR_VARS)); RWordB]) exprStr.
