(* ===== verification/TierFacts.v ===== *)
(** * The visual tier editor reads back what it generates

    Matching facts for the patterns of [tryParseVisualConfig] on the texts of
    [generateExprFromVisualConfig]: numbers, cost terms, conditions, tiers and the
    scan over several tiers. *)

From S2P Require Import Prelude JsString JsNumber JsNumberFacts Json Regex BillingExpr BillingText TierExpr.

(** ** Numbers *)

(** A finite number other than -0. *)
Definition price_num (x : num) : bool :=
  valid_num x && match x with S754_finite _ _ _ => true | S754_zero false => true | _ => false end.

(** A number printed without a minus sign. *)
Definition threshold (x : num) : bool := price_num x && forallb cond_num_class (string_of_num x).

Lemma num_char_class c : num_char c = true → num_class c = true.
Proof. unfold num_char, num_class. rewrite !orb_true_iff. tauto. Qed.

Lemma price_num_text x :
  price_num x = true →
  number_of_string (string_of_num x) = x ∧ string_of_num x ≠ [] ∧ Forall (λ c, num_class c = true) (string_of_num x).
Proof.
  unfold price_num. rewrite andb_true_iff. intros [Hv Hx]. destruct x as [[]| | |s p e]; try done.
  - by split_and!; [|..|repeat apply Forall_cons_2].
  - split; [by apply number_of_string_of|]. cbn [string_of_num].
    destruct (digits_of p e) as [d e']. destruct (format_digits_shape d e') as (c & t & -> & Hc & Ht).
    split; [by destruct s|]. apply Forall_app. split; [by destruct s; repeat apply Forall_cons_2|].
    apply Forall_cons_2; [unfold num_class; by rewrite Hc|].
    eapply Forall_impl; [exact Ht|]. apply num_char_class.
Qed.

Lemma price_or_zero x : price_num x = true → or_zero x = x.
Proof. unfold price_num. rewrite andb_true_iff. by destruct x as [[]| | |[] ? ?]; intros [_ ?]. Qed.

Lemma threshold_text x :
  threshold x = true →
  number_of_string (string_of_num x) = x ∧ string_of_num x ≠ []
  ∧ Forall (λ c, cond_num_class c = true) (string_of_num x).
Proof.
  unfold threshold. rewrite andb_true_iff. intros [(H1 & H2 & _)%price_num_text H3]. split_and!; [done|done|].
  rewrite forallb_forall in H3. apply Forall_forall. intros c Hc. apply H3. by apply list_elem_of_In.
Qed.

(** ** Spaces *)

Definition head_not_space (t : str) : Prop := match t with [] => True | c :: _ => is_space c = false end.

Lemma m_spaces_none k bef t cs : head_not_space t → m r_spaces k (mk bef t cs) = k (mk bef t cs).
Proof.
  intros Ht. unfold r_spaces, c_space. rewrite m_star. destruct t as [|c t]; [done|].
  simpl in Ht. cbn [star_run]. by rewrite Ht.
Qed.

Lemma m_spaces_one k bef t cs y :
  head_not_space t → k (mk (32%N :: bef) t cs) = Some y → m r_spaces k (mk bef (32%N :: t) cs) = Some y.
Proof.
  intros Ht Hk. unfold r_spaces, c_space. rewrite m_star.
  apply (star_run_commit _ _ _ _ [32%N]); [by repeat constructor|by destruct t|exact Hk].
Qed.

(** ** Cost terms *)

Definition inner_cost (n : nat) (v : str) : list regex :=
  [r_spaces; rlit (js "+"); r_spaces; rlit v; r_spaces; rlit (js "*"); r_spaces; RGroup n r_num].

Lemma groups_lit s : groups (rlit s) = [].
Proof. induction s as [|c [|d s] IH]; done. Qed.

Lemma groups_inner_cost n v : groups (rseq (inner_cost n v)) = [n].
Proof. unfold inner_cost. cbn. by rewrite !groups_lit. Qed.

(** [ + v * x] *)
Definition cost_text (v : str) (x : num) : str := js " + " ++ v ++ js " * " ++ string_of_num x.

Definition head_not_num (t : str) : Prop := match t with [] => True | c :: _ => num_class c = false end.

Lemma num_head_not_space x t : price_num x = true → head_not_space (string_of_num x ++ t).
Proof.
  intros (_ & Hne & H)%price_num_text. destruct (string_of_num x) as [|c l]; [done|].
  apply Forall_cons in H as [Hc _]. simpl. revert Hc. clear. unfold num_class.
  rewrite !orb_true_iff, !N.eqb_eq. intros [Hd|H]; [by apply digit_not_space|].
  destruct H as [[[[->| ->]| ->]| ->]| ->]; done.
Qed.

(** [v * x] with the coefficient captured. *)
Lemma m_cost n v k bef x t cs :
  price_num x = true → head_not_num t →
  ∃ bef', ∀ y, k (mk bef' t (<[n := Some (string_of_num x)]> cs)) = Some y →
    m (rseq [rlit v; r_spaces; rlit (js "*"); r_spaces; RGroup n r_num]) k
      (mk bef (v ++ js " * " ++ string_of_num x ++ t) cs) = Some y.
Proof.
  intros Hx Ht. eexists. intros y Hk. cbn [rseq]. rewrite !m_seq, m_lit.
  change (js " * " ++ ?u) with (32%N :: js "*" ++ 32%N :: u).
  apply m_spaces_one; [done|]. rewrite m_lit. apply m_spaces_one; [by apply num_head_not_space|].
  destruct (price_num_text x Hx) as (_ & Hne & Hc).
  apply m_group_plus_commit; [done|done|by destruct t|exact Hk].
Qed.

Lemma m_inner_cost n v k bef x t cs :
  price_num x = true → head_not_num t → head_not_space v → v ≠ [] →
  ∃ bef', ∀ y, k (mk bef' t (<[n := Some (string_of_num x)]> cs)) = Some y →
    m (rseq (inner_cost n v)) k (mk bef (cost_text v x ++ t) cs) = Some y.
Proof.
  intros Hx Ht Hv Hne.
  change (inner_cost n v) with ([r_spaces; rlit (js "+"); r_spaces]
    ++ [rlit v; r_spaces; rlit (js "*"); r_spaces; RGroup n r_num]).
  destruct (m_cost n v k (32%N :: 43%N :: 32%N :: bef) x t cs Hx Ht) as [bef' H]. exists bef'.
  intros y Hk. rewrite m_rseq_app. unfold cost_text. rewrite <- !app_assoc.
  change (js " + " ++ ?u) with (32%N :: js "+" ++ 32%N :: u). cbn [rseq]. rewrite !m_seq.
  apply m_spaces_one; [done|]. rewrite m_lit. apply m_spaces_one; [by destruct v|]. by apply H.
Qed.

(** ** The optional cost terms *)

(** The variable names cannot be confused: looking for [v], the text of [v'] fails. *)
Definition apart (v v' : str) : Prop :=
  ∀ n k bef t cs, m (rseq (inner_cost n v)) k (mk bef (js " + " ++ v' ++ js " * " ++ t) cs) = None.

(** The nested optional patterns from group [n] on. *)
Fixpoint m_opts (n : nat) (vs : list str) (k : mstate → option mstate) : mstate → option mstate :=
  match vs with [] => k | v :: vs' => m (opt_cost n v) (m_opts (S n) vs' k) end.

Definition is_zero (x : num) : bool := num_eqb x (num_of_Z 0).

Definition opt_text (vx : str * num) : str := if is_zero (snd vx) then [] else cost_text (fst vx) (snd vx).
Definition opt_cap (vx : str * num) : option str := if is_zero (snd vx) then None else Some (string_of_num (snd vx)).

Definition named (v : str) : Prop := v ≠ [] ∧ head_not_space v.

Lemma close_refused n v k bef t cs : m (rseq (inner_cost n v)) k (mk bef (41%N :: t) cs) = None.
Proof. done. Qed.

Lemma opt_texts_head l t :
  head_not_num (concat (map opt_text l) ++ 41%N :: t).
Proof.
  induction l as [|[v x] l IH]; [done|]. cbn [map concat]. unfold opt_text at 1. cbn [fst snd].
  destruct (is_zero x); [exact IH|done].
Qed.

Lemma opts_refused n v l k bef t cs :
  Forall (apart v) (map fst l) →
  m (rseq (inner_cost n v)) k (mk bef (concat (map opt_text l) ++ 41%N :: t) cs) = None.
Proof.
  induction l as [|[v' x] l IH]; intros Ha; [done|]. cbn [map] in Ha. apply Forall_cons in Ha as [Ha Hl].
  cbn [map concat]. unfold opt_text at 1. cbn [fst snd] in *. destruct (is_zero x); [by apply IH|].
  unfold cost_text. rewrite <- !app_assoc. apply Ha.
Qed.

Lemma m_opts_commit l : ∀ n pre k bef t,
  Forall (λ vx, named (fst vx) ∧ price_num (snd vx) = true) l →
  ForallOrdPairs apart (map fst l) → length pre = n →
  ∃ bef', ∀ y, k (mk bef' (41%N :: t) (pre ++ map opt_cap l)) = Some y →
    m_opts n (map fst l) k (mk bef (concat (map opt_text l) ++ 41%N :: t) (pre ++ replicate (length l) None)) = Some y.
Proof.
  induction l as [|[v x] l IH]; intros n pre k bef t Hl Hap Hn; [by exists bef|].
  apply Forall_cons in Hl as [[[Hv1 Hv2] Hx] Hl]. cbn [map fst snd] in *.
  inversion Hap as [|? ? Hva Hap']; subst. cbn [concat m_opts length replicate].
  unfold opt_text at 1, opt_cap at 1. cbn [fst snd].
  assert (E : ∀ (a : option str), (pre ++ [a]) ++ replicate (length l) None = pre ++ a :: replicate (length l) None)
    by (intros a; by rewrite <- app_assoc).
  destruct (is_zero x).
  - destruct (IH (S (length pre)) (pre ++ [None]) k bef t) as [bef' H]; [done|done|rewrite length_app; simpl; lia|].
    exists bef'. intros y Hk. unfold opt_cost. rewrite m_opt_skip.
    + rewrite E in H. apply H. by rewrite <- app_assoc.
    + intros k' cs'. by apply opts_refused.
  - set (K := m_opts (S (length pre)) (map fst l) k). rewrite <- app_assoc.
    set (u := concat (map opt_text l) ++ 41%N :: t).
    set (K' := λ z, if length (after z) =? length (cost_text v x ++ u) then None else K z).
    destruct (m_inner_cost (length pre) v K' bef x u (pre ++ None :: replicate (length l) None)) as [bef1 H1];
      [done|apply opt_texts_head|done|done|].
    destruct (IH (S (length pre)) (pre ++ [Some (string_of_num x)]) k bef1 t) as [bef' H];
      [done|done|rewrite length_app; simpl; lia|].
    exists bef'. intros y Hk. unfold opt_cost. apply m_opt_take.
    fold (inner_cost (length pre) v). rewrite groups_inner_cost. cbn [clear_caps fold_right].
    rewrite (list_insert_id (pre ++ _)) by (by rewrite list_lookup_middle). apply H1. unfold K'. cbn [after].
    rewrite (proj2 (Nat.eqb_neq _ _)) by (rewrite length_app; unfold cost_text; simpl; lia).
    rewrite insert_app_r_alt, Nat.sub_diag by lia. cbn [insert list_insert].
    rewrite E in H. apply H. by rewrite <- app_assoc.
Qed.

(** ** The body of a tier *)

Definition EXTRA_VARS : list str := map exprVar BILLING_CACHE_VAR_MAP.

Definition body_text (ic oc : num) (xs : list num) : str :=
  js "p * " ++ string_of_num ic ++ js " + c * " ++ string_of_num oc ++ concat (map opt_text (zip EXTRA_VARS xs)).

Definition body_caps (ic oc : num) (xs : list num) : list (option str) :=
  Some (string_of_num ic) :: Some (string_of_num oc) :: map opt_cap (zip EXTRA_VARS xs).

Lemma extra_vars_eq :
  EXTRA_VARS = [js "cr"; js "cc"; js "cc1h"; js "img"; js "img_o"; js "ai"; js "ao"].
Proof. done. Qed.

Lemma m_spaces_one_det k bef t cs :
  head_not_space t → k (mk bef (32%N :: t) cs) = None →
  m r_spaces k (mk bef (32%N :: t) cs) = k (mk (32%N :: bef) t cs).
Proof.
  intros Ht Hk. unfold r_spaces, c_space. rewrite m_star. cbn [star_run]. change (is_space 32) with true.
  cbv beta iota. replace (star_run _ _ _ _ t) with (k (mk (32%N :: bef) t cs)).
  - rewrite Hk. by destruct (k (mk (32%N :: bef) t cs)).
  - destruct t as [|c t]; [done|]. simpl in Ht. cbn [star_run]. by rewrite Ht.
Qed.

Lemma lit_refuses_space v k bef t cs : named v → m (rlit v) k (mk bef (32%N :: t) cs) = None.
Proof.
  intros [Hne Hs]. destruct v as [|c v]; [done|]. apply m_lit_head_fail. intros ->. done.
Qed.

Lemma apart_intro v v' :
  named v → named v' →
  (∀ t, starts_with v (v' ++ js " * " ++ t) = false)
  ∨ (∃ c w, v' = v ++ c :: w ∧ is_space c = false ∧ c ≠ 42%N) →
  apart v v'.
Proof.
  intros Hv [Hne' Hs'] H n k bef t cs. unfold inner_cost. cbn [rseq]. rewrite !m_seq.
  change (js " + " ++ ?u) with (32%N :: js "+" ++ 32%N :: u).
  rewrite m_spaces_one_det by first [done|by apply lit_refuses_space].
  rewrite m_lit, m_spaces_one_det by first [by destruct v'|by apply lit_refuses_space].
  destruct H as [H|(c & w & -> & Hc & Hc')]; [by apply m_lit_fail|].
  rewrite <- app_assoc, m_lit. simpl app. rewrite m_spaces_none by done.
  apply m_lit_head_fail. exact (not_eq_sym Hc').
Qed.

Lemma extra_vars_named : Forall named EXTRA_VARS.
Proof. rewrite extra_vars_eq. repeat (apply Forall_cons_2; [by split|]). apply Forall_nil_2. Qed.

Lemma extra_vars_apart : ForallOrdPairs apart EXTRA_VARS.
Proof.
  rewrite extra_vars_eq.
  repeat (apply FOP_cons; [repeat (apply Forall_cons_2;
    [apply apart_intro; [by split|by split|];
     first [left; intros t; vm_compute; reflexivity
           |right; by exists 49%N, (js "h")
           |right; by exists 95%N, (js "o")]|]); apply Forall_nil_2|]).
  apply FOP_nil.
Qed.

Lemma m_imap_opts a vs k : m (rseq (imap (λ i v, opt_cost (a + i) v) vs)) k = m_opts a vs k.
Proof.
  revert a. induction vs as [|v vs IH]; intros a; [done|]. rewrite imap_cons, m_rseq_cons, Nat.add_0_r.
  cbn [m_opts]. rewrite <- IH. do 3 f_equal. apply imap_ext. intros i x _. simpl. f_equal. lia.
Qed.

Lemma m_bodyPat n tail k :
  m (rseq (bodyPat n ++ tail)) k =
  m (rseq [rlit (js "p"); r_spaces; rlit (js "*"); r_spaces; RGroup n r_num])
    (m (rseq [r_spaces; rlit (js "+"); r_spaces])
      (m (rseq [rlit (js "c"); r_spaces; rlit (js "*"); r_spaces; RGroup (S n) r_num])
        (m_opts (S (S n)) EXTRA_VARS (m (rseq tail) k)))).
Proof.
  rewrite m_rseq_app. unfold bodyPat. rewrite m_rseq_app.
  change (imap _ BILLING_CACHE_VAR_MAP) with (imap (λ i v, opt_cost (S (S n) + i) v) EXTRA_VARS).
  by rewrite m_imap_opts.
Qed.

Lemma m_body n tail k bef ic oc xs t pre :
  length pre = n → length xs = 7 → price_num ic = true → price_num oc = true →
  Forall (λ x, price_num x = true) xs →
  ∃ bef', ∀ y, m (rseq tail) k (mk bef' (41%N :: t) (pre ++ body_caps ic oc xs)) = Some y →
    m (rseq (bodyPat n ++ tail)) k (mk bef (body_text ic oc xs ++ 41%N :: t) (pre ++ replicate 9 None)) = Some y.
Proof.
  intros Hn Hlen Hic Hoc Hxs. subst n. rewrite m_bodyPat.
  set (l := zip EXTRA_VARS xs).
  assert (Hfst : map fst l = EXTRA_VARS) by (apply (fst_zip EXTRA_VARS xs); by rewrite Hlen).
  assert (Hl7 : length l = 7) by (unfold l; by rewrite length_zip_with, Hlen).
  set (tl := concat (map opt_text l) ++ 41%N :: t).
  set (opts := m_opts _ _ _).
  set (K2 := m (rseq [rlit (js "c"); _; _; _; _]) opts).
  set (K1 := m (rseq [r_spaces; _; _]) K2).
  destruct (m_cost (length pre) (js "p") K1 bef ic (js " + c * " ++ string_of_num oc ++ tl) (pre ++ replicate 9 None))
    as [b1 H1]; [done|done|].
  set (cs1 := <[length pre:=Some (string_of_num ic)]> (pre ++ replicate 9 None)) in *.
  destruct (m_cost (S (length pre)) (js "c") opts (32%N :: 43%N :: 32%N :: b1) oc tl cs1)
    as [b2 H2]; [done|apply opt_texts_head|].
  set (cs2 := <[S (length pre):=Some (string_of_num oc)]> cs1) in *.
  assert (Ecs2 : cs2 = (pre ++ [Some (string_of_num ic); Some (string_of_num oc)]) ++ replicate (length l) None).
  { unfold cs2, cs1. rewrite insert_app_r_alt by lia. rewrite Nat.sub_diag.
    rewrite insert_app_r_alt by lia. replace (S (length pre) - length pre) with 1 by lia.
    rewrite <- app_assoc, Hl7. done. }
  destruct (m_opts_commit l (S (S (length pre))) (pre ++ [Some (string_of_num ic); Some (string_of_num oc)])
    (m (rseq tail) k) b2 t) as [b3 H3].
  - apply Forall_forall. intros [v x] Hin. pose proof Hin as Hin2.
    apply elem_of_zip_l in Hin. apply elem_of_zip_r in Hin2.
    rewrite Forall_forall in Hxs. pose proof extra_vars_named as Hnm. rewrite Forall_forall in Hnm.
    split; [by apply Hnm|by apply Hxs].
  - rewrite Hfst. apply extra_vars_apart.
  - rewrite length_app. simpl. lia.
  - exists b3. intros y Hk. unfold body_text. rewrite <- !app_assoc.
    change (js "p * " ++ ?u) with (js "p" ++ js " * " ++ u). apply H1. unfold K1.
    change (js " + c * " ++ ?u) with (32%N :: js "+" ++ 32%N :: js "c" ++ js " * " ++ u).
    cbn [rseq]. rewrite !m_seq. apply m_spaces_one; [done|]. rewrite m_lit.
    apply m_spaces_one; [done|]. apply H2. rewrite Ecs2. unfold opts. rewrite <- Hfst. apply H3.
    rewrite <- app_assoc. exact Hk.
Qed.

(** ** A tier *)

Definition tier_text (lbl : str) (ic oc : num) (xs : list num) : str :=
  js "tier(" ++ dq ++ lbl ++ dq ++ js ", " ++ body_text ic oc xs ++ js ")".

(** The pattern of a tier call, with the label as group [n]. *)
Definition tier_re (n : nat) (tail : list regex) : list regex :=
  [rlit (js "tier(" ++ dq); RGroup n (rstar (RChar not_quote)); rlit (dq ++ js ","); r_spaces]
  ++ bodyPat (S n) ++ rlit (js ")") :: tail.

Record tier_nums (ic oc : num) (xs : list num) : Prop := {
  tn_in : price_num ic = true;
  tn_out : price_num oc = true;
  tn_len : length xs = 7;
  tn_extra : Forall (λ x, price_num x = true) xs }.

Lemma m_tier n tail k bef lbl ic oc xs t pre :
  length pre = n → Forall (λ c, not_quote c = true) lbl → tier_nums ic oc xs →
  ∃ bef', ∀ y, m (rseq tail) k (mk bef' t (pre ++ Some lbl :: body_caps ic oc xs)) = Some y →
    m (rseq (tier_re n tail)) k (mk bef (tier_text lbl ic oc xs ++ t) (pre ++ replicate 10 None)) = Some y.
Proof.
  intros <- Hl [Hic Hoc Hlen Hxs]. unfold tier_re.
  set (b1 := 32%N :: rev (dq ++ js ",") ++ rev lbl ++ rev (js "tier(" ++ dq) ++ bef).
  destruct (m_body (S (length pre)) (rlit (js ")") :: tail) k b1 ic oc xs t (pre ++ [Some lbl])) as [b2 H];
    [rewrite length_app; simpl; lia|done..|].
  eexists. intros y Hk. rewrite m_rseq_app. cbn [rseq]. rewrite !m_seq. unfold tier_text. rewrite <- !app_assoc.
  rewrite (app_assoc (js "tier(") dq), m_lit, m_group_star_det; [|done|done|].
  - rewrite insert_app_r_alt, Nat.sub_diag by lia.
    change (dq ++ js ", " ++ ?u) with ((dq ++ js ",") ++ 32%N :: u). rewrite m_lit.
    apply m_spaces_one; [done|]. change (js ")" ++ t) with (41%N :: t).
    change (<[0:=Some lbl]> (replicate 10 None)) with ([Some lbl] ++ replicate 9 (@None str)).
    rewrite (app_assoc pre [Some lbl]). apply H. rewrite m_rseq_cons. change (41%N :: t) with (js ")" ++ t). rewrite m_lit.
    rewrite <- (app_assoc pre). exact Hk.
  - intros bef' c s cs' Hc. apply m_lit_head_fail. unfold not_quote in Hc.
    apply negb_true_iff, N.eqb_neq in Hc. congruence.
Qed.

(** ** Conditions *)

Record CondSpec := { cd_var : str; cd_op : str; cd_value : num }.

Definition wf_cond (c : CondSpec) : bool :=
  bool_decide (cd_var c ∈ [js "p"; js "c"; js "len"])
  && bool_decide (cd_op c ∈ [js "<"; js "<="; js ">"; js ">="]) && threshold (cd_value c).

Definition cond_text (c : CondSpec) : str :=
  cd_var c ++ js " " ++ cd_op c ++ js " " ++ string_of_num (cd_value c).

Lemma wf_cond_spec c :
  wf_cond c = true ↔ cd_var c ∈ [js "p"; js "c"; js "len"] ∧ cd_op c ∈ [js "<"; js "<="; js ">"; js ">="]
                     ∧ threshold (cd_value c) = true.
Proof. unfold wf_cond. rewrite !andb_true_iff, !bool_decide_eq_true. tauto. Qed.

Lemma m_cond_var v k bef t cs :
  v ∈ [js "p"; js "c"; js "len"] → m cond_var k (mk bef (v ++ t) cs) = k (mk (rev v ++ bef) t cs).
Proof.
  rewrite !elem_of_cons, elem_of_nil. intros [->|[->|[->|[]]]]; vm_compute; by destruct (k _).
Qed.

Lemma m_cond_op op k bef t cs :
  op ∈ [js "<"; js "<="; js ">"; js ">="] →
  (∀ bef' s, k (mk bef' (61%N :: s) cs) = None) →
  m cond_op k (mk bef (op ++ 32%N :: t) cs) = k (mk (rev op ++ bef) (32%N :: t) cs).
Proof.
  rewrite !elem_of_cons, elem_of_nil. intros [->|[->|[->|[->|[]]]]] Hk.
  - vm_compute. by destruct (k _).
  - change (m cond_op k (mk bef (js "<=" ++ 32%N :: t) cs)) with
      (match k (mk (60%N :: bef) (61%N :: 32%N :: t) cs) with
       | Some y => Some y
       | None => match k (mk (61%N :: 60%N :: bef) (32%N :: t) cs) with Some y => Some y | None => None end
       end). rewrite Hk. by destruct (k _).
  - vm_compute. by destruct (k _).
  - change (m cond_op k (mk bef (js ">=" ++ 32%N :: t) cs)) with
      (match k (mk (62%N :: bef) (61%N :: 32%N :: t) cs) with
       | Some y => Some y
       | None => k (mk (61%N :: 62%N :: bef) (32%N :: t) cs)
       end). by rewrite Hk.
Qed.

Definition head_not_cond_num (t : str) : Prop := match t with [] => True | c :: _ => cond_num_class c = false end.

Lemma threshold_head_not_space x t : threshold x = true → head_not_space (string_of_num x ++ t).
Proof. unfold threshold. rewrite andb_true_iff. intros [H _]. by apply num_head_not_space. Qed.

Lemma m_plus_commit p k bef w t cs y :
  w ≠ [] → Forall (λ c, p c = true) w → match t with [] => True | c :: _ => p c = false end →
  k (mk (rev w ++ bef) t cs) = Some y → m (rplus (RChar p)) k (mk bef (w ++ t) cs) = Some y.
Proof.
  intros Hne Hw Ht Hk. destruct w as [|c w]; [done|]. apply Forall_cons in Hw as [Hc Hw].
  change (mk bef ((c :: w) ++ t) cs) with (mk bef (c :: w ++ t) cs). rewrite m_plus by done.
  apply star_run_commit; [done|done|]. simpl in Hk. by rewrite <- app_assoc in Hk.
Qed.

Lemma m_one_cond c k bef t cs :
  wf_cond c = true → head_not_cond_num t →
  ∃ bef', ∀ y, k (mk bef' t cs) = Some y → m one_cond k (mk bef (cond_text c ++ t) cs) = Some y.
Proof.
  intros (Hv & Hop & Hx)%wf_cond_spec Ht. eexists. intros y Hk. unfold one_cond, cond_text. cbn [rseq].
  rewrite !m_seq, <- !app_assoc, m_cond_var by done.
  change (js " ") with [32%N]. cbn [app].
  apply m_spaces_one.
  { rewrite !elem_of_cons, elem_of_nil in Hop. by destruct Hop as [->|[->|[->|[->|[]]]]]. }
  rewrite m_cond_op; [|done|].
  - apply m_spaces_one; [by apply threshold_head_not_space|].
    destruct (threshold_text _ Hx) as (_ & Hne & Hc).
    apply m_plus_commit; [done|done|by destruct t|exact Hk].
  - intros bef' s. by rewrite m_spaces_none.
Qed.

(** The pieces after the first condition. *)
Definition and_text (c : CondSpec) : str := js " && " ++ cond_text c.

Definition conds_text (cs : list CondSpec) : str := join (js " && ") (map cond_text cs).

Lemma conds_text_cons c cs : conds_text (c :: cs) = cond_text c ++ concat (map and_text cs).
Proof.
  revert c. induction cs as [|d cs IH]; intros c; [simpl; by rewrite app_nil_r|].
  unfold conds_text in *. cbn [map]. rewrite join_cons by done. cbn [map] in IH. rewrite IH.
  cbn [concat map]. unfold and_text at 2. by rewrite <- !app_assoc.
Qed.

Lemma cond_text_ne c : wf_cond c = true → cond_text c ≠ [].
Proof.
  intros (Hv & _)%wf_cond_spec. unfold cond_text. rewrite !elem_of_cons, elem_of_nil in Hv.
  by destruct Hv as [->|[->|[->|[]]]].
Qed.

Lemma cond_text_head c t : wf_cond c = true → head_not_space (cond_text c ++ t).
Proof.
  intros (Hv & _)%wf_cond_spec. unfold cond_text. rewrite !elem_of_cons, elem_of_nil in Hv.
  by destruct Hv as [->|[->|[->|[]]]].
Qed.

Lemma m_and_cond c k bef t cs :
  wf_cond c = true → head_not_cond_num t →
  ∃ bef', ∀ y, k (mk bef' t cs) = Some y →
    m (rseq [r_spaces; rlit (js "&&"); r_spaces; one_cond]) k (mk bef (and_text c ++ t) cs) = Some y.
Proof.
  intros Hc Ht. destruct (m_one_cond c k (32%N :: rev (js "&&") ++ 32%N :: bef) t cs Hc Ht) as [b H].
  exists b. intros y Hk. cbn [rseq]. rewrite !m_seq. unfold and_text. rewrite <- app_assoc.
  change (js " && " ++ ?u) with (32%N :: js "&&" ++ 32%N :: u).
  apply m_spaces_one; [done|]. rewrite m_lit. apply m_spaces_one; [by apply cond_text_head|by apply H].
Qed.

(** The guard [COND ? ] in front of a tier. *)
Definition guard_text (cs : list CondSpec) : str :=
  match cs with [] => [] | _ => conds_text cs ++ js " ? " end.

Lemma m_condGroup n conds k bef t cs :
  conds ≠ [] → forallb wf_cond conds = true →
  ∃ bef', ∀ y, k (mk bef' (js " ? " ++ t) (<[n := Some (conds_text conds)]> cs)) = Some y →
    m (condGroup n) k (mk bef (conds_text conds ++ js " ? " ++ t) cs) = Some y.
Proof.
  intros Hne Hwf. destruct conds as [|c conds]; [done|]. cbn [forallb] in Hwf. apply andb_true_iff in Hwf as [Hc Hwf].
  assert (Hall : ∀ d, d ∈ conds → wf_cond d = true).
  { intros d Hd. rewrite forallb_forall in Hwf. apply Hwf. by apply list_elem_of_In. }
  unfold condGroup.
  set (r := rseq [r_spaces; rlit (js "&&"); r_spaces; one_cond]).
  set (u := js " ? " ++ t). set (text := conds_text (c :: conds) ++ u).
  set (k' := λ z, k (mk (before z) (after z) (<[n := Some (take (length text - length (after z)) text)]> (caps z)))).
  destruct (m_one_cond c (m (rstar r) k') bef (concat (map and_text conds) ++ u) cs Hc) as [b1 H1].
  { by destruct conds. }
  destruct (m_star_pieces r and_text k' u cs conds) with (bef := b1) as [b2 H2].
  - done.
  - intros a bef0 u0 k0 Ha Hu. apply m_and_cond; [by apply Hall|].
    destruct Hu as [->|(b & u' & _ & ->)]; done.
  - by apply Forall_forall.
  - intros k0 bef0. unfold r, u. cbn [rseq]. rewrite !m_seq.
    change (js " ? " ++ t) with (32%N :: 63%N :: 32%N :: t).
    by rewrite m_spaces_one_det.
  - exists b2. intros y Hk. rewrite m_group. fold text. cbn [rseq]. rewrite m_seq.
    fold r. change (m one_cond (m (rstar r) k') (mk bef text cs) = Some y).
    unfold text. rewrite conds_text_cons, <- app_assoc. apply H1, H2. unfold k'. cbn [before after caps].
    unfold text. by rewrite take_consumed.
Qed.

(** ** A guarded tier, as one match of [multiTierRe] *)

Record TierSpec := {
  ts_label : str; ts_conds : list CondSpec; ts_in : num; ts_out : num; ts_extra : list num }.

Definition seg_text (s : TierSpec) : str :=
  guard_text (ts_conds s) ++ tier_text (ts_label s) (ts_in s) (ts_out s) (ts_extra s).

Definition wf_spec (s : TierSpec) : bool :=
  truthy (ts_label s) && forallb not_quote (ts_label s) && forallb wf_cond (ts_conds s)
  && price_num (ts_in s) && price_num (ts_out s) && (length (ts_extra s) =? 7)
  && forallb price_num (ts_extra s).

Lemma forallb_Forall {A} (f : A → bool) l : forallb f l = true ↔ Forall (λ x, f x = true) l.
Proof.
  rewrite forallb_forall, Forall_forall. split; intros H x Hx; apply H; by apply list_elem_of_In.
Qed.

Lemma wf_spec_spec s :
  wf_spec s = true ↔
  ts_label s ≠ [] ∧ Forall (λ c, not_quote c = true) (ts_label s) ∧ forallb wf_cond (ts_conds s) = true
  ∧ tier_nums (ts_in s) (ts_out s) (ts_extra s).
Proof.
  unfold wf_spec. rewrite !andb_true_iff, <- !forallb_Forall, Nat.eqb_eq. split.
  - intros [[[[[[H1 H2] H3] H4] H5] H6] H7]. split_and!; [by intros E; rewrite E in H1|done|done|].
    split; [done|done|done|]. by apply forallb_Forall.
  - intros (H1 & H2 & H3 & [H4 H5 H6 H7]). apply forallb_Forall in H7. split_and!; try done.
    by destruct (ts_label s).
Qed.

Definition cond_cap (cs : list CondSpec) : option str := match cs with [] => None | _ => Some (conds_text cs) end.

Definition seg_caps (s : TierSpec) : list (option str) :=
  Some (seg_text s) :: cond_cap (ts_conds s) :: Some (ts_label s) :: body_caps (ts_in s) (ts_out s) (ts_extra s).

Lemma tier_text_head lbl ic oc xs t : tier_text lbl ic oc xs ++ t = js "tier(" ++ drop 5 (tier_text lbl ic oc xs) ++ t.
Proof. done. Qed.

Definition guard_re : regex := ROpt (rseq [condGroup 1; r_spaces; rlit (js "?"); r_spaces]).

(** The guard of a tier is taken, or passed over if there is none. *)
Lemma m_guard conds K bef u cs :
  forallb wf_cond conds = true → cs !! 1 = Some None →
  ∃ bef', ∀ y, K (mk bef' (js "tier(" ++ u) (<[1 := cond_cap conds]> cs)) = Some y →
    m guard_re K (mk bef (guard_text conds ++ js "tier(" ++ u) cs) = Some y.
Proof.
  intros Hc Hcs. unfold guard_re. destruct conds as [|c conds].
  - exists bef. intros y Hy. cbn [guard_text cond_cap app] in *. rewrite list_insert_id in Hy by done. by rewrite m_opt_skip.
  - set (cds := c :: conds) in *. set (tt := js "tier(" ++ u).
    remember (guard_text cds ++ tt) as txt eqn:Etxt.
    assert (Etxt' : txt = conds_text cds ++ js " ? " ++ tt)
      by (rewrite Etxt; change (guard_text cds) with (conds_text cds ++ js " ? "); by rewrite <- !app_assoc).
    assert (Hlt : length tt ≠ length txt) by (rewrite Etxt', !length_app; simpl; lia).
    set (K' := λ z, if length (after z) =? length txt then None else K z).
    destruct (m_condGroup 1 cds (m (rseq [r_spaces; rlit (js "?"); r_spaces]) K') bef tt cs) as [b1 H1]; [done|done|].
    eexists. intros y Hy. apply m_opt_take. fold K'. change (clear_caps _ _) with (<[1 := None]> cs). rewrite (list_insert_id cs) by done.
    rewrite m_rseq_cons.
    replace (mk bef txt cs) with (mk bef (conds_text cds ++ js " ? " ++ tt) cs) by (by rewrite Etxt').
    apply H1. cbn [rseq]. rewrite !m_seq.
    change (js " ? " ++ ?u) with (32%N :: js "?" ++ 32%N :: u).
    apply m_spaces_one; [done|]. rewrite m_lit. apply m_spaces_one; [done|].
    unfold K'. cbn [after]. rewrite (proj2 (Nat.eqb_neq _ _) Hlt). exact Hy.
Qed.

Lemma match_seg s bef t :
  wf_spec s = true →
  ∃ bef', match_at 11 multiTierRe bef (seg_text s ++ t) = Some (mk bef' t (seg_caps s)).
Proof.
  intros (Hne & Hl & Hc & Hn)%wf_spec_spec. unfold match_at. rewrite m_group.
  set (k := λ y, Some _).
  change (m multiTierRe k) with (m guard_re (m (rseq (tier_re 2 [])) k)).
  destruct s as [lbl conds ic oc xs]. unfold seg_caps. cbn [ts_label ts_conds ts_in ts_out ts_extra] in *.
  destruct (m_guard conds (m (rseq (tier_re 2 [])) k) bef (drop 5 (tier_text lbl ic oc xs) ++ t) (replicate 12 None)) as [b1 H1]; [done|done|].
  destruct (m_tier 2 [] k b1 lbl ic oc xs t [None; cond_cap conds]) as [b2 H2]; [done|done|done|].
  exists b2. match goal with |- m ?r ?K (mk ?b (?x ++ ?t) ?cs) = ?y =>
    enough (m r K (mk b (guard_text conds ++ js "tier(" ++ drop 5 (tier_text lbl ic oc xs) ++ t) cs) = y) as H
      by (rewrite <- tier_text_head, app_assoc in H; exact H) end.
  apply H1.
  rewrite <- tier_text_head. apply H2. unfold k. cbn [rseq m before after caps]. by rewrite take_consumed.
Qed.

(** ** The scan over several tiers *)

Lemma exec_separator bef t :
  exec_from 11 multiTierRe bef (js " : " ++ t) = exec_from 11 multiTierRe (rev (js " : ") ++ bef) t.
Proof. change (js " : " ++ t) with (32%N :: 58%N :: 32%N :: t). by rewrite !exec_from_next. Qed.

Definition next_text (s : TierSpec) : str := js " : " ++ seg_text s.

Definition segs_text (specs : list TierSpec) : str := join (js " : ") (map seg_text specs).

Lemma segs_text_cons s specs : segs_text (s :: specs) = seg_text s ++ concat (map next_text specs).
Proof.
  revert s. induction specs as [|s' specs IH]; intros s; [simpl; by rewrite app_nil_r|].
  unfold segs_text in *. cbn [map]. rewrite join_cons by done. cbn [map] in IH. rewrite IH.
  cbn [concat map]. unfold next_text at 2. by rewrite <- !app_assoc.
Qed.

Lemma seg_text_ne s : seg_text s ≠ [].
Proof. unfold seg_text. intros [_ ?]%app_nil. done. Qed.

(** A pattern that matches each tier and passes over what separates them finds them all. *)
Section scan.
Context (ng : nat) (r : regex) (caps_of : TierSpec → list (option str)).
Context (Hsep : ∀ bef t, exec_from ng r bef (js " : " ++ t) = exec_from ng r (rev (js " : ") ++ bef) t).
Context (Hseg : ∀ s bef t, wf_spec s = true → ∃ bef', match_at ng r bef (seg_text s ++ t) = Some (mk bef' t (caps_of s))).

Lemma scan_next specs tail : (∀ bef, exec_from ng r bef tail = None) →
  forallb wf_spec specs = true → ∀ fuel bef, length specs < fuel →
  exec_all fuel ng r bef (concat (map next_text specs) ++ tail) = map caps_of specs.
Proof using Hsep Hseg.
  intros Htail. induction specs as [|s specs IH]; intros Hwf [|fuel] bef Hf; try (simpl in Hf; lia).
  - cbn [map concat app exec_all]. by rewrite Htail.
  - cbn [forallb] in Hwf. apply andb_true_iff in Hwf as [Hs Hwf]. cbn [map concat exec_all].
    unfold next_text at 1. rewrite <- !app_assoc, Hsep.
    destruct (Hseg s (rev (js " : ") ++ bef) (concat (map next_text specs) ++ tail) Hs) as [b E].
    rewrite (exec_from_here _ _ _ _ _ E). cbn [caps before after]. f_equal. apply IH; [done|simpl in Hf; lia].
Qed.

Lemma scan_segs s specs tail :
  (∀ bef, exec_from ng r bef tail = None) →
  forallb wf_spec (s :: specs) = true →
  match_all ng r (segs_text (s :: specs) ++ tail) = map caps_of (s :: specs).
Proof using Hsep Hseg.
  intros Htail Hwf. cbn [forallb] in Hwf. apply andb_true_iff in Hwf as [Hs Hwf].
  unfold match_all. rewrite segs_text_cons, <- app_assoc. cbn [exec_all].
  destruct (Hseg s [] (concat (map next_text specs) ++ tail) Hs) as [b E].
  rewrite (exec_from_here _ _ _ _ _ E). cbn [caps before after map]. f_equal.
  apply scan_next; [done|done|]. rewrite length_app.
  assert (length specs ≤ length (concat (map next_text specs) ++ tail)).
  { rewrite length_app. clear. induction specs as [|s' specs IH]; simpl; [lia|]. rewrite length_app. lia. }
  pose proof (seg_text_ne s). destruct (seg_text s); [done|]. simpl. lia.
Qed.
End scan.

Definition match_all_segs := scan_segs 11 multiTierRe seg_caps exec_separator match_seg.

Lemma tail_none_nil bef : exec_from 11 multiTierRe bef [] = None.
Proof. done. Qed.

Lemma tail_none_zero bef : exec_from 11 multiTierRe bef (js " : " ++ ZERO_EXPR) = None.
Proof. vm_compute. reflexivity. Qed.

(** ** Reading the conditions back *)

(** [AND_RE] does not match at a position of [e] with [t] behind. *)
Fixpoint quiet (e t : str) : Prop :=
  match e with
  | [] => True
  | c :: e' =>
      c ≠ 38%N ∧ (is_space c = true → match e' ++ t with d :: _ => is_space d = false ∧ d ≠ 38%N | [] => True end)
      ∧ quiet e' t
  end.

Lemma and_re_quiet c bef t :
  c ≠ 38%N → (is_space c = true → match t with d :: _ => is_space d = false ∧ d ≠ 38%N | [] => True end) →
  match_at 0 AND_RE bef (c :: t) = None.
Proof.
  intros Hc Hs. unfold match_at. rewrite m_group. unfold AND_RE. cbn [rseq]. rewrite !m_seq.
  assert (L : ∀ k b d s cs, d ≠ 38%N → m (rlit (js "&&")) k (mk b (d :: s) cs) = None).
  { intros k b d s cs Hd. apply m_lit_head_fail. exact (not_eq_sym Hd). }
  unfold r_spaces, c_space. rewrite m_star. cbn [star_run].
  destruct (is_space c) eqn:Es; [|by apply L].
  replace (star_run _ _ _ (c :: bef) t) with (@None mstate); [by rewrite L|].
  destruct t as [|d t]; [done|]. destruct (Hs eq_refl) as [Hd1 Hd2]. cbn [star_run]. rewrite Hd1. by rewrite L.
Qed.

Lemma split_quiet e t f cur bef :
  quiet e t → length e ≤ f →
  split_re_go f AND_RE cur bef (e ++ t) = split_re_go (f - length e) AND_RE (rev e ++ cur) (rev e ++ bef) t.
Proof.
  revert f cur bef. induction e as [|c e IH]; intros f cur bef Hq Hf; [by rewrite Nat.sub_0_r|].
  destruct f as [|f]; [simpl in Hf; lia|]. destruct Hq as (H1 & H2 & Hq). cbn [app split_re_go].
  rewrite and_re_quiet by done. rewrite IH by (done || simpl in Hf; lia). simpl. by rewrite <- !app_assoc.
Qed.

Lemma and_re_match bef t :
  head_not_space t → ∃ bef' cs, match_at 0 AND_RE bef (js " && " ++ t) = Some (mk bef' t cs).
Proof.
  intros Ht. eexists _, _. unfold match_at. rewrite m_group. unfold AND_RE. cbn [rseq]. rewrite !m_seq.
  change (js " && " ++ t) with (32%N :: js "&&" ++ 32%N :: t).
  apply m_spaces_one; [done|]. rewrite m_lit. apply m_spaces_one; [done|]. reflexivity.
Qed.

Lemma quiet_app a b t : quiet (a ++ b) t ↔ quiet a (b ++ t) ∧ quiet b t.
Proof. induction a as [|c a IH]; simpl; [tauto|]. rewrite IH, <- app_assoc. tauto. Qed.

(** A character at which [AND_RE] never matches. *)
Definition calm (c : N) : bool := negb (c =? 38)%N && negb (is_space c).

Lemma quiet_calm w t : forallb calm w = true → quiet w t.
Proof.
  induction w as [|c w IH]; [done|]. cbn [forallb quiet]. unfold calm at 1.
  rewrite !andb_true_iff, !negb_true_iff, N.eqb_neq. intros [[H1 H2] H3]. rewrite H2. split_and!; [done|done|auto].
Qed.

Lemma quiet_space w t : w ≠ [] → forallb calm w = true → quiet [32%N] (w ++ t).
Proof.
  destruct w as [|c w]; [done|]. cbn [forallb]. unfold calm at 1.
  rewrite !andb_true_iff, !negb_true_iff, N.eqb_neq. intros _ [[H1 H2] _]. done.
Qed.

Lemma cond_num_calm c : cond_num_class c = true → calm c = true.
Proof.
  unfold cond_num_class, calm. rewrite !orb_true_iff, !N.eqb_eq, andb_true_iff, !negb_true_iff, N.eqb_neq.
  intros [Hd|H]; [split; [by intros ->|by apply digit_not_space]|].
  destruct H as [[[->| ->]| ->]| ->]; done.
Qed.

Lemma threshold_calm x : threshold x = true → forallb calm (string_of_num x) = true.
Proof.
  intros (_ & _ & H)%threshold_text. apply forallb_Forall. eapply Forall_impl; [exact H|apply cond_num_calm].
Qed.

Lemma var_calm v : v ∈ [js "p"; js "c"; js "len"] → forallb calm v = true.
Proof. rewrite !elem_of_cons, elem_of_nil. by intros [->|[->|[->|[]]]]. Qed.

Lemma op_calm op : op ∈ [js "<"; js "<="; js ">"; js ">="] → forallb calm op = true ∧ op ≠ [].
Proof. rewrite !elem_of_cons, elem_of_nil. by intros [->|[->|[->|[->|[]]]]]. Qed.

Lemma quiet_cond c t : wf_cond c = true → quiet (cond_text c) t.
Proof.
  intros (Hv & Hop & Hx)%wf_cond_spec. unfold cond_text.
  destruct (op_calm _ Hop) as [Hoc Hone]. destruct (threshold_text _ Hx) as (_ & Hne & _).
  rewrite !quiet_app, <- !app_assoc. change (js " ") with [32%N].
  split_and!; auto using quiet_calm, quiet_space, var_calm, threshold_calm.
Qed.

Lemma split_conds cds :
  forallb wf_cond cds = true → cds ≠ [] → split_re AND_RE (conds_text cds) = map cond_text cds.
Proof.
  intros Hwf Hne.
  assert (G : ∀ c cds f bef, forallb wf_cond (c :: cds) = true → length (conds_text (c :: cds)) < f →
    split_re_go f AND_RE [] bef (conds_text (c :: cds)) = map cond_text (c :: cds)).
  { clear. intros c cds. revert c. induction cds as [|d cds IH]; intros c f bef Hwf Hf.
    - cbn [forallb] in Hwf. rewrite andb_true_r in Hwf. unfold conds_text in *. cbn [map join] in *.
      rewrite <- (app_nil_r (cond_text c)) at 1. rewrite split_quiet by (by apply quiet_cond || lia).
      destruct (f - length (cond_text c)) as [|f'] eqn:E; [lia|]. cbn [split_re_go].
      by rewrite app_nil_r, rev_involutive.
    - cbn [forallb] in Hwf. apply andb_true_iff in Hwf as [Hc Hwf].
      unfold conds_text in *. cbn [map] in *. rewrite join_cons in * by done.
      rewrite !length_app in Hf. change (length (js " && ")) with 4 in Hf. rewrite split_quiet by (by apply quiet_cond || lia).
      destruct (f - length (cond_text c)) as [|f'] eqn:E; [lia|].
      change (js " && " ++ ?u) with (32%N :: js "&& " ++ u). cbn [split_re_go].
      change (32%N :: js "&& " ++ ?u) with (js " && " ++ u).
      set (u := join (js " && ") (cond_text d :: map cond_text cds)) in *.
      destruct (and_re_match (rev (cond_text c) ++ bef) u) as (b & cs & Em).
      { unfold u. cbn [forallb] in Hwf. apply andb_true_iff in Hwf as [Hd _].
        pose proof (cond_text_head d) as Hh. destruct cds as [|e cds].
        - specialize (Hh [] Hd). by rewrite app_nil_r in Hh.
        - rewrite join_cons by done. by apply Hh. }
      rewrite Em. cbn [after before].
      replace (length u =? length (js " && " ++ u)) with false
        by (symmetry; apply Nat.eqb_neq; rewrite length_app; simpl; lia).
      rewrite andb_false_r. rewrite app_nil_r, rev_involutive. f_equal.
      unfold u. cbn [map] in IH. apply IH; [done|]. unfold u in Hf. cbn [map] in *. lia. }
  destruct cds as [|c cds]; [done|]. pose proof Hwf as Hwf'. cbn [forallb] in Hwf'.
  apply andb_true_iff in Hwf' as [Hc _]. pose proof (cond_text_ne c Hc) as Hcne.
  unfold split_re. destruct (conds_text (c :: cds)) as [|x l] eqn:E.
  - rewrite conds_text_cons in E. apply app_nil in E as [? _]. done.
  - rewrite <- E. apply G; [done|]. lia.
Qed.

Lemma cond_re_reads c :
  wf_cond c = true →
  match_re 3 COND_RE (cond_text c)
  = Some [Some (cond_text c); Some (cd_var c); Some (cd_op c); Some (string_of_num (cd_value c))].
Proof.
  intros (Hv & Hop & Hx)%wf_cond_spec. unfold COND_RE.
  rewrite (match_re_some _ _ _ [None; Some (cd_var c); Some (cd_op c); Some (string_of_num (cd_value c))]); [done|].
  intros k. eexists. intros y Hk. cbn [rseq]. rewrite !m_seq, m_group. unfold cond_text.
  rewrite m_cond_var by done. cbn [before after caps]. rewrite take_consumed.
  change (js " ") with [32%N]. cbn [app].
  destruct (op_calm _ Hop) as [Hoc Hone]. destruct (threshold_text _ Hx) as (_ & Hne & Hw).
  apply m_spaces_one; [rewrite !elem_of_cons, elem_of_nil in Hop; by destruct Hop as [->|[->|[->|[->|[]]]]]|].
  rewrite m_group, m_cond_op; [|done|intros bef' s; cbn [before after caps]; by rewrite m_spaces_none].
  cbn [before after caps]. rewrite take_consumed. apply m_spaces_one.
  - pose proof (threshold_head_not_space _ [] Hx) as H. by rewrite app_nil_r in H.
  - apply m_group_plus_end; [done|done|exact Hk].
Qed.

Lemma cond_text_trimmed c : wf_cond c = true → trim (cond_text c) = cond_text c.
Proof.
  intros Hwf. pose proof Hwf as (Hv & Hop & Hx)%wf_cond_spec. apply trim_id. split.
  - pose proof (cond_text_head c [] Hwf) as H. by rewrite app_nil_r in H.
  - unfold cond_text. rewrite !app_assoc, rev_app_distr.
    destruct (threshold_text _ Hx) as (_ & Hne & _). pose proof (threshold_calm _ Hx) as Hc.
    apply head_ok_app_nonempty.
    + intros E. apply Hne. by apply (f_equal (rev (A:=N))) in E; rewrite rev_involutive in E.
    + destruct (trimmed_no_space (string_of_num (cd_value c))) as [_ H]; [|done].
      apply forallb_Forall in Hc. eapply Forall_impl; [exact Hc|].
      intros d Hd. unfold calm in Hd. by apply andb_true_iff in Hd as [_ Hd%negb_true_iff].
Qed.

Definition input_of_cond (c : CondSpec) : TierConditionInput :=
  {| ci_var := cd_var c; ci_op := cd_op c; ci_value := JNum (cd_value c) |}.

Definition read_of_cond (c : CondSpec) : TierCondition :=
  {| tc_var := cd_var c; tc_op := cd_op c; tc_value := cd_value c |}.

(** The conditions of a guard come back. *)
Lemma read_guard cds :
  forallb wf_cond cds = true → parse_conditions (default [] (cond_cap cds)) = map read_of_cond cds.
Proof.
  intros Hwf. destruct cds as [|c cds]; [done|]. set (l := c :: cds) in *.
  assert (l ≠ []) as Hne by done.
  change (default [] (cond_cap l)) with (conds_text l). unfold parse_conditions.
  assert (truthy (conds_text l) = true) as ->.
  { unfold l in *. cbn [forallb] in Hwf. apply andb_true_iff in Hwf as [Hc _]. rewrite conds_text_cons.
    pose proof (cond_text_ne c Hc). by destruct (cond_text c). }
  rewrite split_conds by done. clearbody l. clear Hne c cds.
  induction l as [|c l IH]; [done|]. cbn [forallb] in Hwf. apply andb_true_iff in Hwf as [Hc Hwf].
  cbn [map omap list_omap]. rewrite cond_text_trimmed, cond_re_reads by done.
  pose proof Hc as (_ & _ & Hx)%wf_cond_spec. destruct (threshold_text _ Hx) as (Hr & _).
  cbn [fmap option_fmap option_map map]. f_equal; [|by apply IH].
  unfold read_of_cond. change (cap _ 3) with (string_of_num (cd_value c)). by rewrite Hr.
Qed.

Lemma parse_guard cds :
  forallb wf_cond cds = true →
  parse_input_conditions (default [] (cond_cap cds)) = map input_of_cond cds.
Proof. intros Hwf. unfold parse_input_conditions. rewrite read_guard by done. by rewrite map_map. Qed.

(** ** From specifications to tiers and back *)

Definition EXTRA_FIELDS : list str := map cv_field BILLING_CACHE_VAR_MAP.

(** The tier a specification describes, in the editor's normal form. *)
Definition tier_of_spec (s : TierSpec) : VisualTier :=
  {| label := Some (ts_label s);
     tier_conds := Some (map input_of_cond (ts_conds s));
     input_unit_cost := Some (JNum (ts_in s));
     output_unit_cost := Some (JNum (ts_out s));
     cache_mode := Some (if nlt (num_of_Z 0) (default S754_nan (ts_extra s !! 2)) then CACHE_MODE_TIMED
                         else CACHE_MODE_GENERIC);
     extra_costs := zip EXTRA_FIELDS (map JNum (ts_extra s)) |}.

Lemma seven (xs : list num) : length xs = 7 → ∃ a b c d e f g, xs = [a; b; c; d; e; f; g].
Proof. destruct xs as [|a [|b [|c [|d [|e [|f [|g [|]]]]]]]]; try done. intros _. by exists a, b, c, d, e, f, g. Qed.

Lemma extra_costs_of_spec s :
  length (ts_extra s) = 7 →
  map (λ cv, opt_number (extra_cost (tier_of_spec s) (cv_field cv))) BILLING_CACHE_VAR_MAP = ts_extra s.
Proof. intros (a & b & c & d & e & f & g & E)%seven. unfold extra_cost, tier_of_spec. cbn [extra_costs]. by rewrite E. Qed.

Lemma join_concat sep a l : join sep (a :: l) = a ++ concat (map (app sep) l).
Proof.
  revert a. induction l as [|b l IH]; intros a; [simpl; by rewrite app_nil_r|].
  rewrite join_cons by done. rewrite IH. simpl. by rewrite <- app_assoc.
Qed.

Lemma omap_costs (l : list CacheVar) (h : CacheVar → num) xs :
  map h l = xs → Forall (λ x, price_num x = true) xs →
  concat (map (app (js " + ")) (omap (λ cv,
     if num_eqb (or_zero (h cv)) (num_of_Z 0) then None else Some (cost_part (exprVar cv) (or_zero (h cv)))) l))
  = concat (map opt_text (zip (map exprVar l) xs)).
Proof.
  intros <-. induction l as [|cv l IH]; [done|]. cbn [map]. intros [Hx Hl]%Forall_cons.
  cbn [omap list_omap zip zip_with map concat]. rewrite price_or_zero by done.
  unfold opt_text at 1, is_zero. cbn [fst snd]. destruct (num_eqb (h cv) (num_of_Z 0)); [by apply IH|].
  cbn [map concat]. unfold cost_part at 1, cost_text. rewrite IH by done. by rewrite <- !app_assoc.
Qed.

Lemma body_of_spec s :
  tier_nums (ts_in s) (ts_out s) (ts_extra s) →
  buildTierBodyExpr (tier_of_spec s) = body_text (ts_in s) (ts_out s) (ts_extra s).
Proof.
  intros [Hi Ho Hl Hx]. unfold buildTierBodyExpr. cbn [input_unit_cost output_unit_cost tier_of_spec opt_number to_number].
  cbv zeta. rewrite !price_or_zero by done. cbn [app]. rewrite join_concat. cbn [map concat].
  rewrite (omap_costs _ _ (ts_extra s)) by (by apply extra_costs_of_spec || done).
  unfold body_text, cost_part. by rewrite <- !app_assoc.
Qed.

Lemma cond_str_of_spec s :
  forallb wf_cond (ts_conds s) = true →
  buildConditionStr (tier_conds (tier_of_spec s)) = conds_text (ts_conds s).
Proof.
  intros Hwf. unfold buildConditionStr, tier_of_spec. cbn [tier_conds].
  assert (List.filter condition_given (map input_of_cond (ts_conds s)) = map input_of_cond (ts_conds s)) as E.
  { apply bfilter_id. intros x Hx. apply elem_of_lmap in Hx as (c & -> & Hc).
    rewrite forallb_forall in Hwf. specialize (Hwf c (proj1 (list_elem_of_In _ _) Hc)).
    apply wf_cond_spec in Hwf as (Hv & Hop & _). unfold condition_given, input_of_cond. cbn [ci_var ci_op ci_value].
    rewrite !elem_of_cons, elem_of_nil in Hv. rewrite !elem_of_cons, elem_of_nil in Hop.
    by destruct Hv as [->|[->|[->|[]]]], Hop as [->|[->|[->|[->|[]]]]]. }
  rewrite E. unfold conds_text. destruct (ts_conds s) as [|c cds]; [done|]. cbn [map]. f_equal. f_equal.
  rewrite map_map. done.
Qed.

Lemma guard_of_spec s :
  wf_spec s = true →
  let cond := buildConditionStr (tier_conds (tier_of_spec s)) in
  (if truthy cond then cond ++ js " ? " else []) = guard_text (ts_conds s)
  ∧ (truthy cond = false ↔ ts_conds s = []).
Proof.
  intros (_ & _ & Hc & _)%wf_spec_spec. cbv zeta. rewrite cond_str_of_spec by done.
  destruct (ts_conds s) as [|c cds]; [done|].
  assert (truthy (conds_text (c :: cds)) = true) as ->.
  { cbn [forallb] in Hc. apply andb_true_iff in Hc as [Hc _]. rewrite conds_text_cons.
    pose proof (cond_text_ne c Hc). by destruct (cond_text c). }
  done.
Qed.

Lemma call_of_spec s lbl :
  wf_spec s = true → tier_call lbl (tier_of_spec s) = tier_text lbl (ts_in s) (ts_out s) (ts_extra s).
Proof. intros (_ & _ & _ & Hn)%wf_spec_spec. unfold tier_call, tier_text. by rewrite body_of_spec. Qed.

Lemma label_of_spec s d : wf_spec s = true → or_default (label (tier_of_spec s)) d = ts_label s.
Proof. intros (Hl & _)%wf_spec_spec. cbn. by destruct (ts_label s). Qed.

(** All tiers but the last may be guarded. *)
Fixpoint last_unguarded (specs : list TierSpec) : bool :=
  match specs with
  | [] => true
  | [s] => bool_decide (ts_conds s = [])
  | _ :: specs' => last_unguarded specs'
  end.

Lemma multi_parts_of_specs specs i :
  forallb wf_spec specs = true → last_unguarded specs = true →
  multi_parts i (map tier_of_spec specs) = map seg_text specs.
Proof.
  revert i. induction specs as [|s specs IH]; intros i Hwf Hlast; [done|].
  cbn [forallb] in Hwf. apply andb_true_iff in Hwf as [Hs Hwf]. cbn [map multi_parts]. cbv zeta.
  rewrite label_of_spec, call_of_spec by done. destruct (guard_of_spec s Hs) as [Hg Hnil].
  f_equal.
  - unfold seg_text. destruct specs as [|s' specs].
    + apply bool_decide_eq_true in Hlast. cbn [map]. rewrite bool_decide_eq_true_2 by done.
      by rewrite Hlast.
    + cbn [map]. rewrite bool_decide_eq_false_2 by done. cbn [negb andb]. rewrite <- Hg.
      destruct (truthy _); [by rewrite <- app_assoc|done].
  - apply IH; [done|]. by destruct specs.
Qed.

(** The extra costs of a match, one block per field. *)
Definition blocks (l : list (str * option str)) : list (str * json) :=
  flat_map (λ fo, match snd fo with Some v => [(fst fo, JNum (number_of_string v))] | None => [] end) l.

Lemma find_blocks f o l :
  NoDup (map fst l) → (f, o) ∈ l →
  snd <$> find (λ kv, bool_decide (fst kv = f)) (blocks l) = (λ v, JNum (number_of_string v)) <$> o.
Proof.
  assert (Hno : ∀ l, f ∉ map fst l → find (λ kv, bool_decide (fst kv = f)) (blocks l) = None).
  { clear. induction l as [|[g o'] l IH]; [done|]. cbn [map fst]. rewrite not_elem_of_cons. intros [Hg Hl].
    unfold blocks. cbn [flat_map snd fst]. fold (blocks l). destruct o' as [v|]; [|by apply IH].
    cbn [app find fst]. rewrite bool_decide_eq_false_2 by congruence. by apply IH. }
  induction l as [|[g o'] l IH]; intros Hnd Hin; [by apply elem_of_nil in Hin|].
  cbn [map fst] in Hnd. apply NoDup_cons in Hnd as [Hg Hnd]. unfold blocks. cbn [flat_map snd fst]. fold (blocks l).
  apply elem_of_cons in Hin as [E|Hin].
  - injection E as <- <-. destruct o as [v|]; cbn [app find fst].
    + by rewrite bool_decide_eq_true_2.
    + by rewrite Hno.
  - assert (g ≠ f) as Hgf.
    { intros ->. apply Hg, elem_of_lmap. by exists (f, o). }
    destruct o' as [v|]; cbn [app find fst]; [rewrite bool_decide_eq_false_2 by done|]; by apply IH.
Qed.

(** The coefficient that comes back for a captured extra cost. *)
Lemma opt_cap_reads v x :
  price_num x = true → or_zero (opt_number ((λ v, JNum (number_of_string v)) <$> opt_cap (v, x))) = x.
Proof.
  intros Hx. unfold opt_cap. cbn [fst snd]. destruct (is_zero x) eqn:E.
  - unfold price_num in Hx. apply andb_true_iff in Hx as [_ Hx].
    destruct x as [[]| | |[] ? ?]; try done.
  - destruct (price_num_text x Hx) as (Hr & _). cbn. rewrite Hr. by apply price_or_zero.
Qed.

Definition fields_of (xs : list num) : list (str * option str) :=
  zip EXTRA_FIELDS (map opt_cap (zip EXTRA_VARS xs)).

Definition NORMAL_FIELDS : list str :=
  [js "cache_read_unit_cost"; js "cache_create_unit_cost"; js "cache_create_1h_unit_cost";
   js "image_unit_cost"; js "image_output_unit_cost"; js "audio_input_unit_cost"; js "audio_output_unit_cost"].

Lemma extra_fields_eq : EXTRA_FIELDS = NORMAL_FIELDS.
Proof. vm_compute. reflexivity. Qed.

Lemma normal_fields_NoDup : NoDup NORMAL_FIELDS.
Proof. apply (bool_decide_unpack _). vm_compute. exact I. Qed.

Lemma fst_fields xs : length xs = 7 → map fst (fields_of xs) = NORMAL_FIELDS.
Proof.
  intros Hl. unfold fields_of. rewrite extra_fields_eq. apply (fst_zip NORMAL_FIELDS).
  rewrite length_map, length_zip_with, Hl. done.
Qed.

(** Reading the blocks gives the numbers back, field by field. *)
Lemma blocks_read fds vs xs t :
  NoDup fds → length vs = length xs → length fds = length xs → Forall (λ x, price_num x = true) xs →
  extra_costs t = blocks (zip fds (map opt_cap (zip vs xs))) →
  map (λ f, (f, JNum (or_zero (opt_number (extra_cost t f))))) fds = zip fds (map JNum xs)
  ∧ ∀ i f v x, fds !! i = Some f → vs !! i = Some v → xs !! i = Some x →
      extra_cost t f = (λ v, JNum (number_of_string v)) <$> opt_cap (v, x).
Proof.
  intros Hnd Hvs Hfs Hx Ht.
  assert (H : ∀ i f v x, fds !! i = Some f → vs !! i = Some v → xs !! i = Some x →
      extra_cost t f = (λ v, JNum (number_of_string v)) <$> opt_cap (v, x)).
  { intros i f v x Hf Hv Hxi. unfold extra_cost. rewrite Ht. apply find_blocks.
    - rewrite fst_zip; [done|]. rewrite length_map, length_zip_with. lia.
    - apply (list_elem_of_lookup_2 _ i). rewrite lookup_zip_with, Hf. cbn [mbind option_bind].
      rewrite list_lookup_fmap, lookup_zip_with, Hv. cbn [mbind option_bind]. by rewrite Hxi. }
  split; [|done]. apply list_eq. intros i. rewrite list_lookup_fmap, lookup_zip_with, list_lookup_fmap.
  destruct (fds !! i) as [f|] eqn:Ef; [|done]. cbn [fmap option_fmap option_map mbind option_bind].
  destruct (lookup_lt_is_Some_2 xs i) as [x Ex]; [apply lookup_lt_Some in Ef; lia|].
  destruct (lookup_lt_is_Some_2 vs i) as [v Ev]; [apply lookup_lt_Some in Ef; lia|].
  rewrite Ex. cbn. rewrite (H i f v x), opt_cap_reads; [done| |done..].
  rewrite Forall_lookup in Hx. by eapply Hx.
Qed.

Lemma normal_extra t xs :
  length xs = 7 → Forall (λ x, price_num x = true) xs → extra_costs t = blocks (fields_of xs) →
  extra_costs (normalizeVisualTier t) = zip EXTRA_FIELDS (map JNum xs)
  ∧ opt_number (extra_cost t (js "cache_create_1h_unit_cost"))
    = opt_number ((λ v, JNum (number_of_string v)) <$> opt_cap (js "cc1h", default S754_nan (xs !! 2))).
Proof.
  intros Hl Hx Ht. unfold fields_of in Ht. rewrite extra_fields_eq in *.
  destruct (blocks_read NORMAL_FIELDS EXTRA_VARS xs t) as [H1 H2];
    [apply normal_fields_NoDup|by rewrite Hl|by rewrite Hl|done|done|].
  split; [exact H1|]. destruct (lookup_lt_is_Some_2 xs 2) as [x Ex]; [lia|]. rewrite Ex.
  by rewrite (H2 2 (js "cache_create_1h_unit_cost") (js "cc1h") x).
Qed.

Lemma map_pair_zip {A B C} (h : A → B) (g : B → C) l : map (λ a, (a, g (h a))) l = zip l (map g (map h l)).
Proof. induction l as [|a l IH]; [done|]. cbn. by rewrite IH. Qed.

Lemma normalize_of_spec s :
  wf_spec s = true → normalizeVisualTier (tier_of_spec s) = tier_of_spec s.
Proof.
  intros (_ & _ & _ & [Hi Ho Hl Hx])%wf_spec_spec.
  assert (E : extra_costs (normalizeVisualTier (tier_of_spec s)) = extra_costs (tier_of_spec s)).
  { change (extra_costs (normalizeVisualTier (tier_of_spec s))) with
      (map (λ f, (f, JNum (or_zero (opt_number (extra_cost (tier_of_spec s) f))))) NORMAL_FIELDS).
    rewrite (map_pair_zip (λ f, opt_number (extra_cost (tier_of_spec s) f)) (λ x, JNum (or_zero x))).
    rewrite <- extra_fields_eq.
    assert (map (λ f, opt_number (extra_cost (tier_of_spec s) f)) EXTRA_FIELDS = ts_extra s) as ->
      by (unfold EXTRA_FIELDS; rewrite map_map; by apply extra_costs_of_spec).
    cbn [extra_costs tier_of_spec]. f_equal. apply map_ext_in. intros x Hin. rewrite price_or_zero; [done|].
    rewrite Forall_forall in Hx. apply Hx. by apply list_elem_of_In. }
  transitivity {| label := label (normalizeVisualTier (tier_of_spec s));
                  tier_conds := tier_conds (normalizeVisualTier (tier_of_spec s));
                  input_unit_cost := input_unit_cost (normalizeVisualTier (tier_of_spec s));
                  output_unit_cost := output_unit_cost (normalizeVisualTier (tier_of_spec s));
                  cache_mode := cache_mode (normalizeVisualTier (tier_of_spec s));
                  extra_costs := extra_costs (normalizeVisualTier (tier_of_spec s)) |}; [done|].
  rewrite E. done.
Qed.

(** A match of a specification's text, whatever the label's group, gives its tier. *)
Lemma normalize_of_match s n cs :
  wf_spec s = true →
  cap cs n = ts_label s → cap cs (n + 1) = string_of_num (ts_in s) → cap cs (n + 2) = string_of_num (ts_out s) →
  extra_costs (tier_of_match (map input_of_cond (ts_conds s)) n cs) = blocks (fields_of (ts_extra s)) →
  normalizeVisualTier (tier_of_match (map input_of_cond (ts_conds s)) n cs) = tier_of_spec s.
Proof.
  intros (_ & _ & _ & [Hi Ho Hl Hx])%wf_spec_spec Hlab Hin Hout Hex.
  destruct (normal_extra _ (ts_extra s) Hl Hx Hex) as [E1 E2].
  set (t := tier_of_match _ n cs) in *.
  assert (Hmode : getTierCacheMode (Some t)
    = if nlt (num_of_Z 0) (default S754_nan (ts_extra s !! 2)) then CACHE_MODE_TIMED else CACHE_MODE_GENERIC).
  { unfold getTierCacheMode. cbn [mbind option_bind]. change (cache_mode t) with (@None str).
    rewrite !bool_decide_eq_false_2 by done. rewrite E2.
    destruct (lookup_lt_is_Some_2 (ts_extra s) 2) as [x Ex]; [lia|]. rewrite Ex.
    change (from_option id S754_nan (Some x)) with x.
    assert (price_num x = true) as Hpx by (rewrite Forall_lookup in Hx; by eapply Hx).
    unfold opt_cap. cbn [fst snd]. destruct (is_zero x) eqn:Ez.
    - unfold price_num in Hpx. apply andb_true_iff in Hpx as [_ Hpx]. by destruct x as [[]| | |[] ? ?].
    - destruct (price_num_text x Hpx) as (Hr & _).
      cbn [fmap option_fmap option_map opt_number to_number from_option id]. by rewrite Hr. }
  transitivity {| label := label (normalizeVisualTier t);
                  tier_conds := tier_conds (normalizeVisualTier t);
                  input_unit_cost := input_unit_cost (normalizeVisualTier t);
                  output_unit_cost := output_unit_cost (normalizeVisualTier t);
                  cache_mode := cache_mode (normalizeVisualTier t);
                  extra_costs := extra_costs (normalizeVisualTier t) |}; [done|].
  rewrite E1. unfold tier_of_spec.
  change (label (normalizeVisualTier t)) with (Some (cap cs n)). rewrite Hlab.
  change (input_unit_cost (normalizeVisualTier t)) with (Some (JNum (number_of_string (cap cs (n + 1))))).
  change (output_unit_cost (normalizeVisualTier t)) with (Some (JNum (number_of_string (cap cs (n + 2))))).
  change (cache_mode (normalizeVisualTier t)) with (Some (getTierCacheMode (Some t))).
  rewrite Hin, Hout, Hmode.
  destruct (price_num_text _ Hi) as (-> & _). destruct (price_num_text _ Ho) as (-> & _). done.
Qed.

Lemma blocks_of_caps (l : list CacheVar) k cs os :
  drop k cs = os → length os = length l →
  flat_map (λ x, x)
    (imap (λ i cv, match default None (cs !! (k + i)) with
                   | Some val => [(cv_field cv, JNum (number_of_string val))]
                   | None => []
                   end) l) = blocks (zip (map cv_field l) os).
Proof.
  revert k os. induction l as [|cv l IH]; intros k os Hd Hl; [done|].
  destruct os as [|o os]; [done|]. rewrite imap_cons. cbn [flat_map map zip zip_with].
  unfold blocks. cbn [flat_map fst snd]. fold (blocks (zip (map cv_field l) os)).
  assert (cs !! (k + 0) = Some o) as ->
    by (rewrite <- lookup_drop, Hd; done).
  change (default None (Some o)) with o. f_equal.
  rewrite <- (IH (S k) os).
  - f_equal. apply imap_ext. intros i x _. simpl. by replace (k + S i) with (S (k + i)) by lia.
  - replace (S k) with (k + 1) by lia. by rewrite <- drop_drop, Hd.
  - by simplify_eq/=.
Qed.

Lemma tier_match_extra conds n cs xs :
  length xs = 7 → drop (n + 3) cs = map opt_cap (zip EXTRA_VARS xs) →
  extra_costs (tier_of_match conds n cs) = blocks (fields_of xs).
Proof.
  intros Hl Hd. unfold tier_of_match. cbn [extra_costs]. apply blocks_of_caps; [done|].
  rewrite length_map, length_zip_with, Hl. done.
Qed.

Lemma tier_of_seg s :
  wf_spec s = true →
  normalizeVisualTier (tier_of_match (parse_input_conditions (cap (seg_caps s) 1)) 2 (seg_caps s)) = tier_of_spec s.
Proof.
  intros Hwf. pose proof Hwf as (_ & _ & Hc & [_ _ Hl _])%wf_spec_spec.
  change (cap (seg_caps s) 1) with (default [] (cond_cap (ts_conds s))). rewrite parse_guard by done.
  apply normalize_of_match; [done..|]. by apply tier_match_extra.
Qed.

(** ** The single-tier pattern *)

Lemma match_single s :
  wf_spec s = true → ts_conds s = [] →
  match_re 10 singleRe (seg_text s) = Some (Some (seg_text s) :: Some (ts_label s) :: body_caps (ts_in s) (ts_out s) (ts_extra s)).
Proof.
  intros (Hne & Hl & _ & Hn)%wf_spec_spec Hc.
  change singleRe with (RSeq RBol (rseq (tier_re 1 [REol]))).
  rewrite (match_re_some _ _ _ ([None] ++ Some (ts_label s) :: body_caps (ts_in s) (ts_out s) (ts_extra s))); [done|].
  intros k. destruct (m_tier 1 [REol] k [] (ts_label s) (ts_in s) (ts_out s) (ts_extra s) [] [None]) as [b H]; [done..|].
  exists b. intros y Hk. unfold seg_text. rewrite Hc. cbn [guard_text app].
  specialize (H y Hk). by rewrite app_nil_r in H.
Qed.

(** Number of double quotes. *)
Definition nq (s : str) : nat := length (List.filter (N.eqb 34) s).

Lemma nq_app a b : nq (a ++ b) = nq a + nq b.
Proof. unfold nq. by rewrite bfilter_app, length_app. Qed.

Definition unquoted (c : N) : Prop := (34 =? c)%N = false.

Lemma nq_unquoted s : Forall unquoted s → nq s = 0.
Proof. unfold nq. induction 1 as [|c s Hc _ IH]; [done|]. cbn [List.filter]. by rewrite Hc. Qed.

Lemma over_spaces : over unquoted r_spaces.
Proof. intros c Hc. apply N.eqb_neq. intros <-. done. Qed.

Lemma over_num n : over unquoted (RGroup n r_num).
Proof. cbn [over r_num rplus rstar]. split; intros c Hc; apply N.eqb_neq; intros <-; done. Qed.

Lemma bodyPat_over n : Forall (over unquoted) (bodyPat n).
Proof.
  unfold bodyPat. apply Forall_app. split.
  - repeat (apply Forall_cons_2;
      [first [apply over_spaces|apply over_num|apply over_lit; by repeat apply Forall_cons_2]|]). apply Forall_nil_2.
  - apply Forall_lookup. intros i r Hr. rewrite list_lookup_imap in Hr.
    destruct (BILLING_CACHE_VAR_MAP !! i) as [cv|] eqn:E; [|done].
    injection Hr as <-.
    assert (Forall unquoted (exprVar cv)) as Hv.
    { apply list_elem_of_lookup_2 in E. revert cv E. apply Forall_forall. vm_compute.
      repeat (apply Forall_cons_2; [by repeat apply Forall_cons_2|]). apply Forall_nil_2. }
    unfold opt_cost. cbn [over rseq].
    split_and!; first [apply over_spaces|apply (over_num 0)|by apply over_lit|apply over_lit; by repeat apply Forall_cons_2].
Qed.

Lemma single_re_quotes text : match_re 10 singleRe text ≠ None → nq text = 2.
Proof.
  unfold singleRe. rewrite match_re_bol. unfold match_at. rewrite m_group.
  set (k := λ y, Some _). set (r := rseq _).
  change (m r k) with (m (rlit (js "tier(" ++ dq)) (m (RGroup 1 (rstar (RChar not_quote)))
    (m (rlit (dq ++ js ",")) (m (rseq ((r_spaces :: bodyPat 2 ++ [rlit (js ")")]) ++ [REol])) k)))).
  destruct (m _ _ _) as [y|] eqn:E; [intros _|done].
  destruct (starts_with (js "tier(" ++ dq) text) eqn:E1; [|by rewrite m_lit_fail in E].
  apply starts_with_spec in E1 as [t1 ->]. rewrite m_lit in E.
  apply (m_over unquoted) in E as (w & [b a cs] & Ha & Hw & E).
  2: { cbn [over rstar]. intros c Hc. apply N.eqb_neq. intros <-. done. }
  cbn [after] in Ha. subst t1.
  destruct (starts_with (dq ++ js ",") a) eqn:E2; [|by rewrite m_lit_fail in E].
  apply starts_with_spec in E2 as [t2 ->]. rewrite m_lit in E.
  apply (m_rseq_eol unquoted) in E; [|].
  - cbn [after] in E. rewrite !nq_app, (nq_unquoted w), (nq_unquoted t2) by done. done.
  - apply Forall_cons_2; [apply over_spaces|]. apply Forall_app. split; [apply bodyPat_over|].
    apply Forall_cons_2; [|apply Forall_nil_2]. apply over_lit. by repeat apply Forall_cons_2.
Qed.
