(* ===== verification/TierRoundTrip.v ===== *)
(** * Properties of the visual tier editor

    The round trip of a visual configuration through its expression, and what
    [normalizeVisualTier] does and does not normalise ([tier-expr.ts]). *)

From S2P Require Import Prelude JsString JsNumber JsNumberFacts Json Regex BillingExpr BillingText TierExpr TierFacts.

Lemma seg_head s :
  wf_spec s = true → ∃ c u, seg_text s = c :: u ∧ c ≠ 118%N ∧ (ts_conds s ≠ [] → c ≠ 116%N).
Proof.
  intros (_ & _ & Hc & _)%wf_spec_spec. unfold seg_text. destruct (ts_conds s) as [|c cds] eqn:E.
  - by eexists _, _.
  - cbn [forallb] in Hc. apply andb_true_iff in Hc as [(Hv & _)%wf_cond_spec _].
    cbn [guard_text]. rewrite conds_text_cons. unfold cond_text.
    rewrite !elem_of_cons, elem_of_nil in Hv. destruct Hv as [->|[->|[->|[]]]]; by eexists _, _.
Qed.

Lemma not_versioned c u : c ≠ 118%N → match_re 1 VISUAL_VERSION_RE (c :: u) = None.
Proof.
  intros Hc. unfold VISUAL_VERSION_RE. apply match_re_none. intros k. cbn [rseq]. rewrite !m_seq.
  apply m_lit_head_fail. exact (not_eq_sym Hc).
Qed.

Lemma single_re_head c u : c ≠ 116%N → match_re 10 singleRe (c :: u) = None.
Proof.
  intros Hc. unfold singleRe. apply match_re_none. intros k. rewrite m_rseq_app. cbn [rseq]. rewrite !m_seq.
  apply m_lit_head_fail. exact (not_eq_sym Hc).
Qed.

Lemma seg_quotes s : 2 ≤ nq (seg_text s).
Proof. unfold seg_text, tier_text. rewrite !nq_app. change (nq dq) with 1. lia. Qed.

Lemma segs_not_single s s' specs : match_re 10 singleRe (segs_text (s :: s' :: specs)) = None.
Proof.
  destruct (match_re 10 singleRe _) eqn:E; [exfalso|done].
  assert (nq (segs_text (s :: s' :: specs)) = 2) as Hq by (apply single_re_quotes; by rewrite E).
  rewrite segs_text_cons in Hq. cbn [map concat] in Hq. unfold next_text at 1 in Hq. rewrite !nq_app in Hq.
  pose proof (seg_quotes s). pose proof (seg_quotes s'). lia.
Qed.

(** The scan of a text with tiers gives the configuration. *)
Lemma scan_gives specs tail :
  (∀ bef, exec_from 11 multiTierRe bef tail = None) → specs ≠ [] → forallb wf_spec specs = true →
  map (λ cs, normalizeVisualTier (tier_of_match (parse_input_conditions (cap cs 1)) 2 cs))
    (match_all 11 multiTierRe (segs_text specs ++ tail)) = map tier_of_spec specs.
Proof.
  intros Ht Hne Hwf. destruct specs as [|s specs]; [done|]. rewrite match_all_segs by done.
  rewrite map_map. apply map_ext_in. intros x Hx. apply tier_of_seg.
  rewrite forallb_forall in Hwf. by apply Hwf.
Qed.

Lemma normalize_specs specs :
  specs ≠ [] → forallb wf_spec specs = true →
  normalizeVisualConfig (Some (map tier_of_spec specs)) = map tier_of_spec specs.
Proof.
  intros Hne Hwf. destruct specs as [|s specs]; [done|]. unfold normalizeVisualConfig. cbn [map].
  cbn [forallb] in Hwf. apply andb_true_iff in Hwf as [Hs Hwf]. rewrite normalize_of_spec by done. f_equal.
  rewrite map_map. apply map_ext_in. intros x Hx. apply normalize_of_spec.
  rewrite forallb_forall in Hwf. by apply Hwf.
Qed.

(** The general path of the parser: the text is a scanned configuration's own text. *)
Lemma parse_by_scan specs tail text :
  text = segs_text specs ++ tail → (∀ bef, exec_from 11 multiTierRe bef tail = None) →
  specs ≠ [] → forallb wf_spec specs = true →
  match_re 10 singleRe text = None →
  generateExprFromVisualConfig (Some (map tier_of_spec specs)) = text →
  tryParseVisualConfig (Some text) = Some (map tier_of_spec specs).
Proof.
  intros Htext Htail Hne Hwf Hsingle Hgen. unfold tryParseVisualConfig.
  assert (∃ c u, text = c :: u ∧ c ≠ 118%N) as (c & u & Ec & Hc).
  { destruct specs as [|s specs]; [done|]. cbn [forallb] in Hwf. apply andb_true_iff in Hwf as [Hs _].
    destruct (seg_head s Hs) as (c & u & E & Hc & _). rewrite segs_text_cons, E in Htext.
    eexists c, _. split; [rewrite Htext; reflexivity|done]. }
  rewrite Ec in *. rewrite not_versioned, Hsingle by done. cbv zeta.
  pose proof (scan_gives specs tail Htail Hne Hwf) as Hscan. rewrite <- Htext in Hscan. rewrite Hscan.
  rewrite bool_decide_eq_false_2 by (by destruct specs).
  rewrite normalize_specs by done. rewrite bool_decide_eq_true_2; [done|]. f_equal. exact Hgen.
Qed.

(** What follows the tiers: a guarded tier alone falls back to a price of zero. *)
Definition tail_text (specs : list TierSpec) : str :=
  match specs with [s] => if bool_decide (ts_conds s = []) then [] else js " : " ++ ZERO_EXPR | _ => [] end.

Lemma generated_text specs : specs ≠ [] → forallb wf_spec specs = true → length specs = 1 ∨ last_unguarded specs = true →
  generateExprFromVisualConfig (Some (map tier_of_spec specs)) = segs_text specs ++ tail_text specs.
Proof.
  intros Hne Hwf Hlast. destruct specs as [|s [|s' specs]]; [done| |].
  - cbn [forallb] in Hwf. rewrite andb_true_r in Hwf. destruct (guard_of_spec s Hwf) as [Hg Hnil].
    cbn [map generateExprFromVisualConfig tail_text]. change (segs_text [s]) with (seg_text s). rewrite label_of_spec, call_of_spec by done.
    unfold seg_text. rewrite <- Hg. destruct (truthy _) eqn:Et.
    + rewrite bool_decide_eq_false_2 by (intros E; by apply Hnil in E). by rewrite <- !app_assoc.
    + rewrite bool_decide_eq_true_2 by tauto. by rewrite app_nil_r.
  - destruct Hlast as [?|Hlast]; [done|]. cbn [map generateExprFromVisualConfig tail_text].
    change (tier_of_spec s :: tier_of_spec s' :: map tier_of_spec specs) with (map tier_of_spec (s :: s' :: specs)).
    by rewrite multi_parts_of_specs, app_nil_r.
Qed.

(** The text generated from a configuration reads back as the configuration. *)
Lemma config_read_back (specs : list TierSpec)
  (Hne : specs ≠ []) (Hwf : forallb wf_spec specs = true)
  (Hlast : length specs = 1 ∨ last_unguarded specs = true) :
  tryParseVisualConfig (Some (generateExprFromVisualConfig (Some (map tier_of_spec specs))))
  = Some (map tier_of_spec specs).
Proof.
  pose proof (generated_text specs Hne Hwf Hlast) as Hgen. rewrite Hgen. destruct specs as [|s [|s' specs]]; [done| |].
  - cbn [forallb] in Hwf. rewrite andb_true_r in Hwf. destruct (seg_head s Hwf) as (c & u & Eh & Hc & Hg').
    cbn [map tail_text] in *. change (segs_text [s]) with (seg_text s) in *.
    destruct (bool_decide (ts_conds s = [])) eqn:Ec.
    + rewrite app_nil_r in *. apply bool_decide_eq_true in Ec. pose proof (match_single s Hwf Ec) as Hm.
      set (cs := Some (seg_text s) :: Some (ts_label s) :: body_caps (ts_in s) (ts_out s) (ts_extra s)) in *.
      assert (Ht : normalizeVisualTier (tier_of_match [] 1 cs) = tier_of_spec s).
      { pose proof (normalize_of_match s 1 cs Hwf) as H. rewrite Ec in H. apply H; [done..|].
        apply wf_spec_spec in Hwf as (_ & _ & _ & [_ _ Hl _]). by apply tier_match_extra. }
      unfold tryParseVisualConfig. rewrite Eh. rewrite not_versioned, <- Eh, Hm, Ht by done.
      f_equal. apply (normalize_specs [s]); [done|]. simpl. by rewrite Hwf.
    + apply bool_decide_eq_false in Ec.
      apply (parse_by_scan [s] (js " : " ++ ZERO_EXPR)); [done|apply tail_none_zero|done|simpl; by rewrite Hwf| |exact Hgen].
      rewrite Eh. apply single_re_head. auto.
  - set (l := s :: s' :: specs) in *. cbn [tail_text] in Hgen |- *. rewrite app_nil_r in *.
    apply (parse_by_scan l []); [by rewrite app_nil_r|apply tail_none_nil|done|done| |exact Hgen]. apply segs_not_single.
Qed.

(** C2: What the visual editor saves it can open again.  For every non-empty list of
    tier specifications with non-empty labels without quotes, finite costs, and
    conditions on [p], [c] or [len] with a known operator and an unsigned finite
    bound, where either there is one tier or the last tier has no condition, the
    expression [generateExprFromVisualConfig] writes is parsed by
    [tryParseVisualConfig] into exactly the same configuration: labels, conditions, all nine
    unit costs bit for bit, and the cache mode. *)
Theorem visual_config_round_trip (specs : list TierSpec)
  (Hne : specs ≠ []) (Hwf : forallb wf_spec specs = true)
  (Hlast : length specs = 1 ∨ last_unguarded specs = true) :
  tryParseVisualConfig (Some (generateExprFromVisualConfig (Some (map tier_of_spec specs))))
  = Some (map tier_of_spec specs).
Proof. by apply config_read_back. Qed.

Definition sample_specs : list TierSpec :=
  [ {| ts_label := js "standard";
       ts_conds := [{| cd_var := js "len"; cd_op := js "<="; cd_value := num_of_Z 200000 |}];
       ts_in := number_of_string (js "1.25"); ts_out := num_of_Z 10;
       ts_extra := [number_of_string (js "0.31"); num_of_Z 0; number_of_string (js "4.5"); num_of_Z 0; num_of_Z 0;
                    num_of_Z 0; num_of_Z 0] |};
    {| ts_label := js "long context"; ts_conds := [];
       ts_in := number_of_string (js "2.5"); ts_out := num_of_Z 15; ts_extra := repeat (num_of_Z 0) 7 |} ].

Lemma visual_config_round_trip_witness :
  tryParseVisualConfig (Some (generateExprFromVisualConfig (Some (map tier_of_spec sample_specs))))
  = Some (map tier_of_spec sample_specs).
Proof.
  apply (visual_config_round_trip sample_specs); [discriminate|vm_compute; reflexivity|].
  right. vm_compute. reflexivity.
Defined.

(** ** Normalisation *)

Lemma or_zero_idemp x : or_zero (or_zero x) = or_zero x.
Proof. unfold or_zero. destruct (num_truthy x) eqn:E; [by rewrite E|done]. Qed.

Lemma or_zero_not_nan x : is_nan (or_zero x) = false.
Proof. unfold or_zero. by destruct x. Qed.

Lemma find_map_pair {A} (g : str → A) f fds :
  f ∈ fds → NoDup fds →
  snd <$> find (λ kv, bool_decide (fst kv = f)) (map (λ f, (f, g f)) fds) = Some (g f).
Proof.
  intros Hin Hnd. induction Hnd as [|a fds Ha Hnd IH]; [by apply elem_of_nil in Hin|]. cbn [map find fst].
  destruct (decide (a = f)) as [->|Hne].
  - by rewrite bool_decide_eq_true_2.
  - rewrite bool_decide_eq_false_2 by done. apply IH. set_solver.
Qed.

Lemma normal_extra_cost t f :
  f ∈ NORMAL_FIELDS →
  extra_cost (normalizeVisualTier t) f = Some (JNum (or_zero (opt_number (extra_cost t f)))).
Proof.
  intros Hf. unfold extra_cost at 1.
  change (extra_costs (normalizeVisualTier t)) with
    (map (λ f, (f, JNum (or_zero (opt_number (extra_cost t f))))) NORMAL_FIELDS).
  apply (find_map_pair (λ f, JNum (or_zero (opt_number (extra_cost t f))))); [done|apply normal_fields_NoDup].
Qed.

Lemma normalizeVisualTier_idemp t : normalizeVisualTier (normalizeVisualTier t) = normalizeVisualTier t.
Proof.
  assert (E : extra_costs (normalizeVisualTier (normalizeVisualTier t)) = extra_costs (normalizeVisualTier t)).
  { change (map (λ f, (f, JNum (or_zero (opt_number (extra_cost (normalizeVisualTier t) f))))) NORMAL_FIELDS
      = map (λ f, (f, JNum (or_zero (opt_number (extra_cost t f))))) NORMAL_FIELDS).
    apply map_ext_in. intros f Hf. rewrite normal_extra_cost by (by apply list_elem_of_In).
    cbn [opt_number to_number]. by rewrite or_zero_idemp. }
  transitivity {| label := label (normalizeVisualTier t);
                  tier_conds := tier_conds (normalizeVisualTier t);
                  input_unit_cost := input_unit_cost (normalizeVisualTier t);
                  output_unit_cost := output_unit_cost (normalizeVisualTier t);
                  cache_mode := cache_mode (normalizeVisualTier t);
                  extra_costs := extra_costs (normalizeVisualTier (normalizeVisualTier t)) |}; [done|].
  rewrite E. done.
Qed.

(** Normalising a configuration gives at least one tier, every tier has all its
    fields, every cache, image and audio cost is a number other than NaN, and
    normalising again changes nothing. *)
Theorem normalize_visual_config_sound (config : option VisualConfig) :
  let cfg := normalizeVisualConfig config in
  cfg ≠ [] ∧
  Forall (λ t, is_Some (label t) ∧ is_Some (tier_conds t) ∧ is_Some (input_unit_cost t)
               ∧ is_Some (output_unit_cost t) ∧ is_Some (cache_mode t)
               ∧ ∀ f, f ∈ EXTRA_FIELDS → ∃ x, extra_cost t f = Some (JNum x) ∧ is_nan x = false) cfg ∧
  normalizeVisualConfig (Some cfg) = cfg.
Proof.
  cbv zeta.
  assert (H : ∀ t, let t' := normalizeVisualTier t in
    is_Some (label t') ∧ is_Some (tier_conds t') ∧ is_Some (input_unit_cost t')
    ∧ is_Some (output_unit_cost t') ∧ is_Some (cache_mode t')
    ∧ ∀ f, f ∈ EXTRA_FIELDS → ∃ x, extra_cost t' f = Some (JNum x) ∧ is_nan x = false).
  { intros t. cbv zeta. split_and!; [by eexists..|]. intros f Hf. rewrite extra_fields_eq in Hf.
    eexists. split; [by apply normal_extra_cost|apply or_zero_not_nan]. }
  destruct config as [[|t tiers]|]; unfold normalizeVisualConfig, createDefaultVisualConfig.
  1, 3: split_and!; [done|by constructor; [apply H|]|cbn [map]; by rewrite normalizeVisualTier_idemp].
  split_and!; [done| |].
  - apply Forall_forall. intros x Hx. apply elem_of_lmap in Hx as (t' & -> & _). apply H.
  - cbn [map]. rewrite normalizeVisualTier_idemp. f_equal. rewrite map_map. apply map_ext.
    intros x. apply normalizeVisualTier_idemp.
Qed.

Definition dangling_tier : str := js "tier(" ++ dq ++ js "x" ++ dq ++ js ", p * - + c * 5)".

(** The input and output costs are the exception: a cost that is present is kept as it
    is, because the spread of the tier follows the coerced fields.  So a price
    whose coefficient is not a number is not rejected and not replaced by zero:
    the parser returns a configuration with a NaN input cost. *)
Theorem present_costs_not_coerced :
  (∀ t v, input_unit_cost t = Some v → input_unit_cost (normalizeVisualTier t) = Some v) ∧
  (cfg ← tryParseVisualConfig (Some dangling_tier); t ← head cfg; input_unit_cost t) = Some (JNum S754_nan).
Proof.
  split.
  - intros t v H. unfold normalizeVisualTier, spread. cbn [input_unit_cost]. by rewrite H.
  - vm_compute. reflexivity.
Qed.
