(* ===== verification/Messages.v ===== *)
(** * Playground messages ([web/default/src/features/playground/lib/message-utils.ts],
      [attachment-text.ts])

    Messages and their versions, the split of streamed text into visible content
    and reasoning at [<think>] tags, the update of the last assistant message while
    a reply streams in, its finalisation, and the repair of messages loaded from
    storage.  Fresh identifiers ([nanoid]) and the locale's rendering of a number
    ([toLocaleString]) are arguments. *)

From S2P Require Import Prelude JsString JsNumber Json.

(** ** Data *)

Inductive MessageRole := User | Assistant | System.
Inductive MessageStatus := Loading | Streaming | Complete | Error_.

#[export] Instance MessageRole_eq_dec : EqDecision MessageRole.
Proof. solve_decision. Defined.
#[export] Instance MessageStatus_eq_dec : EqDecision MessageStatus.
Proof. solve_decision. Defined.

Record MessageVersion := { version_id : str; content : str }.

Inductive AttachmentKind := Image | File.
Inductive ExtractionStatus := Ready | Unsupported | Failed.

Record PlaygroundAttachment := {
  att_name : str; att_type : str; att_data : str; kind : AttachmentKind;
  extractedText : option str; extractionStatus : option ExtractionStatus; extractionError : option str }.

Record Reasoning := { reasoning_content : str; duration : num }.

Record Message := {
  key : str;
  from : MessageRole;
  versions : list MessageVersion;
  attachments : option (list PlaygroundAttachment);
  sources : option (list (str * str));
  reasoning : option Reasoning;
  isReasoningStreaming : option bool;
  isReasoningComplete : option bool;
  isContentComplete : option bool;
  status : option MessageStatus;
  errorCode : option (option str) }.

(** Object spreads that change some fields. *)
Definition with_versions (m : Message) (v : list MessageVersion) : Message :=
  {| key := key m; from := from m; versions := v; attachments := attachments m; sources := sources m; reasoning := reasoning m;
     isReasoningStreaming := isReasoningStreaming m; isReasoningComplete := isReasoningComplete m;
     isContentComplete := isContentComplete m; status := status m; errorCode := errorCode m |}.

Definition with_reasoning (m : Message) (r : option Reasoning) (streaming : bool) : Message :=
  {| key := key m; from := from m; versions := versions m; attachments := attachments m; sources := sources m; reasoning := r;
     isReasoningStreaming := Some streaming; isReasoningComplete := isReasoningComplete m;
     isContentComplete := isContentComplete m; status := status m; errorCode := errorCode m |}.

Definition with_status (m : Message) (s : MessageStatus) : Message :=
  {| key := key m; from := from m; versions := versions m; attachments := attachments m; sources := sources m;
     reasoning := reasoning m; isReasoningStreaming := Some false; isReasoningComplete := isReasoningComplete m;
     isContentComplete := isContentComplete m; status := Some s; errorCode := errorCode m |}.

Definition with_error_code (m : Message) (e : option str) : Message :=
  {| key := key m; from := from m; versions := versions m; attachments := attachments m; sources := sources m;
     reasoning := reasoning m; isReasoningStreaming := isReasoningStreaming m;
     isReasoningComplete := isReasoningComplete m; isContentComplete := isContentComplete m;
     status := status m; errorCode := Some e |}.

(** ** Versions and constructors *)

Definition createMessageVersion (id text : str) : MessageVersion := {| version_id := id; content := text |}.

Definition getCurrentVersion (m : Message) : MessageVersion :=
  match versions m with v :: _ => v | [] => {| version_id := js "default"; content := [] |} end.

Definition updateCurrentVersionContent (m : Message) (text : str) : Message :=
  with_versions m [{| version_id := version_id (getCurrentVersion m); content := text |}].

Definition createUserMessage (key_id version_id text : str) : Message :=
  {| key := key_id; from := User; versions := [createMessageVersion version_id text]; attachments := None; sources := None;
     reasoning := None; isReasoningStreaming := None; isReasoningComplete := None; isContentComplete := None;
     status := None; errorCode := None |}.

Definition createUserMessageWithAttachments (key_id version_id text : str)
  (atts : list PlaygroundAttachment) : Message :=
  let m := createUserMessage key_id version_id text in
  match atts with
  | [] => m
  | _ => {| key := key m; from := from m; versions := versions m; attachments := Some atts; sources := sources m;
            reasoning := reasoning m; isReasoningStreaming := isReasoningStreaming m;
            isReasoningComplete := isReasoningComplete m; isContentComplete := isContentComplete m;
            status := status m; errorCode := errorCode m |}
  end.

Definition createLoadingAssistantMessage (key_id version_id : str) : Message :=
  {| key := key_id; from := Assistant; versions := [createMessageVersion version_id []]; attachments := None; sources := None;
     reasoning := None; isReasoningStreaming := Some false; isReasoningComplete := Some false;
     isContentComplete := Some false; status := Some Loading; errorCode := None |}.

(** ** Request content *)

Inductive ContentPart :=
  | TextPart (text : option str)
  | ImagePart (url : str)
  | FilePart (filename file_data mime_type : option str).

(** [string | ContentPart[]] *)
Inductive MessageContent := PlainText (text : str) | Parts (parts : list ContentPart).

Definition buildMessageContent (text : str) (imageUrls : list str) : MessageContent :=
  let validImages := List.filter (λ url, negb (bool_decide (trim url = []))) imageUrls in
  match validImages with
  | [] => PlainText text
  | _ => Parts (TextPart (Some text) :: map (λ url, ImagePart (trim url)) validImages)
  end.

Definition getTextContent (c : MessageContent) : str :=
  match c with
  | PlainText t => t
  | Parts ps =>
      match find (λ p, match p with TextPart _ => true | _ => false end) ps with
      | Some (TextPart t) => default [] t
      | _ => []
      end
  end.

Definition MAX_ATTACHMENT_TEXT_BLOCK_CHARS : N := 80000.

Definition newline : str := [10%N].

Definition attachment_type (item : PlaygroundAttachment) : str :=
  if truthy (att_type item) then att_type item else js "application/octet-stream".

Definition failure_reason (item : PlaygroundAttachment) : str :=
  match extractionStatus item with
  | Some Unsupported =>
      js "暂不支持直接解析该类型，请用户改传 PDF、Word、Excel、CSV、TXT、Markdown、JSON 或代码文本。"
  | Some Failed =>
      js "解析失败：" ++ match extractionError item with
                        | Some e => if truthy e then e else js "未知错误"
                        | None => js "未知错误"
                        end
  | _ => js "未提取到可读文本。"
  end.

Definition attachment_block (index : nat) (item : PlaygroundAttachment) : str :=
  let head := [js "附件 " ++ N_dec (N.of_nat (S index)) ++ js ": " ++ att_name item;
               js "类型: " ++ attachment_type item] in
  match extractedText item with
  | Some t => if truthy (trim t) then join newline (head ++ [js "内容:"; trim t])
              else join newline (head ++ [failure_reason item])
  | None => join newline (head ++ [failure_reason item])
  end.

Definition is_file (item : PlaygroundAttachment) : bool := match kind item with File => true | Image => false end.
Definition is_image (item : PlaygroundAttachment) : bool := negb (is_file item).

Definition buildAttachmentTextBlock (toLocaleString : N → str) (atts : list PlaygroundAttachment) : str :=
  let blocks := imap attachment_block (List.filter is_file atts) in
  match blocks with
  | [] => []
  | _ =>
      let content := join (newline ++ newline ++ js "---" ++ newline ++ newline) blocks in
      let limitedContent :=
        if (N.of_nat (length content) <=? MAX_ATTACHMENT_TEXT_BLOCK_CHARS)%N then content
        else take (N.to_nat MAX_ATTACHMENT_TEXT_BLOCK_CHARS) content ++ newline ++ newline
             ++ js "...附件合并内容过长，已截断前 " ++ toLocaleString MAX_ATTACHMENT_TEXT_BLOCK_CHARS ++ js " 字符。" in
      join newline
        [[]; js "---";
         js "以下是用户上传的文档附件内容，请在回答时结合这些内容；如果附件内容不足或解析失败，请明确说明。";
         limitedContent]
  end.

Record ChatCompletionMessage := { role : MessageRole; chat_content : MessageContent }.

Definition formatMessageForAPI (toLocaleString : N → str) (m : Message) : ChatCompletionMessage :=
  let atts := default [] (attachments m) in
  {| role := from m;
     chat_content := buildMessageContent (content (getCurrentVersion m) ++ buildAttachmentTextBlock toLocaleString atts)
                       (map att_data (List.filter is_image atts)) |}.

Definition isValidMessage (m : option Message) : bool :=
  match m with
  | None => false
  | Some m =>
      match versions m with
      | [] => false
      | v :: _ =>
          if bool_decide (status m = Some Error_) then false
          else if bool_decide (from m = Assistant) && negb (truthy (trim (content v))) then false
          else true
      end
  end.

(** ** Reasoning tags *)

Definition OPEN_TAG := js "<think>".
Definition CLOSE_TAG := js "</think>".

(** The [while] loop of [parseThinkTags] on the text from [currentPos] on; each round
    passes an opening and a closing tag. *)
Fixpoint think_loop (fuel : nat) (rest : str) : list str * list str * bool :=
  match fuel with
  | O => ([], [], false)
  | S f =>
      match index_of OPEN_TAG rest with
      | None => (if truthy rest then [rest] else [], [], false)
      | Some openPos =>
          let before := if 0 <? openPos then [take openPos rest] else [] in
          let body := drop (openPos + 7) rest in
          match index_of CLOSE_TAG body with
          | None => (before, [body], true)
          | Some closePos =>
              let '(vis, reas, unclosed) := think_loop f (drop (closePos + 8) body) in
              (before ++ vis, take closePos body :: reas, unclosed)
          end
      end
  end.

Record ThinkResult := { visibleContent : str; tag_reasoning : str; hasUnclosedTag : bool }.

Definition parseThinkTags (text : str) : ThinkResult :=
  if negb (includes OPEN_TAG text) then {| visibleContent := text; tag_reasoning := []; hasUnclosedTag := false |}
  else
    let '(vis, reas, unclosed) := think_loop (S (length text)) text in
    {| visibleContent := trim (join [] vis);
       tag_reasoning := trim (join (newline ++ newline) reas);
       hasUnclosedTag := unclosed |}.

(** ** Updating messages *)

Definition API_REQUEST_ERROR := js "Request error occurred".
Definition INTERRUPTED := js "Generation was interrupted".

Definition updateLastAssistantMessage (messages : list Message) (updater : Message → Message) : list Message :=
  match last messages with
  | None => messages
  | Some m => if bool_decide (from m = Assistant)
              then <[length messages - 1 := updater m]> messages else messages
  end.

Definition updateAssistantMessageWithError (messages : list Message) (errorMessage : str)
  (code : option str) : list Message :=
  updateLastAssistantMessage messages (λ m,
    with_error_code
      (with_status (updateCurrentVersionContent m (API_REQUEST_ERROR ++ js ": " ++ errorMessage)) Error_)
      (match code with Some c => if truthy c then Some c else None | None => None end)).

Definition zero_duration : num := num_of_Z 0.

Definition processStreamingContent (m : Message) (contentChunk : option str) : Message :=
  let current := content (getCurrentVersion m) in
  let fullContent := match contentChunk with
                     | Some c => if truthy c then current ++ c else current
                     | None => current
                     end in
  let parsed := parseThinkTags fullContent in
  let finalReasoning := if truthy (tag_reasoning parsed)
                        then Some {| reasoning_content := tag_reasoning parsed; duration := zero_duration |}
                        else reasoning m in
  with_reasoning (updateCurrentVersionContent m fullContent) finalReasoning (hasUnclosedTag parsed).

(** [a || b] on strings that may be missing *)
Definition first_truthy (l : list (option str)) : str :=
  match find (λ o, match o with Some s => truthy s | None => false end) l with
  | Some (Some s) => s
  | _ => []
  end.

Definition finalizeMessage (m : Message) (apiReasoningContent : option str) : Message :=
  let parsed := parseThinkTags (content (getCurrentVersion m)) in
  let finalReasoning :=
    first_truthy [apiReasoningContent; reasoning_content <$> reasoning m; Some (tag_reasoning parsed)] in
  with_reasoning (updateCurrentVersionContent m (visibleContent parsed))
    (if truthy finalReasoning
     then Some {| reasoning_content := finalReasoning;
                  duration := or_zero (match reasoning m with Some r => duration r | None => S754_nan end) |}
     else None)
    false.

(** ** Messages loaded from storage *)

Definition stuck (m : Message) : bool :=
  bool_decide (from m = Assistant)
  && (bool_decide (status m = Some Loading) || bool_decide (status m = Some Streaming)).

(** The loop from the end: the index of the last stuck message. *)
Fixpoint last_stuck (messages : list Message) : option nat :=
  match messages with
  | [] => None
  | m :: ms =>
      match last_stuck ms with
      | Some i => Some (S i)
      | None => if stuck m then Some 0 else None
      end
  end.

Definition sanitize_one (m : Message) : Message :=
  let finalized := finalizeMessage m None in
  let hasContent := match versions finalized with v :: _ => truthy (trim (content v)) | [] => false end in
  let hasReasoning := match reasoning finalized with Some r => truthy (trim (reasoning_content r)) | None => false end in
  if hasContent || hasReasoning then with_status finalized Complete
  else with_status (updateCurrentVersionContent finalized (API_REQUEST_ERROR ++ js ": " ++ INTERRUPTED)) Error_.

Definition sanitizeMessagesOnLoad (messages : list Message) : list Message :=
  match last_stuck messages with
  | None => messages
  | Some i =>
      match messages !! i with
      | Some m => <[i := sanitize_one m]> messages
      | None => messages
      end
  end.

(** ** Facts: the text between tags *)

Lemma index_of_split p s n :
  p ≠ [] → index_of p s = Some n →
  s = take n s ++ p ++ drop (n + length p) s ∧ includes p (take n s) = false.
Proof.
  intros Hp [(u & t & E & Hn) Hmin]%index_of_Some. subst n.
  assert (Ht : take (length u) s = u) by (rewrite E; apply take_app_length).
  assert (Hd : drop (length u + length p) s = t)
    by (rewrite E, app_assoc, <- length_app; apply drop_app_length).
  rewrite Ht, Hd. split; [done|]. destruct (includes p u) eqn:Ei; [|done].
  apply includes_spec in Ei as (a & b & Eu). specialize (Hmin a (b ++ p ++ t)).
  rewrite E, Eu, <- !app_assoc in Hmin. specialize (Hmin eq_refl).
  rewrite !length_app in Hmin. destruct p; [done|]. simpl in Hmin. lia.
Qed.

(** A tagged text: visible pieces and closed reasoning pieces, then a last
    visible piece and possibly an unclosed reasoning piece. *)
Definition tagged (pairs : list (str * str)) (v : str) (open : option str) : str :=
  concat (map (λ vr, fst vr ++ OPEN_TAG ++ snd vr ++ CLOSE_TAG) pairs) ++
  v ++ match open with Some r => OPEN_TAG ++ r | None => [] end.

Definition tagged_ok (pairs : list (str * str)) (v : str) (open : option str) : Prop :=
  Forall (λ vr, includes OPEN_TAG (fst vr) = false ∧ includes CLOSE_TAG (snd vr) = false) pairs
  ∧ includes OPEN_TAG v = false ∧ match open with Some r => includes CLOSE_TAG r = false | None => True end.

Definition reasoning_pieces (pairs : list (str * str)) (open : option str) : list str :=
  map snd pairs ++ match open with Some r => [r] | None => [] end.

Lemma think_loop_spec fuel rest :
  length rest < fuel →
  ∃ pairs v open, rest = tagged pairs v open ∧ tagged_ok pairs v open ∧
    let '(vis, reas, unclosed) := think_loop fuel rest in
    join [] vis = concat (map fst pairs) ++ v ∧ reas = reasoning_pieces pairs open
    ∧ unclosed = match open with Some _ => true | None => false end.
Proof.
  assert (Hj : ∀ l, join [] l = concat l).
  { induction l as [|a [|b l] IH]; [done|simpl; by rewrite app_nil_r|]. rewrite join_cons, IH by done. done. }
  revert rest. induction fuel as [|f IH]; intros rest Hf; [lia|]. cbn [think_loop].
  destruct (index_of OPEN_TAG rest) as [o|] eqn:Eo.
  2: { exists [], rest, None. unfold tagged, tagged_ok. cbn [map concat app]. rewrite app_nil_r.
       apply index_of_None in Eo. split_and!; try done. by destruct rest. }
  apply index_of_split in Eo as [Es Hno]; [|done]. change (o + length OPEN_TAG) with (o + 7) in Es.
  set (body := drop (o + 7) rest) in *. cbv zeta.
  assert (Hb : join [] (if 0 <? o then [take o rest] else []) = take o rest).
  { destruct (Nat.ltb_spec 0 o); [done|]. by replace o with 0 by lia. }
  destruct (index_of CLOSE_TAG body) as [c|] eqn:Ec.
  - apply index_of_split in Ec as [Eb Hnc]; [|done]. change (c + length CLOSE_TAG) with (c + 8) in Eb.
    set (rest' := drop (c + 8) body) in *.
    destruct (IH rest') as (pairs & v & open & E & [Ho1 Ho2] & Hloop).
    { rewrite Es, Eb in Hf. rewrite !length_app in Hf. simpl in Hf. lia. }
    exists ((take o rest, take c body) :: pairs), v, open. split_and!.
    + rewrite Es at 1. rewrite Eb at 1. rewrite E at 1. unfold tagged. cbn [map concat fst snd].
      by rewrite <- !app_assoc.
    + split; [by constructor|done].
    + destruct (think_loop f rest') as [[vis reas] unclosed]. destruct Hloop as (H1 & H2 & H3).
      split_and!; [|by rewrite H2|done]. rewrite Hj, concat_app. rewrite Hj in H1, Hb. rewrite Hb, H1.
      simpl. by rewrite app_assoc.
  - apply index_of_None in Ec. exists [], (take o rest), (Some body).
    split; [exact Es|]. split; [by repeat split|]. split_and!; [by rewrite Hb|done|done].
Qed.

(** [parseThinkTags] loses nothing and finds the tags from left to right: the
    text is a sequence of visible pieces without an opening tag and reasoning pieces
    without a closing tag between tags, possibly ending in an unclosed reasoning
    piece; the visible result is the visible pieces joined, the reasoning the
    reasoning pieces joined by a blank line (both trimmed when there is a tag), and the flag says whether
    the last tag is unclosed. *)
Theorem parse_think_tags_decomposes (text : str) :
  ∃ pairs v open,
    text = tagged pairs v open ∧ tagged_ok pairs v open ∧
    (pairs = [] ∧ open = None → visibleContent (parseThinkTags text) = text) ∧
    (¬ (pairs = [] ∧ open = None) →
       visibleContent (parseThinkTags text) = trim (concat (map fst pairs) ++ v)) ∧
    tag_reasoning (parseThinkTags text) = trim (join (newline ++ newline) (reasoning_pieces pairs open)) ∧
    hasUnclosedTag (parseThinkTags text) = match open with Some _ => true | None => false end.
Proof.
  unfold parseThinkTags. destruct (includes OPEN_TAG text) eqn:Ei; cbn [negb].
  - destruct (think_loop_spec (S (length text)) text ltac:(lia)) as (pairs & v & open & E & Hok & H).
    exists pairs, v, open. destruct (think_loop _ text) as [[vis reas] unclosed]. destruct H as (-> & -> & ->).
    split_and!; try done. intros [-> ->]. destruct Hok as (_ & Hv & _).
    unfold tagged in E. simpl in E. rewrite app_nil_r in E. subst. congruence.
  - exists [], text, None. unfold tagged, tagged_ok. cbn. rewrite app_nil_r. split_and!; try done.
    intros H. by destruct H.
Qed.

(** ** Facts: streaming *)

(** The handler of a stream: one call per chunk. *)
Definition stream_chunks (m : Message) (chunks : list str) : Message :=
  fold_left (λ m c, processStreamingContent m (Some c)) chunks m.

Lemma current_of_processed m c :
  content (getCurrentVersion (processStreamingContent m (Some c))) = content (getCurrentVersion m) ++ c.
Proof. unfold processStreamingContent. cbn. destruct c; [by rewrite app_nil_r|done]. Qed.

Lemma processed_shape m c :
  let m' := processStreamingContent m (Some c) in
  let full := content (getCurrentVersion m) ++ c in
  versions m' = [{| version_id := version_id (getCurrentVersion m); content := full |}] ∧
  isReasoningStreaming m' = Some (hasUnclosedTag (parseThinkTags full)) ∧
  reasoning m' = (if truthy (tag_reasoning (parseThinkTags full))
                  then Some {| reasoning_content := tag_reasoning (parseThinkTags full); duration := zero_duration |}
                  else reasoning m) ∧
  key m' = key m ∧ from m' = from m ∧ status m' = status m.
Proof. cbv zeta. unfold processStreamingContent. destruct c as [|x c]; cbn; [by rewrite !app_nil_r|done]. Qed.

(** The chunks of a reply may be cut anywhere: after any non-empty sequence of
    chunks the message has one version with its old identifier and the old content
    followed by all the chunks, it is reasoning exactly when the whole text has
    an unclosed tag, and when the whole text has reasoning the message shows exactly
    that reasoning.  Key, role and status are untouched. *)
Theorem stream_chunks_accumulate (m : Message) (chunks : list str) (Hne : chunks ≠ []) :
  let m' := stream_chunks m chunks in
  let full := content (getCurrentVersion m) ++ concat chunks in
  versions m' = [{| version_id := version_id (getCurrentVersion m); content := full |}] ∧
  isReasoningStreaming m' = Some (hasUnclosedTag (parseThinkTags full)) ∧
  (tag_reasoning (parseThinkTags full) ≠ [] →
     reasoning m' = Some {| reasoning_content := tag_reasoning (parseThinkTags full); duration := zero_duration |}) ∧
  key m' = key m ∧ from m' = from m ∧ status m' = status m.
Proof.
  cbv zeta. unfold stream_chunks. revert m. induction chunks as [|c chunks IH]; intros m; [done|].
  cbn [fold_left concat]. pose proof (processed_shape m c) as (Hv & Hs & Hr & Hk & Hf & Hst).
  destruct chunks as [|c' chunks].
  - cbn [fold_left concat]. rewrite app_nil_r. split_and!; try done.
    intros Hne'. rewrite Hr. by destruct (tag_reasoning _).
  - destruct (IH ltac:(done) (processStreamingContent m (Some c))) as (H1 & H2 & H3 & H4 & H5 & H6).
    rewrite current_of_processed, <- app_assoc in H1, H2, H3. rewrite Hk in H4. rewrite Hf in H5. rewrite Hst in H6.
    by split_and!.
Qed.

Lemma stream_chunks_accumulate_witness :
  let m := createLoadingAssistantMessage (js "k") (js "v") in
  let full := js "<think>plan</think>answer" in
  versions (stream_chunks m [js "<think>pl"; js "an</thi"; js "nk>answer"])
  = [{| version_id := js "v"; content := full |}].
Proof.
  intros m full.
  exact (proj1 (stream_chunks_accumulate m [js "<think>pl"; js "an</thi"; js "nk>answer"] ltac:(discriminate))).
Defined.

(** Reasoning shown for a partial tag is never withdrawn: when an empty
    reasoning block arrives with its closing tag cut in two, the fragment of the tag
    stays as the message's reasoning, also after [finalizeMessage], whereas
    the same text in one chunk has no reasoning. *)
Theorem split_closing_tag_leaves_reasoning :
  let m := createLoadingAssistantMessage (js "k") (js "v") in
  let cut := stream_chunks m [js "<think>"; js "</thi"; js "nk>hello"] in
  let whole := stream_chunks m [js "<think></think>hello"] in
  content (getCurrentVersion cut) = content (getCurrentVersion whole) ∧
  (reasoning_content <$> reasoning (finalizeMessage cut None)) = Some (js "</thi") ∧
  reasoning (finalizeMessage whole None) = None.
Proof. cbv zeta. split_and!; vm_compute; reflexivity. Qed.

(** ** Facts: repair on load *)

Lemma sanitize_one_stable m : stuck (sanitize_one m) = false ∧ from (sanitize_one m) = from m.
Proof.
  unfold sanitize_one. destruct (_ || _); (split; [|done]); unfold stuck; cbn; by destruct (bool_decide _).
Qed.

Lemma last_stuck_spec ms :
  match last_stuck ms with
  | Some i => (∃ m, ms !! i = Some m ∧ stuck m = true) ∧ ∀ j m, i < j → ms !! j = Some m → stuck m = false
  | None => ∀ j m, ms !! j = Some m → stuck m = false
  end.
Proof.
  induction ms as [|m ms IH]; [done|]. cbn [last_stuck]. destruct (last_stuck ms) as [i|].
  - destruct IH as [H1 H2]. split; [done|]. intros [|j] m' Hj Hm; [lia|]. apply (H2 j); [lia|done].
  - destruct (stuck m) eqn:E.
    + split; [by exists m|]. intros [|j] m' Hj Hm; [lia|by eapply (IH j)].
    + intros [|j] m' Hm; [by simplify_eq/=|by apply (IH j)].
Qed.

Definition n_stuck (ms : list Message) : nat := length (List.filter stuck ms).

Lemma n_stuck_insert ms i m m' :
  ms !! i = Some m → stuck m = true → stuck m' = false → S (n_stuck (<[i := m']> ms)) = n_stuck ms.
Proof.
  intros Hi Hm Hm'. unfold n_stuck. revert i Hi. induction ms as [|a ms IH]; intros [|i] Hi; simplify_eq/=.
  - by rewrite Hm, Hm'.
  - destruct (stuck a); simpl; by rewrite (IH i).
Qed.

Lemma n_stuck_zero ms : n_stuck ms = 0 → ∀ j m, ms !! j = Some m → stuck m = false.
Proof.
  intros H j m Hm. destruct (stuck m) eqn:E; [|done].
  assert (m ∈ List.filter stuck ms) as Hin by (apply elem_of_bfilter; split; [by eapply list_elem_of_lookup_2|done]).
  unfold n_stuck in H. by destruct (List.filter stuck ms); [apply elem_of_nil in Hin|].
Qed.

Lemma sanitize_n_stuck ms : n_stuck (sanitizeMessagesOnLoad ms) = pred (n_stuck ms).
Proof.
  unfold sanitizeMessagesOnLoad. pose proof (last_stuck_spec ms) as H. destruct (last_stuck ms) as [i|].
  - destruct H as [(m & Hm & Hst) _]. rewrite Hm.
    pose proof (n_stuck_insert ms i m _ Hm Hst (proj1 (sanitize_one_stable m))). lia.
  - unfold n_stuck. rewrite bfilter_none; [done|]. intros m Hm. apply list_elem_of_lookup in Hm as [j Hj]. by eapply H.
Qed.

Lemma sanitize_keeps_attachments ms :
  Forall (λ m, attachments m = None) ms → Forall (λ m, attachments m = None) (sanitizeMessagesOnLoad ms).
Proof.
  intros H. unfold sanitizeMessagesOnLoad. destruct (last_stuck ms) as [i|]; [|done].
  destruct (ms !! i) as [m|] eqn:Em; [|done]. apply Forall_insert; [done|].
  pose proof (Forall_lookup_1 _ _ _ _ H Em) as Ha. cbn beta in Ha. unfold sanitize_one. cbv zeta.
  match goal with |- context [if ?b then _ else _] => destruct b end; exact Ha.
Qed.

(** Loading repairs exactly one message: the last assistant message that was still loading
    or streaming gets a final status, every other message is unchanged, and the
    number of stuck messages drops by one.  So a history with at most one stuck
    message is fully repaired, and with several the earlier ones stay stuck. *)
Theorem sanitize_repairs_the_last_stuck (messages : list Message) :
  let ms := sanitizeMessagesOnLoad messages in
  n_stuck ms = pred (n_stuck messages) ∧
  length ms = length messages ∧
  (∀ j m, messages !! j = Some m → stuck m = false → ms !! j = Some m) ∧
  (∀ j m, messages !! j = Some m → stuck m = true → Some j ≠ last_stuck messages → ms !! j = Some m) ∧
  (n_stuck messages = 0 → ms = messages).
Proof.
  cbv zeta. split; [apply sanitize_n_stuck|]. unfold sanitizeMessagesOnLoad.
  pose proof (last_stuck_spec messages) as H. destruct (last_stuck messages) as [i|] eqn:Ei.
  - destruct H as [(m & Hm & Hst) Hlast]. rewrite Hm. destruct (sanitize_one_stable m) as [Hs _].
    pose proof (n_stuck_insert messages i m _ Hm Hst Hs) as Hn. split_and!.
    + by rewrite length_insert.
    + intros j m' Hj Hst'. rewrite list_lookup_insert_ne; [done|]. intros ->. congruence.
    + intros j m' Hj _ Hne. rewrite list_lookup_insert_ne; [done|]. congruence.
    + lia.
  - by split_and!.
Qed.

(** The text block made from uploaded documents is bounded: whatever the number
    and size of the attachments, it has at most 80,000 units of their content, plus a
    fixed frame and the rendering of the limit. *)
Theorem attachment_block_bounded (toLocaleString : N → str) (atts : list PlaygroundAttachment) :
  (N.of_nat (length (buildAttachmentTextBlock toLocaleString atts))
   ≤ 80000 + 100 + N.of_nat (length (toLocaleString MAX_ATTACHMENT_TEXT_BLOCK_CHARS)))%N.
Proof.
  unfold buildAttachmentTextBlock. set (bs := imap attachment_block _). destruct bs as [|b bs]; [simpl; lia|].
  set (c := join _ (b :: bs)). cbv zeta. clearbody c. clear.
  assert (∃ K, MAX_ATTACHMENT_TEXT_BLOCK_CHARS = K ∧ K = 80000%N) as (K & -> & EK) by eauto.
  cbn [join]. rewrite !length_app.
  destruct (N.leb_spec (N.of_nat (length c)) K) as [H|H];
    repeat match goal with |- context [length (js ?s)] =>
      let n := eval vm_compute in (length (js s)) in change (length (js s)) with n end;
    change (length newline) with 1; change (@length N []) with 0; [lia|].
  rewrite !length_app, length_take.
  repeat match goal with |- context [length (js ?s)] =>
    let n := eval vm_compute in (length (js s)) in change (length (js s)) with n end.
  change (length newline) with 1. lia.
Qed.
