(* ===== verification/ChatStream.v ===== *)
(** * Streaming chat of the playground
      ([web/default/src/features/playground/hooks/use-stream-request.ts],
       [hooks/use-chat-handler.ts], [lib/payload-builder.ts], [index.tsx])

    The request that is built from a conversation, the listeners of a server-sent
    event stream, the handlers that fold what they report into the conversation, and
    the user's actions (send, regenerate, edit, delete, clear, stop, reload), composed as
    one state machine.  The event source itself ([sse.js]) is outside the repository:
    every event it may dispatch is an input of the machine. *)

From S2P Require Import Prelude JsString JsNumber Json Messages.

(** ** The request ([buildChatCompletionPayload]) *)

Module Payload.

Record PlaygroundConfig := {
  model : str; group : str; temperature : num; top_p : num; max_tokens : num;
  frequency_penalty : num; presence_penalty : num; seed : option num; stream : bool; web_search : bool }.

Record ParameterEnabled := {
  en_temperature : bool; en_top_p : bool; en_max_tokens : bool;
  en_frequency_penalty : bool; en_presence_penalty : bool; en_seed : bool }.

(** [search_context_size], [mode], [enable_search] and the four flags of [web_search] *)
Record SearchOptions := {
  search_context_size : str; mode : str; enable_search : bool;
  enable : bool; enable_citation : bool; enable_trace : bool; enable_status : bool }.

Record ChatCompletionRequest := {
  r_model : str; r_group : str; r_messages : list ChatCompletionMessage; r_stream : bool;
  r_search : option SearchOptions;
  r_temperature : option num; r_top_p : option num; r_max_tokens : option num;
  r_frequency_penalty : option num; r_presence_penalty : option num; r_seed : option num }.

Definition DEFAULT_CONFIG : PlaygroundConfig := {|
  model := js "gpt-4o"; group := js "default"; temperature := dec_to_num 7 (-1); top_p := num_of_Z 1;
  max_tokens := num_of_Z 4096; frequency_penalty := num_of_Z 0; presence_penalty := num_of_Z 0;
  seed := None; stream := true; web_search := false |}.

Definition DEFAULT_PARAMETER_ENABLED : ParameterEnabled := {|
  en_temperature := true; en_top_p := true; en_max_tokens := false;
  en_frequency_penalty := true; en_presence_penalty := true; en_seed := false |}.

Definition if_enabled (b : bool) (v : option num) : option num := if b then v else None.

Definition buildChatCompletionPayload (toLocaleString : N → str) (messages : list Message)
  (config : PlaygroundConfig) (parameterEnabled : ParameterEnabled) : ChatCompletionRequest := {|
  r_model := model config;
  r_group := group config;
  r_messages := map (formatMessageForAPI toLocaleString) (List.filter (λ m, isValidMessage (Some m)) messages);
  r_stream := stream config;
  r_search := if web_search config
              then Some {| search_context_size := js "medium"; mode := js "on"; enable_search := true;
                           enable := true; enable_citation := true; enable_trace := true; enable_status := false |}
              else None;
  r_temperature := if_enabled (en_temperature parameterEnabled) (Some (temperature config));
  r_top_p := if_enabled (en_top_p parameterEnabled) (Some (top_p config));
  r_max_tokens := if_enabled (en_max_tokens parameterEnabled) (Some (max_tokens config));
  r_frequency_penalty := if_enabled (en_frequency_penalty parameterEnabled) (Some (frequency_penalty config));
  r_presence_penalty := if_enabled (en_presence_penalty parameterEnabled) (Some (presence_penalty config));
  r_seed := if_enabled (en_seed parameterEnabled) (seed config) |}.

End Payload.
Export Payload.

(** ** Reading the events *)

Definition PARSE_ERROR := js "Error parsing response data".
Definition STREAM_START_ERROR := js "Error establishing connection".
Definition CONNECTION_CLOSED := js "Connection closed".
Definition DONE := js "[DONE]".

(** The [delta] of a chunk; [null.choices] throws. *)
Definition chunk_delta (chunk : json) : option (option json) :=
  match chunk with
  | JNull => None
  | _ => Some (opt_prop (js "delta") (opt_first (opt_prop (js "choices") (Some chunk))))
  end.

(** What a data line reports: reasoning and content, each if truthy; [None] is an
    exception in the [try] block. *)
Definition read_chunk (data : str) : option (option str * option str) :=
  match json_parse data with
  | None => None
  | Some chunk =>
      match chunk_delta chunk with
      | None => None
      | Some delta =>
          if json_truthy delta
          then Some (truthy_text (opt_prop (js "reasoning_content") delta), truthy_text (opt_prop (js "content") delta))
          else Some (None, None)
      end
  end.

(** The message and code of an error event. *)
Definition read_error (data : option str) : str * option str :=
  match data with
  | Some d =>
      if truthy d then
        match json_parse d with
        | Some parsed =>
            let error := opt_prop (js "error") (Some parsed) in
            if json_truthy error
            then (default d (truthy_text (opt_prop (js "message") error)), truthy_text (opt_prop (js "code") error))
            else (d, None)
        | None => (d, None)
        end
      else (API_REQUEST_ERROR, None)
  | None => (API_REQUEST_ERROR, None)
  end.

(** ** The stream hook ([useStreamRequest]) *)

Inductive UpdateType := UReasoning | UContent.

Inductive SseEvent :=
  | EMessage (data : str)
  | EError (readyState : Z) (data : option str)
  | EReadyState (readyState : option Z) (status : option Z).

(** The two refs of the hook, the number of sources created so far, which numbers
    them, and the sources that are over: [close()] was called on them, or their [stream()] threw. *)
Record StreamState := {
  sseSource : option nat;
  isStreamComplete : bool;
  created : nat;
  closed : list nat }.

Definition idle_stream : StreamState := {| sseSource := None; isStreamComplete := false; created := 0; closed := [] |}.

Section use_stream_request.
Context {App : Type} (onUpdate : UpdateType → str → App → App) (onComplete : App → App)
  (onError : str → option str → App → App).

Definition closeSource (i : nat) (s : StreamState) : StreamState :=
  {| sseSource := None; isStreamComplete := isStreamComplete s; created := created s; closed := i :: closed s |}.

Definition set_complete (s : StreamState) : StreamState :=
  {| sseSource := sseSource s; isStreamComplete := true; created := created s; closed := closed s |}.

Definition handleError (i : nat) (errorMessage : str) (errorCode : option str) (st : StreamState * App)
  : StreamState * App :=
  let '(s, app) := st in
  if negb (isStreamComplete s) then (closeSource i s, onError errorMessage errorCode app) else st.

(** [if (v) onUpdate(type, v)] *)
Definition update_if (type : UpdateType) (v : option str) (app : App) : App :=
  match v with Some c => onUpdate type c app | None => app end.

Definition on_message (i : nat) (data : str) (st : StreamState * App) : StreamState * App :=
  let '(s, app) := st in
  if bool_decide (data = DONE) then (closeSource i (set_complete s), onComplete app)
  else match read_chunk data with
       | Some (r, c) => (s, update_if UContent c (update_if UReasoning r app))
       | None => handleError i PARSE_ERROR None st
       end.

Definition on_error (i : nat) (readyState : Z) (data : option str) (st : StreamState * App) : StreamState * App :=
  if (readyState =? 2)%Z then st
  else let '(errorMessage, errorCode) := read_error data in handleError i errorMessage errorCode st.

Definition http_status_text (status : Z) : str := js "HTTP " ++ Z_dec status ++ js ": " ++ CONNECTION_CLOSED.

Definition on_readystatechange (i : nat) (readyState status : option Z) (st : StreamState * App)
  : StreamState * App :=
  match readyState, status with
  | Some r, Some code =>
      if ((2 <=? r) && negb (code =? 200))%Z then handleError i (http_status_text code) None st else st
  | _, _ => st
  end.

Definition dispatch (i : nat) (e : SseEvent) (st : StreamState * App) : StreamState * App :=
  match e with
  | EMessage data => on_message i data st
  | EError r d => on_error i r d st
  | EReadyState r c => on_readystatechange i r c st
  end.

(** [sendStreamRequest]; [starts] is whether [source.stream()] returns. *)
Definition sendStreamRequest (starts : bool) (st : StreamState * App) : StreamState * App :=
  let '(s, app) := st in
  let i := created s in
  let s' := {| sseSource := Some i; isStreamComplete := false; created := S i; closed := closed s |} in
  if starts then (s', app)
  else ({| sseSource := None; isStreamComplete := false; created := S i; closed := i :: closed s |},
        onError STREAM_START_ERROR None app).

Definition stopStream (s : StreamState) : StreamState :=
  match sseSource s with Some i => closeSource i s | None => s end.

Definition isStreaming (s : StreamState) : bool := match sseSource s with Some _ => true | None => false end.

End use_stream_request.

(** ** The chat handlers ([useChatHandler]) *)

(** [{...m, status}] *)
Definition set_status (m : Message) (s : MessageStatus) : Message :=
  {| key := key m; from := from m; versions := versions m; attachments := attachments m; sources := sources m;
     reasoning := reasoning m; isReasoningStreaming := isReasoningStreaming m;
     isReasoningComplete := isReasoningComplete m; isContentComplete := isContentComplete m;
     status := Some s; errorCode := errorCode m |}.

Definition updated_message (type : UpdateType) (chunk : str) (m : Message) : Message :=
  if bool_decide (status m = Some Error_) then m
  else match type with
       | UReasoning =>
           set_status
             (with_reasoning m
                (Some {| reasoning_content := default [] (reasoning_content <$> reasoning m) ++ chunk;
                         duration := zero_duration |}) true) Streaming
       | UContent => set_status (processStreamingContent m (Some chunk)) Streaming
       end.

Definition handleStreamUpdate (type : UpdateType) (chunk : str) (messages : list Message) : list Message :=
  updateLastAssistantMessage messages (updated_message type chunk).

Definition completed_message (m : Message) : Message :=
  if bool_decide (status m = Some Complete) || bool_decide (status m = Some Error_) then m
  else set_status (finalizeMessage m None) Complete.

Definition handleStreamComplete (messages : list Message) : list Message :=
  updateLastAssistantMessage messages completed_message.

Definition handleStreamError (error : str) (errorCode : option str) (messages : list Message) : list Message :=
  updateAssistantMessageWithError messages error errorCode.

(** The first choice of a reply, and the fields of a failed request. *)
Record Choice := { choice_content : option str; choice_reasoning : option str }.

Inductive ChatReply :=
  | ReplyOk (choice : option Choice)
  | ReplyFailed (data_message err_message code : option str).

(** [{...versions[0], content}]; without a version the identifier is missing. *)
Definition first_version_with (m : Message) (text : str) : list MessageVersion :=
  [{| version_id := match versions m with v :: _ => version_id v | [] => [] end; content := text |}].

Definition replied_message (choice : Choice) (m : Message) : Message :=
  set_status
    (finalizeMessage (with_versions m (first_version_with m (default [] (choice_content choice))))
       (choice_reasoning choice))
    Complete.

(** What [sendNonStreamingChat] does when the request settles. *)
Definition handleReply (reply : ChatReply) (messages : list Message) : list Message :=
  match reply with
  | ReplyOk None => messages
  | ReplyOk (Some choice) => updateLastAssistantMessage messages (replied_message choice)
  | ReplyFailed data_message err_message code =>
      handleStreamError (first_truthy [data_message; err_message; Some API_REQUEST_ERROR])
        (match code with Some c => if truthy c then Some c else None | None => None end) messages
  end.

Definition stopped_message (m : Message) : Message :=
  if bool_decide (status m = Some Loading) || bool_decide (status m = Some Streaming)
  then set_status (finalizeMessage m None) Complete else m.

(** ** The playground page *)

(** The stream hook, the conversation, and the conversation kept in local storage. *)
Record Playground := {
  stream_state : StreamState;
  messages : list Message;
  saved : list Message }.

(** [({ attachments, ...message }) => message] *)
Definition without_attachments (m : Message) : Message :=
  {| key := key m; from := from m; versions := versions m; attachments := None; sources := sources m;
     reasoning := reasoning m; isReasoningStreaming := isReasoningStreaming m;
     isReasoningComplete := isReasoningComplete m; isContentComplete := isContentComplete m;
     status := status m; errorCode := errorCode m |}.

(** [updateMessages]: every change of the conversation is saved. *)
Definition show (s : StreamState) (ms : list Message) : Playground :=
  {| stream_state := s; messages := ms; saved := map without_attachments ms |}.

Definition on_state (p : Playground) (f : StreamState * list Message → StreamState * list Message) : Playground :=
  let '(s, ms) := f (stream_state p, messages p) in show s ms.

(** Identifiers drawn for new messages. *)
Record Ids := { user_key : str; user_version : str; reply_key : str; reply_version : str }.

Definition loading (ids : Ids) : Message := createLoadingAssistantMessage (reply_key ids) (reply_version ids).

Definition sendChat (config : PlaygroundConfig) (starts : bool) (s : StreamState) (ms : list Message) : Playground :=
  if stream config then
    let '(s', ms') := sendStreamRequest handleStreamError starts (s, ms) in show s' ms'
  else show s ms.

Inductive Action :=
  | Send (text : str) (atts : list PlaygroundAttachment) (ids : Ids) (starts : bool)
  | Regenerate (k : str) (ids : Ids) (starts : bool)
  | ApplyEdit (k : str) (newContent : str) (submit : bool) (ids : Ids) (starts : bool)
  | Delete (k : str)
  | Clear
  | Stop
  | Sse (i : nat) (e : SseEvent)
  | Reply (reply : ChatReply)
  | Reload.

Definition user_message (text : str) (atts : list PlaygroundAttachment) (ids : Ids) : Message :=
  match atts with
  | [] => createUserMessage (user_key ids) (user_version ids) text
  | _ => createUserMessageWithAttachments (user_key ids) (user_version ids) text atts
  end.

Definition handleSendMessage (config : PlaygroundConfig) text atts ids starts (p : Playground) : Playground :=
  sendChat config starts (stream_state p) (messages p ++ [user_message text atts ids; loading ids]).

Definition find_index (k : str) (ms : list Message) : option nat :=
  fst <$> list_find (λ m, key m = k) ms.

Definition handleRegenerateMessage (config : PlaygroundConfig) k ids starts (p : Playground) : Playground :=
  match find_index k (messages p) with
  | None => p
  | Some i => sendChat config starts (stream_state p) (take i (messages p) ++ [loading ids])
  end.

Definition edited (k newContent : str) (m : Message) : Message :=
  if bool_decide (key m = k) then with_versions m (first_version_with m newContent) else m.

Definition applyEdit (config : PlaygroundConfig) k newContent (submit : bool) ids starts (p : Playground) : Playground :=
  if negb (truthy k) then p else
  match list_find (λ m, key m = k) (messages p) with
  | None => p
  | Some (i, m) =>
      let updated := map (edited k newContent) (messages p) in
      if negb submit || negb (bool_decide (from m = User)) then show (stream_state p) updated
      else sendChat config starts (stream_state p) (take (S i) updated ++ [loading ids])
  end.

Definition handleDeleteMessage (k : str) (p : Playground) : Playground :=
  show (stream_state p) (List.filter (λ m, negb (bool_decide (key m = k))) (messages p)).

Definition handleClearMessages (p : Playground) : Playground :=
  if isStreaming (stream_state p) then p else show (stream_state p) [].

Definition stopGeneration (p : Playground) : Playground :=
  show (stopStream (stream_state p)) (updateLastAssistantMessage (messages p) stopped_message).

(** [loadMessages] on a fresh page. *)
Definition reload (p : Playground) : Playground :=
  let ms := sanitizeMessagesOnLoad (saved p) in
  {| stream_state := idle_stream; messages := ms; saved := ms |}.

Definition act (config : PlaygroundConfig) (a : Action) (p : Playground) : Playground :=
  match a with
  | Send text atts ids starts => handleSendMessage config text atts ids starts p
  | Regenerate k ids starts => handleRegenerateMessage config k ids starts p
  | ApplyEdit k c submit ids starts => applyEdit config k c submit ids starts p
  | Delete k => handleDeleteMessage k p
  | Clear => handleClearMessages p
  | Stop => stopGeneration p
  | Sse i e => on_state p (dispatch handleStreamUpdate handleStreamComplete handleStreamError i e)
  | Reply r => show (stream_state p) (handleReply r (messages p))
  | Reload => reload p
  end.

Definition run (config : PlaygroundConfig) (acts : list Action) (p : Playground) : Playground :=
  fold_left (λ p a, act config a p) acts p.

Definition empty_page : Playground := {| stream_state := idle_stream; messages := []; saved := [] |}.

(** ** Facts: the last message *)

Lemma update_last_snoc ms m f :
  from m = Assistant → updateLastAssistantMessage (ms ++ [m]) f = ms ++ [f m].
Proof.
  intros Hf. unfold updateLastAssistantMessage. rewrite last_snoc, bool_decide_true by done.
  rewrite length_app. replace (length ms + length [m] - 1) with (length ms + 0) by (simpl; lia).
  by rewrite insert_app_r.
Qed.

Lemma update_last_cases ms f :
  updateLastAssistantMessage ms f = ms ∨
  ∃ ms' m, ms = ms' ++ [m] ∧ from m = Assistant ∧ updateLastAssistantMessage ms f = ms' ++ [f m].
Proof.
  destruct (last ms) as [m|] eqn:El.
  - apply last_Some in El as [ms' ->]. destruct (decide (from m = Assistant)) as [Hf|Hf].
    + right. exists ms', m. by rewrite update_last_snoc.
    + left. unfold updateLastAssistantMessage. by rewrite last_snoc, bool_decide_false.
  - left. unfold updateLastAssistantMessage. by rewrite El.
Qed.

Lemma stuck_true m :
  stuck m = true ↔ from m = Assistant ∧ (status m = Some Loading ∨ status m = Some Streaming).
Proof. unfold stuck. rewrite andb_true_iff, orb_true_iff, !bool_decide_eq_true. done. Qed.

Lemma n_stuck_app ms1 ms2 : n_stuck (ms1 ++ ms2) = n_stuck ms1 + n_stuck ms2.
Proof. unfold n_stuck. by rewrite bfilter_app, length_app. Qed.

Lemma n_stuck_one m : n_stuck [m] = if stuck m then 1 else 0.
Proof. unfold n_stuck. simpl. by destruct (stuck m). Qed.

Lemma n_stuck_sublist ms1 ms2 : ms1 `sublist_of` ms2 → n_stuck ms1 ≤ n_stuck ms2.
Proof.
  induction 1 as [|m ms1 ms2 _ IH|m ms1 ms2 _ IH]; [done| |]; unfold n_stuck in *; simpl;
    destruct (stuck m); simpl; lia.
Qed.

Lemma n_stuck_map f ms : (∀ m, stuck (f m) = stuck m) → n_stuck (map f ms) = n_stuck ms.
Proof. intros Hf. unfold n_stuck. induction ms as [|m ms IH]; [done|]. simpl. rewrite Hf. by destruct (stuck m); simpl; rewrite ?IH. Qed.

(** What a handler does to the status of a message. *)
Lemma set_status_stuck m s :
  stuck (set_status m s) = bool_decide (from m = Assistant) && (bool_decide (s = Loading) || bool_decide (s = Streaming)).
Proof. unfold stuck. cbn. by destruct s. Qed.

Lemma updated_stays_stuck type c m : stuck m = true → stuck (updated_message type c m) = true.
Proof.
  intros [Hf Hs]%stuck_true. unfold updated_message. rewrite bool_decide_false by (destruct Hs; congruence).
  apply stuck_true. destruct type; cbn; auto.
Qed.

Lemma completed_not_stuck m : stuck (completed_message m) = false.
Proof.
  unfold completed_message. destruct (_ || _) eqn:E; [|rewrite set_status_stuck; apply andb_false_r].
  apply orb_true_iff in E as [E|E]; apply bool_decide_eq_true in E; unfold stuck; rewrite E; apply andb_false_r.
Qed.

Lemma stopped_not_stuck m : stuck (stopped_message m) = false.
Proof.
  unfold stopped_message. destruct (_ || _) eqn:E; [rewrite set_status_stuck; apply andb_false_r|].
  unfold stuck. rewrite E. apply andb_false_r.
Qed.

Lemma error_update ms m e c :
  from m = Assistant →
  ∃ m', updateAssistantMessageWithError (ms ++ [m]) e c = ms ++ [m'] ∧ stuck m' = false ∧ status m' = Some Error_ ∧
        from m' = Assistant ∧
        content (getCurrentVersion m') = API_REQUEST_ERROR ++ js ": " ++ e ∧
        errorCode m' = Some (match c with Some c => if truthy c then Some c else None | None => None end).
Proof.
  intros Hf. unfold updateAssistantMessageWithError. rewrite update_last_snoc by done.
  eexists. split; [reflexivity|]. split; [apply andb_false_r|]. split_and!; [reflexivity|exact Hf|reflexivity|reflexivity].
Qed.

Lemma update_last_n_stuck ms f :
  (∀ m, from m = Assistant → stuck (f m) = true → stuck m = true) → n_stuck (updateLastAssistantMessage ms f) ≤ n_stuck ms.
Proof.
  intros Hf. destruct (update_last_cases ms f) as [->|(ms' & m & -> & Hm & ->)]; [done|].
  rewrite !n_stuck_app, !n_stuck_one. specialize (Hf m Hm). destruct (stuck (f m)); [rewrite Hf by done|]; lia.
Qed.

Lemma error_n_stuck ms e c : n_stuck (updateAssistantMessageWithError ms e c) ≤ n_stuck ms.
Proof.
  apply update_last_n_stuck. intros m Hm Hs. apply stuck_true in Hs as [_ [H|H]]; discriminate H.
Qed.

(** ** The invariant of the page *)

(** A reply streams in exactly while its source is open: then the last message, and
    only it, is unfinished; otherwise no message is. *)
Definition page_ok (p : Playground) : Prop :=
  let s := stream_state p in
  saved p = map without_attachments (messages p) ∧
  (∀ j, j < created s → j ∉ closed s → sseSource s = Some j) ∧
  match sseSource s with
  | Some i => S i = created s ∧ isStreamComplete s = false ∧
              ∃ ms m, messages p = ms ++ [m] ∧ n_stuck ms = 0 ∧ stuck m = true
  | None => n_stuck (messages p) = 0
  end.

(** What the page and the event source allow.  While a reply streams in the input box and the buttons that regenerate and delete are
    disabled; the buttons that save an edit, with or without submitting it, are not.  A source dispatches any event until it
    is over, and changes its ready state within [close()], before another source is created. *)
Inductive allowed (p : Playground) : Action → Prop :=
  | allow_send text atts ids starts : isStreaming (stream_state p) = false → allowed p (Send text atts ids starts)
  | allow_regenerate k ids starts : isStreaming (stream_state p) = false → allowed p (Regenerate k ids starts)
  | allow_edit k c (submit : bool) ids starts : allowed p (ApplyEdit k c submit ids starts)
  | allow_delete k : isStreaming (stream_state p) = false → allowed p (Delete k)
  | allow_clear : allowed p Clear
  | allow_stop : allowed p Stop
  | allow_reload : allowed p Reload
  | allow_event i e : i < created (stream_state p) → i ∉ closed (stream_state p) → allowed p (Sse i e)
  | allow_readystate i r c : S i = created (stream_state p) → allowed p (Sse i (EReadyState r c)).

(** An edit that is submitted while a reply streams in opens a second source beside the first. *)
Definition overlaps (p : Playground) (a : Action) : bool :=
  match a with ApplyEdit _ _ true _ _ => isStreaming (stream_state p) | _ => false end.

(** The pages runs lead to; the flag says whether an edit was submitted while a reply streamed in. *)
Inductive reachable (config : PlaygroundConfig) : bool → Playground → Prop :=
  | reach_load history :
      n_stuck history ≤ 1 → Forall (λ m, attachments m = None) history →
      reachable config false (reload {| stream_state := idle_stream; messages := []; saved := history |})
  | reach_act b p a : reachable config b p → allowed p a → reachable config (b || overlaps p a) (act config a p).

(** ** Facts: every action keeps the invariant *)

Lemma without_attachments_stuck m : stuck (without_attachments m) = stuck m.
Proof. done. Qed.

Lemma without_attachments_id ms : Forall (λ m, attachments m = None) ms → map without_attachments ms = ms.
Proof. intros H. apply lmap_id. eapply Forall_impl; [exact H|]. intros []. cbn. by intros ->. Qed.

Lemma loading_stuck ids : stuck (loading ids) = true.
Proof. done. Qed.

(** A page without an open source and without unfinished messages. *)
Lemma settled_ok s ms : sseSource s = None → (∀ j, j < created s → j ∈ closed s) → n_stuck ms = 0 → page_ok (show s ms).
Proof. intros Hs Hj Hn. split; [done|]. cbn. rewrite Hs. split; [|done]. intros j Hlt Hni. destruct Hni. by apply Hj. Qed.

(** All sources but the one that streams are over; so are all after it was closed. *)
Definition only_open (s : StreamState) : Prop := ∀ j, j < created s → j ∉ closed s → sseSource s = Some j.

Lemma idle_over s : only_open s → sseSource s = None → ∀ j, j < created s → j ∈ closed s.
Proof. intros H Hs j Hj. destruct (decide (j ∈ closed s)) as [?|Hn]; [done|]. specialize (H j Hj Hn). congruence. Qed.

Lemma closed_over s i b : only_open s → (∀ k, sseSource s = Some k → k = i) →
  let s' := closeSource i (if b : bool then set_complete s else s) in ∀ j, j < created s' → j ∈ closed s'.
Proof.
  intros H Hi s' j Hj. assert (created s' = created s ∧ closed s' = i :: closed s) as [E1 E2] by (by destruct b). rewrite E1 in Hj. rewrite E2.
  destruct (decide (j ∈ closed s)) as [?|Hn]; [by right|]. rewrite (Hi j (H j Hj Hn)). left.
Qed.

Lemma sendChat_ok config starts s ms ids :
  stream config = true → (∀ j, j < created s → j ∈ closed s) → n_stuck ms = 0 → page_ok (sendChat config starts s (ms ++ [loading ids])).
Proof.
  intros Hc Ho Hn. unfold sendChat. rewrite Hc. destruct starts; cbn [sendStreamRequest].
  - split; [done|]. cbn [sseSource stream_state show created closed]. split; [|split_and!; [done|done|]].
    + intros j Hj Hni. destruct (decide (j = created s)) as [->|]; [done|]. destruct Hni. apply Ho. lia.
    + exists ms, (loading ids). by rewrite loading_stuck.
  - apply settled_ok; [done| |].
    + cbn [created closed]. intros j Hj. destruct (decide (j = created s)) as [->|]; [left|right; apply Ho; lia].
    + unfold handleStreamError. destruct (error_update ms (loading ids) STREAM_START_ERROR None eq_refl) as (m' & -> & Hm' & _).
      by rewrite n_stuck_app, n_stuck_one, Hm', Hn.
Qed.

Lemma update_if_stuck type v ms m :
  stuck m = true → ∃ m', update_if handleStreamUpdate type v (ms ++ [m]) = ms ++ [m'] ∧ stuck m' = true.
Proof.
  intros Hm. destruct v as [c|]; [|by exists m]. cbn [update_if]. unfold handleStreamUpdate.
  rewrite update_last_snoc by by apply stuck_true in Hm as [? _].
  eexists. split; [done|by apply updated_stays_stuck].
Qed.

Lemma handleError_ok i e c s ms :
  only_open s → (∀ k, sseSource s = Some k → k = i) →
  (sseSource s = None → n_stuck ms = 0) →
  (sseSource s ≠ None → isStreamComplete s = false ∧ ∃ ms' m, ms = ms' ++ [m] ∧ n_stuck ms' = 0 ∧ stuck m = true) →
  let '(s', ms') := handleError handleStreamError i e c (s, ms) in
  sseSource s' = None ∧ (∀ j, j < created s' → j ∈ closed s') ∧ n_stuck ms' = 0.
Proof.
  intros Ho Hi H0 H1. pose proof (closed_over s i false Ho Hi) as Hcl. unfold handleError. destruct (sseSource s) as [j|] eqn:Es.
  - destruct H1 as (-> & ms' & m & -> & Hn & Hm); [done|]. cbn [negb]. split; [done|]. split; [exact Hcl|]. unfold handleStreamError.
    destruct (error_update ms' m e c) as (m' & -> & Hm' & _); [by apply stuck_true in Hm as [? _]|].
    by rewrite n_stuck_app, n_stuck_one, Hm', Hn.
  - specialize (H0 eq_refl). destruct (isStreamComplete s); cbn [negb]; [split_and!; [done|by apply idle_over|done]|]. split; [done|].
    split; [exact Hcl|]. pose proof (error_n_stuck ms e c). unfold handleStreamError. lia.
Qed.

(** A page in which an error of the open stream was handled. *)
Lemma error_step_ok p i e c :
  page_ok p → (∀ k, sseSource (stream_state p) = Some k → k = i) → page_ok (on_state p (handleError handleStreamError i e c)).
Proof.
  intros (Hsav & Ho & Hp) Hi. unfold on_state.
  pose proof (handleError_ok i e c (stream_state p) (messages p) Ho Hi) as H.
  destruct (handleError _ i e c _) as [s' ms']. destruct H as (H1 & H2 & H3); [| |by apply settled_ok].
  - by destruct (sseSource (stream_state p)).
  - destruct (sseSource (stream_state p)); [|done]. intros _. by destruct Hp as (_ & ? & ?).
Qed.

Lemma same_state_ok p : page_ok p → page_ok (on_state p (λ st, st)).
Proof. intros (Hsav & Ho & Hp). by split. Qed.

Lemma message_ok p i data :
  page_ok p → sseSource (stream_state p) = Some i →
  page_ok (on_state p (on_message handleStreamUpdate handleStreamComplete handleStreamError i data)).
Proof.
  intros Hp Hi. pose proof Hp as (_ & Ho & Hp'). rewrite Hi in Hp'. destruct Hp' as (Hc & Hf & ms & m & Ems & Hn & Hm).
  assert (∀ k, sseSource (stream_state p) = Some k → k = i) as Hk by (intros k Hk; congruence).
  destruct (decide (data = DONE)) as [Hd|Hd].
  - unfold on_state, on_message. rewrite bool_decide_true by done. apply settled_ok; [done|exact (closed_over (stream_state p) i true Ho Hk)|].
    unfold handleStreamComplete. rewrite Ems, update_last_snoc by by apply stuck_true in Hm as [? _].
    by rewrite n_stuck_app, n_stuck_one, completed_not_stuck, Hn.
  - destruct (read_chunk data) as [[r c]|] eqn:Er.
    + unfold on_state, on_message. rewrite bool_decide_false, Er, Ems by done.
      destruct (update_if_stuck UReasoning r ms m Hm) as (m1 & -> & H1).
      destruct (update_if_stuck UContent c ms m1 H1) as (m2 & -> & H2).
      split; [done|]. cbn [show stream_state messages]. split; [exact Ho|]. rewrite Hi. split_and!; [done|done|by exists ms, m2].
    + pose proof (error_step_ok p i PARSE_ERROR None Hp Hk) as He. unfold on_state in *. unfold on_message.
      by rewrite bool_decide_false, Er.
Qed.

Lemma on_state_ext p f g :
  f (stream_state p, messages p) = g (stream_state p, messages p) → on_state p f = on_state p g.
Proof. unfold on_state. by intros ->. Qed.

(** An event that is not a data line is ignored or handled as an error. *)
Lemma dispatch_cases p i e :
  (∀ data, e ≠ EMessage data) →
  let step := on_state p (dispatch handleStreamUpdate handleStreamComplete handleStreamError i e) in
  step = on_state p (λ st, st) ∨ ∃ msg code, step = on_state p (handleError handleStreamError i msg code).
Proof.
  intros Hne. cbv zeta. destruct e as [data|r d|r c]; [by destruct (Hne data)| |].
  - destruct (r =? 2)%Z eqn:Er; [left|right]; [apply on_state_ext; cbn; unfold on_error; by rewrite Er|].
    exists (fst (read_error d)), (snd (read_error d)). apply on_state_ext. cbn [dispatch]. unfold on_error.
    by rewrite Er; destruct (read_error d).
  - destruct r as [r|], c as [c|]; try (left; by apply on_state_ext).
    destruct ((2 <=? r) && negb (c =? 200))%Z eqn:E; [right; eexists _, _|left];
      apply on_state_ext; cbn [dispatch]; unfold on_readystatechange; by rewrite E.
Qed.

Lemma dispatch_ok p i e :
  page_ok p → sseSource (stream_state p) = Some i ∨ S i = created (stream_state p) ∧ (∃ r c, e = EReadyState r c) →
  page_ok (on_state p (dispatch handleStreamUpdate handleStreamComplete handleStreamError i e)).
Proof.
  intros Hp He. assert (∀ k, sseSource (stream_state p) = Some k → k = i) as Hk.
  { intros k Hk. destruct He as [He|[He _]]; [congruence|]. destruct Hp as (_ & _ & Hp). rewrite Hk in Hp. destruct Hp as [Hp _]. lia. }
  destruct e as [data|r d|r c].
  { destruct He as [He|(_ & ? & ? & ?)]; [by apply message_ok|done]. }
  all: match goal with |- context [dispatch _ _ _ _ ?e] => destruct (dispatch_cases p i e) as [->|(msg & code & ->)] end;
    [done|by apply same_state_ok|by apply error_step_ok].
Qed.

Lemma idle_source p : isStreaming (stream_state p) = false → sseSource (stream_state p) = None.
Proof. unfold isStreaming. by destruct (sseSource _). Qed.

Lemma idle_settled p : page_ok p → isStreaming (stream_state p) = false → n_stuck (messages p) = 0.
Proof. intros (_ & _ & Hp) Hi. by rewrite (idle_source p Hi) in Hp. Qed.

Lemma idle_page_over p : page_ok p → isStreaming (stream_state p) = false → ∀ j, j < created (stream_state p) → j ∈ closed (stream_state p).
Proof. intros (_ & Ho & _) Hi. by apply idle_over; [|apply idle_source]. Qed.

Lemma edited_stuck k c m : stuck (edited k c m) = stuck m.
Proof. unfold edited. by destruct (bool_decide _). Qed.

Lemma user_message_not_stuck text atts ids : stuck (user_message text atts ids) = false.
Proof. by destruct atts. Qed.

Lemma sublist_settled ms1 ms2 : ms1 `sublist_of` ms2 → n_stuck ms2 = 0 → n_stuck ms1 = 0.
Proof. intros H%n_stuck_sublist ?. lia. Qed.

Lemma edit_ok config p k c (submit : bool) ids starts :
  stream config = true → page_ok p → (submit = true → isStreaming (stream_state p) = false) →
  page_ok (applyEdit config k c submit ids starts p).
Proof.
  intros Hc Hp Hs. unfold applyEdit. destruct (truthy k); [|done]. cbn [negb].
  destruct (list_find _ _) as [[i m]|]; [|done].
  destruct (negb submit || _) eqn:E.
  - destruct Hp as (_ & Ho & Hp). split; [done|]. cbn [show stream_state messages]. split; [exact Ho|].
    destruct (sseSource _) as [j|]; [|rewrite n_stuck_map by apply edited_stuck; done].
    destruct Hp as (H1 & H2 & ms & m' & -> & Hn & Hm). split_and!; [done|done|].
    exists (map (edited k c) ms), (edited k c m'). rewrite map_app, edited_stuck, n_stuck_map by apply edited_stuck. done.
  - apply orb_false_iff in E as [E _]. apply negb_false_iff in E.
    apply sendChat_ok; [done|by apply idle_page_over; auto|]. eapply sublist_settled; [apply sublist_take|].
    rewrite n_stuck_map by apply edited_stuck. apply idle_settled; auto.
Qed.

Lemma stop_ok p : page_ok p → page_ok (stopGeneration p).
Proof.
  intros Hok. pose proof Hok as (_ & Ho & Hp). unfold stopGeneration. apply settled_ok.
  - unfold stopStream. by destruct (sseSource (stream_state p)) eqn:E.
  - unfold stopStream. destruct (sseSource (stream_state p)) as [k|] eqn:E; [|exact (idle_over _ (proj1 (proj2 Hok)) E)].
    apply (closed_over (stream_state p) k false (proj1 (proj2 Hok))). intros k' ?. congruence.
  - destruct (sseSource (stream_state p)) as [i|].
    + destruct Hp as (_ & _ & ms & m & -> & Hn & Hm).
      rewrite update_last_snoc by by apply stuck_true in Hm as [? _].
      by rewrite n_stuck_app, n_stuck_one, stopped_not_stuck, Hn.
    + pose proof (update_last_n_stuck (messages p) stopped_message) as H. rewrite Hp in H.
      enough (n_stuck (updateLastAssistantMessage (messages p) stopped_message) ≤ 0) by lia.
      apply H. intros m _. by rewrite stopped_not_stuck.
Qed.

Lemma reload_ok p : n_stuck (saved p) ≤ 1 → Forall (λ m, attachments m = None) (saved p) → page_ok (reload p).
Proof.
  intros Hn Ha. split; cbn [reload saved messages stream_state].
  - by rewrite without_attachments_id by by apply sanitize_keeps_attachments.
  - cbn [idle_stream sseSource created closed]. split; [intros j Hj; lia|]. rewrite sanitize_n_stuck. lia.
Qed.

Lemma page_ok_saved p : page_ok p → n_stuck (saved p) ≤ 1 ∧ Forall (λ m, attachments m = None) (saved p).
Proof.
  intros (-> & _ & Hp). split; [|by apply Forall_forall; intros m (m' & -> & _)%elem_of_lmap].
  rewrite n_stuck_map by done. destruct (sseSource _) as [i|]; [|lia].
  destruct Hp as (_ & _ & ms & m & -> & Hn & Hm). rewrite n_stuck_app, n_stuck_one, Hn, Hm. lia.
Qed.

Lemma act_ok config p a : stream config = true → page_ok p → allowed p a → overlaps p a = false → page_ok (act config a p).
Proof.
  intros Hc Hp Ha Hov. destruct Ha as [text atts ids st Hi|k ids st Hi|k c sub ids st|k Hi| | | |i e Hi He|i r c Hi];
    cbn [act].
  - unfold handleSendMessage. replace (_ ++ [_; _]) with ((messages p ++ [user_message text atts ids]) ++ [loading ids])
      by by rewrite <- app_assoc.
    apply sendChat_ok; [done|by apply idle_page_over|]. by rewrite n_stuck_app, n_stuck_one, user_message_not_stuck, idle_settled.
  - unfold handleRegenerateMessage. destruct (find_index _ _) as [i|]; [|done].
    apply sendChat_ok; [done|by apply idle_page_over|]. eapply sublist_settled; [apply sublist_take|by apply idle_settled].
  - apply edit_ok; [done..|]. intros ->. exact Hov.
  - apply settled_ok; [by apply idle_source|by apply idle_page_over|].
    eapply sublist_settled; [apply bfilter_sublist|by apply idle_settled].
  - unfold handleClearMessages. destruct (isStreaming _) eqn:Hi; [done|]. apply settled_ok; [by apply idle_source|by apply idle_page_over|done].
  - by apply stop_ok.
  - apply reload_ok; by apply page_ok_saved.
  - apply dispatch_ok; [done|]. left. by apply (proj1 (proj2 Hp)).
  - apply dispatch_ok; eauto.
Qed.

Lemma reachable_ok config p : stream config = true → reachable config false p → page_ok p.
Proof.
  intros Hc H. remember false as b eqn:Eb. induction H as [|b p a _ IH Ha]; [by apply reload_ok|].
  apply orb_false_iff in Eb as [-> Hov]. apply act_ok; auto.
Qed.

(** Whatever happened before, the history on disk is what is on screen. *)
Lemma reachable_saved config b p : reachable config b p → saved p = map without_attachments (messages p).
Proof.
  assert (∀ p, Forall (λ m, attachments m = None) (saved p) → saved (reload p) = map without_attachments (messages (reload p))) as Hre.
  { intros q Hq. cbn [reload saved messages]. by rewrite without_attachments_id by by apply sanitize_keeps_attachments. }
  induction 1 as [history _ Ha|b p a _ IH Hal]; [by apply Hre|]. destruct a; cbn [act]; try done.
  - unfold handleSendMessage, sendChat. destruct (stream config); [|done]. by destruct (sendStreamRequest _ _ _).
  - unfold handleRegenerateMessage. destruct (find_index _ _); [|done]. unfold sendChat. destruct (stream config); [|done]. by destruct (sendStreamRequest _ _ _).
  - unfold applyEdit. destruct (negb (truthy k)); [done|]. destruct (list_find _ _) as [[i m]|]; [|done]. destruct (_ || _); [done|].
    unfold sendChat. destruct (stream config); [|done]. by destruct (sendStreamRequest _ _ _).
  - unfold handleClearMessages. by destruct (isStreaming _).
  - unfold on_state. by destruct (dispatch _ _ _ _ _ _).
  - apply Hre. rewrite IH. by apply Forall_forall; intros m (m' & -> & _)%elem_of_lmap.
Qed.

(** ** Facts: a reply that streams in *)

Lemma includes_prefix p a b : includes p (a ++ b) = false → includes p a = false.
Proof.
  intros H. apply not_true_iff_false. intros (u & t & ->)%includes_spec. apply not_true_iff_false in H. apply H.
  apply includes_spec. exists u, (t ++ b). by rewrite !app_assoc.
Qed.

Lemma untagged text : includes OPEN_TAG text = false →
  parseThinkTags text = {| visibleContent := text; tag_reasoning := []; hasUnclosedTag := false |}.
Proof. intros H. unfold parseThinkTags. by rewrite H. Qed.

Definition reasoning_text (m : Message) : str := default [] (reasoning_content <$> reasoning m).

(** An unfinished reply that shows content [C] and reasoning [R]. *)
Definition showing (m : Message) (C R : str) : Prop :=
  stuck m = true ∧ content (getCurrentVersion m) = C ∧ reasoning_text m = R.

Lemma showing_reasoning m C R c :
  showing m C R → showing (updated_message UReasoning c m) C (R ++ c).
Proof.
  intros (Hs & HC & HR). split; [by apply updated_stays_stuck|]. apply stuck_true in Hs as [_ Hs].
  unfold updated_message. rewrite bool_decide_false by (destruct Hs; congruence). split; [exact HC|].
  cbn. unfold reasoning_text in HR. by rewrite HR.
Qed.

(** The reasoning after content came in: what the tags of the whole content hold, or else what was there. *)
Definition tagged (full R : str) : str :=
  if truthy (tag_reasoning (parseThinkTags full)) then tag_reasoning (parseThinkTags full) else R.

Lemma showing_content m C R c : showing m C R → showing (updated_message UContent c m) (C ++ c) (tagged (C ++ c) R).
Proof.
  intros (Hs & HC & HR). split; [by apply updated_stays_stuck|]. apply stuck_true in Hs as [_ Hs].
  unfold updated_message. rewrite bool_decide_false by (destruct Hs; congruence).
  pose proof (processed_shape m c) as (_ & _ & Hr & _).
  split; [pose proof (current_of_processed m c) as E; by rewrite HC in E|].
  change (reasoning_text (processStreamingContent m (Some c)) = tagged (C ++ c) R).
  unfold reasoning_text, tagged. rewrite Hr, HC. clear Hr. case_match; [reflexivity|exact HR].
Qed.

Definition contents (ds : list (option str * option str)) : str := concat (omap snd ds).
Definition reasonings (ds : list (option str * option str)) : str := concat (omap fst ds).

(** The data lines of one source. *)
Definition lines_of (i : nat) (lines : list str) : list Action := map (λ l, Sse i (EMessage l)) lines.

(** [line] is a chunk that reports reasoning and content [d]. *)
Definition reads (line : str) (d : option str * option str) : Prop := line ≠ DONE ∧ read_chunk line = Some d.

Lemma act_line config p i line r c :
  reads line (r, c) →
  act config (Sse i (EMessage line)) p
  = show (stream_state p) (update_if handleStreamUpdate UContent c (update_if handleStreamUpdate UReasoning r (messages p))).
Proof.
  intros [Hd Hr]. cbn [act]. unfold on_state. cbn [dispatch]. unfold on_message. by rewrite bool_decide_false, Hr.
Qed.

(** The reasoning shown after the deltas [ds], from content [C] and reasoning [R] on. *)
Fixpoint reasoning_after (C R : str) (ds : list (option str * option str)) : str :=
  match ds with
  | [] => R
  | (r, c) :: ds =>
      let R := R ++ default [] r in
      match c with
      | Some c => reasoning_after (C ++ c) (tagged (C ++ c) R) ds
      | None => reasoning_after C R ds
      end
  end.

Lemma contents_cons r c ds : contents ((r, c) :: ds) = default [] c ++ contents ds.
Proof. by destruct c. Qed.

Lemma reasonings_cons r c ds : reasonings ((r, c) :: ds) = default [] r ++ reasonings ds.
Proof. by destruct r. Qed.

(** Without a tag the reasoning is what was reported as such. *)
Lemma reasoning_untagged C R ds : includes OPEN_TAG (C ++ contents ds) = false → reasoning_after C R ds = R ++ reasonings ds.
Proof.
  revert C R. induction ds as [|[r c] ds IH]; intros C R Hno; [cbn; by rewrite app_nil_r|]. rewrite contents_cons, app_assoc in Hno.
  rewrite reasonings_cons, app_assoc. cbn [reasoning_after]. destruct c as [c|]; cbn [default] in Hno; [|apply IH; by rewrite app_nil_r in Hno].
  rewrite IH by done. unfold tagged. rewrite (untagged (C ++ c)); [done|]. by eapply includes_prefix.
Qed.

(** Without reported reasoning it is what the tags of the whole content hold. *)
Lemma reasoning_tagged C R ds : Forall (λ d, fst d = None) ds → omap snd ds ≠ [] → tag_reasoning (parseThinkTags (C ++ contents ds)) ≠ [] →
  reasoning_after C R ds = tag_reasoning (parseThinkTags (C ++ contents ds)).
Proof.
  intros Hr. revert C R. induction Hr as [|[r c] ds Hrc Hr IH]; intros C R Hne Ht; [done|]. cbn [fst] in Hrc. subst r.
  rewrite contents_cons in *. cbn [reasoning_after default] in *. rewrite app_nil_r.
  destruct c as [c|]; cbn [default] in *; [|by apply IH]. rewrite app_assoc in *.
  destruct (omap snd ds) as [|x l] eqn:E.
  - assert (contents ds = []) as Ec by (unfold contents; by rewrite E). rewrite Ec, app_nil_r in *.
    assert (∀ C R, reasoning_after C R ds = R) as ->.
    { clear -Hr E. induction Hr as [|[r c] ds Hrc _ IH]; intros C R; [done|]. cbn [fst] in Hrc. subst r. destruct c; [done|].
      cbn [reasoning_after default]. rewrite app_nil_r. by apply IH. }
    unfold tagged. by destruct (tag_reasoning _).
  - apply IH; [done|exact Ht].
Qed.

Lemma run_lines config p i lines ds ms m C R :
  Forall2 reads lines ds → messages p = ms ++ [m] → showing m C R →
  ∃ m', messages (run config (lines_of i lines) p) = ms ++ [m'] ∧
        stream_state (run config (lines_of i lines) p) = stream_state p ∧
        showing m' (C ++ contents ds) (reasoning_after C R ds).
Proof.
  intros Hl. revert p m C R. induction Hl as [|line [r c] lines ds Hline Hl IH]; intros p m C R Ep Hm.
  { exists m. unfold contents. cbn. by rewrite app_nil_r. }
  set (p1 := act config (Sse i (EMessage line)) p). rewrite contents_cons, app_assoc.
  assert (∃ m1, messages p1 = ms ++ [m1] ∧
    showing m1 (C ++ default [] c) (match c with Some c => tagged (C ++ c) (R ++ default [] r) | None => R ++ default [] r end)) as (m1 & E1 & H1).
  { unfold p1. rewrite (act_line config p i line r c), Ep by done. cbn [show messages].
    assert (∃ m0, update_if handleStreamUpdate UReasoning r (ms ++ [m]) = ms ++ [m0] ∧ showing m0 C (R ++ default [] r))
      as (m0 & -> & H0).
    { destruct r as [r|]; cbn [update_if default]; [|exists m; by rewrite app_nil_r].
      exists (updated_message UReasoning r m). split; [|by apply showing_reasoning].
      apply update_last_snoc. by destruct Hm as [[? _]%stuck_true _]. }
    destruct c as [c|]; cbn [update_if default]; [|exists m0; by rewrite app_nil_r].
    exists (updated_message UContent c m0). split; [|by apply showing_content].
    apply update_last_snoc. by destruct H0 as [[? _]%stuck_true _]. }
  destruct (IH p1 m1 _ _ E1 H1) as (m' & Em & Es & Hm'). exists m'. cbn [lines_of map]. cbn [run fold_left].
  split_and!; [exact Em| |]. 
  - etransitivity; [exact Es|]. unfold p1. by rewrite (act_line config p i line r c).
  - cbn [reasoning_after]. destruct c as [c|]; cbn [default] in Hm' |- *; [exact Hm'|]. by rewrite app_nil_r in Hm' |- *.
Qed.

Lemma finalize_showing m C R :
  showing m C R →
  let m' := completed_message m in
  from m' = Assistant ∧ status m' = Some Complete ∧ content (getCurrentVersion m') = visibleContent (parseThinkTags C) ∧
  reasoning_content <$> reasoning m' =
    (if truthy R then Some R else if truthy (tag_reasoning (parseThinkTags C)) then Some (tag_reasoning (parseThinkTags C)) else None).
Proof.
  intros (Hs & HC & HR). apply stuck_true in Hs as [Hf Hs]. cbv zeta. unfold completed_message.
  rewrite !bool_decide_false by (destruct Hs; congruence). cbn [orb].
  unfold finalizeMessage. rewrite HC. split_and!; [exact Hf|done|done|].
  cbn [set_status with_reasoning reasoning]. unfold reasoning_text in HR. set (t := tag_reasoning _).
  assert (first_truthy [None; reasoning_content <$> reasoning m; Some t] = if truthy R then R else t) as ->.
  { destruct (reasoning m) as [r|]; cbn in HR |- *; subst R; unfold first_truthy; cbn; [|by destruct t].
    destruct (reasoning_content r); cbn; [by destruct t|done]. }
  destruct (truthy R) eqn:ER; [by rewrite ER|]. by destruct (truthy t).
Qed.
