(* ===== verification/ChatRuns.v ===== *)
(** * Runs of the playground page

    What the state machine of [ChatStream] guarantees along its runs: the invariant of
    every reachable page, that a reply settles, the text a streamed reply ends with, which
    events can still change a finished reply, and the runs in which the handlers do not
    do what they are meant to. *)

From S2P Require Import Prelude JsString JsNumber Json Messages ChatStream.

Definition ids0 : Ids := {| user_key := js "u0"; user_version := js "u0v"; reply_key := js "a0"; reply_version := js "a0v" |}.
Definition ids1 : Ids := {| user_key := js "u1"; user_version := js "u1v"; reply_key := js "a1"; reply_version := js "a1v" |}.

(** A page of an empty history. *)
Definition fresh_page : Playground := reload empty_page.

Lemma fresh_reachable config : reachable config false fresh_page.
Proof. apply (reach_load config []); [cbn; lia|constructor]. Qed.

(** C5: In streaming mode, on every page that loads a history with at most one unfinished reply and then goes through any sequence of sends, edits,
    deletions, stops, reloads and stream events the page and the event source allow, the history on disk is what is on screen, without attachments.  As long as no
    edit was submitted while a reply streamed in, which the page does not prevent, the page keeps the promise the input box relies on: while
    a source is open the last message is the only unfinished one, and otherwise no message is unfinished; so a reload at
    any moment repairs all of the history. *)
Theorem page_invariant (config : PlaygroundConfig) (overlapped : bool) (p : Playground)
  (Hstream : stream config = true) (Hp : reachable config overlapped p) :
  saved p = map without_attachments (messages p) ∧
  (overlapped = false →
     (isStreaming (stream_state p) = true →
        ∃ ms m, messages p = ms ++ [m] ∧ stuck m = true ∧ Forall (λ m, stuck m = false) ms) ∧
     (isStreaming (stream_state p) = false → Forall (λ m, stuck m = false) (messages p)) ∧
     Forall (λ m, stuck m = false) (messages (reload p))).
Proof.
  assert (Hz : ∀ ms, n_stuck ms = 0 → Forall (λ m, stuck m = false) ms).
  { intros ms H. apply Forall_lookup. intros j m Hj. by eapply n_stuck_zero. }
  split; [by eapply reachable_saved|]. intros ->. pose proof (reachable_ok config p Hstream Hp) as Hok. split_and!.
  - destruct Hok as (_ & _ & H). unfold isStreaming. destruct (sseSource _); [|done]. intros _.
    destruct H as (_ & _ & ms & m & E & Hn & Hm). exists ms, m. auto.
  - intros Hi. by apply Hz, idle_settled.
  - apply Hz. destruct (page_ok_saved p Hok) as [Hn Ha]. by apply (idle_settled (reload p)); [apply reload_ok|].
Qed.

Lemma page_invariant_witness :
  ∃ ms m, messages (act DEFAULT_CONFIG (Send (js "hi") [] ids0 true) fresh_page) = ms ++ [m] ∧ stuck m = true
          ∧ Forall (λ m, stuck m = false) ms.
Proof.
  assert (reachable DEFAULT_CONFIG false (act DEFAULT_CONFIG (Send (js "hi") [] ids0 true) fresh_page)) as Hr.
  { apply (reach_act DEFAULT_CONFIG false fresh_page (Send (js "hi") [] ids0 true)); [apply fresh_reachable|by constructor]. }
  exact (proj1 (proj2 (page_invariant DEFAULT_CONFIG false _ eq_refl Hr) eq_refl) eq_refl).
Defined.

(** The actions that end the reply of source [i]: the end mark, a data line that cannot be
    read, an error or an HTTP failure of the source, the stop button and a reload. *)
Definition ends (i : nat) (a : Action) : bool :=
  match a with
  | Stop | Reload => true
  | Sse j (EMessage d) => (j =? i) && (bool_decide (d = DONE) || match read_chunk d with None => true | _ => false end)
  | Sse j (EError r _) => (j =? i) && negb (r =? 2)%Z
  | Sse j (EReadyState (Some r) (Some c)) => (j =? i) && ((2 <=? r) && negb (c =? 200))%Z
  | _ => false
  end.

Lemma handleError_closes s ms i e c :
  isStreamComplete s = false → isStreaming (fst (handleError handleStreamError i e c (s, ms))) = false.
Proof. intros H. unfold handleError. by rewrite H. Qed.

Lemma isStreaming_on_state p f :
  isStreaming (stream_state (on_state p f)) = isStreaming (fst (f (stream_state p, messages p))).
Proof. unfold on_state. by destruct (f _). Qed.

Lemma ends_closes config p i a :
  page_ok p → sseSource (stream_state p) = Some i → ends i a = true →
  page_ok (act config a p) ∧ isStreaming (stream_state (act config a p)) = false.
Proof.
  intros Hok Hi Ha. pose proof Hok as (_ & _ & Hp). rewrite Hi in Hp. destruct Hp as (Hc & Hf & _).
  destruct a as [| | | | | |j e| |]; try done.
  { split; [by apply stop_ok|]. cbn [act stopGeneration show stream_state]. unfold stopStream. by rewrite Hi. }
  2: { split; [apply reload_ok; by apply page_ok_saved|done]. }
  assert (j = i) as ->. { destruct e as [d|r d|[r|] [c|]]; cbn [ends] in Ha; by repeat (apply andb_true_iff in Ha as [?%Nat.eqb_eq Ha]). }
  split; [apply dispatch_ok; auto|]. cbn [act]. rewrite isStreaming_on_state.
  destruct e as [d|r d|[r|] [c|]]; cbn [ends] in Ha; try done; apply andb_true_iff in Ha as [_ Ha]; cbn [dispatch].
  - unfold on_message. destruct (bool_decide (d = DONE)); [done|]. cbn [orb] in Ha.
    destruct (read_chunk d); [done|]. by apply handleError_closes.
  - unfold on_error. apply negb_true_iff in Ha. rewrite Ha. destruct (read_error d). by apply handleError_closes.
  - unfold on_readystatechange. rewrite Ha. by apply handleError_closes.
Qed.

Lemma lines_keep_page config p i lines :
  page_ok p → sseSource (stream_state p) = Some i →
  Forall (λ l, l ≠ DONE ∧ read_chunk l ≠ None) lines →
  page_ok (run config (lines_of i lines) p) ∧ sseSource (stream_state (run config (lines_of i lines) p)) = Some i.
Proof.
  revert p. induction lines as [|l lines IH]; intros p Hp Hi Hl; [done|].
  inversion Hl as [|? ? [Hd Hr] Hl']; subst. cbn [lines_of map run fold_left].
  apply IH; [|destruct (read_chunk l) as [[r c]|] eqn:E; [|done]; by rewrite (act_line config p i l r c)|done].
  apply dispatch_ok; auto.
Qed.

(** C6: A reply settles.  Whatever happened before, the stop button closes the current source, enables the input and leaves the last message finished.  As long
    as no edit was submitted while a reply streamed in, whatever chunks have arrived on an open source, the first ending action, which the
    page always offers ([Stop] and [Reload]) or the source delivers, closes the source, leaves no unfinished message at all and enables the input again. *)
Theorem generation_settles (config : PlaygroundConfig) (overlapped : bool) (p : Playground)
  (Hstream : stream config = true) (Hp : reachable config overlapped p) :
  (isStreaming (stream_state (act config Stop p)) = false ∧ (∀ ms m, messages (act config Stop p) = ms ++ [m] → stuck m = false)) ∧
  ∀ i lines a, overlapped = false → sseSource (stream_state p) = Some i → Forall (λ l, l ≠ DONE ∧ read_chunk l ≠ None) lines → ends i a = true →
    let p' := run config (lines_of i lines ++ [a]) p in
    isStreaming (stream_state p') = false ∧ Forall (λ m, stuck m = false) (messages p').
Proof.
  split.
  { cbn [act stopGeneration show stream_state messages]. split; [unfold stopStream, isStreaming; destruct (sseSource (stream_state p)) eqn:E; [done|by rewrite E]|].
    intros ms m E. destruct (update_last_cases (messages p) stopped_message) as [E'|(ms' & m' & _ & _ & E')]; rewrite E' in E.
    - rewrite E in E'. destruct (decide (from m = Assistant)) as [Hf|Hf]; [|unfold stuck; by rewrite bool_decide_false].
      rewrite update_last_snoc in E' by done. apply app_inj_tail in E' as [_ <-]. apply stopped_not_stuck.
    - apply app_inj_tail in E as [_ <-]. apply stopped_not_stuck. }
  intros i lines a -> Hopen Hlines Hend. pose proof (reachable_ok config p Hstream Hp) as Hok.
  destruct (lines_keep_page config p i lines Hok Hopen Hlines) as [Hok1 Hi1].
  cbv zeta. unfold run. rewrite fold_left_app. cbn [fold_left]. fold (run config (lines_of i lines) p).
  set (p1 := run config (lines_of i lines) p) in *. destruct (ends_closes config p1 i a Hok1 Hi1 Hend) as [Hok2 Hcl].
  split; [done|]. apply Forall_lookup. intros j m Hj. eapply n_stuck_zero; [|exact Hj]. by apply idle_settled.
Qed.

(** The data line of a chunk. *)
Definition chunk_json (r c : option str) : json :=
  let field k v := match v with Some s => [(js k, JStr s)] | None => [] end in
  JObj [(js "choices", JArr [JObj [(js "index", JNum (num_of_Z 0));
          (js "delta", JObj (field "reasoning_content" r ++ field "content" c))]])].

Definition chunk_line (r c : option str) : str := json_stringify (chunk_json r c).

Definition sent_page : Playground := act DEFAULT_CONFIG (Send (js "hi") [] ids0 true) fresh_page.

Lemma sent_reachable : reachable DEFAULT_CONFIG false sent_page.
Proof. apply (reach_act DEFAULT_CONFIG false fresh_page (Send (js "hi") [] ids0 true)); [apply fresh_reachable|by constructor]. Qed.

Lemma generation_settles_witness :
  let p' := run DEFAULT_CONFIG (lines_of 0 [chunk_line (Some (js "why")) None; chunk_line None (Some (js "ok"))]
                                ++ [Sse 0 (EMessage (js "oops"))]) sent_page in
  isStreaming (stream_state p') = false ∧ Forall (λ m, stuck m = false) (messages p').
Proof.
  assert (Forall (λ l, l ≠ DONE ∧ read_chunk l ≠ None) [chunk_line (Some (js "why")) None; chunk_line None (Some (js "ok"))]) as H.
  { repeat constructor; intros E; vm_compute in E; discriminate E. }
  exact (proj2 (generation_settles DEFAULT_CONFIG false sent_page eq_refl sent_reachable) 0 _ (Sse 0 (EMessage (js "oops"))) eq_refl eq_refl H
           ltac:(vm_compute; reflexivity)).
Defined.

(** C7: The reply the user ends up with is what the server sent: after a message is sent and the source
    delivers chunks, cut anywhere, and the end mark, the conversation is the old one, the
    user's message and one completed assistant message, and the input is enabled again.  Its content is what [parseThinkTags] leaves
    visible of the concatenated content deltas, all of it if there is no [<think>] tag.  Its reasoning is the concatenation of the
    reasoning deltas (none when that is empty) if the content has no tag, and what the tags hold if they hold something and no
    reasoning was reported beside them. *)
Theorem streamed_reply_exact (config : PlaygroundConfig) (p : Playground) (text : str)
  (atts : list PlaygroundAttachment) (ids : Ids) (lines : list str) (ds : list (option str * option str))
  (Hstream : stream config = true) (Hlines : Forall2 reads lines ds) :
  let i := created (stream_state p) in
  let p' := run config (Send text atts ids true :: lines_of i lines ++ [Sse i (EMessage DONE)]) p in
  let parsed := parseThinkTags (contents ds) in
  ∃ m, messages p' = messages p ++ [user_message text atts ids; m] ∧
       from m = Assistant ∧ status m = Some Complete ∧ isStreaming (stream_state p') = false ∧
       content (getCurrentVersion m) = visibleContent parsed ∧
       (includes OPEN_TAG (contents ds) = false →
          content (getCurrentVersion m) = contents ds ∧
          (reasoning_content <$> reasoning m) = (if truthy (reasonings ds) then Some (reasonings ds) else None)) ∧
       (Forall (λ d, fst d = None) ds → tag_reasoning parsed ≠ [] → (reasoning_content <$> reasoning m) = Some (tag_reasoning parsed)).
Proof.
  cbv zeta. cbn [run fold_left]. set (p1 := act config (Send text atts ids true) p).
  assert (messages p1 = (messages p ++ [user_message text atts ids]) ++ [loading ids]) as E1.
  { unfold p1. cbn [act]. unfold handleSendMessage, sendChat. rewrite Hstream. cbn. by rewrite <- app_assoc. }
  assert (showing (loading ids) [] []) as H0 by done.
  destruct (run_lines config p1 (created (stream_state p)) lines ds _ _ [] [] Hlines E1 H0) as (m & Em & Es & Hm).
  rewrite fold_left_app. cbn [fold_left]. fold (run config (lines_of (created (stream_state p)) lines) p1).
  set (p2 := run config (lines_of (created (stream_state p)) lines) p1) in *. cbn [app] in Hm.
  pose proof (finalize_showing m _ _ Hm) as (Hf & Hs & Hc & Hr).
  exists (completed_message m). cbn [act]. unfold on_state. cbn [dispatch]. unfold on_message.
  rewrite bool_decide_true by done. cbn [show messages stream_state]. split_and!; [|done..| |].
  - unfold handleStreamComplete. rewrite Em, update_last_snoc by by destruct Hm as [[? _]%stuck_true _].
    by rewrite <- app_assoc.
  - intros Hno. rewrite Hc, Hr, (reasoning_untagged [] [] ds), (untagged (contents ds)) by done. done.
  - intros Hd Ht. rewrite Hr, (reasoning_tagged [] [] ds) by (done || intros E; apply Ht; unfold contents; by rewrite E).
    cbn [app]. by destruct (tag_reasoning (parseThinkTags (contents ds))).
Qed.

Lemma streamed_reply_exact_witness :
  ∃ m, messages (run DEFAULT_CONFIG
         (Send (js "hi") [] ids0 true
          :: lines_of 0 [chunk_line (Some (js "why")) None; chunk_line None (Some (js "hel")); chunk_line None (Some (js "lo"))]
          ++ [Sse 0 (EMessage DONE)]) fresh_page)
       = messages fresh_page ++ [user_message (js "hi") [] ids0; m] ∧
       from m = Assistant ∧ status m = Some Complete ∧
       content (getCurrentVersion m) = js "hello" ∧ (reasoning_content <$> reasoning m) = Some (js "why") ∧ True.
Proof.
  assert (Forall2 reads
            [chunk_line (Some (js "why")) None; chunk_line None (Some (js "hel")); chunk_line None (Some (js "lo"))]
            [(Some (js "why"), None); (None, Some (js "hel")); (None, Some (js "lo"))]) as H.
  { repeat constructor; first [vm_compute; reflexivity|intros E; vm_compute in E; discriminate E]. }
  destruct (streamed_reply_exact DEFAULT_CONFIG fresh_page (js "hi") [] ids0 _ _ eq_refl H) as (m & H1 & H2 & H3 & _ & _ & H4 & _).
  destruct (H4 ltac:(vm_compute; reflexivity)) as [H5 H6]. exists m. exact (conj H1 (conj H2 (conj H3 (conj H5 (conj H6 I))))).
Defined.

(** ** Finished replies *)

Section finished.
Context (p : Playground) (i : nat) (ms : list Message) (m : Message).
Hypotheses (Hms : messages p = ms ++ [m]) (Hfrom : from m = Assistant).

Abbreviation handle e := (on_state p (dispatch handleStreamUpdate handleStreamComplete handleStreamError i e)).

Lemma errored_ignores_update t v :
  status m = Some Error_ → update_if handleStreamUpdate t v (ms ++ [m]) = ms ++ [m].
Proof.
  intros He. destruct v as [c|]; [|done]. cbn. unfold handleStreamUpdate. rewrite update_last_snoc by done.
  unfold updated_message. by rewrite bool_decide_true.
Qed.

Lemma errored_ignores_line d :
  status m = Some Error_ → d = DONE ∨ read_chunk d ≠ None → messages (handle (EMessage d)) = messages p.
Proof.
  intros He Hd. destruct (decide (d = DONE)) as [->|Hne].
  - unfold on_state. cbn [dispatch on_message]. rewrite bool_decide_true by done. cbn [show messages].
    unfold handleStreamComplete. rewrite Hms, update_last_snoc by done. unfold completed_message. by rewrite He.
  - destruct Hd as [Hd|Hd]; [done|]. destruct (read_chunk d) as [[r c]|] eqn:Er; [|done].
    pose proof (act_line DEFAULT_CONFIG p i d r c (conj Hne Er)) as E. cbn [act] in E. rewrite E.
    cbn [show messages]. by rewrite Hms, !errored_ignores_update.
Qed.

Lemma errored_stays_errored msg code :
  status m = Some Error_ →
  ∃ m', messages (on_state p (handleError handleStreamError i msg code)) = ms ++ [m'] ∧ status m' = Some Error_.
Proof.
  intros He. unfold on_state, handleError. destruct (isStreamComplete _); cbn [negb]; [by exists m|].
  rewrite Hms. destruct (error_update ms m msg code Hfrom) as (m' & E & _ & Hs & _). by exists m'.
Qed.

Lemma unreadable_line d :
  d ≠ DONE → read_chunk d = None → handle (EMessage d) = on_state p (handleError handleStreamError i PARSE_ERROR None).
Proof. intros Hd Hr. apply on_state_ext. cbn [dispatch]. unfold on_message. by rewrite bool_decide_false, Hr. Qed.

End finished.

Lemma completed_ignores_errors p i msg code :
  saved p = map without_attachments (messages p) → isStreamComplete (stream_state p) = true →
  on_state p (handleError handleStreamError i msg code) = p.
Proof. intros Hs Hc. unfold on_state, handleError. rewrite Hc. cbn [negb]. unfold show. rewrite <- Hs. by destruct p. Qed.

(** A failed reply stays failed, and a completed stream cannot fail any more: once the last
    message shows an error, no event changes its error status and no data line changes the conversation
    at all except an unreadable one; once the end mark was seen, no error, unreadable line or
    ready-state change has any effect. *)
Theorem finished_reply_stable (config : PlaygroundConfig) (p : Playground) (i : nat) (e : SseEvent)
  (ms : list Message) (m : Message)
  (Hms : messages p = ms ++ [m]) (Hfrom : from m = Assistant) (Hsaved : saved p = map without_attachments (messages p)) :
  let p' := act config (Sse i e) p in
  (status m = Some Error_ → ∃ m', messages p' = ms ++ [m'] ∧ status m' = Some Error_) ∧
  (∀ d, status m = Some Error_ → e = EMessage d → d = DONE ∨ read_chunk d ≠ None → messages p' = messages p) ∧
  (isStreamComplete (stream_state p) = true → (∀ d, e = EMessage d → d ≠ DONE ∧ read_chunk d = None) → p' = p).
Proof.
  cbv zeta. cbn [act]. split_and!.
  - intros He. destruct e as [d|r d|r c].
    2, 3: match goal with |- context [dispatch _ _ _ _ ?e] => destruct (dispatch_cases p i e) as [->|(msg & code & ->)] end;
        [done|by exists m|by apply (errored_stays_errored p i ms m)].
    assert (d = DONE ∨ read_chunk d ≠ None ∨ d ≠ DONE ∧ read_chunk d = None) as [Hd|[Hd|[Hd Hr]]].
    { destruct (decide (d = DONE)); [by left|]. destruct (read_chunk d); [right; left|right; right]; done. }
    1, 2: exists m; rewrite (errored_ignores_line p i ms m); auto.
    rewrite (unreadable_line p i) by done. by apply (errored_stays_errored p i ms m).
  - intros d He ->. by apply (errored_ignores_line p i ms m).
  - intros Hc He. destruct e as [d|r d|r c].
    { destruct (He d eq_refl). rewrite (unreadable_line p i) by done. by apply (completed_ignores_errors p i). }
    all: match goal with |- context [dispatch _ _ _ _ ?e] => destruct (dispatch_cases p i e) as [->|(msg & code & ->)] end;
        [done|unfold on_state, show; rewrite <- Hsaved; by destruct p|by apply (completed_ignores_errors p i)].
Qed.

Lemma finished_reply_stable_witness :
  act DEFAULT_CONFIG (Sse 0 (EError 1 (Some (js "late")))) (act DEFAULT_CONFIG (Sse 0 (EMessage DONE)) sent_page)
  = act DEFAULT_CONFIG (Sse 0 (EMessage DONE)) sent_page.
Proof.
  set (p := act DEFAULT_CONFIG (Sse 0 (EMessage DONE)) sent_page).
  assert (messages p = [user_message (js "hi") [] ids0] ++ [completed_message (loading ids0)]) as H by (vm_compute; reflexivity).
  exact (proj2 (proj2 (finished_reply_stable DEFAULT_CONFIG p 0 (EError 1 (Some (js "late"))) _ _ H
           ltac:(vm_compute; reflexivity) ltac:(vm_compute; reflexivity)))
           ltac:(vm_compute; reflexivity) (λ d Hd, ltac:(discriminate Hd))).
Defined.

(** ** Runs that do not do what they are meant to *)

(** The last message of the page: content and error code. *)
Definition shown (p : Playground) : option (str * option (option str)) :=
  (λ m, (content (getCurrentVersion m), errorCode m)) <$> last (messages p).

Lemma error_on_page p i msg code ms m :
  messages p = ms ++ [m] → from m = Assistant → isStreamComplete (stream_state p) = false →
  let p' := on_state p (handleError handleStreamError i msg code) in
  ∃ m', messages p' = ms ++ [m'] ∧ from m' = Assistant ∧ isStreamComplete (stream_state p') = false ∧
        shown p' = Some (API_REQUEST_ERROR ++ js ": " ++ msg,
                         Some (match code with Some c => if truthy c then Some c else None | None => None end)).
Proof.
  intros Hms Hf Hr. destruct (error_update ms m msg code Hf) as (m' & E & _ & _ & Hf' & Hc & He).
  exists m'. unfold on_state, handleError. rewrite Hr, Hms. cbn [negb]. unfold handleStreamError. rewrite E.
  split; [reflexivity|]. split; [exact Hf'|]. split; [exact Hr|]. unfold shown. cbn [show messages]. rewrite last_snoc.
  cbn [fmap option_fmap option_map]. rewrite Hc, He. reflexivity.
Qed.

(** An error is not latched: [handleError] leaves [isStreamComplete] false, so when the source
    first reports the server's answer (message and code) and then changes its ready state with the same
    HTTP failure, the server's message and code are overwritten by the generic text and the code is lost. *)
Theorem error_report_overwritten (p : Playground) (i : nat) (data : option str) (code : Z) (ms : list Message) (m : Message)
  (Hms : messages p = ms ++ [m]) (Hfrom : from m = Assistant) (Hrun : isStreamComplete (stream_state p) = false)
  (Hcode : code ≠ 200%Z) :
  let p1 := act DEFAULT_CONFIG (Sse i (EError 1 data)) p in
  let p2 := act DEFAULT_CONFIG (Sse i (EReadyState (Some 2%Z) (Some code))) p1 in
  shown p1 = Some (API_REQUEST_ERROR ++ js ": " ++ fst (read_error data),
                   Some (match snd (read_error data) with Some c => if truthy c then Some c else None | None => None end)) ∧
  shown p2 = Some (API_REQUEST_ERROR ++ js ": " ++ http_status_text code, Some None).
Proof.
  cbv zeta. cbn [act].
  assert (on_state p (dispatch handleStreamUpdate handleStreamComplete handleStreamError i (EError 1 data))
          = on_state p (handleError handleStreamError i (fst (read_error data)) (snd (read_error data)))) as ->.
  { apply on_state_ext. cbn [dispatch]. unfold on_error. cbn [Z.eqb]. by destruct (read_error data). }
  destruct (error_on_page p i (fst (read_error data)) (snd (read_error data)) ms m Hms Hfrom Hrun)
    as (m1 & E1 & Hf1 & Hr1 & Hs1). split; [exact Hs1|].
  set (p1 := on_state p _) in *.
  assert (on_state p1 (dispatch handleStreamUpdate handleStreamComplete handleStreamError i (EReadyState (Some 2%Z) (Some code)))
          = on_state p1 (handleError handleStreamError i (http_status_text code) None)) as ->.
  { apply on_state_ext. cbn [dispatch]. unfold on_readystatechange. by rewrite (proj2 (Z.eqb_neq code 200)). }
  destruct (error_on_page p1 i (http_status_text code) None ms m1 E1 Hf1 Hr1) as (m2 & _ & _ & _ & Hs2). exact Hs2.
Qed.

Lemma error_report_overwritten_witness :
  shown (run DEFAULT_CONFIG
           [Sse 0 (EError 1 (Some (json_stringify (JObj [(js "error", JObj [(js "message", JStr (js "quota exceeded"));
                                                               (js "code", JStr (js "quota"))])]))));
            Sse 0 (EReadyState (Some 2%Z) (Some 429%Z))] sent_page)
  = Some (js "Request error occurred: HTTP 429: Connection closed", Some None).
Proof.
  exact (proj2 (error_report_overwritten sent_page 0
    (Some (json_stringify (JObj [(js "error", JObj [(js "message", JStr (js "quota exceeded")); (js "code", JStr (js "quota"))])])))
    429 [user_message (js "hi") [] ids0] (loading ids0) eq_refl eq_refl eq_refl ltac:(discriminate))).
Defined.

(** Submitting an edit while a reply streams in ([applyEdit] and its button have no guard)
    opens a second source: chunks of the first then go into the second reply, and the end mark of
    the first hides every later failure of the second. *)
Theorem overlapping_streams_mix :
  let p1 := act DEFAULT_CONFIG (ApplyEdit (js "u0") (js "again") true ids1 true) sent_page in
  let p2 := act DEFAULT_CONFIG (Sse 0 (EMessage (chunk_line None (Some (js "old"))))) p1 in
  let p3 := run DEFAULT_CONFIG [Sse 0 (EMessage DONE); Sse 1 (EError 1 (Some (js "failed")))] p2 in
  map key (messages p1) = [js "u0"; js "a1"] ∧ sseSource (stream_state p1) = Some 1 ∧
  shown p2 = Some (js "old", None) ∧
  isStreaming (stream_state p3) = false ∧ shown p3 = Some (js "old", None) ∧ 1 ∉ closed (stream_state p3).
Proof.
  cbv zeta. split_and!; try (vm_compute; reflexivity).
  replace (closed _) with [0] by (vm_compute; reflexivity). rewrite list_elem_of_singleton. discriminate.
Qed.

(** Without streaming nothing marks the page as busy, and a reply is written into whatever message is
    last: sending twice before the first reply arrives puts the first reply into the second message;
    a reply without choices leaves the message loading. *)
Theorem plain_reply_lands_in_last :
  let config := {| model := js "m"; group := js "g"; temperature := num_of_Z 1; top_p := num_of_Z 1; max_tokens := num_of_Z 1;
                   frequency_penalty := num_of_Z 0; presence_penalty := num_of_Z 0; seed := None;
                   stream := false; web_search := false |} in
  let p1 := act config (Send (js "one") [] ids0 true) fresh_page in
  let p2 := run config [Send (js "two") [] ids1 true;
                        Reply (ReplyOk (Some {| choice_content := Some (js "answer to one"); choice_reasoning := None |}))] p1 in
  let p3 := act config (Reply (ReplyOk None)) p1 in
  isStreaming (stream_state p1) = false ∧
  map stuck (messages p2) = [false; true; false; false] ∧ shown p2 = Some (js "answer to one", None) ∧
  map stuck (messages p3) = [false; true].
Proof. cbv zeta. split_and!; vm_compute; reflexivity. Qed.
