(* ===== verification/ImageGeneration.v ===== *)
(** * Image generation in the playground ([web/default/src/features/playground/hooks/use-chat-handler.ts])

    Sending a prompt for an image, polling its task every three seconds for at most fifteen
    minutes, and what the reply shows in the end.

    The server's answers, the clock and the moments at which the user presses stop are given by a
    script; [toLowerCase] is a parameter. *)

From S2P Require Import Prelude JsString JsNumber Json Messages ChatStream.

(** ** Answers of the server *)

Record ImageGenerationData := {
  img_url : option str; b64_json : option str; revised_prompt : option str; data_task_id : option str }.

Inductive ImageData := NoData | OneItem (d : ImageGenerationData) | Items (l : list ImageGenerationData).

Record ImageGenerationResponse := {
  resp_id : option str; resp_task_id : option str; resp_status : option str; progress : option json;
  resp_message : option str; data : ImageData; resp_error_message : option str }.

(** An error as [getImageErrorMessage] and [getImageErrorCode] look at it. *)
Record ImageError := {
  err_name : option str; err_message : option str; err_data_message : option str;
  err_data_error_message : option str; err_data_error_code : option str }.

Definition js_error (message : str) : ImageError :=
  {| err_name := Some (js "Error"); err_message := Some message; err_data_message := None;
     err_data_error_message := None; err_data_error_code := None |}.

Definition abort_error : ImageError :=
  {| err_name := Some (js "AbortError"); err_message := Some INTERRUPTED; err_data_message := None;
     err_data_error_message := None; err_data_error_code := None |}.

(** ** Helpers *)

(** [a || b || ...], as an optional text *)
Fixpoint first_text (l : list (option str)) : option str :=
  match l with
  | [] => None
  | Some (c :: s) :: _ => Some (c :: s)
  | _ :: l' => first_text l'
  end.

Definition getImageErrorMessage (e : ImageError) : str :=
  if bool_decide (err_name e = Some (js "AbortError")) then INTERRUPTED
  else default API_REQUEST_ERROR (first_text [err_data_error_message e; err_data_message e; err_message e]).

Definition getImageErrorCode (e : ImageError) : option str := first_text [err_data_error_code e].

Definition getImageResponseItems (r : ImageGenerationResponse) : list ImageGenerationData :=
  match data r with NoData => [] | OneItem d => [d] | Items l => l end.

Definition given (o : option str) : bool := match o with Some s => truthy s | None => false end.

Definition pickImageData (r : ImageGenerationResponse) : option ImageGenerationData :=
  find (λ d, given (img_url d) || given (b64_json d)) (getImageResponseItems r).

Definition pickTaskId (r : ImageGenerationResponse) : str :=
  default [] (first_text [find (λ d, given (data_task_id d)) (getImageResponseItems r) ≫= data_task_id;
                          resp_task_id r; resp_id r]).

Definition two_lines : str := [10%N; 10%N].

Definition buildImageMarkdown (item : ImageGenerationData) (r : ImageGenerationResponse) : str :=
  let src := default (js "data:image/png;base64," ++ default [] (b64_json item)) (first_text [img_url item]) in
  let revisedPrompt := trim (default [] (revised_prompt item)) in
  let st := trim (default [] (resp_status r)) in
  let prefix := if truthy revisedPrompt
                then js "生成完成。" ++ two_lines ++ js "> " ++ revisedPrompt ++ two_lines
                else js "生成完成。" ++ two_lines in
  let suffix := if truthy st && negb (bool_decide (st = js "succeeded")) then two_lines ++ js "状态：" ++ st else [] in
  prefix ++ js "![生成图片](" ++ src ++ js ")" ++ suffix.

Definition status_message (text : str) (m : Message) : Message :=
  set_status (updateCurrentVersionContent m text) Streaming.

Definition updateImageStatus (text : str) (ms : list Message) : list Message :=
  updateLastAssistantMessage ms (status_message text).

Definition final_message (text : str) (m : Message) : Message :=
  set_status (finalizeMessage (updateCurrentVersionContent m text) None) Complete.

Definition completeImageMessage (text : str) (ms : list Message) : list Message :=
  updateLastAssistantMessage ms (final_message text).

(** What [stopGeneration] does to the reply. *)
Definition stop_reply (ms : list Message) : list Message := updateLastAssistantMessage ms stopped_message.

(** ** Polling *)

Inductive Answer := Response (r : ImageGenerationResponse) | Rejected (e : ImageError).

(** One turn of the loop: the clock at its head, whether the user presses stop before the
    head or while the request is under way, and the answer. *)
Record Poll := { now : Z; stop_before : bool; stop_during : bool; answer : Answer }.

Definition SUCCESS : list str := [js "succeeded"; js "completed"; js "success"].
Definition FAILURE : list str := [js "failed"; js "error"; js "cancelled"; js "canceled"].

Section poll.
Context (toLowerCase : str → str).

Definition status_of (r : ImageGenerationResponse) : str := toLowerCase (default [] (resp_status r)).

(** [`${status}${progress}`] *)
Definition progress_text (r : ImageGenerationResponse) : str :=
  status_of r ++ match truthy_text (progress r) with Some p => js " " ++ p | None => [] end.

Inductive Turn := Return_ (r : ImageGenerationResponse) | Raise (e : ImageError) | Again (lastStatus : str).

(** The body of the loop after the answer; the reply is updated when the status is new. *)
Definition after_response (r : ImageGenerationResponse) (lastStatus : str) (ms : list Message) : Turn * list Message :=
  let new := truthy (status_of r) && negb (bool_decide (progress_text r = lastStatus)) in
  let lastStatus' := if new then progress_text r else lastStatus in
  let ms' := if new then updateImageStatus (js "图片生成中... " ++ progress_text r) ms else ms in
  (match pickImageData r with
   | Some _ => Return_ r
   | None =>
       if bool_decide (status_of r ∈ SUCCESS) then Return_ r
       else if bool_decide (status_of r ∈ FAILURE)
       then Raise (js_error (default (js "图片生成失败") (first_text [resp_error_message r; resp_message r])))
       else Again lastStatus'
   end, ms').

Definition TIMEOUT_MS : Z := 900000.
Definition TIMEOUT_ERROR : ImageError := js_error (js "图片生成超时，请稍后在任务记录中查看结果").

(** The loop of [waitForImageTask]; [None] only when the fuel runs out. *)
Fixpoint waitForImageTask (fuel : nat) (polls : nat → Poll) (i : nat) (startedAt : Z) (lastStatus : str)
    (aborted : bool) (ms : list Message) : option ((ImageGenerationResponse + ImageError) * list Message) :=
  match fuel with
  | O => None
  | S fuel' =>
      let p := polls i in
      let aborted1 := aborted || stop_before p in
      let ms1 := if stop_before p then stop_reply ms else ms in
      if negb (now p - startedAt <? TIMEOUT_MS)%Z then Some (inr TIMEOUT_ERROR, ms1)
      else if aborted1 then Some (inr abort_error, ms1)
      else
        let ms2 := if stop_during p then stop_reply ms1 else ms1 in
        match answer p with
        | Rejected e => Some (inr e, ms2)
        | Response r =>
            match after_response r lastStatus ms2 with
            | (Return_ r', ms3) => Some (inl r', ms3)
            | (Raise e, ms3) => Some (inr e, ms3)
            | (Again lastStatus', ms3) => waitForImageTask fuel' polls (S i) startedAt lastStatus' (stop_during p) ms3
            end
        end
  end.

(** ** Sending *)

Record ImageGenerationRequest := {
  req_model : str; req_group : str; req_prompt : str; req_size : str; req_resolution : str; req_n : Z }.

Definition imageGenerationModel (config : PlaygroundConfig) : str :=
  if includes (js "image") (toLowerCase (model config)) || includes (js "dall-e") (toLowerCase (model config))
  then model config else js "gpt-image-2".

Definition image_prompt (ms : list Message) : str :=
  match find (λ m, bool_decide (from m = User)) (rev ms) with
  | Some m => trim (content (getCurrentVersion m))
  | None => []
  end.

Definition image_request (config : PlaygroundConfig) (prompt : str) : ImageGenerationRequest :=
  {| req_model := imageGenerationModel config; req_group := group config; req_prompt := prompt;
     req_size := js "16:9"; req_resolution := js "1k"; req_n := 1 |}.

(** What a call leaves behind: the conversation, the toast and whether an image is still awaited. *)
Record ImageResult := { img_messages : list Message; toast : option str; isImageGenerating : bool }.

(** The [catch] and [finally] blocks. *)
Definition image_failed (e : ImageError) (ms : list Message) : ImageResult :=
  let message := getImageErrorMessage e in
  if bool_decide (message = INTERRUPTED)
  then {| img_messages := completeImageMessage (js "已停止生成图片。") ms; toast := None; isImageGenerating := false |}
  else {| img_messages := updateAssistantMessageWithError ms message (getImageErrorCode e);
          toast := Some message; isImageGenerating := false |}.

Definition image_done (r : ImageGenerationResponse) (ms : list Message) : ImageResult :=
  match pickImageData r with
  | Some item =>
      {| img_messages := completeImageMessage (buildImageMarkdown item r) ms; toast := None; isImageGenerating := false |}
  | None =>
      image_failed (js_error (default (js "图片生成完成，但没有返回图片地址") (first_text [resp_message r]))) ms
  end.

(** [post] is the server's answer to a request; [stopped] says whether stop is pressed while it
    is awaited, [startedAt] is the clock when polling starts; [generating] is the flag before the call. *)
Definition sendImage (fuel : nat) (post : ImageGenerationRequest → Answer) (stopped : bool) (startedAt : Z)
    (polls : nat → Poll) (config : PlaygroundConfig) (generating : bool) (ms : list Message) : option ImageResult :=
  let prompt := image_prompt ms in
  if negb (truthy prompt)
  then let message := js "请输入图片描述" in
       Some {| img_messages := updateAssistantMessageWithError ms message None; toast := Some message;
               isImageGenerating := generating |}
  else
    let ms1 := updateImageStatus (js "图片生成中...") ms in
    let ms2 := if stopped then stop_reply ms1 else ms1 in
    match post (image_request config prompt) with
    | Rejected e => Some (image_failed e ms2)
    | Response r =>
        if negb (bool_decide (is_Some (pickImageData r))) && truthy (pickTaskId r)
        then
          let ms3 := updateImageStatus (js "图片任务已提交，正在生成中...") ms2 in
          match waitForImageTask fuel polls 0 startedAt [] stopped ms3 with
          | Some (inl final, ms4) => Some (image_done final ms4)
          | Some (inr e, ms4) => Some (image_failed e ms4)
          | None => None
          end
        else Some (image_done r ms2)
    end.

End poll.

(** ** The reply is the only message that changes *)

Section settle.
Context (toLowerCase : str → str) (ms0 : list Message).

(** The conversation before the reply, and the reply. *)
Definition reply_in (ms : list Message) : Prop := ∃ m, ms = ms0 ++ [m] ∧ from m = Assistant.

Lemma update_reply ms f : (∀ m, from (f m) = from m) → reply_in ms → reply_in (updateLastAssistantMessage ms f).
Proof. intros Hf (m & -> & Hm). exists (f m). by rewrite update_last_snoc, Hf. Qed.

Lemma stop_reply_in ms : reply_in ms → reply_in (stop_reply ms).
Proof. apply update_reply. intros m. unfold stopped_message. by destruct (_ || _). Qed.

Lemma status_reply_in text ms : reply_in ms → reply_in (updateImageStatus text ms).
Proof. by apply update_reply. Qed.

Lemma after_response_in r last ms turn ms' :
  after_response toLowerCase r last ms = (turn, ms') → reply_in ms → reply_in ms'.
Proof.
  unfold after_response. cbv zeta. intros [= _ <-] H. destruct (_ && _); [by apply status_reply_in|done].
Qed.

(** The loop ends: its clock advances by three seconds a turn, so it is left at turn 300 at the latest. *)
Lemma wait_returns fuel polls i startedAt last aborted ms :
  (∀ j, startedAt + 3000 * Z.of_nat j ≤ now (polls j))%Z → i ≤ 300 → 300 < i + fuel → reply_in ms →
  ∃ res ms', waitForImageTask toLowerCase fuel polls i startedAt last aborted ms = Some (res, ms') ∧ reply_in ms'.
Proof.
  intros Hclock. revert i last aborted ms. induction fuel as [|f IH]; intros i last aborted ms Hi Hf Hms; [lia|].
  cbn [waitForImageTask]. cbv zeta. set (ms1 := if stop_before (polls i) then stop_reply ms else ms).
  assert (reply_in ms1) as H1 by (unfold ms1; destruct (stop_before _); [by apply stop_reply_in|done]).
  destruct (Z.ltb_spec (now (polls i) - startedAt) TIMEOUT_MS) as [Hlt|Hge]; cbn [negb]; [|by eauto].
  destruct (aborted || stop_before (polls i)); [by eauto|].
  set (ms2 := if stop_during (polls i) then stop_reply ms1 else ms1).
  assert (reply_in ms2) as H2 by (unfold ms2; destruct (stop_during _); [by apply stop_reply_in|done]).
  destruct (answer (polls i)) as [r|e]; [|by eauto].
  destruct (after_response toLowerCase r last ms2) as [turn ms3] eqn:E.
  pose proof (after_response_in _ _ _ _ _ E H2) as H3. destruct turn as [r'|e|last']; [by eauto|by eauto|].
  specialize (Hclock i). unfold TIMEOUT_MS in Hlt. apply IH; [lia|lia|done].
Qed.

(** What the reply is at the end. *)
Definition settled (res : ImageResult) : Prop :=
  ∃ m, img_messages res = ms0 ++ [m] ∧ stuck m = false ∧
       (toast res = None ∧ status m = Some Complete ∨ is_Some (toast res) ∧ status m = Some Error_).

Lemma complete_settled text ms t : reply_in ms →
  settled {| img_messages := completeImageMessage text ms; toast := None; isImageGenerating := t |}.
Proof.
  intros (m & -> & Hm). exists (final_message text m). unfold completeImageMessage. rewrite update_last_snoc by done.
  split_and!; [done|apply andb_false_r|by left].
Qed.

Lemma error_settled message code ms t : reply_in ms →
  settled {| img_messages := updateAssistantMessageWithError ms message code; toast := Some message; isImageGenerating := t |}.
Proof.
  intros (m & -> & Hm). destruct (error_update ms0 m message code Hm) as (m' & -> & Hs & He & _).
  exists m'. split_and!; [done|done|right; split; [by eexists|done]].
Qed.

Lemma failed_settled e ms : reply_in ms → settled (image_failed e ms) ∧ isImageGenerating (image_failed e ms) = false.
Proof.
  intros H. unfold image_failed. cbv zeta.
  case_bool_decide; (split; [|done]); [by apply complete_settled|by apply error_settled].
Qed.

Lemma done_settled r ms : reply_in ms → settled (image_done r ms) ∧ isImageGenerating (image_done r ms) = false.
Proof.
  intros H. unfold image_done. destruct (pickImageData r); [split; [by apply complete_settled|done]|by apply failed_settled].
Qed.

End settle.

(** C35: Asking for an image ends: whatever the server answers and whenever the user presses stop,
    as long as the three seconds between two polls pass, the call returns after at most 300
    polls; the reply is then finished, complete without a toast or failed with one, the messages before it are
    untouched, and the input is enabled again. *)
Theorem image_generation_settles (toLowerCase : str → str) (post : ImageGenerationRequest → Answer) (stopped : bool)
  (startedAt : Z) (polls : nat → Poll) (config : PlaygroundConfig) (ms : list Message) (m : Message)
  (Hclock : ∀ j, (startedAt + 3000 * Z.of_nat j ≤ now (polls j))%Z) (Hreply : from m = Assistant) :
  ∃ res, sendImage toLowerCase 301 post stopped startedAt polls config false (ms ++ [m]) = Some res ∧
         isImageGenerating res = false ∧
         ∃ m', img_messages res = ms ++ [m'] ∧ stuck m' = false ∧
               (toast res = None ∧ status m' = Some Complete ∨ is_Some (toast res) ∧ status m' = Some Error_).
Proof.
  assert (∀ res, settled ms res ∧ isImageGenerating res = false → ∃ res', Some res = Some res' ∧
    isImageGenerating res' = false ∧ settled ms res') as Hfin by (intros res [H1 H2]; by exists res).
  assert (reply_in ms (ms ++ [m])) as H0 by (by exists m).
  unfold sendImage. cbv zeta. destruct (truthy (image_prompt (ms ++ [m]))) eqn:Ep; cbn [negb];
    [|apply Hfin; split; [by apply error_settled|done]].
  set (ms2 := if stopped then _ else _).
  assert (reply_in ms ms2) as H2.
  { unfold ms2. destruct stopped; [apply stop_reply_in|]; by apply status_reply_in. }
  destruct (post _) as [r|e]; [|apply Hfin; by apply failed_settled].
  destruct (_ && _); [|apply Hfin; by apply done_settled].
  destruct (wait_returns toLowerCase ms 301 polls 0 startedAt [] stopped
              (updateImageStatus (js "图片任务已提交，正在生成中...") ms2)) as (out & ms4 & -> & H4);
    [done|lia|lia|by apply status_reply_in|].
  destruct out as [final|e]; apply Hfin; [by apply done_settled|by apply failed_settled].
Qed.

(** ** The image that is shown *)

(** A turn that only waits: nobody presses stop, the time is not up and the task is under way. *)
Definition waits (toLowerCase : str → str) (startedAt : Z) (p : Poll) : Prop :=
  (now p - startedAt < TIMEOUT_MS)%Z ∧ stop_before p = false ∧ stop_during p = false ∧
  ∃ r, answer p = Response r ∧ pickImageData r = None ∧ status_of toLowerCase r ∉ SUCCESS ∧
       status_of toLowerCase r ∉ FAILURE.

(** A turn that brings the image. *)
Definition brings (startedAt : Z) (p : Poll) (r : ImageGenerationResponse) (item : ImageGenerationData) : Prop :=
  (now p - startedAt < TIMEOUT_MS)%Z ∧ stop_before p = false ∧ stop_during p = false ∧
  answer p = Response r ∧ pickImageData r = Some item.

Lemma wait_brings toLowerCase ms0 n polls i startedAt last ms r item fuel :
  (∀ j, i ≤ j < i + n → waits toLowerCase startedAt (polls j)) → brings startedAt (polls (i + n)) r item → n < fuel →
  reply_in ms0 ms →
  ∃ ms', waitForImageTask toLowerCase fuel polls i startedAt last false ms = Some (inl r, ms') ∧ reply_in ms0 ms'.
Proof.
  revert i last ms fuel. induction n as [|n IH]; intros i last ms fuel Hw Hb Hf Hms; (destruct fuel as [|fuel]; [lia|]);
    cbn [waitForImageTask]; cbv zeta.
  - rewrite Nat.add_0_r in Hb. destruct Hb as (Ht & Hb & Hd & Ha & Hp). rewrite Hb, Hd, Ha.
    rewrite (proj2 (Z.ltb_lt _ _) Ht). cbn [negb orb].
    destruct (after_response toLowerCase r last ms) as [turn ms'] eqn:E.
    pose proof (after_response_in _ _ _ _ _ _ _ E Hms) as H. unfold after_response in E. cbv zeta in E. rewrite Hp in E.
    injection E as <- <-. by eauto.
  - destruct (Hw i ltac:(lia)) as (Ht & Hb0 & Hd & q & Ha & Hp & Hs & Hfl). rewrite Hb0, Hd, Ha.
    rewrite (proj2 (Z.ltb_lt _ _) Ht). cbn [negb orb].
    destruct (after_response toLowerCase q last ms) as [turn ms'] eqn:E.
    pose proof (after_response_in _ _ _ _ _ _ _ E Hms) as H. unfold after_response in E. cbv zeta in E.
    rewrite Hp, !bool_decide_false in E by done. injection E as <- <-.
    apply IH; [|by rewrite Nat.add_succ_comm|lia|done]. intros j Hj. apply Hw. lia.
Qed.

Lemma final_message_content text m :
  content (getCurrentVersion (final_message text m)) = visibleContent (parseThinkTags text).
Proof. reflexivity. Qed.

(** The image a task produces is shown: when the server accepts the task and the image comes with
    the poll after [n] polls that only report progress, the reply is complete, shows the
    markdown of that image and nobody sees an error, whatever was reported in between. *)
Theorem finished_task_shows_image (toLowerCase : str → str) (post : ImageGenerationRequest → Answer) (startedAt : Z)
  (polls : nat → Poll) (config : PlaygroundConfig) (ms : list Message) (m : Message) (n fuel : nat)
  (r0 r : ImageGenerationResponse) (item : ImageGenerationData)
  (Hreply : from m = Assistant) (Hprompt : image_prompt (ms ++ [m]) ≠ [])
  (Hpost : post (image_request toLowerCase config (image_prompt (ms ++ [m]))) = Response r0)
  (Htask : pickImageData r0 = None ∧ pickTaskId r0 ≠ [])
  (Hwait : ∀ j, j < n → waits toLowerCase startedAt (polls j)) (Hlast : brings startedAt (polls n) r item)
  (Hfuel : n < fuel) :
  ∃ res m', sendImage toLowerCase fuel post false startedAt polls config false (ms ++ [m]) = Some res ∧
            toast res = None ∧ img_messages res = ms ++ [m'] ∧ status m' = Some Complete ∧
            content (getCurrentVersion m') = visibleContent (parseThinkTags (buildImageMarkdown item r)).
Proof.
  unfold sendImage. cbv zeta. rewrite Hpost. destruct Htask as [Hnone Hid]. rewrite Hnone.
  assert (truthy (image_prompt (ms ++ [m])) = true) as -> by (by destruct (image_prompt _)).
  assert (truthy (pickTaskId r0) = true) as -> by (by destruct (pickTaskId r0)).
  rewrite bool_decide_false by (by intros [? ?]). cbn [negb andb].
  destruct (wait_brings toLowerCase ms n polls 0 startedAt [] (updateImageStatus (js "图片任务已提交，正在生成中...")
              (updateImageStatus (js "图片生成中...") (ms ++ [m]))) r item fuel) as (ms' & -> & m1 & -> & Hm1).
  - intros j Hj. apply Hwait. lia.
  - exact Hlast.
  - exact Hfuel.
  - do 2 apply status_reply_in. by exists m.
  - unfold image_done. rewrite (proj2 (proj2 (proj2 (proj2 Hlast)))). eexists _, (final_message _ m1).
    split; [reflexivity|]. unfold completeImageMessage. cbn [toast img_messages]. rewrite update_last_snoc by done.
    split_and!; [done|done|done|apply final_message_content].
Qed.

(** ** Examples *)

Definition ascii_lower (s : str) : str := map (λ c, if (65 <=? c)%N && (c <=? 90)%N then (c + 32)%N else c) s.

Definition plain_response : ImageGenerationResponse :=
  {| resp_id := None; resp_task_id := Some (js "task-1"); resp_status := Some (js "RUNNING"); progress := Some (JStr (js "40%"));
     resp_message := None; data := NoData; resp_error_message := None |}.

Definition sample_item : ImageGenerationData :=
  {| img_url := Some (js "https://x/y.png"); b64_json := None; revised_prompt := None; data_task_id := None |}.

Definition image_response : ImageGenerationResponse :=
  {| resp_id := None; resp_task_id := None; resp_status := Some (js "succeeded"); progress := None; resp_message := None;
     data := Items [sample_item]; resp_error_message := None |}.

(** A server that reports progress at the first poll and has the image at the second. *)
Definition sample_polls (i : nat) : Poll :=
  {| now := 3000 * Z.of_nat i; stop_before := false; stop_during := false;
     answer := Response (if i =? 0 then plain_response else image_response) |}.

Definition ids_img : Ids := {| user_key := js "u"; user_version := js "uv"; reply_key := js "a"; reply_version := js "av" |}.
Definition asked : list Message := [user_message (js "a red cube") [] ids_img].

Lemma image_generation_settles_witness :
  (∀ j, (0 + 3000 * Z.of_nat j ≤ now (sample_polls j))%Z) ∧
  ∃ res, sendImage ascii_lower 301 (λ _, Response plain_response) true 0 sample_polls DEFAULT_CONFIG false
           (asked ++ [loading ids_img]) = Some res ∧ isImageGenerating res = false.
Proof.
  assert (∀ j, (0 + 3000 * Z.of_nat j ≤ now (sample_polls j))%Z) as H by (intros j; cbn [now sample_polls]; lia).
  split; [exact H|].
  destruct (image_generation_settles ascii_lower (λ _, Response plain_response) true 0 sample_polls DEFAULT_CONFIG
              asked (loading ids_img) H eq_refl) as (res & Hr & Hg & _).
  exists res. split; [exact Hr|exact Hg].
Defined.

Lemma finished_task_shows_image_witness :
  ∃ res m', sendImage ascii_lower 301 (λ _, Response plain_response) false 0 sample_polls DEFAULT_CONFIG false
              (asked ++ [loading ids_img]) = Some res ∧ img_messages res = asked ++ [m'] ∧
            content (getCurrentVersion m') =
            visibleContent (parseThinkTags (js "生成完成。" ++ two_lines ++ js "![生成图片](https://x/y.png)")).
Proof.
  assert (∀ j, j < 1 → waits ascii_lower 0 (sample_polls j)) as Hw.
  { intros j Hj. assert (j = 0) as -> by lia. split; [vm_compute; reflexivity|]. split; [reflexivity|]. split; [reflexivity|].
    exists plain_response. split; [reflexivity|]. split; [reflexivity|].
    split; apply (bool_decide_unpack (_ ∉ _)); vm_compute; exact I. }
  assert (brings 0 (sample_polls 1) image_response sample_item) as Hb by (split_and!; vm_compute; reflexivity).
  assert (image_prompt (asked ++ [loading ids_img]) ≠ []) as Hp by (vm_compute; discriminate).
  assert (pickImageData plain_response = None ∧ pickTaskId plain_response ≠ []) as Ht by (split; vm_compute; [reflexivity|discriminate]).
  destruct (finished_task_shows_image ascii_lower (λ _, Response plain_response) 0 sample_polls DEFAULT_CONFIG asked
              (loading ids_img) 1 301 plain_response image_response sample_item eq_refl Hp eq_refl Ht Hw Hb ltac:(lia))
    as (res & m' & Hr & _ & Hm & _ & Hc).
  exists res, m'. split; [exact Hr|]. split; [exact Hm|]. rewrite Hc. reflexivity.
Defined.

(** The error axios rejects an aborted request with. *)
Definition canceled_error : ImageError :=
  {| err_name := Some (js "CanceledError"); err_message := Some (js "canceled"); err_data_message := None;
     err_data_error_message := None; err_data_error_code := None |}.

(** Stop is recognised only between two requests: [getImageErrorMessage] tests for the name
    AbortError, which [waitForImageTask] throws at the head of a turn, but a request that is aborted
    while it is under way is rejected by axios with a CanceledError, and the reply the user has stopped
    is turned into a failed one with an error toast. *)
Theorem stop_during_request_reports_error :
  let go polls := sendImage ascii_lower 301 (λ _, Response plain_response) false 0 polls DEFAULT_CONFIG false
                    (asked ++ [loading ids_img]) in
  let last_status (o : option ImageResult) := o ≫= (λ r, last (img_messages r) ≫= status) in
  let between i := {| now := 3000 * Z.of_nat i; stop_before := i =? 1; stop_during := false; answer := Response plain_response |} in
  let during i := {| now := 3000 * Z.of_nat i; stop_before := false; stop_during := i =? 1;
                     answer := if i =? 1 then Rejected canceled_error else Response plain_response |} in
  last_status (go between) = Some Complete ∧ (go between ≫= toast) = None ∧
  last_status (go during) = Some Error_ ∧ (go during ≫= toast) = Some (js "canceled").
Proof. cbv zeta. split_and!; vm_compute; reflexivity. Qed.
