(* ===== verification/StatusCodeRiskGuard.v ===== *)
(** * Status code mapping checks ([web/default/src/features/channels/lib/status-code-risk-guard.ts])

    A channel's status code mapping is a JSON object of codes.  The checks list
    the entries that are not code mappings, and the redirects of timeout codes
    that must not be redirected, also relative to what was saved before. *)

From S2P Require Import Prelude JsString JsNumber Json.

Definition NON_REDIRECTABLE_STATUS_CODES : list Z := [504; 524]%Z.

(** /^[1-5]\d{2}$/ *)
Definition is_code_text (s : str) : bool :=
  match s with
  | [a; b; c] => ((49 <=? a) && (a <=? 53))%N && is_digit b && is_digit c
  | _ => false
  end.

Definition parseStatusCodeKey (rawKey : str) : option Z :=
  let normalized := trim rawKey in
  if negb (is_code_text normalized) then None else Some (Z.of_N (dec_val normalized)).

Definition in_code_range (z : Z) : bool := ((100 <=? z) && (z <=? 599))%Z.

Definition parseStatusCodeMappingTarget (rawValue : json) : option Z :=
  match rawValue with
  | JNum x =>
      match integer_of x with
      | Some z => if in_code_range z then Some z else None
      | None => None
      end
  | JStr s =>
      let normalized := trim s in
      if negb (is_code_text normalized) then None
      else let code := Z.of_N (dec_val normalized) in if in_code_range code then Some code else None
  | _ => None
  end.

(** The common guard: the mapping's entries, or nothing to check. *)
Definition mapping_entries (statusCodeMappingStr : str) : obj :=
  if negb (truthy (trim statusCodeMappingStr)) then [] else default [] (parse_object statusCodeMappingStr).

Definition collectInvalidStatusCodeEntries (statusCodeMappingStr : str) : list str :=
  omap (λ kv, match parseStatusCodeKey (fst kv), parseStatusCodeMappingTarget (snd kv) with
              | Some _, Some _ => None
              | _, _ => Some (fst kv ++ js " → " ++ json_to_string (snd kv))
              end) (mapping_entries statusCodeMappingStr).

(** The mapping line of an entry that redirects a protected code. *)
Definition risky_redirect (kv : str * json) : option str :=
  match parseStatusCodeKey (fst kv), parseStatusCodeMappingTarget (snd kv) with
  | Some fromCode, Some toCode =>
      if negb (bool_decide (fromCode ∈ NON_REDIRECTABLE_STATUS_CODES)) then None
      else if bool_decide (fromCode = toCode) then None
      else Some (Z_dec fromCode ++ js " -> " ++ Z_dec toCode)
  | _, _ => None
  end.

Definition collectDisallowedStatusCodeRedirects (statusCodeMappingStr : str) : list str :=
  array_sort str_cmp (array_of_set (omap risky_redirect (mapping_entries statusCodeMappingStr))).

Definition collectNewDisallowedStatusCodeRedirects (originalStr currentStr : str) : list str :=
  let currentRisky := collectDisallowedStatusCodeRedirects currentStr in
  match currentRisky with
  | [] => []
  | _ =>
      let originalRiskySet := array_of_set (collectDisallowedStatusCodeRedirects originalStr) in
      List.filter (λ mapping, negb (set_has mapping originalRiskySet)) currentRisky
  end.

(** ** What the checks report *)

(** The pairs of codes a mapping redirects although it must not. *)
Definition redirects (s : str) (from to : Z) : Prop :=
  ∃ k v, (k, v) ∈ mapping_entries s ∧ parseStatusCodeKey k = Some from
         ∧ parseStatusCodeMappingTarget v = Some to
         ∧ from ∈ NON_REDIRECTABLE_STATUS_CODES ∧ from ≠ to.

Definition redirect_line (from to : Z) : str := Z_dec from ++ js " -> " ++ Z_dec to.

Lemma risky_redirect_spec kv line :
  risky_redirect kv = Some line ↔
  ∃ from to, parseStatusCodeKey (fst kv) = Some from ∧ parseStatusCodeMappingTarget (snd kv) = Some to
             ∧ from ∈ NON_REDIRECTABLE_STATUS_CODES ∧ from ≠ to ∧ line = redirect_line from to.
Proof.
  unfold risky_redirect, redirect_line. destruct (parseStatusCodeKey (fst kv)) as [f|]; [|naive_solver].
  destruct (parseStatusCodeMappingTarget (snd kv)) as [t|]; [|naive_solver].
  case_bool_decide; simpl; [|naive_solver]. case_bool_decide; naive_solver.
Qed.

Lemma elem_of_disallowed s line :
  line ∈ collectDisallowedStatusCodeRedirects s ↔ ∃ from to, redirects s from to ∧ line = redirect_line from to.
Proof.
  unfold collectDisallowedStatusCodeRedirects. rewrite elem_of_array_sort, elem_of_array_of_set, list_elem_of_omap.
  unfold redirects. split.
  - intros ([k v] & Hin & (f & t & H1 & H2 & H3 & H4 & ->)%risky_redirect_spec). naive_solver.
  - intros (f & t & (k & v & Hin & H1 & H2 & H3 & H4) & ->). exists (k, v). split; [done|].
    apply risky_redirect_spec. naive_solver.
Qed.

Lemma target_in_range v to : parseStatusCodeMappingTarget v = Some to → (100 ≤ to ≤ 599)%Z.
Proof.
  unfold parseStatusCodeMappingTarget, in_code_range. intros H.
  destruct v; try done; [destruct (integer_of x) as [z|]; [|done]|destruct (is_code_text (trim s)); [|done]];
    simpl in H; destruct ((100 <=? _) && _)%Z eqn:E; simplify_eq; lia.
Qed.

Lemma N_dec_prefix_free a b u v :
  N_dec a ++ 32%N :: u = N_dec b ++ 32%N :: v → a = b ∧ u = v.
Proof.
  assert (G : ∀ (x y : str), Forall (λ c, is_digit c = true) x → Forall (λ c, is_digit c = true) y →
    x ++ 32%N :: u = y ++ 32%N :: v → x = y ∧ u = v).
  { clear. induction x as [|c x IH]; intros [|d y] Hx Hy E; simplify_eq/=.
    - done.
    - apply Forall_cons in Hy as [Hy _]. done.
    - apply Forall_cons in Hx as [Hx _]. done.
    - apply Forall_cons in Hx as [_ Hx]. apply Forall_cons in Hy as [_ Hy].
      match goal with H : x ++ _ = y ++ _ |- _ => destruct (IH y Hx Hy H) as [-> ->] end. done. }
  intros E. destruct (G _ _ (N_dec_digits a) (N_dec_digits b) E) as [E' ->].
  split; [|done]. by rewrite <- (dec_val_N_dec a), <- (dec_val_N_dec b), E'.
Qed.

(** A line determines its codes. *)
Lemma redirect_line_inj f1 t1 f2 t2 :
  (0 ≤ f1)%Z → (0 ≤ f2)%Z → (0 ≤ t1)%Z → (0 ≤ t2)%Z →
  redirect_line f1 t1 = redirect_line f2 t2 → f1 = f2 ∧ t1 = t2.
Proof.
  intros H1 H2 H3 H4. unfold redirect_line. rewrite !Z_dec_nonneg by done.
  change (js " -> " ++ ?u) with (32%N :: js "-> " ++ u).
  intros [E1 E2]%N_dec_prefix_free. apply app_inv_head in E2.
  apply (f_equal dec_val) in E2. rewrite !dec_val_N_dec in E2. lia.
Qed.

Lemma redirects_nonneg s from to : redirects s from to → (0 ≤ from)%Z ∧ (0 ≤ to)%Z.
Proof.
  intros (k & v & _ & _ & Ht & Hf & _). apply target_in_range in Ht.
  unfold NON_REDIRECTABLE_STATUS_CODES in Hf. rewrite !elem_of_cons, elem_of_nil in Hf. lia.
Qed.

Lemma line_reported s from to :
  (0 ≤ from)%Z → (0 ≤ to)%Z →
  redirect_line from to ∈ collectDisallowedStatusCodeRedirects s ↔ redirects s from to.
Proof.
  intros Hf Ht. rewrite elem_of_disallowed. split; [|eauto].
  intros (f & t & H & E). destruct (redirects_nonneg _ _ _ H).
  apply redirect_line_inj in E as [-> ->]; done.
Qed.

(** The guard reports exactly the forbidden redirects: the list is sorted without
    duplicates, every line in it is the line of a redirect of a protected code (504 or 524)
    to a different valid code that the mapping contains, and every such redirect has its
    line. *)
Theorem disallowed_redirects_exact (s : str) :
  StronglySorted (cmp_le str_cmp) (collectDisallowedStatusCodeRedirects s) ∧
  NoDup (collectDisallowedStatusCodeRedirects s) ∧
  (∀ line, line ∈ collectDisallowedStatusCodeRedirects s →
     ∃ from to, line = redirect_line from to ∧ redirects s from to) ∧
  (∀ from to, redirects s from to → redirect_line from to ∈ collectDisallowedStatusCodeRedirects s).
Proof.
  split_and!.
  - apply (sorted_by str_cmp).
  - unfold collectDisallowedStatusCodeRedirects. rewrite array_sort_Permutation. apply array_of_set_NoDup.
  - intros line (f & t & H & ->)%elem_of_disallowed. eauto.
  - intros f t H. apply elem_of_disallowed. eauto.
Qed.

(** On an edit the guard reports exactly the forbidden redirects the edit adds:
    those of the current mapping that the original did not have; saving
    an unchanged mapping reports nothing. *)
Theorem new_disallowed_redirects_exact (originalStr currentStr : str) :
  (∀ from to, (0 ≤ from)%Z ∧ (0 ≤ to)%Z →
     redirect_line from to ∈ collectNewDisallowedStatusCodeRedirects originalStr currentStr ↔
     redirects currentStr from to ∧ ¬ redirects originalStr from to) ∧
  collectNewDisallowedStatusCodeRedirects currentStr currentStr = [].
Proof.
  assert (E : ∀ a b, collectNewDisallowedStatusCodeRedirects a b =
    List.filter (λ l, negb (set_has l (array_of_set (collectDisallowedStatusCodeRedirects a))))
      (collectDisallowedStatusCodeRedirects b)).
  { intros a b. unfold collectNewDisallowedStatusCodeRedirects. by destruct (collectDisallowedStatusCodeRedirects b). }
  rewrite !E. split.
  - intros f t [Hf Ht].
    rewrite elem_of_bfilter, line_reported, negb_true_iff, set_has_false, elem_of_array_of_set, line_reported by done.
    done.
  - apply bfilter_none. intros l Hl. apply negb_false_iff, set_has_true. by apply elem_of_array_of_set.
Qed.

Lemma new_disallowed_redirects_exact_witness :
  redirect_line 504 200 ∈ collectNewDisallowedStatusCodeRedirects (js "{}") ([123; 34; 53; 48; 52; 34; 58; 50; 48; 48; 125]%N)
  ↔ redirects ([123; 34; 53; 48; 52; 34; 58; 50; 48; 48; 125]%N) 504 200 ∧ ¬ redirects (js "{}") 504 200.
Proof.
  apply (proj1 (new_disallowed_redirects_exact (js "{}") [123; 34; 53; 48; 52; 34; 58; 50; 48; 48; 125]%N) 504%Z 200%Z).
  split; lia.
Defined.

(** The validity check and the guard agree on what a code mapping is: no entry is
    reported as invalid exactly when every entry maps a status code to a status code,
    and an entry behind a forbidden redirect is never reported as invalid. *)
Theorem invalid_entries_exact (s : str) :
  (collectInvalidStatusCodeEntries s = [] ↔
   ∀ k v, (k, v) ∈ mapping_entries s →
     ∃ from to, parseStatusCodeKey k = Some from ∧ parseStatusCodeMappingTarget v = Some to) ∧
  (∀ k v, (k, v) ∈ mapping_entries s → is_Some (risky_redirect (k, v)) →
     is_Some (parseStatusCodeKey k) ∧ is_Some (parseStatusCodeMappingTarget v)).
Proof.
  split.
  - unfold collectInvalidStatusCodeEntries. induction (mapping_entries s) as [|[k v] l IH].
    { split; [|done]. intros _ k v H. by apply elem_of_nil in H. }
    cbn [omap list_omap fst snd].
    destruct (parseStatusCodeKey k) as [f|] eqn:Ek; [destruct (parseStatusCodeMappingTarget v) as [t|] eqn:Ev|].
    + rewrite IH. split; [|intros H k' v' Hin; apply H; set_solver].
      intros H k' v' [E|Hin]%elem_of_cons; [simplify_eq; eauto|by apply H].
    + split; [done|]. intros H. destruct (H k v) as (? & ? & _ & ?); [set_solver|congruence].
    + split; [done|]. intros H. destruct (H k v) as (? & ? & ? & _); [set_solver|congruence].
  - intros k v _ [line (f & t & H1 & H2 & _)%risky_redirect_spec]. cbn in *. by rewrite H1, H2.
Qed.
