(* ===== verification/ModelMapping.v ===== *)
(** * Model mapping checks ([web/default/src/features/channels/lib/model-mapping-validation.ts])

    A channel has a comma-separated list of models and a JSON object that maps model
    names to the names sent upstream.  The checks relate the two. *)

From S2P Require Import Prelude JsString JsNumber Json.

Definition parseModelsString (modelsStr : str) : list str :=
  if truthy modelsStr then List.filter truthy (map trim (split (js ",") modelsStr)) else [].

Definition formatModelsArray (models : list str) : str := join (js ",") (array_of_set models).

(** [typeof model === 'string'] holds of every argument of the model. *)
Definition normalizeModelName (model : str) : str := trim model.

Definition extractMappingSourceModels (modelMapping : str) : list str :=
  let trimmed := trim modelMapping in
  if negb (truthy trimmed) then []
  else match parse_object trimmed with
       | None => []
       | Some parsed => array_of_set (List.filter truthy (map trim (obj_keys parsed)))
       end.

Definition extractRedirectModels (modelMapping : str) : list str :=
  let trimmed := trim modelMapping in
  if negb (truthy trimmed) then []
  else match parse_object trimmed with
       | None => []
       | Some parsed =>
           array_of_set
             (List.filter truthy
                (omap (λ value, match value with JStr s => Some (trim s) | _ => None end) (obj_values parsed)))
       end.

(** The loop that compares the two arrays position by position. *)
Fixpoint arrays_differ (current initial : list str) : bool :=
  match current, initial with
  | c :: cs, i :: rest => if bool_decide (c ≠ i) then true else arrays_differ cs rest
  | _, _ => false
  end.

Definition hasModelConfigChanged (currentModels : list str) (currentModelMapping : str)
  (initialModels : list str) (initialModelMapping : str) : bool :=
  if (length initialModels =? 0) && negb (truthy initialModelMapping) then true
  else if negb (length currentModels =? length initialModels) then true
  else if arrays_differ currentModels initialModels then true
  else negb (bool_decide (trim currentModelMapping = trim initialModelMapping)).

Definition findMissingModelsInMapping (modelMapping : str) (currentModels : list str) : list str :=
  if negb (truthy modelMapping) || bool_decide (trim modelMapping = []) then []
  else match parse_object modelMapping with
       | None => []
       | Some parsedMapping =>
           let modelSet := array_of_set (map normalizeModelName currentModels) in
           array_of_set
             (List.filter (λ key, truthy key && negb (set_has key modelSet))
                (map normalizeModelName (obj_keys parsedMapping)))
       end.

Inductive ValidationResult := Valid | Invalid (error : str).

Definition is_jstr (v : json) : bool := match v with JStr _ => true | _ => false end.

Definition validateModelMappingJson (modelMapping : str) : ValidationResult :=
  if negb (truthy modelMapping) || bool_decide (trim modelMapping = []) then Valid
  else match json_parse modelMapping with
       | None => Invalid (js "Model mapping must be valid JSON format")
       | Some (JObj parsed) =>
           if existsb (λ value, negb (is_jstr value)) (obj_values parsed)
           then Invalid (js "Model mapping values must be strings") else Valid
       | Some _ => Invalid (js "Model mapping must be a valid JSON object")
       end.

Definition findExposedTargetModels (modelMapping : str) (currentModels : list str) : list str :=
  let redirectModels := extractRedirectModels modelMapping in
  match redirectModels with
  | [] => []
  | _ =>
      let modelSet := array_of_set (map normalizeModelName currentModels) in
      List.filter (λ model, set_has (normalizeModelName model) modelSet) redirectModels
  end.

Record ModelCategories := {
  normalizedCurrentModels : list str; normalizedRedirectModels : list str;
  classificationSet : list str; redirectOnlySet : list str }.

Definition categorizeModelsWithRedirect (currentModels redirectModels : list str) : ModelCategories :=
  let current := array_of_set (List.filter truthy (map normalizeModelName currentModels)) in
  let redirect := array_of_set (List.filter truthy (map normalizeModelName redirectModels)) in
  {| normalizedCurrentModels := current;
     normalizedRedirectModels := redirect;
     classificationSet := array_of_set (current ++ redirect);
     redirectOnlySet := array_of_set (List.filter (λ m, negb (set_has m current)) redirect) |}.

(** ** Models strings *)

(** A model name that the list format can hold. *)
Definition model_name (m : str) : Prop := trimmed m ∧ m ≠ [] ∧ 44%N ∉ m.

Lemma parse_models_names s : Forall model_name (parseModelsString s).
Proof.
  unfold parseModelsString. destruct (truthy s); [|constructor].
  apply Forall_forall. intros m [Hm Ht]%elem_of_bfilter. apply elem_of_lmap in Hm as (p & -> & Hp).
  split_and!; [apply trim_trimmed|by intros E; rewrite E in Ht|].
  intros Hc%elem_of_trim. by apply (split_not_elem 44%N) in Hp.
Qed.

Lemma parse_join_models l : Forall model_name l → parseModelsString (join (js ",") l) = l.
Proof.
  intros Hl. destruct l as [|m l]; [done|]. unfold parseModelsString.
  assert (truthy (join (js ",") (m :: l)) = true) as ->.
  { apply Forall_cons in Hl as [(_ & Hm & _) _]. destruct l; [by destruct m|].
    rewrite join_cons by done. by destruct m. }
  change (js ",") with [44%N]. rewrite split_join; [|done|].
  - rewrite lmap_id, bfilter_id; [done| |].
    + intros x Hx. rewrite Forall_forall in Hl. destruct (Hl x Hx) as (_ & Hne & _). by destruct x.
    + eapply Forall_impl; [exact Hl|]. intros x (Ht & _). by apply trim_id.
  - eapply Forall_impl; [exact Hl|]. by intros x (_ & _ & ?).
Qed.

(** The models field round-trips: reading any models text, formatting the list and
    reading it again gives the list without duplicates, every element a trimmed,
    non-empty name without a comma; formatting a list of such names and reading it gives
    the list without duplicates, in order. *)
Theorem models_string_round_trip (s : str) (l : list str) (Hl : Forall model_name l) :
  Forall model_name (parseModelsString s) ∧
  parseModelsString (formatModelsArray (parseModelsString s)) = array_of_set (parseModelsString s) ∧
  parseModelsString (formatModelsArray l) = array_of_set l ∧
  formatModelsArray (parseModelsString (formatModelsArray l)) = formatModelsArray l.
Proof.
  assert (G : ∀ l, Forall model_name l → parseModelsString (formatModelsArray l) = array_of_set l).
  { intros l' H'. unfold formatModelsArray. apply parse_join_models. rewrite Forall_forall in H' |- *.
    intros x Hx. apply H'. by apply elem_of_array_of_set. }
  split_and!; [apply parse_models_names|apply G, parse_models_names|by apply G|].
  rewrite G by done. unfold formatModelsArray. by rewrite (array_of_set_id (array_of_set l)) by apply array_of_set_NoDup.
Qed.

Lemma models_string_round_trip_witness :
  parseModelsString (formatModelsArray [js "gpt-4o"; js "claude"; js "gpt-4o"]) = array_of_set [js "gpt-4o"; js "claude"; js "gpt-4o"].
Proof.
  assert (H : Forall model_name [js "gpt-4o"; js "claude"; js "gpt-4o"])
    by (repeat constructor; vm_compute; (done || set_solver)).
  exact (proj1 (proj2 (proj2 (models_string_round_trip [] _ H)))).
Defined.

(** ** Sources, targets, missing and exposed models *)

(** The mapping's entries: both checks read them after the trimmed text is not empty. *)
Lemma elem_of_missing mapping models m :
  m ∈ findMissingModelsInMapping mapping models ↔
  trim mapping ≠ [] ∧ m ≠ [] ∧
  (∃ o k, parse_object mapping = Some o ∧ k ∈ obj_keys o ∧ m = trim k) ∧ m ∉ map trim models.
Proof.
  unfold findMissingModelsInMapping.
  destruct (negb (truthy mapping) || bool_decide (trim mapping = [])) eqn:E.
  { apply orb_true_iff in E as [E|E].
    - destruct mapping; [|done]. split; [by intros ?%elem_of_nil|by intros []].
    - apply bool_decide_eq_true in E. rewrite E. split; [by intros ?%elem_of_nil|by intros []]. }
  apply orb_false_iff in E as [_ E%bool_decide_eq_false].
  destruct (parse_object mapping) as [o|]; [|split; [by intros ?%elem_of_nil|naive_solver]].
  rewrite elem_of_array_of_set, elem_of_bfilter, elem_of_lmap, andb_true_iff, negb_true_iff, set_has_false,
    elem_of_array_of_set.
  assert (truthy m = true ↔ m ≠ []) as -> by (by destruct m). naive_solver.
Qed.

(** The missing-model check is exact: a name is reported exactly when it is the trimmed,
    non-empty key of the mapping and no model of the list has that name after trimming; each is
    reported once.  Adding the reported names to the list leaves nothing missing. *)
Theorem missing_models_exact (mapping : str) (models : list str) :
  NoDup (findMissingModelsInMapping mapping models) ∧
  (∀ m, m ∈ findMissingModelsInMapping mapping models ↔
     trim mapping ≠ [] ∧ m ≠ [] ∧
     (∃ o k, parse_object mapping = Some o ∧ k ∈ obj_keys o ∧ m = trim k) ∧ m ∉ map trim models) ∧
  findMissingModelsInMapping mapping (models ++ findMissingModelsInMapping mapping models) = [].
Proof.
  split_and!.
  - unfold findMissingModelsInMapping. case_match; [constructor|].
    destruct (parse_object mapping); [apply array_of_set_NoDup|constructor].
  - intros m. apply elem_of_missing.
  - destruct (findMissingModelsInMapping mapping (models ++ _)) as [|m l] eqn:E; [done|exfalso].
    assert (Hm : m ∈ m :: l) by set_solver. rewrite <- E in Hm.
    apply elem_of_missing in Hm as (Ht & Hne & (o & k & Ho & Hk & ->) & Hnot).
    rewrite map_app, elem_of_app in Hnot. apply Hnot. right. apply elem_of_lmap. exists (trim k).
    rewrite trim_idemp. split; [done|]. apply elem_of_missing. split_and!; [done|done|by exists o, k|].
    intros H. apply Hnot. by left.
Qed.

(** The redirect view is a partition: every classified name is a current or a redirect
    model, the redirect-only names are exactly the redirect names that are not current, the two groups
    are disjoint and together cover the classification, without duplicates. *)
Theorem categories_partition (current redirect : list str) :
  let c := categorizeModelsWithRedirect current redirect in
  (∀ m, m ∈ classificationSet c ↔ m ∈ normalizedCurrentModels c ∨ m ∈ redirectOnlySet c) ∧
  (∀ m, m ∈ redirectOnlySet c ↔ m ∈ normalizedRedirectModels c ∧ m ∉ normalizedCurrentModels c) ∧
  (∀ m, m ∈ normalizedCurrentModels c ↔ m ≠ [] ∧ ∃ x, x ∈ current ∧ m = trim x) ∧
  NoDup (normalizedCurrentModels c ++ redirectOnlySet c).
Proof.
  cbv zeta. unfold categorizeModelsWithRedirect.
  cbn [classificationSet normalizedCurrentModels redirectOnlySet normalizedRedirectModels].
  set (cur := array_of_set (List.filter truthy (map normalizeModelName current))).
  set (red := array_of_set (List.filter truthy (map normalizeModelName redirect))).
  assert (R : ∀ m, m ∈ array_of_set (List.filter (λ m, negb (set_has m cur)) red) ↔ m ∈ red ∧ m ∉ cur).
  { intros m. by rewrite elem_of_array_of_set, elem_of_bfilter, negb_true_iff, set_has_false. }
  split_and!.
  - intros m. rewrite R, elem_of_array_of_set, elem_of_app. destruct (decide (m ∈ cur)); tauto.
  - exact R.
  - intros m. unfold cur. rewrite elem_of_array_of_set, elem_of_bfilter, elem_of_lmap.
    assert (truthy m = true ↔ m ≠ []) as -> by (by destruct m). unfold normalizeModelName. naive_solver.
  - apply NoDup_app. split_and!; [apply array_of_set_NoDup| |apply array_of_set_NoDup].
    intros m Hm [_ Hn]%R. done.
Qed.

Lemma arrays_differ_spec l1 l2 : length l1 = length l2 → arrays_differ l1 l2 = false ↔ l1 = l2.
Proof.
  revert l2. induction l1 as [|a l1 IH]; intros [|b l2] Hl; simplify_eq/=; [done|].
  destruct (bool_decide_reflect (a ≠ b)) as [Hne|Heq]; [naive_solver|].
  rewrite IH by done. destruct (decide (a = b)); naive_solver.
Qed.

(** An edit of an existing channel counts as unchanged exactly when the models are the same
    list and the mappings are equal up to surrounding white space; a channel with no saved configuration
    always counts as changed. *)
Theorem model_config_changed_exact (cur : list str) (curMap : str) (init : list str) (initMap : str) :
  hasModelConfigChanged cur curMap init initMap = false ↔
  (init ≠ [] ∨ initMap ≠ []) ∧ cur = init ∧ trim curMap = trim initMap.
Proof.
  unfold hasModelConfigChanged.
  destruct ((length init =? 0) && negb (truthy initMap)) eqn:E0.
  { apply andb_true_iff in E0 as [E1 E2]. destruct init, initMap; try done. naive_solver. }
  assert (Hsaved : init ≠ [] ∨ initMap ≠ []).
  { destruct init; [|by left]. destruct initMap; [done|by right]. }
  destruct (Nat.eqb_spec (length cur) (length init)) as [Hl|Hl]; cbn [negb].
  - pose proof (arrays_differ_spec cur init Hl) as Hd.
    destruct (arrays_differ cur init); [split; [done|intros (_ & E & _); by apply Hd in E]|].
    rewrite negb_false_iff, bool_decide_eq_true. naive_solver.
  - split; [done|]. intros (_ & -> & _). done.
Qed.
