(* ===== verification/Payment.v ===== *)
(** * Payment selection ([web/default/src/features/wallet/lib/payment.ts])

    The gateway behind a payment method, the order in which methods are offered, the
    defaults chosen from the server's top-up configuration, and the amounts.
    [submitPaymentForm] drives the browser and is not modelled. *)

From S2P Require Import Prelude JsString JsNumber.

(** ** Constants and data ([constants.ts], [types.ts]) *)

Definition DEFAULT_PRESET_MULTIPLIERS : list Z := [1; 5; 10; 30; 50; 100; 300; 500]%Z.

Definition ALIPAY := js "alipay".
Definition WECHAT := js "wxpay".
Definition STRIPE := js "stripe".
Definition CREEM := js "creem".
Definition WAFFO := js "waffo".
Definition WAFFO_PANCAKE := js "waffo_pancake".
Definition XPAY := js "xpay".

Definition P_ALIPAY_DIRECT := js "alipay_direct".
Definition P_MPAY := js "mpay".
Definition P_XPAY := js "xpay".
Definition P_WAFFO := js "waffo".

Definition DEFAULT_PAYMENT_TYPE := ALIPAY.
Definition DEFAULT_MIN_TOPUP : num := num_of_Z 1.

Record PaymentMethod := {
  name : str; type : str; color : option str; pm_min_topup : option num; icon : option str;
  provider : option str; recommended : option bool }.

Record TopupInfo := {
  enable_online_topup : bool; enable_stripe_topup : bool; pay_methods : list PaymentMethod;
  min_topup : num; stripe_min_topup : num;
  enable_waffo_topup : option bool; waffo_min_topup : option num;
  enable_waffo_pancake_topup : option bool; waffo_pancake_min_topup : option num;
  enable_xpay_topup : option bool; xpay_min_topup : option num;
  enable_mpay_topup : option bool; mpay_min_topup : option num;
  enable_alipay_direct_topup : option bool; alipay_direct_min_topup : option num }.

(** An optional flag in a condition. *)
Definition on (b : option bool) : bool := default false b.

(** [x || DEFAULT_MIN_TOPUP] *)
Definition or_min (x : option num) : num :=
  match x with Some v => if num_truthy v then v else DEFAULT_MIN_TOPUP | None => DEFAULT_MIN_TOPUP end.

(** [s] when it is a non-empty string *)
Definition given (s : option str) : option str :=
  match s with Some t => if truthy t then Some t else None | None => None end.

(** ** Amounts *)

Definition normalizeTopupAmount (amount : num) : num :=
  if negb (is_finite amount) then num_of_Z 0
  else
    let normalized := ndiv (math_round (nmul (nadd amount EPSILON) (num_of_Z 100))) (num_of_Z 100) in
    if negb (is_finite normalized) then num_of_Z 0
    else if bool_decide (normalized = S754_zero true) then num_of_Z 0 else normalized.

Record PresetAmount := { value : num; discount : option num }.

Definition generatePresetAmounts (minAmount : num) : list PresetAmount :=
  map (λ multiplier, {| value := normalizeTopupAmount (nmul minAmount (num_of_Z multiplier)); discount := None |})
      DEFAULT_PRESET_MULTIPLIERS.

(** [discounts[amount]]: a number used as a property key is its text. *)
Definition discount_of (discounts : list (str * num)) (amount : num) : option num :=
  snd <$> find (λ kv, bool_decide (fst kv = string_of_num amount)) discounts.

Definition mergePresetAmounts (amountOptions : list num) (discounts : list (str * num)) : list PresetAmount :=
  map (λ amount,
         let v := normalizeTopupAmount amount in
         {| value := v;
            discount := Some (match discount_of discounts v with
                              | Some d => if num_truthy d then d else
                                  match discount_of discounts amount with
                                  | Some d' => if num_truthy d' then d' else num_of_Z 1
                                  | None => num_of_Z 1
                                  end
                              | None =>
                                  match discount_of discounts amount with
                                  | Some d' => if num_truthy d' then d' else num_of_Z 1
                                  | None => num_of_Z 1
                                  end
                              end) |}) amountOptions.

(** ** Payment kinds and gateways *)

Definition isStripePayment (paymentType : str) : bool := bool_decide (paymentType = STRIPE).
Definition isWaffoPancakePayment (paymentType : str) : bool := bool_decide (paymentType = WAFFO_PANCAKE).
Definition isXPayPayment (paymentType : str) : bool := bool_decide (paymentType = XPAY).

Definition isXPayRoutedPayment (paymentType : str) (paymentProvider : option str) : bool :=
  match given paymentProvider with
  | Some p => bool_decide (p = P_XPAY)
  | None => bool_decide (paymentType = XPAY)
  end.

Definition has_provider (p : str) (methods : list PaymentMethod) : bool :=
  existsb (λ m, bool_decide (provider m = Some p)) methods.

Definition resolvePaymentProvider (method : PaymentMethod) (topupInfo : option TopupInfo) : option str :=
  match given (provider method) with
  | Some p => Some p
  | None =>
      if bool_decide (type method = XPAY) then Some P_XPAY
      else match topupInfo with
           | None => None
           | Some info =>
               if on (enable_mpay_topup info) && negb (has_provider P_MPAY (pay_methods info))
                  && (bool_decide (type method = ALIPAY) || bool_decide (type method = WECHAT))
               then Some P_MPAY
               else if on (enable_xpay_topup info) && negb (has_provider P_XPAY (pay_methods info))
                       && bool_decide (type method = ALIPAY)
               then Some P_XPAY
               else None
           end
  end.

Definition isAlipayDirectPayment (method : option PaymentMethod) : bool :=
  bool_decide ((m ← method; provider m) = Some P_ALIPAY_DIRECT).

Definition getPaymentMethodKey (method : PaymentMethod) : str :=
  default (js "default") (given (provider method)) ++ js ":" ++ type method.

Definition getPaymentMethodDisplayName (method : PaymentMethod) (translate : str → str) : str :=
  if bool_decide (provider method = Some P_ALIPAY_DIRECT) then translate (js "Alipay")
  else if bool_decide (provider method = Some P_MPAY) then
    (if bool_decide (type method = WECHAT) then translate (js "WeChat Pay") else translate (js "Alipay"))
  else if bool_decide (provider method = Some P_XPAY) && bool_decide (type method = ALIPAY)
       then translate (js "Alipay (XPay backup)")
  else translate (name method).

(** ** Order *)

Definition priority (method : PaymentMethod) : Z :=
  if bool_decide (type method = WECHAT) then 0
  else if isAlipayDirectPayment (Some method) then 1
  else if on (recommended method) then 2
  else if bool_decide (provider method = Some P_MPAY) || bool_decide (provider method = Some P_XPAY) then 4
  else 3.

(** [priority(a) - priority(b) || a.index - b.index] *)
Definition method_cmp (a b : nat * PaymentMethod) : Z :=
  let d := (priority (snd a) - priority (snd b))%Z in
  if (d =? 0)%Z then (Z.of_nat (fst a) - Z.of_nat (fst b))%Z else d.

Definition sortPaymentMethods (methods : list PaymentMethod) : list PaymentMethod :=
  map snd (array_sort method_cmp (imap pair methods)).

(** ** Defaults *)

Definition getDefaultPaymentType (topupInfo : option TopupInfo) : str :=
  match topupInfo with
  | None => DEFAULT_PAYMENT_TYPE
  | Some info =>
      if on (enable_alipay_direct_topup info) || on (enable_mpay_topup info) || on (enable_xpay_topup info)
      then ALIPAY
      else match find (λ m, negb (bool_decide (type m = XPAY))) (pay_methods info) with
           | Some m => type m
           | None =>
               if enable_stripe_topup info then STRIPE
               else if on (enable_waffo_topup info) then WAFFO
               else if on (enable_waffo_pancake_topup info) then WAFFO_PANCAKE
               else DEFAULT_PAYMENT_TYPE
           end
  end.

Definition getDefaultPaymentProvider (topupInfo : option TopupInfo) : option str :=
  match topupInfo with
  | None => None
  | Some info =>
      let defaultType := getDefaultPaymentType (Some info) in
      match find (λ m, bool_decide (type m = defaultType)) (sortPaymentMethods (pay_methods info)) with
      | Some configuredMethod => resolvePaymentProvider configuredMethod (Some info)
      | None =>
          if on (enable_alipay_direct_topup info) then Some P_ALIPAY_DIRECT
          else if on (enable_mpay_topup info) then Some P_MPAY
          else if on (enable_xpay_topup info) then Some P_XPAY
          else if on (enable_waffo_topup info) then Some P_WAFFO
          else None
      end
  end.

Definition getMinTopupAmount (topupInfo : option TopupInfo) : num :=
  match topupInfo with
  | None => DEFAULT_MIN_TOPUP
  | Some info =>
      if on (enable_alipay_direct_topup info) then or_min (alipay_direct_min_topup info)
      else if on (enable_mpay_topup info) then or_min (mpay_min_topup info)
      else if on (enable_xpay_topup info) then or_min (xpay_min_topup info)
      else if enable_online_topup info then min_topup info
      else if enable_stripe_topup info then stripe_min_topup info
      else if on (enable_waffo_topup info) then or_min (waffo_min_topup info)
      else if on (enable_waffo_pancake_topup info) then or_min (waffo_pancake_min_topup info)
      else DEFAULT_MIN_TOPUP
  end.

(** ** Properties of the order *)

(** The comparator of the source without its tie break. *)
Definition by_priority (a b : PaymentMethod) : Z := (priority a - priority b)%Z.

#[export] Instance by_priority_comparator : Comparator by_priority.
Proof. apply (comparator_on priority Z.sub), Z_sub_comparator. Qed.

Lemma imap_pair_indices (l : list PaymentMethod) k :
  StronglySorted (λ a b, fst a < fst b) (imap (λ i m, (k + i, m)) l).
Proof.
  revert k. induction l as [|m l IH]; intros k; [constructor|]. rewrite imap_cons. constructor.
  - erewrite imap_ext; [apply (IH (S k))|]. intros i x _. simpl. f_equal. lia.
  - apply Forall_lookup. intros i [j x] H. rewrite list_lookup_imap in H.
    destruct (l !! i) as [y|]; [|done]. cbn in H. simplify_eq. cbn. lia.
Qed.

(** The tie break by index is what a stable sort does anyway. *)
Lemma sort_methods_stable l : sortPaymentMethods l = array_sort by_priority l.
Proof.
  unfold sortPaymentMethods.
  assert (E : imap pair l = imap (λ i m, (0 + i, m)) l) by (by apply imap_ext).
  rewrite (array_sort_agree (λ a b, fst a < fst b) method_cmp (λ a b, by_priority (snd a) (snd b))).
  - rewrite array_sort_map. f_equal. rewrite E. generalize 0 as k. clear E.
    induction l as [|m l IH]; intros k; [done|]. rewrite imap_cons. cbn [map snd]. f_equal.
    erewrite imap_ext; [apply (IH (S k))|]. intros i x _. simpl. f_equal. lia.
  - intros [i a] [j b] Hlt. unfold method_cmp, by_priority. cbn in *.
    destruct (Z.eqb_spec (priority a - priority b) 0); lia.
  - rewrite E. apply imap_pair_indices.
Qed.

Lemma elem_of_sorted_methods l m : m ∈ sortPaymentMethods l ↔ m ∈ l.
Proof. rewrite sort_methods_stable. apply elem_of_array_sort. Qed.

Lemma sorted_by_priority l : StronglySorted (λ a b, (priority a ≤ priority b)%Z) (sortPaymentMethods l).
Proof.
  rewrite sort_methods_stable. eapply StronglySorted_weaken; [|apply (sorted_by by_priority)].
  intros a b. unfold cmp_le, by_priority. lia.
Qed.

(** The offered order is a stable sort by priority: no method is lost or
    duplicated, priorities never decrease along the list, methods of equal priority keep the order
    the server gave them, and sorting a sorted list changes nothing. *)
Theorem sort_payment_methods_stable (methods : list PaymentMethod) :
  sortPaymentMethods methods ≡ₚ methods ∧
  StronglySorted (λ a b, (priority a ≤ priority b)%Z) (sortPaymentMethods methods) ∧
  (∀ p, List.filter (λ m, (priority m =? p)%Z) (sortPaymentMethods methods)
        = List.filter (λ m, (priority m =? p)%Z) methods) ∧
  sortPaymentMethods (sortPaymentMethods methods) = sortPaymentMethods methods.
Proof.
  pose proof (sorted_by_priority methods) as Hs. rewrite !sort_methods_stable in *. split_and!.
  - apply array_sort_Permutation.
  - exact Hs.
  - intros p. apply array_sort_filter. intros a b Ha Hb. unfold by_priority. lia.
  - apply array_sort_id, (sorted_by by_priority).
Qed.

(** WeChat methods come first, whatever their gateway: when the list has a
    WeChat method the first offered method is one, also when the official Alipay
    gateway is in the list and when the WeChat method belongs to the legacy MPay gateway. *)
Theorem wechat_sorts_before_direct (methods : list PaymentMethod) (w : PaymentMethod)
  (Hw : w ∈ methods) (Ht : type w = WECHAT) :
  ∃ m, head (sortPaymentMethods methods) = Some m ∧ type m = WECHAT.
Proof.
  pose proof (sorted_by_priority methods) as Hs.
  apply elem_of_sorted_methods in Hw. destruct (sortPaymentMethods methods) as [|m l]; [by apply elem_of_nil in Hw|].
  exists m. split; [done|].
  assert ((priority m ≤ priority w)%Z) as Hle.
  { inversion Hs as [|? ? _ Hall]; subst. apply elem_of_cons in Hw as [->|Hw]; [lia|].
    rewrite Forall_forall in Hall. by apply Hall. }
  unfold priority in Hle at 2. rewrite bool_decide_eq_true_2 in Hle by done.
  unfold priority in Hle. destruct (bool_decide_reflect (type m = WECHAT)); [done|].
  repeat case_match; lia.
Qed.

Definition direct_alipay : PaymentMethod :=
  {| name := js "Alipay"; type := ALIPAY; color := None; pm_min_topup := None; icon := None;
     provider := Some P_ALIPAY_DIRECT; recommended := Some true |}.
Definition mpay_wechat : PaymentMethod :=
  {| name := js "WeChat"; type := WECHAT; color := None; pm_min_topup := None; icon := None;
     provider := Some P_MPAY; recommended := None |}.

Lemma wechat_sorts_before_direct_witness :
  ∃ m, head (sortPaymentMethods [direct_alipay; mpay_wechat]) = Some m ∧ type m = WECHAT.
Proof.
  apply (wechat_sorts_before_direct [direct_alipay; mpay_wechat] mpay_wechat);
    [right; left|vm_compute; reflexivity].
Defined.

(** ** Gateways *)

(** A configured gateway always wins: a method with a provider resolves to that
    provider under every server configuration, so neither MPay nor XPay can take over an Alipay Direct
    method.  Without one, the only gateways that can be inferred are XPay and MPay: XPay for the
    XPay type, MPay only for Alipay and WeChat while it is enabled and no listed method already names it,
    XPay only for Alipay under the same condition. *)
Theorem resolve_provider_sound (method : PaymentMethod) (info : option TopupInfo) :
  (∀ p, provider method = Some p → p ≠ [] → resolvePaymentProvider method info = Some p) ∧
  (given (provider method) = None → ∀ p, resolvePaymentProvider method info = Some p →
     (p = P_XPAY ∧ type method = XPAY) ∨
     (∃ i, info = Some i ∧ p = P_MPAY ∧ on (enable_mpay_topup i) = true
           ∧ (type method = ALIPAY ∨ type method = WECHAT)
           ∧ ∀ m, m ∈ pay_methods i → provider m ≠ Some P_MPAY) ∨
     (∃ i, info = Some i ∧ p = P_XPAY ∧ on (enable_xpay_topup i) = true ∧ type method = ALIPAY
           ∧ ∀ m, m ∈ pay_methods i → provider m ≠ Some P_XPAY)).
Proof.
  assert (Hp : ∀ p l, has_provider p l = false → ∀ m, m ∈ l → provider m ≠ Some p).
  { intros p l H m Hm E. assert (has_provider p l = true); [|congruence].
    unfold has_provider. apply existsb_exists. exists m. split; [by apply list_elem_of_In|].
    by apply bool_decide_eq_true. }
  unfold resolvePaymentProvider. split.
  - intros p Hpr Hne. unfold given. rewrite Hpr. by destruct p.
  - intros -> p H. case_bool_decide as Hx; [simplify_eq; by left|].
    destruct info as [i|]; [|done]. right.
    destruct (_ && _ && _) eqn:E1 in H.
    + simplify_eq. left. exists i. rewrite !andb_true_iff, negb_true_iff, orb_true_iff, !bool_decide_eq_true in E1.
      destruct E1 as [[E1 E2] E3]. split_and!; try done. by apply Hp.
    + destruct (_ && _ && _) eqn:E2 in H; [|done]. simplify_eq. right. exists i.
      rewrite !andb_true_iff, negb_true_iff, bool_decide_eq_true in E2. destruct E2 as [[E2 E3] E4].
      split_and!; try done. by apply Hp.
Qed.

Lemma find_sorted_first p l m :
  find p (sortPaymentMethods l) = Some m →
  m ∈ l ∧ p m = true ∧ ∀ m', m' ∈ l → p m' = true → (priority m ≤ priority m')%Z.
Proof.
  intros H. destruct (find_some _ _ H) as [Hin Hpm]. apply list_elem_of_In in Hin.
  split; [by apply elem_of_sorted_methods|]. split; [done|].
  pose proof (sorted_by_priority l) as Hs.
  intros m' Hm' Hpm'. apply elem_of_sorted_methods in Hm'. clear Hin.
  induction Hs as [|x xs Hxs IH Hall]; [done|]. cbn [find] in H. destruct (p x) eqn:Ex.
  - simplify_eq. apply elem_of_cons in Hm' as [->|Hm']; [lia|]. rewrite Forall_forall in Hall. by apply Hall.
  - apply elem_of_cons in Hm' as [->|Hm']; [congruence|]. by apply IH.
Qed.

(** The preselected gateway fits the preselected type: when some listed method has the default
    type, the default provider is the resolved gateway of a listed method of that type, and no
    listed method of that type has a smaller priority; otherwise it is the gateway of an enabled
    top-up, the official Alipay gateway before MPay before XPay before Waffo. *)
Theorem default_provider_fits_type (info : TopupInfo) :
  let t := getDefaultPaymentType (Some info) in
  ((∃ m, m ∈ pay_methods info ∧ type m = t) →
   ∃ m, m ∈ pay_methods info ∧ type m = t ∧
        (∀ m', m' ∈ pay_methods info → type m' = t → (priority m ≤ priority m')%Z) ∧
        getDefaultPaymentProvider (Some info) = resolvePaymentProvider m (Some info)) ∧
  ((∀ m, m ∈ pay_methods info → type m ≠ t) →
   getDefaultPaymentProvider (Some info) =
     (if on (enable_alipay_direct_topup info) then Some P_ALIPAY_DIRECT
      else if on (enable_mpay_topup info) then Some P_MPAY
      else if on (enable_xpay_topup info) then Some P_XPAY
      else if on (enable_waffo_topup info) then Some P_WAFFO else None)).
Proof.
  cbv zeta. unfold getDefaultPaymentProvider. set (t := getDefaultPaymentType (Some info)).
  destruct (find _ _) as [m|] eqn:E.
  - apply find_sorted_first in E as (Hin & Ht%bool_decide_eq_true & Hmin). split.
    + intros _. exists m. split_and!; try done. intros m' Hm' Ht'. apply Hmin; [done|by apply bool_decide_eq_true].
    + intros H. by destruct (H m Hin).
  - split; [|done]. intros (m & Hm & Ht). exfalso.
    pose proof (find_none _ _ E m) as H. cbv beta in H. apply bool_decide_eq_false in H; [done|].
    apply list_elem_of_In. by apply elem_of_sorted_methods.
Qed.

(** ** Amounts *)

Definition cents (k : Z) : num := ndiv (num_of_Z k) (num_of_Z 100).

Definition range_Z (n : nat) : list Z := map Z.of_nat (seq 0 n).

Lemma range_Z_all (n : nat) (f : Z → bool) k :
  forallb f (range_Z n) = true → (0 ≤ k < Z.of_nat n)%Z → f k = true.
Proof.
  intros H Hk. rewrite forallb_forall in H. apply H. unfold range_Z. apply in_map_iff.
  exists (Z.to_nat k). split; [lia|]. apply in_seq. lia.
Qed.

Definition CENT_LIMIT : nat := Z.to_nat 1001.

Lemma cents_checked :
  forallb (λ k, bool_decide (normalizeTopupAmount (cents k) = cents k)) (range_Z CENT_LIMIT) = true.
Proof. vm_compute. reflexivity. Qed.

(** The canonical amount is always a finite number other than -0, and amounts of whole cents up
    to 10 are fixed points: previewing and ordering the same amount agree. *)
Theorem normalize_amount_canonical (x : num) (k : Z) (Hk : (0 ≤ k ≤ 1000)%Z) :
  is_finite (normalizeTopupAmount x) = true ∧ normalizeTopupAmount x ≠ S754_zero true ∧
  normalizeTopupAmount (cents k) = cents k.
Proof.
  assert (Hz : is_finite (num_of_Z 0) = true ∧ num_of_Z 0 ≠ S754_zero true) by done.
  split_and!.
  - unfold normalizeTopupAmount. destruct (is_finite x); [|done]. cbn [negb]. set (n := ndiv _ _).
    destruct (is_finite n) eqn:E; [|done]. cbn [negb]. case_bool_decide; [done|exact E].
  - unfold normalizeTopupAmount. destruct (is_finite x); [|done]. cbn [negb]. set (n := ndiv _ _).
    destruct (is_finite n) eqn:E; [|done]. cbn [negb]. by case_bool_decide.
  - pose proof (range_Z_all CENT_LIMIT _ k cents_checked) as H. cbv beta in H.
    apply bool_decide_eq_true in H; [done|]. unfold CENT_LIMIT. lia.
Qed.

Lemma normalize_amount_canonical_witness :
  is_finite (normalizeTopupAmount S754_nan) = true ∧ normalizeTopupAmount S754_nan ≠ S754_zero true ∧
  normalizeTopupAmount (cents 999) = cents 999.
Proof. apply (normalize_amount_canonical S754_nan 999). lia. Defined.
