(* ===== verification/Throughput.v ===== *)
(** * Token throughput of a request ([web/default/src/features/usage-logs/lib/throughput.ts])

    The rate shown for a streamed request, taken from the last attempt's stream
    window, or the reason why none is shown. *)

From S2P Require Import Prelude JsString JsNumber JsNumberFacts.

(** ** Data: the fields of the log and its trace that are read *)

Record RelayTraceAttempt := {
  application_body_read_span_ms : option num;
  application_stream_after_first_event_ms : option num }.

(** [other]: an absent [stream_status] is [None], one without a [status] field
    [Some None]. *)
Record LogOtherData := {
  stream_status : option (option str);
  local_count_tokens : option bool;
  attempts : option (list RelayTraceAttempt) }.

Record UsageLog := { is_stream : bool; completion_tokens : num }.

Inductive ThroughputUnavailabilityReason :=
  | buffered_stream | incomplete_stream | unreliable_timing | unreliable_tokens | implausible_rate.

(** [source] has one value, [upstream_after_first_event]. *)
Record LogThroughput := { tokensPerSecond : num; durationMs : num }.

Record LogThroughputAssessment := {
  throughput : option LogThroughput; unavailableReason : option ThroughputUnavailabilityReason }.

(** ** Operations *)

Definition minimumMeasuredDurationMs : num := num_of_Z 1000.
Definition maximumMeasuredTokensPerSecond : num := num_of_Z 1000.

Definition positiveFinite (value : option num) : option num :=
  match value with
  | Some v => if is_finite v && nlt (num_of_Z 0) v then Some v else None
  | None => None
  end.

Definition hasLargeUnparsedBodyLead (attempt : RelayTraceAttempt) : bool :=
  match positiveFinite (application_body_read_span_ms attempt),
        positiveFinite (application_stream_after_first_event_ms attempt) with
  | Some bodyReadSpan, Some streamSpan =>
      if nle bodyReadSpan streamSpan then false
      else nle (math_max minimumMeasuredDurationMs (ndiv streamSpan (num_of_Z 4))) (nsub bodyReadSpan streamSpan)
  | _, _ => false
  end.

Definition makeThroughput (completionTokens duration : num) : option LogThroughput :=
  if nlt duration minimumMeasuredDurationMs then None
  else
    let tps := ndiv (nmul completionTokens (num_of_Z 1000)) duration in
    if negb (is_finite tps) || nle tps (num_of_Z 0) || nlt maximumMeasuredTokensPerSecond tps then None
    else Some {| tokensPerSecond := tps; durationMs := duration |}.

Definition unavailable (r : option ThroughputUnavailabilityReason) : LogThroughputAssessment :=
  {| throughput := None; unavailableReason := r |}.

Definition getLogThroughputAssessment (log : UsageLog) (other : option LogOtherData) : LogThroughputAssessment :=
  if negb (is_stream log) then unavailable None
  else if negb (is_finite (completion_tokens log)) || nle (completion_tokens log) (num_of_Z 0)
  then unavailable (Some unreliable_tokens)
  else if match o ← other; stream_status o with
          | Some st => negb (bool_decide (st = Some (js "ok")))
          | None => false
          end
  then unavailable (Some incomplete_stream)
  else if bool_decide ((o ← other; local_count_tokens o) = Some true)
  then unavailable (Some unreliable_tokens)
  else
    let lastAttempt := o ← other; l ← attempts o; last l in
    match lastAttempt, positiveFinite (a ← lastAttempt; application_stream_after_first_event_ms a) with
    | Some attempt, Some streamDuration =>
        if nlt streamDuration minimumMeasuredDurationMs || hasLargeUnparsedBodyLead attempt
        then unavailable (Some buffered_stream)
        else match makeThroughput (completion_tokens log) streamDuration with
             | None => unavailable (Some implausible_rate)
             | Some t => {| throughput := Some t; unavailableReason := None |}
             end
    | _, _ => unavailable (Some unreliable_timing)
    end.

Definition getLogThroughput (log : UsageLog) (other : option LogOtherData) : option LogThroughput :=
  throughput (getLogThroughputAssessment log other).

Definition formatTokensPerSecond (tps : num) : str :=
  if negb (is_finite tps) || nle tps (num_of_Z 0) then js "-" else to_fixed 1 tps.

(** ** Properties *)

Lemma positiveFinite_spec v x :
  positiveFinite v = Some x → v = Some x ∧ is_finite x = true ∧ nlt (num_of_Z 0) x = true.
Proof.
  destruct v as [y|]; [|done]. unfold positiveFinite. destruct (_ && _) eqn:E; [|done].
  intros [= <-]. by apply andb_prop in E as [??].
Qed.

Lemma makeThroughput_spec tokens d t :
  is_finite d = true → makeThroughput tokens d = Some t →
  t = {| tokensPerSecond := ndiv (nmul tokens (num_of_Z 1000)) d; durationMs := d |}
  ∧ nle minimumMeasuredDurationMs d = true
  ∧ nlt (num_of_Z 0) (tokensPerSecond t) = true
  ∧ nle (tokensPerSecond t) maximumMeasuredTokensPerSecond = true.
Proof.
  intros Hd. unfold makeThroughput. destruct (nlt d minimumMeasuredDurationMs) eqn:Hm; [done|].
  set (tps := ndiv _ d). destruct (is_finite tps) eqn:Hf; [|done]. cbn [negb orb].
  destruct (nle tps (num_of_Z 0)) eqn:H0; [done|].
  destruct (nlt maximumMeasuredTokensPerSecond tps) eqn:H1; [done|]. intros [= <-]. simpl.
  split_and!; [done|by apply not_lt_le| |by apply not_lt_le].
  destruct (nlt (num_of_Z 0) tps) eqn:H; [done|]. apply not_lt_le in H; [congruence|done|done].
Qed.

(** Reading the last attempt's stream window. *)
Definition last_window (other : option LogOtherData) : option num :=
  o ← other; l ← attempts o; a ← last l; application_stream_after_first_event_ms a.

Definition completed (other : option LogOtherData) : Prop :=
  (o ← other; stream_status o) = None ∨ (o ← other; stream_status o) = Some (Some (js "ok")).

(** a rate is shown only for a streamed request whose stream was completed,
    whose tokens were counted upstream, and whose last attempt has a window of at
    least one second; the rate shown is exactly tokens * 1000 / window, it is
    positive and at most 1000, and then no reason is given. *)
Theorem throughput_shown_is_sound log other t :
  getLogThroughput log other = Some t →
  is_stream log = true ∧ completed other ∧ (o ← other; local_count_tokens o) ≠ Some true
  ∧ last_window other = Some (durationMs t)
  ∧ nle minimumMeasuredDurationMs (durationMs t) = true
  ∧ tokensPerSecond t = ndiv (nmul (completion_tokens log) (num_of_Z 1000)) (durationMs t)
  ∧ nlt (num_of_Z 0) (tokensPerSecond t) = true
  ∧ nle (tokensPerSecond t) maximumMeasuredTokensPerSecond = true
  ∧ unavailableReason (getLogThroughputAssessment log other) = None.
Proof.
  unfold getLogThroughput, getLogThroughputAssessment, completed, last_window.
  destruct (is_stream log); [|done]. cbn [negb]. destruct (_ || _); [done|].
  destruct (o ← other; stream_status o) as [st|] eqn:Hst; [destruct (bool_decide_reflect (st = Some (js "ok"))) as [->|]; [|done]|];
    cbn [negb].
  all: destruct (bool_decide_reflect ((o ← other; local_count_tokens o) = Some true)) as [|Hl]; [done|].
  all: destruct (o ← other; l ← attempts o; last l) as [a|] eqn:Ha; [|done].
  all: assert (Hw : (o ← other; l ← attempts o; a ← last l; application_stream_after_first_event_ms a)
                    = application_stream_after_first_event_ms a)
         by (destruct other as [o|]; [|done]; simpl in *; destruct (attempts o); [|done]; simpl in *; by rewrite Ha).
  all: cbn [mbind option_bind]; destruct (positiveFinite _) as [d|] eqn:Hd; [|done];
       apply positiveFinite_spec in Hd as (Hd & Hf & _).
  all: destruct (nlt d _ || _); [done|]; destruct (makeThroughput _ d) as [t'|] eqn:Ht; [|done];
       intros [= <-]; pose proof (makeThroughput_spec _ _ _ Hf Ht) as (-> & ? & ? & ?);
       rewrite Hw; split_and!; auto.
Qed.

(** a request gets a rate, a reason why there is none, or neither; it gets
    neither exactly when it was not streamed, and never both. *)
Theorem throughput_or_reason log other :
  let a := getLogThroughputAssessment log other in
  (throughput a = None ∧ unavailableReason a = None ↔ is_stream log = false)
  ∧ (throughput a = None ∨ unavailableReason a = None).
Proof.
  unfold getLogThroughputAssessment. destruct (is_stream log); cbn [negb];
    repeat case_match; cbn [throughput unavailableReason unavailable]; naive_solver.
Qed.

Definition sample_log : UsageLog := {| is_stream := true; completion_tokens := num_of_Z 120 |}.
Definition sample_other : LogOtherData := {|
  stream_status := Some (Some (js "ok")); local_count_tokens := None;
  attempts := Some [ {| application_body_read_span_ms := None; application_stream_after_first_event_ms := None |};
                     {| application_body_read_span_ms := Some (num_of_Z 2500);
                        application_stream_after_first_event_ms := Some (num_of_Z 2000) |} ] |}.

Lemma throughput_shown_is_sound_witness :
  getLogThroughput sample_log (Some sample_other)
    = Some {| tokensPerSecond := num_of_Z 60; durationMs := num_of_Z 2000 |}
  ∧ last_window (Some sample_other) = Some (num_of_Z 2000).
Proof.
  assert (H : getLogThroughput sample_log (Some sample_other)
    = Some {| tokensPerSecond := num_of_Z 60; durationMs := num_of_Z 2000 |}) by (vm_compute; reflexivity).
  split; [exact H|]. apply (throughput_shown_is_sound _ _ _ H).
Defined.
