(* ===== verification/Currency.v ===== *)
(** * Currency display ([web/default/src/lib/currency.ts], [stores/system-config-store.ts])

    Amounts are kept in USD (or quota units) and shown in the currency the
    administrator configured: a real currency, a custom one, or tokens.

    [Intl.NumberFormat] depends on the reader's locale: it is the parameter [intl]
    of the formatting functions, given the currency code (if any), the number of fraction
    digits and the amount.  Fraction-digit options are natural numbers. *)

From S2P Require Import Prelude JsString Regex JsNumber JsNumberFacts BillingExpr.

(** ** Configuration ([system-config-store.ts]) *)

Record CurrencyConfig := {
  displayInCurrency : bool;
  quotaDisplayType : str;
  quotaPerUnit : num;
  usdExchangeRate : num;
  customCurrencySymbol : str;
  customCurrencyExchangeRate : num }.

(** [Partial<CurrencyConfig>] *)
Record PartialCurrencyConfig := {
  p_displayInCurrency : option bool;
  p_quotaDisplayType : option str;
  p_quotaPerUnit : option num;
  p_usdExchangeRate : option num;
  p_customCurrencySymbol : option str;
  p_customCurrencyExchangeRate : option num }.

Definition DEFAULT_CURRENCY_CONFIG : CurrencyConfig := {|
  displayInCurrency := true;
  quotaDisplayType := js "USD";
  quotaPerUnit := num_of_Z 500000;
  usdExchangeRate := num_of_Z 1;
  customCurrencySymbol := js "¤";
  customCurrencyExchangeRate := num_of_Z 1 |}.

(** A complete configuration seen as a partial one. *)
Definition partial_config (c : CurrencyConfig) : PartialCurrencyConfig := {|
  p_displayInCurrency := Some (displayInCurrency c);
  p_quotaDisplayType := Some (quotaDisplayType c);
  p_quotaPerUnit := Some (quotaPerUnit c);
  p_usdExchangeRate := Some (usdExchangeRate c);
  p_customCurrencySymbol := Some (customCurrencySymbol c);
  p_customCurrencyExchangeRate := Some (customCurrencyExchangeRate c) |}.

(** ** Options *)

Record CurrencyFormatOptions := {
  o_digitsLarge : option nat;
  o_digitsSmall : option nat;
  o_maximumFractionDigits : option nat;
  o_abbreviate : option bool;
  o_minimumNonZero : option num;
  o_preservePrecision : option bool }.

(** [Required<CurrencyFormatOptions>] *)
Record RequiredFormatOptions := {
  digitsLarge : nat;
  digitsSmall : nat;
  maximumFractionDigits : nat;
  abbreviate : bool;
  minimumNonZero : num;
  preservePrecision : bool }.

Definition DEFAULT_FORMAT_OPTIONS : RequiredFormatOptions := {|
  digitsLarge := 2; digitsSmall := 2; maximumFractionDigits := 2;
  abbreviate := true; minimumNonZero := num_of_Z 0; preservePrecision := false |}.

Definition MAX_UI_FRACTION_DIGITS : nat := 2.

Definition DISPLAY_TYPE_VALUES : list str := [js "USD"; js "CNY"; js "TOKENS"; js "CUSTOM"].

Definition isCurrencyDisplayType (value : str) : bool := bool_decide (value ∈ DISPLAY_TYPE_VALUES).

Definition parseCurrencyDisplayType (value fallback : str) : str :=
  if isCurrencyDisplayType value then value else fallback.

Inductive DisplayMeta :=
  | MCurrency (symbol currencyCode : str) (exchangeRate : num)
  | MCustom (symbol : str) (exchangeRate : num)
  | MTokens (quotaPerUnit : num).

Record BillingCurrencyDisplay := { label : str; symbol : str; exchangeRate : num }.

(** [x && x > 0 ? x : fallback] *)
Definition positive_or (x : option num) (fallback : num) : num :=
  match x with
  | Some v => if num_truthy v && nlt (num_of_Z 0) v then v else fallback
  | None => fallback
  end.

Definition normalizeCurrencyConfig (currency : option PartialCurrencyConfig) : CurrencyConfig :=
  let resolved := default (partial_config DEFAULT_CURRENCY_CONFIG) currency in
  {| displayInCurrency := default (displayInCurrency DEFAULT_CURRENCY_CONFIG) (p_displayInCurrency resolved);
     quotaDisplayType := default (quotaDisplayType DEFAULT_CURRENCY_CONFIG) (p_quotaDisplayType resolved);
     quotaPerUnit := positive_or (p_quotaPerUnit resolved) (quotaPerUnit DEFAULT_CURRENCY_CONFIG);
     usdExchangeRate := positive_or (p_usdExchangeRate resolved) (usdExchangeRate DEFAULT_CURRENCY_CONFIG);
     customCurrencyExchangeRate :=
       positive_or (p_customCurrencyExchangeRate resolved) (customCurrencyExchangeRate DEFAULT_CURRENCY_CONFIG);
     customCurrencySymbol :=
       let s := default [] (trim <$> p_customCurrencySymbol resolved) in
       if truthy s then s else customCurrencySymbol DEFAULT_CURRENCY_CONFIG |}.

(** [getConfig()], of the store's [config?.currency]. *)
Definition getConfig (stored : option PartialCurrencyConfig) : CurrencyConfig := normalizeCurrencyConfig stored.

Definition USD_META : DisplayMeta := MCurrency (js "$") (js "USD") (num_of_Z 1).

Definition getDisplayMeta (config : CurrencyConfig) : DisplayMeta :=
  if bool_decide (quotaDisplayType config = js "CNY")
  then MCurrency (js "¥") (js "CNY") (usdExchangeRate config)
  else if bool_decide (quotaDisplayType config = js "CUSTOM")
  then MCustom (customCurrencySymbol config) (customCurrencyExchangeRate config)
  else if bool_decide (quotaDisplayType config = js "TOKENS") then MTokens (quotaPerUnit config)
  else USD_META.

Definition getBillingDisplayMeta (config : CurrencyConfig) : DisplayMeta :=
  match getDisplayMeta config with MTokens _ => USD_META | meta => meta end.

Definition getBillingCurrencyDisplay (config : CurrencyConfig) : BillingCurrencyDisplay :=
  match getBillingDisplayMeta (normalizeCurrencyConfig (Some (partial_config config))) with
  | MCurrency sym code rate => {| label := code; symbol := sym; exchangeRate := rate |}
  | MCustom sym rate => {| label := sym; symbol := sym; exchangeRate := rate |}
  | MTokens _ => {| label := js "USD"; symbol := js "$"; exchangeRate := num_of_Z 1 |}
  end.

Definition convertUSDToBillingCurrency (amountUSD : num) (display : BillingCurrencyDisplay) : num :=
  nmul amountUSD (exchangeRate display).

Definition convertBillingCurrencyToUSD (displayAmount : num) (display : BillingCurrencyDisplay) : num :=
  ndiv displayAmount (exchangeRate display).

(** [a ?? b] on optional options *)
Definition or_else {A} (a b : option A) : option A := match a with Some _ => a | None => b end.

Definition mergeOptions (options : option CurrencyFormatOptions) : RequiredFormatOptions :=
  match options with
  | None => DEFAULT_FORMAT_OPTIONS
  | Some o =>
      let fallbackDigits := default (digitsLarge DEFAULT_FORMAT_OPTIONS) (o_maximumFractionDigits o) in
      let maxDigits := if default false (o_preservePrecision o) then 8 else MAX_UI_FRACTION_DIGITS in
      {| digitsLarge := default fallbackDigits (o_digitsLarge o) `min` maxDigits;
         digitsSmall :=
           default (digitsSmall DEFAULT_FORMAT_OPTIONS) (or_else (o_digitsSmall o) (o_maximumFractionDigits o))
             `min` maxDigits;
         maximumFractionDigits := default maxDigits (o_maximumFractionDigits o) `min` maxDigits;
         abbreviate := default (abbreviate DEFAULT_FORMAT_OPTIONS) (o_abbreviate o);
         minimumNonZero := default (minimumNonZero DEFAULT_FORMAT_OPTIONS) (o_minimumNonZero o);
         preservePrecision := default (preservePrecision DEFAULT_FORMAT_OPTIONS) (o_preservePrecision o) |}
  end.

(** ** Number text *)

(** [/(\.[0-9]*?)0+$/] *)
Definition TRAILING_ZEROS_RE : regex :=
  rseq [RGroup 1 (RSeq (rlit (js ".")) (RStar false c_digit)); rplus (rlit (js "0")); REol].

(** [/\.$/] *)
Definition TRAILING_POINT_RE : regex := rseq [rlit (js "."); REol].

Definition removeTrailingZeros (s : str) : str :=
  if negb (includes (js ".") s) then s
  else replace_first 0 TRAILING_POINT_RE (λ _, []) (replace_first 1 TRAILING_ZEROS_RE (λ cs, cap cs 1) s).

Definition formatNumberWithSuffix (value : num) (dLarge dSmall : nat) (abbrev : bool) : str :=
  let abs := math_abs value in
  if abbrev && nle (num_of_Z 1000) abs
  then removeTrailingZeros (to_fixed 1 (ndiv value (num_of_Z 1000))) ++ js "k"
  else
    let digits := if nle (num_of_Z 1) abs then dLarge else dSmall in
    removeTrailingZeros (to_fixed digits value).

Definition adjustForMinimum (value : num) (digits : nat) (minimum : num) : num :=
  if num_eqb value (num_of_Z 0) then value
  else
    let threshold := if nlt (num_of_Z 0) minimum then minimum else pow10 (- Z.of_nat digits) in
    let abs := math_abs value in
    if nlt (num_of_Z 0) abs && nlt abs threshold
    then if nlt (num_of_Z 0) value then threshold else SFopp threshold
    else value.

Definition roundToFractionDigits (value : num) (digits : nat) : num :=
  let factor := pow10 (Z.of_nat digits) in
  ndiv (math_round (nmul (nadd value EPSILON) factor)) factor.

(** [/^(-?\d+\.\d*?[1-9])0{3,}\d+$/] *)
Definition ZERO_RUN_RE : regex :=
  rseq [RBol;
        RGroup 1 (rseq [ROpt (rlit (js "-")); rplus c_digit; rlit (js "."); RStar false c_digit;
                        RChar (λ c, (49 <=? c) && (c <=? 57))%N]);
        rlit (js "000"); rstar (rlit (js "0")); rplus c_digit; REol].

Definition trimZeroRunNoise (value : num) : option num :=
  match match_re 1 ZERO_RUN_RE (to_fixed 12 value) with
  | None => None
  | Some cs => let normalized := number_of_string (cap cs 1) in
               if is_finite normalized then Some normalized else None
  end.

(** The loop over [digits], from [d] up with [n] rounds left. *)
Fixpoint first_close_rounding (value : num) (d n : nat) : option num :=
  match n with
  | O => None
  | S n' =>
      let rounded := roundToFractionDigits value d in
      if nle (math_abs (nsub value rounded)) (dec_to_num 3 (-7)) then Some rounded
      else first_close_rounding value (S d) n'
  end.

Definition normalizePrecisionNoise (value : num) (options : RequiredFormatOptions) : num :=
  if negb (preservePrecision options) || negb (is_finite value) then value
  else
    let nearestInteger := math_round value in
    if nle (math_abs (nsub value nearestInteger)) (dec_to_num 1 (-6)) then nearestInteger
    else
      match trimZeroRunNoise value with
      | Some zeroRunTrimmed => zeroRunTrimmed
      | None =>
          let maxDigits :=
            (digitsLarge options `max` digitsSmall options `max` maximumFractionDigits options) `min` 8 in
          match first_close_rounding value 0 (S maxDigits) with
          | Some rounded => rounded
          | None => roundToFractionDigits value maxDigits
          end
      end.

(** ** Formatting *)

Section formatting.
Context (intl : option str → nat → num → str).

Definition formatCurrencyValue (value : num) (options : RequiredFormatOptions) (meta : DisplayMeta) : str :=
  let digits := if nle (num_of_Z 1) (math_abs value) then digitsLarge options else digitsSmall options in
  let adjustedValue :=
    normalizePrecisionNoise (adjustForMinimum value digits (minimumNonZero options)) options in
  match meta with
  | MTokens _ => formatNumberWithSuffix value (digitsLarge options) (digitsSmall options) (abbreviate options)
  | MCurrency _ code _ => intl (Some code) digits adjustedValue
  | MCustom sym _ => sym ++ js " " ++ intl None digits adjustedValue
  end.

Context (stored : option PartialCurrencyConfig).

Definition getCurrencyDisplay : CurrencyConfig * DisplayMeta :=
  let config := getConfig stored in (config, getDisplayMeta config).

Definition formatCurrencyFromUSD (amountUSD : option num) (options : option CurrencyFormatOptions) : str :=
  match amountUSD with
  | None => js "-"
  | Some amount =>
      if is_nan amount then js "-"
      else
        let '(config, meta) := getCurrencyDisplay in
        let merged := mergeOptions options in
        match meta with
        | MTokens _ =>
            formatNumberWithSuffix (nmul amount (quotaPerUnit config)) 0 (digitsSmall merged) (abbreviate merged)
        | MCurrency _ _ rate | MCustom _ rate => formatCurrencyValue (nmul amount rate) merged meta
        end
  end.

Definition formatBillingCurrencyFromUSD (amountUSD : option num) (options : option CurrencyFormatOptions) : str :=
  match amountUSD with
  | None => js "-"
  | Some amount =>
      if is_nan amount then js "-"
      else
        let config := fst getCurrencyDisplay in
        let meta := getBillingDisplayMeta config in
        let value := match meta with
                     | MCurrency _ _ rate | MCustom _ rate => nmul amount rate
                     | MTokens _ => amount
                     end in
        formatCurrencyValue value (mergeOptions options) meta
  end.

Definition formatQuotaWithCurrency (quota : option num) (options : option CurrencyFormatOptions) : str :=
  match quota with
  | None => js "-"
  | Some q =>
      if is_nan q then js "-"
      else formatCurrencyFromUSD (Some (ndiv q (quotaPerUnit (fst getCurrencyDisplay)))) options
  end.

Definition formatAccountingQuotaWithCurrency (quota : option num) (options : option CurrencyFormatOptions) : str :=
  let own {A} (f : CurrencyFormatOptions → option A) (d : option A) : option A := or_else (o ← options; f o) d in
  formatQuotaWithCurrency quota (Some {|
    o_digitsLarge := own o_digitsLarge (Some 6);
    o_digitsSmall := own o_digitsSmall (Some 8);
    o_maximumFractionDigits := own o_maximumFractionDigits None;
    o_abbreviate := own o_abbreviate (Some false);
    o_minimumNonZero := own o_minimumNonZero (Some (dec_to_num 1 (-8)));
    o_preservePrecision := Some true |}).

Definition getCurrencyLabel : str :=
  let '(config, meta) := getCurrencyDisplay in
  match meta with
  | MTokens _ => js "Tokens"
  | _ =>
      if bool_decide (quotaDisplayType config = js "CNY") then js "CNY"
      else if bool_decide (quotaDisplayType config = js "CUSTOM")
      then match meta with MCustom sym _ => sym | _ => js "Custom" end
      else js "USD"
  end.

Definition isCurrencyDisplayEnabled : bool := match snd getCurrencyDisplay with MTokens _ => false | _ => true end.

Definition formatLocalCurrencyAmount (amount : option num) (options : option CurrencyFormatOptions) : str :=
  match amount with
  | None => js "-"
  | Some a =>
      if is_nan a then js "-"
      else formatCurrencyValue a (mergeOptions options) (getBillingDisplayMeta (fst getCurrencyDisplay))
  end.
End formatting.

(** ** Trailing zeros *)

(** The fraction digits up to the last non-zero one. *)
Fixpoint frac_body (fp : str) : str :=
  if forallb (N.eqb 48) fp then [] else match fp with c :: t => c :: frac_body t | [] => [] end.

Lemma frac_body_spec fp : ∃ n, fp = frac_body fp ++ replicate n 48%N.
Proof.
  induction fp as [|c fp [n IH]]; [by exists 0|]. cbn [frac_body]. destruct (forallb _ _) eqn:E.
  - exists (length (c :: fp)). symmetry. apply replicate_as_elem_of. split; [done|].
    intros d Hd. rewrite forallb_forall in E. symmetry. apply N.eqb_eq, E, list_elem_of_In, Hd.
  - exists n. simpl. by rewrite <- IH.
Qed.

Lemma frac_body_last fp : last (frac_body fp) ≠ Some 48%N.
Proof.
  induction fp as [|c fp IH]; [done|]. cbn [frac_body]. destruct (forallb _ _) eqn:E; [done|].
  destruct (frac_body fp) as [|d b] eqn:Hb.
  - simpl. intros [= ->]. destruct (frac_body_spec fp) as [n Hn]. rewrite Hb in Hn. simpl in Hn.
    rewrite Hn in E. cbn [forallb] in E. rewrite N.eqb_refl in E. cbn [andb] in E.
    apply not_true_iff_false in E. apply E, forallb_forall. intros d Hd.
    apply list_elem_of_In, elem_of_replicate in Hd as [-> _]. apply N.eqb_refl.
  - by rewrite last_cons_cons.
Qed.

Lemma lazy_zeros k F cs bef fp :
  Forall (λ c, is_digit c = true) fp →
  (∀ b aft, k (mk b aft cs) = if truthy aft && forallb (N.eqb 48) aft then Some (F b aft) else None) →
  lazy_run is_digit k cs bef fp
  = match drop (length (frac_body fp)) fp with
    | [] => None
    | zs => Some (F (rev (frac_body fp) ++ bef) zs)
    end.
Proof.
  intros Hd Hk. revert bef. induction Hd as [|c fp Hc Hd IH]; intros bef; cbn [lazy_run frac_body]; rewrite Hk; [done|].
  cbn [truthy andb]. destruct (forallb _ _) eqn:E; [done|].
  rewrite Hc, IH. cbn [length drop]. simpl rev. by rewrite <- app_assoc.
Qed.

(** [/(\.[0-9]*?)0+$/] at a decimal point. *)
Lemma match_zeros bef fp :
  Forall (λ c, is_digit c = true) fp →
  match_at 1 TRAILING_ZEROS_RE bef (46%N :: fp)
  = match drop (length (frac_body fp)) fp with
    | [] => None
    | zs => Some (mk (rev zs ++ rev (frac_body fp) ++ 46%N :: bef) []
                     [Some (46%N :: fp); Some (46%N :: frac_body fp)])
    end.
Proof.
  intros Hd. unfold match_at, TRAILING_ZEROS_RE. rewrite m_group. cbn [rseq]. rewrite m_seq, m_group, m_seq.
  rewrite (m_lit (js ".") _ bef fp). unfold c_digit. rewrite m_lazy.
  erewrite lazy_zeros with (F := λ b aft, mk (rev aft ++ b) []
    [Some (46%N :: fp); Some (take (length (46%N :: fp) - length aft) (46%N :: fp))]); [|done|].
  - destruct (drop _ fp) as [|z zs] eqn:Hz; [done|]. do 4 f_equal.
    pose proof (take_drop (length (frac_body fp)) fp) as Ht. rewrite Hz in Ht.
    assert (Hb : take (length (frac_body fp)) fp = frac_body fp).
    { destruct (frac_body_spec fp) as [n Hn]. rewrite Hn at 2. apply take_app_length. }
    rewrite Hb in Ht. rewrite <- Ht at 1 2. change (46%N :: frac_body fp ++ z :: zs) with ((46%N :: frac_body fp) ++ z :: zs).
    by rewrite take_consumed.
  - intros b aft. cbn [before after caps]. change (rlit (js "0")) with (RChar (N.eqb 48)).
    rewrite m_seq, m_plus_eol. destruct (_ && _); [|done].
    change (length []) with 0. rewrite Nat.sub_0_r, (firstn_all (46%N :: fp)). done.
Qed.

Lemma exec_zeros_none bef s : 46%N ∉ s → exec_from 1 TRAILING_ZEROS_RE bef s = None.
Proof.
  intros Hs. rewrite <- (app_nil_r s), exec_from_over; [done|].
  intros bef' c t Hc. unfold match_at. cbn [rseq TRAILING_ZEROS_RE]. rewrite m_group, m_seq, m_group, m_seq.
  apply (m_lit_head_fail 46 []). set_solver.
Qed.

Lemma replace_zeros ip fp :
  46%N ∉ ip → Forall (λ c, is_digit c = true) fp →
  replace_first 1 TRAILING_ZEROS_RE (λ cs, cap cs 1) (ip ++ 46%N :: fp) = ip ++ 46%N :: frac_body fp.
Proof.
  intros Hip Hd. unfold replace_first. rewrite exec_from_over.
  2:{ intros bef' c t Hc. unfold match_at. cbn [rseq TRAILING_ZEROS_RE]. rewrite m_group, m_seq, m_group, m_seq.
      apply (m_lit_head_fail 46 []). set_solver. }
  destruct (frac_body_spec fp) as [n Hn].
  assert (Hz : drop (length (frac_body fp)) fp = replicate n 48%N).
  { rewrite Hn at 2. apply drop_app_length. }
  rewrite app_nil_r. pose proof (match_zeros (rev ip) fp Hd) as Hm. rewrite Hz in Hm.
  destruct n as [|n]; simpl replicate in Hm.
  - rewrite exec_from_next by done. rewrite exec_zeros_none.
    + simpl in Hn. rewrite app_nil_r in Hn. by rewrite <- Hn.
    + intros H. rewrite Forall_forall in Hd. by apply Hd in H.
  - rewrite (exec_from_here _ _ _ _ _ Hm). cbn [before after caps cap lookup list_lookup default].
    change (default None (Some (Some (46%N :: fp)))) with (Some (46%N :: fp)). cbn [default].
    replace (length _ - length _) with (length ip).
    + rewrite take_app_length. by rewrite app_nil_r.
    + assert (length fp = length (frac_body fp) + S n) by (rewrite Hn at 1; by rewrite length_app, length_replicate).
      rewrite !length_app, !length_rev. simpl. rewrite length_rev, length_replicate. lia.
Qed.

Lemma replace_point ip b :
  46%N ∉ ip → Forall (λ c, is_digit c = true) b →
  replace_first 0 TRAILING_POINT_RE (λ _, []) (ip ++ 46%N :: b) = ip ++ match b with [] => [] | _ => 46%N :: b end.
Proof.
  intros Hip Hb. unfold replace_first.
  assert (Hfail : ∀ bef c t, c ≠ 46%N → match_at 0 TRAILING_POINT_RE bef (c :: t) = None).
  { intros bef c t Hc. unfold match_at. cbn [rseq TRAILING_POINT_RE]. rewrite m_group, m_seq.
    by apply (m_lit_head_fail 46 []). }
  rewrite exec_from_over by (intros; apply Hfail; set_solver). rewrite app_nil_r.
  destruct b as [|c b].
  - rewrite (exec_from_here _ _ _ _ (mk (46%N :: rev ip) [] [Some [46%N]])) by done.
    cbn [before after caps]. change (default [] _) with [46%N].
    rewrite length_cons, length_rev, Nat.sub_1_r, Nat.pred_succ, take_app_length. done.
  - rewrite exec_from_next by done. rewrite <- (app_nil_r (c :: b)) at 1.
    rewrite exec_from_over; [done|]. intros bef d t Hd. apply Hfail. intros ->.
    rewrite Forall_forall in Hb. by apply Hb in Hd.
Qed.

(** of a decimal text the display removes exactly the zeros at the end of the
    fraction, and the point when no digit is left after it. *)
Theorem remove_trailing_zeros_exact ip fp :
  46%N ∉ ip → Forall (λ c, is_digit c = true) fp →
  ∃ body n, fp = body ++ replicate n 48%N ∧ last body ≠ Some 48%N
    ∧ removeTrailingZeros (ip ++ 46%N :: fp) = ip ++ match body with [] => [] | _ => 46%N :: body end.
Proof.
  intros Hip Hd. destruct (frac_body_spec fp) as [n Hn]. exists (frac_body fp), n.
  split_and!; [done|apply frac_body_last|]. unfold removeTrailingZeros.
  replace (includes (js ".") (ip ++ 46%N :: fp)) with true by (symmetry; apply includes_spec; by exists ip, fp).
  cbn [negb]. rewrite replace_zeros by done. apply replace_point; [done|].
  rewrite Hn in Hd. by apply Forall_app in Hd as [? _].
Qed.

Lemma remove_trailing_zeros_exact_witness :
  removeTrailingZeros (js "12.3400") = js "12.34"
  ∧ ∃ body n, js "3400" = body ++ replicate n 48%N ∧ last body ≠ Some 48%N
      ∧ removeTrailingZeros (js "12" ++ 46%N :: js "3400") = js "12" ++ match body with [] => [] | _ => 46%N :: body end.
Proof.
  split; [vm_compute; reflexivity|]. apply (remove_trailing_zeros_exact (js "12") (js "3400")).
  - apply (bool_decide_unpack (46%N ∉ js "12")). vm_compute. exact I.
  - apply (bool_decide_unpack (Forall (λ c, is_digit c = true) (js "3400"))). vm_compute. exact I.
Defined.

(** ** Configuration *)

Lemma positive_or_pos x d : nlt (num_of_Z 0) d = true → nlt (num_of_Z 0) (positive_or x d) = true.
Proof.
  intros Hd. unfold positive_or. destruct x as [v|]; [|done]. destruct (_ && _) eqn:E; [|done].
  by apply andb_prop in E as [_ ?].
Qed.

Lemma pos_truthy v : nlt (num_of_Z 0) v = true → num_truthy v = true.
Proof. by destruct v as [[]|[]| |[]]. Qed.

Lemma positive_or_id v d : nlt (num_of_Z 0) v = true → positive_or (Some v) d = v.
Proof. intros H. unfold positive_or. by rewrite pos_truthy, H. Qed.

Lemma normalized_symbol stored :
  let s := customCurrencySymbol (normalizeCurrencyConfig stored) in s ≠ [] ∧ trim s = s.
Proof.
  unfold normalizeCurrencyConfig. cbn [customCurrencySymbol].
  destruct (p_customCurrencySymbol _) as [t|]; [|done]. cbn [fmap option_fmap option_map default].
  pose proof (trim_idemp t) as Ht. cbn [id]. by destruct (trim t) as [|x y].
Qed.

Lemma normalized_rates stored :
  let c := normalizeCurrencyConfig stored in
  nlt (num_of_Z 0) (quotaPerUnit c) = true ∧ nlt (num_of_Z 0) (usdExchangeRate c) = true
  ∧ nlt (num_of_Z 0) (customCurrencyExchangeRate c) = true.
Proof. split_and!; by apply positive_or_pos. Qed.

Lemma normalizeCurrencyConfig_idemp stored :
  normalizeCurrencyConfig (Some (partial_config (normalizeCurrencyConfig stored))) = normalizeCurrencyConfig stored.
Proof.
  pose proof (normalized_symbol stored) as [Hs1 Hs2]. pose proof (normalized_rates stored) as (? & ? & ?).
  set (c := normalizeCurrencyConfig stored) in *.
  unfold normalizeCurrencyConfig. cbv zeta. cbn [default from_option id partial_config p_displayInCurrency
    p_quotaDisplayType p_quotaPerUnit p_usdExchangeRate p_customCurrencySymbol p_customCurrencyExchangeRate fmap
    option_fmap option_map].
  rewrite !positive_or_id by done. rewrite Hs2. destruct c as [? ? ? ? sym ?]. simpl in *. by destruct sym.
Qed.

(** whatever is stored, the configuration that is used has positive quota and
    exchange rates and a non-empty trimmed custom symbol; normalising it again changes nothing. *)
Theorem normalize_config_sound stored :
  let c := normalizeCurrencyConfig stored in
  nlt (num_of_Z 0) (quotaPerUnit c) = true
  ∧ nlt (num_of_Z 0) (usdExchangeRate c) = true
  ∧ nlt (num_of_Z 0) (customCurrencyExchangeRate c) = true
  ∧ customCurrencySymbol c ≠ [] ∧ trim (customCurrencySymbol c) = customCurrencySymbol c
  ∧ normalizeCurrencyConfig (Some (partial_config c)) = c.
Proof.
  intros c. pose proof (normalized_symbol stored) as [? ?]. pose proof (normalized_rates stored) as (? & ? & ?).
  split_and!; try done. apply normalizeCurrencyConfig_idemp.
Qed.

(** showing a USD amount for billing converts it once by the configured rate and then shows the
    result as an amount that is already in the local currency. *)
Theorem billing_converts_once intl stored amount options :
  let rate := exchangeRate (getBillingCurrencyDisplay (getConfig stored)) in
  is_nan amount = false → is_nan (nmul amount rate) = false →
  formatBillingCurrencyFromUSD intl stored (Some amount) options
  = formatLocalCurrencyAmount intl stored
      (Some (convertUSDToBillingCurrency amount (getBillingCurrencyDisplay (getConfig stored)))) options.
Proof.
  intros rate Hn Hr. unfold formatBillingCurrencyFromUSD, formatLocalCurrencyAmount, convertUSDToBillingCurrency.
  rewrite Hn. fold rate. rewrite Hr. cbn [fst getCurrencyDisplay].
  pose proof (normalizeCurrencyConfig_idemp stored) as H. fold (getConfig stored) in H.
  unfold rate, getBillingCurrencyDisplay. rewrite H. unfold getBillingDisplayMeta.
  by destruct (getDisplayMeta (getConfig stored)).
Qed.

Lemma billing_converts_once_witness :
  formatBillingCurrencyFromUSD (λ c d x, default [] c ++ to_fixed d x) None (Some (num_of_Z 3)) None
  = formatLocalCurrencyAmount (λ c d x, default [] c ++ to_fixed d x) None
      (Some (convertUSDToBillingCurrency (num_of_Z 3) (getBillingCurrencyDisplay (getConfig None)))) None.
Proof. apply (billing_converts_once (λ c d x, default [] c ++ to_fixed d x) None (num_of_Z 3) None); vm_compute; reflexivity. Defined.

(** ** Small amounts *)

Lemma zero_lt_abs v : is_finite v = true → num_eqb v (num_of_Z 0) = false → nlt (num_of_Z 0) (math_abs v) = true.
Proof. by destruct v as [[]| | |[]]. Qed.

(** the minimum that is displayed: a finite amount that is not zero is never shown below the minimum, in
    magnitude, keeps its sign, and is unchanged when it reaches the minimum. *)
Theorem adjust_for_minimum_spec v digits minimum :
  is_finite v = true → is_finite minimum = true → nlt (num_of_Z 0) minimum = true →
  num_eqb v (num_of_Z 0) = false →
  let r := adjustForMinimum v digits minimum in
  nle minimum (math_abs r) = true
  ∧ nlt (num_of_Z 0) r = nlt (num_of_Z 0) v
  ∧ (nle minimum (math_abs v) = true → r = v).
Proof.
  intros Hv Hm Hpos Hz r. unfold r, adjustForMinimum. rewrite Hz, Hpos, (zero_lt_abs v Hv Hz). cbn [andb].
  assert (Habs : math_abs minimum = minimum ∧ math_abs (SFopp minimum) = minimum)
    by (by destruct minimum as [[]|[]| |[]]).
  assert (Hneg : nlt (num_of_Z 0) (SFopp minimum) = false) by (by destruct minimum as [[]|[]| |[]]).
  destruct Habs as [Ha Hb]. destruct (nlt (math_abs v) minimum) eqn:Hlt.
  - destruct (nlt (num_of_Z 0) v); rewrite ?Ha, ?Hb, ?Hpos, ?Hneg;
      (split_and!; [by apply nle_refl, finite_not_nan|done|intros Hle; by destruct (nlt_le_asymm _ _ Hlt Hle)]).
  - split_and!; [|done|done]. apply not_lt_le; [by destruct v as [| | |[]]|done|done].
Qed.

Lemma adjust_for_minimum_spec_witness :
  adjustForMinimum (dec_to_num 5 (-10)) 8 (dec_to_num 1 (-8)) = dec_to_num 1 (-8)
  ∧ nle (dec_to_num 1 (-8)) (math_abs (adjustForMinimum (dec_to_num 5 (-10)) 8 (dec_to_num 1 (-8)))) = true.
Proof.
  split; [vm_compute; reflexivity|].
  apply (adjust_for_minimum_spec (dec_to_num 5 (-10)) 8 (dec_to_num 1 (-8))); vm_compute; reflexivity.
Defined.

Definition tokens_config : PartialCurrencyConfig := {|
  p_displayInCurrency := None; p_quotaDisplayType := Some (js "TOKENS"); p_quotaPerUnit := Some (num_of_Z 500000);
  p_usdExchangeRate := None; p_customCurrencySymbol := None; p_customCurrencyExchangeRate := None |}.

Definition custom_config : PartialCurrencyConfig := {|
  p_displayInCurrency := None; p_quotaDisplayType := Some (js "CUSTOM"); p_quotaPerUnit := None;
  p_usdExchangeRate := None; p_customCurrencySymbol := Some (js "€");
  p_customCurrencyExchangeRate := Some (dec_to_num 9 (-1)) |}.

(** With the default options a token display abbreviates thousands, and a custom currency is
    separated from its amount by a space, unlike the examples in the documentation of [formatCurrencyFromUSD]. *)
Lemma documented_examples_differ intl :
  formatCurrencyFromUSD intl (Some tokens_config) (Some (num_of_Z 10)) None = js "5000k"
  ∧ formatCurrencyFromUSD intl (Some custom_config) (Some (num_of_Z 10)) None
    = js "€ " ++ intl None 2 (num_of_Z 9).
Proof. split; vm_compute; reflexivity. Qed.
