(* ===== verification/Price.v ===== *)
(** * Model prices ([web/default/src/features/pricing/lib/price.ts], [pricing/types.ts], [pricing/constants.ts])

    The group a model is cheapest in, the groups of a model in price order, and the prices shown for
    tokens and requests.

    Records used as maps ([group_ratio]) are association lists in the order of their
    properties.  [String.prototype.toLowerCase] follows the Unicode tables: it is a
    parameter, and nothing is assumed of it.  [Intl.NumberFormat] is the parameter [intl] of [Currency]. *)

From S2P Require Import Prelude JsString Regex JsNumber JsNumberFacts BillingExpr Currency.

(** ** Data *)

Record PricingModel := {
  model_name : option str;
  description : option str;
  vendor_name : option str;
  quota_type : num;
  model_ratio : num;
  completion_ratio : num;
  model_price : option num;
  cache_ratio : option num;
  create_cache_ratio : option num;
  image_ratio : option num;
  audio_ratio : option num;
  audio_completion_ratio : option num;
  enable_groups : option (list str);
  tags : option str;
  supported_endpoint_types : option (list str);
  group_ratio : option (list (str * num));
  billing_mode : option str;
  billing_expr : option str }.

Inductive TokenUnit := M | K.

Inductive PriceType := input | output | cache | create_cache | image | audio_input | audio_output.

Definition EXCLUDED_GROUPS : list str := [[]; js "auto"; js "super"].

Definition QUOTA_TOKEN : num := num_of_Z 0.
Definition QUOTA_REQUEST : num := num_of_Z 1.

Definition TOKEN_UNIT_DIVISORS (u : TokenUnit) : num := match u with M => num_of_Z 1 | K => num_of_Z 1000 end.

Definition PRICING_DISPLAY_OPTIONS : CurrencyFormatOptions := {|
  o_digitsLarge := Some 8; o_digitsSmall := Some 8; o_maximumFractionDigits := None;
  o_abbreviate := Some false; o_minimumNonZero := Some (dec_to_num 1 (-8)); o_preservePrecision := Some true |}.

(** ** Trailing zeros of a formatted price *)

(** [/^([^\d-]* )([-\d,]+\.?\d* )(k?)$/] *)
Definition PRICE_TEXT_RE : regex :=
  RSeq RBol (rseq [
    RGroup 1 (rstar (RChar (λ c, negb (is_digit c || (c =? 45)%N))));
    RGroup 2 (rseq [rplus (RChar (λ c, is_digit c || (c =? 45)%N || (c =? 44)%N)); ROpt (rlit (js ".")); rstar c_digit]);
    RGroup 3 (ROpt (rlit (js "k"))); REol]).

(** [/\.?0+$/] *)
Definition ZERO_TAIL_RE : regex := rseq [ROpt (rlit (js ".")); rplus (rlit (js "0")); REol].

Definition stripTrailingZeros (formatted : str) : str :=
  match match_re 3 PRICE_TEXT_RE formatted with
  | None => formatted
  | Some cs =>
      let cleanNumber := List.filter (λ c, negb (c =? 44)%N) (cap cs 2) in
      let parsed := parse_float cleanNumber in
      if is_nan parsed then formatted
      else
        let text := string_of_num parsed in
        let result := if includes (js "e") text
                      then replace_first 0 ZERO_TAIL_RE (λ _, []) (to_fixed 20 parsed) else text in
        cap cs 1 ++ result ++ cap cs 3
  end.

(** ** Groups *)

(** [ratios[group]] *)
Definition ratio_of (ratios : list (str * num)) (g : str) : option num :=
  snd <$> find (λ kv, bool_decide (fst kv = g)) ratios.

(** [validGroupRatio(ratio)]; a missing ratio is [undefined], whose number is [NaN]. *)
Definition validGroupRatio (ratio : option num) : bool :=
  match ratio with Some v => is_finite v && nlt (num_of_Z 0) v | None => false end.

Definition excluded (g : str) : bool := bool_decide (g ∈ EXCLUDED_GROUPS).

Definition getPublicGroupRatio (groupRatio : list (str * num)) : list (str * num) :=
  List.filter (λ kv, negb (excluded (fst kv))) groupRatio.

(** The minimum-tracking loop of [findMinGroup]: the best group so far and its ratio. *)
Definition min_step (ratios : list (str * num)) (best : option str * num) (g : str) : option str * num :=
  match ratio_of ratios g with
  | Some r => if validGroupRatio (Some r) && nlt r (snd best) then (Some g, r) else best
  | None => best
  end.

Definition findMinGroup (ratios : list (str * num)) (groups : list str) : option str :=
  fst (fold_left (min_step ratios) groups (None, S754_infinity false)).

(** [ratio] when it is valid, else infinity. *)
Definition ratio_or_inf (ratio : option num) : num :=
  if validGroupRatio ratio then default S754_nan ratio else S754_infinity false.

Section pricing.
Context (toLowerCase : str → str).

Definition getModelPricingDirection (modelName : option str) : option str :=
  let normalized := toLowerCase (default [] modelName) in
  if includes (js "claude") normalized then Some (js "claude")
  else if includes (js "codex") normalized then Some (js "codex") else None.

Definition enabled_names (enableGroups : list str) (publicGroupRatio : list (str * num)) : list str :=
  if bool_decide (enableGroups = []) || bool_decide (js "all" ∈ enableGroups)
  then map fst publicGroupRatio
  else List.filter (λ g, negb (excluded g)) enableGroups.

Definition getCandidateGroupsForModel (modelName : option str) (enableGroups : list str)
  (publicGroupRatio : list (str * num)) : list str :=
  let enabledGroupNames := enabled_names enableGroups publicGroupRatio in
  match getModelPricingDirection modelName with
  | Some direction =>
      let directionalGroups := List.filter (λ g, includes direction (toLowerCase g)) enabledGroupNames in
      if existsb (λ g, validGroupRatio (ratio_of publicGroupRatio g)) directionalGroups
      then directionalGroups else enabledGroupNames
  | None => enabledGroupNames
  end.

Definition getMinGroupNameForModel (modelName : option str) (enableGroups : list str)
  (groupRatio : list (str * num)) : option str :=
  let publicGroupRatio := getPublicGroupRatio groupRatio in
  let candidates := getCandidateGroupsForModel modelName enableGroups publicGroupRatio in
  match findMinGroup publicGroupRatio candidates with
  | Some g => Some g
  | None => findMinGroup publicGroupRatio (map fst publicGroupRatio)
  end.

(** The comparator of [getSortedGroupsByPricingRatioForModel]. *)
Definition group_cmp (ratios : list (str * num)) (minGroup : option str) (a b : str) : Z :=
  if bool_decide (Some a = minGroup) then -1
  else if bool_decide (Some b = minGroup) then 1
  else num_sign (nsub (ratio_or_inf (ratio_of ratios a)) (ratio_or_inf (ratio_of ratios b))).

Definition getSortedGroupsByPricingRatioForModel (modelName : option str) (enableGroups : list str)
  (groupRatio : list (str * num)) : list str :=
  let publicGroupRatio := getPublicGroupRatio groupRatio in
  let minGroup := getMinGroupNameForModel modelName enableGroups groupRatio in
  array_sort (group_cmp publicGroupRatio minGroup) (List.filter (λ g, negb (excluded g)) enableGroups).

Definition getMinGroupRatioForModel (modelName : option str) (enableGroups : list str)
  (groupRatio : list (str * num)) : num :=
  let publicGroupRatio := getPublicGroupRatio groupRatio in
  let ratios := List.filter (λ r, validGroupRatio (Some r)) (map snd publicGroupRatio) in
  let globalMinRatio := match ratios with [] => num_of_Z 1 | _ => fold_left math_min ratios (S754_infinity false) end in
  match getMinGroupNameForModel modelName enableGroups groupRatio with
  | Some g =>
      if truthy g && validGroupRatio (ratio_of publicGroupRatio g)
      then default S754_nan (ratio_of publicGroupRatio g)
      else globalMinRatio
  | None => globalMinRatio
  end.

(** ** Prices *)

Definition hasRatio (value : option num) : bool := match value with Some v => is_finite v | None => false end.

(** [hasRatio(r) ? base * Number(r) : NaN] *)
Definition times_ratio (base : num) (r : option num) : num :=
  if hasRatio r then nmul base (default S754_nan r) else S754_nan.

Definition calculateTokenPrice (model : PricingModel) (type : PriceType) (ratio : num) : num :=
  let base := nmul (nmul (model_ratio model) (num_of_Z 2)) ratio in
  match type with
  | input => base
  | output => nmul base (completion_ratio model)
  | cache => times_ratio base (cache_ratio model)
  | create_cache => times_ratio base (create_cache_ratio model)
  | image => times_ratio base (image_ratio model)
  | audio_input => times_ratio base (audio_ratio model)
  | audio_output =>
      if hasRatio (audio_ratio model) && hasRatio (audio_completion_ratio model)
      then nmul (nmul base (default S754_nan (audio_ratio model))) (default S754_nan (audio_completion_ratio model))
      else S754_nan
  end.

Definition applyRechargeRate (price : num) (showWithRecharge : bool) (priceRate usdExchangeRate : num) : num :=
  if negb showWithRecharge then price else ndiv (nmul price priceRate) usdExchangeRate.

Context (intl : option str → nat → num → str) (stored : option PartialCurrencyConfig).

(** The text of a token price at a group ratio. *)
Definition token_price_text (model : PricingModel) (type : PriceType) (tokenUnit : TokenUnit)
  (showWithRecharge : bool) (priceRate usdRate ratio : num) : str :=
  let priceInUSD := applyRechargeRate (calculateTokenPrice model type ratio) showWithRecharge priceRate usdRate in
  formatCurrencyFromUSD intl stored (Some (ndiv priceInUSD (TOKEN_UNIT_DIVISORS tokenUnit)))
    (Some PRICING_DISPLAY_OPTIONS).

Definition formatPrice (model : PricingModel) (type : PriceType) (tokenUnit : TokenUnit)
  (showWithRecharge : bool) (priceRate usdRate : num) : str :=
  if num_eqb (quota_type model) QUOTA_REQUEST then js "-"
  else
    let minRatio := getMinGroupRatioForModel (model_name model) (default [] (enable_groups model))
                      (default [] (group_ratio model)) in
    token_price_text model type tokenUnit showWithRecharge priceRate usdRate minRatio.

(** [groupRatio[group] || 1] *)
Definition ratio_or_one (groupRatio : list (str * num)) (group : str) : num :=
  match ratio_of groupRatio group with
  | Some r => if num_truthy r then r else num_of_Z 1
  | None => num_of_Z 1
  end.

Definition formatGroupPrice (model : PricingModel) (group : str) (type : PriceType) (tokenUnit : TokenUnit)
  (showWithRecharge : bool) (priceRate usdRate : num) (groupRatio : list (str * num)) : str :=
  if num_eqb (quota_type model) QUOTA_REQUEST then js "-"
  else token_price_text model type tokenUnit showWithRecharge priceRate usdRate (ratio_or_one groupRatio group).

(** The text of a request price at a group ratio. *)
Definition request_price_text (model : PricingModel) (showWithRecharge : bool) (priceRate usdRate ratio : num) : str :=
  let priceInUSD := nmul (default (num_of_Z 0) (or_zero <$> model_price model)) ratio in
  formatCurrencyFromUSD intl stored (Some (applyRechargeRate priceInUSD showWithRecharge priceRate usdRate))
    (Some PRICING_DISPLAY_OPTIONS).

Definition formatFixedPrice (model : PricingModel) (group : str)
  (showWithRecharge : bool) (priceRate usdRate : num) (groupRatio : list (str * num)) : str :=
  if negb (num_eqb (quota_type model) QUOTA_REQUEST) then js "-"
  else request_price_text model showWithRecharge priceRate usdRate (ratio_or_one groupRatio group).

Definition formatRequestPrice (model : PricingModel) (showWithRecharge : bool) (priceRate usdRate : num) : str :=
  if negb (num_eqb (quota_type model) QUOTA_REQUEST) then js "-"
  else
    let minRatio := getMinGroupRatioForModel (model_name model) (default [] (enable_groups model))
                      (default [] (group_ratio model)) in
    request_price_text model showWithRecharge priceRate usdRate minRatio.
End pricing.

(** ** The cheapest group *)

(** The ratio of a group, when it is a valid one. *)
Definition valid_ratio (ratios : list (str * num)) (g : str) : option num :=
  r ← ratio_of ratios g; if validGroupRatio (Some r) then Some r else None.

(** [g] is a group of [l] with the least valid ratio. *)
Definition cheapest (ratios : list (str * num)) (l : list str) (g : str) : Prop :=
  g ∈ l ∧ ∃ r, valid_ratio ratios g = Some r
    ∧ ∀ g' r', g' ∈ l → valid_ratio ratios g' = Some r' → nle r r' = true.

Lemma valid_ratio_spec ratios g r :
  valid_ratio ratios g = Some r ↔ ratio_of ratios g = Some r ∧ is_finite r = true ∧ nlt (num_of_Z 0) r = true.
Proof.
  unfold valid_ratio. destruct (ratio_of ratios g) as [r0|]; [|naive_solver]. cbn [mbind option_bind].
  destruct (validGroupRatio (Some r0)) eqn:E; [apply andb_prop in E as [??]; naive_solver|].
  split; [done|]. intros ([= ->] & ? & ?). apply andb_false_iff in E as [?|?]; congruence.
Qed.

Lemma nlt_inf r : is_finite r = true → nlt r (S754_infinity false) = true.
Proof. by destruct r as [[]| | |[]]. Qed.

Lemma min_step_eq ratios best x :
  min_step ratios best x
  = match valid_ratio ratios x with
    | Some r => if nlt r (snd best) then (Some x, r) else best
    | None => best
    end.
Proof.
  unfold min_step, valid_ratio. destruct (ratio_of ratios x) as [r|]; [|done]. cbn [mbind option_bind].
  by destruct (validGroupRatio (Some r)).
Qed.

(** What the loop has found after the groups [l]. *)
Lemma min_loop_spec ratios l :
  match fold_left (min_step ratios) l (None, S754_infinity false) with
  | (None, r) => r = S754_infinity false ∧ ∀ g, g ∈ l → valid_ratio ratios g = None
  | (Some g, r) => g ∈ l ∧ valid_ratio ratios g = Some r
                   ∧ ∀ g' r', g' ∈ l → valid_ratio ratios g' = Some r' → nlt r' r = false
  end.
Proof.
  induction l as [|x l IH] using rev_ind; [split; [done|set_solver]|].
  rewrite fold_left_app. simpl. set (best := fold_left _ l _) in *. rewrite min_step_eq.
  assert (Hin : ∀ g, g ∈ l ++ [x] → g ∈ l ∨ g = x) by (intros g; rewrite elem_of_app, list_elem_of_singleton; done).
  destruct (valid_ratio ratios x) as [r|] eqn:Hx, best as [[g|] b]; simpl in *.
  - destruct IH as (Hg & Hgv & Hmin). destruct (nlt r b) eqn:Hlt.
    + split_and!; [set_solver|done|]. intros g' r' [Hg'| ->]%Hin Hr'.
      * destruct (nlt r' r) eqn:H; [|done]. specialize (Hmin _ _ Hg' Hr'). by rewrite (nlt_trans _ _ _ H Hlt) in Hmin.
      * rewrite Hx in Hr'. injection Hr' as ->. apply nlt_irrefl.
    + split_and!; [set_solver|done|]. intros g' r' [Hg'| ->]%Hin Hr'; [by eapply Hmin|congruence].
  - destruct IH as [-> Hnone]. rewrite nlt_inf by (by apply valid_ratio_spec in Hx as (_ & ? & _)).
    split_and!; [set_solver|done|]. intros g' r' [Hg'| ->]%Hin Hr'; [by rewrite Hnone in Hr'|].
    rewrite Hx in Hr'. injection Hr' as ->. apply nlt_irrefl.
  - destruct IH as (Hg & Hgv & Hmin). split_and!; [set_solver|done|].
    intros g' r' [Hg'| ->]%Hin Hr'; [by eapply Hmin|congruence].
  - destruct IH as [-> Hnone]. split; [done|]. intros g' [Hg'| ->]%Hin; auto.
Qed.

Lemma findMinGroup_spec ratios l :
  match findMinGroup ratios l with
  | Some g => cheapest ratios l g
  | None => ∀ g, g ∈ l → valid_ratio ratios g = None
  end.
Proof.
  unfold findMinGroup. pose proof (min_loop_spec ratios l) as H.
  destruct (fold_left _ _ _) as [[g|] r]; simpl; [|by destruct H].
  destruct H as (Hg & Hr & Hmin). split; [done|]. exists r. split; [done|]. intros g' r' Hg' Hr'.
  apply not_lt_le; [by apply valid_ratio_spec in Hr' as (_ & ? & _)|by apply valid_ratio_spec in Hr as (_ & ? & _)|by eapply Hmin].
Qed.

(** Public ratios are the ratios of groups that are not excluded. *)
Lemma ratio_of_public ratios g :
  ratio_of (getPublicGroupRatio ratios) g = if excluded g then None else ratio_of ratios g.
Proof.
  unfold ratio_of, getPublicGroupRatio. induction ratios as [|[k r] l IH]; simpl; [by destruct (excluded g)|].
  destruct (excluded k) eqn:Hk; simpl; rewrite ?IH; destruct (bool_decide_reflect (k = g)) as [->|]; try done.
  - by rewrite Hk.
  - by rewrite Hk.
Qed.

Lemma valid_public_group ratios g r :
  valid_ratio (getPublicGroupRatio ratios) g = Some r →
  excluded g = false ∧ ratio_of ratios g = Some r ∧ g ∈ map fst (getPublicGroupRatio ratios).
Proof.
  intros (Hr & _ & _)%valid_ratio_spec. pose proof Hr as Hr2. rewrite ratio_of_public in Hr.
  destruct (excluded g); [done|]. split_and!; [done|done|]. unfold ratio_of in Hr2.
  destruct (find _ _) as [[k x]|] eqn:Hf; [|done]. apply find_some in Hf as [Hin Hk].
  apply bool_decide_eq_true in Hk. simpl in Hk. subst k. apply list_elem_of_In, in_map_iff. by exists (g, x).
Qed.

Lemma cheapest_valid ratios l g : cheapest ratios l g → ∃ r, valid_ratio ratios g = Some r.
Proof. intros (_ & r & Hr & _). eauto. Qed.

Lemma min_group_valid lower name groups ratios g :
  getMinGroupNameForModel lower name groups ratios = Some g →
  ∃ r, valid_ratio (getPublicGroupRatio ratios) g = Some r.
Proof.
  unfold getMinGroupNameForModel. intros H. destruct (findMinGroup _ _) as [g'|] eqn:E.
  - injection H as ->. pose proof (findMinGroup_spec (getPublicGroupRatio ratios)
      (getCandidateGroupsForModel lower name groups (getPublicGroupRatio ratios))) as Hs.
    rewrite E in Hs. by eapply cheapest_valid.
  - pose proof (findMinGroup_spec (getPublicGroupRatio ratios) (map fst (getPublicGroupRatio ratios))) as Hs.
    rewrite H in Hs. by eapply cheapest_valid.
Qed.

Lemma no_min_no_valid lower name groups ratios :
  getMinGroupNameForModel lower name groups ratios = None → ∀ g, valid_ratio (getPublicGroupRatio ratios) g = None.
Proof.
  unfold getMinGroupNameForModel. set (pub := getPublicGroupRatio ratios).
  destruct (findMinGroup pub (getCandidateGroupsForModel _ _ _ _)); [done|].
  pose proof (findMinGroup_spec pub (map fst pub)) as H2. intros Hg. rewrite Hg in H2. intros g.
  destruct (valid_ratio pub g) as [r|] eqn:Hr; [|done]. rewrite H2 in Hr; [done|]. by eapply valid_public_group.
Qed.

(** the group a model is priced in is public and cheapest among the model's candidate groups; when no
    candidate has a valid ratio it is cheapest among all public groups, and there is none only when no
    public group has a valid ratio. *)
Theorem min_group_is_cheapest lower name groups ratios :
  let pub := getPublicGroupRatio ratios in
  let candidates := getCandidateGroupsForModel lower name groups pub in
  match getMinGroupNameForModel lower name groups ratios with
  | Some g => excluded g = false
      ∧ (cheapest pub candidates g
         ∨ (∀ c, c ∈ candidates → valid_ratio pub c = None) ∧ cheapest pub (map fst pub) g)
  | None => ∀ g, valid_ratio pub g = None
  end.
Proof.
  intros pub candidates. destruct (getMinGroupNameForModel _ _ _ _) as [g|] eqn:Hg.
  - split; [by apply min_group_valid in Hg as [r (? & _)%valid_public_group]|]. revert Hg.
    unfold getMinGroupNameForModel. fold pub candidates.
    pose proof (findMinGroup_spec pub candidates) as H1. pose proof (findMinGroup_spec pub (map fst pub)) as H2.
    destruct (findMinGroup pub candidates) as [g1|]; [intros [= ->]; by left|].
    intros Hg. rewrite Hg in H2. by right.
  - by eapply no_min_no_valid.
Qed.

(** A record has each property once. *)
Definition record_ok (ratios : list (str * num)) : Prop := NoDup (map fst ratios).

Lemma ratio_of_elem ratios g r : record_ok ratios → (g, r) ∈ ratios → ratio_of ratios g = Some r.
Proof.
  unfold record_ok, ratio_of. induction ratios as [|[k x] l IH]; simpl; [set_solver|].
  intros [Hk Hl]%NoDup_cons [[= -> ->]|Hin]%elem_of_cons.
  - by rewrite bool_decide_true.
  - rewrite bool_decide_false; [by apply IH|]. intros ->. apply Hk, list_elem_of_In, in_map_iff.
    exists (g, r). split; [done|]. by apply list_elem_of_In.
Qed.

Lemma public_record_ok ratios : record_ok ratios → record_ok (getPublicGroupRatio ratios).
Proof.
  unfold record_ok, getPublicGroupRatio. induction ratios as [|[k x] l IH]; simpl; [done|].
  intros [Hk Hl]%NoDup_cons. destruct (excluded k); simpl; [by apply IH|]. apply NoDup_cons.
  split; [|by apply IH]. intros H. apply Hk. apply list_elem_of_In, in_map_iff in H as ((k' & x') & Hk' & Hin).
  apply filter_In in Hin as [Hin _]. apply list_elem_of_In, in_map_iff. eauto.
Qed.

Lemma min_ratio_eq lower name groups ratios :
  record_ok ratios →
  match getMinGroupNameForModel lower name groups ratios with
  | Some g => valid_ratio (getPublicGroupRatio ratios) g = Some (getMinGroupRatioForModel lower name groups ratios)
  | None => getMinGroupRatioForModel lower name groups ratios = num_of_Z 1
  end.
Proof.
  intros Hok. unfold getMinGroupRatioForModel. destruct (getMinGroupNameForModel _ _ _ _) as [g|] eqn:Hg.
  - apply min_group_valid in Hg as [r Hr]. pose proof Hr as (Hex & _ & _)%valid_public_group.
    pose proof Hr as (Ho & Hf & Hp)%valid_ratio_spec. rewrite Ho. cbn [validGroupRatio]. rewrite Hf, Hp.
    destruct g as [|c g]; [done|]. by rewrite Hr.
  - replace (List.filter _ _) with (@nil num); [done|]. symmetry. apply bfilter_none. intros r Hr.
    apply not_true_iff_false. intros [Hf Hp]%andb_prop.
    apply list_elem_of_In, in_map_iff in Hr as ([g x] & Hx & Hin%list_elem_of_In). simpl in Hx. subst x.
    apply (ratio_of_elem _ _ _ (public_record_ok _ Hok)) in Hin.
    assert (Hv : valid_ratio (getPublicGroupRatio ratios) g = Some r) by (by apply valid_ratio_spec).
    by rewrite (no_min_no_valid _ _ _ _ Hg) in Hv.
Qed.

(** the ratio a model is priced with is the ratio of its cheapest group, and 1 when no public group has a
    valid ratio; it is always finite and positive. *)
Theorem min_ratio_of_cheapest lower name groups ratios :
  record_ok ratios →
  let r := getMinGroupRatioForModel lower name groups ratios in
  match getMinGroupNameForModel lower name groups ratios with
  | Some g => ratio_of ratios g = Some r
  | None => r = num_of_Z 1
  end ∧ is_finite r = true ∧ nlt (num_of_Z 0) r = true.
Proof.
  intros Hok r. pose proof (min_ratio_eq lower name groups ratios Hok) as H.
  destruct (getMinGroupNameForModel _ _ _ _) as [g|].
  - pose proof H as (? & ? & ?)%valid_ratio_spec. by apply valid_public_group in H as (_ & ? & _).
  - unfold r. by rewrite H.
Qed.

(** a model with a pricing direction (Claude, Codex) is priced in a group of that direction whenever
    one of its enabled groups of that direction has a valid ratio. *)
Theorem direction_preferred lower name groups ratios d c :
  let pub := getPublicGroupRatio ratios in
  getModelPricingDirection lower name = Some d →
  c ∈ enabled_names groups pub → includes d (lower c) = true → validGroupRatio (ratio_of pub c) = true →
  ∃ g, getMinGroupNameForModel lower name groups ratios = Some g ∧ includes d (lower g) = true
       ∧ g ∈ enabled_names groups pub.
Proof.
  intros pub Hd Hc Hdir Hv. unfold getMinGroupNameForModel. fold pub. unfold getCandidateGroupsForModel.
  rewrite Hd. set (dirs := List.filter _ _).
  assert (Hin : c ∈ dirs) by (by apply elem_of_bfilter).
  assert (existsb (λ g, validGroupRatio (ratio_of pub g)) dirs = true) as ->.
  { apply existsb_exists. exists c. by rewrite <- list_elem_of_In. }
  pose proof (findMinGroup_spec pub dirs) as Hs. destruct (findMinGroup pub dirs) as [g|].
  - exists g. destruct Hs as [Hg _]. by apply elem_of_bfilter in Hg as [? ?].
  - specialize (Hs c Hin). unfold valid_ratio in Hs. destruct (ratio_of pub c) as [r|]; [|done].
    cbn [mbind option_bind] in Hs. by rewrite Hv in Hs.
Qed.

(** the groups of a model, in price order, are its enabled public groups, and the group the model is
    priced in comes first when it is one of them. *)
Theorem sorted_groups_spec lower name groups ratios :
  let sorted := getSortedGroupsByPricingRatioForModel lower name groups ratios in
  sorted ≡ₚ List.filter (λ g, negb (excluded g)) groups
  ∧ ∀ g, getMinGroupNameForModel lower name groups ratios = Some g → g ∈ groups → head sorted = Some g.
Proof.
  intros sorted. split; [apply array_sort_Permutation|]. intros g Hg Hin.
  unfold sorted, getSortedGroupsByPricingRatioForModel. rewrite Hg. apply array_sort_head.
  - intros y. unfold group_cmp. by rewrite bool_decide_true.
  - intros y Hy. unfold group_cmp. by rewrite bool_decide_false, bool_decide_true by congruence.
  - apply elem_of_bfilter. split; [done|]. apply min_group_valid in Hg as [r (-> & _)%valid_public_group]. done.
Qed.

(** ** Prices shown *)

Lemma ratio_or_one_min lower name groups ratios g :
  record_ok ratios → getMinGroupNameForModel lower name groups ratios = Some g →
  ratio_or_one ratios g = getMinGroupRatioForModel lower name groups ratios.
Proof.
  intros Hok Hg. pose proof (min_ratio_eq lower name groups ratios Hok) as H. rewrite Hg in H.
  pose proof H as (_ & _ & Hp)%valid_ratio_spec. apply valid_public_group in H as (_ & Hr & _).
  unfold ratio_or_one. rewrite Hr. by rewrite pos_truthy.
Qed.

(** the price shown for a model is the price shown for its cheapest group, for token-priced and for
    request-priced models alike. *)
Theorem headline_price_is_cheapest_group lower intl stored model g :
  let ratios := default [] (group_ratio model) in
  record_ok ratios →
  getMinGroupNameForModel lower (model_name model) (default [] (enable_groups model)) ratios = Some g →
  (∀ type unit recharge rate usd,
     formatPrice lower intl stored model type unit recharge rate usd
     = formatGroupPrice intl stored model g type unit recharge rate usd ratios)
  ∧ (∀ recharge rate usd,
     formatRequestPrice lower intl stored model recharge rate usd
     = formatFixedPrice intl stored model g recharge rate usd ratios).
Proof.
  intros ratios Hok Hg. pose proof (ratio_or_one_min _ _ _ _ _ Hok Hg) as Hr.
  split; intros; unfold formatPrice, formatGroupPrice, formatRequestPrice, formatFixedPrice; fold ratios; by rewrite Hr.
Qed.

(** The ratios a price type needs besides the model ratio. *)
Definition required_ratios (model : PricingModel) (type : PriceType) : list (option num) :=
  match type with
  | input | output => []
  | cache => [cache_ratio model]
  | create_cache => [create_cache_ratio model]
  | image => [image_ratio model]
  | audio_input => [audio_ratio model]
  | audio_output => [audio_ratio model; audio_completion_ratio model]
  end.

Lemma nan_mul y : nmul S754_nan y = S754_nan.
Proof. done. Qed.

Lemma nan_div y : ndiv S754_nan y = S754_nan.
Proof. done. Qed.

(** a price whose ratio the model does not have is shown as a dash, whatever the group, unit,
    recharge rate and display currency. *)
Theorem missing_ratio_shows_dash lower intl stored model type unit recharge rate usd :
  Exists (λ r, hasRatio r = false) (required_ratios model type) →
  formatPrice lower intl stored model type unit recharge rate usd = js "-"
  ∧ ∀ g ratios, formatGroupPrice intl stored model g type unit recharge rate usd ratios = js "-".
Proof.
  intros Hm.
  assert (Hnan : ∀ r, calculateTokenPrice model type r = S754_nan).
  { intros r. destruct type; simpl in Hm; try (by apply Exists_nil in Hm);
      unfold calculateTokenPrice, times_ratio;
      repeat (apply Exists_cons in Hm as [->|Hm]; [by rewrite ?andb_false_r|]); by apply Exists_nil in Hm. }
  assert (Hd : ∀ r, token_price_text intl stored model type unit recharge rate usd r = js "-").
  { intros r. unfold token_price_text, applyRechargeRate. rewrite Hnan. destruct recharge; cbn [negb];
      by rewrite ?nan_mul, !nan_div. }
  split; intros; unfold formatPrice, formatGroupPrice; by rewrite !Hd; destruct (num_eqb _ _).
Qed.

(** ** Concrete models *)

Definition sample_model (name : str) (ratio : num) : PricingModel := {|
  model_name := Some name; description := None; vendor_name := Some (js "Vendor"); quota_type := num_of_Z 0;
  model_ratio := ratio; completion_ratio := num_of_Z 4; model_price := None; cache_ratio := None;
  create_cache_ratio := None; image_ratio := None; audio_ratio := None; audio_completion_ratio := None;
  enable_groups := Some [js "default"; js "claude-vip"]; tags := Some (js "chat, fast"); supported_endpoint_types := None;
  group_ratio := Some [(js "default", num_of_Z 1); (js "claude-vip", num_of_Z 2); (js "auto", dec_to_num 1 (-1))];
  billing_mode := None; billing_expr := None |}.

Definition sample_ratios : list (str * num) := default [] (group_ratio (sample_model [] (num_of_Z 1))).
Definition sample_groups : list str := [js "default"; js "claude-vip"].

Lemma sample_record_ok : record_ok sample_ratios.
Proof. apply (bool_decide_unpack (record_ok sample_ratios)). vm_compute. exact I. Qed.

Lemma min_ratio_of_cheapest_witness :
  getMinGroupRatioForModel id (Some (js "gpt")) sample_groups sample_ratios = num_of_Z 1
  ∧ nlt (num_of_Z 0) (getMinGroupRatioForModel id (Some (js "gpt")) sample_groups sample_ratios) = true.
Proof.
  split; [vm_compute; reflexivity|].
  apply (min_ratio_of_cheapest id (Some (js "gpt")) sample_groups sample_ratios sample_record_ok).
Defined.

Lemma direction_preferred_witness :
  ∃ g, getMinGroupNameForModel id (Some (js "claude-3")) sample_groups sample_ratios = Some g
       ∧ includes (js "claude") (id g) = true ∧ g ∈ enabled_names sample_groups (getPublicGroupRatio sample_ratios).
Proof.
  apply (direction_preferred id (Some (js "claude-3")) sample_groups sample_ratios (js "claude") (js "claude-vip")).
  - vm_compute. reflexivity.
  - apply (bool_decide_unpack (js "claude-vip" ∈ enabled_names sample_groups (getPublicGroupRatio sample_ratios))).
    vm_compute. exact I.
  - vm_compute. reflexivity.
  - vm_compute. reflexivity.
Defined.

Lemma headline_price_is_cheapest_group_witness :
  formatPrice id (λ _, to_fixed) None (sample_model (js "claude-3") (num_of_Z 3)) output M false (num_of_Z 1) (num_of_Z 1)
  = formatGroupPrice (λ _, to_fixed) None (sample_model (js "claude-3") (num_of_Z 3)) (js "claude-vip") output M false
      (num_of_Z 1) (num_of_Z 1) sample_ratios.
Proof.
  assert (Hg : getMinGroupNameForModel id (Some (js "claude-3")) sample_groups sample_ratios = Some (js "claude-vip"))
    by (vm_compute; reflexivity).
  exact (proj1 (headline_price_is_cheapest_group id (λ _, to_fixed) None (sample_model (js "claude-3") (num_of_Z 3))
    (js "claude-vip") sample_record_ok Hg) output M false (num_of_Z 1) (num_of_Z 1)).
Defined.

Lemma missing_ratio_shows_dash_witness :
  formatPrice id (λ _, to_fixed) None (sample_model (js "claude-3") (num_of_Z 3)) cache K false (num_of_Z 1) (num_of_Z 1)
  = js "-".
Proof.
  assert (He : Exists (λ r, hasRatio r = false) (required_ratios (sample_model (js "claude-3") (num_of_Z 3)) cache))
    by (apply Exists_cons; left; reflexivity).
  exact (proj1 (missing_ratio_shows_dash id (λ _, to_fixed) None (sample_model (js "claude-3") (num_of_Z 3)) cache K false
    (num_of_Z 1) (num_of_Z 1) He)).
Defined.

(** a model priced at 0.0005 USD per million tokens is shown per thousand tokens as if it were free:
    the rounding of noise next to an integer drops amounts up to 0.000001, although the display asks
    for amounts down to 0.00000001. *)
Theorem sub_micro_price_shown_as_zero intl :
  let model := sample_model (js "tiny") (dec_to_num 25 (-5)) in
  calculateTokenPrice model input (num_of_Z 1) = dec_to_num 5 (-4)
  ∧ formatGroupPrice intl None model (js "default") input K false (num_of_Z 1) (num_of_Z 1) sample_ratios
    = intl (Some (js "USD")) 8 (num_of_Z 0).
Proof. split; vm_compute; reflexivity. Qed.
