(* ===== verification/DynamicPrice.v ===== *)
(** * Dynamic (tiered) prices ([web/default/src/features/pricing/lib/dynamic-price.ts])

    What the price table shows for a model billed by an expression: the tiers of the expression, whether
    it has request rules, and the prices of the first tier.  An expression can make the rule
    parser throw, so these functions return an [outcome]. *)

From S2P Require Import Prelude JsString Regex JsNumber JsNumberFacts BillingExpr Currency Price.
From S2P Require Import BillingText BillingRuleFacts BillingRules.

(** ** Data *)

Record DynamicPriceOptions := {
  tokenUnit : TokenUnit;
  showRechargePrice : option bool;
  priceRate : option num;
  opt_usdExchangeRate : option num;
  groupRatioMultiplier : option num }.

Record DynamicPriceEntry := {
  e_key : str; e_field : str; e_label : str; e_shortLabel : str; e_value : num; formatted : str; variable : BillingVar }.

Record DynamicPricingSummary := {
  tiers : list ParsedTier;
  tier : option ParsedTier;
  tierCount : nat;
  hasRequestRules : bool;
  isSpecialExpression : bool;
  rawExpression : str;
  entries : list DynamicPriceEntry;
  primaryEntries : list DynamicPriceEntry;
  secondaryEntries : list DynamicPriceEntry }.

Definition PRIMARY_DYNAMIC_FIELDS : list str := [js "inputPrice"; js "outputPrice"].

Definition DYNAMIC_PRICING_DISPLAY_OPTIONS : CurrencyFormatOptions := {|
  o_digitsLarge := Some 8; o_digitsSmall := Some 8; o_maximumFractionDigits := None;
  o_abbreviate := Some false; o_minimumNonZero := Some (dec_to_num 1 (-8)); o_preservePrecision := Some true |}.

(** ** Operations *)

Definition isDynamicPricingModel (model : PricingModel) : bool :=
  bool_decide (billing_mode model = Some (js "tiered_expr")) && truthy (default [] (billing_expr model)).

Definition getDynamicDisplayGroupRatio (toLowerCase : str → str) (model : PricingModel) : num :=
  getMinGroupRatioForModel toLowerCase (model_name model) (default [] (enable_groups model))
    (default [] (group_ratio model)).

Definition getDynamicPricingTiers (model : PricingModel) : outcome (list ParsedTier) :=
  if negb (isDynamicPricingModel model) then Ret []
  else r ← splitBillingExprAndRequestRules (default [] (billing_expr model));
       Ret (parseTiersFromExpr (billingExpr r)).

Definition hasDynamicRequestRules (model : PricingModel) : outcome bool :=
  if negb (isDynamicPricingModel model) then Ret false
  else r ← splitBillingExprAndRequestRules (default [] (billing_expr model));
       g ← tryParseRequestRuleExpr (requestRuleExpr r);
       Ret (match g with Some (_ :: _) => true | _ => false end).

(** [tier[field]], [undefined] (whose number is [NaN]) when there is none. *)
Definition price_of (t : ParsedTier) (f : str) : num :=
  default S754_nan (snd <$> find (λ kv, bool_decide (fst kv = f)) (prices t)).

Definition is_primary (e : DynamicPriceEntry) : bool := bool_decide (e_field e ∈ PRIMARY_DYNAMIC_FIELDS).

(** The comparator: primary fields first. *)
Definition entry_cmp (a b : DynamicPriceEntry) : Z :=
  if Bool.eqb (is_primary a) (is_primary b) then 0 else if is_primary a then -1 else 1.

Section dynamic.
Context (intl : option str → nat → num → str) (stored : option PartialCurrencyConfig).

Definition formatDynamicUnitPrice (valuePerMillionTokens : num) (options : DynamicPriceOptions) : str :=
  let groupRatio := default (num_of_Z 1) (groupRatioMultiplier options) in
  let rate := default (num_of_Z 1) (priceRate options) in
  let usdRate := default (num_of_Z 1) (opt_usdExchangeRate options) in
  let priceUSD := ndiv (nmul valuePerMillionTokens groupRatio) (TOKEN_UNIT_DIVISORS (tokenUnit options)) in
  let displayPrice := applyRechargeRate priceUSD (default false (showRechargePrice options)) rate usdRate in
  formatBillingCurrencyFromUSD intl stored (Some displayPrice) (Some DYNAMIC_PRICING_DISPLAY_OPTIONS).

(** The entry of one variable, when the tier has a price for it. *)
Definition entry_of (t : ParsedTier) (options : DynamicPriceOptions) (v : BillingVar) : list DynamicPriceEntry :=
  match field v with
  | None => []
  | Some f =>
      if negb (truthy f) then []
      else
        let value := price_of t f in
        if negb (is_finite value) || nle value (num_of_Z 0) then []
        else [ {| e_key := key v; e_field := f; e_label := label_ v; e_shortLabel := shortLabel v;
                  e_value := value; formatted := formatDynamicUnitPrice value options; variable := v |} ]
  end.

Definition getDynamicPriceEntries (t : option ParsedTier) (options : DynamicPriceOptions) : list DynamicPriceEntry :=
  match t with
  | None => []
  | Some t => array_sort entry_cmp (flat_map (entry_of t options) BILLING_PRICING_VARS)
  end.

Definition getDynamicPricingSummary (model : PricingModel) (options : DynamicPriceOptions)
  : outcome (option DynamicPricingSummary) :=
  if negb (isDynamicPricingModel model) then Ret None
  else
    tiers ← getDynamicPricingTiers model;
    let tier := head tiers in
    let entries := getDynamicPriceEntries tier options in
    let rawExpression := default [] (billing_expr model) in
    hasRules ← hasDynamicRequestRules model;
    Ret (Some {|
      tiers := tiers; tier := tier; tierCount := length tiers; hasRequestRules := hasRules;
      isSpecialExpression := truthy (trim rawExpression) && bool_decide (tiers = []);
      rawExpression := rawExpression;
      entries := entries;
      primaryEntries := List.filter is_primary entries;
      secondaryEntries := List.filter (λ e, negb (is_primary e)) entries |}).
End dynamic.

(** ** Properties *)

Lemma entry_of_spec intl stored t options v e :
  e ∈ entry_of intl stored t options v →
  variable e = v ∧ e_key e = key v ∧ field v = Some (e_field e) ∧ e_value e = price_of t (e_field e)
  ∧ is_finite (e_value e) = true ∧ nlt (num_of_Z 0) (e_value e) = true.
Proof.
  unfold entry_of. destruct (field v) as [f|]; [|by intros ?%elem_of_nil].
  destruct (negb (truthy f)); [by intros ?%elem_of_nil|].
  destruct (is_finite (price_of t f)) eqn:Hf; cbn [negb orb]; [|by intros ?%elem_of_nil].
  destruct (nle (price_of t f) (num_of_Z 0)) eqn:Hp; [by intros ?%elem_of_nil|].
  intros ->%list_elem_of_singleton. simpl. split_and!; try done.
  destruct (nlt (num_of_Z 0) (price_of t f)) eqn:H; [done|]. apply not_lt_le in H; [congruence|done|done].
Qed.

Lemma entry_keys_sublist intl stored t options l :
  map e_key (flat_map (entry_of intl stored t options) l) `sublist_of` map key l.
Proof.
  induction l as [|v l IH]; [done|]. cbn [flat_map map]. rewrite map_app.
  change (key v :: map key l) with ([key v] ++ map key l). apply sublist_app; [|done].
  unfold entry_of. destruct (field v); [|apply sublist_nil_l]. repeat case_match; try apply sublist_nil_l. done.
Qed.

Lemma registry_keys_NoDup : NoDup (map key BILLING_PRICING_VARS).
Proof. apply (bool_decide_unpack (NoDup (map key BILLING_PRICING_VARS))). vm_compute. exact I. Qed.

Lemma registry_fields_named v f : v ∈ BILLING_PRICING_VARS → field v = Some f → truthy f = true.
Proof.
  intros Hv Hf.
  assert (H : forallb (λ v, match field v with Some f => truthy f | None => true end) BILLING_PRICING_VARS = true)
    by (vm_compute; reflexivity).
  rewrite forallb_forall in H. apply list_elem_of_In in Hv. specialize (H v Hv). by rewrite Hf in H.
Qed.

(** the prices shown for a tier are exactly the positive finite prices of the tier, one entry per
    variable of the registry, the input and output prices before the others. *)
Theorem dynamic_entries_exact intl stored t options :
  let es := getDynamicPriceEntries intl stored (Some t) options in
  es = List.filter is_primary es ++ List.filter (λ e, negb (is_primary e)) es
  ∧ NoDup (map e_key es)
  ∧ ∀ v f, v ∈ BILLING_PRICING_VARS → field v = Some f →
      (is_finite (price_of t f) = true ∧ nlt (num_of_Z 0) (price_of t f) = true
       ↔ ∃ e, e ∈ es ∧ variable e = v ∧ e_value e = price_of t f).
Proof.
  intros es. set (l := flat_map (entry_of intl stored t options) BILLING_PRICING_VARS).
  assert (Hes : es = List.filter is_primary l ++ List.filter (λ e, negb (is_primary e)) l)
    by (apply array_sort_classes; done).
  assert (Hperm : es ≡ₚ l) by apply array_sort_Permutation.
  split_and!.
  - rewrite Hes, !bfilter_app, !bfilter_idemp.
    rewrite (bfilter_none is_primary (List.filter (λ e, negb (is_primary e)) l)),
      (bfilter_none (λ e, negb (is_primary e)) (List.filter is_primary l)); [by rewrite app_nil_r|..];
      intros x [_ Hx]%elem_of_bfilter; by destruct (is_primary x).
  - rewrite Hperm. eapply sublist_NoDup; [apply registry_keys_NoDup|apply entry_keys_sublist].
  - intros v f Hv Hf. split.
    + intros [Hfin Hpos]. eexists. split.
      * rewrite Hperm. apply list_elem_of_In, in_flat_map. exists v. split; [by apply list_elem_of_In|].
        unfold entry_of. rewrite Hf, (registry_fields_named v f Hv Hf), Hfin. cbn [negb orb].
        destruct (nle _ _) eqn:Hle; [by destruct (nlt_le_asymm _ _ Hpos Hle)|]. by left.
      * done.
    + intros (e & He & <- & Hval). rewrite Hperm in He. apply list_elem_of_In, in_flat_map in He as (v & _ & He).
      apply list_elem_of_In, entry_of_spec in He as (<- & _ & _ & _ & Hfin & Hpos). by rewrite <- Hval.
Qed.

(** what the price table reads from an expression the editor saved: for a base expression and a non-empty
    list of well-formed rule groups, combined by [combineBillingExpr], the tiers shown are those of the
    base alone and the model is marked as having request rules. *)
Theorem dynamic_pricing_of_combined (model : PricingModel) (base : str) (groups : list RequestRuleGroup)
  (Hmode : billing_mode model = Some (js "tiered_expr"))
  (Hexpr : billing_expr model = Some (combineBillingExpr base (buildRequestRuleExpr groups)))
  (Ht : trim base = base) (Hne : base ≠ []) (Hb : balanced base = true) (He : ends_with (js " : 1") base = false)
  (Hg : groups ≠ []) (Hwf : forallb wf_group groups = true) :
  getDynamicPricingTiers model = Ret (parseTiersFromExpr (unwrapOuterParens base))
  ∧ hasDynamicRequestRules model = Ret true.
Proof.
  pose proof (split_of_combined base groups Ht Hne Hb He Hg Hwf) as Hs.
  assert (Hd : isDynamicPricingModel model = true).
  { unfold isDynamicPricingModel. rewrite Hmode, bool_decide_true by done. rewrite Hexpr. cbn [default andb].
    destruct (rule_expr_trimmed groups Hg Hwf) as [Hrt Hrne]. unfold combineBillingExpr.
    rewrite Ht, trim_id by done. destruct base; [done|]. by destruct (buildRequestRuleExpr groups). }
  unfold getDynamicPricingTiers, hasDynamicRequestRules. rewrite Hd, Hexpr. cbn [negb default from_option id].
  rewrite Hs. unfold mbind, outcome_bind. cbn [billingExpr requestRuleExpr].
  rewrite rules_read_back by done. by destruct groups.
Qed.

Lemma dynamic_pricing_of_combined_witness :
  let base := js "p <= 200000 ? tier(" ++ dq ++ js "base" ++ dq ++ js ", p * 3 + c * 15) : tier(" ++ dq ++ js "long" ++ dq
                ++ js ", p * 6 + c * 22.5)" in
  let model := {|
    model_name := None; description := None; vendor_name := None; quota_type := num_of_Z 0; model_ratio := num_of_Z 1;
    completion_ratio := num_of_Z 1; model_price := None; cache_ratio := None; create_cache_ratio := None;
    image_ratio := None; audio_ratio := None; audio_completion_ratio := None; enable_groups := None; tags := None;
    supported_endpoint_types := None; group_ratio := None; billing_mode := Some (js "tiered_expr");
    billing_expr := Some (combineBillingExpr base (buildRequestRuleExpr BillingRules.sample_groups)) |} in
  length (parseTiersFromExpr (unwrapOuterParens base)) = 2
  ∧ getDynamicPricingTiers model = Ret (parseTiersFromExpr (unwrapOuterParens base)).
Proof.
  split; [vm_compute; reflexivity|].
  match goal with |- getDynamicPricingTiers ?m = Ret (parseTiersFromExpr (unwrapOuterParens ?b)) =>
    refine (proj1 (dynamic_pricing_of_combined m b BillingRules.sample_groups eq_refl eq_refl _ _ _ _ _ _)) end;
    try (vm_compute; reflexivity); discriminate.
Defined.
