(* ===== verification/Filters.v ===== *)
(** * Filtering and sorting models ([web/default/src/features/pricing/lib/filters.ts])

    [toLowerCase] and [localeCompare] depend on Unicode tables and the reader's locale: they are
    parameters. *)

From S2P Require Import Prelude JsString Regex JsNumber BillingExpr Price.

(** ** Constants ([pricing/constants.ts]) *)

Definition SORT_NAME := js "name".
Definition SORT_PRICE_LOW := js "price-low".
Definition SORT_PRICE_HIGH := js "price-high".
Definition FILTER_ALL := js "all".
Definition QUOTA_ALL := js "all".
Definition QUOTA_TYPE_TOKEN := js "token".
Definition ENDPOINT_ALL := js "all".

Record ModelFilters := {
  search : str; vendor : str; group : str; quotaType : str; endpointType : str; tag : str; sortBy : str }.

(** ** Filters without text folding *)

Definition filterByVendor (models : list PricingModel) (vendor : str) : list PricingModel :=
  if bool_decide (vendor = FILTER_ALL) then models
  else List.filter (λ m, bool_decide (vendor_name m = Some vendor)) models.

Definition filterByGroup (models : list PricingModel) (group : str) : list PricingModel :=
  if bool_decide (group = FILTER_ALL) then models
  else List.filter (λ m, bool_decide (group ∈ default [] (enable_groups m))) models.

Definition filterByQuotaType (models : list PricingModel) (quotaType : str) : list PricingModel :=
  if bool_decide (quotaType = QUOTA_ALL) then models
  else
    let targetType := if bool_decide (quotaType = QUOTA_TYPE_TOKEN) then QUOTA_TOKEN else QUOTA_REQUEST in
    List.filter (λ m, num_eqb (quota_type m) targetType) models.

Definition filterByEndpointType (models : list PricingModel) (endpointType : str) : list PricingModel :=
  if bool_decide (endpointType = ENDPOINT_ALL) then models
  else List.filter (λ m, bool_decide (endpointType ∈ default [] (supported_endpoint_types m))) models.

Definition getModelPrice (model : PricingModel) : num :=
  if num_eqb (quota_type model) (num_of_Z 0) then model_ratio model
  else default (num_of_Z 0) (or_zero <$> model_price model).

(** [/[,;|\s]+/] *)
Definition TAG_SEPARATOR_RE : regex :=
  rplus (RChar (λ c, (c =? 44)%N || (c =? 59)%N || (c =? 124)%N || is_space c)).

Definition parseTags (tagsString : option str) : list str :=
  match tagsString with
  | Some t => if truthy t then List.filter truthy (map trim (split_re TAG_SEPARATOR_RE t)) else []
  | None => []
  end.

(** [/[\s_-]+/g] *)
Definition SEARCH_NOISE_RE : regex := rplus (RChar (λ c, is_space c || (c =? 95)%N || (c =? 45)%N)).

Section filters.
Context (toLowerCase : str → str) (localeCompare : str → str → Z).

Definition normalizeSearchText (value : str) : str := replace_all SEARCH_NOISE_RE [] (toLowerCase value).

Definition field_matches (lowerQuery normalizedQuery : str) (field : option str) : bool :=
  match field with
  | Some f =>
      truthy f && (includes lowerQuery (toLowerCase f) || includes normalizedQuery (normalizeSearchText f))
  | None => false
  end.

Definition filterBySearch (models : list PricingModel) (query : str) : list PricingModel :=
  let trimmedQuery := trim query in
  if negb (truthy trimmedQuery) then models
  else
    let lowerQuery := toLowerCase trimmedQuery in
    let normalizedQuery := normalizeSearchText trimmedQuery in
    List.filter (λ m, existsb (field_matches lowerQuery normalizedQuery)
                        [model_name m; description m; tags m; vendor_name m]) models.

Definition sortModels (models : list PricingModel) (sortBy : str) : list PricingModel :=
  if bool_decide (sortBy = SORT_NAME)
  then array_sort (λ a b, localeCompare (default [] (model_name a)) (default [] (model_name b))) models
  else if bool_decide (sortBy = SORT_PRICE_LOW)
  then array_sort (λ a b, num_sign (nsub (getModelPrice a) (getModelPrice b))) models
  else if bool_decide (sortBy = SORT_PRICE_HIGH)
  then array_sort (λ a b, num_sign (nsub (getModelPrice b) (getModelPrice a))) models
  else models.

Definition has_tag (tagLower : str) (m : PricingModel) : bool :=
  match tags m with
  | Some t => truthy t && bool_decide (tagLower ∈ map toLowerCase (parseTags (Some t)))
  | None => false
  end.

Definition filterByTag (models : list PricingModel) (tag : str) : list PricingModel :=
  if bool_decide (tag = FILTER_ALL) then models
  else List.filter (has_tag (toLowerCase tag)) models.

Definition filterAndSortModels (models : list PricingModel) (filters : ModelFilters) : list PricingModel :=
  let result := filterBySearch models (search filters) in
  let result := filterByVendor result (vendor filters) in
  let result := filterByGroup result (group filters) in
  let result := filterByQuotaType result (quotaType filters) in
  let result := filterByEndpointType result (endpointType filters) in
  let result := filterByTag result (tag filters) in
  sortModels result (sortBy filters).

Definition extractAllTags (models : list PricingModel) : list str :=
  array_sort localeCompare
    (fold_left (λ tagSet m, match tags m with
                            | Some t => if truthy t then fold_left set_add (map toLowerCase (parseTags (Some t))) tagSet
                                        else tagSet
                            | None => tagSet
                            end) models []).

(** ** Properties *)

(** The criterion of each filter. *)
Definition wanted (f : ModelFilters) (m : PricingModel) : Prop :=
  (trim (search f) = [] ∨ ∃ t, Some t ∈ [model_name m; description m; tags m; vendor_name m] ∧ t ≠ []
     ∧ (includes (toLowerCase (trim (search f))) (toLowerCase t) = true
        ∨ includes (normalizeSearchText (trim (search f))) (normalizeSearchText t) = true))
  ∧ (vendor f = FILTER_ALL ∨ vendor_name m = Some (vendor f))
  ∧ (group f = FILTER_ALL ∨ ∃ gs, enable_groups m = Some gs ∧ group f ∈ gs)
  ∧ (quotaType f = QUOTA_ALL
     ∨ num_eqb (quota_type m) (if bool_decide (quotaType f = QUOTA_TYPE_TOKEN) then QUOTA_TOKEN else QUOTA_REQUEST) = true)
  ∧ (endpointType f = ENDPOINT_ALL ∨ ∃ es, supported_endpoint_types m = Some es ∧ endpointType f ∈ es)
  ∧ (tag f = FILTER_ALL ∨ ∃ t, t ∈ parseTags (tags m) ∧ toLowerCase t = toLowerCase (tag f)).

Lemma elem_of_search l q m :
  m ∈ filterBySearch l q ↔ m ∈ l ∧
    (trim q = [] ∨ ∃ t, Some t ∈ [model_name m; description m; tags m; vendor_name m] ∧ t ≠ []
     ∧ (includes (toLowerCase (trim q)) (toLowerCase t) = true
        ∨ includes (normalizeSearchText (trim q)) (normalizeSearchText t) = true)).
Proof.
  unfold filterBySearch. destruct (trim q) as [|c q'] eqn:E; cbn [truthy negb]; [naive_solver|].
  rewrite elem_of_bfilter, existsb_exists. apply and_iff_compat_l. split.
  - intros (o & Ho%list_elem_of_In & Hm). right. destruct o as [t|]; [|done]. exists t. split; [done|].
    apply andb_prop in Hm as [Ht Hm]. split; [by destruct t|]. by apply orb_true_iff in Hm.
  - intros [|(t & Ht & Hne & Hm)]; [done|]. exists (Some t). split; [by apply list_elem_of_In|]. cbn [field_matches].
    replace (truthy t) with true by (by destruct t). cbn [andb]. by apply orb_true_iff.
Qed.

(** A filter that is off for the value [all] and selects by [p] otherwise. *)
Lemma elem_of_switch (all x : str) (p : PricingModel → bool) l m :
  m ∈ (if bool_decide (x = all) then l else List.filter p l) ↔ m ∈ l ∧ (x = all ∨ p m = true).
Proof. case_bool_decide; [naive_solver|]. rewrite elem_of_bfilter. naive_solver. Qed.

Lemma has_tag_spec tl m : has_tag tl m = true ↔ ∃ t, t ∈ parseTags (tags m) ∧ toLowerCase t = tl.
Proof.
  unfold has_tag. destruct (tags m) as [t|]; [|split; [done|]; by intros (? & ?%elem_of_nil & _)].
  rewrite andb_true_iff, bool_decide_eq_true, elem_of_lmap. split; [naive_solver|].
  intros (u & Hu & <-). split; [|eauto]. destruct t; [|done]. by apply elem_of_nil in Hu.
Qed.

Lemma elem_of_sortModels l s m : m ∈ sortModels l s ↔ m ∈ l.
Proof. unfold sortModels. repeat case_bool_decide; rewrite ?elem_of_array_sort; done. Qed.

Lemma default_elem {A} (x : A) (o : option (list A)) : x ∈ default [] o ↔ ∃ l, o = Some l ∧ x ∈ l.
Proof. destruct o; simpl; [naive_solver|]. rewrite elem_of_nil. naive_solver. Qed.

(** the model table shows exactly the models that meet every filter: the search text in one of the
    texts of the model (up to case, or up to separators), the vendor, the group, the kind of price, the
    endpoint and the tag, each unless it is set to all; no model is shown more often than it is listed. *)
Theorem filter_and_sort_exact models f :
  (∀ m, m ∈ filterAndSortModels models f ↔ m ∈ models ∧ wanted f m)
  ∧ ∃ l, l `sublist_of` models ∧ filterAndSortModels models f ≡ₚ l.
Proof.
  unfold filterAndSortModels, wanted. split.
  - intros m. rewrite elem_of_sortModels. unfold filterByTag, filterByEndpointType, filterByQuotaType, filterByGroup,
      filterByVendor. rewrite !elem_of_switch, elem_of_search, !bool_decide_eq_true, has_tag_spec, !default_elem. tauto.
  - eexists. split; [|].
    2:{ unfold sortModels. repeat case_bool_decide; rewrite ?array_sort_Permutation; reflexivity. }
    unfold filterByTag, filterByEndpointType, filterByQuotaType, filterByGroup, filterByVendor, filterBySearch.
    repeat case_match; repeat (etrans; [apply bfilter_sublist|]); done.
Qed.

Context `{!Comparator localeCompare}.

(** sorted by name, the models shown are in the order of the locale. *)
Theorem name_sort_sorted models f :
  sortBy f = SORT_NAME →
  StronglySorted (λ a b, (localeCompare (default [] (model_name a)) (default [] (model_name b)) ≤ 0)%Z)
    (filterAndSortModels models f).
Proof.
  intros Hs. unfold filterAndSortModels, sortModels. rewrite Hs, bool_decide_true by done.
  exact (sorted_by _ (Comparator0 := comparator_on (λ m, default [] (model_name m)) localeCompare _) _).
Qed.

Lemma elem_of_collected l acc x :
  x ∈ fold_left (λ tagSet m, match tags m with
                             | Some t => if truthy t then fold_left set_add (map toLowerCase (parseTags (Some t))) tagSet
                                         else tagSet
                             | None => tagSet
                             end) l acc
  ↔ x ∈ acc ∨ ∃ m t, m ∈ l ∧ t ∈ parseTags (tags m) ∧ x = toLowerCase t.
Proof.
  revert acc. induction l as [|m l IH]; intros acc; simpl; [set_solver|]. rewrite IH. clear IH.
  assert (Hm : ∀ acc', x ∈ match tags m with
                           | Some t => if truthy t then fold_left set_add (map toLowerCase (parseTags (Some t))) acc' else acc'
                           | None => acc'
                           end ↔ x ∈ acc' ∨ ∃ t, t ∈ parseTags (tags m) ∧ x = toLowerCase t).
  { intros acc'. destruct (tags m) as [t|]; [|simpl; set_solver].
    destruct t as [|c t]; [simpl; set_solver|]. cbn [truthy]. rewrite elem_of_fold_set_add, elem_of_lmap. naive_solver. }
  rewrite Hm. set_solver.
Qed.

Lemma collected_NoDup l acc :
  NoDup acc →
  NoDup (fold_left (λ tagSet m, match tags m with
                                | Some t => if truthy t then fold_left set_add (map toLowerCase (parseTags (Some t))) tagSet
                                            else tagSet
                                | None => tagSet
                                end) l acc).
Proof.
  revert acc. induction l as [|m l IH]; intros acc Hacc; simpl; [done|]. apply IH.
  destruct (tags m) as [t|]; [|done]. destruct (truthy t); [|done]. by apply fold_set_add_NoDup.
Qed.

(** the tag menu lists exactly the lower-cased tags of the models, each once and in the order of the locale,
    and (lower-casing being idempotent) choosing a tag of the menu selects at least one model. *)
Theorem tag_menu_exact models :
  (∀ s, toLowerCase (toLowerCase s) = toLowerCase s) →
  let menu := extractAllTags models in
  NoDup menu ∧ StronglySorted (cmp_le localeCompare) menu
  ∧ (∀ x, x ∈ menu ↔ ∃ m t, m ∈ models ∧ t ∈ parseTags (tags m) ∧ x = toLowerCase t)
  ∧ (∀ x, x ∈ menu → ∃ m, m ∈ filterByTag models x).
Proof.
  intros Hidem menu.
  assert (Hmem : ∀ x, x ∈ menu ↔ ∃ m t, m ∈ models ∧ t ∈ parseTags (tags m) ∧ x = toLowerCase t).
  { intros x. unfold menu, extractAllTags. rewrite elem_of_array_sort, elem_of_collected. set_solver. }
  split_and!.
  - unfold menu, extractAllTags. rewrite array_sort_Permutation. apply collected_NoDup, NoDup_nil_2.
  - apply sorted_by, _.
  - exact Hmem.
  - intros x (m & t & Hm & Ht & ->)%Hmem. exists m. unfold filterByTag. rewrite elem_of_switch, has_tag_spec.
    split; [done|]. right. exists t. by rewrite Hidem.
Qed.
End filters.

(** ** Instances *)

Definition ascii_lower (s : str) : str := map (λ c, if (65 <=? c) && (c <=? 90) then c + 32 else c)%N s.

Lemma ascii_lower_idemp s : ascii_lower (ascii_lower s) = ascii_lower s.
Proof.
  unfold ascii_lower. rewrite map_map. apply map_ext. intros c.
  destruct ((65 <=? c) && (c <=? 90))%N eqn:E; [|by rewrite E].
  apply andb_prop in E as [E1%N.leb_le E2%N.leb_le].
  replace ((65 <=? c + 32) && (c + 32 <=? 90))%N with false; [done|]. symmetry. apply andb_false_iff. right.
  apply N.leb_gt. lia.
Qed.

Definition sample_models : list PricingModel :=
  [sample_model (js "gpt-5") (num_of_Z 3); sample_model (js "Claude Opus") (num_of_Z 7)].

Lemma name_sort_sorted_witness :
  let f := {| search := js "o"; vendor := FILTER_ALL; group := js "default"; quotaType := QUOTA_TYPE_TOKEN;
              endpointType := ENDPOINT_ALL; tag := js "Chat"; sortBy := SORT_NAME |} in
  filterAndSortModels ascii_lower str_cmp sample_models f
    = [sample_model (js "Claude Opus") (num_of_Z 7); sample_model (js "gpt-5") (num_of_Z 3)]
  ∧ StronglySorted (λ a b, (str_cmp (default [] (model_name a)) (default [] (model_name b)) ≤ 0)%Z)
      (filterAndSortModels ascii_lower str_cmp sample_models f).
Proof.
  split; [vm_compute; reflexivity|]. apply (name_sort_sorted ascii_lower str_cmp sample_models). reflexivity.
Defined.

Lemma tag_menu_exact_witness :
  extractAllTags ascii_lower str_cmp sample_models = [js "chat"; js "fast"]
  ∧ NoDup (extractAllTags ascii_lower str_cmp sample_models).
Proof.
  split; [vm_compute; reflexivity|].
  apply (tag_menu_exact ascii_lower str_cmp sample_models ascii_lower_idemp).
Defined.
