(* ===== verification/ChannelUtils.v ===== *)
(** * Channel utilities ([web/default/src/features/channels/lib/channel-utils.ts], [channels/constants.ts])

    Labels and badges of upstream channels, the lists and texts kept in channel records, the rows of the tag view,
    and the keys of a multi-key channel.

    [localeCompare] is a parameter.  The time-ago text of the dayjs library ([formatRelativeTime],
    [formatTimestamp]) is not modelled. *)

From S2P Require Import Prelude JsString JsNumber JsNumberFacts Json ModelMapping BillingText Currency.

(** ** Tables ([channels/constants.ts]) *)

Definition CHANNEL_TYPES : list (Z * str) :=
  [(0, js "Unknown"); (1, js "OpenAI"); (2, js "Midjourney"); (3, js "Azure"); (4, js "Ollama");
   (5, js "MidjourneyPlus"); (6, js "OpenAIMax"); (7, js "OhMyGPT"); (8, js "Custom"); (9, js "AILS");
   (10, js "AI Proxy"); (11, js "PaLM"); (12, js "API2GPT"); (13, js "AIGC2D"); (14, js "Anthropic");
   (15, js "Baidu"); (16, js "Zhipu"); (17, js "Ali"); (18, js "Xunfei"); (19, js "360"); (20, js "OpenRouter");
   (21, js "AI Proxy Library"); (22, js "FastGPT"); (23, js "Tencent"); (24, js "Gemini"); (25, js "Moonshot");
   (26, js "Zhipu V4"); (27, js "Perplexity"); (31, js "LingYiWanWu"); (33, js "AWS"); (34, js "Cohere");
   (35, js "MiniMax"); (36, js "SunoAPI"); (37, js "Dify"); (38, js "Jina"); (39, js "Cloudflare");
   (40, js "SiliconFlow"); (41, js "Vertex AI"); (42, js "Mistral"); (43, js "DeepSeek"); (44, js "MokaAI");
   (45, js "VolcEngine"); (46, js "Baidu V2"); (47, js "Xinference"); (48, js "xAI"); (49, js "Coze");
   (50, js "Kling"); (51, js "Jimeng"); (52, js "Vidu"); (53, js "Submodel"); (54, js "DoubaoVideo");
   (55, js "Sora"); (56, js "Replicate"); (57, js "Codex")]%Z.

Definition CHANNEL_TYPE_DISPLAY_ORDER : list Z :=
  [1; 14; 33; 24; 43; 3; 41; 48; 42; 34; 20; 4; 40; 27; 25; 17; 26; 15; 46; 23;
   18; 45; 31; 35; 49; 19; 47; 37; 38; 39; 11; 8; 57; 22; 21; 44; 2; 5; 36; 50;
   51; 52; 53; 54; 55; 56]%Z.

Record TypeOption := { to_value : Z; to_label : str }.

(** [table[id]] for an integer [id] *)
Definition table_get {A} (t : list (Z * A)) (id : Z) : option A := snd <$> find (λ kv, (fst kv =? id)%Z) t.

Definition CHANNEL_TYPE_OPTIONS : list TypeOption :=
  let ordered := omap (λ id, (λ l, {| to_value := id; to_label := l |}) <$> table_get CHANNEL_TYPES id)
                      CHANNEL_TYPE_DISPLAY_ORDER in
  let seen := map to_value ordered in
  ordered ++ omap (λ kv, if negb (fst kv =? 0)%Z && negb (bool_decide (fst kv ∈ seen))
                         then Some {| to_value := fst kv; to_label := snd kv |} else None) CHANNEL_TYPES.

Definition TYPE_TO_ICON : list (Z * str) :=
  [(1, js "OpenAI"); (2, js "Midjourney"); (3, js "Azure"); (4, js "Ollama"); (5, js "Midjourney"); (6, js "OpenAI");
   (7, js "OpenAI"); (8, js "OpenAI"); (9, js "OpenAI"); (10, js "OpenAI"); (11, js "Google"); (12, js "OpenAI");
   (13, js "OpenAI"); (14, js "Claude"); (15, js "Baidu"); (16, js "Zhipu"); (17, js "Qwen"); (18, js "Spark");
   (19, js "Ai360"); (20, js "OpenRouter"); (21, js "OpenAI"); (22, js "FastGPT"); (23, js "Hunyuan");
   (24, js "Gemini"); (25, js "Moonshot"); (26, js "Zhipu"); (27, js "Perplexity"); (31, js "Yi"); (33, js "Aws");
   (34, js "Cohere"); (35, js "Minimax"); (36, js "Suno"); (37, js "Dify"); (38, js "Jina"); (39, js "Cloudflare");
   (40, js "SiliconCloud"); (41, js "Gemini"); (42, js "Mistral"); (43, js "DeepSeek"); (44, js "OpenAI");
   (45, js "Volcengine"); (46, js "Baidu"); (47, js "Xinference"); (48, js "XAI"); (49, js "Coze"); (50, js "Kling");
   (51, js "Jimeng"); (52, js "Vidu"); (53, js "OpenAI"); (54, js "Doubao"); (55, js "OpenAI"); (56, js "Replicate")]%Z.

Definition TYPE_TO_KEY_PROMPT : list (Z * str) :=
  [(15, js "Format: APIKey|SecretKey"); (18, js "Format: APPID|APISecret|APIKey");
   (22, js "Format: APIKey-AppId, e.g., fastgpt-0sp2gtvfdgyi4k30jwlgwf1i-64f335d84283f05518e9e041");
   (23, js "Format: AppId|SecretId|SecretKey"); (33, js "Format: Ak|Sk|Region");
   (50, js "Format: AccessKey|SecretKey (or just ApiKey if upstream is New API)");
   (51, js "Format: Access Key ID|Secret Access Key");
   (57, js "Paste Codex OAuth JSON credential (access_token / refresh_token / account_id)")]%Z.

(** [variant] and [label] of a badge *)
Record Badge := { badge_variant : str; badge_label : str }.

Definition badge (v l : str) : Badge := {| badge_variant := v; badge_label := l |}.

Definition CHANNEL_STATUS_CONFIG : list (Z * Badge) :=
  [(0, badge (js "neutral") (js "Unknown")); (1, badge (js "success") (js "Enabled"));
   (2, badge (js "danger") (js "Disabled")); (3, badge (js "warning") (js "Auto Disabled"))]%Z.

Definition MULTI_KEY_STATUS_CONFIG : list (Z * Badge) :=
  [(1, badge (js "success") (js "Enabled")); (2, badge (js "neutral") (js "Manual Disabled"));
   (3, badge (js "danger") (js "Auto Disabled"))]%Z.

Record ResponseTimeThresholds := { EXCELLENT : Z; GOOD : Z; FAIR : Z; POOR : Z }.

Definition RESPONSE_TIME_THRESHOLDS : ResponseTimeThresholds :=
  {| EXCELLENT := 500; GOOD := 1000; FAIR := 2000; POOR := 5000 |}.

(** [RESPONSE_TIME_CONFIG] *)
Definition RT_EXCELLENT := badge (js "success") (js "Excellent").
Definition RT_GOOD := badge (js "info") (js "Good").
Definition RT_FAIR := badge (js "warning") (js "Fair").
Definition RT_POOR := badge (js "danger") (js "Poor").
Definition RT_UNKNOWN := badge (js "neutral") (js "Not tested").

(** ** Channels *)

(** A number field that may be [null] or absent. *)
Inductive nullish := Undefined | Null | Num (x : num).

(** [===] *)
Definition nullish_eqb (a b : nullish) : bool :=
  match a, b with
  | Undefined, Undefined | Null, Null => true
  | Num x, Num y => num_eqb x y
  | _, _ => false
  end.

Record ChannelInfo := {
  is_multi_key : bool;
  multi_key_size : num;
  multi_key_status_list : option (list (str * num)) }.

(** The fields the utilities read; [rest] stands for the other fields, which are only copied. *)
Record Channel := {
  id : num; type : num; key : str; status : num; name : str; weight : nullish; created_time : num; test_time : num;
  response_time : num; balance : num; balance_updated_time : num; models : str; group : str; used_quota : num;
  priority : nullish; tag : option str; channel_info : option ChannelInfo; rest : obj }.

(** ** Types and status *)

(** [table[x]] for a number [x] used as a property key *)
Definition table_at {A} (t : list (Z * A)) (x : num) : option A :=
  snd <$> find (λ kv, bool_decide (Z_dec (fst kv) = string_of_num x)) t.

(** [table[x] || fallback] on texts *)
Definition text_at (t : list (Z * str)) (x : num) (fallback : str) : str :=
  let s := default [] (table_at t x) in if truthy s then s else fallback.

Definition getChannelTypeLabel (type : num) : str := text_at CHANNEL_TYPES type (js "Unknown").

Definition getChannelTypeIcon (type : num) : str := text_at TYPE_TO_ICON type (js "OpenAI").

Definition getChannelStatusBadge (status : num) : Badge :=
  default (badge (js "neutral") (js "Unknown")) (table_at CHANNEL_STATUS_CONFIG status).

Definition getMultiKeyStatusBadge (status : num) : Badge :=
  default (badge (js "success") (js "Enabled")) (table_at MULTI_KEY_STATUS_CONFIG status).

Definition isChannelEnabled (channel : Channel) : bool := num_eqb (status channel) (num_of_Z 1).

Definition isMultiKeyChannel (channel : Channel) : bool := default false (is_multi_key <$> channel_info channel).

(** ** Keys *)

Definition newline : str := [10%N].

(** [s.slice(-n)] for [n > 0] *)
Definition slice_last (n : nat) (s : str) : str := drop (length s - n) s.

(** [key.split('\n').filter((k) => k.trim())] *)
Definition key_lines (key : str) : list str := List.filter (λ k, truthy (trim k)) (split newline key).

Definition formatChannelKey (key : str) (isMultiKey : bool) : str :=
  if negb (truthy key) then []
  else if isMultiKey then N_dec (N.of_nat (length (key_lines key))) ++ js " keys"
  else if length key <=? 16 then take 4 key ++ js "..." ++ slice_last 4 key
  else take 8 key ++ js "..." ++ slice_last 8 key.

Definition formatKeyPreview (key : str) (maxLength : nat) : str :=
  if negb (truthy key) then []
  else if length key <=? maxLength then key else take maxLength key ++ js "...".

Definition countKeys (key : str) : nat := if negb (truthy key) then 0 else length (key_lines key).

(** ** Lists in text fields *)

Definition comma : str := [44%N].

Definition parseModelsList (models : str) : list str :=
  if negb (truthy models) then [] else List.filter truthy (map trim (split comma models)).

(** The comparator of [parseGroupsList]. *)
Definition default_first (localeCompare : str → str → Z) (a b : str) : Z :=
  if bool_decide (a = js "default") then -1
  else if bool_decide (b = js "default") then 1 else localeCompare a b.

Definition parseGroupsList (localeCompare : str → str → Z) (groups : str) : list str :=
  if negb (truthy groups) then []
  else array_sort (default_first localeCompare) (List.filter truthy (map trim (split comma groups))).

Definition formatModelsString (models : list str) : str := join comma models.
Definition formatGroupsString (groups : list str) : str := join comma groups.

(** ** Settings *)

Definition parseChannelSettings (settingStr : option str) : json :=
  match settingStr with
  | Some s => if truthy s then default (JObj []) (json_parse s) else JObj []
  | None => JObj []
  end.

Definition parseChannelOtherSettings (settingsStr : option str) : json :=
  match settingsStr with
  | Some s => if negb (truthy s) || bool_decide (s = js "{}") then JObj [] else default (JObj []) (json_parse s)
  | None => JObj []
  end.

Definition validateChannelSettings (settings : str) : bool :=
  if negb (truthy settings) || bool_decide (trim settings = []) then true
  else match json_parse settings with Some _ => true | None => false end.

(** ** Balance, response time and quota *)

Inductive variant := success | warning | danger | neutral.

Definition getBalanceVariant (balance : num) : variant :=
  if num_eqb balance (num_of_Z 0) then neutral
  else if nlt balance (num_of_Z 1) then danger
  else if nlt balance (num_of_Z 10) then warning else success.

Definition two_digits (abbrev : bool) : CurrencyFormatOptions := {|
  o_digitsLarge := Some 2; o_digitsSmall := Some 2; o_maximumFractionDigits := None;
  o_abbreviate := Some abbrev; o_minimumNonZero := None; o_preservePrecision := None |}.

Definition formatBalance (intl : option str → nat → num → str) (stored : option PartialCurrencyConfig)
  (balance : option num) : str :=
  match balance with
  | Some b => if is_nan b then js "-" else formatCurrencyFromUSD intl stored (Some b) (Some (two_digits false))
  | None => js "-"
  end.

Definition formatQuota (intl : option str → nat → num → str) (stored : option PartialCurrencyConfig) (quota : num) : str :=
  formatQuotaWithCurrency intl stored (Some quota) (Some (two_digits true)).

(** [formatResponseTime(timeMs)] without a translation function *)
Definition formatResponseTime (timeMs : num) : str :=
  if num_eqb timeMs (num_of_Z 0) then js "Not tested"
  else if nlt timeMs (num_of_Z 1000) then string_of_num timeMs ++ js "ms"
  else to_fixed 2 (ndiv timeMs (num_of_Z 1000)) ++ js "s".

Definition getResponseTimeConfig (timeMs : num) : Badge :=
  let upto z := nle timeMs (num_of_Z z) in
  if num_eqb timeMs (num_of_Z 0) then RT_UNKNOWN
  else if upto (EXCELLENT RESPONSE_TIME_THRESHOLDS) then RT_EXCELLENT
  else if upto (GOOD RESPONSE_TIME_THRESHOLDS) then RT_GOOD
  else if upto (FAIR RESPONSE_TIME_THRESHOLDS) then RT_FAIR
  else if upto (POOR RESPONSE_TIME_THRESHOLDS) then RT_POOR
  else RT_POOR.

Definition number_display (x : nullish) : str :=
  match x with Num v => string_of_num v | _ => js "0" end.

Definition getPriorityDisplay (priority : nullish) : str := number_display priority.
Definition getWeightDisplay (weight : nullish) : str := number_display weight.

(** ** Validation *)

Definition validateChannelName (name : str) : bool := truthy (trim name).
Definition validateApiKey (key : str) : bool := truthy (trim key).
Definition validateModels (models : str) : bool := 0 <? length (parseModelsList models).
Definition validateGroups (localeCompare : str → str → Z) (groups : str) : bool :=
  0 <? length (parseGroupsList localeCompare groups).

(** Every key of a multi-key channel has a status entry, that is, is disabled. *)
Definition all_keys_disabled (channel : Channel) : bool :=
  match channel_info channel with
  | Some info =>
      is_multi_key info &&
      match multi_key_status_list info with
      | Some l => nle (multi_key_size info) (num_of_Z (Z.of_nat (length l)))
      | None => false
      end
  | None => false
  end.

Definition low_balance (channel : Channel) : bool :=
  nlt (num_of_Z 0) (balance channel) && nlt (balance channel) (num_of_Z 1).

Definition channelNeedsAttention (channel : Channel) : bool :=
  if num_eqb (status channel) (num_of_Z 3) then true
  else if low_balance channel then true
  else if all_keys_disabled channel then true else false.

Definition getAttentionReason (channel : Channel) : option str :=
  if num_eqb (status channel) (num_of_Z 3) then Some (js "Auto-disabled")
  else if low_balance channel then Some (js "Low balance")
  else if all_keys_disabled channel then Some (js "All keys disabled")
  else None.

(** ** Tag rows *)

(** A row of the tag view.  [row_first] is the channel whose other fields were copied when the row was made; the
    fields that are set once and never change (key, id and name, which are the tag; type, balance and times,
    which are 0; models, which is empty) are not repeated here. *)
Record TagRow := {
  row_tag : str;
  row_first : Channel;
  children : list Channel;
  row_used_quota : num;
  row_response_time : num;
  row_priority : nullish;
  row_weight : nullish;
  row_group : str;
  row_status : option num }.

(** [channel.tag || ''] *)
Definition tag_of (channel : Channel) : str := default [] (tag channel).

Definition new_row (channel : Channel) : TagRow := {|
  row_tag := tag_of channel; row_first := channel; children := []; row_used_quota := num_of_Z 0;
  row_response_time := num_of_Z 0; row_priority := Num (num_of_Z (-1)); row_weight := Num (num_of_Z (-1));
  row_group := []; row_status := None |}.

(** The common value of a field, [null] when the children differ; [-1] marks a row without a value. *)
Definition merge_common (row own : nullish) : nullish :=
  if nullish_eqb row (Num (num_of_Z (-1))) then own
  else if negb (nullish_eqb row own) then Null else row.

Definition group_names (g : str) : list str := List.filter truthy (split comma g).

Definition merge_group (row own : str) : str :=
  if bool_decide (row = []) then own
  else
    let existingGroups := group_names row in
    fold_left (λ acc g, if set_has g existingGroups then acc else acc ++ comma ++ g) (group_names own) row.

Definition merge_status (row : option num) (own : num) : option num :=
  if num_eqb own (num_of_Z 1) then Some (num_of_Z 1)
  else match row with None => Some own | Some _ => row end.

Definition row_add (row : TagRow) (channel : Channel) : TagRow :=
  let kids := children row ++ [channel] in
  let childCount := num_of_Z (Z.of_nat (length kids)) in
  {| row_tag := row_tag row; row_first := row_first row; children := kids;
     row_used_quota := nadd (row_used_quota row) (used_quota channel);
     row_response_time :=
       ndiv (nadd (nmul (row_response_time row) (nsub childCount (num_of_Z 1))) (response_time channel)) childCount;
     row_priority := merge_common (row_priority row) (priority channel);
     row_weight := merge_common (row_weight row) (weight channel);
     row_group := merge_group (row_group row) (group channel);
     row_status := merge_status (row_status row) (status channel) |}.

(** One round of the loop.  [tagMap] and [result] hold the same row objects in the same order, so one list stands
    for both; the update of the row of the channel's tag is seen through both. *)
Definition aggregate_step (rows : list TagRow) (channel : Channel) : list TagRow :=
  let t := tag_of channel in
  let rows' := if bool_decide (t ∈ map row_tag rows) then rows else rows ++ [new_row channel] in
  map (λ row, if bool_decide (row_tag row = t) then row_add row channel else row) rows'.

Definition aggregateChannelsByTag (channels : list Channel) : list TagRow := fold_left aggregate_step channels [].

(** ** Duplicate keys *)

Record DeduplicateResult := {
  deduplicatedText : str; beforeCount : Z; afterCount : Z; removedCount : Z }.

Definition deduplicateKeys (keysText : str) : DeduplicateResult :=
  if negb (truthy keysText) || bool_decide (trim keysText = [])
  then {| deduplicatedText := []; beforeCount := 0; afterCount := 0; removedCount := 0 |}
  else
    let keyLines := split newline keysText in
    let before := Z.of_nat (length keyLines) in
    let deduplicatedKeys :=
      fold_left (λ keys line, let t := trim line in if truthy t && negb (set_has t keys) then keys ++ [t] else keys)
        keyLines [] in
    let after := Z.of_nat (length deduplicatedKeys) in
    {| deduplicatedText := join newline deduplicatedKeys; beforeCount := before; afterCount := after;
       removedCount := before - after |}.

Definition getKeyPromptForType (type : num) : str := text_at TYPE_TO_KEY_PROMPT type (js "Enter API key for this channel").

(** ** Properties: tag rows *)

(** The row of a tag, computed from the channels that have it. *)
Definition row_of (kids : list Channel) : option TagRow :=
  (λ c, fold_left row_add kids (new_row c)) <$> head kids.

Definition with_tag (t : str) (channels : list Channel) : list Channel :=
  List.filter (λ c, bool_decide (tag_of c = t)) channels.

Definition grouped_rows (channels : list Channel) : list TagRow :=
  omap (λ t, row_of (with_tag t channels)) (array_of_set (map tag_of channels)).

Lemma fold_row_add_tag kids row : row_tag (fold_left row_add kids row) = row_tag row.
Proof. revert row. induction kids as [|c l IH]; intros row; [done|]. simpl. by rewrite IH. Qed.

Lemma with_tag_snoc t l c :
  with_tag t (l ++ [c]) = with_tag t l ++ (if bool_decide (tag_of c = t) then [c] else []).
Proof. unfold with_tag. rewrite bfilter_app. simpl. by case_bool_decide. Qed.

Lemma row_of_snoc kids c :
  row_of (kids ++ [c]) = Some (match row_of kids with Some r => row_add r c | None => row_add (new_row c) c end).
Proof. destruct kids as [|k kids]; [done|]. unfold row_of. simpl. by rewrite fold_left_app. Qed.

Lemma array_of_set_snoc {A} `{EqDecision A} (l : list A) x : array_of_set (l ++ [x]) = set_add (array_of_set l) x.
Proof. unfold array_of_set. by rewrite fold_left_app. Qed.

Lemma row_of_tag t l r : row_of (with_tag t l) = Some r → row_tag r = t.
Proof.
  unfold row_of. destruct (with_tag t l) as [|c k] eqn:E; [done|]. intros [= <-]. rewrite fold_row_add_tag. cbn [row_tag row_add new_row].
  assert (Hc : c ∈ with_tag t l) by (rewrite E; set_solver).
  unfold with_tag in Hc. by apply elem_of_bfilter in Hc as [_ ?%bool_decide_eq_true].
Qed.

Lemma with_tag_nonempty t l : t ∈ map tag_of l ↔ with_tag t l ≠ [].
Proof.
  rewrite elem_of_lmap. split.
  - intros (c & -> & Hc) H. assert (c ∈ with_tag (tag_of c) l); [|by rewrite H in *; set_solver].
    unfold with_tag. apply elem_of_bfilter. by rewrite bool_decide_true.
  - intros H. destruct (with_tag t l) as [|c k] eqn:E; [done|].
    assert (Hc : c ∈ with_tag t l) by (rewrite E; set_solver).
    unfold with_tag in Hc. apply elem_of_bfilter in Hc as [? ?%bool_decide_eq_true]. eauto.
Qed.

Lemma grouped_row_tags l : map row_tag (grouped_rows l) = array_of_set (map tag_of l).
Proof.
  unfold grouped_rows.
  assert (H : ∀ ts, (∀ t, t ∈ ts → t ∈ map tag_of l) → map row_tag (omap (λ t, row_of (with_tag t l)) ts) = ts).
  { induction ts as [|t ts IH]; intros Hts; [done|]. cbn [omap list_omap].
    assert (Ht : with_tag t l ≠ []) by (apply with_tag_nonempty, Hts; set_solver).
    destruct (row_of (with_tag t l)) as [r|] eqn:E; [|by destruct (with_tag t l)].
    simpl. rewrite (row_of_tag _ _ _ E), IH by (intros; apply Hts; set_solver). done. }
  apply H. intros t. by rewrite elem_of_array_of_set.
Qed.

Lemma omap_update (upd : TagRow → TagRow) (f f' : str → option TagRow) ts :
  (∀ t, t ∈ ts → f' t = upd <$> f t) → map upd (omap f ts) = omap f' ts.
Proof.
  induction ts as [|t ts IH]; intros H; [done|]. cbn [omap list_omap]. rewrite (H t) by set_solver.
  destruct (f t); simpl; rewrite IH by (intros; apply H; set_solver); done.
Qed.

Lemma row_of_next l c t :
  t ∈ map tag_of l →
  row_of (with_tag t (l ++ [c]))
  = (λ row, if bool_decide (row_tag row = tag_of c) then row_add row c else row) <$> row_of (with_tag t l).
Proof.
  intros Ht%with_tag_nonempty. rewrite with_tag_snoc.
  destruct (row_of (with_tag t l)) as [r|] eqn:E; [|by destruct (with_tag t l)].
  pose proof (row_of_tag _ _ _ E) as Hr. simpl. rewrite Hr. case_bool_decide as H.
  - rewrite row_of_snoc, E. by rewrite bool_decide_true by done.
  - rewrite app_nil_r, E. by rewrite bool_decide_false by congruence.
Qed.

Lemma aggregate_grouped channels : aggregateChannelsByTag channels = grouped_rows channels.
Proof.
  induction channels as [|c l IH] using rev_ind; [done|]. unfold aggregateChannelsByTag in *. rewrite fold_left_app, IH.
  cbn [fold_left]. unfold aggregate_step. rewrite grouped_row_tags. unfold grouped_rows at 3.
  rewrite map_app. cbn [map]. rewrite array_of_set_snoc. unfold set_add, set_has.
  set (ts := array_of_set (map tag_of l)).
  assert (Hts : ∀ t, t ∈ ts → t ∈ map tag_of l) by (intros t; unfold ts; by rewrite elem_of_array_of_set).
  case_bool_decide as Hin.
  - apply omap_update. intros t Ht. by apply row_of_next, Hts.
  - rewrite map_app. unfold grouped_rows. rewrite omap_app. f_equal.
    + apply omap_update. intros t Ht. by apply row_of_next, Hts.
    + cbn [map omap list_omap row_tag new_row]. rewrite bool_decide_true by done.
      rewrite with_tag_snoc, bool_decide_true by done.
      destruct (with_tag (tag_of c) l) as [|k ks] eqn:E; [done|].
      exfalso. apply Hin. unfold ts. rewrite elem_of_array_of_set, with_tag_nonempty, E. done.
Qed.

Lemma fold_row_add_children kids row : children (fold_left row_add kids row) = children row ++ kids.
Proof.
  revert row. induction kids as [|c l IH]; intros row; [by rewrite app_nil_r|]. simpl. rewrite IH. simpl. by rewrite <- app_assoc.
Qed.

Lemma elem_of_rows channels row :
  row ∈ aggregateChannelsByTag channels ↔ row_of (with_tag (row_tag row) channels) = Some row.
Proof.
  rewrite aggregate_grouped. unfold grouped_rows. rewrite list_elem_of_omap. split.
  - intros (t & _ & H). by rewrite (row_of_tag _ _ _ H).
  - intros H. exists (row_tag row). split; [|done]. rewrite elem_of_array_of_set, with_tag_nonempty.
    by destruct (with_tag _ _).
Qed.

Lemma row_of_children kids row : row_of kids = Some row → children row = kids.
Proof. destruct kids as [|c k]; [done|]. intros [= <-]. rewrite fold_row_add_children. done. Qed.

(** the tag view groups the channels: it has one row for each tag, in the order the tags first appear, and
    a row is made by adding, in order, exactly the channels that have its tag. *)
Theorem aggregate_is_grouping channels :
  aggregateChannelsByTag channels = grouped_rows channels
  ∧ map row_tag (aggregateChannelsByTag channels) = array_of_set (map tag_of channels)
  ∧ ∀ row, row ∈ aggregateChannelsByTag channels → children row = with_tag (row_tag row) channels.
Proof.
  split_and!; [apply aggregate_grouped|rewrite aggregate_grouped; apply grouped_row_tags|].
  intros row Hrow%elem_of_rows. by apply row_of_children.
Qed.

(** The status after adding children to a row without one. *)
Lemma fold_status kids row :
  row_status (fold_left row_add kids row)
  = if existsb isChannelEnabled kids then Some (num_of_Z 1)
    else match row_status row with Some s => Some s | None => status <$> head kids end.
Proof.
  induction kids as [|c l IH] using rev_ind; [simpl; by destruct (row_status row)|].
  rewrite fold_left_app, existsb_app. cbn [fold_left existsb row_status row_add]. rewrite IH. unfold merge_status.
  fold (isChannelEnabled c). destruct (isChannelEnabled c), (existsb isChannelEnabled l); try done. cbn [orb].
  destruct (row_status row); [done|]. by destruct l.
Qed.

Lemma fold_quota kids row :
  row_used_quota (fold_left row_add kids row) = fold_left nadd (map used_quota kids) (row_used_quota row).
Proof. revert row. induction kids as [|c l IH]; intros row; [done|]. simpl. by rewrite IH. Qed.

(** a row of the tag view sums its channels' quota in order, and is shown enabled exactly when one of its
    channels is enabled; otherwise it has the status of its first channel. *)
Theorem tag_row_status_and_quota channels row :
  row ∈ aggregateChannelsByTag channels →
  row_used_quota row = fold_left nadd (map used_quota (children row)) (num_of_Z 0)
  ∧ row_status row = (if existsb isChannelEnabled (children row) then Some (num_of_Z 1)
                      else status <$> head (children row)).
Proof.
  intros H%elem_of_rows. rewrite (row_of_children _ _ H). revert H. unfold row_of.
  generalize (with_tag (row_tag row) channels) as kids. intros kids.
  destruct (head kids) as [c|] eqn:Hc; [|done]. intros [= <-]. rewrite fold_quota, fold_status, Hc. done.
Qed.

Lemma group_names_app a b : group_names (a ++ 44%N :: b) = group_names a ++ group_names b.
Proof. unfold group_names, comma. by rewrite split_app, bfilter_app. Qed.

Lemma group_names_name g l : g ∈ group_names l → group_names g = [g].
Proof.
  intros [Hg Ht]%elem_of_bfilter. apply split_not_elem in Hg. unfold group_names, comma, split.
  rewrite split_go_clean by done. simpl. by rewrite Ht.
Qed.

Lemma elem_of_fold_groups (known : list str) news acc g :
  (∀ n, n ∈ news → group_names n = [n]) →
  g ∈ group_names (fold_left (λ acc g, if set_has g known then acc else acc ++ comma ++ g) news acc)
  ↔ g ∈ group_names acc ∨ g ∈ news ∧ g ∉ known.
Proof.
  revert acc. induction news as [|n news IH]; intros acc Hn; simpl; [set_solver|].
  rewrite IH by (intros; apply Hn; set_solver). destruct (set_has n known) eqn:E.
  - apply set_has_true in E. set_solver.
  - apply set_has_false in E. change (acc ++ 44%N :: n) with (acc ++ 44%N :: n).
    rewrite group_names_app, (Hn n) by set_solver. set_solver.
Qed.

Lemma elem_of_merge_group row own g :
  g ∈ group_names (merge_group row own) ↔ g ∈ group_names row ∨ g ∈ group_names own.
Proof.
  unfold merge_group. case_bool_decide as H; [subst row; simpl; set_solver|].
  rewrite elem_of_fold_groups by (intros n Hn; by eapply group_names_name).
  destruct (decide (g ∈ group_names row)); set_solver.
Qed.

(** the groups of a row of the tag view are the groups of its channels. *)
Theorem tag_row_groups channels row :
  row ∈ aggregateChannelsByTag channels →
  ∀ g, g ∈ group_names (row_group row) ↔ ∃ c, c ∈ children row ∧ g ∈ group_names (group c).
Proof.
  intros H%elem_of_rows g. rewrite (row_of_children _ _ H). revert H. unfold row_of.
  generalize (with_tag (row_tag row) channels) as kids. intros kids.
  destruct (head kids) as [c|] eqn:Hc; [|done]. intros [= <-]. clear Hc.
  assert (Hf : ∀ r, g ∈ group_names (row_group (fold_left row_add kids r))
                    ↔ g ∈ group_names (row_group r) ∨ ∃ c, c ∈ kids ∧ g ∈ group_names (group c)).
  { induction kids as [|k kids IH]; intros r; simpl; [set_solver|].
    rewrite IH. simpl. rewrite elem_of_merge_group. set_solver. }
  rewrite Hf. simpl. set_solver.
Qed.

Definition sample_channel (t : option str) (st prio : Z) (gr : str) : Channel := {|
  id := num_of_Z 7; type := num_of_Z 1; key := js "sk-0123456789"; status := num_of_Z st; name := js "c";
  weight := Num (num_of_Z 0); created_time := num_of_Z 0; test_time := num_of_Z 0; response_time := num_of_Z 100;
  balance := num_of_Z 0; balance_updated_time := num_of_Z 0; models := js "gpt-5"; group := gr;
  used_quota := num_of_Z 20; priority := Num (num_of_Z prio); tag := t; channel_info := None; rest := [] |}.

Definition sample_channels : list Channel :=
  [sample_channel (Some (js "eu")) 2 (-1) (js "default,vip"); sample_channel None 1 0 (js "default");
   sample_channel (Some (js "eu")) 1 5 (js "vip,trial")].

Definition sample_row : TagRow :=
  default (new_row (sample_channel None 0 0 [])) (head (aggregateChannelsByTag sample_channels)).

Lemma sample_row_elem : sample_row ∈ aggregateChannelsByTag sample_channels.
Proof.
  unfold sample_row. destruct (aggregateChannelsByTag sample_channels) as [|r l] eqn:E; [discriminate E|].
  simpl. apply list_elem_of_here.
Qed.

Lemma tag_row_status_and_quota_witness :
  row_status sample_row = Some (num_of_Z 1)
  ∧ row_used_quota sample_row = fold_left nadd (map used_quota (children sample_row)) (num_of_Z 0).
Proof.
  split; [vm_compute; reflexivity|].
  exact (proj1 (tag_row_status_and_quota sample_channels sample_row sample_row_elem)).
Defined.

Lemma tag_row_groups_witness :
  group_names (row_group sample_row) = [js "default"; js "vip"; js "trial"]
  ∧ (js "trial" ∈ group_names (row_group sample_row)
     ↔ ∃ c, c ∈ children sample_row ∧ js "trial" ∈ group_names (group c)).
Proof.
  split; [vm_compute; reflexivity|]. exact (tag_row_groups sample_channels sample_row sample_row_elem (js "trial")).
Defined.

(** the mark for a row without a priority is the priority -1 itself: a row of channels with priorities -1 and 5 is
    shown with priority 5, although rows of channels with different priorities are to show none. *)
Theorem priority_mark_collides :
  map priority (children sample_row) = [Num (num_of_Z (-1)); Num (num_of_Z 5)]
  ∧ row_priority sample_row = Num (num_of_Z 5)
  ∧ row_priority (row_add (row_add (new_row (sample_channel None 1 4 [])) (sample_channel None 1 4 []))
                    (sample_channel None 1 5 [])) = Null.
Proof. split_and!; vm_compute; reflexivity. Qed.

(** ** Properties: keys and lists *)

Lemma slice_last_app a b : slice_last (length b) (a ++ b) = b.
Proof.
  unfold slice_last. rewrite length_app. replace (length a + length b - length b) with (length a) by lia.
  apply drop_app_length.
Qed.

(** the masked text of a long key depends only on its first and last eight characters. *)
Theorem long_key_masked a b m1 m2 :
  length a = 8 → length b = 8 → m1 ≠ [] → m2 ≠ [] →
  formatChannelKey (a ++ m1 ++ b) false = formatChannelKey (a ++ m2 ++ b) false
  ∧ formatChannelKey (a ++ m1 ++ b) false = a ++ js "..." ++ b.
Proof.
  intros Ha Hb H1 H2.
  assert (Hf : ∀ m, m ≠ [] → formatChannelKey (a ++ m ++ b) false = a ++ js "..." ++ b).
  { intros m Hm. unfold formatChannelKey.
    assert (Hl : 17 ≤ length (a ++ m ++ b)) by (rewrite !length_app; destruct m; [done|]; simpl; lia).
    replace (truthy (a ++ m ++ b)) with true by (by destruct a). cbn [negb].
    destruct (Nat.leb_spec (length (a ++ m ++ b)) 16); [lia|].
    pose proof (take_app_length a (m ++ b)) as Ht. rewrite Ha in Ht. rewrite Ht.
    pose proof (slice_last_app (a ++ m) b) as Hs. rewrite Hb, <- app_assoc in Hs. by rewrite Hs. }
  by rewrite !Hf.
Qed.

Lemma long_key_masked_witness :
  formatChannelKey (js "sk-abcde" ++ js "SECRET-PART" ++ js "tail1234") false = js "sk-abcde" ++ js "..." ++ js "tail1234".
Proof.
  refine (proj2 (long_key_masked (js "sk-abcde") (js "tail1234") (js "SECRET-PART") (js "x") _ _ _ _));
    try (vm_compute; reflexivity); discriminate.
Defined.

(** a short key is not masked: the text shown for a key of at most eight characters determines the key. *)
Theorem short_key_disclosed k1 k2 :
  4 ≤ length k1 ≤ 8 → length k2 = length k1 →
  formatChannelKey k1 false = formatChannelKey k2 false → k1 = k2.
Proof.
  intros Hl1 Hl2. unfold formatChannelKey.
  replace (truthy k1) with true by (destruct k1; simpl in *; [lia|done]).
  replace (truthy k2) with true by (destruct k2; simpl in *; [lia|done]). cbn [negb].
  destruct (Nat.leb_spec (length k1) 16); [|lia]. destruct (Nat.leb_spec (length k2) 16); [|lia].
  intros Heq. apply app_inj_1 in Heq as [Ht Hd]; [|rewrite !length_take; lia].
  apply (inj (js "..." ++.)) in Hd. unfold slice_last in Hd. rewrite Hl2 in Hd.
  rewrite <- (take_drop 4 k1), <- (take_drop 4 k2). f_equal; [done|].
  replace 4 with ((length k1 - 4) + (4 - (length k1 - 4))) by lia. rewrite <- !drop_drop. by rewrite Hd.
Qed.

Lemma short_key_disclosed_witness :
  formatChannelKey (js "abcdefgh") false = js "abcd...efgh" ∧ js "abcdefgh" = js "abcdefgh".
Proof.
  split; [vm_compute; reflexivity|]. apply (short_key_disclosed (js "abcdefgh") (js "abcdefgh")); [|reflexivity|reflexivity].
  vm_compute. lia.
Defined.

Lemma models_list_eq s : parseModelsList s = parseModelsString s.
Proof. unfold parseModelsList, parseModelsString. by destruct (truthy s). Qed.

Lemma groups_list_eq localeCompare s :
  parseGroupsList localeCompare s = array_sort (default_first localeCompare) (parseModelsString s).
Proof. unfold parseGroupsList, parseModelsString. by destruct (truthy s). Qed.

(** a groups field is listed completely, with the group [default] first when it is there, and the
    listed groups written back to a field are listed as the same groups. *)
Theorem groups_list_spec (localeCompare : str → str → Z) groups :
  let list := parseGroupsList localeCompare groups in
  list ≡ₚ parseModelsList groups
  ∧ (js "default" ∈ list → head list = Some (js "default"))
  ∧ parseGroupsList localeCompare (formatGroupsString list) ≡ₚ list.
Proof.
  intros list. assert (Hp : list ≡ₚ parseModelsString groups)
    by (unfold list; rewrite groups_list_eq; apply array_sort_Permutation).
  split_and!.
  - by rewrite models_list_eq.
  - intros Hd. unfold list. rewrite groups_list_eq. apply array_sort_head.
    + intros y. unfold default_first. by rewrite bool_decide_true.
    + intros y Hy. unfold default_first. by rewrite bool_decide_false, bool_decide_true.
    + by rewrite <- Hp.
  - rewrite groups_list_eq, array_sort_Permutation. unfold formatGroupsString. change comma with (js ",").
    rewrite parse_join_models; [done|]. rewrite Hp. apply parse_models_names.
Qed.

Lemma groups_list_spec_witness :
  parseGroupsList str_cmp (js "vip, default,,beta") = [js "default"; js "beta"; js "vip"]
  ∧ head (parseGroupsList str_cmp (js "vip, default,,beta")) = Some (js "default").
Proof.
  split; [vm_compute; reflexivity|]. apply (groups_list_spec str_cmp (js "vip, default,,beta")).
  apply (bool_decide_unpack (js "default" ∈ parseGroupsList str_cmp (js "vip, default,,beta"))). vm_compute. exact I.
Defined.

(** ** Properties: duplicate keys *)

(** The keys of a text: its lines, trimmed, without the blank ones. *)
Definition keys_of (text : str) : list str := List.filter truthy (map trim (split newline text)).

Lemma dedup_fold lines acc :
  fold_left (λ keys line, let t := trim line in if truthy t && negb (set_has t keys) then keys ++ [t] else keys) lines acc
  = fold_left set_add (List.filter truthy (map trim lines)) acc.
Proof.
  revert acc. induction lines as [|l lines IH]; intros acc; simpl; [done|]. rewrite IH.
  destruct (truthy (trim l)); simpl; [|done]. unfold set_add. by destruct (set_has (trim l) acc).
Qed.

Lemma dedup_eq text :
  trim text ≠ [] →
  deduplicateKeys text
  = {| deduplicatedText := join newline (array_of_set (keys_of text));
       beforeCount := Z.of_nat (length (split newline text));
       afterCount := Z.of_nat (length (array_of_set (keys_of text)));
       removedCount := Z.of_nat (length (split newline text)) - Z.of_nat (length (array_of_set (keys_of text))) |}.
Proof.
  intros Ht. unfold deduplicateKeys. rewrite (bool_decide_false (trim text = [])) by done.
  replace (truthy text) with true by (by destruct text). cbn [negb orb]. rewrite dedup_fold. done.
Qed.

Lemma array_of_set_length {A} `{EqDecision A} (l : list A) : length (array_of_set l) ≤ length l.
Proof.
  apply submseteq_length, NoDup_submseteq; [apply array_of_set_NoDup|]. intros x. by rewrite elem_of_array_of_set.
Qed.

Lemma keys_of_spec text k : k ∈ keys_of text → trimmed k ∧ k ≠ [] ∧ 10%N ∉ k.
Proof.
  intros [Hk Ht]%elem_of_bfilter. apply elem_of_lmap in Hk as (p & -> & Hp).
  split_and!; [apply trim_trimmed|by intros E; rewrite E in Ht|]. intros Hc%elem_of_trim. by apply (split_not_elem 10%N) in Hp.
Qed.

Lemma keys_of_join ks :
  (∀ k, k ∈ ks → trimmed k ∧ k ≠ [] ∧ 10%N ∉ k) → ks ≠ [] → split newline (join newline ks) = ks ∧ keys_of (join newline ks) = ks.
Proof.
  intros H Hne. assert (Hs : split newline (join newline ks) = ks).
  { apply split_join; [done|]. apply Forall_forall. intros k Hk. by apply H. }
  split; [done|]. unfold keys_of. rewrite Hs, lmap_id, bfilter_id; [done| |].
  - intros k Hk. destruct (H k Hk) as (_ & ? & _). by destruct k.
  - apply Forall_forall. intros k Hk. apply trim_id. by apply H.
Qed.

(** removing duplicate keys keeps the distinct trimmed keys in the order they first appear, one per
    line, counts them, and changes nothing when it is applied again. *)
Theorem deduplicate_keys_exact text :
  trim text ≠ [] → keys_of text ≠ [] →
  let r := deduplicateKeys text in
  keys_of (deduplicatedText r) = array_of_set (keys_of text)
  ∧ afterCount r = Z.of_nat (length (array_of_set (keys_of text)))
  ∧ removedCount r = (beforeCount r - afterCount r)%Z ∧ (0 ≤ removedCount r)%Z
  ∧ deduplicatedText (deduplicateKeys (deduplicatedText r)) = deduplicatedText r
  ∧ removedCount (deduplicateKeys (deduplicatedText r)) = 0%Z.
Proof.
  intros Ht Hne r. unfold r. rewrite (dedup_eq text Ht). cbn [deduplicatedText beforeCount afterCount removedCount].
  set (ks := array_of_set (keys_of text)).
  assert (Hks : ∀ k, k ∈ ks → trimmed k ∧ k ≠ [] ∧ 10%N ∉ k)
    by (intros k Hk; apply (keys_of_spec text); unfold ks in Hk; by rewrite elem_of_array_of_set in Hk).
  assert (Hksne : ks ≠ []) by (unfold ks; by rewrite array_of_set_nil).
  destruct (keys_of_join ks Hks Hksne) as [Hs Hk].
  assert (Hid : array_of_set ks = ks) by apply array_of_set_id, array_of_set_NoDup.
  assert (Htr : trim (join newline ks) ≠ []).
  { intros E. assert (Hj : trimmed (join newline ks) ∧ join newline ks ≠ []).
    { apply join_trimmed; [done|]. apply Forall_forall. intros k Hin. destruct (Hks k Hin) as (? & ? & _). done. }
    destruct Hj as [Hj Hj2]. by rewrite trim_id in E. }
  rewrite (dedup_eq (join newline ks) Htr). cbn [deduplicatedText removedCount]. rewrite Hk, Hs, Hid.
  split_and!; try done; [|lia].
  pose proof (array_of_set_length (keys_of text)) as Hl. fold ks in Hl.
  assert (length (keys_of text) ≤ length (split newline text))
    by (unfold keys_of; rewrite <- (length_map trim (split newline text)); apply List.filter_length_le).
  lia.
Qed.

Lemma deduplicate_keys_exact_witness :
  let text := js "k1" ++ newline ++ js " k2 " ++ newline ++ newline ++ js "k1" in
  deduplicatedText (deduplicateKeys text) = js "k1" ++ newline ++ js "k2"
  ∧ keys_of (deduplicatedText (deduplicateKeys text)) = array_of_set (keys_of text).
Proof.
  split; [vm_compute; reflexivity|].
  apply (deduplicate_keys_exact (js "k1" ++ newline ++ js " k2 " ++ newline ++ newline ++ js "k1")); vm_compute; discriminate.
Defined.

(** a channel is marked for attention exactly when a reason is given. *)
Theorem attention_iff_reason channel : channelNeedsAttention channel = true ↔ getAttentionReason channel ≠ None.
Proof.
  unfold channelNeedsAttention, getAttentionReason.
  destruct (num_eqb _ _); [naive_solver|]. destruct (low_balance channel); [naive_solver|].
  destruct (all_keys_disabled channel); naive_solver.
Qed.

(** the channel type menu offers every known type except Unknown exactly once. *)
Theorem channel_type_menu_complete :
  map to_value CHANNEL_TYPE_OPTIONS ≡ₚ List.filter (λ t, negb (t =? 0)%Z) (map fst CHANNEL_TYPES)
  ∧ Forall (λ o, getChannelTypeLabel (num_of_Z (to_value o)) = to_label o) CHANNEL_TYPE_OPTIONS.
Proof.
  split.
  - apply (bool_decide_unpack (map to_value CHANNEL_TYPE_OPTIONS ≡ₚ _)). vm_compute. exact I.
  - apply (bool_decide_unpack (Forall (λ o, getChannelTypeLabel (num_of_Z (to_value o)) = to_label o) _)). vm_compute. exact I.
Qed.
