(* ===== verification/JsDate.v ===== *)
(** * JavaScript dates

    Time values (milliseconds since 1970, UTC) as integers, [new Date(x)] of a number and
    [toISOString].  [Date.parse] of a free-form string is implementation-defined and is an
    argument of the definitions that use it. *)

From S2P Require Import Prelude JsString JsNumber.

Local Open Scope Z_scope.

Definition MAX_TIME : Z := 8640000000000000.

(** The integer part of a finite number. *)
Definition num_trunc (x : num) : option Z :=
  match x with
  | S754_zero _ => Some 0
  | S754_finite s p e =>
      let n := if 0 <=? e then Z.pos p * 2 ^ e else Z.pos p / 2 ^ (- e) in
      Some (if s : bool then - n else n)
  | _ => None
  end.

(** [new Date(x).getTime()]; [None] is NaN. *)
Definition time_clip (x : num) : option Z :=
  match num_trunc x with
  | Some t => if Z.abs t <=? MAX_TIME then Some t else None
  | None => None
  end.

Definition ms_per_day : Z := 86400000.

(** Year, month and day of a day number, by 400-year eras that start on 1 March. *)
Definition civil_of_days (days : Z) : Z * Z * Z :=
  let z := days + 719468 in
  let era := z / 146097 in
  let doe := z mod 146097 in
  let yoe := (doe - doe / 1460 + doe / 36524 - doe / 146096) / 365 in
  let doy := doe - (365 * yoe + yoe / 4 - yoe / 100) in
  let mp := (5 * doy + 2) / 153 in
  let d := doy - (153 * mp + 2) / 5 + 1 in
  let m := if mp <? 10 then mp + 3 else mp - 9 in
  let y := yoe + era * 400 + (if m <=? 2 then 1 else 0) in
  (y, m, d).

(** The day number of a date. *)
Definition days_of_civil (y m d : Z) : Z :=
  let y' := if m <=? 2 then y - 1 else y in
  let era := y' / 400 in
  let yoe := y' mod 400 in
  let mp := if 2 <? m then m - 3 else m + 9 in
  let doy := (153 * mp + 2) / 5 + d - 1 in
  let doe := yoe * 365 + yoe / 4 - yoe / 100 + doy in
  era * 146097 + doe - 719468.

Definition pad (n : nat) (z : Z) : str :=
  let s := N_dec (Z.to_N z) in replicate (n - length s)%nat 48%N ++ s.

Definition year_text (y : Z) : str :=
  if (0 <=? y) && (y <=? 9999) then pad 4 y
  else (if y <? 0 then js "-" else js "+") ++ pad 6 (Z.abs y).

(** [new Date(t).toISOString()] of a valid time value *)
Definition to_iso_string (t : Z) : str :=
  let '(y, m, d) := civil_of_days (t / ms_per_day) in
  let r := t mod ms_per_day in
  year_text y ++ js "-" ++ pad 2 m ++ js "-" ++ pad 2 d ++ js "T" ++ pad 2 (r / 3600000) ++ js ":"
  ++ pad 2 (r / 60000 mod 60) ++ js ":" ++ pad 2 (r / 1000 mod 60) ++ js "." ++ pad 3 (r mod 1000) ++ js "Z".

Example iso_epoch : to_iso_string 0 = js "1970-01-01T00:00:00.000Z".
Proof. vm_compute. reflexivity. Qed.

Example iso_leap : to_iso_string 1709210096789 = js "2024-02-29T12:34:56.789Z".
Proof. vm_compute. reflexivity. Qed.

Example iso_far : to_iso_string MAX_TIME = js "+275760-09-13T00:00:00.000Z".
Proof. vm_compute. reflexivity. Qed.

Example iso_before : to_iso_string (-62198755200001) = js "-000002-12-31T23:59:59.999Z".
Proof. vm_compute. reflexivity. Qed.
