(* ===== verification/ChannelTypeConfig.v ===== *)
(** * Channel type configuration ([web/default/src/features/channels/lib/channel-type-config.ts])

    The table of the upstream types that need more than a key: default base URL, extra
    fields, the hints of the form and the format of the key. *)

From S2P Require Import Prelude JsString Regex JsNumber Json ChannelUtils.

Record Hints := {
  hint_baseUrl : option str;
  hint_key : option str;
  hint_models : option str;
  hint_other : option str
}.

Definition no_hints : Hints := {| hint_baseUrl := None; hint_key := None; hint_models := None; hint_other := None |}.

Record KeyValidation := { keyFormat : option regex; keyMinLength : option nat }.

Record ChannelTypeConfig := {
  cfg_id : num;
  cfg_name : str;
  cfg_icon : str;
  defaultBaseUrl : option str;
  cfg_requiresOrganization : bool;
  cfg_requiresRegion : bool;
  hints : option Hints;
  validation : option KeyValidation
}.

Definition SK_RE : regex := RSeq RBol (rlit (js "sk-")).

(** An entry of the table; its name is that of [CHANNEL_TYPES]. *)
Definition config (id : Z) (icon : str) (url : option str) (org region : bool) (h : Hints)
    (v : option KeyValidation) : Z * ChannelTypeConfig :=
  (id, {| cfg_id := num_of_Z id; cfg_name := default [] (table_get CHANNEL_TYPES id); cfg_icon := icon;
          defaultBaseUrl := url; cfg_requiresOrganization := org; cfg_requiresRegion := region;
          hints := Some h; validation := v |}).

Definition hint (url key models other : option str) : Hints :=
  {| hint_baseUrl := url; hint_key := key; hint_models := models; hint_other := other |}.

Definition CHANNEL_TYPE_CONFIGS : list (Z * ChannelTypeConfig) :=
  [config 1 (js "openai") (Some (js "https://api.openai.com")) true false
     (hint (Some (js "Default: https://api.openai.com")) (Some (js "Format: sk-..."))
           (Some (js "gpt-4,gpt-4-turbo,gpt-3.5-turbo")) None)
     (Some {| keyFormat := Some SK_RE; keyMinLength := Some 20 |});
   config 3 (js "azure") None false true
     (hint (Some (js "Azure OpenAI Endpoint")) (Some (js "Azure API Key")) (Some (js "Deployment names")) None) None;
   config 14 (js "anthropic") (Some (js "https://api.anthropic.com")) false false
     (hint None (Some (js "Format: sk-ant-...")) (Some (js "claude-3-opus,claude-3-sonnet,claude-3-haiku")) None) None;
   config 24 (js "google") None false false
     (hint None (Some (js "Google API Key")) (Some (js "gemini-pro,gemini-pro-vision")) None) None;
   config 41 (js "google") None false true
     (hint None (Some (js "Service account JSON or API key")) (Some (js "gemini-pro,gemini-1.5-pro"))
           (Some (js "Region config: {" ++ dq ++ js "default" ++ dq ++ js ": " ++ dq ++ js "us-central1" ++ dq ++ js "}")))
     None;
   config 43 (js "deepseek") (Some (js "https://api.deepseek.com")) false false
     (hint None (Some (js "DeepSeek API Key")) (Some (js "deepseek-chat,deepseek-coder")) None) None;
   config 20 (js "openrouter") (Some (js "https://openrouter.ai/api")) false false
     (hint None (Some (js "OpenRouter API Key")) (Some (js "Use model IDs from OpenRouter")) None) None;
   config 56 (js "replicate") (Some (js "https://api.replicate.com")) false false
     (hint (Some (js "Default: https://api.replicate.com")) (Some (js "Replicate API Token"))
           (Some (js "Replicate model IDs")) None) None].

Definition getChannelTypeConfig (type : num) : ChannelTypeConfig :=
  default {| cfg_id := type; cfg_name := getChannelTypeLabel type; cfg_icon := js "openai"; defaultBaseUrl := None;
             cfg_requiresOrganization := false; cfg_requiresRegion := false; hints := None; validation := None |}
    (table_at CHANNEL_TYPE_CONFIGS type).

Definition requiresOrganization (type : num) : bool :=
  default false (cfg_requiresOrganization <$> table_at CHANNEL_TYPE_CONFIGS type).

Definition requiresRegion (type : num) : bool :=
  default false (cfg_requiresRegion <$> table_at CHANNEL_TYPE_CONFIGS type).

Definition getDefaultBaseUrl (type : num) : str :=
  default [] (table_at CHANNEL_TYPE_CONFIGS type ≫= defaultBaseUrl).

Definition getChannelTypeHints (type : num) : Hints :=
  default no_hints (table_at CHANNEL_TYPE_CONFIGS type ≫= hints).

Definition validateKeyFormat (type : num) (key : str) : bool :=
  match table_at CHANNEL_TYPE_CONFIGS type ≫= validation with
  | None => true
  | Some v =>
      let short := match keyMinLength v with Some n => negb (n =? 0) && (length key <? n) | None => false end in
      let misfit := match keyFormat v with Some r => negb (test_re r key) | None => false end in
      if short then false else negb misfit
  end.

Lemma test_bol_lit (p s : str) : test_re (RSeq RBol (rlit p)) s = starts_with p s.
Proof.
  unfold test_re. rewrite exec_from_bol. unfold match_at. rewrite m_group.
  destruct (starts_with p s) eqn:E.
  - apply starts_with_spec in E as [t ->]. by rewrite m_lit.
  - by rewrite m_lit_fail.
Qed.

(** Of the types of the table only OpenAI's has a key format. *)
Lemma validation_of (type : num) :
  table_at CHANNEL_TYPE_CONFIGS type ≫= validation =
  (if bool_decide (Z_dec 1 = string_of_num type)
   then Some {| keyFormat := Some SK_RE; keyMinLength := Some 20 |} else None).
Proof.
  unfold table_at, CHANNEL_TYPE_CONFIGS, config. cbn [find fst].
  repeat (case_bool_decide as E; [reflexivity|clear E]). reflexivity.
Qed.

(** The key of an OpenAI channel must have twenty code units at least and begin with [sk-]; every
    other type accepts every key. *)
Theorem validate_key_exact (type : num) (key : str) :
  validateKeyFormat type key =
  negb (bool_decide (Z_dec 1 = string_of_num type)) || ((20 <=? length key) && starts_with (js "sk-") key).
Proof.
  unfold validateKeyFormat. rewrite validation_of.
  case_bool_decide; [|reflexivity]. cbn [keyMinLength keyFormat negb orb Nat.eqb andb].
  unfold SK_RE. rewrite test_bol_lit, negb_involutive, Nat.leb_antisym.
  by destruct (length key <? 20).
Qed.
