(* ===== verification/AccountImport.v ===== *)
(** * Account import ([web/default/src/features/accounts/lib/account-channel-map.ts])

    Accounts exported by other tools, as JSON, as one JSON value per line or as bare
    tokens, turned into the requests that create channels.  The input is untrusted, so
    every function works on arbitrary JSON values.  [toLowerCase], [Date.parse], the clock and the
    browser's base64 and UTF-8 decoders are arguments. *)

From S2P Require Import Prelude JsString JsNumber JsDate Json Regex ChannelUtils ChannelTypeConfig.

(** ** Platforms *)

Inductive AccountPlatform := openai | anthropic | gemini | codex | openrouter | custom.

#[export] Instance AccountPlatform_eq_dec : EqDecision AccountPlatform.
Proof. solve_decision. Defined.

Record PlatformConfig := { channelType : Z; config_label : str }.

Definition ACCOUNT_PLATFORM_CONFIGS (p : AccountPlatform) : PlatformConfig :=
  match p with
  | openai => {| channelType := 1; config_label := js "OpenAI" |}
  | anthropic => {| channelType := 14; config_label := js "Anthropic" |}
  | gemini => {| channelType := 24; config_label := js "Gemini" |}
  | codex => {| channelType := 57; config_label := js "Codex" |}
  | openrouter => {| channelType := 20; config_label := js "OpenRouter" |}
  | custom => {| channelType := 8; config_label := js "Custom" |}
  end.

(** The keys of the table, in its order. *)
Definition PLATFORMS : list AccountPlatform := [openai; anthropic; gemini; codex; openrouter; custom].

Definition platform_name (p : AccountPlatform) : str :=
  match p with
  | openai => js "openai" | anthropic => js "anthropic" | gemini => js "gemini"
  | codex => js "codex" | openrouter => js "openrouter" | custom => js "custom"
  end.

Definition ENABLED : Z := 1.
Definition MANUAL_DISABLED : Z := 2.

Definition CODEX_IMPORT_CLOCK_SKEW_SECONDS : num := num_of_Z 120.

(** ** Reading untrusted values *)

(** [asRecord]: the entries of an object, none for any other value. *)
Definition asRecord (v : option json) : obj := match v with Some (JObj o) => o | _ => [] end.

Definition is_record (v : option json) : bool := match v with Some (JObj _) => true | _ => false end.
Definition is_array (v : option json) : bool := match v with Some (JArr _) => true | _ => false end.

Fixpoint firstString (values : list (option json)) : str :=
  match values with
  | [] => []
  | Some (JStr s) :: vs => if truthy (trim s) then trim s else firstString vs
  | Some (JNum x) :: vs => if is_finite x then string_of_num x else firstString vs
  | _ :: vs => firstString vs
  end.

(** A text that is passed on to [firstString]. *)
Abbreviation text s := (Some (JStr s)).

Definition or_text (a b : str) : str := if truthy a then a else b.

Definition normalizeList (value : option json) : str :=
  match value with
  | Some (JArr l) => join (js ",") (List.filter truthy (map (λ item, firstString [Some item]) l))
  | _ => firstString [value]
  end.

Definition group_item (item : json) : str :=
  match item with
  | JObj o => firstString [obj_get (js "name") o; obj_get (js "group") o]
  | _ => firstString [Some item]
  end.

Definition normalizeGroup (value : option json) (fallback : str) : str :=
  match value with
  | Some (JArr l) =>
      let groups := List.filter truthy (map group_item l) in
      if 0 <? length groups then join (js ",") groups else fallback
  | _ => or_text (firstString [value]) fallback
  end.

Definition normalizeJsonString (value : option json) : str :=
  let direct := firstString [value] in
  if truthy direct then direct
  else match value with
       | Some (JObj _ as v) | Some (JArr _ as v) => json_stringify v
       | _ => []
       end.

Definition normalizeSettingsRecord (value : option json) : obj :=
  match value with
  | Some (JObj o) => o
  | _ =>
      let direct := firstString [value] in
      if negb (truthy direct) then [] else default [] (parse_object direct)
  end.

Definition parseJsonObject (value : str) : option obj :=
  if negb (starts_with (js "{") (trim value)) then None else parse_object value.

Fixpoint valueAtPath (source : option json) (path : list str) : option json :=
  match path with
  | [] => source
  | key :: path' => match source with Some (JObj o) => valueAtPath (obj_get key o) path' | _ => None end
  end.

Fixpoint firstPathString (source : obj) (paths : list (list str)) : str :=
  match paths with
  | [] => []
  | path :: rest =>
      let value := firstString [valueAtPath (Some (JObj source)) path] in
      if truthy value then value else firstPathString source rest
  end.

(** [/^\d+(\.\d+)?$/] *)
Definition DECIMAL_RE : regex :=
  rseq [rplus (RChar is_digit); ROpt (rseq [rlit (js "."); rplus (RChar is_digit)]); REol].

(** ** Credentials *)

Record CodexCredentialParts := {
  accessToken : str; refreshToken : str; idToken : str; accountId : str; email : str; expiresAt : str;
  userId : str; planType : str; organizationId : str; codex_name : str; sessionTokenPresent : bool }.

(** The parts a token's claims may set. *)
Record JwtParts := {
  jwt_accountId : option str; jwt_email : option str; jwt_expiresAt : option str; jwt_userId : option str;
  jwt_planType : option str; jwt_organizationId : option str }.

Definition no_parts : JwtParts := {|
  jwt_accountId := None; jwt_email := None; jwt_expiresAt := None; jwt_userId := None;
  jwt_planType := None; jwt_organizationId := None |}.

Definition is_true (v : option json) : bool := match v with Some (JBool b) => b | _ => false end.

Definition is_default_org (item : json) : bool :=
  let org := asRecord (Some item) in
  is_true (obj_get (js "is_default") org) || is_true (obj_get (js "isDefault") org).

Definition extractOrganizationId (authClaims : obj) : str :=
  let direct := firstString [obj_get (js "poid") authClaims; obj_get (js "organization_id") authClaims] in
  if truthy direct then direct
  else match obj_get (js "organizations") authClaims with
       | Some (JArr organizations) =>
           match find is_default_org organizations with
           | Some item => firstString [obj_get (js "id") (asRecord (Some item))]
           | None => firstString [obj_get (js "id") (asRecord (head organizations))]
           end
       | _ => []
       end.

(** One assignment of [mergeCodexParts]: only a text that is not blank replaces a part. *)
Definition merged (base : str) (incoming : option str) : str :=
  match incoming with Some s => if truthy (trim s) then trim s else base | None => base end.

Definition mergeCodexParts (base : CodexCredentialParts) (incoming : JwtParts) : CodexCredentialParts := {|
  accessToken := accessToken base; refreshToken := refreshToken base; idToken := idToken base;
  accountId := merged (accountId base) (jwt_accountId incoming);
  email := merged (email base) (jwt_email incoming);
  expiresAt := merged (expiresAt base) (jwt_expiresAt incoming);
  userId := merged (userId base) (jwt_userId incoming);
  planType := merged (planType base) (jwt_planType incoming);
  organizationId := merged (organizationId base) (jwt_organizationId incoming);
  codex_name := codex_name base; sessionTokenPresent := sessionTokenPresent base |}.

(** Paths are written as lists of keys. *)
Definition path (keys : list string) : list str := map js keys.

Section environment.
Context (toLowerCase : str → str) (date_parse : str → option Z) (now : Z) (atob_utf8 : str → option str).

Definition parseTimeLike (value : option json) : str :=
  let raw := firstString [value] in
  if negb (truthy raw) then []
  else
    let numeric := number_of_string raw in
    let time := if is_finite numeric && bool_decide (match_re 0 DECIMAL_RE raw ≠ None)
                then time_clip (if nlt (num_of_Z 1000000000000) numeric then numeric else nmul numeric (num_of_Z 1000))
                else date_parse raw in
    match time with Some t => to_iso_string t | None => [] end.

Fixpoint firstPathTime (source : obj) (paths : list (list str)) : str :=
  match paths with
  | [] => []
  | p :: rest =>
      let value := parseTimeLike (valueAtPath (Some (JObj source)) p) in
      if truthy value then value else firstPathTime source rest
  end.

(** The base64url segment in the alphabet and padding of [atob]. *)
Definition base64_normalized (segment : str) : str :=
  let normalized := map (λ c, if (c =? 45)%N then 43%N else if (c =? 95)%N then 47%N else c) segment in
  let padding := length normalized mod 4 in
  normalized ++ if 0 <? padding then replicate (4 - padding) 61%N else [].

Definition decodeBase64UrlJson (segment : str) : option obj :=
  decoded ← atob_utf8 (base64_normalized segment); parse_object decoded.

(** [new Date(exp * 1000).toISOString()] throws when the time is out of range. *)
Definition readCodexJwtParts (token : str) : outcome JwtParts :=
  match split (js ".") (trim token) with
  | [_; payload; _] =>
      match decodeBase64UrlJson payload with
      | None => Ret no_parts
      | Some claims =>
          let authClaims := asRecord (obj_get (js "https://api.openai.com/auth") claims) in
          let exp := opt_number (obj_get (js "exp") claims) in
          let subject := firstString [obj_get (js "sub") claims] in
          expires ← (if is_finite exp && nlt pzero exp
                     then match time_clip (nmul exp (num_of_Z 1000)) with
                          | Some t => Ret (Some (to_iso_string t))
                          | None => Throw
                          end
                     else Ret None);
          Ret (if 0 <? length authClaims then {|
                 jwt_accountId := Some (firstString [obj_get (js "chatgpt_account_id") authClaims]);
                 jwt_email := Some (firstString [obj_get (js "email") claims]);
                 jwt_expiresAt := expires;
                 jwt_userId := Some (or_text (firstString [obj_get (js "chatgpt_user_id") authClaims;
                                                           obj_get (js "user_id") authClaims]) subject);
                 jwt_planType := Some (firstString [obj_get (js "chatgpt_plan_type") authClaims]);
                 jwt_organizationId := Some (extractOrganizationId authClaims) |}
               else {|
                 jwt_accountId := None; jwt_email := Some (firstString [obj_get (js "email") claims]);
                 jwt_expiresAt := expires; jwt_userId := Some subject; jwt_planType := None;
                 jwt_organizationId := None |})
      end
  | _ => Ret no_parts
  end.

Definition merge_token (parts : CodexCredentialParts) (token : str) : outcome CodexCredentialParts :=
  if truthy token then jwt ← readCodexJwtParts token; Ret (mergeCodexParts parts jwt) else Ret parts.

Definition collectCodexCredentialParts (source credentials : obj) (fallbackKey : str) : outcome CodexCredentialParts :=
  let inlineJson := parseJsonObject fallbackKey in
  let src := match inlineJson with Some o => obj_spread source o | None => source end in
  let cred := match inlineJson with
              | Some o => obj_spread (asRecord (obj_get (js "credentials") o)) credentials
              | None => credentials
              end in
  let rawFallbackToken := match inlineJson with
                          | None => if starts_with (js "{") (trim fallbackKey) then [] else fallbackKey
                          | Some _ => []
                          end in
  let c k := obj_get (js k) cred in
  let s l := firstPathString src (map path l) in
  let parts := {|
    accessToken := firstString [c "access_token"; c "accessToken";
      text (s [["tokens"; "access_token"]; ["tokens"; "accessToken"]; ["access_token"]; ["accessToken"]; ["token"]]);
      text rawFallbackToken];
    refreshToken := firstString [c "refresh_token"; c "refreshToken";
      text (s [["tokens"; "refresh_token"]; ["tokens"; "refreshToken"]; ["refresh_token"]; ["refreshToken"]])];
    idToken := firstString [c "id_token"; c "idToken";
      text (s [["tokens"; "id_token"]; ["tokens"; "idToken"]; ["id_token"]; ["idToken"]])];
    accountId := firstString [c "account_id"; c "chatgpt_account_id";
      text (s [["chatgpt_account_id"]; ["chatgptAccountId"]; ["account_id"]; ["accountId"]; ["account"; "id"];
               ["account"; "account_id"]; ["account"; "chatgpt_account_id"]])];
    email := firstString [c "email"; text (s [["email"]; ["user"; "email"]])];
    expiresAt := or_text (firstString [c "expired"; c "expires_at"])
      (firstPathTime src (map path [["tokens"; "expires_at"]; ["tokens"; "expiresAt"]; ["expired"]; ["expires_at"]; ["expiresAt"]]));
    userId := firstString [c "chatgpt_user_id";
      text (s [["chatgpt_user_id"]; ["chatgptUserId"]; ["user_id"]; ["userId"]; ["user"; "id"]])];
    planType := firstString [c "plan_type";
      text (s [["plan_type"]; ["planType"]; ["account"; "plan_type"]; ["account"; "planType"]])];
    organizationId := firstString [c "organization_id";
      text (s [["organization_id"]; ["organizationId"]; ["org_id"]; ["orgId"]])];
    codex_name := s [["name"]; ["user"; "name"]];
    sessionTokenPresent := truthy (s [["session_token"]; ["sessionToken"]]) |} in
  parts1 ← merge_token parts (idToken parts);
  merge_token parts1 (accessToken parts1).

Definition hasCodexAccountClaim (token : str) : outcome bool :=
  jwt ← readCodexJwtParts token; Ret (truthy (default [] (jwt_accountId jwt))).

Definition looksLikeCodexCredentialSource (source : obj) : outcome bool :=
  let credentials := asRecord (obj_get (js "credentials") source) in
  let platform := toLowerCase (firstString [obj_get (js "platform") source]) in
  if includes (js "codex") platform then Ret true
  else if truthy (firstPathString source (map path
            [["accessToken"]; ["sessionToken"]; ["chatgpt_account_id"]; ["chatgptAccountId"]; ["tokens"; "access_token"];
             ["tokens"; "accessToken"]; ["account"; "chatgpt_account_id"]])) then Ret true
  else if truthy (firstString [obj_get (js "access_token") credentials])
          && truthy (firstString [obj_get (js "chatgpt_account_id") credentials; obj_get (js "account_id") credentials])
       then Ret true
  else
    let token := firstString [obj_get (js "access_token") credentials;
      text (firstPathString source (map path [["tokens"; "access_token"]; ["tokens"; "accessToken"]; ["access_token"];
                                              ["accessToken"]; ["token"]]))] in
    if truthy token then hasCodexAccountClaim token else Ret false.

Definition normalizePlatform (value : option json) : AccountPlatform :=
  let normalized := toLowerCase (firstString [value]) in
  if includes (js "openrouter") normalized then openrouter
  else if includes (js "anthropic") normalized || includes (js "claude") normalized then anthropic
  else if includes (js "gemini") normalized || includes (js "google") normalized then gemini
  else if includes (js "codex") normalized then codex
  else if includes (js "openai") normalized || includes (js "chatgpt") normalized then openai
  else custom.

Definition inferAccountPlatform (source : obj) : outcome AccountPlatform :=
  let platform := normalizePlatform
    (text (firstString [obj_get (js "platform") source; obj_get (js "provider") source; obj_get (js "service") source])) in
  if bool_decide (platform = openai) || bool_decide (platform = custom) || bool_decide (platform = codex)
  then like ← looksLikeCodexCredentialSource source; Ret (if like : bool then codex else platform)
  else Ret platform.

Definition platformFromChannelType (type : num) : AccountPlatform :=
  default custom (find (λ p, num_eqb (num_of_Z (channelType (ACCOUNT_PLATFORM_CONFIGS p))) type) PLATFORMS).

Definition resolveChannelType (source : obj) (platform : AccountPlatform) : num :=
  let channelType_ := opt_number (coalesce (obj_get (js "channel_type") source) (obj_get (js "channelType") source)) in
  if is_integer channelType_ && nlt pzero channelType_ then channelType_
  else
    let directType := opt_number (obj_get (js "type") source) in
    if is_integer directType && nlt pzero directType then directType
    else num_of_Z (channelType (ACCOUNT_PLATFORM_CONFIGS platform)).

(** [if (v) payload[k] = v] *)
Definition set_if (k : string) (v : str) (o : obj) : obj := if truthy v then obj_set (js k) (JStr v) o else o.

(** The credential assembled from the collected parts. *)
Definition codex_payload (parts : CodexCredentialParts) : obj :=
  set_if "expired" (expiresAt parts)
    (set_if "email" (email parts)
      (set_if "id_token" (idToken parts)
        (set_if "refresh_token" (refreshToken parts)
          [(js "type", JStr (js "codex")); (js "access_token", JStr (accessToken parts));
           (js "account_id", JStr (accountId parts))]))).

Definition has_text (o : obj) (k : string) : bool := truthy (firstString [obj_get (js k) o]).

Definition buildCodexCredential (source credentials : obj) (fallbackKey : str) : outcome str :=
  let collected :=
    parts ← collectCodexCredentialParts source credentials fallbackKey;
    Ret (if negb (truthy (accessToken parts)) || negb (truthy (accountId parts)) then fallbackKey
         else json_stringify (JObj (codex_payload parts))) in
  match parseJsonObject fallbackKey with
  | Some existing =>
      if has_text existing "access_token" && has_text existing "account_id"
      then Ret (json_stringify (JObj (obj_spread [(js "type", JStr (js "codex"))] existing)))
      else collected
  | None => collected
  end.

Definition NOT_AN_OBJECT := js "Codex key must be a valid JSON object".
Definition NO_ACCESS_TOKEN := js "Codex key JSON must include access_token".
Definition NO_ACCOUNT_ID := js "Codex key JSON must include account_id".
Definition TOKEN_EXPIRED := js "Codex access_token is expired and no refresh_token is available".

Definition to_seconds (ms : Z) : num := ndiv (num_of_Z ms) (num_of_Z 1000).

Definition getCodexKeyValidationError (key : str) : option str :=
  match parseJsonObject key with
  | None => Some NOT_AN_OBJECT
  | Some parsed =>
      if negb (has_text parsed "access_token") then Some NO_ACCESS_TOKEN
      else if negb (has_text parsed "account_id") then Some NO_ACCOUNT_ID
      else
        let expired := firstString [obj_get (js "expired") parsed; obj_get (js "expires_at") parsed] in
        if negb (has_text parsed "refresh_token") && truthy expired then
          match date_parse expired with
          | Some t => if nle (to_seconds t) (nsub (to_seconds now) CODEX_IMPORT_CLOCK_SKEW_SECONDS)
                      then Some TOKEN_EXPIRED else None
          | None => None
          end
        else None
  end.

Definition isCodexCredentialInputReady (input account : str) : outcome bool :=
  key ← buildCodexCredential [(js "account_id", JStr account)] [] (trim input);
  Ret (match getCodexKeyValidationError key with None => true | Some _ => false end).

Definition ACCESS_TOKEN_PATHS : list (list str) :=
  map path [["tokens"; "access_token"]; ["tokens"; "accessToken"]; ["accessToken"]; ["access_token"]].

Definition extractKey (source : obj) (platform : AccountPlatform) : outcome str :=
  let credentials := asRecord (obj_get (js "credentials") source) in
  let s k := obj_get (js k) source in
  let c k := obj_get (js k) credentials in
  let fallbackKey := firstString
    [s "key"; s "api_key"; s "apiKey"; s "token"; c "key"; c "api_key"; c "apiKey"; c "session_key";
     c "access_token"; c "refresh_token"; text (firstPathString source ACCESS_TOKEN_PATHS)] in
  if bool_decide (platform = codex) then buildCodexCredential source credentials fallbackKey else Ret fallbackKey.

(** ** Channels *)

Record ImportedAccountMeta := {
  meta_email : str; meta_accountId : str; meta_userId : str; meta_planType : str; meta_organizationId : str }.

Definition collectImportedAccountMeta (source credentials : obj) (codexParts : option CodexCredentialParts)
  : ImportedAccountMeta :=
  let s k := obj_get (js k) source in
  let c k := obj_get (js k) credentials in
  let part f := option_map (λ p, JStr (f p)) codexParts in {|
  meta_email := firstString [s "email"; c "email"; text (firstPathString source [path ["user"; "email"]]); part email];
  meta_accountId := firstString [s "account_id"; s "accountId"; c "account_id"; c "accountId"; c "chatgpt_account_id"; part accountId];
  meta_userId := firstString [s "user_id"; s "userId"; c "user_id"; c "userId";
                              text (firstPathString source [path ["user"; "id"]]); part userId];
  meta_planType := firstString [s "plan_type"; s "planType"; c "plan_type"; c "planType"; part planType];
  meta_organizationId := firstString [s "organization_id"; s "organizationId"; c "organization_id"; c "organizationId";
                                      part organizationId] |}.

Definition buildImportRemark (source : obj) (meta : ImportedAccountMeta) : str :=
  let s k := obj_get (js k) source in
  let notes := firstString [s "notes"; s "remark"; s "description"] in
  let accountType := firstString [s "account_type"; s "accountType"] in
  let typeValue := firstString [s "type"] in
  let line (label v : str) := if truthy v then [label ++ v] else [] in
  let fragments :=
    [notes] ++ line (js "Account email: ") (meta_email meta) ++ line (js "Account ID: ") (meta_accountId meta)
    ++ line (js "Plan: ") (meta_planType meta) ++ line (js "Imported account type: ") accountType
    ++ (if truthy typeValue && negb (is_finite (number_of_string typeValue))
        then [js "Imported source type: " ++ typeValue] else []) in
  join [10%N] (List.filter truthy fragments).

Definition buildImportedSettings (source : obj) (platform : AccountPlatform) (meta : ImportedAccountMeta) : str :=
  json_stringify (JObj (obj_spread (normalizeSettingsRecord (obj_get (js "settings") source))
    [(js "imported_account_platform", JStr (platform_name platform));
     (js "imported_account_type", JStr (firstString [obj_get (js "type") source; obj_get (js "account_type") source]));
     (js "imported_account_email", JStr (meta_email meta));
     (js "imported_account_id", JStr (meta_accountId meta));
     (js "imported_account_user_id", JStr (meta_userId meta));
     (js "imported_account_plan_type", JStr (meta_planType meta));
     (js "imported_account_organization_id", JStr (meta_organizationId meta))])).

(** The fields of [Partial<Channel>] an import sets. *)
Record ImportChannel := {
  ch_name : str; ch_type : num; ch_key : str; ch_base_url : option str; ch_models : str; ch_group : str;
  ch_priority : num; ch_status : num; ch_tag : option str; ch_remark : str;
  ch_setting : option str; ch_settings : option str; ch_other : str }.

(** [s || null], [s || undefined] *)
Definition or_none (s : str) : option str := if truthy s then Some s else None.

Definition default_name (platform : AccountPlatform) : str := config_label (ACCOUNT_PLATFORM_CONFIGS platform) ++ js " Account".

Definition number_or (v : option json) (d : Z) : num := opt_number (coalesce v (Some (JNum (num_of_Z d)))).

Definition normalizeDirectChannel (source : obj) : outcome ImportChannel :=
  let s k := obj_get (js k) source in
  let type := opt_number (s "type") in
  let platform := if is_integer type then platformFromChannelType type else normalizePlatform (s "platform") in
  let chType := resolveChannelType source platform in
  key ← extractKey source platform;
  let meta := collectImportedAccountMeta source (asRecord (s "credentials")) None in
  Ret {| ch_name := or_text (firstString [s "name"]) (default_name platform);
         ch_type := chType;
         ch_key := key;
         ch_base_url := or_none (or_text (firstString [s "base_url"; s "baseUrl"]) (getDefaultBaseUrl chType));
         ch_models := normalizeList (s "models");
         ch_group := normalizeGroup (s "group") (js "default");
         ch_priority := number_or (s "priority") 0;
         ch_status := number_or (s "status") ENABLED;
         ch_tag := or_none (firstString [s "tag"]);
         ch_remark := buildImportRemark source meta;
         ch_setting := or_none (normalizeJsonString (s "setting"));
         ch_settings := or_none (normalizeJsonString (text (buildImportedSettings source platform meta)));
         ch_other := firstString [s "other"] |}.

Definition normalizeAccount (source : obj) : outcome ImportChannel :=
  platform ← inferAccountPlatform source;
  let s k := obj_get (js k) source in
  let credentials := asRecord (s "credentials") in
  let extra := asRecord (s "extra") in
  let fallbackKey := firstString [s "key"; s "api_key"; s "apiKey"; s "token"; obj_get (js "access_token") credentials;
                                  text (firstPathString source ACCESS_TOKEN_PATHS)] in
  codexParts ← (if bool_decide (platform = codex)
                then parts ← collectCodexCredentialParts source credentials fallbackKey; Ret (Some parts) else Ret None);
  let chType := resolveChannelType source platform in
  let statusText := toLowerCase (firstString [s "status"]) in
  let status := if bool_decide (statusText = js "inactive") || bool_decide (statusText = js "error")
                then MANUAL_DISABLED else ENABLED in
  let meta := collectImportedAccountMeta source credentials codexParts in
  let part f := option_map (λ p, JStr (f p)) codexParts in
  key ← extractKey source platform;
  Ret {| ch_name := or_text (firstString [s "name"; text (firstPathString source [path ["user"; "name"]]);
                                          obj_get (js "email") credentials;
                                          text (firstPathString source [path ["user"; "email"]]); part email; part accountId])
                            (default_name platform);
         ch_type := chType;
         ch_key := key;
         ch_base_url := or_none (or_text (firstString [s "base_url"; s "baseUrl"; obj_get (js "base_url") extra])
                                         (getDefaultBaseUrl chType));
         ch_models := or_text (normalizeList (s "models")) (normalizeList (obj_get (js "models") extra));
         ch_group := normalizeGroup (coalesce (coalesce (s "group") (s "groups")) (s "group_names")) (js "default");
         ch_priority := number_or (s "priority") 0;
         ch_status := num_of_Z status;
         ch_tag := or_none (firstString [s "tag"]);
         ch_remark := buildImportRemark source meta;
         ch_setting := None;
         ch_settings := Some (buildImportedSettings source platform meta);
         ch_other := firstString [s "other"] |}.

(** ** Import items *)

Record AccountImportPreview := { pv_index : nat; pv_name : str; pv_platform : str; pv_models : str }.
Record AccountImportError := { err_index : nat; err_name : option str; err_message : str }.

(** [AddChannelRequest] with [mode: 'single'] *)
Record AddChannelRequest := { mode : str; channel : ImportChannel }.

Record ItemResult := {
  item_request : option AddChannelRequest; item_preview : option AccountImportPreview;
  item_error : option AccountImportError }.

Definition item_failed (index : nat) (name : option str) (message : str) : ItemResult := {|
  item_request := None; item_preview := None;
  item_error := Some {| err_index := index; err_name := name; err_message := message |} |}.

Definition ITEM_NOT_OBJECT := js "Item is not an object".
Definition MISSING_KEY := js "Missing credential key".

Definition item_source (item : json) : obj :=
  match item with
  | JStr s => [(js "platform", JStr (js "codex")); (js "accessToken", JStr (trim s))]
  | _ => asRecord (Some item)
  end.

(** The channel an item carries itself, if any. *)
Definition direct_channel (source : obj) : option obj :=
  match obj_get (js "channel") source with
  | Some (JObj o) => Some o
  | _ => if is_integer (opt_number (obj_get (js "type") source)) && truthy (firstString [obj_get (js "key") source])
         then Some source else None
  end.

Definition with_name (c : ImportChannel) (n : str) : ImportChannel := {|
  ch_name := n; ch_type := ch_type c; ch_key := ch_key c; ch_base_url := ch_base_url c; ch_models := ch_models c;
  ch_group := ch_group c; ch_priority := ch_priority c; ch_status := ch_status c; ch_tag := ch_tag c;
  ch_remark := ch_remark c; ch_setting := ch_setting c; ch_settings := ch_settings c; ch_other := ch_other c |}.

Definition is_codex_type (c : ImportChannel) : bool := num_eqb (ch_type c) (num_of_Z (channelType (ACCOUNT_PLATFORM_CONFIGS codex))).

(** The checks of a normalised channel. *)
Definition channel_result (index : nat) (normalized : ImportChannel) : ItemResult :=
  let c := if truthy (firstString [text (ch_name normalized)]) then normalized
           else with_name normalized (js "Imported Account " ++ N_dec (N.of_nat (S index))) in
  let name := firstString [text (ch_name c)] in
  if negb (truthy (firstString [text (ch_key c)])) then item_failed index (Some name) MISSING_KEY
  else match (if is_codex_type c then getCodexKeyValidationError (firstString [text (ch_key c)]) else None) with
       | Some codexError => item_failed index (Some name) codexError
       | None => {|
           item_request := Some {| mode := js "single"; channel := c |};
           item_preview := Some {| pv_index := index; pv_name := name;
                                   pv_platform := config_label (ACCOUNT_PLATFORM_CONFIGS (platformFromChannelType (ch_type c)));
                                   pv_models := firstString [text (ch_models c)] |};
           item_error := None |}
       end.

Definition normalizeImportItem (item : json) (index : nat) : outcome ItemResult :=
  let source := item_source item in
  match source with
  | [] => Ret (item_failed index None ITEM_NOT_OBJECT)
  | _ =>
      c ← (match direct_channel source with Some o => normalizeDirectChannel o | None => normalizeAccount source end);
      Ret (channel_result index c)
  end.

Record AccountImportBuildResult := {
  requests : list AddChannelRequest; previews : list AccountImportPreview; errors : list AccountImportError }.

Definition push {A} (l : list A) (v : option A) : list A := match v with Some x => l ++ [x] | None => l end.

Fixpoint build_loop (items : list json) (index : nat) (acc : AccountImportBuildResult) : outcome AccountImportBuildResult :=
  match items with
  | [] => Ret acc
  | item :: rest =>
      result ← normalizeImportItem item index;
      build_loop rest (S index)
        {| requests := push (requests acc) (item_request result);
           previews := push (previews acc) (item_preview result);
           errors := push (errors acc) (item_error result) |}
  end.

(** [a.accounts], [a.channels] or [a.items], the first that is an array *)
Definition listed (o : obj) : option (list json) :=
  match obj_get (js "accounts") o, obj_get (js "channels") o, obj_get (js "items") o with
  | Some (JArr l), _, _ => Some l
  | _, Some (JArr l), _ => Some l
  | _, _, Some (JArr l) => Some l
  | _, _, _ => None
  end.

Definition extractImportItems (payload : json) : list json :=
  match payload with
  | JArr l => l
  | JStr s => if truthy (trim s) then [JStr (trim s)] else []
  | JObj o =>
      match listed o with
      | Some l => l
      | None =>
          match obj_get (js "data") o with
          | Some (JArr l) => l
          | Some (JObj d) => default [payload] (listed d)
          | _ => [payload]
          end
      end
  | _ => []
  end.

Definition buildImportRequests (payload : json) : outcome AccountImportBuildResult :=
  build_loop (extractImportItems payload) 0 {| requests := []; previews := []; errors := [] |}.

(** ** Import text *)

Fixpoint looksLikeJsonContent (content : str) : bool :=
  match content with
  | [] => false
  | c :: rest => if is_space c then looksLikeJsonContent rest else ((c =? 123) || (c =? 91))%N
  end.

Fixpoint flatten_value (v : json) : list json :=
  match v with
  | JArr l => concat (map flatten_value l)
  | _ => [v]
  end.

Definition flattenImportValues (values : list json) : list json := concat (map flatten_value values).

(** The values of one line; [Throw] when a line that starts like JSON does not parse. *)
Definition line_values (line : str) : outcome (list json) :=
  let trimmed := trim line in
  if negb (truthy trimmed) then Ret []
  else if looksLikeJsonContent trimmed
       then match json_parse trimmed with Some v => Ret (flattenImportValues [v]) | None => Throw end
       else Ret [JStr trimmed].

Fixpoint lines_values (lines : list str) : outcome (list json) :=
  match lines with
  | [] => Ret []
  | line :: rest => vs ← line_values line; ws ← lines_values rest; Ret (vs ++ ws)
  end.

(** The lines between newlines, the last one included. *)
Definition parseAccountImportLines (content : str) : outcome (list json) := lines_values (split [10%N] content).

Definition parseAccountImportText (content : str) : outcome json :=
  if forallb is_space content then Ret (JArr [])
  else if looksLikeJsonContent content then
    match json_parse content with
    | Some v => Ret v
    | None => if includes [10%N] content then vs ← parseAccountImportLines content; Ret (JArr vs) else Throw
    end
  else vs ← parseAccountImportLines content; Ret (JArr vs).

Definition buildImportRequestsFromText (content : str) : outcome AccountImportBuildResult :=
  payload ← parseAccountImportText content; buildImportRequests payload.

End environment.
