(* ===== verification/AccountImportFacts.v ===== *)
(** * Correctness of the account import

    Every item of an import becomes exactly one request or one error; the requests carry a
    usable credential; a list of accounts, one per line, is read as that list; a normalised
    Codex credential is left alone when it is imported again. *)

From S2P Require Import Prelude JsString JsNumber JsNumberFacts JsDate Json JsonFacts Regex ChannelUtils AccountImport.

Section facts.
Context (toLowerCase : str → str) (date_parse : str → option Z) (now : Z) (atob_utf8 : str → option str).

Abbreviation normalizeItem := (normalizeImportItem toLowerCase date_parse now atob_utf8).
Abbreviation loop := (build_loop toLowerCase date_parse now atob_utf8).
Abbreviation build := (buildImportRequests toLowerCase date_parse now atob_utf8).
Abbreviation codexError := (getCodexKeyValidationError date_parse now).

(** ** One outcome per item *)

(** A request that may be sent. *)
Definition request_ok (r : AddChannelRequest) : Prop :=
  mode r = js "single" ∧ ch_name (channel r) ≠ [] ∧ firstString [text (ch_key (channel r))] ≠ [] ∧
  (is_codex_type (channel r) = true → codexError (firstString [text (ch_key (channel r))]) = None).

(** The result of the item at [index]: a sound request with its preview, or an error. *)
Definition item_ok (index : nat) (res : ItemResult) : Prop :=
  (∃ r p, res = {| item_request := Some r; item_preview := Some p; item_error := None |} ∧
          pv_index p = index ∧ pv_name p = firstString [text (ch_name (channel r))] ∧ request_ok r) ∨
  (∃ e, res = {| item_request := None; item_preview := None; item_error := Some e |} ∧ err_index e = index).

Lemma firstString_text s : firstString [text s] = trim s.
Proof. cbn. by destruct (trim s). Qed.

Lemma channel_result_ok index c : item_ok index (channel_result date_parse now index c).
Proof.
  unfold channel_result. set (c' := if truthy _ then c else _).
  assert (ch_name c' ≠ []) as Hn.
  { unfold c'. rewrite firstString_text. destruct (truthy (trim (ch_name c))) eqn:E; [|done]. by destruct (ch_name c). }
  destruct (truthy (firstString [text (ch_key c')])) eqn:Ek; cbn [negb]; [|right; by eexists].
  destruct (if is_codex_type c' then _ else None) as [e|] eqn:Ee; [right; by eexists|]. left. eexists _, _.
  split_and!; [reflexivity|done|done|]. split_and!; [done|done|cbn [channel]; by intros E; rewrite E in Ek|].
  cbn [channel]. intros Ht. by rewrite Ht in Ee.
Qed.

Lemma normalizeItem_ok item index res : normalizeItem item index = Ret res → item_ok index res.
Proof.
  unfold normalizeImportItem. destruct (item_source item); [intros [= <-]; right; by eexists|].
  match goal with |- context [mbind _ ?o] => destruct o as [c|] end; cbn; [|done].
  intros [= <-]. apply channel_result_ok.
Qed.

(** The accumulated result is the concatenation of the items' results. *)
Lemma loop_results items index acc r :
  loop items index acc = Ret r →
  ∃ results, length results = length items ∧
    (∀ i res, results !! i = Some res → item_ok (index + i) res) ∧
    requests r = requests acc ++ omap item_request results ∧
    previews r = previews acc ++ omap item_preview results ∧
    errors r = errors acc ++ omap item_error results.
Proof.
  revert index acc. induction items as [|item items IH]; intros index acc; cbn [build_loop].
  { intros [= <-]. exists []. by rewrite !app_nil_r. }
  destruct (normalizeItem item index) as [res|] eqn:E; cbn; [|done]. intros (results & Hl & Hok & Hr & Hp & He)%IH.
  exists (res :: results). pose proof (normalizeItem_ok item index res E) as Hres. split_and!.
  - cbn. by rewrite Hl.
  - intros [|i] res' Hi; cbn in Hi.
    + injection Hi as <-. by rewrite Nat.add_0_r.
    + replace (index + S i) with (S index + i) by lia. by apply Hok.
  - rewrite Hr. cbn. destruct (item_request res); cbn; [by rewrite <- app_assoc|done].
  - rewrite Hp. cbn. destruct (item_preview res); cbn; [by rewrite <- app_assoc|done].
  - rewrite He. cbn. destruct (item_error res); cbn; [by rewrite <- app_assoc|done].
Qed.

Lemma results_partition results index :
  (∀ i res, results !! i = Some res → item_ok (index + i) res) →
  length (omap item_request results) = length (omap item_preview results) ∧
  Forall request_ok (omap item_request results) ∧
  map pv_index (omap item_preview results) ++ map err_index (omap item_error results) ≡ₚ seq index (length results) ∧
  StronglySorted lt (map pv_index (omap item_preview results)) ∧ StronglySorted lt (map err_index (omap item_error results)).
Proof.
  revert index. induction results as [|res results IH]; intros index Hok; [split_and!; try done; constructor|].
  destruct (IH (S index)) as (Hl & Hr & Hp & Hs1 & Hs2).
  { intros i res' Hi. replace (S index + i) with (index + S i) by lia. by apply Hok. }
  pose proof (Hok 0 res eq_refl) as Hres. rewrite Nat.add_0_r in Hres.
  assert (∀ l : list nat, (∀ x, x ∈ l → x ∈ seq (S index) (length results)) → Forall (lt index) l) as Hlt.
  { intros l Hin. apply Forall_forall. intros x Hx%Hin%elem_of_seq. lia. }
  assert (∀ x, x ∈ map pv_index (omap item_preview results) ∨ x ∈ map err_index (omap item_error results) →
               x ∈ seq (S index) (length results)) as Hin.
  { intros x Hx. rewrite <- Hp. by apply elem_of_app. }
  destruct Hres as [(r & p & -> & Hi & _ & Hok')|(e & -> & Hi)]; cbn; rewrite ?Hi.
  - split_and!; [by f_equal|by constructor|by constructor| |done]. constructor; [done|]. apply Hlt. eauto.
  - split_and!; [done|done| |done|].
    + rewrite <- Permutation_middle. by constructor.
    + constructor; [done|]. apply Hlt. eauto.
Qed.

Lemma build_accounts payload r : build payload = Ret r →
  let n := length (extractImportItems payload) in
  length (requests r) = length (previews r) ∧ length (requests r) + length (errors r) = n ∧
  map pv_index (previews r) ++ map err_index (errors r) ≡ₚ seq 0 n ∧
  StronglySorted lt (map pv_index (previews r)) ∧ StronglySorted lt (map err_index (errors r)) ∧
  Forall request_ok (requests r).
Proof.
  intros Hbuild. cbv zeta. unfold buildImportRequests in Hbuild. apply loop_results in Hbuild as (results & Hl & Hok & Hr & Hp & He).
  cbn in Hr, Hp, He. rewrite Hr, Hp, He, <- Hl. destruct (results_partition results 0 Hok) as (H1 & H2 & H3 & H4 & H5).
  split_and!; try done. apply Permutation_length in H3. rewrite length_app, !length_map, length_seq in H3. lia.
Qed.

(** ** Totality *)

(** The expiry a decoded token claims is not positive, not a number, or a date that exists. *)
Definition expiry_ok (claims : obj) : Prop :=
  let exp := opt_number (obj_get (js "exp") claims) in
  is_finite exp && nlt pzero exp = true → is_Some (time_clip (nmul exp (num_of_Z 1000))).

Context (Hexpiry : ∀ segment claims, decodeBase64UrlJson atob_utf8 segment = Some claims → expiry_ok claims).

Lemma jwt_returns token : returns (readCodexJwtParts atob_utf8 token).
Proof using Hexpiry.
  unfold readCodexJwtParts. destruct (split _ _) as [|? [|payload [|? [|? ?]]]]; try apply returns_ret.
  destruct (decodeBase64UrlJson atob_utf8 payload) as [claims|] eqn:E; [|apply returns_ret].
  apply Hexpiry in E. unfold expiry_ok in E. apply returns_bind; [|intros; apply returns_ret].
  destruct (is_finite _ && _); [|apply returns_ret]. destruct (E eq_refl) as [t ->]. apply returns_ret.
Qed.

Lemma collect_returns source credentials key :
  returns (collectCodexCredentialParts date_parse atob_utf8 source credentials key).
Proof using Hexpiry.
  assert (∀ parts token, returns (merge_token atob_utf8 parts token)) as H.
  { intros parts token. unfold merge_token. destruct (truthy token); [|apply returns_ret].
    apply returns_bind; [apply jwt_returns|intros; apply returns_ret]. }
  unfold collectCodexCredentialParts. apply returns_bind; [apply H|]. intros parts. apply H.
Qed.

Lemma infer_returns source : returns (inferAccountPlatform toLowerCase atob_utf8 source).
Proof using Hexpiry.
  unfold inferAccountPlatform. destruct (_ || _); [|apply returns_ret].
  apply returns_bind; [|intros; apply returns_ret]. unfold looksLikeCodexCredentialSource, hasCodexAccountClaim.
  repeat match goal with |- returns (if ?b then _ else _) => destruct b end; try apply returns_ret.
  apply returns_bind; [apply jwt_returns|intros; apply returns_ret].
Qed.

Lemma extract_returns source platform : returns (extractKey date_parse atob_utf8 source platform).
Proof using Hexpiry.
  unfold extractKey. case_bool_decide; [|apply returns_ret]. unfold buildCodexCredential.
  assert (∀ o c k (g : CodexCredentialParts → str),
    returns (parts ← collectCodexCredentialParts date_parse atob_utf8 o c k; Ret (g parts))) as Hc.
  { intros o c k g. apply returns_bind; [apply collect_returns|intros; apply returns_ret]. }
  destruct (parseJsonObject _); [|apply Hc]. destruct (_ && _); [apply returns_ret|apply Hc].
Qed.

Lemma item_returns item index : returns (normalizeItem item index).
Proof using Hexpiry.
  unfold normalizeImportItem. destruct (item_source item) as [|kv source]; [apply returns_ret|].
  apply returns_bind; [|intros; apply returns_ret]. destruct (direct_channel _).
  - unfold normalizeDirectChannel. apply returns_bind; [apply extract_returns|intros; apply returns_ret].
  - unfold normalizeAccount. apply returns_bind; [apply infer_returns|]. intros platform.
    apply returns_bind.
    { case_bool_decide; [|apply returns_ret]. apply returns_bind; [apply collect_returns|intros; apply returns_ret]. }
    intros parts. apply returns_bind; [apply extract_returns|intros; apply returns_ret].
Qed.

Lemma loop_returns items index acc : returns (loop items index acc).
Proof using Hexpiry.
  revert index acc. induction items as [|item items IH]; intros index acc; cbn [build_loop]; [apply returns_ret|].
  apply returns_bind; [apply item_returns|]. intros result. apply IH.
Qed.

(** C39: An import accounts for every item: whatever the payload, as long as no token claims an expiry
    beyond the range of dates, it returns, and each item has contributed either one request together with one
    preview or one error, under its own index; previews and errors are in the order of the items,
    and every request has a name, a credential that is not blank and, for a Codex channel, a credential
    that passes the validation. *)
Theorem import_accounts_for_every_item (payload : json) :
  let n := length (extractImportItems payload) in
  ∃ r, build payload = Ret r ∧
  length (requests r) = length (previews r) ∧ length (requests r) + length (errors r) = n ∧
  map pv_index (previews r) ++ map err_index (errors r) ≡ₚ seq 0 n ∧
  StronglySorted lt (map pv_index (previews r)) ∧ StronglySorted lt (map err_index (errors r)) ∧
  Forall request_ok (requests r).
Proof using Hexpiry.
  cbv zeta. destruct (loop_returns (extractImportItems payload) 0 {| requests := []; previews := []; errors := [] |}) as [r Hr].
  exists r. split; [exact Hr|]. by apply build_accounts.
Qed.

End facts.

(** A browser without base64 data and dates, for the examples. *)
Definition no_date (_ : str) : option Z := None.
Definition no_base64 (_ : str) : option str := None.
Definition same_case (s : str) : str := s.

Definition sample_items : json :=
  JArr [JObj [(js "platform", JStr (js "openai")); (js "key", JStr (js "sk-1"))]; JNum (num_of_Z 3);
        JObj [(js "channel", JObj [(js "type", JNum (num_of_Z 14)); (js "key", JStr (js "sk-ant"))])]].

Lemma import_accounts_for_every_item_witness :
  (∀ segment claims, decodeBase64UrlJson no_base64 segment = Some claims → expiry_ok claims) ∧
  ∃ r, buildImportRequests same_case no_date 0 no_base64 sample_items = Ret r ∧ length (requests r) = length (previews r) ∧
       length (requests r) + length (errors r) = 3.
Proof.
  assert (∀ segment claims, decodeBase64UrlJson no_base64 segment = Some claims → expiry_ok claims) as H by (intros ? ? [=]).
  split; [exact H|].
  destruct (import_accounts_for_every_item same_case no_date 0 no_base64 H sample_items) as (r & Hr & H1 & H2 & _).
  exists r. split; [exact Hr|]. split; [exact H1|exact H2].
Defined.

(** ** One account per line *)

Inductive entry := Token (t : str) | Account (o : obj).

Definition entry_text (e : entry) : str := match e with Token t => t | Account o => json_stringify (JObj o) end.
Definition entry_value (e : entry) : json := match e with Token t => JStr t | Account o => JObj o end.

(** A bare token: one line, without outer spaces, that does not start like JSON. *)
Definition token_ok (t : str) : Prop :=
  trimmed t ∧ 10%N ∉ t ∧ match t with [] => False | c :: _ => c ≠ 123%N ∧ c ≠ 91%N end.

Definition entry_ok (e : entry) : Prop := match e with Token t => token_ok t | Account o => json_ok (JObj o) end.

Lemma entry_head e : entry_ok e →
  ∃ c u, entry_text e = c :: u ∧ is_space c = false ∧
         ((c =? 123) || (c =? 91))%N = match e with Token _ => false | Account _ => true end.
Proof.
  destruct e as [t|o]; cbn; [|by eexists _, _].
  intros ([Hh _] & _ & Ht). destruct t as [|c t]; [done|]. exists c, t. destruct Ht as [H1 H2].
  split_and!; [done|exact Hh|]. by rewrite (proj2 (N.eqb_neq c 123)), (proj2 (N.eqb_neq c 91)).
Qed.

Lemma looks_like_head c u : is_space c = false → looksLikeJsonContent (c :: u) = ((c =? 123) || (c =? 91))%N.
Proof. intros H. cbn. by rewrite H. Qed.

Lemma line_of_entry e : entry_ok e → line_values (entry_text e) = Ret [entry_value e].
Proof.
  intros He. destruct (entry_head e He) as (c & u & E & Hc & Hl). unfold line_values.
  assert (trim (entry_text e) = entry_text e) as ->.
  { apply trim_id. destruct e as [t|o]; [by destruct He|apply stringify_obj_trimmed]. }
  rewrite E. cbn [truthy negb]. rewrite looks_like_head, Hl by done. destruct e as [t|o]; cbn [entry_value]; [by rewrite <- E|].
  rewrite <- E. cbn [entry_text entry_ok] in *. by rewrite json_parse_stringify.
Qed.

Lemma lines_of_entries es : Forall entry_ok es → lines_values (map entry_text es) = Ret (map entry_value es).
Proof. induction 1 as [|e es He _ IH]; [done|]. cbn [map lines_values]. rewrite line_of_entry by done. cbn. by rewrite IH. Qed.

Lemma entry_no_newline e : entry_ok e → 10%N ∉ entry_text e.
Proof. destruct e as [t|o]; [by intros (_ & ? & _)|apply stringify_no_newline]. Qed.

(** An account followed by another line is not one JSON value. *)
Lemma two_lines_not_json o e es :
  json_ok (JObj o) → entry_ok e → json_parse (json_stringify (JObj o) ++ 10%N :: join [10%N] (map entry_text (e :: es))) = None.
Proof.
  intros Ho He. unfold json_parse. rewrite parse_value_text; [|done|done|rewrite length_app; lia].
  destruct (entry_head e He) as (c & u & E & Hc & _).
  assert (json_ws c = false) as Hw.
  { unfold json_ws. apply not_true_iff_false. rewrite !orb_true_iff, !N.eqb_eq. intros H. assert (is_space c = true) as Hs; [|congruence].
    by destruct H as [[[->| ->]| ->]| ->]. }
  assert (∃ u', join [10%N] (map entry_text (e :: es)) = c :: u') as (u' & ->).
  { cbn [map]. destruct (map entry_text es); [exists u; exact E|]. cbn [join]. rewrite E. by eexists. }
  unfold skip_ws. cbn [take_while]. change (json_ws 10) with true. cbn. by rewrite Hw.
Qed.

Lemma parse_text_lines content :
  (∃ c u, content = c :: u ∧ is_space c = false) →
  looksLikeJsonContent content = false ∨ json_parse content = None ∧ includes [10%N] content = true →
  parseAccountImportText content = mbind (λ vs, Ret (JArr vs)) (parseAccountImportLines content).
Proof.
  intros (c & u & -> & Hc) H. unfold parseAccountImportText. cbn [forallb]. rewrite Hc. cbn [andb].
  destruct H as [->|[Hp Hn]]; [done|]. destruct (looksLikeJsonContent _); [|done]. by rewrite Hp, Hn.
Qed.

(** Accounts pasted one per line are read as that list: for tokens and JSON accounts in
    any mixture, several lines or a single token, the text parses to exactly the accounts written,
    in order, and none is lost because the text as a whole is not JSON. *)
Theorem import_lines_round_trip (es : list entry)
  (Hok : Forall entry_ok es) (Hne : es ≠ []) (Hmany : (∃ o, es = [Account o]) → False) :
  parseAccountImportText (join [10%N] (map entry_text es)) = Ret (JArr (map entry_value es)).
Proof.
  destruct es as [|e es]; [done|]. inversion Hok as [|? ? He Hes]; subst.
  destruct (entry_head e He) as (c & u & E & Hc & Hl).
  assert (∃ u', join [10%N] (map entry_text (e :: es)) = c :: u') as (u' & Ej).
  { cbn [map]. destruct (map entry_text es); [exists u; exact E|]. cbn [join]. rewrite E. by eexists. }
  rewrite parse_text_lines.
  - unfold parseAccountImportLines. rewrite split_join; [by rewrite lines_of_entries|done|].
    apply Forall_forall. intros s (e' & -> & He')%elem_of_lmap. apply entry_no_newline. by rewrite Forall_forall in Hok; apply Hok.
  - by exists c, u'.
  - destruct e as [t|o]; [left; by rewrite Ej, looks_like_head, Hl|right].
    destruct es as [|e' es]; [destruct Hmany; by exists o|]. inversion Hes; subst.
    cbn [map]. rewrite join_cons by done. split; [by apply two_lines_not_json|].
    apply includes_spec. by eexists _, _.
Qed.

Definition sample_account : obj := [(js "platform", JStr (js "openai")); (js "key", JStr (js "sk-1"))].

Lemma sample_account_ok : json_ok (JObj sample_account).
Proof.
  constructor; [repeat constructor..|]. apply canonical_plain.
  - apply (bool_decide_unpack (NoDup (map fst sample_account))). vm_compute. exact I.
  - repeat (constructor; [vm_compute; reflexivity|]). constructor.
Qed.

Lemma import_lines_round_trip_witness :
  parseAccountImportText (join [10%N] [entry_text (Account sample_account); js "token-2"])
  = Ret (JArr [JObj sample_account; JStr (js "token-2")]).
Proof.
  assert (Forall entry_ok [Account sample_account; Token (js "token-2")]) as H.
  { constructor; [exact sample_account_ok|]. constructor; [|constructor].
    split; [by split; vm_compute|]. split; [|by vm_compute]. apply (bool_decide_unpack (10%N ∉ js "token-2")). by vm_compute. }
  exact (import_lines_round_trip [Account sample_account; Token (js "token-2")] H ltac:(discriminate)
           ltac:(intros [o Ho]; discriminate Ho)).
Defined.

(** ** Codex credentials *)

Section credentials.
Context (date_parse : str → option Z) (now : Z) (atob_utf8 : str → option str).

Lemma parseJsonObject_stringify o : json_ok (JObj o) → parseJsonObject (json_stringify (JObj o)) = Some o.
Proof.
  intros Ho. unfold parseJsonObject. rewrite trim_id by apply stringify_obj_trimmed.
  replace (starts_with _ _) with true by done. cbn [negb]. unfold parse_object. by rewrite json_parse_stringify.
Qed.

(** The texts of the parts that reach the credential. *)
Definition part_texts (p : CodexCredentialParts) : list str :=
  [accessToken p; accountId p; refreshToken p; idToken p; email p; expiresAt p].

Definition codex_tail (p : CodexCredentialParts) : obj :=
  [(js "access_token", JStr (accessToken p)); (js "account_id", JStr (accountId p))]
  ++ (if truthy (refreshToken p) then [(js "refresh_token", JStr (refreshToken p))] else [])
  ++ (if truthy (idToken p) then [(js "id_token", JStr (idToken p))] else [])
  ++ (if truthy (email p) then [(js "email", JStr (email p))] else [])
  ++ (if truthy (expiresAt p) then [(js "expired", JStr (expiresAt p))] else []).

Ltac case_parts p :=
  destruct (truthy (refreshToken p)), (truthy (idToken p)), (truthy (email p)), (truthy (expiresAt p)).

Lemma codex_payload_eq p : codex_payload p = (js "type", JStr (js "codex")) :: codex_tail p.
Proof. unfold codex_payload, codex_tail, set_if. case_parts p; vm_compute; reflexivity. Qed.

(** Facts about the payload's keys, by cases on which optional parts are there. *)
Ltac by_parts p := rewrite codex_payload_eq; unfold codex_tail; case_parts p; vm_compute; reflexivity.

Lemma codex_payload_keys p :
  NoDup (map fst (codex_payload p)) ∧ Forall (λ kv, is_index (fst kv) = false) (codex_payload p) ∧
  Forall (λ kv, units (fst kv)) (codex_payload p).
Proof.
  rewrite codex_payload_eq. unfold codex_tail.
  assert (∀ l : list str, bool_decide (NoDup l ∧ Forall (λ k, is_index k = false) l ∧ Forall (Forall (λ c, (c < 65536)%N)) l) = true →
            ∀ o : obj, map fst o = l → NoDup (map fst o) ∧ Forall (λ kv, is_index (fst kv) = false) o ∧ Forall (λ kv, units (fst kv)) o) as H.
  { intros l Hl o <-. apply bool_decide_eq_true in Hl as (H1 & H2 & H3). rewrite Forall_map in H2, H3. done. }
  case_parts p; (eapply H; [|reflexivity]); vm_compute; reflexivity.
Qed.

Lemma codex_payload_ok p : Forall units (part_texts p) → json_ok (JObj (codex_payload p)).
Proof.
  intros Hu. destruct (codex_payload_keys p) as (H1 & H2 & H3). constructor; [done| |by apply canonical_plain].
  repeat (apply Forall_cons in Hu as [? Hu]). rewrite codex_payload_eq. unfold codex_tail.
  constructor; [constructor; by apply (bool_decide_unpack (Forall (λ c, (c < 65536)%N) (js "codex")))|].
  apply Forall_app; split; [by repeat constructor|].
  repeat (apply Forall_app; split); match goal with |- context [if ?b then _ else _] => destruct b end; by repeat constructor.
Qed.

Lemma spread_typed p : obj_spread [(js "type", JStr (js "codex"))] (codex_payload p) = codex_payload p.
Proof.
  destruct (codex_payload_keys p) as (H1 & H2 & _). rewrite codex_payload_eq in *. unfold obj_spread. cbn [fold_left fst snd].
  replace (obj_set (js "type") _ _) with [(js "type", JStr (js "codex"))] by (vm_compute; reflexivity).
  apply Forall_cons in H2 as [_ H2]. by apply (fold_obj_set (codex_tail p) [(js "type", JStr (js "codex"))]).
Qed.

Lemma payload_texts p :
  firstString [obj_get (js "access_token") (codex_payload p)] = trim (accessToken p) ∧
  firstString [obj_get (js "account_id") (codex_payload p)] = trim (accountId p) ∧
  firstString [obj_get (js "refresh_token") (codex_payload p)] = trim (refreshToken p) ∧
  firstString [obj_get (js "expired") (codex_payload p); obj_get (js "expires_at") (codex_payload p)] = trim (expiresAt p).
Proof.
  assert (∀ o k s, obj_get (js k) o = (if truthy s then Some (JStr s) else None) → firstString [obj_get (js k) o] = trim s) as Hopt.
  { intros o k s ->. destruct s as [|c s]; [done|]. cbn [truthy]. by rewrite firstString_text. }
  assert (Ha : obj_get (js "access_token") (codex_payload p) = text (accessToken p)) by by_parts p.
  assert (Hb : obj_get (js "account_id") (codex_payload p) = text (accountId p)) by by_parts p.
  assert (Hr : obj_get (js "refresh_token") (codex_payload p) = if truthy (refreshToken p) then text (refreshToken p) else None) by by_parts p.
  assert (He : obj_get (js "expired") (codex_payload p) = if truthy (expiresAt p) then text (expiresAt p) else None) by by_parts p.
  assert (Hx : obj_get (js "expires_at") (codex_payload p) = None) by by_parts p.
  rewrite Ha, Hb, !firstString_text. split_and!; [done|done|by apply Hopt|].
  rewrite Hx, He. destruct (expiresAt p) as [|c s]; [done|]. cbn [truthy firstString]. by destruct (trim (c :: s)).
Qed.

(** A Codex credential is normalised once: the credential built from collected parts is
    returned unchanged when it is imported again, whatever else the item holds, and it is rejected by the
    validation only when it has no refresh token and its expiry is known and past by more than
    the clock skew. *)
Theorem codex_credential_stable (source credentials : obj) (p : CodexCredentialParts)
  (Hunits : Forall units (part_texts p)) (Htoken : trim (accessToken p) ≠ []) (Haccount : trim (accountId p) ≠ []) :
  let k := json_stringify (JObj (codex_payload p)) in
  buildCodexCredential date_parse atob_utf8 source credentials k = Ret k ∧
  (getCodexKeyValidationError date_parse now k = None ∨ getCodexKeyValidationError date_parse now k = Some TOKEN_EXPIRED) ∧
  (getCodexKeyValidationError date_parse now k = Some TOKEN_EXPIRED ↔
     trim (refreshToken p) = [] ∧ trim (expiresAt p) ≠ [] ∧
     ∃ t, date_parse (trim (expiresAt p)) = Some t ∧
          nle (to_seconds t) (nsub (to_seconds now) CODEX_IMPORT_CLOCK_SKEW_SECONDS) = true).
Proof.
  cbv zeta. pose proof (parseJsonObject_stringify _ (codex_payload_ok p Hunits)) as Hparse.
  destruct (payload_texts p) as (Ha & Hb & Hr & He).
  assert (has_text (codex_payload p) "access_token" = true) as H1 by (unfold has_text; rewrite Ha; by destruct (trim (accessToken p))).
  assert (has_text (codex_payload p) "account_id" = true) as H2 by (unfold has_text; rewrite Hb; by destruct (trim (accountId p))).
  split; [unfold buildCodexCredential; by rewrite Hparse, H1, H2, spread_typed|].
  unfold getCodexKeyValidationError. rewrite Hparse, H1, H2, He. cbn [negb]. unfold has_text. rewrite Hr.
  destruct (trim (refreshToken p)) eqn:Er; cbn [truthy negb andb]; [|naive_solver].
  destruct (trim (expiresAt p)) eqn:Ee; cbn [truthy]; [naive_solver|].
  destruct (date_parse _) as [t|]; [|naive_solver]. destruct (nle _ _) eqn:En.
  - split; [by right|]. split; [intros _; split_and!; [done|done|by exists t]|done].
  - split; [by left|]. split; [done|]. intros (_ & _ & t' & [= <-] & Ht). congruence.
Qed.

End credentials.

Definition sample_parts : CodexCredentialParts := {|
  accessToken := js "at"; refreshToken := []; idToken := []; accountId := js "acc"; email := js "a@b";
  expiresAt := js "1970-01-01T00:00:00.000Z"; userId := []; planType := []; organizationId := []; codex_name := [];
  sessionTokenPresent := false |}.

Lemma codex_credential_stable_witness :
  let k := json_stringify (JObj (codex_payload sample_parts)) in
  buildCodexCredential (λ _, Some 0%Z) no_base64 [] [] k = Ret k.
Proof.
  assert (Forall units (part_texts sample_parts)) as H.
  { apply (bool_decide_unpack (Forall (Forall (λ c, (c < 65536)%N)) (part_texts sample_parts))). vm_compute. exact I. }
  exact (proj1 (codex_credential_stable (λ _, Some 0%Z) 1000000 no_base64 [] [] sample_parts H
                  ltac:(vm_compute; discriminate) ltac:(vm_compute; discriminate))).
Defined.

(** ** Imports that do not do what they are meant to *)

Lemma loop_throws toLowerCase date_parse now atob item items :
  (∀ index, normalizeImportItem toLowerCase date_parse now atob item index = Throw) → item ∈ items →
  ∀ index acc, build_loop toLowerCase date_parse now atob items index acc = Throw.
Proof.
  intros Hthrow. induction items as [|x items IH]; intros Hin index acc; [by apply elem_of_nil in Hin|].
  cbn [build_loop]. apply elem_of_cons in Hin as [<-|Hin]; [by rewrite Hthrow|].
  destruct (normalizeImportItem _ _ _ _ x index); [by apply IH|done].
Qed.

(** The claims of a token whose expiry is given in microseconds. *)
Definition micro_claims : str := json_stringify (JObj [(js "exp", JNum (num_of_Z 1893456000000000))]).

(** One token can abort a whole import: [readCodexJwtParts] checks that [exp] is finite and positive
    but not that the date exists, so a token whose expiry is not in seconds makes [toISOString] throw
    a RangeError; nothing catches it, and no other item of the same import is reported or created. *)
Theorem one_token_aborts_import (items : list json) (now : Z) (Hin : JStr (js "h.claims.s") ∈ items) :
  buildImportRequests same_case no_date now (λ _, Some micro_claims) (JArr items) = Throw.
Proof. apply (loop_throws _ _ _ _ (JStr (js "h.claims.s"))); [|done]. intros index. vm_compute. reflexivity. Qed.

Lemma one_token_aborts_import_witness :
  buildImportRequests same_case no_date 0 (λ _, Some micro_claims) (JArr [JObj sample_account; JStr (js "h.claims.s")]) = Throw.
Proof. exact (one_token_aborts_import [JObj sample_account; JStr (js "h.claims.s")] 0 ltac:(right; left)). Defined.

(** A channel whose [type] is [null] loses its platform: [Number(null)] is the integer 0, so the
    platform text is not consulted and the channel is imported as a custom one. *)
Theorem null_type_hides_platform :
  let item t := JObj [(js "channel", JObj ((js "platform", JStr (js "anthropic")) :: (js "key", JStr (js "sk")) :: t))] in
  let types t := match buildImportRequests same_case no_date 0 no_base64 (item t) with
                 | Ret r => map (λ q, ch_type (channel q)) (requests r) | Throw => [] end in
  types [] = [num_of_Z 14] ∧ types [(js "type", JNull)] = [num_of_Z 8].
Proof. cbv zeta. split; vm_compute; reflexivity. Qed.
