(* ===== verification/ChannelForm.v ===== *)
(** * The channel form ([web/default/src/features/channels/lib/channel-form.ts])

    The fields of the channel editor, their validators, and the translation between a
    channel as the API has it and the form: two of the API's fields, [setting] and [settings], are
    JSON texts of which the form owns some members and must keep the others. *)

From S2P Require Import Prelude JsString Regex JsNumber JsNumberFacts Json JsonFacts.

(** [Set.has] on channel types *)
Definition type_in (types : list Z) (type : num) : bool := existsb (λ t, num_eqb (num_of_Z t) type) types.

(** [type === n] *)
Definition is_type (type : num) (n : Z) : bool := num_eqb type (num_of_Z n).

Definition UPSTREAM_GZIP_SUPPORTED_CHANNEL_TYPES : list Z :=
  [1; 3; 6; 7; 8; 9; 10; 12; 13; 14; 19; 20; 22; 31; 47; 48]%Z.

Definition supportsUpstreamRequestGzip (channelType : num) : bool :=
  type_in UPSTREAM_GZIP_SUPPORTED_CHANNEL_TYPES channelType.

Definition MODEL_FETCHABLE_TYPES : list Z :=
  [1; 4; 14; 17; 20; 23; 24; 25; 26; 27; 31; 34; 35; 40; 42; 43; 47; 48]%Z.

(** ** Validators *)

(** [parseOptionalJson] inside the [try] of its callers: [None] is an exception, [Some None]
    is [undefined]. *)
Definition parseOptionalJson (value : option str) : option (option json) :=
  match value with
  | Some v => if truthy (trim v) then option_map Some (json_parse v) else Some None
  | None => Some None
  end.

Definition isJsonObjectValue (v : json) : bool := match v with JObj _ => true | _ => false end.

Definition isOptionalJsonObject (value : option str) : bool :=
  match parseOptionalJson value with
  | Some None => true
  | Some (Some v) => isJsonObjectValue v
  | None => false
  end.

Definition isOptionalModelMapping (value : option str) : bool :=
  match parseOptionalJson value with
  | Some None => true
  | Some (Some (JObj o)) => forallb (λ kv, match snd kv with JStr _ => true | _ => false end) o
  | _ => false
  end.

(** An integer between 100 and 599. *)
Definition is_status_code (x : num) : bool :=
  match integer_of x with Some z => ((100 <=? z) && (z <=? 599))%Z | None => false end.

Definition isOptionalStatusCodeMapping (value : option str) : bool :=
  match parseOptionalJson value with
  | Some None => true
  | Some (Some (JObj o)) =>
      forallb (λ kv, is_status_code (number_of_string (fst kv)) && is_status_code (to_number (snd kv))) o
  | _ => false
  end.

Definition text_member (k : string) (o : obj) : bool :=
  match obj_get (js k) o with Some (JStr s) => truthy (trim s) | _ => false end.

Definition isCodexCredential (value : option str) : bool :=
  match parseOptionalJson value with
  | Some None => true
  | Some (Some (JObj o)) => text_member "access_token" o && text_member "account_id" o
  | _ => false
  end.

Definition isVertexJsonKey (value : option str) : bool :=
  match parseOptionalJson value with
  | Some None => true
  | Some (Some (JArr l)) => forallb isJsonObjectValue l
  | Some (Some v) => isJsonObjectValue v
  | None => false
  end.

(** ** Form values *)

Record ExtraSettings := {
  force_format : option json; thinking_to_content : option json; proxy : option json;
  pass_through_body_enabled : option json; system_prompt : option json; system_prompt_override : option json;
  max_concurrency : option num; max_concurrency_per_user : option num; large_request_eligible : option bool;
  upstream_request_gzip_enabled : option bool; upstream_request_gzip_min_mib : option num }.

Record TypeSettings := {
  is_enterprise_account : option bool; vertex_key_type : option json; aws_key_type : option json;
  azure_responses_version : option json; allow_service_tier : option bool; disable_store : option bool;
  allow_safety_identifier : option bool; allow_include_obfuscation : option bool; allow_inference_geo : option bool;
  allow_speed : option bool; claude_beta_query : option bool; upstream_model_update_check_enabled : option bool;
  upstream_model_update_auto_sync_enabled : option bool; upstream_model_update_ignored_models : option str }.

Record ChannelFormValues := {
  f_name : str; f_type : num; f_base_url : option str; f_key : str; f_openai_organization : option str;
  f_models : str; f_group : list str; f_model_mapping : option str; f_priority : option num; f_weight : option num;
  f_test_model : option str; f_auto_ban : option num; f_status : num; f_status_code_mapping : option str;
  f_tag : option str; f_remark : option str; f_setting : option str; f_param_override : option str;
  f_header_override : option str; f_settings : option str; f_other : option str;
  f_multi_key_mode : option str; f_multi_key_type : option str; f_batch_add_set_key_prefix_2_name : option bool;
  f_key_mode : option str; f_extra : ExtraSettings; f_types : TypeSettings }.

(** The superRefine issues: path and message. *)
Definition blank (s : option str) : bool := match s with Some v => negb (truthy (trim v)) | None => true end.

Definition several_keys (f : ChannelFormValues) : bool :=
  match f_multi_key_mode f with Some m => truthy m && negb (bool_decide (m = js "single")) | None => false end.

Definition key_type_is (f : ChannelFormValues) (s : string) : bool :=
  match vertex_key_type (f_types f) with Some (JStr t) => bool_decide (t = js s) | _ => false end.

Definition form_issues (f : ChannelFormValues) : list (str * str) :=
  let issue (b : bool) (path message : string) := if b then [(js path, js message)] else [] in
  issue (type_in [3; 8; 36; 45]%Z (f_type f) && blank (f_base_url f))
    "base_url" "Base URL is required for this channel type"
  ++ issue (type_in [3; 18; 21; 39; 41; 49]%Z (f_type f) && blank (f_other f))
    "other" "This channel type requires additional configuration"
  ++ issue (is_type (f_type f) 57 && several_keys f)
    "multi_key_mode" "Codex channels do not support batch creation"
  ++ issue (is_type (f_type f) 57 && truthy (trim (f_key f)) && negb (isCodexCredential (Some (f_key f))))
    "key" "Codex credential must be a JSON object with access_token and account_id"
  ++ issue (is_type (f_type f) 41 && key_type_is f "json" && truthy (trim (f_key f)) && negb (isVertexJsonKey (Some (f_key f))))
    "key" "Vertex AI service account key must be valid JSON"
  ++ issue (is_type (f_type f) 41 && key_type_is f "api_key" && several_keys f)
    "multi_key_mode" "Vertex AI API Key mode does not support batch creation".

(** ** From the API to the form *)

(** [v || d] *)
Definition or_json (v : option json) (d : json) : json := if json_truthy v then default d v else d.

Definition num_or (v : option num) (d : num) : num := match v with Some x => if num_truthy x then x else d | None => d end.

Definition str_or (v : option str) (d : str) : str := match v with Some s => if truthy s then s else d | None => d end.

(** [typeof v === 'number' && v > 0 ? v : d] *)
Definition positive_or (v : option json) (d : num) : num :=
  match v with Some (JNum x) => if nlt pzero x then x else d | _ => d end.

Definition member_is (v : option json) (b : bool) : bool :=
  match v with Some (JBool c) => Bool.eqb b c | _ => false end.

Definition MIB : num := num_of_Z 1048576.

Definition default_extra (type : num) : ExtraSettings := {|
  force_format := Some (JBool false); thinking_to_content := Some (JBool false); proxy := Some (JStr []);
  pass_through_body_enabled := Some (JBool false); system_prompt := Some (JStr []);
  system_prompt_override := Some (JBool false); max_concurrency := Some (num_of_Z 0);
  max_concurrency_per_user := Some (num_of_Z 0); large_request_eligible := Some false;
  upstream_request_gzip_enabled := Some (supportsUpstreamRequestGzip type);
  upstream_request_gzip_min_mib := Some (num_of_Z 1) |}.

(** The fields read from a parsed [setting]. *)
Definition extra_of (type : num) (parsed : json) : ExtraSettings :=
  let p k := opt_prop (js k) (Some parsed) in {|
  force_format := Some (or_json (p "force_format") (JBool false));
  thinking_to_content := Some (or_json (p "thinking_to_content") (JBool false));
  proxy := Some (or_json (p "proxy") (JStr []));
  pass_through_body_enabled := Some (or_json (p "pass_through_body_enabled") (JBool false));
  system_prompt := Some (or_json (p "system_prompt") (JStr []));
  system_prompt_override := Some (or_json (p "system_prompt_override") (JBool false));
  max_concurrency := Some (positive_or (p "max_concurrency") (num_of_Z 0));
  max_concurrency_per_user := Some (positive_or (p "max_concurrency_per_user") (num_of_Z 0));
  large_request_eligible := Some (member_is (p "large_request_eligible") true);
  upstream_request_gzip_enabled :=
    Some (supportsUpstreamRequestGzip type && negb (member_is (p "upstream_request_gzip_enabled") false));
  upstream_request_gzip_min_mib :=
    Some (match p "upstream_request_gzip_min_bytes" with
          | Some (JNum x) => if nlt pzero x then ndiv x MIB else num_of_Z 1
          | _ => num_of_Z 1
          end) |}.

(** [null] makes the first property access throw, which is caught. *)
Definition read_extra (type : num) (setting : option str) : ExtraSettings :=
  match setting with
  | Some s =>
      if truthy s then
        match json_parse s with
        | Some JNull | None => default_extra type
        | Some parsed => extra_of type parsed
        end
      else default_extra type
  | None => default_extra type
  end.

Definition default_types : TypeSettings := {|
  is_enterprise_account := Some false; vertex_key_type := Some (JStr (js "json")); aws_key_type := Some (JStr (js "ak_sk"));
  azure_responses_version := Some (JStr []); allow_service_tier := Some false; disable_store := Some false;
  allow_safety_identifier := Some false; allow_include_obfuscation := Some false; allow_inference_geo := Some false;
  allow_speed := Some false; claude_beta_query := Some false; upstream_model_update_check_enabled := Some false;
  upstream_model_update_auto_sync_enabled := Some false; upstream_model_update_ignored_models := Some [] |}.

Definition types_of (parsed : json) : TypeSettings :=
  let p k := opt_prop (js k) (Some parsed) in
  let flag k := Some (member_is (p k) true) in {|
  is_enterprise_account := flag "openrouter_enterprise";
  vertex_key_type := Some (or_json (p "vertex_key_type") (JStr (js "json")));
  aws_key_type := Some (or_json (p "aws_key_type") (JStr (js "ak_sk")));
  azure_responses_version := Some (or_json (p "azure_responses_version") (JStr []));
  allow_service_tier := flag "allow_service_tier"; disable_store := flag "disable_store";
  allow_safety_identifier := flag "allow_safety_identifier"; allow_include_obfuscation := flag "allow_include_obfuscation";
  allow_inference_geo := flag "allow_inference_geo"; allow_speed := flag "allow_speed";
  claude_beta_query := flag "claude_beta_query";
  upstream_model_update_check_enabled := flag "upstream_model_update_check_enabled";
  upstream_model_update_auto_sync_enabled := flag "upstream_model_update_auto_sync_enabled";
  upstream_model_update_ignored_models :=
    Some (match p "upstream_model_update_ignored_models" with Some (JArr l) => json_to_string (JArr l) | _ => [] end) |}.

Definition read_types (settings : option str) : TypeSettings :=
  match settings with
  | Some s =>
      if truthy s then
        match json_parse s with
        | Some JNull | None => default_types
        | Some parsed => types_of parsed
        end
      else default_types
  | None => default_types
  end.

Definition comma : str := [44%N].

Definition parseModels (models : str) : list str :=
  if negb (truthy models) then [] else List.filter truthy (map trim (split comma models)).

Definition parseGroups (groups : str) : list str :=
  if negb (truthy groups) then [] else List.filter truthy (map trim (split comma groups)).

Definition formatModels (models : list str) : str := join comma models.
Definition formatGroups (groups : list str) : str := join comma groups.

(** The fields of a channel that the form edits; [None] is [null] or [undefined]. *)
Record ChannelRow := {
  c_name : option str; c_type : num; c_base_url : option str; c_openai_organization : option str; c_models : option str;
  c_group : option str; c_model_mapping : option str; c_priority : option num; c_weight : option num;
  c_test_model : option str; c_auto_ban : option num; c_status : num; c_status_code_mapping : option str;
  c_tag : option str; c_remark : option str; c_setting : option str; c_param_override : option str;
  c_header_override : option str; c_settings : option str; c_other : option str; c_multi_key_mode : option str }.

Definition transformChannelToFormDefaults (c : ChannelRow) : ChannelFormValues := {|
  f_name := str_or (c_name c) []; f_type := c_type c; f_base_url := Some (str_or (c_base_url c) []); f_key := [];
  f_openai_organization := Some (str_or (c_openai_organization c) []); f_models := str_or (c_models c) [];
  f_group := parseGroups (str_or (c_group c) (js "default"));
  f_model_mapping := Some (str_or (c_model_mapping c) []);
  f_priority := Some (num_or (c_priority c) (num_of_Z 0)); f_weight := Some (num_or (c_weight c) (num_of_Z 0));
  f_test_model := Some (str_or (c_test_model c) []); f_auto_ban := Some (default (num_of_Z 1) (c_auto_ban c));
  f_status := c_status c; f_status_code_mapping := Some (str_or (c_status_code_mapping c) []);
  f_tag := Some (str_or (c_tag c) []); f_remark := Some (str_or (c_remark c) []);
  f_setting := Some (str_or (c_setting c) []); f_param_override := Some (str_or (c_param_override c) []);
  f_header_override := Some (str_or (c_header_override c) []); f_settings := Some (str_or (c_settings c) (js "{}"));
  f_other := Some (str_or (c_other c) []); f_multi_key_mode := Some (js "single");
  f_multi_key_type := Some (str_or (c_multi_key_mode c) (js "random")); f_batch_add_set_key_prefix_2_name := Some false;
  f_key_mode := Some (js "append");
  f_extra := read_extra (c_type c) (c_setting c); f_types := read_types (c_settings c) |}.

(** ** From the form to the API *)

(** [v === true], [v !== false] *)
Definition is_on (v : option bool) : bool := match v with Some b => b | None => false end.
Definition is_not_off (v : option bool) : bool := match v with Some b => b | None => true end.

(** [Object.assign(o, {k: v, ...})] *)
Definition assign (o : obj) (members : list (string * json)) : obj :=
  fold_left (λ o kv, obj_set (js (fst kv)) (snd kv) o) members o.

Definition extra_members (e : ExtraSettings) : list (string * json) :=
  [("force_format", or_json (force_format e) (JBool false));
   ("thinking_to_content", or_json (thinking_to_content e) (JBool false));
   ("proxy", or_json (proxy e) (JStr []));
   ("pass_through_body_enabled", or_json (pass_through_body_enabled e) (JBool false));
   ("system_prompt", or_json (system_prompt e) (JStr []));
   ("system_prompt_override", or_json (system_prompt_override e) (JBool false));
   ("max_concurrency", JNum (num_or (max_concurrency e) (num_of_Z 0)));
   ("max_concurrency_per_user", JNum (num_or (max_concurrency_per_user e) (num_of_Z 0)));
   ("large_request_eligible", JBool (is_on (large_request_eligible e)))].

(** The object that [formData.setting] holds already. *)
Definition kept_setting (setting : option str) : obj :=
  match setting with
  | Some s => if truthy (trim s) then default [] (parse_object s) else []
  | None => []
  end.

Definition gzip_bytes (e : ExtraSettings) : num :=
  nmul (math_round (num_or (upstream_request_gzip_min_mib e) (num_of_Z 1))) MIB.

Definition setting_object (f : ChannelFormValues) : obj :=
  let o := assign (kept_setting (f_setting f)) (extra_members (f_extra f)) in
  if supportsUpstreamRequestGzip (f_type f)
  then assign o [("upstream_request_gzip_enabled", JBool (is_not_off (upstream_request_gzip_enabled (f_extra f))));
                 ("upstream_request_gzip_min_bytes", JNum (gzip_bytes (f_extra f)))]
  else obj_delete (js "upstream_request_gzip_min_bytes") (obj_delete (js "upstream_request_gzip_enabled") o).

Definition buildSettingJSON (f : ChannelFormValues) : str := json_stringify (JObj (setting_object f)).

(** [if (b) o[k] = v; else if (k in o) delete o[k]] *)
Definition put_if (b : bool) (k : string) (v : json) (o : obj) : obj :=
  if b then obj_set (js k) v o else obj_delete (js k) o.

(** [allow_inference_geo]: set or removed with the members of OpenAI channels (lines 590 and 597), then set
    with those of Anthropic channels (line 603). *)
Definition put_geo (openai anthropic : bool) (v : json) (o : obj) : obj :=
  let o' := if openai then obj_set (js "allow_inference_geo") v o
            else if anthropic then o else obj_delete (js "allow_inference_geo") o in
  if anthropic then obj_set (js "allow_inference_geo") v o' else o'.

Definition ignored_models (t : TypeSettings) : list str :=
  array_of_set (List.filter truthy (map trim (split comma (str_or (upstream_model_update_ignored_models t) [])))).

(** The members of model-fetchable types. *)
Definition update_members (t : TypeSettings) (o : obj) : obj :=
  let check := is_on (upstream_model_update_check_enabled t) in
  let o1 := assign o
    [("upstream_model_update_check_enabled", JBool check);
     ("upstream_model_update_auto_sync_enabled", JBool (check && is_on (upstream_model_update_auto_sync_enabled t)));
     ("upstream_model_update_ignored_models", JArr (map JStr (ignored_models t)))] in
  let o2 := match obj_get (js "upstream_model_update_last_detected_models") o1 with
            | Some (JArr _) => if check then o1 else obj_set (js "upstream_model_update_last_detected_models") (JArr []) o1
            | _ => obj_set (js "upstream_model_update_last_detected_models") (JArr []) o1
            end in
  match obj_get (js "upstream_model_update_last_check_time") o2 with
  | Some (JNum _) => o2
  | _ => obj_set (js "upstream_model_update_last_check_time") (JNum (num_of_Z 0)) o2
  end.

Definition settings_object (type : num) (t : TypeSettings) (o : obj) : obj :=
  let ty n := is_type type n in
  let flag v := JBool (is_on v) in
  let o1 := put_if (ty 41%Z) "vertex_key_type" (or_json (vertex_key_type t) (JStr (js "json"))) o in
  let o2 := put_if (ty 3%Z && json_truthy (azure_responses_version t)) "azure_responses_version"
              (default JNull (azure_responses_version t)) o1 in
  let o3 := put_if (ty 20%Z) "openrouter_enterprise" (flag (is_enterprise_account t)) o2 in
  let o4 := put_if (ty 33%Z) "aws_key_type" (or_json (aws_key_type t) (JStr (js "ak_sk"))) o3 in
  let o5 := put_if (ty 1%Z || ty 14%Z) "allow_service_tier" (flag (allow_service_tier t)) o4 in
  let o6 := put_if (ty 1%Z) "disable_store" (flag (disable_store t)) o5 in
  let o7 := put_if (ty 1%Z) "allow_safety_identifier" (flag (allow_safety_identifier t)) o6 in
  let o8 := put_if (ty 1%Z) "allow_include_obfuscation" (flag (allow_include_obfuscation t)) o7 in
  let o9 := put_geo (ty 1%Z) (ty 14%Z) (flag (allow_inference_geo t)) o8 in
  let o10 := put_if (ty 14%Z) "allow_speed" (flag (allow_speed t)) o9 in
  let o11 := put_if (ty 14%Z) "claude_beta_query" (flag (claude_beta_query t)) o10 in
  if type_in MODEL_FETCHABLE_TYPES type then update_members t o11 else o11.

(** A stored value that is [null] or a primitive makes the first [in] or assignment throw; members set on
    an array are not part of its text. *)
Definition buildSettingsJSON (f : ChannelFormValues) : outcome str :=
  let build o := Ret (json_stringify (JObj (settings_object (f_type f) (f_types f) o))) in
  match f_settings f with
  | Some s =>
      if truthy s && negb (bool_decide (s = js "{}")) then
        match json_parse s with
        | Some (JObj o) => build o
        | Some (JArr l) => Ret (json_stringify (JArr l))
        | Some _ => Throw
        | None => build []
        end
      else build []
  | None => build []
  end.

Definition TRAILING_SLASHES_RE : regex := rseq [rplus (rlit (js "/")); REol].

Definition normalizeBaseUrl (value : option str) : str := replace_first 0 TRAILING_SLASHES_RE (λ _, []) (trim (str_or value [])).

(** [v || null], the empty text included *)
Definition text_or_null (v : option str) : option str := match v with Some s => if truthy s then Some s else None | None => None end.

Definition num_or_null (v : option num) : option num := match v with Some x => if num_truthy x then Some x else None | None => None end.

(** What is sent: the channel, and the key, which is [null] when empty on creation and left out
    when blank on update. *)
Record CreatePayload := {
  p_mode : str; p_multi_key_mode : option str; p_batch_prefix : option bool; p_key : option str; p_channel : ChannelRow }.

Definition transformFormDataToCreatePayload (f : ChannelFormValues) : outcome CreatePayload :=
  settings ← buildSettingsJSON f;
  let mode := str_or (f_multi_key_mode f) (js "single") in
  Ret {| p_mode := mode;
         p_multi_key_mode := if bool_decide (mode = js "multi_to_single") then f_multi_key_type f else None;
         p_batch_prefix := if bool_decide (mode = js "batch") then f_batch_add_set_key_prefix_2_name f else None;
         p_key := text_or_null (Some (f_key f));
         p_channel := {|
           c_name := text_or_null (Some (f_name f)); c_type := f_type f;
           c_base_url := text_or_null (Some (normalizeBaseUrl (f_base_url f)));
           c_openai_organization := text_or_null (f_openai_organization f);
           c_models := text_or_null (Some (f_models f)); c_group := text_or_null (Some (formatGroups (f_group f)));
           c_model_mapping := text_or_null (f_model_mapping f); c_priority := num_or_null (f_priority f);
           c_weight := num_or_null (f_weight f); c_test_model := text_or_null (f_test_model f);
           c_auto_ban := Some (default (num_of_Z 1) (f_auto_ban f)); c_status := f_status f;
           c_status_code_mapping := text_or_null (f_status_code_mapping f); c_tag := text_or_null (f_tag f);
           c_remark := text_or_null (f_remark f); c_setting := Some (buildSettingJSON f);
           c_param_override := text_or_null (f_param_override f); c_header_override := text_or_null (f_header_override f);
           c_settings := Some settings; c_other := text_or_null (f_other f); c_multi_key_mode := None |} |}.

Record UpdatePayload := { u_id : num; u_key : option str; u_channel : ChannelRow }.

Definition transformFormDataToUpdatePayload (f : ChannelFormValues) (channelId : num) : outcome UpdatePayload :=
  settings ← buildSettingsJSON f;
  Ret {| u_id := channelId;
         u_key := if truthy (trim (f_key f)) then Some (f_key f) else None;
         u_channel := {|
           c_name := text_or_null (Some (f_name f)); c_type := f_type f;
           c_base_url := Some (normalizeBaseUrl (f_base_url f));
           c_openai_organization := Some (str_or (f_openai_organization f) []);
           c_models := text_or_null (Some (f_models f)); c_group := text_or_null (Some (formatGroups (f_group f)));
           c_model_mapping := Some (str_or (f_model_mapping f) []);
           c_priority := Some (default (num_of_Z 0) (f_priority f)); c_weight := Some (default (num_of_Z 0) (f_weight f));
           c_test_model := Some (str_or (f_test_model f) []); c_auto_ban := Some (default (num_of_Z 1) (f_auto_ban f));
           c_status := f_status f; c_status_code_mapping := Some (str_or (f_status_code_mapping f) []);
           c_tag := Some (str_or (f_tag f) []); c_remark := Some (str_or (f_remark f) []);
           c_setting := Some (buildSettingJSON f);
           c_param_override := Some (str_or (f_param_override f) []);
           c_header_override := Some (str_or (f_header_override f) []);
           c_settings := Some settings; c_other := text_or_null (f_other f); c_multi_key_mode := None |} |}.

Definition validateJSON (value : str) : bool :=
  if negb (truthy value) || negb (truthy (trim value)) then true
  else match json_parse value with Some _ => true | None => false end.

Definition validateModelMapping (value : str) : bool :=
  if negb (truthy value) || negb (truthy (trim value)) then true else validateJSON value.

(** * Correctness of the channel form

    The two JSON fields of a channel survive an edit: the members the form owns are read back as
    they were entered, members it does not know are kept, and members that belong to another
    channel type are removed. *)


(** Two literal keys differ. *)
Ltac key_neq := let E := fresh in intros E; vm_compute in E; discriminate E.

(** Look a literal key up in an object built by sets and deletes of literal keys. *)
Ltac get_member :=
  repeat match goal with
  | |- context [obj_get (js ?k) (obj_set (js ?k) ?v ?o)] => rewrite (obj_get_set_eq (js k) v o)
  | |- context [obj_get (js ?k) (obj_set (js ?k') ?v ?o)] => rewrite (obj_get_set_ne (js k') (js k) v o) by key_neq
  | |- context [obj_get (js ?k) (obj_delete (js ?k) ?o)] =>
      rewrite (obj_get_delete (js k) (js k) o), (bool_decide_true (js k = js k)) by reflexivity
  | |- context [obj_get (js ?k) (obj_delete (js ?k') ?o)] =>
      rewrite (obj_get_delete (js k') (js k) o), (bool_decide_false (js k = js k')) by key_neq
  end.

(** A literal key is made of code units and is not an array index. *)
Ltac key_ok :=
  lazymatch goal with
  | |- units ?k => apply (bool_decide_unpack (Forall (λ c, (c < 65536)%N) k)); vm_compute; exact I
  | |- is_index _ = false => vm_compute; reflexivity
  end.

Lemma assign_ok o ms :
  json_ok (JObj o) → Forall (λ kv, is_index (js (fst kv)) = false ∧ units (js (fst kv)) ∧ json_ok (snd kv)) ms →
  json_ok (JObj (assign o ms)).
Proof.
  intros Ho Hms. revert o Ho. induction Hms as [|[k v] ms (Hi & Hu & Hv) _ IH]; intros o Ho; [done|].
  apply IH. by apply obj_set_ok.
Qed.

Lemma put_if_ok b k v o :
  is_index (js k) = false → units (js k) → json_ok v → json_ok (JObj o) → json_ok (JObj (put_if b k v o)).
Proof. intros Hi Hu Hv Ho. destruct b; [by apply obj_set_ok|by apply obj_delete_ok]. Qed.

Lemma put_if_get b k v o : obj_get (js k) (put_if b k v o) = if b then Some v else None.
Proof. destruct b; cbn [put_if]; [by rewrite obj_get_set_eq|by rewrite obj_get_delete, bool_decide_true]. Qed.

Lemma put_if_other b k k' v o : js k' ≠ js k → obj_get (js k') (put_if b k v o) = obj_get (js k') o.
Proof. intros. destruct b; cbn [put_if]; [by rewrite obj_get_set_ne|by rewrite obj_get_delete, bool_decide_false]. Qed.

(** ** The [setting] member *)

(** Extra settings whose values have a JSON text. *)
Definition extra_ok (e : ExtraSettings) : Prop :=
  Forall (λ kv, json_ok (snd kv)) (extra_members e) ∧ json_num (gzip_bytes e) = true.

Lemma setting_object_ok f :
  json_ok (JObj (kept_setting (f_setting f))) → extra_ok (f_extra f) → json_ok (JObj (setting_object f)).
Proof.
  intros Ho [Hm Hg]. unfold setting_object.
  assert (json_ok (JObj (assign (kept_setting (f_setting f)) (extra_members (f_extra f))))) as H.
  { apply assign_ok; [done|]. unfold extra_members in *. repeat (apply Forall_cons in Hm as [? Hm]).
    repeat (apply Forall_cons; split; [split_and!; [key_ok|key_ok|assumption]|]). constructor. }
  destruct (supportsUpstreamRequestGzip _); [|by repeat apply obj_delete_ok].
  apply assign_ok; [done|]. repeat (apply Forall_cons; split; [split_and!; [key_ok|key_ok|by constructor]|]). constructor.
Qed.

Definition EXTRA_KEYS : list str :=
  map js ["force_format"; "thinking_to_content"; "proxy"; "pass_through_body_enabled"; "system_prompt";
          "system_prompt_override"; "max_concurrency"; "max_concurrency_per_user"; "large_request_eligible";
          "upstream_request_gzip_enabled"; "upstream_request_gzip_min_bytes"].

Lemma setting_object_keeps f k : k ∉ EXTRA_KEYS → obj_get k (setting_object f) = obj_get k (kept_setting (f_setting f)).
Proof.
  unfold EXTRA_KEYS. cbn [map]. rewrite !not_elem_of_cons. intros Hk. destruct_and! Hk.
  unfold setting_object. destruct (supportsUpstreamRequestGzip _); unfold assign, extra_members; cbn [fold_left fst snd];
    rewrite ?obj_get_delete, ?bool_decide_false by assumption; rewrite !obj_get_set_ne by assumption; reflexivity.
Qed.

(** The extra settings as they should come back. *)
Definition normal_extra (type : num) (e : ExtraSettings) : ExtraSettings := {|
  force_format := Some (or_json (force_format e) (JBool false));
  thinking_to_content := Some (or_json (thinking_to_content e) (JBool false));
  proxy := Some (or_json (proxy e) (JStr []));
  pass_through_body_enabled := Some (or_json (pass_through_body_enabled e) (JBool false));
  system_prompt := Some (or_json (system_prompt e) (JStr []));
  system_prompt_override := Some (or_json (system_prompt_override e) (JBool false));
  max_concurrency := Some (num_or (max_concurrency e) (num_of_Z 0));
  max_concurrency_per_user := Some (num_or (max_concurrency_per_user e) (num_of_Z 0));
  large_request_eligible := Some (is_on (large_request_eligible e));
  upstream_request_gzip_enabled := Some (supportsUpstreamRequestGzip type && is_not_off (upstream_request_gzip_enabled e));
  upstream_request_gzip_min_mib :=
    Some (if supportsUpstreamRequestGzip type then math_round (num_or (upstream_request_gzip_min_mib e) (num_of_Z 1)) else num_of_Z 1) |}.

(** What the schema admits for the numeric fields: a whole limit between 0 and 1000 or none, a threshold between 1 and 128 MiB, which need not be
    whole, or none. *)
Definition count_ok (v : option num) : Prop := v = None ∨ ∃ z, (0 ≤ z ≤ 1000)%Z ∧ v = Some (num_of_Z z).
Definition mib_ok (v : option num) : Prop :=
  v = None ∨ ∃ x, v = Some x ∧ valid_num x = true ∧ nle (num_of_Z 1) x = true ∧ nle x (num_of_Z 128) = true.

Section thresholds.
Local Open Scope Z_scope.

(** A number between two powers of two of moderate size has a full mantissa. *)
Lemma range_128 p e : valid_num (S754_finite false p e) = true → nle (num_of_Z 1) (S754_finite false p e) = true → nle (S754_finite false p e) (num_of_Z 128) = true →
  -52 ≤ e ≤ -45 ∧ 2 ^ 52 ≤ Zpos p < 2 ^ 53 ∧ (e = -45 → Zpos p = 2 ^ 52).
Proof.
  intros Hv H1 H2.
  assert (-52 ≤ e ≤ -45 ∧ (e = -45 → Zpos p ≤ 2 ^ 52)) as [He Hp].
  { unfold nle in *. change (num_of_Z 1) with (S754_finite false 4503599627370496 (-52)) in H1. change (num_of_Z 128) with (S754_finite false 4503599627370496 (-45)) in H2.
    assert (Zpos 4503599627370496 = 2 ^ 52) as Ec by reflexivity. revert H1 H2 Ec. generalize 4503599627370496%positive. intros c H1 H2 Ec. rewrite <- Ec.
    unfold SFleb, SFcompare in *. destruct (Z.compare_spec (-52) e) as [E1|E1|E1]; [| |discriminate H1];
      (destruct (Z.compare_spec e (-45)) as [E2|E2|E2]; [| |discriminate H2]); (split; [lia|]); intros Ee; try lia.
    change (Pos.compare_cont Eq p c) with (Pos.compare p c) in H2. destruct (Pos.compare_spec p c) as [->|H|H]; [lia|lia|discriminate H2]. }
  apply (bounded_spec p e) in Hv as [Hf _]. unfold fexp, emin, prec, emax in Hf. rewrite digits2_log2 in Hf.
  assert (Z.log2 (Zpos p) = 52) as Hl by lia.
  pose proof (Z.log2_spec (Zpos p) ltac:(lia)) as Hs. rewrite Hl in Hs. change (Z.succ 52) with 53 in Hs. split; [lia|]. split; [lia|]. intros Ee. specialize (Hp Ee). lia.
Qed.

Lemma round_128 x : valid_num x = true → nle (num_of_Z 1) x = true → nle x (num_of_Z 128) = true → ∃ z, 1 ≤ z ≤ 128 ∧ math_round x = num_of_Z z.
Proof.
  intros Hv H1 H2. destruct x as [[]|[]| |[] p e]; [discriminate H1|discriminate H1|discriminate H1|discriminate H2|discriminate H1|discriminate H1|].
  destruct (range_128 p e Hv H1 H2) as (He & Hp & Hm). unfold math_round. destruct (Z.leb_spec 0 e) as [?|_]; [lia|].
  set (d := 2 ^ (- e)). set (r := (2 * Zpos p + d) / (2 * d)).
  assert (0 < d ∧ d ≤ Zpos p ≤ 128 * d) as (Hd & Hlo & Hhi).
  { unfold d. assert (e = -52 ∨ e = -51 ∨ e = -50 ∨ e = -49 ∨ e = -48 ∨ e = -47 ∨ e = -46 ∨ e = -45) as [->|[->|[->|[->|[->|[->|[->| ->]]]]]]] by lia; cbn in *; lia. }
  assert (1 ≤ r ≤ 128) as Hr.
  { unfold r. split; [apply Z.div_le_lower_bound; lia|]. apply Z.lt_succ_r, Z.div_lt_upper_bound; lia. }
  exists r. split; [done|]. destruct (Z.eqb_spec r 0); [lia|done].
Qed.
End thresholds.

Lemma Z_range_check (p : Z → bool) (a : Z) (n : nat) z :
  forallb (λ i, p (a + Z.of_nat i)%Z) (seq 0 n) = true → (a ≤ z < a + Z.of_nat n)%Z → p z = true.
Proof.
  intros H Hz. rewrite forallb_forall in H. specialize (H (Z.to_nat (z - a))).
  replace (a + Z.of_nat (Z.to_nat (z - a)))%Z with z in H by lia. apply H, in_seq. lia.
Qed.

Lemma count_facts v : count_ok v →
  json_num (num_or v (num_of_Z 0)) = true ∧ positive_or (Some (JNum (num_or v (num_of_Z 0)))) (num_of_Z 0) = num_or v (num_of_Z 0).
Proof.
  intros [->|(z & Hz & ->)]; [vm_compute; done|].
  set (p z := json_num (num_or (Some (num_of_Z z)) (num_of_Z 0))
              && bool_decide (positive_or (Some (JNum (num_or (Some (num_of_Z z)) (num_of_Z 0)))) (num_of_Z 0)
                              = num_or (Some (num_of_Z z)) (num_of_Z 0))).
  assert (p z = true) as Hp by (apply (Z_range_check p 0 1001); [vm_compute; reflexivity|lia]).
  apply andb_true_iff in Hp as [H1 H2]. by apply bool_decide_eq_true in H2.
Qed.

Lemma mib_rounds v : mib_ok v → ∃ z, (1 ≤ z ≤ 128)%Z ∧ math_round (num_or v (num_of_Z 1)) = num_of_Z z.
Proof.
  intros [->|(x & -> & Hv & H1 & H2)]; [exists 1%Z; split; [lia|reflexivity]|].
  assert (num_truthy x = true) as Ht by (destruct x as [[]|[]| |[] p e]; [discriminate H1|discriminate H1|reflexivity|reflexivity|discriminate H1|reflexivity|reflexivity]).
  unfold num_or. rewrite Ht. by apply round_128.
Qed.

Lemma mib_facts e : mib_ok (upstream_request_gzip_min_mib e) →
  json_num (gzip_bytes e) = true ∧ nlt pzero (gzip_bytes e) = true ∧
  ndiv (gzip_bytes e) MIB = math_round (num_or (upstream_request_gzip_min_mib e) (num_of_Z 1)).
Proof.
  intros (z & Hz & E)%mib_rounds. unfold gzip_bytes. rewrite E.
  set (g z := nmul (num_of_Z z) MIB).
  set (p z := json_num (g z) && nlt pzero (g z) && bool_decide (ndiv (g z) MIB = num_of_Z z)).
  assert (p z = true) as Hp by (apply (Z_range_check p 1 128); [vm_compute; reflexivity|lia]).
  apply andb_true_iff in Hp as [[H1 H2]%andb_true_iff H3]. by apply bool_decide_eq_true in H3.
Qed.

Lemma or_json_idemp v d : or_json (Some (or_json v d)) d = or_json v d.
Proof.
  unfold or_json. destruct (json_truthy v) eqn:E; [|by destruct (json_truthy (Some d))]. destruct v as [w|]; [|done].
  change (default d (Some w)) with w. by rewrite E.
Qed.

Lemma extra_of_setting f :
  count_ok (max_concurrency (f_extra f)) → count_ok (max_concurrency_per_user (f_extra f)) →
  mib_ok (upstream_request_gzip_min_mib (f_extra f)) →
  extra_of (f_type f) (JObj (setting_object f)) = normal_extra (f_type f) (f_extra f).
Proof.
  intros H1%count_facts H2%count_facts H3%mib_facts. destruct H1 as [_ H1], H2 as [_ H2], H3 as (_ & H3 & H4).
  unfold extra_of, normal_extra, setting_object. cbn [opt_prop].
  destruct (supportsUpstreamRequestGzip (f_type f)); unfold assign, extra_members; cbn [fold_left fst snd]; get_member.
  all: rewrite !or_json_idemp; rewrite H1, H2; cbn [member_is]; rewrite ?H3, ?H4.
  - by destruct (is_on _), (is_not_off _).
  - by destruct (is_on _).
Qed.

(** The values of the free-form extra settings. *)
Definition extra_values (e : ExtraSettings) : list (option json) :=
  [force_format e; thinking_to_content e; proxy e; pass_through_body_enabled e; system_prompt e; system_prompt_override e].

Definition value_ok (v : option json) : Prop := match v with Some w => json_ok w | None => True end.

Lemma or_json_ok v d : value_ok v → json_ok d → json_ok (or_json v d).
Proof. intros Hv Hd. unfold or_json. destruct (json_truthy v); [|done]. by destruct v. Qed.

Lemma extra_ok_intro e :
  Forall value_ok (extra_values e) → count_ok (max_concurrency e) → count_ok (max_concurrency_per_user e) →
  mib_ok (upstream_request_gzip_min_mib e) → extra_ok e.
Proof.
  intros Hv [H1 _]%count_facts [H2 _]%count_facts [H3 _]%mib_facts. split; [|done].
  unfold extra_values in Hv. repeat (apply Forall_cons in Hv as [? Hv]). unfold extra_members.
  repeat (apply Forall_cons; split; [first [apply or_json_ok; [assumption|repeat constructor]|by constructor]|]). constructor.
Qed.

(** C40: Saving the extra settings of a channel and opening it again shows what was entered, except that the threshold of compression comes back
    rounded to whole MiB: for all limits and thresholds the schema admits, the [setting] text reads back as the form's values with their defaults
    filled in and the threshold rounded (1 MiB on the types without compression), on every channel type, and every member of the old text
    that the form does not know is still there. *)
Theorem extra_settings_round_trip (f : ChannelFormValues)
  (Hkept : json_ok (JObj (kept_setting (f_setting f)))) (Hvals : Forall value_ok (extra_values (f_extra f)))
  (Hmax : count_ok (max_concurrency (f_extra f))) (Huser : count_ok (max_concurrency_per_user (f_extra f)))
  (Hmib : mib_ok (upstream_request_gzip_min_mib (f_extra f))) :
  read_extra (f_type f) (Some (buildSettingJSON f)) = normal_extra (f_type f) (f_extra f) ∧
  ∃ o, parse_object (buildSettingJSON f) = Some o ∧
       ∀ k, k ∉ EXTRA_KEYS → obj_get k o = obj_get k (kept_setting (f_setting f)).
Proof.
  assert (json_parse (buildSettingJSON f) = Some (JObj (setting_object f))) as Hp.
  { apply json_parse_stringify, setting_object_ok; [done|]. by apply extra_ok_intro. }
  split.
  - unfold read_extra. rewrite Hp. change (truthy (buildSettingJSON f)) with true. by apply extra_of_setting.
  - exists (setting_object f). split; [unfold parse_object; by rewrite Hp|]. intros k. apply setting_object_keeps.
Qed.

Definition sample_extra : ExtraSettings := {|
  force_format := Some (JBool true); thinking_to_content := None; proxy := Some (JStr (js "socks5://p")); pass_through_body_enabled := None;
  system_prompt := Some (JStr (js "be brief")); system_prompt_override := Some (JBool true); max_concurrency := Some (num_of_Z 7);
  max_concurrency_per_user := Some (num_of_Z 0); large_request_eligible := Some true;
  upstream_request_gzip_enabled := Some false; upstream_request_gzip_min_mib := Some (num_of_Z 8) |}.

Definition sample_form (type : Z) (extra : ExtraSettings) (types : TypeSettings) (settings : str) : ChannelFormValues := {|
  f_name := js "c"; f_type := num_of_Z type; f_base_url := None; f_key := []; f_openai_organization := None; f_models := js "m";
  f_group := [js "default"]; f_model_mapping := None; f_priority := None; f_weight := None; f_test_model := None; f_auto_ban := None;
  f_status := num_of_Z 1; f_status_code_mapping := None; f_tag := None; f_remark := None;
  f_setting := Some (json_stringify (JObj [(js "custom", JNum (num_of_Z 5))])); f_param_override := None; f_header_override := None;
  f_settings := Some settings; f_other := None; f_multi_key_mode := None; f_multi_key_type := None;
  f_batch_add_set_key_prefix_2_name := None; f_key_mode := None; f_extra := extra; f_types := types |}.

Lemma custom_ok : json_ok (JObj [(js "custom", JNum (num_of_Z 5))]).
Proof.
  constructor; [constructor; [key_ok|constructor]|repeat constructor|].
  apply canonical_plain; [apply NoDup_singleton|]. constructor; [vm_compute; reflexivity|constructor].
Qed.

Lemma extra_settings_round_trip_witness :
  let f := sample_form 1 sample_extra default_types (js "{}") in
  read_extra (f_type f) (Some (buildSettingJSON f)) = normal_extra (f_type f) sample_extra.
Proof.
  set (f := sample_form 1 sample_extra default_types (js "{}")).
  assert (json_ok (JObj (kept_setting (f_setting f)))) as H1.
  { replace (kept_setting (f_setting f)) with [(js "custom", JNum (num_of_Z 5))] by (vm_compute; reflexivity). apply custom_ok. }
  assert (Forall value_ok (extra_values (f_extra f))) as H2.
  { repeat (apply Forall_cons; split; [first [exact I|constructor; key_ok|constructor]|]). constructor. }
  assert (count_ok (max_concurrency (f_extra f))) as H3 by (right; exists 7%Z; split; [lia|reflexivity]).
  assert (count_ok (max_concurrency_per_user (f_extra f))) as H4 by (right; exists 0%Z; split; [lia|reflexivity]).
  assert (mib_ok (upstream_request_gzip_min_mib (f_extra f))) as H5 by (right; eexists; split; [reflexivity|vm_compute; done]).
  exact (proj1 (extra_settings_round_trip f H1 H2 H3 H4 H5)).
Defined.

(** A threshold that is not a whole number of MiB, which the schema admits and the API may send, is
    rounded when the channel is saved: 1.5 MiB comes back as 2 MiB. *)
Theorem fractional_threshold_rounded :
  let half := ndiv (num_of_Z 3) (num_of_Z 2) in
  let stored := json_stringify (JObj [(js "upstream_request_gzip_min_bytes", JNum (num_of_Z 1572864))]) in
  let shown := read_extra (num_of_Z 1) (Some stored) in
  let f := sample_form 1 shown default_types (js "{}") in
  upstream_request_gzip_min_mib shown = Some half ∧
  upstream_request_gzip_min_mib (read_extra (num_of_Z 1) (Some (buildSettingJSON f))) = Some (num_of_Z 2).
Proof. cbv zeta. split; vm_compute; reflexivity. Qed.

(** ** The [settings] member *)

Lemma put_geo_get b1 b14 v o :
  obj_get (js "allow_inference_geo") (put_geo b1 b14 v o) = if b1 || b14 then Some v else None.
Proof. destruct b1, b14; cbn [put_geo orb]; get_member; reflexivity. Qed.

Lemma put_geo_other b1 b14 v o k : k ≠ js "allow_inference_geo" → obj_get k (put_geo b1 b14 v o) = obj_get k o.
Proof. intros Hk. destruct b1, b14; cbn [put_geo]; by rewrite ?obj_get_set_ne, ?obj_get_delete, ?bool_decide_false. Qed.

Lemma put_geo_ok b1 b14 v o : json_ok v → json_ok (JObj o) → json_ok (JObj (put_geo b1 b14 v o)).
Proof.
  intros Hv Ho. destruct b1, b14; cbn [put_geo]; repeat first [apply obj_set_ok; [key_ok|key_ok|done|]|apply obj_delete_ok|done].
Qed.

(** Lookups through the conditional writes as well. *)
Ltac get_put :=
  repeat match goal with
  | |- context [obj_get (js ?k) (put_if ?b ?k ?v ?o)] => rewrite (put_if_get b k v o)
  | |- context [obj_get (js ?k) (put_if ?b ?k' ?v ?o)] => rewrite (put_if_other b k' k v o) by key_neq
  | |- context [obj_get (js "allow_inference_geo") (put_geo ?b ?c ?v ?o)] => rewrite (put_geo_get b c v o)
  | |- context [obj_get (js ?k) (put_geo ?b ?c ?v ?o)] => rewrite (put_geo_other b c v o (js k)) by key_neq
  end.

Definition UPDATE_KEYS : list str :=
  map js ["upstream_model_update_check_enabled"; "upstream_model_update_auto_sync_enabled";
          "upstream_model_update_ignored_models"; "upstream_model_update_last_detected_models";
          "upstream_model_update_last_check_time"].

Lemma update_members_other t o k : k ∉ UPDATE_KEYS → obj_get k (update_members t o) = obj_get k o.
Proof.
  unfold UPDATE_KEYS. cbn [map]. rewrite !not_elem_of_cons. intros Hk. destruct_and! Hk.
  unfold update_members, assign. cbn [fold_left fst snd]. cbv zeta.
  repeat match goal with |- context [match ?x with _ => _ end] =>
    lazymatch x with obj_get _ _ => destruct x as [[]|] | is_on _ => destruct x end end;
    rewrite !obj_get_set_ne by assumption; reflexivity.
Qed.

(** The members of the update check. *)
Lemma update_members_get t o :
  let check := is_on (upstream_model_update_check_enabled t) in
  obj_get (js "upstream_model_update_check_enabled") (update_members t o) = Some (JBool check) ∧
  obj_get (js "upstream_model_update_auto_sync_enabled") (update_members t o)
  = Some (JBool (check && is_on (upstream_model_update_auto_sync_enabled t))) ∧
  obj_get (js "upstream_model_update_ignored_models") (update_members t o) = Some (JArr (map JStr (ignored_models t))).
Proof.
  cbv zeta. unfold update_members, assign. cbn [fold_left fst snd].
  set (o3 := obj_set (js "upstream_model_update_ignored_models") _ _).
  set (o4 := match obj_get (js "upstream_model_update_last_detected_models") o3 with Some (JArr _) => _ | _ => _ end).
  assert (∀ k, k ≠ js "upstream_model_update_last_detected_models" → obj_get k o4 = obj_get k o3) as H4.
  { intros k Hk. unfold o4. destruct (obj_get _ o3) as [[]|]; try destruct (is_on _); by rewrite ?obj_get_set_ne. }
  assert (∀ k, k ≠ js "upstream_model_update_last_check_time" →
            obj_get k (match obj_get (js "upstream_model_update_last_check_time") o4 with
                       | Some (JNum _) => o4 | _ => obj_set (js "upstream_model_update_last_check_time") (JNum (num_of_Z 0)) o4 end)
            = obj_get k o4) as H5.
  { intros k Hk. destruct (obj_get _ o4) as [[]|]; by rewrite ?obj_get_set_ne. }
  rewrite !H5, !H4 by key_neq. unfold o3. get_member. done.
Qed.

(** The type-specific settings that come back: each belongs to some channel types and has its default on
    the others; the update check belongs to the types whose models can be fetched, and other types keep what
    was stored. *)
Definition owned_types (type : num) (t : TypeSettings) (o : obj) : TypeSettings :=
  let ty n := is_type type n in
  let fetch := type_in MODEL_FETCHABLE_TYPES type in
  let stored := types_of (JObj o) in
  let check := is_on (upstream_model_update_check_enabled t) in {|
  is_enterprise_account := Some (ty 20%Z && is_on (is_enterprise_account t));
  vertex_key_type := Some (if ty 41%Z then or_json (vertex_key_type t) (JStr (js "json")) else JStr (js "json"));
  aws_key_type := Some (if ty 33%Z then or_json (aws_key_type t) (JStr (js "ak_sk")) else JStr (js "ak_sk"));
  azure_responses_version := Some (if ty 3%Z then or_json (azure_responses_version t) (JStr []) else JStr []);
  allow_service_tier := Some ((ty 1%Z || ty 14%Z) && is_on (allow_service_tier t));
  disable_store := Some (ty 1%Z && is_on (disable_store t));
  allow_safety_identifier := Some (ty 1%Z && is_on (allow_safety_identifier t));
  allow_include_obfuscation := Some (ty 1%Z && is_on (allow_include_obfuscation t));
  allow_inference_geo := Some ((ty 1%Z || ty 14%Z) && is_on (allow_inference_geo t));
  allow_speed := Some (ty 14%Z && is_on (allow_speed t));
  claude_beta_query := Some (ty 14%Z && is_on (claude_beta_query t));
  upstream_model_update_check_enabled := if fetch then Some check else upstream_model_update_check_enabled stored;
  upstream_model_update_auto_sync_enabled :=
    if fetch then Some (check && is_on (upstream_model_update_auto_sync_enabled t))
    else upstream_model_update_auto_sync_enabled stored;
  upstream_model_update_ignored_models :=
    if fetch then Some (join comma (ignored_models t)) else upstream_model_update_ignored_models stored |}.

Lemma member_is_flag (b c : bool) : member_is (if b then Some (JBool c) else None) true = b && c.
Proof. by destruct b, c. Qed.

Lemma or_json_owned (b : bool) v d : or_json (if b then Some (or_json v d) else None) d = if b then or_json v d else d.
Proof. destruct b; [apply or_json_idemp|done]. Qed.

Lemma or_json_present (b : bool) v d :
  or_json (if b && json_truthy v then Some (default JNull v) else None) d = if b then or_json v d else d.
Proof.
  destruct b; [|done]. cbn [andb]. unfold or_json at 2. destruct (json_truthy v) eqn:E; [|done]. destruct v as [w|]; [|done].
  unfold or_json. change (default JNull (Some w)) with w. by rewrite E.
Qed.

Lemma join_text_members l : json_to_string (JArr (map JStr l)) = join comma l.
Proof. cbn [json_to_string]. change (js ",") with comma. f_equal. induction l as [|s l IH]; [done|]. cbn [map]. by f_equal. Qed.

Lemma types_of_settings type t o : types_of (JObj (settings_object type t o)) = owned_types type t o.
Proof.
  unfold types_of, owned_types. cbn [opt_prop]. unfold settings_object. cbv zeta.
  set (o11 := put_if _ "claude_beta_query" _ _).
  destruct (type_in MODEL_FETCHABLE_TYPES type).
  - destruct (update_members_get t o11) as (H1 & H2 & H3). rewrite H1, H2, H3, join_text_members.
    rewrite !update_members_other by (apply (bool_decide_unpack (_ ∉ UPDATE_KEYS)); vm_compute; exact I).
    unfold o11. get_put. rewrite !member_is_flag, !or_json_owned, or_json_present.
    by destruct (is_on (upstream_model_update_check_enabled t)), (is_on (upstream_model_update_auto_sync_enabled t)).
  - unfold o11. get_put. rewrite !member_is_flag, !or_json_owned, or_json_present.
    reflexivity.
Qed.

Definition TYPE_KEYS : list str :=
  map js ["vertex_key_type"; "azure_responses_version"; "openrouter_enterprise"; "aws_key_type"; "allow_service_tier";
          "disable_store"; "allow_safety_identifier"; "allow_include_obfuscation"; "allow_inference_geo"; "allow_speed";
          "claude_beta_query"] ++ UPDATE_KEYS.

Lemma settings_object_keeps type t o k : k ∉ TYPE_KEYS → obj_get k (settings_object type t o) = obj_get k o.
Proof.
  unfold TYPE_KEYS. rewrite not_elem_of_app. cbn [map]. rewrite !not_elem_of_cons. intros [Hk Hu]. destruct_and! Hk.
  assert (∀ b k' v o, k ≠ js k' → obj_get k (put_if b k' v o) = obj_get k o) as Hput.
  { intros b k' v o' Hne. destruct b; cbn [put_if]; [by rewrite obj_get_set_ne|by rewrite obj_get_delete, bool_decide_false]. }
  unfold settings_object. cbv zeta. destruct (type_in _ _); rewrite ?update_members_other by assumption;
    rewrite !Hput by assumption; rewrite put_geo_other, !Hput by assumption; reflexivity.
Qed.

(** Type-specific settings whose values have a JSON text. *)
Definition types_ok (t : TypeSettings) : Prop :=
  value_ok (vertex_key_type t) ∧ value_ok (aws_key_type t) ∧ value_ok (azure_responses_version t) ∧
  Forall units (ignored_models t).

Lemma update_members_ok t o : types_ok t → json_ok (JObj o) → json_ok (JObj (update_members t o)).
Proof.
  intros (_ & _ & _ & Hi) Ho. unfold update_members. set (o1 := assign o _).
  assert (json_ok (JArr (map JStr (ignored_models t)))) as Hl.
  { constructor. apply Forall_map. eapply Forall_impl; [exact Hi|]. intros s Hs. by constructor. }
  assert (json_ok (JObj o1)) as H1.
  { apply assign_ok; [done|]. repeat (apply Forall_cons; split; [split_and!; [key_ok|key_ok|first [exact Hl|constructor]]|]). constructor. }
  assert (∀ o', json_ok (JObj o') → json_ok (JObj (obj_set (js "upstream_model_update_last_detected_models") (JArr []) o'))) as Hd.
  { intros o' Ho'. apply obj_set_ok; [key_ok|key_ok|by repeat constructor|done]. }
  assert (∀ o', json_ok (JObj o') → json_ok (JObj (obj_set (js "upstream_model_update_last_check_time") (JNum (num_of_Z 0)) o'))) as Ht.
  { intros o' Ho'. apply obj_set_ok; [key_ok|key_ok|by repeat constructor|done]. }
  cbv zeta. set (o2 := match obj_get (js "upstream_model_update_last_detected_models") o1 with Some (JArr _) => _ | _ => _ end).
  assert (json_ok (JObj o2)) as H2.
  { unfold o2. destruct (obj_get _ o1) as [[]|]; try destruct (is_on _); first [exact H1|apply Hd; exact H1]. }
  destruct (obj_get _ o2) as [[]|]; first [exact H2|apply Ht; exact H2].
Qed.

Lemma settings_object_ok type t o : types_ok t → json_ok (JObj o) → json_ok (JObj (settings_object type t o)).
Proof.
  intros Ht Ho. unfold settings_object. cbv zeta. set (o11 := put_if _ "claude_beta_query" _ _).
  assert (json_ok (JObj o11)) as H; [|by destruct (type_in _ _); [apply update_members_ok|]].
  assert (∀ s, units s → json_ok (JStr s)) as Hs by by constructor. destruct Ht as (Hv & Ha & Hz & _).
  assert (json_ok (default JNull (azure_responses_version t))) as Hz' by (destruct (azure_responses_version t); [exact Hz|constructor]).
  unfold o11. repeat lazymatch goal with
    | |- json_ok (JObj (put_geo _ _ _ _)) => apply put_geo_ok; [constructor|]
    | |- json_ok (JObj (put_if _ _ _ _)) => apply put_if_ok; [key_ok|key_ok| |]
    | |- json_ok (JObj o) => exact Ho
    | |- json_ok (JBool _) => constructor
    | |- json_ok (or_json _ _) => apply or_json_ok; [assumption|apply Hs; key_ok]
    | |- json_ok (default _ _) => exact Hz'
    end.
Qed.

(** The type-specific settings of a channel belong to its type: saving the form and reading the
    [settings] text back gives, for every setting, the entered value on the types that own it and the default on
    all others (the ignored models deduplicated and trimmed, automatic sync only with the check
    enabled), and every member the form does not know is kept. *)
Theorem type_settings_owned (f : ChannelFormValues) (o : obj) (s : str)
  (Hstored : f_settings f = Some (json_stringify (JObj o))) (Ho : json_ok (JObj o)) (Ht : types_ok (f_types f))
  (Hs : buildSettingsJSON f = Ret s) :
  read_types (Some s) = owned_types (f_type f) (f_types f) o ∧
  ∃ o', parse_object s = Some o' ∧ ∀ k, k ∉ TYPE_KEYS → obj_get k o' = obj_get k o.
Proof.
  assert (s = json_stringify (JObj (settings_object (f_type f) (f_types f) o))) as ->.
  { unfold buildSettingsJSON in Hs. rewrite Hstored in Hs. change (truthy (json_stringify (JObj o))) with true in Hs. cbn [andb] in Hs.
    rewrite json_parse_stringify in Hs by done. case_bool_decide as Ee; cbn [negb] in Hs; [|by injection Hs].
    assert (o = []) as ->; [|by injection Hs]. pose proof (json_parse_stringify _ Ho) as Hp. rewrite Ee in Hp.
    vm_compute in Hp. by injection Hp. }
  pose proof (json_parse_stringify _ (settings_object_ok (f_type f) (f_types f) o Ht Ho)) as Hp. split.
  - unfold read_types. rewrite Hp. change (truthy (json_stringify (JObj ?x))) with true. apply types_of_settings.
  - eexists. split; [unfold parse_object; by rewrite Hp|]. intros k. apply settings_object_keeps.
Qed.

Definition stored_settings : obj := [(js "custom", JNum (num_of_Z 5))].

Lemma type_settings_owned_witness :
  let f := sample_form 14 sample_extra default_types (json_stringify (JObj stored_settings)) in
  let s := match buildSettingsJSON f with Ret s => s | Throw => [] end in
  read_types (Some s) = owned_types (f_type f) (f_types f) stored_settings.
Proof.
  intros f s.
  assert (types_ok (f_types f)) as H1.
  { split_and!; [constructor; key_ok|constructor; key_ok|constructor; constructor|].
    replace (ignored_models (f_types f)) with (@nil str) by (vm_compute; reflexivity). constructor. }
  assert (buildSettingsJSON f = Ret s) as H2 by (vm_compute; reflexivity).
  exact (proj1 (type_settings_owned f stored_settings s eq_refl custom_ok H1 H2)).
Defined.
