(* ===== verification/Notifications.v ===== *)
(** * Notifications ([web/default/src/stores/notification-store.ts], [web/default/src/hooks/use-notifications.ts])

    The store that remembers what the user has read and what the operating system has
    announced, the keys that identify announcements, and the hook that drives the notification
    centre, the announcement dialog and the desktop notifier as a state machine.

    The current date, the permission the browser reports and whether the browser accepts a
    notification are inputs of the events; translated titles, the blinking tab and its badge are not
    modelled. *)

From stdpp Require Import gmap.
From S2P Require Import Prelude JsString Regex JsNumber Json.

(** ** The store *)

Record NotificationState := {
  lastReadNotice : str;
  readAnnouncementKeys : list str;
  notifiedAnnouncementKeys : list str;
  closedUntilDate : option str
}.

Definition initial_store : NotificationState :=
  {| lastReadNotice := []; readAnnouncementKeys := []; notifiedAnnouncementKeys := []; closedUntilDate := None |}.

Definition markNoticeRead (noticeContent : str) (s : NotificationState) : NotificationState :=
  {| lastReadNotice := trim noticeContent; readAnnouncementKeys := readAnnouncementKeys s;
     notifiedAnnouncementKeys := notifiedAnnouncementKeys s; closedUntilDate := closedUntilDate s |}.

Definition markAnnouncementsRead (keys : list str) (s : NotificationState) : NotificationState :=
  {| lastReadNotice := lastReadNotice s; readAnnouncementKeys := array_of_set (readAnnouncementKeys s ++ keys);
     notifiedAnnouncementKeys := notifiedAnnouncementKeys s; closedUntilDate := closedUntilDate s |}.

Definition markAnnouncementsNotified (keys : list str) (s : NotificationState) : NotificationState :=
  {| lastReadNotice := lastReadNotice s; readAnnouncementKeys := readAnnouncementKeys s;
     notifiedAnnouncementKeys := array_of_set (notifiedAnnouncementKeys s ++ keys);
     closedUntilDate := closedUntilDate s |}.

Definition setClosedUntilDate (date : option str) (s : NotificationState) : NotificationState :=
  {| lastReadNotice := lastReadNotice s; readAnnouncementKeys := readAnnouncementKeys s;
     notifiedAnnouncementKeys := notifiedAnnouncementKeys s; closedUntilDate := date |}.

Definition isAnnouncementRead (key : str) (s : NotificationState) : bool :=
  bool_decide (key ∈ readAnnouncementKeys s).

Definition isAnnouncementNotified (key : str) (s : NotificationState) : bool :=
  bool_decide (key ∈ notifiedAnnouncementKeys s).

(** [today] is [new Date().toDateString()]. *)
Definition isNoticeClosed (today : str) (s : NotificationState) : bool :=
  match closedUntilDate s with
  | None | Some [] => false
  | Some d => bool_decide (d = today)
  end.

(** ** Keys of announcements *)

(** [x | 0] of an integer *)
Definition to_int32 (z : Z) : Z :=
  let m := (z mod 2 ^ 32)%Z in if (m <? 2 ^ 31)%Z then m else (m - 2 ^ 32)%Z.

(** [hash = (hash << 5) - hash + chr; hash |= 0] *)
Definition hash_step (hash : Z) (chr : N) : Z :=
  to_int32 (to_int32 (Z.shiftl hash 5) - hash + Z.of_N chr).

Definition digit36 (n : N) : N := (if n <? 10 then 48 + n else 87 + n)%N.

Fixpoint digits36 (fuel : nat) (n : N) (acc : str) : str :=
  match fuel with
  | O => acc
  | S f => let acc' := digit36 (n mod 36) :: acc in
           if (n <? 36)%N then acc' else digits36 f (n / 36)%N acc'
  end.

(** [hash.toString(36)] of a 32-bit integer: seven digits are enough. *)
Definition to_string36 (z : Z) : str :=
  if (z <? 0)%Z then 45%N :: digits36 7 (Z.to_N (- z)) [] else digits36 7 (Z.to_N z) [].

Definition hashString (input : str) : str :=
  match input with [] => js "0" | _ => to_string36 (fold_left hash_step input 0%Z) end.

(** [(v || '').trim()]: a truthy value that is not a string has no [trim]. *)
Definition trimmed_field (k : string) (item : obj) : outcome str :=
  if json_truthy (obj_get (js k) item)
  then match obj_get (js k) item with Some (JStr s) => Ret (trim s) | _ => Throw end
  else Ret [].

(** [v || ''] *)
Definition plain_field (k : string) (item : obj) : json :=
  match obj_get (js k) item with
  | Some v => if json_truthy (Some v) then v else JStr []
  | None => JStr []
  end.

Definition fingerprint (item : obj) : outcome str :=
  content ← trimmed_field "content" item;
  extra ← trimmed_field "extra" item;
  title ← trimmed_field "title" item;
  link ← trimmed_field "link" item;
  Ret (json_stringify (JObj [(js "publishDate", plain_field "publishDate" item); (js "content", JStr content);
                             (js "extra", JStr extra); (js "type", plain_field "type" item);
                             (js "title", JStr title); (js "link", JStr link)])).

(** An announcement is an object, or [null], which the code checks for. *)
Definition getAnnouncementKey (item : option obj) : outcome str :=
  match item with
  | None => Ret []
  | Some o =>
      match obj_get (js "id") o with
      | None | Some JNull => print ← fingerprint o; Ret (js "hash:" ++ hashString print)
      | Some id => Ret (js "id:" ++ json_to_string id)
      end
  end.

(** ** The text of a desktop notification *)

(** [/<[^>]*>/g] *)
Definition TAG_RE : regex :=
  rseq [RChar (N.eqb 60); rstar (RChar (λ c, negb (c =? 62)%N)); RChar (N.eqb 62)].

(** The characters [#*_`>[]()~-] *)
Definition is_markup (c : N) : bool :=
  bool_decide (c ∈ [35; 42; 95; 96; 62; 91; 93; 40; 41; 126; 45]%N).

Definition MARKUP_RE : regex := RChar is_markup.

Definition SPACES_RE : regex := rplus (RChar is_space).

(** Reading a property of [null] throws. *)
Definition getAnnouncementPlainText (item : option obj) : outcome str :=
  match item with
  | None => Throw
  | Some o =>
      let content := match truthy_text (obj_get (js "content") o) with
                     | Some s => s
                     | None => default [] (truthy_text (obj_get (js "extra") o))
                     end in
      let s1 := replace_all TAG_RE (js " ") content in
      let s2 := replace_all MARKUP_RE (js " ") s1 in
      let s3 := replace_all SPACES_RE (js " ") s2 in
      Ret (take 180 (trim s3))
  end.

(** ** The hook *)

Inductive Tab := notice_tab | announcements_tab.

#[export] Instance Tab_eq_dec : EqDecision Tab.
Proof. solve_decision. Defined.

Inductive DesktopNotificationPermission := perm_default | granted | denied | unsupported.

#[export] Instance permission_eq_dec : EqDecision DesktopNotificationPermission.
Proof. solve_decision. Defined.

(** An announcement with its key. *)
Record Announcement := { a_item : option obj; a_key : str }.

Record DesktopNotification := { dn_count : nat; dn_body : str; dn_keys : list str }.

Record Page := {
  store : NotificationState;
  popoverOpen : bool;
  activeTab : Tab;
  dismissedAnnouncementDialogKey : option str;
  desktopNotificationPermission : DesktopNotificationPermission;
  statusLoading : bool;
  noticeContent : str;
  announcements : list Announcement;
  delivered : list DesktopNotification   (** what the operating system was given, oldest first *)
}.

Definition unreadAnnouncements (p : Page) : list Announcement :=
  List.filter (λ a, negb (isAnnouncementRead (a_key a) (store p))) (announcements p).

Definition unread_notice (p : Page) : nat :=
  if truthy (noticeContent p) && negb (bool_decide (noticeContent p = lastReadNotice (store p))) then 1 else 0.

Definition unread_total (p : Page) : nat := unread_notice p + length (unreadAnnouncements p).

Definition announcementDialogKey (p : Page) : str :=
  join (js "|") (List.filter truthy (map a_key (unreadAnnouncements p))).

Definition announcementDialogOpen (p : Page) : bool :=
  negb (statusLoading p) && truthy (announcementDialogKey p) &&
  negb (bool_decide (dismissedAnnouncementDialogKey p = Some (announcementDialogKey p))).

Definition with_store (s : NotificationState) (p : Page) : Page :=
  {| store := s; popoverOpen := popoverOpen p; activeTab := activeTab p;
     dismissedAnnouncementDialogKey := dismissedAnnouncementDialogKey p;
     desktopNotificationPermission := desktopNotificationPermission p; statusLoading := statusLoading p;
     noticeContent := noticeContent p; announcements := announcements p; delivered := delivered p |}.

Definition with_popover (b : bool) (p : Page) : Page :=
  {| store := store p; popoverOpen := b; activeTab := activeTab p;
     dismissedAnnouncementDialogKey := dismissedAnnouncementDialogKey p;
     desktopNotificationPermission := desktopNotificationPermission p; statusLoading := statusLoading p;
     noticeContent := noticeContent p; announcements := announcements p; delivered := delivered p |}.

Definition with_tab (t : Tab) (p : Page) : Page :=
  {| store := store p; popoverOpen := popoverOpen p; activeTab := t;
     dismissedAnnouncementDialogKey := dismissedAnnouncementDialogKey p;
     desktopNotificationPermission := desktopNotificationPermission p; statusLoading := statusLoading p;
     noticeContent := noticeContent p; announcements := announcements p; delivered := delivered p |}.

Definition with_dismissed (k : option str) (p : Page) : Page :=
  {| store := store p; popoverOpen := popoverOpen p; activeTab := activeTab p;
     dismissedAnnouncementDialogKey := k;
     desktopNotificationPermission := desktopNotificationPermission p; statusLoading := statusLoading p;
     noticeContent := noticeContent p; announcements := announcements p; delivered := delivered p |}.

Definition with_permission (d : DesktopNotificationPermission) (p : Page) : Page :=
  {| store := store p; popoverOpen := popoverOpen p; activeTab := activeTab p;
     dismissedAnnouncementDialogKey := dismissedAnnouncementDialogKey p;
     desktopNotificationPermission := d; statusLoading := statusLoading p;
     noticeContent := noticeContent p; announcements := announcements p; delivered := delivered p |}.

Definition with_delivered (n : DesktopNotification) (p : Page) : Page :=
  {| store := store p; popoverOpen := popoverOpen p; activeTab := activeTab p;
     dismissedAnnouncementDialogKey := dismissedAnnouncementDialogKey p;
     desktopNotificationPermission := desktopNotificationPermission p; statusLoading := statusLoading p;
     noticeContent := noticeContent p; announcements := announcements p; delivered := delivered p ++ [n] |}.

Definition keyed (item : option obj) : outcome Announcement :=
  key ← getAnnouncementKey item; Ret {| a_item := item; a_key := key |}.

Fixpoint keyed_all (items : list (option obj)) : outcome (list Announcement) :=
  match items with
  | [] => Ret []
  | item :: rest => a ← keyed item; l ← keyed_all rest; Ret (a :: l)
  end.

(** The first twenty announcements of the status, none when they are disabled. *)
Definition with_status (loading enabled : bool) (items : list (option obj)) (p : Page) : outcome Page :=
  l ← keyed_all (if enabled then take 20 items else []);
  Ret {| store := store p; popoverOpen := popoverOpen p; activeTab := activeTab p;
         dismissedAnnouncementDialogKey := dismissedAnnouncementDialogKey p;
         desktopNotificationPermission := desktopNotificationPermission p; statusLoading := loading;
         noticeContent := noticeContent p; announcements := l; delivered := delivered p |}.

(** The notice of a successful response. *)
Definition with_notice (success : bool) (data : str) (p : Page) : Page :=
  {| store := store p; popoverOpen := popoverOpen p; activeTab := activeTab p;
     dismissedAnnouncementDialogKey := dismissedAnnouncementDialogKey p;
     desktopNotificationPermission := desktopNotificationPermission p; statusLoading := statusLoading p;
     noticeContent := if success then trim data else []; announcements := announcements p; delivered := delivered p |}.

Definition markAnnouncementsAsRead (p : Page) : Page :=
  match announcements p with
  | [] => p
  | l => with_store (markAnnouncementsRead (map a_key l) (store p)) p
  end.

Definition closeAnnouncementDialog (p : Page) : Page :=
  let unread := unreadAnnouncements p in
  let p' := with_dismissed (Some (announcementDialogKey p)) p in
  match unread with
  | [] => p'
  | _ => with_store (markAnnouncementsRead (map a_key unread) (store p)) p'
  end.

Definition handleOpenPopover (tab : option Tab) (p : Page) : Page :=
  let nextTab := default (activeTab p) tab in
  let p1 := if truthy (noticeContent p) then with_store (markNoticeRead (noticeContent p) (store p)) p else p in
  let p2 := if bool_decide (nextTab = announcements_tab) then markAnnouncementsAsRead p1 else p1 in
  with_popover true (with_tab nextTab p2).

Definition handlePopoverOpenChange (open : bool) (p : Page) : Page :=
  if open then handleOpenPopover (Some (activeTab p)) p else with_popover false p.

Definition handleTabChange (tab : Tab) (p : Page) : Page :=
  let p' := with_tab tab p in
  if bool_decide (tab = announcements_tab) then markAnnouncementsAsRead p' else p'.

Definition setAnnouncementDialogOpen (open : bool) (p : Page) : Page :=
  if open then with_dismissed None p else closeAnnouncementDialog p.

(** [current] is what the browser reports and [answer] what the user chooses. *)
Definition requestDesktopNotifications (current answer : DesktopNotificationPermission) (p : Page) : Page :=
  match current with
  | unsupported => p
  | denied => with_permission denied p
  | _ => with_permission answer p
  end.

(** The effect that hands unread announcements to the operating system; [accepted] says whether
    the constructor of the notification returns. *)
Definition notify_effect (accepted : bool) (p : Page) : Page :=
  if statusLoading p || negb (bool_decide (desktopNotificationPermission p = granted)) then p
  else
    let pending := List.filter (λ a, negb (isAnnouncementNotified (a_key a) (store p))) (unreadAnnouncements p) in
    match pending with
    | [] => p
    | latest :: _ =>
        match getAnnouncementPlainText (a_item latest) with
        | Ret body =>
            if accepted
            then let keys := map a_key pending in
                 with_store (markAnnouncementsNotified keys (store p))
                   (with_delivered {| dn_count := length pending; dn_body := body; dn_keys := keys |} p)
            else p
        | Throw => p
        end
    end.

Inductive Event :=
  | StatusArrives (loading enabled : bool) (items : list (option obj))
  | NoticeArrives (success : bool) (data : str)
  | OpenPopover (tab : option Tab)
  | PopoverOpenChange (open : bool)
  | TabChange (tab : Tab)
  | SetDialogOpen (open : bool)
  | RequestPermission (current answer : DesktopNotificationPermission)
  | SyncPermission (current : DesktopNotificationPermission)
  | NotifyEffect (accepted : bool)
  | ClickNotification.

Definition step (p : Page) (e : Event) : outcome Page :=
  match e with
  | StatusArrives loading enabled items => with_status loading enabled items p
  | NoticeArrives success data => Ret (with_notice success data p)
  | OpenPopover tab => Ret (handleOpenPopover tab p)
  | PopoverOpenChange open => Ret (handlePopoverOpenChange open p)
  | TabChange tab => Ret (handleTabChange tab p)
  | SetDialogOpen open => Ret (setAnnouncementDialogOpen open p)
  | RequestPermission current answer => Ret (requestDesktopNotifications current answer p)
  | SyncPermission current => Ret (with_permission current p)
  | NotifyEffect accepted => Ret (notify_effect accepted p)
  | ClickNotification => Ret (with_dismissed None p)
  end.

Fixpoint run (p : Page) (es : list Event) : outcome Page :=
  match es with [] => Ret p | e :: es' => q ← step p e; run q es' end.

(** The page when it is opened, with what an earlier session has stored. *)
Definition opened (s : NotificationState) (d : DesktopNotificationPermission) : Page :=
  {| store := s; popoverOpen := false; activeTab := notice_tab; dismissedAnnouncementDialogKey := None;
     desktopNotificationPermission := d; statusLoading := true; noticeContent := []; announcements := [];
     delivered := [] |}.
