(* ===== verification/NotificationFacts.v ===== *)
(** * Correctness of the notifications

    The store implements sets; the content hash is the polynomial hash modulo 2^32; no key is
    handed to the operating system twice; the announcement dialog is open exactly while there is
    something to read. *)

From stdpp Require Import gmap.
From S2P Require Import Prelude JsString Regex JsNumber Json Notifications.

(** ** The store as sets *)

Inductive Action :=
  | MarkNoticeRead (content : str)
  | MarkAnnouncementsRead (keys : list str)
  | MarkAnnouncementsNotified (keys : list str)
  | SetClosedUntilDate (date : option str).

Definition perform (s : NotificationState) (a : Action) : NotificationState :=
  match a with
  | MarkNoticeRead c => markNoticeRead c s
  | MarkAnnouncementsRead ks => markAnnouncementsRead ks s
  | MarkAnnouncementsNotified ks => markAnnouncementsNotified ks s
  | SetClosedUntilDate d => setClosedUntilDate d s
  end.

Module Spec.

(** What the store promises: a notice, two sets of keys and a date. *)
Record state := { notice : str; seen : gset str; told : gset str; closed : option str }.

Definition perform (s : state) (a : Action) : state :=
  match a with
  | MarkNoticeRead c => {| notice := trim c; seen := seen s; told := told s; closed := closed s |}
  | MarkAnnouncementsRead ks =>
      {| notice := notice s; seen := seen s ∪ list_to_set ks; told := told s; closed := closed s |}
  | MarkAnnouncementsNotified ks =>
      {| notice := notice s; seen := seen s; told := told s ∪ list_to_set ks; closed := closed s |}
  | SetClosedUntilDate d => {| notice := notice s; seen := seen s; told := told s; closed := d |}
  end.

End Spec.

Definition abs (s : NotificationState) : Spec.state :=
  {| Spec.notice := lastReadNotice s; Spec.seen := list_to_set (readAnnouncementKeys s);
     Spec.told := list_to_set (notifiedAnnouncementKeys s); Spec.closed := closedUntilDate s |}.

Definition store_ok (s : NotificationState) : Prop :=
  NoDup (readAnnouncementKeys s) ∧ NoDup (notifiedAnnouncementKeys s).

Lemma list_to_set_array (l : list str) : list_to_set (C := gset str) (array_of_set l) = list_to_set l.
Proof. apply set_eq. intros x. by rewrite !elem_of_list_to_set, elem_of_array_of_set. Qed.

Lemma abs_perform s a : abs (perform s a) = Spec.perform (abs s) a.
Proof. destruct a; unfold abs; cbn; rewrite ?list_to_set_array, ?list_to_set_app_L; reflexivity. Qed.

Lemma perform_ok s a : store_ok s → store_ok (perform s a).
Proof. intros [H1 H2]. destruct a; split; cbn; (exact H1 || exact H2 || apply array_of_set_NoDup). Qed.

(** C38: The persisted arrays implement sets: after any sequence of actions the store is the
    abstract state after the same actions, the queries answer membership in its sets, and no key is stored
    twice, so the arrays stay as small as the sets. *)
Theorem store_refines_sets (s : NotificationState) (actions : list Action) (Hs : store_ok s) :
  let s' := fold_left perform actions s in
  let spec := fold_left Spec.perform actions (abs s) in
  abs s' = spec ∧
  (∀ k, isAnnouncementRead k s' = bool_decide (k ∈ Spec.seen spec)) ∧
  (∀ k, isAnnouncementNotified k s' = bool_decide (k ∈ Spec.told spec)) ∧
  length (readAnnouncementKeys s') = size (Spec.seen spec) ∧
  length (notifiedAnnouncementKeys s') = size (Spec.told spec).
Proof.
  cbv zeta.
  assert (abs (fold_left perform actions s) = fold_left Spec.perform actions (abs s) ∧
          store_ok (fold_left perform actions s)) as [<- [H1 H2]].
  { clear -Hs. revert s Hs. induction actions as [|a l IH]; intros s Hs; [done|]. cbn [fold_left].
    rewrite <- abs_perform. apply IH, perform_ok, Hs. }
  split_and!; [done|intros k|intros k|..].
  - apply bool_decide_ext. cbn. by rewrite elem_of_list_to_set.
  - apply bool_decide_ext. cbn. by rewrite elem_of_list_to_set.
  - cbn. by rewrite size_list_to_set.
  - cbn. by rewrite size_list_to_set.
Qed.

Lemma store_refines_sets_witness :
  store_ok initial_store ∧
  length (readAnnouncementKeys
    (fold_left perform [MarkAnnouncementsRead [js "id:1"; js "id:2"]; MarkAnnouncementsRead [js "id:2"]] initial_store)) =
  size (Spec.seen
    (fold_left Spec.perform [MarkAnnouncementsRead [js "id:1"; js "id:2"]; MarkAnnouncementsRead [js "id:2"]] (abs initial_store))).
Proof.
  assert (store_ok initial_store) as H by (split; constructor). split; [exact H|].
  exact (proj1 (proj2 (proj2 (proj2 (store_refines_sets initial_store
    [MarkAnnouncementsRead [js "id:1"; js "id:2"]; MarkAnnouncementsRead [js "id:2"]] H))))).
Defined.

(** ** The content hash *)

(** The polynomial of a text at 31. *)
Fixpoint poly (s : str) : Z :=
  match s with [] => 0%Z | c :: s' => (Z.of_N c * 31 ^ Z.of_nat (length s') + poly s')%Z end.

Lemma to_int32_range z : (- 2 ^ 31 ≤ to_int32 z < 2 ^ 31)%Z.
Proof.
  unfold to_int32. pose proof (Z.mod_pos_bound z (2 ^ 32) ltac:(lia)) as H.
  destruct (Z.ltb_spec (z mod 2 ^ 32) (2 ^ 31)); lia.
Qed.

Lemma to_int32_congr z : ∃ q, to_int32 z = (z + q * 2 ^ 32)%Z.
Proof.
  unfold to_int32. pose proof (Z.div_mod z (2 ^ 32) ltac:(lia)) as H.
  destruct (Z.ltb_spec (z mod 2 ^ 32) (2 ^ 31)); [exists (- (z / 2 ^ 32))%Z|exists (- (z / 2 ^ 32) - 1)%Z]; lia.
Qed.

Lemma to_int32_eq z w : to_int32 z = to_int32 w ↔ (z mod 2 ^ 32 = w mod 2 ^ 32)%Z.
Proof.
  split.
  - intros H. destruct (to_int32_congr z) as [q Hq], (to_int32_congr w) as [r Hr].
    rewrite <- (Z.mod_add z q (2 ^ 32)), <- (Z.mod_add w r (2 ^ 32)) by lia. by rewrite <- Hq, <- Hr, H.
  - intros H. unfold to_int32. by rewrite H.
Qed.

Lemma hash_step_eq h c : hash_step h c = to_int32 (31 * h + Z.of_N c).
Proof.
  unfold hash_step. apply to_int32_eq. rewrite Z.shiftl_mul_pow2 by lia.
  destruct (to_int32_congr (h * 2 ^ 5)) as [q ->].
  replace (h * 2 ^ 5 + q * 2 ^ 32 - h + Z.of_N c)%Z with (31 * h + Z.of_N c + q * 2 ^ 32)%Z by lia.
  apply Z.mod_add. lia.
Qed.

Lemma hash_fold s h : fold_left hash_step s (to_int32 h) = to_int32 (h * 31 ^ Z.of_nat (length s) + poly s).
Proof.
  revert h. induction s as [|c s IH]; intros h; cbn [fold_left poly length]; [f_equal; lia|].
  rewrite hash_step_eq.
  replace (to_int32 (31 * to_int32 h + Z.of_N c)) with (to_int32 (31 * h + Z.of_N c)).
  - rewrite IH. f_equal. rewrite Nat2Z.inj_succ, Z.pow_succ_r by lia. ring.
  - apply to_int32_eq. destruct (to_int32_congr h) as [q ->].
    replace (31 * (h + q * 2 ^ 32) + Z.of_N c)%Z with (31 * h + Z.of_N c + (31 * q) * 2 ^ 32)%Z by ring.
    by rewrite Z.mod_add by lia.
Qed.

Definition value36 (c : N) : N := (if c <? 58 then c - 48 else c - 87)%N.
Definition read36 (s : str) (acc : N) : N := fold_left (λ a c, a * 36 + value36 c)%N s acc.

Lemma value36_digit n : (n < 36)%N → value36 (digit36 n) = n.
Proof.
  intros H. unfold value36, digit36. destruct (N.ltb_spec n 10); [|].
  - destruct (N.ltb_spec (48 + n) 58); lia.
  - destruct (N.ltb_spec (87 + n) 58); lia.
Qed.

Lemma read36_digits fuel n acc :
  (n < 36 ^ N.of_nat fuel)%N → fuel ≠ 0 → read36 (digits36 fuel n acc) 0 = read36 acc n.
Proof.
  revert n acc. induction fuel as [|f IH]; intros n acc Hn Hf; [done|].
  pose proof (N.mod_lt n 36 ltac:(done)) as Hm. pose proof (N.Div0.div_mod n 36) as Hd.
  cbn [digits36]. destruct (N.ltb_spec n 36) as [Hlt|Hge].
  - unfold read36. cbn [fold_left]. rewrite value36_digit by done. by rewrite N.mod_small by done.
  - destruct f as [|f]; [simpl in Hn; lia|].
    rewrite IH; [|apply N.Div0.div_lt_upper_bound; rewrite Nat2N.inj_succ, N.pow_succ_r' in Hn; lia|done].
    unfold read36. cbn [fold_left]. rewrite value36_digit by done. f_equal. lia.
Qed.

Lemma digits36_no_minus n acc : head (digits36 7 n acc) ≠ Some 45%N.
Proof.
  assert (∀ m, digit36 m ≠ 45%N) as Hd.
  { intros m. unfold digit36. destruct (N.ltb_spec m 10); lia. }
  assert (∀ fuel n d acc, d ≠ 45%N → head (digits36 fuel n (d :: acc)) ≠ Some 45%N) as H.
  { clear -Hd. induction fuel as [|f IH]; intros n d acc H; cbn [digits36]; [cbn; congruence|].
    destruct (n <? 36)%N; [cbn; by intros [= E%Hd]|by apply IH]. }
  cbn [digits36]. destruct (n <? 36)%N; [cbn; by intros [= E%Hd]|by apply (H 6)].
Qed.

(** A 32-bit integer is recovered from its digits. *)
Lemma to_string36_inj z w :
  (- 2 ^ 31 ≤ z < 2 ^ 31)%Z → (- 2 ^ 31 ≤ w < 2 ^ 31)%Z → to_string36 z = to_string36 w → z = w.
Proof.
  intros Hz Hw. unfold to_string36.
  assert (∀ a b, (a < 2 ^ 32)%N → (b < 2 ^ 32)%N → digits36 7 a [] = digits36 7 b [] → a = b) as Hinj.
  { intros a b Ha Hb E. apply (f_equal (λ s, read36 s 0)) in E.
    rewrite !read36_digits in E by (done || (cbn; lia)). exact E. }
  destruct (Z.ltb_spec z 0), (Z.ltb_spec w 0); intros E.
  - injection E as E. apply Hinj in E; lia.
  - destruct (digits36_no_minus (Z.to_N w) []). by rewrite <- E.
  - destruct (digits36_no_minus (Z.to_N z) []). by rewrite E.
  - apply Hinj in E; lia.
Qed.

Lemma hashString_poly s : hashString s = to_string36 (to_int32 (poly s)).
Proof.
  unfold hashString. destruct s as [|c s]; [reflexivity|].
  change 0%Z with (to_int32 0). by rewrite hash_fold, Z.mul_0_l, Z.add_0_l.
Qed.

(** The content hash is the polynomial hash of the text at 31, modulo 2^32: the loop on
    32-bit integers computes it without error, and two texts have the same hash exactly when their
    polynomials agree modulo 2^32. *)
Theorem content_hash_exact (s t : str) :
  hashString s = to_string36 (to_int32 (poly s)) ∧ (- 2 ^ 31 ≤ to_int32 (poly s) < 2 ^ 31)%Z ∧
  (hashString s = hashString t ↔ (poly s mod 2 ^ 32 = poly t mod 2 ^ 32)%Z).
Proof.
  split; [apply hashString_poly|]. split; [apply to_int32_range|]. rewrite !hashString_poly, <- to_int32_eq.
  split; [|by intros ->]. apply to_string36_inj; apply to_int32_range.
Qed.

(** An announcement without an id. *)
Definition anonymous (content : str) : option obj := Some [(js "content", JStr content)].

(** Keys of announcements without an id are not unique: two different contents with the same hash
    share a key, so reading the first hides the second for ever. *)
Theorem hash_collision_hides_announcement :
  match getAnnouncementKey (anonymous (js "Aa")) with
  | Ret k => getAnnouncementKey (anonymous (js "BB")) = Ret k ∧
             isAnnouncementRead k (markAnnouncementsRead [k] initial_store) = true
  | Throw => False
  end.
Proof. vm_compute. split; reflexivity. Qed.

(** ** The text of a notification *)

(** The body of a desktop notification is plain and short: for every announcement there is one, of at
    most 180 code units and without any of the markup characters. *)
Theorem notification_text_plain (o : obj) :
  ∃ body, getAnnouncementPlainText (Some o) = Ret body ∧ length body ≤ 180 ∧
          Forall (λ c, is_markup c = false) body.
Proof.
  eexists. split; [reflexivity|]. split; [rewrite length_take; lia|].
  apply Forall_take, Forall_forall. intros c Hc%elem_of_trim. revert c Hc. apply Forall_forall.
  apply replace_all_Forall; [cbn; tauto|by repeat constructor|]. apply replace_char_none. by repeat constructor.
Qed.

(** ** Runs of the hook *)

(** The announcements of an event have keys, and the keys satisfy [P]. *)
Definition event_ok (P : str → Prop) (e : Event) : Prop :=
  match e with
  | StatusArrives _ _ items => Forall (λ item, ∃ k, getAnnouncementKey item = Ret k ∧ P k) items
  | _ => True
  end.

Lemma keyed_all_ok P items :
  Forall (λ item, ∃ k, getAnnouncementKey item = Ret k ∧ P k) items →
  ∃ l, keyed_all items = Ret l ∧ Forall (λ a, P (a_key a)) l.
Proof.
  induction 1 as [|item items (k & Hk & HP) _ (l & Hl & Hf)]; [by exists []|].
  exists ({| a_item := item; a_key := k |} :: l). split; [|constructor; [exact HP|exact Hf]].
  cbn [keyed_all]. unfold keyed. rewrite Hk. cbn. by rewrite Hl.
Qed.

Definition keys_ok (P : str → Prop) (p : Page) : Prop := Forall (λ a, P (a_key a)) (announcements p).

(** Handlers change what is read and shown, never what has arrived. *)
Lemma mark_all_arrived p : announcements (markAnnouncementsAsRead p) = announcements p ∧
  noticeContent (markAnnouncementsAsRead p) = noticeContent p.
Proof. unfold markAnnouncementsAsRead. by destruct (announcements p) eqn:E; cbn [announcements with_store noticeContent]. Qed.

Lemma step_ok P p e : event_ok P e → keys_ok P p → ∃ q, step p e = Ret q ∧ keys_ok P q.
Proof.
  intros He Hp. destruct e as [loading enabled items|success data|tab|open|tab|open|current answer|current|accepted|];
    cbn [step]; try (eexists; split; [reflexivity|]).
  - cbn in He. assert (Forall (λ item, ∃ k, getAnnouncementKey item = Ret k ∧ P k) (if enabled then take 20 items else [])) as H.
    { destruct enabled; [by apply Forall_take|done]. }
    apply keyed_all_ok in H as (l & Hl & Hf). unfold with_status. rewrite Hl. eexists. split; [reflexivity|exact Hf].
  - exact Hp.
  - unfold keys_ok, handleOpenPopover. cbv zeta. cbn [announcements with_popover with_tab].
    case_bool_decide; [rewrite (proj1 (mark_all_arrived _))|]; by destruct (truthy _).
  - unfold handlePopoverOpenChange. destruct open; [|exact Hp]. unfold keys_ok, handleOpenPopover. cbv zeta.
    cbn [announcements with_popover with_tab]. case_bool_decide; [rewrite (proj1 (mark_all_arrived _))|]; by destruct (truthy _).
  - unfold keys_ok, handleTabChange. case_bool_decide; [rewrite (proj1 (mark_all_arrived _))|]; exact Hp.
  - unfold setAnnouncementDialogOpen, closeAnnouncementDialog. destruct open; [exact Hp|]. cbv zeta.
    destruct (unreadAnnouncements p); exact Hp.
  - destruct current; exact Hp.
  - exact Hp.
  - unfold keys_ok, notify_effect. destruct (_ || _); [exact Hp|]. cbv zeta. destruct (List.filter _ _); [exact Hp|].
    destruct (getAnnouncementPlainText _); [|exact Hp]. destruct accepted; exact Hp.
  - exact Hp.
Qed.

Abbreviation read_keys p := (readAnnouncementKeys (store p)).
Abbreviation told_keys p := (notifiedAnnouncementKeys (store p)).

(** What was read stays read, and nothing was handed to the operating system. *)
Definition quiet (p q : Page) : Prop :=
  delivered q = delivered p ∧ told_keys q = told_keys p ∧ read_keys p ⊆ read_keys q.

Lemma quiet_refl p : quiet p p.
Proof. done. Qed.

Lemma quiet_trans p q r : quiet p q → quiet q r → quiet p r.
Proof. intros (H1 & H2 & H3) (H4 & H5 & H6). split_and!; [congruence|congruence|set_solver]. Qed.

Lemma read_more_quiet ks p : quiet p (with_store (markAnnouncementsRead ks (store p)) p).
Proof. split_and!; [done|done|]. intros k Hk. apply elem_of_array_of_set, elem_of_app. by left. Qed.

Lemma mark_all_quiet p : quiet p (markAnnouncementsAsRead p).
Proof. unfold markAnnouncementsAsRead. destruct (announcements p); [apply quiet_refl|apply read_more_quiet]. Qed.

Lemma close_quiet p : quiet p (closeAnnouncementDialog p).
Proof.
  unfold closeAnnouncementDialog. cbv zeta. destruct (unreadAnnouncements p) as [|a l]; [by split_and!|].
  exact (read_more_quiet (map a_key (a :: l)) (with_dismissed (Some (announcementDialogKey p)) p)).
Qed.

Lemma open_quiet tab p : quiet p (handleOpenPopover tab p).
Proof.
  unfold handleOpenPopover. cbv zeta. set (p1 := if truthy _ then _ else p).
  assert (quiet p p1) as H by (unfold p1; by destruct (truthy _)).
  eapply quiet_trans; [exact H|]. case_bool_decide; [exact (mark_all_quiet p1)|by split_and!].
Qed.

Lemma step_quiet p e q : step p e = Ret q → match e with NotifyEffect _ => True | _ => quiet p q end.
Proof.
  destruct e as [loading enabled items|success data|tab|open|tab|open|current answer|current|accepted|]; cbn [step].
  - unfold with_status. destruct (keyed_all _); [|done]. by intros [= <-].
  - by intros [= <-].
  - intros [= <-]. apply open_quiet.
  - intros [= <-]. unfold handlePopoverOpenChange. destruct open; [apply open_quiet|done].
  - intros [= <-]. unfold handleTabChange. case_bool_decide; [exact (mark_all_quiet (with_tab tab p))|done].
  - intros [= <-]. unfold setAnnouncementDialogOpen. destruct open; [done|apply close_quiet].
  - intros [= <-]. by destruct current.
  - by intros [= <-].
  - done.
  - by intros [= <-].
Qed.

(** The notifier delivers announcements that are neither read nor delivered, and remembers them. *)
Lemma notify_effect_cases accepted p :
  notify_effect accepted p = p ∨
  ∃ n, delivered (notify_effect accepted p) = delivered p ++ [n] ∧ read_keys (notify_effect accepted p) = read_keys p ∧
       (∀ k, k ∈ told_keys (notify_effect accepted p) ↔ k ∈ told_keys p ∨ k ∈ dn_keys n) ∧
       (∀ k, k ∈ dn_keys n → k ∉ told_keys p ∧ k ∉ read_keys p).
Proof.
  unfold notify_effect. destruct (_ || _); [by left|]. cbv zeta.
  destruct (List.filter _ _) as [|latest pending] eqn:E; [by left|].
  destruct (getAnnouncementPlainText _) as [body|]; [|by left]. destruct accepted; [|by left].
  right. eexists. split_and!; [reflexivity|reflexivity|intros k; cbn [store with_store notifiedAnnouncementKeys markAnnouncementsNotified]|].
  - by rewrite elem_of_array_of_set, elem_of_app.
  - cbn [dn_keys]. rewrite <- E. intros k (a & -> & Ha)%elem_of_lmap.
    apply elem_of_bfilter in Ha as [Ha Hn]. apply elem_of_bfilter in Ha as [_ Hr].
    unfold isAnnouncementNotified, isAnnouncementRead in *. breflect. done.
Qed.

(** Nothing is delivered twice, nor anything an earlier session has delivered or read. *)
Definition told_inv (s : NotificationState) (p : Page) : Prop :=
  (∀ k, k ∈ readAnnouncementKeys s → k ∈ read_keys p) ∧
  (∀ k, k ∈ told_keys p ↔ k ∈ notifiedAnnouncementKeys s ∨ ∃ n, n ∈ delivered p ∧ k ∈ dn_keys n) ∧
  (∀ i n k, delivered p !! i = Some n → k ∈ dn_keys n →
     k ∉ notifiedAnnouncementKeys s ∧ k ∉ readAnnouncementKeys s ∧
     ∀ j m, j < i → delivered p !! j = Some m → k ∉ dn_keys m).

Lemma told_inv_quiet s p q : quiet p q → told_inv s p → told_inv s q.
Proof.
  intros (Hd & Ht & Hr) (H1 & H2 & H3). unfold told_inv. rewrite Hd, Ht. split_and!; [|exact H2|exact H3].
  intros k Hk. by apply Hr, H1.
Qed.

Lemma told_inv_notify s accepted p : told_inv s p → told_inv s (notify_effect accepted p).
Proof.
  intros (H1 & H2 & H3). destruct (notify_effect_cases accepted p) as [->|(n & Hd & Hr & Ht & Hn)]; [done|].
  unfold told_inv. rewrite Hd, Hr. split_and!; [exact H1| |].
  - intros k. rewrite Ht, H2. setoid_rewrite elem_of_app. setoid_rewrite list_elem_of_singleton. naive_solver.
  - intros i m k Hi Hk. apply lookup_app_Some in Hi as [Hi|[Hlen Hi]].
    + destruct (H3 i m k Hi Hk) as (Ha & Hb & Hc). split_and!; [done|done|]. intros j m' Hj Hm'. apply (Hc j); [done|].
      apply lookup_lt_Some in Hi. by rewrite lookup_app_l in Hm' by lia.
    + apply list_lookup_singleton_Some in Hi as [Hi ->]. destruct (Hn k Hk) as [Hnt Hnr]. rewrite H2 in Hnt. split_and!.
      * tauto.
      * intros Hs. by apply Hnr, H1.
      * intros j m' Hj Hm' Hk'. apply Hnt. right. exists m'. split; [|done].
        rewrite lookup_app_l in Hm' by lia. by apply list_elem_of_lookup_2 in Hm'.
Qed.

Lemma step_told_inv s p e q : step p e = Ret q → told_inv s p → told_inv s q.
Proof.
  intros Hstep Hp. pose proof (step_quiet p e q Hstep) as Hq. destruct e; try (by eapply told_inv_quiet).
  cbn in Hstep. injection Hstep as <-. by apply told_inv_notify.
Qed.

(** An invariant of the steps holds in the page every run ends with. *)
Lemma run_inv (P : str → Prop) (I : Page → Prop) p es :
  (∀ p e q, event_ok P e → keys_ok P p → step p e = Ret q → I p → I q) →
  Forall (event_ok P) es → keys_ok P p → I p → ∃ q, run p es = Ret q ∧ keys_ok P q ∧ I q.
Proof.
  intros Hstep Hes. revert p. induction Hes as [|e es He Hes IH]; intros p Hk Hp; [by exists p|].
  destruct (step_ok P p e He Hk) as (q & Hq & Hkq). destruct (IH q Hkq (Hstep _ _ _ He Hk Hq Hp)) as (r & Hr & HI).
  exists r. split; [|exact HI]. cbn [run]. by rewrite Hq.
Qed.

(** C36: No announcement is handed to the operating system twice: along every run of the page, whatever the
    order of refreshes, permission changes and effects, two notifications share no announcement, and none
    of them is one that an earlier session has delivered or the user has read. *)
Theorem announced_once (s : NotificationState) (d : DesktopNotificationPermission) (es : list Event)
  (Hes : Forall (event_ok (λ _, True)) es) :
  ∃ p, run (opened s d) es = Ret p ∧
  ∀ i n k, delivered p !! i = Some n → k ∈ dn_keys n →
     k ∉ notifiedAnnouncementKeys s ∧ k ∉ readAnnouncementKeys s ∧
     ∀ j m, j < i → delivered p !! j = Some m → k ∉ dn_keys m.
Proof.
  destruct (run_inv (λ _, True) (told_inv s) (opened s d) es) as (p & Hp & _ & (_ & _ & H)); [| | | |by exists p].
  - intros p e q _ _. apply step_told_inv.
  - done.
  - constructor.
  - unfold told_inv, opened. cbn. split_and!; [done| |done]. intros k. split; [by left|].
    intros [Hk|(n & Hn & _)]; [done|]. by apply not_elem_of_nil in Hn.
Qed.

Definition two_items : list (option obj) :=
  [Some [(js "id", JNum (num_of_Z 1)); (js "content", JStr (js "<b>Hello</b>"))];
   Some [(js "content", JStr (js "maintenance"))]].

Definition sample_run : list Event :=
  [StatusArrives false true two_items; NotifyEffect true; SyncPermission granted; NotifyEffect true;
   StatusArrives false true two_items; NotifyEffect true].

Lemma two_items_ok : Forall (λ item, ∃ k, getAnnouncementKey item = Ret k ∧ 124%N ∉ k) two_items.
Proof.
  repeat constructor; eexists; (split; [vm_compute; reflexivity|]);
    apply (bool_decide_unpack _); vm_compute; exact I.
Qed.

Lemma announced_once_witness :
  Forall (event_ok (λ _, True)) sample_run ∧
  ∃ p, run (opened initial_store perm_default) sample_run = Ret p ∧ length (delivered p) = 1.
Proof.
  assert (Forall (event_ok (λ _, True)) sample_run) as H.
  { repeat constructor; eexists; (split; [vm_compute; reflexivity|exact I]). }
  split; [exact H|].
  destruct (announced_once initial_store perm_default sample_run H) as (p & Hp & _).
  exists p. split; [exact Hp|]. vm_compute in Hp. injection Hp as <-. reflexivity.
Defined.

(** ** The announcement dialog *)

Definition bar : N := 124%N.

Lemma step_dismissed p e q : step p e = Ret q →
  dismissedAnnouncementDialogKey q = dismissedAnnouncementDialogKey p ∨ dismissedAnnouncementDialogKey q = None ∨
  q = closeAnnouncementDialog p.
Proof.
  assert (∀ p, dismissedAnnouncementDialogKey (markAnnouncementsAsRead p) = dismissedAnnouncementDialogKey p) as Hm.
  { intros p0. unfold markAnnouncementsAsRead. by destruct (announcements p0). }
  assert (∀ tab p, dismissedAnnouncementDialogKey (handleOpenPopover tab p) = dismissedAnnouncementDialogKey p) as Ho.
  { intros tab p0. unfold handleOpenPopover. cbv zeta. cbn [dismissedAnnouncementDialogKey with_popover with_tab].
    case_bool_decide; rewrite ?Hm; by destruct (truthy _). }
  destruct e as [loading enabled items|success data|tab|open|tab|open|current answer|current|accepted|]; cbn [step].
  - unfold with_status. destruct (keyed_all _); [|done]. intros [= <-]. by left.
  - intros [= <-]. by left.
  - intros [= <-]. left. apply Ho.
  - intros [= <-]. left. unfold handlePopoverOpenChange. destruct open; [apply Ho|done].
  - intros [= <-]. left. unfold handleTabChange. case_bool_decide; rewrite ?Hm; done.
  - intros [= <-]. right. unfold setAnnouncementDialogOpen. destruct open; [by left|by right].
  - intros [= <-]. left. by destruct current.
  - intros [= <-]. by left.
  - intros [= <-]. left. unfold notify_effect. destruct (_ || _); [done|]. cbv zeta. destruct (List.filter _ _); [done|].
    destruct (getAnnouncementPlainText _); [|done]. by destruct accepted.
  - intros [= <-]. right. by left.
Qed.

Lemma step_reads p e q : step p e = Ret q → read_keys p ⊆ read_keys q.
Proof.
  intros H. pose proof (step_quiet p e q H) as Hq. destruct e; try apply Hq.
  cbn in H. injection H as <-. destruct (notify_effect_cases accepted p) as [->|(n & _ & -> & _)]; done.
Qed.

(** The keys of the unread announcements, as the dialog joins them. *)
Definition unread_keys (p : Page) : list str := List.filter truthy (map a_key (unreadAnnouncements p)).

Lemma elem_of_unread_keys k p : k ∈ unread_keys p →
  k ≠ [] ∧ k ∉ read_keys p ∧ ∃ a, a ∈ unreadAnnouncements p ∧ k = a_key a ∧ a ∈ announcements p.
Proof.
  unfold unread_keys. intros [(a & -> & Ha)%elem_of_lmap Ht]%elem_of_bfilter.
  pose proof Ha as [Hin Hr]%elem_of_bfilter. unfold isAnnouncementRead in Hr. breflect.
  split_and!; [by destruct (a_key a)|done|by exists a].
Qed.

Lemma split_dialog_key p : keys_ok (λ k, bar ∉ k) p → unread_keys p ≠ [] →
  split (js "|") (announcementDialogKey p) = unread_keys p.
Proof.
  intros Hk Hne. change (announcementDialogKey p) with (join [bar] (unread_keys p)). change (js "|") with [bar].
  apply split_join; [done|]. apply Forall_forall. intros k (_ & _ & a & _ & -> & Ha)%elem_of_unread_keys.
  unfold keys_ok in Hk. rewrite Forall_forall in Hk. by apply Hk.
Qed.

(** Every key of the dismissed dialog has been read. *)
Definition dismissed_read (p : Page) : Prop :=
  ∀ k, dismissedAnnouncementDialogKey p = Some k → k ≠ [] → Forall (λ x, x ∈ read_keys p) (split (js "|") k).

Lemma close_dismissed_read p : keys_ok (λ k, bar ∉ k) p → dismissed_read (closeAnnouncementDialog p).
Proof.
  intros Hk k Hd Hne.
  assert (k = announcementDialogKey p) as ->.
  { unfold closeAnnouncementDialog in Hd. cbv zeta in Hd. destruct (unreadAnnouncements p); cbn in Hd; congruence. }
  assert (unread_keys p ≠ []) as Hu by (intros E; apply Hne; unfold announcementDialogKey; unfold unread_keys in E; by rewrite E).
  rewrite split_dialog_key by done. apply Forall_forall. intros x (_ & _ & a & Ha & -> & _)%elem_of_unread_keys.
  unfold closeAnnouncementDialog. cbv zeta. destruct (unreadAnnouncements p) as [|b l] eqn:E; [by apply not_elem_of_nil in Ha|].
  apply elem_of_array_of_set, elem_of_app. right. apply elem_of_lmap. by exists a.
Qed.

Lemma step_dismissed_read p e q :
  keys_ok (λ k, bar ∉ k) p → step p e = Ret q → dismissed_read p → dismissed_read q.
Proof.
  intros Hk Hs Hp. pose proof (step_reads p e q Hs) as Hr.
  destruct (step_dismissed p e q Hs) as [Hd|[Hd| ->]]; [| |by apply close_dismissed_read].
  - intros k Hq Hne. rewrite Hd in Hq. eapply Forall_impl; [by apply Hp|]. intros x. apply Hr.
  - intros k Hq. congruence.
Qed.

Lemma truthy_join l : Forall (λ k, k ≠ []) l → truthy (join (js "|") l) = match l with [] => false | _ => true end.
Proof.
  destruct l as [|k l]; [done|]. intros [Hk _]%Forall_cons. destruct k as [|c k]; [done|].
  destruct l; cbn; reflexivity.
Qed.

(** C37: The announcement dialog is open exactly while there is something to read: in every page a run
    reaches, once the status is loaded, it is open if and only if some announcement that has a key
    is unread. In particular a dismissed dialog never hides a new announcement. *)
Theorem dialog_open_iff_unread (s : NotificationState) (d : DesktopNotificationPermission) (es : list Event)
  (Hes : Forall (event_ok (λ k, bar ∉ k)) es) :
  ∃ p, run (opened s d) es = Ret p ∧
  announcementDialogOpen p = negb (statusLoading p) && existsb (λ a, truthy (a_key a)) (unreadAnnouncements p).
Proof.
  destruct (run_inv (λ k, bar ∉ k) dismissed_read (opened s d) es) as (p & Hp & Hk & Hd); [|exact Hes|constructor|done|].
  { intros p e q _. apply step_dismissed_read. }
  exists p. split; [exact Hp|]. unfold announcementDialogOpen. rewrite <- andb_assoc. f_equal.
  assert (Forall (λ k, k ≠ []) (unread_keys p)) as Hne by (apply Forall_forall; intros k Hin; apply elem_of_unread_keys in Hin; tauto).
  assert (existsb (λ a, truthy (a_key a)) (unreadAnnouncements p) = match unread_keys p with [] => false | _ => true end) as ->.
  { unfold unread_keys. clear. induction (unreadAnnouncements p) as [|a l IH]; [done|]. cbn. by destruct (truthy (a_key a)). }
  change (announcementDialogKey p) with (join (js "|") (unread_keys p)) at 1. rewrite truthy_join by done.
  destruct (unread_keys p) as [|k ks] eqn:E; [done|]. cbn [andb]. rewrite bool_decide_false; [done|]. intros Hdis.
  assert (unread_keys p ≠ []) as Hu by congruence.
  assert (k ∈ read_keys p) as Hr.
  { specialize (Hd _ Hdis). rewrite split_dialog_key, E in Hd by done. apply Forall_cons in Hd as [Hd _]; [done|].
    change (announcementDialogKey p) with (join (js "|") (unread_keys p)). rewrite E. intros Ej.
    pose proof (truthy_join (k :: ks) Hne) as Ht. by rewrite Ej in Ht. }
  destruct (elem_of_unread_keys k p) as (_ & Hnr & _); [rewrite E; left|done].
Qed.

Lemma dialog_open_iff_unread_witness :
  Forall (event_ok (λ k, bar ∉ k)) [StatusArrives false true two_items; SetDialogOpen false] ∧
  ∃ p, run (opened initial_store denied) [StatusArrives false true two_items; SetDialogOpen false] = Ret p ∧
       announcementDialogOpen p = false.
Proof.
  assert (Forall (event_ok (λ k, bar ∉ k)) [StatusArrives false true two_items; SetDialogOpen false]) as H.
  { constructor; [exact two_items_ok|]. constructor; [exact I|constructor]. }
  split; [exact H|].
  destruct (dialog_open_iff_unread initial_store denied _ H) as (p & Hp & Ho).
  exists p. split; [exact Hp|]. rewrite Ho. vm_compute in Hp. injection Hp as <-. reflexivity.
Defined.

(** ** Reading *)

Lemma step_notice p e q : step p e = Ret q → trimmed (noticeContent p) → trimmed (noticeContent q).
Proof.
  assert (∀ tab p, noticeContent (handleOpenPopover tab p) = noticeContent p) as Ho.
  { intros tab p0. unfold handleOpenPopover. cbv zeta. cbn [noticeContent with_popover with_tab].
    case_bool_decide; rewrite ?(proj2 (mark_all_arrived _)); by destruct (truthy _). }
  destruct e as [loading enabled items|success data|tab|open|tab|open|current answer|current|accepted|]; cbn [step].
  - unfold with_status. destruct (keyed_all _); [|done]. by intros [= <-].
  - intros [= <-] _. cbn. destruct success; [apply trim_trimmed|apply trimmed_nil].
  - intros [= <-]. by rewrite Ho.
  - intros [= <-]. unfold handlePopoverOpenChange. destruct open; [by rewrite Ho|done].
  - intros [= <-]. unfold handleTabChange. case_bool_decide; [by rewrite (proj2 (mark_all_arrived _))|done].
  - intros [= <-]. unfold setAnnouncementDialogOpen, closeAnnouncementDialog. destruct open; [done|]. cbv zeta.
    by destruct (unreadAnnouncements p).
  - intros [= <-]. by destruct current.
  - by intros [= <-].
  - intros [= <-]. unfold notify_effect. destruct (_ || _); [done|]. cbv zeta. destruct (List.filter _ _); [done|].
    destruct (getAnnouncementPlainText _); [|done]. by destruct accepted.
  - by intros [= <-].
Qed.

Lemma elem_of_mark_all k p : k ∈ read_keys (markAnnouncementsAsRead p) ↔ k ∈ read_keys p ∨ k ∈ map a_key (announcements p).
Proof.
  unfold markAnnouncementsAsRead. destruct (announcements p) as [|a l].
  - split; [by left|intros [H|H]; [done|by apply not_elem_of_nil in H]].
  - cbn [store with_store readAnnouncementKeys markAnnouncementsRead]. by rewrite elem_of_array_of_set, elem_of_app.
Qed.

(** Opening the announcements reads everything that is shown: in every page a run reaches, the
    notification centre opened at the announcements leaves no unread count, and what a later status lists as
    unread is exactly what was neither read before nor shown then. *)
Theorem opening_reads_everything (s : NotificationState) (d : DesktopNotificationPermission) (es : list Event)
  (Hes : Forall (event_ok (λ _, True)) es) :
  ∃ p, run (opened s d) es = Ret p ∧
  let p' := handleOpenPopover (Some announcements_tab) p in
  unread_total p' = 0 ∧
  ∀ loading enabled items q, with_status loading enabled items p' = Ret q →
    unreadAnnouncements q =
    List.filter (λ a, negb (bool_decide (a_key a ∈ read_keys p ++ map a_key (announcements p)))) (announcements q).
Proof.
  destruct (run_inv (λ _, True) (λ p, trimmed (noticeContent p)) (opened s d) es) as (p & Hp & _ & Ht);
    [|exact Hes|constructor|apply trimmed_nil|].
  { intros p e q _ _. apply step_notice. }
  exists p. split; [exact Hp|]. cbv zeta. set (p' := handleOpenPopover (Some announcements_tab) p).
  set (p1 := if truthy (noticeContent p) then with_store (markNoticeRead (noticeContent p) (store p)) p else p).
  change p' with (with_popover true (with_tab announcements_tab (markAnnouncementsAsRead p1))).
  assert (∀ k, k ∈ read_keys (markAnnouncementsAsRead p1) ↔ k ∈ read_keys p ++ map a_key (announcements p)) as Hr.
  { intros k. rewrite elem_of_mark_all, elem_of_app. unfold p1. by destruct (truthy _). }
  split.
  - unfold unread_total. assert (unreadAnnouncements (with_popover true (with_tab announcements_tab (markAnnouncementsAsRead p1))) = []) as ->.
    { apply bfilter_none. intros a Ha. cbn [announcements store with_popover with_tab] in *. apply negb_false_iff, bool_decide_eq_true, Hr, elem_of_app.
      right. rewrite (proj1 (mark_all_arrived p1)) in Ha. apply elem_of_lmap. exists a. split; [done|].
      revert Ha. unfold p1. by destruct (truthy _). }
    rewrite Nat.add_0_r. unfold unread_notice. cbn [noticeContent store with_popover with_tab].
    rewrite (proj2 (mark_all_arrived p1)).
    assert (lastReadNotice (store (markAnnouncementsAsRead p1)) = lastReadNotice (store p1)) as ->.
    { unfold markAnnouncementsAsRead. by destruct (announcements p1). }
    unfold p1. destruct (truthy (noticeContent p)) eqn:E; cbn; rewrite ?E; [|done].
    by rewrite trim_id, bool_decide_true by done.
  - intros loading enabled items q. unfold with_status. destruct (keyed_all _) as [l|]; [|done]. intros [= <-].
    unfold unreadAnnouncements. cbn [announcements store with_popover with_tab]. apply filter_ext. intros a.
    unfold isAnnouncementRead. f_equal. apply bool_decide_ext, Hr.
Qed.

Lemma opening_reads_everything_witness :
  Forall (event_ok (λ _, True)) sample_run ∧
  ∃ p, run (opened initial_store granted) sample_run = Ret p ∧
       unread_total (handleOpenPopover (Some announcements_tab) p) = 0.
Proof.
  assert (Forall (event_ok (λ _, True)) sample_run) as H.
  { repeat constructor; eexists; (split; [vm_compute; reflexivity|exact I]). }
  split; [exact H|].
  destruct (opening_reads_everything initial_store granted sample_run H) as (p & Hp & Hz & _).
  exists p. split; [exact Hp|exact Hz].
Defined.
