(* ===== verification/NavModules.v ===== *)
(** * Navigation modules ([web/default/src/lib/nav-modules.ts], [web/default/src/hooks/use-top-nav-links.ts])

    The administrator's switches for the public pages as the header and the route guards read
    them: from the status the server sends, from its copy in local storage, or, when neither can be
    had, closed.

    The stored values are untrusted JSON. [toLowerCase] is a parameter. *)

From S2P Require Import Prelude JsString JsNumber Json.

Definition PROTO : str := js "__proto__".

(** [o[k] = v] for a value [v] that is not an object: the [__proto__] setter ignores it. *)
Definition set_flag (k : str) (v : json) (o : obj) : obj := if bool_decide (k = PROTO) then o else obj_set k v o.

Record ModuleAccess := { enabled : bool; requireAuth : bool }.

Inductive HeaderNavModule := rankings | pricing.

Definition module_name (m : HeaderNavModule) : str :=
  match m with rankings => js "rankings" | pricing => js "pricing" end.

(** Access rights as they are kept in the table of modules. *)
Definition json_of_access (a : ModuleAccess) : json :=
  JObj [(js "enabled", JBool (enabled a)); (js "requireAuth", JBool (requireAuth a))].

Definition access_of_json (v : json) : option ModuleAccess :=
  match v with
  | JObj [(_, JBool e); (_, JBool r)] => Some {| enabled := e; requireAuth := r |}
  | _ => None
  end.

Definition OPEN : ModuleAccess := {| enabled := true; requireAuth := false |}.

Definition DEFAULT_HEADER_NAV_MODULES : obj :=
  [(js "home", JBool true); (js "console", JBool true); (js "pricing", json_of_access OPEN);
   (js "rankings", json_of_access OPEN); (js "docs", JBool true); (js "about", JBool true)].

Section nav.
Context (toLowerCase : str → str).

Definition parseHeaderNavBoolean (raw : option json) (fallback : bool) : bool :=
  match raw with
  | Some (JBool b) => b
  | Some (JNum x) => if num_eqb x (num_of_Z 1) then true else if num_eqb x pzero then false else fallback
  | Some (JStr s) =>
      let normalized := toLowerCase (trim s) in
      if bool_decide (normalized = js "true") || bool_decide (normalized = js "1") then true
      else if bool_decide (normalized = js "false") || bool_decide (normalized = js "0") then false
      else fallback
  | _ => fallback
  end.

Definition parseAccess (raw : json) (fallback : ModuleAccess) : ModuleAccess :=
  match raw with
  | JBool _ | JNum _ | JStr _ =>
      {| enabled := parseHeaderNavBoolean (Some raw) (enabled fallback); requireAuth := requireAuth fallback |}
  | JObj _ | JArr _ =>
      {| enabled := parseHeaderNavBoolean (opt_prop (js "enabled") (Some raw)) (enabled fallback);
         requireAuth := parseHeaderNavBoolean (opt_prop (js "requireAuth") (Some raw)) (requireAuth fallback) |}
  | JNull => fallback
  end.

Definition parseHeaderNavRecord (raw : option json) : option json :=
  match raw with
  | None => None
  | Some v =>
      if negb (json_truthy raw) || negb (truthy (trim (json_to_string v))) then None
      else match v with
           | JObj _ | JArr _ => Some v
           | _ => json_parse (json_to_string v)
           end
  end.

Definition current_access (k : str) (result : obj) : ModuleAccess :=
  default OPEN (obj_get k result ≫= access_of_json).

(** One entry of the stored table. *)
Definition read_entry (result : obj) (kv : str * json) : obj :=
  let (k, value) := kv in
  if bool_decide (k = js "pricing") || bool_decide (k = js "rankings")
  then obj_set k (json_of_access (parseAccess value (current_access k result))) result
  else
    let fallback := match obj_get k result with Some (JBool b) => Some b | _ => None end in
    let readable := match value with JBool _ | JNum _ | JStr _ => true | _ => false end in
    if bool_decide (is_Some fallback) || readable
    then set_flag k (JBool (parseHeaderNavBoolean (Some value) (default true fallback))) result
    else result.

Definition parseHeaderNavModules (raw : option json) : obj :=
  match parseHeaderNavRecord raw with
  | Some parsed =>
      if json_truthy (Some parsed) then fold_left read_entry (entries_of parsed) DEFAULT_HEADER_NAV_MODULES
      else DEFAULT_HEADER_NAV_MODULES
  | None => DEFAULT_HEADER_NAV_MODULES
  end.

Definition parseHeaderNavModulesFromStatus (status : option json) : obj :=
  parseHeaderNavModules (opt_prop (js "HeaderNavModules") status).

(** ** The cached status *)

(** [storage] is the [status] item of local storage; a value that is [null] is no status. *)
Definition getCachedStatus (storage : option str) : option json :=
  match storage with
  | Some (c :: raw) => match json_parse (c :: raw) with Some JNull | None => None | Some v => Some v end
  | _ => None
  end.

(** [stores] says whether the browser accepts the item. *)
Definition cacheStatus (stores : bool) (status : option json) (storage : option str) : option str :=
  match status with
  | Some v => if json_truthy status && stores then Some (json_stringify v) else storage
  | None => storage
  end.

Definition getModuleAccessFromStatus (status : option json) (m : HeaderNavModule) : ModuleAccess :=
  default OPEN (obj_get (module_name m) (parseHeaderNavModulesFromStatus status) ≫= access_of_json).

Definition getModuleAccess (storage : option str) (m : HeaderNavModule) : ModuleAccess :=
  getModuleAccessFromStatus (getCachedStatus storage) m.

(** [fetched] is the outcome of the request. *)
Definition getFreshModuleAccess (fetched : outcome (option json)) (stores : bool) (storage : option str)
    (m : HeaderNavModule) : ModuleAccess * option str :=
  match fetched with
  | Ret status => (getModuleAccessFromStatus status m, cacheStatus stores status storage)
  | Throw => ({| enabled := false; requireAuth := true |}, storage)
  end.

Definition is_false (v : option json) : bool := match v with Some (JBool false) => true | _ => false end.

Definition isSidebarModuleEnabled (storage : option str) (section module : str) : bool :=
  let status := getCachedStatus storage in
  if negb (json_truthy status) then true
  else
    let raw := opt_prop (js "SidebarModulesAdmin") status in
    match raw with
    | None => true
    | Some v =>
        if negb (json_truthy raw) || negb (truthy (trim (json_to_string v))) then true
        else match json_parse (json_to_string v) with
             | None => true
             | Some parsed =>
                 let sectionConfig := opt_prop section (Some parsed) in
                 if negb (json_truthy sectionConfig) then true
                 else if is_false (opt_prop (js "enabled") sectionConfig) then false
                 else negb (is_false (opt_prop module sectionConfig))
             end
    end.

(** ** Route guards and links *)

(** The guard of the playground, the only page of the sidebar with one: whether the page is entered or left for the dashboard *)
Definition playground_guard (storage : option str) : bool := isSidebarModuleEnabled storage (js "chat") (js "playground").

Inductive Decision := Enter | GoHome | SignIn.

(** The guard of the public pages ([routes/pricing/index.tsx]). *)
Definition module_guard (access : ModuleAccess) (authed : bool) : Decision :=
  if negb (enabled access) then GoHome else if requireAuth access && negb authed then SignIn else Enter.

Record TopNavLink := { title : str; href : str; requiresAuth : bool; external : bool }.

Definition nav_link (t h : str) : TopNavLink := {| title := t; href := h; requiresAuth := false; external := false |}.

Definition not_off (v : option json) : bool := negb (is_false v).

(** [status.docs_link] is declared a string. *)
Definition docs_href (status : option json) : option str :=
  match opt_prop (js "docs_link") status with
  | Some (JStr (c :: s)) => if includes (js "docs.newapi.pro") (c :: s) then None else Some (c :: s)
  | _ => None
  end.

Definition access_link (t h : str) (a : option ModuleAccess) (isAuthed : bool) : list TopNavLink :=
  match a with
  | Some a => if enabled a
              then [{| title := t; href := h; requiresAuth := requireAuth a && negb isAuthed; external := false |}] else []
  | None => []
  end.

Definition useTopNavLinks (status : option json) (isAuthed : bool) : list TopNavLink :=
  let modules := parseHeaderNavModulesFromStatus status in
  let preview := match opt_prop (js "public_business_preview_enabled") status with Some (JBool b) => b | _ => false end in
  (if not_off (obj_get (js "home") modules) then [nav_link (js "Home") (js "/")] else []) ++
  (if not_off (obj_get (js "console") modules) then [nav_link (js "Console") (js "/dashboard")] else []) ++
  (if preview then [nav_link (js "Wallet & Plans") (if isAuthed then js "/wallet" else js "/business")] else []) ++
  access_link (js "Model Square") (js "/pricing") (obj_get (js "pricing") modules ≫= access_of_json) isAuthed ++
  access_link (js "Rankings") (js "/rankings") (obj_get (js "rankings") modules ≫= access_of_json) isAuthed ++
  (if not_off (obj_get (js "docs") modules)
   then match docs_href status with
        | Some link => [{| title := js "Docs"; href := link; requiresAuth := false; external := true |}]
        | None => [nav_link (js "Docs") (js "/docs")]
        end
   else []) ++
  (if not_off (obj_get (js "about") modules) then [nav_link (js "About") (js "/about")] else []).

End nav.
