(* ===== verification/AdminModules.v ===== *)
(** * Module settings ([web/default/src/features/system-settings/maintenance/config.ts])

    The administrator's editor of the header and sidebar modules: how it reads the stored text into
    switches and what it writes.

    A module or section whose name is a member of [Object.prototype] is outside this model where the
    code reads a fallback through it ([parseSidebarModulesAdmin]). *)

From S2P Require Import Prelude JsString JsNumber Json NavModules.

Definition HEADER_NAV_DEFAULT : obj :=
  [(js "home", JBool true); (js "console", JBool true); (js "pricing", json_of_access OPEN);
   (js "rankings", json_of_access OPEN); (js "docs", JBool true); (js "about", JBool true)].

(** A section with its modules switched on. *)
Definition section_on (modules : list string) : json :=
  JObj (map (λ m, (js m, JBool true)) ("enabled" :: modules)).

Definition SIDEBAR_MODULES_DEFAULT : obj :=
  [(js "chat", section_on ["playground"; "chat"]);
   (js "console", section_on ["detail"; "group_monitor"; "intelligence_radar"; "token"; "log"; "midjourney"; "task";
                              "image_workbench"]);
   (js "personal", section_on ["topup"; "rewards"; "personal"]);
   (js "admin", section_on ["account"; "channel"; "models"; "redemption"; "user"; "setting"; "subscription"])]%string.

(** The members every object inherits: [base[key]] is truthy for them. *)
Definition PROTO_KEYS : list str :=
  map js ["constructor"; "__defineGetter__"; "__defineSetter__"; "hasOwnProperty"; "__lookupGetter__"; "__lookupSetter__";
          "isPrototypeOf"; "propertyIsEnumerable"; "toString"; "valueOf"; "__proto__"; "toLocaleString"]%string.

Section admin.
Context (toLowerCase : str → str).

Definition toBoolean (value : option json) (fallback : bool) : bool :=
  match value with
  | Some (JBool b) => b
  | Some (JNum x) => num_eqb x (num_of_Z 1)
  | Some (JStr s) =>
      let normalized := toLowerCase (trim s) in
      if bool_decide (normalized = js "true") || bool_decide (normalized = js "1") then true
      else if bool_decide (normalized = js "false") || bool_decide (normalized = js "0") then false
      else fallback
  | _ => fallback
  end.

Definition parseAccessModule (raw : json) (fallback : ModuleAccess) : ModuleAccess :=
  match raw with
  | JBool _ | JStr _ | JNum _ =>
      {| enabled := toBoolean (Some raw) (enabled fallback); requireAuth := requireAuth fallback |}
  | JObj _ | JArr _ =>
      {| enabled := toBoolean (opt_prop (js "enabled") (Some raw)) (enabled fallback);
         requireAuth := toBoolean (opt_prop (js "requireAuth") (Some raw)) (requireAuth fallback) |}
  | JNull => fallback
  end.

(** [Boolean(base[key])] *)
Definition base_truthy (k : str) : bool := json_truthy (obj_get k HEADER_NAV_DEFAULT) || bool_decide (k ∈ PROTO_KEYS).

Definition edit_entry (result : obj) (kv : str * json) : obj :=
  let (k, raw) := kv in
  if bool_decide (k = js "pricing") || bool_decide (k = js "rankings")
  then obj_set k (json_of_access (parseAccessModule raw (current_access k HEADER_NAV_DEFAULT))) result
  else match raw with
       | JBool b => set_flag k (JBool b) result
       | JStr _ | JNum _ => set_flag k (JBool (toBoolean (Some raw) (base_truthy k))) result
       | _ => result
       end.

(** [Object.entries(null)] throws, and the [catch] returns the defaults. *)
Definition parseHeaderNavModules (value : option str) : obj :=
  match value with
  | Some (c :: s) =>
      match json_parse (c :: s) with
      | None | Some JNull => HEADER_NAV_DEFAULT
      | Some parsed => fold_left edit_entry (entries_of parsed) HEADER_NAV_DEFAULT
      end
  | _ => HEADER_NAV_DEFAULT
  end.

Definition serializeHeaderNavModules (config : obj) : str := json_stringify (JObj config).

(** ** The sidebar *)

(** A switch of a section, [true] when the section does not have it. *)
Definition switch (k : str) (section : obj) : bool :=
  match obj_get k section with Some (JBool b) => b | _ => true end.

Definition default_section (sectionKey : str) : obj :=
  match obj_get sectionKey SIDEBAR_MODULES_DEFAULT with
  | Some (JObj d) => d
  | _ => [(js "enabled", JBool true)]
  end.

Definition read_module (d : obj) (sectionConfig : obj) (kv : str * json) : obj :=
  let (moduleKey, moduleValue) := kv in
  if bool_decide (moduleKey = js "enabled") then sectionConfig
  else set_flag moduleKey (JBool (toBoolean (Some moduleValue) (switch moduleKey d))) sectionConfig.

Definition read_section (result : obj) (kv : str * json) : obj :=
  let (sectionKey, raw) := kv in
  match raw with
  | JObj _ | JArr _ =>
      let d := default_section sectionKey in
      let enabled := toBoolean (opt_prop (js "enabled") (Some raw)) (switch (js "enabled") d) in
      obj_set sectionKey (JObj (fold_left (read_module d) (entries_of raw) [(js "enabled", JBool enabled)])) result
  | _ => result
  end.

Definition add_missing (section : obj) (kv : str * json) : obj :=
  match obj_get (fst kv) section with Some _ => section | None => obj_set (fst kv) (snd kv) section end.

(** The defaults of a section are added where the stored text has none. *)
Definition merge_section (result : obj) (kv : str * json) : obj :=
  let (sectionKey, config) := kv in
  match obj_get sectionKey result, config with
  | Some (JObj o), JObj c => obj_set sectionKey (JObj (fold_left add_missing c o)) result
  | _, _ => obj_set sectionKey config result
  end.

Definition parseSidebarModulesAdmin (value : option str) : obj :=
  match value with
  | Some s =>
      if negb (truthy (trim s)) then SIDEBAR_MODULES_DEFAULT
      else match json_parse s with
           | None | Some JNull => SIDEBAR_MODULES_DEFAULT
           | Some parsed =>
               fold_left merge_section SIDEBAR_MODULES_DEFAULT (fold_left read_section (entries_of parsed) [])
           end
  | None => SIDEBAR_MODULES_DEFAULT
  end.

Definition serializeSidebarModulesAdmin (config : obj) : str := json_stringify (JObj config).

End admin.
