(* ===== verification/SidebarConfig.v ===== *)
(** * Sidebar ([web/default/src/hooks/use-sidebar-config.ts])

    The entries of the sidebar a user sees: the administrator's switches are authoritative, the
    user's own can only hide more.  Configurations are untrusted JSON. *)

From S2P Require Import Prelude JsString JsNumber Json NavModules AdminModules.

Definition DEFAULT_SIDEBAR_MODULES : obj :=
  [(js "chat", section_on ["playground"; "chat"]);
   (js "console", section_on ["detail"; "group_monitor"; "intelligence_radar"; "token"; "log"; "midjourney"; "task";
                              "image_workbench"; "video_workbench"]);
   (js "personal", section_on ["topup"; "rewards"; "personal"]);
   (js "admin", section_on ["account"; "channel"; "models"; "redemption"; "user"; "setting"; "subscription"])]%string.

Definition merge_default (merged : obj) (kv : str * json) : obj :=
  let (sectionKey, defaultSection) := kv in
  match obj_get sectionKey merged with
  | Some existing =>
      if json_truthy (Some existing)
      then obj_set sectionKey
             (JObj (fold_left add_missing (entries_of defaultSection)
                      (obj_spread (entries_of defaultSection) (entries_of existing)))) merged
      else obj_set sectionKey defaultSection merged
  | None => obj_set sectionKey defaultSection merged
  end.

Definition mergeWithDefaultSidebarModules (config : json) : obj :=
  fold_left merge_default DEFAULT_SIDEBAR_MODULES (entries_of config).

Definition URL_TO_CONFIG_MAP : list (str * (str * str)) :=
  map (λ '(u, s, m), (js u, (js s, js m)))
  [("/playground", "chat", "playground"); ("/dashboard", "console", "detail");
   ("/dashboard/overview", "console", "detail"); ("/dashboard/models", "console", "detail");
   ("/dashboard/users", "console", "detail"); ("/keys", "console", "token"); ("/usage-logs", "console", "log");
   ("/usage-logs/common", "console", "log"); ("/usage-logs/drawing", "console", "midjourney");
   ("/usage-logs/task", "console", "task"); ("/image-logs", "console", "log"); ("/video-logs", "console", "log");
   ("/image-workbench", "console", "image_workbench"); ("/video-workbench", "console", "video_workbench");
   ("/wallet", "personal", "topup"); ("/topup-orders", "personal", "topup");
   ("/rewards/referral", "personal", "rewards"); ("/rewards/recharge", "personal", "rewards");
   ("/rewards/admin", "admin", "setting"); ("/profile", "personal", "personal"); ("/accounts", "admin", "account");
   ("/channels", "admin", "channel"); ("/channel-monitor", "console", "group_monitor");
   ("/intelligence-radar", "console", "intelligence_radar"); ("/models", "admin", "models");
   ("/models/metadata", "admin", "models"); ("/models/deployments", "admin", "models"); ("/users", "admin", "user");
   ("/redemption-codes", "admin", "redemption"); ("/subscriptions", "admin", "subscription");
   ("/system-settings", "admin", "setting"); ("/system-settings/site", "admin", "setting")]%string.

Definition mapping_of (url : str) : option (str * str) := snd <$> find (λ kv, bool_decide (fst kv = url)) URL_TO_CONFIG_MAP.

Definition parseSidebarConfig (value : option str) : obj :=
  match value with
  | Some s =>
      if negb (truthy (trim s)) then DEFAULT_SIDEBAR_MODULES
      else match json_parse s with
           | Some parsed => mergeWithDefaultSidebarModules parsed
           | None => DEFAULT_SIDEBAR_MODULES
           end
  | None => DEFAULT_SIDEBAR_MODULES
  end.

Definition parseUserSidebarConfig (value : option str) : option json :=
  match value with
  | Some s =>
      if negb (truthy (trim s)) then None
      else match json_parse s with Some (JObj o) => Some (JObj o) | Some (JArr l) => Some (JArr l) | _ => None end
  | None => None
  end.

(** The administrator's layer: [section && section.enabled && section[module] === true] *)
Definition admin_allows (adminConfig : obj) (section module : str) : bool :=
  let adminSection := obj_get section adminConfig in
  json_truthy adminSection && json_truthy (opt_prop (js "enabled") adminSection) &&
  match opt_prop module adminSection with Some (JBool b) => b | _ => false end.

(** The user's layer: hidden only by an explicit [false] *)
Definition user_allows (userConfig : option json) (section module : str) : bool :=
  match userConfig with
  | None => true
  | Some _ =>
      let userSection := opt_prop section userConfig in
      if negb (json_truthy userSection) then true
      else if is_false (opt_prop (js "enabled") userSection) then false
      else negb (is_false (opt_prop module userSection))
  end.

Definition isModuleEnabled (url : str) (adminConfig : obj) (userConfig : option json) : bool :=
  match mapping_of url with
  | None => true
  | Some (section, module) =>
      if negb (admin_allows adminConfig section module) then false else user_allows userConfig section module
  end.

(** ** Navigation items *)

Inductive NavItem :=
  | NavLink (title url : str) (configUrls : option (list str))
  | NavCollapsible (title : str) (configUrls : option (list str)) (items : list (str * str))  (** title and url *)
  | NavChatPresets (title : str).

Record NavGroup := { group_title : str; items : list NavItem }.

(** A link without a URL is none. *)
Definition isNavItemVisible (item : NavItem) (adminConfig : obj) (userConfig : option json) : bool :=
  match item with
  | NavChatPresets _ =>
      if negb (admin_allows adminConfig (js "chat") (js "chat")) then false
      else user_allows userConfig (js "chat") (js "chat")
  | NavLink _ url configUrls =>
      if truthy url then existsb (λ u, isModuleEnabled u adminConfig userConfig) (default [url] configUrls) else true
  | NavCollapsible _ _ subs => existsb (λ sub, isModuleEnabled (snd sub) adminConfig userConfig) subs
  end.

Definition filter_sub (adminConfig : obj) (userConfig : option json) (item : NavItem) : NavItem :=
  match item with
  | NavCollapsible t c subs => NavCollapsible t c (List.filter (λ sub, isModuleEnabled (snd sub) adminConfig userConfig) subs)
  | _ => item
  end.

Definition filterNavItems (l : list NavItem) (adminConfig : obj) (userConfig : option json) : list NavItem :=
  List.filter (λ item, isNavItemVisible item adminConfig userConfig) (map (filter_sub adminConfig userConfig) l).

Definition REFERRAL : str := js "/rewards/referral".

(** The rewards entry needs one of the two reward programmes. *)
Definition rewards_shown (status : option json) (item : NavItem) : bool :=
  match item with
  | NavLink _ _ (Some configUrls) =>
      if bool_decide (REFERRAL ∈ configUrls)
      then not_off (opt_prop (js "affiliate_milestone_reward_enabled") status)
           || not_off (opt_prop (js "recharge_benefit_enabled") status)
      else true
  | _ => true
  end.

(** [settings] is the [sidebar_settings] permission and [modules] the [sidebar_modules] text of the user. *)
Definition user_config (settings : option bool) (modules : option str) : option json :=
  match settings with Some false => None | _ => parseUserSidebarConfig modules end.

Definition filter_group (status : option json) (adminConfig : obj) (userConfig : option json) (g : NavGroup) : NavGroup :=
  {| group_title := group_title g;
     items := List.filter (rewards_shown status) (filterNavItems (items g) adminConfig userConfig) |}.

(** The administrator's text is declared a string. *)
Definition admin_text (status : option json) : option str :=
  match opt_prop (js "SidebarModulesAdmin") status with Some (JStr s) => Some s | _ => None end.

Definition useSidebarConfig (status : option json) (settings : option bool) (modules : option str) (groups : list NavGroup)
    : list NavGroup :=
  let adminConfig := parseSidebarConfig (admin_text status) in
  let userConfig := user_config settings modules in
  List.filter (λ g, match items g with [] => false | _ => true end)
    (map (filter_group status adminConfig userConfig) groups).
