(* ===== verification/NavFacts.v ===== *)
(** * Agreement of the readers of the module settings

    The administrator's editor, the header, the sidebar and the route guards parse the stored
    settings independently.  On every text the editor writes they agree; the sidebar never shows what the
    administrator has switched off, and the user's settings only hide more. *)

From S2P Require Import Prelude JsString JsNumber Json JsonFacts NavModules AdminModules SidebarConfig.

(** ** Reading a table entry by entry *)

(** A fold whose steps each concern their own key: what it leaves under [k] is decided by the entry of [k]. *)
Lemma fold_entries_get (f : obj → str * json → obj) (g : option json → json → option json) (k : str) (l acc : obj) :
  (∀ a k' v, k' ≠ k → obj_get k (f a (k', v)) = obj_get k a) →
  (∀ a v, obj_get k (f a (k, v)) = g (obj_get k a) v) → NoDup (map fst l) →
  obj_get k (fold_left f l acc) = match obj_get k l with Some v => g (obj_get k acc) v | None => obj_get k acc end.
Proof.
  intros Hne Heq. revert acc. induction l as [|[k' v] l IH]; intros acc Hn; [done|].
  apply NoDup_cons in Hn as [Hk Hn]. cbn [fold_left obj_get fst] in *. rewrite IH by done.
  destruct (decide (k = k')) as [<-|Hkk].
  - rewrite bool_decide_true by done. rewrite obj_get_None by done. apply Heq.
  - rewrite bool_decide_false, Hne by done. done.
Qed.

Lemma json_ok_keys o : json_ok (JObj o) → NoDup (map fst o).
Proof. inversion 1 as [| | | | |? _ _ [Hn _]]; subst. exact Hn. Qed.

Lemma json_ok_member o k v : json_ok (JObj o) → obj_get k o = Some v → json_ok v.
Proof.
  inversion 1 as [| | | | |? _ Hv _]; subst. clear -Hv. induction Hv as [|[k' w] o Hw _ IH]; [done|]. cbn [obj_get fst snd].
  case_bool_decide; [|done]. by intros [= <-].
Qed.

Lemma add_missing_get k l acc : NoDup (map fst l) →
  obj_get k (fold_left add_missing l acc) = match obj_get k acc with Some v => Some v | None => obj_get k l end.
Proof.
  intros Hn. rewrite (fold_entries_get add_missing (λ a v, Some (default v a))); [..|done].
  - destruct (obj_get k l), (obj_get k acc); done.
  - intros a k' v Hk. unfold add_missing. cbn [fst snd]. destruct (obj_get k' a); [done|]. by apply obj_get_set_ne.
  - intros a v. unfold add_missing. cbn [fst snd]. destruct (obj_get k a) eqn:E; [exact E|]. by rewrite obj_get_set_eq.
Qed.

Lemma spread_get k a b : NoDup (map fst b) →
  obj_get k (obj_spread a b) = match obj_get k b with Some v => Some v | None => obj_get k a end.
Proof.
  intros Hn. unfold obj_spread. rewrite (fold_entries_get _ (λ _ v, Some v)); [done| | |done].
  - intros o k' v Hk. cbn [fst snd]. by apply obj_get_set_ne.
  - intros o v. apply obj_get_set_eq.
Qed.

(** ** Configurations the editor writes *)

(** A section is a table of switches. *)
Definition switches (v : json) : Prop := ∃ o, v = JObj o ∧ ∀ k w, obj_get k o = Some w → ∃ b, w = JBool b.

Definition config_ok (c : obj) : Prop := json_ok (JObj c) ∧ ∀ s v, obj_get s c = Some v → switches v.

(** The switch [m] of section [s], on when the configuration has none. *)
Definition flag (c : obj) (s m : str) : bool := match obj_get s c with Some (JObj o) => switch m o | _ => true end.

Definition ENABLED_KEY : str := js "enabled".

Lemma switch_value m o : (∀ k w, obj_get k o = Some w → ∃ b, w = JBool b) →
  obj_get m o = None ∧ switch m o = true ∨ obj_get m o = Some (JBool (switch m o)).
Proof.
  intros H. unfold switch. destruct (obj_get m o) as [w|] eqn:E; [|by left]. right. by destruct (H m w E) as [b ->].
Qed.

Lemma text_reads c : json_ok (JObj c) → json_parse (json_stringify (JObj c)) = Some (JObj c) ∧
  truthy (trim (json_stringify (JObj c))) = true.
Proof.
  intros H. split; [by apply json_parse_stringify|]. by rewrite trim_id by apply stringify_obj_trimmed.
Qed.

(** *** The editor *)

Lemma default_section_on s m : switch m (default_section s) = true.
Proof.
  unfold default_section, SIDEBAR_MODULES_DEFAULT. cbn [obj_get fst snd].
  repeat (case_bool_decide; [unfold switch, section_on; cbn [map obj_get]; repeat (case_bool_decide; [reflexivity|]); reflexivity|]).
  unfold switch. cbn [obj_get]. case_bool_decide; reflexivity.
Qed.

Section editor.
Context (toLowerCase : str → str).

Lemma read_module_get d m o e : m ≠ PROTO → NoDup (map fst o) → (∀ k w, obj_get k o = Some w → ∃ b, w = JBool b) →
  obj_get m (fold_left (read_module toLowerCase d) o [(ENABLED_KEY, JBool e)]) =
  if bool_decide (m = ENABLED_KEY) then Some (JBool e) else obj_get m o.
Proof.
  intros Hp Hn Hb.
  rewrite (fold_entries_get _ (λ a v, if bool_decide (m = ENABLED_KEY) then a
             else Some (JBool (toBoolean toLowerCase (Some v) (switch m d))))); [..|done].
  - case_bool_decide as Em.
    + subst m. destruct (obj_get ENABLED_KEY o); reflexivity.
    + destruct (obj_get m o) as [w|] eqn:E; [by destruct (Hb m w E) as [b ->]|].
      cbn [obj_get]. by rewrite bool_decide_false.
  - intros a k v Hk. unfold read_module. case_bool_decide; [done|]. unfold set_flag. case_bool_decide; [done|].
    by apply obj_get_set_ne.
  - intros a v. unfold read_module, set_flag. change (js "enabled") with ENABLED_KEY. case_bool_decide; [done|].
    rewrite bool_decide_false by done. apply obj_get_set_eq.
Qed.

(** What the editor makes of a stored section. *)
Definition edited_section (s : str) (v : json) : obj :=
  fold_left (read_module toLowerCase (default_section s)) (entries_of v)
    [(ENABLED_KEY, JBool (toBoolean toLowerCase (opt_prop ENABLED_KEY (Some v)) (switch ENABLED_KEY (default_section s))))].

Lemma edited_switch s m o : m ≠ PROTO → NoDup (map fst o) → (∀ k w, obj_get k o = Some w → ∃ b, w = JBool b) →
  switch m (edited_section s (JObj o)) = switch m o.
Proof.
  intros Hp Hn Hb. unfold switch at 1, edited_section. cbn [entries_of opt_prop]. rewrite read_module_get by done.
  case_bool_decide as Em; [subst m|done]. rewrite default_section_on.
  change (toBoolean toLowerCase (obj_get ENABLED_KEY o) true = switch ENABLED_KEY o).
  destruct (switch_value ENABLED_KEY o Hb) as [[-> ->]| ->]; reflexivity.
Qed.

Lemma merge_get s R : (∀ v, obj_get s R = Some v → ∃ o, v = JObj o) →
  obj_get s (fold_left merge_section SIDEBAR_MODULES_DEFAULT R) =
  match obj_get s SIDEBAR_MODULES_DEFAULT, obj_get s R with
  | Some d, Some v => Some (JObj (fold_left add_missing (entries_of d) (entries_of v)))
  | Some d, None => Some d
  | None, x => x
  end.
Proof.
  intros HR. rewrite (fold_entries_get _ (λ a d, match a, d with
    | Some (JObj o), JObj c => Some (JObj (fold_left add_missing c o)) | _, _ => Some d end)).
  - destruct (obj_get s SIDEBAR_MODULES_DEFAULT) as [d|] eqn:Ed; [|done]. destruct (obj_get s R) as [v|]; [|done].
    destruct (HR v eq_refl) as [o ->]. enough (∃ c, d = JObj c) as [c ->] by done.
    clear -Ed. unfold SIDEBAR_MODULES_DEFAULT in Ed. cbn [obj_get] in Ed.
    repeat (case_bool_decide; [injection Ed as <-; by eexists|]). done.
  - intros a k v Hk. unfold merge_section. destruct (obj_get k a) as [[]|], v; by apply obj_get_set_ne.
  - intros a v. unfold merge_section. destruct (obj_get s a) as [[]|], v; apply obj_get_set_eq.
  - apply (bool_decide_unpack (NoDup _)). vm_compute. exact I.
Qed.

Lemma default_switch s m d : obj_get s SIDEBAR_MODULES_DEFAULT = Some (JObj d) → switch m d = true.
Proof. intros H. pose proof (default_section_on s m) as Hd. unfold default_section in Hd. by rewrite H in Hd. Qed.

Lemma default_is_section s d : obj_get s SIDEBAR_MODULES_DEFAULT = Some d → ∃ o, d = JObj o ∧ NoDup (map fst o).
Proof.
  unfold SIDEBAR_MODULES_DEFAULT. cbn [obj_get fst snd]. intros H.
  repeat (case_bool_decide; [injection H as <-; eexists; split; [reflexivity|];
    apply (bool_decide_unpack (NoDup _)); vm_compute; exact I|]). done.
Qed.

(** The editor shows the switches it has written. *)
Lemma editor_flag c s m : config_ok c → m ≠ PROTO →
  flag (parseSidebarModulesAdmin toLowerCase (Some (json_stringify (JObj c)))) s m = flag c s m.
Proof.
  intros [Hok Hsw] Hp. unfold parseSidebarModulesAdmin. destruct (text_reads c Hok) as [-> ->]. cbn [negb entries_of].
  set (R := fold_left (read_section toLowerCase) c []).
  assert (obj_get s R = match obj_get s c with Some v => Some (JObj (edited_section s v)) | None => None end) as HR.
  { unfold R. rewrite (fold_entries_get _ (λ a v, match v with
      | JObj _ | JArr _ => Some (JObj (edited_section s v)) | _ => a end)); [..|by apply json_ok_keys].
    - destruct (obj_get s c) as [v|] eqn:E; [|done]. by destruct (Hsw s v E) as (o & -> & _).
    - intros a k v Hk. unfold read_section. destruct v; try done; by apply obj_get_set_ne.
    - intros a v. unfold read_section. destruct v; try done; apply obj_get_set_eq. }
  unfold flag. rewrite merge_get by (intros v; rewrite HR; destruct (obj_get s c); [|done]; intros [= <-]; by eexists).
  rewrite HR. destruct (obj_get s c) as [v|] eqn:Ec.
  - destruct (Hsw s v Ec) as (o & -> & Hb). pose proof (json_ok_keys o (json_ok_member c s _ Hok Ec)) as Hn.
    pose proof (edited_switch s m o Hp Hn Hb) as Hs.
    destruct (obj_get s SIDEBAR_MODULES_DEFAULT) as [d|] eqn:Ed; [|exact Hs].
    destruct (default_is_section s d Ed) as (d' & -> & Hnd). cbn [entries_of].
    pose proof (default_switch s m d' Ed) as Hd. rewrite <- Hs. unfold switch in *. rewrite add_missing_get by done.
    destruct (obj_get m (edited_section s (JObj o))); [done|]. exact Hd.
  - destruct (obj_get s SIDEBAR_MODULES_DEFAULT) as [d|] eqn:Ed; [|done].
    destruct (default_is_section s d Ed) as (d' & -> & _). by apply (default_switch s m).
Qed.

End editor.

(** *** The sidebar *)

(** The entries of the table have their switch among the defaults. *)
Definition listed (s m : str) : Prop :=
  ∃ d, obj_get s DEFAULT_SIDEBAR_MODULES = Some (JObj d) ∧ NoDup (map fst d) ∧
       obj_get ENABLED_KEY d = Some (JBool true) ∧ obj_get m d = Some (JBool true).

Lemma merged_switch c s d m :
  config_ok c → obj_get s DEFAULT_SIDEBAR_MODULES = Some (JObj d) → NoDup (map fst d) → obj_get m d = Some (JBool true) →
  ∃ o, obj_get s (mergeWithDefaultSidebarModules (JObj c)) = Some (JObj o) ∧ obj_get m o = Some (JBool (flag c s m)).
Proof.
  intros [Hok Hsw] Hd Hn Hm. unfold mergeWithDefaultSidebarModules. cbn [entries_of].
  rewrite (fold_entries_get _ (λ a v, match a with
    | Some e => if json_truthy (Some e) then Some (JObj (fold_left add_missing (entries_of v) (obj_spread (entries_of v) (entries_of e))))
                else Some v
    | None => Some v end)).
  - rewrite Hd. unfold flag. destruct (obj_get s c) as [v|] eqn:Ec; [|by exists d].
    destruct (Hsw s v Ec) as (o & -> & Hb). pose proof (json_ok_keys o (json_ok_member c s _ Hok Ec)) as Hno.
    cbn [json_truthy entries_of]. eexists. split; [reflexivity|]. rewrite add_missing_get, spread_get by done.
    destruct (switch_value m o Hb) as [[-> ->]| E]; [by rewrite Hm|]. rewrite E. by destruct (switch m o).
  - intros a k v Hk. unfold merge_default. destruct (obj_get k a) as [e|]; [|by apply obj_get_set_ne].
    destruct (json_truthy _); by apply obj_get_set_ne.
  - intros a v. unfold merge_default. destruct (obj_get s a) as [e|]; [|apply obj_get_set_eq].
    destruct (json_truthy _); apply obj_get_set_eq.
  - apply (bool_decide_unpack (NoDup _)). vm_compute. exact I.
Qed.

Lemma sidebar_flag c s m : config_ok c → listed s m →
  admin_allows (parseSidebarConfig (Some (json_stringify (JObj c)))) s m = flag c s ENABLED_KEY && flag c s m.
Proof.
  intros Hc (d & Hd & Hn & He & Hm). unfold parseSidebarConfig. destruct (text_reads c (proj1 Hc)) as [-> ->]. cbn [negb].
  unfold admin_allows. destruct (merged_switch c s d ENABLED_KEY Hc Hd Hn He) as (o & Ho & Heo).
  destruct (merged_switch c s d m Hc Hd Hn Hm) as (o' & Ho' & Hmo). rewrite Ho in Ho'. injection Ho' as <-. rewrite Ho.
  cbn [opt_prop json_truthy andb]. change (js "enabled") with ENABLED_KEY. by rewrite Heo, Hmo.
Qed.

(** *** The route guards *)

Lemma guard_flag c st s m : config_ok c → json_ok (JObj st) →
  obj_get (js "SidebarModulesAdmin") st = Some (JStr (json_stringify (JObj c))) →
  isSidebarModuleEnabled (Some (json_stringify (JObj st))) s m = flag c s ENABLED_KEY && flag c s m.
Proof.
  intros [Hok Hsw] Hst Htext. unfold isSidebarModuleEnabled.
  assert (getCachedStatus (Some (json_stringify (JObj st))) = Some (JObj st)) as ->.
  { unfold getCachedStatus. pose proof (json_parse_stringify _ Hst) as Hp. 
    destruct (stringify_head _ Hst) as (x & u & E & _). rewrite E in Hp |- *. by rewrite Hp. }
  cbn [json_truthy negb opt_prop]. rewrite Htext. destruct (text_reads c Hok) as [Hparse Htrim].
  cbn [json_truthy json_to_string]. rewrite Htrim, Hparse. cbn [negb orb opt_prop].
  assert (truthy (json_stringify (JObj c)) = true) as -> by reflexivity. cbn [negb orb]. unfold flag.
  destruct (obj_get s c) as [v|] eqn:Ec; [|done]. destruct (Hsw s v Ec) as (o & -> & Hb). cbn [json_truthy negb opt_prop].
  change (js "enabled") with ENABLED_KEY.
  destruct (switch_value ENABLED_KEY o Hb) as [[-> ->]| E1], (switch_value m o Hb) as [[-> ->]| E2];
    rewrite ?E1, ?E2; try (destruct (switch ENABLED_KEY o)); try (destruct (switch m o)); reflexivity.
Qed.

(** *** Agreement *)

Lemma mapping_listed url s m : mapping_of url = Some (s, m) → listed s m ∧ m ≠ PROTO.
Proof.
  unfold mapping_of. destruct (find _ URL_TO_CONFIG_MAP) as [[u sm]|] eqn:E; [|done]. intros [= ->].
  apply find_some in E as [Hin _]. revert Hin.
  assert (Forall (λ kv, ∃ d, obj_get (fst (snd kv)) DEFAULT_SIDEBAR_MODULES = Some (JObj d) ∧
    bool_decide (NoDup (map fst d)) = true ∧ obj_get ENABLED_KEY d = Some (JBool true) ∧
    obj_get (snd (snd kv)) d = Some (JBool true) ∧ bool_decide (snd (snd kv) ≠ PROTO) = true) URL_TO_CONFIG_MAP) as H.
  { unfold URL_TO_CONFIG_MAP. cbn [map]. repeat (constructor; [eexists; split; [vm_compute; reflexivity|]; split_and!; vm_compute; reflexivity|]).
    constructor. }
  rewrite List.Forall_forall in H. intros Hin. destruct (H _ Hin) as (d & H1 & H2 & H3 & H4 & H5). cbn [fst snd] in *.
  breflect. split; [by exists d|done].
Qed.

(** The layer of the user *)
Lemma user_flag c s m : config_ok c → user_allows (parseUserSidebarConfig (Some (json_stringify (JObj c)))) s m = flag c s ENABLED_KEY && flag c s m.
Proof.
  intros [Hok Hsw]. unfold parseUserSidebarConfig. destruct (text_reads c Hok) as [-> ->]. cbn [negb]. unfold user_allows, flag. cbn [opt_prop].
  destruct (obj_get s c) as [v|] eqn:Ec; [|done]. destruct (Hsw s v Ec) as (o & -> & Hb). cbn [json_truthy negb opt_prop].
  change (js "enabled") with ENABLED_KEY.
  destruct (switch_value ENABLED_KEY o Hb) as [[-> ->]| E1], (switch_value m o Hb) as [[-> ->]| E2];
    rewrite ?E1, ?E2; try (destruct (switch ENABLED_KEY o)); try (destruct (switch m o)); reflexivity.
Qed.

(** The switches of a user who may configure the sidebar ([settings]) and saved a configuration *)
Definition own_switches (settings : option bool) (own : option obj) (s m : str) : bool :=
  match settings, own with
  | Some false, _ | _, None => true
  | _, Some cu => flag cu s ENABLED_KEY && flag cu s m
  end.

(** C34: The switches of the sidebar are read as they were written.  For every configuration the editor of the administrator writes, with or without
    a configuration that the user saved, and every page of the sidebar that has switches: the sidebar takes the page for enabled exactly if the administrator's switches of the
    section and of the module are not off and, for a user who may configure the sidebar, the user's own are not off either; and the editor
    shows the administrator's switches as they are.  The guard of the playground, the only page of the sidebar with one, lets the user enter
    exactly if the administrator's switches of the playground are not off, whatever the user saved. *)
Theorem module_readers_agree (toLowerCase : str → str) (c st : obj) (settings : option bool) (own : option obj) (url s m : str)
  (Hc : config_ok c) (Hst : json_ok (JObj st))
  (Htext : obj_get (js "SidebarModulesAdmin") st = Some (JStr (serializeSidebarModulesAdmin c)))
  (Hown : ∀ cu, own = Some cu → config_ok cu)
  (Hurl : mapping_of url = Some (s, m)) :
  let on s m := flag c s ENABLED_KEY && flag c s m in
  let modules := (λ cu, json_stringify (JObj cu)) <$> own in
  let edited := parseSidebarModulesAdmin toLowerCase (Some (serializeSidebarModulesAdmin c)) in
  isModuleEnabled url (parseSidebarConfig (admin_text (Some (JObj st)))) (user_config settings modules) = on s m && own_switches settings own s m ∧
  playground_guard (Some (json_stringify (JObj st))) = on (js "chat") (js "playground") ∧
  flag edited s ENABLED_KEY = flag c s ENABLED_KEY ∧ flag edited s m = flag c s m.
Proof.
  cbv zeta. destruct (mapping_listed url s m Hurl) as [Hl Hp]. split_and!.
  - unfold isModuleEnabled, admin_text. rewrite Hurl. cbn [opt_prop]. rewrite Htext.
    change (serializeSidebarModulesAdmin c) with (json_stringify (JObj c)). rewrite sidebar_flag by done.
    assert (user_allows (user_config settings ((λ cu, json_stringify (JObj cu)) <$> own)) s m = own_switches settings own s m) as ->.
    { destruct own as [cu|]; [|by destruct settings as [[]|]].
      destruct settings as [[]|]; [|done|]; cbn [user_config fmap option_fmap option_map own_switches]; apply user_flag; by apply Hown. }
    by destruct (_ && _).
  - by apply guard_flag.
  - change (serializeSidebarModulesAdmin c) with (json_stringify (JObj c)).
    apply editor_flag; [done|]. apply (bool_decide_unpack (ENABLED_KEY ≠ PROTO)). vm_compute. exact I.
  - by apply editor_flag.
Qed.

Definition sample_config : obj :=
  [(js "chat", JObj [(js "enabled", JBool true); (js "playground", JBool false)]);
   (js "admin", JObj [(js "enabled", JBool false)])].

Definition sample_status : obj := [(js "SidebarModulesAdmin", JStr (serializeSidebarModulesAdmin sample_config))].

Lemma plain_object_ok (o : obj) :
  bool_decide (Forall (λ kv, Forall (λ c, (c < 65536)%N) (fst kv)) o) = true → Forall (λ kv, json_ok (snd kv)) o →
  bool_decide (NoDup (map fst o)) = true → bool_decide (Forall (λ kv, is_index (fst kv) = false) o) = true → json_ok (JObj o).
Proof. intros H1 H2 H3 H4. breflect. constructor; [exact H1|exact H2|]. by apply canonical_plain. Qed.

Lemma sample_config_ok : config_ok sample_config.
Proof.
  split.
  - apply plain_object_ok; [vm_compute; reflexivity| |vm_compute; reflexivity|vm_compute; reflexivity].
    constructor; [|constructor; [|constructor]]; cbn [snd];
      (apply plain_object_ok; [vm_compute; reflexivity| |vm_compute; reflexivity|vm_compute; reflexivity]);
      repeat (constructor; [constructor|]); constructor.
  - intros s v. unfold sample_config. cbn [obj_get]. intros H.
    repeat (case_bool_decide; [injection H as <-; eexists; split; [reflexivity|]; intros k w; cbn [obj_get];
      repeat (case_bool_decide; [intros [= <-]; by eexists|]); done|]). done.
Qed.

Definition sample_own : obj := [(js "console", JObj [(js "enabled", JBool true); (js "token", JBool false)])].

Lemma sample_own_ok : config_ok sample_own.
Proof.
  split.
  - apply plain_object_ok; [vm_compute; reflexivity| |vm_compute; reflexivity|vm_compute; reflexivity]. constructor; [|constructor]. cbn [snd].
    apply plain_object_ok; [vm_compute; reflexivity| |vm_compute; reflexivity|vm_compute; reflexivity]. repeat (constructor; [constructor|]); constructor.
  - intros s v. unfold sample_own. cbn [obj_get]. intros H.
    repeat (case_bool_decide; [injection H as <-; eexists; split; [reflexivity|]; intros k w; cbn [obj_get];
      repeat (case_bool_decide; [intros [= <-]; by eexists|]); done|]). done.
Qed.

Lemma module_readers_agree_witness :
  let admin := parseSidebarConfig (admin_text (Some (JObj sample_status))) in
  let own := user_config None (Some (json_stringify (JObj sample_own))) in
  isModuleEnabled (js "/playground") admin own = false ∧ isModuleEnabled (js "/keys") admin own = false ∧
  playground_guard (Some (json_stringify (JObj sample_status))) = false.
Proof.
  assert (json_ok (JObj sample_status)) as Hst.
  { apply plain_object_ok; [vm_compute; reflexivity| |vm_compute; reflexivity|vm_compute; reflexivity].
    constructor; [|constructor]. constructor. apply (bool_decide_unpack (Forall (λ c, (c < 65536)%N) _)). vm_compute. exact I. }
  assert (∀ cu, Some sample_own = Some cu → config_ok cu) as Hown by (intros cu [= <-]; exact sample_own_ok).
  pose proof (module_readers_agree (λ s, s) sample_config sample_status None (Some sample_own) (js "/playground") (js "chat") (js "playground")
                    sample_config_ok Hst eq_refl Hown eq_refl) as H1.
  pose proof (module_readers_agree (λ s, s) sample_config sample_status None (Some sample_own) (js "/keys") (js "console") (js "token")
                    sample_config_ok Hst eq_refl Hown eq_refl) as H2.
  split_and!; [exact (proj1 H1)|exact (proj1 H2)|exact (proj1 (proj2 H1))].
Defined.

(** On a stored value that is not a boolean they disagree: a module set to [1] is on in the
    editor and for the route guard, and missing from the sidebar. *)
Theorem numeric_switch_read_differently :
  let c := [(js "chat", JObj [(js "enabled", JBool true); (js "playground", JNum (num_of_Z 1))])] in
  let text := json_stringify (JObj c) in
  flag (parseSidebarModulesAdmin (λ s, s) (Some text)) (js "chat") (js "playground") = true ∧
  isSidebarModuleEnabled (Some (json_stringify (JObj [(js "SidebarModulesAdmin", JStr text)]))) (js "chat") (js "playground") = true ∧
  isModuleEnabled (js "/playground") (parseSidebarConfig (Some text)) None = false.
Proof. cbv zeta. split_and!; vm_compute; reflexivity. Qed.

(** ** What the sidebar shows *)

(** The links of the sidebar. *)
Definition item_urls (item : NavItem) : list str :=
  match item with
  | NavLink _ url _ => [url]
  | NavCollapsible _ _ subs => map snd subs
  | NavChatPresets _ => []
  end.

Definition sidebar_urls (groups : list NavGroup) : list str := groups ≫= (λ g, items g ≫= item_urls).

(** A link of an item is shown. *)
Definition shows (status : option json) (a : obj) (u : option json) (item : NavItem) (url : str) : Prop :=
  match item with
  | NavLink _ x _ => url = x ∧ isNavItemVisible item a u = true ∧ rewards_shown status item = true
  | NavCollapsible _ _ subs => url ∈ map snd subs ∧ isModuleEnabled url a u = true
  | NavChatPresets _ => False
  end.

Lemma module_narrows url a u : isModuleEnabled url a u = true → isModuleEnabled url a None = true.
Proof. unfold isModuleEnabled. destruct (mapping_of url) as [[s m]|]; [|done]. by destruct (admin_allows a s m). Qed.

Lemma item_shows status a u item url :
  (∃ i, i = filter_sub a u item ∧ isNavItemVisible i a u = true ∧ rewards_shown status i = true ∧ url ∈ item_urls i) ↔
  shows status a u item url.
Proof.
  destruct item as [t x cfg|t cfg subs|t]; cbn [filter_sub item_urls shows].
  - split; [intros (i & -> & Hv & Hr & Hu)|intros (-> & Hv & Hr)].
    + cbn in Hu. apply list_elem_of_singleton in Hu. done.
    + eexists. split_and!; [reflexivity|done|done|by left].
  - split.
    + intros (i & -> & _ & _ & Hu). cbn [item_urls] in Hu. apply elem_of_lmap in Hu as (sub & -> & Hs).
      apply elem_of_bfilter in Hs as [Hs He]. split; [apply elem_of_lmap; by exists sub|done].
    + intros [(sub & -> & Hs)%elem_of_lmap He]. eexists. split_and!; [reflexivity| |done|].
      * cbn [isNavItemVisible]. apply existsb_exists. exists sub. split; [|done].
        apply list_elem_of_In, elem_of_bfilter. done.
      * cbn [item_urls]. apply elem_of_lmap. exists sub. split; [done|]. by apply elem_of_bfilter.
  - split; [intros (i & -> & _ & _ & Hu); by apply not_elem_of_nil in Hu|done].
Qed.

(** The links the hook returns, without its removal of empty groups. *)
Lemma group_urls status a u g url :
  url ∈ (items (filter_group status a u g) ≫= item_urls) ↔ ∃ item, item ∈ items g ∧ shows status a u item url.
Proof.
  rewrite list_elem_of_bind. cbn [items filter_group]. unfold filterNavItems. split.
  - intros (i & Hu & Hi). apply elem_of_bfilter in Hi as [Hi Hr]. apply elem_of_bfilter in Hi as [Hi Hv].
    apply elem_of_lmap in Hi as (item & -> & Hin). exists item. split; [done|]. apply item_shows. eauto.
  - intros (item & Hin & (i & -> & Hv & Hr & Hu)%item_shows). eexists. split; [exact Hu|].
    apply elem_of_bfilter. split; [|done]. apply elem_of_bfilter. split; [|done]. apply elem_of_lmap. by exists item.
Qed.

Lemma sidebar_urls_of status settings modules groups url :
  url ∈ sidebar_urls (useSidebarConfig status settings modules groups) ↔
  ∃ g item, g ∈ groups ∧ item ∈ items g ∧
            shows status (parseSidebarConfig (admin_text status)) (user_config settings modules) item url.
Proof.
  unfold sidebar_urls, useSidebarConfig. cbv zeta. rewrite list_elem_of_bind. split.
  - intros (g' & Hu & [(g & -> & Hg)%elem_of_lmap _]%elem_of_bfilter). apply group_urls in Hu as (item & Hi & Hs). by exists g, item.
  - intros (g & item & Hg & Hi & Hs). exists (filter_group status (parseSidebarConfig (admin_text status)) (user_config settings modules) g).
    assert (url ∈ (items (filter_group status (parseSidebarConfig (admin_text status)) (user_config settings modules) g) ≫= item_urls)) as Hu
      by (apply group_urls; eauto).
    split; [exact Hu|]. apply elem_of_bfilter. split; [apply elem_of_lmap; by exists g|].
    destruct (items (filter_group _ _ _ g)); [by apply not_elem_of_nil in Hu|done].
Qed.

Lemma shows_narrows status a u item url : shows status a u item url → shows status a None item url.
Proof.
  destruct item as [t x cfg|t cfg subs|t]; cbn [shows]; [|intros [H1 H2]; split; [done|by eapply module_narrows]|done].
  intros (-> & Hv & Hr). split_and!; [done| |done]. cbn [isNavItemVisible] in *. destruct (truthy x); [|done].
  apply existsb_exists in Hv as (y & Hin & Hy). apply existsb_exists. exists y. split; [done|by eapply module_narrows].
Qed.

(** The sidebar shows exactly what both layers allow: a link is shown if and only if it belongs
    to an item of the navigation whose own switches are on; every link of a collapsible item is enabled by
    the administrator; and the user's settings only hide: each link shown with them is shown
    without them. *)
Theorem sidebar_shows_exactly (status : option json) (settings : option bool) (modules : option str) (groups : list NavGroup)
  (url : str) :
  let admin := parseSidebarConfig (admin_text status) in
  let shown := sidebar_urls (useSidebarConfig status settings modules groups) in
  (url ∈ shown ↔ ∃ g item, g ∈ groups ∧ item ∈ items g ∧ shows status admin (user_config settings modules) item url) ∧
  (url ∈ shown → url ∈ sidebar_urls (useSidebarConfig status settings None groups)) ∧
  (∀ s m, (∀ g item, g ∈ groups → item ∈ items g → ∀ t x cfg, item = NavLink t x cfg → cfg = None ∧ x ≠ []) →
          mapping_of url = Some (s, m) → admin_allows admin s m = false → url ∉ shown).
Proof.
  cbv zeta. split; [apply sidebar_urls_of|]. split.
  - rewrite !sidebar_urls_of. intros (g & item & Hg & Hi & Hs). exists g, item. split_and!; [done|done|].
    replace (user_config settings None) with (@None json) by by destruct settings as [[]|]. by eapply shows_narrows.
  - intros s m Hplain Hurl Hoff. rewrite sidebar_urls_of. intros (g & item & Hg & Hi & Hs).
    assert (isModuleEnabled url (parseSidebarConfig (admin_text status)) None = false) as Hno
      by (unfold isModuleEnabled; by rewrite Hurl, Hoff).
    apply shows_narrows in Hs. destruct item as [t x cfg|t cfg subs|t]; cbn [shows] in Hs; [|by destruct Hs; congruence|done].
    destruct Hs as (-> & Hv & _). destruct (Hplain g _ Hg Hi t x cfg eq_refl) as [-> Hx]. cbn [isNavItemVisible] in Hv.
    destruct x as [|c x]; [done|]. cbn [truthy default existsb] in Hv. by rewrite orb_false_r, Hno in Hv.
Qed.

(** ** The header *)

Definition special (k : str) : bool := bool_decide (k = js "pricing") || bool_decide (k = js "rankings").

(** A header configuration as the editor writes it. *)
Definition header_ok (c : obj) : Prop :=
  json_ok (JObj c) ∧
  ∀ k v, obj_get k c = Some v → if special k then ∃ a, v = json_of_access a else ∃ b, v = JBool b.

Section header.
Context (toLowerCase : str → str).

Lemma parseAccess_id a fb : parseAccess toLowerCase (json_of_access a) fb = a.
Proof. destruct a. reflexivity. Qed.

Lemma parseAccessModule_id a fb : parseAccessModule toLowerCase (json_of_access a) fb = a.
Proof. destruct a. reflexivity. Qed.

Lemma header_fold c k : header_ok c → k ≠ PROTO →
  obj_get k (fold_left (read_entry toLowerCase) c DEFAULT_HEADER_NAV_MODULES) =
  match obj_get k c with Some v => Some v | None => obj_get k DEFAULT_HEADER_NAV_MODULES end.
Proof.
  intros [Hok Hv] Hp.
  rewrite (fold_entries_get _ (λ a v,
    if special k then Some (json_of_access (parseAccess toLowerCase v (default OPEN (a ≫= access_of_json))))
    else let fallback := match a with Some (JBool b) => Some b | _ => None end in
         if bool_decide (is_Some fallback) || match v with JBool _ | JNum _ | JStr _ => true | _ => false end
         then Some (JBool (parseHeaderNavBoolean toLowerCase (Some v) (default true fallback))) else a));
    [..|by apply json_ok_keys].
  - destruct (obj_get k c) as [v|] eqn:E; [|done]. specialize (Hv k v E). destruct (special k).
    + destruct Hv as [a ->]. by rewrite parseAccess_id.
    + destruct Hv as [b ->]. cbv zeta. by rewrite orb_true_r.
  - intros a k' v Hk. unfold read_entry. fold (special k'). destruct (special k'); [by apply obj_get_set_ne|].
    destruct (_ || _); [|done]. unfold set_flag. case_bool_decide; [done|by apply obj_get_set_ne].
  - intros a v. unfold read_entry. fold (special k). destruct (special k); [apply obj_get_set_eq|]. cbv zeta.
    destruct (_ || _); [|done]. unfold set_flag. rewrite bool_decide_false by done. apply obj_get_set_eq.
Qed.

Lemma editor_fold c k : header_ok c → k ≠ PROTO →
  obj_get k (fold_left (edit_entry toLowerCase) c HEADER_NAV_DEFAULT) =
  match obj_get k c with Some v => Some v | None => obj_get k HEADER_NAV_DEFAULT end.
Proof.
  intros [Hok Hv] Hp.
  rewrite (fold_entries_get _ (λ a v,
    if special k then Some (json_of_access (parseAccessModule toLowerCase v (current_access k HEADER_NAV_DEFAULT)))
    else match v with
         | JBool b => Some (JBool b)
         | JStr _ | JNum _ => Some (JBool (toBoolean toLowerCase (Some v) (base_truthy k)))
         | _ => a
         end)); [..|by apply json_ok_keys].
  - destruct (obj_get k c) as [v|] eqn:E; [|done]. specialize (Hv k v E). destruct (special k).
    + destruct Hv as [a ->]. by rewrite parseAccessModule_id.
    + by destruct Hv as [b ->].
  - intros a k' v Hk. unfold edit_entry. fold (special k'). destruct (special k'); [by apply obj_get_set_ne|].
    unfold set_flag. destruct v; try done; (case_bool_decide; [done|by apply obj_get_set_ne]).
  - intros a v. unfold edit_entry. fold (special k). destruct (special k); [apply obj_get_set_eq|].
    unfold set_flag. rewrite (bool_decide_false (k = PROTO)) by done. destruct v; try done; apply obj_get_set_eq.
Qed.

End header.

(** The header, the guards of the public pages and the editor read the saved header modules alike:
    each module has the value that was saved, or its default when the text lacks it; and when
    the status cannot be fetched the guards are closed, for signed-in users too. *)
Theorem header_readers_agree (toLowerCase : str → str) (c st : obj) (k : str)
  (Hc : header_ok c) (Htext : obj_get (js "HeaderNavModules") st = Some (JStr (serializeHeaderNavModules c))) (Hk : k ≠ PROTO) :
  let saved := match obj_get k c with Some v => Some v | None => obj_get k HEADER_NAV_DEFAULT end in
  obj_get k (parseHeaderNavModulesFromStatus toLowerCase (Some (JObj st))) = saved ∧
  obj_get k (AdminModules.parseHeaderNavModules toLowerCase (Some (serializeHeaderNavModules c))) = saved ∧
  (∀ m, k = module_name m → saved = Some (json_of_access (getModuleAccessFromStatus toLowerCase (Some (JObj st)) m))) ∧
  (∀ m stores storage authed,
     module_guard (fst (getFreshModuleAccess toLowerCase Throw stores storage m)) authed = GoHome).
Proof.
  cbv zeta. destruct (text_reads c (proj1 Hc)) as [Hparse Htrim].
  assert (obj_get k (parseHeaderNavModulesFromStatus toLowerCase (Some (JObj st))) =
          match obj_get k c with Some v => Some v | None => obj_get k HEADER_NAV_DEFAULT end) as H.
  { unfold parseHeaderNavModulesFromStatus, NavModules.parseHeaderNavModules, parseHeaderNavRecord.
    cbn [opt_prop]. rewrite Htext. change (serializeHeaderNavModules c) with (json_stringify (JObj c)).
    cbn [json_to_string json_truthy]. rewrite Htrim, Hparse. cbn [negb orb json_truthy entries_of].
    change (truthy (json_stringify (JObj c))) with true. cbn [negb orb json_truthy entries_of]. by apply header_fold. }
  split; [exact H|]. split; [|split; [|by intros []]].
  - unfold AdminModules.parseHeaderNavModules. change (serializeHeaderNavModules c) with (json_stringify (JObj c)).
    destruct (stringify_head _ (proj1 Hc)) as (x & u & E & _). rewrite E in Hparse |- *. rewrite Hparse. cbn [entries_of].
    by apply editor_fold.
  - intros m Hm. rewrite <- H. unfold getModuleAccessFromStatus. rewrite <- Hm, H.
    assert (∃ a, match obj_get k c with Some v => Some v | None => obj_get k HEADER_NAV_DEFAULT end = Some (json_of_access a)) as [a ->].
    { destruct (obj_get k c) as [v|] eqn:E.
      - pose proof (proj2 Hc k v E) as Hv. assert (special k = true) as Es by (subst k; destruct m; reflexivity).
        rewrite Es in Hv. destruct Hv as [a ->]. by exists a.
      - exists OPEN. subst k. destruct m; reflexivity. }
    by destruct a.
Qed.

Definition sample_header : obj :=
  [(js "home", JBool false); (js "pricing", json_of_access {| enabled := true; requireAuth := true |})].

Lemma header_readers_agree_witness :
  obj_get (js "home") (parseHeaderNavModulesFromStatus (λ s, s)
     (Some (JObj [(js "HeaderNavModules", JStr (serializeHeaderNavModules sample_header))]))) = Some (JBool false).
Proof.
  assert (header_ok sample_header) as Hc.
  { split.
    - apply plain_object_ok; [vm_compute; reflexivity| |vm_compute; reflexivity|vm_compute; reflexivity].
      constructor; [constructor|]. constructor; [|constructor]. cbn [snd].
      apply plain_object_ok; [vm_compute; reflexivity| |vm_compute; reflexivity|vm_compute; reflexivity].
      repeat (constructor; [constructor|]); constructor.
    - intros k v. unfold sample_header. cbn [obj_get]. intros H. case_bool_decide as E1.
      + subst k. injection H as <-. exact (ex_intro _ false eq_refl).
      + case_bool_decide as E2; [|done]. subst k. injection H as <-. exact (ex_intro _ _ eq_refl). }
  assert (js "home" ≠ PROTO) as Hk by (apply (bool_decide_unpack (_ ≠ _)); vm_compute; exact I).
  exact (proj1 (header_readers_agree (λ s, s) sample_header
    [(js "HeaderNavModules", JStr (serializeHeaderNavModules sample_header))] (js "home") Hc eq_refl Hk)).
Defined.
