(* ===== verification/ParamOverride.v ===== *)
(** * Parameter overrides ([web/default/src/features/channels/components/dialogs/param-override-editor-dialog.tsx])

    The editor of the rules that rewrite requests of a channel: operations with their conditions, as a
    visual list or as JSON, the helpers of the modes that have an editor of their own, the checks before
    saving, and the dialog's state.

    [Date.now] ([clock], by the number of the call), [toLowerCase] and [toUpperCase] are parameters;
    messages are kept untranslated with their line. *)

From S2P Require Import Prelude JsString JsNumber Json JsonPretty.

(** ** Data *)

(** A condition of an operation; the rules of [prune_objects] have the same fields. *)
Record ParamOverrideCondition := {
  c_id : str; c_path : str; c_mode : str; c_value_text : str; c_invert : bool; c_pass_missing_key : bool }.

Record ParamOverrideOperation := {
  op_id : str; description : str; path : str; mode : str; op_from : str; op_to : str; value_text : str;
  keep_origin : bool; logic : str; conditions : list ParamOverrideCondition }.

Definition OPERATION_MODE_OPTIONS : list (str * str) :=
  map (λ '(l, v), (js l, js v))
  [("Set Field", "set"); ("Delete Field", "delete"); ("Append to End", "append"); ("Prepend to Start", "prepend");
   ("Copy Field", "copy"); ("Move Field", "move"); ("String Replace", "replace"); ("Regex Replace", "regex_replace");
   ("Trim Prefix", "trim_prefix"); ("Trim Suffix", "trim_suffix"); ("Ensure Prefix", "ensure_prefix");
   ("Ensure Suffix", "ensure_suffix"); ("Trim Space", "trim_space"); ("To Lowercase", "to_lower");
   ("To Uppercase", "to_upper"); ("Return Custom Error", "return_error"); ("Prune Object Items", "prune_objects");
   ("Pass Through Headers", "pass_headers"); ("Sync Fields", "sync_fields"); ("Set Request Header", "set_header");
   ("Delete Request Header", "delete_header"); ("Copy Request Header", "copy_header");
   ("Move Request Header", "move_header")]%string.

Definition OPERATION_MODE_VALUES : list str := map snd OPERATION_MODE_OPTIONS.

Definition OPERATION_MODE_LABEL_MAP (m : str) : option str :=
  fst <$> find (λ lv, bool_decide (snd lv = m)) OPERATION_MODE_OPTIONS.

Definition CONDITION_MODE_VALUES : list str :=
  map js ["full"; "prefix"; "suffix"; "contains"; "gt"; "gte"; "lt"; "lte"]%string.

Record Meta := {
  meta_path : bool; meta_pathOptional : bool; meta_value : bool; meta_from : bool; meta_to : bool;
  meta_keepOrigin : bool; meta_pathAlias : bool }.

Definition meta (p o v f t k a : bool) : Meta :=
  {| meta_path := p; meta_pathOptional := o; meta_value := v; meta_from := f; meta_to := t; meta_keepOrigin := k;
     meta_pathAlias := a |}.

Definition META_SET : Meta := meta true false true false false true false.

Definition MODE_META : list (str * Meta) :=
  let T := true in let F := false in
  [(js "delete", meta T F F F F F F); (js "set", META_SET); (js "append", META_SET); (js "prepend", META_SET);
   (js "copy", meta F F F T T F F); (js "move", meta F F F T T F F);
   (js "replace", meta T F F T F F F); (js "regex_replace", meta T F F T F F F);
   (js "trim_prefix", meta T F T F F F F); (js "trim_suffix", meta T F T F F F F);
   (js "ensure_prefix", meta T F T F F F F); (js "ensure_suffix", meta T F T F F F F);
   (js "trim_space", meta T F F F F F F); (js "to_lower", meta T F F F F F F); (js "to_upper", meta T F F F F F F);
   (js "return_error", meta F F T F F F F); (js "prune_objects", meta F T T F F F F);
   (js "pass_headers", meta F F T F F T F); (js "sync_fields", meta F F F T T F F);
   (js "set_header", META_SET); (js "delete_header", meta T F F F F F F);
   (js "copy_header", meta F F F T T T T); (js "move_header", meta F F F T T T T)].

(** [MODE_META[mode] || MODE_META.set] *)
Definition meta_of (m : str) : Meta := default META_SET (snd <$> find (λ kv, bool_decide (fst kv = m)) MODE_META).

Definition VALUE_REQUIRED_MODES : list str :=
  map js ["trim_prefix"; "trim_suffix"; "ensure_prefix"; "ensure_suffix"; "set_header"; "return_error"; "prune_objects";
          "pass_headers"]%string.
Definition FROM_REQUIRED_MODES : list str :=
  map js ["copy"; "move"; "replace"; "regex_replace"; "copy_header"; "move_header"; "sync_fields"]%string.
Definition TO_REQUIRED_MODES : list str := map js ["copy"; "move"; "copy_header"; "move_header"; "sync_fields"]%string.

(** ** Values *)

Definition toValueText (value : option json) : str :=
  match value with None => [] | Some (JStr s) => s | Some v => json_stringify v end.

Definition parseLooseValue (valueText : str) : json :=
  let raw := trim valueText in
  match raw with
  | [] => JStr []
  | _ => match json_parse raw with Some v => v | None => JStr raw end
  end.

Definition verifyJSON (text : str) : bool := match json_parse text with Some _ => true | None => false end.

(** [x.k] for a parsed [x]: [null] has no properties, and no other value but an object has these. *)
Definition as_members (v : json) : outcome obj :=
  match v with JNull => Throw | JObj o => Ret o | _ => Ret [] end.

(** [typeof x === 'string' ? x : ''] *)
Definition text_or_empty (v : option json) : str := match v with Some (JStr s) => s | _ => [] end.

Definition is_true (v : option json) : bool := match v with Some (JBool b) => b | _ => false end.

(** [modes.has(x) ? x : fallback] *)
Definition mode_or (modes : list str) (v : option json) (fallback : str) : str :=
  match v with Some (JStr s) => if bool_decide (s ∈ modes) then s else fallback | _ => fallback end.

Section editor.
Context (clock : nat → Z) (toLowerCase toUpperCase : str → str).

(** The [n]-th id the module hands out. *)
Definition nextLocalId (n : nat) : str := js "po_" ++ Z_dec (clock n) ++ js "_" ++ N_dec (N.of_nat n).

Definition condition_of (n : nat) (o : obj) : ParamOverrideCondition :=
  {| c_id := nextLocalId n; c_path := text_or_empty (obj_get (js "path") o);
     c_mode := mode_or CONDITION_MODE_VALUES (obj_get (js "mode") o) (js "full");
     c_value_text := toValueText (obj_get (js "value") o); c_invert := is_true (obj_get (js "invert") o);
     c_pass_missing_key := is_true (obj_get (js "pass_missing_key") o) |}.

Definition normalizeCondition (n : nat) (condition : json) : outcome ParamOverrideCondition :=
  o ← as_members condition; Ret (condition_of n o).

Definition createDefaultCondition (n : nat) : ParamOverrideCondition := condition_of n [].

Fixpoint normalizeConditions (n : nat) (l : list json) : outcome (list ParamOverrideCondition) :=
  match l with
  | [] => Ret []
  | x :: l' => c ← normalizeCondition n x; cs ← normalizeConditions (S n) l'; Ret (c :: cs)
  end.

(** [String(v || d).toUpperCase() === w] *)
Definition upper_is (v : option json) (d w : str) : bool :=
  bool_decide (toUpperCase (match truthy_text v with Some s => s | None => d end) = w).

(** The operation and the number of the next id. *)
Definition normalizeOperation (n : nat) (operation : json) : outcome (ParamOverrideOperation * nat) :=
  o ← as_members operation;
  let items := match obj_get (js "conditions") o with Some (JArr l) => l | _ => [] end in
  cs ← normalizeConditions (S n) items;
  Ret ({| op_id := nextLocalId n; description := text_or_empty (obj_get (js "description") o);
          path := text_or_empty (obj_get (js "path") o);
          mode := mode_or OPERATION_MODE_VALUES (obj_get (js "mode") o) (js "set");
          op_from := text_or_empty (obj_get (js "from") o); op_to := text_or_empty (obj_get (js "to") o);
          value_text := toValueText (obj_get (js "value") o); keep_origin := is_true (obj_get (js "keep_origin") o);
          logic := if upper_is (obj_get (js "logic") o) (js "OR") (js "AND") then js "AND" else js "OR";
          conditions := cs |}, S n + length items).

Fixpoint normalizeOperations (n : nat) (l : list json) : outcome (list ParamOverrideOperation * nat) :=
  match l with
  | [] => Ret ([], n)
  | x :: l' =>
      r ← normalizeOperation n x;
      rs ← normalizeOperations (snd r) l';
      Ret (fst r :: fst rs, snd rs)
  end.

(** [normalizeOperation({ mode: 'set' })]; it takes one id. *)
Definition createDefaultOperation (n : nat) : ParamOverrideOperation :=
  {| op_id := nextLocalId n; description := []; path := []; mode := js "set"; op_from := []; op_to := []; value_text := [];
     keep_origin := false; logic := js "OR"; conditions := [] |}.

(** ** Lists of operations *)

Definition find_op (id : str) (ops : list ParamOverrideOperation) : option nat :=
  fst <$> list_find (λ o, op_id o = id) ops.

Definition reorderOperations (ops : list ParamOverrideOperation) (sourceId targetId : str) (after : bool)
    : list ParamOverrideOperation :=
  if negb (truthy sourceId) || negb (truthy targetId) || bool_decide (sourceId = targetId) then ops
  else match find_op sourceId ops with
       | None => ops
       | Some i =>
           let next := take i ops ++ drop (S i) ops in
           match find_op targetId next, ops !! i with
           | Some k, Some moved => let k' := if after then S k else k in take k' next ++ [moved] ++ drop k' next
           | _, _ => ops
           end
       end.

Definition has_text (s : str) : bool := truthy (trim s).

Definition condition_touched (c : ParamOverrideCondition) : bool :=
  has_text (c_path c) || has_text (c_value_text c) || negb (bool_decide (c_mode c = js "full")) || c_invert c
  || c_pass_missing_key c.

Definition isOperationBlank (op : ParamOverrideOperation) : bool :=
  bool_decide (mode op = js "set") && negb (has_text (path op)) && negb (has_text (op_from op)) &&
  negb (has_text (op_to op)) && negb (has_text (value_text op)) && negb (keep_origin op) &&
  negb (existsb condition_touched (conditions op)).

(** [a || b] on texts *)
Definition or_text (a b : str) : str := if truthy a then a else b.

Definition getOperationSummary (op : ParamOverrideOperation) (index : nat) : str :=
  let m := or_text (mode op) (js "set") in
  let label := default m (OPERATION_MODE_LABEL_MAP m) in
  let shown := if bool_decide (m = js "sync_fields") then or_text (trim (op_from op)) (or_text (trim (op_to op)) (js "-"))
               else or_text (trim (path op)) (or_text (trim (op_from op)) (or_text (trim (op_to op)) (js "-"))) in
  N_dec (N.of_nat (S index)) ++ js ". " ++ label ++ js " · " ++ shown.

(** ** Modes with an editor of their own *)

Record SyncTarget := { st_header : bool; st_key : str }.

Definition parseSyncTargetSpec (spec : str) : SyncTarget :=
  let raw := trim spec in
  match index_of (js ":") raw with
  | None => {| st_header := false; st_key := raw |}
  | Some i =>
      {| st_header := bool_decide (toLowerCase (trim (take i raw)) = js "header"); st_key := trim (drop (S i) raw) |}
  end.

Definition buildSyncTargetSpec (t : SyncTarget) : str :=
  let key := trim (st_key t) in
  if truthy key then (if st_header t then js "header" else js "json") ++ js ":" ++ key else [].

Record ReturnErrorDraft := {
  re_message : str; statusCode : num; re_code : str; re_type : str; skipRetry : bool; re_simpleMode : bool }.

Definition default_return_error : ReturnErrorDraft :=
  {| re_message := []; statusCode := num_of_Z 400; re_code := []; re_type := []; skipRetry := true; re_simpleMode := true |}.

(** [Number.isInteger(x) && x >= 100 && x <= 599 ? x : 400] *)
Definition status_or_400 (x : num) : num :=
  if bool_decide (is_Some (integer_of x)) && nle (num_of_Z 100) x && nle x (num_of_Z 599) then x else num_of_Z 400.

(** [String(a || b || '').trim()] *)
Fixpoint first_trimmed (l : list (option json)) : str :=
  match l with
  | [] => []
  | v :: l' => match truthy_text v with Some s => trim s | None => first_trimmed l' end
  end.

Definition parseReturnErrorDraft (valueText : str) : ReturnErrorDraft :=
  let raw := trim valueText in
  match raw with
  | [] => default_return_error
  | _ =>
      match parse_object raw with
      | Some o =>
          let statusRaw := match obj_get (js "status_code") o with Some v => Some v | None => obj_get (js "status") o end in
          {| re_message := first_trimmed [obj_get (js "message") o; obj_get (js "msg") o];
             statusCode := status_or_400 (opt_number statusRaw);
             re_code := first_trimmed [obj_get (js "code") o]; re_type := first_trimmed [obj_get (js "type") o];
             skipRetry := match obj_get (js "skip_retry") o with Some (JBool false) => false | _ => true end;
             re_simpleMode := false |}
      | None =>
          {| re_message := raw; statusCode := num_of_Z 400; re_code := []; re_type := []; skipRetry := true; re_simpleMode := true |}
      end
  end.

(** [if (s) payload.k = s] *)
Definition text_member (k : string) (s : str) : obj := if truthy s then [(js k, JStr s)] else [].

Definition return_error_payload (d : ReturnErrorDraft) : obj :=
  [(js "message", JStr (trim (re_message d))); (js "status_code", JNum (status_or_400 (statusCode d)))] ++
  text_member "code" (trim (re_code d)) ++ text_member "type" (trim (re_type d)) ++
  (if skipRetry d then [] else [(js "skip_retry", JBool false)]).

Definition buildReturnErrorValueText (d : ReturnErrorDraft) : str :=
  if re_simpleMode d then trim (re_message d) else json_stringify (JObj (return_error_payload d)).

Record PruneObjectsDraft := {
  po_simpleMode : bool; typeText : str; po_logic : str; recursive : bool; rules : list ParamOverrideCondition }.

Definition default_prune : PruneObjectsDraft :=
  {| po_simpleMode := true; typeText := []; po_logic := js "AND"; recursive := true; rules := [] |}.

Definition simple_prune (t : str) : PruneObjectsDraft :=
  {| po_simpleMode := true; typeText := t; po_logic := js "AND"; recursive := true; rules := [] |}.

(** [normalizePruneRule], which reads the same fields as [normalizeCondition]. *)
Definition normalizePruneRule (n : nat) (o : obj) : ParamOverrideCondition := condition_of n o.

(** A rule per entry of [{ path: value }]. *)
Definition rules_of_table (n : nat) (table : obj) : list ParamOverrideCondition :=
  imap (λ i kv, normalizePruneRule (n + i)
    [(js "path", JStr (fst kv)); (js "mode", JStr (js "full")); (js "value", snd kv)]) table.

Definition rules_of_list (n : nat) (l : list json) : list ParamOverrideCondition :=
  imap (λ i o, normalizePruneRule (n + i) o)
    (omap (λ v, match v with JObj o => Some o | JArr _ => Some [] | _ => None end) l).

(** The rules of [where], then those of [conditions]. *)
Definition prune_rules (n : nat) (o : obj) : list ParamOverrideCondition :=
  let first := match obj_get (js "where") o with Some (JObj w) => rules_of_table n w | _ => [] end in
  first ++ match obj_get (js "conditions") o with
           | Some (JArr l) => rules_of_list (n + length first) l
           | Some (JObj c) => rules_of_table (n + length first) c
           | _ => []
           end.

Definition given (v : option json) : bool := match v with Some _ => true | None => false end.

(** The draft; the ids of its rules are fresh, from [n] on. *)
Definition parsePruneObjectsDraft (n : nat) (valueText : str) : PruneObjectsDraft :=
  let raw := trim valueText in
  match raw with
  | [] => default_prune
  | _ =>
      match json_parse raw with
      | None => simple_prune raw
      | Some (JStr s) => simple_prune (trim s)
      | Some (JObj o) =>
          {| po_simpleMode := negb (given (obj_get (js "logic") o) || given (obj_get (js "recursive") o) ||
                                    given (obj_get (js "where") o) || given (obj_get (js "conditions") o));
             typeText := match obj_get (js "type") o with Some v => trim (json_to_string v) | None => [] end;
             po_logic := if upper_is (obj_get (js "logic") o) (js "AND") (js "OR") then js "OR" else js "AND";
             recursive := match obj_get (js "recursive") o with Some (JBool false) => false | _ => true end;
             rules := prune_rules n o |}
      | Some JNull => simple_prune []
      | Some v => simple_prune (trim (json_to_string v))
      end
  end.

(** [if (b) payload.k = v] *)
Definition member_if (b : bool) (k : string) (v : json) : obj := if b then [(js k, v)] else [].

Definition rule_payload (r : ParamOverrideCondition) : json :=
  JObj ([(js "path", JStr (trim (c_path r)));
         (js "mode", JStr (if bool_decide (c_mode r ∈ CONDITION_MODE_VALUES) then c_mode r else js "full"))] ++
        member_if (has_text (c_value_text r)) "value" (parseLooseValue (trim (c_value_text r))) ++
        member_if (c_invert r) "invert" (JBool true) ++ member_if (c_pass_missing_key r) "pass_missing_key" (JBool true)).

Definition buildPruneObjectsValueText (d : PruneObjectsDraft) : str :=
  let t := trim (typeText d) in
  if po_simpleMode d then t
  else
    let conds := map rule_payload (List.filter (λ r, has_text (c_path r)) (rules d)) in
    if negb (truthy t) && match conds with [] => true | _ => false end
    then json_stringify (JObj [(js "logic", JStr (js "AND"))])
    else json_stringify (JObj (text_member "type" t ++
           member_if (bool_decide (toUpperCase (or_text (po_logic d) (js "AND")) = js "OR")) "logic" (JStr (js "OR")) ++
           member_if (negb (recursive d)) "recursive" (JBool false) ++
           member_if (match conds with [] => false | _ => true end) "conditions" (JArr conds))).

(** [String(i ?? '').trim()], the empty ones dropped *)
Definition names_of (l : list json) : list str :=
  List.filter truthy (map (λ v, match v with JNull => [] | _ => trim (json_to_string v) end) l).

Definition parsePassHeaderNames (rawValue : json) : list str :=
  match rawValue with
  | JArr l => names_of l
  | JObj o =>
      match obj_get (js "headers") o, obj_get (js "header") o with
      | Some (JArr l), _ => names_of l
      | _, Some h => names_of [h]
      | _, None => []
      end
  | JStr s => List.filter truthy (map trim (split (js ",") s))
  | _ => []
  end.

(** ** Saving *)

Definition buildConditionPayload (c : ParamOverrideCondition) : option json :=
  let p := trim (c_path c) in
  if truthy p
  then Some (JObj ([(js "path", JStr p); (js "mode", JStr (or_text (c_mode c) (js "full")));
                    (js "value", parseLooseValue (c_value_text c))] ++
                   member_if (c_invert c) "invert" (JBool true) ++
                   member_if (c_pass_missing_key c) "pass_missing_key" (JBool true)))
  else None.

(** A message for the user, with the line of the rule it is about. *)
Record Message := { msg : str; line : option nat }.

Definition rule_error (text : string) (i : nat) : option Message := Some {| msg := js text; line := Some (S i) |}.

(** The first complaint about the operation at index [i].  The modes whose own checks begin with an empty
    value all require a value, so those checks are never reached. *)
Definition validate_one (i : nat) (op : ParamOverrideOperation) : option Message :=
  let m := or_text (mode op) (js "set") in
  let mt := meta_of m in
  let aliased := meta_pathAlias mt && has_text (path op) in
  if meta_path mt && negb (has_text (path op)) then rule_error "Rule {{line}} is missing target path" i
  else if bool_decide (m ∈ FROM_REQUIRED_MODES) && negb (has_text (op_from op)) && negb aliased
  then rule_error "Rule {{line}} is missing source field" i
  else if bool_decide (m ∈ TO_REQUIRED_MODES) && negb (has_text (op_to op)) && negb aliased
  then rule_error "Rule {{line}} is missing target field" i
  else if bool_decide (m ∈ VALUE_REQUIRED_MODES) && negb (has_text (value_text op))
  then rule_error "Rule {{line}} is missing value" i
  else if bool_decide (m = js "return_error") &&
          match parse_object (trim (value_text op)) with
          | Some o => negb (truthy (first_trimmed [obj_get (js "message") o]))
          | None => false
          end
  then rule_error "Rule {{line}} return_error requires a message field" i
  else if bool_decide (m = js "pass_headers") &&
          match parsePassHeaderNames (parseLooseValue (trim (value_text op))) with [] => true | _ => false end
  then rule_error "Rule {{line}} pass_headers format is invalid" i
  else None.

Fixpoint validate_from (i : nat) (ops : list ParamOverrideOperation) : option Message :=
  match ops with
  | [] => None
  | op :: rest => match validate_one i op with Some e => Some e | None => validate_from (S i) rest end
  end.

Definition validateOperations (ops : list ParamOverrideOperation) : option Message := validate_from 0 ops.

Definition condition_payloads (op : ParamOverrideOperation) : list json := omap buildConditionPayload (conditions op).

(** The members in the order in which the code sets them; with [pathAlias] an empty [from] or [to] is
    replaced by the path. *)
Definition operation_payload (op : ParamOverrideOperation) : json :=
  let m := or_text (mode op) (js "set") in
  let mt := meta_of m in
  let p := trim (path op) in
  let alias s := if meta_pathAlias mt then or_text s p else s in
  let conds := condition_payloads op in
  let has_conds := match conds with [] => false | _ => true end in
  JObj ([(js "mode", JStr m)] ++ text_member "description" (trim (description op)) ++
        member_if (meta_path mt || (meta_pathOptional mt && truthy p)) "path" (JStr p) ++
        member_if (meta_value mt) "value" (parseLooseValue (value_text op)) ++
        member_if (meta_keepOrigin mt && keep_origin op) "keep_origin" (JBool true) ++
        member_if (meta_from mt) "from" (JStr (alias (trim (op_from op)))) ++
        member_if (meta_to mt || has_text (op_to op)) "to" (JStr (alias (trim (op_to op)))) ++
        member_if has_conds "conditions" (JArr conds) ++
        member_if has_conds "logic" (JStr (if bool_decide (logic op = js "AND") then js "AND" else js "OR"))).

Definition buildOperationsJson (validate : bool) (ops : list ParamOverrideOperation) : Message + str :=
  let filtered := List.filter (λ o, negb (isOperationBlank o)) ops in
  match filtered with
  | [] => inr []
  | _ =>
      match (if validate then validateOperations filtered else None) with
      | Some e => inl e
      | None => inr (json_pretty (JObj [(js "operations", JArr (map operation_payload filtered))]))
      end
  end.

(** ** Templates *)

Definition jtext (s : string) : json := JStr (js s).
Definition one_of (k : string) (v : json) : str * json := (js k, v).
Definition operations_of (l : list json) : json := JObj [one_of "operations" (JArr l)].

Definition LEGACY_TEMPLATE : json :=
  JObj [one_of "temperature" (JNum (num_of_Z 0)); one_of "max_tokens" (JNum (num_of_Z 1000))].

Definition template_condition (p m v : string) : json :=
  JObj [one_of "path" (jtext p); one_of "mode" (jtext m); one_of "value" (jtext v)].

Definition OPERATION_TEMPLATE : json :=
  operations_of [JObj [one_of "description" (jtext "Set default temperature for openai/* models.");
    one_of "path" (jtext "temperature"); one_of "mode" (jtext "set"); one_of "value" (JNum (dec_to_num 7 (-1)));
    one_of "conditions" (JArr [template_condition "model" "prefix" "openai/"]); one_of "logic" (jtext "AND")]].

Definition HEADER_PASSTHROUGH_TEMPLATE : json :=
  operations_of [JObj [one_of "description" (jtext "Pass through X-Request-Id header to upstream.");
    one_of "mode" (jtext "pass_headers"); one_of "value" (JArr [jtext "X-Request-Id"]); one_of "keep_origin" (JBool true)]].

Definition GEMINI_IMAGE_4K_TEMPLATE : json :=
  operations_of [JObj [one_of "description" (jtext "Set imageSize to 4K when model contains gemini/image and ends with 4k.");
    one_of "mode" (jtext "set"); one_of "path" (jtext "generationConfig.imageConfig.imageSize"); one_of "value" (jtext "4K");
    one_of "conditions" (JArr [template_condition "original_model" "contains" "gemini";
      template_condition "original_model" "contains" "image"; template_condition "original_model" "suffix" "4k"]);
    one_of "logic" (jtext "AND")]].

Definition CODEX_CLI_HEADER_PASSTHROUGH_HEADERS : list string :=
  ["Originator"; "Session_id"; "User-Agent"; "X-Codex-Beta-Features"; "X-Codex-Turn-Metadata"]%string.

Definition CLAUDE_CLI_HEADER_PASSTHROUGH_HEADERS : list string :=
  ["X-Stainless-Arch"; "X-Stainless-Lang"; "X-Stainless-Os"; "X-Stainless-Package-Version"; "X-Stainless-Retry-Count"; "X-Stainless-Runtime"; "X-Stainless-Runtime-Version"; "X-Stainless-Timeout"; "User-Agent"; "X-App"; "Anthropic-Beta"; "Anthropic-Dangerous-Direct-Browser-Access"; "Anthropic-Version"]%string.

Definition buildPassHeadersTemplate (headers : list string) : json :=
  operations_of [JObj [one_of "mode" (jtext "pass_headers"); one_of "value" (JArr (map jtext headers));
                       one_of "keep_origin" (JBool true)]].

Definition BEDROCK_TOKENS : obj :=
  [(js "advanced-tool-use-2025-11-20", JStr (js "tool-search-tool-2025-10-19"));
   (js "bash_20241022", JNull);
   (js "bash_20250124", JNull);
   (js "code-execution-2025-08-25", JNull);
   (js "compact-2026-01-12", JStr (js "compact-2026-01-12"));
   (js "computer-use-2025-01-24", JStr (js "computer-use-2025-01-24"));
   (js "computer-use-2025-11-24", JStr (js "computer-use-2025-11-24"));
   (js "context-1m-2025-08-07", JStr (js "context-1m-2025-08-07"));
   (js "context-management-2025-06-27", JStr (js "context-management-2025-06-27"));
   (js "effort-2025-11-24", JNull);
   (js "fast-mode-2026-02-01", JNull);
   (js "files-api-2025-04-14", JNull);
   (js "fine-grained-tool-streaming-2025-05-14", JNull);
   (js "interleaved-thinking-2025-05-14", JStr (js "interleaved-thinking-2025-05-14"));
   (js "mcp-client-2025-11-20", JNull);
   (js "mcp-client-2025-04-04", JNull);
   (js "mcp-servers-2025-12-04", JNull);
   (js "output-128k-2025-02-19", JNull);
   (js "structured-output-2024-03-01", JNull);
   (js "prompt-caching-scope-2026-01-05", JNull);
   (js "skills-2025-10-02", JNull);
   (js "structured-outputs-2025-11-13", JNull);
   (js "text_editor_20241022", JNull);
   (js "text_editor_20250124", JNull);
   (js "token-efficient-tools-2025-02-19", JNull);
   (js "tool-search-tool-2025-10-19", JStr (js "tool-search-tool-2025-10-19"));
   (js "web-fetch-2025-09-10", JNull);
   (js "web-search-2025-03-05", JNull);
   (js "oauth-2025-04-20", JNull)].

Definition AWS_BEDROCK_ANTHROPIC_COMPAT_TEMPLATE : json :=
  operations_of
    [JObj [one_of "description" (jtext "Normalize anthropic-beta header tokens for Bedrock compatibility.");
           one_of "mode" (jtext "set_header"); one_of "path" (jtext "anthropic-beta"); one_of "value" (JObj BEDROCK_TOKENS)];
     JObj [one_of "description" (jtext "Remove all tools[*].custom.input_examples before upstream relay.");
           one_of "mode" (jtext "delete"); one_of "path" (jtext "tools.*.custom.input_examples")]].

Record TemplatePresetConfig := { preset_label : str; preset_legacy : bool; payload : json }.

Definition OPERATIONS_DEFAULT : TemplatePresetConfig :=
  {| preset_label := js "New Format Template"; preset_legacy := false; payload := OPERATION_TEMPLATE |}.

Definition TEMPLATE_PRESET_CONFIG : list (str * TemplatePresetConfig) :=
  [(js "operations_default", OPERATIONS_DEFAULT);
   (js "legacy_default", {| preset_label := js "Legacy Format Template"; preset_legacy := true; payload := LEGACY_TEMPLATE |});
   (js "pass_headers_auth", {| preset_label := js "Header Passthrough (X-Request-Id)"; preset_legacy := false;
                               payload := HEADER_PASSTHROUGH_TEMPLATE |});
   (js "gemini_image_4k", {| preset_label := js "Gemini Image 4K"; preset_legacy := false; payload := GEMINI_IMAGE_4K_TEMPLATE |});
   (js "claude_cli_headers_passthrough", {| preset_label := js "Claude CLI Header Passthrough"; preset_legacy := false;
      payload := buildPassHeadersTemplate CLAUDE_CLI_HEADER_PASSTHROUGH_HEADERS |});
   (js "codex_cli_headers_passthrough", {| preset_label := js "Codex CLI Header Passthrough"; preset_legacy := false;
      payload := buildPassHeadersTemplate CODEX_CLI_HEADER_PASSTHROUGH_HEADERS |});
   (js "aws_bedrock_anthropic_beta_override", {| preset_label := js "AWS Bedrock Claude Compat"; preset_legacy := false;
      payload := AWS_BEDROCK_ANTHROPIC_COMPAT_TEMPLATE |})].

Definition preset (key : str) : TemplatePresetConfig :=
  default OPERATIONS_DEFAULT (snd <$> find (λ kv, bool_decide (fst kv = key)) TEMPLATE_PRESET_CONFIG).

(** ** The dialog *)

Record Editor := {
  json_mode : bool;           (** [editMode] is [json] *)
  legacy_mode : bool;         (** [visualMode] is [legacy] *)
  legacyValue : str;
  operations : list ParamOverrideOperation;
  jsonText : str;
  jsonError : option Message;
  selectedOperationId : str;
  templatePresetKey : str;
  seed : nat;                 (** [localIdSeed] *)
  toast : option Message
}.

Definition plain_message (text : string) : Message := {| msg := js text; line := None |}.

Definition first_id (ops : list ParamOverrideOperation) : str := match ops with [] => [] | o :: _ => op_id o end.

(** The operations of a parsed object, or one empty operation. *)
Definition listed_operations (n : nat) (l : list json) : outcome (list ParamOverrideOperation * nat) :=
  match l with [] => Ret ([createDefaultOperation n], S n) | _ => normalizeOperations n l end.

(** A dialog that shows the visual list. *)
Definition visual (n : nat) (ops : list ParamOverrideOperation) (text : str) : Editor :=
  {| json_mode := false; legacy_mode := false; legacyValue := []; operations := ops; jsonText := text; jsonError := None;
     selectedOperationId := first_id ops; templatePresetKey := js "operations_default"; seed := n; toast := None |}.

Definition default_operations (n : nat) : list ParamOverrideOperation := [createDefaultOperation n].

(** [parseInitialState] and the effect that runs it when the dialog opens. *)
Definition open_dialog (n : nat) (rawValue : str) : outcome Editor :=
  let trimmed := trim rawValue in
  match trimmed with
  | [] => Ret (visual (S n) (default_operations n) [])
  | _ =>
      match json_parse trimmed with
      | None =>
          Ret {| json_mode := true; legacy_mode := false; legacyValue := []; operations := default_operations n;
                 jsonText := rawValue; jsonError := Some (plain_message "Invalid JSON format");
                 selectedOperationId := nextLocalId n; templatePresetKey := js "operations_default"; seed := S n; toast := None |}
      | Some (JObj o) =>
          match obj_get (js "operations") o with
          | Some (JArr l) =>
              r ← listed_operations n l;
              Ret (visual (snd r) (fst r) (json_pretty (JObj o)))
          | _ =>
              Ret {| json_mode := false; legacy_mode := true; legacyValue := json_pretty (JObj o);
                     operations := default_operations n; jsonText := json_pretty (JObj o); jsonError := None;
                     selectedOperationId := nextLocalId n; templatePresetKey := js "legacy_default"; seed := S n; toast := None |}
          end
      | Some v =>
          Ret {| json_mode := true; legacy_mode := false; legacyValue := []; operations := default_operations n;
                 jsonText := json_pretty v; jsonError := None; selectedOperationId := nextLocalId n;
                 templatePresetKey := js "operations_default"; seed := S n; toast := None |}
      end
  end.

Definition with_operations (ops : list ParamOverrideOperation) (n : nat) (st : Editor) : Editor :=
  {| json_mode := json_mode st; legacy_mode := legacy_mode st; legacyValue := legacyValue st; operations := ops;
     jsonText := jsonText st; jsonError := jsonError st; selectedOperationId := selectedOperationId st;
     templatePresetKey := templatePresetKey st; seed := n; toast := toast st |}.

Definition with_selected (id : str) (st : Editor) : Editor :=
  {| json_mode := json_mode st; legacy_mode := legacy_mode st; legacyValue := legacyValue st; operations := operations st;
     jsonText := jsonText st; jsonError := jsonError st; selectedOperationId := id;
     templatePresetKey := templatePresetKey st; seed := seed st; toast := toast st |}.

Definition with_json (json : bool) (text : str) (error : option Message) (shown : option Message) (st : Editor) : Editor :=
  {| json_mode := json; legacy_mode := legacy_mode st; legacyValue := legacyValue st; operations := operations st;
     jsonText := text; jsonError := error; selectedOperationId := selectedOperationId st;
     templatePresetKey := templatePresetKey st; seed := seed st; toast := shown |}.

Definition toasting (m : Message) (st : Editor) : Editor := with_json (json_mode st) (jsonText st) (jsonError st) (Some m) st.

(** *** Editing the list *)

Definition on_op (id : str) (f : ParamOverrideOperation → ParamOverrideOperation) (ops : list ParamOverrideOperation) :
    list ParamOverrideOperation := map (λ o, if bool_decide (op_id o = id) then f o else o) ops.

(** [patch] is the function that overwrites the patched fields. *)
Definition updateOperation (id : str) (patch : ParamOverrideOperation → ParamOverrideOperation) (st : Editor) : Editor :=
  with_operations (on_op id patch (operations st)) (seed st) st.

Definition addOperation (st : Editor) : Editor :=
  let n := seed st in
  with_selected (nextLocalId n) (with_operations (operations st ++ [createDefaultOperation n]) (S n) st).

(** The copy that [duplicateOperation] passes through [normalizeOperation]. *)
Definition operation_source (o : ParamOverrideOperation) : json :=
  JObj [(js "description", JStr (description o)); (js "path", JStr (path o)); (js "mode", JStr (mode o));
        (js "value", parseLooseValue (value_text o)); (js "keep_origin", JBool (keep_origin o));
        (js "from", JStr (op_from o)); (js "to", JStr (op_to o)); (js "logic", JStr (logic o));
        (js "conditions", JArr (map (λ c,
           JObj [(js "path", JStr (c_path c)); (js "mode", JStr (c_mode c)); (js "value", parseLooseValue (c_value_text c));
                 (js "invert", JBool (c_invert c)); (js "pass_missing_key", JBool (c_pass_missing_key c))]) (conditions o)))].

(** The state updater runs while the handler waits for it, as it does when no other update is queued. *)
Definition duplicateOperation (id : str) (st : Editor) : outcome Editor :=
  match find_op id (operations st) with
  | None => Ret st
  | Some i =>
      match operations st !! i with
      | None => Ret st
      | Some source =>
          r ← normalizeOperation (seed st) (operation_source source);
          Ret (with_selected (op_id (fst r))
                 (with_operations (take (S i) (operations st) ++ [fst r] ++ drop (S i) (operations st)) (snd r) st))
      end
  end.

Definition removeOperation (id : str) (st : Editor) : Editor :=
  match operations st with
  | [] | [_] => with_operations (default_operations (seed st)) (S (seed st)) st
  | ops => with_operations (List.filter (λ o, negb (bool_decide (op_id o = id))) ops) (seed st) st
  end.

Definition with_conditions (f : list ParamOverrideCondition → list ParamOverrideCondition) (o : ParamOverrideOperation)
    : ParamOverrideOperation :=
  {| op_id := op_id o; description := description o; path := path o; mode := mode o; op_from := op_from o; op_to := op_to o;
     value_text := value_text o; keep_origin := keep_origin o; logic := logic o; conditions := f (conditions o) |}.

Definition with_value_text (s : str) (o : ParamOverrideOperation) : ParamOverrideOperation :=
  {| op_id := op_id o; description := description o; path := path o; mode := mode o; op_from := op_from o; op_to := op_to o;
     value_text := s; keep_origin := keep_origin o; logic := logic o; conditions := conditions o |}.

Definition addCondition (id : str) (st : Editor) : Editor :=
  let n := seed st in
  with_operations (on_op id (with_conditions (λ cs, cs ++ [createDefaultCondition n])) (operations st)) (S n) st.

Definition updateCondition (id cid : str) (patch : ParamOverrideCondition → ParamOverrideCondition) (st : Editor) : Editor :=
  updateOperation id (with_conditions (map (λ c, if bool_decide (c_id c = cid) then patch c else c))) st.

Definition removeCondition (id cid : str) (st : Editor) : Editor :=
  updateOperation id (with_conditions (List.filter (λ c, negb (bool_decide (c_id c = cid))))) st.

Definition updateReturnErrorDraft (id : str) (patch : ReturnErrorDraft → ReturnErrorDraft) (st : Editor) : Editor :=
  updateOperation id (λ o, with_value_text (buildReturnErrorValueText (patch (parseReturnErrorDraft (value_text o)))) o) st.

(** The updater gets the number of the next id and returns how many it has taken. *)
Definition updatePruneObjectsDraft (id : str) (updater : nat → PruneObjectsDraft → PruneObjectsDraft * nat) (st : Editor) : Editor :=
  let step acc o :=
    if bool_decide (op_id o = id)
    then let draft := parsePruneObjectsDraft (snd acc) (value_text o) in
         let n := snd acc + length (rules draft) in
         let (next, taken) := updater n draft in
         (fst acc ++ [with_value_text (buildPruneObjectsValueText next) o], n + taken)
    else (fst acc ++ [o], snd acc) in
  let (ops, n) := fold_left step (operations st) ([], seed st) in
  with_operations ops n st.

Definition with_rules (simple : bool) (rs : list ParamOverrideCondition) (d : PruneObjectsDraft) : PruneObjectsDraft :=
  {| po_simpleMode := simple; typeText := typeText d; po_logic := po_logic d; recursive := recursive d; rules := rs |}.

Definition addPruneRule (id : str) (st : Editor) : Editor :=
  updatePruneObjectsDraft id (λ n d, (with_rules false (rules d ++ [normalizePruneRule n []]) d, 1)) st.

Definition updatePruneRule (id rid : str) (patch : ParamOverrideCondition → ParamOverrideCondition) (st : Editor) : Editor :=
  updatePruneObjectsDraft id (λ _ d,
    (with_rules (po_simpleMode d) (map (λ r, if bool_decide (c_id r = rid) then patch r else r) (rules d)) d, 0)) st.

Definition removePruneRule (id rid : str) (st : Editor) : Editor :=
  updatePruneObjectsDraft id (λ _ d,
    (with_rules (po_simpleMode d) (List.filter (λ r, negb (bool_decide (c_id r = rid))) (rules d)) d, 0)) st.

(** Dropping [sourceId] on [targetId]. *)
Definition handleDrop (sourceId targetId : str) (after : bool) (st : Editor) : Editor :=
  if truthy sourceId && truthy targetId && negb (bool_decide (sourceId = targetId))
  then with_selected sourceId (with_operations (reorderOperations (operations st) sourceId targetId after) (seed st) st)
  else st.

(** The effect that keeps the selection valid. *)
Definition keep_selected (st : Editor) : Editor :=
  match operations st with
  | [] => with_selected [] st
  | o :: _ => if existsb (λ o, bool_decide (op_id o = selectedOperationId st)) (operations st) then st
              else with_selected (op_id o) st
  end.

(** *** What the list shows *)

Definition operationCount (st : Editor) : nat := length (List.filter (λ o, negb (isOperationBlank o)) (operations st)).

Definition filteredOperations (operationSearch : str) (st : Editor) : list ParamOverrideOperation :=
  let keyword := toLowerCase (trim operationSearch) in
  if truthy keyword
  then List.filter (λ op, includes keyword (toLowerCase (join (js " ")
         (List.filter truthy [description op; mode op; path op; op_from op; op_to op; value_text op])))) (operations st)
  else operations st.

(** [counts[m] = (counts[m] || 0) + 1], in the order in which the modes first occur; no mode is an array index. *)
Fixpoint count_mode (m : str) (counts : list (str * nat)) : list (str * nat) :=
  match counts with
  | [] => [(m, 1)]
  | (k, c) :: rest => if bool_decide (k = m) then (k, S c) :: rest else (k, c) :: count_mode m rest
  end.

Definition topOperationModes (st : Editor) : list (str * nat) :=
  let counts := fold_left (λ acc o, count_mode (or_text (mode o) (js "set")) acc) (operations st) [] in
  take 4 (array_sort (λ a b, Z.of_nat (snd b) - Z.of_nat (snd a))%Z counts).

(** *** Switching and saving *)

Definition NOT_JSON : Message := plain_message "Parameter override must be valid JSON format".

Definition buildVisualJson (st : Editor) : Message + str :=
  if legacy_mode st
  then let trimmed := trim (legacyValue st) in
       match trimmed with
       | [] => inr []
       | _ => match json_parse trimmed with
              | None => inl NOT_JSON
              | Some (JObj o) => inr (json_pretty (JObj o))
              | Some _ => inl (plain_message "Legacy format must be a JSON object")
              end
       end
  else buildOperationsJson true (operations st).

Definition built_text (r : Message + str) : str := match r with inl _ => [] | inr s => s end.

Definition switchToJsonMode (st : Editor) : Editor :=
  if json_mode st then st
  else match buildVisualJson st with
       | inr text => with_json true text None (toast st) st
       | inl e =>
           let text := if legacy_mode st then legacyValue st else built_text (buildOperationsJson false (operations st)) in
           with_json true text (Some e) (Some e) st
       end.

Definition switchToVisualMode (st : Editor) : outcome Editor :=
  if negb (json_mode st) then Ret st
  else
    let n := seed st in
    let show legacy lv ops key n' :=
      {| json_mode := false; legacy_mode := legacy; legacyValue := lv; operations := ops; jsonText := jsonText st;
         jsonError := None; selectedOperationId := first_id ops; templatePresetKey := key; seed := n'; toast := toast st |} in
    let trimmed := trim (jsonText st) in
    match trimmed with
    | [] => Ret (show false [] (default_operations n) (templatePresetKey st) (S n))
    | _ =>
        match json_parse trimmed with
        | None => Ret (toasting NOT_JSON st)
        | Some (JObj o) =>
            match obj_get (js "operations") o with
            | Some (JArr l) =>
                r ← listed_operations n l;
                Ret (show false [] (fst r) (js "operations_default") (snd r))
            | _ => Ret (show true (json_pretty (JObj o)) (default_operations n) (js "legacy_default") (S n))
            end
        | Some _ => Ret (toasting (plain_message "Parameter override must be a valid JSON object") st)
        end
    end.

Definition resetEditorState (st : Editor) : Editor :=
  let n := seed st in
  {| json_mode := false; legacy_mode := false; legacyValue := []; operations := default_operations n; jsonText := [];
     jsonError := None; selectedOperationId := nextLocalId n; templatePresetKey := js "operations_default"; seed := S n;
     toast := toast st |}.

Definition handleJsonChange (next : str) (st : Editor) : Editor :=
  let trimmed := trim next in
  let error := if negb (truthy trimmed) || verifyJSON trimmed then None else Some (plain_message "JSON format error") in
  with_json (json_mode st) next error (toast st) st.

Definition formatJson (st : Editor) : Editor :=
  let trimmed := trim (jsonText st) in
  match trimmed with
  | [] => st
  | _ => match json_parse trimmed with
         | None => toasting NOT_JSON st
         | Some v => with_json (json_mode st) (json_pretty v) None (toast st) st
         end
  end.

(** The text handed to [onSave], or the message of the toast. *)
Definition handleSave (st : Editor) : Message + str :=
  if json_mode st
  then let trimmed := trim (jsonText st) in
       match trimmed with
       | [] => inr []
       | _ => match json_parse trimmed with None => inl NOT_JSON | Some v => inr (json_pretty v) end
       end
  else buildVisualJson st.

(** A legacy template replaces the text, or with [append] fills in what the current text lacks. *)
Definition legacy_text (append : bool) (p : json) (st : Editor) : option str :=
  if append && legacy_mode st
  then let trimmed := trim (legacyValue st) in
       match trimmed with
       | [] => Some (json_pretty p)
       | _ => match json_parse trimmed with
              | None => None
              | Some current => Some (json_pretty (JObj (obj_spread (entries_of p) (entries_of current))))
              end
       end
  else Some (json_pretty p).

Definition template_operations (p : json) : list json :=
  match opt_prop (js "operations") (Some p) with Some (JArr l) => l | _ => [] end.

Definition fillTemplate (append : bool) (st : Editor) : outcome Editor :=
  let pre := preset (templatePresetKey st) in
  let n := seed st in
  let show legacy lv ops text sel n' :=
    {| json_mode := false; legacy_mode := legacy; legacyValue := lv; operations := ops; jsonText := text; jsonError := None;
       selectedOperationId := sel; templatePresetKey := templatePresetKey st; seed := n'; toast := toast st |} in
  if preset_legacy pre
  then match legacy_text append (payload pre) st with
       | None => Ret (toasting (plain_message "Current legacy JSON is invalid, cannot append") st)
       | Some text => Ret (show true text (default_operations n) text (selectedOperationId st) (S n))
       end
  else
    let ops := template_operations (payload pre) in
    r ← normalizeOperations n ops;
    if append
    then let existing := if legacy_mode st then [] else List.filter (λ o, negb (isOperationBlank o)) (operations st) in
         let next := existing ++ fst r in
         Ret (show false [] next [] (first_id next) (snd r))
    else match ops with
         | [] => Ret (show false (legacyValue st) (default_operations n) (json_pretty (operations_of ops)) (nextLocalId n) (S n))
         | _ => Ret (show false (legacyValue st) (fst r) (json_pretty (operations_of ops)) (first_id (fst r)) (snd r))
         end.

End editor.
