(* ===== verification/ParamOverrideFacts.v ===== *)
(** * Correctness of the parameter-override editor

    What the editor saves it reads back, and saving it again changes nothing, as long as the
    values survive their text; checks before saving; dragging; and where the editor loses values. *)

From S2P Require Import Prelude JsString JsNumber JsNumberFacts Json JsonFacts JsonPretty ParamOverride.

(** ** Members of the saved objects *)

Lemma obj_get_app k (a b : obj) : obj_get k (a ++ b) = match obj_get k a with Some v => Some v | None => obj_get k b end.
Proof. induction a as [|[k' v] a IH]; [done|]. cbn [app obj_get fst snd]. by case_bool_decide. Qed.

Lemma get_member_if k b k' v : obj_get (js k) (member_if b k' v) = if b && bool_decide (js k = js k') then Some v else None.
Proof. unfold member_if. destruct b; [|done]. cbn [obj_get fst snd andb]. done. Qed.

Lemma get_text_member k k' s :
  obj_get (js k) (text_member k' s) = if truthy s && bool_decide (js k = js k') then Some (JStr s) else None.
Proof. unfold text_member. destruct (truthy s); [|done]. cbn [obj_get fst snd andb]. done. Qed.

(** Decide the equalities of literal keys. *)
Ltac keys_eval :=
  repeat match goal with
  | |- context [bool_decide (js ?a = js ?b)] =>
      let r := eval vm_compute in (bool_decide (js a = js b)) in
      replace (bool_decide (js a = js b)) with r by (vm_compute; reflexivity)
  end.

Ltac read_member :=
  repeat first [rewrite obj_get_app | rewrite get_member_if | rewrite get_text_member | progress cbn [obj_get fst snd app]
               | progress keys_eval | rewrite andb_true_r | rewrite andb_false_r].

(** Objects built from members that may be missing. *)
Inductive members : list string → obj → Prop :=
  | members_nil : members [] []
  | members_cons k ks v o : json_ok v → members ks o → members (k :: ks) ((js k, v) :: o)
  | members_if b k ks v o : (b = true → json_ok v) → members ks o → members (k :: ks) (member_if b k v ++ o)
  | members_text k ks s o : units s → members ks o → members (k :: ks) (text_member k s ++ o).

Definition plain_keys (ks : list string) : bool :=
  bool_decide (NoDup (map js ks)) && forallb (λ k, negb (is_index (js k)) && forallb (λ c, (c <? 65536)%N) (js k)) ks.

Lemma members_ok ks o : members ks o → plain_keys ks = true → json_ok (JObj o).
Proof.
  intros Hm [Hn%bool_decide_eq_true Hf]%andb_true_iff. apply (object_ok (map js ks)); [|done| |].
  - clear Hn Hf. induction Hm as [|k ks v o Hv _ IH|b k ks v o Hv _ IH|k ks s o Hs _ IH]; cbn [map app fst].
    + constructor.
    + by constructor.
    + destruct b; cbn; by constructor.
    + unfold text_member. destruct (truthy s); cbn; by constructor.
  - apply Forall_map, Forall_forall. intros k Hk%list_elem_of_In. rewrite forallb_forall in Hf.
    apply Hf in Hk. apply andb_true_iff in Hk as [Hi%negb_true_iff Hu]. split; [done|]. apply Forall_forall. intros c Hc%list_elem_of_In.
    rewrite forallb_forall in Hu. by apply N.ltb_lt, Hu.
  - clear Hn Hf. induction Hm as [|k ks v o Hv _ IH|b k ks v o Hv _ IH|k ks s o Hs _ IH].
    + constructor.
    + by constructor.
    + apply Forall_app; split; [|done]. destruct b; cbn; [|constructor]. constructor; [by apply Hv|constructor].
    + apply Forall_app; split; [|done]. unfold text_member. destruct (truthy s); [|constructor].
      constructor; [by constructor|constructor].
Qed.

(** ** Values and their texts *)

Lemma truthy_false s : truthy s = false ↔ s = [].
Proof. by destruct s. Qed.

Lemma loose_blank t : trim t = [] → parseLooseValue t = JStr [].
Proof. unfold parseLooseValue. by intros ->. Qed.

Lemma loose_trim t : parseLooseValue (trim t) = parseLooseValue t.
Proof. unfold parseLooseValue. by rewrite trim_idemp. Qed.

Lemma loose_parsed t v : trimmed t → t ≠ [] → json_parse t = Some v → parseLooseValue t = v.
Proof. intros Ht Hn H. unfold parseLooseValue. rewrite trim_id by done. destruct t; [done|]. by rewrite H. Qed.

Lemma loose_raw t : trimmed t → json_parse t = None → parseLooseValue t = JStr t.
Proof. intros Ht H. unfold parseLooseValue. rewrite trim_id by done. destruct t; [done|]. by rewrite H. Qed.

(** Values that keep their meaning when they are shown as text: everything but texts that would be read
    as something else. *)
Definition writable (t : str) : Prop :=
  match parseLooseValue t with
  | JStr s => units s ∧ trimmed s ∧ json_parse s = None ∧ (s = [] → trim t = [])
  | v => json_ok v
  end.

Definition shown (t : str) : str := toValueText (Some (parseLooseValue t)).

Lemma writable_ok t : writable t → json_ok (parseLooseValue t).
Proof. unfold writable. destruct (parseLooseValue t); try done. intros (H & _). by constructor. Qed.

Lemma shown_cases t : writable t →
  (∃ s, parseLooseValue t = JStr s ∧ shown t = s ∧ trimmed s ∧ json_parse s = None ∧ (s = [] → trim t = [])) ∨
  (shown t = json_stringify (parseLooseValue t) ∧ json_ok (parseLooseValue t) ∧ ∀ s, parseLooseValue t ≠ JStr s).
Proof.
  unfold writable, shown. destruct (parseLooseValue t) as [| | |s| |] eqn:E; intros H; try (right; by split_and!).
  left. exists s. split_and!; [done|done|tauto..].
Qed.

Lemma shown_trimmed t : writable t → trimmed (shown t).
Proof. intros [(s & _ & -> & H & _)|(-> & H & _)]%shown_cases; [done|]. by apply stringify_trimmed. Qed.

Lemma loose_shown t : writable t → parseLooseValue (shown t) = parseLooseValue t.
Proof.
  intros [(s & -> & -> & Ht & Hp & _)|(-> & H & _)]%shown_cases; [by apply loose_raw|].
  apply loose_parsed; [by apply stringify_trimmed|by apply stringify_ne|by apply json_parse_stringify].
Qed.

Lemma has_text_shown t : writable t → has_text t = true → has_text (shown t) = true.
Proof.
  intros Hw Ht. unfold has_text in *. rewrite (trim_id (shown t)) by by apply shown_trimmed.
  destruct (shown_cases t Hw) as [(s & _ & -> & _ & _ & Hs)|(-> & H & _)].
  - destruct s; [|done]. by rewrite Hs in Ht.
  - by destruct (json_stringify _) eqn:E; [apply stringify_ne in E|].
Qed.

(** What the checks on a value read depends on its meaning only. *)
Lemma parse_object_loose t : parse_object (trim t) = match parseLooseValue t with JObj o => Some o | _ => None end.
Proof. unfold parse_object, parseLooseValue. destruct (trim t) as [|c s]; [done|]. by destruct (json_parse (c :: s)). Qed.

(** ** What the dialog reads back *)

Section reopen.
Context (clock : nat → Z) (toUpperCase : str → str).
Hypothesis upper_and : toUpperCase (js "AND") = js "AND".
Hypothesis upper_or : toUpperCase (js "OR") = js "OR".

Definition condition_ok (c : ParamOverrideCondition) : Prop :=
  c_mode c ∈ CONDITION_MODE_VALUES ∧ units (trim (c_path c)) ∧ writable (c_value_text c).

Definition operation_ok (op : ParamOverrideOperation) : Prop :=
  mode op ∈ OPERATION_MODE_VALUES ∧ writable (value_text op) ∧ Forall condition_ok (conditions op) ∧
  Forall (λ s, units (trim s)) [description op; path op; op_from op; op_to op].

(** The condition that is read from what [c] is saved as. *)
Definition reopened_condition (n : nat) (c : ParamOverrideCondition) : ParamOverrideCondition :=
  {| c_id := nextLocalId clock n; c_path := trim (c_path c); c_mode := c_mode c; c_value_text := shown (c_value_text c);
     c_invert := c_invert c; c_pass_missing_key := c_pass_missing_key c |}.

Lemma mode_in_text ms m d : m ∈ ms → mode_or ms (Some (JStr m)) d = m.
Proof. intros H. unfold mode_or. by rewrite bool_decide_eq_true_2. Qed.

Lemma condition_mode_text m : m ∈ CONDITION_MODE_VALUES → or_text m (js "full") = m.
Proof. destruct m; [|reflexivity]. intros H. exfalso. revert H. apply (bool_decide_unpack ([] ∉ CONDITION_MODE_VALUES)). vm_compute. exact I. Qed.

Lemma payload_read c v : condition_ok c → buildConditionPayload c = Some v →
  ∃ o, v = JObj o ∧ ∀ n, condition_of clock n o = reopened_condition n c.
Proof.
  intros (Hm & _ & _). unfold buildConditionPayload. destruct (truthy (trim (c_path c))) eqn:E; [|done]. intros [= <-].
  eexists. split; [reflexivity|]. intros n. unfold condition_of, reopened_condition. rewrite (condition_mode_text _ Hm).
  f_equal; read_member.
  - by apply mode_in_text.
  - by destruct (c_invert c).
  - by destruct (c_invert c), (c_pass_missing_key c).
Qed.

(** The conditions that are read from the saved ones: those that have a path. *)
Definition kept (op : ParamOverrideOperation) : list ParamOverrideCondition :=
  List.filter (λ c, has_text (c_path c)) (conditions op).

Lemma payloads_read cs n : Forall condition_ok cs →
  normalizeConditions clock n (omap buildConditionPayload cs)
  = Ret (imap (λ i c, reopened_condition (n + i) c) (List.filter (λ c, has_text (c_path c)) cs)).
Proof.
  intros H. revert n. induction H as [|c cs Hc Hcs IH]; intros n; [done|]. cbn [omap list_omap List.filter].
  destruct (buildConditionPayload c) as [v|] eqn:E.
  - assert (has_text (c_path c) = true) as ->. { unfold buildConditionPayload in E. unfold has_text. by destruct (truthy _). }
    destruct (payload_read c v Hc E) as (o & -> & Ho). cbn [normalizeConditions normalizeCondition as_members mbind outcome_bind].
    rewrite Ho. change (omap buildConditionPayload) with (omap (M := list) buildConditionPayload). rewrite IH. cbn [mbind outcome_bind imap]. rewrite Nat.add_0_r.
    f_equal. f_equal. apply imap_ext. intros i x _. cbn. by rewrite Nat.add_succ_r.
  - assert (has_text (c_path c) = false) as ->. { unfold buildConditionPayload in E. unfold has_text. by destruct (truthy _). }
    apply IH.
Qed.

Lemma reopened_payload n c : condition_ok c → buildConditionPayload (reopened_condition n c) = buildConditionPayload c.
Proof.
  intros (_ & _ & Hw). unfold buildConditionPayload, reopened_condition. cbn [c_path c_mode c_value_text c_invert c_pass_missing_key].
  by rewrite trim_idemp, loose_shown.
Qed.

Lemma reopened_payloads cs n : Forall condition_ok cs →
  omap buildConditionPayload (imap (λ i c, reopened_condition (n + i) c) (List.filter (λ c, has_text (c_path c)) cs))
  = omap buildConditionPayload cs.
Proof.
  intros H. revert n. induction H as [|c cs Hc Hcs IH]; intros n; [done|]. cbn [List.filter]. 
  destruct (has_text (c_path c)) eqn:E.
  - cbn [imap omap list_omap]. rewrite reopened_payload by done.
    assert (∀ l, imap ((λ i c, reopened_condition (n + i) c) ∘ S) l = imap (λ i c, reopened_condition (S n + i) c) l) as ->.
    { intros l. apply imap_ext. intros i x _. cbn. by rewrite Nat.add_succ_r. }
    pose proof (IH (S n)) as ->. done.
  - rewrite IH. cbn [omap list_omap]. unfold buildConditionPayload at 2. unfold has_text in E. by rewrite E.
Qed.

(** The operation that is read from what [op] is saved as. *)
Definition reopened (n : nat) (op : ParamOverrideOperation) : ParamOverrideOperation :=
  let mt := meta_of (mode op) in
  let p := trim (path op) in
  let alias s := if meta_pathAlias mt then or_text s p else s in
  {| op_id := nextLocalId clock n; description := trim (description op);
     path := if meta_path mt || (meta_pathOptional mt && truthy p) then p else [];
     mode := mode op;
     op_from := if meta_from mt then alias (trim (op_from op)) else [];
     op_to := if meta_to mt || has_text (op_to op) then alias (trim (op_to op)) else [];
     value_text := if meta_value mt then shown (value_text op) else [];
     keep_origin := meta_keepOrigin mt && keep_origin op;
     logic := match condition_payloads op with
              | [] => js "OR"
              | _ => if bool_decide (logic op = js "AND") then js "AND" else js "OR"
              end;
     conditions := imap (λ i c, reopened_condition (S n + i) c) (kept op) |}.

Lemma operation_mode_text m : m ∈ OPERATION_MODE_VALUES → or_text m (js "set") = m.
Proof. destruct m; [|reflexivity]. intros H. exfalso. revert H. apply (bool_decide_unpack ([] ∉ OPERATION_MODE_VALUES)). vm_compute. exact I. Qed.

Lemma upper_read (b : bool) :
  upper_is toUpperCase (Some (JStr (if b then js "AND" else js "OR"))) (js "OR") (js "AND") = b.
Proof using upper_and upper_or.
  destruct b.
  - change (bool_decide (toUpperCase (js "AND") = js "AND") = true). rewrite upper_and. by apply bool_decide_eq_true_2.
  - change (bool_decide (toUpperCase (js "OR") = js "AND") = false). rewrite upper_or. by apply bool_decide_eq_false_2.
Qed.

Lemma operation_read n op : operation_ok op →
  normalizeOperation clock toUpperCase n (operation_payload op) = Ret (reopened n op, S n + length (condition_payloads op)).
Proof using upper_and upper_or.
  intros (Hm & _ & Hc & _). unfold operation_payload. rewrite operation_mode_text by done.
  set (mt := meta_of (mode op)). unfold normalizeOperation. cbn [as_members mbind outcome_bind].
  read_member.
  match goal with |- normalizeConditions _ _ ?items ≫= _ = _ => assert (items = condition_payloads op) as -> end.
  { by destruct (condition_payloads op). }
  rewrite (payloads_read (conditions op) (S n) Hc : normalizeConditions clock (S n) (condition_payloads op) = _). cbn [mbind outcome_bind]. unfold reopened. fold mt. fold (kept op).
  do 2 f_equal. f_equal.
  - by destruct (trim (description op)).
  - by destruct (meta_path mt || _).
  - by apply mode_in_text.
  - by destruct (meta_from mt).
  - by destruct (meta_to mt || _).
  - by destruct (meta_value mt).
  - by destruct (meta_keepOrigin mt && _).
  - destruct (condition_payloads op); [|by rewrite upper_read].
    change (upper_is toUpperCase None (js "OR") (js "AND")) with (bool_decide (toUpperCase (js "OR") = js "AND")).
    rewrite upper_or. reflexivity.
Qed.

(** A field that fell back to the path needs it no more. *)
Lemma alias_again (a : bool) (f p q : str) : trim f = f → trim p = p → q = p ∨ q = [] →
  let g := if a then or_text f p else f in (if a then or_text (trim g) q else trim g) = g.
Proof.
  intros Hf Hp Hq. destruct a; cbn; [|done]. destruct f as [|c f]; cbn [or_text truthy].
  - rewrite Hp. destruct p; [by destruct Hq as [-> | ->]|done].
  - by rewrite Hf.
Qed.

(** Reading and saving again writes the same operation. *)
Lemma reopened_same n op : operation_ok op → operation_payload (reopened n op) = operation_payload op.
Proof.
  intros (Hm & Hw & Hc & _). unfold operation_payload. 
  assert (condition_payloads (reopened n op) = condition_payloads op) as -> by (apply reopened_payloads, Hc).
  cbn [reopened mode path op_from op_to description value_text keep_origin logic]. rewrite operation_mode_text by done.
  set (mt := meta_of (mode op)). 
  f_equal. f_equal. rewrite trim_idemp. f_equal. f_equal; [|f_equal; [|f_equal; [|f_equal; [|f_equal]]]].
  - destruct (meta_path mt); cbn [orb]; [by rewrite trim_idemp|]. destruct (meta_pathOptional mt); cbn [andb]; [|done].
    destruct (truthy (trim (path op))) eqn:E; [by rewrite trim_idemp, E|done].
  - destruct (meta_value mt); [by rewrite loose_shown|done].
  - by destruct (meta_keepOrigin mt).
  - destruct (meta_from mt); [|done]. f_equal. f_equal. apply alias_again; [apply trim_idemp..|].
    destruct (meta_path mt || _); [left; apply trim_idemp|by right].
  - destruct (meta_to mt || has_text (op_to op)) eqn:E.
    + assert (meta_to mt || has_text (if meta_pathAlias mt then or_text (trim (op_to op)) (trim (path op)) else trim (op_to op)) = true) as ->.
      { destruct (meta_to mt); [done|]. cbn [orb] in E |- *. unfold has_text in E |- *. 
        destruct (trim (op_to op)) eqn:Et; [done|]. cbn [or_text truthy]. rewrite <- Et.
        destruct (meta_pathAlias mt); by rewrite trim_idemp, Et. }
      f_equal. f_equal. apply alias_again; [apply trim_idemp..|]. destruct (meta_path mt || _); [left; apply trim_idemp|by right].
    + apply orb_false_iff in E as [-> _]. done.
  - destruct (condition_payloads op); [done|]. by destruct (bool_decide (logic op = js "AND")).
Qed.

(** The checks on an operation, as conditions. *)
Definition complete (op : ParamOverrideOperation) : Prop :=
  let m := or_text (mode op) (js "set") in
  let aliased := meta_pathAlias (meta_of m) = true ∧ has_text (path op) = true in
  (meta_path (meta_of m) = true → has_text (path op) = true) ∧
  (m ∈ FROM_REQUIRED_MODES → has_text (op_from op) = true ∨ aliased) ∧
  (m ∈ TO_REQUIRED_MODES → has_text (op_to op) = true ∨ aliased) ∧
  (m ∈ VALUE_REQUIRED_MODES → has_text (value_text op) = true) ∧
  (m = js "return_error" → ∀ o, parseLooseValue (value_text op) = JObj o →
     truthy (first_trimmed [obj_get (js "message") o]) = true) ∧
  (m = js "pass_headers" → parsePassHeaderNames (parseLooseValue (value_text op)) ≠ []).

Lemma complaint (b : bool) (e : Message) r : (if b then Some e else r) = None ↔ b = false ∧ r = None.
Proof. destruct b; split; intuition done. Qed.

Lemma guarded b c : b && negb c = false ↔ (b = true → c = true).
Proof. destruct b, c; intuition done. Qed.

Lemma guarded_by P `{Decision P} b : bool_decide P && b = false ↔ (P → b = false).
Proof. case_bool_decide; destruct b; intuition done. Qed.

Lemma guarded_alias P `{Decision P} a b c : bool_decide P && negb c && negb (a && b) = false ↔ (P → c = true ∨ a = true ∧ b = true).
Proof. case_bool_decide; destruct a, b, c; intuition done. Qed.

Lemma validate_one_complete i op : validate_one i op = None ↔ complete op.
Proof.
  unfold validate_one, complete, rule_error. rewrite parse_object_loose, loose_trim. set (m := or_text (mode op) (js "set")).
  rewrite !complaint, guarded, !guarded_alias, !guarded_by, negb_false_iff.
  assert (match parsePassHeaderNames (parseLooseValue (value_text op)) with [] => true | _ => false end = false
          ↔ parsePassHeaderNames (parseLooseValue (value_text op)) ≠ []) as -> by by destruct (parsePassHeaderNames _).
  assert (match match parseLooseValue (value_text op) with JObj o => Some o | _ => None end with
          | Some o => negb (truthy (first_trimmed [obj_get (js "message") o])) | None => false end = false
          ↔ ∀ o, parseLooseValue (value_text op) = JObj o → truthy (first_trimmed [obj_get (js "message") o]) = true) as ->.
  { destruct (parseLooseValue (value_text op)) as [| | | | |o]; [done..|]. rewrite negb_false_iff. split; [by intros ? ? [= <-]|auto]. }
  tauto.
Qed.

(** The modes that require a field also save it. *)
Lemma required_modes_save :
  Forall (λ m, meta_from (meta_of m) = true) FROM_REQUIRED_MODES ∧ Forall (λ m, meta_to (meta_of m) = true) TO_REQUIRED_MODES ∧
  Forall (λ m, meta_value (meta_of m) = true) VALUE_REQUIRED_MODES.
Proof. split_and!; apply (bool_decide_unpack (Forall _ _)); vm_compute; exact I. Qed.

Lemma has_text_trim s : has_text (trim s) = has_text s.
Proof. unfold has_text. by rewrite trim_idemp. Qed.

Lemma aliased_text (a : bool) f p : has_text f = true ∨ (a = true ∧ has_text p = true) →
  has_text (if a then or_text (trim f) (trim p) else trim f) = true.
Proof.
  unfold or_text. intros [H|[-> H]].
  - destruct a; [|by rewrite has_text_trim]. unfold has_text in H. by rewrite H, has_text_trim.
  - destruct (truthy (trim f)) eqn:E; by rewrite has_text_trim.
Qed.

Lemma reopened_complete n op : operation_ok op → complete op → complete (reopened n op).
Proof.
  intros (Hm & Hw & _ & _). destruct required_modes_save as (Tf & Tt & Tv).
  rewrite Forall_forall in Tf, Tt, Tv. unfold complete. cbn [reopened mode path op_from op_to value_text].
  rewrite operation_mode_text by done. set (mt := meta_of (mode op)).
  assert (mode op ∈ VALUE_REQUIRED_MODES → meta_value mt = true) as Hv by (intros; by apply Tv).
  intros (H1 & H2 & H3 & H4 & H5 & H6). split_and!.
  - intros E. rewrite E. cbn [orb]. rewrite has_text_trim. auto.
  - intros Hin. left. rewrite (Tf _ Hin : meta_from mt = true). by apply aliased_text, H2.
  - intros Hin. left. rewrite (Tt _ Hin : meta_to mt = true). cbn [orb]. by apply aliased_text, H3.
  - intros Hin. rewrite (Hv Hin). apply has_text_shown; auto.
  - intros E. assert (meta_value mt = true) as ->. { apply Hv. rewrite E. apply (bool_decide_unpack (_ ∈ _)). vm_compute. exact I. }
    rewrite loose_shown by done. by apply H5.
  - intros E. assert (meta_value mt = true) as ->. { apply Hv. rewrite E. apply (bool_decide_unpack (_ ∈ _)). vm_compute. exact I. }
    rewrite loose_shown by done. by apply H6.
Qed.

Lemma complete_not_blank op : complete op → isOperationBlank op = false.
Proof.
  intros (H & _). unfold isOperationBlank. case_bool_decide as E; [|done]. rewrite E in H.
  rewrite H by (vm_compute; reflexivity). done.
Qed.

Lemma units_lit (s : str) : forallb (λ c, (c <? 65536)%N) s = true → units s.
Proof. rewrite forallb_forall. intros H. apply Forall_forall. intros c Hc%list_elem_of_In. by apply N.ltb_lt, H. Qed.

Definition known_units (l : list str) : Prop := Forall units l.

Lemma modes_units : known_units OPERATION_MODE_VALUES ∧ known_units CONDITION_MODE_VALUES.
Proof.
  split; apply Forall_forall; intros m Hm; apply units_lit; revert m Hm; apply Forall_forall;
    apply (bool_decide_unpack (Forall _ _)); vm_compute; exact I.
Qed.

Lemma condition_payload_ok c v : condition_ok c → buildConditionPayload c = Some v → json_ok v.
Proof.
  intros (Hm & Hu & Hw). unfold buildConditionPayload. destruct (truthy _); [|done]. intros [= <-].
  rewrite condition_mode_text by done.
  apply (members_ok ["path"; "mode"; "value"; "invert"; "pass_missing_key"]); [|vm_compute; reflexivity].
  destruct modes_units as [_ Hcm]. unfold known_units in Hcm. rewrite Forall_forall in Hcm.
  cbn [app]. apply members_cons; [by constructor|]. apply members_cons; [constructor; by apply Hcm|].
  apply members_cons; [by apply writable_ok|]. rewrite <- (app_nil_r (member_if (c_pass_missing_key c) _ _)).
  apply members_if; [constructor|]. apply members_if; [constructor|constructor].
Qed.

Lemma operation_payload_ok op : operation_ok op → json_ok (operation_payload op).
Proof.
  intros (Hm & Hw & Hc & Hu). inversion Hu as [|? ? U1 Hu1]; inversion Hu1 as [|? ? U2 Hu2]; inversion Hu2 as [|? ? U3 Hu3];
    inversion Hu3 as [|? ? U4 _]; subst.
  unfold operation_payload. rewrite operation_mode_text by done. destruct modes_units as [Hom _]. unfold known_units in Hom. rewrite Forall_forall in Hom.
  assert (∀ a : bool, ∀ s, units s → units (if a then or_text s (trim (path op)) else s)) as Ha.
  { intros [] s Hs; [|done]. unfold or_text. by destruct (truthy s). }
  apply (members_ok ["mode"; "description"; "path"; "value"; "keep_origin"; "from"; "to"; "conditions"; "logic"]); [|vm_compute; reflexivity].
  cbn [app]. apply members_cons; [constructor; by apply Hom|]. apply members_text; [done|].
  apply members_if; [by constructor|]. apply members_if; [intros _; by apply writable_ok|]. apply members_if; [constructor|].
  apply members_if; [intros _; constructor; by apply Ha|]. apply members_if; [intros _; constructor; by apply Ha|].
  rewrite <- (app_nil_r (member_if _ "logic" _)). apply members_if; [intros _|apply members_if; [intros _|constructor]].
  - constructor. apply Forall_forall. intros v (c & Hin & Hv)%list_elem_of_omap. rewrite Forall_forall in Hc.
    by eapply condition_payload_ok; [apply Hc|].
  - constructor. destruct (bool_decide _); by apply units_lit.
Qed.

Lemma operations_read ops n : Forall operation_ok ops → ∃ ops' n',
  normalizeOperations clock toUpperCase n (map operation_payload ops) = Ret (ops', n') ∧
  Forall2 (λ op op', ∃ k, op' = reopened k op) ops ops'.
Proof using upper_and upper_or.
  intros H. revert n. induction H as [|op ops Ho _ IH]; intros n; [by eexists _, _|].
  cbn [map normalizeOperations]. rewrite operation_read by done. cbn [mbind outcome_bind snd fst].
  destruct (IH (S n + length (condition_payloads op))) as (ops' & n' & -> & Hf). eexists _, _. split; [reflexivity|].
  constructor; [by eexists|exact Hf].
Qed.

Lemma validate_complete i ops : validate_from i ops = None ↔ Forall complete ops.
Proof.
  revert i. induction ops as [|op ops IH]; intros i; [done|]. cbn [validate_from]. rewrite Forall_cons, <- (IH (S i)), <- (validate_one_complete i).
  destruct (validate_one i op); [|tauto]. split; [done|by intros [? _]].
Qed.

Lemma pretty_obj_trimmed kv o : trimmed (json_pretty (JObj (kv :: o))).
Proof.
  unfold json_pretty. cbn [pretty]. apply (trimmed_app (js "{")); [done|discriminate|done|].
  rewrite !rev_app_distr. reflexivity.
Qed.

Lemma pretty_obj_ne kv o : json_pretty (JObj (kv :: o)) ≠ [].
Proof. discriminate. Qed.

Lemma reopened_list ops ops' : Forall operation_ok ops → Forall complete ops → Forall2 (λ op op', ∃ k, op' = reopened k op) ops ops' →
  map operation_payload ops' = map operation_payload ops ∧ Forall complete ops'.
Proof.
  intros Ho Hc Hf. induction Hf as [|op op' ops ops' [k ->] _ IH]; [done|]. inversion Ho; inversion Hc; subst.
  destruct IH as [IH1 IH2]; [done..|]. split; [cbn [map]; by rewrite IH1, reopened_same|].
  constructor; [by apply reopened_complete|done].
Qed.

Lemma saved_text ops text : buildOperationsJson true ops = inr text → text ≠ [] →
  let filtered := List.filter (λ o, negb (isOperationBlank o)) ops in
  filtered ≠ [] ∧ Forall complete filtered ∧ text = json_pretty (JObj [(js "operations", JArr (map operation_payload filtered))]).
Proof.
  unfold buildOperationsJson. destruct (List.filter _ ops) as [|op l]; [by intros [= <-]|].
  destruct (validateOperations (op :: l)) eqn:E; [done|]. intros [= <-] _. split_and!; [done|by apply (validate_complete 0)|done].
Qed.

Lemma build_complete ops : ops ≠ [] → Forall complete ops →
  buildOperationsJson true ops = inr (json_pretty (JObj [(js "operations", JArr (map operation_payload ops))])).
Proof.
  intros Hne Hc. unfold buildOperationsJson. rewrite (bfilter_id _ ops).
  - destruct ops as [|op l]; [done|]. unfold validateOperations. by rewrite (proj2 (validate_complete 0 _) Hc).
  - intros op Hin. rewrite Forall_forall in Hc. by rewrite complete_not_blank by by apply Hc.
Qed.

(** C10: What the visual editor saves it reads back, if every value keeps its meaning as shown text.  For operations with one of the known modes and
    well-formed texts, whose values and condition values are shown as texts that are read back as the same value (a text in quotes that reads as JSON
    without them, that is blank or that has spaces around it is not: it comes back as the number or constant it spells, see
    [text_value_becomes_number]): opened on the saved text, the dialog shows the visual list with one operation per operation that was saved,
    each of which is saved as before, and saving the dialog as it opens hands back the very same text. *)
Theorem reopen_and_save n ops text :
  Forall operation_ok (List.filter (λ o, negb (isOperationBlank o)) ops) →
  buildOperationsJson true ops = inr text → text ≠ [] →
  ∃ st, open_dialog clock toUpperCase n text = Ret st ∧ json_mode st = false ∧ legacy_mode st = false ∧
        map operation_payload (operations st) = map operation_payload (List.filter (λ o, negb (isOperationBlank o)) ops) ∧
        handleSave st = inr text.
Proof using upper_and upper_or.
  intros Ho Hb Hne. destruct (saved_text ops text Hb Hne) as (Hl & Hc & ->).
  set (l := List.filter _ ops) in *. destruct (operations_read l n Ho) as (ops' & n' & Hr & Hf).
  destruct (reopened_list l ops' Ho Hc Hf) as [Hp Hc'].
  assert (json_ok (JObj [(js "operations", JArr (map operation_payload l))])) as Hok.
  { apply (members_ok ["operations"]); [|vm_compute; reflexivity]. apply members_cons; [|constructor]. constructor.
    apply Forall_map. eapply Forall_impl; [exact Ho|]. exact operation_payload_ok. }
  exists (visual n' ops' (json_pretty (JObj [(js "operations", JArr (map operation_payload l))]))).
  split_and!; [|done|done|exact Hp|].
  - unfold open_dialog. rewrite trim_id by apply pretty_obj_trimmed.
    rewrite nonempty_case, json_parse_pretty by (done || apply pretty_obj_ne).
    cbn [obj_get fst snd]. rewrite bool_decide_eq_true_2 by done. unfold listed_operations.
    destruct (map operation_payload l) as [|p ps] eqn:El; [by destruct l|]. rewrite Hr. done.
  - unfold handleSave, buildVisualJson. cbn [visual json_mode legacy_mode operations]. rewrite <- Hp. apply build_complete; [|done].
    intros ->. by destruct l.
Qed.

End reopen.

(** ** Dragging *)

Lemma find_op_Some id ops : id ∈ map op_id ops →
  ∃ l o l', find_op id ops = Some (length l) ∧ ops = l ++ o :: l' ∧ op_id o = id ∧ id ∉ map op_id l.
Proof.
  induction ops as [|o ops IH]; [by intros ?%not_elem_of_nil|]. intros Hin. unfold find_op. cbn [list_find].
  destruct (decide (op_id o = id)) as [E|E]; [exists [], o, ops; split_and!; [done..|apply not_elem_of_nil]|].
  assert (id ∈ map op_id ops) as Hin' by (cbn [map] in Hin; apply elem_of_cons in Hin as [->|?]; done).
  destruct (IH Hin') as (l & o' & l' & Hf & -> & Ho & Hl). exists (o :: l), o', l'. unfold find_op in Hf.
  destruct (list_find _ _) as [[i x]|]; [|done]. cbn in Hf |- *. injection Hf as ->. split_and!; [done..|].
  cbn [map]. rewrite elem_of_cons. intros [->|?]; done.
Qed.

(** Dropping an operation on another moves it next to that one, before or after it as shown, and leaves
    everything else in its order: without the dragged operation the list is as before, and no operation is
    lost or doubled. *)
Theorem reorder_moves_the_dragged ops sourceId targetId after :
  NoDup (map op_id ops) → sourceId ∈ map op_id ops → targetId ∈ map op_id ops → sourceId ≠ [] → targetId ≠ [] →
  sourceId ≠ targetId →
  ∃ a b source target, op_id source = sourceId ∧ op_id target = targetId ∧
    reorderOperations ops sourceId targetId after = a ++ (if after then [target; source] else [source; target]) ++ b ∧
    a ++ [target] ++ b = List.filter (λ o, negb (bool_decide (op_id o = sourceId))) ops ∧
    reorderOperations ops sourceId targetId after ≡ₚ ops.
Proof.
  intros Hn Hs Ht Hs0 Ht0 Hne. destruct (find_op_Some _ _ Hs) as (l & source & l' & Hf & -> & Es & _).
  assert (targetId ∈ map op_id (l ++ l')) as Ht'.
  { rewrite map_app in Ht |- *. cbn [map] in Ht. rewrite elem_of_app, elem_of_cons in Ht. rewrite elem_of_app. intuition congruence. }
  destruct (find_op_Some _ _ Ht') as (a & target & b & Hg & Eab & Et & _).
  assert (List.filter (λ o, negb (bool_decide (op_id o = sourceId))) (l ++ source :: l') = l ++ l') as Hfil.
  { rewrite map_app in Hn. cbn [map] in Hn. rewrite Es in Hn. apply NoDup_app in Hn as (_ & Hl & Hr).
    apply NoDup_cons in Hr as [Hr _]. rewrite bfilter_app. cbn [List.filter]. rewrite bool_decide_eq_true_2 by done. cbn [negb].
    f_equal; apply bfilter_id; intros o Ho; apply negb_true_iff, bool_decide_eq_false_2; intros E.
    - apply (Hl sourceId); [|apply elem_of_cons; by left]. rewrite <- E. apply elem_of_lmap. by exists o.
    - apply Hr. rewrite <- E. apply elem_of_lmap. by exists o. }
  assert (reorderOperations (l ++ source :: l') sourceId targetId after
          = a ++ (if after then [target; source] else [source; target]) ++ b) as Hro.
  { unfold reorderOperations. rewrite bool_decide_eq_false_2 by done.
    replace (truthy sourceId) with true by by destruct sourceId. replace (truthy targetId) with true by by destruct targetId.
    cbn [negb orb]. rewrite Hf. rewrite take_app_length, (drop_app_ge l _ (S (length l))) by lia.
    replace (S (length l) - length l) with 1 by lia. cbn [drop]. rewrite drop_0, Hg, list_lookup_middle by done. rewrite Eab.
    destruct after.
    - rewrite (take_app_ge a), (drop_app_ge a) by lia. replace (S (length a) - length a) with 1 by lia. cbn [take drop].
      by rewrite take_0, drop_0, <- !app_assoc.
    - by rewrite take_app_length, drop_app_length. }
  exists a, b, source, target. rewrite Hro, Hfil. split_and!; [done|done|done|by rewrite Eab|].
  rewrite <- (Permutation_middle l l' source), Eab, <- (Permutation_middle a (b) target). destruct after; solve_Permutation.
Qed.

(** ** Rules of [prune_objects] *)

Section prune.
Context (clock : nat → Z) (toUpperCase : str → str).

Lemma digits_no_underscore n : 95%N ∉ N_dec n.
Proof. intros H. pose proof (proj1 (Forall_forall _ _) (N_dec_digits n) _ H) as Hd. done. Qed.

(** The number at the end of an id is its own. *)
Lemma nextLocalId_inj n m : nextLocalId clock n = nextLocalId clock m → n = m.
Proof.
  intros H. assert (∀ k, last (split [95%N] (nextLocalId clock k)) = Some (N_dec (N.of_nat k))) as Hl.
  { intros k. unfold nextLocalId. rewrite app_assoc. change (js "_" ++ ?x) with (95%N :: x). rewrite split_app.
    unfold split at 2. rewrite split_go_clean by apply digits_no_underscore. by rewrite last_snoc. }
  pose proof (Hl n) as Hn. rewrite H, Hl in Hn. injection Hn as Hn. apply (f_equal dec_val) in Hn. rewrite !dec_val_N_dec in Hn. lia.
Qed.

Definition fresh_from (n : nat) (rs : list ParamOverrideCondition) : Prop :=
  Forall (λ r, ∃ k, n ≤ k ∧ c_id r = nextLocalId clock k) rs.

Lemma fresh_imap {A} (f : A → obj) n (l : list A) : fresh_from n (imap (λ i x, normalizePruneRule clock (n + i) (f x)) l).
Proof. apply Forall_lookup. intros i r Hr. apply list_lookup_imap_Some in Hr as (x & _ & ->). exists (n + i). split; [lia|done]. Qed.

Lemma fresh_weaken n m rs : n ≤ m → fresh_from m rs → fresh_from n rs.
Proof. intros Hle H. eapply Forall_impl; [exact H|]. intros r (k & Hk & E). exists k. split; [lia|done]. Qed.

(** Every reading of a draft numbers its rules anew. *)
Lemma draft_fresh n t : fresh_from n (rules (parsePruneObjectsDraft clock toUpperCase n t)).
Proof.
  unfold parsePruneObjectsDraft. destruct (trim t) as [|c s]; [constructor|].
  destruct (json_parse (c :: s)) as [[| | | | |o]|]; try constructor. cbn [rules]. unfold prune_rules.
  apply Forall_app. split.
  - destruct (obj_get (js "where") o) as [[| | | | |w]|]; try constructor. apply fresh_imap.
  - set (m := n + _). apply (fresh_weaken n m); [lia|].
    destruct (obj_get (js "conditions") o) as [[| | | |l|w]|]; try constructor; [apply (fresh_imap (λ o, o))|apply fresh_imap].
Qed.

Lemma fresh_other k n rs : k < n → fresh_from n rs → ∀ r, r ∈ rs → bool_decide (c_id r = nextLocalId clock k) = false.
Proof.
  intros Hk Hf r Hr. apply bool_decide_eq_false_2. intros E. apply (proj1 (Forall_forall _ _) Hf) in Hr as (j & Hj & Ej).
  rewrite Ej in E. apply nextLocalId_inj in E. lia.
Qed.

(** Updaters that agree on drafts whose rules are new. *)
Lemma prune_draft_ext id u1 u2 st :
  (∀ n m d, seed st ≤ n → fresh_from n (rules d) → u1 m d = u2 m d) →
  updatePruneObjectsDraft clock toUpperCase id u1 st = updatePruneObjectsDraft clock toUpperCase id u2 st.
Proof.
  intros Hu. unfold updatePruneObjectsDraft.
  match goal with |- context [fold_left ?a (operations st)] =>
    match goal with |- _ = (let (_, _) := fold_left ?b _ _ in _) =>
      assert (∀ l acc, seed st ≤ snd acc → fold_left a l acc = fold_left b l acc) as Hf end end.
  { induction l as [|o l IH]; intros [ops n] Hn; [done|]. cbn [fold_left snd fst] in *. case_bool_decide; [|by apply IH].
    rewrite (Hu n _ _ Hn (draft_fresh n (value_text o))). destruct (u2 _ _) as [next taken]. apply IH. cbn [snd]. lia. }
  by rewrite Hf.
Qed.

(** The rules of [prune_objects] cannot be edited.  The id of a rule on screen was handed out when the draft
    was read for display, so it is not the id of any rule of the draft that the handler reads: whatever the
    change, the handler behaves as without it, and removing removes nothing.  A rule that is added has no path
    and is left out of the text, so nothing is added either. *)
Theorem prune_rules_cannot_be_edited id k patch st : k < seed st →
  updatePruneRule clock toUpperCase id (nextLocalId clock k) patch st
  = updatePruneObjectsDraft clock toUpperCase id (λ _ d, (d, 0)) st ∧
  removePruneRule clock toUpperCase id (nextLocalId clock k) st
  = updatePruneObjectsDraft clock toUpperCase id (λ _ d, (d, 0)) st ∧
  ∀ n d, buildPruneObjectsValueText toUpperCase (with_rules false (rules d ++ [normalizePruneRule clock n []]) d)
         = buildPruneObjectsValueText toUpperCase (with_rules false (rules d) d).
Proof.
  intros Hk. split_and!.
  - apply prune_draft_ext. intros n m d Hn Hf. f_equal. destruct d as [sm t lo re rs]. cbn [rules] in Hf. unfold with_rules. cbn.
    f_equal. rewrite <- (map_id rs) at 2. apply map_ext_in. intros r Hr%list_elem_of_In. by rewrite (fresh_other k n rs) by (done || lia).
  - apply prune_draft_ext. intros n m d Hn Hf. f_equal. destruct d as [sm t lo re rs]. cbn [rules] in Hf. unfold with_rules. cbn.
    f_equal. apply bfilter_id. intros r Hr. by rewrite (fresh_other k n rs) by (done || lia).
  - intros n d. unfold buildPruneObjectsValueText, with_rules. cbn [po_simpleMode typeText po_logic recursive rules].
    rewrite bfilter_app. change (List.filter (λ r, has_text (c_path r)) [normalizePruneRule clock n []]) with (@nil ParamOverrideCondition).
    by rewrite app_nil_r.
Qed.

End prune.

(** ** The editors of single modes *)

Lemma status_kept z : (100 ≤ z ≤ 599)%Z → json_num (num_of_Z z) = true ∧ status_or_400 (num_of_Z z) = num_of_Z z.
Proof.
  assert (forallb (λ i, let x := num_of_Z (100 + Z.of_nat i) in
            json_num x && (bool_decide (is_Some (integer_of x)) && nle (num_of_Z 100) x && nle x (num_of_Z 599))) (seq 0 500) = true) as H
    by (vm_compute; reflexivity).
  intros Hz. rewrite forallb_forall in H. specialize (H (Z.to_nat (z - 100))).
  replace (100 + Z.of_nat (Z.to_nat (z - 100)))%Z with z in H by lia.
  assert (In (Z.to_nat (z - 100)) (seq 0 500)) as Hin by (apply in_seq; lia). specialize (H Hin). cbv zeta in H.
  apply andb_true_iff in H as [H1 H2]. split; [exact H1|]. unfold status_or_400. by rewrite H2.
Qed.

Lemma first_trimmed_text s l : trimmed s → s ≠ [] → first_trimmed (Some (JStr s) :: l) = s.
Proof. intros H Hs. destruct s as [|c s]; [done|]. cbn [first_trimmed]. change (truthy_text _) with (Some (c :: s)). by apply trim_id. Qed.

Definition error_draft_ok (d : ReturnErrorDraft) : Prop :=
  re_simpleMode d = false ∧ (∃ z, (100 ≤ z ≤ 599)%Z ∧ statusCode d = num_of_Z z) ∧
  Forall (λ s, trimmed s ∧ units s) [re_message d; re_code d; re_type d].

Lemma return_error_ok d : error_draft_ok d → json_ok (JObj (return_error_payload d)).
Proof.
  intros (_ & (z & Hz & Hs) & Hf). inversion Hf as [|? ? [T1 U1] H1]; inversion H1 as [|? ? [T2 U2] H2]; inversion H2 as [|? ? [T3 U3] _]; subst.
  apply (members_ok ["message"; "status_code"; "code"; "type"; "skip_retry"]); [|vm_compute; reflexivity].
  unfold return_error_payload. rewrite !trim_id by done. destruct (status_kept z Hz) as [Hj He]. rewrite Hs, He. cbn [app].
  apply members_cons; [by constructor|]. apply members_cons; [by constructor|]. apply members_text; [done|]. apply members_text; [done|].
  replace (if skipRetry d then [] else [(js "skip_retry", JBool false)]) with (member_if (negb (skipRetry d)) "skip_retry" (JBool false) ++ [])
    by by destruct (skipRetry d).
  apply members_if; [constructor|constructor].
Qed.

Lemma return_error_read d : error_draft_ok d → parseReturnErrorDraft (buildReturnErrorValueText d) = d.
Proof.
  intros Hd. pose proof (return_error_ok d Hd) as Hok. destruct Hd as (Hm & (z & Hz & Hs) & Hf).
  inversion Hf as [|? ? [T1 _] H1]; inversion H1 as [|? ? [T2 _] H2]; inversion H2 as [|? ? [T3 _] _]; subst.
  unfold parseReturnErrorDraft, buildReturnErrorValueText. rewrite Hm, trim_id by apply stringify_obj_trimmed.
  rewrite nonempty_case by by apply stringify_ne. unfold parse_object. rewrite json_parse_stringify by done.
  unfold return_error_payload. rewrite !(trim_id (re_message d)), !(trim_id (re_code d)), !(trim_id (re_type d)) by done.
  destruct (status_kept z Hz) as [_ He]. rewrite Hs, He.
  replace (if skipRetry d then [] else [(js "skip_retry", JBool false)]) with (member_if (negb (skipRetry d)) "skip_retry" (JBool false))
    by by destruct (skipRetry d).
  read_member. cbn [opt_number to_number]. rewrite He. destruct d as [m s c t sr sm]. cbn [re_message re_code re_type skipRetry re_simpleMode statusCode] in *. subst.
  f_equal.
  - destruct m; [reflexivity|]. by apply first_trimmed_text.
  - destruct c; [reflexivity|]. by apply (first_trimmed_text (_ :: _)).
  - destruct t; [reflexivity|]. by apply (first_trimmed_text (_ :: _)).
  - by destruct sr.
Qed.

Lemma sync_target_read toLowerCase t :
  toLowerCase (js "header") = js "header" → toLowerCase (js "json") = js "json" → trimmed (st_key t) → st_key t ≠ [] →
  parseSyncTargetSpec toLowerCase (buildSyncTargetSpec t) = t.
Proof.
  intros Hh Hj Ht Hk. destruct t as [h k]. cbn [st_key] in *. unfold buildSyncTargetSpec. cbn [st_key st_header]. rewrite trim_id by done.
  replace (truthy k) with true by by destruct k. unfold parseSyncTargetSpec. rewrite trim_id.
  - destruct h.
    + change (index_of (js ":") (js "header" ++ js ":" ++ k)) with (Some 6). cbv beta iota. change (take 6 (js "header" ++ js ":" ++ k)) with (js "header").
      change (drop 7 (js "header" ++ js ":" ++ k)) with k. rewrite (trim_id k) by done. change (trim (js "header")) with (js "header"). by rewrite Hh.
    + change (index_of (js ":") (js "json" ++ js ":" ++ k)) with (Some 4). cbv beta iota. change (take 4 (js "json" ++ js ":" ++ k)) with (js "json").
      change (drop 5 (js "json" ++ js ":" ++ k)) with k. rewrite (trim_id k) by done. change (trim (js "json")) with (js "json"). by rewrite Hj.
  - rewrite app_assoc. apply trimmed_app; [by destruct h|done|by destruct h|apply Ht].
Qed.

(** The editors of single modes show what they wrote: the advanced draft of a custom error, and a source or
    target of field synchronisation, are read back from their text unchanged. *)
Theorem drafts_round_trip toLowerCase d t :
  error_draft_ok d → trimmed (st_key t) → st_key t ≠ [] →
  toLowerCase (js "header") = js "header" → toLowerCase (js "json") = js "json" →
  parseReturnErrorDraft (buildReturnErrorValueText d) = d ∧ parseSyncTargetSpec toLowerCase (buildSyncTargetSpec t) = t.
Proof. intros Hd Ht Hk Hh Hj. split; [by apply return_error_read|by apply sync_target_read]. Qed.

(** ** Instances *)

(** A rule with a condition, as it stands in the editor. *)
Definition temperature_rule : ParamOverrideOperation :=
  {| op_id := js "po_1_0"; description := js " Default temperature "; path := js "temperature "; mode := js "set"; op_from := [];
     op_to := []; value_text := js "0.7"; keep_origin := true; logic := js "AND";
     conditions := [{| c_id := js "po_1_1"; c_path := js "model"; c_mode := js "prefix"; c_value_text := js "openai/";
                       c_invert := false; c_pass_missing_key := true |}] |}.

Lemma temperature_rule_ok : operation_ok temperature_rule.
Proof.
  split_and!.
  - apply (bool_decide_unpack (_ ∈ _)). vm_compute. exact I.
  - unfold writable. vm_compute parseLooseValue. constructor. vm_compute. reflexivity.
  - constructor; [|constructor]. split_and!; [apply (bool_decide_unpack (_ ∈ _)); vm_compute; exact I|by apply units_lit|].
    unfold writable. vm_compute parseLooseValue. split_and!; [by apply units_lit|by apply (bool_decide_unpack (trimmed _))|reflexivity|discriminate].
  - repeat (constructor; [by apply units_lit|]). constructor.
Qed.

Definition id_clock (n : nat) : Z := Z.of_nat n.

(** A blank rule is left out; the other one is read back and saved again as it was. *)
Lemma reopen_and_save_witness :
  match buildOperationsJson true [createDefaultOperation id_clock 7; temperature_rule] with
  | inr text => ∃ st, open_dialog id_clock (λ s, s) 9 text = Ret st ∧ handleSave st = inr text
  | inl _ => False
  end.
Proof.
  destruct (buildOperationsJson true [createDefaultOperation id_clock 7; temperature_rule]) as [e|text] eqn:E; [vm_compute in E; discriminate E|].
  assert (text ≠ []) as Hne by (intros ->; vm_compute in E; discriminate E).
  assert (Forall operation_ok (List.filter (λ o, negb (isOperationBlank o)) [createDefaultOperation id_clock 7; temperature_rule])) as Ho.
  { change (List.filter _ _) with [temperature_rule]. constructor; [exact temperature_rule_ok|constructor]. }
  destruct (reopen_and_save id_clock (λ s, s) eq_refl eq_refl 9 _ _ Ho E Hne) as (st & H1 & _ & _ & _ & H2).
  exact (ex_intro _ st (conj H1 H2)).
Defined.

Definition three_rules : list ParamOverrideOperation := map (createDefaultOperation id_clock) [0; 1; 2].

Lemma reorder_moves_the_dragged_witness :
  map op_id (reorderOperations three_rules (js "po_0_0") (js "po_2_2") true) = map js ["po_1_1"; "po_2_2"; "po_0_0"]%string ∧
  reorderOperations three_rules (js "po_0_0") (js "po_2_2") true ≡ₚ three_rules.
Proof.
  split; [vm_compute; reflexivity|].
  assert (NoDup (map op_id three_rules)) as Hn by (apply (bool_decide_unpack (NoDup _)); vm_compute; exact I).
  assert (js "po_0_0" ∈ map op_id three_rules) as H1 by (apply (bool_decide_unpack (_ ∈ _)); vm_compute; exact I).
  assert (js "po_2_2" ∈ map op_id three_rules) as H2 by (apply (bool_decide_unpack (_ ∈ _)); vm_compute; exact I).
  assert (js "po_0_0" ≠ [] ∧ js "po_2_2" ≠ [] ∧ js "po_0_0" ≠ js "po_2_2") as (H3 & H4 & H5) by (split_and!; discriminate).
  destruct (reorder_moves_the_dragged three_rules (js "po_0_0") (js "po_2_2") true Hn H1 H2 H3 H4 H5) as (a & b & s & t & _ & _ & _ & _ & H).
  exact H.
Defined.

(** A dialog with one [prune_objects] rule, whose draft was read for display with id 3. *)
Definition pruning : Editor :=
  visual 4 [{| op_id := js "po_0_0"; description := []; path := []; mode := js "prune_objects"; op_from := []; op_to := [];
               value_text := json_stringify (JObj [(js "conditions", JObj [(js "name", JStr (js "x"))])]);
               keep_origin := false; logic := js "OR"; conditions := [] |}] [].

Lemma prune_rules_cannot_be_edited_witness :
  map value_text (operations (removePruneRule id_clock (λ s, s) (js "po_0_0") (nextLocalId id_clock 3) pruning))
  = [json_stringify (JObj [(js "conditions", JArr [JObj [(js "path", JStr (js "name")); (js "mode", JStr (js "full"));
                                                         (js "value", JStr (js "x"))]])])].
Proof.
  assert (3 < seed pruning) as Hk by (cbn; lia).
  destruct (prune_rules_cannot_be_edited id_clock (λ s, s) (js "po_0_0") 3 (λ r, r) pruning Hk) as (_ & H & _).
  rewrite H. vm_compute. reflexivity.
Defined.

Lemma drafts_round_trip_witness :
  parseSyncTargetSpec (λ s, s) (js "header:X-Id") = {| st_header := true; st_key := js "X-Id" |}.
Proof.
  assert (error_draft_ok {| re_message := js "no"; statusCode := num_of_Z 403; re_code := []; re_type := []; skipRetry := false;
                            re_simpleMode := false |}) as Hd.
  { split_and!; [reflexivity|exists 403%Z; split; [lia|reflexivity]|].
    repeat (constructor; [split; [by apply (bool_decide_unpack (trimmed _))|by apply units_lit]|]). constructor. }
  assert (trimmed (js "X-Id")) as Ht by by apply (bool_decide_unpack (trimmed _)).
  assert (js "X-Id" ≠ []) as Hk by discriminate.
  exact (proj2 (drafts_round_trip (λ s, s) _ {| st_header := true; st_key := js "X-Id" |} Hd Ht Hk eq_refl eq_refl)).
Defined.

(** A text that reads as a number loses its quotes: opening the dialog and saving turns the saved text
    123 into the number. *)
Theorem text_value_becomes_number clock toUpperCase n :
  let saved v := json_pretty (operations_of [JObj [(js "mode", JStr (js "set")); (js "path", JStr (js "user")); (js "value", v)]]) in
  match open_dialog clock toUpperCase n (saved (JStr (js "123"))) with
  | Ret st => handleSave st = inr (saved (JNum (num_of_Z 123)))
  | Throw => False
  end.
Proof. vm_compute. reflexivity. Qed.
