(* ===== verification/PriceTables.v ===== *)
(** * The option tables of the model prices

    A price of a model is an entry in one of several options, each a JSON object from model names to values
    ([ModelRatio], [ModelPrice], [billing_setting.billing_mode], …).  Both the upstream price sync
    ([upstream-ratio-sync.tsx]) and the visual editor ([model-ratio-visual-editor.tsx]) copy the options, change the entries
    of some models and write every option back. *)

From S2P Require Import Prelude JsString Json JsonFacts.

Definition Tables := list (str * obj).

Definition on_table (k : str) (f : obj → obj) (t : Tables) : Tables :=
  map (λ e, if bool_decide (fst e = k) then (fst e, f (snd e)) else e) t.

Definition delete_from (ks : list str) (model : str) (t : Tables) : Tables :=
  map (λ e, if bool_decide (fst e ∈ ks) then (fst e, obj_delete model (snd e)) else e) t.

(** The table of an option *)
Definition table (k : str) (t : Tables) : obj :=
  match find (λ e, bool_decide (fst e = k)) t with Some e => snd e | None => [] end.

Lemma table_on k f t k' : existsb (λ e : str * obj, bool_decide (fst e = k)) t = true →
  table k' (on_table k f t) = if bool_decide (k' = k) then f (table k t) else table k' t.
Proof.
  unfold table. induction t as [|[q o] t IH]; [done|]. cbn [existsb on_table map find fst snd].
  destruct (decide (q = k)) as [->|Hq].
  - rewrite !(bool_decide_eq_true_2 (k = k)) by done. cbn [fst snd orb]. intros _. destruct (decide (k' = k)) as [->|Hk].
    + by rewrite !(bool_decide_eq_true_2 (k = k)).
    + rewrite !(bool_decide_eq_false_2 (k = k')), (bool_decide_eq_false_2 _ Hk) by done. clear IH.
      induction t as [|[q' o'] t IH]; [done|]. cbn [map find fst snd]. destruct (decide (q' = k)) as [->|Hq'].
      * rewrite (bool_decide_eq_true_2 (k = k)) by done. cbn [fst]. by rewrite (bool_decide_eq_false_2 (k = k')).
      * rewrite (bool_decide_eq_false_2 _ Hq'). cbn [fst]. by destruct (bool_decide (q' = k')).
  - rewrite (bool_decide_eq_false_2 _ Hq). cbn [fst snd orb]. intros He. destruct (decide (q = k')) as [->|Hqk].
    + rewrite !(bool_decide_eq_true_2 (k' = k')) by done. by rewrite (bool_decide_eq_false_2 (k' = k)).
    + rewrite !(bool_decide_eq_false_2 _ Hqk). by apply IH.
Qed.

Lemma table_delete ks m t k : table k (delete_from ks m t) = if bool_decide (k ∈ ks) then obj_delete m (table k t) else table k t.
Proof.
  unfold table. induction t as [|[q o] t IH]; [by destruct (bool_decide _)|]. cbn [delete_from map find fst snd].
  destruct (decide (q = k)) as [->|Hq].
  - rewrite (bool_decide_eq_true_2 (k = k)) by done. destruct (bool_decide (k ∈ ks)) eqn:E; cbn [fst]; by rewrite (bool_decide_eq_true_2 (k = k)).
  - rewrite (bool_decide_eq_false_2 _ Hq). destruct (bool_decide (q ∈ ks)); cbn [fst]; rewrite (bool_decide_eq_false_2 _ Hq); exact IH.
Qed.

Lemma on_table_keys k f t : map fst (on_table k f t) = map fst t.
Proof. unfold on_table. rewrite map_map. apply map_ext. intros [q o]. by destruct (bool_decide _). Qed.

Lemma delete_from_keys ks m t : map fst (delete_from ks m t) = map fst t.
Proof. unfold delete_from. rewrite map_map. apply map_ext. intros [q o]. by destruct (bool_decide _). Qed.
