(* ===== verification/SettingsJson.v ===== *)
(** * JSON texts of the settings pages
    ([web/default/src/features/system-settings/models/utils.ts] and [system-settings/utils/json-parser.ts])

    Settings are texts that hold JSON.  The helpers show them in a text area, normalise them before they are
    compared and sent, check them, and read them with a fallback.  The message of a failed [JSON.parse] depends
    on the engine: it is the parameter [parse_error]; the position it mentions is turned into a line and a column. *)

From S2P Require Import Prelude JsString Regex JsNumber Json JsonFacts JsonPretty.

(** ** Showing and normalising *)

Definition formatJsonForTextarea (value : str) : str :=
  if negb (truthy value) || negb (truthy (trim value)) then []
  else match json_parse value with Some parsed => json_pretty parsed | None => value end.

Definition normalizeJsonString (value : str) : str :=
  let trimmed := trim value in
  match trimmed with
  | [] => []
  | _ => match json_parse trimmed with Some parsed => json_stringify parsed | None => trimmed end
  end.

(** ** Error messages *)

(** A letter in either case, for patterns with the flag [i]. *)
Definition either_case (c : N) : regex := RChar (λ d, ((d =? c) || (d =? c - 32))%N).

Definition digits_group (n : nat) : regex := RGroup n (rplus (RChar is_digit)).

(** [/at position (\d+)/i] *)
Definition POSITION_RE : regex :=
  rseq (map (λ c, if (c =? 32)%N then RChar (N.eqb c) else either_case c) (js "at position ") ++ [digits_group 1]).

(** [/at line (\d+) column (\d+)/i] *)
Definition LINE_COLUMN_RE : regex :=
  let word w := map (λ c, if (c =? 32)%N then RChar (N.eqb c) else either_case c) (js w) in
  rseq (word "at line "%string ++ [digits_group 1] ++ word " column "%string ++ [digits_group 2]).

Record JsonErrorPosition := { err_line : N; err_column : N }.

Definition getLineAndColumn (text : str) (position : N) : JsonErrorPosition :=
  let lines := split nl (take (N.to_nat (N.min position (N.of_nat (length text)))) text) in
  {| err_line := N.of_nat (length lines); err_column := N.of_nat (S (length (default [] (last lines)))) |}.

(** [parseInt(group, 10)] of a group of digits *)
Definition group_value (cs : list (option str)) (i : nat) : N :=
  match cs !! i with Some (Some s) => dec_val s | _ => 0%N end.

Definition extractErrorPosition (message jsonString : str) : option JsonErrorPosition :=
  match match_re 1 POSITION_RE message with
  | Some cs => Some (getLineAndColumn jsonString (group_value cs 1))
  | None =>
      match match_re 2 LINE_COLUMN_RE message with
      | Some cs => Some {| err_line := group_value cs 1; err_column := group_value cs 2 |}
      | None => None
      end
  end.

Definition isMissingCommaError (message : str) : bool :=
  includes (js "Expected ','") message || includes (js "Expected property name") message ||
  includes (js "Unexpected string") message.

(** With a position the line and the column are at least 1, so the text without them is never built. *)
Definition formatErrorMessage (message jsonString : str) : str :=
  match extractErrorPosition message jsonString with
  | Some p =>
      if (err_line p =? 0)%N || (err_column p =? 0)%N then message
      else
        let hint := if isMissingCommaError message && (1 <? err_line p)%N
                    then js " (check line " ++ N_dec (err_line p - 1) ++ js " for missing comma)" else [] in
        js "Error at line " ++ N_dec (err_line p) ++ js ", column " ++ N_dec (err_column p) ++ js ": " ++ message ++ hint
  | None => message
  end.

(** ** Checking and reading *)

Record Validation := { v_valid : bool; v_message : option str }.

Definition invalid (m : str) : Validation := {| v_valid := false; v_message := Some m |}.

Section parse_error.
Context (parse_error : str → str).

Definition validateJsonString (allowEmpty : bool) (predicate : option (json → bool)) (predicateMessage : str) (value : str) : Validation :=
  let trimmed := trim value in
  match trimmed with
  | [] => {| v_valid := allowEmpty; v_message := if allowEmpty then None else Some (js "Value is required") |}
  | _ =>
      match json_parse trimmed with
      | Some parsed =>
          match predicate with
          | Some p =>
              if p parsed then {| v_valid := true; v_message := None |}
              else invalid (if truthy predicateMessage then predicateMessage else js "JSON structure is invalid")
          | None => {| v_valid := true; v_message := None |}
          end
      | None => invalid (formatErrorMessage (parse_error trimmed) trimmed)
      end
  end.

(** [{ success: true, data }] or [{ success: false, error }] *)
Definition tryJsonParse (value : option str) : str + json :=
  match value with
  | None => inl (js "Empty value")
  | Some v =>
      if negb (truthy v) || negb (truthy (trim v)) then inl (js "Empty value")
      else match json_parse (trim v) with Some data => inr data | None => inl (parse_error (trim v)) end
  end.

End parse_error.

Definition safeJsonParse (fallback : json) (value : option str) : json :=
  match value with
  | None => fallback
  | Some v =>
      if negb (truthy v) || negb (truthy (trim v)) then fallback
      else match json_parse (trim v) with Some data => data | None => fallback end
  end.

Definition safeJsonParseWithValidation (fallback : json) (validator : json → bool) (value : option str) : json :=
  let parsed := safeJsonParse fallback value in
  if validator parsed then parsed else fallback.

(** The members of an option that the visual editors read; another JSON value than an object is outside their model. *)
Definition read_table (text : str) : option obj := match safeJsonParse (JObj []) (Some text) with JObj o => Some o | _ => None end.

(** [form.setValue] of the visual editors: the options with new texts *)
Definition with_texts (changes : list (str * str)) (texts : str → str) : str → str :=
  λ k, match find (λ e, bool_decide (fst e = k)) changes with Some e => snd e | None => texts k end.

(** ** The checks of the ratio settings ([ratio-settings-card.tsx]) *)

Definition is_string (v : json) : bool := match v with JStr _ => true | _ => false end.

Definition auto_groups_predicate (v : json) : bool := match v with JArr l => forallb is_string l | _ => false end.

Definition smart_rules_predicate (v : json) : bool :=
  match v with JObj o => forallb (λ kv, match snd kv with JArr l => forallb is_string l | _ => false end) o | _ => false end.

(** ** Facts *)

Example error_message_position :
  formatErrorMessage (js "Unexpected string in JSON at position 9") (js "{" ++ nl ++ js "  1: 2" ++ nl ++ js "}")
  = js "Error at line 3, column 1: Unexpected string in JSON at position 9 (check line 2 for missing comma)".
Proof. vm_compute. reflexivity. Qed.

Example error_message_firefox :
  formatErrorMessage (js "JSON.parse: bad At Line 2 column 3") [] = js "Error at line 2, column 3: JSON.parse: bad At Line 2 column 3".
Proof. vm_compute. reflexivity. Qed.

Lemma split_go_count cur s : length (split_go [10%N] 0 cur s) = S (length (List.filter (N.eqb 10) s)).
Proof.
  revert cur. induction s as [|d s IH]; intros cur; [done|]. cbn [split_go starts_with List.filter]. rewrite andb_true_r.
  destruct (10 =? d)%N eqn:E; cbn [length Nat.sub]; by rewrite IH.
Qed.

Lemma split_go_last cur s : ∃ d, last (split_go [10%N] 0 cur s) = Some d ∧
  ((10%N ∉ s ∧ d = rev cur ++ s) ∨ ∃ a, s = a ++ 10%N :: d ∧ 10%N ∉ d).
Proof.
  revert cur. induction s as [|c s IH]; intros cur.
  { exists (rev cur). split; [done|]. left. split; [apply not_elem_of_nil|by rewrite app_nil_r]. }
  cbn [split_go starts_with]. rewrite andb_true_r. destruct (10 =? c)%N eqn:E.
  - apply N.eqb_eq in E as <-. cbn [length Nat.sub]. destruct (IH []) as (d & Hd & Hc). exists d. split.
    { destruct (split_go [10%N] 0 [] s) eqn:Es; [by apply split_go_nonempty in Es|]. exact Hd. }
    right. destruct Hc as [[Hn ->]|(a & -> & Hn)]; [by exists []|by exists (10%N :: a)].
  - apply N.eqb_neq in E. destruct (IH (c :: cur)) as (d & Hd & Hc). exists d. split; [exact Hd|].
    destruct Hc as [[Hn ->]|(a & -> & Hn)]; [left; split; [set_solver|simpl; by rewrite <- app_assoc]|right; by exists (c :: a)].
Qed.

(** The line counts the line breaks before the position, the column the units since the last of them. *)
Lemma line_and_column text position : (position ≤ N.of_nat (length text))%N →
  let before := take (N.to_nat position) text in
  ∃ d, ((10%N ∉ before ∧ d = before) ∨ ∃ a, before = a ++ 10%N :: d ∧ 10%N ∉ d) ∧
    getLineAndColumn text position
    = {| err_line := N.of_nat (S (length (List.filter (N.eqb 10) before))); err_column := N.of_nat (S (length d)) |}.
Proof.
  intros Hp before. unfold getLineAndColumn. rewrite N.min_l by done. fold before. unfold split.
  destruct (split_go_last [] before) as (d & Hd & Hc). exists d. split; [exact Hc|].
  change nl with [10%N]. by rewrite Hd, split_go_count.
Qed.

Lemma shown_blank value : trim value = [] → formatJsonForTextarea value = [].
Proof. intros E. unfold formatJsonForTextarea. rewrite E. by destruct (truthy value). Qed.

(** Texts whose JSON keeps its meaning when printed. *)
Definition settings_text (value : str) : Prop := trimmed value ∧ ∀ v, json_parse value = Some v → json_ok v.

Lemma pretty_trimmed v : json_ok v → trimmed (json_pretty v).
Proof.
  intros H. unfold json_pretty. destruct (pretty_flat [] v) as [->|[(x & l & ->)|(kv & o & ->)]].
  - by apply stringify_trimmed.
  - cbn [pretty]. apply (trimmed_app (js "[")); [done|discriminate|done|]. rewrite !rev_app_distr. reflexivity.
  - cbn [pretty]. apply (trimmed_app (js "{")); [done|discriminate|done|]. rewrite !rev_app_distr. reflexivity.
Qed.

Lemma pretty_ne v : json_ok v → json_pretty v ≠ [].
Proof. intros (c & u & E & _)%(pretty_head []). unfold json_pretty. by rewrite E. Qed.

(** What the text area shows of a stored setting is normalised to the same text as the setting. *)
Lemma normalize_shown value : settings_text value → normalizeJsonString (formatJsonForTextarea value) = normalizeJsonString value.
Proof.
  intros [Ht Hok]. unfold formatJsonForTextarea. rewrite (trim_id value) by done. destruct value as [|c s] eqn:Ev; [done|].
  rewrite <- Ev in *. assert (value ≠ []) as Hne by by rewrite Ev. replace (truthy value) with true by by rewrite Ev.
  cbn [negb orb]. destruct (json_parse value) as [v|] eqn:E; [|done]. unfold normalizeJsonString.
  specialize (Hok v eq_refl). rewrite (trim_id (json_pretty v)), (trim_id value) by auto using pretty_trimmed.
  rewrite !nonempty_case by auto using pretty_ne. by rewrite json_parse_pretty, E.
Qed.

(** A normalised text is normal. *)
Lemma normalize_normal value : (∀ v, json_parse (trim value) = Some v → json_ok v) →
  normalizeJsonString (normalizeJsonString value) = normalizeJsonString value.
Proof.
  intros Hok. unfold normalizeJsonString at 2 3. destruct (trim value) as [|c s] eqn:Et; [done|].
  destruct (json_parse (c :: s)) as [v|] eqn:E.
  - specialize (Hok v eq_refl). unfold normalizeJsonString. rewrite trim_id by by apply stringify_trimmed.
    rewrite nonempty_case by by apply stringify_ne. by rewrite json_parse_stringify.
  - unfold normalizeJsonString. rewrite <- Et, trim_idemp, Et. by rewrite E.
Qed.

(** Two settings are normalised to the same text exactly when they mean the same. *)
Lemma normalize_same_meaning a b v w : json_parse (trim a) = Some v → json_parse (trim b) = Some w → json_ok v → json_ok w →
  normalizeJsonString a = normalizeJsonString b ↔ v = w.
Proof.
  intros Ea Eb Hv Hw. assert (∀ t u, json_parse (trim t) = Some u → normalizeJsonString t = json_stringify u) as Hn.
  { intros t u E. unfold normalizeJsonString. destruct (trim t) as [|c s]; [by vm_compute in E|]. by rewrite E. }
  rewrite (Hn a v Ea), (Hn b w Eb). split; [|by intros ->]. intros E. apply (f_equal json_parse) in E.
  rewrite !json_parse_stringify in E by done. congruence.
Qed.

Lemma read_written o : json_ok (JObj o) → read_table (json_pretty (JObj o)) = Some o.
Proof.
  intros Ho. unfold read_table, safeJsonParse. destruct (pretty_trimmed _ Ho) as [Ht1 Ht2].
  rewrite trim_id by (by apply pretty_trimmed). assert (truthy (json_pretty (JObj o)) = true) as ->.
  { pose proof (pretty_ne _ Ho). by destruct (json_pretty (JObj o)). }
  cbn [negb orb]. by rewrite json_parse_pretty.
Qed.
