(* ===== verification/RatioSettings.v ===== *)
(** * Saving the ratio settings
    ([web/default/src/features/system-settings/models/ratio-settings-card.tsx])

    The page of model prices and group ratios: what its forms show of the stored options, the checks of their
    fields, and which options are sent to the server, in which order, when a form is saved. *)

From S2P Require Import Prelude JsString JsNumber JsNumberFacts Json JsonFacts JsonPretty SettingsJson.

(** The value of an option: a text that holds JSON, a switch or a number. *)
Inductive Setting := SJson (text : str) | SBool (b : bool) | SNum (n : num).

(** [a !== b]; values of different types differ, and so does NaN from itself. *)
Definition setting_eqb (a b : Setting) : bool :=
  match a, b with
  | SJson s, SJson t => bool_decide (s = t)
  | SBool x, SBool y => Bool.eqb x y
  | SNum x, SNum y => num_eqb x y
  | _, _ => false
  end.

Definition on_json (f : str → str) (s : Setting) : Setting := match s with SJson t => SJson (f t) | _ => s end.

Record ModelFormValues := {
  ModelPrice : str; ModelRatio : str; CacheRatio : str; CreateCacheRatio : str; CompletionRatio : str; ImageRatio : str;
  AudioRatio : str; AudioCompletionRatio : str; ExposeRatioEnabled : bool; BillingMode : str; BillingExpr : str }.

Record GroupFormValues := {
  GroupRatio : str; TopupGroupRatio : str; UserUsableGroups : str; GroupGroupRatio : str; AutoGroups : str;
  SmartGroupRules : str; DefaultUseAutoGroup : bool; AutoCrossGroupRetryEnabled : bool; MaxTokenAutoGroups : num;
  GroupSpecialUsableGroup : str }.

(** The members of a form's values, in the order in which [normalized] lists them. *)
Definition model_members (v : ModelFormValues) : list (str * Setting) :=
  [(js "ModelPrice", SJson (ModelPrice v)); (js "ModelRatio", SJson (ModelRatio v)); (js "CacheRatio", SJson (CacheRatio v));
   (js "CreateCacheRatio", SJson (CreateCacheRatio v)); (js "CompletionRatio", SJson (CompletionRatio v));
   (js "ImageRatio", SJson (ImageRatio v)); (js "AudioRatio", SJson (AudioRatio v));
   (js "AudioCompletionRatio", SJson (AudioCompletionRatio v)); (js "ExposeRatioEnabled", SBool (ExposeRatioEnabled v));
   (js "BillingMode", SJson (BillingMode v)); (js "BillingExpr", SJson (BillingExpr v))].

Definition group_members (v : GroupFormValues) : list (str * Setting) :=
  [(js "GroupRatio", SJson (GroupRatio v)); (js "TopupGroupRatio", SJson (TopupGroupRatio v));
   (js "UserUsableGroups", SJson (UserUsableGroups v)); (js "GroupGroupRatio", SJson (GroupGroupRatio v));
   (js "AutoGroups", SJson (AutoGroups v)); (js "SmartGroupRules", SJson (SmartGroupRules v));
   (js "DefaultUseAutoGroup", SBool (DefaultUseAutoGroup v));
   (js "AutoCrossGroupRetryEnabled", SBool (AutoCrossGroupRetryEnabled v));
   (js "MaxTokenAutoGroups", SNum (MaxTokenAutoGroups v)); (js "GroupSpecialUsableGroup", SJson (GroupSpecialUsableGroup v))].

Definition normalized (members : list (str * Setting)) : list (str * Setting) :=
  map (λ kv, (fst kv, on_json normalizeJsonString (snd kv))) members.

(** What the forms show when they are reset to the stored options. *)
Definition shown_model (d : ModelFormValues) : ModelFormValues :=
  let f := formatJsonForTextarea in
  {| ModelPrice := f (ModelPrice d); ModelRatio := f (ModelRatio d); CacheRatio := f (CacheRatio d);
     CreateCacheRatio := f (CreateCacheRatio d); CompletionRatio := f (CompletionRatio d); ImageRatio := f (ImageRatio d);
     AudioRatio := f (AudioRatio d); AudioCompletionRatio := f (AudioCompletionRatio d);
     ExposeRatioEnabled := ExposeRatioEnabled d; BillingMode := f (BillingMode d); BillingExpr := f (BillingExpr d) |}.

Definition shown_group (d : GroupFormValues) : GroupFormValues :=
  let f := formatJsonForTextarea in
  {| GroupRatio := f (GroupRatio d); TopupGroupRatio := f (TopupGroupRatio d); UserUsableGroups := f (UserUsableGroups d);
     GroupGroupRatio := f (GroupGroupRatio d); AutoGroups := f (AutoGroups d); SmartGroupRules := f (SmartGroupRules d);
     DefaultUseAutoGroup := DefaultUseAutoGroup d; AutoCrossGroupRetryEnabled := AutoCrossGroupRetryEnabled d;
     MaxTokenAutoGroups := MaxTokenAutoGroups d; GroupSpecialUsableGroup := f (GroupSpecialUsableGroup d) |}.

(** ** Checks of the fields *)

Section checks.
Context (parse_error : str → str).

(** The message of a complaint that has none of its own *)
Definition no_message (key : str) : str :=
  if bool_decide (key = js "AutoGroups") then js "Invalid JSON array"
  else if bool_decide (key = js "SmartGroupRules") then js "Invalid JSON object" else js "Invalid JSON".

(** The complaints about fields: the key and the message, [None] where the message is the schema library's. *)
Definition complaints (v : list (str * Setting)) : list (str * option str) :=
  omap (λ kv, match snd kv with
    | SJson t =>
        let r := if bool_decide (fst kv = js "AutoGroups")
                 then validateJsonString parse_error true (Some auto_groups_predicate) (js "Expected a JSON array of group identifiers") t
                 else if bool_decide (fst kv = js "SmartGroupRules")
                 then validateJsonString parse_error true (Some smart_rules_predicate)
                        (js "Expected a JSON object mapping smart groups to source group arrays") t
                 else validateJsonString parse_error true None [] t in
        let message := match v_message r with Some (c :: m) => c :: m | _ => no_message (fst kv) end in
        if v_valid r then None else Some (fst kv, Some message)
    | SBool _ => None
    | SNum n => match integer_of n with
                | Some z => if (1 <=? z)%Z then None else Some (fst kv, None)
                | None => Some (fst kv, None)
                end
    end) v.

End checks.

(** ** Saving *)

(** The stored value of a key; a key that is not there is [undefined], which differs from every value. *)
Definition same_as (defaults : list (str * Setting)) (kv : str * Setting) : bool :=
  match find (λ d, bool_decide (fst d = fst kv)) defaults with Some d => setting_eqb (snd kv) (snd d) | None => false end.

Definition changed (values defaults : list (str * Setting)) : list (str * Setting) :=
  List.filter (λ kv, negb (same_as defaults kv)) values.

(** [apiKeyMap[key] || key] *)
Definition api_key (table : list (str * str)) (key : str) : str :=
  match find (λ e, bool_decide (fst e = key)) table with Some e => snd e | None => key end.

Definition MODEL_API_KEYS : list (str * str) :=
  [(js "BillingMode", js "billing_setting.billing_mode"); (js "BillingExpr", js "billing_setting.billing_expr")].

Definition GROUP_API_KEYS : list (str * str) :=
  [(js "GroupSpecialUsableGroup", js "group_ratio_setting.group_special_usable_group")].

Definition requests (table : list (str * str)) (updates : list (str * Setting)) : list (str * Setting) :=
  map (λ kv, (api_key table (fst kv), snd kv)) updates.

(** Requests are sent one after the other; one that fails is the last. *)
Fixpoint send (accepted : str * Setting → bool) (l : list (str * Setting)) : list (str * Setting) * bool :=
  match l with
  | [] => ([], true)
  | r :: rest => if accepted r then let (sent, ok) := send accepted rest in (r :: sent, ok) else ([r], false)
  end.

(** The requests of saving [values] over the stored options [d]; [None] is the notice that nothing has changed. *)
Definition saveModelRatios (d values : ModelFormValues) : option (list (str * Setting)) :=
  match changed (normalized (model_members values)) (normalized (model_members d)) with
  | [] => None
  | updates => Some (requests MODEL_API_KEYS updates)
  end.

Definition saveGroupRatios (d values : GroupFormValues) : list (str * Setting) :=
  requests GROUP_API_KEYS (changed (normalized (group_members values)) (normalized (group_members d))).

(** ** Facts *)

Definition setting_ok (s : Setting) : Prop :=
  match s with SJson t => settings_text t | SBool _ => True | SNum n => is_nan n = false end.

Lemma setting_eqb_refl s : match s with SNum n => is_nan n = false | _ => True end → setting_eqb s s = true.
Proof.
  destruct s as [t|b|n]; cbn; intros H; [by apply bool_decide_eq_true_2|by destruct b|by apply num_eqb_refl].
Qed.

Lemma find_key {A} k (v : A) l : NoDup (map fst l) → (k, v) ∈ l → find (λ d : str * A, bool_decide (fst d = k)) l = Some (k, v).
Proof.
  induction l as [|[k' v'] l IH]; [by intros _ ?%not_elem_of_nil|]. cbn [map fst find]. rewrite NoDup_cons. intros [Hn Hd] Hin.
  apply elem_of_cons in Hin as [[= <- <-]|Hin]; [by rewrite bool_decide_eq_true_2|].
  rewrite bool_decide_eq_false_2; [by apply IH|]. intros ->. apply Hn. apply elem_of_lmap. by exists (k, v).
Qed.

(** A member of the form and of the stored options that are alike after normalisation. *)
Lemma same_as_member k a b (values defaults : list (str * Setting)) : NoDup (map fst defaults) → (k, a) ∈ values → (k, b) ∈ defaults →
  same_as (normalized defaults) (k, on_json normalizeJsonString a) = setting_eqb (on_json normalizeJsonString a) (on_json normalizeJsonString b).
Proof.
  intros Hn Ha Hb. unfold same_as. cbn [fst snd].
  rewrite (find_key k (on_json normalizeJsonString b)); [done|unfold normalized; rewrite map_map; exact Hn|].
  apply elem_of_lmap. by exists (k, b).
Qed.

Lemma changed_exact k a b (values defaults : list (str * Setting)) : NoDup (map fst values) → NoDup (map fst defaults) → (k, a) ∈ values → (k, b) ∈ defaults →
  k ∈ map fst (changed (normalized values) (normalized defaults))
  ↔ setting_eqb (on_json normalizeJsonString a) (on_json normalizeJsonString b) = false.
Proof.
  intros Hv Hd Ha Hb. rewrite <- (same_as_member k a b values defaults Hd Ha Hb). rewrite elem_of_lmap. split.
  - intros ([k' s] & E & Hin). cbn in E. subst k'. apply elem_of_bfilter in Hin as [Hin Hs]. apply negb_true_iff in Hs.
    apply elem_of_lmap in Hin as ([k2 a2] & [= -> ->] & Hin2). cbn in Hs. 
    assert (a2 = a) as -> by (pose proof (find_key k2 a values Hv Ha); pose proof (find_key k2 a2 values Hv Hin2); congruence). exact Hs.
  - intros Hs. exists (k, on_json normalizeJsonString a). split; [done|]. apply elem_of_bfilter. split; [|by rewrite Hs].
    apply elem_of_lmap. by exists (k, a).
Qed.

Lemma changed_none (values defaults : list (str * Setting)) : NoDup (map fst defaults) →
  Forall2 (λ v d, fst v = fst d ∧ setting_eqb (on_json normalizeJsonString (snd v)) (on_json normalizeJsonString (snd d)) = true) values defaults →
  changed (normalized values) (normalized defaults) = [].
Proof.
  intros Hn Hf. apply bfilter_none. intros [k s] Hin. apply elem_of_lmap in Hin as ([k2 a] & [= -> ->] & Hin).
  apply list_elem_of_lookup in Hin as (i & Hi). destruct (Forall2_lookup_l _ _ _ _ _ Hf Hi) as ([k3 b] & Hb & E & Es). cbn in E, Es. subst k3.
  apply negb_false_iff. cbn [fst snd]. rewrite (same_as_member k2 a b values defaults); [exact Es|done|by eapply list_elem_of_lookup_2|by eapply list_elem_of_lookup_2].
Qed.

Lemma group_keys_distinct v : NoDup (map fst (group_members v)).
Proof. apply (bool_decide_unpack (NoDup (map js ["GroupRatio"; "TopupGroupRatio"; "UserUsableGroups"; "GroupGroupRatio"; "AutoGroups"; "SmartGroupRules"; "DefaultUseAutoGroup"; "AutoCrossGroupRetryEnabled"; "MaxTokenAutoGroups"; "GroupSpecialUsableGroup"]%string))). vm_compute. exact I. Qed.

Lemma model_keys_distinct v : NoDup (map fst (model_members v)).
Proof. apply (bool_decide_unpack (NoDup (map js ["ModelPrice"; "ModelRatio"; "CacheRatio"; "CreateCacheRatio"; "CompletionRatio"; "ImageRatio"; "AudioRatio"; "AudioCompletionRatio"; "ExposeRatioEnabled"; "BillingMode"; "BillingExpr"]%string))). vm_compute. exact I. Qed.

(** A setting as it is shown. *)
Lemma shown_same s : setting_ok s →
  setting_eqb (on_json normalizeJsonString (on_json formatJsonForTextarea s)) (on_json normalizeJsonString s) = true.
Proof.
  destruct s as [t|b|n]; cbn [setting_ok on_json]; intros H; [rewrite normalize_shown by done|..]; by apply setting_eqb_refl.
Qed.

Lemma shown_members (members shown : list (str * Setting)) :
  shown = map (λ kv, (fst kv, on_json formatJsonForTextarea (snd kv))) members → Forall (λ kv, setting_ok (snd kv)) members →
  NoDup (map fst members) → changed (normalized shown) (normalized members) = [].
Proof.
  intros -> Hok Hn. apply changed_none; [done|]. induction Hok as [|kv l Hkv _ IH]; [constructor|].
  cbn [map]. constructor; [split; [done|by apply shown_same]|]. apply IH. cbn [map] in Hn. by apply NoDup_cons in Hn as [_ ?].
Qed.

(** Sending the options stops at the first one that is refused. *)
Lemma send_all accepted l : Forall (λ r, accepted r = true) l → send accepted l = (l, true).
Proof. induction 1 as [|r l Hr _ IH]; [done|]. cbn [send]. by rewrite Hr, IH. Qed.

Lemma changed_keys values defaults : map fst (changed (normalized values) defaults) `sublist_of` map fst values.
Proof.
  assert (map fst values = map fst (normalized values)) as -> by (unfold normalized; rewrite map_map; done).
  apply (fmap_sublist fst), bfilter_sublist.
Qed.

Section saving.
Context (table : list (str * str)) (values defaults : list (str * Setting)).
Hypothesis distinct_values : NoDup (map fst values).
Hypothesis distinct_defaults : NoDup (map fst defaults).
Hypothesis distinct_requests : NoDup (map (api_key table) (map fst values)).

Lemma request_keys l : map fst (requests table l) = map (api_key table) (map fst l).
Proof. unfold requests. by rewrite !map_map. Qed.

Lemma requests_distinct : NoDup (map fst (requests table (changed (normalized values) (normalized defaults)))).
Proof using distinct_requests.
  rewrite request_keys. eapply sublist_NoDup; [exact distinct_requests|]. apply (fmap_sublist (api_key table)), changed_keys.
Qed.

Lemma requested_iff_meaning_changed k s t a b : (k, SJson s) ∈ values → (k, SJson t) ∈ defaults →
  json_parse (trim s) = Some a → json_parse (trim t) = Some b → json_ok a → json_ok b →
  api_key table k ∈ map fst (requests table (changed (normalized values) (normalized defaults))) ↔ a ≠ b.
Proof using distinct_values distinct_defaults distinct_requests.
  intros Hs Ht Ea Eb Ha Hb. rewrite request_keys, elem_of_lmap.
  assert (k ∈ map fst values) as Hk by (apply elem_of_lmap; by exists (k, SJson s)).
  rewrite <- (normalize_same_meaning s t a b Ea Eb Ha Hb).
  pose proof (changed_exact k (SJson s) (SJson t) values defaults distinct_values distinct_defaults Hs Ht) as Hc.
  cbn [on_json setting_eqb] in Hc. rewrite bool_decide_eq_false in Hc. rewrite <- Hc. split.
  - intros (k' & E & Hin). assert (k' ∈ map fst values) as Hk' by (eapply elem_of_sublist; [exact Hin|apply changed_keys]).
    by rewrite (NoDup_map_inj _ _ _ _ distinct_requests Hk Hk' E).
  - intros Hin. by exists k.
Qed.

End saving.

Lemma model_requests_distinct v : NoDup (map (api_key MODEL_API_KEYS) (map fst (model_members v))).
Proof. apply (bool_decide_unpack (NoDup (map (api_key MODEL_API_KEYS) (map js ["ModelPrice"; "ModelRatio"; "CacheRatio"; "CreateCacheRatio"; "CompletionRatio"; "ImageRatio"; "AudioRatio"; "AudioCompletionRatio"; "ExposeRatioEnabled"; "BillingMode"; "BillingExpr"]%string)))). vm_compute. exact I. Qed.

Lemma group_requests_distinct v : NoDup (map (api_key GROUP_API_KEYS) (map fst (group_members v))).
Proof. apply (bool_decide_unpack (NoDup (map (api_key GROUP_API_KEYS) (map js ["GroupRatio"; "TopupGroupRatio"; "UserUsableGroups"; "GroupGroupRatio"; "AutoGroups"; "SmartGroupRules"; "DefaultUseAutoGroup"; "AutoCrossGroupRetryEnabled"; "MaxTokenAutoGroups"; "GroupSpecialUsableGroup"]%string)))). vm_compute. exact I. Qed.

Lemma saved_model d v : default [] (saveModelRatios d v) = requests MODEL_API_KEYS (changed (normalized (model_members v)) (normalized (model_members d))).
Proof. unfold saveModelRatios. by destruct (changed _ _). Qed.

(** Saving the price or group settings sends exactly the options that were changed.  A form that is saved as
    it is shown sends nothing; an option that holds JSON is sent exactly when its meaning changed, whatever its
    layout; and the options are sent under the keys of the server, each at most once. *)
Theorem save_sends_exactly_the_changes md mv gd gv :
  Forall (λ kv, setting_ok (snd kv)) (model_members md) → Forall (λ kv, setting_ok (snd kv)) (group_members gd) →
  saveModelRatios md (shown_model md) = None ∧ saveGroupRatios gd (shown_group gd) = [] ∧
  (∀ k s t a b, (k, SJson s) ∈ model_members mv → (k, SJson t) ∈ model_members md →
     json_parse (trim s) = Some a → json_parse (trim t) = Some b → json_ok a → json_ok b →
     (api_key MODEL_API_KEYS k ∈ map fst (default [] (saveModelRatios md mv)) ↔ a ≠ b)) ∧
  (∀ k s t a b, (k, SJson s) ∈ group_members gv → (k, SJson t) ∈ group_members gd →
     json_parse (trim s) = Some a → json_parse (trim t) = Some b → json_ok a → json_ok b →
     (api_key GROUP_API_KEYS k ∈ map fst (saveGroupRatios gd gv) ↔ a ≠ b)) ∧
  NoDup (map fst (default [] (saveModelRatios md mv))) ∧ NoDup (map fst (saveGroupRatios gd gv)).
Proof.
  intros Hm Hg. split_and!.
  - unfold saveModelRatios. rewrite (shown_members (model_members md) (model_members (shown_model md)) eq_refl Hm (model_keys_distinct md)). reflexivity.
  - unfold saveGroupRatios. rewrite (shown_members (group_members gd) (group_members (shown_group gd)) eq_refl Hg (group_keys_distinct gd)). reflexivity.
  - intros k s t a b. rewrite saved_model. apply requested_iff_meaning_changed; auto using model_keys_distinct, model_requests_distinct.
  - intros k s t a b. apply requested_iff_meaning_changed; auto using group_keys_distinct, group_requests_distinct.
  - rewrite saved_model. apply requests_distinct, model_requests_distinct.
  - apply requests_distinct, group_requests_distinct.
Qed.

Definition sample_text : str := json_stringify (JObj [(js "vip", JNum (num_of_Z 2))]).

Definition sample_model : ModelFormValues :=
  let t := sample_text in
  {| ModelPrice := t; ModelRatio := []; CacheRatio := t; CreateCacheRatio := t; CompletionRatio := t; ImageRatio := t; AudioRatio := t;
     AudioCompletionRatio := t; ExposeRatioEnabled := true; BillingMode := t; BillingExpr := t |}.

Definition sample_group : GroupFormValues :=
  {| GroupRatio := sample_text; TopupGroupRatio := []; UserUsableGroups := []; GroupGroupRatio := [];
     AutoGroups := []; SmartGroupRules := []; DefaultUseAutoGroup := false; AutoCrossGroupRetryEnabled := false;
     MaxTokenAutoGroups := num_of_Z 1; GroupSpecialUsableGroup := [] |}.

Lemma sample_text_ok : settings_text sample_text.
Proof.
  assert (json_ok (JObj [(js "vip", JNum (num_of_Z 2))])) as Hok.
  { apply (object_ok [js "vip"]); [done|apply NoDup_singleton| |].
    - constructor; [|constructor]. split; [reflexivity|by repeat constructor].
    - constructor; [|constructor]. constructor. vm_compute. reflexivity. }
  split; [by apply stringify_trimmed|]. intros v. unfold sample_text. rewrite json_parse_stringify by done. by intros [= <-].
Qed.

Lemma empty_text_ok : settings_text [].
Proof. split; [done|]. intros v H. vm_compute in H. discriminate H. Qed.

Lemma save_sends_exactly_the_changes_witness :
  saveModelRatios sample_model (shown_model sample_model) = None ∧ saveGroupRatios sample_group (shown_group sample_group) = [].
Proof.
  assert (setting_ok (SJson sample_text)) as H1 by exact sample_text_ok.
  assert (setting_ok (SJson [])) as H2 by exact empty_text_ok.
  assert (∀ b, setting_ok (SBool b)) as H3 by (intros; exact I).
  assert (setting_ok (SNum (num_of_Z 1))) as H4 by (vm_compute; reflexivity).
  assert (Forall (λ kv, setting_ok (snd kv)) (model_members sample_model)) as Hm.
  { apply Forall_cons_2; [exact H1|]. apply Forall_cons_2; [exact H2|]. apply Forall_cons_2; [exact H1|]. apply Forall_cons_2; [exact H1|]. apply Forall_cons_2; [exact H1|]. apply Forall_cons_2; [exact H1|]. apply Forall_cons_2; [exact H1|]. apply Forall_cons_2; [exact H1|]. apply Forall_cons_2; [exact (H3 true)|]. apply Forall_cons_2; [exact H1|]. apply Forall_cons_2; [exact H1|]. constructor. }
  assert (Forall (λ kv, setting_ok (snd kv)) (group_members sample_group)) as Hg.
  { apply Forall_cons_2; [exact H1|]. apply Forall_cons_2; [exact H2|]. apply Forall_cons_2; [exact H2|]. apply Forall_cons_2; [exact H2|]. apply Forall_cons_2; [exact H2|]. apply Forall_cons_2; [exact H2|]. apply Forall_cons_2; [exact (H3 false)|]. apply Forall_cons_2; [exact (H3 false)|]. apply Forall_cons_2; [exact H4|]. apply Forall_cons_2; [exact H2|]. constructor. }
  destruct (save_sends_exactly_the_changes sample_model sample_model sample_group sample_group Hm Hg) as (E1 & E2 & _).
  exact (conj E1 E2).
Defined.
