(* ===== verification/UpstreamSync.v ===== *)
(** * Synchronising prices with upstreams
    ([web/default/src/features/system-settings/models/upstream-ratio-sync.tsx], [upstream-ratio-sync-helpers.ts],
    [upstream-ratio-sync-table.tsx] and [upstream-ratio-sync-columns.tsx])

    The page fetches the prices of other services, shows where they differ from the local ones, lets the
    administrator choose values, and writes the chosen ones into the ten price options.

    [differences] and [resolutions] are the JSON objects the code keeps: a model's differences by field, with the
    value of each upstream, and the values chosen by model and field.  Values are numbers or texts.  [toUpperCase] and
    [toLowerCase] are parameters; messages are kept untranslated.  Names inherited from [Object.prototype] are
    outside the model. *)

From S2P Require Import Prelude JsString JsNumber Json JsonFacts JsonPretty PriceTables.

(** ** Fields ([upstream-ratio-sync-helpers.ts]) *)

Definition RATIO_SYNC_FIELDS : list str :=
  map js ["model_ratio"; "completion_ratio"; "cache_ratio"; "create_cache_ratio"; "image_ratio"; "audio_ratio";
          "audio_completion_ratio"]%string.

Definition SYNC_FIELD_ORDER : list str := RATIO_SYNC_FIELDS ++ map js ["model_price"; "billing_mode"; "billing_expr"]%string.

Definition NUMERIC_SYNC_FIELDS : list str := RATIO_SYNC_FIELDS ++ [js "model_price"].

Definition RATIO_TYPE_OPTIONS : list (str * str) :=
  map (λ '(l, v), (js l, js v))
  [("Model ratio", "model_ratio"); ("Completion ratio", "completion_ratio"); ("Cache ratio", "cache_ratio");
   ("Create cache ratio", "create_cache_ratio"); ("Image ratio", "image_ratio"); ("Audio ratio", "audio_ratio");
   ("Audio completion ratio", "audio_completion_ratio"); ("Fixed price", "model_price");
   ("Expression billing", "billing_expr")]%string.

Definition getSyncFieldLabel (ratioType : str) : str :=
  match find (λ o, bool_decide (snd o = ratioType)) RATIO_TYPE_OPTIONS with Some o => fst o | None => ratioType end.

Definition ALL : str := js "__all__".

Definition getOrderedRatioTypes (ratioTypes : obj) (filter : str) : list str :=
  let keys := obj_keys ratioTypes in
  let ordered := List.filter (λ f, set_has f keys) SYNC_FIELD_ORDER ++ List.filter (λ f, negb (set_has f SYNC_FIELD_ORDER)) keys in
  if negb (truthy filter) || bool_decide (filter = ALL) then ordered else List.filter (λ f, bool_decide (f = filter)) ordered.

(** [ratioTypes[f]?.upstreams?.[source]] *)
Definition upstream_value (ratioTypes : obj) (f source : str) : option json :=
  opt_prop source (opt_prop (js "upstreams") (obj_get f ratioTypes)).

Definition isSelectableUpstreamValue (value : option json) : bool :=
  match value with
  | None | Some JNull => false
  | Some (JStr s) => negb (bool_decide (s = js "same"))
  | Some _ => true
  end.

Definition getPreferredSyncField (ratioTypes : obj) (ratioType sourceName : str) : str :=
  if negb (bool_decide (ratioType = js "billing_expr")) &&
     isSelectableUpstreamValue (upstream_value ratioTypes (js "billing_expr") sourceName)
  then js "billing_expr" else ratioType.

(** ** Channels *)

Record UpstreamChannel := { ch_id : Z; ch_name : str; ch_base_url : str; ch_type : option Z }.
Record UpstreamConfig := { up_id : Z; up_name : str; up_base_url : str; up_endpoint : str }.

Definition DEFAULT_ENDPOINT : str := js "/api/pricing".
Definition OFFICIAL_CHANNEL_ID : Z := -100.
Definition OFFICIAL_CHANNEL_ENDPOINT : str := js "/llm-metadata/api/newapi/ratio_config-v1-base.json".
Definition MODELS_DEV_PRESET_ID : Z := -101.
Definition MODELS_DEV_PRESET_ENDPOINT : str := js "https://models.dev/api.json".
Definition OPENROUTER_ENDPOINT : str := js "openrouter".
Definition OPENROUTER_CHANNEL_TYPE : Z := 20.

Definition getDefaultEndpointForChannel (c : UpstreamChannel) : str :=
  if bool_decide (ch_id c = MODELS_DEV_PRESET_ID) then MODELS_DEV_PRESET_ENDPOINT
  else if bool_decide (ch_id c = OFFICIAL_CHANNEL_ID) then OFFICIAL_CHANNEL_ENDPOINT
  else if bool_decide (ch_type c = Some OPENROUTER_CHANNEL_TYPE) then OPENROUTER_ENDPOINT
  else DEFAULT_ENDPOINT.

Definition endpoint_of (id : Z) (endpoints : list (Z * str)) : str :=
  match find (λ e, bool_decide (fst e = id)) endpoints with Some e => snd e | None => [] end.

(** [endpoints[id] = text] *)
Definition set_endpoint (id : Z) (text : str) (endpoints : list (Z * str)) : list (Z * str) :=
  (id, text) :: List.filter (λ e, negb (bool_decide (fst e = id))) endpoints.

(** The effect that gives every listed channel an endpoint. *)
Definition default_endpoints (channels : list UpstreamChannel) (endpoints : list (Z * str)) : list (Z * str) :=
  fold_left (λ next c, if truthy (endpoint_of (ch_id c) next) then next
                       else set_endpoint (ch_id c) (getDefaultEndpointForChannel c) next) channels endpoints.

(** The upstreams to ask; nothing when no listed channel is selected. *)
Definition handleConfirmChannelSelection (channels : list UpstreamChannel) (endpoints : list (Z * str)) (selectedIds : list Z)
    : list UpstreamConfig :=
  map (λ c, {| up_id := ch_id c; up_name := ch_name c; up_base_url := ch_base_url c;
               up_endpoint := let e := endpoint_of (ch_id c) endpoints in if truthy e then e else DEFAULT_ENDPOINT |})
    (List.filter (λ c, bool_decide (ch_id c ∈ selectedIds)) channels).

(** ** Choosing values *)

Inductive BillingCategory := CPrice | CRatio | CTiered.

#[export] Instance BillingCategory_eq_dec : EqDecision BillingCategory.
Proof. solve_decision. Defined.

Definition getBillingCategory (ratioType : str) : BillingCategory :=
  if bool_decide (ratioType = js "model_price") then CPrice
  else if bool_decide (ratioType = js "billing_mode") || bool_decide (ratioType = js "billing_expr") then CTiered
  else CRatio.

(** The members of an object that may be missing. *)
Definition members_of (v : option json) : obj := match v with Some (JObj o) => o | _ => [] end.

Definition deleteResolutionField (res : obj) (model ratioType : str) : obj :=
  match obj_get model res with
  | None => res
  | Some r =>
      let new0 := obj_delete ratioType (members_of (Some r)) in
      let new1 := if bool_decide (ratioType = js "billing_expr") then obj_delete (js "billing_mode") new0 else new0 in
      let new2 := if bool_decide (ratioType = js "billing_mode") then obj_delete (js "billing_expr") new1 else new1 in
      match new2 with [] => obj_delete model res | _ => obj_set model (JObj new2) res end
  end.

(** [a ?? b] *)
Definition nullish (a : option json) (b : json) : json := match a with None | Some JNull => b | Some v => v end.

(** The chosen values of one model after a choice; [diffs] are the model's differences. *)
Definition choose (diffs : option obj) (ratioType : str) (value : json) (sourceName : str) (chosen : obj) : obj :=
  let rts := default [] diffs in
  let finalType := if truthy sourceName then getPreferredSyncField rts ratioType sourceName else ratioType in
  let finalValue := if bool_decide (finalType = ratioType) then value
                    else nullish (upstream_value rts finalType sourceName) value in
  let category := getBillingCategory finalType in
  let kept := List.filter (λ kv, negb (negb (bool_decide (category = CTiered)) &&
                negb (bool_decide (getBillingCategory (fst kv) = CTiered)) &&
                negb (bool_decide (getBillingCategory (fst kv) = category)))) chosen in
  let set1 := obj_set finalType finalValue kept in
  if bool_decide (category = CTiered) && truthy sourceName && (match diffs with Some _ => true | None => false end)
  then
    let modeVal := upstream_value rts (js "billing_mode") sourceName in
    let exprVal := upstream_value rts (js "billing_expr") sourceName in
    let set2 := if isSelectableUpstreamValue modeVal then obj_set (js "billing_mode") (default JNull modeVal) set1
                else if bool_decide (finalType = js "billing_expr") then obj_set (js "billing_mode") (JStr (js "tiered_expr")) set1
                else set1 in
    if isSelectableUpstreamValue exprVal then obj_set (js "billing_expr") (default JNull exprVal) set2 else set2
  else set1.

(** A model's differences; the server sends objects. *)
Definition model_diffs (differences : obj) (model : str) : option obj :=
  match obj_get model differences with Some (JObj o) => Some o | _ => None end.

Definition handleSelectValue (differences : obj) (model ratioType : str) (value : json) (sourceName : str) (res : obj) : obj :=
  obj_set model (JObj (choose (model_diffs differences model) ratioType value sourceName (members_of (obj_get model res)))) res.

Definition handleUnselectValue (model ratioType : str) (res : obj) : obj := deleteResolutionField res model ratioType.

(** ** The table ([upstream-ratio-sync-table.tsx], [upstream-ratio-sync-columns.tsx]) *)

Record ModelRow := { row_model : str; ratioTypes : obj; billingConflict : bool }.

Definition has_key (k : str) (o : obj) : bool := match obj_get k o with Some _ => true | None => false end.

Definition dataSource (differences : obj) : list ModelRow :=
  map (λ kv, let rts := members_of (Some (snd kv)) in
    {| row_model := fst kv; ratioTypes := rts;
       billingConflict := has_key (js "model_price") rts && existsb (λ f, has_key f rts) RATIO_SYNC_FIELDS |}) differences.

Section text.
Context (toLowerCase toUpperCase : str → str).

Definition filteredData (search ratioTypeFilter : str) (rows : list ModelRow) : list ModelRow :=
  let found := if truthy (trim search)
               then List.filter (λ r, includes (toLowerCase search) (toLowerCase (row_model r))) rows else rows in
  if truthy ratioTypeFilter && negb (bool_decide (ratioTypeFilter = ALL))
  then List.filter (λ r, has_key ratioTypeFilter (ratioTypes r)) found else found.

Definition upstreamNames (ratioTypeFilter : str) (rows : list ModelRow) : list str :=
  array_of_set (rows ≫= λ r, getOrderedRatioTypes (ratioTypes r) ratioTypeFilter ≫= λ f,
    obj_keys (members_of (opt_prop (js "upstreams") (obj_get f (ratioTypes r))))).

(** The fields of a row that the column of an upstream can select, with their values. *)
Definition selectable_fields (ratioTypeFilter upstream : str) (r : ModelRow) : list (str * json) :=
  omap (λ f, let v := upstream_value (ratioTypes r) f upstream in
    if bool_decide (getPreferredSyncField (ratioTypes r) f upstream = f) && isSelectableUpstreamValue v
    then Some (f, default JNull v) else None) (getOrderedRatioTypes (ratioTypes r) ratioTypeFilter).

Definition handleBulkSelect (differences : obj) (ratioTypeFilter upstream : str) (rows : list ModelRow) (res : obj) : obj :=
  fold_left (λ acc r, fold_left (λ acc fv, handleSelectValue differences (row_model r) (fst fv) (snd fv) upstream acc)
    (selectable_fields ratioTypeFilter upstream r) acc) rows res.

Definition handleBulkUnselect (ratioTypeFilter upstream : str) (rows : list ModelRow) (res : obj) : obj :=
  fold_left (λ acc r, fold_left (λ acc f,
      match upstream_value (ratioTypes r) f upstream with Some _ => handleUnselectValue (row_model r) f acc | None => acc end)
    (getOrderedRatioTypes (ratioTypes r) ratioTypeFilter) acc) rows res.

(** [a === b] of numbers and texts *)
Definition value_eqb (a b : json) : bool :=
  match a, b with
  | JNum x, JNum y => num_eqb x y
  | JStr s, JStr t => bool_decide (s = t)
  | JBool x, JBool y => Bool.eqb x y
  | JNull, JNull => true
  | _, _ => false
  end.

Definition is_selected (res : obj) (model f : str) (v : json) : bool :=
  match obj_get f (members_of (obj_get model res)) with Some w => value_eqb w v | None => false end.

(** [selectableCount] and [selectedCount] of a column's header *)
Definition column_counts (ratioTypeFilter upstream : str) (rows : list ModelRow) (res : obj) : nat * nat :=
  let all := rows ≫= λ r, map (λ fv, (row_model r, fv)) (selectable_fields ratioTypeFilter upstream r) in
  (length all, length (List.filter (λ x, is_selected res (fst x) (fst (snd x)) (snd (snd x))) all)).

Definition allSelected (ratioTypeFilter upstream : str) (rows : list ModelRow) (res : obj) : bool :=
  let (selectable, selected) := column_counts ratioTypeFilter upstream rows res in
  (0 <? selectable)%nat && (selected =? selectable)%nat.

Definition someSelected (ratioTypeFilter upstream : str) (rows : list ModelRow) (res : obj) : bool :=
  let (selectable, selected) := column_counts ratioTypeFilter upstream rows res in
  (0 <? selected)%nat && (selected <? selectable)%nat.

(** ** Writing the options *)

Definition PRICE_OPTIONS : list str :=
  map js ["ModelRatio"; "CompletionRatio"; "CacheRatio"; "CreateCacheRatio"; "ImageRatio"; "AudioRatio";
          "AudioCompletionRatio"; "ModelPrice"; "billing_setting.billing_mode"; "billing_setting.billing_expr"]%string.

Definition RATIO_OPTIONS : list str :=
  map js ["ModelRatio"; "CompletionRatio"; "CacheRatio"; "CreateCacheRatio"; "ImageRatio"; "AudioRatio";
          "AudioCompletionRatio"]%string.

Definition capitalize (word : str) : str := toUpperCase (take 1 word) ++ drop 1 word.

Definition optionKeyBySyncField (ratioType : str) : str :=
  if bool_decide (ratioType = js "billing_mode") then js "billing_setting.billing_mode"
  else if bool_decide (ratioType = js "billing_expr") then js "billing_setting.billing_expr"
  else mjoin (map capitalize (split (js "_") ratioType)).

Definition parseJsonRecord (raw : option str) : json :=
  let text := match raw with Some (c :: s) => c :: s | _ => js "{}" end in
  default (JObj []) (json_parse text).

(** The parsed options, in the order of [PRICE_OPTIONS]; [raw] gives their texts. *)
Definition parsedRatios (raw : str → str) : list (str * json) := map (λ k, (k, parseJsonRecord (Some (raw k)))) PRICE_OPTIONS.

Definition ratios_of (k : str) (current : list (str * json)) : json :=
  match find (λ e, bool_decide (fst e = k)) current with Some e => snd e | None => JNull end.

(** [v[m]], which throws on [null] *)
Definition member (m : str) (v : json) : outcome (option json) :=
  match v with JNull => Throw | _ => Ret (obj_get m (entries_of v)) end.

Fixpoint any_defined (l : list json) (model : str) : outcome bool :=
  match l with
  | [] => Ret false
  | v :: rest => r ← member model v; match r with Some _ => Ret true | None => any_defined rest model end
  end.

(** [Some CPrice], [Some CRatio] or nothing *)
Definition getLocalBillingCategory (model : str) (current : list (str * json)) : outcome (option BillingCategory) :=
  p ← member model (ratios_of (js "ModelPrice") current);
  match p with
  | Some _ => Ret (Some CPrice)
  | None => b ← any_defined (map (λ k, ratios_of k current) RATIO_OPTIONS) model; Ret (if b : bool then Some CRatio else None)
  end.

(** The option tables, copied from the parsed options. *)
Definition tables_of (current : list (str * json)) : Tables := map (λ k, (k, entries_of (ratios_of k current))) PRICE_OPTIONS.

(** [NUMERIC_SYNC_FIELDS.has(f) ? Number(value) : value] *)
Definition synced_value (f : str) (value : json) : json :=
  if bool_decide (f ∈ NUMERIC_SYNC_FIELDS) then JNum (to_number value) else value.

(** A field without an option makes the assignment throw. *)
Definition write_field (model : str) (t : Tables) (fv : str * json) : outcome Tables :=
  let k := optionKeyBySyncField (fst fv) in
  if existsb (λ e, bool_decide (fst e = k)) t then Ret (on_table k (obj_set model (synced_value (fst fv) (snd fv))) t) else Throw.

Fixpoint write_fields (model : str) (l : list (str * json)) (t : Tables) : outcome Tables :=
  match l with [] => Ret t | fv :: rest => t' ← write_field model t fv; write_fields model rest t' end.

Definition hasPrice (ratios : obj) : bool := has_key (js "model_price") ratios.
Definition hasRatio (ratios : obj) : bool := existsb (λ kv, bool_decide (fst kv ∈ RATIO_SYNC_FIELDS)) ratios.

Definition write_model (t : Tables) (mr : str * json) : outcome Tables :=
  let ratios := members_of (Some (snd mr)) in
  let t1 := if hasPrice ratios then delete_from RATIO_OPTIONS (fst mr) t else t in
  let t2 := if hasRatio ratios then delete_from [js "ModelPrice"] (fst mr) t1 else t1 in
  write_fields (fst mr) ratios t2.

Fixpoint write_models (l : list (str * json)) (t : Tables) : outcome Tables :=
  match l with [] => Ret t | mr :: rest => t' ← write_model t mr; write_models rest t' end.

Definition finalRatios (res : obj) (current : list (str * json)) : outcome Tables := write_models res (tables_of current).

(** The updates that are sent, in this order, one after the other. *)
Definition performSync (res : obj) (current : list (str * json)) : outcome (list (str * str)) :=
  t ← finalRatios res current; Ret (map (λ e, (fst e, json_pretty (JObj (snd e)))) t).

(** ** Applying *)

Record ConflictItem := { channel : str; ci_model : str; current_desc : str; new_desc : str }.

Definition UNKNOWN : str := js "Unknown".

Definition findSourceChannel (differences : obj) (model f : str) (value : json) : str :=
  match opt_prop (js "upstreams") (opt_prop f (obj_get model differences)) with
  | Some (JObj ups) => match find (λ kv, value_eqb (snd kv) value) ups with Some kv => fst kv | None => UNKNOWN end
  | _ => UNKNOWN
  end.

(** [`${x ?? '-'}`] *)
Definition or_dash (v : option json) : str := match v with None | Some JNull => js "-" | Some w => json_to_string w end.
Definition template_text (v : option json) : str := match v with None => js "undefined" | Some w => json_to_string w end.

Definition new_category (ratios : obj) : BillingCategory :=
  if has_key (js "model_price") ratios then CPrice
  else if existsb (λ f, has_key f ratios) RATIO_SYNC_FIELDS then CRatio else CTiered.

Definition local_members (k : str) (current : list (str * json)) : obj := entries_of (ratios_of k current).

Definition conflict_of (differences : obj) (current : list (str * json)) (mr : str * json) : outcome (option ConflictItem) :=
  let model := fst mr in
  let ratios := members_of (Some (snd mr)) in
  localCat ← getLocalBillingCategory model current;
  let newCat := new_category ratios in
  Ret (match localCat with
       | Some cat =>
           if negb (bool_decide (newCat = CTiered)) && negb (bool_decide (cat = newCat))
           then Some
             {| channel := join (js ", ") (array_of_set (map (λ kv, findSourceChannel differences model (fst kv) (snd kv)) ratios));
                ci_model := model;
                current_desc :=
                  if bool_decide (cat = CPrice)
                  then js "Fixed price: " ++ template_text (obj_get model (local_members (js "ModelPrice") current))
                  else js "Model ratio: " ++ or_dash (obj_get model (local_members (js "ModelRatio") current)) ++ nl ++
                       js "Completion ratio: " ++ or_dash (obj_get model (local_members (js "CompletionRatio") current));
                new_desc :=
                  if bool_decide (newCat = CPrice)
                  then js "Fixed price: " ++ template_text (obj_get (js "model_price") ratios)
                  else js "Model ratio: " ++ or_dash (obj_get (js "model_ratio") ratios) ++ nl ++
                       js "Completion ratio: " ++ or_dash (obj_get (js "completion_ratio") ratios) |}
           else None
       | None => None
       end).

Fixpoint conflicts_of (differences : obj) (current : list (str * json)) (l : list (str * json)) : outcome (list ConflictItem) :=
  match l with
  | [] => Ret []
  | mr :: rest =>
      c ← conflict_of differences current mr;
      cs ← conflicts_of differences current rest;
      Ret (match c with Some i => i :: cs | None => cs end)
  end.

(** ** The page *)

Record SyncPage := {
  differences : obj; resolutions : obj; conflictItems : list ConflictItem; conflictDialogOpen : bool;
  sending : option (list (str * str))  (** the updates of a sync under way *)
}.

Definition opened_page : SyncPage :=
  {| differences := []; resolutions := []; conflictItems := []; conflictDialogOpen := false; sending := None |}.

Definition with_resolutions (res : obj) (p : SyncPage) : SyncPage :=
  {| differences := differences p; resolutions := res; conflictItems := conflictItems p;
     conflictDialogOpen := conflictDialogOpen p; sending := sending p |}.

Definition with_sending (s : option (list (str * str))) (p : SyncPage) : SyncPage :=
  {| differences := differences p; resolutions := resolutions p; conflictItems := conflictItems p;
     conflictDialogOpen := conflictDialogOpen p; sending := s |}.

Definition with_conflicts (l : list ConflictItem) (b : bool) (p : SyncPage) : SyncPage :=
  {| differences := differences p; resolutions := resolutions p; conflictItems := l; conflictDialogOpen := b; sending := sending p |}.

Definition onFetched (success : bool) (diffs : obj) (p : SyncPage) : SyncPage :=
  if success
  then {| differences := diffs; resolutions := []; conflictItems := conflictItems p;
          conflictDialogOpen := conflictDialogOpen p; sending := sending p |}
  else p.

(** The fields that were written are no longer different. *)
Definition drop_field (model : str) (diffs : obj) (f : str) : obj :=
  match obj_get model diffs with
  | Some (JObj rts) =>
      if json_truthy (obj_get f rts)
      then match obj_delete f rts with [] => obj_delete model diffs | rts' => obj_replace model (JObj rts') diffs end
      else diffs
  | _ => diffs
  end.

Definition drop_synced (res diffs : obj) : obj :=
  fold_left (λ acc mr, fold_left (drop_field (fst mr)) (obj_keys (members_of (Some (snd mr)))) acc) res diffs.

(** The answer to a sync; with the conflict dialog open a success also closes it. *)
Definition onSynced (success : bool) (p : SyncPage) : SyncPage :=
  if success
  then {| differences := drop_synced (resolutions p) (differences p); resolutions := []; conflictItems := conflictItems p;
          conflictDialogOpen := false; sending := None |}
  else with_sending None p.

Definition handleApplySync (current : list (str * json)) (p : SyncPage) : outcome SyncPage :=
  conflicts ← conflicts_of (differences p) current (resolutions p);
  match conflicts with
  | [] => updates ← performSync (resolutions p) current; Ret (with_sending (Some updates) p)
  | _ => Ret (with_conflicts conflicts true p)
  end.

Definition handleConfirmConflict (current : list (str * json)) (p : SyncPage) : outcome SyncPage :=
  updates ← performSync (resolutions p) current; Ret (with_sending (Some updates) p).

Definition hasSelections (p : SyncPage) : bool := match resolutions p with [] => false | _ => true end.

End text.
