(* ===== verification/UpstreamSyncFacts.v ===== *)
(** * Correctness of the price synchronisation

    What can be selected at the same time, what a sync writes into each of the ten options, when it asks for
    confirmation, and which differences remain afterwards. *)

From stdpp Require Import relations.
From S2P Require Import Prelude JsString JsNumber Json JsonFacts JsonPretty PriceTables UpstreamSync.

(** ** Members of objects *)

Lemma has_key_elem k o : has_key k o = true ↔ k ∈ map fst o.
Proof.
  unfold has_key. destruct (obj_get k o) as [v|] eqn:E; split; try done.
  - intros _. by eapply obj_get_Some.
  - intros H. by apply obj_get_fresh in E.
Qed.

Lemma has_key_set k k' v o : has_key k (obj_set k' v o) = bool_decide (k = k') || has_key k o.
Proof. unfold has_key. rewrite obj_get_set. by case_bool_decide. Qed.

Lemma has_key_delete k k' o : has_key k (obj_delete k' o) = negb (bool_decide (k = k')) && has_key k o.
Proof. unfold has_key. rewrite obj_get_delete. by case_bool_decide. Qed.

(** ** What is selected together *)

(** The values chosen for one model: known fields, never a fixed price together with a ratio, and an
    expression only with a billing mode. *)
Definition chosen_ok (o : obj) : Prop :=
  o ≠ [] ∧ NoDup (map fst o) ∧ (∀ f, f ∈ map fst o → f ∈ SYNC_FIELD_ORDER) ∧
  ¬ (has_key (js "model_price") o = true ∧ ∃ f, f ∈ RATIO_SYNC_FIELDS ∧ has_key f o = true) ∧
  (has_key (js "billing_expr") o = true → has_key (js "billing_mode") o = true).

Definition resolutions_ok (res : obj) : Prop :=
  NoDup (map fst res) ∧ ∀ m v, obj_get m res = Some v → ∃ o, v = JObj o ∧ chosen_ok o.

(** Differences as the server sends them: objects that only mention known fields, each with its details. *)
Definition fields_ok (rts : obj) : Prop :=
  ∀ f v, obj_get f rts = Some v → f ∈ SYNC_FIELD_ORDER ∧ json_truthy (Some v) = true.

Definition differences_ok (diffs : obj) : Prop :=
  NoDup (map fst diffs) ∧ ∀ m v, obj_get m diffs = Some v → ∃ rts, v = JObj rts ∧ fields_ok rts.

Lemma differences_known diffs m rts f : differences_ok diffs → model_diffs diffs m = Some rts → f ∈ map fst rts → f ∈ SYNC_FIELD_ORDER.
Proof.
  intros [_ Hd] Hm Hf. unfold model_diffs in Hm. destruct (obj_get m diffs) as [v|] eqn:E; [|done].
  destruct (Hd m v E) as (rts' & -> & Hk). injection Hm as ->. apply has_key_elem in Hf. unfold has_key in Hf.
  destruct (obj_get f rts) as [w|] eqn:Ef; [|done]. by apply (Hk f w).
Qed.

Lemma category_of f : f ∈ SYNC_FIELD_ORDER →
  (f ∈ RATIO_SYNC_FIELDS ↔ getBillingCategory f = CRatio) ∧ (f = js "model_price" ↔ getBillingCategory f = CPrice).
Proof.
  intros H. revert f H. apply Forall_forall. apply (bool_decide_unpack (Forall _ _)). vm_compute. exact I.
Qed.

(** The field a choice ends up in, and the fields that survive it. *)
Definition final_type (rts : obj) (f source : str) : str :=
  if truthy source then getPreferredSyncField rts f source else f.

Definition survives (category : BillingCategory) (k : str) : bool :=
  negb (negb (bool_decide (category = CTiered)) && negb (bool_decide (getBillingCategory k = CTiered)) &&
        negb (bool_decide (getBillingCategory k = category))).

Lemma final_type_known rts f source : f ∈ SYNC_FIELD_ORDER → final_type rts f source ∈ SYNC_FIELD_ORDER.
Proof.
  intros H. unfold final_type, getPreferredSyncField. destruct (truthy source); [|done]. destruct (_ && _); [|done].
  apply (bool_decide_unpack (_ ∈ _)). vm_compute. exact I.
Qed.

Lemma choose_has_key rts f v source chosen k : source ≠ [] →
  let ft := final_type rts f source in
  has_key k (choose (Some rts) f v source chosen) =
  bool_decide (k = ft) || (survives (getBillingCategory ft) k && has_key k chosen) ||
  (bool_decide (getBillingCategory ft = CTiered) &&
   ((bool_decide (k = js "billing_mode") && (isSelectableUpstreamValue (upstream_value rts (js "billing_mode") source) || bool_decide (ft = js "billing_expr"))) ||
    (bool_decide (k = js "billing_expr") && isSelectableUpstreamValue (upstream_value rts (js "billing_expr") source)))).
Proof.
  intros Hs ft. unfold choose. cbn [default from_option id]. replace (truthy source) with true by by destruct source.
  assert (getPreferredSyncField rts f source = ft) as -> by (unfold ft, final_type; by destruct source).
  assert (∀ l, has_key k (List.filter (λ kv, survives (getBillingCategory ft) (fst kv)) l) = survives (getBillingCategory ft) k && has_key k l) as Hf.
  { intros l. unfold has_key. rewrite obj_get_filter. by destruct (survives _ k). }
  change (List.filter _ chosen) with (List.filter (λ kv, survives (getBillingCategory ft) (fst kv)) chosen).
  destruct (bool_decide (getBillingCategory ft = CTiered)); cbn [andb].
  - destruct (isSelectableUpstreamValue (upstream_value rts (js "billing_mode") source)), (bool_decide (ft = js "billing_expr")),
      (isSelectableUpstreamValue (upstream_value rts (js "billing_expr") source));
      rewrite ?has_key_set, Hf; destruct (bool_decide (k = ft)), (bool_decide (k = js "billing_mode")), (bool_decide (k = js "billing_expr")),
        (survives _ k), (has_key k chosen); reflexivity.
  - rewrite has_key_set, Hf. by rewrite orb_false_r.
Qed.

Lemma choose_NoDup rts f v source chosen : NoDup (map fst chosen) → NoDup (map fst (choose (Some rts) f v source chosen)).
Proof. intros H. unfold choose. repeat case_match; auto 10 with js. Qed.

Definition not_mixed (o : obj) : Prop :=
  NoDup (map fst o) ∧ (∀ f, f ∈ map fst o → f ∈ SYNC_FIELD_ORDER) ∧
  ¬ (has_key (js "model_price") o = true ∧ ∃ f, f ∈ RATIO_SYNC_FIELDS ∧ has_key f o = true) ∧
  (has_key (js "billing_expr") o = true → has_key (js "billing_mode") o = true).

(** Where the keys of the new choice come from. *)
Lemma choose_key_inv rts f v source chosen k : source ≠ [] → has_key k (choose (Some rts) f v source chosen) = true →
  let ft := final_type rts f source in
  k = ft ∨ (survives (getBillingCategory ft) k = true ∧ has_key k chosen = true) ∨
  (getBillingCategory ft = CTiered ∧ getBillingCategory k = CTiered ∧ k ∈ SYNC_FIELD_ORDER).
Proof.
  intros Hs H. rewrite choose_has_key in H by done. cbv zeta. apply orb_true_iff in H as [[H|H]%orb_true_iff|H].
  - left. by apply bool_decide_eq_true in H.
  - right; left. by apply andb_true_iff.
  - right; right. apply andb_true_iff in H as [Hc%bool_decide_eq_true H]. split; [done|].
    assert (k = js "billing_mode" ∨ k = js "billing_expr") as [-> | ->]
      by (apply orb_true_iff in H as [[H _]%andb_true_iff|[H _]%andb_true_iff]; apply bool_decide_eq_true in H; auto);
      (split; [vm_compute; reflexivity|apply (bool_decide_unpack (_ ∈ _)); vm_compute; exact I]).
Qed.

Lemma survives_cases c k : survives c k = true → c = CTiered ∨ getBillingCategory k = CTiered ∨ getBillingCategory k = c.
Proof.
  unfold survives. destruct (decide (c = CTiered)); [auto|]. destruct (decide (getBillingCategory k = CTiered)); [auto|].
  destruct (decide (getBillingCategory k = c)); [auto|]. rewrite !bool_decide_eq_false_2 by done. done.
Qed.

(** A price or a ratio in the new choice: it was just chosen, or it was there and nothing of the other kind was chosen. *)
Lemma choose_plain_inv rts f v source chosen k : source ≠ [] → has_key k (choose (Some rts) f v source chosen) = true →
  getBillingCategory k ≠ CTiered →
  let c := getBillingCategory (final_type rts f source) in
  c = getBillingCategory k ∨ (c = CTiered ∧ has_key k chosen = true).
Proof.
  intros Hs H Hk. destruct (choose_key_inv _ _ _ _ _ _ Hs H) as [->|[[H1 H2]|(_ & H1 & _)]]; [by left| |done].
  destruct (survives_cases _ _ H1) as [H3|[H3|H3]]; [by right|done|by left].
Qed.

Lemma choose_exclusive rts f v source chosen : source ≠ [] → not_mixed chosen →
  let o := choose (Some rts) f v source chosen in
  ¬ (has_key (js "model_price") o = true ∧ ∃ r, r ∈ RATIO_SYNC_FIELDS ∧ has_key r o = true).
Proof.
  intros Hs (_ & _ & Hm & _) o [Hp (r & Hr & Hrk)].
  assert (getBillingCategory r = CRatio) as Er by (apply category_of; [apply elem_of_app; by left|done]).
  assert (getBillingCategory (js "model_price") = CPrice) as Ep by (vm_compute; reflexivity).
  apply choose_plain_inv in Hp; [|done|by rewrite Ep]. apply choose_plain_inv in Hrk; [|done|by rewrite Er].
  cbv zeta in *. rewrite Ep in Hp. rewrite Er in Hrk. destruct Hp as [Hp|[Hc Hp]], Hrk as [Hrk|[Hc' Hrk]]; try congruence.
  apply Hm. split; [exact Hp|by exists r].
Qed.

Lemma choose_expr_mode rts f v source chosen : source ≠ [] → not_mixed chosen → f ∈ SYNC_FIELD_ORDER →
  let o := choose (Some rts) f v source chosen in has_key (js "billing_expr") o = true → has_key (js "billing_mode") o = true.
Proof.
  intros Hs (_ & _ & _ & He) Hf o Hx. pose proof (final_type_known rts f source Hf) as Hft.
  unfold o in *. rewrite choose_has_key in Hx |- * by done. set (ft := final_type rts f source) in *.
  destruct (decide (getBillingCategory ft = CTiered)) as [Hc|Hc].
  - rewrite (bool_decide_eq_true_2 _ Hc). cbn [andb]. rewrite (bool_decide_eq_true_2 (js "billing_mode" = js "billing_mode")) by done. cbn [andb].
    assert (ft = js "billing_mode" ∨ ft = js "billing_expr") as [-> | ->].
    { unfold getBillingCategory in Hc. destruct (bool_decide (ft = js "model_price")); [done|].
      destruct (bool_decide (ft = js "billing_mode")) eqn:E; [apply bool_decide_eq_true in E; auto|].
      destruct (bool_decide (ft = js "billing_expr")) eqn:E2; [apply bool_decide_eq_true in E2; auto|done]. }
    + by rewrite bool_decide_eq_true_2.
    + rewrite (bool_decide_eq_true_2 (js "billing_expr" = js "billing_expr")) by done. by rewrite !orb_true_r.
  - rewrite (bool_decide_eq_false_2 _ Hc) in Hx |- *. cbn [andb] in *. rewrite orb_false_r in *.
    assert (∀ k, getBillingCategory k = CTiered → bool_decide (k = ft) = false) as Hne
      by (intros k Ek; apply bool_decide_eq_false_2; intros ->; done).
    rewrite Hne in Hx |- * by (vm_compute; reflexivity). cbn [orb] in *.
    apply andb_true_iff in Hx as [_ Hx]. rewrite He by done. unfold survives.
    rewrite (bool_decide_eq_true_2 (getBillingCategory (js "billing_mode") = CTiered)) by (vm_compute; reflexivity). by rewrite andb_false_r.
Qed.

Lemma choose_ok rts f v source chosen : f ∈ SYNC_FIELD_ORDER → source ≠ [] → not_mixed chosen →
  chosen_ok (choose (Some rts) f v source chosen).
Proof.
  intros Hf Hs Hm. split_and!.
  - intros E. assert (has_key (final_type rts f source) (choose (Some rts) f v source chosen) = true) as Hk
      by (rewrite choose_has_key by done; by rewrite bool_decide_eq_true_2). rewrite E in Hk. done.
  - apply choose_NoDup, Hm.
  - intros k Hin%has_key_elem. destruct (choose_key_inv _ _ _ _ _ _ Hs Hin) as [->|[[_ H]|(_ & _ & H)]];
      [by apply final_type_known|by apply Hm, has_key_elem|done].
  - by apply choose_exclusive.
  - by apply choose_expr_mode.
Qed.

Lemma chosen_not_mixed o : chosen_ok o → not_mixed o.
Proof. by intros [_ H]. Qed.

Lemma not_mixed_nil : not_mixed [].
Proof. split_and!; [constructor|by intros ? ?%not_elem_of_nil|by intros [? _]|done]. Qed.

Lemma resolutions_not_mixed res m : resolutions_ok res → not_mixed (members_of (obj_get m res)).
Proof.
  intros [_ H]. destruct (obj_get m res) as [v|] eqn:E; [|apply not_mixed_nil]. destruct (H m v E) as (o & -> & Ho). by apply chosen_not_mixed.
Qed.

Lemma set_resolutions_ok res m o : resolutions_ok res → chosen_ok o → resolutions_ok (obj_set m (JObj o) res).
Proof.
  intros [Hn Hr] Ho. split; [auto with js|]. intros m' v. rewrite obj_get_set. case_bool_decide; [|by apply Hr].
  intros [= <-]. by exists o.
Qed.

Lemma select_ok diffs m f v source res rts : model_diffs diffs m = Some rts → f ∈ SYNC_FIELD_ORDER → source ≠ [] →
  resolutions_ok res → resolutions_ok (handleSelectValue diffs m f v source res).
Proof.
  intros Hd Hf Hs Hr. unfold handleSelectValue. rewrite Hd. apply set_resolutions_ok; [done|]. apply choose_ok; auto using resolutions_not_mixed.
Qed.

(** What is left of a model's choice when a field is cleared. *)
Definition without_field (f : str) (o : obj) : obj :=
  let new0 := obj_delete f o in
  let new1 := if bool_decide (f = js "billing_expr") then obj_delete (js "billing_mode") new0 else new0 in
  if bool_decide (f = js "billing_mode") then obj_delete (js "billing_expr") new1 else new1.

Lemma without_field_sub f o k : has_key k (without_field f o) = true → has_key k o = true.
Proof.
  unfold without_field. intros Hk. revert Hk. repeat case_match; rewrite ?has_key_delete; intros Hk;
    repeat (apply andb_true_iff in Hk as [_ Hk]); exact Hk.
Qed.

Lemma without_field_gone f o : has_key f (without_field f o) = false.
Proof.
  unfold without_field. repeat case_match; rewrite ?has_key_delete; rewrite ?(bool_decide_eq_true_2 (f = f)) by done; cbn [negb andb];
    by rewrite ?andb_false_r.
Qed.

Lemma without_field_pair f o : (has_key (js "billing_expr") o = true → has_key (js "billing_mode") o = true) →
  has_key (js "billing_expr") (without_field f o) = true → has_key (js "billing_mode") (without_field f o) = true.
Proof.
  intros He Hx. unfold without_field in *.
  destruct (decide (f = js "billing_mode")) as [->|Hm].
  { rewrite (bool_decide_eq_true_2 (js "billing_mode" = js "billing_mode")) in Hx by done. rewrite has_key_delete in Hx.
    rewrite (bool_decide_eq_true_2 (js "billing_expr" = js "billing_expr")) in Hx by done. done. }
  rewrite (bool_decide_eq_false_2 _ Hm) in Hx |- *. destruct (decide (f = js "billing_expr")) as [->|Hx'].
  { rewrite (bool_decide_eq_true_2 (js "billing_expr" = js "billing_expr")) in Hx by done. rewrite !has_key_delete in Hx.
    rewrite (bool_decide_eq_true_2 (js "billing_expr" = js "billing_expr")) in Hx by done. cbn [negb andb] in Hx. by rewrite andb_false_r in Hx. }
  rewrite (bool_decide_eq_false_2 _ Hx') in Hx |- *. rewrite has_key_delete in Hx |- *.
  apply andb_true_iff in Hx as [_ Hx]. rewrite He by done. rewrite bool_decide_eq_false_2 by congruence. done.
Qed.

Lemma without_field_not_mixed f o : not_mixed o → not_mixed (without_field f o).
Proof.
  intros (Hn & Hk & Hm & He). split_and!.
  - unfold without_field. repeat case_match; auto with js.
  - intros k Hin%has_key_elem. by apply Hk, has_key_elem, (without_field_sub f).
  - intros [Hp (r & Hr & Hrk)]. apply Hm. split; [by apply (without_field_sub f)|]. exists r. split; [done|by apply (without_field_sub f)].
  - by apply without_field_pair.
Qed.

Lemma delete_field_eq res m f : deleteResolutionField res m f =
  match obj_get m res with
  | None => res
  | Some r => match without_field f (members_of (Some r)) with [] => obj_delete m res | o => obj_set m (JObj o) res end
  end.
Proof.
  unfold deleteResolutionField. destruct (obj_get m res) as [r|]; [|done]. fold (without_field f (members_of (Some r))).
  by destruct (without_field f (members_of (Some r))).
Qed.

Lemma unselect_ok m f res : resolutions_ok res → resolutions_ok (handleUnselectValue m f res).
Proof.
  intros Hr. unfold handleUnselectValue. rewrite delete_field_eq. destruct (obj_get m res) as [r|] eqn:E; [|done].
  pose proof (without_field_not_mixed f _ (resolutions_not_mixed res m Hr)) as Hm. rewrite E in Hm.
  destruct (without_field f (members_of (Some r))) as [|kv o].
  - destruct Hr as [Hn Hr]. split; [auto with js|]. intros m' v. rewrite obj_get_delete. case_bool_decide; [done|]. apply Hr.
  - apply set_resolutions_ok; [done|]. by split.
Qed.

(** ** Whole columns *)

Lemma fold_left_inv {A B} (P : A → Prop) (f : A → B → A) l a : P a → (∀ a b, b ∈ l → P a → P (f a b)) → P (fold_left f l a).
Proof.
  revert a. induction l as [|b l IH]; intros a Ha Hf; [done|]. cbn [fold_left]. apply IH; [apply Hf; [set_solver|done]|].
  intros a' b' Hb'. apply Hf. set_solver.
Qed.

(** The rows of the table are the models that differ. *)
Definition shown_row (diffs : obj) (r : ModelRow) : Prop := model_diffs diffs (row_model r) = Some (ratioTypes r).

Lemma ordered_known rts filter f : f ∈ getOrderedRatioTypes rts filter → f ∈ map fst rts.
Proof.
  assert (f ∈ List.filter (λ f, set_has f (obj_keys rts)) SYNC_FIELD_ORDER ++ List.filter (λ f, negb (set_has f SYNC_FIELD_ORDER)) (obj_keys rts) →
          f ∈ map fst rts) as H.
  { rewrite elem_of_app, !elem_of_bfilter. intros [[_ H%set_has_true]|[H _]]; exact H. }
  unfold getOrderedRatioTypes. destruct (_ || _); [exact H|]. rewrite elem_of_bfilter. intros [Hin _]. by apply H.
Qed.

Lemma selectable_known diffs filter source r f v : differences_ok diffs → shown_row diffs r → (f, v) ∈ selectable_fields filter source r →
  f ∈ SYNC_FIELD_ORDER.
Proof.
  intros Hd Hr Hin. unfold selectable_fields in Hin. apply list_elem_of_omap in Hin as (g & Hg & E). destruct (_ && _); [|done].
  injection E as -> _. eapply differences_known; [exact Hd|exact Hr|]. by eapply ordered_known.
Qed.

Lemma bulk_select_ok diffs filter source rows res : differences_ok diffs → Forall (shown_row diffs) rows → source ≠ [] →
  resolutions_ok res → resolutions_ok (handleBulkSelect diffs filter source rows res).
Proof.
  intros Hd Hrows Hs Hr. unfold handleBulkSelect. apply fold_left_inv; [done|]. intros acc r Hin Hacc.
  rewrite Forall_forall in Hrows. pose proof (Hrows r Hin) as Hrow. apply fold_left_inv; [done|]. intros acc' [f v] Hfv Hacc'.
  eapply select_ok; [exact Hrow|by eapply selectable_known|done|done].
Qed.

Lemma bulk_unselect_ok filter source rows res : resolutions_ok res → resolutions_ok (handleBulkUnselect filter source rows res).
Proof.
  intros Hr. unfold handleBulkUnselect. apply fold_left_inv; [done|]. intros acc r _ Hacc. apply fold_left_inv; [done|].
  intros acc' f _ Hacc'. destruct (upstream_value _ _ _); [by apply unselect_ok|done].
Qed.

Lemma data_source_shown diffs r : differences_ok diffs → r ∈ dataSource diffs → shown_row diffs r.
Proof.
  intros [Hn Hd] Hin. unfold dataSource in Hin. apply elem_of_lmap in Hin as ([m v] & -> & Hin). unfold shown_row, model_diffs.
  cbn [row_model ratioTypes fst snd]. rewrite (elem_obj_get m v diffs Hn Hin). destruct (Hd m v) as (rts & -> & _); [by apply elem_obj_get|done].
Qed.

(** ** After a sync *)

Definition field_diff (diffs : obj) (m f : str) : option json := obj_get f (default [] (model_diffs diffs m)).

(** [diffs] with the entry of [m] replaced or, when nothing is left of it, removed. *)
Definition put_fields (m : str) (rts diffs : obj) : obj :=
  match rts with [] => obj_delete m diffs | _ => obj_replace m (JObj rts) diffs end.

Lemma put_fields_get m rts diffs m' : has_key m diffs = true →
  default [] (model_diffs (put_fields m rts diffs) m') = if bool_decide (m' = m) then rts else default [] (model_diffs diffs m').
Proof.
  intros Hm. unfold put_fields, model_diffs, has_key in *. destruct rts as [|kv rts].
  - rewrite obj_get_delete. by case_bool_decide.
  - rewrite obj_get_replace. case_bool_decide; [|done]. by destruct (obj_get m diffs).
Qed.

Lemma put_fields_ok m rts diffs : differences_ok diffs → fields_ok rts → differences_ok (put_fields m rts diffs).
Proof.
  intros [Hn Hd] Hr. unfold put_fields. destruct rts as [|kv rts].
  - split; [auto with js|]. intros m' v. rewrite obj_get_delete. case_bool_decide; [done|apply Hd].
  - split; [by rewrite map_fst_replace|]. intros m' v. rewrite obj_get_replace. case_bool_decide; [|apply Hd].
    destruct (obj_get m diffs); [|done]. intros [= <-]. eauto.
Qed.

Lemma drop_field_eq m diffs f rts : obj_get m diffs = Some (JObj rts) →
  drop_field m diffs f = if json_truthy (obj_get f rts) then put_fields m (obj_delete f rts) diffs else diffs.
Proof. intros E. unfold drop_field, put_fields. rewrite E. destruct (json_truthy _); [|done]. by destruct (obj_delete f rts). Qed.

Lemma drop_field_spec m diffs f : differences_ok diffs →
  differences_ok (drop_field m diffs f) ∧
  ∀ m' f', field_diff (drop_field m diffs f) m' f' = if bool_decide (m' = m) && bool_decide (f' = f) then None else field_diff diffs m' f'.
Proof.
  intros Hok. pose proof Hok as [_ Hd]. destruct (obj_get m diffs) as [v|] eqn:E.
  - destruct (Hd m v E) as (rts & -> & Hf). rewrite (drop_field_eq _ _ _ _ E). destruct (obj_get f rts) as [w|] eqn:Ef.
    + rewrite (proj2 (Hf f w Ef)). split.
      * apply put_fields_ok; [done|]. intros g u. rewrite obj_get_delete. case_bool_decide; [done|apply Hf].
      * intros m' f'. unfold field_diff. rewrite put_fields_get by (unfold has_key; by rewrite E).
        destruct (decide (m' = m)) as [->|Hm]; [|by rewrite bool_decide_eq_false_2].
        rewrite !(bool_decide_eq_true_2 (m = m)) by done. rewrite obj_get_delete. unfold model_diffs. rewrite E. done.
    + split; [done|]. intros m' f'. destruct (decide (m' = m)) as [->|Hm]; [|by rewrite bool_decide_eq_false_2].
      destruct (decide (f' = f)) as [->|Hf']; [|by rewrite (bool_decide_eq_false_2 _ Hf'), andb_false_r].
      rewrite !bool_decide_eq_true_2 by done. cbn [json_truthy andb]. unfold field_diff, model_diffs. rewrite E. exact Ef.
  - unfold drop_field. rewrite E. split; [done|]. intros m' f'. destruct (decide (m' = m)) as [->|Hm]; [|by rewrite bool_decide_eq_false_2].
    unfold field_diff, model_diffs. rewrite E. cbn. by destruct (bool_decide _ && _).
Qed.

Lemma drop_fields_spec m fs diffs : differences_ok diffs →
  differences_ok (fold_left (drop_field m) fs diffs) ∧
  ∀ m' f', field_diff (fold_left (drop_field m) fs diffs) m' f' = if bool_decide (m' = m) && bool_decide (f' ∈ fs) then None else field_diff diffs m' f'.
Proof.
  revert diffs. induction fs as [|f fs IH]; intros diffs Hd.
  { split; [done|]. intros. rewrite (bool_decide_eq_false_2 (f' ∈ [])) by apply not_elem_of_nil. by rewrite andb_false_r. }
  cbn [fold_left]. destruct (drop_field_spec m diffs f Hd) as [Hd' Hg]. destruct (IH _ Hd') as [Hd2 Hg2]. split; [done|].
  intros m' f'. rewrite Hg2, Hg. destruct (decide (m' = m)) as [->|Hm]; [|by rewrite !(bool_decide_eq_false_2 (m' = m))].
  rewrite !(bool_decide_eq_true_2 (m = m)) by done. cbn [andb].
  destruct (decide (f' = f)) as [->|Hf]; [rewrite (bool_decide_eq_true_2 (f = f)), (bool_decide_eq_true_2 (f ∈ f :: fs)) by set_solver; by case_bool_decide|].
  rewrite (bool_decide_eq_false_2 _ Hf). destruct (decide (f' ∈ fs)); [rewrite !bool_decide_eq_true_2 by set_solver|rewrite !bool_decide_eq_false_2 by set_solver]; done.
Qed.

(** A sync removes exactly the differences that were chosen. *)
Lemma drop_synced_spec res diffs : resolutions_ok res → differences_ok diffs →
  differences_ok (drop_synced res diffs) ∧
  ∀ m f, field_diff (drop_synced res diffs) m f = if has_key f (members_of (obj_get m res)) then None else field_diff diffs m f.
Proof.
  intros [Hn Hr]. unfold drop_synced. assert (∀ m v, (m, v) ∈ res → ∃ o, v = JObj o) as Ho.
  { intros m v Hin. destruct (Hr m v) as (o & -> & _); [by apply elem_obj_get|eauto]. } clear Hr.
  revert diffs. induction res as [|[m v] res IH]; intros diffs Hd; [done|]. cbn [fold_left fst snd]. cbn [map fst] in Hn. apply NoDup_cons in Hn as [Hm Hn].
  destruct (Ho m v) as [o ->]; [set_solver|]. cbn [members_of].
  destruct (drop_fields_spec m (obj_keys o) diffs Hd) as [Hd' Hg]. destruct (IH Hn) with (diffs := fold_left (drop_field m) (obj_keys o) diffs) as [Hd2 Hg2];
    [intros m' v' Hin; apply (Ho m' v'); set_solver|done|]. split; [done|].
  intros m' f. rewrite Hg2, Hg. cbn [obj_get]. destruct (decide (m' = m)) as [->|Hne].
  - rewrite !(bool_decide_eq_true_2 (m = m)) by done. rewrite (obj_get_None m res) by done. cbn [members_of andb has_key obj_get].
    destruct (has_key f o) eqn:Ek; [rewrite bool_decide_eq_true_2; [done|by apply has_key_elem]|].
    rewrite bool_decide_eq_false_2; [done|]. intros Hin%has_key_elem. congruence.
  - by rewrite !(bool_decide_eq_false_2 (m' = m)).
Qed.

(** ** Runs of the page *)

Section page.
Context (toLowerCase toUpperCase : str → str).

Inductive page_step : SyncPage → SyncPage → Prop :=
  | step_fetched success diffs p : differences_ok diffs → page_step p (onFetched success diffs p)
  | step_select p m f v source rts : model_diffs (differences p) m = Some rts → f ∈ map fst rts → source ≠ [] →
      page_step p (with_resolutions (handleSelectValue (differences p) m f v source (resolutions p)) p)
  | step_unselect p m f : page_step p (with_resolutions (handleUnselectValue m f (resolutions p)) p)
  | step_bulk_select p search filter source : source ≠ [] →
      page_step p (with_resolutions (handleBulkSelect (differences p) filter source
        (filteredData toLowerCase search filter (dataSource (differences p))) (resolutions p)) p)
  | step_bulk_unselect p search filter source :
      page_step p (with_resolutions (handleBulkUnselect filter source
        (filteredData toLowerCase search filter (dataSource (differences p))) (resolutions p)) p)
  | step_apply p p' current : handleApplySync toUpperCase current p = Ret p' → page_step p p'
  | step_confirm p p' current : handleConfirmConflict toUpperCase current p = Ret p' → page_step p p'
  | step_synced p success : page_step p (onSynced success p).

Definition page_ok (p : SyncPage) : Prop := differences_ok (differences p) ∧ resolutions_ok (resolutions p).

Lemma resolutions_nil : resolutions_ok [].
Proof. split; [constructor|done]. Qed.

Lemma filtered_rows search filter rows r : r ∈ filteredData toLowerCase search filter rows → r ∈ rows.
Proof.
  unfold filteredData. repeat case_match; rewrite ?elem_of_bfilter; tauto.
Qed.

Lemma apply_keeps p p' current : handleApplySync toUpperCase current p = Ret p' →
  differences p' = differences p ∧ resolutions p' = resolutions p.
Proof.
  unfold handleApplySync. destruct (conflicts_of _ _ _) as [[|c cs]|]; cbn [mbind outcome_bind]; [| |done].
  - destruct (performSync _ _ _); cbn [mbind outcome_bind]; [|done]. by intros [= <-].
  - by intros [= <-].
Qed.

Lemma confirm_keeps p p' current : handleConfirmConflict toUpperCase current p = Ret p' →
  differences p' = differences p ∧ resolutions p' = resolutions p.
Proof. unfold handleConfirmConflict. destruct (performSync _ _ _); cbn [mbind outcome_bind]; [|done]. by intros [= <-]. Qed.

Lemma step_keeps_ok p p' : page_step p p' → page_ok p → page_ok p'.
Proof.
  intros Hs [Hd Hr]. destruct Hs as [success diffs p Hok|p m f v source rts Hm Hf Hsrc|p m f|p search filter source Hsrc|p search filter source
    |p p' current H|p p' current H|p success].
  - destruct success; split; [exact Hok|exact resolutions_nil|exact Hd|exact Hr].
  - split; [exact Hd|]. eapply select_ok; [exact Hm|by eapply differences_known|done|done].
  - split; [exact Hd|]. by apply unselect_ok.
  - split; [exact Hd|]. apply bulk_select_ok; [done| |done|done]. apply Forall_forall. intros r Hin%filtered_rows. by apply data_source_shown.
  - split; [exact Hd|]. by apply bulk_unselect_ok.
  - destruct (apply_keeps _ _ _ H) as [E1 E2]. split; [by rewrite E1|by rewrite E2].
  - destruct (confirm_keeps _ _ _ H) as [E1 E2]. split; [by rewrite E1|by rewrite E2].
  - destruct success; split; [|exact resolutions_nil|exact Hd|exact Hr]. by apply drop_synced_spec.
Qed.

(** C12: In every page that a run reaches the selection is well formed: every model with a selection has at least one known
    field selected, never a fixed price together with a ratio, and an expression only together with a billing mode;
    and the differences shown stay well formed. *)
Theorem selection_well_typed p : rtc page_step opened_page p → resolutions_ok (resolutions p) ∧ differences_ok (differences p).
Proof.
  intros H. assert (page_ok opened_page) as H0 by (split; [split; [constructor|done]|exact resolutions_nil]).
  assert (page_ok p) as [? ?]; [|done]. induction H as [|p p' p'' Hs _ IH]; [done|]. by apply IH, (step_keeps_ok p).
Qed.

End page.

(** ** The tables that are written *)

Section tables.
Context (toUpperCase : str → str).
Hypothesis upper_ascii : ∀ c, (97 ≤ c ≤ 122)%N → toUpperCase [c] = [(c - 32)%N].

Lemma option_keys : map (optionKeyBySyncField toUpperCase) SYNC_FIELD_ORDER = PRICE_OPTIONS.
Proof using upper_ascii.
  assert (∀ c s, (97 ≤ c ≤ 122)%N → capitalize toUpperCase (c :: s) = (c - 32)%N :: s) as Hc.
  { intros c s H. unfold capitalize. cbn [take drop]. rewrite take_0, drop_0. by rewrite upper_ascii. }
  assert (∀ f, optionKeyBySyncField toUpperCase f =
    if bool_decide (f = js "billing_mode") then js "billing_setting.billing_mode"
    else if bool_decide (f = js "billing_expr") then js "billing_setting.billing_expr"
    else mjoin (map (capitalize toUpperCase) (split (js "_") f))) as Ho by done.
  assert (∀ f l, bool_decide (f = js "billing_mode") || bool_decide (f = js "billing_expr") = false → split (js "_") f = l →
    Forall (λ w, match w with [] => False | c :: _ => (97 ≤ c ≤ 122)%N end) l →
    optionKeyBySyncField toUpperCase f = mjoin (map (λ w, match w with [] => [] | c :: s => (c - 32)%N :: s end) l)) as Hk.
  { intros f l H1 H2 H3. rewrite Ho. apply orb_false_iff in H1 as [-> ->]. rewrite H2. f_equal. apply map_ext_in. intros w Hw%list_elem_of_In.
    rewrite Forall_forall in H3. specialize (H3 w Hw). destruct w; [done|]. by apply Hc. }
  unfold SYNC_FIELD_ORDER, RATIO_SYNC_FIELDS. cbn [map app].
  repeat match goal with |- optionKeyBySyncField toUpperCase ?f :: _ = _ =>
    let l := eval vm_compute in (split (js "_") f) in
    first [rewrite (Hk f l); [|vm_compute; reflexivity|vm_compute; reflexivity|repeat constructor; lia]
          |rewrite (Ho f); let b := eval vm_compute in (bool_decide (f = js "billing_mode")) in
           replace (bool_decide (f = js "billing_mode")) with b by (vm_compute; reflexivity);
           let c := eval vm_compute in (bool_decide (f = js "billing_expr")) in
           replace (bool_decide (f = js "billing_expr")) with c by (vm_compute; reflexivity)];
    unfold PRICE_OPTIONS; cbn [map]; f_equal end.
  all: try (vm_compute; reflexivity).
Qed.

Lemma option_key_inj f g : f ∈ SYNC_FIELD_ORDER → g ∈ SYNC_FIELD_ORDER →
  optionKeyBySyncField toUpperCase f = optionKeyBySyncField toUpperCase g → f = g.
Proof using upper_ascii.
  intros Hf Hg. apply (NoDup_map_inj _ SYNC_FIELD_ORDER); [|done|done]. rewrite option_keys.
  apply (bool_decide_unpack (NoDup _)). vm_compute. exact I.
Qed.

Notation key := (optionKeyBySyncField toUpperCase).

Lemma key_exists f t : f ∈ SYNC_FIELD_ORDER → map fst t = PRICE_OPTIONS → existsb (λ e : str * obj, bool_decide (fst e = key f)) t = true.
Proof using upper_ascii.
  intros Hf Ht. assert (key f ∈ map fst t) as Hin by (rewrite Ht, <- option_keys; apply elem_of_lmap; by exists f).
  apply elem_of_lmap in Hin as (e & E & Hin). apply existsb_exists. exists e. split; [by apply list_elem_of_In|]. by apply bool_decide_eq_true_2.
Qed.

Lemma write_fields_spec model l t : NoDup (map fst l) → (∀ f, f ∈ map fst l → f ∈ SYNC_FIELD_ORDER) → map fst t = PRICE_OPTIONS →
  ∃ t', write_fields toUpperCase model l t = Ret t' ∧ map fst t' = PRICE_OPTIONS ∧
    ∀ f m, f ∈ SYNC_FIELD_ORDER → obj_get m (table (key f) t') =
      match (if bool_decide (m = model) then obj_get f l else None) with
      | Some v => Some (synced_value f v)
      | None => obj_get m (table (key f) t)
      end.
Proof using upper_ascii.
  revert t. induction l as [|[g v] l IH]; intros t Hn Hk Ht.
  { exists t. split_and!; [done|done|]. intros. by destruct (bool_decide _). }
  cbn [map fst] in Hn, Hk. apply NoDup_cons in Hn as [Hg Hn]. assert (g ∈ SYNC_FIELD_ORDER) as Hgo by (apply Hk; set_solver).
  cbn [write_fields]. unfold write_field. cbn [fst snd]. rewrite key_exists by done. cbn [mbind outcome_bind].
  set (t1 := on_table (key g) (obj_set model (synced_value g v)) t).
  destruct (IH t1 Hn) as (t' & Hw & Ht' & Hget); [intros f Hf; apply Hk; set_solver|unfold t1; by rewrite on_table_keys|].
  exists t'. split_and!; [done|done|]. intros f m Hf. rewrite Hget by done. cbn [obj_get].
  assert (obj_get m (table (key f) t1) = if bool_decide (m = model) && bool_decide (f = g) then Some (synced_value g v) else obj_get m (table (key f) t)) as ->.
  { unfold t1. rewrite table_on by by apply key_exists. destruct (decide (f = g)) as [->|Hne].
    - rewrite (bool_decide_eq_true_2 (key g = key g)), (bool_decide_eq_true_2 (g = g)) by done. rewrite obj_get_set. by destruct (bool_decide (m = model)).
    - rewrite (bool_decide_eq_false_2 (key f = key g)) by (intros E; by apply Hne, option_key_inj).
      by rewrite (bool_decide_eq_false_2 _ Hne), andb_false_r. }
  destruct (bool_decide (m = model)); [|done]. cbn [andb]. destruct (decide (f = g)) as [->|Hne].
  - rewrite (bool_decide_eq_true_2 (g = g)) by done. by rewrite (obj_get_None g l).
  - by rewrite (bool_decide_eq_false_2 _ Hne).
Qed.

(** What a sync does to one field of a model: the chosen value, nothing when the other kind of price was chosen, and
    otherwise the value as it was. *)
Definition synced_field (chosen : obj) (f : str) (old : option json) : option json :=
  match obj_get f chosen with
  | Some v => Some (synced_value f v)
  | None => if (bool_decide (f ∈ RATIO_SYNC_FIELDS) && hasPrice chosen) || (bool_decide (f = js "model_price") && hasRatio chosen)
            then None else old
  end.

Lemma ratio_option f : f ∈ SYNC_FIELD_ORDER → (key f ∈ RATIO_OPTIONS ↔ f ∈ RATIO_SYNC_FIELDS) ∧ (key f ∈ [js "ModelPrice"] ↔ f = js "model_price").
Proof using upper_ascii.
  assert (map key RATIO_SYNC_FIELDS = RATIO_OPTIONS) as Hr by (pose proof option_keys as H; apply (f_equal (take 7)) in H; exact H).
  assert (key (js "model_price") = js "ModelPrice") as Hp by (pose proof option_keys as H; apply (f_equal (lookup 7)) in H; by injection H).
  intros Hf. assert (∀ g, g ∈ RATIO_SYNC_FIELDS → g ∈ SYNC_FIELD_ORDER) as Hsub by (intros g Hg; apply elem_of_app; by left). split.
  - rewrite <- Hr, elem_of_lmap. split; [|intros H; by exists f]. intros (g & E & Hg). by rewrite (option_key_inj f g Hf (Hsub g Hg) E).
  - rewrite list_elem_of_singleton, <- Hp. split; [|by intros ->]. intros E. apply option_key_inj in E; [done|done|].
    apply (bool_decide_unpack (_ ∈ _)). vm_compute. exact I.
Qed.

Lemma write_model_spec m o t : not_mixed o → map fst t = PRICE_OPTIONS →
  ∃ t', write_model toUpperCase t (m, JObj o) = Ret t' ∧ map fst t' = PRICE_OPTIONS ∧
    ∀ f m', f ∈ SYNC_FIELD_ORDER → obj_get m' (table (key f) t') =
      if bool_decide (m' = m) then synced_field o f (obj_get m' (table (key f) t)) else obj_get m' (table (key f) t).
Proof using upper_ascii.
  intros (Hn & Hk & _) Ht. unfold write_model. cbn [fst snd members_of].
  set (t1 := if hasPrice o then _ else _). set (t2 := if hasRatio o then _ else _).
  assert (map fst t2 = PRICE_OPTIONS) as Ht2.
  { unfold t2, t1. destruct (hasRatio o), (hasPrice o); rewrite ?delete_from_keys; done. }
  destruct (write_fields_spec m o t2 Hn Hk Ht2) as (t' & Hw & Ht' & Hget). exists t'. split_and!; [done|done|].
  intros f m' Hf. rewrite Hget by done. destruct (ratio_option f Hf) as [Hro Hpo].
  assert (obj_get m' (table (key f) t2) = if bool_decide (m' = m) && ((bool_decide (f ∈ RATIO_SYNC_FIELDS) && hasPrice o) || (bool_decide (f = js "model_price") && hasRatio o))
            then None else obj_get m' (table (key f) t)) as ->.
  { unfold t2, t1. rewrite <- (bool_decide_ext _ _ Hro), <- (bool_decide_ext _ _ Hpo).
    destruct (hasRatio o), (hasPrice o); rewrite ?table_delete; destruct (bool_decide (key f ∈ RATIO_OPTIONS)), (bool_decide (key f ∈ [js "ModelPrice"]));
      rewrite ?obj_get_delete; destruct (bool_decide (m' = m)); reflexivity. }
  unfold synced_field. destruct (bool_decide (m' = m)); [|done]. by destruct (obj_get f o).
Qed.

Lemma write_models_spec res t : NoDup (map fst res) → (∀ m v, (m, v) ∈ res → ∃ o, v = JObj o ∧ not_mixed o) → map fst t = PRICE_OPTIONS →
  ∃ t', write_models toUpperCase res t = Ret t' ∧ map fst t' = PRICE_OPTIONS ∧
    ∀ f m, f ∈ SYNC_FIELD_ORDER → obj_get m (table (key f) t') = synced_field (members_of (obj_get m res)) f (obj_get m (table (key f) t)).
Proof using upper_ascii.
  assert (∀ f old, synced_field [] f old = old) as Hnil by (intros; unfold synced_field; cbn [obj_get]; change (hasPrice []) with false; change (hasRatio []) with false; by rewrite !andb_false_r).
  revert t. induction res as [|[m v] res IH]; intros t Hn Hr Ht.
  { exists t. split_and!; [done|done|]. intros. by rewrite Hnil. }
  cbn [map fst] in Hn. apply NoDup_cons in Hn as [Hm Hn]. destruct (Hr m v) as (o & -> & Ho); [set_solver|].
  cbn [write_models]. destruct (write_model_spec m o t Ho Ht) as (t1 & Hw & Ht1 & Hg1). rewrite Hw. cbn [mbind outcome_bind].
  destruct (IH t1 Hn) as (t' & Hw' & Ht' & Hg'); [intros m' v' Hin; apply (Hr m' v'); set_solver|done|].
  exists t'. split_and!; [done|done|]. intros f m' Hf. rewrite Hg', Hg1 by done. cbn [obj_get]. destruct (decide (m' = m)) as [->|Hne].
  - rewrite !(bool_decide_eq_true_2 (m = m)) by done. rewrite (obj_get_None m res) by done. by rewrite Hnil.
  - by rewrite !(bool_decide_eq_false_2 _ Hne).
Qed.

Lemma tables_of_keys current : map fst (tables_of current) = PRICE_OPTIONS.
Proof. unfold tables_of. rewrite map_map. apply map_id. Qed.

Lemma table_tables_of k current : k ∈ PRICE_OPTIONS → table k (tables_of current) = local_members k current.
Proof.
  unfold tables_of, table, local_members. generalize PRICE_OPTIONS. intros l Hk. induction l as [|q l IH]; [by apply not_elem_of_nil in Hk|].
  cbn [map find fst]. destruct (decide (q = k)) as [->|Hq]; [by rewrite bool_decide_eq_true_2|]. rewrite (bool_decide_eq_false_2 _ Hq). apply IH. set_solver.
Qed.

Lemma key_known f : f ∈ SYNC_FIELD_ORDER → key f ∈ PRICE_OPTIONS.
Proof using upper_ascii. intros H. rewrite <- option_keys. apply elem_of_lmap. by exists f. Qed.

Lemma has_ratio_spec o : hasRatio o = true ↔ ∃ f, f ∈ RATIO_SYNC_FIELDS ∧ has_key f o = true.
Proof.
  unfold hasRatio. rewrite existsb_exists. split.
  - intros ([k v] & Hin & Hk%bool_decide_eq_true). exists k. split; [done|]. apply has_key_elem, elem_of_lmap. exists (k, v).
    split; [done|by apply list_elem_of_In].
  - intros (f & Hf & Hk%has_key_elem). apply elem_of_lmap in Hk as ([k v] & E & Hin). cbn in E. subst k. exists (f, v).
    split; [by apply list_elem_of_In|by apply bool_decide_eq_true_2].
Qed.

(** With a price or a ratio chosen, only one of the two kinds is left. *)
Lemma synced_exclusive o f old old' : not_mixed o → hasPrice o || hasRatio o = true → f ∈ RATIO_SYNC_FIELDS →
  synced_field o (js "model_price") old = None ∨ synced_field o f old' = None.
Proof.
  intros (_ & _ & Hm & _) Hor Hf. unfold synced_field. destruct (hasPrice o) eqn:Ep.
  - right. destruct (obj_get f o) eqn:E; [|by rewrite bool_decide_eq_true_2]. destruct Hm. split; [exact Ep|]. exists f. split; [done|].
    unfold has_key. by rewrite E.
  - left. cbn [orb] in Hor. unfold hasPrice, has_key in Ep. destruct (obj_get (js "model_price") o); [done|].
    rewrite Hor. assert (bool_decide (js "model_price" = js "model_price") = true) as -> by exact (bool_decide_eq_true_2 _ eq_refl). by rewrite orb_true_r.
Qed.

(** C11: A sync returns and writes into each of the ten options exactly what was chosen: a chosen value replaces the one of
    its model, a chosen price removes the model's ratios and a chosen ratio its price, and every other entry of every option
    is kept.  So a model for which a price or a ratio was chosen is never left with both. *)
Theorem sync_writes_exactly res current : resolutions_ok res →
  ∃ t, performSync toUpperCase res current = Ret (map (λ e, (fst e, json_pretty (JObj (snd e)))) t) ∧ map fst t = PRICE_OPTIONS ∧
    (∀ f m, f ∈ SYNC_FIELD_ORDER →
       obj_get m (table (key f) t) = synced_field (members_of (obj_get m res)) f (obj_get m (local_members (key f) current))) ∧
    (∀ f m o, f ∈ RATIO_SYNC_FIELDS → obj_get m res = Some (JObj o) → hasPrice o || hasRatio o = true →
       obj_get m (table (js "ModelPrice") t) = None ∨ obj_get m (table (key f) t) = None).
Proof using upper_ascii.
  intros [Hn Hr]. assert (∀ m v, (m, v) ∈ res → ∃ o, v = JObj o ∧ not_mixed o) as Hr'.
  { intros m v Hin. destruct (Hr m v) as (o & -> & Ho); [by apply elem_obj_get|]. exists o. split; [done|by apply chosen_not_mixed]. }
  destruct (write_models_spec res (tables_of current) Hn Hr' (tables_of_keys current)) as (t & Hw & Ht & Hg).
  exists t. unfold performSync, finalRatios. rewrite Hw.
  assert (∀ f m, f ∈ SYNC_FIELD_ORDER →
    obj_get m (table (key f) t) = synced_field (members_of (obj_get m res)) f (obj_get m (local_members (key f) current))) as Hall.
  { intros f m Hf. rewrite Hg by done. by rewrite (table_tables_of _ current (key_known f Hf)). }
  split_and!; [done|done|exact Hall|]. intros f m o Hf E Hor. destruct (Hr m _ E) as (o' & [= <-] & Ho).
  assert (key (js "model_price") = js "ModelPrice") as Ep by (pose proof option_keys as H; apply (f_equal (lookup 7)) in H; by injection H).
  rewrite <- Ep, !Hall; [|apply elem_of_app; by left|apply (bool_decide_unpack (_ ∈ _)); vm_compute; exact I]. rewrite E. cbn [members_of].
  apply synced_exclusive; [by apply chosen_not_mixed|done|done].
Qed.

(** ** Asking for confirmation *)

(** What the local options say about a model. *)
Definition local_category (model : str) (current : list (str * json)) : option BillingCategory :=
  if has_key model (local_members (js "ModelPrice") current) then Some CPrice
  else if existsb (λ k, has_key model (local_members k current)) RATIO_OPTIONS then Some CRatio else None.

Definition switches (current : list (str * json)) (mr : str * json) : bool :=
  match local_category (fst mr) current with
  | Some cat => let newCat := new_category (members_of (Some (snd mr))) in
                negb (bool_decide (newCat = CTiered)) && negb (bool_decide (cat = newCat))
  | None => false
  end.

(** No option is [null]. *)
Definition options_readable (current : list (str * json)) : Prop := ∀ k, k ∈ PRICE_OPTIONS → ratios_of k current ≠ JNull.

Lemma member_readable m v : v ≠ JNull → member m v = Ret (obj_get m (entries_of v)).
Proof. by destruct v. Qed.

Lemma local_category_read m current : options_readable current → getLocalBillingCategory m current = Ret (local_category m current).
Proof.
  intros Ho. unfold getLocalBillingCategory, local_category.
  rewrite member_readable by (apply Ho, (bool_decide_unpack (_ ∈ _)); vm_compute; exact I). cbn [mbind outcome_bind].
  unfold has_key at 1, local_members at 1. destruct (obj_get m (entries_of (ratios_of (js "ModelPrice") current))); [done|].
  assert (∀ k, k ∈ RATIO_OPTIONS → ratios_of k current ≠ JNull) as Hr.
  { intros k Hk. apply Ho. revert k Hk. apply Forall_forall. apply (bool_decide_unpack (Forall _ _)). vm_compute. exact I. }
  assert (any_defined (map (λ k, ratios_of k current) RATIO_OPTIONS) m = Ret (existsb (λ k, has_key m (local_members k current)) RATIO_OPTIONS)) as ->; [|done].
  induction RATIO_OPTIONS as [|k l IH]; [done|]. cbn [map any_defined existsb]. rewrite member_readable by (apply Hr; set_solver). cbn [mbind outcome_bind].
  unfold has_key at 1, local_members at 1. destruct (obj_get m (entries_of (ratios_of k current))); [done|]. apply IH. set_solver.
Qed.

Lemma conflicts_exact diffs current res : options_readable current →
  ∃ cs, conflicts_of diffs current res = Ret cs ∧ map ci_model cs = map fst (List.filter (switches current) res).
Proof.
  intros Ho. induction res as [|mr res (cs & IH & Hm)]; [by exists []|]. cbn [conflicts_of List.filter]. unfold conflict_of.
  rewrite (local_category_read _ _ Ho). cbn [mbind outcome_bind]. rewrite IH. cbn [mbind outcome_bind]. unfold switches at 1.
  destruct (local_category (fst mr) current) as [cat|]; [|by exists cs]. cbv zeta.
  destruct (negb _ && negb _); [|by exists cs]. eexists. split; [reflexivity|]. cbn [map ci_model]. by rewrite Hm.
Qed.

(** Applying a selection asks first exactly when it would turn a fixed price into ratios or ratios into a fixed price: the
    dialog then lists precisely those models and nothing is sent; otherwise the updates are sent at once. *)
Theorem sync_asks_before_switching current p : options_readable current → resolutions_ok (resolutions p) →
  ∃ updates cs, performSync toUpperCase (resolutions p) current = Ret updates ∧
    map ci_model cs = map fst (List.filter (switches current) (resolutions p)) ∧
    handleApplySync toUpperCase current p =
      Ret (match cs with [] => with_sending (Some updates) p | _ => with_conflicts cs true p end).
Proof using upper_ascii.
  intros Ho Hr. destruct (conflicts_exact (differences p) current (resolutions p) Ho) as (cs & Hc & Hm).
  destruct Hr as [Hn Hr']. assert (∀ m v, (m, v) ∈ resolutions p → ∃ o, v = JObj o ∧ not_mixed o) as Hr2.
  { intros m v Hin. destruct (Hr' m v) as (o & -> & Hok); [by apply elem_obj_get|]. exists o. split; [done|by apply chosen_not_mixed]. }
  destruct (write_models_spec (resolutions p) (tables_of current) Hn Hr2 (tables_of_keys current)) as (t & Hw & _).
  eexists _, cs. split; [unfold performSync, finalRatios; rewrite Hw; reflexivity|]. split; [done|].
  unfold handleApplySync. rewrite Hc. cbn [mbind outcome_bind]. destruct cs; [|done]. unfold performSync, finalRatios. by rewrite Hw.
Qed.

End tables.

(** ** Instances *)

Definition ascii_upper (s : str) : str := map (λ c, if ((97 <=? c) && (c <=? 122))%N then (c - 32)%N else c) s.

Lemma ascii_upper_ok c : (97 ≤ c ≤ 122)%N → ascii_upper [c] = [(c - 32)%N].
Proof. intros [H1 H2]. cbn. by rewrite (proj2 (N.leb_le _ _) H1), (proj2 (N.leb_le _ _) H2). Qed.

(** An upstream that has both a ratio and a price for a model. *)
Definition sample_diffs : obj :=
  let entry v := JObj [(js "current", JNull); (js "upstreams", JObj [(js "up", v)])] in
  [(js "gpt", JObj [(js "model_ratio", entry (JNum (num_of_Z 2))); (js "model_price", entry (JNum (num_of_Z 3)))])].

Lemma sample_diffs_ok : differences_ok sample_diffs.
Proof.
  split; [apply NoDup_singleton|]. intros m v E. unfold sample_diffs in E. cbn [obj_get] in E.
  destruct (bool_decide (m = js "gpt")); [|discriminate E]. injection E as <-. eexists. split; [reflexivity|].
  intros f w Ef. cbn [obj_get] in Ef. destruct (bool_decide (f = js "model_ratio")) eqn:E1.
  { apply bool_decide_eq_true in E1 as ->. injection Ef as <-. split; [apply (bool_decide_unpack (_ ∈ _)); vm_compute; exact I|reflexivity]. }
  destruct (bool_decide (f = js "model_price")) eqn:E2; [|discriminate Ef].
  apply bool_decide_eq_true in E2 as ->. injection Ef as <-. split; [apply (bool_decide_unpack (_ ∈ _)); vm_compute; exact I|reflexivity].
Qed.

Definition fetched_page : SyncPage := onFetched true sample_diffs opened_page.

Definition selected_page : SyncPage :=
  with_resolutions (handleBulkSelect (differences fetched_page) ALL (js "up")
    (filteredData (λ s, s) [] ALL (dataSource (differences fetched_page))) (resolutions fetched_page)) fetched_page.

(** Selecting the whole column leaves the price, which was chosen last. *)
Lemma selection_well_typed_witness :
  resolutions selected_page = [(js "gpt", JObj [(js "model_price", JNum (num_of_Z 3))])] ∧ resolutions_ok (resolutions selected_page).
Proof.
  assert (rtc (page_step (λ s, s) ascii_upper) opened_page selected_page) as Hrun.
  { eapply rtc_l; [apply (step_fetched _ _ true sample_diffs), sample_diffs_ok|]. eapply rtc_l; [|apply rtc_refl].
    apply step_bulk_select. discriminate. }
  split; [vm_compute; reflexivity|]. exact (proj1 (selection_well_typed (λ s, s) ascii_upper selected_page Hrun)).
Defined.

Definition priced_choice : obj := [(js "gpt", JObj [(js "model_price", JNum (num_of_Z 3))])].

Lemma priced_choice_ok : resolutions_ok priced_choice.
Proof.
  split; [apply NoDup_singleton|]. intros m v E. unfold priced_choice in E. cbn [obj_get] in E. destruct (bool_decide (m = js "gpt")); [|discriminate E].
  injection E as <-. eexists. split; [reflexivity|]. split_and!.
  - discriminate.
  - apply NoDup_singleton.
  - intros f Hf. cbn [map fst] in Hf. apply list_elem_of_singleton in Hf as ->. apply (bool_decide_unpack (_ ∈ _)). vm_compute. exact I.
  - intros [_ (f & Hf & Hk%has_key_elem)]. cbn [map fst] in Hk. apply list_elem_of_singleton in Hk as ->. revert Hf.
    apply (bool_decide_unpack (_ ∉ _)). vm_compute. exact I.
  - intros H. vm_compute in H. discriminate H.
Qed.

(** A local option set with a ratio for the model. *)
Definition local_options : list (str * json) :=
  parsedRatios (λ k, if bool_decide (k = js "ModelRatio") then json_stringify (JObj [(js "gpt", JNum (num_of_Z 1))]) else []).

Lemma sync_writes_exactly_witness :
  match performSync ascii_upper priced_choice local_options with
  | Ret updates => map fst updates = PRICE_OPTIONS ∧ updates !! 0 = Some (js "ModelRatio", js "{}")
  | Throw => False
  end.
Proof.
  destruct (sync_writes_exactly ascii_upper ascii_upper_ok priced_choice local_options priced_choice_ok) as (t & E & Hk & _).
  destruct (performSync ascii_upper priced_choice local_options) as [u|] eqn:Eu; [|discriminate E].
  split; [injection E as ->; rewrite map_map; exact Hk|]. clear E Hk. vm_compute in Eu. injection Eu as <-. vm_compute. reflexivity.
Defined.

Lemma sync_asks_before_switching_witness :
  match handleApplySync ascii_upper local_options (with_resolutions priced_choice opened_page) with
  | Ret p => sending p = None ∧ map ci_model (conflictItems p) = [js "gpt"]
  | Throw => False
  end.
Proof.
  assert (options_readable local_options) as Ho.
  { intros k Hk. revert k Hk. apply Forall_forall. apply (Forall_impl (λ k, negb (bool_decide (k ∈ map fst (List.filter (λ e, match snd e with JNull => true | _ => false end) local_options))) = true ∧ bool_decide (k ∈ map fst local_options) = true)).
    - apply (bool_decide_unpack (Forall _ _)). vm_compute. exact I.
    - intros k [H1 H2] E. apply negb_true_iff, bool_decide_eq_false in H1. apply bool_decide_eq_true in H2. apply H1.
      unfold ratios_of in E. apply elem_of_lmap in H2 as (e & -> & He).
      destruct (find (λ e0, bool_decide (fst e0 = fst e)) local_options) as [e0|] eqn:Ef.
      + pose proof (find_some _ _ Ef) as [Hin Hb%bool_decide_eq_true]. apply elem_of_lmap. exists e0. split; [done|].
        apply elem_of_bfilter. split; [by apply list_elem_of_In|by rewrite E].
      + pose proof (find_none _ _ Ef e) as Hn. cbn beta in Hn. rewrite (bool_decide_eq_true_2 (fst e = fst e) eq_refl) in Hn. discriminate Hn. by apply list_elem_of_In. }
  destruct (sync_asks_before_switching ascii_upper ascii_upper_ok local_options (with_resolutions priced_choice opened_page) Ho priced_choice_ok)
    as (u & cs & _ & Hm & E). rewrite E. destruct cs as [|c cs]; [vm_compute in Hm; discriminate Hm|].
  split; [reflexivity|]. cbn [with_conflicts conflictItems]. rewrite Hm. vm_compute. reflexivity.
Defined.
