(* ===== verification/ModelPricing.v ===== *)
(** * The visual editor of model prices

    [pricing-format.ts], [model-pricing-sheet.tsx] and [model-ratio-visual-editor.tsx] of
    [features/system-settings/models]: prices are shown per million tokens and stored as ratios.  The panel keeps a form of
    ratios beside the prices on screen ([Panel]); saving hands a [ModelRatioData] to the table, which rewrites the ten
    options ([persistPricingData]).

    A field that is absent is the empty text: every reader of [ModelRatioData] treats the two alike.  An option whose text is
    JSON but not an object is outside the model ([read_tables] gives [None]).  Labels are the keys of their translations.
    Column visibility, paging and sorting of the table belong to a library and are not modelled; the rows selected for a
    copy are an argument. *)

From S2P Require Import Prelude JsString JsNumber Json JsonFacts JsonPretty Regex Currency BillingExpr SettingsJson PriceTables.

(** ** Numbers ([pricing-format.ts]) *)

Definition DISPLAY_DECIMALS : nat := 12.
Definition SNAP_DECIMALS : nat := 8.
Definition SNAP_EPSILON : num := dec_to_num 1 (-12).

(** [undefined] is [None] *)
Definition hasValue (value : option json) : bool :=
  match value with
  | None | Some JNull | Some (JBool false) | Some (JStr []) => false
  | _ => true
  end.

Definition finite_or_null (x : num) : option num := if is_finite x then Some x else None.

Definition toNumberOrNull (value : option json) : option num :=
  if hasValue value then finite_or_null (opt_number value) else None.

Definition roundToDecimals (value : num) (decimals : nat) : num :=
  let factor := pow10 (Z.of_nat decimals) in ndiv (math_round (nmul value factor)) factor.

(** The loop over [decimals], with the [n] values that are left *)
Fixpoint snap_from (value tolerance : num) (decimals n : nat) : num :=
  match n with
  | O => value
  | S n' =>
      let rounded := roundToDecimals value decimals in
      if nle (math_abs (nsub value rounded)) tolerance then rounded else snap_from value tolerance (S decimals) n'
  end.

Definition snap_tolerance (value : num) : num :=
  math_max SNAP_EPSILON (nmul (nmul (math_abs value) EPSILON) (num_of_Z 8)).

Definition snapFloatDrift (value : num) : num := snap_from value (snap_tolerance value) 0 (S SNAP_DECIMALS).

Definition formatPricingNumber (value : option json) : str :=
  match toNumberOrNull value with
  | None => []
  | Some num => string_of_num (parse_float (to_fixed DISPLAY_DECIMALS (snapFloatDrift num)))
  end.

(** ** The panel's data ([model-pricing-sheet.tsx]) *)

Inductive FormField :=
  name | price | ratio | cacheRatio | createCacheRatio | completionRatio | imageRatio | audioRatio | audioCompletionRatio.

#[export] Instance FormField_eq_dec : EqDecision FormField.
Proof. solve_decision. Defined.

Inductive PricingMode := PerToken | PerRequest | TieredExpr.

#[export] Instance PricingMode_eq_dec : EqDecision PricingMode.
Proof. solve_decision. Defined.

Inductive LaneKey := completion | cache | createCache | image | audioInput | audioOutput.

#[export] Instance LaneKey_eq_dec : EqDecision LaneKey.
Proof. solve_decision. Defined.

Definition Form := FormField → str.

Definition set_field (f : FormField) (value : str) (form : Form) : Form := λ g, if decide (g = f) then value else form g.

Record ModelRatioData := { data : Form; billingMode : PricingMode; d_billingExpr : str; d_requestRuleExpr : str }.

(** [/^(\d+(\.\d* )?|\.\d* )?$/] *)
Definition numericDraftRegex : regex :=
  let digits := rstar (RChar is_digit) in
  rseq [RBol;
        ROpt (RAlt (RSeq (rplus (RChar is_digit)) (ROpt (RSeq (rlit (js ".")) digits))) (RSeq (rlit (js ".")) digits));
        REol].

Definition EMPTY_LANE_PRICES : LaneKey → str := λ _, [].
Definition EMPTY_LANE_ENABLED : LaneKey → bool := λ _, false.
Definition EMPTY_FORM : Form := λ _, [].

Definition ratioFieldByLane (lane : LaneKey) : FormField :=
  match lane with
  | completion => completionRatio | cache => cacheRatio | createCache => createCacheRatio
  | image => imageRatio | audioInput => audioRatio | audioOutput => audioCompletionRatio
  end.

(** The lanes in the order of [laneConfigs], with their titles *)
Definition laneConfigs : list (LaneKey * str) :=
  [(completion, js "Completion price"); (cache, js "Cache read price"); (createCache, js "Cache write price");
   (image, js "Image input price"); (audioInput, js "Audio input price"); (audioOutput, js "Audio output price")].

Definition number_of (text : str) : option num := toNumberOrNull (Some (JStr text)).

Definition format_num (x : num) : str := formatPricingNumber (Some (JNum x)).

Definition ratioToBasePrice (r : str) : str :=
  match number_of r with None => [] | Some n => format_num (nmul n (num_of_Z 2)) end.

Definition deriveLanePrice (r denominator : str) : str :=
  match number_of r, number_of denominator with Some a, Some b => format_num (nmul a b) | _, _ => [] end.

(** [promptPrice], [prices] and [enabled] of a model *)
Definition createInitialLaneState (d : option ModelRatioData) : str * (LaneKey → str) * (LaneKey → bool) :=
  match d with
  | None => ([], EMPTY_LANE_PRICES, EMPTY_LANE_ENABLED)
  | Some d =>
      let promptPrice := ratioToBasePrice (data d ratio) in
      let audioInputPrice := deriveLanePrice (data d audioRatio) promptPrice in
      (promptPrice,
       λ lane, match lane with
               | audioInput => audioInputPrice
               | audioOutput => deriveLanePrice (data d audioCompletionRatio) audioInputPrice
               | _ => deriveLanePrice (data d (ratioFieldByLane lane)) promptPrice
               end,
       λ lane, hasValue (Some (JStr (data d (ratioFieldByLane lane)))))
  end.

(** ** The panel's state and handlers *)

Record Panel := {
  editData : option ModelRatioData; form : Form; pricingMode : PricingMode; promptPrice : str;
  lanePrices : LaneKey → str; laneEnabled : LaneKey → bool; billingExpr : str; requestRuleExpr : str
}.

Definition with_form (f : Form) (p : Panel) : Panel :=
  {| editData := editData p; form := f; pricingMode := pricingMode p; promptPrice := promptPrice p; lanePrices := lanePrices p;
     laneEnabled := laneEnabled p; billingExpr := billingExpr p; requestRuleExpr := requestRuleExpr p |}.

Definition with_prompt (v : str) (p : Panel) : Panel :=
  {| editData := editData p; form := form p; pricingMode := pricingMode p; promptPrice := v; lanePrices := lanePrices p;
     laneEnabled := laneEnabled p; billingExpr := billingExpr p; requestRuleExpr := requestRuleExpr p |}.

Definition with_lanes (prices : LaneKey → str) (enabled : LaneKey → bool) (p : Panel) : Panel :=
  {| editData := editData p; form := form p; pricingMode := pricingMode p; promptPrice := promptPrice p; lanePrices := prices;
     laneEnabled := enabled; billingExpr := billingExpr p; requestRuleExpr := requestRuleExpr p |}.

Definition with_mode (mode : PricingMode) (expr : str) (p : Panel) : Panel :=
  {| editData := editData p; form := form p; pricingMode := mode; promptPrice := promptPrice p; lanePrices := lanePrices p;
     laneEnabled := laneEnabled p; billingExpr := expr; requestRuleExpr := requestRuleExpr p |}.

(** The effect on [editData] *)
Definition open_panel (d : option ModelRatioData) : Panel :=
  let '(prompt, prices, enabled) := createInitialLaneState d in
  match d with
  | Some e =>
      {| editData := d; form := data e;
         pricingMode := match billingMode e with
                        | TieredExpr => TieredExpr
                        | _ => if truthy (data e price) then PerRequest else PerToken
                        end;
         promptPrice := prompt; lanePrices := prices; laneEnabled := enabled;
         billingExpr := d_billingExpr e; requestRuleExpr := d_requestRuleExpr e |}
  | None =>
      {| editData := None; form := EMPTY_FORM; pricingMode := PerToken; promptPrice := prompt; lanePrices := prices;
         laneEnabled := enabled; billingExpr := []; requestRuleExpr := [] |}
  end.

Definition setFormValue (f : FormField) (v : str) (p : Panel) : Panel := with_form (set_field f v (form p)) p.

(** [priceNumber / denominator], empty without a denominator *)
Definition quotient (priceNumber : num) (denominator : str) : str :=
  match number_of denominator with
  | None => []
  | Some d => if num_eqb d pzero then [] else format_num (ndiv priceNumber d)
  end.

Definition deriveLaneRatio (lane : LaneKey) (price nextPromptPrice : str) (nextLanePrices : LaneKey → str) : str :=
  match number_of price with
  | None => []
  | Some priceNumber =>
      match lane with
      | audioOutput => quotient priceNumber (nextLanePrices audioInput)
      | _ => quotient priceNumber nextPromptPrice
      end
  end.

(** The ratio that follows from the prices on screen *)
Definition lane_ratio (prompt : str) (prices : LaneKey → str) (enabled : LaneKey → bool) (lane : LaneKey) : str :=
  if enabled lane then deriveLaneRatio lane (prices lane) prompt prices else [].

Definition syncLaneRatios (prompt : str) (prices : LaneKey → str) (enabled : LaneKey → bool) (p : Panel) : Panel :=
  let p1 := setFormValue ratio (match number_of prompt with Some n => format_num (ndiv n (num_of_Z 2)) | None => [] end) p in
  fold_left (λ q lane, setFormValue (ratioFieldByLane (fst lane)) (lane_ratio prompt prices enabled (fst lane)) q) laneConfigs p1.

Definition handlePromptPriceChange (value : str) (p : Panel) : Panel :=
  if test_re numericDraftRegex value
  then syncLaneRatios value (lanePrices p) (laneEnabled p) (with_prompt value p)
  else p.

Definition set_lane {A} (lane : LaneKey) (v : A) (f : LaneKey → A) : LaneKey → A := λ k, if decide (k = lane) then v else f k.

Definition handleLanePriceChange (lane : LaneKey) (value : str) (p : Panel) : Panel :=
  if test_re numericDraftRegex value
  then
    let prices := set_lane lane value (lanePrices p) in
    let p1 := with_lanes prices (laneEnabled p) p in
    let p2 := if laneEnabled p lane
              then setFormValue (ratioFieldByLane lane) (deriveLaneRatio lane value (promptPrice p) prices) p1 else p1 in
    if bool_decide (lane = audioInput) && laneEnabled p audioOutput
    then setFormValue audioCompletionRatio (deriveLaneRatio audioOutput (prices audioOutput) (promptPrice p) prices) p2
    else p2
  else p.

Definition handleLaneToggle (lane : LaneKey) (checked : bool) (p : Panel) : Panel :=
  let enabled := set_lane lane checked (laneEnabled p) in
  if checked
  then setFormValue (ratioFieldByLane lane) (deriveLaneRatio lane (lanePrices p lane) (promptPrice p) (lanePrices p))
         (with_lanes (lanePrices p) enabled p)
  else
    let prices := set_lane lane [] (lanePrices p) in
    let p1 := setFormValue (ratioFieldByLane lane) [] p in
    if bool_decide (lane = audioInput)
    then with_lanes (set_lane audioOutput [] prices) (set_lane audioOutput false enabled) (setFormValue audioCompletionRatio [] p1)
    else with_lanes prices enabled p1.

Definition DEFAULT_EXPR : str := js "tier(" ++ dq ++ js "base" ++ dq ++ js ", p * 0 + c * 0)".

Definition handleModeChange (mode : PricingMode) (p : Panel) : Panel :=
  with_mode mode (match mode with TieredExpr => if truthy (billingExpr p) then billingExpr p else DEFAULT_EXPR | _ => billingExpr p end) p.

(** Both setters are handed to the editor of expressions. *)
Definition setBillingExpr (base rules : str) (p : Panel) : Panel :=
  {| editData := editData p; form := form p; pricingMode := pricingMode p; promptPrice := promptPrice p; lanePrices := lanePrices p;
     laneEnabled := laneEnabled p; billingExpr := base; requestRuleExpr := rules |}.

(** *** Warnings and saving *)

Definition has_text (s : str) : bool := hasValue (Some (JStr s)).

Definition lacks_prompt (p : Panel) : bool :=
  bool_decide (pricingMode p = PerToken) &&
  match number_of (promptPrice p) with None => true | Some _ => false end &&
  existsb (λ lane, laneEnabled p (fst lane) && has_text (lanePrices p (fst lane))) laneConfigs.

Definition lacks_audio_input (p : Panel) : bool :=
  bool_decide (pricingMode p = PerToken) && laneEnabled p audioOutput && negb (has_text (lanePrices p audioInput)).

Definition NO_PROMPT : str := js "Input price is required before saving dependent prices.".
Definition NO_AUDIO_INPUT : str := js "Audio output price requires an audio input price.".
Definition BOTH_PRICES : str :=
  js "This model has both fixed-price and token-price settings. Saving the current mode will rewrite the conflicting fields.".

Definition RATIO_FIELDS : list FormField :=
  [ratio; completionRatio; cacheRatio; createCacheRatio; imageRatio; audioRatio; audioCompletionRatio].

Definition warnings (p : Panel) : list str :=
  (match editData p with
   | Some e => if truthy (data e price) && existsb (λ f, has_text (data e f)) RATIO_FIELDS then [BOTH_PRICES] else []
   | None => []
   end)
  ++ (if lacks_prompt p then [NO_PROMPT] else []) ++ (if lacks_audio_input p then [NO_AUDIO_INPUT] else []).

(** The complaint of the form, or what is saved *)
Definition handleSubmit (p : Panel) : (FormField * str) + ModelRatioData :=
  if negb (truthy (form p name)) then inl (name, js "Model name is required")
  else if lacks_prompt p then inl (ratio, NO_PROMPT)
  else if lacks_audio_input p then inl (audioRatio, NO_AUDIO_INPUT)
  else inr {| data := set_field name (trim (form p name)) (form p); billingMode := pricingMode p;
              d_billingExpr := if bool_decide (pricingMode p = TieredExpr) then billingExpr p else [];
              d_requestRuleExpr := if bool_decide (pricingMode p = TieredExpr) then requestRuleExpr p else [] |}.

Section currency.
Context (intl : option str → nat → num → str) (stored : option PartialCurrencyConfig).

Definition price_text (priceText : str) : str := formatBillingCurrencyFromUSD intl stored (Some (number_of_string priceText)) None.

Definition or_empty (s : str) : str := if truthy s then s else js "Empty".

(** The rows of the preview, as label and value *)
Definition buildPreviewRows (p : Panel) : list (str * str) :=
  match pricingMode p with
  | TieredExpr => [(js "BillingMode", js "tiered_expr"); (js "Expression", or_empty (combineBillingExpr (billingExpr p) (requestRuleExpr p)))]
  | PerRequest => [(js "ModelPrice", or_empty (form p price))]
  | PerToken =>
      (js "Input price", if truthy (promptPrice p) then price_text (promptPrice p) else js "Empty") ::
      map (λ lane, (snd lane, if laneEnabled p (fst lane) && truthy (lanePrices p (fst lane))
                              then price_text (lanePrices p (fst lane)) else js "Empty")) laneConfigs
  end.

(** *** The price field: it shows the price in the reader's currency, and converts back when it is left *)

Definition CNY : str := js "CNY".

Definition exchangeRate : num :=
  let config := fst (getCurrencyDisplay stored) in
  if bool_decide (quotaDisplayType config = CNY) then usdExchangeRate config else num_of_Z 1.

Definition displayValue (value : str) : str :=
  if truthy value then string_of_num (roundToDecimals (nmul (number_of_string value) exchangeRate) 2) else value.

(** [/^\d*\.?\d*$/] *)
Definition DISPLAY_RE : regex :=
  rseq [RBol; rstar (RChar is_digit); ROpt (rlit (js ".")); rstar (RChar is_digit); REol].

Definition handleChange (value shown : str) : str := if negb (truthy value) || test_re DISPLAY_RE value then value else shown.

(** The text handed to [onChange] when the field is left *)
Definition handleBlur (shown : str) : str :=
  if truthy shown then string_of_num (roundToDecimals (ndiv (number_of_string shown) exchangeRate) 6) else shown.

End currency.

(** ** The table ([model-ratio-visual-editor.tsx]) *)

Definition PRICING_OPTIONS : list str :=
  map js ["ModelPrice"; "ModelRatio"; "CacheRatio"; "CreateCacheRatio"; "CompletionRatio"; "ImageRatio"; "AudioRatio";
          "AudioCompletionRatio"; "billing_setting.billing_mode"; "billing_setting.billing_expr"]%string.

Definition MODE_OPTION : str := js "billing_setting.billing_mode".
Definition EXPR_OPTION : str := js "billing_setting.billing_expr".

(** The option of a field *)
Definition option_of (f : FormField) : str :=
  js (match f with
      | name => ""
      | price => "ModelPrice" | ratio => "ModelRatio" | cacheRatio => "CacheRatio" | createCacheRatio => "CreateCacheRatio"
      | completionRatio => "CompletionRatio" | imageRatio => "ImageRatio" | audioRatio => "AudioRatio"
      | audioCompletionRatio => "AudioCompletionRatio"
      end)%string.

(** The maps, from the texts of the options *)
Definition read_tables (texts : str → str) : option Tables :=
  mapM (λ k, o ← read_table (texts k); Some (k, o)) PRICING_OPTIONS.

Record ModelRow := { row : ModelRatioData; hasConflict : bool }.

(** [map[name]?.toString() || ''] *)
Definition entry_text (v : option json) : str := match v with None | Some JNull => [] | Some w => json_to_string w end.

(** [billingExprMap[name] || '']: a value that is neither empty nor a text has no [trim]. *)
Definition expr_of (v : option json) : outcome str :=
  if json_truthy v then match v with Some (JStr s) => Ret s | _ => Throw end else Ret [].

Definition row_form (t : Tables) (model : str) : Form :=
  λ f, match f with name => model | _ => entry_text (obj_get model (table (option_of f) t)) end.

Definition is_tiered (t : Tables) (model : str) : bool :=
  match obj_get model (table MODE_OPTION t) with Some (JStr s) => bool_decide (s = js "tiered_expr") | _ => false end.

Definition model_row (t : Tables) (model : str) : outcome ModelRow :=
  let f := row_form t model in
  if is_tiered t model
  then
    fullExpr ← expr_of (obj_get model (table EXPR_OPTION t));
    s ← splitBillingExprAndRequestRules fullExpr;
    Ret {| row := {| data := f; billingMode := TieredExpr; d_billingExpr := BillingExpr.billingExpr s;
                     d_requestRuleExpr := BillingExpr.requestRuleExpr s |};
           hasConflict := false |}
  else
    Ret {| row := {| data := f; billingMode := if truthy (f price) then PerRequest else PerToken;
                     d_billingExpr := []; d_requestRuleExpr := [] |};
           hasConflict := truthy (f price) && existsb (λ g, truthy (f g)) RATIO_FIELDS |}.

Definition modelNames (t : Tables) : list str := array_of_set (t ≫= λ e, obj_keys (snd e)).

Fixpoint rows_of (t : Tables) (names : list str) : outcome (list ModelRow) :=
  match names with
  | [] => Ret []
  | m :: rest => r ← model_row t m; l ← rows_of t rest; Ret (r :: l)
  end.

Definition row_name (r : ModelRow) : str := data (row r) name.

Definition models (localeCompare : str → str → Z) (t : Tables) : outcome (list ModelRow) :=
  l ← rows_of t (modelNames t); Ret (array_sort (λ a b, localeCompare (row_name a) (row_name b)) l).

Definition count_mode (mode : PricingMode) (l : list ModelRow) : nat :=
  length (List.filter (λ r, bool_decide (billingMode (row r) = mode)) l).

(** [per-token], [per-request] and [tiered_expr] *)
Definition modeCounts (l : list ModelRow) : nat * nat * nat := (count_mode PerToken l, count_mode PerRequest l, count_mode TieredExpr l).

Definition getModeLabel (mode : PricingMode) : str :=
  match mode with PerRequest => js "Per-request" | TieredExpr => js "Expression" | PerToken => js "Per-token" end.

(** *** Summaries *)

Definition TIER_RE : regex := rlit (js "tier(").

Definition getExpressionSummary (d : ModelRatioData) : str :=
  let tierCount := length (match_all 0 TIER_RE (d_billingExpr d)) in
  if 0 <? tierCount then js "Tiered pricing · " ++ N_dec (N.of_nat tierCount) ++ js " tiers" else js "Expression pricing".

(** Without a denominator it is 2. *)
Definition ratioToPrice (r denominator : str) : str :=
  match number_of r, (if truthy denominator then number_of denominator else Some (num_of_Z 2)) with
  | Some a, Some b => format_num (nmul a b)
  | _, _ => []
  end.

Definition EXTRA_FIELDS : list FormField := [completionRatio; cacheRatio; createCacheRatio; imageRatio; audioRatio; audioCompletionRatio].

Section summaries.
Context (intl : option str → nat → num → str) (stored : option PartialCurrencyConfig).
Notation price_text := (price_text intl stored).

Definition getPriceSummary (d : ModelRatioData) : str :=
  match billingMode d with
  | TieredExpr => getExpressionSummary d
  | PerRequest => if truthy (data d price) then price_text (data d price) ++ js " / request" else js "Unset price"
  | PerToken =>
      let inputPrice := ratioToPrice (data d ratio) [] in
      if negb (truthy inputPrice) then js "Unset price"
      else
        let extraCount := length (List.filter (λ f, truthy (data d f)) EXTRA_FIELDS) in
        js "Input " ++ price_text inputPrice ++
        (if 0 <? extraCount then js " · " ++ N_dec (N.of_nat extraCount) ++ js " extras" else [])
  end.

Definition getPriceDetail (d : ModelRatioData) : str :=
  match billingMode d with
  | TieredExpr => if truthy (d_requestRuleExpr d) then js "Includes request rules" else js "Expression based"
  | PerRequest => js "Fixed request price"
  | PerToken =>
      let inputPrice := ratioToPrice (data d ratio) [] in
      if negb (truthy inputPrice) then js "No base input price"
      else
        let details := omap (λ e : str * FormField, if truthy (data d (snd e)) then Some (fst e ++ price_text (ratioToPrice (data d (snd e)) inputPrice)) else None)
          [(js "Output ", completionRatio); (js "Cache ", cacheRatio); (js "Cache write ", createCacheRatio)] in
        match details with [] => js "Base input price only" | _ => join (js " · ") details end
  end.

End summaries.

(** *** Saving *)

Definition setIfPresent (k model value : str) (t : Tables) : Tables :=
  if truthy value && is_finite (parse_float value) then on_table k (obj_set model (JNum (parse_float value))) t else t.

Definition set_fields (fs : list FormField) (d : ModelRatioData) (model : str) (t : Tables) : Tables :=
  fold_left (λ t f, setIfPresent (option_of f) model (data d f) t) fs t.

Definition SAVED_FIELDS : list FormField :=
  [ratio; cacheRatio; createCacheRatio; completionRatio; imageRatio; audioRatio; audioCompletionRatio].

Definition persist_one (d : ModelRatioData) (t : Tables) (model : str) : Tables :=
  let t1 := delete_from PRICING_OPTIONS model t in
  match billingMode d with
  | TieredExpr =>
      let combined := combineBillingExpr (d_billingExpr d) (d_requestRuleExpr d) in
      let t2 := if truthy combined
                then on_table EXPR_OPTION (obj_set model (JStr combined)) (on_table MODE_OPTION (obj_set model (JStr (js "tiered_expr"))) t1)
                else t1 in
      set_fields (price :: SAVED_FIELDS) d model t2
  | _ => if truthy (data d price) then set_fields [price] d model t1 else set_fields SAVED_FIELDS d model t1
  end.

Definition persist_all (d : ModelRatioData) (targetNames : list str) (t : Tables) : Tables := fold_left (persist_one d) targetNames t.

(** The texts handed to [onChange], by option *)
Definition option_texts (t : Tables) : list (str * str) := map (λ e, (fst e, json_pretty (JObj (snd e)))) t.

Record Editor := { texts : str → str; edited : option ModelRatioData; editorOpen : bool }.

Definition persistPricingData (d : ModelRatioData) (targetNames : list str) (e : Editor) : option Editor :=
  t ← read_tables (texts e);
  Some {| texts := with_texts (option_texts (persist_all d targetNames t)) (texts e); edited := edited e; editorOpen := editorOpen e |}.

Definition with_edited (d : option ModelRatioData) (b : bool) (e : Editor) : Editor := {| texts := texts e; edited := d; editorOpen := b |}.

Definition handleEdit (r : ModelRow) (e : Editor) : Editor :=
  with_edited (Some {| data := data (row r);
                       billingMode := match billingMode (row r) with
                                      | TieredExpr => TieredExpr
                                      | _ => if truthy (data (row r) price) then PerRequest else PerToken
                                      end;
                       d_billingExpr := d_billingExpr (row r); d_requestRuleExpr := d_requestRuleExpr (row r) |}) true e.

Definition handleAdd (e : Editor) : Editor := with_edited None true e.
Definition handleCancel (e : Editor) : Editor := with_edited None false e.

(** Another search text closes the editor. *)
Definition handleGlobalFilterChange (next previous : str) (e : Editor) : Editor := if bool_decide (next = previous) then e else handleCancel e.

Definition handleDelete (model : str) (e : Editor) : option Editor :=
  t ← read_tables (texts e);
  Some {| texts := with_texts (option_texts (delete_from PRICING_OPTIONS model t)) (texts e); edited := edited e; editorOpen := editorOpen e |}.

Definition handleSave (d : ModelRatioData) (e : Editor) : option Editor :=
  e' ← persistPricingData d [data d name] e; Some (with_edited (Some d) true e').

(** The panel's submit in the table's editor: [onSave], then [onCancel]. *)
Definition submit_panel (p : Panel) (e : Editor) : (FormField * str) + option Editor :=
  match handleSubmit p with inl m => inl m | inr d => inr (handleCancel <$> handleSave d e) end.

(** The notice, or the new prices *)
Definition handleBatchCopy (targetNames : list str) (e : Editor) : str + option Editor :=
  match edited e, targetNames with
  | None, _ => inl (js "Open a source model first")
  | _, [] => inl (js "Select at least one target model")
  | Some d, _ => inr (persistPricingData d targetNames e)
  end.
