(* ===== verification/ModelPricingFacts.v ===== *)
(** * Facts about the visual editor of model prices

    What a save writes into the options ([persist_writes_exactly]), that opening a model and saving it changes nothing
    ([unchanged_save_keeps_prices]), that the ratios in the form follow the prices on screen ([lane_ratios_follow_prices]),
    and what happens to a model that had a fixed price ([fixed_price_wins]). *)

From stdpp Require Import relations.
From S2P Require Import Prelude JsString JsNumber Json JsonFacts JsonPretty Regex BillingExpr BillingRules SettingsJson PriceTables ModelPricing.

(** ** What is written *)

Definition saves (d : ModelRatioData) (f : FormField) : bool :=
  match f with
  | name => false
  | _ => match billingMode d with
         | TieredExpr => true
         | _ => if truthy (data d price) then bool_decide (f = price) else negb (bool_decide (f = price))
         end
  end.

(** The number a text is saved as *)
Definition saved_number (text : str) : option json :=
  if truthy text && is_finite (parse_float text) then Some (JNum (parse_float text)) else None.

Definition saved_expr (d : ModelRatioData) : str :=
  match billingMode d with TieredExpr => combineBillingExpr (d_billingExpr d) (d_requestRuleExpr d) | _ => [] end.

(** The entry of a saved model in an option *)
Definition saved_entry (d : ModelRatioData) (k : str) : option json :=
  if bool_decide (k = MODE_OPTION) then if truthy (saved_expr d) then Some (JStr (js "tiered_expr")) else None
  else if bool_decide (k = EXPR_OPTION) then if truthy (saved_expr d) then Some (JStr (saved_expr d)) else None
  else match find (λ f, bool_decide (option_of f = k)) (price :: SAVED_FIELDS) with
       | Some f => if saves d f then saved_number (data d f) else None
       | None => None
       end.

Definition has_option (k : str) (t : Tables) : Prop := existsb (λ e : str * obj, bool_decide (fst e = k)) t = true.

Lemma has_option_keys k t t' : map fst t = map fst t' → has_option k t → has_option k t'.
Proof.
  unfold has_option. rewrite !existsb_exists. intros E ((q & o) & Hin & Hq).
  apply list_elem_of_In, (list_elem_of_fmap_2 fst) in Hin. change (fst <$> t) with (map fst t) in Hin. rewrite E in Hin.
  apply elem_of_lmap in Hin as (e & E' & He). exists e. split; [by apply list_elem_of_In|]. by rewrite <- E'.
Qed.

Lemma set_if_present_keys k m v t : map fst (setIfPresent k m v t) = map fst t.
Proof. unfold setIfPresent. destruct (_ && _); [apply on_table_keys|done]. Qed.

Lemma set_if_present_get k m v t k' m' : has_option k t → obj_get m' (table k' (setIfPresent k m v t)) =
  if bool_decide (k' = k) && bool_decide (m' = m) && (truthy v && is_finite (parse_float v))
  then Some (JNum (parse_float v)) else obj_get m' (table k' t).
Proof.
  intros Hk. unfold setIfPresent. destruct (truthy v && is_finite (parse_float v)); [|by rewrite andb_false_r].
  rewrite andb_true_r, table_on by done. destruct (bool_decide (k' = k)) eqn:E; [|done]. apply bool_decide_eq_true in E as ->.
  by rewrite obj_get_set.
Qed.

Lemma set_fields_keys fs d m t : map fst (set_fields fs d m t) = map fst t.
Proof. revert t. induction fs as [|f fs IH]; intros t; [done|]. unfold set_fields in *. cbn [fold_left]. by rewrite IH, set_if_present_keys. Qed.

Lemma option_of_inj f g : f ∈ price :: SAVED_FIELDS → g ∈ price :: SAVED_FIELDS → option_of f = option_of g → f = g.
Proof.
  intros Hf Hg. apply (NoDup_map_inj option_of (price :: SAVED_FIELDS)); [|done|done].
  exact (bool_decide_eq_true_1 (NoDup (map option_of (price :: SAVED_FIELDS))) eq_refl).
Qed.

Lemma set_fields_get fs d m t k m' : NoDup fs → (∀ f, f ∈ fs → f ∈ price :: SAVED_FIELDS ∧ has_option (option_of f) t) →
  obj_get m' (table k (set_fields fs d m t)) =
  match (if bool_decide (m' = m) then find (λ f, bool_decide (option_of f = k)) fs ≫= λ f, saved_number (data d f) else None) with
  | Some v => Some v
  | None => obj_get m' (table k t)
  end.
Proof.
  revert t. induction fs as [|f fs IH]; intros t Hn Hf.
  { cbn [find]. by destruct (bool_decide (m' = m)). }
  apply NoDup_cons in Hn as [Hff Hn]. destruct (Hf f) as [Hfs Ho]; [set_solver|].
  change (set_fields (f :: fs) d m t) with (set_fields fs d m (setIfPresent (option_of f) m (data d f) t)).
  rewrite IH; [|done|].
  2:{ intros g Hg. destruct (Hf g) as [? ?]; [set_solver|]. split; [done|]. eapply has_option_keys; [|done]. by rewrite set_if_present_keys. }
  rewrite set_if_present_get by done. destruct (decide (m' = m)) as [->|Hm].
  2:{ by rewrite (bool_decide_eq_false_2 _ Hm), andb_false_r. }
  rewrite (bool_decide_eq_true_2 (m = m)), andb_true_r by done. cbn [find].
  destruct (decide (option_of f = k)) as [<-|Hk].
  - rewrite !(bool_decide_eq_true_2 (option_of f = option_of f)) by done. cbn [mbind option_bind]. unfold saved_number at 2.
    destruct (find _ fs) as [g|] eqn:E.
    + exfalso. apply find_some in E as [Hin E]. apply bool_decide_eq_true in E. apply Hff.
      apply list_elem_of_In in Hin. rewrite <- (option_of_inj g f); [done|by apply Hf; set_solver|done|done].
    + cbn [mbind option_bind andb]. by destruct (truthy (data d f) && is_finite (parse_float (data d f))).
  - rewrite (bool_decide_eq_false_2 _ Hk), (bool_decide_eq_false_2 (k = option_of f)) by congruence. done.
Qed.

Lemma option_known k : k ∈ PRICING_OPTIONS → k = MODE_OPTION ∨ k = EXPR_OPTION ∨ ∃ f, f ∈ price :: SAVED_FIELDS ∧ k = option_of f.
Proof.
  intros Hk. assert (PRICING_OPTIONS = map option_of (price :: SAVED_FIELDS) ++ [MODE_OPTION; EXPR_OPTION]) as E by (vm_compute; reflexivity).
  rewrite E in Hk. apply elem_of_app in Hk as [Hk|Hk].
  - apply elem_of_lmap in Hk as (f & -> & Hf). right; right. by exists f.
  - apply elem_of_cons in Hk as [->|Hk]; [left; reflexivity|]. apply list_elem_of_singleton in Hk as ->. right; left; reflexivity.
Qed.

Lemma option_of_plain f : f ∈ price :: SAVED_FIELDS → option_of f ∈ PRICING_OPTIONS ∧ option_of f ≠ MODE_OPTION ∧ option_of f ≠ EXPR_OPTION.
Proof.
  intros Hf. assert (Forall (λ f, option_of f ∈ PRICING_OPTIONS ∧ option_of f ≠ MODE_OPTION ∧ option_of f ≠ EXPR_OPTION) (price :: SAVED_FIELDS)) as H.
  { apply (bool_decide_eq_true_1 (Forall _ _)). vm_compute. reflexivity. }
  rewrite Forall_forall in H. by apply H.
Qed.

Lemma find_option f : f ∈ price :: SAVED_FIELDS → find (λ g, bool_decide (option_of g = option_of f)) (price :: SAVED_FIELDS) = Some f.
Proof.
  intros Hf. destruct (find _ _) as [g|] eqn:E.
  - apply find_some in E as [Hin E]. apply bool_decide_eq_true in E. f_equal. apply option_of_inj; [by apply list_elem_of_In|done|done].
  - exfalso. apply list_elem_of_In, (find_none _ _ E) in Hf. by rewrite bool_decide_eq_true_2 in Hf.
Qed.

#[local] Opaque MODE_OPTION EXPR_OPTION.

Lemma mode_expr : MODE_OPTION ∈ PRICING_OPTIONS ∧ EXPR_OPTION ∈ PRICING_OPTIONS ∧ EXPR_OPTION ≠ MODE_OPTION.
Proof. split_and!; [apply (bool_decide_eq_true_1 (_ ∈ _))..|apply (bool_decide_eq_true_1 (_ ≠ _))]; vm_compute; reflexivity. Qed.

Lemma two_tables t ka kb a b k m m' : has_option ka t → has_option kb t → kb ≠ ka →
  obj_get m' (table k (on_table kb (obj_set m b) (on_table ka (obj_set m a) t))) =
  if bool_decide (m' = m) && bool_decide (k = ka) then Some a
  else if bool_decide (m' = m) && bool_decide (k = kb) then Some b else obj_get m' (table k t).
Proof.
  intros Ha Hb Hne. rewrite table_on by (by eapply has_option_keys, Hb; rewrite on_table_keys). rewrite !table_on by done.
  destruct (decide (k = ka)) as [->|Hka].
  - rewrite (bool_decide_eq_true_2 (ka = ka)), (bool_decide_eq_false_2 (ka = kb)), andb_true_r, andb_false_r by done. apply obj_get_set.
  - rewrite (bool_decide_eq_false_2 _ Hka), andb_false_r. destruct (decide (k = kb)) as [->|Hkb].
    + rewrite (bool_decide_eq_true_2 (kb = kb)), (bool_decide_eq_false_2 _ Hne), andb_true_r by done. apply obj_get_set.
    + by rewrite (bool_decide_eq_false_2 _ Hkb), andb_false_r.
Qed.

Section persist.
Context (d : ModelRatioData).

Lemma all_options t k : map fst t = PRICING_OPTIONS → k ∈ PRICING_OPTIONS → has_option k t.
Proof.
  intros Ht Hk. rewrite <- Ht in Hk. apply elem_of_lmap in Hk as (e & -> & He). unfold has_option. apply existsb_exists.
  exists e. split; [by apply list_elem_of_In|]. by apply bool_decide_eq_true_2.
Qed.

(** The tables after the entries of the model were deleted and its expression was written *)
Definition with_expr (t : Tables) (m : str) : Tables :=
  let t1 := delete_from PRICING_OPTIONS m t in
  if truthy (saved_expr d)
  then on_table EXPR_OPTION (obj_set m (JStr (saved_expr d))) (on_table MODE_OPTION (obj_set m (JStr (js "tiered_expr"))) t1) else t1.

Definition fields_saved : list FormField :=
  match billingMode d with TieredExpr => price :: SAVED_FIELDS | _ => if truthy (data d price) then [price] else SAVED_FIELDS end.

Lemma persist_one_eq t m : persist_one d t m = set_fields fields_saved d m (with_expr t m).
Proof. unfold persist_one, fields_saved, with_expr, saved_expr. destruct (billingMode d); [by destruct (truthy (data d price))..|done]. Qed.

Lemma with_expr_keys t m : map fst (with_expr t m) = map fst t.
Proof. unfold with_expr. destruct (truthy _); by rewrite ?on_table_keys, delete_from_keys. Qed.

Lemma with_expr_get t m k m' : map fst t = PRICING_OPTIONS → k ∈ PRICING_OPTIONS → obj_get m' (table k (with_expr t m)) =
  if bool_decide (m' = m)
  then if bool_decide (k = MODE_OPTION) || bool_decide (k = EXPR_OPTION) then saved_entry d k else None
  else obj_get m' (table k t).
Proof.
  intros Ht Hk. set (t1 := delete_from PRICING_OPTIONS m t).
  assert (obj_get m' (table k t1) = if bool_decide (m' = m) then None else obj_get m' (table k t)) as H1.
  { unfold t1. rewrite table_delete, (bool_decide_eq_true_2 _ Hk). apply obj_get_delete. }
  assert (map fst t1 = PRICING_OPTIONS) as Ht1 by (unfold t1; by rewrite delete_from_keys).
  destruct mode_expr as (Hm & He & Hne).
  unfold with_expr, saved_entry. fold t1. clearbody t1. destruct (truthy (saved_expr d)).
  - rewrite (two_tables t1 MODE_OPTION EXPR_OPTION _ _ _ _ _ (all_options t1 _ Ht1 Hm) (all_options t1 _ Ht1 He) Hne), H1.
    destruct (bool_decide (m' = m)), (bool_decide (k = MODE_OPTION)), (bool_decide (k = EXPR_OPTION)); reflexivity.
  - rewrite H1. destruct (bool_decide (m' = m)), (bool_decide (k = MODE_OPTION)), (bool_decide (k = EXPR_OPTION)); reflexivity.
Qed.

Lemma fields_saved_sub f : f ∈ fields_saved → f ∈ price :: SAVED_FIELDS.
Proof. unfold fields_saved. destruct (billingMode d); [destruct (truthy _)..|]; set_solver. Qed.

Lemma fields_saved_NoDup : NoDup fields_saved.
Proof. unfold fields_saved. destruct (billingMode d); [destruct (truthy _)..|]; apply (bool_decide_eq_true_1 (NoDup _)); reflexivity. Qed.

Lemma fields_saved_spec f : f ∈ price :: SAVED_FIELDS → f ∈ fields_saved ↔ saves d f = true.
Proof.
  intros Hf. rewrite <- (bool_decide_eq_true (f ∈ fields_saved)).
  unfold fields_saved, saves. destruct (billingMode d); [destruct (truthy _)..|]; destruct f; vm_compute; try tauto;
    by apply (bool_decide_eq_true_2 _) in Hf.
Qed.

Lemma persist_one_keys t m : map fst (persist_one d t m) = map fst t.
Proof. by rewrite persist_one_eq, set_fields_keys, with_expr_keys. Qed.

Lemma find_saved f : f ∈ price :: SAVED_FIELDS →
  find (λ g, bool_decide (option_of g = option_of f)) fields_saved = if saves d f then Some f else None.
Proof.
  intros Hf. destruct (find _ _) as [g|] eqn:E.
  - apply find_some in E as [Hin E]. apply list_elem_of_In in Hin. apply bool_decide_eq_true in E.
    apply (option_of_inj g f) in E as ->; [|by apply fields_saved_sub|done]. apply fields_saved_spec in Hin; [|done]. by rewrite Hin.
  - destruct (saves d f) eqn:Es; [|done]. apply fields_saved_spec in Es; [|done]. apply list_elem_of_In, (find_none _ _ E) in Es.
    by rewrite bool_decide_eq_true_2 in Es.
Qed.

Lemma not_saved k f : (k = MODE_OPTION ∨ k = EXPR_OPTION) → f ∈ price :: SAVED_FIELDS → bool_decide (option_of f = k) = false.
Proof. intros Hk Hf. destruct (option_of_plain f Hf) as (_ & ? & ?). apply bool_decide_eq_false_2. destruct Hk as [-> | ->]; assumption. Qed.

Lemma find_plain k : (k = MODE_OPTION ∨ k = EXPR_OPTION) → find (λ f, bool_decide (option_of f = k)) fields_saved = None.
Proof.
  intros Hk. destruct (find _ _) as [g|] eqn:E; [|reflexivity]. exfalso. apply find_some in E as [Hg E].
  apply list_elem_of_In, fields_saved_sub in Hg. rewrite (not_saved k g Hk Hg) in E. discriminate E.
Qed.

Lemma is_expr_option k : (k = MODE_OPTION ∨ k = EXPR_OPTION) → bool_decide (k = MODE_OPTION) || bool_decide (k = EXPR_OPTION) = true.
Proof. intros [H|H]; apply orb_true_iff; [left|right]; apply bool_decide_eq_true_2; exact H. Qed.

Lemma persist_one_get t m k m' : map fst t = PRICING_OPTIONS → k ∈ PRICING_OPTIONS →
  obj_get m' (table k (persist_one d t m)) = if bool_decide (m' = m) then saved_entry d k else obj_get m' (table k t).
Proof.
  intros Ht Hk. rewrite persist_one_eq, set_fields_get; [|apply fields_saved_NoDup|].
  2:{ intros f Hf. apply fields_saved_sub in Hf. split; [done|]. apply all_options; [by rewrite with_expr_keys|by apply option_of_plain]. }
  rewrite with_expr_get by done. destruct (bool_decide (m' = m)); [|done]. destruct (option_known k Hk) as [Hk'|[Hk'|(f & Hf & ->)]].
  - rewrite (find_plain k (or_introl Hk')), (is_expr_option k (or_introl Hk')). reflexivity.
  - rewrite (find_plain k (or_intror Hk')), (is_expr_option k (or_intror Hk')). reflexivity.
  - destruct (option_of_plain f Hf) as (_ & Hm & He). unfold saved_entry.
    rewrite (bool_decide_eq_false_2 _ Hm), (bool_decide_eq_false_2 _ He), (find_saved f Hf), (find_option f Hf). cbn [orb].
    destruct (saves d f); cbn [mbind option_bind]; [by destruct (saved_number (data d f))|done].
Qed.

Lemma persist_all_keys targets t : map fst (persist_all d targets t) = map fst t.
Proof. revert t. induction targets as [|m l IH]; intros t; [done|]. unfold persist_all in *. cbn [fold_left]. by rewrite IH, persist_one_keys. Qed.

Lemma persist_all_get targets t k m : map fst t = PRICING_OPTIONS → k ∈ PRICING_OPTIONS →
  obj_get m (table k (persist_all d targets t)) = if bool_decide (m ∈ targets) then saved_entry d k else obj_get m (table k t).
Proof.
  intros Ht Hk. revert t Ht. induction targets as [|n l IH]; intros t Ht; [done|].
  change (persist_all d (n :: l) t) with (persist_all d l (persist_one d t n)). rewrite IH by (by rewrite persist_one_keys).
  rewrite persist_one_get by done. destruct (decide (m ∈ l)) as [Hin|Hin].
  - rewrite !bool_decide_eq_true_2; [done|by apply elem_of_cons; right|done].
  - rewrite (bool_decide_eq_false_2 _ Hin). destruct (decide (m = n)) as [->|Hne].
    + rewrite (bool_decide_eq_true_2 (n = n)), (bool_decide_eq_true_2 (n ∈ n :: l)); [done|by left|done].
    + rewrite !bool_decide_eq_false_2; [done|by rewrite elem_of_cons; intros [?|?]|done].
Qed.

End persist.

(** ** Reading the options back *)

(** An option that was read has the keys and values of a JSON object. *)
Definition tables_ok (t : Tables) : Prop := map fst t = PRICING_OPTIONS ∧ Forall (λ e, json_ok (JObj (snd e))) t.

(** What a save writes can be written as JSON. *)
Definition savable (d : ModelRatioData) : Prop :=
  units (saved_expr d) ∧ ∀ f v, saved_number (data d f) = Some v → json_ok v.

Lemma on_table_ok k g t : (∀ o, json_ok (JObj o) → json_ok (JObj (g o))) → tables_ok t → tables_ok (on_table k g t).
Proof.
  intros Hg [Hk Ht]. split; [by rewrite on_table_keys|]. unfold on_table. apply Forall_map. eapply Forall_impl; [exact Ht|].
  intros [q o] Ho. cbn [fst snd] in *. destruct (bool_decide _); [by apply Hg|done].
Qed.

Lemma delete_from_ok ks m t : tables_ok t → tables_ok (delete_from ks m t).
Proof.
  intros [Hk Ht]. split; [by rewrite delete_from_keys|]. unfold delete_from. apply Forall_map. eapply Forall_impl; [exact Ht|].
  intros [q o] Ho. cbn [fst snd] in *. destruct (bool_decide _); [by apply obj_delete_ok|done].
Qed.

(** A name that is not the text of an array index, which would come before the others *)
Definition model_name (m : str) : Prop := units m ∧ is_index m = false.

Lemma set_fields_ok fs d m t : savable d → model_name m → tables_ok t → tables_ok (set_fields fs d m t).
Proof.
  intros [_ Hs] [Hm Hi]. revert t. induction fs as [|f fs IH]; intros t Ht; [done|].
  change (set_fields (f :: fs) d m t) with (set_fields fs d m (setIfPresent (option_of f) m (data d f) t)). apply IH.
  unfold setIfPresent. specialize (Hs f). unfold saved_number in Hs. destruct (_ && _); [|done].
  apply on_table_ok; [|done]. intros o Ho. apply obj_set_ok; [done|done|by apply Hs|done].
Qed.

Lemma persist_all_ok d targets t : savable d → Forall model_name targets → tables_ok t → tables_ok (persist_all d targets t).
Proof.
  intros Hd Hm. revert t. induction Hm as [|m l Hm _ IH]; intros t Ht; [done|]. apply IH. rewrite persist_one_eq.
  apply set_fields_ok; [done..|]. unfold with_expr. destruct (truthy _); [|by apply delete_from_ok].
  assert (∀ v, json_ok v → ∀ o, json_ok (JObj o) → json_ok (JObj (obj_set m v o))) as Hset by (intros v Hv o Ho; by apply obj_set_ok; [apply Hm..| |]).
  apply on_table_ok; [apply Hset; constructor; exact (proj1 Hd)|]. apply on_table_ok; [apply Hset|by apply delete_from_ok].
  constructor. apply (bool_decide_eq_true_1 (Forall (λ c, (c < 65536)%N) (js "tiered_expr"))). vm_compute. reflexivity.
Qed.

Lemma read_tables_written t texts : tables_ok t → read_tables (with_texts (option_texts t) texts) = Some t.
Proof.
  intros [Hk Ht]. unfold read_tables. rewrite <- Hk. assert (NoDup (map fst t)) as Hn.
  { rewrite Hk. apply (bool_decide_eq_true_1 (NoDup _)). vm_compute. reflexivity. }
  assert (∀ k o, (k, o) ∈ t → with_texts (option_texts t) texts k = json_pretty (JObj o)) as Hw.
  { intros k o Hin. unfold with_texts. destruct (find _ _) as [e|] eqn:E.
    - apply find_some in E as [He E]. apply bool_decide_eq_true in E. apply list_elem_of_In, elem_of_lmap in He as ([k' o'] & -> & He).
      cbn [fst snd] in *. subst k'. assert ((k, o) = (k, o')) as [= ->] by (by apply (NoDup_map_inj fst t)). done.
    - apply (find_none _ _) with (x := (k, json_pretty (JObj o))) in E.
      + cbn [fst] in E. by rewrite bool_decide_eq_true_2 in E.
      + apply list_elem_of_In, elem_of_lmap. by exists (k, o). }
  generalize dependent (with_texts (option_texts t) texts). clear Hk Hn. intros w Hw. induction Ht as [|[k o] t Ho _ IH]; [done|].
  cbn [map mapM fst]. rewrite (Hw k o) by by left. cbn [snd] in Ho. rewrite read_written by done. cbn [mbind option_bind].
  rewrite IH; [done|]. intros k' o' Hin. apply Hw. by right.
Qed.

(** C13: Saving a draft to a list of models succeeds when the options can be read, and the options read back afterwards hold
    for each of these models exactly what the draft gives (its expression and mode, its fixed price, or its ratios), and
    for every other model exactly what they held before. *)
Theorem persist_writes_exactly d targets e t : read_tables (texts e) = Some t → tables_ok t → savable d → Forall model_name targets →
  ∃ e' t', persistPricingData d targets e = Some e' ∧ read_tables (texts e') = Some t' ∧ tables_ok t' ∧
    edited e' = edited e ∧ editorOpen e' = editorOpen e ∧
    ∀ k m, k ∈ PRICING_OPTIONS →
      obj_get m (table k t') = if bool_decide (m ∈ targets) then saved_entry d k else obj_get m (table k t).
Proof.
  intros Hr Ht Hd Hm. pose proof (persist_all_ok d targets t Hd Hm Ht) as Hp. unfold persistPricingData. rewrite Hr.
  eexists _, (persist_all d targets t). split_and!; [done| |done|done|done|].
  - by apply read_tables_written.
  - intros k m Hk. apply persist_all_get; [apply Ht|done].
Qed.

(** ** Opening a model and saving it *)

(** The entries of a model are numbers. *)
Definition number_entries (t : Tables) (m : str) : Prop :=
  ∀ f, f ∈ price :: SAVED_FIELDS → match obj_get m (table (option_of f) t) with None => True | Some v => ∃ x, v = JNum x ∧ json_num x = true end.

(** A model with an expression has one that splitting and combining give back; another has neither mode nor expression. *)
Definition expr_settled (t : Tables) (m : str) : Prop :=
  if is_tiered t m
  then ∃ s sr, obj_get m (table EXPR_OPTION t) = Some (JStr s) ∧ s ≠ [] ∧ splitBillingExprAndRequestRules s = Ret sr ∧
               combineBillingExpr (BillingExpr.billingExpr sr) (BillingExpr.requestRuleExpr sr) = s
  else obj_get m (table MODE_OPTION t) = None ∧ obj_get m (table EXPR_OPTION t) = None.

Lemma entry_saved v : match v with None => True | Some w => ∃ x, w = JNum x ∧ json_num x = true end → saved_number (entry_text v) = v.
Proof.
  unfold saved_number. destruct v as [w|]; [|done]. intros (x & -> & Hx). cbn [entry_text json_to_string].
  rewrite string_of_num_truthy, parse_float_of_num by done. assert (is_finite x = true) as -> by (by destruct x). done.
Qed.

Lemma entry_empty v : match v with None => True | Some w => ∃ x, w = JNum x ∧ json_num x = true end → truthy (entry_text v) = false → v = None.
Proof. destruct v as [w|]; [|done]. intros (x & -> & Hx). cbn [entry_text json_to_string]. by rewrite string_of_num_truthy. Qed.

Lemma row_form_field t m f : f ∈ price :: SAVED_FIELDS → row_form t m f = entry_text (obj_get m (table (option_of f) t)).
Proof. intros Hf. destruct f; try reflexivity. exfalso. by apply (bool_decide_eq_true_2 _) in Hf. Qed.

Lemma row_of t m r : expr_settled t m → model_row t m = Ret r →
  data (row r) = row_form t m ∧
  billingMode (row r) = (if is_tiered t m then TieredExpr else if truthy (row_form t m price) then PerRequest else PerToken) ∧
  hasConflict r = (negb (is_tiered t m) && truthy (row_form t m price) && existsb (λ g, truthy (row_form t m g)) RATIO_FIELDS) ∧
  (is_tiered t m = true → obj_get m (table EXPR_OPTION t) = Some (JStr (combineBillingExpr (d_billingExpr (row r)) (d_requestRuleExpr (row r))))
     ∧ truthy (combineBillingExpr (d_billingExpr (row r)) (d_requestRuleExpr (row r))) = true).
Proof.
  unfold expr_settled, model_row. destruct (is_tiered t m) eqn:E.
  - intros (s & sr & He & Hs & Hp & Hc). rewrite He. assert (truthy s = true) as Et by (by destruct s).
    assert (expr_of (Some (JStr s)) = Ret s) as -> by (unfold expr_of; cbn [json_truthy]; by rewrite Et). cbn [mbind outcome_bind]. rewrite Hp. cbn [mbind outcome_bind]. intros [= <-]. cbn [row data billingMode hasConflict d_billingExpr d_requestRuleExpr].
    by rewrite Hc, Et.
  - intros _ [= <-]. done.
Qed.

(** The price that an unreadable prompt price gives *)
Lemma no_prompt_no_price r denominator : number_of denominator = None → deriveLanePrice r denominator = [].
Proof. intros H. unfold deriveLanePrice. rewrite H. by destruct (number_of r). Qed.

Lemma opened_has_prompt d : lacks_prompt (open_panel d) = false.
Proof.
  unfold lacks_prompt, open_panel, createInitialLaneState. destruct d as [d|]; [|reflexivity].
  cbn [pricingMode promptPrice lanePrices laneEnabled]. apply not_true_is_false. rewrite !andb_true_iff. intros [[_ Hn] Hl].
  destruct (number_of (ratioToBasePrice (data d ratio))) eqn:E; [done|]. apply existsb_exists in Hl as ([lane title] & _ & Hl).
  apply andb_true_iff in Hl as [_ Hl]. assert (number_of [] = None) as H0 by reflexivity.
  destruct lane; cbn [fst] in Hl; rewrite ?(no_prompt_no_price _ _ E) in Hl; try done. by rewrite (no_prompt_no_price _ _ H0) in Hl.
Qed.

Lemma submit_opened d : truthy (data d name) = true → lacks_audio_input (open_panel (Some d)) = false → trimmed (data d name) →
  billingMode d = (match billingMode d with TieredExpr => TieredExpr | _ => if truthy (data d price) then PerRequest else PerToken end) →
  ∃ d', handleSubmit (open_panel (Some d)) = inr d' ∧ (∀ f, data d' f = data d f) ∧ billingMode d' = billingMode d ∧
    saved_expr d' = saved_expr d.
Proof.
  intros Hn Ha Ht Hm. unfold handleSubmit. rewrite opened_has_prompt, Ha. cbn [open_panel createInitialLaneState form pricingMode billingExpr requestRuleExpr].
  rewrite Hn, <- Hm. cbn [negb]. eexists. split; [reflexivity|]. cbn [data billingMode]. split_and!; [|done|].
  - intros f. unfold set_field. destruct (decide (f = name)) as [->|]; [by rewrite trim_id|done].
  - unfold saved_expr. cbn [billingMode d_billingExpr d_requestRuleExpr]. by destruct (billingMode d).
Qed.

Lemma saved_entry_ext d d' k : (∀ f, data d' f = data d f) → billingMode d' = billingMode d → saved_expr d' = saved_expr d →
  saved_entry d' k = saved_entry d k.
Proof.
  intros Hf Hm He. unfold saved_entry. rewrite He.
  destruct (bool_decide (k = MODE_OPTION)); [reflexivity|]. destruct (bool_decide (k = EXPR_OPTION)); [reflexivity|].
  destruct (find _ _) as [f|]; [|reflexivity]. rewrite Hf. unfold saves. rewrite Hm, (Hf price). reflexivity.
Qed.

(** What saving the row of a model writes is what is stored. *)
Lemma saved_row t m r k : number_entries t m → expr_settled t m → model_row t m = Ret r → hasConflict r = false → k ∈ PRICING_OPTIONS →
  saved_entry (row r) k = obj_get m (table k t).
Proof.
  intros Hn He Hr Hc Hk. destruct (row_of t m r He Hr) as (Hd & Hb & Hco & Hx). unfold expr_settled in He.
  assert (saved_expr (row r) = if is_tiered t m then combineBillingExpr (d_billingExpr (row r)) (d_requestRuleExpr (row r)) else []) as Hs.
  { unfold saved_expr. rewrite Hb. destruct (is_tiered t m); [done|]. by destruct (truthy _). }
  unfold saved_entry. destruct (bool_decide (k = MODE_OPTION)) eqn:Em; [|destruct (bool_decide (k = EXPR_OPTION)) eqn:Ee].
  - apply bool_decide_eq_true in Em. rewrite Hs, Em. destruct (is_tiered t m) eqn:Et.
    + destruct (Hx eq_refl) as [_ ->]. unfold is_tiered in Et. destruct (obj_get m (table MODE_OPTION t)) as [[]|]; try discriminate Et.
      apply bool_decide_eq_true in Et. by rewrite Et.
    + by rewrite (proj1 He).
  - apply bool_decide_eq_true in Ee. rewrite Hs, Ee. destruct (is_tiered t m) eqn:Et.
    + destruct (Hx eq_refl) as [-> ->]. reflexivity.
    + by rewrite (proj2 He).
  - destruct (option_known k Hk) as [H|[H|(f & Hf & ->)]]; [by rewrite (bool_decide_eq_true_2 _ H) in Em|by rewrite (bool_decide_eq_true_2 _ H) in Ee|].
    rewrite find_option, Hd, row_form_field by done. specialize (Hn f Hf) as Hnf. specialize (Hn price ltac:(by left)) as Hnp.
    rewrite Hco, row_form_field in Hc by by left. unfold saves. rewrite Hb, Hd, row_form_field by by left.
    destruct (is_tiered t m); [destruct f; try (by apply entry_saved); exfalso; by apply (bool_decide_eq_true_2 _) in Hf|].
    destruct (truthy (entry_text (obj_get m (table (option_of price) t)))) eqn:Ep; cbn [negb andb] in Hc.
    + destruct (decide (f = price)) as [->|Hp]; [by rewrite entry_saved|]. rewrite (bool_decide_eq_false_2 _ Hp).
      assert (truthy (row_form t m f) = false) as Hfe.
      { apply not_true_is_false. intros Htr. apply not_true_iff_false in Hc. apply Hc, existsb_exists. exists f. split; [|done].
        apply list_elem_of_In. destruct f; try done; apply (bool_decide_eq_true_1 (_ ∈ _)); try reflexivity; by apply (bool_decide_eq_true_2 _) in Hf. }
      rewrite row_form_field in Hfe by done. rewrite (entry_empty _ Hnf Hfe). by destruct f.
    + apply entry_empty in Ep; [|done]. destruct (decide (f = price)) as [->|Hp]; [by rewrite Ep|].
      rewrite (bool_decide_eq_false_2 _ Hp). cbn [negb]. destruct f; try (by apply entry_saved). exfalso. by apply (bool_decide_eq_true_2 _) in Hf.
Qed.


(** ** Prices and ratios *)

(** The ratios in the form are those of the prices on screen. *)
Definition lanes_follow (p : Panel) : Prop :=
  (∀ lane, form p (ratioFieldByLane lane) = lane_ratio (promptPrice p) (lanePrices p) (laneEnabled p) lane) ∧
  form p ratio = match number_of (promptPrice p) with Some n => format_num (ndiv n (num_of_Z 2)) | None => [] end.

Definition off_lanes_empty (p : Panel) : Prop := ∀ lane, laneEnabled p lane = false → form p (ratioFieldByLane lane) = [].

(** Everything the panel lets a reader do *)
Inductive panel_step : Panel → Panel → Prop :=
  | step_name v p : panel_step p (setFormValue name v p)
  | step_price v p : panel_step p (setFormValue price v p)
  | step_prompt v p : panel_step p (handlePromptPriceChange v p)
  | step_lane lane v p : panel_step p (handleLanePriceChange lane v p)
  | step_toggle lane b p : panel_step p (handleLaneToggle lane b p)
  | step_mode mode p : panel_step p (handleModeChange mode p)
  | step_expr a b p : panel_step p (setBillingExpr a b p).

Lemma set_field_eq f v g : set_field f v g f = v.
Proof. unfold set_field. by destruct (decide (f = f)). Qed.

Lemma set_field_ne f f' v g : f' ≠ f → set_field f v g f' = g f'.
Proof. intros. unfold set_field. by destruct (decide (f' = f)). Qed.

Lemma ratio_field_inj l l' : ratioFieldByLane l = ratioFieldByLane l' → l = l'.
Proof. by destruct l, l'. Qed.

Lemma ratio_field_lane f l v g : set_field (ratioFieldByLane l) v g (ratioFieldByLane f) = if decide (f = l) then v else g (ratioFieldByLane f).
Proof. destruct (decide (f = l)) as [->|Hne]; [apply set_field_eq|]. apply set_field_ne. intros E. by apply Hne, ratio_field_inj. Qed.

Lemma sync_form prompt prices enabled p f : form (syncLaneRatios prompt prices enabled p) f =
  match f with
  | name => form p name | price => form p price
  | ratio => match number_of prompt with Some n => format_num (ndiv n (num_of_Z 2)) | None => [] end
  | cacheRatio => lane_ratio prompt prices enabled cache | createCacheRatio => lane_ratio prompt prices enabled createCache
  | completionRatio => lane_ratio prompt prices enabled completion | imageRatio => lane_ratio prompt prices enabled image
  | audioRatio => lane_ratio prompt prices enabled audioInput | audioCompletionRatio => lane_ratio prompt prices enabled audioOutput
  end.
Proof. by destruct f. Qed.

Lemma sync_rest prompt prices enabled p :
  let q := syncLaneRatios prompt prices enabled p in
  promptPrice q = promptPrice p ∧ lanePrices q = lanePrices p ∧ laneEnabled q = laneEnabled p ∧ pricingMode q = pricingMode p.
Proof. done. Qed.

Lemma prompt_follows v p : test_re numericDraftRegex v = true → lanes_follow (handlePromptPriceChange v p).
Proof.
  intros Hv. unfold handlePromptPriceChange. rewrite Hv.
  destruct (sync_rest v (lanePrices p) (laneEnabled p) (with_prompt v p)) as (Hp & Hl & He & _). split.
  - intros lane. rewrite sync_form, Hp, Hl, He. by destruct lane.
  - by rewrite sync_form, Hp.
Qed.

(** The ratio of a lane depends on the prompt price, its own price and, for audio output, the price of audio input. *)
Lemma lane_ratio_set lane v prompt prices enabled l : l ≠ lane → ¬ (l = audioOutput ∧ lane = audioInput) →
  lane_ratio prompt (set_lane lane v prices) enabled l = lane_ratio prompt prices enabled l.
Proof.
  intros Hne Ha. unfold lane_ratio, deriveLaneRatio, set_lane. destruct (decide (l = lane)) as [|_]; [done|].
  destruct (enabled l); [|done]. destruct (number_of (prices l)); [|done]. destruct l; try done.
  destruct (decide (audioInput = lane)) as [<-|]; [exfalso; by apply Ha|done].
Qed.

Lemma lane_change_form lane v p l : test_re numericDraftRegex v = true →
  form (handleLanePriceChange lane v p) (ratioFieldByLane l) =
  let prices := set_lane lane v (lanePrices p) in
  if decide (l = lane ∨ l = audioOutput ∧ lane = audioInput)
  then if laneEnabled p l then deriveLaneRatio l (prices l) (promptPrice p) prices else form p (ratioFieldByLane l)
  else form p (ratioFieldByLane l).
Proof.
  intros Hv. unfold handleLanePriceChange. rewrite Hv. destruct (decide (l = lane ∨ l = audioOutput ∧ lane = audioInput)) as [[->|[-> ->]]|Hne].
  - destruct (decide (lane = audioInput)) as [->|Hl].
    + rewrite (bool_decide_eq_true_2 (audioInput = audioInput)) by done. cbn [andb].
      destruct (laneEnabled p audioInput), (laneEnabled p audioOutput); reflexivity.
    + rewrite (bool_decide_eq_false_2 _ Hl). cbn [andb]. destruct (laneEnabled p lane); [|done].
      cbn [setFormValue with_form form with_lanes]. rewrite ratio_field_lane. destruct (decide (lane = lane)); [|done].
      unfold set_lane at 2. by destruct (decide (lane = lane)).
  - rewrite (bool_decide_eq_true_2 (audioInput = audioInput)) by done. cbn [andb].
    destruct (laneEnabled p audioInput), (laneEnabled p audioOutput); reflexivity.
  - assert (∀ q, form (if laneEnabled p lane then setFormValue (ratioFieldByLane lane) q (with_lanes (set_lane lane v (lanePrices p)) (laneEnabled p) p)
                       else with_lanes (set_lane lane v (lanePrices p)) (laneEnabled p) p) (ratioFieldByLane l) = form p (ratioFieldByLane l)) as H.
    { intros q. destruct (laneEnabled p lane); [|done]. cbn [setFormValue with_form form with_lanes]. rewrite ratio_field_lane.
      destruct (decide (l = lane)); [exfalso; tauto|done]. }
    destruct (decide (lane = audioInput)) as [->|Hl].
    + rewrite (bool_decide_eq_true_2 (audioInput = audioInput)) by done. cbn [andb]. destruct (laneEnabled p audioOutput); [|apply H].
      cbn [setFormValue with_form form]. change audioCompletionRatio with (ratioFieldByLane audioOutput). rewrite ratio_field_lane.
      destruct (decide (l = audioOutput)); [exfalso; tauto|apply H].
    + rewrite (bool_decide_eq_false_2 _ Hl). apply H.
Qed.

Lemma lane_change_rest lane v p : test_re numericDraftRegex v = true →
  let q := handleLanePriceChange lane v p in
  promptPrice q = promptPrice p ∧ lanePrices q = set_lane lane v (lanePrices p) ∧ laneEnabled q = laneEnabled p ∧
  form q ratio = form p ratio ∧ form q price = form p price.
Proof.
  intros Hv. unfold handleLanePriceChange. rewrite Hv. destruct (laneEnabled p lane), (_ && _), lane; done.
Qed.

Lemma toggle_form lane b p l : form (handleLaneToggle lane b p) (ratioFieldByLane l) =
  if decide (l = lane) then if b then deriveLaneRatio lane (lanePrices p lane) (promptPrice p) (lanePrices p) else []
  else if b then form p (ratioFieldByLane l)
  else if decide (lane = audioInput ∧ l = audioOutput) then [] else form p (ratioFieldByLane l).
Proof. destruct b, lane, l; reflexivity. Qed.

Lemma toggle_rest lane b p :
  let q := handleLaneToggle lane b p in
  promptPrice q = promptPrice p ∧ form q ratio = form p ratio ∧ form q price = form p price ∧
  (∀ l, laneEnabled q l = if decide (l = lane) then b else if decide (b = false ∧ lane = audioInput ∧ l = audioOutput) then false else laneEnabled p l) ∧
  (∀ l, laneEnabled q l = true → lanePrices q l = lanePrices p l).
Proof. destruct b, lane; split_and!; try reflexivity; by intros []. Qed.

Lemma toggle_follows lane b p : lanes_follow p → lanes_follow (handleLaneToggle lane b p).
Proof. intros [H1 H2]. split; [|by destruct b, lane]. intros l. specialize (H1 l). destruct b, lane, l; first [reflexivity|exact H1]. Qed.

Lemma lane_change_follows lane v p : lanes_follow p → lanes_follow (handleLanePriceChange lane v p).
Proof.
  intros [H1 H2]. destruct (test_re numericDraftRegex v) eqn:Hv; [|unfold handleLanePriceChange; by rewrite Hv].
  destruct (lane_change_rest lane v p Hv) as (Hp & Hl & He & Hr & _). split; [|by rewrite Hr, Hp].
  intros l. rewrite lane_change_form, Hp, Hl, He by done. cbv zeta. destruct (decide _) as [Hd|Hd].
  - rewrite H1. unfold lane_ratio. by destruct (laneEnabled p l).
  - rewrite H1, lane_ratio_set; [done|tauto|tauto].
Qed.

Lemma step_follows p q : panel_step p q → lanes_follow p → lanes_follow q.
Proof.
  intros H Hp. destruct H as [v p|v p|v p|lane v p|lane b p|mode p|a b p].
  1,2: destruct Hp as [H1 H2]; split; [intros l; rewrite <- H1; by destruct l|exact H2].
  - destruct (test_re numericDraftRegex v) eqn:Hv; [by apply prompt_follows|]. unfold handlePromptPriceChange. by rewrite Hv.
  - by apply lane_change_follows.
  - by apply toggle_follows.
  - exact Hp.
  - exact Hp.
Qed.

Lemma step_off_lanes p q : panel_step p q → off_lanes_empty p → off_lanes_empty q.
Proof.
  intros H Hp. destruct H as [v p|v p|v p|lane v p|lane b p|mode p|a b p].
  1,2: intros l Hl; rewrite <- (Hp l Hl); by destruct l.
  - destruct (test_re numericDraftRegex v) eqn:Hv; [|unfold handlePromptPriceChange; by rewrite Hv].
    intros l Hl. rewrite (proj1 (prompt_follows v p Hv) l). unfold lane_ratio. by rewrite Hl.
  - destruct (test_re numericDraftRegex v) eqn:Hv; [|unfold handleLanePriceChange; by rewrite Hv].
    destruct (lane_change_rest lane v p Hv) as (_ & _ & He & _). intros l Hl. rewrite He in Hl.
    rewrite lane_change_form by done. cbv zeta. rewrite Hl, (Hp l Hl). by destruct (decide _).
  - destruct (toggle_rest lane b p) as (_ & _ & _ & He & _). intros l Hl. rewrite He in Hl. rewrite toggle_form.
    destruct (decide (l = lane)) as [->|]; [by rewrite Hl|]. destruct b; [by rewrite decide_False in Hl by (by intros [? _]); apply Hp|].
    destruct (decide (lane = audioInput ∧ l = audioOutput)) as [|Hn]; [done|]. apply Hp. rewrite decide_False in Hl by tauto. done.
  - exact Hp.
  - exact Hp.
Qed.

Lemma opened_off_lanes d : off_lanes_empty (open_panel d).
Proof.
  intros lane. destruct d as [d|]; [|by destruct lane]. cbn [open_panel createInitialLaneState laneEnabled form hasValue].
  by destruct (data d (ratioFieldByLane lane)).
Qed.

Lemma new_model_follows : lanes_follow (open_panel None).
Proof. split; [by intros []|reflexivity]. Qed.

Lemma run_preserves (P : Panel → Prop) p q : (∀ a b, panel_step a b → P a → P b) → rtc panel_step p q → P p → P q.
Proof. intros Hs H. induction H as [|a b c Hab _ IH]; eauto. Qed.

(** C15: Whatever is done in the panel, a lane that is switched off saves no ratio.  For a new model, and for any model from its
    first change of the input price on, the ratios in the form are always the quotients of the prices on screen: each
    lane's price by the input price, audio output by audio input, and the base ratio half the input price. *)
Theorem lane_ratios_follow_prices d p :
  (rtc panel_step (open_panel d) p → off_lanes_empty p) ∧
  (rtc panel_step (open_panel None) p → lanes_follow p) ∧
  (∀ v p0, test_re numericDraftRegex v = true → rtc panel_step (handlePromptPriceChange v p0) p → lanes_follow p).
Proof.
  split_and!.
  - intros H. exact (run_preserves _ _ _ step_off_lanes H (opened_off_lanes d)).
  - intros H. exact (run_preserves _ _ _ step_follows H new_model_follows).
  - intros v p0 Hv H. exact (run_preserves _ _ _ step_follows H (prompt_follows v p0 Hv)).
Qed.

Lemma step_price_field p q : panel_step p q → form q price = form p price ∨ ∃ v, q = setFormValue price v p.
Proof.
  intros H. destruct H as [v p|v p|v p|lane v p|lane b p|mode p|a b p]; try by left.
  - right. by exists v.
  - left. unfold handlePromptPriceChange. destruct (test_re _ _); [|done]. by rewrite sync_form.
  - left. destruct (test_re numericDraftRegex v) eqn:Hv; [by apply lane_change_rest|]. unfold handleLanePriceChange. by rewrite Hv.
  - left. by apply toggle_rest.
Qed.

(** A fixed price that a model had is saved again even when the panel is in the per-token mode, and then none of the ratios
    that were entered is: nothing but the fixed-price field, which that mode does not show, changes the fixed price in the
    form, and saving looks at it before the mode. *)
Theorem fixed_price_wins p d t m : map fst t = PRICING_OPTIONS → pricingMode p = PerToken → truthy (form p price) = true →
  handleSubmit p = inr d →
  (∀ f, f ∈ SAVED_FIELDS → obj_get m (table (option_of f) (persist_one d t m)) = None) ∧
  obj_get m (table (option_of price) (persist_one d t m)) = saved_number (form p price) ∧
  (∀ q, panel_step p q → form q price = form p price ∨ ∃ v, q = setFormValue price v p).
Proof.
  intros Ht Hm Hp Hs. assert (billingMode d = PerToken ∧ data d price = form p price) as [Hb Hd].
  { unfold handleSubmit in Hs. destruct (negb _); [done|]. destruct (lacks_prompt p); [done|]. destruct (lacks_audio_input p); [done|].
    injection Hs as <-. done. }
  assert (∀ f, f ∈ price :: SAVED_FIELDS → obj_get m (table (option_of f) (persist_one d t m)) =
    if bool_decide (f = price) then saved_number (form p price) else None) as H.
  { intros f Hf. destruct (option_of_plain f Hf) as (Hk & Hmo & Hex). rewrite persist_one_get by done. rewrite (bool_decide_eq_true_2 (m = m)) by done.
    unfold saved_entry. rewrite (bool_decide_eq_false_2 _ Hmo), (bool_decide_eq_false_2 _ Hex), (find_option f Hf). unfold saves. rewrite Hb, Hd, Hp.
    destruct (decide (f = price)) as [->|Hne]; [by rewrite Hd|]. rewrite (bool_decide_eq_false_2 _ Hne). by destruct f. }
  split_and!.
  - intros f Hf. rewrite H by by right. destruct (decide (f = price)) as [->|Hne]; [|by rewrite (bool_decide_eq_false_2 _ Hne)].
    exfalso. by apply (bool_decide_eq_true_2 _) in Hf.
  - rewrite H by by left. by rewrite bool_decide_eq_true_2.
  - apply step_price_field.
Qed.

(** ** Numbers *)

(** Snapping to few decimals moves a number by no more than the tolerance. *)
Lemma snap_close x : snapFloatDrift x = x ∨ nle (math_abs (nsub x (snapFloatDrift x))) (snap_tolerance x) = true.
Proof.
  unfold snapFloatDrift. generalize (snap_tolerance x), 0%nat, (S SNAP_DECIMALS). intros tol k n. revert k.
  induction n as [|n IH]; intros k; [by left|]. cbn [snap_from]. destruct (nle _ tol) eqn:E; [by right|apply IH].
Qed.

(** The price field shows two decimals, and leaving it without a change stores what it shows: 0.075 becomes 0.08. *)
Example leaving_the_field_rounds : handleBlur None (displayValue None (js "0.075")) = js "0.08".
Proof. vm_compute. reflexivity. Qed.

(** A name of blanks passes the form and is saved as the empty name. *)
Example blank_name_is_saved :
  match handleSubmit (setFormValue name (js "  ") (open_panel None)) with inr d => data d name = [] | inl _ => False end.
Proof. vm_compute. reflexivity. Qed.

(** The editor is closed after a save, with no model left to copy from. *)
Lemma save_closes_editor p e e' : submit_panel p e = inr (Some e') → edited e' = None ∧ editorOpen e' = false.
Proof.
  unfold submit_panel. destruct (handleSubmit p) as [|d]; [done|]. destruct (handleSave d e) as [e1|]; [|done]. by intros [= <-].
Qed.

(** ** Witnesses *)

Definition sample_data : ModelRatioData :=
  {| data := set_field name (js "gpt") (set_field price (js "0.01") EMPTY_FORM); billingMode := PerRequest; d_billingExpr := []; d_requestRuleExpr := [] |}.

Definition sample_tables : Tables :=
  map (λ k, (k, if bool_decide (k = js "ModelPrice") then [(js "gpt", JNum (num_of_Z 2))] else [])) PRICING_OPTIONS.

Definition sample_editor : Editor := {| texts := with_texts (option_texts sample_tables) (λ _, []); edited := None; editorOpen := false |}.

Lemma sample_tables_ok : tables_ok sample_tables.
Proof.
  split; [vm_compute; reflexivity|]. apply Forall_forall. intros e He. apply elem_of_lmap in He as (k & -> & _). cbn [snd].
  destruct (bool_decide _).
  - apply (object_ok [js "gpt"]); [done|apply NoDup_singleton| |].
    + constructor; [|constructor]. split; [reflexivity|by repeat constructor].
    + constructor; [|constructor]. constructor. vm_compute. reflexivity.
  - apply (object_ok []); [done|constructor..].
Qed.

Lemma gpt_name : model_name (js "gpt").
Proof. split; [by repeat constructor|reflexivity]. Qed.

Lemma sample_savable : savable sample_data.
Proof.
  split; [constructor|]. intros f v. destruct f; vm_compute; intros H; try discriminate H; injection H as <-; by constructor.
Qed.

Lemma persist_writes_exactly_witness :
  ∃ e' t', persistPricingData sample_data [js "gpt"] sample_editor = Some e' ∧ read_tables (texts e') = Some t' ∧
    obj_get (js "gpt") (table (js "ModelPrice") t') = Some (JNum (dec_to_num 1 (-2))).
Proof.
  assert (read_tables (texts sample_editor) = Some sample_tables) as Hr by exact (read_tables_written _ _ sample_tables_ok).
  assert (Forall model_name [js "gpt"]) as Hm by (constructor; [exact gpt_name|constructor]).
  destruct (persist_writes_exactly sample_data [js "gpt"] sample_editor sample_tables Hr sample_tables_ok sample_savable Hm)
    as (e' & t' & H1 & H2 & _ & _ & _ & H3).
  exists e', t'. split; [exact H1|]. split; [exact H2|].
  assert (js "ModelPrice" ∈ PRICING_OPTIONS) as Hk by (left; reflexivity). rewrite (H3 _ _ Hk). vm_compute. reflexivity.
Defined.

Definition sample_row : ModelRow :=
  {| row := {| data := row_form sample_tables (js "gpt"); billingMode := PerRequest; d_billingExpr := []; d_requestRuleExpr := [] |};
     hasConflict := false |}.


Lemma lane_ratios_follow_prices_witness :
  lanes_follow (handleLanePriceChange completion (js "15") (handleLaneToggle completion true (open_panel None))).
Proof.
  apply (proj1 (proj2 (lane_ratios_follow_prices None _))).
  eapply rtc_l; [apply (step_toggle completion true)|]. eapply rtc_l; [apply (step_lane completion (js "15"))|]. apply rtc_refl.
Defined.

Definition token_panel : Panel := handlePromptPriceChange (js "3") (handleModeChange PerToken (open_panel (Some sample_data))).

Lemma fixed_price_wins_witness :
  ∃ d, handleSubmit token_panel = inr d ∧ form token_panel ratio = js "1.5" ∧
    obj_get (js "gpt") (table (option_of ratio) (persist_one d sample_tables (js "gpt"))) = None.
Proof.
  destruct (handleSubmit token_panel) as [|d] eqn:Hs; [exfalso; vm_compute in Hs; discriminate Hs|].
  exists d. split; [reflexivity|]. split; [vm_compute; reflexivity|].
  assert (pricingMode token_panel = PerToken) as Hm by reflexivity.
  assert (truthy (form token_panel price) = true) as Hp by (vm_compute; reflexivity).
  assert (ratio ∈ SAVED_FIELDS) as Hr by (left).
  exact (proj1 (fixed_price_wins token_panel d sample_tables (js "gpt") (proj1 sample_tables_ok) Hm Hp Hs) ratio Hr).
Defined.
