(* ===== verification/GroupRatio.v ===== *)
(** * The visual editor of group prices

    [group-ratio-visual-editor.tsx] of [features/system-settings/models]: the table of pricing groups, which edits the options
    [GroupRatio] and [UserUsableGroups] together and builds smart groups ([SmartGroupRules]), and the lists for top-up
    ratios, ratio overrides between groups and the order of automatic assignment.

    The state of the table ([GroupTable]) holds its rows, the counter of their identities and the texts of the options.  An
    option that is JSON of another kind than the editor expects is outside the model ([None]). *)

From S2P Require Import Prelude JsString JsNumber Json JsonFacts JsonPretty Regex SettingsJson.

(** ** Ratios *)

Definition one : num := num_of_Z 1.

Definition normalizeRatio (value : option json) : num := let parsed := opt_number value in if is_finite parsed then parsed else one.

Definition formatRatioDraft (value : option json) : str := string_of_num (normalizeRatio value).

(** [/^(?:\d+\.?\d*|\.\d* )$/] *)
Definition RATIO_DRAFT_RE : regex :=
  let digits := rstar (RChar is_digit) in
  rseq [RBol; RAlt (rseq [rplus (RChar is_digit); ROpt (rlit (js ".")); digits]) (RSeq (rlit (js ".")) digits); REol].

Definition isRatioInputDraft (value : str) : bool := negb (truthy value) || test_re RATIO_DRAFT_RE value.

Definition parseRatioDraft (value : str) : option num :=
  let trimmed := trim value in
  if negb (truthy trimmed) || bool_decide (trimmed = js ".") then None
  else let parsed := number_of_string trimmed in if is_finite parsed then Some parsed else None.

(** ** Rows *)

Record GroupPricingRow := { _id : str; name : str; ratio : str; selectable : bool; description : str }.

Definition createGroupPricingId (counter : N) : str := js "gpr_" ++ N_dec counter.

(** The rows of a list of names, and the counter after them *)
Fixpoint build_rows (counter : N) (ratioMap usableMap : obj) (names : list str) : list GroupPricingRow * N :=
  match names with
  | [] => ([], counter)
  | n :: rest =>
      let c := (counter + 1)%N in
      let r := {| _id := createGroupPricingId c; name := n; ratio := formatRatioDraft (obj_get n ratioMap);
                  selectable := match obj_get n usableMap with Some _ => true | None => false end;
                  description := match obj_get n usableMap with None | Some JNull => [] | Some v => json_to_string v end |} in
      let (rs, c') := build_rows c ratioMap usableMap rest in (r :: rs, c')
  end.

Definition buildGroupPricingRows (counter : N) (groupRatio userUsableGroups : str) : option (list GroupPricingRow * N) :=
  ratioMap ← read_table groupRatio;
  usableMap ← read_table userUsableGroups;
  Some (build_rows counter ratioMap usableMap (array_of_set (obj_keys ratioMap ++ obj_keys usableMap))).

Definition saved_ratio (draft : str) : num := default (normalizeRatio (Some (JStr draft))) (parseRatioDraft draft).

Definition serialize_row (acc : obj * obj) (row : GroupPricingRow) : obj * obj :=
  let n := trim (name row) in
  if negb (truthy n) then acc
  else (obj_set n (JNum (saved_ratio (ratio row))) (fst acc),
        if selectable row then obj_set n (JStr (description row)) (snd acc) else snd acc).

(** [groupRatio] and [userUsableGroups] *)
Definition serialized_maps (rows : list GroupPricingRow) : obj * obj := fold_left serialize_row rows ([], []).

Definition GROUP_RATIO : str := js "GroupRatio".
Definition USABLE_GROUPS : str := js "UserUsableGroups".
Definition SMART_RULES : str := js "SmartGroupRules".
Definition TOPUP_RATIO : str := js "TopupGroupRatio".
Definition AUTO_GROUPS : str := js "AutoGroups".
Definition GROUP_GROUP : str := js "GroupGroupRatio".

Definition serializeGroupPricingRows (rows : list GroupPricingRow) : list (str * str) :=
  let (g, u) := serialized_maps rows in [(GROUP_RATIO, json_pretty (JObj g)); (USABLE_GROUPS, json_pretty (JObj u))].

Definition signature_of (groupRatio userUsableGroups : str) : str :=
  json_stringify (JObj [(js "groupRatio", safeJsonParse (JObj []) (Some groupRatio));
                        (js "userUsableGroups", safeJsonParse (JObj []) (Some userUsableGroups))]).

Definition sourceGroupPricingSignature (groupRatio userUsableGroups : str) : str := signature_of groupRatio userUsableGroups.

Definition groupPricingSignature (rows : list GroupPricingRow) : str :=
  let (g, u) := serialized_maps rows in signature_of (json_pretty (JObj g)) (json_pretty (JObj u)).

(** ** The table *)

Record GroupTable := {
  counter : N; rows : list GroupPricingRow; smartGroupName : str; smartSourceIds : list str; texts : str → str
}.

Definition with_rows (l : list GroupPricingRow) (c : N) (t : GroupTable) : GroupTable :=
  {| counter := c; rows := l; smartGroupName := smartGroupName t; smartSourceIds := smartSourceIds t; texts := texts t |}.

Definition with_settings (changes : list (str * str)) (t : GroupTable) : GroupTable :=
  {| counter := counter t; rows := rows t; smartGroupName := smartGroupName t; smartSourceIds := smartSourceIds t;
     texts := with_texts changes (texts t) |}.

Definition with_sources (ids : list str) (t : GroupTable) : GroupTable :=
  {| counter := counter t; rows := rows t; smartGroupName := smartGroupName t; smartSourceIds := ids; texts := texts t |}.

Definition setSmartGroupName (n : str) (t : GroupTable) : GroupTable :=
  {| counter := counter t; rows := rows t; smartGroupName := n; smartSourceIds := smartSourceIds t; texts := texts t |}.

Definition open_table (c : N) (settings : str → str) : option GroupTable :=
  rc ← buildGroupPricingRows c (settings GROUP_RATIO) (settings USABLE_GROUPS);
  Some {| counter := snd rc; rows := fst rc; smartGroupName := js "smart"; smartSourceIds := []; texts := settings |}.

(** The effect on the rows: only sources that still exist stay selected. *)
Definition drop_gone_sources (t : GroupTable) : GroupTable :=
  with_sources (List.filter (λ id, existsb (λ r, bool_decide (_id r = id)) (rows t)) (smartSourceIds t)) t.

(** The effect on the options: rows that already say the same are kept as they were typed. *)
Definition sync_rows (t : GroupTable) : option GroupTable :=
  if bool_decide (groupPricingSignature (rows t) = sourceGroupPricingSignature (texts t GROUP_RATIO) (texts t USABLE_GROUPS))
  then Some (drop_gone_sources t)
  else rc ← buildGroupPricingRows (counter t) (texts t GROUP_RATIO) (texts t USABLE_GROUPS);
       Some (drop_gone_sources (with_rows (fst rc) (snd rc) t)).

(** The new rows, the options, and the effects of both *)
Definition emitRows (next : list GroupPricingRow) (c : N) (t : GroupTable) : option GroupTable :=
  sync_rows (with_settings (serializeGroupPricingRows next) (with_rows next c t)).

Inductive RowChange := SetName (v : str) | SetRatio (v : str) | SetSelectable (b : bool) | SetDescription (v : str).

Definition change_row (ch : RowChange) (r : GroupPricingRow) : GroupPricingRow :=
  match ch with
  | SetName v => {| _id := _id r; name := v; ratio := ratio r; selectable := selectable r; description := description r |}
  | SetRatio v => {| _id := _id r; name := name r; ratio := v; selectable := selectable r; description := description r |}
  | SetSelectable b => {| _id := _id r; name := name r; ratio := ratio r; selectable := b; description := description r |}
  | SetDescription v => {| _id := _id r; name := name r; ratio := ratio r; selectable := selectable r; description := v |}
  end.

Definition on_row (id : str) (f : GroupPricingRow → GroupPricingRow) (r : GroupPricingRow) : GroupPricingRow :=
  if bool_decide (_id r = id) then f r else r.

Definition updateRow (id : str) (ch : RowChange) (t : GroupTable) : option GroupTable :=
  emitRows (map (on_row id (change_row ch)) (rows t)) (counter t) t.

(** The ratio field refuses what is no draft of a ratio, and completes the draft when it is left. *)
Definition ratio_input (id value : str) (t : GroupTable) : option GroupTable :=
  if isRatioInputDraft value then updateRow id (SetRatio value) t else Some t.

Definition ratio_blur (row : GroupPricingRow) (t : GroupTable) : option GroupTable :=
  updateRow (_id row) (SetRatio (match parseRatioDraft (ratio row) with None => js "1" | Some x => string_of_num x end)) t.

(** [group_i] for the index of the loop *)
Definition group_name (index : N) : str := js "group_" ++ N_dec index.

(** The loop, [None] when [fuel] rounds were not enough *)
Fixpoint fresh_index (fuel : nat) (existingNames : list str) (index : N) : option N :=
  if set_has (group_name index) existingNames
  then match fuel with O => None | S f => fresh_index f existingNames (index + 1)%N end
  else Some index.

Definition new_row (c : N) (n d : str) : GroupPricingRow :=
  {| _id := createGroupPricingId c; name := n; ratio := js "1"; selectable := true; description := d |}.

Definition addRow (t : GroupTable) : option GroupTable :=
  index ← fresh_index (length (rows t)) (map name (rows t)) 1;
  emitRows (rows t ++ [new_row (counter t + 1)%N (group_name index) []]) (counter t + 1)%N t.

Definition removeRow (id : str) (t : GroupTable) : option GroupTable :=
  emitRows (List.filter (λ r, negb (bool_decide (_id r = id))) (rows t)) (counter t) t.

(** *** Smart groups *)

Definition smartSources (t : GroupTable) : list GroupPricingRow :=
  List.filter (λ r, bool_decide (_id r ∈ smartSourceIds t) && truthy (trim (name r)) &&
                    negb (bool_decide (trim (name r) = trim (smartGroupName t)))) (rows t).

Definition toggleSmartSource (id : str) (checked : bool) (t : GroupTable) : GroupTable :=
  with_sources (if checked then set_add (smartSourceIds t) id
                else List.filter (λ i, negb (bool_decide (i = id))) (smartSourceIds t)) t.

Definition smart_row (d : str) (r : GroupPricingRow) : GroupPricingRow :=
  {| _id := _id r; name := name r; ratio := if truthy (ratio r) then ratio r else js "1"; selectable := true;
     description := if truthy (description r) then description r else d |}.

Definition applySmartGroup (t : GroupTable) : option GroupTable :=
  let n := trim (smartGroupName t) in
  match smartSources t with
  | [] => Some t
  | sources =>
      if negb (truthy n) then Some t
      else
        rules ← read_table (texts t SMART_RULES);
        let sourceNames := map (λ r, trim (name r)) sources in
        let d := js "Smart rotation: " ++ join (js ", ") sourceNames in
        let t1 := with_settings [(SMART_RULES, json_pretty (JObj (obj_set n (JArr (map JStr sourceNames)) rules)))] t in
        match find (λ r, bool_decide (trim (name r) = n)) (rows t) with
        | Some existing => emitRows (map (on_row (_id existing) (smart_row d)) (rows t)) (counter t) t1
        | None => emitRows (rows t ++ [new_row (counter t + 1)%N n d]) (counter t + 1)%N t1
        end
  end.

(** [counts.set(name, (counts.get(name) ?? 0) + 1)]: a [Map] keeps the order in which its keys came. *)
Fixpoint count_up (n : str) (counts : list (str * nat)) : list (str * nat) :=
  match counts with
  | [] => [(n, 1)]
  | (k, c) :: rest => if bool_decide (k = n) then (k, S c) :: rest else (k, c) :: count_up n rest
  end.

Definition count_row (counts : list (str * nat)) (r : GroupPricingRow) : list (str * nat) :=
  let n := trim (name r) in if negb (truthy n) then counts else count_up n counts.

Definition duplicateNames (l : list GroupPricingRow) : list str :=
  map fst (List.filter (λ e, 1 <? snd e) (fold_left count_row l [])).

(** ** The lists *)

(** *** Ratios by group *)

Inductive SimpleType := TGroupRatio | TTopupGroupRatio.

Definition simple_field (type : SimpleType) : str := match type with TGroupRatio => GROUP_RATIO | TTopupGroupRatio => TOPUP_RATIO end.

Record SimpleGroup := { s_name : str; s_value : str }.

Definition topupRatioList (topupGroupRatio : str) : option (list SimpleGroup) :=
  map ← read_table topupGroupRatio; Some (List.map (λ kv, {| s_name := fst kv; s_value := json_to_string (snd kv) |}) map).

Definition write_option (k : str) (v : json) (settings : str → str) : str → str := with_texts [(k, json_pretty v)] settings.

Definition handleSimpleSave (type : option SimpleType) (editData : option SimpleGroup) (n value : str) (settings : str → str) : option (str → str) :=
  match type, parseRatioDraft value with
  | None, _ | _, None => Some settings
  | Some ty, Some r =>
      map ← read_table (settings (simple_field ty));
      let map1 := match editData with
                  | Some e => if bool_decide (s_name e = n) then map else obj_delete (s_name e) map
                  | None => map
                  end in
      Some (write_option (simple_field ty) (JObj (obj_set n (JNum r) map1)) settings)
  end.

(** The dialog's own save: it does nothing until both fields say something. *)
Definition simple_dialog_save (type : option SimpleType) (editData : option SimpleGroup) (n value : str) (settings : str → str) : option (str → str) :=
  if negb (truthy (trim n)) || negb (truthy (trim value)) then Some settings
  else match parseRatioDraft value with
       | None => Some settings
       | Some _ => handleSimpleSave type editData (trim n) (trim value) settings
       end.

Definition handleSimpleDelete (type : SimpleType) (n : str) (settings : str → str) : option (str → str) :=
  map ← read_table (settings (simple_field type)); Some (write_option (simple_field type) (JObj (obj_delete n map)) settings).

(** *** Automatic assignment *)

Definition read_list (text : str) : option (list json) := match safeJsonParse (JArr []) (Some text) with JArr l => Some l | _ => None end.

Definition handleAutoGroupSave (input : str) (settings : str → str) : option (str → str) :=
  if negb (truthy (trim input)) then Some settings
  else l ← read_list (settings AUTO_GROUPS); Some (write_option AUTO_GROUPS (JArr (l ++ [JStr (trim input)])) settings).

(** [filter((_, i) => i !== index)] *)
Definition without_index (index : nat) (l : list json) : list json := take index l ++ drop (S index) l.

Definition handleAutoGroupDelete (index : nat) (settings : str → str) : option (str → str) :=
  l ← read_list (settings AUTO_GROUPS); Some (write_option AUTO_GROUPS (JArr (without_index index l)) settings).

Inductive Direction := Up | Down.

(** [newIndex], [None] below zero *)
Definition new_index (index : nat) (direction : Direction) : option nat :=
  match direction with Up => match index with O => None | S i => Some i end | Down => Some (S index) end.

(** The list after the move, [None] when there is nothing to do *)
Definition moved (index : nat) (direction : Direction) (l : list json) : option (list json) :=
  j ← new_index index direction;
  if j <? length l
  then match l !! index, l !! j with Some a, Some b => Some (<[j := a]> (<[index := b]> l)) | _, _ => None end
  else None.

Definition handleAutoGroupMove (index : nat) (direction : Direction) (settings : str → str) : option (str → str) :=
  l ← read_list (settings AUTO_GROUPS);
  Some (match moved index direction l with Some l' => write_option AUTO_GROUPS (JArr l') settings | None => settings end).

(** *** Overrides between groups *)

(** [map[group]], an empty object when there is none *)
Definition inner_of (map : obj) (group : str) : option obj :=
  match obj_get group map with
  | Some (JObj o) => Some o
  | v => if json_truthy v then None else Some []
  end.

Definition groupGroupRatioList (groupGroupRatio : str) : option (list (str * list (str * json))) :=
  map ← read_table groupGroupRatio;
  mapM (λ kv, match snd kv with JNull => None | overrides => Some (fst kv, entries_of overrides) end) map.

Definition handleUserGroupSave (input : str) (settings : str → str) : option (str → str) :=
  if negb (truthy (trim input)) then Some settings
  else
    map ← read_table (settings GROUP_GROUP);
    Some (write_option GROUP_GROUP (JObj (if json_truthy (obj_get (trim input) map) then map else obj_set (trim input) (JObj []) map)) settings).

Definition handleUserGroupDelete (userGroup : str) (settings : str → str) : option (str → str) :=
  map ← read_table (settings GROUP_GROUP); Some (write_option GROUP_GROUP (JObj (obj_delete userGroup map)) settings).

Definition handleOverrideSave (userGroup : option str) (targetGroup : str) (r : num) (oldTargetGroup : option str) (settings : str → str)
  : option (str → str) :=
  match userGroup with
  | None | Some [] => Some settings
  | Some g =>
      map ← read_table (settings GROUP_GROUP);
      inner ← inner_of map g;
      let inner1 := match oldTargetGroup with
                    | Some old => if truthy old && negb (bool_decide (old = targetGroup)) then obj_delete old inner else inner
                    | None => inner
                    end in
      Some (write_option GROUP_GROUP (JObj (obj_set g (JObj (obj_set targetGroup (JNum r) inner1)) map)) settings)
  end.

(** The dialog's own save *)
Definition override_dialog_save (userGroup : option str) (editData : option (str * num)) (targetGroup draft : str) (settings : str → str)
  : option (str → str) :=
  if negb (truthy (trim targetGroup)) || negb (truthy (trim draft)) then Some settings
  else match parseRatioDraft draft with
       | None => Some settings
       | Some r => handleOverrideSave userGroup (trim targetGroup) r (fst <$> editData) settings
       end.

Definition handleOverrideDelete (userGroup targetGroup : str) (settings : str → str) : option (str → str) :=
  map ← read_table (settings GROUP_GROUP);
  if json_truthy (obj_get userGroup map)
  then
    inner ← inner_of map userGroup;
    let inner1 := obj_delete targetGroup inner in
    Some (write_option GROUP_GROUP (JObj (match inner1 with [] => obj_delete userGroup map | _ => obj_set userGroup (JObj inner1) map end)) settings)
  else Some (write_option GROUP_GROUP (JObj map) settings).
