(* ===== verification/GroupSpecial.v ===== *)
(** * Special usable groups

    [group-special-usable-editor.tsx] of [features/system-settings/models]: for each user group, rules that add a group
    ([+:name]), remove one ([-:name]) or append one ([name]).  The option is an object of objects; the editor works on the
    flat list of rules and writes the option back after every change ([nestRules]).  Flattening and nesting are inverse on the
    options the editor writes ([rules_round_trip]), and the editor's state is always written completely
    ([special_editor_invariant]). *)

From stdpp Require Import relations.
From S2P Require Import Prelude JsString JsNumber Json JsonFacts JsonPretty SettingsJson.

Inductive OpType := OpAdd | OpRemove | OpAppend.

#[export] Instance OpType_eq_dec : EqDecision OpType.
Proof. solve_decision. Defined.

Record Rule := { _id : str; userGroup : str; op : OpType; targetGroup : str; description : str }.

Definition uid (counter : N) : str := js "gsu_" ++ N_dec counter.

Definition ADD_PREFIX : str := [43%N; 58%N].
Definition REMOVE_PREFIX : str := [45%N; 58%N].
Definition REMOVE : str := js "remove".

Definition parsePrefix (rawKey : str) : OpType * str :=
  if starts_with ADD_PREFIX rawKey then (OpAdd, drop 2 rawKey)
  else if starts_with REMOVE_PREFIX rawKey then (OpRemove, drop 2 rawKey)
  else (OpAppend, rawKey).

Definition toRawKey (o : OpType) (groupName : str) : str :=
  match o with OpAdd => ADD_PREFIX ++ groupName | OpRemove => REMOVE_PREFIX ++ groupName | OpAppend => groupName end.

(** A text that is JSON but [null] makes [Object.entries] throw. *)
Definition safeParseJson (s : str) : json :=
  if negb (truthy s) || negb (truthy (trim s)) then JObj [] else match json_parse s with Some v => v | None => JObj [] end.

Definition rule_of (counter : N) (group rawKey : str) (desc : json) : Rule :=
  let '(o, n) := parsePrefix rawKey in
  {| _id := uid counter; userGroup := group; op := o; targetGroup := n;
     description := match o with OpRemove => REMOVE | _ => match desc with JStr s => s | _ => [] end end |}.

Fixpoint flatten_inner (counter : N) (group : str) (inner : obj) : list Rule * N :=
  match inner with
  | [] => ([], counter)
  | (k, desc) :: rest =>
      let c := (counter + 1)%N in
      let (rs, c') := flatten_inner c group rest in (rule_of c group k desc :: rs, c')
  end.

(** [typeof inner !== 'object' || inner === null] *)
Definition inner_entries (v : json) : obj := match v with JObj o => o | JArr l => entries_of (JArr l) | _ => [] end.

Fixpoint flatten_groups (counter : N) (nested : obj) : list Rule * N :=
  match nested with
  | [] => ([], counter)
  | (g, inner) :: rest =>
      let (rs, c) := flatten_inner counter g (inner_entries inner) in
      let (rs', c') := flatten_groups c rest in (rs ++ rs', c')
  end.

Definition flattenRules (counter : N) (nested : json) : outcome (list Rule * N) :=
  match nested with JNull => Throw | v => Ret (flatten_groups counter (entries_of v)) end.

Definition nest_rule (result : obj) (r : Rule) : obj :=
  if negb (truthy (userGroup r)) || negb (truthy (targetGroup r)) then result
  else
    let inner := match obj_get (userGroup r) result with Some (JObj o) => o | _ => [] end in
    obj_set (userGroup r) (JObj (obj_set (toRawKey (op r) (targetGroup r)) (JStr (description r)) inner)) result.

Definition nestRules (rules : list Rule) : obj := fold_left nest_rule rules [].

Definition serializeRules (rules : list Rule) : str :=
  match nestRules rules with [] => js "{}" | nested => json_pretty (JObj nested) end.

(** ** The editor *)

Record SpecialEditor := { counter : N; rules : list Rule; newGroupName : str; value : str }.

Definition open_editor (c : N) (text : str) : outcome SpecialEditor :=
  rc ← flattenRules c (safeParseJson text);
  Ret {| counter := snd rc; rules := fst rc; newGroupName := []; value := text |}.

Definition emitChange (newRules : list Rule) (c : N) (e : SpecialEditor) : SpecialEditor :=
  {| counter := c; rules := newRules; newGroupName := newGroupName e; value := serializeRules newRules |}.

Inductive RuleChange := SetOp (o : OpType) | SetTarget (v : str) | SetDescription (v : str).

Definition update_one (ch : RuleChange) (r : Rule) : Rule :=
  match ch with
  | SetOp o =>
      {| _id := _id r; userGroup := userGroup r; op := o; targetGroup := targetGroup r;
         description := if bool_decide (o = OpRemove) then REMOVE
                        else if bool_decide (op r = OpRemove) && bool_decide (description r = REMOVE) then [] else description r |}
  | SetTarget v => {| _id := _id r; userGroup := userGroup r; op := op r; targetGroup := v; description := description r |}
  | SetDescription v => {| _id := _id r; userGroup := userGroup r; op := op r; targetGroup := targetGroup r; description := v |}
  end.

Definition updateRule (id : str) (ch : RuleChange) (e : SpecialEditor) : SpecialEditor :=
  emitChange (map (λ r, if bool_decide (_id r = id) then update_one ch r else r) (rules e)) (counter e) e.

Definition removeRule (id : str) (e : SpecialEditor) : SpecialEditor :=
  emitChange (List.filter (λ r, negb (bool_decide (_id r = id))) (rules e)) (counter e) e.

Definition removeGroup (group : str) (e : SpecialEditor) : SpecialEditor :=
  emitChange (List.filter (λ r, negb (bool_decide (userGroup r = group))) (rules e)) (counter e) e.

Definition blank_rule (c : N) (group : str) : Rule :=
  {| _id := uid c; userGroup := group; op := OpAppend; targetGroup := []; description := [] |}.

Definition addRuleToGroup (group : str) (e : SpecialEditor) : SpecialEditor :=
  emitChange (rules e ++ [blank_rule (counter e + 1)%N group]) (counter e + 1)%N e.

Definition with_new_name (n : str) (e : SpecialEditor) : SpecialEditor :=
  {| counter := counter e; rules := rules e; newGroupName := n; value := value e |}.

Definition addNewGroup (e : SpecialEditor) : SpecialEditor :=
  let n := trim (newGroupName e) in
  if negb (truthy n) then e
  else with_new_name [] (emitChange (rules e ++ [blank_rule (counter e + 1)%N n]) (counter e + 1)%N e).

(** [map] and [order] together: the groups in the order of their first rule *)
Fixpoint push_rule (r : Rule) (groups : list (str * list Rule)) : list (str * list Rule) :=
  match groups with
  | [] => [(userGroup r, [r])]
  | (g, items) :: rest => if bool_decide (g = userGroup r) then (g, items ++ [r]) :: rest else (g, items) :: push_rule r rest
  end.

Definition grouped (l : list Rule) : list (str * list Rule) :=
  fold_left (λ acc r, if truthy (userGroup r) then push_rule r acc else acc) l [].

(** ** Facts *)

Lemma prefix_and_rest p s : starts_with p s = true → s = p ++ drop (length p) s.
Proof.
  revert s. induction p as [|c p IH]; intros s H; [done|]. destruct s as [|d s]; [done|]. cbn in H |- *.
  apply andb_true_iff in H as [E H]. apply N.eqb_eq in E as ->. by rewrite <- IH.
Qed.

(** A key is read back as it was written, whatever it is. *)
Lemma raw_key_of_prefix k : toRawKey (fst (parsePrefix k)) (snd (parsePrefix k)) = k.
Proof.
  unfold parsePrefix. destruct (starts_with ADD_PREFIX k) eqn:E1; [by rewrite (prefix_and_rest _ _ E1)|].
  destruct (starts_with REMOVE_PREFIX k) eqn:E2; [by rewrite (prefix_and_rest _ _ E2)|done].
Qed.

(** *** Reading an option and writing it *)

(** The members of a user group's rules: no empty target, texts for values, and [remove] for a removal. *)
Definition entry_ok (kv : str * json) : Prop :=
  snd (parsePrefix (fst kv)) ≠ [] ∧ ∃ s, snd kv = JStr s ∧ (fst (parsePrefix (fst kv)) = OpRemove → s = REMOVE).

Definition group_ok (kv : str * json) : Prop :=
  fst kv ≠ [] ∧ ∃ inner, snd kv = JObj inner ∧ inner ≠ [] ∧ canonical inner ∧ Forall entry_ok inner.

Definition special_ok (nested : obj) : Prop := canonical nested ∧ Forall group_ok nested.

Lemma nest_rule_of c g k v acc inner : g ≠ [] → entry_ok (k, v) →
  nest_rule (obj_set g (JObj inner) acc) (rule_of c g k v) = obj_set g (JObj (obj_set k v inner)) acc.
Proof.
  intros Hg (Ht & s & Ev & Hs). cbn [fst snd] in *. subst v. unfold nest_rule, rule_of. pose proof (raw_key_of_prefix k) as Hk.
  destruct (parsePrefix k) as [o n]. cbn [fst snd] in *. cbn [userGroup targetGroup op description].
  assert (negb (truthy g) || negb (truthy n) = false) as -> by (by destruct g, n). rewrite obj_get_set_eq, Hk, obj_set_set.
  destruct o; try done. by rewrite Hs.
Qed.

Lemma nest_rule_first c g k v acc : g ≠ [] → entry_ok (k, v) → obj_get g acc = None →
  nest_rule acc (rule_of c g k v) = obj_set g (JObj [(k, v)]) acc.
Proof.
  intros Hg (Ht & s & Ev & Hs) Ha. cbn [fst snd] in *. subst v. unfold nest_rule, rule_of. pose proof (raw_key_of_prefix k) as Hk.
  destruct (parsePrefix k) as [o n]. cbn [fst snd] in *. cbn [userGroup targetGroup op description].
  assert (negb (truthy g) || negb (truthy n) = false) as -> by (by destruct g, n). rewrite Ha, Hk.
  destruct o; try done. by rewrite Hs.
Qed.

Lemma nest_inner c g inner acc inner0 : g ≠ [] → Forall entry_ok inner →
  fold_left nest_rule (fst (flatten_inner c g inner)) (obj_set g (JObj inner0) acc) =
  obj_set g (JObj (fold_left (λ o kv, obj_set (fst kv) (snd kv) o) inner inner0)) acc.
Proof.
  intros Hg Hf. revert c inner0. induction Hf as [|[k v] inner Hv _ IH]; intros c inner0; [done|].
  cbn [flatten_inner]. specialize (IH (c + 1)%N (obj_set k v inner0)). destruct (flatten_inner (c + 1) g inner) as [rs c'].
  cbn [fst snd fold_left] in *. by rewrite nest_rule_of.
Qed.

Lemma nest_group c g inner acc : group_ok (g, JObj inner) → obj_get g acc = None →
  fold_left nest_rule (fst (flatten_inner c g inner)) acc = obj_set g (JObj inner) acc.
Proof.
  intros (Hg & inner' & [= <-] & Hne & Hc & Hf) Ha. cbn [fst] in Hg. apply canonical_fold in Hc. destruct Hf as [|[k v] inner Hv Hf]; [done|].
  cbn [flatten_inner]. pose proof (nest_inner (c + 1) g inner acc [(k, v)] Hg Hf) as H. destruct (flatten_inner (c + 1) g inner) as [rs c'].
  cbn [fst snd fold_left] in *. rewrite nest_rule_first by done. rewrite H. f_equal. f_equal. exact Hc.
Qed.

Lemma nest_groups c nested acc : Forall group_ok nested → NoDup (map fst nested) → (∀ g, g ∈ map fst nested → obj_get g acc = None) →
  fold_left nest_rule (fst (flatten_groups c nested)) acc = fold_left (λ o kv, obj_set (fst kv) (snd kv) o) nested acc.
Proof.
  intros Hf. revert c acc. induction Hf as [|[g v] nested Hg _ IH]; intros c acc Hn Ha; [done|]. cbn [map fst] in *.
  apply NoDup_cons in Hn as [Hgn Hn]. pose proof Hg as (Hgne & inner & Ev & Hin). cbn [snd] in Ev. subst v.
  cbn [flatten_groups inner_entries]. pose proof (nest_group c g inner acc) as H1.
  destruct (flatten_inner c g inner) as [rs c1]. specialize (IH c1). destruct (flatten_groups c1 nested) as [rs' c2]. cbn [fst snd fold_left] in *.
  rewrite fold_left_app, H1, IH; [done|done| |exact Hg|apply Ha; by left].
  intros g' Hg'. rewrite obj_get_set_ne; [apply Ha; by right|]. intros ->. done.
Qed.

Lemma nest_flatten c nested : special_ok nested → nestRules (fst (flatten_groups c nested)) = nested.
Proof.
  intros [Hc Hf]. unfold nestRules. rewrite nest_groups; [by apply canonical_fold|done|by apply Hc|done].
Qed.

(** *** Identities *)

Lemma uid_inj a b : uid a = uid b → a = b.
Proof. intros H. by apply app_inv_head, N_dec_inj in H. Qed.

(** The rules were numbered from [lo] (excluded) to [hi]. *)
Definition numbered (lo hi : N) (l : list Rule) : Prop :=
  (lo ≤ hi)%N ∧ NoDup (map _id l) ∧ Forall (λ r, ∃ n, _id r = uid n ∧ (lo < n ≤ hi)%N) l.

Lemma numbered_app lo mid hi l l' : numbered lo mid l → numbered mid hi l' → numbered lo hi (l ++ l').
Proof.
  intros (H1 & N1 & F1) (H2 & N2 & F2). split_and!; [lia| |].
  - rewrite map_app. apply NoDup_app. split_and!; [done| |done]. intros i Hi Hi'. apply elem_of_lmap in Hi as (r & -> & Hr).
    apply elem_of_lmap in Hi' as (r' & E & Hr'). rewrite Forall_forall in F1, F2. destruct (F1 r Hr) as (n & En & Hn).
    destruct (F2 r' Hr') as (n' & En' & Hn'). rewrite En, En' in E. apply uid_inj in E. lia.
  - apply Forall_app. split; eapply Forall_impl; [exact F1| |exact F2|]; intros r (n & ? & ?); exists n; split; [done|lia|done|lia].
Qed.

Lemma numbered_one c r : _id r = uid (c + 1) → numbered c (c + 1) [r].
Proof. intros H. split_and!; [lia|apply NoDup_singleton|]. constructor; [|done]. exists (c + 1)%N. split; [done|lia]. Qed.

Lemma flatten_inner_numbered c g inner : numbered c (snd (flatten_inner c g inner)) (fst (flatten_inner c g inner)).
Proof.
  revert c. induction inner as [|[k v] inner IH]; intros c; [split_and!; [done|apply NoDup_nil_2|done]|].
  cbn [flatten_inner]. specialize (IH (c + 1)%N). destruct (flatten_inner (c + 1) g inner) as [rs c']. cbn [fst snd] in *.
  apply (numbered_app c (c + 1) c' [_] rs); [|done]. apply numbered_one. unfold rule_of. by destruct (parsePrefix k).
Qed.

Lemma flatten_groups_numbered c nested : numbered c (snd (flatten_groups c nested)) (fst (flatten_groups c nested)).
Proof.
  revert c. induction nested as [|[g v] nested IH]; intros c; [split_and!; [done|apply NoDup_nil_2|done]|].
  cbn [flatten_groups]. pose proof (flatten_inner_numbered c g (inner_entries v)) as H. destruct (flatten_inner _ _ _) as [rs c1].
  specialize (IH c1). destruct (flatten_groups c1 nested) as [rs' c2]. by eapply numbered_app.
Qed.

(** *** Removals *)

Definition removal_ok (r : Rule) : Prop := op r = OpRemove → description r = REMOVE.

Lemma rule_of_removal c g k v : removal_ok (rule_of c g k v).
Proof. unfold removal_ok, rule_of. destruct (parsePrefix k) as [o n]. cbn. by intros ->. Qed.

Lemma flatten_removals c nested : Forall removal_ok (fst (flatten_groups c nested)).
Proof.
  assert (∀ inner c g, Forall removal_ok (fst (flatten_inner c g inner))) as H.
  { induction inner as [|[k v] inner IH]; intros d g; [done|]. cbn [flatten_inner]. specialize (IH (d + 1)%N g).
    destruct (flatten_inner (d + 1) g inner). constructor; [apply rule_of_removal|done]. }
  revert c. induction nested as [|[g v] nested IH]; intros c; [done|]. cbn [flatten_groups].
  specialize (H (inner_entries v) c g). destruct (flatten_inner _ _ _) as [rs c1]. specialize (IH c1).
  destruct (flatten_groups c1 nested). by apply Forall_app.
Qed.

(** *** What is written *)

Definition complete (r : Rule) : bool := truthy (userGroup r) && truthy (targetGroup r).

(** The entry of an option for a user group and a key *)
Definition entry_at (nested : obj) (g k : str) : option json :=
  match obj_get g nested with Some (JObj inner) => obj_get k inner | _ => None end.

Definition says (g k : str) (r : Rule) : bool :=
  complete r && bool_decide (userGroup r = g) && bool_decide (toRawKey (op r) (targetGroup r) = k).

Lemma nest_rule_entry acc r g k : (∀ g' v, obj_get g' acc = Some v → ∃ o, v = JObj o) →
  entry_at (nest_rule acc r) g k = (if says g k r then Some (JStr (description r)) else entry_at acc g k) ∧
  (∀ g' v, obj_get g' (nest_rule acc r) = Some v → ∃ o, v = JObj o).
Proof.
  intros Ho. unfold nest_rule, says, complete.
  destruct (truthy (userGroup r)), (truthy (targetGroup r)); try (split; [done|exact Ho]). cbn [negb orb andb].
  set (inner := match obj_get (userGroup r) acc with Some (JObj o) => o | _ => [] end). split.
  - unfold entry_at. rewrite obj_get_set. destruct (decide (userGroup r = g)) as [<-|Hg].
    + rewrite !(bool_decide_eq_true_2 (userGroup r = userGroup r)) by done. cbn [andb]. rewrite obj_get_set.
      destruct (decide (toRawKey (op r) (targetGroup r) = k)) as [<-|Hk]; [by rewrite !bool_decide_eq_true_2|].
      rewrite (bool_decide_eq_false_2 _ Hk), bool_decide_eq_false_2 by congruence. unfold inner.
      destruct (obj_get (userGroup r) acc) as [v|] eqn:E; [|done]. by destruct (Ho _ _ E) as (o & ->).
    + by rewrite (bool_decide_eq_false_2 _ Hg), bool_decide_eq_false_2 by congruence.
  - intros g' v. rewrite obj_get_set. destruct (bool_decide _); [intros [= <-]; by eexists|apply Ho].
Qed.

Lemma nest_entries l g k : entry_at (nestRules l) g k = JStr ∘ description <$> last (List.filter (says g k) l) ∧
  (∀ g' v, obj_get g' (nestRules l) = Some v → ∃ o, v = JObj o).
Proof.
  unfold nestRules. induction l as [|r l [IH1 IH2]] using rev_ind; [done|]. rewrite fold_left_app. cbn [fold_left].
  destruct (nest_rule_entry (fold_left nest_rule l []) r g k IH2) as [H1 H2]. split; [|done]. rewrite H1, IH1, bfilter_app. cbn [List.filter].
  destruct (says g k r); [by rewrite last_snoc|by rewrite app_nil_r].
Qed.

(** *** Runs of the editor *)

(** Everything the editor lets a reader do; a removal shows no description to edit. *)
Inductive special_step : SpecialEditor → SpecialEditor → Prop :=
  | step_op id o e : special_step e (updateRule id (SetOp o) e)
  | step_target id v e : special_step e (updateRule id (SetTarget v) e)
  | step_description id v e : (∀ r, r ∈ rules e → _id r = id → op r ≠ OpRemove) → special_step e (updateRule id (SetDescription v) e)
  | step_remove id e : special_step e (removeRule id e)
  | step_remove_group g e : special_step e (removeGroup g e)
  | step_add g e : special_step e (addRuleToGroup g e)
  | step_new_name n e : special_step e (with_new_name n e)
  | step_add_group e : special_step e (addNewGroup e).

Definition editor_ok (e : SpecialEditor) : Prop := (∃ lo, numbered lo (counter e) (rules e)) ∧ Forall removal_ok (rules e).

Lemma Forall_sublist_of {A} (P : A → Prop) l l' : l `sublist_of` l' → Forall P l' → Forall P l.
Proof. rewrite !Forall_forall. intros Hs H x Hx. apply H. by eapply elem_of_sublist. Qed.

Lemma editor_ok_sub e c l : editor_ok e → l `sublist_of` rules e → c = counter e → ∀ n v,
  editor_ok {| counter := c; rules := l; newGroupName := n; value := v |}.
Proof.
  intros [(lo & Hlo & Hn & Hf) Hr] Hs -> n v. split; cbn [rules counter].
  - exists lo. split_and!; [done|eapply sublist_NoDup; [exact Hn|by apply (fmap_sublist _id)]|by eapply Forall_sublist_of].
  - by eapply Forall_sublist_of.
Qed.

Lemma update_special_ok id ch e : editor_ok e → (∀ r, r ∈ rules e → _id r = id → removal_ok r → removal_ok (update_one ch r)) → editor_ok (updateRule id ch e).
Proof.
  intros [(lo & Hlo & Hn & Hf) Hr] Hch. set (f := λ r, if bool_decide (_id r = id) then update_one ch r else r).
  assert (∀ r, _id (f r) = _id r) as Hid by (intros r; unfold f; destruct (bool_decide _); [by destruct ch|done]).
  split; cbn [updateRule emitChange counter rules]; fold f.
  - exists lo. split_and!; [done| |]. { rewrite map_map. by rewrite (map_ext _ _ Hid). }
    apply Forall_map. eapply Forall_impl; [exact Hf|]. intros r. by rewrite Hid.
  - apply Forall_map, Forall_forall. intros r Hin. rewrite Forall_forall in Hr. unfold f. destruct (bool_decide _) eqn:E; [|by apply Hr].
    apply bool_decide_eq_true in E. apply Hch; [done..|by apply Hr].
Qed.

Lemma add_ok g n e : editor_ok e → editor_ok (with_new_name n (addRuleToGroup g e)).
Proof.
  intros [(lo & Hlo) Hr]. split; cbn [addRuleToGroup with_new_name emitChange counter rules].
  - exists lo. eapply numbered_app; [exact Hlo|by apply numbered_one].
  - apply Forall_app. split; [done|]. constructor; [done|constructor].
Qed.

Lemma step_editor_ok e e' : special_step e e' → editor_ok e → editor_ok e'.
Proof.
  intros H He. destruct H as [id o e|id v e|id v e Hd|id e|g e|g e|n e|e].
  - apply update_special_ok; [done|]. intros r _ _ _. unfold removal_ok. cbn [update_one op description]. intros ->. by rewrite bool_decide_eq_true_2.
  - apply update_special_ok; [done|]. intros r _ _ H. exact H.
  - apply update_special_ok; [done|]. intros r Hin Hid _ Ho. by destruct (Hd r Hin Hid).
  - apply (editor_ok_sub e); [done|apply bfilter_sublist|done].
  - apply (editor_ok_sub e); [done|apply bfilter_sublist|done].
  - exact (add_ok g (newGroupName e) e He).
  - apply (editor_ok_sub e); done.
  - unfold addNewGroup. destruct (negb _); [done|]. by apply (add_ok (trim (newGroupName e)) []).
Qed.

Lemma step_written e e' : special_step e e' →
  (rules e' = rules e ∧ value e' = value e) ∨ value e' = serializeRules (rules e').
Proof.
  intros H. destruct H; try by right. { by left. } unfold addNewGroup. destruct (negb _); [by left|by right].
Qed.

(** The rules of the special usable groups survive the editor: opened on an option that holds rules, it shows them with
    distinct identities, and what it writes for them reads back as the very same object. *)
Theorem special_rules_round_trip c text nested : json_parse text = Some (JObj nested) → truthy (trim text) = true →
  special_ok nested → json_ok (JObj nested) →
  ∃ e, open_editor c text = Ret e ∧ NoDup (map _id (rules e)) ∧ Forall removal_ok (rules e) ∧
    json_parse (serializeRules (rules e)) = Some (JObj nested).
Proof.
  intros Hp Ht Hs Hok. unfold open_editor, safeParseJson. rewrite Ht. assert (truthy text = true) as -> by (by destruct text).
  cbn [negb orb]. rewrite Hp. cbn [flattenRules entries_of mbind outcome_bind]. eexists. split; [reflexivity|]. cbn [rules].
  split; [apply flatten_groups_numbered|]. split; [apply flatten_removals|]. unfold serializeRules. rewrite nest_flatten by done.
  destruct nested as [|kv nested]; [vm_compute; reflexivity|]. by apply json_parse_pretty.
Qed.

(** In every run of the editor the rules keep distinct identities and every removal keeps its fixed description.  Once a
    rule was changed the option is what the rules say: under each user group and key the description of the last complete
    rule for it, and nothing else. *)
Theorem special_editor_invariant c text e0 e : open_editor c text = Ret e0 → rtc special_step e0 e →
  NoDup (map _id (rules e)) ∧ Forall removal_ok (rules e) ∧
  ((rules e = rules e0 ∧ value e = text) ∨ value e = serializeRules (rules e)) ∧
  ∀ g k, entry_at (nestRules (rules e)) g k = JStr ∘ description <$> last (List.filter (says g k) (rules e)).
Proof.
  intros Ho Hr. assert (editor_ok e0 ∧ value e0 = text) as [H0 Hv].
  { unfold open_editor in Ho. destruct (flattenRules c (safeParseJson text)) as [rc|] eqn:E; [|done]. injection Ho as <-. split; [|done].
    unfold flattenRules in E. assert (∃ v, rc = flatten_groups c (entries_of v)) as [v ->].
    { exists (safeParseJson text). destruct (safeParseJson text); congruence. }
    split; [|apply flatten_removals]. eexists. apply flatten_groups_numbered. }
  assert (editor_ok e ∧ ((rules e = rules e0 ∧ value e = text) ∨ value e = serializeRules (rules e))) as [[(lo & _ & Hn & _) Hrm] Hw].
  { revert e Hr. apply rtc_ind_r; [by auto|]. intros e1 e2 _ Hs [H1 H2]. split; [by eapply step_editor_ok|].
    destruct (step_written e1 e2 Hs) as [[-> ->]|Hw]; [exact H2|by right]. }
  split_and!; [done|done|done|]. intros g k. apply nest_entries.
Qed.

(** *** Witnesses *)

Definition sample_rules : obj := [(js "vip", JObj [(js "+:gold", JStr (js "Gold")); (js "-:basic", JStr (js "remove"))])].

Lemma sample_rules_ok : special_ok sample_rules ∧ json_ok (JObj sample_rules).
Proof.
  assert (canonical [(js "+:gold", JStr (js "Gold")); (js "-:basic", JStr (js "remove"))]) as Hc.
  { apply canonical_plain; [apply (bool_decide_eq_true_1 (NoDup _)); vm_compute; reflexivity|]. repeat constructor. }
  split.
  - split; [apply canonical_plain; [apply NoDup_singleton|by repeat constructor]|]. constructor; [|constructor]. split; [done|].
    eexists. split; [reflexivity|]. split; [done|]. split; [exact Hc|].
    constructor; [|constructor; [|constructor]]; (split; [done|]); eexists; (split; [reflexivity|]); vm_compute; done.
  - apply (object_ok [js "vip"]); [done|apply NoDup_singleton| |].
    + constructor; [|constructor]. split; [reflexivity|by repeat constructor].
    + constructor; [|constructor]. apply (object_ok [js "+:gold"; js "-:basic"]); [done| | |].
      * apply (bool_decide_eq_true_1 (NoDup _)). vm_compute. reflexivity.
      * repeat constructor.
      * repeat constructor.
Qed.

Lemma special_rules_round_trip_witness :
  ∃ e, open_editor 0 (json_stringify (JObj sample_rules)) = Ret e ∧ json_parse (serializeRules (rules e)) = Some (JObj sample_rules).
Proof.
  assert (json_parse (json_stringify (JObj sample_rules)) = Some (JObj sample_rules)) as Hp by (apply json_parse_stringify, sample_rules_ok).
  assert (truthy (trim (json_stringify (JObj sample_rules))) = true) as Ht by (vm_compute; reflexivity).
  destruct (special_rules_round_trip 0 _ _ Hp Ht (proj1 sample_rules_ok) (proj2 sample_rules_ok)) as (e & H1 & _ & _ & H2).
  exists e. split; [exact H1|exact H2].
Defined.

Definition fresh_editor : SpecialEditor := {| counter := 0; rules := []; newGroupName := []; value := [] |}.

Lemma special_editor_invariant_witness :
  let e := updateRule (uid 1) (SetTarget (js "gold")) (addRuleToGroup (js "vip") fresh_editor) in
  NoDup (map _id (rules e)) ∧ value e = serializeRules (rules e).
Proof.
  assert (open_editor 0 [] = Ret fresh_editor) as Ho by reflexivity.
  assert (rtc special_step fresh_editor (updateRule (uid 1) (SetTarget (js "gold")) (addRuleToGroup (js "vip") fresh_editor))) as Hr.
  { eapply rtc_l; [apply step_add|]. eapply rtc_l; [apply step_target|]. apply rtc_refl. }
  destruct (special_editor_invariant 0 [] _ _ Ho Hr) as (H1 & _ & _ & _). split; [exact H1|reflexivity].
Defined.
