(* ===== verification/GroupRatioFacts.v ===== *)
(** * Facts about the visual editor of group prices

    A new group gets a fresh name and the search for it ends ([new_group_name_found]); the table shows what the options say
    and writes it back ([group_rows_round_trip]); in every run the rows keep distinct identities and the options are what the
    rows say ([group_table_invariant]); duplicates are found exactly ([duplicate_names_exact]); a smart group rotates over
    other existing groups only ([smart_group_sources]); moving an automatic group swaps it with its neighbour
    ([auto_group_moves]). *)

From stdpp Require Import relations.
From S2P Require Import Prelude JsString JsNumber JsNumberFacts Json JsonFacts JsonPretty Regex SettingsJson GroupRatio.

(** ** A fresh name *)

Lemma group_name_inj a b : group_name a = group_name b → a = b.
Proof. intros H. by apply app_inv_head, N_dec_inj in H. Qed.

Lemma fresh_index_spec fuel names i j : fresh_index fuel names i = Some j →
  (i ≤ j)%N ∧ group_name j ∉ names ∧ ∀ k, (i ≤ k < j)%N → group_name k ∈ names.
Proof.
  revert i. induction fuel as [|f IH]; intros i; cbn [fresh_index]; destruct (set_has (group_name i) names) eqn:E; try done.
  2: intros H; apply IH in H as (H1 & H2 & H3); split_and!; [lia|done|]; intros k Hk; destruct (decide (k = i)) as [->|];
     [by apply set_has_true in E|apply H3; lia].
  all: intros [= <-]; apply set_has_false in E; split_and!; [lia|done|lia].
Qed.

(** The names from [i] on that were found taken *)
Lemma fresh_index_none fuel names i : fresh_index fuel names i = None → ∀ d, d ≤ fuel → group_name (i + N.of_nat d) ∈ names.
Proof.
  revert i. induction fuel as [|f IH]; intros i; cbn [fresh_index]; destruct (set_has (group_name i) names) eqn:E; try done;
    intros H d Hd; apply set_has_true in E.
  - assert (d = 0) as -> by lia. by rewrite N.add_0_r.
  - destruct d as [|d]; [by rewrite N.add_0_r|]. replace (i + N.of_nat (S d))%N with (i + 1 + N.of_nat d)%N by lia. apply IH; [done|lia].
Qed.

(** More indices than names: one is free. *)
Lemma fresh_index_total names i : ∃ j, fresh_index (length names) names i = Some j.
Proof.
  destruct (fresh_index (length names) names i) as [j|] eqn:E; [by eexists|]. exfalso.
  pose proof (fresh_index_none _ _ _ E) as H.
  assert (NoDup (map (λ d, group_name (i + N.of_nat d)) (seq 0 (S (length names))))) as Hn.
  { apply NoDup_fmap_2_strong; [|apply NoDup_seq]. intros a b _ _ Hab. apply group_name_inj in Hab. lia. }
  assert (map (λ d, group_name (i + N.of_nat d)) (seq 0 (S (length names))) ⊆+ names) as Hsub.
  { apply NoDup_submseteq; [done|]. intros x Hx. apply elem_of_lmap in Hx as (d & -> & Hd). apply H. apply elem_of_seq in Hd. lia. }
  apply submseteq_length in Hsub. rewrite length_map, length_seq in Hsub. lia.
Qed.

(** ** Emitting rows *)

Lemma with_texts_here k v rest settings : with_texts ((k, v) :: rest) settings k = v.
Proof. unfold with_texts. cbn [find fst]. by rewrite bool_decide_eq_true_2. Qed.

Lemma with_texts_other k k' v rest settings : k' ≠ k → with_texts ((k, v) :: rest) settings k' = with_texts rest settings k'.
Proof. intros H. unfold with_texts. cbn [find fst]. by rewrite bool_decide_eq_false_2 by congruence. Qed.

Lemma usable_ne_ratio : USABLE_GROUPS ≠ GROUP_RATIO.
Proof. apply (bool_decide_eq_true_1 (USABLE_GROUPS ≠ GROUP_RATIO)). vm_compute. reflexivity. Qed.

(** The table after a change: the rows as they were typed, the options as they say, and the selected sources that are left *)
Definition emitted (next : list GroupPricingRow) (c : N) (t : GroupTable) : GroupTable :=
  drop_gone_sources (with_settings (serializeGroupPricingRows next) (with_rows next c t)).

(** Emitting always succeeds, and never replaces the rows by rows read from the options. *)
Lemma emit_rows next c t : emitRows next c t = Some (emitted next c t).
Proof.
  unfold emitRows, sync_rows, emitted. rewrite bool_decide_eq_true_2; [done|].
  unfold groupPricingSignature, sourceGroupPricingSignature, serializeGroupPricingRows. cbn [rows with_settings with_rows texts].
  destruct (serialized_maps next) as [g u]. rewrite with_texts_here, with_texts_other by exact usable_ne_ratio. by rewrite with_texts_here.
Qed.

(** ** Identities *)

Lemma row_id_inj a b : createGroupPricingId a = createGroupPricingId b → a = b.
Proof. intros H. by apply app_inv_head, N_dec_inj in H. Qed.

Definition numbered (c : N) (l : list GroupPricingRow) : Prop :=
  NoDup (map _id l) ∧ Forall (λ r, ∃ n, _id r = createGroupPricingId n ∧ (n ≤ c)%N) l.

Lemma numbered_sub c l l' : l `sublist_of` l' → numbered c l' → numbered c l.
Proof.
  intros Hs [Hn Hf]. split; [eapply sublist_NoDup; [exact Hn|by apply (fmap_sublist _id)]|].
  rewrite Forall_forall in Hf |- *. intros r Hr. apply Hf. by eapply elem_of_sublist.
Qed.

Lemma numbered_map c f l : (∀ r, _id (f r) = _id r) → numbered c l → numbered c (map f l).
Proof.
  intros Hf [Hn Ha]. split; [by rewrite map_map, (map_ext _ _ Hf)|]. apply Forall_map. eapply Forall_impl; [exact Ha|]. intros r. by rewrite Hf.
Qed.

Lemma numbered_snoc c l n d : numbered c l → numbered (c + 1) (l ++ [new_row (c + 1) n d]).
Proof.
  intros [Hn Hf]. split.
  - rewrite map_app. apply NoDup_app. split_and!; [done| |apply NoDup_singleton]. intros i Hi Hi'. apply list_elem_of_singleton in Hi' as ->.
    apply elem_of_lmap in Hi as (r & E & Hr). rewrite Forall_forall in Hf. destruct (Hf r Hr) as (k & Ek & Hk). rewrite Ek in E.
    apply row_id_inj in E. lia.
  - apply Forall_app. split; [eapply Forall_impl; [exact Hf|]; intros r (k & ? & ?); exists k; split; [done|lia]|].
    constructor; [|done]. exists (c + 1)%N. split; [done|lia].
Qed.

Lemma build_rows_numbered c rm um names : let (l, c') := build_rows c rm um names in
  (c ≤ c')%N ∧ numbered c' l ∧ Forall (λ r, ∀ n, _id r = createGroupPricingId n → (c < n)%N) l.
Proof.
  revert c. induction names as [|n names IH]; intros c; cbn [build_rows]; [split_and!; [done|split; [apply NoDup_nil_2|done]|done]|].
  specialize (IH (c + 1)%N). destruct (build_rows (c + 1) rm um names) as [l c']. destruct IH as (Hc & [Hn Hf] & Hg).
  split_and!; [lia| |].
  - split; [|constructor; [exists (c + 1)%N; split; [done|lia]|done]]. cbn [map _id]. apply NoDup_cons. split; [|done].
    intros Hi. apply elem_of_lmap in Hi as (r & E & Hr). rewrite Forall_forall in Hg. specialize (Hg r Hr (c + 1)%N). rewrite E in Hg.
    specialize (Hg eq_refl). lia.
  - constructor; [intros k E; apply row_id_inj in E; lia|]. eapply Forall_impl; [exact Hg|]. intros r Hr k Hk. specialize (Hr k Hk). lia.
Qed.

Lemma built_numbered c g u rc : buildGroupPricingRows c g u = Some rc → numbered (snd rc) (fst rc).
Proof.
  unfold buildGroupPricingRows. destruct (read_table g) as [rm|]; [|discriminate]. cbn [mbind option_bind].
  destruct (read_table u) as [um|]; [|discriminate]. cbn [mbind option_bind]. intros [= <-].
  pose proof (build_rows_numbered c rm um (array_of_set (obj_keys rm ++ obj_keys um))) as Hb. destruct (build_rows _ _ _ _). apply Hb.
Qed.

(** ** What is written *)

(** A row that is written under a name *)
Definition named (n : str) (r : GroupPricingRow) : bool := truthy (trim (name r)) && bool_decide (trim (name r) = n).

Lemma serialize_row_get acc r n :
  obj_get n (fst (serialize_row acc r)) = (if named n r then Some (JNum (saved_ratio (ratio r))) else obj_get n (fst acc)) ∧
  obj_get n (snd (serialize_row acc r)) = (if named n r && selectable r then Some (JStr (description r)) else obj_get n (snd acc)).
Proof.
  unfold serialize_row, named. destruct (truthy (trim (name r))); [|done]. cbn [negb fst snd andb].
  destruct (decide (trim (name r) = n)) as [<-|Hn].
  - rewrite bool_decide_eq_true_2 by done. rewrite obj_get_set_eq. cbn [andb]. destruct (selectable r); [by rewrite obj_get_set_eq|done].
  - rewrite (bool_decide_eq_false_2 _ Hn). cbn [andb]. rewrite obj_get_set_ne by congruence.
    destruct (selectable r); [by rewrite obj_get_set_ne by congruence|done].
Qed.

(** Under each name the last row of that name decides, and the last selectable one its description. *)
Lemma serialized_get l n :
  obj_get n (fst (serialized_maps l)) = (λ r, JNum (saved_ratio (ratio r))) <$> last (List.filter (named n) l) ∧
  obj_get n (snd (serialized_maps l)) = (λ r, JStr (description r)) <$> last (List.filter (λ r, named n r && selectable r) l).
Proof.
  unfold serialized_maps. induction l as [|r l [IH1 IH2]] using rev_ind; [done|]. rewrite fold_left_app. cbn [fold_left].
  destruct (serialize_row_get (fold_left serialize_row l ([], [])) r n) as [H1 H2]. rewrite H1, H2, IH1, IH2, !bfilter_app. cbn [List.filter].
  split; [destruct (named n r)|destruct (named n r && selectable r)]; by rewrite ?last_snoc, ?app_nil_r.
Qed.

(** ** Showing the options and writing them *)

Lemma saved_ratio_of_num x : json_num x = true → saved_ratio (string_of_num x) = x.
Proof.
  intros Hx. unfold saved_ratio, parseRatioDraft. rewrite trim_id by (apply trimmed_no_space, num_no_space; done).
  rewrite string_of_num_truthy by done. assert (number_of_string (string_of_num x) = x) as ->.
  { destruct x as [[]| | |s p e]; try discriminate Hx; [reflexivity|by apply number_of_string_of]. }
  rewrite bool_decide_eq_false_2; [|intros E; destruct (json_num_head x Hx) as (c & u & Hh & Hc); rewrite E in Hh; injection Hh as <- _;
    destruct Hc as [Hc|Hc]; vm_compute in Hc; discriminate Hc].
  cbn [negb orb]. assert (is_finite x = true) as -> by (by destruct x). done.
Qed.

(** The options as the server keeps them: ratios are numbers, descriptions are texts, names are trimmed. *)
Definition ratios_ok (o : obj) : Prop := ∀ n v, obj_get n o = Some v → trimmed n ∧ n ≠ [] ∧ ∃ x, v = JNum x ∧ json_num x = true.
Definition usable_ok (o : obj) : Prop := ∀ n v, obj_get n o = Some v → trimmed n ∧ n ≠ [] ∧ ∃ s, v = JStr s.

(** The ratio of a group that the options say to exist: 1 when only its description is there *)
Definition shown_ratio (rm um : obj) (n : str) : option json :=
  match obj_get n rm, obj_get n um with Some v, _ => Some v | None, Some _ => Some (JNum one) | None, None => None end.

Lemma named_plain n r : trimmed (name r) → name r ≠ [] → named n r = bool_decide (name r = n).
Proof. intros Ht Hn. unfold named. rewrite trim_id by done. by destruct (name r). Qed.

Lemma last_bind_none {A B} (f : A → B) l : last l ≫= (λ r, Some (f r)) = None → l = [].
Proof. intros H. apply last_None. by destruct (last l). Qed.

Lemma build_rows_get c rm um names n : ratios_ok rm → usable_ok um → NoDup names → Forall (λ m, m ≠ [] ∧ trimmed m) names →
  let l := fst (build_rows c rm um names) in
  last (List.filter (named n) l) ≫= (λ r, Some (JNum (saved_ratio (ratio r)))) =
    (if bool_decide (n ∈ names) then Some (default (JNum one) (obj_get n rm)) else None) ∧
  last (List.filter (λ r, named n r && selectable r) l) ≫= (λ r, Some (JStr (description r))) =
    (if bool_decide (n ∈ names) then obj_get n um else None).
Proof.
  intros Hr Hu. revert c. induction names as [|m names IH]; intros c Hn Hf; [done|]. apply NoDup_cons in Hn as [Hm Hn].
  apply Forall_cons in Hf as [[Hne Ht] Hf]. cbn [build_rows]. specialize (IH (c + 1)%N Hn Hf).
  destruct (build_rows (c + 1) rm um names) as [l c']. cbn [fst] in *. destruct IH as [IH1 IH2].
  cbn [List.filter]. rewrite !named_plain by done. cbn [name selectable]. destruct (decide (m = n)) as [<-|Hmn].
  - rewrite (bool_decide_eq_false_2 _ Hm) in IH1, IH2. rewrite !(bool_decide_eq_true_2 (m = m)), (bool_decide_eq_true_2 (m ∈ m :: names)) by (done || by left).
    rewrite (last_bind_none _ _ IH1), (last_bind_none _ _ IH2).
    cbn [andb]. split.
    + cbn [last mbind option_bind ratio]. f_equal. destruct (obj_get m rm) as [v|] eqn:E; [|reflexivity].
      destruct (Hr _ _ E) as (_ & _ & x & -> & Hx). cbn [formatRatioDraft default]. unfold formatRatioDraft, normalizeRatio. cbn [opt_number to_number].
      assert (is_finite x = true) as -> by (by destruct x). by rewrite saved_ratio_of_num.
    + destruct (obj_get m um) as [v|] eqn:E; [|reflexivity]. destruct (Hu _ _ E) as (_ & _ & s & ->). reflexivity.
  - rewrite (bool_decide_eq_false_2 _ Hmn). cbn [andb]. rewrite IH1, IH2. split;
      (destruct (decide (n ∈ names)) as [Hin|Hin]; [rewrite !bool_decide_eq_true_2; [done|by right|done]|
        rewrite !bool_decide_eq_false_2; [done|rewrite elem_of_cons; intros [?|?]; congruence|done]]).
Qed.

(** The table shows what the options say, and writes what it shows: opened on ratios and descriptions, its rows written
    back give every group the same ratio and the same description again (a group that had only a description gets the
    ratio 1, which is how it was shown), no group is added and none is lost. *)
Theorem group_rows_round_trip c settings rm um :
  read_table (settings GROUP_RATIO) = Some rm → read_table (settings USABLE_GROUPS) = Some um → ratios_ok rm → usable_ok um →
  ∃ t, open_table c settings = Some t ∧ NoDup (map _id (rows t)) ∧ ∀ n,
    obj_get n (fst (serialized_maps (rows t))) = shown_ratio rm um n ∧
    obj_get n (snd (serialized_maps (rows t))) = obj_get n um.
Proof.
  intros Hrt Hut Hr Hu. unfold open_table, buildGroupPricingRows. rewrite Hrt, Hut. cbn [mbind option_bind].
  set (names := array_of_set (obj_keys rm ++ obj_keys um)). pose proof (build_rows_numbered c rm um names) as Hid.
  pose proof (λ n, build_rows_get c rm um names n Hr Hu (array_of_set_NoDup _)) as Hg. destruct (build_rows c rm um names) as [l c'].
  cbn [fst snd] in *. eexists. split; [done|]. cbn [rows]. split; [apply Hid|]. intros n.
  assert (∀ m, m ∈ names ↔ (∃ v, obj_get m rm = Some v) ∨ (∃ v, obj_get m um = Some v)) as Hin.
  { intros m. unfold names. rewrite elem_of_array_of_set, elem_of_app. unfold obj_keys.
    assert (∀ o : obj, m ∈ map fst o ↔ ∃ v, obj_get m o = Some v) as H; [|by rewrite !H]. intros o. split.
    - intros Hm. destruct (obj_get m o) as [v|] eqn:E; [by eexists|]. by apply obj_get_fresh in E.
    - intros [v E]. by eapply obj_get_Some. }
  destruct (Hg n) as [H1 H2].
  { apply Forall_forall. intros m Hm. apply Hin in Hm as [[v E]|[v E]]; [destruct (Hr _ _ E) as (? & ? & _)|destruct (Hu _ _ E) as (? & ? & _)]; done. }
  destruct (serialized_get l n) as [S1 S2]. rewrite S1, S2. unfold shown_ratio.
  assert (∀ {A B} (f : A → B) (o : option A), f <$> o = o ≫= λ r, Some (f r)) as Hfm by (by intros ?? ? []). rewrite !Hfm, H1, H2.
  destruct (decide (n ∈ names)) as [Hn|Hn].
  - rewrite (bool_decide_eq_true_2 _ Hn). apply Hin in Hn as [[v E]|[v E]]; rewrite E; [done|]. by destruct (obj_get n rm).
  - rewrite (bool_decide_eq_false_2 _ Hn). destruct (obj_get n rm) eqn:E1; [destruct Hn; apply Hin; by eauto|].
    destruct (obj_get n um) eqn:E2; [destruct Hn; apply Hin; by eauto|done].
Qed.

(** Adding a group always ends and finds a name: the first [group_i] that no row has; the new row is the last one and all
    the others are kept as they were. *)
Theorem new_group_name_found t :
  ∃ i t', addRow t = Some t' ∧ (1 ≤ i)%N ∧ group_name i ∉ map name (rows t) ∧
    (∀ k, (1 ≤ k < i)%N → group_name k ∈ map name (rows t)) ∧
    rows t' = rows t ++ [new_row (counter t + 1) (group_name i) []].
Proof.
  unfold addRow. destruct (fresh_index_total (map name (rows t)) 1) as [i Hi]. rewrite length_map in Hi. rewrite Hi. cbn [mbind option_bind].
  rewrite emit_rows. destruct (fresh_index_spec _ _ _ _ Hi) as (H1 & H2 & H3). eexists i, _. by split_and!.
Qed.

(** ** Runs of the table *)

(** Everything the table lets a reader do, and a change of the options from outside *)
Inductive table_step : GroupTable → GroupTable → Prop :=
  | step_update id ch t t' : updateRow id ch t = Some t' → table_step t t'
  | step_ratio id v t t' : ratio_input id v t = Some t' → table_step t t'
  | step_blur r t t' : ratio_blur r t = Some t' → table_step t t'
  | step_add t t' : addRow t = Some t' → table_step t t'
  | step_remove id t t' : removeRow id t = Some t' → table_step t t'
  | step_toggle r b t : r ∈ rows t → table_step t (toggleSmartSource (_id r) b t)
  | step_smart_name n t : table_step t (setSmartGroupName n t)
  | step_apply t t' : applySmartGroup t = Some t' → table_step t t'
  | step_reload changes t t' : sync_rows (with_settings changes t) = Some t' → table_step t t'.

Definition table_ok (t : GroupTable) : Prop :=
  numbered (counter t) (rows t) ∧ ∀ id, id ∈ smartSourceIds t → id ∈ map _id (rows t).

Lemma gone_sources_ok t : numbered (counter t) (rows t) → table_ok (drop_gone_sources t).
Proof.
  intros Hn. split; [done|]. cbn [drop_gone_sources with_sources smartSourceIds rows]. intros id Hid.
  apply elem_of_bfilter in Hid as [_ Hid]. apply existsb_exists in Hid as (r & Hr & E). apply bool_decide_eq_true in E as <-.
  apply elem_of_lmap. exists r. split; [done|]. by apply list_elem_of_In.
Qed.

Lemma emitted_ok next c t t' : emitRows next c t = Some t' → numbered c next → table_ok t'.
Proof. rewrite emit_rows. intros [= <-] Hn. by apply gone_sources_ok. Qed.

Lemma on_row_id id f r : (∀ r, _id (f r) = _id r) → _id (on_row id f r) = _id r.
Proof. intros Hf. unfold on_row. destruct (bool_decide _); [apply Hf|done]. Qed.

Lemma update_ok id ch t t' : updateRow id ch t = Some t' → table_ok t → table_ok t'.
Proof.
  intros H [Hn _]. eapply emitted_ok; [exact H|]. apply numbered_map; [|done]. intros r. apply on_row_id. by destruct ch.
Qed.

Lemma apply_ok t t' : applySmartGroup t = Some t' → table_ok t → table_ok t'.
Proof.
  intros H Ht. unfold applySmartGroup in H. destruct (smartSources t) as [|s l]; [by injection H as <-|].
  destruct (negb _); [by injection H as <-|]. destruct (read_table (texts t SMART_RULES)) as [rules|]; [|done]. cbn [mbind option_bind] in H.
  destruct (find _ (rows t)) as [r|]; (eapply emitted_ok; [exact H|]).
  - apply numbered_map; [intros x; by apply on_row_id|apply Ht].
  - apply numbered_snoc, Ht.
Qed.

Lemma step_table_ok t t' : table_step t t' → table_ok t → table_ok t'.
Proof.
  intros H Ht. destruct H as [id ch t t' H|id v t t' H|r t t' H|t t' H|id t t' H|r b t Hr|n t|t t' H|ch t t' H].
  - by eapply update_ok.
  - unfold ratio_input in H. destruct (isRatioInputDraft v); [by eapply update_ok|by injection H as <-].
  - by eapply update_ok.
  - unfold addRow in H. destruct (fresh_index _ _ _) as [i|]; [|done]. eapply emitted_ok; [exact H|]. apply numbered_snoc, Ht.
  - eapply emitted_ok; [exact H|]. eapply numbered_sub; [apply bfilter_sublist|apply Ht].
  - destruct Ht as [Hn Hs]. split; [done|]. cbn [toggleSmartSource with_sources smartSourceIds rows]. intros id Hid. destruct b.
    + apply elem_of_set_add in Hid as [Hid| ->]; [by apply Hs|]. apply elem_of_lmap. by exists r.
    + apply elem_of_bfilter in Hid as [Hid _]. by apply Hs.
  - exact Ht.
  - by eapply apply_ok.
  - unfold sync_rows in H. destruct (bool_decide _); [injection H as <-; apply gone_sources_ok, Ht|].
    destruct (buildGroupPricingRows _ _ _) as [rc|] eqn:E; [|done]. injection H as <-. apply gone_sources_ok. cbn [with_rows counter rows].
    by apply built_numbered in E.
Qed.

(** The options hold what the rows say. *)
Definition written (t : GroupTable) : Prop :=
  texts t GROUP_RATIO = json_pretty (JObj (fst (serialized_maps (rows t)))) ∧
  texts t USABLE_GROUPS = json_pretty (JObj (snd (serialized_maps (rows t)))).

Lemma emitted_written next c t : written (emitted next c t) ∧ rows (emitted next c t) = next.
Proof.
  split; [|done]. unfold written, emitted, serializeGroupPricingRows. cbn [drop_gone_sources with_sources with_settings with_rows texts rows].
  destruct (serialized_maps next) as [g u]. cbn [fst snd]. split; [apply with_texts_here|].
  rewrite with_texts_other by exact usable_ne_ratio. apply with_texts_here.
Qed.

(** C18: In every run of the table, changes of the options from outside included, the rows have distinct identities and only
    rows that are there are selected as sources.  So editing a row always succeeds, changes that row alone, and leaves the
    options saying exactly what the rows say. *)
Theorem group_table_invariant c settings t0 t : open_table c settings = Some t0 → rtc table_step t0 t →
  NoDup (map _id (rows t)) ∧ (∀ id, id ∈ smartSourceIds t → id ∈ map _id (rows t)) ∧
  ∀ r ch, r ∈ rows t → ∃ t', updateRow (_id r) ch t = Some t' ∧ written t' ∧
    change_row ch r ∈ rows t' ∧ (∀ r', r' ∈ rows t → r' ≠ r → r' ∈ rows t').
Proof.
  intros Ho Hr. assert (table_ok t) as [[Hn Hf] Hs].
  { assert (table_ok t0) as H0.
    { unfold open_table in Ho. destruct (buildGroupPricingRows c (settings GROUP_RATIO) (settings USABLE_GROUPS)) as [rc|] eqn:E; [|discriminate Ho].
      injection Ho as <-. split; [by apply built_numbered in E|]. by intros id Hid%not_elem_of_nil. }
    clear Ho. induction Hr as [|t0 t1 t Hst _ IH]; [done|]. by apply IH, (step_table_ok t0). }
  split_and!; [done|done|]. intros r ch Hin. unfold updateRow. rewrite emit_rows.
  destruct (emitted_written (map (on_row (_id r) (change_row ch)) (rows t)) (counter t) t) as [Hw Hrows]. eexists. split; [done|]. split; [done|].
  rewrite Hrows. split.
  - apply elem_of_lmap. exists r. split; [|done]. unfold on_row. by rewrite bool_decide_eq_true_2.
  - intros r' Hr' Hne. apply elem_of_lmap. exists r'. split; [|done]. unfold on_row. rewrite bool_decide_eq_false_2; [done|].
    intros E. apply Hne. by apply (NoDup_map_inj _id (rows t)).
Qed.

(** ** Duplicates *)

Lemma count_up_keys n counts : map fst (count_up n counts) = if bool_decide (n ∈ map fst counts) then map fst counts else map fst counts ++ [n].
Proof.
  induction counts as [|[k c] counts IH]; [done|]. cbn [count_up map fst]. destruct (decide (k = n)) as [->|Hk].
  - rewrite (bool_decide_eq_true_2 (n = n)), bool_decide_eq_true_2 by (done || by left). done.
  - rewrite (bool_decide_eq_false_2 _ Hk). cbn [map fst]. rewrite IH. destruct (decide (n ∈ map fst counts)) as [Hn|Hn].
    + rewrite !bool_decide_eq_true_2; [done|by right|done].
    + rewrite !bool_decide_eq_false_2; [done|rewrite elem_of_cons; intros [?|?]; congruence|done].
Qed.

Lemma count_up_NoDup n counts : NoDup (map fst counts) → NoDup (map fst (count_up n counts)).
Proof.
  intros H. rewrite count_up_keys. destruct (bool_decide _) eqn:E; [done|]. apply bool_decide_eq_false in E.
  apply NoDup_app. split_and!; [done|set_solver|apply NoDup_singleton].
Qed.

Lemma count_up_elem n counts k c : NoDup (map fst counts) →
  (k, c) ∈ count_up n counts ↔ (k ≠ n ∧ (k, c) ∈ counts) ∨ (k = n ∧ ((∃ c0, (n, c0) ∈ counts ∧ c = S c0) ∨ (n ∉ map fst counts ∧ c = 1))).
Proof.
  induction counts as [|[q d] counts IH]; intros Hn; cbn [count_up]; [set_solver|]. cbn [map fst] in Hn |- *. apply NoDup_cons in Hn as [Hq Hn].
  destruct (decide (q = n)) as [->|Hqn].
  - rewrite (bool_decide_eq_true_2 (n = n)) by done. rewrite !elem_of_cons. assert (∀ x, (n, x) ∈ counts → False) as Hno.
    { intros x Hx. apply Hq, elem_of_lmap. by exists (n, x). }
    split.
    + intros [E|Hin]; [simplify_eq; right; split; [done|]; left; exists d; split; [by left|done]|].
      left. split; [|by right]. intros ->. by apply Hno in Hin.
    + intros [[Hk [E|Hin]]|[-> [(c0 & Hin & ->)|[Hin _]]]]; [simplify_eq|by right| |destruct Hin; by left].
      apply elem_of_cons in Hin as [E|Hin]; [simplify_eq; by left|by apply Hno in Hin].
  - rewrite (bool_decide_eq_false_2 _ Hqn). rewrite !elem_of_cons, IH by done. split.
    + intros [E|[[Hk Hin]|[-> [(c0 & Hin & ->)|[Hin ->]]]]]; simplify_eq; [left; by split; [|left]|left; by split; [|right]| |].
      * right. split; [done|]. left. exists c0. split; [by right|done].
      * right. split; [done|]. right. split; [|done]. intros [?|?]; congruence.
    + intros [[Hk [E|Hin]]|[-> [(c0 & Hin & ->)|[Hin ->]]]]; [by left|right; by left|..].
      * apply elem_of_cons in Hin as [E|Hin]; [simplify_eq|]. right. right. split; [done|]. left. by exists c0.
      * right. right. split; [done|]. right. split; [|done]. intros H. destruct Hin. by right.
Qed.

Lemma counts_spec l : NoDup (map fst (fold_left count_row l [])) ∧
  ∀ n c, (n, c) ∈ fold_left count_row l [] ↔ c = length (List.filter (named n) l) ∧ 1 ≤ c.
Proof.
  induction l as [|r l [IHn IH]] using rev_ind.
  { split; [apply NoDup_nil_2|]. intros n c. split; [by intros ?%not_elem_of_nil|]. intros [-> H]. cbn in H. lia. }
  rewrite fold_left_app. cbn [fold_left]. set (counts := fold_left count_row l []) in *. unfold count_row. destruct (truthy (trim (name r))) eqn:Et; cbn [negb].
  - split; [by apply count_up_NoDup|]. intros n c. rewrite count_up_elem by done. rewrite bfilter_app. cbn [List.filter].
    assert (named n r = bool_decide (trim (name r) = n)) as -> by (unfold named; by rewrite Et). destruct (decide (trim (name r) = n)) as [<-|Hn].
    + rewrite (bool_decide_eq_true_2 (trim (name r) = trim (name r))), length_app by done. cbn [length]. split.
      * intros [[? _]|[_ [(c0 & Hin & ->)|[Hin ->]]]]; [done|apply IH in Hin as [-> _]; lia|].
        assert (length (List.filter (named (trim (name r))) l) = 0) as ->; [|lia].
        destruct (length (List.filter (named (trim (name r))) l)) as [|k] eqn:E; [done|]. exfalso. apply Hin, elem_of_lmap.
        exists (trim (name r), S k). split; [done|]. apply IH. split; [done|lia].
      * intros [-> _]. right. split; [done|]. destruct (length (List.filter (named (trim (name r))) l)) as [|k] eqn:E.
        -- right. split; [|lia]. intros Hin. apply elem_of_lmap in Hin as ([q c0] & Eq & Hin). cbn [fst] in Eq. subst q. apply IH in Hin as [-> ?]. lia.
        -- left. exists (S k). split; [apply IH; split; [done|lia]|lia].
    + rewrite (bool_decide_eq_false_2 _ Hn), app_nil_r. rewrite <- IH. split; [by intros [[_ ?]|[-> _]]|]. intros Hin. left. split; [congruence|done].
  - split; [done|]. intros n c. rewrite IH, bfilter_app. cbn [List.filter].
    assert (named n r = false) as -> by (unfold named; by rewrite Et). by rewrite app_nil_r.
Qed.

(** The complaint about duplicate names lists exactly the names that at least two rows would be written under, each once. *)
Theorem duplicate_names_exact l : NoDup (duplicateNames l) ∧ ∀ n, n ∈ duplicateNames l ↔ 2 ≤ length (List.filter (named n) l).
Proof.
  destruct (counts_spec l) as [Hn H]. unfold duplicateNames. split.
  - eapply sublist_NoDup; [exact Hn|]. apply (fmap_sublist fst), bfilter_sublist.
  - intros n. rewrite elem_of_lmap. split.
    + intros ([k c] & -> & Hin). apply elem_of_bfilter in Hin as [Hin Hc]. apply H in Hin as [-> _]. cbn [fst snd] in *. apply Nat.ltb_lt in Hc. lia.
    + intros Hc. exists (n, length (List.filter (named n) l)). split; [done|]. apply elem_of_bfilter. split; [apply H; split; [done|lia]|].
      apply Nat.ltb_lt. cbn [snd]. lia.
Qed.

(** ** Smart groups *)

Lemma smart_ne : SMART_RULES ≠ GROUP_RATIO ∧ SMART_RULES ≠ USABLE_GROUPS.
Proof. split; [apply (bool_decide_eq_true_1 (SMART_RULES ≠ GROUP_RATIO))|apply (bool_decide_eq_true_1 (SMART_RULES ≠ USABLE_GROUPS))]; vm_compute; reflexivity. Qed.

Lemma emitted_smart next c t : texts (emitted next c t) SMART_RULES = texts t SMART_RULES.
Proof.
  unfold emitted, serializeGroupPricingRows. cbn [drop_gone_sources with_sources with_settings with_rows texts].
  destruct (serialized_maps next) as [g u]. by rewrite !with_texts_other by apply smart_ne.
Qed.

(** Applying a smart group writes a rule for it and keeps the other rules; the groups it rotates over are groups of the
    table with a name, never the smart group itself, and afterwards the table has a selectable group of that name. *)
Theorem smart_group_sources t rules : let n := trim (smartGroupName t) in
  n ≠ [] → smartSources t ≠ [] → read_table (texts t SMART_RULES) = Some rules →
  ∃ t' sources, applySmartGroup t = Some t' ∧ sources ≠ [] ∧
    texts t' SMART_RULES = json_pretty (JObj (obj_set n (JArr (map JStr sources)) rules)) ∧
    (∀ s, s ∈ sources → s ≠ [] ∧ s ≠ n ∧ ∃ r, r ∈ rows t ∧ trim (name r) = s ∧ _id r ∈ smartSourceIds t) ∧
    (∃ r, r ∈ rows t' ∧ trim (name r) = n ∧ selectable r = true) ∧ written t'.
Proof.
  intros n Hn Hs Hr. set (sources := map (λ r, trim (name r)) (smartSources t)).
  assert (∀ s, s ∈ sources → s ≠ [] ∧ s ≠ n ∧ ∃ r, r ∈ rows t ∧ trim (name r) = s ∧ _id r ∈ smartSourceIds t) as Hsrc.
  { intros s Hin. apply elem_of_lmap in Hin as (r & -> & Hin). apply elem_of_bfilter in Hin as [Hin Hc].
    rewrite !andb_true_iff, negb_true_iff, bool_decide_eq_true, bool_decide_eq_false in Hc. destruct Hc as [[Hid Ht] Hne].
    split_and!; [by destruct (trim (name r))|done|by exists r]. }
  assert (sources ≠ []) as Hne by (unfold sources; by destruct (smartSources t)).
  unfold applySmartGroup. fold n. assert (truthy n = true) as -> by (by destruct n). rewrite Hr. cbn [negb mbind option_bind].
  destruct (smartSources t) as [|s0 l]; [done|]. fold sources.
  destruct (find (λ r, bool_decide (trim (name r) = n)) (rows t)) as [r|] eqn:Ef; rewrite emit_rows; eexists _, sources; (split; [reflexivity|]);
    (split; [done|]); (split; [rewrite emitted_smart; apply with_texts_here|]); (split; [done|]); (split; [|apply emitted_written]).
  - apply find_some in Ef as [Hin E]. apply list_elem_of_In in Hin. apply bool_decide_eq_true in E. rewrite (proj2 (emitted_written _ _ _)).
    eexists. split; [apply elem_of_lmap; exists r; split; [reflexivity|done]|]. unfold on_row. by rewrite bool_decide_eq_true_2.
  - rewrite (proj2 (emitted_written _ _ _)). eexists. split; [apply elem_of_app; right; apply list_elem_of_singleton; reflexivity|].
    split; [|done]. cbn [new_row name]. unfold n. apply trim_idemp.
Qed.

(** ** The order of automatic assignment *)

(** Moving a group swaps it with its neighbour and leaves the rest; it does nothing exactly when there is no neighbour. *)
Lemma auto_group_moves i dir l :
  match moved i dir l with
  | Some l' => ∃ j, new_index i dir = Some j ∧ l' ≡ₚ l ∧ l' !! i = l !! j ∧ l' !! j = l !! i ∧ (∀ k, k ≠ i → k ≠ j → l' !! k = l !! k)
  | None => length l ≤ i ∨ (dir = Up ∧ i = 0) ∨ (dir = Down ∧ length l ≤ S i)
  end.
Proof.
  unfold moved. destruct (new_index i dir) as [j|] eqn:Ej.
  2:{ right. left. destruct dir, i; try discriminate Ej. done. }
  cbn [mbind option_bind]. assert (j ≠ i) as Hji by (destruct dir, i; cbn in Ej; simplify_eq; lia).
  destruct (Nat.ltb_spec j (length l)) as [Hj|Hj].
  - destruct (l !! i) as [a|] eqn:Ea; [|left; by apply lookup_ge_None]. destruct (lookup_lt_is_Some_2 _ _ Hj) as [b Eb]. rewrite Eb.
    apply lookup_lt_Some in Ea as Hi. exists j. split_and!; [done| | | |].
    + by apply Permutation_insert_swap.
    + rewrite list_lookup_insert_ne by done. by rewrite list_lookup_insert_eq.
    + by rewrite list_lookup_insert_eq by (by rewrite length_insert).
    + intros k H1 H2. by rewrite !list_lookup_insert_ne by congruence.
  - destruct dir; cbn in Ej; [left|simplify_eq; right; right; by split]. destruct i; [discriminate Ej|]. simplify_eq. lia.
Qed.

(** ** Witnesses *)

Definition sample_settings : str → str :=
  with_texts [(GROUP_RATIO, json_pretty (JObj [(js "vip", JNum (num_of_Z 2))])); (USABLE_GROUPS, json_pretty (JObj [(js "vip", JStr (js "VIP"))]))] (λ _, []).

Lemma sample_group_ok v : json_ok v → json_ok (JObj [(js "vip", v)]).
Proof.
  intros Hv. apply (object_ok [js "vip"]); [done|apply NoDup_singleton| |].
  - constructor; [|constructor]. split; [reflexivity|by repeat constructor].
  - by constructor.
Qed.

Lemma group_rows_round_trip_witness :
  ∃ t, open_table 0 sample_settings = Some t ∧ obj_get (js "vip") (fst (serialized_maps (rows t))) = Some (JNum (num_of_Z 2)).
Proof.
  assert (read_table (sample_settings GROUP_RATIO) = Some [(js "vip", JNum (num_of_Z 2))]) as Hr.
  { unfold sample_settings. rewrite with_texts_here. apply read_written, sample_group_ok. constructor. reflexivity. }
  assert (read_table (sample_settings USABLE_GROUPS) = Some [(js "vip", JStr (js "VIP"))]) as Hu.
  { unfold sample_settings. rewrite with_texts_other by exact usable_ne_ratio. rewrite with_texts_here. apply read_written, sample_group_ok. by repeat constructor. }
  assert (trimmed (js "vip") ∧ js "vip" ≠ []) as [Ht Hn] by (split; [by split|done]).
  assert (ratios_ok [(js "vip", JNum (num_of_Z 2))]) as Hro.
  { intros n v E. apply obj_get_elem, list_elem_of_singleton in E. injection E as -> ->. split_and!; [done|done|]. eexists. split; reflexivity. }
  assert (usable_ok [(js "vip", JStr (js "VIP"))]) as Huo.
  { intros n v E. apply obj_get_elem, list_elem_of_singleton in E. injection E as -> ->. split_and!; [done|done|]. by eexists. }
  destruct (group_rows_round_trip 0 sample_settings _ _ Hr Hu Hro Huo) as (t & H1 & _ & H2). exists t. split; [exact H1|].
  rewrite (proj1 (H2 (js "vip"))). reflexivity.
Defined.

Definition empty_table : GroupTable := {| counter := 0; rows := []; smartGroupName := js "smart"; smartSourceIds := []; texts := λ _, [] |}.

Definition two_groups : GroupTable :=
  {| counter := 2; rows := [new_row 1 (js "a") []; new_row 2 (js "b") []]; smartGroupName := js "smart";
     smartSourceIds := [createGroupPricingId 1; createGroupPricingId 2]; texts := λ _, [] |}.

Lemma group_table_invariant_witness :
  ∃ t', addRow empty_table = Some t' ∧ NoDup (map _id (rows t')).
Proof.
  assert (open_table 0 (λ _, []) = Some empty_table) as Ho by reflexivity.
  destruct (addRow empty_table) as [t'|] eqn:E; [|vm_compute in E; discriminate E]. exists t'. split; [reflexivity|].
  assert (rtc table_step empty_table t') as Hr by (eapply rtc_l; [apply step_add; exact E|apply rtc_refl]).
  exact (proj1 (group_table_invariant 0 _ _ _ Ho Hr)).
Defined.

Lemma smart_group_sources_witness :
  ∃ t' sources, applySmartGroup two_groups = Some t' ∧ sources ≠ [] ∧ ∀ s, s ∈ sources → s ≠ js "smart".
Proof.
  assert (trim (smartGroupName two_groups) ≠ []) as Hn by done.
  assert (smartSources two_groups ≠ []) as Hs by (vm_compute; discriminate).
  assert (read_table (texts two_groups SMART_RULES) = Some []) as Hr by reflexivity.
  destruct (smart_group_sources two_groups [] Hn Hs Hr) as (t' & sources & H1 & H2 & _ & H3 & _).
  exists t', sources. split; [exact H1|]. split; [exact H2|]. intros s Hin. exact (proj1 (proj2 (H3 s Hin))).
Defined.

Example two_groups_no_duplicates : duplicateNames (rows two_groups) = [].
Proof. vm_compute. reflexivity. Qed.

(** The names that are taken are compared as they were typed, and written without the blanks around them: a row [group_1] with a
    blank behind it does not stop a new group from being called [group_1]. *)
Example added_group_can_be_a_duplicate :
  let t := {| counter := 1; rows := [new_row 1 (js "group_1 ") []]; smartGroupName := []; smartSourceIds := []; texts := λ _, [] |} in
  match addRow t with Some t' => duplicateNames (rows t') = [js "group_1"] | None => False end.
Proof. vm_compute. reflexivity. Qed.
