(* ===== verification/Charts.v ===== *)
(** * Dashboard charts ([features/dashboard/lib/charts.ts], [formatChartTime] of [lib/time.ts])

    The server returns usage per hour, user and model; the dashboard adds it up per time point and per
    model, ranks, keeps the first few and lumps the rest together as [Other], and turns the result
    into the data of five charts for models and two for users.

    Modelled are the values of the charts, their totals, colours and tooltips; the fixed drawing
    options are not.  Parameters: what dayjs prints ([formatMD], [formatHH], [addDays]), the
    reader's locale ([localeCompare], [toLocaleString], [formatInt]), the translation [tt], the colours of the
    theme and of the drawing library, the stored currency settings. *)

From S2P Require Import Prelude JsString JsNumber JsMap Currency.

Inductive TimeGranularity := Hour | Day | Week.

#[export] Instance granularity_eq : EqDecision TimeGranularity.
Proof. solve_decision. Defined.

Record QuotaDataItem := {
  username : option str;
  model_name : option str;
  created_at : num;
  token_used : option num;
  count : option num;
  quota : option num }.

(** [Number(x) || 0] of an optional number *)
Definition number_or_zero (x : option num) : num := or_zero (default S754_nan x).

(** [x || fallback] of an optional string *)
Definition name_or (x : option str) (fallback : str) : str :=
  match x with Some s => if truthy s then s else fallback | None => fallback end.

Record Stats := { s_quota : num; s_count : num; s_tokens : num }.

Definition no_stats : Stats := {| s_quota := pzero; s_count := pzero; s_tokens := pzero |}.

Definition TimeModelMap := list (str * list (str * Stats)).
Definition ModelTotals := list (str * Stats).

Definition MAX_CHART_TREND_POINTS : nat := 7.
Definition MAX_TOOLTIP_MODELS : nat := 15.
Definition MAX_AREA_MODELS : nat := 15.
Definition MAX_TREND_MODELS : nat := 20.
Definition MAX_RANK_MODELS : nat := 20.

(** [(a, b) => f(b) - f(a)] *)
Definition descending {A} (f : A → num) (a b : A) : Z := num_sign (nsub (f b) (f a)).

(** [xs.reduce((sum, x) => sum + f(x), 0)] *)
Definition sum_by {A} (f : A → num) (l : list A) : num := fold_left (λ sum x, nadd sum (f x)) l pzero.

(** ** Rows *)

Record PieValue := { p_type : str; p_value : num }.
Record UsageValue := { u_Time : str; u_Model : str; u_rawQuota : num; u_Usage : num; u_TimeSum : num }.
Record CountValue := { c_Time : str; c_Model : str; c_Count : num }.
Record RankValue := { r_Model : str; r_Count : num }.
Record UserRankValue := { ur_User : str; ur_rawQuota : num; ur_Usage : num }.
Record UserTrendValue := { ut_Time : str; ut_User : str; ut_rawQuota : num; ut_Usage : num }.

(** A value of a tooltip is a number until it is formatted. *)
Inductive TipValue := TNum (x : num) | TText (s : str).

Record TooltipDatum := { d_TimeSum : option num; d_rawQuota : option num }.

Record TooltipLineItem := {
  t_key : str;
  t_value : TipValue;
  t_datum : option TooltipDatum;
  t_shapeFill : option str }.

Definition tip_number (v : TipValue) : num := match v with TNum x => x | TText s => number_of_string s end.

Definition with_value (i : TooltipLineItem) (s : str) : TooltipLineItem := {|
  t_key := t_key i; t_value := TText s; t_datum := t_datum i; t_shapeFill := t_shapeFill i |}.

Record ModelColor := { domain : list str; range : list str }.

Record ProcessedChartData := {
  spec_pie : list PieValue;
  spec_line : list UsageValue;
  spec_area : list UsageValue;
  spec_model_line : list CountValue;
  spec_rank_bar : list RankValue;
  totalQuotaDisplay : str;
  totalCountDisplay : str;
  modelColor : option ModelColor }.

Record ProcessedUserChartData := {
  spec_user_rank : list UserRankValue;
  spec_user_trend : list UserTrendValue;
  user_subtext : str;
  user_colors : list str }.

(** An entry of the drawing library's colour schemes. *)
Record DataScheme := { maxDomainLength : option nat; scheme : list str }.

Section charts.
Context (formatMD formatHH : num → str) (addDays : num → Z → num).
Context (localeCompare : str → str → Z) (toLocaleString formatInt : num → str).
Context (stored : option PartialCurrencyConfig) (tt : str → str).
Context (computedColors : list str) (scheme0 : DataScheme) (schemes : list DataScheme).

(** ** Time points *)

Definition formatChartTime (timestamp : num) (granularity : TimeGranularity) : str :=
  let d := nmul timestamp (num_of_Z 1000) in
  let result := formatMD d in
  match granularity with
  | Hour => result ++ js " " ++ formatHH d ++ js ":00"
  | Week => result ++ js " - " ++ formatMD (addDays d 6)
  | Day => result
  end.

(** ** Colours *)

(** The theme's colours, of the custom properties as the browser computed them. *)
Definition getThemeChartColors : list str := List.filter truthy (map trim computedColors).

(** [Array.from({ length }, (_, index) => colors[index % colors.length])] *)
Definition cycle_colors (length : nat) (colors : list str) : list str :=
  map (λ index, nth (index mod List.length colors) colors []) (seq 0 length).

Definition getVChartDefaultColors (domainLength : nat) : list str :=
  let themeColors := getThemeChartColors in
  if decide (0 < length themeColors) then cycle_colors (domainLength `max` length themeColors) themeColors
  else
    match List.find (λ item, match maxDomainLength item with
                             | None => true
                             | Some n => bool_decide (n = 0) || bool_decide (domainLength ≤ n)
                             end) (scheme0 :: schemes) with
    | Some item => scheme item
    | None => scheme (List.last schemes scheme0)
    end.

(** ** Amounts *)

Definition renderQuotaCompat (rawQuota : num) (digits : nat) : str :=
  let '(config, meta) := getCurrencyDisplay stored in
  let show (rate : num) (symbol : str) : str :=
    let usd := ndiv rawQuota (quotaPerUnit config) in
    let value := nmul usd rate in
    let fixed := to_fixed digits value in
    if num_eqb (parse_float fixed) pzero && nlt pzero rawQuota && nlt pzero value
    then symbol ++ to_fixed digits (pow10 (- Z.of_nat digits))
    else symbol ++ fixed in
  match meta with
  | MTokens _ => toLocaleString rawQuota
  | MCurrency symbol _ rate | MCustom symbol rate => show rate symbol
  end.

Definition formatQuotaValue (value : num) : str := renderQuotaCompat value 4.
Definition formatQuotaTotal (value : num) : str := renderQuotaCompat value 2.

Definition otherLabel : str := tt (js "Other").

(** ** Tooltips *)

Definition isOtherTooltipKey (key : str) : bool := bool_decide (key = js "Other") || bool_decide (key = otherLabel).

(** [Number(item.value) || 0] *)
Definition tip_amount (i : TooltipLineItem) : num := or_zero (tip_number (t_value i)).

(** The models by descending value, then the lumped rest. *)
Definition order_tooltip (array : list TooltipLineItem) : list TooltipLineItem * list TooltipLineItem :=
  (array_sort (descending tip_amount) (List.filter (λ i, negb (isOtherTooltipKey (t_key i))) array),
   List.filter (λ i, isOtherTooltipKey (t_key i)) array).

(** [TimeSum] of the last row that has one. *)
Definition time_sum (array : list TooltipLineItem) : num :=
  fold_left (λ sum i,
    match t_datum i ≫= d_TimeSum with
    | Some v => if num_truthy v then v else sum
    | None => sum
    end) array pzero.

Definition total_line (text : str) : TooltipLineItem := {|
  t_key := tt (js "Total:"); t_value := TText text; t_datum := None; t_shapeFill := None |}.

(** [makeTooltipDimensionUpdateContent]; formatting changes the rows in place, so that the rows kept below
    are formatted ones. *)
Definition usage_tooltip (otherTooltipColor : str) (collapseOverflow : bool) (array : list TooltipLineItem)
    : list TooltipLineItem :=
  let '(modelItems, otherItems) := order_tooltip array in
  let sum := time_sum (modelItems ++ otherItems) in
  let formatted := map (λ i, with_value i (formatQuotaValue (tip_amount i))) in
  let array := formatted (modelItems ++ otherItems) in
  let array :=
    if collapseOverflow && bool_decide (MAX_TOOLTIP_MODELS < length array) then
      let visible := take MAX_TOOLTIP_MODELS (formatted modelItems) in
      let otherSum := sum_by (λ i, match t_datum i with Some d => number_or_zero (d_rawQuota d) | None => pzero end)
                        (drop MAX_TOOLTIP_MODELS modelItems ++ otherItems) in
      visible ++ [{| t_key := otherLabel; t_value := TText (formatQuotaValue otherSum); t_datum := None;
                     t_shapeFill := Some otherTooltipColor |}]
    else array in
  total_line (formatQuotaValue sum) :: array.

(** [updateContent] of the call trend *)
Definition count_tooltip (array : list TooltipLineItem) : list TooltipLineItem :=
  let '(modelItems, otherItems) := order_tooltip array in
  let array := modelItems ++ otherItems in
  total_line (formatInt (sum_by tip_amount array)) :: map (λ i, with_value i (formatInt (tip_amount i))) array.

(** ** Aggregation *)

Section model_charts.
Context (timeGranularity : TimeGranularity).

Definition time_key (item : QuotaDataItem) : str := formatChartTime (created_at item) timeGranularity.
Definition model_key (item : QuotaDataItem) : str := name_or (model_name item) (js "Unknown").
Definition user_key (item : QuotaDataItem) : str := name_or (username item) (js "unknown").

Definition add_stats (existing : Stats) (item : QuotaDataItem) : Stats := {|
  s_quota := nadd (s_quota existing) (number_or_zero (quota item));
  s_count := nadd (s_count existing) (number_or_zero (count item));
  s_tokens := nadd (s_tokens existing) (number_or_zero (token_used item)) |}.

(** The body of [data.forEach]: the inner map is changed in place. *)
Definition add_item (maps : TimeModelMap * ModelTotals) (item : QuotaDataItem) : TimeModelMap * ModelTotals :=
  let '(timeModelMap, modelTotalsMap) := maps in
  let timeKey := time_key item in
  let model := model_key item in
  let timeModelMap := if mhas timeModelMap timeKey then timeModelMap else mset timeModelMap timeKey [] in
  let modelMap := default [] (mget timeModelMap timeKey) in
  let existing := default no_stats (mget modelMap model) in
  let modelMap := mset modelMap model (add_stats existing item) in
  let totalExisting := default no_stats (mget modelTotalsMap model) in
  (mset timeModelMap timeKey modelMap, mset modelTotalsMap model (add_stats totalExisting item)).

Definition aggregate (data : list QuotaDataItem) : TimeModelMap * ModelTotals := fold_left add_item data ([], []).

(** [timeModelMap.get(time)?.get(model)] *)
Definition stats_at (timeModelMap : TimeModelMap) (time model : str) : option Stats :=
  mget timeModelMap time ≫= λ modelMap, mget modelMap model.

Definition interval_sec : Z :=
  match timeGranularity with Week => 604800 | Day => 86400 | Hour => 3600 end.

(** [Math.max(...xs)] *)
Definition math_max_all (xs : list num) : num := fold_left math_max xs (S754_infinity true).

Definition fillTimePoints (data : list QuotaDataItem) (times : list str) : list str :=
  if decide (MAX_CHART_TREND_POINTS ≤ length times) then times
  else
    let lastTime := math_max_all (map (λ item, or_zero (created_at item)) data) in
    map (λ i, formatChartTime
                (nsub lastTime (nmul (num_of_Z (Z.of_nat (MAX_CHART_TREND_POINTS - 1 - i))) (num_of_Z interval_sec)))
                timeGranularity)
        (seq 0 MAX_CHART_TREND_POINTS).

(** [chartTimes]: the time points of all time charts. *)
Definition chart_times (data : list QuotaDataItem) : list str :=
  fillTimePoints data (array_sort str_cmp (map fst (fst (aggregate data)))).

Definition sorted_models (modelTotalsMap : ModelTotals) : list str := array_sort str_cmp (map fst modelTotalsMap).

(** ** Values of the charts *)

Definition pie_values (modelTotalsMap : ModelTotals) : list PieValue :=
  array_sort (descending p_value)
    (map (λ '(model, stats), {| p_type := model; p_value := or_zero (s_count stats) |}) modelTotalsMap).

(** [Number(stats?.quota) || 0] *)
Definition quota_at (timeModelMap : TimeModelMap) (time model : str) : num :=
  number_or_zero (s_quota <$> stats_at timeModelMap time model).

Definition count_at (timeModelMap : TimeModelMap) (time model : str) : num :=
  number_or_zero (s_count <$> stats_at timeModelMap time model).

(** Cents of the amount. *)
Definition usage_of (rawQuota : num) : num :=
  let usd := if num_truthy rawQuota then ndiv rawQuota (quotaPerUnit (fst (getCurrencyDisplay stored))) else pzero in
  if num_truthy usd then number_of_string (to_fixed 2 usd) else pzero.

Definition by_time (a b : UsageValue) : Z := localeCompare (u_Time a) (u_Time b).

Definition line_values_at (timeModelMap : TimeModelMap) (models : list str) (time : str) : list UsageValue :=
  let timeData := map (λ model, let rawQuota := quota_at timeModelMap time model in
    {| u_Time := time; u_Model := model; u_rawQuota := rawQuota; u_Usage := usage_of rawQuota; u_TimeSum := pzero |})
    models in
  let timeSum := sum_by u_rawQuota timeData in
  map (λ item, {| u_Time := u_Time item; u_Model := u_Model item; u_rawQuota := u_rawQuota item;
                  u_Usage := u_Usage item; u_TimeSum := timeSum |})
    (array_sort (descending u_rawQuota) timeData).

Definition line_values (timeModelMap : TimeModelMap) (models chartTimes : list str) : list UsageValue :=
  array_sort by_time (flat_map (line_values_at timeModelMap models) chartTimes).

(** Models with their metric, by descending metric. *)
Definition ranked (metric : Stats → num) (modelTotalsMap : ModelTotals) : list RankValue :=
  array_sort (descending r_Count)
    (map (λ '(model, stats), {| r_Model := model; r_Count := or_zero (metric stats) |}) modelTotalsMap).

Definition top_area_models (modelTotalsMap : ModelTotals) : list str :=
  array_of_set (map r_Model (take MAX_AREA_MODELS (ranked s_quota modelTotalsMap))).

Record Bucket := { b_rawQuota : num; b_usage : num }.

Definition area_values_at (timeModelMap : TimeModelMap) (topAreaModels models : list str) (time : str)
    : list UsageValue :=
  let '(buckets, timeSum) := fold_left (λ '(buckets, timeSum) model,
    let rawQuota := quota_at timeModelMap time model in
    let usage := usage_of rawQuota in
    let key := if set_has model topAreaModels then model else otherLabel in
    let prev := default {| b_rawQuota := pzero; b_usage := pzero |} (mget buckets key) in
    (mset buckets key {| b_rawQuota := nadd (b_rawQuota prev) rawQuota;
                         b_usage := number_of_string (to_fixed 2 (nadd (b_usage prev) usage)) |},
     nadd timeSum rawQuota)) models ([], pzero) in
  map (λ '(model, vals), {| u_Time := time; u_Model := model; u_rawQuota := b_rawQuota vals;
                            u_Usage := b_usage vals; u_TimeSum := timeSum |}) buckets.

Definition area_values (timeModelMap : TimeModelMap) (topAreaModels models chartTimes : list str) : list UsageValue :=
  array_sort by_time (flat_map (area_values_at timeModelMap topAreaModels models) chartTimes).

Definition model_line_values_at (timeModelMap : TimeModelMap) (topTrendModels otherTrendModels : list str) (time : str)
    : list CountValue :=
  map (λ model, {| c_Time := time; c_Model := model; c_Count := count_at timeModelMap time model |}) topTrendModels ++
  (if decide (0 < length otherTrendModels)
   then [{| c_Time := time; c_Model := otherLabel; c_Count := sum_by (count_at timeModelMap time) otherTrendModels |}]
   else []).

Definition model_line_values (timeModelMap : TimeModelMap) (modelTotalsMap : ModelTotals) (chartTimes : list str)
    : list CountValue :=
  let rankedTrendModels := map r_Model (ranked s_count modelTotalsMap) in
  let topTrendModels := take MAX_TREND_MODELS rankedTrendModels in
  let otherTrendModels := drop MAX_TREND_MODELS rankedTrendModels in
  array_sort (λ a b, localeCompare (c_Time a) (c_Time b))
    (flat_map (model_line_values_at timeModelMap topTrendModels otherTrendModels) chartTimes).

Definition rank_values (modelTotalsMap : ModelTotals) : list RankValue :=
  let allRankValues := ranked s_count modelTotalsMap in
  if decide (MAX_RANK_MODELS < length allRankValues)
  then take MAX_RANK_MODELS allRankValues ++
       [{| r_Model := otherLabel; r_Count := sum_by r_Count (drop MAX_RANK_MODELS allRankValues) |}]
  else allRankValues.

Definition total_times (modelTotalsMap : ModelTotals) : num := sum_by (λ x, or_zero (s_count (snd x))) modelTotalsMap.
Definition total_quota_raw (modelTotalsMap : ModelTotals) : num := sum_by (λ x, or_zero (s_quota (snd x))) modelTotalsMap.

Definition model_color (modelTotalsMap : ModelTotals) : ModelColor :=
  let modelColorDomain := array_of_set (sorted_models modelTotalsMap ++ [otherLabel]) in
  {| domain := modelColorDomain; range := getVChartDefaultColors (length modelColorDomain) |}.

(** [modelColorRange[modelColorDomain.indexOf(otherLabel)]], with a fixed colour when there is none. *)
Definition other_tooltip_color (color : ModelColor) : str :=
  match list_find (λ m, m = otherLabel) (domain color) with
  | Some (i, _) => default (js "#FF8A00") (range color !! i)
  | None => js "#FF8A00"
  end.

Definition processChartData (data : list QuotaDataItem) : ProcessedChartData :=
  if decide (data = []) then
    {| spec_pie := []; spec_line := []; spec_area := []; spec_model_line := []; spec_rank_bar := [];
       totalQuotaDisplay := formatQuotaTotal pzero; totalCountDisplay := formatInt pzero; modelColor := None |}
  else
    let '(timeModelMap, modelTotalsMap) := aggregate data in
    let chartTimes := chart_times data in
    let sortedModels := sorted_models modelTotalsMap in
    {| spec_pie := pie_values modelTotalsMap;
       spec_line := line_values timeModelMap sortedModels chartTimes;
       spec_area := area_values timeModelMap (top_area_models modelTotalsMap) sortedModels chartTimes;
       spec_model_line := model_line_values timeModelMap modelTotalsMap chartTimes;
       spec_rank_bar := rank_values modelTotalsMap;
       totalQuotaDisplay := formatQuotaTotal (total_quota_raw modelTotalsMap);
       totalCountDisplay := formatInt (total_times modelTotalsMap);
       modelColor := Some (model_color modelTotalsMap) |}.

(** ** Users *)

Definition USER_COLOR_FALLBACKS : list str :=
  [js "#5B8FF9"; js "#5AD8A6"; js "#F6BD16"; js "#E8684A"; js "#6DC8EC"; js "#9270CA"; js "#FF9D4D"; js "#269A99";
   js "#FF99C3"; js "#5D7092"].

Definition user_color_range (limit : nat) : list str :=
  let themeUserColors := getThemeChartColors in
  if decide (0 < length themeUserColors) then cycle_colors (limit `max` length themeUserColors) themeUserColors
  else USER_COLOR_FALLBACKS.

Definition formatVal (raw : num) : str := renderQuotaCompat raw 2.

Definition add_user_quota (prev : option num) (item : QuotaDataItem) : num :=
  nadd (or_zero (default pzero prev)) (number_or_zero (quota item)).

Definition user_totals (data : list QuotaDataItem) : list (str * num) :=
  fold_left (λ totals item, mset totals (user_key item) (add_user_quota (mget totals (user_key item)) item)) data [].

(** The second loop: all time points, and the quota per time of the users kept. *)
Definition add_user_item (topUsers : list str) (acc : list (str * list (str * num)) * list str) (item : QuotaDataItem)
    : list (str * list (str * num)) * list str :=
  let '(timeUserMap, allTimePoints) := acc in
  let timeKey := time_key item in
  let allTimePoints := set_add allTimePoints timeKey in
  let user := user_key item in
  if negb (set_has user topUsers) then (timeUserMap, allTimePoints)
  else
    let timeUserMap := if mhas timeUserMap timeKey then timeUserMap else mset timeUserMap timeKey [] in
    let map := default [] (mget timeUserMap timeKey) in
    (mset timeUserMap timeKey (mset map user (add_user_quota (mget map user) item)), allTimePoints).

Definition user_usage (q : num) : num :=
  number_of_string (to_fixed 2 (ndiv q (quotaPerUnit (fst (getCurrencyDisplay stored))))).

Definition processUserChartData (data : list QuotaDataItem) (limit : nat) : ProcessedUserChartData :=
  if decide (data = []) then
    {| spec_user_rank := []; spec_user_trend := []; user_subtext := tt (js "No data available");
       user_colors := user_color_range limit |}
  else
    let sorted := array_sort (descending snd) (user_totals data) in
    let topUsers := map fst (take limit sorted) in
    let totalQuota := sum_by snd (take limit sorted) in
    let '(timeUserMap, allTimePoints) := fold_left (add_user_item topUsers) data ([], []) in
    let sortedTimePoints := array_sort str_cmp allTimePoints in
    {| spec_user_rank := map (λ '(username, quota),
         {| ur_User := username; ur_rawQuota := quota; ur_Usage := user_usage quota |}) (take limit sorted);
       spec_user_trend := flat_map (λ time, map (λ user,
         let q := or_zero (default pzero (mget timeUserMap time ≫= λ map, mget map user)) in
         {| ut_Time := time; ut_User := user; ut_rawQuota := q; ut_Usage := user_usage q |}) topUsers) sortedTimePoints;
       user_subtext := tt (js "Total:") ++ js " " ++ formatVal totalQuota;
       user_colors := user_color_range limit |}.

(** [updateContent] of the ranking of users: the exact amount of a bar. *)
Definition user_rank_tooltip (array : list TooltipLineItem) : list TooltipLineItem :=
  map (λ i, with_value i (formatVal (or_zero (match t_datum i ≫= d_rawQuota with
                                              | Some rawQuota => rawQuota
                                              | None => tip_number (t_value i)
                                              end)))) array.

(** [updateContent] of the trend of users *)
Definition user_trend_tooltip (array : list TooltipLineItem) : list TooltipLineItem :=
  let array := array_sort (descending tip_amount) array in
  total_line (formatVal (sum_by tip_amount array)) :: map (λ i, with_value i (formatVal (tip_amount i))) array.

End model_charts.
End charts.
