(* ===== verification/ChartFacts.v ===== *)
(** * What the charts show ([features/dashboard/lib/charts.ts])

    The one-pass aggregation of [Charts] is grouping ([aggregate_groups]), so every bar is the sum of the items of its time and
    model; on whole numbers the sums are exact ([JsInteger]), nothing is lost between items, pie, ranking and totals, and
    rankings are ordered.  The last part shows where a chart leaves out usage that the totals count. *)

From S2P Require Import Prelude JsString JsNumber JsNumberFacts JsInteger JsMap Currency Charts.

(** ** The aggregation is grouping *)

Definition stats_step (o : option Stats) (item : QuotaDataItem) : Stats := add_stats (default no_stats o) item.

(** Everything a list of items used. *)
Definition sum_stats (l : list QuotaDataItem) : Stats := fold_left add_stats l no_stats.

(** The entry of a group: none when the group is empty. *)
Definition stats_of (l : list QuotaDataItem) : option Stats := match l with [] => None | _ => Some (sum_stats l) end.

Lemma group_fold_some l s : group_fold stats_step (Some s) l = Some (fold_left add_stats l s).
Proof. revert s. induction l as [|x l IH]; intros s; simpl; [done|]. by rewrite IH. Qed.

Lemma group_fold_stats l : group_fold stats_step None l = stats_of l.
Proof. destruct l as [|x l]; [done|]. apply group_fold_some. Qed.

Lemma mset_mset {V} (m : list (str * V)) k v w : mset (mset m k v) k w = mset m k w.
Proof. induction m as [|[k' v'] m IH]; simpl; [by case_decide|]. case_decide; simpl; case_decide; congruence. Qed.

(** A map of maps that is filled item by item holds, under each outer key, the table of the items of that key. *)
Lemma nested_fold {K V X} `{EqDecision K} (key : X → K) (step : option V → X → V) l o :
  group_fold (λ o x, tally_item key step (default [] o) x) o l =
  match l with [] => o | _ => Some (tally key step (default [] o) l) end.
Proof.
  revert o. induction l as [|x l IH]; intros o; simpl; [done|]. unfold group_fold in *. cbn [fold_left]. rewrite IH.
  destruct l; done.
Qed.

(** ** Whole numbers *)

(** The field [f] of the items holds the counts [z], whose total is a safe integer. *)
Definition whole (f : QuotaDataItem → option num) (z : QuotaDataItem → Z) (l : list QuotaDataItem) : Prop :=
  Forall (λ x, f x = Some (num_of_Z (z x)) ∧ (0 ≤ z x)%Z) l ∧ (zsum (map z l) < 2 ^ 53)%Z.

Lemma whole_nonneg f z l : whole f z l → Forall (Z.le 0) (map z l).
Proof. intros [H _]. apply Forall_map. eapply Forall_impl; [exact H|]. intros x [_ ?]. done. Qed.

Lemma whole_sublist f z l l' : whole f z l' → l `sublist_of` l' → whole f z l.
Proof.
  intros Hw Hs. pose proof (whole_nonneg _ _ _ Hw) as Hn. destruct Hw as [Hf Hz]. split.
  - rewrite Forall_forall in *. intros x Hx. apply Hf. by eapply elem_of_sublist.
  - eapply Z.le_lt_trans; [|exact Hz]. apply zsum_sublist; [done|]. by apply fmap_sublist.
Qed.

Lemma whole_group {K} `{EqDecision K} (key : QuotaDataItem → K) f z k l : whole f z l → whole f z (group key k l).
Proof. intros H. eapply whole_sublist; [exact H|]. apply bfilter_sublist. Qed.

Lemma whole_fold f z l : whole f z l → fold_left nadd (map (λ x, number_or_zero (f x)) l) pzero = num_of_Z (zsum (map z l)).
Proof.
  intros Hw. pose proof (whole_nonneg _ _ _ Hw) as Hn. destruct Hw as [Hf Hz].
  assert (E : map (λ x, number_or_zero (f x)) l = map num_of_Z (map z l)).
  { rewrite map_map. apply map_ext_in. intros x Hx. rewrite Forall_forall in Hf. apply list_elem_of_In in Hx.
    destruct (Hf x Hx) as [-> Hx0]. unfold number_or_zero. simpl. apply or_zero_int. unfold safe.
    pose proof (zsum_elem (map z l) (z x) Hn ltac:(apply elem_of_lmap; by exists x)). lia. }
  rewrite E. change pzero with (num_of_Z 0). rewrite fold_nadd_int; [done..|lia].
Qed.

Lemma whole_safe f z l : whole f z l → safe (zsum (map z l)).
Proof. intros H. pose proof (zsum_nonneg _ (whole_nonneg _ _ _ H)). destruct H as [_ ?]. unfold safe. lia. Qed.

(** The parts of a sum of items. *)
Lemma fold_stats (fs : Stats → num) (f : QuotaDataItem → option num) l s :
  (∀ s x, fs (add_stats s x) = nadd (fs s) (number_or_zero (f x))) →
  fs (fold_left add_stats l s) = fold_left nadd (map (λ x, number_or_zero (f x)) l) (fs s).
Proof. intros H. revert s. induction l as [|x l IH]; intros s; simpl; [done|]. by rewrite IH, H. Qed.

Lemma sum_count z l : whole count z l → s_count (sum_stats l) = num_of_Z (zsum (map z l)).
Proof. intros H. unfold sum_stats. rewrite (fold_stats s_count count) by done. by apply whole_fold. Qed.

Lemma sum_quota z l : whole quota z l → s_quota (sum_stats l) = num_of_Z (zsum (map z l)).
Proof. intros H. unfold sum_stats. rewrite (fold_stats s_quota quota) by done. by apply whole_fold. Qed.

Lemma sum_by_fold {A} (f : A → num) l : sum_by f l = fold_left nadd (map f l) pzero.
Proof.
  unfold sum_by. generalize pzero as s. induction l as [|x l IH]; intros s; simpl; [done|]. apply IH.
Qed.

Lemma sum_by_int {A} (f : A → num) (z : A → Z) l :
  (∀ x, x ∈ l → f x = num_of_Z (z x) ∧ (0 ≤ z x)%Z) → (zsum (map z l) < 2 ^ 53)%Z →
  sum_by f l = num_of_Z (zsum (map z l)).
Proof.
  intros Hf Hz. rewrite sum_by_fold.
  assert (E : map f l = map num_of_Z (map z l)).
  { rewrite map_map. apply map_ext_in. intros x Hx. apply list_elem_of_In in Hx. by apply Hf. }
  rewrite E. change pzero with (num_of_Z 0). apply fold_nadd_int; [done| |lia].
  apply Forall_map, Forall_forall. intros x Hx. by apply Hf.
Qed.

(** What the groups of all models add up to. *)
Lemma groups_total {K} `{EqDecision K} (key : QuotaDataItem → K) (z : QuotaDataItem → Z) ks l :
  NoDup ks → (∀ x, x ∈ l → key x ∈ ks) → zsum (map (λ k, zsum (map z (group key k l))) ks) = zsum (map z l).
Proof.
  intros Hnd Hks. pose proof (groups_permutation key l ks Hnd Hks) as H.
  rewrite <- (zsum_flat_map z (λ k, group key k l)). by rewrite H.
Qed.

(** Sorting rows by a descending count is sorting their subjects by the integers. *)
Lemma sort_by_count {A B} (row : A → B) (f : B → num) (c : A → Z) l :
  (∀ a, f (row a) = num_of_Z (c a) ∧ 0 ≤ c a < 2 ^ 53)%Z →
  array_sort (descending f) (map row l) = map row (array_sort (λ a b, c b - c a)%Z l).
Proof.
  intros H. rewrite <- (array_sort_map row). f_equal. apply (array_sort_agree (λ _ _, True)).
  - intros a b _. unfold descending. destruct (H a) as [-> Ha], (H b) as [-> Hb]. rewrite sign_of_difference by done. lia.
  - induction l; constructor; [done|]. by apply Forall_forall.
Qed.

Section facts.
Context (formatMD formatHH : num → str) (addDays : num → Z → num).
Context (localeCompare : str → str → Z) (toLocaleString formatInt : num → str).
Context (stored : option PartialCurrencyConfig) (tt : str → str).
Context (computedColors : list str) (scheme0 : DataScheme) (schemes : list DataScheme).
Context (g : TimeGranularity).

Local Abbreviation tkey := (time_key formatMD formatHH addDays g).
Local Abbreviation agg := (aggregate formatMD formatHH addDays g).
Local Abbreviation times := (chart_times formatMD formatHH addDays g).
Local Abbreviation charts := (processChartData formatMD formatHH addDays localeCompare toLocaleString formatInt stored tt
  computedColors scheme0 schemes g).

Lemma add_item_tally m1 m2 item :
  add_item formatMD formatHH addDays g (m1, m2) item =
  (tally_item tkey (λ o x, tally_item model_key stats_step (default [] o) x) m1 item,
   tally_item model_key stats_step m2 item).
Proof.
  unfold add_item, tally_item, stats_step, mhas. f_equal.
  destruct (mget m1 (tkey item)) as [mm|] eqn:E; [by rewrite E|]. by rewrite mget_set_eq, mset_mset.
Qed.

Lemma aggregate_tally data :
  agg data =
  (tally tkey (λ o x, tally_item model_key stats_step (default [] o) x) [] data, tally model_key stats_step [] data).
Proof.
  assert (H : ∀ l m1 m2, fold_left (add_item formatMD formatHH addDays g) l (m1, m2) =
    (tally tkey (λ o x, tally_item model_key stats_step (default [] o) x) m1 l, tally model_key stats_step m2 l)).
  { induction l as [|x l IH]; intros m1 m2; cbn [fold_left]; [done|]. by rewrite add_item_tally, IH. }
  apply H.
Qed.

(** What the aggregation leaves behind. *)
Lemma aggregate_groups data :
  (∀ t m, stats_at (fst (agg data)) t m = stats_of (group (λ x, (tkey x, model_key x)) (t, m) data)) ∧
  (∀ m, mget (snd (agg data)) m = stats_of (group model_key m data)) ∧
  map fst (fst (agg data)) = array_of_set (map tkey data) ∧
  map fst (snd (agg data)) = array_of_set (map model_key data).
Proof.
  rewrite aggregate_tally. cbn [fst snd]. split; [|split; [|split]].
  - intros t m. unfold stats_at. rewrite tally_get, nested_fold, <- group_group. cbn [mget].
    destruct (group tkey t data) as [|x l] eqn:E; [done|]. rewrite <- E.
    cbn [mbind option_bind default]. rewrite tally_get. apply group_fold_stats.
  - intros m. rewrite tally_get. apply group_fold_stats.
  - apply tally_keys_nil.
  - apply tally_keys_nil.
Qed.

Lemma stats_field (f : Stats → num) l : or_zero (f no_stats) = pzero →
  number_or_zero (f <$> stats_of l) = or_zero (f (sum_stats l)).
Proof. intros H. destruct l; [symmetry; exact H|done]. Qed.

(** The quota of one time and model. *)
Lemma quota_at_group data t m :
  quota_at (fst (agg data)) t m = or_zero (s_quota (sum_stats (group (λ x, (tkey x, model_key x)) (t, m) data))).
Proof. unfold quota_at. rewrite (proj1 (aggregate_groups data)). by apply stats_field. Qed.

Lemma count_at_group data t m :
  count_at (fst (agg data)) t m = or_zero (s_count (sum_stats (group (λ x, (tkey x, model_key x)) (t, m) data))).
Proof. unfold count_at. rewrite (proj1 (aggregate_groups data)). by apply stats_field. Qed.

Lemma totals_entries data : snd (agg data) = map (λ m, (m, sum_stats (group model_key m data))) (array_of_set (map model_key data)).
Proof.
  destruct (aggregate_groups data) as (_ & Hg & _ & Hk). rewrite <- Hk. apply mget_entries.
  - rewrite Hk. apply array_of_set_NoDup.
  - intros m Hm. rewrite Hg. rewrite Hk in Hm. apply (proj1 (elem_of_array_of_set _ _)) in Hm.
    destruct (group model_key m data) eqn:E; [|done]. destruct (proj1 (group_nil _ _ _) E Hm).
Qed.

Lemma charts_of data : data ≠ [] → charts data = 
  let '(timeModelMap, modelTotalsMap) := agg data in
  {| spec_pie := pie_values modelTotalsMap;
     spec_line := line_values localeCompare stored timeModelMap (sorted_models modelTotalsMap) (times data);
     spec_area := area_values localeCompare stored tt timeModelMap (top_area_models modelTotalsMap)
                    (sorted_models modelTotalsMap) (times data);
     spec_model_line := model_line_values localeCompare tt timeModelMap modelTotalsMap (times data);
     spec_rank_bar := rank_values tt modelTotalsMap;
     totalQuotaDisplay := formatQuotaTotal toLocaleString stored (total_quota_raw modelTotalsMap);
     totalCountDisplay := formatInt (total_times modelTotalsMap);
     modelColor := Some (model_color tt computedColors scheme0 schemes modelTotalsMap) |}.
Proof. intros H. unfold processChartData. by rewrite decide_False. Qed.

(** ** Bars *)

Lemma times_of data :
  MAX_CHART_TREND_POINTS ≤ length (array_of_set (map tkey data)) → times data ≡ₚ array_of_set (map tkey data).
Proof.
  intros H. unfold chart_times, fillTimePoints. destruct (aggregate_groups data) as (_ & _ & Hk & _). rewrite Hk.
  rewrite decide_True by (by rewrite array_sort_Permutation). apply array_sort_Permutation.
Qed.

Lemma points_nonempty data : MAX_CHART_TREND_POINTS ≤ length (array_of_set (map tkey data)) → data ≠ [].
Proof. intros H ->. cbn in H. unfold MAX_CHART_TREND_POINTS in H. lia. Qed.

Lemma models_of data : sorted_models (snd (agg data)) ≡ₚ array_of_set (map model_key data).
Proof.
  unfold sorted_models. destruct (aggregate_groups data) as (_ & _ & _ & Hk). rewrite Hk. apply array_sort_Permutation.
Qed.

Lemma few_times data : length (array_of_set (map tkey data)) < MAX_CHART_TREND_POINTS →
  times data = map (λ i, formatChartTime formatMD formatHH addDays (nsub (math_max_all (map (λ item, or_zero (created_at item)) data))
    (nmul (num_of_Z (Z.of_nat (MAX_CHART_TREND_POINTS - 1 - i))) (num_of_Z (interval_sec g)))) g) (seq 0 MAX_CHART_TREND_POINTS).
Proof.
  intros H. unfold chart_times, fillTimePoints. destruct (aggregate_groups data) as (_ & _ & Hk & _). rewrite Hk.
  rewrite decide_False; [done|]. rewrite array_sort_Permutation. lia.
Qed.

(** C19: the bar chart has exactly one bar for each pair of a time point on the axis and a model that occurs, and the bar is the sum of the quotas of the
    items of that time and that model, shown in cents.  The axis has the time points of the items if there are seven or more; if
    there are fewer it has the seven points that end with the latest item, one interval apart, so that usage of other times has no bar. *)
Theorem bars_show_every_item data : data ≠ [] →
  map (λ r, (u_Time r, u_Model r)) (spec_line (charts data)) ≡ₚ list_prod (times data) (array_of_set (map model_key data)) ∧
  (∀ r, r ∈ spec_line (charts data) →
    u_rawQuota r = or_zero (s_quota (sum_stats (group (λ x, (tkey x, model_key x)) (u_Time r, u_Model r) data))) ∧
    u_Usage r = usage_of stored (u_rawQuota r)) ∧
  (MAX_CHART_TREND_POINTS ≤ length (array_of_set (map tkey data)) → times data ≡ₚ array_of_set (map tkey data)) ∧
  (length (array_of_set (map tkey data)) < MAX_CHART_TREND_POINTS →
   times data = map (λ i, formatChartTime formatMD formatHH addDays (nsub (math_max_all (map (λ item, or_zero (created_at item)) data))
     (nmul (num_of_Z (Z.of_nat (MAX_CHART_TREND_POINTS - 1 - i))) (num_of_Z (interval_sec g)))) g) (seq 0 MAX_CHART_TREND_POINTS)).
Proof.
  intros H. split; [|split; [|split; [apply times_of|apply few_times]]]; rewrite charts_of by done; pose proof (models_of data) as Hm;
    pose proof (quota_at_group data) as Hq; destruct (agg data) as [tm totals]; cbn [spec_line fst snd] in *; unfold line_values.
  - rewrite array_sort_Permutation, <- Hm. generalize (times data) as ts. induction ts as [|t ts IH]; [done|].
    simpl. rewrite map_app, IH. f_equiv. unfold line_values_at. rewrite map_map. cbn [u_Time u_Model].
    rewrite array_sort_Permutation, map_map. done.
  - intros r Hr. apply elem_of_array_sort, list_elem_of_In, in_flat_map in Hr as (t & _ & Hr). apply list_elem_of_In in Hr.
    unfold line_values_at in Hr. apply elem_of_lmap in Hr as (r' & -> & Hr). apply elem_of_array_sort, elem_of_lmap in Hr as (m & -> & _).
    cbn [u_Time u_Model u_rawQuota u_Usage]. by rewrite Hq.
Qed.

(** ** Rankings and totals *)

(** Calls of a model, or its quota: the sum of the counts [z] over the items of the model. *)
Definition calls (z : QuotaDataItem → Z) (data : list QuotaDataItem) (m : str) : Z := zsum (map z (group model_key m data)).

Lemma calls_bound f z data m : whole f z data → (0 ≤ calls z data m < 2 ^ 53)%Z.
Proof.
  intros H. apply (whole_group model_key f z m) in H. pose proof (zsum_nonneg _ (whole_nonneg _ _ _ H)). destruct H as [_ ?].
  unfold calls. lia.
Qed.

Lemma calls_row z data m : whole count z data → or_zero (s_count (sum_stats (group model_key m data))) = num_of_Z (calls z data m).
Proof.
  intros H. rewrite (sum_count z) by (by apply whole_group). apply or_zero_int. eapply whole_safe. by apply whole_group.
Qed.

Lemma quota_row z data m : whole quota z data → or_zero (s_quota (sum_stats (group model_key m data))) = num_of_Z (calls z data m).
Proof.
  intros H. rewrite (sum_quota z) by (by apply whole_group). apply or_zero_int. eapply whole_safe. by apply whole_group.
Qed.

Lemma calls_total z data ms : ms ≡ₚ array_of_set (map model_key data) →
  zsum (map (calls z data) ms) = zsum (map z data).
Proof.
  intros H. apply groups_total.
  - rewrite H. apply array_of_set_NoDup.
  - intros x Hx. rewrite H, elem_of_array_of_set. apply elem_of_lmap. by exists x.
Qed.

Lemma sum_of_rows {A B} (row : A → B) (f : B → num) (c : A → Z) l :
  (∀ a, f (row a) = num_of_Z (c a) ∧ 0 ≤ c a)%Z → (zsum (map c l) < 2 ^ 53)%Z →
  sum_by f (map row l) = num_of_Z (zsum (map c l)).
Proof.
  intros H Hz. rewrite sum_by_fold, map_map, <- sum_by_fold. apply sum_by_int; [|done]. intros a _. apply H.
Qed.

(** Models by calls, or by quota. *)
Definition call_row (z : QuotaDataItem → Z) (data : list QuotaDataItem) (m : str) : RankValue :=
  {| r_Model := m; r_Count := num_of_Z (calls z data m) |}.

Definition call_ranking (z : QuotaDataItem → Z) (data : list QuotaDataItem) : list str :=
  array_sort (λ a b, calls z data b - calls z data a)%Z (array_of_set (map model_key data)).

Lemma ranked_exact metric f z data : whole f z data →
  (∀ m, or_zero (metric (sum_stats (group model_key m data))) = num_of_Z (calls z data m)) →
  ranked metric (snd (agg data)) = map (call_row z data) (call_ranking z data).
Proof.
  intros Hw Hr. unfold ranked. rewrite totals_entries, map_map.
  rewrite (map_ext _ (call_row z data)) by (intros m; by rewrite Hr).
  apply sort_by_count. intros m. split; [done|]. by eapply calls_bound.
Qed.

Lemma pie_calls z data : whole count z data →
  pie_values (snd (agg data)) = map (λ m, {| p_type := m; p_value := num_of_Z (calls z data m) |}) (call_ranking z data).
Proof.
  intros Hw. unfold pie_values. rewrite totals_entries, map_map.
  rewrite (map_ext _ (λ m, {| p_type := m; p_value := num_of_Z (calls z data m) |})) by (intros m; by rewrite (calls_row z)).
  apply sort_by_count. intros m. split; [done|]. by eapply calls_bound.
Qed.

Lemma total_calls z data : whole count z data → total_times (snd (agg data)) = num_of_Z (zsum (map z data)).
Proof.
  intros Hw. unfold total_times. rewrite totals_entries, <- (calls_total z data _ (reflexivity _)).
  apply sum_of_rows.
  - intros m. cbn [snd]. split; [by apply calls_row|]. by eapply calls_bound.
  - rewrite calls_total by done. apply Hw.
Qed.

(** when the items hold whole counts, the pie and the ranking show the models in order of their calls, each with
    its calls; a ranking of more than twenty models ends in one bar with the calls of the others; and the calls shown,
    the calls of the items and the total above the charts are the same. *)
Theorem rankings_exact z data : data ≠ [] → whole count z data → ∃ ranking,
  ranking ≡ₚ array_of_set (map model_key data) ∧
  StronglySorted (λ a b, calls z data b ≤ calls z data a)%Z ranking ∧
  spec_pie (charts data) = map (λ m, {| p_type := m; p_value := num_of_Z (calls z data m) |}) ranking ∧
  spec_rank_bar (charts data) =
    map (λ m, {| r_Model := m; r_Count := num_of_Z (calls z data m) |}) (take MAX_RANK_MODELS ranking) ++
    (if decide (MAX_RANK_MODELS < length ranking)
     then [{| r_Model := otherLabel tt; r_Count := num_of_Z (zsum (map (calls z data) (drop MAX_RANK_MODELS ranking))) |}]
     else []) ∧
  zsum (map (calls z data) ranking) = zsum (map z data) ∧
  totalCountDisplay (charts data) = formatInt (num_of_Z (zsum (map z data))).
Proof.
  intros Hne Hw. exists (call_ranking z data).
  assert (Hp : call_ranking z data ≡ₚ array_of_set (map model_key data)) by apply array_sort_Permutation.
  assert (Ht : zsum (map (calls z data) (call_ranking z data)) = zsum (map z data)) by (by apply calls_total).
  rewrite charts_of by done. pose proof (ranked_exact s_count count z data Hw (λ m, calls_row z data m Hw)) as Hr. pose proof (pie_calls z data Hw) as Hpie.
  pose proof (total_calls z data Hw) as Htot. destruct (agg data) as [tm totals]. cbn [snd] in *.
  cbn [spec_pie spec_rank_bar totalCountDisplay]. rewrite Htot.
  split; [done|]. split; [apply sorted_descending|]. split; [done|]. split; [|done].
  unfold rank_values. rewrite Hr, length_map. case_decide as Hl; [|by rewrite app_nil_r, take_ge by lia].
  rewrite firstn_map, skipn_map. do 3 f_equal. apply sum_of_rows.
  - intros m. split; [done|]. by eapply calls_bound.
  - eapply Z.le_lt_trans; [|apply Hw]. rewrite <- Ht. apply zsum_sublist; [|apply fmap_sublist, sublist_drop].
    apply Forall_map, Forall_forall. intros m _. by eapply calls_bound.
Qed.

(** ** The area chart *)

Definition no_bucket : Bucket := {| b_rawQuota := pzero; b_usage := pzero |}.

(** The series of a model. *)
Definition series (top : list str) (model : str) : str := if set_has model top then model else otherLabel tt.

Definition bucket_step (tm : TimeModelMap) (time : str) (o : option Bucket) (model : str) : Bucket :=
  let prev := default no_bucket o in
  {| b_rawQuota := nadd (b_rawQuota prev) (quota_at tm time model);
     b_usage := number_of_string (to_fixed 2 (nadd (b_usage prev) (usage_of stored (quota_at tm time model)))) |}.

Lemma area_at_tally tm top models time :
  area_values_at stored tt tm top models time =
  map (λ '(model, vals), {| u_Time := time; u_Model := model; u_rawQuota := b_rawQuota vals; u_Usage := b_usage vals;
                            u_TimeSum := sum_by (quota_at tm time) models |})
    (tally (series top) (bucket_step tm time) [] models).
Proof.
  unfold area_values_at.
  match goal with |- context [fold_left ?f _ _] =>
    assert (H : ∀ l b s, fold_left f l (b, s) =
      (tally (series top) (bucket_step tm time) b l, fold_left (λ sum m, nadd sum (quota_at tm time m)) l s))
  end.
  { induction l as [|m l IH]; intros b s'; cbn [fold_left]; [done|]. by rewrite IH. }
  rewrite H. done.
Qed.

(** The quota of a series is the sum over its models. *)
Lemma bucket_quota tm time l o :
  b_rawQuota (default no_bucket (group_fold (bucket_step tm time) o l)) =
  fold_left nadd (map (quota_at tm time) l) (b_rawQuota (default no_bucket o)).
Proof.
  revert o. induction l as [|m l IH]; intros o; [done|]. unfold group_fold in *. cbn [fold_left map]. by rewrite IH.
Qed.

(** Quota of a model at a time, and of a time, in integers. *)
Definition used (z : QuotaDataItem → Z) (data : list QuotaDataItem) (t m : str) : Z :=
  zsum (map z (group (λ x, (tkey x, model_key x)) (t, m) data)).

Lemma used_at z data t m : whole quota z data →
  quota_at (fst (agg data)) t m = num_of_Z (used z data t m) ∧ (0 ≤ used z data t m)%Z.
Proof.
  intros H. apply (whole_group (λ x, (tkey x, model_key x)) quota z (t, m)) in H. rewrite quota_at_group, (sum_quota z) by done. split.
  - apply or_zero_int. by eapply whole_safe.
  - apply zsum_nonneg. by eapply whole_nonneg.
Qed.

Lemma used_total z data t ms : ms ≡ₚ array_of_set (map model_key data) →
  zsum (map (used z data t) ms) = zsum (map z (group tkey t data)).
Proof.
  intros H. rewrite <- (groups_total model_key z ms (group tkey t data)).
  - f_equal. apply map_ext. intros m. unfold used. by rewrite group_group.
  - rewrite H. apply array_of_set_NoDup.
  - intros x Hx. rewrite H, elem_of_array_of_set. apply elem_of_group in Hx as [Hx _]. apply elem_of_lmap. by exists x.
Qed.

(** Quota of a series at a time. *)
Definition series_used (z : QuotaDataItem → Z) (data : list QuotaDataItem) (top ms : list str) (t k : str) : Z :=
  zsum (map (used z data t) (group (series top) k ms)).

(** What the series of a set of models add up to. *)
Lemma series_total z data top ms t : ms ≡ₚ array_of_set (map model_key data) →
  zsum (map (series_used z data top ms t) (array_of_set (map (series top) ms))) = zsum (map z (group tkey t data)).
Proof.
  intros Hms. rewrite <- (used_total z data t ms Hms). unfold series_used. rewrite <- (zsum_flat_map (used z data t)).
  rewrite (groups_permutation (series top) ms); [done|apply array_of_set_NoDup|].
  intros m Hm. apply elem_of_array_of_set, elem_of_lmap. by exists m.
Qed.

(** The sum over some of the models at a time. *)
Lemma sum_used z data t ms l : whole quota z data → ms ≡ₚ array_of_set (map model_key data) → l `sublist_of` ms →
  sum_by (quota_at (fst (agg data)) t) l = num_of_Z (zsum (map (used z data t) l)).
Proof.
  intros Hw Hms Hl. apply sum_by_int; [intros m _; by apply used_at|].
  eapply Z.le_lt_trans; [|apply (whole_group tkey quota z t data Hw)]. rewrite <- (used_total z data t ms Hms).
  apply zsum_sublist; [|by apply fmap_sublist]. apply Forall_map, Forall_forall. intros m _. by apply used_at.
Qed.

Lemma bucket_some tm t m l : is_Some (group_fold (bucket_step tm t) None (m :: l)).
Proof.
  unfold group_fold. cbn [fold_left]. generalize (bucket_step tm t None m) as b.
  induction l as [|m' l IH]; intros b; [by eexists|]. apply IH.
Qed.

(** The rows of one time. *)
Lemma series_rows z data top ms t : whole quota z data → ms ≡ₚ array_of_set (map model_key data) → ∃ usage : str → num,
  area_values_at stored tt (fst (agg data)) top ms t =
  map (λ k, {| u_Time := t; u_Model := k; u_rawQuota := num_of_Z (series_used z data top ms t k); u_Usage := usage k;
               u_TimeSum := num_of_Z (zsum (map z (group tkey t data))) |}) (array_of_set (map (series top) ms)).
Proof.
  intros Hw Hms.
  pose (bucket k := default no_bucket (group_fold (bucket_step (fst (agg data)) t) None (group (series top) k ms))).
  exists (λ k, b_usage (bucket k)). rewrite area_at_tally, (sum_used z data t ms ms), used_total by done.
  rewrite (mget_entries (tally _ _ [] ms) bucket).
  - rewrite map_map, tally_keys_nil. apply map_ext. intros k. f_equal. unfold bucket. rewrite bucket_quota.
    change (b_rawQuota (default no_bucket None)) with pzero. rewrite <- sum_by_fold.
    apply (sum_used z data t ms); [done..|]. apply bfilter_sublist.
  - apply tally_NoDup.
  - intros k Hk. rewrite tally_get. cbn [mget]. rewrite tally_keys_nil in Hk. apply (proj1 (elem_of_array_of_set _ _)) in Hk.
    unfold bucket. destruct (group (series top) k ms) as [|m l] eqn:E; [destruct (proj1 (group_nil _ _ _) E Hk)|].
    by destruct (bucket_some (fst (agg data)) t m l) as [b ->].
Qed.

Lemma top_area_of z data : whole quota z data →
  top_area_models (snd (agg data)) = take MAX_AREA_MODELS (call_ranking z data).
Proof.
  intros Hw. unfold top_area_models. rewrite (ranked_exact s_quota quota z data Hw (λ m, quota_row z data m Hw)).
  rewrite firstn_map, map_map. rewrite (map_ext _ (λ m, m)), map_id by done. apply array_of_set_id.
  eapply sublist_NoDup; [|apply sublist_take]. unfold call_ranking. rewrite array_sort_Permutation. apply array_of_set_NoDup.
Qed.

(** A model with a series of its own. *)
Lemma own_series top ms m : NoDup ms → m ∈ ms → m ∈ top → m ≠ otherLabel tt → group (series top) m ms = [m].
Proof.
  intros Hnd Hm Ht Ho. unfold group. rewrite (filter_ext_in _ (λ x, bool_decide (x = m))).
  - clear Ho Ht. induction ms as [|x ms IH]; [by apply elem_of_nil in Hm|]. inversion Hnd as [|? ? Hx Hnd']; subst. simpl.
    case_bool_decide as Hd; [subst x|].
    + rewrite bfilter_none; [done|]. intros y Hy. apply bool_decide_eq_false. congruence.
    + apply IH; [done|]. apply elem_of_cons in Hm as [->|?]; done.
  - intros x _. apply bool_decide_ext. unfold series. split; [|intros ->; by rewrite (proj2 (set_has_true _ _))].
    destruct (set_has x top); [done|]. intros E. by destruct Ho.
Qed.

Lemma series_few top ms : length (array_of_set (map (series top) ms)) ≤ S (length top).
Proof.
  change (S (length top)) with (length (otherLabel tt :: top)). apply submseteq_length, NoDup_submseteq; [apply array_of_set_NoDup|].
  intros k Hk. apply (proj1 (elem_of_array_of_set _ _)), elem_of_lmap in Hk as (m & -> & _). unfold series.
  destruct (set_has m top) eqn:E; [right; by apply set_has_true|left].
Qed.

(** with seven time points or more and whole quotas, the area chart shows at each time point at most sixteen
    series, whose quotas add up to the quota of the items of that time, which is also the total of its tooltip; and
    each of the fifteen models with the largest quotas has a series with exactly its quota. *)
Theorem area_conserves_usage z data t :
  MAX_CHART_TREND_POINTS ≤ length (array_of_set (map tkey data)) → whole quota z data → t ∈ map tkey data →
  let rows := List.filter (λ r, bool_decide (u_Time r = t)) (spec_area (charts data)) in
  length rows ≤ S MAX_AREA_MODELS ∧
  Forall (λ r, u_TimeSum r = num_of_Z (zsum (map z (group tkey t data)))) rows ∧
  (∃ zs, map u_rawQuota rows ≡ₚ map num_of_Z zs ∧ zsum zs = zsum (map z (group tkey t data))) ∧
  ∀ m, m ∈ take MAX_AREA_MODELS (call_ranking z data) → m ≠ otherLabel tt →
    ∃ r, r ∈ rows ∧ u_Model r = m ∧ u_rawQuota r = num_of_Z (used z data t m).
Proof.
  intros H7 Hw Ht rows. pose proof (models_of data) as Hms. pose proof (times_of data H7) as Hts.
  assert (Hrows : rows ≡ₚ area_values_at stored tt (fst (agg data)) (top_area_models (snd (agg data)))
    (sorted_models (snd (agg data))) t).
  { unfold rows. rewrite charts_of by (by apply points_nonempty). destruct (agg data) as [tm totals]. cbn [spec_area fst snd].
    unfold area_values. rewrite array_sort_Permutation.
    rewrite (filter_flat_map u_Time (area_values_at stored tt tm (top_area_models totals) (sorted_models totals))); [done| | |].
    - rewrite Hts. apply array_of_set_NoDup.
    - intros t' r Hr. rewrite area_at_tally in Hr. by apply elem_of_lmap in Hr as ([] & -> & _).
    - rewrite Hts. by apply elem_of_array_of_set. }
  rewrite (top_area_of z data Hw) in Hrows.
  set (top := take MAX_AREA_MODELS (call_ranking z data)) in *. set (ms := sorted_models (snd (agg data))) in *.
  destruct (series_rows z data top ms t Hw Hms) as [usage E]. rewrite E in Hrows. clear E. clearbody rows. split; [|split; [|split]].
  - rewrite Hrows, length_map, series_few. apply le_n_S. unfold top. rewrite length_take. lia.
  - rewrite Hrows. apply Forall_map, Forall_forall. done.
  - exists (map (series_used z data top ms t) (array_of_set (map (series top) ms))). split; [|by apply series_total].
    rewrite Hrows, !map_map. done.
  - intros m Hm Ho. assert (Hin : m ∈ ms).
    { rewrite Hms. apply (elem_of_sublist _ (call_ranking z data)) in Hm; [|apply sublist_take].
      by apply elem_of_array_sort in Hm. }
    eexists. split; [rewrite Hrows; apply elem_of_lmap; exists m; split; [reflexivity|]|split; [done|]].
    + apply elem_of_array_of_set, elem_of_lmap. exists m. split; [|done]. unfold series. by rewrite (proj2 (set_has_true _ _)).
    + cbn [u_rawQuota]. unfold series_used. rewrite own_series; [|rewrite Hms; apply array_of_set_NoDup|done..].
      cbn. by rewrite Z.add_0_r.
Qed.

(** ** Users *)

Definition used_by (z : QuotaDataItem → Z) (data : list QuotaDataItem) (u : str) : Z := zsum (map z (group user_key u data)).
Definition used_by_at (z : QuotaDataItem → Z) (data : list QuotaDataItem) (t u : str) : Z :=
  zsum (map z (group (λ x, (tkey x, user_key x)) (t, u) data)).

(** Adding up from an entry that is already there. *)
Lemma user_fold_from z l a : whole quota z l → (0 ≤ a)%Z → (a + zsum (map z l) < 2 ^ 53)%Z →
  group_fold add_user_quota (Some (num_of_Z a)) l = Some (num_of_Z (a + zsum (map z l))).
Proof.
  revert a. induction l as [|x l IH]; intros a Hw Ha Hb.
  - cbn. by rewrite Z.add_0_r.
  - pose proof (whole_sublist _ _ l _ Hw ltac:(by constructor)) as Hl. pose proof (zsum_nonneg _ (whole_nonneg _ _ _ Hl)).
    destruct Hw as [Hf Hz]. inversion Hf as [|? ? [Hx Hx0] _]; subst. cbn in Hb, Hz. fold (zsum (map z l)) in *.
    unfold group_fold. cbn [fold_left]. 
    change (add_user_quota (Some (num_of_Z a)) x) with (nadd (or_zero (num_of_Z a)) (or_zero (default S754_nan (quota x)))).
    rewrite Hx. change (default S754_nan (Some (num_of_Z (z x)))) with (num_of_Z (z x)). rewrite !or_zero_int by (unfold safe; lia). rewrite nadd_int by (unfold safe; lia).
    change (group_fold add_user_quota (Some (num_of_Z (a + z x))) l = Some (num_of_Z (a + zsum (map z (x :: l))))).
    rewrite IH by (lia || done). do 2 f_equal. cbn. fold (zsum (map z l)). lia.
Qed.

Lemma user_fold z l : whole quota z l → l ≠ [] → group_fold add_user_quota None l = Some (num_of_Z (zsum (map z l))).
Proof.
  intros Hw Hl. destruct l as [|x l]; [done|].
  transitivity (group_fold add_user_quota (Some (num_of_Z 0)) (x :: l)); [done|].
  pose proof (zsum_nonneg _ (whole_nonneg _ _ _ Hw)). rewrite (user_fold_from z) by (done || apply Hw). done.
Qed.

Lemma user_totals_entries z data : whole quota z data →
  user_totals data = map (λ u, (u, num_of_Z (used_by z data u))) (array_of_set (map user_key data)).
Proof.
  intros Hw. change (user_totals data) with (tally user_key add_user_quota [] data).
  rewrite <- (tally_keys_nil user_key add_user_quota data). apply mget_entries; [apply tally_NoDup|].
  intros u Hu. rewrite tally_keys_nil in Hu. apply (proj1 (elem_of_array_of_set _ _)) in Hu.
  rewrite tally_get. apply user_fold; [by apply whole_group|]. intros E. by apply group_nil in E.
Qed.

Definition top_items (top : list str) (data : list QuotaDataItem) : list QuotaDataItem :=
  List.filter (λ x, set_has (user_key x) top) data.

(** The second loop fills a map of maps for the users kept, and collects every time point. *)
Lemma user_loop top data :
  fold_left (add_user_item formatMD formatHH addDays g top) data ([], []) =
  (tally tkey (λ o x, tally_item user_key add_user_quota (default [] o) x) [] (top_items top data),
   array_of_set (map tkey data)).
Proof.
  unfold array_of_set.
  assert (H : ∀ l m ts, fold_left (add_user_item formatMD formatHH addDays g top) l (m, ts) =
    (tally tkey (λ o x, tally_item user_key add_user_quota (default [] o) x) m (top_items top l),
     fold_left set_add (map tkey l) ts)); [|apply H].
  induction l as [|x l IH]; intros m ts; cbn [fold_left map]; [done|]. unfold top_items. cbn [List.filter]. fold (top_items top l).
  unfold add_user_item at 2. destruct (set_has (user_key x) top); cbn [negb]; rewrite IH; [|done].
  f_equal. cbn [tally fold_left]. unfold tally. cbn [fold_left]. f_equal. unfold tally_item at 2. unfold mhas.
  destruct (mget m (tkey x)) as [mm|] eqn:E; unfold tally_item; [done|]. by rewrite E, mget_set_eq, mset_mset.
Qed.

Lemma user_at z data top t u : whole quota z data → u ∈ top →
  or_zero (default pzero (mget (fst (fold_left (add_user_item formatMD formatHH addDays g top) data ([], []))) t
    ≫= λ m, mget m u)) = num_of_Z (used_by_at z data t u).
Proof.
  intros Hw Hu. rewrite user_loop. cbn [fst]. rewrite tally_get, nested_fold. cbn [mget default].
  assert (E : group user_key u (group tkey t (top_items top data)) = group (λ x, (tkey x, user_key x)) (t, u) data).
  { rewrite group_group. unfold group, top_items. clear Hw. induction data as [|x l IH]; [done|]. cbn [List.filter].
    destruct (set_has (user_key x) top) eqn:Hx; cbn [List.filter]; [by rewrite IH|].
    rewrite bool_decide_false; [done|]. intros [= _ E]. apply set_has_false in Hx. by rewrite E in Hx. }
  unfold used_by_at. rewrite <- E.
  destruct (group tkey t (top_items top data)) as [|x l] eqn:Eg; [done|]. rewrite <- Eg in *. cbn [mbind option_bind].
  rewrite tally_get. cbn [mget]. pose proof (whole_group (λ x, (tkey x, user_key x)) quota z (t, u) data Hw) as Hg. rewrite <- E in Hg.
  destruct (group user_key u (group tkey t (top_items top data))) as [|y l'] eqn:E2; [done|]. rewrite <- E2 in *.
  rewrite (user_fold z) by (done || by rewrite E2). cbn [default]. apply or_zero_int. by eapply whole_safe.
Qed.

(** when the quotas are whole numbers, the ranking of users shows the [limit] users with the largest quotas in
    descending order, each with the sum of the quotas of the user's items, and the trend shows, for every time point and every user
    of the ranking, the sum of the quotas of the user's items of that time. *)
Theorem user_charts_exact z data limit : data ≠ [] → whole quota z data → ∃ ranking,
  let result := processUserChartData formatMD formatHH addDays toLocaleString stored tt computedColors g data limit in
  ranking ≡ₚ array_of_set (map user_key data) ∧
  StronglySorted (λ a b, used_by z data b ≤ used_by z data a)%Z ranking ∧
  spec_user_rank result =
    map (λ u, {| ur_User := u; ur_rawQuota := num_of_Z (used_by z data u);
                 ur_Usage := user_usage stored (num_of_Z (used_by z data u)) |}) (take limit ranking) ∧
  spec_user_trend result =
    flat_map (λ t, map (λ u, {| ut_Time := t; ut_User := u; ut_rawQuota := num_of_Z (used_by_at z data t u);
                                ut_Usage := user_usage stored (num_of_Z (used_by_at z data t u)) |}) (take limit ranking))
      (array_sort str_cmp (array_of_set (map tkey data))).
Proof.
  intros Hne Hw. set (ranking := array_sort (λ a b, used_by z data b - used_by z data a)%Z (array_of_set (map user_key data))).
  assert (Hs : array_sort (descending snd) (user_totals data) = map (λ u, (u, num_of_Z (used_by z data u))) ranking).
  { rewrite (user_totals_entries z) by done. apply sort_by_count. intros u. split; [done|].
    pose proof (whole_group user_key quota z u data Hw) as Hu. pose proof (zsum_nonneg _ (whole_nonneg _ _ _ Hu)).
    destruct Hu. unfold used_by. lia. }
  exists ranking. cbv zeta. split; [apply array_sort_Permutation|]. split; [apply sorted_descending|].
  unfold processUserChartData. rewrite decide_False by done. rewrite Hs, firstn_map, !map_map. cbn [fst]. rewrite map_id.
  pose proof (user_at z data (take limit ranking)) as Hat. rewrite user_loop in *. cbn [fst] in Hat.
  cbn [spec_user_rank spec_user_trend]. split; [done|].
  apply flat_map_ext. intros t. apply map_ext_in. intros u Hu. apply list_elem_of_In in Hu. by rewrite Hat.
Qed.

End facts.

(** ** Amounts *)

(** An amount that is positive in the display currency is never shown as zero. *)
Theorem positive_amount_visible toLocaleString stored raw digits : digits = 2 ∨ digits = 4 → nlt pzero raw = true →
  match snd (getCurrencyDisplay stored) with
  | MTokens _ => renderQuotaCompat toLocaleString stored raw digits = toLocaleString raw
  | MCurrency symbol _ rate | MCustom symbol rate =>
      nlt pzero (nmul (ndiv raw (quotaPerUnit (fst (getCurrencyDisplay stored)))) rate) = true →
      ∃ text, renderQuotaCompat toLocaleString stored raw digits = symbol ++ text ∧ num_eqb (parse_float text) pzero = false
  end.
Proof.
  intros Hd Hr. unfold renderQuotaCompat. destruct (getCurrencyDisplay stored) as [config meta]. cbn [fst snd].
  assert (Hmin : num_eqb (parse_float (to_fixed digits (pow10 (- Z.of_nat digits)))) pzero = false)
    by (destruct Hd as [-> | ->]; vm_compute; reflexivity).
  destruct meta as [symbol code rate|symbol rate|q]; [| |done]; intros Hv; rewrite Hr, Hv, !andb_true_r;
    (destruct (num_eqb (parse_float (to_fixed digits (nmul _ rate))) pzero) eqn:E; eexists; (split; [reflexivity|done])).
Qed.

(** ** Examples *)

(** Days as texts: the day of the year, in place of a calendar. *)
Definition day_text (ms : num) : str := js "d" ++ string_of_num (ndiv ms (num_of_Z 86400000)).

Definition usage_item (day : Z) (model : string) (calls_ : Z) : QuotaDataItem := {|
  username := Some (js "ann"); model_name := Some (js model); created_at := num_of_Z (day * 86400);
  token_used := None; count := Some (num_of_Z calls_); quota := Some (num_of_Z (calls_ * 500000)) |}.

Definition a_week : list QuotaDataItem :=
  [usage_item 1 "a" 1; usage_item 2 "b" 5; usage_item 3 "a" 1; usage_item 4 "a" 1; usage_item 5 "b" 2; usage_item 5 "b" 2;
   usage_item 6 "c" 3; usage_item 7 "a" 1].

(** A count as an integer. *)
Definition whole_of (x : option num) : Z := default 0%Z (x ≫= integer_of).

Definition add_days (ms : num) (n : Z) : num := nadd ms (num_of_Z (n * 86400000)).

Local Abbreviation example_charts := (processChartData day_text day_text add_days str_cmp string_of_num string_of_num None (λ s, s)
  [] {| maxDomainLength := None; scheme := [] |} [] Day).

Lemma a_week_whole : whole count (λ x, whole_of (count x)) a_week ∧ whole quota (λ x, whole_of (quota x)) a_week.
Proof. split; (split; [repeat constructor; done|done]). Qed.

Lemma bars_show_every_item_witness :
  map (λ r, (u_Time r, u_Model r)) (spec_line (example_charts a_week)) ≡ₚ
    list_prod (chart_times day_text day_text add_days Day a_week) (array_of_set (map model_key a_week)).
Proof. apply (bars_show_every_item day_text day_text add_days). discriminate. Defined.

Lemma rankings_exact_witness : ∃ ranking,
  spec_pie (example_charts a_week) =
  map (λ m, {| p_type := m; p_value := num_of_Z (calls (λ x, whole_of (count x)) a_week m) |}) ranking.
Proof.
  destruct (rankings_exact day_text day_text add_days str_cmp string_of_num string_of_num None (λ s, s) []
    {| maxDomainLength := None; scheme := [] |} [] Day (λ x, whole_of (count x)) a_week) as (ranking & _ & _ & H & _).
  - discriminate.
  - apply a_week_whole.
  - exists ranking. exact H.
Defined.

Lemma area_conserves_usage_witness :
  length (List.filter (λ r, bool_decide (u_Time r = js "d5")) (spec_area (example_charts a_week))) ≤ 16.
Proof.
  apply (area_conserves_usage day_text day_text add_days str_cmp string_of_num string_of_num None (λ s, s) []
    {| maxDomainLength := None; scheme := [] |} [] Day (λ x, whole_of (quota x)) a_week (js "d5")).
  - vm_compute. lia.
  - apply a_week_whole.
  - apply (bool_decide_eq_true_1 (js "d5" ∈ map (time_key day_text day_text add_days Day) a_week)). vm_compute. reflexivity.
Defined.

Lemma user_charts_exact_witness : ∃ ranking : list str, ranking ≡ₚ array_of_set (map user_key a_week).
Proof.
  destruct (user_charts_exact day_text day_text add_days string_of_num None (λ s, s) [] Day (λ x, whole_of (quota x)) a_week 10)
    as (ranking & H & _).
  - discriminate.
  - apply a_week_whole.
  - exists ranking. exact H.
Defined.

(** With fewer than seven time points the charts show the seven intervals before the last item: usage of thirty days
    before is in no bar, and still in the totals. *)
Example old_usage_missing_from_bars :
  let data := [usage_item 1 "a" 3; usage_item 31 "b" 2] in
  sum_by u_rawQuota (spec_line (example_charts data)) = num_of_Z 1000000 ∧
  totalQuotaDisplay (example_charts data) = js "$5.00" ∧
  totalCountDisplay (example_charts data) = js "5" ∧
  sum_by c_Count (spec_model_line (example_charts data)) = num_of_Z 2.
Proof. vm_compute. repeat split. Qed.

(** Time points are ordered as texts, and the texts have no year: the last days of December come after the first of January. *)
Definition new_year_text (ms : num) : str :=
  let day := default 0%Z (integer_of (ndiv ms (num_of_Z 86400000))) in
  if (day <? 4)%Z then js "12-" ++ string_of_num (num_of_Z (28 + day)) else js "01-0" ++ string_of_num (num_of_Z (day - 3)).

Example new_year_before_december :
  map u_Time (spec_line (processChartData new_year_text new_year_text add_days str_cmp string_of_num string_of_num None (λ s, s)
    [] {| maxDomainLength := None; scheme := [] |} [] Day (map (λ d, usage_item d "a" 1) [0; 1; 2; 3; 4; 5; 6; 7]%Z))) =
  [js "01-01"; js "01-02"; js "01-03"; js "01-04"; js "12-28"; js "12-29"; js "12-30"; js "12-31"].
Proof. vm_compute. reflexivity. Qed.
