(* ===== verification/ApiKeys.v ===== *)
(** * API keys ([features/keys/lib/api-key-form.ts], [features/keys/components/api-keys-mutate-drawer.tsx],
      [auto-group-order-editor.tsx], quota units of [lib/format.ts])

    A drawer creates and edits the keys with which a user calls the gateway.  A key belongs to a group; the special
    group [auto] tries several groups in order, either the administrator's global order ([inherit]) or one of the key's own
    ([custom]), which an editor inside the drawer arranges.

    The form and the drawer's preferences are one state and every handler a function on it.  The server's lists
    (groups, automatic order, the key that is edited) are arguments; a date is its time value, [None] an invalid date;
    the drag library's new order and the random suffixes of names are arguments. *)

From stdpp Require Import relations.
From S2P Require Import Prelude JsString JsNumber JsNumberFacts JsInteger Currency JsDate.

(** ** Quota units ([lib/format.ts]) *)

Section quota.
Context (stored : option PartialCurrencyConfig).

Definition parseQuotaFromDollars (amount : num) : num :=
  if negb (is_finite amount) then pzero
  else
    let '(config, meta) := getCurrencyDisplay stored in
    match meta with
    | MTokens _ => math_round amount
    | MCurrency _ _ exchangeRate | MCustom _ exchangeRate =>
        let usdAmount := if nlt pzero exchangeRate then ndiv amount exchangeRate else amount in
        math_round (nmul usdAmount (quotaPerUnit config))
    end.

Definition quotaUnitsToDollars (units : num) : num :=
  let '(config, meta) := getCurrencyDisplay stored in
  match meta with
  | MTokens _ => units
  | MCurrency _ _ exchangeRate | MCustom _ exchangeRate => nmul (ndiv units (quotaPerUnit config)) exchangeRate
  end.

End quota.

(** ** Data *)

Inductive AutoGroupsMode := inherit | custom.

#[export] Instance auto_mode_eq : EqDecision AutoGroupsMode.
Proof. solve_decision. Defined.

Record ApiKeyFormValues := {
  name : str;
  remain_quota_dollars : option num;
  expired_time : option (option Z);
  unlimited_quota : bool;
  model_limits : list str;
  allow_ips : option str;
  key_group : option str;
  auto_groups_mode : AutoGroupsMode;
  auto_groups : list str;
  cross_group_retry : option bool;
  tokenCount : option Z }.

Record ApiKey := {
  k_name : str;
  k_remain_quota : num;
  k_unlimited_quota : bool;
  k_expired_time : num;
  k_group : option str;
  k_auto_groups : option (list str);
  k_cross_group_retry : bool;
  k_model_limits_enabled : bool;
  k_model_limits : option str;
  k_allow_ips : option str }.

Record ApiKeyFormData := {
  d_name : str;
  d_remain_quota : num;
  d_expired_time : num;
  d_unlimited_quota : bool;
  d_model_limits_enabled : bool;
  d_model_limits : str;
  d_allow_ips : str;
  d_group : str;
  d_auto_groups : list str;
  d_cross_group_retry : bool }.

Definition AUTO : str := js "auto".
Definition DEFAULT_GROUP : str := [].

(** [s || ''] *)
Definition or_blank (s : option str) : str := default [] s.

(** ** Validation *)

Definition autoGroupLimit (maxAutoGroups : Z) : Z := if (0 <? maxAutoGroups)%Z then maxAutoGroups else 5.

Inductive Issue := NoGlobalOrder | NoAutoGroup | TooManyAutoGroups | DuplicateAutoGroups | NegativeQuota.

(** The issues [superRefine] adds, in order. *)
Definition refine_issues (maxAutoGroups : Z) (hasGlobalAutoGroups : bool) (data : ApiKeyFormValues) : list Issue :=
  (if bool_decide (key_group data = Some AUTO) then
     (if bool_decide (auto_groups_mode data = inherit) && negb hasGlobalAutoGroups then [NoGlobalOrder] else []) ++
     (if bool_decide (auto_groups_mode data = custom) && bool_decide (length (auto_groups data) = 0)
      then [NoAutoGroup] else []) ++
     (if (autoGroupLimit maxAutoGroups <? Z.of_nat (length (auto_groups data)))%Z then [TooManyAutoGroups] else []) ++
     (if negb (bool_decide (length (array_of_set (auto_groups data)) = length (auto_groups data)))
      then [DuplicateAutoGroups] else [])
   else []) ++
  (if unlimited_quota data then []
   else match remain_quota_dollars data with
        | None => [NegativeQuota]
        | Some q => if nlt q pzero then [NegativeQuota] else []
        end).

(** The checks of the single fields: a name, a valid date, a positive quantity. *)
Definition fields_valid (data : ApiKeyFormValues) : bool :=
  bool_decide (1 ≤ length (name data)) &&
  match expired_time data with Some None => false | _ => true end &&
  match tokenCount data with Some n => (1 <=? n)%Z | None => true end.

Definition form_valid (maxAutoGroups : Z) (hasGlobalAutoGroups : bool) (data : ApiKeyFormValues) : bool :=
  fields_valid data && match refine_issues maxAutoGroups hasGlobalAutoGroups data with [] => true | _ => false end.

(** ** Defaults and conversions *)

Definition getApiKeyFormDefaultValues (defaultUseAutoGroup autoCrossGroupRetryEnabled : bool) : ApiKeyFormValues := {|
  name := []; remain_quota_dollars := Some (num_of_Z 10); expired_time := None; unlimited_quota := true;
  model_limits := []; allow_ips := Some [];
  key_group := Some (if defaultUseAutoGroup then AUTO else DEFAULT_GROUP);
  auto_groups_mode := inherit; auto_groups := [];
  cross_group_retry := Some (defaultUseAutoGroup && autoCrossGroupRetryEnabled);
  tokenCount := Some 1%Z |}.

(** [Math.floor(date.getTime() / 1000)] *)
Definition seconds_of (date : option Z) : num :=
  match date with
  | Some t => math_floor (ndiv (num_of_Z t) (num_of_Z 1000))
  | None => S754_nan
  end.

Definition transformFormDataToPayload (cfg : option PartialCurrencyConfig) (data : ApiKeyFormValues) : ApiKeyFormData := {|
  d_name := name data;
  d_remain_quota :=
    if unlimited_quota data then pzero else parseQuotaFromDollars cfg (or_zero (default S754_nan (remain_quota_dollars data)));
  d_expired_time := match expired_time data with Some date => seconds_of date | None => num_of_Z (-1) end;
  d_unlimited_quota := unlimited_quota data;
  d_model_limits_enabled := bool_decide (0 < length (model_limits data));
  d_model_limits := join (js ",") (model_limits data);
  d_allow_ips := or_blank (allow_ips data);
  d_group := or_blank (key_group data);
  d_auto_groups :=
    if bool_decide (key_group data = Some AUTO) && bool_decide (auto_groups_mode data = custom) then auto_groups data else [];
  d_cross_group_retry :=
    if bool_decide (key_group data = Some AUTO) then default false (cross_group_retry data) else false |}.

Definition transformApiKeyToFormDefaults (cfg : option PartialCurrencyConfig) (apiKey : ApiKey)
    (availableAutoGroups : list str) (maxAutoGroups : Z) (hasGlobalAutoGroups : bool) : ApiKeyFormValues :=
  let storedAutoGroups := default [] (k_auto_groups apiKey) in
  let autoGroups :=
    take (Z.to_nat (Z.max 0 maxAutoGroups)) (List.filter (λ g, set_has g availableAutoGroups) storedAutoGroups) in
  {| name := k_name apiKey;
     remain_quota_dollars := Some (if k_unlimited_quota apiKey then pzero else quotaUnitsToDollars cfg (k_remain_quota apiKey));
     expired_time :=
       if nlt pzero (k_expired_time apiKey) then Some (time_clip (nmul (k_expired_time apiKey) (num_of_Z 1000))) else None;
     unlimited_quota := k_unlimited_quota apiKey;
     model_limits := if truthy (or_blank (k_model_limits apiKey))
                     then List.filter truthy (split (js ",") (or_blank (k_model_limits apiKey))) else [];
     allow_ips := Some (or_blank (k_allow_ips apiKey));
     key_group := Some (if truthy (or_blank (k_group apiKey)) then or_blank (k_group apiKey) else DEFAULT_GROUP);
     auto_groups_mode :=
       if bool_decide (0 < length storedAutoGroups) || negb hasGlobalAutoGroups then custom else inherit;
     auto_groups := autoGroups;
     cross_group_retry := Some (k_cross_group_retry apiKey);
     tokenCount := Some 1%Z |}.

(** ** What the server says *)

Record GroupInfo := { g_desc : option str; g_ratio : option num }.

Record TokenAutoGroupsConfig := {
  cfg_groups : list str;
  cfg_max_count : option num;
  cfg_cross_group_retry_enabled : option bool }.

(** The user's groups in the order of the answer, the automatic order, the site's default. *)
Record Server := {
  groupsRaw : list (str * GroupInfo);
  autoGroupsData : option TokenAutoGroupsConfig;
  defaultUseAutoGroup : bool }.

Record ApiKeyGroupOption := { o_value : str; o_desc : str; o_ratio : option num }.

Section drawer.
Context (cfg : option PartialCurrencyConfig) (tt : str → str) (sv : Server).

Definition availableGroupValues : list str := map fst (groupsRaw sv).

(** [auto] first, the others as they come. *)
Definition auto_first (left right : str * GroupInfo) : Z :=
  if bool_decide (fst left = AUTO) then -1 else if bool_decide (fst right = AUTO) then 1 else 0.

Definition group_option (entry : str * GroupInfo) : ApiKeyGroupOption :=
  let '(key, info) := entry in
  {| o_value := key;
     o_desc := if bool_decide (key = AUTO)
               then tt (js "Automatically selects the best available group with circuit breaker mechanism")
               else if truthy (or_blank (g_desc info)) then or_blank (g_desc info) else key;
     o_ratio := g_ratio info |}.

Definition groups : list ApiKeyGroupOption := map group_option (array_sort auto_first (groupsRaw sv)).

Definition backendHasAuto : bool := set_has AUTO availableGroupValues.

Definition availableAutoGroupValues : list str := List.filter (λ g, negb (bool_decide (g = AUTO))) availableGroupValues.

Definition globalAutoGroups : list str :=
  List.filter (λ g, set_has g availableAutoGroupValues) (default [] (cfg_groups <$> autoGroupsData sv)).

Definition globalAutoGroupOptions : list ApiKeyGroupOption :=
  flat_map (λ g, match List.find (λ o, bool_decide (o_value o = g)) groups with Some o => [o] | None => [] end) globalAutoGroups.

Definition hasGlobalAutoGroups : bool := bool_decide (0 < length globalAutoGroupOptions).

Definition maxAutoGroups : Z :=
  match (autoGroupsData sv ≫= cfg_max_count) ≫= integer_of with
  | Some n => if (0 <? n)%Z then n else 5
  | None => 5
  end.

Definition autoCrossGroupRetryEnabled : bool :=
  negb (bool_decide (autoGroupsData sv ≫= cfg_cross_group_retry_enabled = Some false)).

(** ** The drawer *)

Record Drawer := { form : ApiKeyFormValues; preferredGroup : str }.

Definition with_form (st : Drawer) (f : ApiKeyFormValues) : Drawer := {| form := f; preferredGroup := preferredGroup st |}.

(** Assignments [form.setValue(field, value)] of the fields that belong together. *)
Definition set_group (f : ApiKeyFormValues) (g : str) : ApiKeyFormValues := {|
  name := name f; remain_quota_dollars := remain_quota_dollars f; expired_time := expired_time f;
  unlimited_quota := unlimited_quota f; model_limits := model_limits f; allow_ips := allow_ips f; key_group := Some g;
  auto_groups_mode := auto_groups_mode f; auto_groups := auto_groups f; cross_group_retry := cross_group_retry f;
  tokenCount := tokenCount f |}.

Definition set_auto (f : ApiKeyFormValues) (mode : AutoGroupsMode) (gs : list str) : ApiKeyFormValues := {|
  name := name f; remain_quota_dollars := remain_quota_dollars f; expired_time := expired_time f;
  unlimited_quota := unlimited_quota f; model_limits := model_limits f; allow_ips := allow_ips f; key_group := key_group f;
  auto_groups_mode := mode; auto_groups := gs; cross_group_retry := cross_group_retry f; tokenCount := tokenCount f |}.

Definition set_retry (f : ApiKeyFormValues) (b : bool) : ApiKeyFormValues := {|
  name := name f; remain_quota_dollars := remain_quota_dollars f; expired_time := expired_time f;
  unlimited_quota := unlimited_quota f; model_limits := model_limits f; allow_ips := allow_ips f; key_group := key_group f;
  auto_groups_mode := auto_groups_mode f; auto_groups := auto_groups f; cross_group_retry := Some b; tokenCount := tokenCount f |}.

(** The other fields, which no handler relates to the groups. *)
Inductive PlainField :=
  | FName (s : str) | FQuota (text : str) | FExpiry (date : option Z) | FNever | FUnlimited (b : bool)
  | FModels (l : list str) | FIps (s : str) | FCount (n : Z).

(** [parseFloat(e.target.value) || 0], [parseInt(e.target.value, 10) || 1] (given as [n]) and plain assignments *)
Definition set_plain (f : ApiKeyFormValues) (c : PlainField) : ApiKeyFormValues := {|
  name := match c with FName s => s | _ => name f end;
  remain_quota_dollars := match c with FQuota text => Some (or_zero (parse_float text)) | _ => remain_quota_dollars f end;
  expired_time := match c with FExpiry d => Some d | FNever => None | _ => expired_time f end;
  unlimited_quota := match c with FUnlimited b => b | _ => unlimited_quota f end;
  model_limits := match c with FModels l => l | _ => model_limits f end;
  allow_ips := match c with FIps s => Some s | _ => allow_ips f end;
  key_group := key_group f; auto_groups_mode := auto_groups_mode f; auto_groups := auto_groups f;
  cross_group_retry := cross_group_retry f;
  tokenCount := match c with FCount n => Some (if (n =? 0)%Z then 1%Z else n) | _ => tokenCount f end |}.

(** The effect that fills the form of a new key. *)
Definition open_create (preferred : str) : Drawer :=
  let defaults := getApiKeyFormDefaultValues (defaultUseAutoGroup sv && backendHasAuto) autoCrossGroupRetryEnabled in
  let normalizedPreferredGroup := trim preferred in
  {| form := if truthy normalizedPreferredGroup && set_has normalizedPreferredGroup availableGroupValues
             then set_retry (set_group defaults normalizedPreferredGroup) false else defaults;
     preferredGroup := preferred |}.

(** The answer to [getApiKey] fills the form of an existing key. *)
Definition key_loaded (st : Drawer) (apiKey : ApiKey) : Drawer :=
  with_form st (transformApiKeyToFormDefaults cfg apiKey availableAutoGroupValues maxAutoGroups hasGlobalAutoGroups).

(** The effect that runs when the groups change: a group that is not offered is replaced. *)
Definition correct_group (st : Drawer) : Drawer :=
  match groups with
  | [] => st
  | g0 :: _ =>
      let offered g := set_has g (map o_value groups) in
      let currentGroup := or_blank (key_group (form st)) in
      let f :=
        if truthy currentGroup && negb (offered currentGroup) then
          let fallback := if offered (js "default") then js "default" else o_value g0 in
          let f := set_group (form st) fallback in
          if bool_decide (currentGroup = AUTO) then set_retry (set_auto f inherit []) false else f
        else form st in
      {| form := f;
         preferredGroup :=
           let p := trim (preferredGroup st) in if truthy p && negb (offered p) then [] else preferredGroup st |}
  end.

(** [onValueChange] of the group *)
Definition select_group (f : ApiKeyFormValues) (g : str) : ApiKeyFormValues :=
  let f := set_group f g in
  if bool_decide (g = AUTO) then
    set_retry (if hasGlobalAutoGroups then f else set_auto f custom []) autoCrossGroupRetryEnabled
  else set_retry (set_auto f inherit []) false.

(** [checked] of the switch for retries *)
Definition retry_shown (f : ApiKeyFormValues) : bool := autoCrossGroupRetryEnabled && default false (cross_group_retry f).

(** ** The editor of the order ([auto-group-order-editor.tsx]) *)

Definition editorMaxCount : Z := if (0 <? maxAutoGroups)%Z then maxAutoGroups else 5.

Definition displayedGroups (f : ApiKeyFormValues) : list str :=
  if bool_decide (auto_groups_mode f = inherit) then map o_value globalAutoGroupOptions else auto_groups f.

Definition candidates (f : ApiKeyFormValues) : list ApiKeyGroupOption :=
  List.filter (λ o, negb (bool_decide (o_value o = AUTO)) && negb (set_has (o_value o) (displayedGroups f))) groups.

Definition addGroup (f : ApiKeyFormValues) (g : str) : ApiKeyFormValues :=
  let shown := displayedGroups f in
  if negb (truthy g) || set_has g shown || (editorMaxCount <=? Z.of_nat (length shown))%Z then f
  else set_auto f custom (shown ++ [g]).

(** [offset] is one up or one down. *)
Definition moveGroup (f : ApiKeyFormValues) (index : nat) (up : bool) : ApiKeyFormValues :=
  let shown := displayedGroups f in
  let target := (Z.of_nat index + if up then -1 else 1)%Z in
  if (target <? 0)%Z || (Z.of_nat (length shown) <=? target)%Z then f
  else
    let target := Z.to_nat target in
    match shown !! index, shown !! target with
    | Some a, Some b => set_auto f custom (<[target := a]> (<[index := b]> shown))
    | _, _ => f
    end.

Definition removeGroup (f : ApiKeyFormValues) (g : str) : ApiKeyFormValues :=
  set_auto f custom (List.filter (λ x, negb (bool_decide (x = g))) (displayedGroups f)).

Definition reorder (f : ApiKeyFormValues) (next : list str) : ApiKeyFormValues := set_auto f custom next.

Definition restore (f : ApiKeyFormValues) : ApiKeyFormValues := set_auto f inherit [].

(** ** Saving *)

(** What a request to create a key returns. *)
Inductive Reply := Accepted | Refused | Failed.

(** The name of the [i]-th key of a batch. *)
Definition batch_name (data : ApiKeyFormValues) (suffix : nat → str) (i : nat) : str :=
  if bool_decide (i = 0) && truthy (name data) then name data
  else (if truthy (name data) then name data else js "default") ++ js "-" ++ suffix i.

Definition with_name (d : ApiKeyFormData) (n : str) : ApiKeyFormData := {|
  d_name := n; d_remain_quota := d_remain_quota d; d_expired_time := d_expired_time d; d_unlimited_quota := d_unlimited_quota d;
  d_model_limits_enabled := d_model_limits_enabled d; d_model_limits := d_model_limits d; d_allow_ips := d_allow_ips d;
  d_group := d_group d; d_auto_groups := d_auto_groups d; d_cross_group_retry := d_cross_group_retry d |}.

(** The requests sent, the successes, and whether an exception left the loop. *)
Record Batch := { sent : list ApiKeyFormData; successCount : nat; threw : bool }.

(** The loop over [i], [left] rounds before its end. *)
Fixpoint create_from (data : ApiKeyFormValues) (suffix : nat → str) (reply : nat → Reply) (i left : nat) : Batch :=
  match left with
  | O => {| sent := []; successCount := 0; threw := false |}
  | S left' =>
      let request := with_name (transformFormDataToPayload cfg data) (batch_name data suffix i) in
      match reply i with
      | Accepted =>
          let rest := create_from data suffix reply (S i) left' in
          {| sent := request :: sent rest; successCount := S (successCount rest); threw := threw rest |}
      | Refused => {| sent := [request]; successCount := 0; threw := false |}
      | Failed => {| sent := [request]; successCount := 0; threw := true |}
      end
  end.

(** [data.tokenCount || 1] *)
Definition batch_size (data : ApiKeyFormValues) : nat :=
  match tokenCount data with
  | Some n => if (n =? 0)%Z then 1 else Z.to_nat n
  | None => 1
  end.

(** Creating keys: the batch, and whether the drawer closes. *)
Definition submit_create (data : ApiKeyFormValues) (suffix : nat → str) (reply : nat → Reply) : Batch * bool :=
  let b := create_from data suffix reply 0 (batch_size data) in
  (b, negb (threw b) && bool_decide (0 < successCount b)).

(** Updating a key: the request, and whether the drawer closes. *)
Definition submit_update (data : ApiKeyFormValues) (reply : Reply) : ApiKeyFormData * bool :=
  (transformFormDataToPayload cfg data, match reply with Accepted => true | _ => false end).

End drawer.

(** * Properties of the drawer for API keys ([ApiKeys]) *)


(** ** Numbers of the form *)

Lemma num_trunc_int z : safe z → num_trunc (num_of_Z z) = Some z.
Proof.
  intros Hz. destruct (decide (z = 0)%Z) as [->|Hn]; [done|].
  destruct (int_mantissa z Hz Hn) as (s & m & e & -> & He & Hm). cbn [num_trunc].
  pose proof (Z.pow_pos_nonneg 2 (- e)) as H2.
  assert (Hn' : (if (0 <=? e)%Z then Z.pos m * 2 ^ e else Z.pos m / 2 ^ (- e))%Z = Z.abs z).
  { assert (Ha : (Z.pos m = Z.abs z * 2 ^ (- e))%Z) by (destruct s; nia). destruct (Z.leb_spec 0 e).
    - replace e with 0%Z in * by lia. change (2 ^ 0)%Z with 1%Z. change (2 ^ - 0)%Z with 1%Z in Ha. lia.
    - rewrite Ha. apply Z.div_mul. lia. }
  rewrite Hn'. f_equal. destruct s; nia.
Qed.

(** An expiry in whole seconds survives the date of the form. *)
Lemma expiry_round_trip s : (0 < s ≤ 8640000000000)%Z →
  ∃ t, time_clip (nmul (num_of_Z s) (num_of_Z 1000)) = Some t ∧ seconds_of (Some t) = num_of_Z s.
Proof.
  intros Hs. exists (s * 1000)%Z. destruct s as [|p|p]; [lia| |lia]. change (num_of_Z 1000) with (num_of_Z (Zpos 1000)).
  split.
  - rewrite nmul_int by (unfold safe; lia). unfold time_clip. rewrite num_trunc_int by (unfold safe; lia).
    unfold MAX_TIME. rewrite (proj2 (Z.leb_le _ _)); [done|lia].
  - unfold seconds_of. change (num_of_Z 1000) with (num_of_Z (Zpos 1000)).
    rewrite ndiv_int by (unfold safe; lia). apply math_floor_int. unfold safe. lia.
Qed.

(** Where quota is shown in tokens, it survives too. *)
Lemma quota_round_trip_tokens cfg q z : snd (getCurrencyDisplay cfg) = MTokens q → safe z →
  parseQuotaFromDollars cfg (or_zero (quotaUnitsToDollars cfg (num_of_Z z))) = num_of_Z z.
Proof.
  intros Hm Hz. unfold parseQuotaFromDollars, quotaUnitsToDollars. destruct (getCurrencyDisplay cfg) as [config meta].
  cbn [snd] in Hm. subst meta. rewrite or_zero_int, safe_finite by done. by apply math_round_int.
Qed.

Lemma limits_round_trip ms : Forall (λ m, truthy m = true ∧ 44%N ∉ m) ms →
  (if truthy (join (js ",") ms) then List.filter truthy (split (js ",") (join (js ",") ms)) else []) = ms.
Proof.
  intros H. destruct ms as [|m ms]; [done|]. assert (Ht : truthy (join (js ",") (m :: ms)) = true).
  { inversion H as [|? ? [Hm _] _]; subst. destruct m; [done|]. destruct ms; [done|]. rewrite join_cons by done. done. }
  rewrite Ht. change (js ",") with [44%N]. rewrite split_join; [|done|].
  - apply bfilter_id. intros x Hx. rewrite Forall_forall in H. by apply H.
  - eapply Forall_impl; [exact H|]. by intros x [_ ?].
Qed.

(** ** Editing a key *)

Section facts.
Context (cfg : option PartialCurrencyConfig) (tt : str → str) (sv : Server).

Local Abbreviation available := (availableAutoGroupValues sv).

(** A key as the server keeps it: an expiry in whole seconds or never, and a list of models, enabled or not. *)
Definition key_ok (k : ApiKey) (ms : list str) : Prop :=
  (k_expired_time k = num_of_Z (-1) ∨ ∃ s, (0 < s ≤ 8640000000000)%Z ∧ k_expired_time k = num_of_Z s) ∧
  or_blank (k_model_limits k) = join (js ",") ms ∧ Forall (λ m, truthy m = true ∧ 44%N ∉ m) ms.

(** What is left of a stored order: the groups that are still on offer, up to the limit. *)
Definition offered_order (k : ApiKey) : list str :=
  take (Z.to_nat (Z.max 0 (maxAutoGroups sv))) (List.filter (λ x, set_has x available) (default [] (k_auto_groups k))).

Lemma kept_order k : Forall (λ x, x ∈ available) (default [] (k_auto_groups k)) →
  (Z.of_nat (length (default [] (k_auto_groups k))) ≤ maxAutoGroups sv)%Z → offered_order k = default [] (k_auto_groups k).
Proof.
  intros Ha Hl. unfold offered_order. rewrite bfilter_id.
  - apply take_ge. lia.
  - intros x Hx. apply set_has_true. rewrite Forall_forall in Ha. by apply Ha.
Qed.

(** The parts of the payload of an unchanged form. *)
Lemma kept_expiry k ms : key_ok k ms →
  match (if nlt pzero (k_expired_time k) then Some (time_clip (nmul (k_expired_time k) (num_of_Z 1000))) else None) with
  | Some date => seconds_of date | None => num_of_Z (-1) end = k_expired_time k.
Proof.
  intros ([->|(s & Hs & ->)] & _); [done|]. rewrite nlt_zero_int by (unfold safe; lia).
  rewrite (proj2 (Z.ltb_lt 0 s)) by lia. destruct (expiry_round_trip s Hs) as (t & -> & Ht). exact Ht.
Qed.

Lemma kept_group g : (if truthy g then g else DEFAULT_GROUP) = g.
Proof. by destruct g. Qed.

Lemma sent_order k (b : bool) : (if b && bool_decide ((if bool_decide (0 < length (default [] (k_auto_groups k))) || negb (hasGlobalAutoGroups tt sv)
    then custom else inherit) = custom) then offered_order k else []) = if b then offered_order k else [].
Proof.
  destruct b; [|done]. cbn [andb]. case_bool_decide; [done|]. unfold offered_order. destruct (default [] (k_auto_groups k)) as [|x l]; [cbn [List.filter]; by rewrite take_nil|].
  by destruct H.
Qed.


(** ** Runs of the drawer *)

Local Abbreviation offered := (map o_value (groups tt sv)).
Local Abbreviation shown := (displayedGroups tt sv).

(** One event: a field, the group, a switch or the editor of the order, which is on screen only with the group [auto];
    the drag library hands over a permutation of the rows. *)
Inductive drawer_step (st : Drawer) : Drawer → Prop :=
  | step_plain c : drawer_step st (with_form st (set_plain (form st) c))
  | step_select g : g ∈ offered → drawer_step st (with_form st (select_group tt sv (form st) g))
  | step_correct : drawer_step st (correct_group tt sv st)
  | step_retry b : key_group (form st) = Some AUTO → drawer_step st (with_form st (set_retry (form st) b))
  | step_add g : key_group (form st) = Some AUTO → g ∈ map o_value (candidates tt sv (form st)) →
      drawer_step st (with_form st (addGroup tt sv (form st) g))
  | step_move i up : key_group (form st) = Some AUTO → drawer_step st (with_form st (moveGroup tt sv (form st) i up))
  | step_remove g : key_group (form st) = Some AUTO → drawer_step st (with_form st (removeGroup tt sv (form st) g))
  | step_reorder next : key_group (form st) = Some AUTO → next ≡ₚ shown (form st) →
      drawer_step st (with_form st (reorder (form st) next))
  | step_restore : key_group (form st) = Some AUTO → drawer_step st (with_form st (restore (form st))).

(** An order of groups: distinct groups on offer, no more than the limit or than the global order has. *)
Definition order_ok (l : list str) : Prop :=
  NoDup l ∧ Forall (λ g, g ∈ available) l ∧
  (Z.of_nat (length l) ≤ Z.max (editorMaxCount sv) (Z.of_nat (length (globalAutoGroups sv))))%Z.

(** Where a run starts: a new key, or a key that arrived from the server, whose order has no repetition. *)
Inductive opened_form : bool → Drawer → Prop :=
  | opened_new preferred : opened_form true (open_create sv preferred)
  | opened_key st k : NoDup (default [] (k_auto_groups k)) → opened_form false (key_loaded cfg tt sv st k).

Context (new : bool).

Definition form_ok (f : ApiKeyFormValues) : Prop :=
  (new = true → key_group f ≠ Some AUTO → auto_groups_mode f = inherit ∧ cross_group_retry f = Some false) ∧
  (auto_groups_mode f = inherit → auto_groups f = []) ∧ order_ok (auto_groups f).

(** The administrator's global order has no repetition. *)
Context (global_distinct : NoDup (default [] (cfg_groups <$> autoGroupsData sv))).

Lemma offered_perm : offered ≡ₚ availableGroupValues sv.
Proof.
  unfold groups, availableGroupValues. rewrite map_map. rewrite (map_ext (λ x, o_value (group_option tt x)) fst) by (by intros []).
  by rewrite array_sort_Permutation.
Qed.

Lemma elem_of_available g : g ∈ available ↔ g ∈ offered ∧ g ≠ AUTO.
Proof.
  unfold availableAutoGroupValues. rewrite elem_of_bfilter, offered_perm, negb_true_iff, bool_decide_eq_false. done.
Qed.

(** The rows shown for the global order are the global order. *)
Lemma global_values : map o_value (globalAutoGroupOptions tt sv) = globalAutoGroups sv.
Proof.
  unfold globalAutoGroupOptions. assert (H : Forall (λ g, g ∈ offered) (globalAutoGroups sv)).
  { apply Forall_forall. intros g Hg. apply elem_of_bfilter in Hg as [_ Hg]. apply set_has_true, elem_of_available in Hg. apply Hg. }
  induction H as [|g l Hg _ IH]; [done|]. cbn [flat_map]. rewrite map_app, IH.
  destruct (List.find _ (groups tt sv)) as [o|] eqn:E.
  - apply find_some in E as [_ E]. apply bool_decide_eq_true in E. cbn. by rewrite E.
  - apply elem_of_lmap in Hg as (o & -> & Ho). apply list_elem_of_In in Ho. apply (find_none _ _ E) in Ho.
    by apply bool_decide_eq_false in Ho.
Qed.

Lemma order_nil : order_ok [].
Proof. split; [constructor|]. split; [constructor|]. cbn. lia. Qed.

Lemma order_global : order_ok (globalAutoGroups sv).
Proof.
  split; [by apply bfilter_NoDup|]. split; [|lia]. apply Forall_forall. intros g Hg.
  apply elem_of_bfilter in Hg as [_ Hg]. by apply set_has_true in Hg.
Qed.

Lemma shown_ok f : form_ok f → order_ok (shown f).
Proof.
  intros (_ & _ & Ho). unfold displayedGroups. case_bool_decide; [|done]. rewrite global_values. apply order_global.
Qed.

Lemma order_perm l l' : l ≡ₚ l' → order_ok l' → order_ok l.
Proof. intros H (H1 & H2 & H3). split; [by rewrite H|]. split; [by rewrite H|]. by rewrite H. Qed.

Lemma order_sublist l l' : l `sublist_of` l' → order_ok l' → order_ok l.
Proof.
  intros H (H1 & H2 & H3). split; [by eapply sublist_NoDup|]. split.
  - rewrite Forall_forall in *. intros g Hg. apply H2. by eapply elem_of_sublist.
  - pose proof (sublist_length _ _ H). lia.
Qed.

(** The editor's results. *)
Lemma set_auto_custom f l : key_group f = Some AUTO → order_ok l → form_ok (set_auto f custom l).
Proof. intros Hg Hl. split; [done|]. split; [done|exact Hl]. Qed.

Lemma drawer_add_ok f g : form_ok f → key_group f = Some AUTO → g ∈ map o_value (candidates tt sv f) → form_ok (addGroup tt sv f g).
Proof.
  intros Hf Ha Hg. unfold addGroup. destruct (_ || _) eqn:E; [done|]. apply orb_false_iff in E as [_ Hm%Z.leb_gt].
  apply set_auto_custom; [done|]. destruct (shown_ok f Hf) as (H1 & H2 & H3).
  apply elem_of_lmap in Hg as (o & -> & Ho). apply elem_of_bfilter in Ho as [Ho [Hauto Hnew]%andb_true_iff].
  apply negb_true_iff, bool_decide_eq_false in Hauto. apply negb_true_iff, set_has_false in Hnew. split; [|split].
  - apply NoDup_app. split; [done|]. split; [|apply NoDup_singleton]. intros x Hx ->%list_elem_of_singleton. done.
  - apply Forall_app. split; [done|]. apply Forall_singleton, elem_of_available. split; [|done]. apply elem_of_lmap. by exists o.
  - rewrite length_app. cbn [length]. lia.
Qed.

Lemma drawer_move_ok f i up : form_ok f → key_group f = Some AUTO → form_ok (moveGroup tt sv f i up).
Proof.
  intros Hf Ha. unfold moveGroup. destruct (_ || _); [done|]. set (j := Z.to_nat _).
  destruct (shown f !! i) as [a|] eqn:Ei; [|done]. destruct (shown f !! j) as [b|] eqn:Ej; [|done].
  apply set_auto_custom; [done|]. eapply order_perm; [|apply (shown_ok f Hf)].
  by apply Permutation_insert_swap.
Qed.

Lemma correct_ok st : form_ok (form st) → form_ok (form (correct_group tt sv st)).
Proof.
  intros Hf. unfold correct_group. destruct (groups tt sv) as [|g0 gs]; [done|]. cbn [form].
  destruct (truthy _ && _) eqn:E; [|done]. case_bool_decide as Ha.
  - split; [done|]. split; [done|apply order_nil].
  - destruct Hf as (H1 & H2 & H3). split; [|split; [exact H2|exact H3]]. intros Hn _. apply (H1 Hn). intros Hk. rewrite Hk in Ha.
    by destruct Ha.
Qed.

Lemma drawer_select_ok f g : form_ok f → form_ok (select_group tt sv f g).
Proof.
  intros (H1 & H2 & H3). unfold select_group. case_bool_decide as Hg.
  - destruct (hasGlobalAutoGroups tt sv).
    + split; [intros _ Hn; destruct Hn; by rewrite Hg|]. split; [exact H2|exact H3].
    + split; [intros _ Hn; destruct Hn; by rewrite Hg|]. split; [done|apply order_nil].
  - split; [done|]. split; [done|apply order_nil].
Qed.

Lemma open_create_ok preferred : form_ok (form (open_create sv preferred)).
Proof.
  unfold open_create. cbn [form]. destruct (_ && set_has (trim preferred) _).
  - split; [done|]. split; [done|apply order_nil].
  - split; [|split; [done|apply order_nil]]. cbn. intros _ Hn. split; [done|]. by destruct (defaultUseAutoGroup sv && backendHasAuto sv).
Qed.

Lemma drawer_step_ok st st' : drawer_step st st' → form_ok (form st) → form_ok (form st').
Proof.
  intros Hs Hf. destruct Hs as [c|g Hg| |b Ha|g Ha Hg|i up Ha|g Ha|next Ha Hn|Ha]; cbn [form with_form].
  - exact Hf.
  - by apply drawer_select_ok.
  - by apply correct_ok.
  - destruct Hf as (_ & H2 & H3). split; [|split; [exact H2|exact H3]]. done.
  - by apply drawer_add_ok.
  - by apply drawer_move_ok.
  - apply set_auto_custom; [done|]. eapply order_sublist; [|by apply shown_ok]. apply bfilter_sublist.
  - apply set_auto_custom; [done|]. eapply order_perm; [exact Hn|]. by apply shown_ok.
  - split; [done|]. split; [done|apply order_nil].
Qed.

Lemma max_groups_pos : (0 < maxAutoGroups sv)%Z.
Proof. unfold maxAutoGroups. destruct (_ ≫= _) as [n|]; [|done]. destruct (0 <? n)%Z eqn:E; [by apply Z.ltb_lt|done]. Qed.

Lemma loaded_ok st k : new = false → NoDup (default [] (k_auto_groups k)) → form_ok (form (key_loaded cfg tt sv st k)).
Proof.
  intros Hnew Hn. unfold key_loaded, transformApiKeyToFormDefaults. cbn [form with_form]. fold (offered_order k). split; [intros Ht; congruence|]. cbn [auto_groups_mode auto_groups]. split.
  - case_match eqn:E; [done|]. apply orb_false_iff in E as [E _]. apply bool_decide_eq_false in E. intros _. unfold offered_order.
    destruct (default [] (k_auto_groups k)) as [|x l]; [cbn [List.filter]; by rewrite take_nil|]. cbn in E. lia.
  - unfold offered_order. split_and!.
    + eapply sublist_NoDup; [|apply sublist_take]. by apply bfilter_NoDup.
    + apply Forall_forall. intros x Hx. pose proof (elem_of_sublist _ _ _ Hx (sublist_take _ _)) as [_ Hx']%elem_of_bfilter. by apply set_has_true in Hx'.
    + rewrite length_take. assert (editorMaxCount sv = maxAutoGroups sv) as -> by (unfold editorMaxCount; rewrite (proj2 (Z.ltb_lt _ _)); [done|apply max_groups_pos]).
      pose proof (max_groups_pos). lia.
Qed.

(** C21: however a key is filled in, a new one or one that was loaded with an order of distinct groups, an order of groups in the form has distinct groups that are on offer and no more
    of them than the limit or the global order has; a form that inherits the global order keeps none of its own; and with any other
    group than [auto] neither an order nor retries are sent.  The form of a new key says so itself: with any other group it inherits and does not retry. *)
Theorem drawer_keeps_order st0 st : opened_form new st0 → rtc drawer_step st0 st →
  order_ok (auto_groups (form st)) ∧
  (auto_groups_mode (form st) = inherit → auto_groups (form st) = []) ∧
  (new = true → key_group (form st) ≠ Some AUTO → auto_groups_mode (form st) = inherit ∧ cross_group_retry (form st) = Some false) ∧
  let d := transformFormDataToPayload cfg (form st) in
  order_ok (d_auto_groups d) ∧ (key_group (form st) ≠ Some AUTO → d_auto_groups d = [] ∧ d_cross_group_retry d = false).
Proof.
  intros H0 Hr. assert (Hf : form_ok (form st)).
  { revert Hr. apply (rtc_ind_r (λ s, form_ok (form s))).
    - remember new as b eqn:Eb in H0. destruct H0 as [|st1 k Hn]; [apply open_create_ok|by apply loaded_ok].
    - intros y z _ Hs Hy. by eapply drawer_step_ok. }
  destruct Hf as (H1 & H2 & H3). split; [done|]. split; [done|]. split; [done|]. cbn [d_auto_groups d_cross_group_retry transformFormDataToPayload]. split.
  - destruct (_ && _); [done|apply order_nil].
  - intros Hn. by rewrite (bool_decide_eq_false_2 _ Hn).
Qed.

End facts.

(** ** What a form must satisfy *)

Lemma distinct_by_length (l : list str) : length (array_of_set l) = length l ↔ NoDup l.
Proof.
  split; [|intros H; by rewrite array_of_set_id]. intros Hl.
  assert (Hp : array_of_set l ≡ₚ l).
  { apply submseteq_length_Permutation; [|lia]. apply NoDup_submseteq; [apply array_of_set_NoDup|].
    intros x. apply elem_of_array_of_set. }
  rewrite <- Hp. apply array_of_set_NoDup.
Qed.

Lemma issue_unless (b : bool) (i : Issue) : (if b then [i] else []) = [] ↔ b = false.
Proof. by destruct b. Qed.

(** Validation adds no issue exactly when an automatic group has an order to follow (the global one, or one of its own of
    distinct groups within the limit) and a limited quota is not negative. *)
Theorem schema_accepts_exactly max hasGlobal f :
  refine_issues max hasGlobal f = [] ↔
  (key_group f = Some AUTO →
    (auto_groups_mode f = inherit → hasGlobal = true) ∧ (auto_groups_mode f = custom → auto_groups f ≠ []) ∧
    (Z.of_nat (length (auto_groups f)) ≤ autoGroupLimit max)%Z ∧ NoDup (auto_groups f)) ∧
  (unlimited_quota f = false → ∃ q, remain_quota_dollars f = Some q ∧ nlt q pzero = false).
Proof.
  unfold refine_issues. rewrite app_nil. f_equiv.
  - case_bool_decide as Ha; [|done]. rewrite !app_nil, !issue_unless, negb_false_iff, bool_decide_eq_true, distinct_by_length, Z.ltb_ge.
    rewrite !andb_false_iff, negb_false_iff, !bool_decide_eq_false, length_zero_iff_nil.
    destruct (auto_groups_mode f); naive_solver.
  - destruct (unlimited_quota f); [done|]. destruct (remain_quota_dollars f) as [q|]; [|naive_solver].
    rewrite issue_unless. naive_solver.
Qed.

(** a form that passes validation sends, for the group [auto], either no order, and then the administrator's order is there to
    follow, or an order of its own with at least one group, no repetition and no more groups than the limit; for any other
    group it sends neither order nor retries. *)
Theorem valid_form_sends cfg max hasGlobal f : form_valid max hasGlobal f = true →
  let d := transformFormDataToPayload cfg f in
  (d_group d = AUTO →
    (d_auto_groups d = [] ∧ hasGlobal = true) ∨
    (d_auto_groups d ≠ [] ∧ NoDup (d_auto_groups d) ∧ (Z.of_nat (length (d_auto_groups d)) ≤ autoGroupLimit max)%Z)) ∧
  (d_group d ≠ AUTO → d_auto_groups d = [] ∧ d_cross_group_retry d = false).
Proof.
  intros Hv d. apply andb_true_iff in Hv as [_ Hv]. destruct (refine_issues max hasGlobal f) eqn:E; [|done].
  apply schema_accepts_exactly in E as [Ha _]. unfold d, transformFormDataToPayload. cbn [d_group d_auto_groups d_cross_group_retry].
  destruct (decide (key_group f = Some AUTO)) as [Hg|Hg].
  - rewrite (bool_decide_true (key_group f = Some AUTO)) by done. destruct (Ha Hg) as (H1 & H2 & H3 & H4). split.
    + intros _. destruct (auto_groups_mode f).
      * left. split; [reflexivity|]. by apply H1.
      * right. split; [by apply H2|]. split; [exact H4|exact H3].
    + intros Hn. destruct Hn. by rewrite Hg.
  - rewrite (bool_decide_false (key_group f = Some AUTO)) by done. split; [|done]. intros Hn. exfalso. apply Hg.
    unfold or_blank in Hn. destruct (key_group f) as [g|]; [|done]. cbn in Hn. by rewrite Hn.
Qed.

(** ** Batches *)

Lemma create_from_spec cfg f suffix reply i left :
  let b := create_from cfg f suffix reply i left in
  successCount b ≤ left ∧
  (∀ j, j < successCount b → reply (i + j) = Accepted) ∧
  (successCount b < left → reply (i + successCount b) ≠ Accepted) ∧
  sent b = map (λ j, with_name (transformFormDataToPayload cfg f) (batch_name f suffix j))
             (seq i (if decide (successCount b < left) then S (successCount b) else left)) ∧
  (threw b = true ↔ successCount b < left ∧ reply (i + successCount b) = Failed).
Proof.
  revert i. induction left as [|left IH]; intros i; cbn zeta.
  - cbn. split; [lia|]. split; [intros; lia|]. split; [lia|]. split; [done|]. split; [done|lia].
  - cbn [create_from]. destruct (reply i) eqn:E; cbn [sent successCount threw].
    + destruct (IH (S i)) as (H1 & H2 & H3 & H4 & H5). set (n := successCount (create_from cfg f suffix reply (S i) left)) in *.
      replace (i + S n) with (S i + n) by lia. split; [lia|]. split; [|split; [|split]].
      * intros [|j] Hj; [by rewrite Nat.add_0_r|]. replace (i + S j) with (S i + j) by lia. apply H2. lia.
      * intros Hn. apply H3. lia.
      * rewrite H4. case_decide; case_decide; try lia; done.
      * rewrite H5. split; intros [? ?]; split; try lia; done.
    + rewrite Nat.add_0_r. split; [lia|]. split; [lia|]. split; [by rewrite E|]. split; [done|]. rewrite E. split; [done|]. by intros [_ ?].
    + rewrite Nat.add_0_r. split; [lia|]. split; [lia|]. split; [by rewrite E|]. split; [done|]. rewrite E. split; [|done]. intros _. split; [lia|done].
Qed.

(** creating several keys sends one request for each, in order, until the first one that is not accepted: the requests
    sent are the accepted ones and, if there is one, the first that was not; the first key has the name of the form and the others the name with a
    suffix; and the drawer closes exactly when some key was created and no request threw. *)
Theorem batch_creation_exact cfg f suffix reply :
  let '(b, closes) := submit_create cfg f suffix reply in
  (∀ j, j < successCount b → reply j = Accepted) ∧
  (successCount b < batch_size f → reply (successCount b) ≠ Accepted) ∧
  successCount b ≤ batch_size f ∧
  sent b = map (λ j, with_name (transformFormDataToPayload cfg f) (batch_name f suffix j))
             (seq 0 (if decide (successCount b < batch_size f) then S (successCount b) else batch_size f)) ∧
  (name f ≠ [] → ∀ r rest, sent b = r :: rest → d_name r = name f) ∧
  (closes = true ↔ 0 < successCount b ∧ ¬ (successCount b < batch_size f ∧ reply (successCount b) = Failed)).
Proof.
  unfold submit_create. destruct (create_from_spec cfg f suffix reply 0 (batch_size f)) as (H1 & H2 & H3 & H4 & H5).
  set (b := create_from cfg f suffix reply 0 (batch_size f)) in *. cbn [Nat.add] in *.
  split; [done|]. split; [done|]. split; [done|]. split; [done|]. split.
  - intros Hn r rest E. rewrite H4 in E. set (m := if decide _ then _ else _) in E. destruct m; [done|]. injection E as <- _.
    unfold with_name, batch_name. cbn. by destruct (name f).
  - rewrite andb_true_iff, negb_true_iff, bool_decide_eq_true, <- H5. destruct (threw b); naive_solver.
Qed.

(** ** Examples *)

Definition plain_group : GroupInfo := {| g_desc := None; g_ratio := None |}.

Definition sample_server (retries : bool) : Server := {|
  groupsRaw := [(js "vip", plain_group); (js "default", plain_group); (AUTO, plain_group)];
  autoGroupsData := Some {| cfg_groups := [js "default"; js "vip"]; cfg_max_count := Some (num_of_Z 3);
                            cfg_cross_group_retry_enabled := Some retries |};
  defaultUseAutoGroup := true |}.

Definition sample_key (g : str) (order : list str) (retry : bool) (limits : str) (enabled : bool) : ApiKey := {|
  k_name := js "laptop"; k_remain_quota := num_of_Z 5000; k_unlimited_quota := false; k_expired_time := num_of_Z 1767225600;
  k_group := Some g; k_auto_groups := Some order; k_cross_group_retry := retry; k_model_limits_enabled := enabled;
  k_model_limits := Some limits; k_allow_ips := None |}.

Definition empty_drawer : Drawer := {| form := getApiKeyFormDefaultValues false false; preferredGroup := [] |}.


Lemma drawer_keeps_order_witness :
  order_ok (sample_server true) (auto_groups (form (with_form (open_create (sample_server true) [])
    (moveGroup (λ s, s) (sample_server true) (form (open_create (sample_server true) [])) 0 false)))).
Proof.
  assert (H : bool_decide (NoDup [js "default"; js "vip"]) = true) by (vm_compute; reflexivity).
  apply (drawer_keeps_order None (λ s, s) (sample_server true) true (bool_decide_eq_true_1 _ H) (open_create (sample_server true) [])).
  - constructor.
  - apply rtc_once, step_move. reflexivity.
Defined.

Lemma valid_form_sends_witness :
  let f := select_group (λ s, s) (sample_server true) (set_plain (getApiKeyFormDefaultValues false true) (FName (js "laptop"))) AUTO in
  d_auto_groups (transformFormDataToPayload None f) = [] ∨ d_auto_groups (transformFormDataToPayload None f) ≠ [].
Proof.
  intros f. assert (Hv : form_valid 5 true f = true) by (vm_compute; reflexivity).
  destruct (proj1 (valid_form_sends None 5 true f Hv) ltac:(reflexivity)) as [[H _]|[H _]]; [left; exact H|right; exact H].
Defined.

(** A list of models that is switched off is switched on by saving the key unchanged. *)
Example disabled_limits_become_enabled :
  let k := sample_key (js "vip") [] false (js "gpt") false in
  k_model_limits_enabled k = false ∧
  d_model_limits_enabled (transformFormDataToPayload None (form (key_loaded None (λ s, s) (sample_server true) empty_drawer k))) = true.
Proof. vm_compute. split; reflexivity. Qed.

(** Where the administrator has disabled retries the drawer shows them as off and saves them as on. *)
Example hidden_retry_is_saved :
  let f := form (key_loaded None (λ s, s) (sample_server false) empty_drawer (sample_key AUTO [] true [] false)) in
  retry_shown (sample_server false) f = false ∧ d_cross_group_retry (transformFormDataToPayload None f) = true.
Proof. vm_compute. split; reflexivity. Qed.

(** The replacement of a group that is not offered depends on which answer arrives last. *)
Example late_key_keeps_missing_group :
  let k := sample_key (js "gone") [] false [] false in
  let late := key_loaded None (λ s, s) (sample_server true) (correct_group (λ s, s) (sample_server true) empty_drawer) k in
  let early := correct_group (λ s, s) (sample_server true) (key_loaded None (λ s, s) (sample_server true) empty_drawer k) in
  key_group (form late) = Some (js "gone") ∧ key_group (form early) = Some (js "default").
Proof. vm_compute. split; reflexivity. Qed.

(** Amounts in dollars come back for this key. *)
Example quota_in_dollars : parseQuotaFromDollars None (or_zero (quotaUnitsToDollars None (num_of_Z 123457))) = num_of_Z 123457.
Proof. vm_compute. reflexivity. Qed.
