(* ===== verification/TieredEditor.v ===== *)
(** * The editor of tiered prices ([features/system-settings/models/tiered-pricing-editor.tsx])

    The price panel ([ModelPricing]) owns two texts, the billing expression and the request rules, and hands them to this
    editor with two callbacks.  The editor keeps its own state: a mode, a visual configuration, a raw text and the groups of rules; after
    each rendering its effects compare what the state amounts to with the texts and call back, and re-initialise the state from the texts
    when it is not yet initialised.

    An effect sees the values of the rendering it belongs to, and the updates of all effects of a rendering take effect
    together in the next one: [commit] is one such round, and a [View] holds the state, the texts and the texts of the rendering before (what the
    dependency lists compare).  The parsers of rules can throw, hence [outcome]. *)

From S2P Require Import Prelude JsString Regex JsNumber Json Currency BillingExpr BillingText BillingRuleFacts BillingRules TierExpr TierFacts TierRoundTrip.

(** ** Prices and numbers in fields *)

Definition normalizeBillingPrice (value : num) : num :=
  if negb (is_finite value) || num_eqb value pzero then pzero else number_of_string (to_precision 12 value).

Definition unitCostToPrice (unitCost : json) (billingCurrency : BillingCurrencyDisplay) : num :=
  let usdAmount := opt_number (Some unitCost) in
  if negb (is_finite usdAmount) then pzero
  else normalizeBillingPrice (convertUSDToBillingCurrency usdAmount billingCurrency).

Definition priceToUnitCost (price : num) (billingCurrency : BillingCurrencyDisplay) : num :=
  if negb (is_finite price) then pzero
  else normalizeBillingPrice (convertBillingCurrencyToUSD price billingCurrency).

Definition formatTokenHint (toLocaleString : num → str) (n : option json) : str :=
  match n with
  | None | Some JNull | Some (JStr []) => []
  | Some j =>
      let v := opt_number (Some j) in
      if is_nan v then []
      else if num_eqb v pzero then js "= 0"
      else if nle (num_of_Z 1000000) v then js "= " ++ toLocaleString (ndiv v (num_of_Z 1000000)) ++ js "M tokens"
      else if nle (num_of_Z 1000) v then js "= " ++ toLocaleString (ndiv v (num_of_Z 1000)) ++ js "K tokens"
      else js "= " ++ toLocaleString v ++ js " tokens"
  end.

(** A field holds a number or a text. *)
Inductive FieldValue := FNum (x : num) | FText (s : str).

Definition formatNumberDraft (value : FieldValue) : str :=
  match value with
  | FText s => s
  | FNum x => if is_finite x then string_of_num x else js "0"
  end.

Definition parseNumberDraft (value : str) : num :=
  if negb (truthy (trim value)) then pzero
  else let next := number_of_string value in if is_finite next then next else pzero.

Definition isZeroDraft (value : str) : bool := truthy (trim value) && num_eqb (parseNumberDraft value) pzero.

(** [DraftNumberInput]: the text on screen follows the value except while the field has the focus. *)
Record DraftInput := { draft : str; focused : bool }.

Definition draft_effect (value : FieldValue) (d : DraftInput) : DraftInput :=
  if focused d then d else {| draft := formatNumberDraft value; focused := false |}.

(** Typing: the new text, and the number handed on. *)
Definition draft_change (d : DraftInput) (text : str) : DraftInput * num :=
  ({| draft := text; focused := focused d |}, parseNumberDraft text).

Definition draft_focus (d : DraftInput) : DraftInput := {| draft := draft d; focused := true |}.

Definition draft_blur (d : DraftInput) : DraftInput * num :=
  let normalized := parseNumberDraft (draft d) in
  ({| draft := string_of_num normalized; focused := false |}, normalized).

(** ** Tiers *)

Definition with_conds (tier : VisualTier) (cs : list TierConditionInput) : VisualTier := {|
  label := label tier; tier_conds := Some cs; input_unit_cost := input_unit_cost tier;
  output_unit_cost := output_unit_cost tier; cache_mode := cache_mode tier; extra_costs := extra_costs tier |}.

Definition with_label (tier : VisualTier) (s : str) : VisualTier := {|
  label := Some s; tier_conds := tier_conds tier; input_unit_cost := input_unit_cost tier;
  output_unit_cost := output_unit_cost tier; cache_mode := cache_mode tier; extra_costs := extra_costs tier |}.

Definition conds_of (tier : VisualTier) : list TierConditionInput := default [] (tier_conds tier).

(** [list.filter((_, i) => i !== index)] *)
Definition without_index {A} (index : nat) (l : list A) : list A := take index l ++ drop (S index) l.

(** [{ ...tier, [field]: value }] for one of the extra prices *)
Definition set_extra (costs : list (str * json)) (field : str) (v : json) : list (str * json) :=
  if bool_decide (field ∈ map fst costs)
  then map (λ '(k, w), (k, if bool_decide (k = field) then v else w)) costs else costs ++ [(field, v)].

Inductive PriceField := PInput | POutput | PExtra (field : str).

Inductive TierEdit :=
  | TLabel (s : str)
  | TCondition (conditionIndex : nat) (next : TierConditionInput)
  | TRemoveCondition (conditionIndex : nat)
  | TPrice (field : PriceField) (value : num)
  | TCacheMode (mode : str).

(** The handlers of [VisualTierCard], up to [onChange]. *)
Definition handlePriceChange (tier : VisualTier) (field : PriceField) (value : num) : VisualTier := {|
  label := label tier; tier_conds := tier_conds tier;
  input_unit_cost := match field with PInput => Some (JNum value) | _ => input_unit_cost tier end;
  output_unit_cost := match field with POutput => Some (JNum value) | _ => output_unit_cost tier end;
  cache_mode := cache_mode tier;
  extra_costs := match field with PExtra f => set_extra (extra_costs tier) f (JNum value) | _ => extra_costs tier end |}.

Definition CACHE_1H := js "cache_create_1h_unit_cost".

Definition handleCacheModeChange (tier : VisualTier) (mode : str) : VisualTier := {|
  label := label tier; tier_conds := tier_conds tier; input_unit_cost := input_unit_cost tier;
  output_unit_cost := output_unit_cost tier; cache_mode := Some mode;
  extra_costs := set_extra (extra_costs tier) CACHE_1H
    (if bool_decide (mode = CACHE_MODE_TIMED)
     then match extra_cost tier CACHE_1H with Some JNull | None => JNum pzero | Some v => v end else JNum pzero) |}.

Definition edit_tier (billingCurrency : BillingCurrencyDisplay) (tier : VisualTier) (e : TierEdit) : VisualTier :=
  match e with
  | TLabel s => with_label tier s
  | TCondition i next => with_conds tier (<[i := next]> (conds_of tier))
  | TRemoveCondition i => with_conds tier (without_index i (conds_of tier))
  | TPrice field value => handlePriceChange tier field (priceToUnitCost value billingCurrency)
  | TCacheMode mode => handleCacheModeChange tier mode
  end.

(** The handlers of [VisualEditor] on the normalised configuration. *)
Definition handleTierChange (tiers : VisualConfig) (index : nat) (next : VisualTier) : VisualConfig :=
  <[index := normalizeVisualTier next]> tiers.

Definition default_bound (v : str) : TierConditionInput :=
  {| ci_var := v; ci_op := js "<"; ci_value := JNum (num_of_Z 200000) |}.

(** A former last tier that matches everything gets a bound. *)
Definition bound_last (tiers : VisualConfig) : VisualConfig :=
  match List.last (map Some tiers) None with
  | Some t =>
      if bool_decide (conds_of t = [])
      then removelast tiers ++ [normalizeVisualTier (with_conds t [default_bound (js "len")])] else tiers
  | None => tiers
  end.

Definition handleAddTier (tiers : VisualConfig) : VisualConfig :=
  let tiers := bound_last tiers in
  tiers ++ [normalizeVisualTier {|
    label := Some (js "tier_" ++ N_dec (N.of_nat (S (length tiers)))); tier_conds := Some [];
    input_unit_cost := Some (JNum pzero); output_unit_cost := Some (JNum pzero); cache_mode := None; extra_costs := [] |}].

Definition handleRemoveTier (tiers : VisualConfig) (index : nat) : VisualConfig :=
  let rest := without_index index tiers in if bool_decide (rest = []) then tiers else rest.

Definition handleAddCondition (tiers : VisualConfig) (index : nat) : VisualConfig :=
  match tiers !! index with
  | Some tier =>
      if bool_decide (2 ≤ length (conds_of tier)) then tiers
      else
        let nextVar := if bool_decide (js "len" ∈ map ci_var (conds_of tier)) then js "c" else js "len" in
        <[index := with_conds tier (conds_of tier ++ [default_bound nextVar])]> tiers
  | None => tiers
  end.

(** ** Groups of rules *)

Inductive ConditionEdit :=
  | CSource (source : str) | CMode (mode : str) | CPath (path : str) | CValue (value : str)
  | CTimeFunc (f : str) | CTimezone (z : str) | CTimeValue (x : num) | CRangeStart (x : num) | CRangeEnd (x : num).

Definition set_source (c : ParamHeaderCondition) (s : ph_source) : ParamHeaderCondition :=
  {| source := s; path := path c; ph_mode := ph_mode c; ph_value := ph_value c |}.

Definition handleSourceChange (condition : RequestCondition) (s : str) : RequestCondition :=
  if bool_decide (s = SOURCE_TIME) then CTime createEmptyTimeCondition
  else if bool_decide (s = SOURCE_HEADER) then CParamHeader (set_source createEmptyCondition Header)
  else if bool_decide (s = SOURCE_PARAM) then CParamHeader (set_source createEmptyCondition Param)
  else condition.

Definition edit_time (c : TimeCondition) (e : ConditionEdit) : TimeCondition := {|
  timeFunc := match e with CTimeFunc f => f | _ => timeFunc c end;
  timezone := match e with CTimezone z => z | _ => timezone c end;
  t_mode := match e with CMode m => m | _ => t_mode c end;
  t_value := match e with CTimeValue x => string_of_num x | _ => t_value c end;
  rangeStart := match e with CRangeStart x => string_of_num x | _ => rangeStart c end;
  rangeEnd := match e with CRangeEnd x => string_of_num x | _ => rangeEnd c end |}.

Definition edit_param (c : ParamHeaderCondition) (e : ConditionEdit) : ParamHeaderCondition := {|
  source := source c;
  path := match e with CPath p => p | _ => path c end;
  ph_mode := match e with CMode m => m | _ => ph_mode c end;
  ph_value := match e with CValue v => v | _ => ph_value c end |}.

(** A field of a condition, as its row shows it. *)
Definition edit_condition (c : RequestCondition) (e : ConditionEdit) : RequestCondition :=
  match e with
  | CSource s => handleSourceChange c s
  | _ => match c with CTime t => CTime (edit_time t e) | CParamHeader p => CParamHeader (edit_param p e) end
  end.

Inductive GroupEdit :=
  | GCondition (conditionIndex : nat) (e : ConditionEdit)
  | GAddCondition (timeMode : bool)
  | GRemoveCondition (conditionIndex : nat)
  | GMultiplier (x : num).

Definition edit_group (g : RequestRuleGroup) (e : GroupEdit) : RequestRuleGroup :=
  match e with
  | GCondition i c => {| conditions := alter (λ x, edit_condition x c) i (conditions g); multiplier := multiplier g |}
  | GAddCondition timeMode =>
      {| conditions := conditions g ++ [if timeMode : bool then CTime createEmptyTimeCondition
                                        else CParamHeader createEmptyCondition]; multiplier := multiplier g |}
  | GRemoveCondition i => {| conditions := without_index i (conditions g); multiplier := multiplier g |}
  | GMultiplier x => {| conditions := conditions g; multiplier := string_of_num x |}
  end.

(** ** Presets *)

Record Preset := { key : str; preset_label : str; preset_expr : str; requestRules : option (list RequestRuleGroup) }.

(** [tier("name", body)] *)
Definition tier_text_of (name body : string) : str :=
  js "tier(" ++ dq ++ js name ++ dq ++ js ", " ++ js body ++ js ")".

Definition OPUS := tier_text_of "base" "p * 5 + c * 25 + cr * 0.5 + cc * 6.25 + cc1h * 10".
Definition GPT54 :=
  js "len <= 272000 ? " ++ tier_text_of "standard" "p * 2.5 + c * 15 + cr * 0.25" ++ js " : " ++
  tier_text_of "long_context" "p * 5 + c * 22.5 + cr * 0.5".

Definition plain (k lbl : string) (e : str) : Preset :=
  {| key := js k; preset_label := js lbl; preset_expr := e; requestRules := None |}.

Definition one_rule (c : RequestCondition) (m : string) : RequestRuleGroup := {| conditions := [c]; multiplier := js m |}.

Definition time_rule (f mode value from to : string) : RequestCondition :=
  CTime {| timeFunc := js f; timezone := js "Asia/Shanghai"; t_mode := js mode; t_value := js value;
           rangeStart := js from; rangeEnd := js to |}.

Definition PRESET_GROUPS : list (str * list Preset) :=
  [ (js "Fixed price",
     [plain "flat" "Flat" (tier_text_of "base" "p * 2 + c * 4"); plain "claude-opus" "Claude Opus 4.6" OPUS; plain "gpt-5.4" "GPT-5.4" GPT54]);
    (js "Tiered",
     [plain "claude-sonnet" "Claude Sonnet 4.5"
        (js "len <= 200000 ? " ++ tier_text_of "standard" "p * 3 + c * 15 + cr * 0.3 + cc * 3.75 + cc1h * 6" ++ js " : " ++
         tier_text_of "long_context" "p * 6 + c * 22.5 + cr * 0.6 + cc * 7.5 + cc1h * 12");
      plain "qwen3-max" "Qwen3 Max"
        (js "len <= 32000 ? " ++ tier_text_of "short" "p * 1.2 + c * 6 + cr * 0.24 + cc * 1.5" ++
         js " : len <= 128000 ? " ++ tier_text_of "mid" "p * 2.4 + c * 12 + cr * 0.48 + cc * 3" ++ js " : " ++
         tier_text_of "long" "p * 3 + c * 15 + cr * 0.6 + cc * 3.75");
      plain "glm-4.5-air" "GLM-4.5 Air"
        (js "len < 32000 && c < 200 ? " ++ tier_text_of "short_output" "p * 0.8 + c * 2 + cr * 0.16" ++
         js " : len < 32000 && c >= 200 ? " ++ tier_text_of "long_output" "p * 0.8 + c * 6 + cr * 0.16" ++ js " : " ++
         tier_text_of "mid_context" "p * 1.2 + c * 8 + cr * 0.24");
      plain "doubao-seed-1.8" "Doubao Seed 1.8"
        (js "len <= 32000 && c <= 200 ? " ++ tier_text_of "discount" "p * 0.8 + c * 2 + cr * 0.16 + cc * 0.17" ++
         js " : len <= 32000 ? " ++ tier_text_of "short" "p * 0.8 + c * 8 + cr * 0.16 + cc * 0.17" ++
         js " : len <= 128000 ? " ++ tier_text_of "mid" "p * 1.2 + c * 16 + cr * 0.16 + cc * 0.17" ++ js " : " ++
         tier_text_of "long" "p * 2.4 + c * 24 + cr * 0.16 + cc * 0.17")]);
    (js "Multimodal",
     [plain "gpt-image-1-mini" "GPT Image 1 Mini" (tier_text_of "base" "p * 2 + c * 8 + img * 2.5");
      plain "gemini-2.5-flash" "Gemini 2.5 Flash" (tier_text_of "base" "p * 0.3 + c * 2.5 + cr * 0.03 + ai * 1.0");
      plain "gemini-3-pro-image" "Gemini 3 Pro Image" (tier_text_of "base" "p * 2 + c * 12 + img_o * 120");
      plain "qwen3-omni-flash" "Qwen3 Omni Flash" (tier_text_of "base" "p * 0.43 + c * 3.06 + img * 0.78 + ai * 3.81 + ao * 15.11")]);
    (js "Request rule",
     [{| key := js "claude-opus-fast"; preset_label := js "Claude Opus 4.6 Fast"; preset_expr := OPUS;
         requestRules := Some [one_rule (ph Header (js "anthropic-beta") MATCH_CONTAINS (js "fast-mode-2026-02-01")) "6"] |};
      {| key := js "gpt-5.4-tiers"; preset_label := js "GPT-5.4 Priority/Flex"; preset_expr := GPT54;
         requestRules := Some [one_rule (ph Param (js "service_tier") MATCH_EQ (js "priority")) "2";
                               one_rule (ph Param (js "service_tier") MATCH_EQ (js "flex")) "0.5"] |}]);
    (js "Time-based",
     [{| key := js "night-discount"; preset_label := js "Night discount (50%)"; preset_expr := tier_text_of "base" "p * 3 + c * 15";
         requestRules := Some [one_rule (time_rule "hour" "range" "" "21" "6") "0.5"] |};
      {| key := js "weekend-discount"; preset_label := js "Weekend discount (80%)"; preset_expr := tier_text_of "base" "p * 3 + c * 15";
         requestRules := Some [one_rule (time_rule "weekday" "eq" "0" "" "") "0.8";
                               one_rule (time_rule "weekday" "eq" "6" "" "") "0.8"] |}]) ].

(** [PresetSection]: two groups until the list is expanded. *)
Definition visible_presets (expanded : bool) : list (str * list Preset) :=
  if expanded then PRESET_GROUPS else take 2 PRESET_GROUPS.

(** ** The editor *)

Inductive EditorMode := visual | raw.

#[export] Instance editor_mode_eq : EqDecision EditorMode.
Proof. solve_decision. Defined.

Record Editor := {
  editorMode : EditorMode;
  visualConfig : option VisualConfig;
  rawExpr : str;
  requestRuleGroups : list RequestRuleGroup;
  initRef : bool }.

(** What the panel hands over. *)
Record Props := { currentExpr : str; currentRequestRuleExpr : str; modelName : str }.

(** [tryParseRequestRuleExpr(rules) || []] *)
Definition groups_or_none (rules : str) : outcome (list RequestRuleGroup) :=
  parsed ← tryParseRequestRuleExpr rules; Ret (default [] parsed).

(** The first rendering. *)
Definition mount (p : Props) : outcome Editor :=
  groups ← groups_or_none (currentRequestRuleExpr p);
  Ret {| editorMode := visual; visualConfig := tryParseVisualConfig (Some (currentExpr p));
         rawExpr := combineBillingExpr (currentExpr p) (currentRequestRuleExpr p);
         requestRuleGroups := groups; initRef := false |}.

Definition effectiveExpr (e : Editor) : outcome str :=
  match editorMode e with
  | visual => Ret (generateExprFromVisualConfig (visualConfig e))
  | raw => r ← splitBillingExprAndRequestRules (rawExpr e); Ret (billingExpr r)
  end.

(** The effect that fills the state from the texts. *)
Definition init_effect (e : Editor) (p : Props) : outcome Editor :=
  groups ← groups_or_none (currentRequestRuleExpr p);
  let '(config, mode) :=
    match tryParseVisualConfig (Some (currentExpr p)) with
    | Some parsed => (Some parsed, visual)
    | None => if truthy (currentExpr p) then (None, raw) else (Some createDefaultVisualConfig, editorMode e)
    end in
  Ret {| editorMode := mode; visualConfig := config;
         rawExpr := combineBillingExpr (currentExpr p) (currentRequestRuleExpr p);
         requestRuleGroups := groups; initRef := true |}.

Record View := { ed : Editor; props : Props; seen : option Props }.

Definition with_init (e : Editor) (b : bool) : Editor := {|
  editorMode := editorMode e; visualConfig := visualConfig e; rawExpr := rawExpr e;
  requestRuleGroups := requestRuleGroups e; initRef := b |}.

Definition texts_changed (v : View) : bool :=
  match seen v with
  | None => true
  | Some p => negb (bool_decide (currentExpr p = currentExpr (props v)) &&
                    bool_decide (currentRequestRuleExpr p = currentRequestRuleExpr (props v)))
  end.

Definition name_changed (v : View) : bool :=
  match seen v with None => true | Some p => negb (bool_decide (modelName p = modelName (props v))) end.

(** The effects after one rendering, in their order: initialise, forget the initialisation for another model, report the
    expression, report the rules. *)
Definition commit (v : View) : outcome View :=
  expr ← effectiveExpr (ed v);
  e ← (if texts_changed v && negb (initRef (ed v)) then init_effect (ed v) (props v) else Ret (ed v));
  Ret {| ed := if name_changed v then with_init e false else e;
         props := {| currentExpr := expr;
                     currentRequestRuleExpr := match editorMode (ed v) with
                                               | visual => buildRequestRuleExpr (requestRuleGroups (ed v))
                                               | raw => currentRequestRuleExpr (props v)
                                               end;
                     modelName := modelName (props v) |};
         seen := Some (props v) |}.

Fixpoint commits (n : nat) (v : View) : outcome View :=
  match n with O => Ret v | S n' => v' ← commit v; commits n' v' end.

(** Opening the editor, and [n] rounds of effects. *)
Definition opened (n : nat) (p : Props) : outcome View :=
  e ← mount p; commits n {| ed := e; props := p; seen := None |}.

(** ** Handlers *)

Definition with_editor (v : View) (e : Editor) : View := {| ed := e; props := props v; seen := seen v |}.

Definition with_config (e : Editor) (c : VisualConfig) : Editor := {|
  editorMode := editorMode e; visualConfig := Some c; rawExpr := rawExpr e;
  requestRuleGroups := requestRuleGroups e; initRef := initRef e |}.

Definition handleVisualChange (v : View) (next : VisualConfig) : View := with_editor v (with_config (ed v) next).

Definition with_rules (v : View) (rules : str) : View := {|
  ed := ed v; seen := seen v;
  props := {| currentExpr := currentExpr (props v); currentRequestRuleExpr := rules; modelName := modelName (props v) |} |}.

Definition handleRuleGroupsChange (v : View) (next : list RequestRuleGroup) : View :=
  with_editor v {| editorMode := editorMode (ed v); visualConfig := visualConfig (ed v); rawExpr := rawExpr (ed v);
                   requestRuleGroups := next; initRef := initRef (ed v) |}.

Definition handleRawChange (v : View) (value : str) : outcome View :=
  r ← splitBillingExprAndRequestRules value;
  Ret (with_rules (with_editor v {| editorMode := editorMode (ed v); visualConfig := visualConfig (ed v); rawExpr := value;
                                    requestRuleGroups := requestRuleGroups (ed v); initRef := initRef (ed v) |})
         (requestRuleExpr r)).

Definition handleModeChange (v : View) (next : EditorMode) : outcome View :=
  match next with
  | visual =>
      r ← splitBillingExprAndRequestRules (rawExpr (ed v));
      groups ← groups_or_none (requestRuleExpr r);
      Ret (with_rules (with_editor v
        {| editorMode := visual;
           visualConfig := Some (default createDefaultVisualConfig (tryParseVisualConfig (Some (billingExpr r))));
           rawExpr := rawExpr (ed v); requestRuleGroups := groups; initRef := initRef (ed v) |}) (requestRuleExpr r))
  | raw =>
      let expr := generateExprFromVisualConfig (visualConfig (ed v)) in
      let combined := combineBillingExpr expr (buildRequestRuleExpr (requestRuleGroups (ed v))) in
      Ret (with_editor v {| editorMode := raw; visualConfig := visualConfig (ed v);
                            rawExpr := if truthy combined then combined else expr;
                            requestRuleGroups := requestRuleGroups (ed v); initRef := initRef (ed v) |})
  end.

Definition applyPreset (v : View) (preset : Preset) : View :=
  let presetGroups := default [] (requestRules preset) in
  let ruleExpr := buildRequestRuleExpr presetGroups in
  let combined := combineBillingExpr (preset_expr preset) ruleExpr in
  let parsed := tryParseVisualConfig (Some (preset_expr preset)) in
  with_rules (with_editor v
    {| editorMode := match parsed with Some _ => visual | None => raw end; visualConfig := parsed;
       rawExpr := if truthy combined then combined else preset_expr preset; requestRuleGroups := presetGroups;
       initRef := initRef (ed v) |}) ruleExpr.

(** [canUseVisualRules], which decides whether the groups can be edited *)
Definition canUseVisualRules (p : Props) : outcome bool :=
  if negb (truthy (currentRequestRuleExpr p)) then Ret true
  else parsed ← tryParseRequestRuleExpr (currentRequestRuleExpr p);
       Ret match parsed with Some _ => true | None => false end.

Definition add_rule_group (v : View) : View := handleRuleGroupsChange v (requestRuleGroups (ed v) ++ [createEmptyRuleGroup]).

Definition change_rule_group (v : View) (i : nat) (e : GroupEdit) : View :=
  handleRuleGroupsChange v (alter (λ g, edit_group g e) i (requestRuleGroups (ed v))).

Definition remove_rule_group (v : View) (i : nat) : View :=
  handleRuleGroupsChange v (without_index i (requestRuleGroups (ed v))).

(** The configuration the cards show. *)
Definition shown_tiers (v : View) : VisualConfig := normalizeVisualConfig (visualConfig (ed v)).

(** * What the editor of tiered prices does to the texts it is given ([TieredEditor])

    Expressions as the visual editor writes them are kept, every edit is reported, and switching between the two modes loses nothing
    ([written_prices_opened], [visual_edits_reported], [mode_switch_round_trip]).  Expressions and rules it cannot read do not survive its being
    opened ([unreadable_expression_zeroed], [complex_rules_dropped]), because the effects report before the state is
    initialised and the guard against a second initialisation is taken back at once. *)


(** A view that its effects leave alone. *)
Definition quiet (v : View) : Prop := commit v = Ret v.

(** Configurations and groups in the ranges their fields allow. *)
Definition config_ok (specs : list TierSpec) : Prop :=
  specs ≠ [] ∧ forallb wf_spec specs = true ∧ (length specs = 1 ∨ last_unguarded specs = true).

Definition groups_ok (gs : list RequestRuleGroup) : Prop := forallb wf_group gs = true.

Definition text_of (specs : list TierSpec) : str := generateExprFromVisualConfig (Some (map tier_of_spec specs)).

Lemma config_reads specs : config_ok specs → tryParseVisualConfig (Some (text_of specs)) = Some (map tier_of_spec specs).
Proof. intros (H1 & H2 & H3). by apply config_read_back. Qed.

Lemma groups_read gs : groups_ok gs → groups_or_none (buildRequestRuleExpr gs) = Ret gs.
Proof. intros H. unfold groups_or_none. by rewrite (rules_read_back gs H). Qed.

(** ** Rounds of effects *)

Definition visual_editor (c : option VisualConfig) (r : str) (gs : list RequestRuleGroup) (b : bool) : Editor :=
  {| editorMode := visual; visualConfig := c; rawExpr := r; requestRuleGroups := gs; initRef := b |}.

Definition raw_editor (c : option VisualConfig) (r : str) (gs : list RequestRuleGroup) (b : bool) : Editor :=
  {| editorMode := raw; visualConfig := c; rawExpr := r; requestRuleGroups := gs; initRef := b |}.

Lemma init_readable e p specs gs :
  currentExpr p = text_of specs → currentRequestRuleExpr p = buildRequestRuleExpr gs → config_ok specs → groups_ok gs →
  init_effect e p = Ret (visual_editor (Some (map tier_of_spec specs)) (combineBillingExpr (currentExpr p) (currentRequestRuleExpr p)) gs true).
Proof.
  intros He Hr Hc Hg. unfold init_effect. rewrite Hr, (groups_read gs Hg), He, (config_reads specs Hc). done.
Qed.

(** A round that does not initialise. *)
Lemma commit_plain e p q :
  texts_changed {| ed := e; props := p; seen := Some q |} && negb (initRef e) = false → modelName q = modelName p →
  commit {| ed := e; props := p; seen := Some q |} =
  (expr ← effectiveExpr e;
   Ret {| ed := e;
          props := {| currentExpr := expr;
                      currentRequestRuleExpr := match editorMode e with
                                                | visual => buildRequestRuleExpr (requestRuleGroups e)
                                                | raw => currentRequestRuleExpr p end;
                      modelName := modelName p |};
          seen := Some p |}).
Proof.
  intros Ht Hn. unfold commit. cbn [ed props seen] in *. destruct (effectiveExpr e) as [expr|]; [|done]. cbn [mbind outcome_bind].
  rewrite Ht. unfold name_changed. cbn [seen props]. rewrite bool_decide_true by done. done.
Qed.

Lemma texts_same e p : texts_changed {| ed := e; props := p; seen := Some p |} = false.
Proof. unfold texts_changed. cbn [seen props]. by rewrite !bool_decide_true. Qed.

(** A view in visual mode that has been reported. *)
Definition reported (specs : list TierSpec) (gs : list RequestRuleGroup) (r : str) (b : bool) (n : str) : View :=
  let p := {| currentExpr := text_of specs; currentRequestRuleExpr := buildRequestRuleExpr gs; modelName := n |} in
  {| ed := visual_editor (Some (map tier_of_spec specs)) r gs b; props := p; seen := Some p |}.

Lemma reported_quiet specs gs r b n : quiet (reported specs gs r b n).
Proof. unfold quiet, reported. rewrite commit_plain; [done|by rewrite texts_same|done]. Qed.

(** Rules that cannot be read are gone when the effects have come to rest. *)
Lemma unread_rules_dropped specs rules n : config_ok specs → tryParseRequestRuleExpr rules = Ret None →
  ∃ r b, opened 3 {| currentExpr := text_of specs; currentRequestRuleExpr := rules; modelName := n |} = Ret (reported specs [] r b n).
Proof.
  intros Hc Hr. set (p := {| currentExpr := text_of specs; currentRequestRuleExpr := rules; modelName := n |}).
  set (p' := {| currentExpr := text_of specs; currentRequestRuleExpr := []; modelName := n |}).
  set (comb := combineBillingExpr (text_of specs) rules).
  set (e0 := visual_editor (Some (map tier_of_spec specs)) comb [] false).
  assert (Hg : groups_or_none rules = Ret []) by (unfold groups_or_none; by rewrite Hr).
  assert (H1 : commit {| ed := e0; props := p; seen := None |} = Ret {| ed := e0; props := p'; seen := Some p |}).
  { unfold commit. cbn [ed props seen]. change (effectiveExpr e0) with (Ret (text_of specs)). cbn [mbind outcome_bind].
    unfold texts_changed. cbn [seen andb negb initRef e0 visual_editor]. unfold init_effect.
    change (currentRequestRuleExpr p) with rules. change (currentExpr p) with (text_of specs). rewrite Hg, (config_reads specs Hc). done. }
  assert (H2 : ∃ r b, commit {| ed := e0; props := p'; seen := Some p |} = Ret (reported specs [] r b n)).
  { destruct (texts_changed {| ed := e0; props := p'; seen := Some p |} && negb (initRef e0)) eqn:E.
    - exists (combineBillingExpr (text_of specs) []), true. unfold commit. cbn [ed props seen]. rewrite E.
      change (effectiveExpr e0) with (Ret (text_of specs)). cbn [mbind outcome_bind]. rewrite (init_readable e0 p' specs []) by done.
      cbn [mbind outcome_bind]. unfold name_changed. cbn [seen props modelName p p']. rewrite bool_decide_true by done. done.
    - exists comb, false. rewrite commit_plain; [done|exact E|done]. }
  destruct H2 as (r & b & H2). exists r, b.
  unfold opened, mount. change (currentRequestRuleExpr p) with rules. change (currentExpr p) with (text_of specs).
  rewrite Hg, (config_reads specs Hc).
  transitivity (v ← commit {| ed := e0; props := p; seen := None |}; commits 2 v); [reflexivity|]. rewrite H1.
  transitivity (v ← commit {| ed := e0; props := p'; seen := Some p |}; commits 1 v); [reflexivity|]. rewrite H2.
  transitivity (v ← commit (reported specs [] r b n); commits 0 v); [reflexivity|]. by rewrite (reported_quiet specs [] r b n).
Qed.

(** C16: What opening the editor does to a model whose expression and rules are texts as the visual editor writes them (the text of a configuration with
    proper labels and bounds whose last tier is unguarded, the text of rule groups with plain names and values): the editor shows the
    configuration in the visual mode, and its effects come to rest with the expression as it was.  The rules stay as they were too and
    are shown, and this at once, unless some condition is one of those whose guard the editor cannot read (a parameter that contains a text or is
    compared by size): then all the rules are deleted. *)
Theorem written_prices_opened specs gs n : config_ok specs → forallb written_group gs = true →
  let guarded := existsb (λ g, existsb guarded_condition (conditions g)) gs in
  let p := {| currentExpr := text_of specs; currentRequestRuleExpr := buildRequestRuleExpr gs; modelName := n |} in
  ∃ v, opened (if guarded then 3 else 1) p = Ret v ∧ quiet v ∧ editorMode (ed v) = visual ∧ visualConfig (ed v) = Some (map tier_of_spec specs) ∧
    currentExpr (props v) = text_of specs ∧
    if guarded then currentRequestRuleExpr (props v) = [] ∧ requestRuleGroups (ed v) = [] else props v = p ∧ requestRuleGroups (ed v) = gs.
Proof.
  intros Hc Hw guarded p. unfold guarded. rewrite <- (guarded_groups gs Hw). destruct (forallb wf_group gs) eqn:Hg.
  - exists (reported specs gs (combineBillingExpr (text_of specs) (buildRequestRuleExpr gs)) false n).
    split; [|by split; [apply reported_quiet|]]. unfold opened, mount, p. cbn [currentExpr currentRequestRuleExpr].
    rewrite (groups_read gs Hg), (config_reads specs Hc). cbn [mbind outcome_bind commits]. unfold commit. cbn [ed props seen].
    cbn [effectiveExpr editorMode visualConfig mbind outcome_bind]. unfold texts_changed. cbn [seen initRef andb negb].
    rewrite (init_readable _ _ specs gs) by done. done.
  - destruct (unread_rules_dropped specs (buildRequestRuleExpr gs) n Hc) as (r & b & H).
    { rewrite (written_read gs Hw). by rewrite Hg. }
    exists (reported specs [] r b n). split; [exact H|]. by split; [apply reported_quiet|].
Qed.

(** ** Edits *)

(** a change in the visual mode reaches the panel: after it the effects come to rest, whether or not the editor initialises itself once
    more on the way, with the expression of the new configuration as the text, the new configuration on screen and the rules as they were. *)
Theorem visual_edits_reported old new gs r b n : groups_ok gs → config_ok new →
  ∃ v, commits 3 (handleVisualChange (reported old gs r b n) (map tier_of_spec new)) = Ret v ∧ quiet v ∧
    currentExpr (props v) = text_of new ∧ currentRequestRuleExpr (props v) = buildRequestRuleExpr gs ∧
    editorMode (ed v) = visual ∧ visualConfig (ed v) = Some (map tier_of_spec new) ∧ requestRuleGroups (ed v) = gs.
Proof.
  intros Hg Hc. set (p := {| currentExpr := text_of old; currentRequestRuleExpr := buildRequestRuleExpr gs; modelName := n |}).
  set (p' := {| currentExpr := text_of new; currentRequestRuleExpr := buildRequestRuleExpr gs; modelName := n |}).
  set (e := visual_editor (Some (map tier_of_spec new)) r gs b).
  assert (H1 : commit (handleVisualChange (reported old gs r b n) (map tier_of_spec new)) = Ret {| ed := e; props := p'; seen := Some p |}).
  { change (handleVisualChange (reported old gs r b n) (map tier_of_spec new)) with {| ed := e; props := p; seen := Some p |}.
    rewrite commit_plain; [done|by rewrite texts_same|done]. }
  assert (H2 : ∃ r' b', commit {| ed := e; props := p'; seen := Some p |} = Ret (reported new gs r' b' n)).
  { destruct (texts_changed {| ed := e; props := p'; seen := Some p |} && negb (initRef e)) eqn:E.
    - exists (combineBillingExpr (text_of new) (buildRequestRuleExpr gs)), true. unfold commit. cbn [ed props seen]. rewrite E.
      change (effectiveExpr e) with (Ret (text_of new)). cbn [mbind outcome_bind]. rewrite (init_readable e p' new gs) by done.
      cbn [mbind outcome_bind]. unfold name_changed. cbn [seen props modelName p p']. rewrite bool_decide_true by done. done.
    - exists r, b. rewrite commit_plain; [done|exact E|done]. }
  destruct H2 as (r' & b' & H2). exists (reported new gs r' b' n). split; [|by split; [apply reported_quiet|]].
  cbn [commits]. rewrite H1. cbn [mbind outcome_bind]. rewrite H2. cbn [mbind outcome_bind]. rewrite (reported_quiet new gs r' b' n). done.
Qed.

(** switching a well-formed configuration with rules to the expression mode and back keeps the texts, the configuration and the
    groups. *)
Theorem mode_switch_round_trip specs gs r b n :
  config_ok specs → groups_ok gs → gs ≠ [] → trim (text_of specs) = text_of specs → balanced (text_of specs) = true →
  ends_with (js " : 1") (text_of specs) = false → hasFullOuterParens (text_of specs) = false →
  ∃ v1 v2, handleModeChange (reported specs gs r b n) raw = Ret v1 ∧ quiet v1 ∧ editorMode (ed v1) = raw ∧
    props v1 = props (reported specs gs r b n) ∧
    handleModeChange v1 visual = Ret v2 ∧ quiet v2 ∧ editorMode (ed v2) = visual ∧ props v2 = props v1 ∧
    visualConfig (ed v2) = Some (map tier_of_spec specs) ∧ requestRuleGroups (ed v2) = gs.
Proof.
  intros Hc Hg Hne Ht Hb He Hp. set (base := text_of specs) in *. set (rules := buildRequestRuleExpr gs).
  assert (Hbase : base ≠ []).
  { intros E. pose proof (config_reads specs Hc) as H. fold base in H. rewrite E in H. done. }
  assert (Hu : unwrapOuterParens base = base).
  { unfold unwrapOuterParens. rewrite Ht. destruct (length base); [done|]. cbn [unwrap_go]. by rewrite Hp. }
  assert (Hs : splitBillingExprAndRequestRules (combineBillingExpr base rules) = Ret {| billingExpr := base; requestRuleExpr := rules |}).
  { unfold rules. rewrite split_of_combined by done. by rewrite Hu. }
  assert (Hcomb : truthy (combineBillingExpr base rules) = true).
  { unfold combineBillingExpr. rewrite Ht. destruct base; [done|]. cbn. by destruct (truthy (trim rules)). }
  set (p := {| currentExpr := base; currentRequestRuleExpr := rules; modelName := n |}).
  set (v1 := {| ed := raw_editor (Some (map tier_of_spec specs)) (combineBillingExpr base rules) gs b; props := p; seen := Some p |}).
  exists v1, (reported specs gs (combineBillingExpr base rules) b n). split.
  { unfold handleModeChange. cbn [reported ed visual_editor visualConfig requestRuleGroups].
    change (generateExprFromVisualConfig (Some (map tier_of_spec specs))) with base. fold rules. rewrite Hcomb. done. }
  split.
  { unfold quiet, v1. rewrite commit_plain; [|by rewrite texts_same|done]. cbn [effectiveExpr raw_editor editorMode rawExpr].
    rewrite Hs. done. }
  split; [done|]. split; [done|]. split.
  { unfold handleModeChange, v1. cbn [ed raw_editor rawExpr]. rewrite Hs. cbn [mbind outcome_bind requestRuleExpr billingExpr].
    unfold rules. rewrite (groups_read gs Hg). unfold base. rewrite (config_reads specs Hc). done. }
  split; [apply reported_quiet|]. done.
Qed.

(** ** What is not read is lost *)

Lemma zero_unread : tryParseVisualConfig (Some ZERO_EXPR) = None.
Proof. vm_compute. reflexivity. Qed.

Lemma zero_combined : combineBillingExpr ZERO_EXPR [] = ZERO_EXPR.
Proof. vm_compute. reflexivity. Qed.

Lemma zero_split : splitBillingExprAndRequestRules ZERO_EXPR = Ret {| billingExpr := ZERO_EXPR; requestRuleExpr := [] |}.
Proof. vm_compute. reflexivity. Qed.

(** The end of every such run: the raw mode with the zero price. *)
Definition zeroed (b : bool) (n : str) : View :=
  let p := {| currentExpr := ZERO_EXPR; currentRequestRuleExpr := []; modelName := n |} in
  {| ed := raw_editor None ZERO_EXPR [] b; props := p; seen := Some p |}.

Lemma zeroed_quiet b n : quiet (zeroed b n).
Proof.
  unfold quiet, zeroed. rewrite commit_plain; [|by rewrite texts_same|done].
  cbn [effectiveExpr raw_editor editorMode rawExpr]. rewrite zero_split. done.
Qed.

Lemma groups_none : groups_or_none [] = Ret [].
Proof. vm_compute. reflexivity. Qed.

(** C17: an expression that the visual editor cannot read does not survive the opening of the editor: its effects come to rest with the
    expression [p * 0 + c * 0], a price of nothing, as the text that the panel saves. *)
Theorem unreadable_expression_zeroed expr r n :
  truthy expr = true → tryParseVisualConfig (Some expr) = None →
  splitBillingExprAndRequestRules (combineBillingExpr expr []) = Ret r →
  ∃ v, opened 4 {| currentExpr := expr; currentRequestRuleExpr := []; modelName := n |} = Ret v ∧ quiet v ∧
    currentExpr (props v) = ZERO_EXPR.
Proof.
  intros Hx Hu Hs. set (p := {| currentExpr := expr; currentRequestRuleExpr := []; modelName := n |}).
  set (pz := {| currentExpr := ZERO_EXPR; currentRequestRuleExpr := []; modelName := n |}).
  set (pr := {| currentExpr := billingExpr r; currentRequestRuleExpr := []; modelName := n |}).
  set (e1 := raw_editor None (combineBillingExpr expr []) [] false).
  assert (H1 : opened 4 p = commits 3 {| ed := e1; props := pz; seen := Some p |}).
  { assert (Hc : commit {| ed := visual_editor None (combineBillingExpr expr []) [] false; props := p; seen := None |} =
      Ret {| ed := e1; props := pz; seen := Some p |}).
    { unfold commit. cbn [ed props seen effectiveExpr visual_editor editorMode visualConfig mbind outcome_bind initRef].
      unfold texts_changed. cbn [seen andb negb]. unfold init_effect.
      change (currentRequestRuleExpr p) with (@nil N). change (currentExpr p) with expr. rewrite groups_none, Hu, Hx. done. }
    unfold opened, mount. change (currentRequestRuleExpr p) with (@nil N). change (currentExpr p) with expr.
    rewrite groups_none, Hu.
    transitivity (v ← commit {| ed := visual_editor None (combineBillingExpr expr []) [] false; props := p; seen := None |}; commits 3 v);
      [reflexivity|by rewrite Hc]. }
  rewrite H1. destruct (decide (expr = ZERO_EXPR)) as [->|Hz].
  - exists (zeroed false n). split; [|by split; [apply zeroed_quiet|]]. unfold e1, p, pz. rewrite zero_combined.
    cbn [commits]. rewrite (zeroed_quiet false n). cbn [mbind outcome_bind]. rewrite (zeroed_quiet false n). cbn [mbind outcome_bind].
    by rewrite (zeroed_quiet false n).
  - exists (zeroed true n). split; [|by split; [apply zeroed_quiet|]].
    assert (H2 : commit {| ed := e1; props := pz; seen := Some p |} =
      Ret {| ed := raw_editor None ZERO_EXPR [] true; props := pr; seen := Some pz |}).
    { unfold commit. cbn [ed props seen]. unfold e1. cbn [effectiveExpr raw_editor editorMode rawExpr]. rewrite Hs.
      cbn [mbind outcome_bind]. unfold texts_changed. cbn [seen props p pz currentExpr currentRequestRuleExpr initRef].
      rewrite (bool_decide_false (expr = ZERO_EXPR)) by done. cbn [andb negb]. unfold init_effect.
      change (currentRequestRuleExpr pz) with (@nil N). change (currentExpr pz) with ZERO_EXPR.
      rewrite groups_none, zero_unread, zero_combined. cbn [mbind outcome_bind]. unfold name_changed. cbn [seen props modelName].
      rewrite (bool_decide_true (n = n)) by done. done. }
    cbn [commits]. rewrite H2. cbn [mbind outcome_bind].
    rewrite commit_plain; [|by rewrite andb_false_r|done]. cbn [effectiveExpr raw_editor editorMode rawExpr]. rewrite zero_split.
    cbn [mbind outcome_bind]. rewrite commit_plain; [|by rewrite andb_false_r|done].
    cbn [effectiveExpr raw_editor editorMode rawExpr]. rewrite zero_split. done.
Qed.

(** rules that the visual editor cannot read, beside an expression that it can, are deleted by the opening of the editor. *)
Theorem complex_rules_dropped specs rules n :
  config_ok specs → tryParseRequestRuleExpr rules = Ret None →
  ∃ v, opened 3 {| currentExpr := text_of specs; currentRequestRuleExpr := rules; modelName := n |} = Ret v ∧ quiet v ∧
    currentExpr (props v) = text_of specs ∧ currentRequestRuleExpr (props v) = [].
Proof.
  intros Hc Hr. destruct (unread_rules_dropped specs rules n Hc Hr) as (r & b & H). exists (reported specs [] r b n).
  split; [exact H|]. by split; [apply reported_quiet|].
Qed.

(** ** Tiers *)

Lemma bound_last_app tiers t : bound_last (tiers ++ [t]) =
  tiers ++ [if bool_decide (conds_of t = []) then normalizeVisualTier (with_conds t [default_bound (js "len")]) else t].
Proof.
  unfold bound_last. rewrite map_app. cbn [map]. rewrite List.last_last, removelast_last. by case_bool_decide.
Qed.

(** Adding a tier keeps the others, bounds a last tier that matched everything, and ends in a tier without conditions; removing one
    never leaves the configuration empty; and a tier never gets a third condition. *)
Theorem tier_edits_sound tiers t i :
  (∃ t' new, handleAddTier (tiers ++ [t]) = tiers ++ [t'; new] ∧ conds_of new = [] ∧ conds_of t' ≠ [] ∧
     (conds_of t ≠ [] → t' = t)) ∧
  handleRemoveTier (tiers ++ [t]) i ≠ [] ∧
  (∀ u, handleAddCondition (tiers ++ [t]) i !! i = Some u →
     length (conds_of u) ≤ 2 ∨ (tiers ++ [t]) !! i = Some u).
Proof.
  split; [|split].
  - unfold handleAddTier. rewrite bound_last_app. case_bool_decide as Hc.
    + eexists _, _. split; [by rewrite <- app_assoc|]. done.
    + exists t. eexists. split; [by rewrite <- app_assoc|]. done.
  - unfold handleRemoveTier. case_bool_decide as Hr; [|done]. by destruct tiers.
  - intros u. unfold handleAddCondition. generalize (tiers ++ [t]) as l. intros l. unfold VisualConfig in *. destruct (l !! i) as [w|] eqn:E.
    + destruct (bool_decide (2 ≤ length (conds_of w))) eqn:Hl; [rewrite E; intros H; by right|].
      apply bool_decide_eq_false in Hl. rewrite list_lookup_insert_eq by (by apply lookup_lt_Some in E). intros [= <-]. left. cbn. rewrite length_app. cbn. lia.
    + rewrite E. done.
Qed.

(** ** Presets and examples *)

(** Every template can be read, and what it is saved as reads the same. *)
Lemma every_preset_readable :
  let presets := flat_map snd PRESET_GROUPS in
  forallb (λ pr, match tryParseVisualConfig (Some (preset_expr pr)) with Some _ => true | None => false end) presets = true ∧
  map (λ pr, tryParseVisualConfig (Some (generateExprFromVisualConfig (tryParseVisualConfig (Some (preset_expr pr)))))) presets =
  map (λ pr, tryParseVisualConfig (Some (preset_expr pr))) presets.
Proof. vm_compute. split; reflexivity. Qed.

Definition model_props (expr rules : str) : Props := {| currentExpr := expr; currentRequestRuleExpr := rules; modelName := js "m" |}.

Definition flat_text : str := tier_text_of "base" "p * 3 + c * 15".

(** The expression and the rules that a run leaves. *)
Definition left_texts (o : outcome View) : option (str * str) :=
  match o with Ret v => Some (currentExpr (props v), currentRequestRuleExpr (props v)) | Throw => None end.

(** A preset with rules that is chosen first leaves the old expression beside its rules: the rules reach the panel before the expression, and the editor
    initialises itself from the two.  Chosen again it is applied. *)
Example first_preset_loses_expression :
  let preset := {| key := js "claude-opus-fast"; preset_label := js "Claude Opus 4.6 Fast"; preset_expr := OPUS;
    requestRules := Some [one_rule (ph Header (js "anthropic-beta") MATCH_CONTAINS (js "fast-mode-2026-02-01")) "6"] |} in
  fst <$> left_texts (v ← opened 2 (model_props flat_text []); commits 4 (applyPreset v preset)) = Some flat_text ∧
  fst <$> left_texts (v ← opened 2 (model_props flat_text []); w ← commits 4 (applyPreset v preset); commits 4 (applyPreset w preset)) = Some OPUS.
Proof. vm_compute. split; reflexivity. Qed.

(** An expression that the editor can read but would write differently is rewritten when the editor is opened. *)
Example readable_text_rewritten :
  fst <$> left_texts (opened 3 (model_props (js "v1:" ++ flat_text) [])) = Some flat_text.
Proof. vm_compute. reflexivity. Qed.

(** The first character typed in the expression mode switches back to the visual mode when the text can be read. *)
Example first_key_leaves_raw_mode :
  match (v ← opened 2 (model_props flat_text []); w ← handleModeChange v raw; u ← commits 2 w;
         x ← handleRawChange u (tier_text_of "base" "p * 3 + c * 150"); commits 3 x) with
  | Ret v => editorMode (ed v) = visual
  | Throw => False
  end.
Proof. vm_compute. reflexivity. Qed.

(** ** Witnesses *)

Lemma sample_specs_ok : config_ok sample_specs.
Proof. split; [discriminate|]. split; [vm_compute; reflexivity|]. right. vm_compute. reflexivity. Qed.

Lemma sample_groups_ok : groups_ok sample_groups.
Proof. vm_compute. reflexivity. Qed.

Lemma written_prices_opened_witness :
  (∃ v, opened 1 (model_props (text_of sample_specs) (buildRequestRuleExpr sample_groups)) = Ret v ∧ quiet v ∧ requestRuleGroups (ed v) = sample_groups) ∧
  (∃ v, opened 3 (model_props (text_of sample_specs) (buildRequestRuleExpr guarded_groups_sample)) = Ret v ∧ quiet v ∧ requestRuleGroups (ed v) = []).
Proof.
  split.
  - destruct (written_prices_opened sample_specs sample_groups (js "m") sample_specs_ok) as (v & H1 & H2 & _ & _ & _ & _ & H3); [vm_compute; reflexivity|].
    exists v. split; [exact H1|]. split; [exact H2|exact H3].
  - destruct (written_prices_opened sample_specs guarded_groups_sample (js "m") sample_specs_ok) as (v & H1 & H2 & _ & _ & _ & _ & H3); [vm_compute; reflexivity|].
    exists v. split; [exact H1|]. split; [exact H2|exact H3].
Defined.

Lemma visual_edits_reported_witness : ∃ v,
  commits 3 (handleVisualChange (reported (take 1 sample_specs) sample_groups [] false (js "m")) (map tier_of_spec sample_specs)) = Ret v ∧
  currentExpr (props v) = text_of sample_specs.
Proof.
  destruct (visual_edits_reported (take 1 sample_specs) sample_specs sample_groups [] false (js "m") sample_groups_ok sample_specs_ok)
    as (v & H1 & _ & H2 & _).
  exists v. split; [exact H1|exact H2].
Defined.

Lemma mode_switch_round_trip_witness : ∃ v, handleModeChange (reported sample_specs sample_groups [] false (js "m")) raw = Ret v ∧ quiet v.
Proof.
  destruct (mode_switch_round_trip sample_specs sample_groups [] false (js "m") sample_specs_ok sample_groups_ok) as (v & _ & H1 & H2 & _).
  - discriminate.
  - vm_compute. reflexivity.
  - vm_compute. reflexivity.
  - vm_compute. reflexivity.
  - vm_compute. reflexivity.
  - exists v. split; [exact H1|exact H2].
Defined.

Lemma unreadable_expression_zeroed_witness : ∃ v,
  opened 4 (model_props (tier_text_of "base" "max(p * 2, 5)") []) = Ret v ∧ currentExpr (props v) = ZERO_EXPR.
Proof.
  destruct (unreadable_expression_zeroed (tier_text_of "base" "max(p * 2, 5)")
    {| billingExpr := tier_text_of "base" "max(p * 2, 5)"; requestRuleExpr := [] |} (js "m")) as (v & H1 & _ & H2).
  - reflexivity.
  - vm_compute. reflexivity.
  - vm_compute. reflexivity.
  - exists v. split; [exact H1|exact H2].
Defined.

Lemma complex_rules_dropped_witness : ∃ v,
  opened 3 (model_props (text_of sample_specs) (js "(hour(1) > 2 || true ? 3 : 1)")) = Ret v ∧ currentRequestRuleExpr (props v) = [].
Proof.
  destruct (complex_rules_dropped sample_specs (js "(hour(1) > 2 || true ? 3 : 1)") (js "m") sample_specs_ok) as (v & H1 & _ & _ & H2).
  - vm_compute. reflexivity.
  - exists v. split; [exact H1|exact H2].
Defined.
