(* ===== verification/DashboardPrefs.v ===== *)
(** * Stored preferences of the dashboard ([features/dashboard/lib/filters.ts], [constants.ts])

    The dashboard keeps its chart preferences as a JSON text in the browser's storage, and an older version kept the granularity
    alone under a key of its own.  Whatever the storage holds, reading gives preferences within the offered choices; what is
    saved is read back.  The storage is a map from keys to texts ([JsMap]); dates are time values. *)

From S2P Require Import Prelude JsString JsNumber Json JsMap Charts.

Inductive ConsumptionDistributionChartType := Bar | Area.
Inductive ModelAnalyticsChartTab := Trend | Proportion | Top.

Record DashboardChartPreferences := {
  consumptionDistributionChart : ConsumptionDistributionChartType;
  modelAnalyticsChart : ModelAnalyticsChartTab;
  defaultTimeRangeDays : num;
  defaultTimeGranularity : TimeGranularity }.

Definition TIME_GRANULARITY_STORAGE_KEY : str := js "data_export_default_time".
Definition DASHBOARD_CHART_PREFERENCES_STORAGE_KEY : str := js "dashboard_models_chart_preferences".
Definition DEFAULT_TIME_GRANULARITY : TimeGranularity := Hour.

Definition DEFAULT_DASHBOARD_CHART_PREFERENCES : DashboardChartPreferences := {|
  consumptionDistributionChart := Bar; modelAnalyticsChart := Trend; defaultTimeRangeDays := num_of_Z 1;
  defaultTimeGranularity := DEFAULT_TIME_GRANULARITY |}.

Definition TIME_RANGE_BY_GRANULARITY (g : TimeGranularity) : num :=
  match g with Hour => num_of_Z 1 | Day => num_of_Z 7 | Week => num_of_Z 30 end.

Definition TIME_RANGE_PRESETS : list num := map num_of_Z [1; 7; 14; 29]%Z.

(** The strings of the choices. *)
Definition granularity_text (g : TimeGranularity) : str :=
  match g with Hour => js "hour" | Day => js "day" | Week => js "week" end.
Definition chart_text (c : ConsumptionDistributionChartType) : str := match c with Bar => js "bar" | Area => js "area" end.
Definition tab_text (t : ModelAnalyticsChartTab) : str :=
  match t with Trend => js "trend" | Proportion => js "proportion" | Top => js "top" end.

(** [isTimeGranularity], [isConsumptionDistributionChartType], [isModelAnalyticsChartTab]: the choice a text stands for. *)
Definition isTimeGranularity (value : str) : option TimeGranularity :=
  List.find (λ g, bool_decide (granularity_text g = value)) [Hour; Day; Week].

Definition isConsumptionDistributionChartType (value : str) : option ConsumptionDistributionChartType :=
  List.find (λ c, bool_decide (chart_text c = value)) [Bar; Area].

Definition isModelAnalyticsChartTab (value : str) : option ModelAnalyticsChartTab :=
  List.find (λ t, bool_decide (tab_text t = value)) [Trend; Proportion; Top].

Definition isTimeRangePresetDays (value : option json) : option num :=
  match value with
  | Some (JNum x) => if existsb (num_eqb x) TIME_RANGE_PRESETS then Some x else None
  | _ => None
  end.

Definition Storage := list (str * str).

Definition getLegacySavedGranularity (st : Storage) : TimeGranularity :=
  default DEFAULT_TIME_GRANULARITY (mget st TIME_GRANULARITY_STORAGE_KEY ≫= isTimeGranularity).

(** A text in a field of the stored object. *)
Definition text_field (parsed : json) (k : str) : option str :=
  match opt_prop k (Some parsed) with Some (JStr s) => Some s | _ => None end.

Definition getSavedChartPreferences (st : Storage) : DashboardChartPreferences :=
  let fallback := {|
    consumptionDistributionChart := consumptionDistributionChart DEFAULT_DASHBOARD_CHART_PREFERENCES;
    modelAnalyticsChart := modelAnalyticsChart DEFAULT_DASHBOARD_CHART_PREFERENCES;
    defaultTimeRangeDays := defaultTimeRangeDays DEFAULT_DASHBOARD_CHART_PREFERENCES;
    defaultTimeGranularity := getLegacySavedGranularity st |} in
  match mget st DASHBOARD_CHART_PREFERENCES_STORAGE_KEY with
  | None | Some [] => fallback
  | Some raw =>
      match json_parse raw with
      | None | Some JNull => fallback
      | Some parsed => {|
          consumptionDistributionChart :=
            default (consumptionDistributionChart fallback)
              (text_field parsed (js "consumptionDistributionChart") ≫= isConsumptionDistributionChartType);
          modelAnalyticsChart :=
            default (modelAnalyticsChart fallback) (text_field parsed (js "modelAnalyticsChart") ≫= isModelAnalyticsChartTab);
          defaultTimeRangeDays :=
            default (defaultTimeRangeDays fallback) (isTimeRangePresetDays (opt_prop (js "defaultTimeRangeDays") (Some parsed)));
          defaultTimeGranularity :=
            default (defaultTimeGranularity fallback) (text_field parsed (js "defaultTimeGranularity") ≫= isTimeGranularity) |}
      end
  end.

(** [JSON.stringify(preferences)] *)
Definition preferences_text (p : DashboardChartPreferences) : str := json_stringify (JObj [
  (js "consumptionDistributionChart", JStr (chart_text (consumptionDistributionChart p)));
  (js "modelAnalyticsChart", JStr (tab_text (modelAnalyticsChart p)));
  (js "defaultTimeRangeDays", JNum (defaultTimeRangeDays p));
  (js "defaultTimeGranularity", JStr (granularity_text (defaultTimeGranularity p)))]).

Definition saveChartPreferences (st : Storage) (p : DashboardChartPreferences) : Storage :=
  mset st DASHBOARD_CHART_PREFERENCES_STORAGE_KEY (preferences_text p).

Definition with_granularity (p : DashboardChartPreferences) (g : TimeGranularity) : DashboardChartPreferences := {|
  consumptionDistributionChart := consumptionDistributionChart p; modelAnalyticsChart := modelAnalyticsChart p;
  defaultTimeRangeDays := defaultTimeRangeDays p; defaultTimeGranularity := g |}.

Definition saveGranularity (st : Storage) (g : TimeGranularity) : Storage :=
  mset (saveChartPreferences st (with_granularity (getSavedChartPreferences st) g)) TIME_GRANULARITY_STORAGE_KEY (granularity_text g).

Definition getSavedGranularity (st : Storage) (override : option TimeGranularity) : TimeGranularity :=
  match override with Some g => g | None => defaultTimeGranularity (getSavedChartPreferences st) end.

Definition getDefaultDays (st : Storage) (granularity : option TimeGranularity) : num :=
  match granularity with
  | None => defaultTimeRangeDays (getSavedChartPreferences st)
  | Some g => TIME_RANGE_BY_GRANULARITY (getSavedGranularity st (Some g))
  end.

(** [getRollingDateRange] of [lib/time.ts]: [days] times 24 hours up to [now]. *)
Definition getRollingDateRange (days now : num) : num * num :=
  (nsub now (nmul (nmul (nmul (nmul days (num_of_Z 24)) (num_of_Z 60)) (num_of_Z 60)) (num_of_Z 1000)), now).

Record DashboardFilters := {
  start_timestamp : option num; end_timestamp : option num; time_granularity : option TimeGranularity; filter_username : option str }.

Definition buildDefaultDashboardFilters (p : DashboardChartPreferences) (now : num) : DashboardFilters :=
  let '(start, stop) := getRollingDateRange (defaultTimeRangeDays p) now in
  {| start_timestamp := Some start; end_timestamp := Some stop; time_granularity := Some (defaultTimeGranularity p);
     filter_username := Some [] |}.

(** [cleanFilters]: a filter that is missing, null or blank is left out, and texts are trimmed. *)
Fixpoint clean_entries (entries : obj) (cleaned : obj) : obj :=
  match entries with
  | [] => cleaned
  | (key, value) :: rest =>
      clean_entries rest
        match value with
        | JNull => cleaned
        | JStr s => if truthy (trim s) then obj_set key (JStr (trim s)) cleaned else cleaned
        | _ => obj_set key value cleaned
        end
  end.

Definition cleanFilters (filters : obj) : obj := clean_entries filters [].

Record QueryParams := { q_start : num; q_end : num; default_time : str; q_username : option str }.

Definition buildQueryParams (st : Storage) (range : num * num) (filters : option DashboardFilters) : QueryParams := {|
  q_start := fst range; q_end := snd range;
  default_time := granularity_text (getSavedGranularity st (filters ≫= time_granularity));
  q_username := match filters ≫= filter_username with Some u => if truthy u then Some u else None | None => None end |}.

(** ** Properties *)

Lemma granularity_read g : isTimeGranularity (granularity_text g) = Some g.
Proof. destruct g; vm_compute; reflexivity. Qed.

Lemma keys_differ : DASHBOARD_CHART_PREFERENCES_STORAGE_KEY ≠ TIME_GRANULARITY_STORAGE_KEY.
Proof. apply (bool_decide_eq_false_1 (DASHBOARD_CHART_PREFERENCES_STORAGE_KEY = TIME_GRANULARITY_STORAGE_KEY)). vm_compute. reflexivity. Qed.

(** Preferences with one of the offered ranges. *)
Definition offered (p : DashboardChartPreferences) : Prop := defaultTimeRangeDays p ∈ TIME_RANGE_PRESETS.

(** Numbers that are [===] to one other than zero are that number. *)
Lemma same_number x s m e : num_eqb x (S754_finite s m e) = true → x = S754_finite s m e.
Proof.
  unfold num_eqb, SFeqb, SFcompare. destruct x as [[]|[]| |b m' e']; try (by destruct s).
  change (Pos.compare_cont Eq m' m) with (m' ?= m)%positive.
  destruct (Z.compare_spec e' e), b, s; try done; subst; destruct (Pos.compare_spec m' m); try done; by subst.
Qed.

Lemma preset_read x : existsb (num_eqb x) TIME_RANGE_PRESETS = true → x ∈ TIME_RANGE_PRESETS.
Proof.
  intros H. apply existsb_exists in H as (y & Hy & E). apply list_elem_of_In in Hy.
  assert (Hf : ∃ s m e, y = S754_finite s m e).
  { apply elem_of_lmap in Hy as (z & -> & Hz). repeat (apply elem_of_cons in Hz as [->|Hz]; [by repeat eexists|]). by apply elem_of_nil in Hz. }
  destruct Hf as (s & m & e & ->). by rewrite (same_number _ _ _ _ E).
Qed.

Lemma default_offered : num_of_Z 1 ∈ TIME_RANGE_PRESETS.
Proof. left. Qed.

(** Whatever the storage holds, the preferences that are read are among the choices offered. *)
Theorem saved_preferences_offered st : offered (getSavedChartPreferences st).
Proof.
  unfold offered, getSavedChartPreferences. destruct (mget st _) as [[|c raw]|]; [apply default_offered| |apply default_offered].
  destruct (json_parse (c :: raw)) as [[]|]; try apply default_offered; cbn [defaultTimeRangeDays];
    destruct (isTimeRangePresetDays _) as [x|] eqn:E; try apply default_offered; unfold isTimeRangePresetDays in E;
    repeat (case_match; simplify_eq); by apply preset_read.
Qed.

Lemma read_stored st p :
  offered p → mget st DASHBOARD_CHART_PREFERENCES_STORAGE_KEY = Some (preferences_text p) → getSavedChartPreferences st = p.
Proof.
  intros Ho E. destruct p as [c t d g]. unfold getSavedChartPreferences. rewrite E.
  apply elem_of_lmap in Ho as (z & Hd & Hz). cbn in Hd. subst d. generalize (getLegacySavedGranularity st) as old. intros old. clear E.
  destruct c, t, g; repeat (apply elem_of_cons in Hz as [->|Hz]; [vm_compute; reflexivity|]); by apply elem_of_nil in Hz.
Qed.

(** Preferences that are saved are read back. *)
Theorem saved_preferences_read_back st p : offered p → getSavedChartPreferences (saveChartPreferences st p) = p.
Proof. intros Ho. apply read_stored; [done|]. apply mget_set_eq. Qed.

(** Saving a granularity changes it, there and under the older key, and nothing else. *)
Theorem saved_granularity_read_back st g :
  getSavedChartPreferences (saveGranularity st g) = with_granularity (getSavedChartPreferences st) g ∧
  getLegacySavedGranularity (saveGranularity st g) = g.
Proof.
  split.
  - apply read_stored; [apply saved_preferences_offered|]. unfold saveGranularity. rewrite mget_set, decide_False by (symmetry; apply keys_differ).
    apply mget_set_eq.
  - unfold getLegacySavedGranularity, saveGranularity. rewrite mget_set_eq. cbn [mbind option_bind]. by rewrite granularity_read.
Qed.
