(* ===== verification/ChatLinks.v ===== *)
(** * Chat links

    [features/chat/lib/chat-links.ts] and [send-to-fluent.ts], the hooks [use-chat-presets.ts] and [use-active-chat-key.ts], and
    their users: the pages [routes/_authenticated/chat/$chatId.tsx] and [chat2link.tsx], the sidebar's
    [chat-presets-item.tsx] and the row menu of the API keys.  A preset is a template of a link to an external chat
    client; the address of the server and a key are written into it.

    [toLowerCase] is an argument, and so is whether the platform has [window.btoa] and [Buffer]. *)

From S2P Require Import Prelude JsString Regex JsNumber JsNumberFacts JsInteger Json JsonFacts JsEncode.

Inductive ChatLinkType := web | custom_protocol | fluent.
#[export] Instance ChatLinkType_eq_dec : EqDecision ChatLinkType.
Proof. solve_decision. Defined.

Record ChatPreset := { id : str; name : str; url : str; type : ChatLinkType }.
#[export] Instance ChatPreset_eq_dec : EqDecision ChatPreset.
Proof. solve_decision. Defined.

Record ActiveApiKey := { key : str; status : Z }.

Definition API_KEY_ENABLED : Z := 1.

(** ** Reading the presets *)

(** [/^https?:\/\//i] *)
Definition any_case (c : N) : regex := RChar (λ d, ((d =? c) || (d =? c - 32))%N).
Definition HTTP_REGEX : regex :=
  RSeq RBol (rseq [any_case 104; any_case 116; any_case 116; any_case 112; ROpt (any_case 115); rlit (js "://")]%N).

Section presets.
Context (toLowerCase : str → str).

Definition detectChatLinkType (u : str) : ChatLinkType :=
  if test_re HTTP_REGEX u then web
  else if starts_with (js "fluent") (toLowerCase u) then fluent
  else custom_protocol.

Definition chatLinkRequiresApiKey (u : str) : bool :=
  includes (js "{key}") u || includes (js "{cherryConfig}") u || includes (js "{aionuiConfig}") u || includes (js "{deepchatConfig}") u.

(** One entry of the configured array, at its index in it. *)
Definition preset_of_entry (index : nat) (entry : json) : option ChatPreset :=
  match entry with
  | JObj [(n, JStr value)] =>
      let u := trim value in
      if truthy u
      then Some {| id := string_of_num (num_of_Z (Z.of_nat index)); name := n; url := u; type := detectChatLinkType u |}
      else None
  | _ => None
  end.

(** [parsed.map(..).filter(item => item !== null)] *)
Definition presets_of (entries : list json) : list ChatPreset := omap (λ o, o) (imap preset_of_entry entries).

(** [raw] is [undefined], a text to be parsed or a value *)
Definition parseChatConfig (raw : option json) : list ChatPreset :=
  let parsed := match raw with Some (JStr s) => json_parse s | _ => raw end in
  match parsed with
  | Some (JArr entries) => presets_of entries
  | _ => []
  end.

(** [localStorage.getItem('status')] *)
Definition getStoredStatusChats (stored : option str) : option json :=
  match stored with
  | Some raw => if truthy raw
                then let parsed := json_parse raw in coalesce (opt_prop (js "chats") parsed) (opt_prop (js "Chats") parsed)
                else None
  | None => None
  end.

Definition extractServerAddress (origin : str) (st : option json) : str :=
  let data := opt_prop (js "data") st in
  let fromStatus :=
    coalesce (opt_prop (js "server_address") st)
      (coalesce (opt_prop (js "serverAddress") st)
         (coalesce (opt_prop (js "server_address") data) (opt_prop (js "serverAddress") data))) in
  match fromStatus with
  | Some (JStr s) => if truthy s then s else origin
  | _ => origin
  end.

Definition extractChats (stored : option str) (st : option json) : option json :=
  let data := opt_prop (js "data") st in
  let raw :=
    coalesce (opt_prop (js "Chats") st)
      (coalesce (opt_prop (js "chats") st) (coalesce (opt_prop (js "Chats") data) (opt_prop (js "chats") data))) in
  coalesce raw (getStoredStatusChats stored).

Definition useChatPresets (stored : option str) (origin : str) (st : option json) : list ChatPreset * str :=
  (parseChatConfig (extractChats stored st), extractServerAddress origin st).
End presets.

(** ** Writing a link *)

Definition replaceToken (source token value : str) : str := join value (split token source).

Definition normalizeApiKey (apiKey : str) : str :=
  let trimmed := trim apiKey in
  if truthy trimmed then if starts_with (js "sk-") trimmed then trimmed else js "sk-" ++ trimmed else [].

Record platform := { has_btoa : bool; has_buffer : bool }.

Definition toBase64 (env : platform) (value : str) : outcome str :=
  if has_btoa env then btoa value
  else if has_buffer env then Ret (base64 (utf8_encode value))
  else Ret [].

(** The payload of a client's configuration: who serves it, where and with which key. *)
Definition config_payload (field serverAddress apiKey : str) : json :=
  JObj [(field, JStr (js "new-api")); (js "baseUrl", JStr serverAddress); (js "apiKey", JStr apiKey)].

Definition encode_payload (env : platform) (payload : json) : outcome str :=
  b ← toBase64 env (json_stringify payload); encodeURIComponent b.

Definition or_blank (o : option str) : str := default [] o.

Definition resolveChatUrl (env : platform) (template : str) (apiKey : option str) (serverAddress : str) : outcome str :=
  let safeServerAddress := serverAddress in
  let safeApiKey := normalizeApiKey (or_blank apiKey) in
  if includes (js "{cherryConfig}") template then
    encoded ← encode_payload env (config_payload (js "id") safeServerAddress safeApiKey);
    Ret (replaceToken template (js "{cherryConfig}") encoded)
  else if includes (js "{aionuiConfig}") template then
    encoded ← encode_payload env (config_payload (js "platform") safeServerAddress safeApiKey);
    Ret (replaceToken template (js "{aionuiConfig}") encoded)
  else if includes (js "{deepchatConfig}") template then
    encoded ← encode_payload env (config_payload (js "id") safeServerAddress safeApiKey);
    Ret (replaceToken template (js "{deepchatConfig}") encoded)
  else
    u ← (if truthy safeServerAddress
         then encodedAddress ← encodeURIComponent safeServerAddress; Ret (replaceToken template (js "{address}") encodedAddress)
         else Ret template);
    Ret (if truthy safeApiKey then replaceToken u (js "{key}") safeApiKey else u).

Definition getFirstActiveKey (keys : option (list ActiveApiKey)) : option ActiveApiKey :=
  match keys with
  | Some l => find (λ item, (status item =? API_KEY_ENABLED)%Z) l
  | None => None
  end.

(** [sendToFluent]: the payload of the event the browser extension receives; nothing without its container. *)
Definition sendToFluent (container : bool) (origin apiKey serverAddress : str) : option json :=
  if container
  then Some (config_payload (js "id") (if truthy serverAddress then serverAddress else origin) (js "sk-" ++ apiKey))
  else None.

(** ** The key of a link *)

(** Answers of the server: the first fifty keys, and the text of one. *)
Record KeyItem := { item_id : Z; item_status : Z }.
Record KeysAnswer := { keys_success : bool; keys_message : str; keys_items : option (list KeyItem) }.
Record TokenAnswer := { token_success : bool; token_message : str; token_key : option str }.

Definition or_text (a b : str) : str := if truthy a then a else b.

(** The error's message or the key *)
Definition fetchActiveChatKey (result : KeysAnswer) (fetchTokenKey : Z → TokenAnswer) : str + str :=
  if negb (keys_success result) then inl (or_text (keys_message result) (js "Failed to load API keys"))
  else
    match find (λ item, (item_status item =? API_KEY_ENABLED)%Z) (default [] (keys_items result)) with
    | None => inl (js "No enabled API keys found. Create or enable one first.")
    | Some active =>
        let keyResult := fetchTokenKey (item_id active) in
        let k := or_blank (token_key keyResult) in
        if negb (token_success keyResult) || negb (truthy k)
        then inl (or_text (token_message keyResult) (js "Failed to load API key"))
        else inr (js "sk-" ++ k)
    end.

(** ** The pages *)

(** [chatPresets[index]] for an integer; any other property name is no element. *)
Definition preset_at (presets : list ChatPreset) (index : num) : option ChatPreset :=
  match integer_of index with
  | Some z => if (z <? 0)%Z then None else presets !! Z.to_nat z
  | None => None
  end.

(** The loader: [None] is the redirection to the dashboard. *)
Definition chat_loader (chatId : str) : bool := is_integer (number_of_string chatId).

Definition route_preset (chatId : str) (presets : list ChatPreset) : option ChatPreset :=
  let index := number_of_string chatId in
  if is_integer index then preset_at presets index else None.

(** What [useQuery] reports of the key *)
Record KeyQuery := { q_data : option str; q_pending : bool; q_error : bool; q_message : option str }.

Inductive ChatView :=
  | PresetNotFound
  | UseShortcut (n : str)
  | Preparing
  | KeyProblem (message : str)
  | LinkProblem
  | Frame (src title : str).

Definition requires_key (preset : option ChatPreset) : bool :=
  match preset with
  | Some p => bool_decide (type p = web) && chatLinkRequiresApiKey (url p)
  | None => false
  end.

Definition iframe_src (env : platform) (preset : option ChatPreset) (activeKey : option str) (serverAddress : str) : outcome str :=
  match preset with
  | Some p =>
      if negb (bool_decide (type p = web)) then Ret []
      else if requires_key preset && negb (truthy (or_blank activeKey)) then Ret []
      else resolveChatUrl env (url p) (if requires_key preset then activeKey else None) serverAddress
  | None => Ret []
  end.

Definition ChatRouteComponent (env : platform) (chatId : str) (presets : list ChatPreset) (serverAddress : str) (q : KeyQuery) : outcome ChatView :=
  let preset := route_preset chatId presets in
  let requiresActiveKey := requires_key preset in
  src ← iframe_src env preset (q_data q) serverAddress;
  Ret match preset with
      | None => PresetNotFound
      | Some p =>
          if negb (bool_decide (type p = web)) then UseShortcut (name p)
          else if requiresActiveKey && q_pending q then Preparing
          else if requiresActiveKey && (q_error q || negb (truthy (or_blank (q_data q))) || negb (truthy src))
          then KeyProblem (default (js "Unable to generate chat link. Please check your API keys.") (q_message q))
          else if negb requiresActiveKey && negb (truthy src) then LinkProblem
          else Frame src (js "Chat preset: " ++ name p)
      end.

(** Effects of the link pages on the browser. *)
Inductive LinkEffect :=
  | ToastError (message : str)
  | ToastInfo (message : str)
  | ToastSuccess (message : str)
  | GoKeys
  | Redirect (u : str)
  | OpenWindow (u : str)
  | CloseMobile
  | Prefill (payload : json)
  | Unhandled.

(** The effect of [chat2link]; [keyError] is the error's message. *)
Definition chat2link (env : platform) (presets : list ChatPreset) (serverAddress : str) (activeKey keyError : option str) : list LinkEffect :=
  match find (λ p, bool_decide (type p = web)) presets with
  | None => match presets with [] => [] | _ => [ToastError (js "No available Web chat links")] end
  | Some p =>
      match activeKey, keyError with
      | None, None => []
      | _, Some message => [ToastError message; GoKeys]
      | Some k, None =>
          if negb (truthy k) then [ToastError (js "No enabled tokens available"); GoKeys]
          else match resolveChatUrl env (url p) (Some k) serverAddress with
               | Ret u => if truthy u then [Redirect u] else []
               | Throw => [Unhandled]
               end
      end
  end.

(** ** The sidebar *)

(** [chat-presets-item.tsx]: the preset whose key is being fetched.  The reference and the state variable are always
    set together. *)
Record Shortcuts := { loadingPresetIdRef : option str; loadingPresetId : option str }.

Definition shortcuts_with (o : option str) : Shortcuts := {| loadingPresetIdRef := o; loadingPresetId := o |}.

Definition visiblePresets (presets : list ChatPreset) : list ChatPreset :=
  List.filter (λ p, negb (bool_decide (type p = fluent))) presets.

(** The end of [handleOpenExternal], once the key is there or not needed. *)
Definition open_external (env : platform) (serverAddress : str) (p : ChatPreset) (activeKey : option str) : list LinkEffect :=
  match resolveChatUrl env (url p) activeKey serverAddress with
  | Ret u => if truthy u then [OpenWindow u; CloseMobile]
             else [ToastError (js "Invalid chat link. Please contact the administrator.")]
  | Throw => [Unhandled]
  end.

(** [handleOpenExternal] up to the [await]: the new state, the effects, and whether the call waits for a key. *)
Definition handleOpenExternal (env : platform) (serverAddress : str) (s : Shortcuts) (p : ChatPreset) : Shortcuts * list LinkEffect * bool :=
  if bool_decide (type p = web) then (s, [], false)
  else
    let needsKey := chatLinkRequiresApiKey (url p) in
    if needsKey && truthy (or_blank (loadingPresetIdRef s))
    then (s, [ToastInfo (js "Preparing your chat link, please try again in a moment.")], false)
    else if needsKey then (shortcuts_with (Some (id p)), [], true)
    else (s, open_external env serverAddress p None, false).

(** The rest of it when the key or the error arrives. *)
Definition resume_open (env : platform) (serverAddress : str) (p : ChatPreset) (answer : str + str) : Shortcuts * list LinkEffect :=
  (shortcuts_with None,
   match answer with
   | inl message => [ToastError message]
   | inr k => open_external env serverAddress p (Some k)
   end).

(** The menu item of a preset: a link for a web preset, a button that does nothing while its key is fetched for
    the others. *)
Definition click_item (env : platform) (serverAddress : str) (s : Shortcuts) (p : ChatPreset) : Shortcuts * list LinkEffect * bool :=
  if bool_decide (loadingPresetId s = Some (id p)) then (s, [], false) else handleOpenExternal env serverAddress s p.

(** The page as a state machine: the calls that wait for a key, oldest first. *)
Record SidebarState := { sb_shortcuts : Shortcuts; sb_waiting : list ChatPreset; sb_effects : list LinkEffect }.

Definition sidebar_start : SidebarState := {| sb_shortcuts := shortcuts_with None; sb_waiting := []; sb_effects := [] |}.

Inductive SidebarEvent := Click (p : ChatPreset) | KeyAnswer (i : nat) (answer : str + str).

Definition sidebar_step (env : platform) (serverAddress : str) (s : SidebarState) (e : SidebarEvent) : SidebarState :=
  match e with
  | Click p =>
      let '(s', fx, waits) := click_item env serverAddress (sb_shortcuts s) p in
      {| sb_shortcuts := s'; sb_waiting := if waits then sb_waiting s ++ [p] else sb_waiting s; sb_effects := sb_effects s ++ fx |}
  | KeyAnswer i answer =>
      match sb_waiting s !! i with
      | Some p =>
          let '(s', fx) := resume_open env serverAddress p answer in
          {| sb_shortcuts := s'; sb_waiting := delete i (sb_waiting s); sb_effects := sb_effects s ++ fx |}
      | None => s
      end
  end.

Definition sidebar_run (env : platform) (serverAddress : str) (es : list SidebarEvent) : SidebarState :=
  fold_left (sidebar_step env serverAddress) es sidebar_start.

(** ** The menu of an API key *)

(** [handleOpenChatPreset] once [resolveRealKey] has answered; [blocked]: [window.open] throws. *)
Definition handleOpenChatPreset (env : platform) (container blocked : bool) (origin serverAddress : str) (realKey : option str) (p : ChatPreset) : list LinkEffect :=
  match realKey with
  | Some k =>
      if negb (truthy k) then []
      else if bool_decide (type p = fluent) then
        match sendToFluent container origin k serverAddress with
        | Some payload => [Prefill payload; ToastSuccess (js "Sent the API key to FluentRead.")]
        | None => [ToastInfo (js "FluentRead extension not detected. Please ensure it is installed and active.")]
        end
      else
        match resolveChatUrl env (url p) (Some k) serverAddress with
        | Ret u => if truthy u then [if blocked then Redirect u else OpenWindow u]
                   else [ToastError (js "Invalid chat link. Please contact your administrator.")]
        | Throw => [Unhandled]
        end
  | None => []
  end.

(** The row menu's own reading of the server address *)
Definition getServerAddress (origin : str) (stored : option str) : str :=
  match stored with
  | Some raw =>
      if truthy raw
      then match json_parse raw with
           | Some v => match truthy_text (opt_prop (js "server_address") (Some v)) with Some s => s | None => origin end
           | None => origin
           end
      else origin
  | None => origin
  end.

Definition encodeConnectionString (k u : str) : str :=
  json_stringify (JObj [(js "_type", JStr (js "newapi_channel_conn")); (js "key", JStr k); (js "url", JStr u)]).

(** * Properties of chat links

    A client that decodes the configuration in its link reads the address and the key that were written; a web preset's
    link opens it exactly when no earlier entry of the configuration was dropped; the sidebar fetches one key at a time. *)


(** ** Configurations in links *)

(** A JSON text of one-byte units is made of one-byte units. *)
Lemma bytes_app a b : bytes (a ++ b) ↔ bytes a ∧ bytes b.
Proof. apply Forall_app. Qed.

Lemma bytes_lit s : forallb is_byte s = true → bytes s.
Proof. intros H. apply Forall_forall. intros c Hc%list_elem_of_In. rewrite forallb_forall in H. by apply N.ltb_lt, H. Qed.

Lemma bytes_is_byte s : bytes s ↔ forallb is_byte s = true.
Proof.
  split; [|apply bytes_lit]. intros H. apply forallb_forall. intros c Hc%list_elem_of_In. apply N.ltb_lt.
  by apply (proj1 (Forall_forall _ _) H).
Qed.

Lemma bytes_units s : bytes s → units s.
Proof. intros H. eapply Forall_impl; [exact H|]. intros c Hc. unfold code_unit. simpl in Hc. lia. Qed.

Lemma bytes_quote_unit c : (c < 256)%N → bytes (quote_unit c).
Proof.
  intros Hc. unfold quote_unit.
  repeat match goal with |- context [(c =? ?n)%N] => destruct (c =? n)%N; [by apply bytes_lit|] end.
  destruct (c <? 32)%N.
  - assert (∀ n, (n < 16)%N → (hex_char n < 256)%N) as Hh by (intros n Hn; unfold hex_char; destruct (N.ltb_spec n 10); lia).
    unfold uescape, hex4. repeat constructor; apply Hh; euclid.
  - repeat constructor; done.
Qed.

Lemma byte_no_surrogate c : (c < 256)%N → is_high c = false ∧ is_low c = false.
Proof. intros H. unfold is_low, is_high. split; apply andb_false_iff; left; apply N.leb_gt; lia. Qed.

Lemma bytes_quote_body s : bytes s → bytes (quote_body s).
Proof.
  induction 1 as [|c s Hc Hs IH]; [constructor|]. cbn [quote_body]. destruct (byte_no_surrogate c Hc) as [-> ->].
  apply bytes_app. split; [by apply bytes_quote_unit|done].
Qed.

Lemma bytes_quote s : bytes s → bytes (json_quote s).
Proof. intros H. constructor; [lia|]. apply bytes_app. split; [by apply bytes_quote_body|by apply bytes_lit]. Qed.

(** The names a payload starts with. *)
Definition plain_field (f : str) : Prop := f = js "id" ∨ f = js "platform".

Lemma payload_text f a k :
  json_stringify (config_payload f a k) =
  js "{" ++ json_quote f ++ js ":" ++ json_quote (js "new-api") ++ js "," ++ json_quote (js "baseUrl") ++ js ":" ++ json_quote a
  ++ js "," ++ json_quote (js "apiKey") ++ js ":" ++ json_quote k ++ js "}".
Proof. unfold config_payload. cbn [json_stringify map join fst snd]. by rewrite <- ?app_assoc. Qed.

Lemma payload_bytes f a k : plain_field f → bytes a → bytes k → bytes (json_stringify (config_payload f a k)).
Proof.
  intros Hf Ha Hk. rewrite payload_text. rewrite !bytes_app. split_and!; try (apply bytes_lit; reflexivity); try by apply bytes_quote.
  apply bytes_quote. by destruct Hf as [->| ->]; apply bytes_lit.
Qed.

Lemma payload_ok f a k : plain_field f → units a → units k → json_ok (config_payload f a k).
Proof.
  intros Hf Ha Hk. assert (units f) as Huf by (destruct Hf as [->| ->]; by apply bytes_units, bytes_lit).
  assert (∀ s, forallb is_byte s = true → units s) as Hl by (intros; by apply bytes_units, bytes_lit).
  apply ok_obj.
  - repeat constructor; try done; by apply Hl.
  - repeat constructor; try done; by apply Hl.
  - apply canonical_plain; [|by destruct Hf as [->| ->]; repeat constructor].
    apply (bool_decide_eq_true_1 (NoDup _)). by destruct Hf as [->| ->]; vm_compute.
Qed.

(** What the receiving client does with the text in its link. *)
Definition read_config (enc : str) : option json := b ← unbase64 (percent_decode enc); json_parse b.

Lemma encode_payload_read env f a k :
  has_btoa env = true → plain_field f → bytes a → bytes k →
  ∃ enc, encode_payload env (config_payload f a k) = Ret enc ∧ read_config enc = Some (config_payload f a k).
Proof.
  intros He Hf Ha Hk. pose proof (payload_bytes f a k Hf Ha Hk) as Hb. unfold encode_payload, toBase64, btoa.
  rewrite He, (proj1 (bytes_is_byte _) Hb). cbn [mbind outcome_bind]. destruct (base64_units _ Hb) as [Hbb Hu].
  destruct (encodeURIComponent_bytes _ Hbb) as [enc E]. exists enc. split; [done|].
  unfold read_config. rewrite (percent_decode_encode _ _ Hu E), unbase64_base64 by done. cbn [mbind option_bind].
  by apply json_parse_stringify, payload_ok; [|apply bytes_units..].
Qed.

(** The configuration token of a template and the name of the first field of its payload. *)
Definition config_token (template : str) : option (str * str) :=
  if includes (js "{cherryConfig}") template then Some (js "{cherryConfig}", js "id")
  else if includes (js "{aionuiConfig}") template then Some (js "{aionuiConfig}", js "platform")
  else if includes (js "{deepchatConfig}") template then Some (js "{deepchatConfig}", js "id")
  else None.

Lemma resolve_config env template apiKey addr token field :
  config_token template = Some (token, field) →
  plain_field field ∧
  resolveChatUrl env template apiKey addr =
  (enc ← encode_payload env (config_payload field addr (normalizeApiKey (or_blank apiKey))); Ret (join enc (split token template))).
Proof.
  unfold config_token, resolveChatUrl, replaceToken, plain_field. intros H.
  destruct (includes (js "{cherryConfig}") template); [injection H as <- <-; split; [by left|done]|].
  destruct (includes (js "{aionuiConfig}") template); [injection H as <- <-; split; [by right|done]|].
  destruct (includes (js "{deepchatConfig}") template); [injection H as <- <-; split; [by left|done]|done].
Qed.

Lemma bytes_trim s : bytes s → bytes (trim s).
Proof.
  assert (∀ s, bytes s → bytes (trim_start s)) as H.
  { induction 1 as [|c t Hc Ht IH]; [constructor|]. cbn [trim_start]. destruct (is_space c); [done|by constructor]. }
  intros Hs. unfold trim, trim_end. apply Forall_rev, H, Forall_rev, H, Hs.
Qed.

Lemma normalizeApiKey_bytes k : bytes k → bytes (normalizeApiKey k).
Proof.
  intros H%bytes_trim. unfold normalizeApiKey. destruct (truthy (trim k)); [|constructor].
  destruct (starts_with _ _); [done|]. apply bytes_app. split; [by apply bytes_lit|done].
Qed.

(** C30: A template with a client configuration token becomes the link in which every occurrence of the token is replaced by one text, and
    the client that undoes the percent encoding and the base64 of it and parses the JSON reads exactly the server address and
    the normalised key, for every address and key of Latin-1 characters. *)
Theorem config_link_read_back env template apiKey addr token field :
  has_btoa env = true → config_token template = Some (token, field) → bytes addr → bytes (or_blank apiKey) →
  ∃ enc, resolveChatUrl env template apiKey addr = Ret (join enc (split token template)) ∧
    read_config enc = Some (config_payload field addr (normalizeApiKey (or_blank apiKey))).
Proof.
  intros He Ht Ha Hk. destruct (resolve_config env template apiKey addr token field Ht) as [Hf ->].
  destruct (encode_payload_read env field addr _ He Hf Ha (normalizeApiKey_bytes _ Hk)) as (enc & -> & Hr).
  exists enc. by split.
Qed.

Lemma config_link_read_back_witness :
  ∃ enc, resolveChatUrl {| has_btoa := true; has_buffer := false |} (js "cherrystudio://providers/api-keys?v=1&data={cherryConfig}")
      (Some (js "abc")) (js "https://api.example.com/?a=1") = Ret (js "cherrystudio://providers/api-keys?v=1&data=" ++ enc) ∧
    read_config enc = Some (config_payload (js "id") (js "https://api.example.com/?a=1") (js "sk-abc")).
Proof.
  assert (config_token (js "cherrystudio://providers/api-keys?v=1&data={cherryConfig}") = Some (js "{cherryConfig}", js "id")) as Ht by reflexivity.
  assert (bytes (js "https://api.example.com/?a=1")) as Ha by (apply bytes_lit; reflexivity).
  assert (bytes (or_blank (Some (js "abc")))) as Hk by (apply bytes_lit; reflexivity).
  destruct (config_link_read_back {| has_btoa := true; has_buffer := false |} _ _ _ _ _ eq_refl Ht Ha Hk) as (enc & E & R).
  exists enc. split; [|exact R]. rewrite E. f_equal.
  assert (split (js "{cherryConfig}") (js "cherrystudio://providers/api-keys?v=1&data={cherryConfig}")
          = [js "cherrystudio://providers/api-keys?v=1&data="; []]) as -> by (vm_compute; reflexivity).
  cbn [join]. by rewrite app_nil_r.
Defined.

(** A character outside Latin-1 that is no surrogate stays as it is in the JSON text. *)
Lemma wide_in_quote s c : c ∈ s → (256 ≤ c)%N → is_high c = false → is_low c = false → c ∈ quote_body s.
Proof.
  induction s as [s IH] using (induction_ltof1 _ (@length N)). unfold ltof in IH. intros Hin Hc Hh Hl.
  destruct s as [|d s]; [by apply elem_of_nil in Hin|]. cbn [quote_body]. apply elem_of_cons in Hin as [<-|Hin].
  - rewrite Hh, Hl. apply elem_of_app. left. unfold quote_unit.
    repeat match goal with |- context [(c =? ?n)%N] => rewrite (proj2 (N.eqb_neq c n)) by lia end.
    rewrite (proj2 (N.ltb_ge _ _)) by lia. by left.
  - destruct (is_high d).
    + destruct s as [|e s]; [by apply elem_of_nil in Hin|]. destruct (is_low e) eqn:Ee.
      * apply elem_of_cons in Hin as [->|Hin]; [congruence|]. do 2 right. apply IH; simpl; [lia|done..].
      * apply elem_of_app. right. apply IH; simpl; [lia|done..].
    + destruct (is_low d); apply elem_of_app; right; apply IH; simpl; (lia || done).
Qed.

(** In the browser a server address with such a character makes every configuration link throw. *)
Theorem wide_address_throws env template apiKey addr token field c :
  has_btoa env = true → config_token template = Some (token, field) →
  c ∈ addr → (256 ≤ c)%N → is_high c = false → is_low c = false →
  resolveChatUrl env template apiKey addr = Throw.
Proof.
  intros He Ht Hin Hc Hh Hl. destruct (resolve_config env template apiKey addr token field Ht) as [_ ->].
  unfold encode_payload, toBase64, btoa. rewrite He.
  assert (forallb is_byte (json_stringify (config_payload field addr (normalizeApiKey (or_blank apiKey)))) = false) as ->; [|done].
  apply not_true_iff_false. rewrite <- bytes_is_byte, payload_text, !bytes_app. intros H.
  assert (bytes (json_quote addr)) as Hq by tauto. clear H. apply Forall_inv_tail in Hq. rewrite Forall_app in Hq. destruct Hq as [Hq _].
  pose proof (proj1 (Forall_forall _ _) Hq c (wide_in_quote addr c Hin Hc Hh Hl)) as H. simpl in H. lia.
Qed.

(** A key is normalised once. *)
Lemma normalizeApiKey_idemp k : normalizeApiKey (normalizeApiKey k) = normalizeApiKey k.
Proof.
  unfold normalizeApiKey at 2 3. destruct (truthy (trim k)) eqn:Ek; [|done].
  destruct (starts_with (js "sk-") (trim k)) eqn:Es; unfold normalizeApiKey.
  - by rewrite trim_idemp, Ek, Es.
  - rewrite trim_id.
    + change (truthy (js "sk-" ++ trim k)) with true. by rewrite starts_with_app.
    + apply (trimmed_app (js "sk-")); [done|by destruct (trim k)|done|apply trim_trimmed].
Qed.

(** The key menu's own key already starts with the prefix: the links carry it as it is, the browser extension gets the prefix twice. *)
Theorem fluent_prefix_doubled container origin addr k :
  trimmed k → k ≠ [] →
  normalizeApiKey (js "sk-" ++ k) = js "sk-" ++ k ∧
  sendToFluent true origin (js "sk-" ++ k) addr =
    Some (config_payload (js "id") (if truthy addr then addr else origin) (js "sk-sk-" ++ k)) ∧
  sendToFluent container origin (js "sk-" ++ k) addr ≠
    Some (config_payload (js "id") (if truthy addr then addr else origin) (js "sk-" ++ k)).
Proof.
  intros Ht Hk. split; [|split].
  - unfold normalizeApiKey. rewrite trim_id; [by rewrite starts_with_app|].
    apply (trimmed_app (js "sk-")); [done| |done|apply Ht]. by destruct k.
  - done.
  - unfold sendToFluent. destruct container; [|done]. unfold config_payload. intros [= H]. apply (f_equal length) in H.
    simpl in H. lia.
Qed.

(** ** The page of a preset *)

Section route.
Context (toLowerCase : str → str).
Abbreviation entry_preset := (preset_of_entry toLowerCase).
Abbreviation all_presets := (presets_of toLowerCase).

Lemma entry_id i e p : entry_preset i e = Some p → id p = string_of_num (num_of_Z (Z.of_nat i)).
Proof.
  destruct e as [| | | | |[|[n [| | |v| |]] [|? ?]]]; try done. cbn [preset_of_entry].
  destruct (truthy (trim v)); [|done]. by intros [= <-].
Qed.

Lemma id_inj i j : (Z.of_nat i < 2 ^ 53)%Z → (Z.of_nat j < 2 ^ 53)%Z →
  string_of_num (num_of_Z (Z.of_nat i)) = string_of_num (num_of_Z (Z.of_nat j)) → i = j.
Proof.
  intros Hi Hj H%(f_equal (λ s, integer_of (number_of_string s))). cbv beta in H.
  rewrite !number_of_string_int, !integer_of_int in H by (unfold safe; lia). injection H. lia.
Qed.

(** The presets around an entry that is kept. *)
Lemma presets_split entries i e p : entries !! i = Some e → entry_preset i e = Some p →
  all_presets entries =
  all_presets (take i entries) ++ p :: omap (λ o, o) (imap (λ j, entry_preset (S i + j)) (drop (S i) entries)).
Proof.
  intros He Hp. unfold presets_of. rewrite <- (take_drop_middle entries i e He) at 1.
  rewrite imap_app, omap_app. f_equal. rewrite imap_cons. cbn [omap list_omap].
  rewrite length_take_le by (apply lookup_lt_Some in He; lia). rewrite Nat.add_0_r, Hp. f_equal. f_equal. apply imap_ext. intros j x _. cbn. f_equal. lia.
Qed.

Lemma kept_le entries : length (all_presets entries) ≤ length entries.
Proof.
  unfold presets_of. rewrite <- (length_imap entry_preset entries). generalize (imap entry_preset entries). intros l.
  induction l as [|[x|] l IH]; cbn; lia.
Qed.

(** All presets are there exactly when no entry is dropped. *)
Lemma kept_all entries : length (all_presets entries) = length entries ↔
  ∀ j e, entries !! j = Some e → entry_preset j e ≠ None.
Proof.
  unfold presets_of. rewrite <- (length_imap entry_preset entries).
  transitivity (∀ o, o ∈ imap entry_preset entries → o ≠ None).
  - generalize (imap entry_preset entries). intros l. induction l as [|[x|] l IH]; simpl.
    + split; [by intros _ o ?%elem_of_nil|done].
    + rewrite Nat.succ_inj_wd, IH. split; [intros H o [->|Ho]%elem_of_cons; [done|by apply H]|intros H o Ho; apply H; by right].
    + split; [|intros H; destruct (H None); [by left|done]]. intros H.
      assert (length (omap (λ o : option ChatPreset, o) l) ≤ length l) by (clear; induction l as [|[x|] l IH]; cbn; lia).
      unfold omap in *. lia.
  - split.
    + intros H j e He. apply H. rewrite list_elem_of_lookup. exists j. by rewrite list_lookup_imap, He.
    + intros H o [j Ho]%list_elem_of_lookup. rewrite list_lookup_imap in Ho.
      destruct (entries !! j) as [e|] eqn:E; [|done]. injection Ho as <-. by apply (H j).
Qed.

Lemma later_ids entries i p : p ∈ omap (λ o, o) (imap (λ j, entry_preset (S i + j)) (drop (S i) entries)) →
  ∃ j, i < j < length entries ∧ id p = string_of_num (num_of_Z (Z.of_nat j)).
Proof.
  intros (o & Ho & Hp)%list_elem_of_omap. cbn in Hp. subst o. apply list_elem_of_lookup in Ho as [j Ho].
  rewrite list_lookup_imap in Ho. destruct (drop (S i) entries !! j) as [e|] eqn:E; [|done]. injection Ho as Ho.
  exists (S i + j). split; [|by apply entry_id in Ho]. rewrite lookup_drop in E. apply lookup_lt_Some in E. lia.
Qed.

Lemma route_by_index entries i : (Z.of_nat i < 2 ^ 53)%Z →
  route_preset (string_of_num (num_of_Z (Z.of_nat i))) (all_presets entries) = all_presets entries !! i.
Proof.
  intros Hi. unfold route_preset, preset_at, is_integer.
  rewrite number_of_string_int, integer_of_int by (unfold safe; lia).
  rewrite (proj2 (Z.ltb_ge _ _)) by lia. by rewrite Nat2Z.id.
Qed.

(** The link of a preset leads to a page that looks the preset up by its position among the presets that were kept, while the link carries its
    position in the configuration: the page shows the preset exactly when every earlier entry was kept, and otherwise the preset
    as many places further on (or none). *)
Theorem preset_link_opens entries i e p : (Z.of_nat (length entries) < 2 ^ 53)%Z →
  entries !! i = Some e → entry_preset i e = Some p →
  all_presets entries !! length (all_presets (take i entries)) = Some p ∧
  route_preset (id p) (all_presets entries) = all_presets entries !! i ∧
  (route_preset (id p) (all_presets entries) = Some p ↔ ∀ j e', j < i → entries !! j = Some e' → entry_preset j e' ≠ None).
Proof.
  intros Hlen He Hp. pose proof (lookup_lt_Some _ _ _ He) as Hi. pose proof (presets_split _ _ _ _ He Hp) as Hs.
  assert (route_preset (id p) (all_presets entries) = all_presets entries !! i) as Hr.
  { rewrite (entry_id i e p Hp). apply route_by_index. lia. }
  split; [by rewrite Hs, list_lookup_middle|]. split; [done|]. rewrite Hr.
  assert (length (take i entries) = i) as Hti by (rewrite length_take_le; lia).
  assert ((∀ j e', j < i → entries !! j = Some e' → entry_preset j e' ≠ None) ↔ length (all_presets (take i entries)) = i) as ->.
  { rewrite <- Hti at 2. rewrite kept_all. split.
    - intros H j e' Hj. apply lookup_take_Some in Hj as [? ?]. by apply H.
    - intros H j e' Hj He'. apply H. by rewrite lookup_take_lt. }
  pose proof (kept_le (take i entries)) as Hk. rewrite Hti in Hk. split.
  - intros Hl. destruct (decide (length (all_presets (take i entries)) = i)) as [?|Hne]; [done|]. exfalso.
    rewrite Hs, lookup_app_r, lookup_cons_ne_0 in Hl by lia. apply list_elem_of_lookup_2, later_ids in Hl as (j & Hj & Hid).
    rewrite (entry_id i e p Hp) in Hid. apply id_inj in Hid; lia.
  - intros Hl. rewrite Hs. by apply list_lookup_middle.
Qed.
End route.

(** Three entries, the first of which is empty: the link of the second one opens the third, the link of the third one opens nothing. *)
Definition spoiled_config : list json :=
  [JObj [(js "Draft", JStr [])]; JObj [(js "A", JStr (js "https://a.example/"))]; JObj [(js "B", JStr (js "https://b.example/"))]].

Lemma preset_link_opens_witness :
  route_preset (js "1") (presets_of (λ s, s) spoiled_config) = presets_of (λ s, s) spoiled_config !! 1 ∧
  name <$> route_preset (js "1") (presets_of (λ s, s) spoiled_config) = Some (js "B") ∧
  route_preset (js "2") (presets_of (λ s, s) spoiled_config) = None.
Proof.
  assert (Z.of_nat (length spoiled_config) < 2 ^ 53)%Z as Hlen by reflexivity.
  assert (spoiled_config !! 1 = Some (JObj [(js "A", JStr (js "https://a.example/"))])) as He by reflexivity.
  assert (preset_of_entry (λ s, s) 1 (JObj [(js "A", JStr (js "https://a.example/"))])
          = Some {| id := js "1"; name := js "A"; url := js "https://a.example/"; type := web |}) as Hp by (vm_compute; reflexivity).
  pose proof (preset_link_opens (λ s, s) spoiled_config 1 _ _ Hlen He Hp) as (_ & Hr & _).
  split; [exact Hr|]. split; vm_compute; reflexivity.
Defined.

(** ** The sidebar *)

(** At most one call waits for a key, and the loading mark is its preset. *)
Definition sidebar_ok (s : SidebarState) : Prop :=
  sb_shortcuts s = shortcuts_with (id <$> head (sb_waiting s)) ∧ length (sb_waiting s) ≤ 1 ∧ Forall (λ p, id p ≠ []) (sb_waiting s).

Definition event_ok (e : SidebarEvent) : Prop := match e with Click p => id p ≠ [] | KeyAnswer _ _ => True end.

(** A click changes nothing or starts to wait while nothing is loading. *)
Lemma click_cases env addr s p :
  (∃ fx, click_item env addr s p = (s, fx, false)) ∨
  (click_item env addr s p = (shortcuts_with (Some (id p)), [], true) ∧ truthy (or_blank (loadingPresetIdRef s)) = false).
Proof.
  unfold click_item, handleOpenExternal. destruct (bool_decide _); [left; eexists; reflexivity|].
  destruct (bool_decide _); [left; eexists; reflexivity|]. destruct (chatLinkRequiresApiKey (url p)); [|left; eexists; reflexivity].
  cbn [andb]. destruct (truthy _); [left; eexists; reflexivity|right; split; reflexivity].
Qed.

Lemma sidebar_step_ok env addr s e : sidebar_ok s → event_ok e → sidebar_ok (sidebar_step env addr s e).
Proof.
  intros (Hs & Hl & Hi) He. destruct e as [p|i answer]; cbn [sidebar_step event_ok] in *.
  - destruct (click_cases env addr (sb_shortcuts s) p) as [[fx ->]|[-> Hr]]; [by split_and!|].
    rewrite Hs in Hr. unfold sidebar_ok. cbn.
    destruct (sb_waiting s) as [|q l]; [cbn; split_and!; [done|lia|by repeat constructor]|].
    apply Forall_cons in Hi as [Hq _]. cbn in Hr. by destruct (id q).
  - destruct (sb_waiting s !! i) as [p|] eqn:E; [|by split_and!]. cbn [resume_open].
    destruct (sb_waiting s) as [|q [|q' l]]; [done| |simpl in Hl; lia]. destruct i as [|i]; [|done].
    unfold sidebar_ok. cbn. split_and!; [done|lia|constructor].
Qed.

(** However the menu is clicked and whenever the server answers, at most one key is being fetched and the preset shown as loading is the one
    it is fetched for. *)
Theorem one_key_at_a_time env addr es :
  Forall event_ok es →
  length (sb_waiting (sidebar_run env addr es)) ≤ 1 ∧
  loadingPresetId (sb_shortcuts (sidebar_run env addr es)) = id <$> head (sb_waiting (sidebar_run env addr es)) ∧
  loadingPresetIdRef (sb_shortcuts (sidebar_run env addr es)) = loadingPresetId (sb_shortcuts (sidebar_run env addr es)).
Proof.
  intros Hes. assert (sidebar_ok (sidebar_run env addr es)) as (Hs & Hl & _).
  { unfold sidebar_run. assert (sidebar_ok sidebar_start) as H by (split_and!; [done|simpl; lia|constructor]).
    revert H. generalize sidebar_start. induction Hes as [|e es He Hes IH]; intros s H; [done|]. apply IH. by apply sidebar_step_ok. }
  rewrite Hs. by split_and!.
Qed.
