(* ===== verification/KeyActions.v ===== *)
(** * Resolving, copying and testing API keys

    [features/keys/components/api-keys-provider.tsx] (the texts of keys are fetched when they are needed, one by one or in a
    batch, and kept), [data-table-bulk-actions.tsx] (copying the selected keys), and the choice of a model for a
    connection test in [data-table-row-actions.tsx] and [features/keys/api.ts].

    The handlers run against the values of the rendering that created them, so a call says which rendering it comes from; requests
    are answered in any order. *)

From stdpp Require Import gmap.
From S2P Require Import Prelude JsString Regex JsNumber Json.

(** ** The provider *)

Module KeyResolver.

(** What a request for one key, or for several, comes to. *)
Inductive KeyAnswer := KeyReply (success : bool) (message : str) (key : option str) | KeyFailed.
Inductive BatchAnswer := BatchReply (success : bool) (message : str) (keys : option (list (Z * str))) | BatchFailed.

Record Batch := { b_caller : nat; b_ids : list Z; b_uncached : list Z; b_seen : gmap Z str }.

(** The state of the provider: [renders] are the values of [resolvedKeys] so far, the current one last;
    [pendingRequests] holds for each id the callers of the shared promise.  What callers got and what was shown is logged. *)
Record Resolver := {
  renders : list (gmap Z str);
  resolvedKeys : gmap Z str;
  loadingKeys : gset Z;
  pendingRequests : gmap Z (list nat);
  batches : list Batch;
  requests : list Z;
  delivered : list (nat * Z * option str);
  delivered_maps : list (nat * gmap Z str);
  toasts : list str }.

Definition initial : Resolver := {|
  renders := [∅]; resolvedKeys := ∅; loadingKeys := ∅; pendingRequests := ∅; batches := []; requests := [];
  delivered := []; delivered_maps := []; toasts := [] |}.

Definition UNEXPECTED : str := js "An unexpected error occurred".

Definition or_text (a b : str) : str := if truthy a then a else b.

(** [resolvedKeys[id]] as a condition *)
Definition cached (seen : gmap Z str) (id : Z) : bool := match seen !! id with Some k => truthy k | None => false end.

Definition set_resolved (m : gmap Z str) (s : Resolver) : Resolver := {|
  renders := renders s ++ [m]; resolvedKeys := m; loadingKeys := loadingKeys s; pendingRequests := pendingRequests s;
  batches := batches s; requests := requests s; delivered := delivered s; delivered_maps := delivered_maps s; toasts := toasts s |}.

Definition show (message : str) (s : Resolver) : Resolver := {|
  renders := renders s; resolvedKeys := resolvedKeys s; loadingKeys := loadingKeys s; pendingRequests := pendingRequests s;
  batches := batches s; requests := requests s; delivered := delivered s; delivered_maps := delivered_maps s;
  toasts := toasts s ++ [message] |}.

Definition deliver (l : list (nat * Z * option str)) (s : Resolver) : Resolver := {|
  renders := renders s; resolvedKeys := resolvedKeys s; loadingKeys := loadingKeys s; pendingRequests := pendingRequests s;
  batches := batches s; requests := requests s; delivered := delivered s ++ l; delivered_maps := delivered_maps s; toasts := toasts s |}.

Definition deliver_map (caller : nat) (m : gmap Z str) (s : Resolver) : Resolver := {|
  renders := renders s; resolvedKeys := resolvedKeys s; loadingKeys := loadingKeys s; pendingRequests := pendingRequests s;
  batches := batches s; requests := requests s; delivered := delivered s; delivered_maps := delivered_maps s ++ [(caller, m)]; toasts := toasts s |}.

Definition with_requests (loading : gset Z) (pending : gmap Z (list nat)) (bs : list Batch) (rs : list Z) (s : Resolver) : Resolver := {|
  renders := renders s; resolvedKeys := resolvedKeys s; loadingKeys := loading; pendingRequests := pending;
  batches := bs; requests := rs; delivered := delivered s; delivered_maps := delivered_maps s; toasts := toasts s |}.

(** [resolveRealKey(id)] up to its first [await] *)
Definition resolveRealKey (seen : gmap Z str) (caller : nat) (id : Z) (s : Resolver) : Resolver :=
  if cached seen id then deliver [(caller, id, seen !! id)] s
  else match pendingRequests s !! id with
       | Some callers => with_requests (loadingKeys s) (<[id := callers ++ [caller]]> (pendingRequests s)) (batches s) (requests s) s
       | None => with_requests ({[id]} ∪ loadingKeys s) (<[id := [caller]]> (pendingRequests s)) (batches s) (requests s ++ [id]) s
       end.

(** The rest of the request: the answer, and the [finally] block.  [handleServerError] reports a failure of the network. *)
Definition key_answered (id : Z) (answer : KeyAnswer) (s : Resolver) : Resolver :=
  match pendingRequests s !! id with
  | None => s
  | Some callers =>
      let finish r s' :=
        deliver (map (λ c, (c, id, r)) callers)
          (with_requests (loadingKeys s' ∖ {[id]}) (delete id (pendingRequests s')) (batches s') (requests s') s') in
      match answer with
      | KeyReply success message key =>
          let k := default [] key in
          if success && truthy k
          then let fullKey := js "sk-" ++ k in finish (Some fullKey) (set_resolved (<[id := fullKey]> (resolvedKeys s)) s)
          else finish None (show (or_text message UNEXPECTED) s)
      | KeyFailed => finish None s
      end
  end.

(** [result[id] = resolvedKeys[id]] for the ids that have one *)
Definition from_cache (seen : gmap Z str) (ids : list Z) (m : gmap Z str) : gmap Z str :=
  fold_left (λ m id, match seen !! id with Some k => if truthy k then <[id := k]> m else m | None => m end) ids m.

Definition resolveRealKeysBatch (seen : gmap Z str) (caller : nat) (ids : list Z) (s : Resolver) : Resolver :=
  let uncachedIds := List.filter (λ id, negb (cached seen id)) ids in
  match uncachedIds with
  | [] => deliver_map caller (from_cache seen ids ∅) s
  | _ => with_requests (list_to_set uncachedIds ∪ loadingKeys s) (pendingRequests s)
           (batches s ++ [{| b_caller := caller; b_ids := ids; b_uncached := uncachedIds; b_seen := seen |}]) (requests s) s
  end.

Definition new_keys (keys : list (Z * str)) : gmap Z str :=
  fold_left (λ m kv, <[fst kv := js "sk-" ++ snd kv]> m) keys ∅.

Definition batch_answered (i : nat) (answer : BatchAnswer) (s : Resolver) : Resolver :=
  match batches s !! i with
  | None => s
  | Some b =>
      let finish m s' :=
        deliver_map (b_caller b) m
          (with_requests (loadingKeys s' ∖ list_to_set (b_uncached b)) (pendingRequests s') (delete i (batches s')) (requests s') s') in
      match answer with
      | BatchReply true _ (Some keys) =>
          let newKeys := new_keys keys in
          finish (from_cache (b_seen b) (b_ids b) newKeys) (set_resolved (newKeys ∪ resolvedKeys s) s)
      | BatchReply _ message _ => finish ∅ (show (or_text message UNEXPECTED) s)
      | BatchFailed => finish ∅ s
      end
  end.

(** A call comes from a rendering, by its number; the current one if there is no such number. *)
Inductive Event :=
  | Resolve (render : nat) (caller : nat) (id : Z)
  | Answer (id : Z) (answer : KeyAnswer)
  | ResolveBatch (render : nat) (caller : nat) (ids : list Z)
  | AnswerBatch (i : nat) (answer : BatchAnswer).

Definition rendered (r : nat) (s : Resolver) : gmap Z str := default (resolvedKeys s) (renders s !! r).

Definition step (s : Resolver) (e : Event) : Resolver :=
  match e with
  | Resolve r caller id => resolveRealKey (rendered r s) caller id s
  | Answer id answer => key_answered id answer s
  | ResolveBatch r caller ids => resolveRealKeysBatch (rendered r s) caller ids s
  | AnswerBatch i answer => batch_answered i answer s
  end.

Definition run (es : list Event) : Resolver := fold_left step es initial.

(** [markKeyCopied]: the mark and the timer that removes it, two seconds later. *)
Record Copied := { copiedKeyId : option Z; copiedTimer : option Z }.
Definition markKeyCopied (now : Z) (id : Z) (c : Copied) : Copied := {| copiedKeyId := Some id; copiedTimer := Some (now + 2000)%Z |}.
Definition copied_tick (now : Z) (c : Copied) : Copied :=
  match copiedTimer c with
  | Some t => if (t <=? now)%Z then {| copiedKeyId := None; copiedTimer := None |} else c
  | None => c
  end.
End KeyResolver.

(** ** Copying the selected keys *)

(** [handleBatchCopy]: the text for the clipboard, nothing when there is no line. *)
Definition copied_lines (rows : list (Z * str)) (keysMap : gmap Z str) : list str :=
  flat_map (λ row, match keysMap !! fst row with
                   | Some realKey => if truthy realKey then [snd row ++ [9%N] ++ realKey] else []
                   | None => []
                   end) rows.

Definition handleBatchCopy (rows : list (Z * str)) (keysMap : gmap Z str) : option str :=
  match rows with
  | [] => None
  | _ => match copied_lines rows keysMap with [] => None | lines => Some (join [10%N] lines) end
  end.

(** ** The model of a connection test *)

Definition any_case (c : N) : regex := RChar (λ d, ((d =? c) || (d =? c - 32))%N).
(** A word in any case; a character that is no letter stands for itself. *)
Definition word_i (s : str) : regex := rseq (map (λ c, if ((97 <=? c) && (c <=? 122))%N then any_case c else RChar (N.eqb c)) s).

(** [/[.*^$()[\]{}|\\]/] *)
Definition PATTERN_CHAR : regex := RChar (λ c, bool_decide (c ∈ js ".*^$()[]{}|\")).

Definition isConcreteModelName (model : str) : bool :=
  let value := trim model in
  truthy value && negb (starts_with (js "regex:") value) && negb (test_re PATTERN_CHAR value).

Definition nonChatPattern : regex :=
  ralt (map (λ s, word_i (js s))
    ["embedding"; "embed"; "rerank"; "image"; "gpt-image"; "sora"; "video"; "audio"; "tts"; "whisper"; "midjourney"; "kling";
     "jimeng"; "seedream"]%string).

Definition priorities : list regex :=
  map (λ s, RSeq RBol (word_i (js s))) ["claude"; "gpt"; "doubao"; "deepseek"; "qwen"; "gemini"; "kimi"; "glm"]%string.

(** The loop over the priorities, then the first model; [''] when there is none. *)
Fixpoint pick_model (patterns : list regex) (chatModels : list str) : str :=
  match patterns with
  | [] => default [] (head chatModels)
  | p :: patterns' =>
      match find (test_re p) chatModels with
      | Some found => if truthy found then found else pick_model patterns' chatModels
      | None => pick_model patterns' chatModels
      end
  end.

Definition selectApiKeyChatTestModel (models : list str) : str :=
  pick_model priorities (List.filter (λ m, isConcreteModelName m && negb (test_re nonChatPattern m)) models).

Definition selectChatTestModel (models : list str) : str :=
  pick_model priorities (List.filter (λ m, negb (test_re nonChatPattern m)) models).

(** [getTestModel] *)
Definition getTestModel (model_limits_enabled : bool) (model_limits : str) : str :=
  if model_limits_enabled && truthy model_limits
  then selectApiKeyChatTestModel (List.filter truthy (map trim (split (js ",") model_limits)))
  else [].

(** [serverAddress.replace(/\/+$/, '')] *)
Fixpoint drop_slashes (s : str) : str := match s with c :: s' => if (c =? 47)%N then drop_slashes s' else s | [] => [] end.
Definition normalizeServerAddress (s : str) : str := rev (drop_slashes (rev s)).

(** An HTTP answer as the test reads it: [ok], the status and its text, the parsed body or nothing. *)
Record Response := { ok : bool; resp_status : Z; statusText : str; body : option json }.

Definition error_text (r : Response) : str :=
  match truthy_text (opt_prop (js "message") (opt_prop (js "error") (body r))) with
  | Some s => s
  | None => match truthy_text (opt_prop (js "message") (body r)) with
            | Some s => s
            | None => trim (js "HTTP " ++ Z_dec (resp_status r) ++ [32%N] ++ statusText r)
            end
  end.

(** The ids of [data.data], trimmed, without the empty ones. *)
Definition listed_models (r : Response) : list str :=
  match opt_prop (js "data") (body r) with
  | Some (JArr l) => List.filter truthy (map (λ item, match opt_prop (js "id") (Some item) with Some (JStr s) => trim s | _ => [] end) l)
  | _ => []
  end.

(** The model, or the message of the error that is thrown; [models] is the answer of the server's list. *)
Definition resolveApiKeyTestModel (model : str) (models : Response) : str + str :=
  let explicitModel := trim model in
  if truthy explicitModel && isConcreteModelName explicitModel then inr explicitModel
  else if negb (ok models) then inl (error_text models)
  else let chatModel := selectChatTestModel (listed_models models) in
       if truthy chatModel then inr chatModel else inl (js "No chat model is available for this API key").

Record TestResult := { success : bool; message : option str; timed : bool }.

(** [testApiKeyConnection] when the network does not fail; [reply] answers the request for a model. *)
Definition testApiKeyConnection (model : str) (models : Response) (reply : str → Response) : TestResult :=
  match resolveApiKeyTestModel model models with
  | inl e => {| success := false; message := Some e; timed := false |}
  | inr m => let r := reply m in
             if ok r then {| success := true; message := None; timed := true |}
             else {| success := false; message := Some (error_text r); timed := true |}
  end.

(** * Properties of the key provider

    Every caller is answered once, whatever the order of requests and answers; the keys that are delivered, kept and copied are the server's;
    a copy of a selection has one line for every selected key. *)

Import KeyResolver.

(** ** No caller is forgotten *)

Definition callers_of (id : Z) (cs : list nat) : list (nat * Z) := map (λ c, (c, id)) cs.

(** The callers whose promise is not settled. *)
Definition waiting (s : Resolver) : list (nat * Z) :=
  concat (map (λ kv, callers_of (fst kv) (snd kv)) (map_to_list (pendingRequests s))).

Definition answered (s : Resolver) : list (nat * Z) := map fst (delivered s).

Definition call_of (e : Event) : list (nat * Z) := match e with Resolve _ c id => [(c, id)] | _ => [] end.

Lemma concat_callers_perm l1 l2 : l1 ≡ₚ l2 →
  concat (map (λ kv : Z * list nat, callers_of (fst kv) (snd kv)) l1) ≡ₚ concat (map (λ kv, callers_of (fst kv) (snd kv)) l2).
Proof.
  induction 1 as [|x l1 l2 _ IH|x y l|l1 l2 l3 _ IH1 _ IH2]; cbn; [done|by rewrite IH| |by etrans].
  rewrite !app_assoc. f_equiv. apply Permutation_app_comm.
Qed.

(** Replacing and removing the callers of one id. *)
Lemma pending_insert (m : gmap Z (list nat)) id cs : m !! id = None →
  concat (map (λ kv, callers_of (fst kv) (snd kv)) (map_to_list (<[id := cs]> m)))
  ≡ₚ callers_of id cs ++ concat (map (λ kv, callers_of (fst kv) (snd kv)) (map_to_list m)).
Proof. intros H. by rewrite (concat_callers_perm _ _ (map_to_list_insert m id cs H)). Qed.

Lemma pending_delete (m : gmap Z (list nat)) id cs : m !! id = Some cs →
  concat (map (λ kv, callers_of (fst kv) (snd kv)) (map_to_list m))
  ≡ₚ callers_of id cs ++ concat (map (λ kv, callers_of (fst kv) (snd kv)) (map_to_list (delete id m))).
Proof. intros H. by rewrite <- (concat_callers_perm _ _ (map_to_list_delete m id cs H)). Qed.

Lemma pending_replace (m : gmap Z (list nat)) id cs c : m !! id = Some cs →
  concat (map (λ kv, callers_of (fst kv) (snd kv)) (map_to_list (<[id := cs ++ [c]]> m)))
  ≡ₚ concat (map (λ kv, callers_of (fst kv) (snd kv)) (map_to_list m)) ++ [(c, id)].
Proof.
  intros H. rewrite (pending_delete m id cs H), <- insert_delete_eq, pending_insert by apply lookup_delete_eq.
  unfold callers_of. rewrite map_app, <- !app_assoc. f_equiv. apply Permutation_app_comm.
Qed.

Lemma step_accounts s e : answered (step s e) ++ waiting (step s e) ≡ₚ (answered s ++ waiting s) ++ call_of e.
Proof.
  destruct e as [r c id|id a|r c ids|i a]; cbn [step call_of]; rewrite ?app_nil_r.
  - unfold resolveRealKey. destruct (cached _ _).
    + unfold answered, waiting. cbn. rewrite map_app. cbn. rewrite <- !app_assoc. f_equiv. apply Permutation_app_comm.
    + destruct (pendingRequests s !! id) as [cs|] eqn:E; unfold answered, waiting; cbn.
      * rewrite pending_replace by done. by rewrite app_assoc.
      * rewrite pending_insert by done. cbn. rewrite <- app_assoc. f_equiv. apply Permutation_app_comm with (l := [(c, id)]).
  - unfold key_answered. destruct (pendingRequests s !! id) as [cs|] eqn:E; [|done].
    assert (∀ r, map fst (delivered s ++ map (λ c, (c, id, r)) cs)
        ++ concat (map (λ kv, callers_of (fst kv) (snd kv)) (map_to_list (delete id (pendingRequests s))))
      ≡ₚ answered s ++ waiting s) as Hd.
    { intros r. unfold waiting. rewrite (pending_delete _ id cs E), map_app, map_map. by rewrite app_assoc. }
    destruct a as [su me k|]; [destruct (su && truthy _)|]; apply Hd.
  - unfold resolveRealKeysBatch. by destruct (List.filter _ _).
  - unfold batch_answered. destruct (batches s !! i) as [b|]; [|done]. by destruct a as [[] me [ks|]|].
Qed.

(** C29: However calls, answers and batches interleave and from whichever rendering the calls come, each caller of a key is either waiting or was answered,
    exactly once for each of its calls; when no request is pending, everyone was answered. *)
Theorem callers_answered_once es :
  answered (run es) ++ waiting (run es) ≡ₚ flat_map call_of es ∧
  (pendingRequests (run es) = ∅ → answered (run es) ≡ₚ flat_map call_of es).
Proof.
  assert (answered (run es) ++ waiting (run es) ≡ₚ flat_map call_of es) as H.
  { unfold run. induction es as [|e es IH] using rev_ind; [done|].
    rewrite fold_left_app, flat_map_app. cbn [fold_left flat_map]. rewrite step_accounts, IH. by rewrite app_nil_r. }
  split; [done|]. intros Hp. rewrite <- H. unfold waiting. rewrite Hp, map_to_list_empty. cbn. by rewrite app_nil_r.
Qed.

(** Two calls for one key share a request; a third one after the answer is served from the cache. *)
Definition shared_calls : list Event :=
  [Resolve 0 1 7; Resolve 0 2 7; Answer 7 (KeyReply true [] (Some (js "abc"))); Resolve 1 3 7]%Z.

Lemma callers_answered_once_witness :
  answered (run shared_calls) ≡ₚ [(1, 7%Z); (2, 7%Z); (3, 7%Z)] ∧ requests (run shared_calls) = [7%Z].
Proof.
  assert (pendingRequests (run shared_calls) = ∅) as Hp by (vm_compute; reflexivity).
  split; [exact (proj2 (callers_answered_once shared_calls) Hp)|vm_compute; reflexivity].
Defined.

(** ** The keys are the server's *)

Section honest_server.
Context (server : Z → str).

Definition full_key (id : Z) : str := js "sk-" ++ server id.

(** A table of keys is right when it has no wrong key. *)
Definition right (m : gmap Z str) : Prop := map_Forall (λ id k, k = full_key id) m.

(** What a server may answer: a key it gives is the key of that id. *)
Definition honest (e : Event) : Prop :=
  match e with
  | Answer id (KeyReply true _ (Some k)) => k = server id
  | AnswerBatch _ (BatchReply true _ (Some keys)) => Forall (λ kv, snd kv = server (fst kv)) keys
  | _ => True
  end.

Definition delivery_ok (d : nat * Z * option str) : Prop := d.2 = None ∨ d.2 = Some (full_key d.1.2).

(** A batch in flight asks for the ids its rendering did not know. *)
Definition batch_ok (b : Batch) : Prop :=
  right (b_seen b) ∧ b_uncached b = List.filter (λ id, negb (cached (b_seen b) id)) (b_ids b).

Record resolver_ok (s : Resolver) : Prop := {
  ok_renders : Forall right (renders s);
  ok_resolved : right (resolvedKeys s);
  ok_batches : Forall batch_ok (batches s);
  ok_delivered : Forall delivery_ok (delivered s);
  ok_maps : Forall (λ d, right (snd d)) (delivered_maps s);
  ok_loading : ∀ id, id ∈ loadingKeys s → is_Some (pendingRequests s !! id) ∨ ∃ b, b ∈ batches s ∧ id ∈ b_uncached b }.

Lemma right_empty : right ∅.
Proof. apply map_Forall_empty. Qed.

Lemma right_insert m id : right m → right (<[id := full_key id]> m).
Proof. intros H. by apply map_Forall_insert_2. Qed.

Lemma right_union m1 m2 : right m1 → right m2 → right (m1 ∪ m2).
Proof. apply map_Forall_union_2. Qed.

Lemma right_from_cache seen ids m : right seen → right m → right (from_cache seen ids m).
Proof.
  intros Hs. unfold from_cache. revert m. induction ids as [|id ids IH]; intros m Hm; [done|]. apply IH.
  destruct (seen !! id) as [k|] eqn:E; [|done]. destruct (truthy k); [|done].
  rewrite (Hs id k E). by apply right_insert.
Qed.

Lemma right_new_keys keys : Forall (λ kv, snd kv = server (fst kv)) keys → right (new_keys keys).
Proof.
  unfold new_keys. generalize right_empty. generalize (∅ : gmap Z str). intros m Hm H. revert m Hm.
  induction H as [|[id k] keys Hk _ IH]; intros m Hm; [done|]. apply IH. cbn in *. rewrite Hk. by apply right_insert.
Qed.

Lemma rendered_right s r : resolver_ok s → right (rendered r s).
Proof.
  intros H. unfold rendered. destruct (renders s !! r) as [m|] eqn:E; [|apply H].
  by apply (Forall_lookup_1 _ _ _ _ (ok_renders s H) E).
Qed.

Lemma initial_ok : resolver_ok initial.
Proof.
  split; cbn; [repeat constructor; apply right_empty|apply right_empty|constructor|constructor|constructor|]. intros id Hid. set_solver.
Qed.

Lemma resolve_ok s seen c id : resolver_ok s → right seen → resolver_ok (resolveRealKey seen c id s).
Proof.
  intros H Hs. unfold resolveRealKey, cached. destruct (seen !! id) as [k|] eqn:Ek.
  1: destruct (truthy k) eqn:Et.
  { destruct H. split; cbn; try done. apply Forall_app. split; [done|]. apply Forall_singleton. right. cbn. by rewrite (Hs id k Ek). }
  all: destruct H as [? ? ? ? ? Hl]; destruct (pendingRequests s !! id) as [cs|] eqn:E; split; cbn; try done.
  all: intros j Hj; destruct (decide (j = id)) as [->|Hne]; [left; rewrite lookup_insert_eq; by eexists|];
    rewrite lookup_insert_ne by done; apply Hl; set_solver.
Qed.

(** The end of a request for one key. *)
Lemma finish_ok s id cs r : resolver_ok s → r = None ∨ r = Some (full_key id) →
  resolver_ok (deliver (map (λ c : nat, (c, id, r)) cs)
    (with_requests (loadingKeys s ∖ {[id]}) (delete id (pendingRequests s)) (batches s) (requests s) s)).
Proof.
  intros [? ? ? ? ? Hl] Hr. split; cbn; try done.
  - apply Forall_app. split; [done|]. apply Forall_forall. intros d (c & -> & _)%elem_of_lmap. exact Hr.
  - intros j [Hj Hne]%elem_of_difference. apply not_elem_of_singleton in Hne.
    rewrite lookup_delete_ne by done. by apply Hl.
Qed.

Lemma set_resolved_ok s m : resolver_ok s → right m → resolver_ok (set_resolved m s).
Proof. intros [] Hm. split; cbn; try done. apply Forall_app. split; [done|by repeat constructor]. Qed.

Lemma show_ok s t : resolver_ok s → resolver_ok (show t s).
Proof. by intros []. Qed.

Lemma key_answered_ok s id a : resolver_ok s → honest (Answer id a) → resolver_ok (key_answered id a s).
Proof.
  intros H Ha. unfold key_answered. destruct (pendingRequests s !! id) as [cs|]; [|done].
  destruct a as [[] me [k|]|]; cbn [andb default from_option Datatypes.id]; cbn [honest] in Ha.
  - destruct (truthy k) eqn:Ek.
    + rewrite Ha. apply (finish_ok (set_resolved _ s) id cs); [|by right]. apply set_resolved_ok; [done|]. by apply right_insert, H.
    + apply (finish_ok (show _ s) id cs); [by apply show_ok|by left].
  - apply (finish_ok (show _ s) id cs); [by apply show_ok|by left].
  - apply (finish_ok (show _ s) id cs); [by apply show_ok|by left].
  - apply (finish_ok (show _ s) id cs); [by apply show_ok|by left].
  - apply (finish_ok s id cs); [done|by left].
Qed.

Lemma batch_call_ok s seen c ids : resolver_ok s → right seen → resolver_ok (resolveRealKeysBatch seen c ids s).
Proof.
  intros H Hs. unfold resolveRealKeysBatch. destruct (List.filter _ ids) as [|u us] eqn:E; destruct H as [? ? ? ? ? Hl]; split; cbn; try done.
  - apply Forall_app. split; [done|]. repeat constructor. by apply right_from_cache, right_empty.
  - apply Forall_app. split; [done|]. apply Forall_singleton. split; [done|]. by rewrite <- E.
  - intros j Hj. destruct (decide (j ∈ u :: us)) as [Hin|Hn].
    + right. eexists. split; [apply elem_of_app; right; apply list_elem_of_singleton; reflexivity|done].
    + destruct (Hl j) as [?|(b & Hb & ?)]; [set_solver|by left|]. right. exists b. split; [|done]. apply elem_of_app. by left.
Qed.

Lemma batch_finish_ok s i b m : resolver_ok s → batches s !! i = Some b → right m →
  resolver_ok (deliver_map (b_caller b) m
    (with_requests (loadingKeys s ∖ list_to_set (b_uncached b)) (pendingRequests s) (delete i (batches s)) (requests s) s)).
Proof.
  intros [? ? Hb ? ? Hl] E Hm. split; cbn; try done.
  - by apply Forall_delete.
  - apply Forall_app. split; [done|by repeat constructor].
  - intros j [Hj Hn]%elem_of_difference. destruct (Hl j Hj) as [?|(b' & Hb' & Hj')]; [by left|]. right. exists b'. split; [|done].
    apply list_elem_of_lookup in Hb' as [i' Hi']. assert (i ≠ i') as Hne.
    { intros ->. rewrite E in Hi'. injection Hi' as ->. apply Hn. by apply elem_of_list_to_set. }
    apply list_elem_of_lookup. destruct (decide (i' < i)).
    + exists i'. by rewrite list_lookup_delete_lt.
    + exists (i' - 1). rewrite list_lookup_delete_ge by lia. by replace (S (i' - 1)) with i' by lia.
Qed.

Lemma batch_answered_ok s i a : resolver_ok s → honest (AnswerBatch i a) → resolver_ok (batch_answered i a s).
Proof.
  intros H Ha. unfold batch_answered. destruct (batches s !! i) as [b|] eqn:E; [|done].
  pose proof (Forall_lookup_1 _ _ _ _ (ok_batches s H) E) as [Hb _].
  destruct a as [[] me [keys|]|].
  - cbn [honest] in Ha. apply right_new_keys in Ha. apply (batch_finish_ok (set_resolved _ s) i b); [|done|by apply right_from_cache].
    apply set_resolved_ok; [done|]. apply right_union; [done|apply H].
  - apply (batch_finish_ok (show _ s) i b); [by apply show_ok|done|apply right_empty].
  - apply (batch_finish_ok (show _ s) i b); [by apply show_ok|done|apply right_empty].
  - apply (batch_finish_ok (show _ s) i b); [by apply show_ok|done|apply right_empty].
  - apply (batch_finish_ok s i b); [done|done|apply right_empty].
Qed.

Lemma run_ok es : Forall honest es → resolver_ok (run es).
Proof.
  unfold run. generalize initial_ok. generalize initial. intros s Hs H. revert s Hs.
  induction H as [|e es He _ IH]; intros s Hs; [done|]. apply IH. destruct e as [r c id|id a|r c ids|i a]; cbn [step].
  - by apply resolve_ok, rendered_right.
  - by apply key_answered_ok.
  - by apply batch_call_ok, rendered_right.
  - by apply batch_answered_ok.
Qed.

(** If the server only gives an id its own key, every key that a caller, a batch or a later rendering ever sees is the server's key
    of that id with the prefix, and a key is shown as loading only while a request for it is under way. *)
Theorem keys_are_the_servers es :
  Forall honest es →
  (∀ c id k, (c, id, Some k) ∈ delivered (run es) → k = full_key id) ∧
  (∀ c m id k, (c, m) ∈ delivered_maps (run es) → m !! id = Some k → k = full_key id) ∧
  (∀ id k, resolvedKeys (run es) !! id = Some k → k = full_key id) ∧
  (∀ id, id ∈ loadingKeys (run es) → is_Some (pendingRequests (run es) !! id) ∨ ∃ b, b ∈ batches (run es) ∧ id ∈ b_uncached b).
Proof.
  intros [Hr Hm Hb Hd Hdm Hl]%run_ok. split_and!; [..|done].
  - intros c id k Hin. destruct (proj1 (Forall_forall _ _) Hd _ Hin) as [?|E]; [done|]. by injection E.
  - intros c m id k Hin Hk. exact (proj1 (Forall_forall _ _) Hdm _ Hin id k Hk).
  - intros id k Hk. exact (Hm id k Hk).
Qed.

(** ** Copying *)

Lemma from_cache_keeps seen ids m id : right seen → m !! id = Some (full_key id) → from_cache seen ids m !! id = Some (full_key id).
Proof.
  intros Hs. unfold from_cache. revert m. induction ids as [|j ids IH]; intros m Hm; [done|]. cbn [fold_left]. apply IH.
  destruct (seen !! j) as [k|] eqn:E; [|done]. destruct (truthy k); [|done]. rewrite (Hs j k E).
  destruct (decide (j = id)) as [->|Hne]; [by rewrite lookup_insert_eq|by rewrite lookup_insert_ne].
Qed.

Lemma from_cache_has seen ids m id : right seen → id ∈ ids → cached seen id = true → from_cache seen ids m !! id = Some (full_key id).
Proof.
  intros Hs Hin Hc. unfold from_cache. revert m. induction ids as [|j ids IH]; intros m; [by apply elem_of_nil in Hin|]. cbn [fold_left].
  apply elem_of_cons in Hin as [<-|Hin]; [|by apply IH]. unfold cached in Hc. destruct (seen !! id) as [k|] eqn:E; [|done]. rewrite Hc. apply from_cache_keeps; [done|].
  rewrite (Hs id k E). apply lookup_insert_eq.
Qed.

Lemma add_keys_keeps keys (m : gmap Z str) id : Forall (λ kv, snd kv = server (fst kv)) keys → m !! id = Some (full_key id) →
  fold_left (λ m kv, <[fst kv := js "sk-" ++ snd kv]> m) keys m !! id = Some (full_key id).
Proof.
  intros H. revert m. induction H as [|[j k] keys Hk _ IH]; intros m Hm; [done|]. apply IH. cbn in *. rewrite Hk.
  destruct (decide (j = id)) as [->|Hne]; [by rewrite lookup_insert_eq|by rewrite lookup_insert_ne].
Qed.

Lemma new_keys_has keys id : Forall (λ kv, snd kv = server (fst kv)) keys → id ∈ map fst keys → new_keys keys !! id = Some (full_key id).
Proof.
  intros H Hin. unfold new_keys. generalize (∅ : gmap Z str).
  induction H as [|[j k] keys Hj H IH]; intros m; [by apply elem_of_nil in Hin|]. cbn [map fst snd fold_left] in *.
  apply elem_of_cons in Hin as [->|Hin]; [|by apply IH]. apply add_keys_keeps; [done|]. rewrite Hj. apply lookup_insert_eq.
Qed.

Lemma full_key_truthy id : truthy (full_key id) = true.
Proof. reflexivity. Qed.

Lemma copied_lines_full rows (m : gmap Z str) : (∀ row, row ∈ rows → m !! fst row = Some (full_key (fst row))) →
  copied_lines rows m = map (λ row, snd row ++ [9%N] ++ full_key (fst row)) rows.
Proof.
  intros H. unfold copied_lines. induction rows as [|row rows IH]; [done|]. cbn [flat_map map].
  rewrite (H row) by by left. rewrite full_key_truthy, IH; [done|]. intros row' Hr. apply H. by right.
Qed.

(** When the server answers a batch with a key for every id it was asked for, copying the selected rows puts one line per row, in the order of the rows, on
    the clipboard: the name of the key, a tab and the server's key; cached or fetched makes no difference. *)
Theorem copy_has_every_key es i b me keys (rows : list (Z * str)) :
  Forall honest es → batches (run es) !! i = Some b →
  Forall (λ kv, snd kv = server (fst kv)) keys → b_uncached b ⊆ map fst keys → map fst rows ⊆ b_ids b → rows ≠ [] →
  ∃ m, last (delivered_maps (run (es ++ [AnswerBatch i (BatchReply true me (Some keys))]))) = Some (b_caller b, m) ∧
    handleBatchCopy rows m = Some (join [10%N] (map (λ row, snd row ++ [9%N] ++ full_key (fst row)) rows)).
Proof.
  intros Hes Hb Hk Hu Hrows Hne. pose proof (Forall_lookup_1 _ _ _ _ (ok_batches _ (run_ok es Hes)) Hb) as [Hs Hub].
  exists (from_cache (b_seen b) (b_ids b) (new_keys keys)). split.
  - unfold run. rewrite fold_left_app. cbn [fold_left step]. fold (run es). unfold batch_answered. rewrite Hb. cbn.
    by rewrite last_snoc.
  - unfold handleBatchCopy. rewrite copied_lines_full; [by destruct rows|]. intros row Hr.
    assert (fst row ∈ b_ids b) as Hin by (apply Hrows, elem_of_lmap; by exists row).
    destruct (cached (b_seen b) (fst row)) eqn:Ec; [by apply from_cache_has|].
    apply from_cache_keeps; [done|]. apply new_keys_has; [done|]. apply Hu. rewrite Hub. apply elem_of_bfilter. by rewrite Ec.
Qed.
End honest_server.

Definition two_keys (id : Z) : str := if (id =? 7)%Z then js "abc" else js "xyz".

(** One key is cached when the batch is asked for, the other is fetched. *)
Definition batch_calls : list Event :=
  [Resolve 0 1 7; Answer 7 (KeyReply true [] (Some (js "abc"))); ResolveBatch 1 2 [7; 8]]%Z.

Lemma keys_are_the_servers_witness : (1, 7%Z, Some (js "sk-abc")) ∈ delivered (run batch_calls) ∧ js "sk-abc" = full_key two_keys 7.
Proof.
  assert (Forall (honest two_keys) batch_calls) as Hh by (repeat constructor).
  assert ((1, 7%Z, Some (js "sk-abc")) ∈ delivered (run batch_calls)) as Hin.
  { assert (delivered (run batch_calls) = [(1, 7%Z, Some (js "sk-abc"))]) as -> by (vm_compute; reflexivity). by left. }
  split; [exact Hin|]. exact (proj1 (keys_are_the_servers two_keys batch_calls Hh) 1 7%Z (js "sk-abc") Hin).
Defined.

Lemma copy_has_every_key_witness :
  ∃ m, handleBatchCopy [(8%Z, js "second"); (7%Z, js "first")] m =
    Some (js "second" ++ [9%N] ++ js "sk-xyz" ++ [10%N] ++ js "first" ++ [9%N] ++ js "sk-abc").
Proof.
  assert (Forall (honest two_keys) batch_calls) as Hh by (repeat constructor).
  assert (batches (run batch_calls) !! 0 =
    Some {| b_caller := 2; b_ids := [7; 8]%Z; b_uncached := [8]%Z; b_seen := {[7%Z := js "sk-abc"]} |}) as Hb by (vm_compute; reflexivity).
  assert (Forall (λ kv, snd kv = two_keys (fst kv)) [(8%Z, js "xyz")]) as Hk by (repeat constructor).
  assert ([8%Z] ⊆ map fst [(8%Z, js "xyz")]) as Hu by (intros x Hx; exact Hx).
  assert (map fst [(8%Z, js "second"); (7%Z, js "first")] ⊆ [7; 8]%Z) as Hr by (cbn; intros x; rewrite !elem_of_cons; tauto).
  assert ([(8%Z, js "second"); (7%Z, js "first")] ≠ []) as Hne by discriminate.
  destruct (copy_has_every_key two_keys batch_calls 0 _ [] _ _ Hh Hb Hk Hu Hr Hne) as (m & _ & E).
  exists m. rewrite E. vm_compute. reflexivity.
Defined.

(** The loading mark is not kept while a request is pending: a batch that overlaps the request of one key removes it. *)
Lemma overlapping_batch_clears_loading :
  let s := run [Resolve 0 1 7; ResolveBatch 0 2 [7]; AnswerBatch 0 BatchFailed]%Z in
  is_Some (pendingRequests s !! 7%Z) ∧ 7%Z ∉ loadingKeys s.
Proof.
  split; [eexists; vm_compute; reflexivity|]. apply (bool_decide_eq_true_1 (7%Z ∉ _)). vm_compute. reflexivity.
Qed.

(** ** The model of a connection test *)

Lemma find_some {A} (f : A → bool) l x : find f l = Some x → x ∈ l ∧ f x = true.
Proof. intros H. apply List.find_some in H as [? ?]. by rewrite list_elem_of_In. Qed.

(** The choice is one of the candidates, and there is one unless there are none. *)
Lemma pick_model_spec ps l : Forall (λ m, truthy m = true) l →
  (l = [] ∧ pick_model ps l = []) ∨ (pick_model ps l ∈ l ∧ truthy (pick_model ps l) = true).
Proof.
  intros H. induction ps as [|p ps IH]; cbn [pick_model].
  - destruct H as [|m l Hm _]; [by left|right]. cbn. split; [by left|done].
  - destruct (find (test_re p) l) as [m|] eqn:E; [|done]. apply find_some in E as [Hin _].
    pose proof (proj1 (Forall_forall _ _) H m Hin) as Hm. cbn in Hm. rewrite Hm. by right.
Qed.

(** A model of an earlier family is preferred. *)
Lemma pick_model_first p ps l m : find (test_re p) l = Some m → truthy m = true → pick_model (p :: ps) l = m.
Proof. intros H Hm. cbn. by rewrite H, Hm. Qed.

(** A key that is limited to models is tested with one of them that is a plain name of a chat model, and the limits are ignored only if there is none. *)
Theorem test_model_of_limits limits :
  let models := List.filter truthy (map trim (split (js ",") limits)) in
  let candidates := List.filter (λ m, isConcreteModelName m && negb (test_re nonChatPattern m)) models in
  (getTestModel true limits = [] ↔ candidates = []) ∧
  (getTestModel true limits ≠ [] → getTestModel true limits ∈ models ∧ isConcreteModelName (getTestModel true limits) = true ∧
     test_re nonChatPattern (getTestModel true limits) = false).
Proof.
  intros models candidates. unfold getTestModel. cbn [andb].
  assert (Forall (λ m, truthy m = true) candidates) as Hc.
  { apply bfilter_Forall. apply Forall_forall. intros m [_ Hm]%elem_of_bfilter. exact Hm. }
  destruct (truthy limits) eqn:El.
  - change (selectApiKeyChatTestModel (List.filter truthy (map trim (split (js ",") limits)))) with (pick_model priorities candidates).
    destruct (pick_model_spec priorities candidates Hc) as [[E ->]|[Hin Ht]]; [by rewrite E|].
    destruct (pick_model priorities candidates) as [|c t]; [done|]. split; [split; [done|]; intros E; rewrite E in Hin; by apply elem_of_nil in Hin|].
    intros _. apply elem_of_bfilter in Hin as [Hm [? ?%negb_true_iff]%andb_true_iff]. done.
  - destruct limits; [|done]. split; [|done]. split; [|done]. intros _. reflexivity.
Qed.

(** A name with a dot counts as a pattern: a key that is limited to such models is not tested with one of them by name. *)
Lemma dotted_models_not_tested :
  getTestModel true (js "gpt-4.1, claude-3.5-sonnet, gemini-2.5-pro") = [] ∧ isConcreteModelName (js "gpt-4.1") = false.
Proof. split; vm_compute; reflexivity. Qed.
