(* ===== verification/SettingsForm.v ===== *)
(** * The form of a settings section

    [features/system-settings/hooks/use-settings-form.ts] with the three sections that use it ([general/quota-settings-section.tsx],
    [pricing-section.tsx], [system-info-section.tsx]).  Options of the server have dotted names; the form works on nested objects, and what
    is saved are the options that changed.

    Values of a form are JSON values.  The marks of changed fields come from react-hook-form and are an argument, and so is what a schema
    refuses. *)

From S2P Require Import Prelude JsString JsNumber JsNumberFacts Json JsonFacts JsMap.

Definition isPlainObject (v : json) : bool := match v with JObj _ => true | _ => false end.

(** [parentKey ? parentKey + '.' + key : key] *)
Definition nextKey (parentKey : option str) (key : str) : str :=
  match parentKey with
  | Some p => if truthy p then p ++ js "." ++ key else key
  | None => key
  end.

Fixpoint flatten_into (values : json) (parentKey : option str) (result : obj) {struct values} : obj :=
  match values with
  | JObj o =>
      fold_left (λ r kv,
        match snd kv with
        | JObj _ => flatten_into (snd kv) (Some (nextKey parentKey (fst kv))) r
        | _ => obj_set (nextKey parentKey (fst kv)) (snd kv) r
        end) o result
  | _ => match parentKey with Some p => obj_set p values result | None => result end
  end.

Definition flattenValues (values : json) : obj := flatten_into values None [].

(** ** Nested values from dotted names *)

(** The walk of [setDeepValue] over the segments of the path; anything on the way that is no object is replaced by one. *)
Fixpoint set_deep (segments : list str) (value : json) (target : obj) : obj :=
  match segments with
  | [] => target
  | [segment] => obj_set segment value target
  | segment :: rest =>
      match obj_get segment target with
      | Some (JObj next) => obj_set segment (JObj (set_deep rest value next)) target
      | _ => obj_set segment (JObj (set_deep rest value [])) target
      end
  end.

Definition setDeepValue (target : obj) (path : str) (value : json) : obj := set_deep (split (js ".") path) value target.

Fixpoint expandDotPaths (values : json) : json :=
  match values with
  | JObj o =>
      JObj (fold_left (λ result kv,
        if includes (js ".") (fst kv) then setDeepValue result (fst kv) (snd kv)
        else if isPlainObject (snd kv) then obj_set (fst kv) (expandDotPaths (snd kv)) result
        else obj_set (fst kv) (snd kv) result) o [])
  | _ => values
  end.

(** ** Changed values *)

(** [formState.dirtyFields]: marks in the shape of the values. *)
Unset Elimination Schemes.
Inductive marks := MTrue | MFalse | MNode (l : list (str * marks)).
Set Elimination Schemes.

Section marks_ind.
Context (Q : marks → Prop) (Ht : Q MTrue) (Hf : Q MFalse) (Hn : ∀ l, Forall (λ kd, Q (snd kd)) l → Q (MNode l)).
Fixpoint marks_ind (d : marks) : Q d :=
  match d with
  | MTrue => Ht
  | MFalse => Hf
  | MNode l => Hn l ((fix go l : Forall (λ kd, Q (snd kd)) l :=
      match l with [] => Forall_nil_2 _ | kd :: l' => Forall_cons_2 _ _ _ (marks_ind (snd kd)) (go l') end) l)
  end.
End marks_ind.

(** [values[key]] of an object or an array *)
Definition source_at (values : option json) (key : str) : option json :=
  match values with
  | Some (JObj o) => obj_get key o
  | Some (JArr l) => obj_get key (entries_of (JArr l))
  | _ => None
  end.

Fixpoint collect_into (dirty : marks) (values : option json) (parentKey : option str) (result : list (str * option json)) : list (str * option json) :=
  match dirty with
  | MTrue => match parentKey with Some p => mset result p values | None => result end
  | MFalse => result
  | MNode l =>
      fold_left (λ r kd,
        match snd kd with
        | MTrue => mset r (nextKey parentKey (fst kd)) (source_at values (fst kd))
        | MFalse => r
        | MNode _ => collect_into (snd kd) (source_at values (fst kd)) (Some (nextKey parentKey (fst kd))) r
        end) l result
  end.

Definition collectDirtyValues (dirty : marks) (values : json) : list (str * option json) := collect_into dirty (Some values) None [].

(** [a === b]; two arrays or objects are never the same one here *)
Definition strict_eq (a b : json) : bool :=
  match a, b with
  | JNull, JNull => true
  | JBool x, JBool y => Bool.eqb x y
  | JNum x, JNum y => num_eqb x y
  | JStr x, JStr y => bool_decide (x = y)
  | _, _ => false
  end.

Definition is_composite (v : json) : bool := match v with JArr _ | JObj _ => true | _ => false end.

Definition defaultCompare (a b : option json) : bool :=
  match a, b with
  | None, None => true
  | Some x, Some y => strict_eq x y || (is_composite x && is_composite y && bool_decide (json_stringify x = json_stringify y))
  | _, _ => false
  end.

(** ** The hook *)

Record SettingsForm := {
  values : json;                    (** what the form shows *)
  defaultValuesRef : json;
  baselineRef : obj;
  serializedDefaultsRef : str }.

Definition useSettingsForm (defaultValues : json) : SettingsForm :=
  let expandedDefaults := expandDotPaths defaultValues in
  let baseline := flattenValues expandedDefaults in
  {| values := expandedDefaults; defaultValuesRef := expandedDefaults; baselineRef := baseline;
     serializedDefaultsRef := json_stringify (JObj baseline) |}.

(** The effect on new default values. *)
Definition defaults_effect (defaultValues : json) (f : SettingsForm) : SettingsForm :=
  let expandedDefaults := expandDotPaths defaultValues in
  let flattened := flattenValues expandedDefaults in
  let serialized := json_stringify (JObj flattened) in
  if bool_decide (serialized = serializedDefaultsRef f) then f
  else {| values := expandedDefaults; defaultValuesRef := expandedDefaults; baselineRef := flattened; serializedDefaultsRef := serialized |}.

(** The user types. *)
Definition form_input (v : json) (f : SettingsForm) : SettingsForm :=
  {| values := v; defaultValuesRef := defaultValuesRef f; baselineRef := baselineRef f; serializedDefaultsRef := serializedDefaultsRef f |}.

Definition changed_entries (compare : option json → option json → bool) (dirty : marks) (data : json) (f : SettingsForm) : list (str * option json) :=
  List.filter (λ kv, negb (compare (snd kv) (obj_get (fst kv) (baselineRef f)))) (collectDirtyValues dirty data).

(** What the resolver of a section makes of the form: the number fields of its schema are converted ([z.coerce.number]), everything else is
    kept.  [NaN] is refused; what else the schema refuses is an argument. *)
Definition below (k : str) (fields : list (list str)) : list (list str) :=
  flat_map (λ p, match p with k' :: ((_ :: _) as q) => if bool_decide (k' = k) then [q] else [] | _ => [] end) fields.

Fixpoint coerce_numbers (fields : list (list str)) (v : json) {struct v} : json :=
  match v with
  | JObj o =>
      JObj (map (λ kv, (fst kv,
        if isPlainObject (snd kv) then coerce_numbers (below (fst kv) fields) (snd kv)
        else if bool_decide ([fst kv] ∈ fields) then JNum (to_number (snd kv)) else snd kv)) o)
  | _ => v
  end.

Fixpoint nan_free (v : json) : bool :=
  match v with JNum S754_nan => false | JObj o => forallb (λ kv, nan_free (snd kv)) o | _ => true end.

Definition resolver (fields : list (list str)) (refuses : json → bool) (v : json) : option json :=
  let data := coerce_numbers fields v in if nan_free data && negb (refuses data) then Some data else None.

(** The number fields of the three sections *)
Definition quota_numbers : list (list str) := [[js "QuotaForNewUser"]; [js "PreConsumedQuota"]; [js "QuotaForInviter"]; [js "QuotaForInvitee"]].
Definition pricing_numbers : list (list str) := [[js "QuotaPerUnit"]; [js "USDExchangeRate"]; [js "general_setting"; js "custom_currency_exchange_rate"]].
Definition system_info_numbers : list (list str) := [].

(** [handleSubmit] on [data], the output of the resolver: the changed fields that are handed on (nothing: there is nothing to save) and the
    form afterwards; [accepted] says whether [onSubmit] returned. *)
Definition handleSubmit (compare : option json → option json → bool) (dirty : marks) (data : json) (accepted : bool) (f : SettingsForm)
  : list (str * option json) * SettingsForm :=
  let changed := changed_entries compare dirty data f in
  match changed with
  | [] => ([], f)
  | _ =>
      (changed,
       if accepted then
         let flattened := flattenValues data in
         {| values := data; defaultValuesRef := data; baselineRef := flattened; serializedDefaultsRef := json_stringify (JObj flattened) |}
       else f)
  end.

Definition handleReset (f : SettingsForm) : SettingsForm :=
  {| values := defaultValuesRef f; defaultValuesRef := defaultValuesRef f; baselineRef := baselineRef f;
     serializedDefaultsRef := serializedDefaultsRef f |}.

(** ** What the sections write *)

(** The quota section: every changed value as it is *)
Definition quota_writes (changed : list (str * option json)) : list (str * option json) := changed.

(** The pricing section: texts; nothing for a missing value or an object *)
Definition pricing_text (v : json) : option str :=
  match v with
  | JNull | JArr _ | JObj _ => None
  | JBool b => Some (if b then js "true" else js "false")
  | JNum x => Some (if is_finite x then string_of_num x else js "0")
  | JStr s => Some s
  end.

Definition pricing_writes (changed : list (str * option json)) : list (str * str) :=
  flat_map (λ kv, match snd kv with Some v => match pricing_text v with Some t => [(fst kv, t)] | None => [] end | None => [] end) changed.

Definition normalizeValue (v : option json) : str :=
  match v with None | Some JNull => [] | Some x => json_to_string x end.

Fixpoint drop_slashes (s : str) : str := match s with c :: s' => if (c =? 47)%N then drop_slashes s' else s | [] => [] end.

(** [v.replace(/\/+$/, '')] *)
Definition without_slashes (v : str) : str := rev (drop_slashes (rev v)).

(** The section of the system's name and address *)
Definition system_info_writes (changed : list (str * option json)) : list (str * str) :=
  map (λ kv,
    let v := normalizeValue (snd kv) in
    (fst kv, if bool_decide (fst kv = js "ServerAddress") then without_slashes v else v)) changed.

(** * Properties of the settings form

    Dotted option names survive the nesting and flattening of the form, and saving hands on exactly the options that changed. *)


(** ** Paths *)

(** A name without a dot; a path of such names and the option name it stands for. *)
Definition dotless (s : str) : Prop := 46%N ∉ s ∧ s ≠ [].
Definition path_ok (p : list str) : Prop := p ≠ [] ∧ Forall dotless p.
Definition option_name (p : list str) : str := join (js ".") p.

Lemma split_option_name p : path_ok p → split (js ".") (option_name p) = p.
Proof.
  intros [Hn Hp]. apply (split_join 46%N); [done|]. eapply Forall_impl; [exact Hp|]. by intros s [? _].
Qed.

Lemma option_name_inj p q : path_ok p → path_ok q → option_name p = option_name q → p = q.
Proof. intros Hp Hq H. by rewrite <- (split_option_name p Hp), <- (split_option_name q Hq), H. Qed.

Lemma option_name_snoc p k : p ≠ [] → option_name (p ++ [k]) = option_name p ++ js "." ++ k.
Proof.
  unfold option_name. intros Hp. induction p as [|a p IH]; [done|]. destruct p as [|b p]; [done|].
  change ((a :: b :: p) ++ [k]) with (a :: ((b :: p) ++ [k])). rewrite !(join_cons _ a) by done. rewrite IH by done. by rewrite <- !app_assoc.
Qed.

(** The parent argument that belongs to a path. *)
Definition parent_of (p : list str) : option str := match p with [] => None | _ => Some (option_name p) end.

Lemma option_name_truthy p : path_ok p → truthy (option_name p) = true.
Proof.
  intros [Hn Hp]. destruct Hp as [|a p [_ Ha] _]; [done|]. unfold option_name. destruct p as [|b p]; [by destruct a|].
  rewrite join_cons by done. by destruct a.
Qed.

Lemma nextKey_path p k : Forall dotless p → nextKey (parent_of p) k = option_name (p ++ [k]).
Proof.
  intros Hp. destruct p as [|a p]; [done|]. cbn [parent_of nextKey]. rewrite option_name_truthy by done.
  by rewrite option_name_snoc.
Qed.

Lemma parent_of_snoc p k : parent_of (p ++ [k]) = Some (option_name (p ++ [k])).
Proof. by destruct p. Qed.

(** ** Leaves of a nested value *)

Fixpoint leaf_at (p : list str) (v : json) : option json :=
  match p with
  | [] => if isPlainObject v then None else Some v
  | k :: p' => match v with JObj o => x ← obj_get k o; leaf_at p' x | _ => None end
  end.

Fixpoint leaves (v : json) : list (list str * json) :=
  match v with
  | JObj o => flat_map (λ kv, map (λ px, (fst kv :: fst px, snd px)) (leaves (snd kv))) o
  | _ => [([], v)]
  end.

(** Objects with distinct names without dots, all the way down. *)
Unset Elimination Schemes.
Inductive form_ok : json → Prop :=
  | form_leaf v : isPlainObject v = false → form_ok v
  | form_node o : NoDup (map fst o) → Forall (λ kv, dotless (fst kv)) o → Forall (λ kv, form_ok (snd kv)) o → form_ok (JObj o).
Set Elimination Schemes.

Lemma form_ok_node o : form_ok (JObj o) → NoDup (map fst o) ∧ Forall (λ kv, dotless (fst kv)) o ∧ Forall (λ kv, form_ok (snd kv)) o.
Proof. intros H. inversion H as [? Hv|? H1 H2 H3]; subst; [done|]. done. Qed.

Lemma obj_get_in k o x : NoDup (map fst o) → obj_get k o = Some x ↔ (k, x) ∈ o.
Proof. intros H. split; [apply obj_get_elem|by apply elem_obj_get]. Qed.

Lemma leaves_spec v p x : form_ok v → (p, x) ∈ leaves v ↔ leaf_at p v = Some x.
Proof.
  revert p x. induction v as [|b|n|s|l _|o IH] using json_ind; intros p x Hv.
  1-5: cbn [leaves]; rewrite list_elem_of_singleton; destruct p; cbn; split; try done; [by intros [= ->]|by intros [= ->]].
  apply form_ok_node in Hv as (Hn & _ & Hf). cbn [leaves]. rewrite list_elem_of_In, in_flat_map. split.
  - intros ([k y] & Hin & Hp). rewrite <- !list_elem_of_In in *. apply elem_of_lmap in Hp as ([q z] & [= -> ->] & Hq). cbn.
    rewrite (proj2 (obj_get_in k o y Hn) Hin). cbn.
    rewrite Forall_forall in IH, Hf. by apply (proj1 (IH (k, y) Hin q z (Hf (k, y) Hin))).
  - destruct p as [|k p]; [done|]. cbn. intros Hl. destruct (obj_get k o) as [y|] eqn:E; [|done]. cbn in Hl.
    apply (obj_get_in k o y Hn) in E as Hin. exists (k, y). rewrite <- list_elem_of_In. split; [done|].
    rewrite <- list_elem_of_In. apply elem_of_lmap. exists (p, x). split; [done|].
    rewrite Forall_forall in IH, Hf. by apply (proj2 (IH (k, y) Hin p x (Hf (k, y) Hin))).
Qed.

Lemma leaf_path_ok v p x : form_ok v → leaf_at p v = Some x → Forall dotless p.
Proof.
  revert v. induction p as [|k p IH]; intros v Hv Hl; [done|]. destruct v as [| | | | |o]; try done. cbn in Hl.
  apply form_ok_node in Hv as (Hn & Hd & Hf). destruct (obj_get k o) as [y|] eqn:E; [|done]. apply (obj_get_in k o y Hn) in E.
  rewrite Forall_forall in Hd, Hf. constructor; [apply (Hd (k, y) E)|]. apply (IH y); [apply (Hf (k, y) E)|done].
Qed.

Lemma leaves_NoDup v : form_ok v → NoDup (map fst (leaves v)).
Proof.
  induction v as [|b|n|s|l _|o IH] using json_ind; intros Hv; [apply NoDup_singleton..|].
  apply form_ok_node in Hv as (Hn & _ & Hf). cbn [leaves]. induction o as [|[k y] o IHo]; [constructor|].
  cbn [map fst] in Hn. apply NoDup_cons in Hn as [Hk Hn]. apply Forall_cons in IH as [IHy IH]. apply Forall_cons in Hf as [Hy Hf].
  cbn [flat_map fst snd]. rewrite map_app, map_map. cbn [fst]. apply NoDup_app. split_and!; [| |by apply IHo].
  - rewrite <- (map_map fst (cons k)). apply (NoDup_fmap_2 (cons k)). by apply IHy.
  - intros p Hp Hq. apply elem_of_lmap in Hp as ([q z] & -> & _). cbn in Hq. apply elem_of_lmap in Hq as ([r w] & Hr & Hin).
    apply list_elem_of_In, in_flat_map in Hin as ([j u] & Hj & Hin). rewrite <- !list_elem_of_In in *.
    apply elem_of_lmap in Hin as ([t t'] & [= -> ->] & _). cbn in Hr. injection Hr as <- _. apply Hk, elem_of_lmap. by exists (k, u).
Qed.

(** ** Flattening *)

(** [flatten_into] sets the options of the leaves one after the other. *)
Lemma flatten_into_leaves v p r : form_ok v → Forall dotless p → isPlainObject v = true →
  flatten_into v (parent_of p) r = obj_spread r (map (λ qx, (option_name (p ++ fst qx), snd qx)) (leaves v)).
Proof.
  revert p r. induction v as [|b|n|s|l _|o IH] using json_ind; intros p r Hv Hp Ho; try done. clear Ho.
  apply form_ok_node in Hv as (_ & Hd & Hf). cbn [flatten_into leaves]. revert r.
  induction o as [|[k y] o IHo]; intros r; [done|]. apply Forall_cons in IH as [IHy IH]. apply Forall_cons in Hf as [Hy Hf].
  apply Forall_cons in Hd as [Hk Hd]. cbn [fold_left flat_map fst snd] in *. rewrite map_app. unfold obj_spread. rewrite fold_left_app.
  fold (obj_spread r (map (λ qx, (option_name (p ++ fst qx), snd qx)) (map (λ px, (k :: fst px, snd px)) (leaves y)))).
  rewrite IHo by done. unfold obj_spread. f_equal. rewrite map_map. cbn [fst snd].
  assert (∀ q : list str, p ++ k :: q = (p ++ [k]) ++ q) as Hq by (intros q; by rewrite <- app_assoc).
  destruct y as [| | | | |o'].
  6: { rewrite nextKey_path, <- parent_of_snoc by done. rewrite IHy; [|done|by apply Forall_app; split; [|constructor]|done].
       unfold obj_spread. erewrite map_ext; [reflexivity|]. intros q. cbn. by rewrite (Hq q.1). }
  all: cbn; by rewrite nextKey_path.
Qed.

Lemma obj_get_spread_list k l r : NoDup (map fst l) →
  obj_get k (obj_spread r l) = match obj_get k l with Some x => Some x | None => obj_get k r end.
Proof.
  unfold obj_spread. revert r. induction l as [|[j x] l IH]; intros r Hn; [done|]. cbn [map fst] in Hn. apply NoDup_cons in Hn as [Hj Hn].
  cbn [fold_left fst snd obj_get]. rewrite IH by done. rewrite obj_get_set. destruct (decide (k = j)) as [->|Hne].
  - rewrite !bool_decide_true by done. by rewrite obj_get_None.
  - by rewrite !bool_decide_false by done.
Qed.

Lemma leaf_nonempty o p x : leaf_at p (JObj o) = Some x → p ≠ [].
Proof. by destruct p. Qed.

(** The option of a name is the leaf at its path. *)
Lemma flatten_get o k : form_ok (JObj o) → obj_get k (flattenValues (JObj o)) = leaf_at (split (js ".") k) (JObj o).
Proof.
  intros Ho. unfold flattenValues. change None with (parent_of []). rewrite (flatten_into_leaves (JObj o) [] []) by done. cbn [app].
  assert (∀ p x, (p, x) ∈ leaves (JObj o) → path_ok p) as Hpath.
  { intros p x Hl%leaves_spec; [|done]. split; [by eapply leaf_nonempty|by eapply leaf_path_ok]. }
  set (l := map (λ qx, (option_name (fst qx), snd qx)) (leaves (JObj o))).
  assert (NoDup (map fst l)) as Hn.
  { unfold l. rewrite map_map. cbn [fst]. rewrite <- (map_map fst option_name). pose proof (leaves_NoDup _ Ho) as Hl.
    assert (Forall path_ok (map fst (leaves (JObj o)))) as Hf.
    { apply Forall_forall. intros p ([q x] & -> & Hq)%elem_of_lmap. by apply (Hpath q x). }
    clear -Hl Hf. induction Hf as [|p ps Hp Hps IH]; [constructor|]. apply NoDup_cons in Hl as [Hin Hl]. cbn. apply NoDup_cons. split; [|by apply IH].
    intros (q & E & Hq)%elem_of_lmap. rewrite Forall_forall in Hps. apply option_name_inj in E; [|done|by apply Hps]. by subst q. }
  rewrite obj_get_spread_list by done. assert (obj_get k l = leaf_at (split (js ".") k) (JObj o)) as ->; [|by destruct (leaf_at _ _)].
  destruct (leaf_at (split (js ".") k) (JObj o)) as [x|] eqn:E.
  - apply obj_get_in; [done|]. unfold l. apply elem_of_lmap. exists (split (js ".") k, x). split; [|by apply leaves_spec].
    cbn [fst snd]. f_equal. symmetry. by apply (join_split (js ".")).
  - apply obj_get_None. intros Hin. unfold l in Hin. rewrite map_map in Hin. apply elem_of_lmap in Hin as ([p x] & -> & Hin). cbn [fst snd] in E.
    rewrite split_option_name in E by by apply (Hpath p x). apply leaves_spec in Hin; [|done]. congruence.
Qed.

(** ** Nesting *)

Lemma set_deep_leaf segs v o p : segs ≠ [] → isPlainObject v = false →
  leaf_at p (JObj (set_deep segs v o)) =
  if decide (p = segs) then Some v else if decide (p `prefix_of` segs ∨ segs `prefix_of` p) then None else leaf_at p (JObj o).
Proof.
  intros Hs Hv. revert o p. induction segs as [|s segs IH]; intros o p; [done|]. destruct p as [|k p].
  { rewrite decide_False by done. rewrite decide_True; [done|]. left. apply prefix_nil. }
  assert (∀ w, leaf_at (k :: p) (JObj (obj_set s w o)) = if decide (k = s) then leaf_at p w else leaf_at (k :: p) (JObj o)) as Hset.
  { intros w. cbn. rewrite obj_get_set. case_decide as E; [by rewrite bool_decide_true|by rewrite bool_decide_false]. }
  assert (k ≠ s → (if decide (k :: p = s :: segs) then Some v
    else if decide (k :: p `prefix_of` s :: segs ∨ s :: segs `prefix_of` k :: p) then None else leaf_at (k :: p) (JObj o)) = leaf_at (k :: p) (JObj o)) as Hne.
  { intros Hk. rewrite decide_False by congruence. rewrite decide_False; [done|].
    intros [H|H]; apply prefix_cons_inv_1 in H; congruence. }
  destruct segs as [|s' segs].
  - cbn [set_deep]. rewrite Hset. destruct (decide (k = s)) as [E|E]; [|by rewrite (Hne E)]. subst k. destruct p as [|k p].
    + rewrite decide_True by done. cbn. by rewrite Hv.
    + rewrite decide_False by done. rewrite decide_True; [|right; apply (prefix_app_r [s] [s]); done]. by destruct v.
  - assert (∃ n, set_deep (s :: s' :: segs) v o = obj_set s (JObj (set_deep (s' :: segs) v n)) o ∧
      (leaf_at p (JObj n) = leaf_at (s :: p) (JObj o) ∨ (leaf_at p (JObj n) = None ∧ ∃ x, obj_get s o = Some x ∧ isPlainObject x = false))) as (n & -> & Hn).
    { cbn [set_deep]. cbn [leaf_at]. destruct (obj_get s o) as [[| | | | |n]|] eqn:E.
      6: exists n; split; [done|by left].
      6: exists []; split; [done|left; by destruct p].
      all: exists []; (split; [done|right; split; [by destruct p|eexists; done]]). }
    rewrite Hset. destruct (decide (k = s)) as [E|E]; [|by rewrite (Hne E)]. subst k. rewrite IH by done.
    destruct (decide (p = s' :: segs)) as [->|Hp]; [by rewrite decide_True|]. rewrite (decide_False (P := s :: p = _)) by congruence.
    destruct (decide (p `prefix_of` s' :: segs ∨ s' :: segs `prefix_of` p)) as [Hpre|Hpre].
    + rewrite decide_True; [done|]. destruct Hpre; [left|right]; by apply prefix_cons.
    + rewrite decide_False; [|intros [H|H]; apply prefix_cons_inv_2 in H; tauto].
      destruct Hn as [?|(-> & x & Hx & Hxo)]; [done|]. cbn. rewrite Hx. cbn. destruct p; [|by destruct x].
      destruct Hpre. left. apply prefix_nil.
Qed.

Lemma obj_set_form_ok k v o : dotless k → form_ok v → form_ok (JObj o) → form_ok (JObj (obj_set k v o)).
Proof.
  intros Hk Hv (Hn & Hd & Hf)%form_ok_node. assert (NoDup (map fst (obj_set k v o))) as Hn' by by apply obj_set_NoDup.
  apply form_node; [done|..]; apply Forall_forall; intros [j x] Hin; apply (elem_obj_get j x _ Hn') in Hin;
    rewrite obj_get_set in Hin; (destruct (decide (j = k)) as [->|Hne];
    [rewrite bool_decide_true in Hin by done; injection Hin as <-; done|rewrite bool_decide_false in Hin by done]);
    apply obj_get_elem in Hin; rewrite Forall_forall in Hd, Hf; [apply (Hd (j, x) Hin)|apply (Hf (j, x) Hin)].
Qed.

Lemma form_ok_empty : form_ok (JObj []).
Proof. apply form_node; constructor. Qed.

Lemma form_ok_get o k x : form_ok (JObj o) → obj_get k o = Some x → form_ok x.
Proof.
  intros (Hn & _ & Hf)%form_ok_node Hx%obj_get_elem. rewrite Forall_forall in Hf. exact (Hf (k, x) Hx).
Qed.

Lemma set_deep_form_ok segs v o : Forall dotless segs → form_ok v → form_ok (JObj o) → form_ok (JObj (set_deep segs v o)).
Proof.
  intros Hs Hv. revert o. induction Hs as [|s segs Hs _ IH]; intros o Ho; [done|]. destruct segs as [|s' segs].
  - by apply obj_set_form_ok.
  - cbn [set_deep]. destruct (obj_get s o) as [[| | | | |n]|] eqn:E; apply obj_set_form_ok; try done; try apply IH, form_ok_empty.
    apply IH. by apply (form_ok_get o s).
Qed.

(** What an option's name must be: a path of non-empty names; and no option is a part of another. *)
Definition name_ok (k : str) : Prop := Forall dotless (split (js ".") k).
Definition prefix_free (ks : list str) : Prop :=
  ∀ k k', k ∈ ks → k' ∈ ks → k ≠ k' → ¬ split (js ".") k `prefix_of` split (js ".") k'.

(** The options as the server has them: simple values under such names. *)
Record options_ok (o : obj) : Prop := {
  opts_distinct : NoDup (map fst o);
  opts_simple : Forall (λ kv, isPlainObject (snd kv) = false) o;
  opts_names : Forall (λ kv, name_ok (fst kv)) o;
  opts_free : prefix_free (map fst o) }.

Definition expand_step (result : obj) (kv : str * json) : obj := set_deep (split (js ".") (fst kv)) (snd kv) result.

Lemma split_no_dot k : includes (js ".") k = false → split (js ".") k = [k].
Proof.
  intros H. apply (split_go_clean 46%N []). intros Hin. apply not_true_iff_false in H. apply H. apply includes_spec.
  apply list_elem_of_split in Hin as (u & t & ->). by exists u, t.
Qed.

Lemma expand_simple o : Forall (λ kv, isPlainObject (snd kv) = false) o →
  expandDotPaths (JObj o) = JObj (fold_left expand_step o []).
Proof.
  intros H. cbn [expandDotPaths]. f_equal. generalize (@nil (str * json)). induction H as [|[k v] o Hv _ IH]; intros acc; [done|].
  cbn [fold_left fst snd] in *. rewrite Hv, IH. f_equal. unfold expand_step. cbn [fst snd].
  destruct (includes (js ".") k) eqn:E; [done|]. by rewrite split_no_dot.
Qed.

Lemma split_inj k k' : split (js ".") k = split (js ".") k' → k = k'.
Proof. intros H. by rewrite <- (join_split (js ".") k), <- (join_split (js ".") k'), H. Qed.

Lemma split_nonempty k : split (js ".") k ≠ [].
Proof. apply split_go_nonempty. Qed.

(** Every option ends up at its path, whatever comes before and after it. *)
Lemma fold_expand_leaf o acc k : options_ok o →
  (k ∉ map fst o → (∀ k', k' ∈ map fst o → ¬ split (js ".") k `prefix_of` split (js ".") k' ∧ ¬ split (js ".") k' `prefix_of` split (js ".") k) →
     leaf_at (split (js ".") k) (JObj (fold_left expand_step o acc)) = leaf_at (split (js ".") k) (JObj acc)) ∧
  (∀ v, (k, v) ∈ o → leaf_at (split (js ".") k) (JObj (fold_left expand_step o acc)) = Some v).
Proof.
  revert acc. induction o as [|[j w] o IH]; intros acc [Hn Hs Hk Hf]; [split; [done|by intros v ?%elem_of_nil]|].
  cbn [map fst] in *. apply NoDup_cons in Hn as [Hj Hn]. apply Forall_cons in Hs as [Hw Hs]. apply Forall_cons in Hk as [Hkj Hk].
  assert (options_ok o) as Ho. { split; try done. intros a b Ha Hb. apply Hf; by right. }
  cbn [fold_left]. destruct (IH (expand_step acc (j, w)) Ho) as [IH1 IH2].
  split.
  - intros Hni Hpf. rewrite IH1; [|by intros ?; apply Hni; right|intros k' Hk'; apply Hpf; by right].
    change (expand_step acc (j, w)) with (set_deep (split (js ".") j) w acc). rewrite set_deep_leaf by (apply split_nonempty || done). rewrite decide_False; [|intros E%split_inj; apply Hni; rewrite E; by left].
    rewrite decide_False; [done|]. destruct (Hpf j) as [? ?]; [by left|]. tauto.
  - intros v [[= -> ->]|Hin]%elem_of_cons; [|by apply IH2]. rewrite IH1.
    + change (expand_step acc (j, w)) with (set_deep (split (js ".") j) w acc).
      rewrite set_deep_leaf by (apply split_nonempty || done). by rewrite decide_True.
    + done.
    + intros k' Hk'. assert (j ≠ k') by (intros ->; done). split; apply Hf; (by left) || (by right) || done.
Qed.

Lemma expand_form_ok o : options_ok o → form_ok (expandDotPaths (JObj o)).
Proof.
  intros [_ Hs Hk _]. rewrite expand_simple by done. generalize form_ok_empty. generalize (@nil (str * json)).
  induction o as [|[k v] o IH]; intros acc Hacc; [done|]. apply Forall_cons in Hs as [Hv Hs]. apply Forall_cons in Hk as [Hk Hks].
  cbn [fold_left]. apply IH; [done..|]. apply set_deep_form_ok; [done|by apply form_leaf|done].
Qed.

Lemma leaf_of_empty p : leaf_at p (JObj []) = None.
Proof. by destruct p. Qed.

(** A leaf of the nested options comes from an option. *)
Lemma fold_expand_only o acc p x : Forall (λ kv, isPlainObject (snd kv) = false) o →
  leaf_at p (JObj (fold_left expand_step o acc)) = Some x → leaf_at p (JObj acc) = Some x ∨ p ∈ map (λ kv, split (js ".") (fst kv)) o.
Proof.
  intros Hs. revert acc. induction Hs as [|[k v] o Hv _ IH]; intros acc H; [by left|]. cbn [fold_left map fst] in *.
  apply IH in H as [H|H]; [|right; by right]. change (expand_step acc (k, v)) with (set_deep (split (js ".") k) v acc) in H.
  rewrite set_deep_leaf in H by (apply split_nonempty || done).
  destruct (decide (p = split (js ".") k)) as [->|_]; [right; by left|]. destruct (decide _); [done|by left].
Qed.

(** C32: The options of a section, nested for its form and flattened again, are the same options with the same values, for all simple values under dotted
    names of which none is part of another. *)
Theorem options_round_trip o k : options_ok o → obj_get k (flattenValues (expandDotPaths (JObj o))) = obj_get k o.
Proof.
  intros Ho. pose proof (expand_form_ok o Ho) as Hok. rewrite (expand_simple o (opts_simple o Ho)) in *. rewrite flatten_get by done.
  destruct (obj_get k o) as [v|] eqn:E.
  - apply (fold_expand_leaf o [] k Ho). by apply obj_get_elem.
  - destruct (leaf_at _ _) as [x|] eqn:El; [|done]. apply fold_expand_only in El; [|apply Ho]. rewrite leaf_of_empty in El.
    destruct El as [?|Hin]; [done|]. apply elem_of_lmap in Hin as ([k' v] & Hk%split_inj & Hin). cbn in Hk. subst k'.
    apply (elem_obj_get k v o (opts_distinct o Ho)) in Hin. congruence.
Qed.

(** ** What is saved *)

(** The paths that are marked as changed. *)
Fixpoint marked (d : marks) : list (list str) :=
  match d with
  | MTrue => [[]]
  | MFalse => []
  | MNode l => flat_map (λ kd, map (cons (fst kd)) (marked (snd kd))) l
  end.

(** The value that is read at a path. *)
Fixpoint value_at (p : list str) (v : option json) : option json :=
  match p with
  | [] => v
  | k :: p' => value_at p' (source_at v k)
  end.

Lemma leaf_value p v x : leaf_at p v = Some x → value_at p (Some v) = Some x.
Proof.
  revert v. induction p as [|k p IH]; intros v; cbn.
  - destruct (isPlainObject v); [done|]. by intros [= ->].
  - destruct v as [| | | | |o]; try done. cbn. destruct (obj_get k o) as [y|]; [|done]. cbn. apply IH.
Qed.

Unset Elimination Schemes.
Inductive marks_ok : marks → Prop :=
  | ok_true : marks_ok MTrue
  | ok_false : marks_ok MFalse
  | ok_node l : Forall (λ kd, dotless (fst kd)) l → Forall (λ kd, marks_ok (snd kd)) l → marks_ok (MNode l).
Set Elimination Schemes.

Lemma marks_ok_node l : marks_ok (MNode l) → Forall (λ kd, dotless (fst kd)) l ∧ Forall (λ kd, marks_ok (snd kd)) l.
Proof. intros H. by inversion H. Qed.

Definition put_marked (p : list str) (v : option json) (r : list (str * option json)) (q : list str) : list (str * option json) :=
  mset r (option_name (p ++ q)) (value_at q v).

Lemma collect_into_marked d v p r : marks_ok d → Forall dotless p → p ≠ [] ∨ d ≠ MTrue →
  collect_into d v (parent_of p) r = fold_left (put_marked p v) (marked d) r.
Proof.
  revert v p r. induction d as [| |l IH] using marks_ind; intros v p r Hd Hp Hne.
  - cbn. unfold put_marked. rewrite app_nil_r. destruct p; [by destruct Hne|done].
  - done.
  - clear Hne. apply marks_ok_node in Hd as [Hk Hd]. cbn [collect_into marked]. revert r.
    induction l as [|[k d] l IHl]; intros r; [done|]. apply Forall_cons in IH as [IHd IH]. apply Forall_cons in Hd as [Hd Hds].
    apply Forall_cons in Hk as [Hk Hks]. cbn [fold_left flat_map fst snd] in *. rewrite fold_left_app, <- IHl by done. f_equal.
    assert (∀ q r, put_marked p v r (k :: q) = put_marked (p ++ [k]) (source_at v k) r q) as Hput.
    { intros q r'. unfold put_marked. cbn [value_at]. by rewrite <- app_assoc. }
    assert (fold_left (put_marked p v) (map (cons k) (marked d)) r = fold_left (put_marked (p ++ [k]) (source_at v k)) (marked d) r) as ->.
    { clear -Hput. revert r. induction (marked d) as [|q qs IH]; intros r; [done|]. cbn [map fold_left]. by rewrite Hput, IH. }
    destruct d as [| |l'].
    + cbn. unfold put_marked. by rewrite nextKey_path, app_nil_r.
    + done.
    + rewrite nextKey_path, <- parent_of_snoc by done. apply IHd; [done|by apply Forall_app; split; [|constructor]|left; by destruct p].
Qed.

Lemma marked_path_ok d p : marks_ok d → p ∈ marked d → Forall dotless p.
Proof.
  revert p. induction d as [| |l IH] using marks_ind; intros p Hd Hp.
  - apply list_elem_of_singleton in Hp as ->. constructor.
  - by apply elem_of_nil in Hp.
  - apply marks_ok_node in Hd as [Hk Hd]. cbn [marked] in Hp. apply list_elem_of_In, in_flat_map in Hp as ([k d] & Hin & Hp).
    rewrite <- !list_elem_of_In in *. apply elem_of_lmap in Hp as (q & -> & Hq). rewrite Forall_forall in IH, Hk, Hd.
    constructor; [apply (Hk _ Hin)|]. apply (IH _ Hin); [apply (Hd _ Hin)|done].
Qed.

(** Setting values that are a function of the key. *)
Lemma fold_mset_get {A} (f : A → str) (h : str → option json) qs r k :
  mget (fold_left (λ r q, mset r (f q) (h (f q))) qs r) k = if decide (k ∈ map f qs) then Some (h k) else mget r k.
Proof.
  revert r. induction qs as [|q qs IH]; intros r; cbn [fold_left map]; [by rewrite decide_False by apply not_elem_of_nil|].
  rewrite IH, mget_set. destruct (decide (k ∈ map f qs)) as [Hin|Hn]; [rewrite decide_True; [done|by right]|].
  destruct (decide (f q = k)) as [<-|Hne]; [rewrite decide_True; [done|by left]|].
  rewrite decide_False; [done|]. intros [->|?]%elem_of_cons; done.
Qed.

Lemma fold_mset_NoDup {A} (f : A → str) (h : A → option json) qs r : NoDup (map fst r) → NoDup (map fst (fold_left (λ r q, mset r (f q) (h q)) qs r)).
Proof. revert r. induction qs as [|q qs IH]; intros r Hr; [done|]. apply IH. rewrite mset_keys. by apply set_add_NoDup. Qed.

(** What is collected: the value of each marked path, under its option name. *)
Lemma collected d data : marks_ok d → d ≠ MTrue →
  NoDup (map fst (collectDirtyValues d data)) ∧
  ∀ k, mget (collectDirtyValues d data) k =
    if decide (k ∈ map option_name (marked d)) then Some (value_at (split (js ".") k) (Some data)) else None.
Proof.
  intros Hd Hne. unfold collectDirtyValues. change None with (parent_of []) at 1 2. rewrite !collect_into_marked by (done || by right).
  split; [apply (fold_mset_NoDup option_name (λ q, value_at q (Some data))); constructor|]. intros k.
  assert (∀ q, q ∈ marked d → q ≠ []) as Hq.
  { clear -Hne. destruct d as [| |l]; [done|by intros q ?%elem_of_nil|]. intros q Hin. cbn [marked] in Hin.
    apply list_elem_of_In, in_flat_map in Hin as (kd & _ & Hin). rewrite <- list_elem_of_In in Hin. by apply elem_of_lmap in Hin as (q' & -> & _). }
  assert (fold_left (put_marked [] (Some data)) (marked d) []
    = fold_left (λ r q, mset r (option_name q) ((λ k, value_at (split (js ".") k) (Some data)) (option_name q))) (marked d) []) as ->.
  { assert (Forall path_ok (marked d)) as Hp by (apply Forall_forall; intros q Hin; split; [by apply Hq|by eapply marked_path_ok]).
    clear -Hp. generalize (@nil (str * option json)). induction Hp as [|q qs Hq _ IH]; intros r; [done|]. cbn [fold_left]. rewrite IH.
    unfold put_marked at 1. cbn [app]. by rewrite split_option_name. }
  exact (fold_mset_get option_name (λ k, value_at (split (js ".") k) (Some data)) (marked d) [] k).
Qed.

(** A value equals itself unless it is [NaN]. *)
Lemma defaultCompare_refl x : x ≠ JNum S754_nan → defaultCompare (Some x) (Some x) = true.
Proof.
  intros Hx. destruct x as [|b|n|s|l|o]; cbn [defaultCompare strict_eq is_composite andb orb].
  - done.
  - by destruct b.
  - rewrite num_eqb_refl; [done|]. by destruct n.
  - by rewrite bool_decide_true.
  - by rewrite bool_decide_true.
  - by rewrite bool_decide_true.
Qed.

(** What react-hook-form's marks are for: every changed field is marked, and only fields are. *)
Record tracks (d : marks) (defaults data : json) : Prop := {
  tracks_ok : marks_ok d;
  tracks_root : d ≠ MTrue;
  tracks_changes : ∀ p x, leaf_at p data = Some x → leaf_at p defaults ≠ Some x → p ∈ marked d;
  tracks_fields : ∀ p, p ∈ marked d → is_Some (leaf_at p data) }.

(** A form whose baseline is the options of its saved values. *)
Record form_consistent (f : SettingsForm) : Prop := {
  fc_defaults : ∃ o, defaultValuesRef f = JObj o ∧ form_ok (JObj o);
  fc_values : ∃ o, values f = JObj o ∧ form_ok (JObj o);
  fc_baseline : baselineRef f = flattenValues (defaultValuesRef f);
  fc_text : serializedDefaultsRef f = json_stringify (JObj (baselineRef f)) }.

(** ** The output of the resolver *)

Lemma obj_get_mapped (g : str → json → json) o k : obj_get k (map (λ kv, (fst kv, g (fst kv) (snd kv))) o) = g k <$> obj_get k o.
Proof. induction o as [|[k' v] o IH]; [done|]. cbn [map obj_get fst snd]. destruct (bool_decide (k = k')) eqn:E; [apply bool_decide_eq_true in E as ->; done|exact IH]. Qed.

Lemma below_spec k fields p : p ≠ [] → p ∈ below k fields ↔ (k :: p) ∈ fields.
Proof.
  intros Hp. unfold below. rewrite list_elem_of_In, in_flat_map. split.
  - intros (q & Hq%list_elem_of_In & Hin). destruct q as [|k' [|s q]]; [done..|]. destruct (bool_decide (k' = k)) eqn:E; [|done].
    apply bool_decide_eq_true in E as ->. destruct Hin as [<-|[]]. done.
  - intros H. exists (k :: p). split; [by apply list_elem_of_In|]. destruct p as [|s p]; [done|]. rewrite bool_decide_true by done. by left.
Qed.

Definition coerced (fields : list (list str)) (p : list str) (x : json) : json := if bool_decide (p ∈ fields) then JNum (to_number x) else x.

Definition coerce_field (fields : list (list str)) (k : str) (v : json) : json :=
  if isPlainObject v then coerce_numbers (below k fields) v else if bool_decide ([k] ∈ fields) then JNum (to_number v) else v.

Lemma coerce_node fields o : coerce_numbers fields (JObj o) = JObj (map (λ kv, (fst kv, coerce_field fields (fst kv) (snd kv))) o).
Proof. reflexivity. Qed.

(** The fields of the output are those of the form. *)
Lemma coerce_leaf p : ∀ fields o, leaf_at p (coerce_numbers fields (JObj o)) = coerced fields p <$> leaf_at p (JObj o).
Proof.
  induction p as [|k p IH]; intros fields o; [done|]. rewrite coerce_node. cbn [leaf_at]. rewrite (obj_get_mapped (coerce_field fields)).
  destruct (obj_get k o) as [x|]; [|done]. cbn [fmap option_fmap option_map mbind option_bind].
  destruct x as [|b|n|s|l|o'];
    [unfold coerce_field; cbn [isPlainObject]; destruct p as [|k' p]; [unfold coerced; destruct (bool_decide _); reflexivity|cbn [leaf_at]; by destruct (bool_decide _)]..|].
  change (coerce_field fields k (JObj o')) with (coerce_numbers (below k fields) (JObj o')).
  rewrite IH. destruct p as [|k' p]; [done|]. destruct (leaf_at (k' :: p) (JObj o')) as [y|]; [|done]. cbn [fmap option_fmap option_map]. f_equal.
  unfold coerced. assert (k' :: p ≠ []) as Hne by discriminate. by rewrite (bool_decide_ext _ _ (below_spec k fields (k' :: p) Hne)).
Qed.

Lemma coerce_form_ok v : ∀ fields, form_ok v → form_ok (coerce_numbers fields v).
Proof.
  induction v as [|b|n|s|l _|o IH] using json_ind; intros fields Hv; [by apply form_leaf..|].
  apply form_ok_node in Hv as (H1 & H2 & H3). apply form_node.
  - by rewrite map_map.
  - apply Forall_map. eapply Forall_impl; [exact H2|]. done.
  - apply Forall_map, Forall_forall. intros [k x] Hin. rewrite Forall_forall in IH, H3. specialize (IH _ Hin). specialize (H3 _ Hin). cbn [fst snd] in *.
    change (form_ok (coerce_field fields k x)). unfold coerce_field. destruct (isPlainObject x) eqn:Ex; [by apply IH|]. destruct (bool_decide _); by apply form_leaf.
Qed.

Lemma nan_free_leaf p : ∀ v x, nan_free v = true → leaf_at p v = Some x → x ≠ JNum S754_nan.
Proof.
  induction p as [|k p IH]; intros v x Hv Hl.
  - cbn [leaf_at] in Hl. destruct (isPlainObject v); [discriminate|]. injection Hl as <-. by intros ->.
  - destruct v as [| | | | |o]; try discriminate. cbn [leaf_at] in Hl. destruct (obj_get k o) as [y|] eqn:E; [|discriminate].
    apply (IH y); [|done]. cbn [nan_free] in Hv. rewrite forallb_forall in Hv. apply obj_get_elem, list_elem_of_In in E. exact (Hv _ E).
Qed.

Lemma resolver_output fields refuses v data : resolver fields refuses v = Some data → data = coerce_numbers fields v ∧ nan_free data = true.
Proof. unfold resolver. destruct (nan_free _) eqn:E; [|done]. cbn [andb]. destruct (refuses _); [done|]. by intros [= <-]. Qed.

Lemma coerce_none v : coerce_numbers [] v = v.
Proof.
  induction v as [|b|n|s|l _|o IH] using json_ind; try done. cbn [coerce_numbers]. f_equal.
  induction IH as [|[k x] o Hx _ IHo]; [done|]. cbn [map fst snd] in *. rewrite IHo. f_equal. f_equal. by destruct x.
Qed.

(** ** What the sections write *)

Lemma pricing_writes_spec changed k t : (k, t) ∈ pricing_writes changed ↔ ∃ x, (k, Some x) ∈ changed ∧ pricing_text x = Some t.
Proof.
  unfold pricing_writes. rewrite list_elem_of_In, in_flat_map. split.
  - intros ([k' v] & Hin%list_elem_of_In & Hw). cbn [fst snd] in Hw. destruct v as [x|]; [|done]. destruct (pricing_text x) as [t'|] eqn:E; [|done].
    destruct Hw as [[= -> ->]|[]]. by exists x.
  - intros (x & Hin & E). exists (k, Some x). split; [by apply list_elem_of_In|]. cbn [fst snd]. rewrite E. by left.
Qed.

Lemma system_info_writes_spec changed k t : (k, t) ∈ system_info_writes changed ↔ ∃ v, (k, v) ∈ changed ∧
  t = if decide (k = js "ServerAddress") then without_slashes (normalizeValue v) else normalizeValue v.
Proof.
  unfold system_info_writes. rewrite elem_of_lmap. split.
  - intros ([k' v] & [= -> ->] & Hin). exists v. split; [done|]. cbn [fst snd]. destruct (decide (k' = js "ServerAddress")) as [E|E];
      [by rewrite bool_decide_true|by rewrite bool_decide_false].
  - intros (v & Hin & ->). exists (k, v). split; [|done]. cbn [fst snd]. destruct (decide (k = js "ServerAddress")) as [E|E];
      [by rewrite bool_decide_true|by rewrite bool_decide_false].
Qed.

(** The options of number fields are numbers. *)
Definition numbers_stored (fields : list (list str)) (defaults : json) : Prop :=
  ∀ p x, p ∈ fields → leaf_at p defaults = Some x → ∃ n, x = JNum n.

(** ** Saving *)

Lemma changed_get f d data k v : marks_ok d → d ≠ MTrue →
  mget (changed_entries defaultCompare d data f) k = Some v ↔
  mget (collectDirtyValues d data) k = Some v ∧ defaultCompare v (obj_get k (baselineRef f)) = false.
Proof.
  intros Hd Hne. destruct (collected d data Hd Hne) as [Hn _]. unfold changed_entries.
  assert (∀ l : list (str * option json), NoDup (map fst l) →
    NoDup (map fst (List.filter (λ kv, negb (defaultCompare (snd kv) (obj_get (fst kv) (baselineRef f)))) l))) as Hf.
  { intros l Hl. eapply sublist_NoDup; [exact Hl|]. apply (fmap_sublist fst), bfilter_sublist. }
  rewrite !mget_in by auto. rewrite elem_of_bfilter. cbn [fst snd]. by rewrite negb_true_iff.
Qed.

(** What is handed on: the fields of the resolver's output that differ from the stored options. *)
Lemma settings_changes f d fields refuses data : form_consistent f → tracks d (defaultValuesRef f) (values f) →
  numbers_stored fields (defaultValuesRef f) → resolver fields refuses (values f) = Some data →
  let changed := changed_entries defaultCompare d data f in
  ∀ k v, mget changed k = Some v ↔
     ∃ p x, path_ok p ∧ k = option_name p ∧ v = Some x ∧ leaf_at p data = Some x ∧ defaultCompare (Some x) (obj_get k (baselineRef f)) = false.
Proof.
  intros [(od & Ed & Hd) (ov & Ev & Hv) Hb _] [Hok Hroot Hch Hfi] Hnum [Edata Hnan]%resolver_output changed.
  destruct (collected d data Hok Hroot) as [Hn Hget].
  assert (∀ p, leaf_at p data = coerced fields p <$> leaf_at p (values f)) as Hdata by (intros p; rewrite Edata, Ev; apply coerce_leaf).
  assert (∀ p x, leaf_at p data = Some x → path_ok p) as Hpath.
  { intros p x Hl. rewrite Hdata in Hl. destruct (leaf_at p (values f)) as [y|] eqn:Ey; [|done]. rewrite Ev in Ey. split; [by eapply leaf_nonempty|by eapply leaf_path_ok]. }
  intros k v. split.
  - intros H. apply changed_get in H as [Hm Hc]; [|done|done]. rewrite Hget in Hm.
    destruct (decide (k ∈ map option_name (marked d))) as [Hin|]; [|done]. injection Hm as <-.
    apply elem_of_lmap in Hin as (p & -> & Hp). destruct (Hfi p Hp) as [y Hy].
    assert (leaf_at p data = Some (coerced fields p y)) as Hx by by rewrite Hdata, Hy.
    pose proof (Hpath p _ Hx) as Hpo. rewrite split_option_name, (leaf_value p _ _ Hx) in * by done. by exists p, (coerced fields p y).
  - intros (p & x & Hp & -> & -> & Hl & Hc). apply changed_get; [done|done|]. split; [|done]. rewrite Hget, decide_True.
    + rewrite split_option_name by done. f_equal. by apply leaf_value.
    + apply elem_of_lmap. exists p. split; [done|]. pose proof Hl as Hl'. rewrite Hdata in Hl'. destruct (leaf_at p (values f)) as [y|] eqn:Ey; [|done].
      injection Hl' as Ex. apply (Hch p y Ey). intros Hsame.
      assert (x = y) as ->.
      { unfold coerced in Ex. destruct (bool_decide (p ∈ fields)) eqn:Eb; [|done]. apply bool_decide_eq_true in Eb.
        destruct (Hnum p y Eb Hsame) as [n ->]. by symmetry. }
      assert (obj_get (option_name p) (baselineRef f) = Some y) as E by (rewrite Hb, Ed, flatten_get, split_option_name by done; by rewrite <- Ed).
      rewrite E, defaultCompare_refl in Hc; [done|]. by apply (nan_free_leaf p data).
Qed.

(** The stored options after options were written as they are. *)
Definition written (stored : obj) (writes : list (str * option json)) (k : str) : option json :=
  match mget writes k with Some v => v | None => obj_get k stored end.

Lemma written_changes f d fields refuses data : form_consistent f → tracks d (defaultValuesRef f) (values f) →
  numbers_stored fields (defaultValuesRef f) → resolver fields refuses (values f) = Some data →
  ∀ p x, leaf_at p data = Some x → defaultCompare (Some x) (written (baselineRef f) (changed_entries defaultCompare d data f) (option_name p)) = true.
Proof.
  intros Hf Ht Hnum Hr p x Hl. pose proof (settings_changes f d fields refuses data Hf Ht Hnum Hr) as Hc. cbv zeta in Hc.
  apply resolver_output in Hr as [Edata Hnan]. destruct Hf as [_ (ov & Ev & Hv) _ _].
  assert (∀ p x, leaf_at p data = Some x → path_ok p) as Hpath.
  { intros q y Hy. rewrite Edata, Ev in Hy. pose proof (coerce_form_ok _ fields Hv) as Hok. split; [|by eapply leaf_path_ok]. rewrite coerce_node in Hy. by eapply leaf_nonempty. }
  unfold written. destruct (mget (changed_entries defaultCompare d data f) (option_name p)) as [v|] eqn:Em.
  - apply Hc in Em as (q & y & Hq & E & -> & Hy & _). apply option_name_inj in E as <-; [|by apply (Hpath p x)|done].
    rewrite Hl in Hy. injection Hy as <-. by apply defaultCompare_refl, (nan_free_leaf p data).
  - destruct (defaultCompare (Some x) (obj_get (option_name p) (baselineRef f))) eqn:Ec; [done|].
    assert (mget (changed_entries defaultCompare d data f) (option_name p) = Some (Some x)) as E; [|congruence].
    apply Hc. exists p, x. split_and!; try done. by apply (Hpath p x).
Qed.

(** C31: Given that the form library marks every field that was changed and that the options of number fields are stored as numbers: saving a settings form hands on, under their dotted names, exactly the fields whose value, with the number fields of the section converted to
    numbers, differs from the stored option: with no such field the form stays as it is, and once the section has written them the form
    shows the converted values and takes them for the stored ones.  For the quota section, which writes what it is handed as it is, the stored
    options then are the converted values of the form; the section of the prices writes the same values as texts, the section of the name
    and the address texts as well, the address without slashes at its end. *)
Theorem settings_saved_exactly f d fields refuses data : form_consistent f → tracks d (defaultValuesRef f) (values f) →
  numbers_stored fields (defaultValuesRef f) → resolver fields refuses (values f) = Some data →
  let changed := fst (handleSubmit defaultCompare d data true f) in
  let f' := snd (handleSubmit defaultCompare d data true f) in
  (∀ p, leaf_at p data = coerced fields p <$> leaf_at p (values f)) ∧
  (∀ k v, mget changed k = Some v ↔
     ∃ p x, path_ok p ∧ k = option_name p ∧ v = Some x ∧ leaf_at p data = Some x ∧ defaultCompare (Some x) (obj_get k (baselineRef f)) = false) ∧
  (if changed then f' = f else values f' = data ∧ defaultValuesRef f' = data ∧ baselineRef f' = flattenValues data) ∧
  (∀ p x, leaf_at p data = Some x → defaultCompare (Some x) (written (baselineRef f) (quota_writes changed) (option_name p)) = true) ∧
  (∀ k t, (k, t) ∈ pricing_writes changed ↔ ∃ x, (k, Some x) ∈ changed ∧ pricing_text x = Some t) ∧
  (∀ k t, (k, t) ∈ system_info_writes changed ↔ ∃ v, (k, v) ∈ changed ∧
     t = if decide (k = js "ServerAddress") then without_slashes (normalizeValue v) else normalizeValue v).
Proof.
  intros Hf Ht Hnum Hr. cbv zeta.
  assert (fst (handleSubmit defaultCompare d data true f) = changed_entries defaultCompare d data f) as -> by (unfold handleSubmit; by destruct (changed_entries _ _ _ _)).
  split_and!.
  - intros p. apply resolver_output in Hr as [-> _]. destruct Hf as [_ (ov & Ev & _) _ _]. rewrite Ev. apply coerce_leaf.
  - by apply (settings_changes f d fields refuses data).
  - unfold handleSubmit. by destruct (changed_entries _ _ _ _).
  - by apply (written_changes f d fields refuses data).
  - intros k t. apply pricing_writes_spec.
  - intros k t. apply system_info_writes_spec.
Qed.

(** ** Runs of a form *)

Inductive form_event := Defaults (o : obj) | Input (o : obj) | Submit (d : marks) (fields : list (list str)) (refuses : json → bool) (accepted : bool) | Reset.

Definition form_step (f : SettingsForm) (e : form_event) : SettingsForm :=
  match e with
  | Defaults o => defaults_effect (JObj o) f
  | Input o => form_input (JObj o) f
  | Submit d fields refuses accepted =>
      match resolver fields refuses (values f) with Some data => snd (handleSubmit defaultCompare d data accepted f) | None => f end
  | Reset => handleReset f
  end.

Definition form_event_ok (e : form_event) : Prop :=
  match e with Defaults o => options_ok o | Input o => form_ok (JObj o) | _ => True end.

Lemma expand_object o : options_ok o → ∃ n, expandDotPaths (JObj o) = JObj n ∧ form_ok (JObj n).
Proof.
  intros Ho. pose proof (expand_form_ok o Ho) as H. rewrite (expand_simple o (opts_simple o Ho)) in *. by eexists.
Qed.

Lemma form_start_consistent o : options_ok o → form_consistent (useSettingsForm (JObj o)).
Proof. intros (n & E & Hn)%expand_object. unfold useSettingsForm. rewrite E. split; cbn; eauto. Qed.

Lemma output_object fields o : form_ok (JObj o) → ∃ o', coerce_numbers fields (JObj o) = JObj o' ∧ form_ok (JObj o').
Proof. intros H. pose proof (coerce_form_ok _ fields H) as Hc. rewrite coerce_node in *. by eexists. Qed.

Lemma form_step_consistent f e : form_consistent f → form_event_ok e → form_consistent (form_step f e).
Proof.
  intros [Hd Hv Hb Ht] He. destruct e as [o|o|d fields refuses accepted|]; cbn [form_step].
  - unfold defaults_effect. case_bool_decide; [by split|]. destruct (expand_object o He) as (n & E & Hn). rewrite E. split; cbn; eauto.
  - split; cbn; eauto.
  - destruct (resolver _ _ _) as [data|] eqn:Er; [|by split]. apply resolver_output in Er as [-> _]. unfold handleSubmit.
    destruct (changed_entries _ _ _ _); [by split|]. destruct accepted; [|by split].
    destruct Hv as (ov & -> & Hv). destruct (output_object fields ov Hv) as (o' & -> & Ho'). split; cbn; eauto.
  - by split.
Qed.

(** Along every run of new options, input, saving and resetting, the form's baseline is the options of its saved values, and right after a
    save that was accepted nothing is left to save. *)
Lemma form_stays_consistent o es : options_ok o → Forall form_event_ok es →
  let f := fold_left form_step es (useSettingsForm (JObj o)) in
  form_consistent f ∧
  ∀ d d' fields refuses data, resolver fields refuses (values f) = Some data →
    fst (handleSubmit defaultCompare d data true f) ≠ [] →
    let f' := snd (handleSubmit defaultCompare d data true f) in
    tracks d' (defaultValuesRef f') (values f') → fst (handleSubmit defaultCompare d' (values f') true f') = [].
Proof.
  intros Ho Hes f. assert (form_consistent f) as Hf.
  { unfold f. generalize (form_start_consistent o Ho). generalize (useSettingsForm (JObj o)).
    induction Hes as [|e es He _ IH]; intros g Hg; [done|]. by apply IH, form_step_consistent. }
  split; [done|]. intros d d' fields refuses data Hr Hne f' Ht'.
  pose proof (form_step_consistent f (Submit d fields refuses true) Hf I) as Hf'. cbn [form_step] in Hf'. rewrite Hr in Hf'. fold f' in Hf'.
  assert (values f' = data ∧ defaultValuesRef f' = data) as [Ev Ed] by (unfold f', handleSubmit in *; by destruct (changed_entries _ _ _ _)).
  pose proof (proj2 (resolver_output _ _ _ _ Hr)) as Hnan.
  assert (resolver [] (λ _, false) (values f') = Some (values f')) as Hr' by (unfold resolver; by rewrite coerce_none, Ev, Hnan).
  assert (changed_entries defaultCompare d' (values f') f' = []) as E; [|unfold handleSubmit; by rewrite E].
  pose proof (settings_changes f' d' [] (λ _, false) (values f') Hf' Ht' ltac:(by intros ? ? ?%elem_of_nil) Hr') as Hc. cbv zeta in Hc.
  destruct (changed_entries defaultCompare d' (values f') f') as [|[k v] l] eqn:E; [done|]. exfalso.
  destruct (proj1 (Hc k v)) as (p & x & Hp & -> & _ & Hl & Hcmp); [cbn; by rewrite decide_True|].
  destruct Hf' as [(od & Eo & Hod) _ Hb _]. rewrite Hb, Eo, flatten_get, split_option_name in Hcmp by done.
  rewrite <- Eo, Ed, <- Ev, Hl, defaultCompare_refl in Hcmp; [done|]. rewrite Ev in Hl. by apply (nan_free_leaf p data).
Qed.

(** ** Examples *)

(** A check of the side condition on names. *)
Definition prefix_free_check (ks : list str) : bool :=
  forallb (λ k, forallb (λ k', bool_decide (k = k') || negb (bool_decide (split (js ".") k `prefix_of` split (js ".") k'))) ks) ks.

Lemma prefix_free_checked ks : prefix_free_check ks = true → prefix_free ks.
Proof.
  unfold prefix_free_check. rewrite forallb_forall. intros H k k' Hk Hk' Hne Hp. apply list_elem_of_In in Hk, Hk'.
  pose proof (proj1 (forallb_forall _ _) (H k Hk) k' Hk') as Hc. cbn beta in Hc.
  rewrite bool_decide_false, bool_decide_true in Hc by done. done.
Qed.

Definition dotless_check (s : str) : bool := bool_decide (46%N ∉ s) && truthy s.

Lemma dotless_checked s : dotless_check s = true → dotless s.
Proof. unfold dotless_check. rewrite andb_true_iff. intros [H1%bool_decide_eq_true H2]. split; [done|by destruct s]. Qed.

Definition sample_options : obj :=
  [(js "SystemName", JStr (js "A")); (js "legal.user_agreement", JStr []); (js "legal.privacy_policy", JStr (js "p"))].

Lemma sample_options_ok : options_ok sample_options.
Proof.
  split.
  - apply (bool_decide_eq_true_1 (NoDup _)). vm_compute. reflexivity.
  - repeat constructor.
  - repeat (apply Forall_cons_2; [apply Forall_forall; intros s Hs; apply dotless_checked; revert s Hs; apply Forall_forall;
      vm_compute; repeat constructor|]). constructor.
  - apply prefix_free_checked. vm_compute. reflexivity.
Qed.

Lemma options_round_trip_witness :
  obj_get (js "legal.privacy_policy") (flattenValues (expandDotPaths (JObj sample_options))) = Some (JStr (js "p")).
Proof.
  rewrite (options_round_trip sample_options (js "legal.privacy_policy") sample_options_ok). vm_compute. reflexivity.
Defined.

(** A quota is emptied, which stands for nought, and the link to the documentation is changed. *)
Definition quota_options : obj :=
  [(js "QuotaForNewUser", JNum (num_of_Z 5)); (js "TopUpLink", JStr []); (js "general_setting.docs_link", JStr (js "d"))].

Lemma quota_options_ok : options_ok quota_options.
Proof.
  split.
  - apply (bool_decide_eq_true_1 (NoDup _)). vm_compute. reflexivity.
  - repeat constructor.
  - repeat (apply Forall_cons_2; [apply Forall_forall; intros s Hs; apply dotless_checked; revert s Hs; apply Forall_forall;
      vm_compute; repeat constructor|]). constructor.
  - apply prefix_free_checked. vm_compute. reflexivity.
Qed.

Definition quota_input : obj :=
  [(js "QuotaForNewUser", JStr []); (js "TopUpLink", JStr []); (js "general_setting", JObj [(js "docs_link", JStr (js "e"))])].

Definition quota_form : SettingsForm := form_input (JObj quota_input) (useSettingsForm (JObj quota_options)).

Lemma quota_input_ok : form_ok (JObj quota_input).
Proof.
  apply form_node.
  - apply (bool_decide_eq_true_1 (NoDup _)). vm_compute. reflexivity.
  - repeat (apply Forall_cons_2; [apply dotless_checked; vm_compute; reflexivity|]). constructor.
  - do 2 (apply Forall_cons_2; [by apply form_leaf|]). apply Forall_cons_2; [|constructor]. apply form_node.
    + apply (bool_decide_eq_true_1 (NoDup _)). vm_compute. reflexivity.
    + repeat (apply Forall_cons_2; [apply dotless_checked; vm_compute; reflexivity|]). constructor.
    + repeat (apply Forall_cons_2; [by apply form_leaf|]). constructor.
Qed.

(** A statement about every leaf is one about the list of leaves. *)
Lemma leaves_forall (P : list str → json → Prop) v : form_ok v → Forall (λ px, P (fst px) (snd px)) (leaves v) → ∀ p x, leaf_at p v = Some x → P p x.
Proof. intros Hv HP p x Hl%leaves_spec; [|done]. rewrite Forall_forall in HP. exact (HP (p, x) Hl). Qed.

Definition quota_marks : marks := MNode [(js "QuotaForNewUser", MTrue); (js "general_setting", MNode [(js "docs_link", MTrue)])].

Lemma quota_tracks : tracks quota_marks (defaultValuesRef quota_form) (values quota_form).
Proof.
  split.
  - apply ok_node; (apply Forall_cons_2; [|apply Forall_singleton]); [apply dotless_checked; vm_compute; reflexivity|apply dotless_checked; vm_compute; reflexivity|constructor|].
    apply ok_node; apply Forall_singleton; [|constructor]. apply dotless_checked. vm_compute. reflexivity.
  - discriminate.
  - apply (leaves_forall (λ p x, leaf_at p (defaultValuesRef quota_form) ≠ Some x → p ∈ marked quota_marks) _ quota_input_ok).
    apply Forall_cons_2; [intros _; by left|]. apply Forall_cons_2; [intros H; destruct H; vm_compute; reflexivity|].
    apply Forall_cons_2; [intros _; right; by left|constructor].
  - intros p Hp. cbn [marked quota_marks flat_map map app fst snd] in Hp. apply elem_of_cons in Hp as [->|Hp%list_elem_of_singleton].
    + exists (JStr []). vm_compute. reflexivity.
    + subst p. exists (JStr (js "e")). vm_compute. reflexivity.
Qed.

Definition quota_data : json :=
  JObj [(js "QuotaForNewUser", JNum (num_of_Z 0)); (js "TopUpLink", JStr []); (js "general_setting", JObj [(js "docs_link", JStr (js "e"))])].

Lemma settings_saved_exactly_witness :
  let changed := fst (handleSubmit defaultCompare quota_marks quota_data true quota_form) in
  changed = [(js "QuotaForNewUser", Some (JNum (num_of_Z 0))); (js "general_setting.docs_link", Some (JStr (js "e")))] ∧
  ∀ p x, leaf_at p quota_data = Some x → defaultCompare (Some x) (written (baselineRef quota_form) (quota_writes changed) (option_name p)) = true.
Proof.
  assert (form_consistent quota_form) as Hc.
  { apply (form_step_consistent (useSettingsForm (JObj quota_options)) (Input quota_input)); [|exact quota_input_ok].
    apply form_start_consistent, quota_options_ok. }
  split; [vm_compute; reflexivity|].
  apply (settings_saved_exactly quota_form quota_marks quota_numbers (λ _, false) quota_data Hc quota_tracks).
  - intros p x Hp Hl. unfold quota_numbers in Hp. rewrite !elem_of_cons, elem_of_nil in Hp. destruct Hp as [->|[->|[->|[->|[]]]]];
      [|exfalso; vm_compute in Hl; discriminate Hl..]. exists (num_of_Z 5). vm_compute in Hl. injection Hl as <-. vm_compute. reflexivity.
  - vm_compute. reflexivity.
Defined.

(** New options from the server replace what was typed, although the hook is documented not to reset what the user enters. *)
Theorem new_defaults_overwrite_input o input f :
  json_stringify (JObj (flattenValues (expandDotPaths (JObj o)))) ≠ serializedDefaultsRef f →
  values (defaults_effect (JObj o) (form_input input f)) = expandDotPaths (JObj o).
Proof. intros H. unfold defaults_effect. cbn [serializedDefaultsRef form_input]. by rewrite bool_decide_false. Qed.
