(* ===== verification/TableUrlState.v ===== *)
(** * Tables and the address bar

    [hooks/use-table-url-state.ts]: the page, the page size, the search text and the filters of a table are kept in the search
    parameters of the address.  Search parameters are an object; a parameter that is set to [undefined] disappears.

    [serialize] and [deserialize] of a column are functions given by the table. *)

From S2P Require Import Prelude JsString JsNumber JsNumberFacts JsInteger Json JsonFacts.

(** [type] is optional. *)
Inductive FilterType := string_type | array_type.

Record ColumnConfig := {
  columnId : str;
  searchKey : str;
  ftype : option FilterType;
  serialize : option (json → option json);
  deserialize : option (option json → option json) }.

Record TableConfig := {
  pageKey : str;
  pageSizeKey : str;
  defaultPage : num;
  defaultPageSize : num;
  globalFilterKey : str;
  globalFilterEnabled : bool;
  trimGlobal : bool;
  columnFiltersCfg : list ColumnConfig }.

(** The configuration with its defaults filled in *)
Definition table_config (page size : option str) (dPage dSize : option num) (filterKey : option str) (enabled trims : option bool)
    (columns : list ColumnConfig) : TableConfig := {|
  pageKey := default (js "page") page;
  pageSizeKey := default (js "pageSize") size;
  defaultPage := default (num_of_Z 1) dPage;
  defaultPageSize := default (num_of_Z 20) dSize;
  globalFilterKey := default (js "filter") filterKey;
  globalFilterEnabled := default true enabled;
  trimGlobal := default true trims;
  columnFiltersCfg := columns |}.

Record ColumnFilter := { id : str; value : json }.
Record PaginationState := { pageIndex : num; pageSize : num }.

Definition search_set (k : str) (v : option json) (search : obj) : obj :=
  match v with Some x => obj_set k x search | None => obj_delete k search end.

(** [cfg.type === 'string']; anything else is read as an array *)
Definition is_string_type (cfg : ColumnConfig) : bool := match ftype cfg with Some string_type => true | _ => false end.

Definition deserialized (cfg : ColumnConfig) (raw : option json) : option json :=
  match deserialize cfg with Some f => f raw | None => raw end.
Definition serialized (cfg : ColumnConfig) (v : json) : option json :=
  match serialize cfg with Some f => f v | None => Some v end.

(** One column's filter in the address. *)
Definition filter_of_search (search : obj) (cfg : ColumnConfig) : option ColumnFilter :=
  let raw := obj_get (searchKey cfg) search in
  if is_string_type cfg then
    match coalesce (deserialized cfg raw) (Some (JStr [])) with
    | Some (JStr v) => if truthy (trim v) then Some {| id := columnId cfg; value := JStr v |} else None
    | _ => None
    end
  else
    match coalesce (deserialized cfg raw) (Some (JArr [])) with
    | Some (JArr (x :: l)) => Some {| id := columnId cfg; value := JArr (x :: l) |}
    | _ => None
    end.

Definition initialColumnFilters (cfg : TableConfig) (search : obj) : list ColumnFilter := omap (filter_of_search search) (columnFiltersCfg cfg).

Definition number_or (v : option json) (d : num) : num := match v with Some (JNum x) => x | _ => d end.

Definition pagination (cfg : TableConfig) (search : obj) : PaginationState :=
  let pageNum := number_or (obj_get (pageKey cfg) search) (defaultPage cfg) in
  {| pageIndex := math_max pzero (nsub pageNum (num_of_Z 1));
     pageSize := number_or (obj_get (pageSizeKey cfg) search) (defaultPageSize cfg) |}.

Definition initialGlobalFilter (cfg : TableConfig) (search : obj) : option str :=
  if globalFilterEnabled cfg
  then Some (match obj_get (globalFilterKey cfg) search with Some (JStr raw) => raw | _ => [] end)
  else None.

(** ** The state of the hook and its handlers *)

Record TableState := { search : obj; columnFilters : list ColumnFilter; globalFilter : option str }.

Definition useTableUrlState (cfg : TableConfig) (s : obj) : TableState :=
  {| search := s; columnFilters := initialColumnFilters cfg s; globalFilter := initialGlobalFilter cfg s |}.

(** New search parameters, by [navigate] or from outside: the effect on [search] sets the column filters. *)
Definition go_to (cfg : TableConfig) (s : obj) (st : TableState) : TableState :=
  if bool_decide (s = search st) then st
  else {| search := s; columnFilters := initialColumnFilters cfg s; globalFilter := globalFilter st |}.

Definition onPaginationChange (cfg : TableConfig) (next : PaginationState) (st : TableState) : TableState :=
  let nextPage := nadd (pageIndex next) (num_of_Z 1) in
  go_to cfg (search_set (pageSizeKey cfg) (Some (JNum (pageSize next)))
               (search_set (pageKey cfg) (if nle nextPage (defaultPage cfg) then None else Some (JNum nextPage)) (search st))) st.

Definition onGlobalFilterChange (cfg : TableConfig) (next : str) (st : TableState) : TableState :=
  if globalFilterEnabled cfg then
    let v := if trimGlobal cfg then trim next else next in
    go_to cfg (search_set (globalFilterKey cfg) (if truthy v then Some (JStr v) else None) (search_set (pageKey cfg) None (search st)))
      {| search := search st; columnFilters := columnFilters st; globalFilter := Some v |}
  else st.

(** The parameter that one column writes *)
Definition patch_of (next : list ColumnFilter) (cfg : ColumnConfig) : option json :=
  let found := find (λ f, bool_decide (id f = columnId cfg)) next in
  if is_string_type cfg then
    let v := match value <$> found with Some (JStr s) => s | _ => [] end in
    if truthy (trim v) then serialized cfg (JStr v) else None
  else
    match value <$> found with
    | Some (JArr (x :: l)) => serialized cfg (JArr (x :: l))
    | _ => None
    end.

Definition apply_patch (cfg : TableConfig) (next : list ColumnFilter) (s : obj) : obj :=
  fold_left (λ s c, search_set (searchKey c) (patch_of next c) s) (columnFiltersCfg cfg) s.

Definition onColumnFiltersChange (cfg : TableConfig) (next : list ColumnFilter) (st : TableState) : TableState :=
  go_to cfg (apply_patch cfg next (search_set (pageKey cfg) None (search st)))
    {| search := search st; columnFilters := next; globalFilter := globalFilter st |}.

Inductive ResetTo := reset_first | reset_last.

Definition ensurePageInRange (cfg : TableConfig) (pageCount : num) (resetTo : ResetTo) (st : TableState) : TableState :=
  let pageNum := number_or (obj_get (pageKey cfg) (search st)) (defaultPage cfg) in
  if nlt pzero pageCount && nlt pageCount pageNum
  then go_to cfg (search_set (pageKey cfg) (match resetTo with reset_last => Some (JNum pageCount) | reset_first => None end) (search st)) st
  else st.

(** Runs of a table; [Visit] is a change of the address from outside, such as the back button. *)
Inductive TableEvent :=
  | SetPage (next : PaginationState)
  | SetSearch (next : str)
  | SetFilters (next : list ColumnFilter)
  | Ensure (pageCount : num) (resetTo : ResetTo)
  | Visit (s : obj).

Definition table_step (cfg : TableConfig) (st : TableState) (e : TableEvent) : TableState :=
  match e with
  | SetPage next => onPaginationChange cfg next st
  | SetSearch next => onGlobalFilterChange cfg next st
  | SetFilters next => onColumnFiltersChange cfg next st
  | Ensure n r => ensurePageInRange cfg n r st
  | Visit s => go_to cfg s st
  end.

(** * Properties of tables in the address bar

    Filters, page and page size that a table writes into the address are read back from it; the page is kept in range; no handler
    touches parameters that are not its own. *)


Lemma search_get k k' v s : obj_get k' (search_set k v s) = if decide (k' = k) then v else obj_get k' s.
Proof.
  destruct v as [x|]; cbn [search_set]; [rewrite obj_get_set|rewrite obj_get_delete]; (case_decide;
    [by rewrite bool_decide_true|by rewrite bool_decide_false]).
Qed.

Lemma search_go_to cfg s st : search (go_to cfg s st) = s.
Proof. unfold go_to. by case_bool_decide. Qed.

(** ** Filters *)

(** What a table must promise: parameters of their own for the columns, and texts that read back. *)
Definition empty_filter (cfg : ColumnConfig) : Prop :=
  match deserialized cfg None with
  | None | Some JNull | Some (JArr []) => True
  | Some (JStr s) => is_string_type cfg = true → trim s = []
  | Some (JArr _) => is_string_type cfg = true
  | _ => True
  end.

Record config_ok (cfg : TableConfig) : Prop := {
  cfg_keys : NoDup (map searchKey (columnFiltersCfg cfg));
  cfg_page : pageKey cfg ∉ map searchKey (columnFiltersCfg cfg);
  cfg_codec : ∀ c v, c ∈ columnFiltersCfg cfg → deserialized c (serialized c v) = Some v;
  cfg_empty : ∀ c, c ∈ columnFiltersCfg cfg → empty_filter c }.

(** The filter of a column among those that were chosen, when it says something. *)
Definition kept (next : list ColumnFilter) (c : ColumnConfig) : option ColumnFilter :=
  match value <$> find (λ f, bool_decide (id f = columnId c)) next with
  | Some (JStr s) => if is_string_type c && truthy (trim s) then Some {| id := columnId c; value := JStr s |} else None
  | Some (JArr (x :: l)) => if is_string_type c then None else Some {| id := columnId c; value := JArr (x :: l) |}
  | _ => None
  end.

Lemma apply_patch_get next cs s k : NoDup (map searchKey cs) →
  (∀ c, c ∈ cs → searchKey c = k →
     obj_get k (fold_left (λ s c, search_set (searchKey c) (patch_of next c) s) cs s) = patch_of next c) ∧
  (k ∉ map searchKey cs → obj_get k (fold_left (λ s c, search_set (searchKey c) (patch_of next c) s) cs s) = obj_get k s).
Proof.
  revert s. induction cs as [|c cs IH]; intros s Hn; [split; [by intros c ?%elem_of_nil|done]|].
  cbn [map] in Hn. apply NoDup_cons in Hn as [Hc Hn]. cbn [fold_left map].
  destruct (IH (search_set (searchKey c) (patch_of next c) s) Hn) as [IH1 IH2]. split.
  - intros c' [->|Hin]%elem_of_cons Hk; [|by apply IH1]. subst k. rewrite IH2 by done. rewrite search_get. by rewrite decide_True.
  - intros [Hk Hks]%not_elem_of_cons. rewrite IH2 by done. rewrite search_get. by rewrite decide_False.
Qed.

(** What a column reads from the parameter that it wrote. *)
Lemma filter_of_patch next s c : (∀ v, deserialized c (serialized c v) = Some v) → empty_filter c →
  obj_get (searchKey c) s = patch_of next c → filter_of_search s c = kept next c.
Proof.
  intros Hc He Hs. unfold filter_of_search. rewrite Hs. unfold patch_of, kept.
  set (found := value <$> find _ next). clearbody found. unfold empty_filter in He.
  destruct (is_string_type c) eqn:Et.
  - assert (match coalesce (deserialized c None) (Some (JStr [])) with
            | Some (JStr v) => if truthy (trim v) then Some {| id := columnId c; value := JStr v |} else None
            | _ => None end = None) as Hnone.
    { destruct (deserialized c None) as [[| | |s0| |]|]; try done. cbn. by rewrite He. }
    destruct found as [[| | |s0|[|x l]|]|]; try exact Hnone.
    cbn [andb]. destruct (truthy (trim s0)) eqn:E; [|exact Hnone]. rewrite Hc. cbn. by rewrite E.
  - assert (match coalesce (deserialized c None) (Some (JArr [])) with
            | Some (JArr (x :: l)) => Some {| id := columnId c; value := JArr (x :: l) |}
            | _ => None end = None) as Hnone.
    { destruct (deserialized c None) as [[| | | |[|x l]|]|]; done. }
    destruct found as [[| | |s0|[|x l]|]|]; try exact Hnone. rewrite Hc. done.
Qed.

Lemma omap_ext_in {A B} (f g : A → option B) (l : list A) : (∀ x, x ∈ l → f x = g x) → omap f l = omap g l.
Proof.
  induction l as [|x l IH]; intros H; [done|]. cbn. rewrite (H x) by by left.
  rewrite IH; [done|]. intros y Hy. apply H. by right.
Qed.

(** C33: The filters that a table writes into the address are read back from it: after a change the address holds, and the table shows once the address has
    changed, exactly the chosen filters that say something, in the order of the columns; the table is back on its first page and every
    other parameter is as before. *)
Theorem filters_live_in_address cfg next st : config_ok cfg →
  let st' := onColumnFiltersChange cfg next st in
  initialColumnFilters cfg (search st') = omap (kept next) (columnFiltersCfg cfg) ∧
  (search st' ≠ search st → columnFilters st' = omap (kept next) (columnFiltersCfg cfg)) ∧
  pageIndex (pagination cfg (search st')) = math_max pzero (nsub (defaultPage cfg) (num_of_Z 1)) ∧
  (∀ k, k ≠ pageKey cfg → k ∉ map searchKey (columnFiltersCfg cfg) → obj_get k (search st') = obj_get k (search st)).
Proof.
  intros [Hk Hp Hc He] st'. assert (search st' = apply_patch cfg next (search_set (pageKey cfg) None (search st))) as Es by apply search_go_to.
  assert (initialColumnFilters cfg (search st') = omap (kept next) (columnFiltersCfg cfg)) as Hi.
  { unfold initialColumnFilters. apply omap_ext_in. intros c Hin. apply filter_of_patch; [intros v; by apply Hc|by apply He|].
    rewrite Es. unfold apply_patch. by apply (apply_patch_get next (columnFiltersCfg cfg) _ (searchKey c) Hk). }
  split; [done|]. split; [|split].
  - intros Hne. rewrite <- Hi. unfold st', onColumnFiltersChange, go_to in *. cbn [search] in *. case_bool_decide as E; [|done].
    destruct Hne. cbn. done.
  - unfold pagination. cbn [pageIndex]. rewrite Es. unfold apply_patch.
    rewrite (proj2 (apply_patch_get next (columnFiltersCfg cfg) _ (pageKey cfg) Hk) Hp), search_get. by rewrite decide_True.
  - intros k Hne Hnin. rewrite Es. unfold apply_patch.
    rewrite (proj2 (apply_patch_get next (columnFiltersCfg cfg) _ k Hk) Hnin), search_get. by rewrite decide_False.
Qed.

(** ** Pages *)

(** The page and the page size that are chosen are read back from the address, as long as the page is not before the default one, which the address
    cannot say: such a page becomes the default page. *)
Theorem page_read_back cfg st z d size : pageKey cfg ≠ pageSizeKey cfg → defaultPage cfg = num_of_Z d →
  (1 ≤ d < 2 ^ 52)%Z → (0 ≤ z < 2 ^ 52)%Z →
  pagination cfg (search (onPaginationChange cfg {| pageIndex := num_of_Z z; pageSize := size |} st)) =
    {| pageIndex := num_of_Z (if (z + 1 <=? d)%Z then d - 1 else z); pageSize := size |}.
Proof.
  intros Hne Hd Hd1 Hz. unfold onPaginationChange. rewrite search_go_to. cbn [pageIndex pageSize]. unfold pagination.
  rewrite !search_get. rewrite (decide_False (P := pageKey cfg = pageSizeKey cfg)), !decide_True by done.
  rewrite Hd, nadd_int, nle_int by (unfold safe; lia). change pzero with (num_of_Z 0).
  destruct (Z.leb_spec (z + 1) d); cbn [number_or]; rewrite ?Hd, nsub_int, math_max_int by (unfold safe; lia); f_equal; f_equal; lia.
Qed.

(** The page of a table in the address. *)
Definition page_number (cfg : TableConfig) (st : TableState) : num := number_or (obj_get (pageKey cfg) (search st)) (defaultPage cfg).

(** Once the number of pages is known the table is on one of them, unless its default page is none. *)
Theorem page_in_range cfg n p d r st : (0 < n < 2 ^ 53)%Z → (0 ≤ p < 2 ^ 53)%Z → (0 ≤ d ≤ n)%Z →
  defaultPage cfg = num_of_Z d → page_number cfg st = num_of_Z p →
  ∃ q, page_number cfg (ensurePageInRange cfg (num_of_Z n) r st) = num_of_Z q ∧ (q ≤ n)%Z ∧ ((p ≤ n)%Z → q = p).
Proof.
  intros Hn Hp Hd Ed Ep. unfold page_number in *. unfold ensurePageInRange. rewrite Ep. change pzero with (num_of_Z 0).
  rewrite !nlt_int by (unfold safe; lia). rewrite (proj2 (Z.ltb_lt 0 n)) by lia. cbn [andb].
  destruct (Z.ltb_spec n p).
  - rewrite search_go_to, search_get, decide_True by done. destruct r; cbn [number_or]; [exists d|exists n]; split_and!; (done || lia).
  - exists p. split_and!; (done || lia).
Qed.

(** ** Runs *)

(** Whenever the address changes, the filters on screen are those of the address. *)
Theorem address_decides_filters cfg st e :
  search (table_step cfg st e) ≠ search st →
  columnFilters (table_step cfg st e) = initialColumnFilters cfg (search (table_step cfg st e)).
Proof.
  assert (∀ s st0, search st0 = search st → search (go_to cfg s st0) ≠ search st →
    columnFilters (go_to cfg s st0) = initialColumnFilters cfg (search (go_to cfg s st0))) as Hgo.
  { intros s st0 E Hne. unfold go_to in *. case_bool_decide as E'; [|done]. rewrite E in Hne. done. }
  destruct e as [next|next|next|n r|s]; cbn [table_step]; intros Hne.
  - unfold onPaginationChange in *. by apply Hgo.
  - unfold onGlobalFilterChange in *. destruct (globalFilterEnabled cfg); [|done]. by apply Hgo.
  - unfold onColumnFiltersChange in *. by apply Hgo.
  - unfold ensurePageInRange in *. destruct (_ && _); [|done]. by apply Hgo.
  - by apply Hgo.
Qed.

(** The search text is not read from the address again: a visit of another address keeps the old text on screen. *)
Theorem visit_keeps_search_text cfg s st : globalFilter (go_to cfg s st) = globalFilter st.
Proof. unfold go_to. by case_bool_decide. Qed.

Lemma search_text_stale :
  let cfg := table_config None None None None None None None [] in
  let st := table_step cfg (useTableUrlState cfg [(js "filter", JStr (js "old"))]) (Visit [(js "filter", JStr (js "new"))]) in
  globalFilter st = Some (js "old") ∧ initialGlobalFilter cfg (search st) = Some (js "new").
Proof. split; vm_compute; reflexivity. Qed.

(** A column whose type is left out, which the hook's types allow for text columns, loses its text: it is read as an array. *)
Lemma untyped_text_filter_lost :
  let c := {| columnId := js "name"; searchKey := js "name"; ftype := None; serialize := None; deserialize := None |} in
  kept [{| id := js "name"; value := JStr (js "abc") |}] c = None ∧
  patch_of [{| id := js "name"; value := JStr (js "abc") |}] c = None.
Proof. split; vm_compute; reflexivity. Qed.

(** ** The table of users *)

Definition plain_column (column key : str) (t : FilterType) : ColumnConfig :=
  {| columnId := column; searchKey := key; ftype := Some t; serialize := None; deserialize := None |}.

Definition users_table : TableConfig :=
  table_config None None None None None None None
    [plain_column (js "status") (js "status") array_type; plain_column (js "role") (js "role") array_type;
     plain_column (js "group") (js "group") string_type].

Lemma users_table_ok : config_ok users_table.
Proof.
  split.
  - apply (bool_decide_eq_true_1 (NoDup _)). vm_compute. reflexivity.
  - apply (bool_decide_eq_true_1 (_ ∉ _)). vm_compute. reflexivity.
  - intros c v Hc. cbn [users_table table_config columnFiltersCfg] in Hc.
    apply elem_of_cons in Hc as [->|Hc]; [reflexivity|]. apply elem_of_cons in Hc as [->|Hc]; [reflexivity|].
    apply list_elem_of_singleton in Hc as ->. reflexivity.
  - intros c Hc. cbn [users_table table_config columnFiltersCfg] in Hc.
    apply elem_of_cons in Hc as [->|Hc]; [exact I|]. apply elem_of_cons in Hc as [->|Hc]; [exact I|].
    apply list_elem_of_singleton in Hc as ->. exact I.
Qed.

Definition users_page : TableState := useTableUrlState users_table [(js "page", JNum (num_of_Z 3)); (js "tab", JStr (js "all"))].

Definition chosen_filters : list ColumnFilter :=
  [{| id := js "group"; value := JStr (js "vip") |}; {| id := js "status"; value := JArr [JStr (js "1")] |}; {| id := js "role"; value := JArr [] |}].

Lemma filters_live_in_address_witness :
  columnFilters (onColumnFiltersChange users_table chosen_filters users_page) =
    [{| id := js "status"; value := JArr [JStr (js "1")] |}; {| id := js "group"; value := JStr (js "vip") |}] ∧
  obj_get (js "tab") (search (onColumnFiltersChange users_table chosen_filters users_page)) = Some (JStr (js "all")).
Proof.
  destruct (filters_live_in_address users_table chosen_filters users_page users_table_ok) as (_ & Hf & _ & Hk).
  assert (search (onColumnFiltersChange users_table chosen_filters users_page) ≠ search users_page) as Hne.
  { apply (bool_decide_eq_true_1 (_ ≠ _)). vm_compute. reflexivity. }
  assert (js "tab" ≠ pageKey users_table) as Hp by (apply (bool_decide_eq_true_1 (_ ≠ _)); vm_compute; reflexivity).
  assert (js "tab" ∉ map searchKey (columnFiltersCfg users_table)) as Hs by (apply (bool_decide_eq_true_1 (_ ∉ _)); vm_compute; reflexivity).
  split; [exact (Hf Hne)|exact (Hk (js "tab") Hp Hs)].
Defined.

Lemma page_read_back_witness :
  pagination users_table (search (onPaginationChange users_table {| pageIndex := num_of_Z 4; pageSize := num_of_Z 50 |} users_page)) =
    {| pageIndex := num_of_Z 4; pageSize := num_of_Z 50 |}.
Proof.
  assert (pageKey users_table ≠ pageSizeKey users_table) as Hne by (apply (bool_decide_eq_true_1 (_ ≠ _)); vm_compute; reflexivity).
  exact (page_read_back users_table users_page 4 1 (num_of_Z 50) Hne eq_refl ltac:(lia) ltac:(lia)).
Defined.
