(* ===== verification/UsageLogs.v ===== *)
(** * Usage logs

    [features/usage-logs/lib]: what a log row shows ([format.ts], [latency.ts], [status.ts], with [lib/request-duration-colors.ts] and the
    discount of [features/subscriptions/lib/format.ts]), and the parameters of the requests for logs ([filter.ts],
    [utils.ts]).

    The field [other] of a log is the JSON value its text parses to.  [toLowerCase], the UTF-8 decoder of the browser, the clock and
    the start of the local day are arguments. *)

From S2P Require Import Prelude JsString Regex JsNumber JsNumberFacts Json JsonFacts JsInteger JsEncode BillingExpr.

(** ** Colours *)

Inductive RequestDurationColor := success | warning | danger.

Definition getRequestDurationColor (seconds : num) : RequestDurationColor :=
  if nlt seconds (num_of_Z 10) then success else if nlt seconds (num_of_Z 30) then warning else danger.

Definition getRequestDurationColorFromMs (milliseconds : num) : RequestDurationColor :=
  getRequestDurationColor (ndiv milliseconds (num_of_Z 1000)).

Definition getRequestThroughputColor (tokensPerSecond : num) : RequestDurationColor :=
  if nle (num_of_Z 30) tokensPerSecond then success else if nle (num_of_Z 15) tokensPerSecond then warning else danger.

Definition getRequestResponseColor (seconds completionTokens : num) (tokensPerSecond : option num) : RequestDurationColor :=
  match tokensPerSecond with
  | Some t =>
      if nlt completionTokens (num_of_Z 100) || negb (is_finite t) || nle t (num_of_Z 0) || nlt (num_of_Z 1000) t
      then getRequestDurationColor seconds else getRequestThroughputColor t
  | None => getRequestDurationColor seconds
  end.

Definition getTimeColor := getRequestDurationColor.

Definition getFirstResponseTimeColor (seconds : num) : RequestDurationColor :=
  if nlt seconds (num_of_Z 10) then success else if nle seconds (num_of_Z 30) then warning else danger.

Definition getThroughputColor := getRequestThroughputColor.
Definition getResponseTimeColor := getRequestResponseColor.

(** ** Texts *)

Definition PARAM_OVERRIDE_ACTION_MAP : list (str * str) :=
  map (λ kv, (js (fst kv), js (snd kv)))
    [("set", "Set"); ("delete", "Delete"); ("copy", "Copy"); ("move", "Move"); ("append", "Append"); ("prepend", "Prepend");
     ("trim_prefix", "Trim Prefix"); ("trim_suffix", "Trim Suffix"); ("ensure_prefix", "Ensure Prefix"); ("ensure_suffix", "Ensure Suffix");
     ("trim_space", "Trim Space"); ("to_lower", "To Lower"); ("to_upper", "To Upper"); ("replace", "Replace");
     ("regex_replace", "Regex Replace"); ("set_header", "Set Header"); ("delete_header", "Delete Header"); ("copy_header", "Copy Header");
     ("move_header", "Move Header"); ("pass_headers", "Pass Headers"); ("sync_fields", "Sync Fields"); ("return_error", "Return Error")]%string.

Record AuditLine := { action : str; content : str }.

Definition parseAuditLine (line : str) : AuditLine :=
  match index_of (js " ") line with
  | None | Some O => {| action := line; content := line |}
  | Some (S n) => {| action := take (S n) line; content := drop (S (S n)) line |}
  end.

(** [parseLogOther]: the parsed value, nothing for an empty or unreadable text. *)
Definition parseLogOther (other : str) : option json := if truthy other then json_parse other else None.

Definition is_true (v : option json) : bool := match v with Some (JBool b) => b | _ => false end.

(** [if (!other)] of a parsed value *)
Definition has_other (other : option json) : bool := json_truthy other.

Definition isViolationFeeLog (other : option json) : bool :=
  has_other other &&
  (is_true (opt_prop (js "violation_fee") other) || json_truthy (opt_prop (js "violation_fee_code") other)
   || json_truthy (opt_prop (js "violation_fee_marker") other)).

Definition is_text (s : str) (v : option json) : bool := match v with Some (JStr t) => bool_decide (t = s) | _ => false end.

Definition isAutoGroupLog (other : option json) : bool :=
  is_true (opt_prop (js "auto_group") other) || is_text (js "auto") (opt_prop (js "requested_group") other).

Inductive AutoRouteStatus := normal | degraded | recovered.

Definition getAutoRouteStatus (other : option json) : option AutoRouteStatus :=
  if negb (isAutoGroupLog other) then None
  else let s := opt_prop (js "auto_route_status") other in
       if is_text (js "normal") s then Some normal
       else if is_text (js "degraded") s then Some degraded
       else if is_text (js "recovered") s then Some recovered else None.

Record ModelName := { mn_name : str; isMapped : bool; actualModel : option json }.

Definition formatModelName (model_name other_text : str) : ModelName :=
  let other := parseLogOther other_text in
  let upstream := opt_prop (js "upstream_model_name") other in
  let mapped := json_truthy (opt_prop (js "is_model_mapped") other) && json_truthy upstream && negb (is_text [] upstream) in
  {| mn_name := model_name; isMapped := mapped; actualModel := if mapped then upstream else None |}.

(** [formatDuration]: seconds, and whether they are more than sixty *)
Definition formatDuration (submitTime finishTime : option num) (milliseconds : bool) : option (num * bool) :=
  match submitTime, finishTime with
  | Some s, Some f =>
      if negb (num_truthy s) || negb (num_truthy f) then None
      else let d := if milliseconds then ndiv (nsub f s) (num_of_Z 1000) else nsub f s in Some (d, nlt (num_of_Z 60) d)
  | _, _ => None
  end.

(** ** Subscriptions *)

Definition normalizeSubscriptionBillingDiscount (discount : option json) : num :=
  let v := opt_number (coalesce discount (Some (JNum (num_of_Z 1)))) in
  if negb (is_finite v) || nle v (num_of_Z 0) || nlt (num_of_Z 1) v then num_of_Z 1 else v.

Record SubscriptionBillingDisplay := {
  discount : num; rawQuota : num; formulaConsumed : num; actualConsumed : num; hasActualOverride : bool }.

Definition getSubscriptionBillingDisplay (quota : num) (other : option json) : SubscriptionBillingDisplay :=
  let raw := math_max (num_of_Z 0) (or_zero quota) in
  let d := normalizeSubscriptionBillingDiscount (opt_prop (js "subscription_discount") other) in
  let formula := nmul raw d in
  let consumed := opt_prop (js "subscription_consumed") other in
  let recorded := opt_number consumed in
  let override := (match consumed with None | Some JNull => false | _ => true end) && is_finite recorded in
  {| discount := d; rawQuota := raw; formulaConsumed := formula; actualConsumed := if override then recorded else formula;
     hasActualOverride := override |}.

(** ** Latency *)

Inductive FirstResponseLatencySource := upstream_first_event | upstream_first_body | end_to_end.
Record FirstResponseLatency := { milliseconds : num; source : FirstResponseLatencySource }.

Definition validLatency (v : option json) : option num :=
  match v with
  | Some (JNum x) => if negb (is_finite x) || nle x (num_of_Z 0) then None else Some x
  | _ => None
  end.

Definition getFinalRelayAttempt (other : option json) : option json :=
  match opt_prop (js "attempts") (opt_prop (js "relay_trace") other) with
  | Some (JArr l) => last l
  | _ => None
  end.

Definition getUpstreamFirstResponseLatency (is_stream : bool) (other : option json) : option FirstResponseLatency :=
  let attempt := getFinalRelayAttempt other in
  let ms := validLatency (opt_prop (if is_stream then js "upstream_to_first_event_ms" else js "application_first_body_read_ms") attempt) in
  (λ m, {| milliseconds := m; source := if is_stream then upstream_first_event else upstream_first_body |}) <$> ms.

Definition getEndToEndFirstResponseLatency (other : option json) : option FirstResponseLatency :=
  (λ m, {| milliseconds := m; source := end_to_end |}) <$> validLatency (opt_prop (js "frt") other).

Definition getLogFirstResponseLatency (is_stream : bool) (other : option json) : option FirstResponseLatency :=
  match getUpstreamFirstResponseLatency is_stream other with
  | Some l => Some l
  | None => getEndToEndFirstResponseLatency other
  end.

(** ** Status texts *)

(** [createStatusMapper(mapping)] *)
Definition getLabel {V} (mapping : list (str * (str * V))) (status : str) (defaultLabel : str) : str :=
  match find (λ kv, bool_decide (fst kv = status)) mapping with Some kv => fst (snd kv) | None => defaultLabel end.
Definition getVariant {V} (mapping : list (str * (str * V))) (status : str) (defaultVariant : V) : V :=
  match find (λ kv, bool_decide (fst kv = status)) mapping with Some kv => snd (snd kv) | None => defaultVariant end.

(** ** The matched tier *)

(** [/<[=＝]?|≤|＜[=＝]?/g] and its counterpart *)
Definition equals_sign : regex := ROpt (RChar (λ c, ((c =? 61) || (c =? 65309))%N)).
Definition LESS_RE : regex := ralt [RSeq (RChar (N.eqb 60)) equals_sign; RChar (N.eqb 8804); RSeq (RChar (N.eqb 65308)) equals_sign].
Definition GREATER_RE : regex := ralt [RSeq (RChar (N.eqb 62)) equals_sign; RChar (N.eqb 8805); RSeq (RChar (N.eqb 65310)) equals_sign].

Section tier.
Context (toLowerCase : str → str) (text_decode : list N → str).

(** [t] translates a label. *)
Definition getParamOverrideActionLabel (t : str → str) (a : str) : str :=
  match find (λ kv, bool_decide (fst kv = toLowerCase a)) PARAM_OVERRIDE_ACTION_MAP with Some kv => t (snd kv) | None => a end.

Definition normalizeTierLabel (label : str) : str :=
  if truthy label
  then toLowerCase (replace_all (rplus (RChar is_space)) [] (replace_all GREATER_RE (js ">") (replace_all LESS_RE (js "<") label)))
  else [].

(** [window.atob] and [TextDecoder]; an empty text for anything unreadable *)
Definition decodeBillingExprB64 (exprB64 : str) : str :=
  if truthy exprB64 then match atob exprB64 with Ret bs => text_decode bs | Throw => [] end else [].

Definition resolveMatchedTier (tiers : list ParsedTier) (matchedLabel : str) : option ParsedTier :=
  if negb (truthy matchedLabel) then None
  else find (λ tier,
    let l1 := normalizeTierLabel (tier_label tier) in
    bool_decide (l1 = normalizeTierLabel matchedLabel) && truthy l1) tiers.

(** [(v || 0) > 0] *)
Definition positive_field (k : str) (other : option json) : bool :=
  let v := opt_prop k other in json_truthy v && nlt (num_of_Z 0) (opt_number v).

Definition hasAnyCacheTokens (other : option json) : bool :=
  has_other other &&
  (positive_field (js "cache_tokens") other || positive_field (js "cache_creation_tokens") other
   || positive_field (js "cache_creation_tokens_5m") other || positive_field (js "cache_creation_tokens_1h") other).

Record PriceEntry := { pe_field : str; pe_shortLabel : str; pe_price : num }.
Record TieredBillingSummary := { s_tiers : list ParsedTier; s_tier : ParsedTier; s_priceEntries : list PriceEntry }.

(** [tier[field]]; a missing field is not a number *)
Definition tier_price (t : ParsedTier) (f : str) : num :=
  default S754_nan (snd <$> find (λ kv, bool_decide (fst kv = f)) (prices t)).

Definition price_entry (cacheTokensPresent : bool) (t : ParsedTier) (v : BillingVar) : list PriceEntry :=
  match field v with
  | Some f =>
      if negb (truthy f) then []
      else if bool_decide (group_ v = Some (js "cache")) && negb cacheTokensPresent then []
      else let price := tier_price t f in
           if is_finite price && nlt (num_of_Z 0) price then [{| pe_field := f; pe_shortLabel := shortLabel v; pe_price := price |}] else []
  | None => []
  end.

Definition text_or_blank (v : option json) : str := match v with Some (JStr s) => s | _ => [] end.

Definition getTieredBillingSummary (other : option json) : option TieredBillingSummary :=
  if negb (has_other other) || negb (is_text (js "tiered_expr") (opt_prop (js "billing_mode") other)) then None
  else
    let exprStr := decodeBillingExprB64 (text_or_blank (opt_prop (js "expr_b64") other)) in
    if negb (truthy exprStr) then None
    else
      let tiers := parseTiersFromExpr exprStr in
      match resolveMatchedTier tiers (text_or_blank (opt_prop (js "matched_tier") other)) with
      | Some t => Some {| s_tiers := tiers; s_tier := t; s_priceEntries := flat_map (price_entry (hasAnyCacheTokens other) t) BILLING_PRICING_VARS |}
      | None => None
      end.
End tier.

(** ** Requests for logs *)

Definition LOG_TYPES : list (Z * str) :=
  [(0, js "Unknown"); (1, js "Top-up"); (2, js "Consume"); (3, js "Manage"); (4, js "System"); (5, js "Error"); (6, js "Refund")]%Z.
Definition LOG_TYPE_ALL_VALUE : str := js "0".
Definition LOG_TYPE_FILTERS : list (str * str) :=
  (js "All Types", LOG_TYPE_ALL_VALUE) :: map (λ t, (snd t, Z_dec (fst t))) (List.filter (λ t, negb (fst t =? 0)%Z) LOG_TYPES).
Definition DISPLAYABLE_LOG_TYPES : list Z := [0; 2; 5; 6]%Z.
Definition TIMING_LOG_TYPES : list Z := [2; 5]%Z.

Definition isDisplayableLogType (t : Z) : bool := bool_decide (t ∈ DISPLAYABLE_LOG_TYPES).
Definition isTimingLogType (t : Z) : bool := bool_decide (t ∈ TIMING_LOG_TYPES).
Definition getLogTypeConfig (t : Z) : Z * str := default (0%Z, js "Unknown") (find (λ c, (fst c =? t)%Z) LOG_TYPES).
Definition isPerCallBilling (modelPrice : option num) : bool := nlt (num_of_Z 0) (default (num_of_Z 0) modelPrice).

(** [deserializeLogTypeFilter] of the table *)
Definition deserializeLogTypeFilter (v : option json) : list json :=
  let values := match v with Some (JArr l) => l | _ => if json_truthy v then match v with Some x => [x] | None => [] end else [] end in
  List.filter (λ item, negb (bool_decide (json_to_string item = LOG_TYPE_ALL_VALUE))) values.

(** A query string: the given values as texts. *)
Definition buildQueryParams (params : list (str * option json)) : list (str * str) :=
  flat_map (λ kv,
    match snd kv with
    | None | Some JNull | Some (JStr []) => []
    | Some v => [(fst kv, json_to_string v)]
    end) params.

Section requests.
(** The clock, in milliseconds, and the start of the local day it is in. *)
Context (now midnight : Z).

Definition getDefaultTimeRange : Z * Z := (midnight, (now + 3600 * 1000)%Z).

Definition timestampToSeconds (ms : num) : num := math_floor (ndiv ms (num_of_Z 1000)).

(** A parameter or its default, if it is not zero *)
Definition getTimestamp (useMilliseconds : bool) (param : option json) (d : option Z) : option num :=
  let time := if json_truthy param then opt_number param else match d with Some z => num_of_Z z | None => S754_nan end in
  if num_truthy time then Some (if useMilliseconds then time else timestampToSeconds time) else None.

Record TimeRange := { start_timestamp : option num; end_timestamp : option num }.

Definition buildTimeRangeParams (searchParams : obj) (useMilliseconds : bool) : TimeRange :=
  let startTime := obj_get (js "startTime") searchParams in
  let endTime := obj_get (js "endTime") searchParams in
  let range := if json_truthy (coalesce startTime endTime) then None else Some getDefaultTimeRange in
  {| start_timestamp := getTimestamp useMilliseconds startTime (fst <$> range);
     end_timestamp := getTimestamp useMilliseconds endTime (snd <$> range) |}.

(** [...(v ? { name: String(v) } : {})] *)
Definition text_param (v : option json) : option str := truthy_text v.

Record BaseParams := { bp_p : num; bp_page_size : num; bp_channel_id : option str; bp_time : TimeRange }.

Definition buildBaseParams (page pageSize : num) (searchParams : obj) (useMilliseconds : bool) : BaseParams := {|
  bp_p := page; bp_page_size := pageSize; bp_channel_id := text_param (obj_get (js "channel") searchParams);
  bp_time := buildTimeRangeParams searchParams useMilliseconds |}.

Record GetLogsParams := {
  media_kind : str; p : num; page_size : num; type_ : option num; model_name : option str; token_name : option str; group : option str;
  channel : option num; username : option str; request_id : option str; upstream_request_id : option str; time_range : TimeRange }.

Definition parseType (raw : json) : option num := let t := to_number raw in if is_finite t then Some t else None.

(** One chosen type; several are no choice. *)
Definition processType (v : json) : option num :=
  match v with
  | JArr [x] => parseType x
  | JStr (c :: s) => parseType (JStr (c :: s))
  | _ => None
  end.

Definition channel_number (v : json) : num := or_zero (to_number v).

Definition base_log_params (page pageSize : num) (searchParams : obj) (isAdmin : bool) : GetLogsParams :=
  let s k := obj_get (js k) searchParams in
  {| media_kind := js "other"; p := page; page_size := pageSize;
     type_ := match s "type" with Some v => if json_truthy (Some v) then processType v else None | None => None end;
     model_name := text_param (s "model"); token_name := text_param (s "token"); group := text_param (s "group");
     channel := match s "channel" with Some v => if isAdmin && json_truthy (Some v) then Some (channel_number v) else None | None => None end;
     username := if isAdmin then text_param (s "username") else None;
     request_id := text_param (s "requestId"); upstream_request_id := text_param (s "upstreamRequestId");
     time_range := buildTimeRangeParams searchParams false |}.

Inductive Field := FType (v : option num) | FModel (s : str) | FToken (s : str) | FGroup (s : str) | FChannel (x : num) | FUsername (s : str).

Definition set_field (f : Field) (r : GetLogsParams) : GetLogsParams := {|
  media_kind := media_kind r; p := p r; page_size := page_size r;
  type_ := match f with FType v => v | _ => type_ r end;
  model_name := match f with FModel s => Some s | _ => model_name r end;
  token_name := match f with FToken s => Some s | _ => token_name r end;
  group := match f with FGroup s => Some s | _ => group r end;
  channel := match f with FChannel x => Some x | _ => channel r end;
  username := match f with FUsername s => Some s | _ => username r end;
  request_id := request_id r; upstream_request_id := upstream_request_id r; time_range := time_range r |}.

(** What a column filter overrides *)
Definition filter_field (isAdmin : bool) (id : str) (v : json) : option Field :=
  match v with
  | JNull | JStr [] => None
  | _ =>
      if bool_decide (id = js "type") then Some (FType (processType v))
      else if bool_decide (id = js "model_name") then Some (FModel (json_to_string v))
      else if bool_decide (id = js "token_name") then Some (FToken (json_to_string v))
      else if bool_decide (id = js "group") then Some (FGroup (json_to_string v))
      else if bool_decide (id = js "channel") then if isAdmin then Some (FChannel (channel_number v)) else None
      else if bool_decide (id = js "username") then if isAdmin then Some (FUsername (json_to_string v)) else None
      else None
  end.

Definition buildApiParams (page pageSize : num) (searchParams : obj) (columnFilters : list (str * json)) (isAdmin : bool) : GetLogsParams :=
  fold_left (λ r kv, match filter_field isAdmin (fst kv) (snd kv) with Some f => set_field f r | None => r end) columnFilters
    (base_log_params page pageSize searchParams isAdmin).

Inductive LogCategory := common | drawing | task.

Definition getLogCategoryLabel (c : LogCategory) : str :=
  match c with common => js "Common" | drawing => js "Drawing" | task => js "Task" end.

(** The request that is sent, with whose logs it asks for. *)
Inductive LogRequest :=
  | CommonLogs (all : bool) (params : GetLogsParams)
  | MidjourneyLogs (all : bool) (base : BaseParams) (mj_id : option json)
  | TaskLogs (all : bool) (base : BaseParams) (task_id : option json).

Definition fetchLogsByCategory (c : LogCategory) (isAdmin : bool) (page pageSize : num) (searchParams : obj) (columnFilters : list (str * json)) : LogRequest :=
  match c with
  | common => CommonLogs isAdmin (buildApiParams page pageSize searchParams columnFilters isAdmin)
  | drawing => MidjourneyLogs isAdmin (buildBaseParams page pageSize searchParams true) (obj_get (js "filter") searchParams)
  | task => TaskLogs isAdmin (buildBaseParams page pageSize searchParams false) (obj_get (js "filter") searchParams)
  end.
End requests.

(** ** The filter dialog *)

Record LogFilters := {
  startTime : option Z; endTime : option Z; f_channel : str; f_model : str; f_token : str; f_group : str; f_username : str;
  f_requestId : str; f_upstreamRequestId : str; f_mjId : str; f_taskId : str }.

(** [...(v && { key: v })] *)
Definition text_member (k : string) (v : str) : obj := if truthy v then [(js k, JStr v)] else [].
Definition time_member (k : string) (v : option Z) : obj := match v with Some t => [(js k, JNum (num_of_Z t))] | None => [] end.

Definition buildSearchParams (f : LogFilters) (c : LogCategory) : obj :=
  time_member "startTime" (startTime f) ++ time_member "endTime" (endTime f) ++ text_member "channel" (f_channel f) ++
  match c with
  | common => text_member "model" (f_model f) ++ text_member "token" (f_token f) ++ text_member "group" (f_group f) ++
              text_member "username" (f_username f) ++ text_member "requestId" (f_requestId f) ++ text_member "upstreamRequestId" (f_upstreamRequestId f)
  | drawing => text_member "filter" (f_mjId f)
  | task => text_member "filter" (f_taskId f)
  end.

(** * Properties of the usage logs

    Requests of users who are not administrators never name a channel or a user; what is chosen in the filter dialog is what the
    server is asked for; the prices of a log are those of a tier whose label is the recorded one. *)


(** ** Requests *)

(** A request for logs by a user who is not an administrator asks for the user's own logs and never names a channel or a user, whatever the
    address and the column filters say. *)
Theorem user_requests_unprivileged now midnight page pageSize searchParams columnFilters :
  ∃ params, fetchLogsByCategory now midnight common false page pageSize searchParams columnFilters = CommonLogs false params ∧
    channel params = None ∧ username params = None ∧ media_kind params = js "other" ∧ p params = page ∧ page_size params = pageSize.
Proof.
  eexists. split; [reflexivity|]. unfold buildApiParams.
  assert (let r := base_log_params now midnight page pageSize searchParams false in
    channel r = None ∧ username r = None ∧ media_kind r = js "other" ∧ p r = page ∧ page_size r = pageSize) as H.
  { cbn. split_and!; try reflexivity. by destruct (obj_get _ searchParams). }
  revert H. generalize (base_log_params now midnight page pageSize searchParams false). induction columnFilters as [|[id v] l IH]; intros r H; [exact H|].
  cbn [fold_left fst snd]. apply IH. destruct (filter_field false id v) as [f|] eqn:E; [|exact H].
  assert (∀ x s, f ≠ FChannel x ∧ f ≠ FUsername s) as Hf.
  { intros x s. unfold filter_field in E. destruct v as [|b|n|[|c t]|[|y l']|o]; try discriminate;
      repeat match type of E with context [if ?b then _ else _] => destruct b end; try discriminate; injection E as <-; split; discriminate. }
  destruct H as (H1 & H2 & H3 & H4 & H5). cbn. split_and!; [| |exact H3|exact H4|exact H5].
  - destruct f as [| | | |x|]; try exact H1. by destruct (Hf x []) as [[] _].
  - destruct f as [| | | | |s]; try exact H2. by destruct (Hf pzero s) as [_ []].
Qed.

(** A member of the dialog's parameters. *)
Lemma obj_get_text_member k k' v o :
  obj_get k (text_member k' v ++ o) = if bool_decide (k = js k') && truthy v then Some (JStr v) else obj_get k o.
Proof. unfold text_member. destruct v; cbn [truthy]; [by rewrite andb_false_r|]. cbn [app obj_get]. by destruct (bool_decide _). Qed.

Lemma obj_get_time_member k k' v o :
  obj_get k (time_member k' v ++ o) = match v with Some t => if bool_decide (k = js k') then Some (JNum (num_of_Z t)) else obj_get k o | None => obj_get k o end.
Proof. by destruct v. Qed.

Ltac member_get :=
  repeat first
    [ rewrite obj_get_text_member | rewrite obj_get_time_member
    | match goal with |- context [bool_decide (js ?a = js ?b)] =>
        let r := eval vm_compute in (bool_decide (js a = js b)) in change (bool_decide (js a = js b)) with r end
    | progress cbn [andb] ].

Lemma text_param_str v o : text_param (if truthy v then Some (JStr v) else o) = if truthy v then Some v else text_param o.
Proof. by destruct v. Qed.

(** The value of a field, nothing if it is blank. *)
Definition given (s : str) : option str := if truthy s then Some s else None.

Lemma floor_seconds t : (0 < t < 2 ^ 53)%Z → num_truthy (num_of_Z t) = true.
Proof. intros H. apply num_of_Z_finite; [unfold safe; lia|lia]. Qed.

(** What is entered in the filter dialog of the common logs is what the server is asked for: each text under its own name, the times in whole seconds, and
    today's range only if no time was chosen. *)
Theorem dialog_reaches_server now midnight page pageSize f :
  (∀ t, startTime f = Some t ∨ endTime f = Some t → (0 < t < 2 ^ 53)%Z) →
  (0 < midnight < 2 ^ 53)%Z → (0 < now + 3600 * 1000 < 2 ^ 53)%Z →
  buildApiParams now midnight page pageSize (buildSearchParams f common) [] true =
  {| media_kind := js "other"; p := page; page_size := pageSize; type_ := None; model_name := given (f_model f);
     token_name := given (f_token f); group := given (f_group f);
     channel := if truthy (f_channel f) then Some (or_zero (number_of_string (f_channel f))) else None;
     username := given (f_username f); request_id := given (f_requestId f); upstream_request_id := given (f_upstreamRequestId f);
     time_range :=
       match startTime f, endTime f with
       | None, None => {| start_timestamp := Some (timestampToSeconds (num_of_Z midnight));
                          end_timestamp := Some (timestampToSeconds (num_of_Z (now + 3600 * 1000))) |}
       | s, e => {| start_timestamp := timestampToSeconds ∘ num_of_Z <$> s; end_timestamp := timestampToSeconds ∘ num_of_Z <$> e |}
       end |}.
Proof.
  intros Ht Hm Hn. unfold buildApiParams. cbn [fold_left]. unfold base_log_params, buildTimeRangeParams.
  assert (∀ k, obj_get (js k) (buildSearchParams f common) = obj_get (js k) (buildSearchParams f common ++ [])) as Happ by (intros; by rewrite app_nil_r).
  rewrite !Happ. unfold buildSearchParams. rewrite <- !app_assoc.
  f_equal.
  - by member_get; destruct (startTime f), (endTime f).
  - member_get. by destruct (startTime f), (endTime f), (f_model f).
  - member_get. by destruct (startTime f), (endTime f), (f_token f).
  - member_get. by destruct (startTime f), (endTime f), (f_group f).
  - member_get. by destruct (startTime f), (endTime f), (f_channel f).
  - member_get. by destruct (startTime f), (endTime f), (f_username f).
  - member_get. by destruct (startTime f), (endTime f), (f_requestId f).
  - member_get. by destruct (startTime f), (endTime f), (f_upstreamRequestId f).
  - member_get. destruct (startTime f) as [s|] eqn:Es, (endTime f) as [e|] eqn:Ee.
    + pose proof (floor_seconds s (Ht s (or_introl eq_refl))) as Hs. pose proof (floor_seconds e (Ht e (or_intror eq_refl))) as He.
      unfold getTimestamp. cbn [obj_get coalesce json_truthy opt_number to_number fmap option_fmap option_map]. by repeat (rewrite Hs || rewrite He).
    + pose proof (floor_seconds s (Ht s (or_introl eq_refl))) as Hs.
      unfold getTimestamp. cbn [obj_get coalesce json_truthy opt_number to_number fmap option_fmap option_map]. by repeat rewrite Hs.
    + pose proof (floor_seconds e (Ht e (or_intror eq_refl))) as He.
      unfold getTimestamp. cbn [obj_get coalesce json_truthy opt_number to_number fmap option_fmap option_map]. by repeat rewrite He.
    + unfold getTimestamp, getDefaultTimeRange. cbn [obj_get coalesce json_truthy fmap option_fmap option_map fst snd].
      by rewrite !floor_seconds by done.
Qed.

Lemma dialog_reaches_server_witness :
  let f := {| startTime := Some 1700000000000%Z; endTime := None; f_channel := js "7"; f_model := js "gpt-4.1"; f_token := []; f_group := [];
              f_username := js "alice"; f_requestId := []; f_upstreamRequestId := []; f_mjId := []; f_taskId := [] |} in
  let r := buildApiParams 1700000600000 1699977600000 (num_of_Z 1) (num_of_Z 20) (buildSearchParams f common) [] true in
  model_name r = Some (js "gpt-4.1") ∧ username r = Some (js "alice") ∧ start_timestamp (time_range r) = Some (num_of_Z 1700000000).
Proof.
  cbv zeta. rewrite dialog_reaches_server.
  - split; [reflexivity|]. split; [reflexivity|]. cbn. vm_compute. reflexivity.
  - cbn [startTime endTime]. intros t [[= <-]|[=]]. lia.
  - lia.
  - lia.
Defined.

(** ** The tier of a log *)

Section tiers.
Context (toLowerCase : str → str) (text_decode : list N → str).
Abbreviation normal_label := (normalizeTierLabel toLowerCase).

(** What the decoder of the browser does with UTF-8 text. *)
Definition decodes (e : str) : Prop := text_decode (utf8_encode e) = e.

Lemma find_spec {A} (f : A → bool) l x : find f l = Some x → x ∈ l ∧ f x = true.
Proof. intros H. apply List.find_some in H as [? ?]. by rewrite list_elem_of_In. Qed.

Lemma utf8_encode_bytes s : units s → bytes (utf8_encode s).
Proof.
  induction s as [s IH] using (induction_ltof1 _ (@length N)). unfold ltof in IH. intros Hs.
  destruct s as [|c s]; [constructor|]. apply Forall_cons in Hs as [Hc Hs]. unfold code_unit in Hc. cbn [utf8_encode].
  assert (bytes (utf8_bytes 65533)) as Hr by (apply utf8_bytes_bytes; lia).
  destruct (is_high c) eqn:Eh; [|destruct (is_low c)].
  - destruct s as [|d s]; [exact Hr|]. destruct (is_low d) eqn:Ed.
    + apply Forall_app. split; [|apply IH; [simpl; lia|by apply Forall_cons in Hs as [_ ?]]].
      apply utf8_bytes_bytes. unfold is_high, is_low, pair_cp in *. breflect. lia.
    + apply Forall_app. split; [exact Hr|]. apply IH; [simpl; lia|done].
  - apply Forall_app. split; [exact Hr|]. apply IH; [simpl; lia|done].
  - apply Forall_app. split; [apply utf8_bytes_bytes; lia|]. apply IH; [simpl; lia|done].
Qed.

(** The expression of a log is the one the server wrote. *)
Lemma expression_decoded e : units e → decodes e → e ≠ [] → decodeBillingExprB64 text_decode (base64 (utf8_encode e)) = e.
Proof.
  intros Hu Hd Hne. unfold decodeBillingExprB64. rewrite atob_base64 by by apply utf8_encode_bytes. rewrite Hd.
  destruct (truthy (base64 (utf8_encode e))) eqn:E; [done|]. destruct (base64 (utf8_encode e)) eqn:Eb; [|done].
  destruct (utf8_encode e) as [|a [|b [|c r]]] eqn:Eu; try done.
  destruct e as [|c e]; [done|]. cbn [utf8_encode] in Eu.
  assert (∀ cp l, utf8_bytes cp ++ l ≠ []) as Hb.
  { intros cp l. unfold utf8_bytes. repeat match goal with |- context [if ?b then _ else _] => destruct b end; done. }
  assert (∀ cp, utf8_bytes cp ≠ []) as Hb' by (intros cp H; apply (Hb cp []); by rewrite H).
  destruct (is_high c); [destruct e as [|d e]; [by destruct (Hb' 65533%N)|destruct (is_low d)]|destruct (is_low c)];
    by apply Hb in Eu.
Qed.

(** A log of tiered billing, as the server writes it. *)
Definition tiered_log (e label : str) (rest : obj) : option json :=
  Some (JObj ((js "billing_mode", JStr (js "tiered_expr")) :: (js "expr_b64", JStr (base64 (utf8_encode e)))
              :: (js "matched_tier", JStr label) :: rest)).

(** What is shown for such a log. *)
Lemma summary_of_log e label rest : units e → decodes e → e ≠ [] → label ≠ [] →
  let other := tiered_log e label rest in
  getTieredBillingSummary toLowerCase text_decode other =
  (λ t, {| s_tiers := parseTiersFromExpr e; s_tier := t; s_priceEntries := flat_map (price_entry (hasAnyCacheTokens other) t) BILLING_PRICING_VARS |}) <$>
  find (λ t, bool_decide (normal_label (tier_label t) = normal_label label) && truthy (normal_label (tier_label t))) (parseTiersFromExpr e).
Proof.
  intros Hu Hd Hne Hl other. unfold getTieredBillingSummary. subst other.
  change (negb (has_other (tiered_log e label rest))) with false.
  change (opt_prop (js "billing_mode") (tiered_log e label rest)) with (Some (JStr (js "tiered_expr"))).
  change (opt_prop (js "expr_b64") (tiered_log e label rest)) with (Some (JStr (base64 (utf8_encode e)))).
  change (opt_prop (js "matched_tier") (tiered_log e label rest)) with (Some (JStr label)).
  cbn [text_or_blank]. rewrite expression_decoded by done.
  change (is_text (js "tiered_expr") (Some (JStr (js "tiered_expr")))) with (bool_decide (js "tiered_expr" = js "tiered_expr")).
  rewrite bool_decide_true by reflexivity. cbn [negb orb].
  assert (truthy e = true) as -> by by destruct e. cbn [negb]. unfold resolveMatchedTier.
  assert (truthy label = true) as -> by by destruct label. cbn [negb].
  destruct (find _ (parseTiersFromExpr e)); reflexivity.
Qed.

(** The prices shown for a log of tiered billing are those of the first tier of the logged expression whose label is the recorded one, up to spaces, case and the
    comparison signs; every positive price of that tier is shown and no other, cache prices only if the request used the cache; without
    such a tier nothing is shown. *)
Theorem logged_tier_shown e label rest : units e → decodes e → e ≠ [] → label ≠ [] →
  let other := tiered_log e label rest in
  match getTieredBillingSummary toLowerCase text_decode other with
  | Some s =>
      s_tiers s = parseTiersFromExpr e ∧ s_tier s ∈ parseTiersFromExpr e ∧
      normal_label (tier_label (s_tier s)) = normal_label label ∧
      (∀ x, x ∈ s_priceEntries s ↔ ∃ v, v ∈ BILLING_PRICING_VARS ∧ field v = Some (pe_field x) ∧ pe_field x ≠ [] ∧
         pe_shortLabel x = shortLabel v ∧ pe_price x = tier_price (s_tier s) (pe_field x) ∧
         is_finite (pe_price x) = true ∧ nlt pzero (pe_price x) = true ∧
         (group_ v = Some (js "cache") → hasAnyCacheTokens other = true))
  | None => ∀ t, t ∈ parseTiersFromExpr e → normal_label (tier_label t) ≠ [] → normal_label (tier_label t) ≠ normal_label label
  end.
Proof.
  intros Hu Hd Hne Hl other. unfold other. rewrite summary_of_log by done.
  destruct (find _ (parseTiersFromExpr e)) as [t|] eqn:E; cbn [fmap option_fmap option_map].
  - apply find_spec in E as [Hin Ht]. apply andb_true_iff in Ht as [Ht%bool_decide_eq_true _]. cbn [s_tiers s_tier s_priceEntries].
    split; [reflexivity|]. split; [exact Hin|]. split; [exact Ht|]. intros x. rewrite list_elem_of_In, in_flat_map. split.
    + intros (v & Hv & Hx). apply list_elem_of_In in Hv. apply list_elem_of_In in Hx. exists v. unfold price_entry in Hx.
      destruct (field v) as [f|] eqn:Ef; [|by apply elem_of_nil in Hx].
      destruct (truthy f) eqn:Etf; cbn [negb] in Hx; [|by apply elem_of_nil in Hx].
      destruct (bool_decide (group_ v = Some (js "cache")) && negb (hasAnyCacheTokens _)) eqn:Eg; [by apply elem_of_nil in Hx|].
      destruct (is_finite (tier_price t f) && nlt (num_of_Z 0) (tier_price t f)) eqn:Ep; [|by apply elem_of_nil in Hx].
      apply list_elem_of_singleton in Hx as ->. cbn [pe_field pe_shortLabel pe_price].
      apply andb_true_iff in Ep as [Hfin Hpos].
      split; [exact Hv|]. split; [first [exact Ef|reflexivity]|]. split; [intros ->; discriminate|]. do 2 (split; [reflexivity|]).
      split; [exact Hfin|]. split; [exact Hpos|].
      intros Hg. rewrite bool_decide_true in Eg by exact Hg. cbn [andb] in Eg. exact (proj1 (negb_false_iff _) Eg).
    + intros (v & Hv & Ef & Hf & Hs & Hp & Hfin & Hpos & Hg). exists v. split; [by apply list_elem_of_In|]. apply list_elem_of_In. unfold price_entry. rewrite Ef.
      assert (truthy (pe_field x) = true) as -> by by destruct (pe_field x). cbn [negb].
      assert (bool_decide (group_ v = Some (js "cache")) && negb (hasAnyCacheTokens (tiered_log e label rest)) = false) as ->.
      { destruct (bool_decide (group_ v = Some (js "cache"))) eqn:Eg; [|reflexivity]. apply bool_decide_eq_true in Eg. rewrite (Hg Eg). reflexivity. }
      rewrite <- Hp. change (num_of_Z 0) with pzero. rewrite Hfin, Hpos. cbn [andb]. apply list_elem_of_singleton. rewrite <- Hs. by destruct x.
  - intros t Ht Hn Heq. apply list_elem_of_In in Ht. pose proof (List.find_none _ _ E t Ht) as Hf. cbn beta in Hf.
    rewrite bool_decide_true in Hf by exact Heq. cbn [andb] in Hf. by destruct (normal_label (tier_label t)).
Qed.
End tiers.

Definition demo_expression : str := js "len <= 200000 ? tier('A <= 200k', p * 3 + c * 15) : tier('A < 200k', p * 6 + c * 30)".
Definition quoted (e : str) : str := map (λ c, if (c =? 39)%N then 34%N else c) e.
Definition demo_decode (bs : list N) : str := utf8_decode bs 0 0.

Lemma logged_tier_shown_witness :
  let other := tiered_log (quoted demo_expression) (js "A <= 200k") [] in
  match getTieredBillingSummary (λ s, s) demo_decode other with
  | Some s => s_tier s ∈ parseTiersFromExpr (quoted demo_expression) ∧ map pe_price (s_priceEntries s) = map num_of_Z [3; 15]%Z
  | None => False
  end.
Proof.
  cbv zeta. pose proof (logged_tier_shown (λ s, s) demo_decode (quoted demo_expression) (js "A <= 200k") []) as H.
  assert (units (quoted demo_expression)) as Hu by (apply (bool_decide_unpack _); vm_compute; exact I).
  assert (decodes demo_decode (quoted demo_expression)) as Hd by (vm_compute; reflexivity).
  specialize (H Hu Hd ltac:(discriminate) ltac:(discriminate)). cbv zeta in H.
  destruct (getTieredBillingSummary _ _ _) as [s|] eqn:E.
  - split; [exact (proj1 (proj2 H))|]. assert (map pe_price <$> (s_priceEntries <$> Some s) = Some (map num_of_Z [3; 15]%Z)) as Hp
      by (rewrite <- E; vm_compute; reflexivity). by injection Hp.
  - clear -E. vm_compute in E. discriminate E.
Defined.

(** Two tiers whose labels differ by the comparison sign are one tier to the logs: a request billed at the second is shown at the prices of the first. *)
Lemma boundary_tiers_confused :
  let other := tiered_log (quoted demo_expression) (js "A < 200k") [] in
  map tier_label (parseTiersFromExpr (quoted demo_expression)) = [js "A <= 200k"; js "A < 200k"] ∧
  (tier_label ∘ s_tier <$> getTieredBillingSummary (λ s, s) demo_decode other) = Some (js "A <= 200k").
Proof. split; vm_compute; reflexivity. Qed.

(** A start at the epoch is no start: the day's range is asked for instead, whatever the end. *)
Lemma epoch_start_ignored now midnight e : (0 < midnight < 2 ^ 53)%Z → (0 < e < 2 ^ 53)%Z →
  buildTimeRangeParams now midnight [(js "startTime", JNum (num_of_Z 0)); (js "endTime", JNum (num_of_Z e))] false =
  {| start_timestamp := Some (timestampToSeconds (num_of_Z midnight)); end_timestamp := Some (timestampToSeconds (num_of_Z e)) |}.
Proof.
  intros Hm He. unfold buildTimeRangeParams.
  change (obj_get (js "startTime") _) with (Some (JNum (num_of_Z 0))). change (obj_get (js "endTime") _) with (Some (JNum (num_of_Z e))).
  unfold getTimestamp, getDefaultTimeRange. cbn [coalesce]. change (json_truthy (Some (JNum (num_of_Z 0)))) with false.
  cbn [json_truthy opt_number to_number fmap option_fmap option_map fst snd].
  rewrite !(floor_seconds e He), !(floor_seconds midnight Hm). reflexivity.
Qed.

(** A price directly followed by a plus sign is read with it, which is no number: the tier is shown without the price. *)
Lemma tight_sum_loses_price :
  parseTierBody (js "p * 3+c * 15") = parseTierBody (js "c * 15") ∧ parseTierBody (js "p * 3 + c * 15") ≠ parseTierBody (js "c * 15").
Proof. split; [vm_compute; reflexivity|]. apply (bool_decide_unpack _). vm_compute. exact I. Qed.
