(* ===== verification/TierReading.v ===== *)
(** * The prices shown are the prices configured

    [parseTiersFromExpr], which the price page and the usage logs read expressions with, on the expressions the visual tier editor generates
    ([billing-expr.ts], [tier-expr.ts]). *)

From S2P Require Import Prelude JsString JsNumber JsNumberFacts Json Regex JsEncode BillingExpr BillingText TierExpr TierFacts TierRoundTrip UsageLogs.

(** ** Coefficients *)

Definition PRICE_VARS : list str := map fst BILLING_VAR_KEY_TO_FIELD.
Definition PRICE_FIELDS : list str := map snd BILLING_VAR_KEY_TO_FIELD.

Lemma price_vars_eq : PRICE_VARS = js "p" :: js "c" :: EXTRA_VARS.
Proof. vm_compute. reflexivity. Qed.

Lemma price_vars_NoDup : NoDup PRICE_VARS.
Proof. apply (bool_decide_unpack _). vm_compute. exact I. Qed.

Lemma m_wordb k x : m RWordB k x = if xorb (word_at (before x)) (word_at (after x)) then k x else None.
Proof. reflexivity. Qed.

Definition var_alt : regex := ralt (map (λ v, rlit (key v)) BILLING_PRICING_VARS).

(** Of the names that start alike the one followed by a space is taken. *)
Lemma m_var_alt v k bef t cs :
  v ∈ PRICE_VARS → (∀ b c s cs', is_word c = true → k (mk b (c :: s) cs') = None) →
  m var_alt k (mk bef (v ++ 32%N :: t) cs) = k (mk (rev v ++ bef) (32%N :: t) cs).
Proof.
  intros Hv Hk. rewrite price_vars_eq, extra_vars_eq in Hv. rewrite !elem_of_cons, elem_of_nil in Hv.
  destruct_or! Hv; subst v; vm_compute;
    repeat match goal with |- context [k (mk ?b (?c :: ?s) ?cs)] => rewrite (Hk b c s cs eq_refl) end; by destruct (k _).
Qed.

Lemma var_alt_refuses c k bef t cs : c ∈ [32; 43]%N → m var_alt k (mk bef (c :: t) cs) = None.
Proof. rewrite !elem_of_cons, elem_of_nil. intros [->|[->|[]]]; vm_compute; reflexivity. Qed.

Lemma var_regex_seq : BILLING_VAR_REGEX = rseq [RWordB; RGroup 1 var_alt; r_spaces; rlit (js "*"); r_spaces; RGroup 2 r_num].
Proof. reflexivity. Qed.

Lemma coeff_none c bef t : c ∈ [32; 43]%N → match_at 2 BILLING_VAR_REGEX bef (c :: t) = None.
Proof.
  intros Hc. unfold match_at. rewrite m_group, var_regex_seq. cbn [rseq]. rewrite !m_seq, m_wordb.
  destruct (xorb _ _); [|reflexivity]. rewrite m_group. by apply var_alt_refuses.
Qed.

Lemma coeff_end bef : exec_from 2 BILLING_VAR_REGEX bef [] = None.
Proof.
  cbn [exec_from]. unfold match_at. rewrite m_group, var_regex_seq. cbn [rseq]. rewrite !m_seq, m_wordb.
  destruct (xorb _ _); [|reflexivity]. rewrite m_group. vm_compute. reflexivity.
Qed.

Definition coeff_text (vx : str * num) : str := fst vx ++ js " * " ++ string_of_num (snd vx).
Definition coeff_caps (vx : str * num) : list (option str) := [Some (coeff_text vx); Some (fst vx); Some (string_of_num (snd vx))].

Lemma coeff_match v x bef t :
  v ∈ PRICE_VARS → price_num x = true → head_not_num t → word_at bef = false →
  ∃ bef', match_at 2 BILLING_VAR_REGEX bef (coeff_text (v, x) ++ t) = Some (mk bef' t (coeff_caps (v, x))).
Proof.
  intros Hv Hx Ht Hb. eexists. set (txt := coeff_text (v, x) ++ t).
  assert (txt = v ++ 32%N :: js "*" ++ 32%N :: string_of_num x ++ t) as E by (unfold txt, coeff_text; cbn [fst snd]; by rewrite <- !app_assoc).
  unfold match_at. rewrite m_group, var_regex_seq. cbn [rseq]. rewrite !m_seq, m_wordb. cbn [before after]. rewrite Hb.
  assert (word_at txt = true) as ->.
  { rewrite E. clear -Hv. rewrite price_vars_eq, extra_vars_eq in Hv. rewrite !elem_of_cons, elem_of_nil in Hv. by destruct_or! Hv; subst v. }
  cbn [xorb]. rewrite m_group.
  match goal with |- m var_alt ?k _ = _ => set (k0 := k) end. rewrite E, m_var_alt; [|exact Hv|].
  - unfold k0. cbn [before after caps].
    apply m_spaces_one; [done|]. rewrite m_lit. apply m_spaces_one; [by apply num_head_not_space|].
    destruct (price_num_text x Hx) as (_ & Hne & Hc).
    apply m_group_plus_commit; [done|done|by destruct t|]. cbn [before after caps].
    unfold coeff_caps. do 2 f_equal. cbn [replicate insert list_insert fst snd]. unfold txt at 1 2. rewrite take_consumed.
    rewrite E. by rewrite take_consumed.
  - intros b c s cs' Hc. unfold k0. cbn [before after caps].
    assert (is_space c = false) as Hs. { clear -Hc. apply not_true_is_false. intros H. unfold is_word, is_digit in Hc. unfold is_space in H. rewrite ?orb_true_iff, ?andb_true_iff, ?N.leb_le, ?N.eqb_eq in *. lia. }
    rewrite m_spaces_none by exact Hs. change (js "*") with [42%N]. apply m_lit_head_fail. intros <-. discriminate Hc.
Qed.

(** ** The body of a tier *)

Definition term_text (vx : str * num) : str := js " + " ++ coeff_text vx.

Lemma coeff_separator bef t :
  exec_from 2 BILLING_VAR_REGEX bef (js " + " ++ t) = exec_from 2 BILLING_VAR_REGEX (rev (js " + ") ++ bef) t.
Proof.
  apply exec_from_over. intros bef' c s Hc. apply coeff_none. change (js " + ") with [32; 43; 32]%N in Hc.
  rewrite !elem_of_cons, elem_of_nil in *. tauto.
Qed.

Definition term_ok (vx : str * num) : Prop := fst vx ∈ PRICE_VARS ∧ price_num (snd vx) = true.

Lemma terms_head (l : list (str * num)) : head_not_num (concat (map term_text l)).
Proof. by destruct l. Qed.

Lemma exec_terms l : Forall term_ok l → ∀ fuel bef, length l < fuel →
  exec_all fuel 2 BILLING_VAR_REGEX bef (concat (map term_text l)) = map coeff_caps l.
Proof.
  induction 1 as [|[v x] l [Hv Hx] Hl IH]; intros [|fuel] bef Hf; try (simpl in Hf; lia).
  { cbn [map concat exec_all]. by rewrite coeff_end. }
  cbn [map concat exec_all]. unfold term_text at 1. rewrite <- app_assoc, coeff_separator.
  destruct (coeff_match v x (rev (js " + ") ++ bef) (concat (map term_text l)) Hv Hx (terms_head l) eq_refl) as [b E].
  rewrite (exec_from_here _ _ _ _ _ E). cbn [caps before after]. f_equal. apply IH. simpl in Hf. lia.
Qed.

Lemma match_terms vx l : Forall term_ok (vx :: l) →
  match_all 2 BILLING_VAR_REGEX (coeff_text vx ++ concat (map term_text l)) = map coeff_caps (vx :: l).
Proof.
  destruct vx as [v x]. intros [[Hv Hx] Hl]%Forall_cons. unfold match_all. cbn [exec_all].
  destruct (coeff_match v x [] (concat (map term_text l)) Hv Hx (terms_head l) eq_refl) as [b E].
  rewrite (exec_from_here _ _ _ _ _ E). cbn [caps before after map]. f_equal. apply exec_terms; [done|].
  rewrite length_app.
  assert (length l ≤ length (concat (map term_text l))) as H.
  { clear. induction l as [|a l IH]; simpl; [lia|]. rewrite length_app. lia. }
  unfold coeff_text. rewrite !length_app. simpl. lia.
Qed.

Lemma collect_terms l acc : NoDup (map fst acc ++ map fst l) → Forall (λ vx, price_num (snd vx) = true) l →
  collect_coeffs (map coeff_caps l) acc = acc ++ l.
Proof.
  revert acc. induction l as [|[v x] l IH]; intros acc Hnd Hl; [by rewrite app_nil_r|].
  apply Forall_cons in Hl as [Hx Hl]. cbn [map collect_coeffs].
  change (cap (coeff_caps (v, x)) 1) with v. change (cap (coeff_caps (v, x)) 2) with (string_of_num x).
  destruct (price_num_text x Hx) as (-> & _).
  replace (existsb _ acc) with false.
  - rewrite IH; [by rewrite <- app_assoc| |done]. rewrite map_app, <- app_assoc. exact Hnd.
  - symmetry. apply not_true_is_false. intros (kv & Hin & Hk)%existsb_exists. apply bool_decide_eq_true in Hk.
    apply NoDup_app in Hnd as (_ & Hd & _). apply (Hd v); [|apply elem_of_cons; by left].
    apply elem_of_lmap. exists kv. by split; [|apply list_elem_of_In].
Qed.

(** What is read for a variable: its coefficient, zero if it is left out. *)
Lemma coeff_read l v x : NoDup (map fst l) → (v, x) ∈ l → coeff_of v l = x.
Proof.
  induction l as [|[w y] l IH]; intros Hnd Hin; [by apply elem_of_nil in Hin|].
  cbn [map fst] in Hnd. apply NoDup_cons in Hnd as [Hw Hnd]. cbn [coeff_of]. apply elem_of_cons in Hin as [[= <- <-]|Hin].
  - by rewrite bool_decide_eq_true_2.
  - rewrite bool_decide_eq_false_2; [by apply IH|]. intros ->. apply Hw, elem_of_lmap. by exists (v, x).
Qed.

Lemma coeff_unread l v : v ∉ map fst l → coeff_of v l = S754_nan.
Proof.
  induction l as [|[w y] l IH]; [done|]. cbn [map fst coeff_of]. rewrite not_elem_of_cons. intros [Hw Hl].
  rewrite bool_decide_eq_false_2 by congruence. by apply IH.
Qed.

Definition kept (vx : str * num) : bool := negb (is_zero (snd vx)).
Definition terms (ic oc : num) (xs : list num) : list (str * num) :=
  (js "p", ic) :: (js "c", oc) :: List.filter kept (zip EXTRA_VARS xs).

Lemma opt_terms l : concat (map opt_text l) = concat (map term_text (List.filter kept l)).
Proof.
  induction l as [|[v x] l IH]; [done|]. cbn [map concat List.filter]. unfold kept at 1, opt_text at 1. cbn [fst snd].
  destruct (is_zero x); cbn [negb]; [exact IH|]. cbn [map concat]. by rewrite IH.
Qed.

Lemma body_terms ic oc xs :
  body_text ic oc xs = coeff_text (js "p", ic) ++ concat (map term_text ((js "c", oc) :: List.filter kept (zip EXTRA_VARS xs))).
Proof. unfold body_text. rewrite opt_terms. cbn [map concat]. unfold term_text at 2, coeff_text. cbn [fst snd]. by rewrite <- !app_assoc. Qed.

Lemma terms_all ic oc xs : terms ic oc xs ⊆ zip PRICE_VARS (ic :: oc :: xs).
Proof.
  rewrite price_vars_eq. cbn [zip zip_with]. intros vx. unfold terms. rewrite !elem_of_cons.
  intros [?|[?|H]]; [tauto|tauto|]. apply list_elem_of_In, filter_In in H as [H _]. apply list_elem_of_In in H. tauto.
Qed.

Lemma filter_sublist {A} (f : A → bool) l : sublist (List.filter f l) l.
Proof. induction l as [|a l IH]; [constructor|]. cbn. destruct (f a); by constructor. Qed.

Lemma fst_full {A} (ys : list A) : length ys = 9 → map fst (zip PRICE_VARS ys) = PRICE_VARS.
Proof. intros Hl. apply (fst_zip PRICE_VARS). by rewrite Hl. Qed.

Lemma terms_NoDup ic oc xs : length xs = 7 → NoDup (map fst (terms ic oc xs)).
Proof.
  intros Hl. apply (sublist_NoDup _ PRICE_VARS); [apply price_vars_NoDup|].
  rewrite <- (fst_full (ic :: oc :: xs)) by (simpl; by rewrite Hl). apply (fmap_sublist fst).
  rewrite price_vars_eq. cbn [zip zip_with]. unfold terms. do 2 constructor. apply filter_sublist.
Qed.

Lemma price_given ic oc xs v x : tier_nums ic oc xs → (v, x) ∈ zip PRICE_VARS (ic :: oc :: xs) → price_num x = true.
Proof.
  intros [Hi Ho Hl Hx] Hin%elem_of_zip_r. rewrite !elem_of_cons in Hin. destruct Hin as [->|[->|Hin]]; [done|done|].
  rewrite Forall_forall in Hx. by apply Hx.
Qed.

Lemma price_read ic oc xs v x : tier_nums ic oc xs → (v, x) ∈ zip PRICE_VARS (ic :: oc :: xs) →
  or_zero (coeff_of v (terms ic oc xs)) = x.
Proof.
  intros Hn Hin. pose proof (price_given ic oc xs v x Hn Hin) as Hpx. pose proof (tn_len _ _ _ Hn) as Hl.
  pose proof (terms_NoDup ic oc xs Hl) as Hnd.
  destruct (decide ((v, x) ∈ terms ic oc xs)) as [Ht|Ht]; [rewrite (coeff_read _ v x) by done; by apply price_or_zero|].
  rewrite coeff_unread.
  - assert (is_zero x = true) as Hz.
    { rewrite price_vars_eq in Hin. cbn [zip zip_with] in Hin. unfold terms in Ht. rewrite !elem_of_cons in Hin. rewrite !not_elem_of_cons in Ht.
      destruct Hin as [?|[?|Hin]]; [tauto|tauto|]. destruct (is_zero x) eqn:E; [done|]. destruct Ht as (_ & _ & Ht). exfalso. apply Ht.
      apply list_elem_of_In, filter_In. split; [by apply list_elem_of_In|]. unfold kept. cbn [snd]. by rewrite E. }
    clear -Hpx Hz. unfold price_num in Hpx. apply andb_true_iff in Hpx as [_ Hpx]. by destruct x as [[]| | |[] ? ?].
  - intros Hv. apply elem_of_lmap in Hv as ([w y] & -> & Hw). pose proof (terms_all ic oc xs _ Hw) as Hw'. cbn [fst] in *.
    enough (x = y) by (by subst).
    pose proof price_vars_NoDup as Hpn. rewrite <- (fst_full (ic :: oc :: xs)) in Hpn by (simpl; by rewrite Hl).
    rewrite <- (coeff_read _ _ _ Hpn Hin). by apply coeff_read.
Qed.

(** The prices of a tier, by the names they are shown under. *)
Lemma body_read ic oc xs : tier_nums ic oc xs → parseTierBody (body_text ic oc xs) = zip PRICE_FIELDS (ic :: oc :: xs).
Proof.
  intros Hn. unfold parseTierBody. rewrite body_terms, match_terms.
  - fold (terms ic oc xs). pose proof (tn_len _ _ _ Hn) as Hl. rewrite collect_terms.
    + cbn [app]. pose proof (λ v x, price_read ic oc xs v x Hn) as Hr. unfold PRICE_VARS, PRICE_FIELDS in *.
      assert (length BILLING_VAR_KEY_TO_FIELD = length (ic :: oc :: xs)) as Hlen by (simpl length at 2; by rewrite Hl).
      revert Hr Hlen. generalize (ic :: oc :: xs). generalize (terms ic oc xs). generalize BILLING_VAR_KEY_TO_FIELD. clear. intros kf L.
      induction kf as [|[k f] kf IH]; intros [|y ys] Hr Hlen; try done. cbn [map zip zip_with fst snd] in *. f_equal.
      * f_equal. apply Hr. apply elem_of_cons. by left.
      * apply IH; [|by injection Hlen]. intros v x Hin. apply Hr. apply elem_of_cons. by right.
    + by apply terms_NoDup.
    + apply Forall_forall. intros [v x] Hin%terms_all. exact (price_given ic oc xs v x Hn Hin).
  - fold (terms ic oc xs). apply Forall_forall. intros [v x] Hin%terms_all. split; [by apply elem_of_zip_l in Hin|exact (price_given ic oc xs v x Hn Hin)].
Qed.

(** ** The scan over the tiers *)

Definition not_close (c : N) : bool := negb (c =? 41)%N.

Lemma num_not_close x : price_num x = true → Forall (λ c, not_close c = true) (string_of_num x).
Proof.
  intros (_ & _ & H)%price_num_text. eapply Forall_impl; [exact H|]. intros c Hc. unfold not_close. apply negb_true_iff, N.eqb_neq. intros ->. discriminate Hc.
Qed.

Lemma body_not_close ic oc xs : tier_nums ic oc xs → Forall (λ c, not_close c = true) (body_text ic oc xs).
Proof.
  intros Hn. rewrite body_terms.
  assert (∀ vx, vx ∈ terms ic oc xs → Forall (λ c, not_close c = true) (coeff_text vx)) as H.
  { intros [v x] Hin%terms_all. unfold coeff_text. cbn [fst snd]. apply Forall_app. split.
    - apply elem_of_zip_l in Hin. revert v Hin. apply Forall_forall. rewrite price_vars_eq, extra_vars_eq. repeat constructor.
    - apply Forall_app. split; [by repeat constructor|]. apply num_not_close. exact (price_given ic oc xs v x Hn Hin). }
  apply Forall_app. split; [apply H; apply elem_of_cons; by left|]. apply Forall_concat, Forall_forall. intros w Hw.
  apply elem_of_lmap in Hw as (vx & -> & Hvx). unfold term_text. apply Forall_app. split; [by repeat constructor|].
  apply H. apply elem_of_cons. by right.
Qed.

Definition read_caps (s : TierSpec) : list (option str) :=
  [Some (seg_text s); cond_cap (ts_conds s); Some (ts_label s); Some (body_text (ts_in s) (ts_out s) (ts_extra s))].

Definition call_re : list regex :=
  [rlit (js "tier(" ++ dq); RGroup 2 (rstar (RChar not_quote)); rlit (dq ++ js ","); r_spaces; RGroup 3 (rplus (RChar not_close)); rlit (js ")")].

Lemma m_call k bef lbl ic oc xs t a :
  Forall (λ c, not_quote c = true) lbl → tier_nums ic oc xs →
  ∃ bef', ∀ y, k (mk bef' t [None; a; Some lbl; Some (body_text ic oc xs)]) = Some y →
    m (rseq call_re) k (mk bef (tier_text lbl ic oc xs ++ t) [None; a; None; None]) = Some y.
Proof.
  intros Hl Hn. eexists. intros y Hk. unfold call_re. cbn [rseq]. rewrite !m_seq. unfold tier_text. rewrite <- !app_assoc.
  rewrite (app_assoc (js "tier(") dq), m_lit, m_group_star_det; [|done|done|].
  - change (dq ++ js ", " ++ ?u) with ((dq ++ js ",") ++ 32%N :: u). rewrite m_lit.
    apply m_spaces_one; [done|]. apply m_group_plus_commit; [done|by apply body_not_close|done|]. rewrite m_lit. exact Hk.
  - intros bef' c s cs' Hc. apply m_lit_head_fail. unfold not_quote in Hc.
    apply negb_true_iff, N.eqb_neq in Hc. congruence.
Qed.

Lemma read_seg s bef t :
  wf_spec s = true → ∃ bef', match_at 3 tierRe bef (seg_text s ++ t) = Some (mk bef' t (read_caps s)).
Proof.
  intros (Hne & Hl & Hc & Hn)%wf_spec_spec. unfold match_at. rewrite m_group. set (k := λ y, Some _).
  change (m tierRe k) with (m guard_re (m (rseq call_re) k)).
  destruct s as [lbl conds ic oc xs]. unfold read_caps. cbn [ts_label ts_conds ts_in ts_out ts_extra] in *.
  destruct (m_guard conds (m (rseq call_re) k) bef (drop 5 (tier_text lbl ic oc xs) ++ t) (replicate 4 None)) as [b1 H1]; [done|done|].
  destruct (m_call k b1 lbl ic oc xs t (cond_cap conds)) as [b2 H2]; [done|done|].
  exists b2. match goal with |- m ?r ?K (mk ?b (?x ++ ?t) ?cs) = ?y =>
    enough (m r K (mk b (guard_text conds ++ js "tier(" ++ drop 5 (tier_text lbl ic oc xs) ++ t) cs) = y) as H
      by (rewrite <- tier_text_head, app_assoc in H; exact H) end.
  apply H1. rewrite <- tier_text_head. apply H2. unfold k. cbn [before after caps]. by rewrite take_consumed.
Qed.

Lemma read_separator bef t : exec_from 3 tierRe bef (js " : " ++ t) = exec_from 3 tierRe (rev (js " : ") ++ bef) t.
Proof. change (js " : " ++ t) with (32%N :: 58%N :: 32%N :: t). by rewrite !exec_from_next. Qed.

Definition read_segs := scan_segs 3 tierRe read_caps read_separator read_seg.

Lemma tail_unread specs bef : exec_from 3 tierRe bef (tail_text specs) = None.
Proof. unfold tail_text. destruct specs as [|s [|]]; [done| |done]. destruct (bool_decide _); [done|vm_compute; reflexivity]. Qed.

(** The tier shown for a specification. *)
Definition read_tier (s : TierSpec) : ParsedTier := {|
  tier_label := ts_label s; tier_conditions := map read_of_cond (ts_conds s);
  prices := zip PRICE_FIELDS (ts_in s :: ts_out s :: ts_extra s) |}.

Lemma version_none c u : c ≠ 118%N → match_re 2 VERSION_RE (c :: u) = None.
Proof. intros Hc. unfold VERSION_RE. apply match_re_none. intros k. cbn [rseq]. rewrite !m_seq. apply m_lit_head_fail. exact (not_eq_sym Hc). Qed.

(** The readers of expressions see the tiers the visual editor wrote. *)
Lemma tiers_read specs : specs ≠ [] → forallb wf_spec specs = true → length specs = 1 ∨ last_unguarded specs = true →
  parseTiersFromExpr (generateExprFromVisualConfig (Some (map tier_of_spec specs))) = map read_tier specs.
Proof.
  intros Hne Hwf Hlast. rewrite generated_text by done. destruct specs as [|s specs]; [done|].
  assert (∃ c u, segs_text (s :: specs) ++ tail_text (s :: specs) = c :: u ∧ c ≠ 118%N) as (c & u & E & Hc).
  { cbn [forallb] in Hwf. apply andb_true_iff in Hwf as [Hs _]. destruct (seg_head s Hs) as (c & u & Eh & Hc & _).
    rewrite segs_text_cons, Eh. eexists c, _. by split; [reflexivity|]. }
  unfold parseTiersFromExpr, stripExprVersion. rewrite E. cbn [truthy negb]. rewrite version_none by done. cbn [snd]. rewrite <- E.
  rewrite read_segs; [|intros bef; apply tail_unread|done]. rewrite map_map. apply map_ext_in. intros x Hx.
  rewrite forallb_forall in Hwf. specialize (Hwf x Hx). apply wf_spec_spec in Hwf as (_ & _ & Hcd & Hn).
  change (cap (read_caps x) 1) with (default [] (cond_cap (ts_conds x))). rewrite read_guard by done.
  change (cap (read_caps x) 3) with (body_text (ts_in x) (ts_out x) (ts_extra x)). by rewrite body_read.
Qed.

(** ** In the logs *)

(** The prices of a specification that are shown. *)
Definition shown_prices (cached : bool) (s : TierSpec) : list PriceEntry :=
  omap (λ vx : BillingVar * num,
    if nlt pzero (snd vx) && (cached || negb (bool_decide (group_ (fst vx) = Some (js "cache"))))
    then Some {| pe_field := default [] (field (fst vx)); pe_shortLabel := shortLabel (fst vx); pe_price := snd vx |} else None)
    (zip BILLING_PRICING_VARS (ts_in s :: ts_out s :: ts_extra s)).

Lemma price_fields_NoDup : NoDup PRICE_FIELDS.
Proof. apply (bool_decide_unpack _). vm_compute. exact I. Qed.

Lemma fields_given : forallb (λ v, match field v with Some (_ :: _) => true | _ => false end) BILLING_PRICING_VARS = true.
Proof. vm_compute. reflexivity. Qed.

Lemma find_zip {A} (fs : list str) (xs : list A) i f x : NoDup fs → fs !! i = Some f → xs !! i = Some x →
  snd <$> find (λ kv, bool_decide (fst kv = f)) (zip fs xs) = Some x.
Proof.
  revert i xs. induction fs as [|g fs IH]; intros i xs Hnd Hf Hx; [done|]. apply NoDup_cons in Hnd as [Hg Hnd].
  destruct xs as [|y xs]; [done|]. cbn [zip zip_with find fst]. destruct i as [|i].
  - injection Hf as ->. injection Hx as ->. by rewrite bool_decide_eq_true_2.
  - rewrite bool_decide_eq_false_2; [by apply (IH i)|]. intros ->. apply Hg. by apply (list_elem_of_lookup_2 _ i).
Qed.

Lemma price_positive x : price_num x = true → is_finite x = true.
Proof. unfold price_num. rewrite andb_true_iff. intros [_ H]. by destruct x as [[]| | |]. Qed.

Lemma entries_of_spec s cached : tier_nums (ts_in s) (ts_out s) (ts_extra s) →
  flat_map (price_entry cached (read_tier s)) BILLING_PRICING_VARS = shown_prices cached s.
Proof.
  intros Hn. unfold shown_prices. set (xs := ts_in s :: ts_out s :: ts_extra s).
  assert (length xs = 9) as Hlen by (unfold xs; simpl; by rewrite (tn_len _ _ _ Hn)).
  assert (∀ i v x, BILLING_PRICING_VARS !! i = Some v → xs !! i = Some x →
    price_entry cached (read_tier s) v =
    if nlt pzero x && (cached || negb (bool_decide (group_ v = Some (js "cache"))))
    then [{| pe_field := default [] (field v); pe_shortLabel := shortLabel v; pe_price := x |}] else []) as H.
  { intros i v x Hv Hx. pose proof fields_given as Hg. rewrite forallb_forall in Hg.
    specialize (Hg v (proj1 (list_elem_of_In _ _) (list_elem_of_lookup_2 _ _ _ Hv))).
    assert (PRICE_FIELDS !! i = Some (default [] (field v))) as Hf
      by (unfold PRICE_FIELDS, BILLING_VAR_KEY_TO_FIELD; rewrite map_map; rewrite list_lookup_fmap, Hv; reflexivity).
    assert (price_num x = true) as Hp.
    { assert (∃ w, PRICE_VARS !! i = Some w) as [w Hw].
      { apply lookup_lt_is_Some_2. apply lookup_lt_Some in Hx. unfold xs in *. change (length PRICE_VARS) with 9. lia. }
      apply (price_given _ _ _ w x Hn). apply (list_elem_of_lookup_2 _ i). fold xs. rewrite lookup_zip_with, Hw. cbn [mbind option_bind]. by rewrite Hx. }
    unfold price_entry. destruct (field v) as [[|c f]|]; try discriminate Hg. cbn [truthy negb].
    change (default [] (Some (c :: f))) with (c :: f) in *.
    assert (tier_price (read_tier s) (c :: f) = x) as ->.
    { unfold tier_price, read_tier. cbn [prices]. fold xs. rewrite (find_zip PRICE_FIELDS xs i (c :: f) x price_fields_NoDup Hf Hx). reflexivity. }
    rewrite price_positive by done. change (num_of_Z 0) with pzero. cbn [andb].
    destruct (bool_decide (group_ v = Some (js "cache"))), cached, (nlt pzero x); reflexivity. }
  clearbody xs. assert (length BILLING_PRICING_VARS = length xs) as Hl by by rewrite Hlen.
  clear Hlen Hn. revert xs H Hl. generalize BILLING_PRICING_VARS. intros vs. induction vs as [|v vs IH]; intros [|x xs] H Hl; try done.
  cbn [flat_map zip zip_with omap list_omap fst snd]. rewrite (H 0 v x eq_refl eq_refl).
  rewrite (IH xs); [|intros i; exact (H (S i))|by injection Hl].
  destruct (nlt pzero x && _); reflexivity.
Qed.

Section log.
Context (toLowerCase : str → str) (text_decode : list N → str).
Abbreviation normal_label := (normalizeTierLabel toLowerCase).

Lemma find_read specs label :
  find (λ t, bool_decide (normal_label (tier_label t) = normal_label label) && truthy (normal_label (tier_label t))) (map read_tier specs)
  = read_tier <$> find (λ s, bool_decide (normal_label (ts_label s) = normal_label label) && truthy (normal_label (ts_label s))) specs.
Proof. induction specs as [|a specs IH]; [done|]. cbn [map find]. change (tier_label (read_tier a)) with (ts_label a). rewrite IH. by destruct (_ && _). Qed.

Lemma find_told_apart specs s : NoDup (map (normal_label ∘ ts_label) specs) → s ∈ specs → normal_label (ts_label s) ≠ [] →
  find (λ t, bool_decide (normal_label (ts_label t) = normal_label (ts_label s)) && truthy (normal_label (ts_label t))) specs = Some s.
Proof.
  intros Hnd Hin Hs. induction specs as [|a specs IH]; [by apply elem_of_nil in Hin|]. cbn [map] in Hnd. apply NoDup_cons in Hnd as [Ha Hnd].
  cbn [find]. apply elem_of_cons in Hin as [<-|Hin].
  - rewrite bool_decide_eq_true_2 by reflexivity. by destruct (normal_label (ts_label s)).
  - rewrite bool_decide_eq_false_2; [by apply IH|]. intros E. apply Ha. cbn. rewrite E. apply elem_of_lmap. by exists s.
Qed.

(** C3: A log of a request that was billed with an expression of the visual editor (of a configuration with proper labels and bounds whose last tier is unguarded) shows the tiers that were set up.  The tier shown is the first configured one whose
    label is the recorded label up to the case, spaces and comparison signs that the logs ignore, and nothing is shown if there is none; of that
    tier exactly the positive prices are shown, in the order of the variables, those of the cache only if the request used it.  If no two labels agree
    up to what the logs ignore, a request recorded with the label of a configured tier is shown with that tier. *)
Theorem configured_tier_logged specs label rest :
  specs ≠ [] → forallb wf_spec specs = true → length specs = 1 ∨ last_unguarded specs = true → label ≠ [] →
  let e := generateExprFromVisualConfig (Some (map tier_of_spec specs)) in
  units e → decodes text_decode e →
  let other := tiered_log e label rest in
  let shown s := {| s_tiers := map read_tier specs; s_tier := read_tier s; s_priceEntries := shown_prices (hasAnyCacheTokens other) s |} in
  getTieredBillingSummary toLowerCase text_decode other =
    shown <$> find (λ s, bool_decide (normal_label (ts_label s) = normal_label label) && truthy (normal_label (ts_label s))) specs ∧
  (∀ s, s ∈ specs → label = ts_label s → NoDup (map (normal_label ∘ ts_label) specs) → normal_label label ≠ [] →
     getTieredBillingSummary toLowerCase text_decode other = Some (shown s)).
Proof.
  intros Hne Hwf Hlast Hlab e Hu Hd other shown.
  assert (getTieredBillingSummary toLowerCase text_decode other =
    shown <$> find (λ s, bool_decide (normal_label (ts_label s) = normal_label label) && truthy (normal_label (ts_label s))) specs) as E.
  - assert (e ≠ []) as He.
    { unfold e. rewrite generated_text by done. destruct specs as [|a specs']; [done|]. rewrite segs_text_cons.
      pose proof (seg_text_ne a). by destruct (seg_text a). }
    unfold other. rewrite summary_of_log by done. pose proof (tiers_read specs Hne Hwf Hlast) as Ht. fold e in Ht. rewrite Ht, find_read.
    destruct (find _ specs) as [s|] eqn:Es; [|done]. cbn [fmap option_fmap option_map]. unfold shown. rewrite entries_of_spec; [done|].
    apply find_some in Es as [Hin _]. rewrite forallb_forall in Hwf. by specialize (Hwf s Hin) as (_ & _ & _ & ?)%wf_spec_spec.
  - split; [exact E|]. intros s Hin -> Hnd Hs. rewrite E, find_told_apart by done. done.
Qed.
End log.

Lemma configured_tier_logged_witness :
  let e := generateExprFromVisualConfig (Some (map tier_of_spec sample_specs)) in
  let other := tiered_log e (js "long context") [] in
  (map pe_price ∘ s_priceEntries <$> getTieredBillingSummary (λ s, s) demo_decode other) = Some [number_of_string (js "2.5"); num_of_Z 15].
Proof.
  cbv zeta. destruct (configured_tier_logged (λ s, s) demo_decode sample_specs (js "long context") []) as [H _].
  - discriminate.
  - vm_compute. reflexivity.
  - right. vm_compute. reflexivity.
  - discriminate.
  - apply (bool_decide_unpack _). vm_compute. exact I.
  - vm_compute. reflexivity.
  - rewrite H. vm_compute. reflexivity.
Defined.
