(* ===== verification/Passkey.v ===== *)
(** * Passkeys

    [lib/passkey.ts]: bytes as base64url texts, the options of the server made ready for the browser, and the browser's answers made ready for the
    server.

    An [ArrayBuffer] is the list of its bytes.  The prepared options are records: the members the code converts, and the others as they were
    spread.  [Buffer]'s decoder, which is used only where there is no [atob], is an argument. *)

From S2P Require Import Prelude JsString Regex JsNumber Json JsonFacts JsEncode.

(** ** Base64url *)

Definition url_char (c : N) : N := (if c =? 43 then 45 else if c =? 47 then 95 else c)%N.
Definition plain_char (c : N) : N := (if c =? 45 then 43 else if c =? 95 then 47 else c)%N.

(** [replace(/=+$/g, '')] *)
Definition drop_padding (s : str) : str := rev (snd (take_while (N.eqb 61) (rev s))).

Section base64url.
(** Whether the platform has [atob] and [btoa], and its [Buffer], if any: decoding of base64 to a binary text. *)
Context (has_atob has_btoa : bool) (Buffer : option (str → str)).

Definition decode (input : str) : outcome str :=
  if has_atob then atob input else match Buffer with Some from => Ret (from input) | None => Throw end.

Definition encode (binary : str) : outcome str :=
  if has_btoa then btoa binary else match Buffer with Some _ => Ret (base64 binary) | None => Throw end.

(** The padding that completes a group of four. *)
Definition padding (n : nat) : str := repeat 61%N ((4 - n mod 4) mod 4).

(** The text that is decoded: a value that has no length gets no padding. *)
Definition padded (v : json) : str :=
  json_to_string v ++ match v with JStr s => padding (length s) | JArr l => padding (length l) | _ => [] end.

(** An object is written with brackets, which no decoder of the browser accepts. *)
Definition base64UrlToArrayBuffer (value : option json) : outcome (list N) :=
  match value with
  | Some v => if json_truthy value then decode (map plain_char (padded v)) else Ret []
  | None => Ret []
  end.

Definition arrayBufferToBase64Url (buffer : option (list N)) : outcome str :=
  match buffer with
  | Some bs => t ← encode bs; Ret (drop_padding (map url_char t))
  | None => Ret []
  end.

(** ** Options of the server *)

Record Descriptor := { d_rest : obj; d_id : list N }.

(** [{ ...item, id: base64UrlToArrayBuffer(item.id) }]; reading a member of [null] throws. *)
Definition descriptor (item : json) : outcome Descriptor :=
  match item with
  | JNull => Throw
  | _ => id ← base64UrlToArrayBuffer (opt_prop (js "id") (Some item)); Ret {| d_rest := obj_delete (js "id") (entries_of item); d_id := id |}
  end.

Definition passkey_options (payload : option json) : option json :=
  coalesce (opt_prop (js "publicKey") payload)
    (coalesce (opt_prop (js "PublicKey") payload)
      (coalesce (opt_prop (js "response") payload) (opt_prop (js "Response") payload))).

(** A member that is converted if it is an array, and otherwise left as it was spread. *)
Definition descriptors (k : str) (options : json) : outcome (option (list Descriptor)) :=
  match opt_prop k (Some options) with
  | Some (JArr l) => ds ← mapM descriptor l; Ret (Some ds)
  | _ => Ret None
  end.

Definition other_members (ks : list str) (o : obj) : obj := List.filter (λ kv, negb (bool_decide (fst kv ∈ ks))) o.

Record CreationOptions := {
  co_rest : obj; co_challenge : list N; co_user_rest : obj; co_user_id : list N; co_exclude : option (list Descriptor) }.

Definition prepareCredentialCreationOptions (payload : option json) : outcome CreationOptions :=
  match passkey_options payload with
  | Some options =>
      if negb (json_truthy (Some options)) then Throw
      else
        challenge ← base64UrlToArrayBuffer (opt_prop (js "challenge") (Some options));
        let user := opt_prop (js "user") (Some options) in
        user_id ← base64UrlToArrayBuffer (opt_prop (js "id") user);
        exclude ← descriptors (js "excludeCredentials") options;
        let dropped := match opt_prop (js "attestationFormats") (Some options) with Some (JArr []) => [js "attestationFormats"] | _ => [] end in
        Ret {| co_rest := other_members (js "challenge" :: js "user" :: dropped ++ match exclude with Some _ => [js "excludeCredentials"] | None => [] end)
                            (entries_of options);
               co_challenge := challenge; co_user_rest := obj_delete (js "id") (match user with Some u => entries_of u | None => [] end);
               co_user_id := user_id; co_exclude := exclude |}
  | None => Throw
  end.

Record RequestOptions := { ro_rest : obj; ro_challenge : list N; ro_allow : option (list Descriptor) }.

Definition prepareCredentialRequestOptions (payload : option json) : outcome RequestOptions :=
  match passkey_options payload with
  | Some options =>
      if negb (json_truthy (Some options)) then Throw
      else
        challenge ← base64UrlToArrayBuffer (opt_prop (js "challenge") (Some options));
        allow ← descriptors (js "allowCredentials") options;
        Ret {| ro_rest := other_members (js "challenge" :: match allow with Some _ => [js "allowCredentials"] | None => [] end) (entries_of options);
               ro_challenge := challenge; ro_allow := allow |}
  | None => Throw
  end.

(** ** Answers of the browser *)

Record Credential := {
  c_id : str; c_rawId : list N; c_type : str; c_attachment : json; c_extensions : option json }.

Record Attestation := { a_attestationObject : list N; a_clientDataJSON : list N; a_transports : option (list str) }.
Record Assertion := { s_authenticatorData : list N; s_clientDataJSON : list N; s_signature : list N; s_userHandle : option (list N) }.

(** The members both answers have, with the response of each. *)
Definition credential_payload (c : Credential) (rawId : str) (response : obj) : json :=
  JObj [(js "id", JStr (c_id c)); (js "rawId", JStr rawId); (js "type", JStr (c_type c)); (js "authenticatorAttachment", c_attachment c);
        (js "response", JObj response);
        (js "clientExtensionResults", match coalesce (c_extensions c) None with Some e => e | None => JObj [] end)].

Definition buildRegistrationResult (credential : option (Credential * Attestation)) : outcome (option json) :=
  match credential with
  | None => Ret None
  | Some (c, r) =>
      rawId ← arrayBufferToBase64Url (Some (c_rawId c));
      att ← arrayBufferToBase64Url (Some (a_attestationObject r));
      data ← arrayBufferToBase64Url (Some (a_clientDataJSON r));
      Ret (Some (credential_payload c rawId
        ([(js "attestationObject", JStr att); (js "clientDataJSON", JStr data)]
         ++ match a_transports r with Some ts => [(js "transports", JArr (map JStr ts))] | None => [] end)))
  end.

Definition buildAssertionResult (credential : option (Credential * Assertion)) : outcome (option json) :=
  match credential with
  | None => Ret None
  | Some (c, r) =>
      rawId ← arrayBufferToBase64Url (Some (c_rawId c));
      auth ← arrayBufferToBase64Url (Some (s_authenticatorData r));
      data ← arrayBufferToBase64Url (Some (s_clientDataJSON r));
      signature ← arrayBufferToBase64Url (Some (s_signature r));
      handle ← match s_userHandle r with Some h => t ← arrayBufferToBase64Url (Some h); Ret (JStr t) | None => Ret JNull end;
      Ret (Some (credential_payload c rawId
        [(js "authenticatorData", JStr auth); (js "clientDataJSON", JStr data); (js "signature", JStr signature); (js "userHandle", handle)]))
  end.
End base64url.

(** ** Support *)

(** The platform's answers: whether there is a window and [PublicKeyCredential], and what its two questions, where they
    exist, come to. *)
Record PlatformSupport := { conditional : option (outcome bool); verifying : option (outcome bool) }.

Definition isPasskeySupported (window : bool) (credential : option PlatformSupport) : bool :=
  if negb window then false
  else match credential with
       | None => false
       | Some p =>
           match conditional p with
           | Some (Ret true) => true
           | _ => match verifying p with Some (Ret b) => b | Some Throw => false | None => true end
           end
       end.

(** * Properties of passkeys

    Bytes survive their base64url text, so the browser is asked with the server's challenge and credentials and the server gets
    the bytes of the authenticator. *)


(** ** Base64url *)

Definition base64url (bs : list N) : str := map url_char (map b64_char (base64_digits_of bs)).

(** Letters, digits, hyphen and underscore. *)
Definition url_safe (c : N) : bool :=
  ((65 <=? c) && (c <=? 90) || (97 <=? c) && (c <=? 122) || is_digit c || (c =? 45) || (c =? 95))%N.

Lemma b64_char_cases n : (n < 64)%N → let c := b64_char n in
  (65 ≤ c ≤ 90 ∨ 97 ≤ c ≤ 122 ∨ 48 ≤ c ≤ 57 ∨ c = 43 ∨ c = 47)%N.
Proof.
  intros Hn. unfold b64_char. cbv zeta.
  destruct (N.ltb_spec n 26); [lia|]. destruct (N.ltb_spec n 52); [lia|]. destruct (N.ltb_spec n 62); [lia|]. destruct (N.eqb_spec n 62); lia.
Qed.

Lemma url_char_safe n : (n < 64)%N → url_safe (url_char (b64_char n)) = true.
Proof.
  intros H%b64_char_cases. cbv zeta in H. unfold url_char. destruct (N.eqb_spec (b64_char n) 43); [done|]. destruct (N.eqb_spec (b64_char n) 47); [done|].
  unfold url_safe, is_digit. rewrite !orb_true_iff, !andb_true_iff, !N.leb_le, !N.eqb_eq. lia.
Qed.

Lemma plain_url_char n : (n < 64)%N → plain_char (url_char (b64_char n)) = b64_char n.
Proof.
  intros H%b64_char_cases. cbv zeta in H. unfold url_char. destruct (N.eqb_spec (b64_char n) 43) as [->|]; [done|].
  destruct (N.eqb_spec (b64_char n) 47) as [->|]; [done|]. unfold plain_char.
  rewrite (proj2 (N.eqb_neq _ 45)) by lia. by rewrite (proj2 (N.eqb_neq _ 95)) by lia.
Qed.

Lemma base64url_safe bs : bytes bs → Forall (λ c, url_safe c = true) (base64url bs).
Proof.
  intros H%base64_digits_small. unfold base64url. rewrite map_map. apply Forall_fmap. eapply Forall_impl; [exact H|]. intros n. apply url_char_safe.
Qed.

Lemma drop_padding_app s p : Forall (λ c, (61 =? c)%N = true) p → match rev s with [] => True | c :: _ => (61 =? c)%N = false end → drop_padding (s ++ p) = s.
Proof.
  intros Hp Hs. unfold drop_padding. rewrite rev_app_distr. apply Forall_rev in Hp. revert Hp. generalize (rev p). intros q Hq. induction Hq as [|c q Hc Hq IH].
  - cbn [app]. destruct (rev s) as [|c r] eqn:E; [by rewrite <- (rev_involutive s), E|]. cbn [take_while]. rewrite Hs. cbn [snd]. by rewrite <- E, rev_involutive.
  - cbn [app take_while]. rewrite Hc. by destruct (take_while _ _).
Qed.

Lemma encoded_url bs : bytes bs → drop_padding (map url_char (base64 bs)) = base64url bs.
Proof.
  intros Hb. rewrite base64_as_digits, map_app. apply drop_padding_app.
  - unfold padding_of. destruct (length bs mod 3) as [|[|[|]]]; repeat constructor.
  - fold (base64url bs). pose proof (base64url_safe bs Hb) as H. apply Forall_rev in H. destruct H as [|c l Hc _]; [done|].
    apply N.eqb_neq. intros <-. discriminate Hc.
Qed.

Lemma padding_found bs : padding (length (base64url bs)) = padding_of bs.
Proof.
  pose proof (length_base64_digits bs) as H. unfold base64url. rewrite !length_map. set (n := length (base64_digits_of bs)) in *.
  assert (∃ p, padding_of bs = repeat 61%N p ∧ p < 4) as (p & Hp & Hlt).
  { unfold padding_of. destruct (length bs mod 3) as [|[|[|]]]; [exists 0|exists 2|exists 1|exists 0]; (split; [reflexivity|lia]). }
  rewrite Hp in *. rewrite repeat_length in H. unfold padding. f_equal.
  pose proof (Nat.div_mod_eq n 4). pose proof (Nat.div_mod_eq (n + p) 4). pose proof (Nat.mod_upper_bound n 4).
  destruct (decide (n mod 4 = 0)) as [E|E]; [rewrite E; change ((4 - 0) mod 4) with 0; lia|]. rewrite (Nat.mod_small (4 - n mod 4)) by lia. lia.
Qed.

Section roundtrip.
Context (Buffer : option (str → str)).
Abbreviation to_text := (arrayBufferToBase64Url true Buffer).
Abbreviation to_bytes := (base64UrlToArrayBuffer true Buffer).

Lemma forallb_bytes bs : bytes bs → forallb is_byte bs = true.
Proof. intros H. apply forallb_forall. intros c Hc. unfold is_byte. apply N.ltb_lt. exact (proj1 (Forall_forall _ _) H c (proj2 (list_elem_of_In _ _) Hc)). Qed.

Lemma to_text_url bs : bytes bs → to_text (Some bs) = Ret (base64url bs).
Proof. intros Hb. unfold arrayBufferToBase64Url, encode, btoa. rewrite forallb_bytes by done. cbn. by rewrite encoded_url. Qed.

Lemma to_bytes_url bs : bytes bs → to_bytes (Some (JStr (base64url bs))) = Ret bs.
Proof.
  intros Hb. unfold base64UrlToArrayBuffer. cbn [json_truthy]. destruct (truthy (base64url bs)) eqn:E.
  - unfold decode, padded. cbn [json_to_string]. rewrite padding_found, map_app. unfold base64url.
    assert (map plain_char (map url_char (map b64_char (base64_digits_of bs))) = map b64_char (base64_digits_of bs)) as ->.
    { rewrite !map_map. apply map_ext_in. intros n Hn. apply plain_url_char. apply base64_digits_small in Hb. rewrite Forall_forall in Hb.
      apply Hb. by apply list_elem_of_In. }
    assert (map plain_char (padding_of bs) = padding_of bs) as -> by (unfold padding_of; by destruct (length bs mod 3) as [|[|[|]]]).
    rewrite <- base64_as_digits. by apply atob_base64.
  - destruct bs as [|a [|b [|c bs]]]; done.
Qed.

Definition decodes_to (o : obj) (k : string) (bs : list N) : Prop :=
  ∃ s, obj_get (js k) o = Some (JStr s) ∧ Forall (λ c, url_safe c = true) s ∧ to_bytes (Some (JStr s)) = Ret bs.

(** The options of a server that writes bytes as base64url. *)
Definition server_descriptor (id : list N) : json := JObj [(js "type", JStr (js "public-key")); (js "id", JStr (base64url id))].
Definition server_options (challenge : list N) (ids : list (list N)) (rest : obj) : json :=
  JObj [(js "publicKey", JObj ((js "challenge", JStr (base64url challenge)) :: (js "allowCredentials", JArr (map server_descriptor ids)) :: rest))].

Lemma descriptor_read id : bytes id →
  descriptor true Buffer (server_descriptor id) = Ret {| d_rest := [(js "type", JStr (js "public-key"))]; d_id := id |}.
Proof.
  intros Hb. unfold descriptor, server_descriptor.
  change (opt_prop (js "id") _) with (Some (JStr (base64url id))). rewrite to_bytes_url by done. reflexivity.
Qed.

Lemma descriptors_read ids : Forall bytes ids →
  mapM (descriptor true Buffer) (map server_descriptor ids) = Ret (map (λ id, {| d_rest := [(js "type", JStr (js "public-key"))]; d_id := id |}) ids).
Proof.
  induction 1 as [|id ids Hb _ IH]; [done|]. cbn [map mapM]. rewrite descriptor_read by done. cbn [mbind outcome_bind]. rewrite IH. reflexivity.
Qed.

(** C28: A passkey ceremony carries bytes unchanged in both directions: the browser is asked with the server's challenge and for exactly the server's
    credentials in their order, and every text of the answer that stands for bytes is url-safe and decodes to the bytes of the
    authenticator, the user handle being [null] if there is none. *)
Theorem passkey_ceremony_exact challenge ids rest c r :
  bytes challenge → Forall bytes ids → bytes (c_rawId c) → bytes (s_authenticatorData r) → bytes (s_clientDataJSON r) → bytes (s_signature r) →
  (∀ h, s_userHandle r = Some h → bytes h) →
  (∃ options, prepareCredentialRequestOptions true Buffer (Some (server_options challenge ids rest)) = Ret options ∧
     ro_challenge options = challenge ∧ (map d_id <$> ro_allow options) = Some ids) ∧
  (∃ o response, buildAssertionResult true Buffer (Some (c, r)) = Ret (Some (JObj o)) ∧ obj_get (js "response") o = Some (JObj response) ∧
     obj_get (js "id") o = Some (JStr (c_id c)) ∧ decodes_to o "rawId" (c_rawId c) ∧
     decodes_to response "authenticatorData" (s_authenticatorData r) ∧ decodes_to response "clientDataJSON" (s_clientDataJSON r) ∧
     decodes_to response "signature" (s_signature r) ∧
     match s_userHandle r with Some h => decodes_to response "userHandle" h | None => obj_get (js "userHandle") response = Some JNull end).
Proof.
  intros Hch Hids Hraw Hauth Hdata Hsig Hh. split.
  - unfold prepareCredentialRequestOptions, passkey_options.
    change (opt_prop (js "publicKey") (Some (server_options challenge ids rest))) with
      (Some (JObj ((js "challenge", JStr (base64url challenge)) :: (js "allowCredentials", JArr (map server_descriptor ids)) :: rest))).
    cbn [coalesce json_truthy negb]. unfold descriptors.
    set (o := (js "challenge", _) :: _).
    change (opt_prop (js "challenge") (Some (JObj o))) with (Some (JStr (base64url challenge))).
    change (opt_prop (js "allowCredentials") (Some (JObj o))) with (Some (JArr (map server_descriptor ids))).
    rewrite to_bytes_url, descriptors_read by done. cbn [mbind outcome_bind]. eexists. split; [reflexivity|]. cbn [ro_challenge ro_allow fmap option_fmap option_map].
    split; [reflexivity|]. rewrite map_map. cbn [d_id]. by rewrite map_id.
  - unfold buildAssertionResult. rewrite !to_text_url by done.
    assert (∃ handle, (match s_userHandle r with Some h => t ← to_text (Some h); Ret (JStr t) | None => Ret JNull end) = Ret handle ∧
      match s_userHandle r with Some h => handle = JStr (base64url h) | None => handle = JNull end) as (handle & -> & Hhandle).
    { destruct (s_userHandle r) as [h|]; [|by eexists]. rewrite to_text_url by auto. by eexists. }
    cbn [mbind outcome_bind]. eexists _, _. split; [reflexivity|]. split; [reflexivity|]. split; [reflexivity|].
    assert (∀ k o bs, bytes bs → obj_get (js k) o = Some (JStr (base64url bs)) → decodes_to o k bs) as Hd.
    { intros k o bs Hb Hk. exists (base64url bs). split; [exact Hk|]. split; [by apply base64url_safe|by apply to_bytes_url]. }
    split; [by apply Hd|]. split; [by apply Hd|]. split; [by apply Hd|]. split; [by apply Hd|].
    destruct (s_userHandle r) as [h|]; subst handle; [apply Hd; [by apply Hh|reflexivity]|reflexivity].
Qed.
End roundtrip.

Lemma passkey_ceremony_exact_witness :
  let c := {| c_id := js "AQID"; c_rawId := [1; 2; 3]%N; c_type := js "public-key"; c_attachment := JNull; c_extensions := None |} in
  let r := {| s_authenticatorData := [250; 251]%N; s_clientDataJSON := [123; 125]%N; s_signature := [62; 63; 255]%N; s_userHandle := None |} in
  bytes [255; 254; 253; 252]%N ∧
  ∃ options o response, prepareCredentialRequestOptions true None (Some (server_options [255; 254; 253; 252]%N [[1; 2; 3]; [4]]%N [])) = Ret options ∧
    ro_challenge options = [255; 254; 253; 252]%N ∧ buildAssertionResult true None (Some (c, r)) = Ret (Some (JObj o)) ∧
    obj_get (js "response") o = Some (JObj response) ∧ decodes_to None response "signature" [62; 63; 255]%N.
Proof.
  intros c r. assert (bytes [255; 254; 253; 252]%N) as Hch by (repeat constructor). split; [exact Hch|].
  destruct (passkey_ceremony_exact None [255; 254; 253; 252]%N [[1; 2; 3]; [4]]%N [] c r Hch) as [(options & E1 & E2 & _) (o & response & E3 & E4 & _ & _ & _ & _ & E5 & _)].
  1-5: repeat constructor.
  - discriminate.
  - by exists options, o, response.
Defined.
