(* ===== verification/SecureVerification.v ===== *)
(** * Verification before sensitive actions

    [features/auth/secure-verification] (the hook, its dialog and its requests), [lib/secure-verification.ts], and the two places that use them:
    the key of a channel in [channel-mutate-drawer.tsx] and the passkeys of a profile in [passkey-card.tsx].

    Handlers that wait are tasks; their answers come in any order.  What was asked for, run and shown is logged.  The texts of exceptions of the
    browser are part of its answers. *)

From S2P Require Import Prelude JsString JsNumber Regex Json JsEncode Passkey.

(** ** Answers *)

Inductive Answer := Reply (success : bool) (message : str) (data : option json) | Failed (message : option str).

(** Why a verification failed; the text of an exception of the platform may be unknown. *)
Inductive VerifyResult := Verified | Refused (message : option str).

Definition or_message (m d : str) : str := if truthy m then m else d.

Inductive VerificationMethod := TwoFA | PasskeyMethod.
#[export] Instance VerificationMethod_eq : EqDecision VerificationMethod.
Proof. solve_decision. Defined.

Record VerificationMethods := { has2FA : bool; hasPasskey : bool; passkeySupported : bool }.

Definition defaultMethods : VerificationMethods := {| has2FA := false; hasPasskey := false; passkeySupported := false |}.

(** [Boolean(r?.success) && Boolean(r?.data?.enabled)] *)
Definition enabled_answer (a : Answer) : bool :=
  match a with Reply s _ data => s && json_truthy (opt_prop (js "enabled") data) | Failed _ => false end.

Definition checkVerificationMethods (twoFA passkey : Answer) (supported : bool) : VerificationMethods :=
  match twoFA, passkey with
  | Failed _, _ | _, Failed _ => defaultMethods
  | _, _ => {| has2FA := enabled_answer twoFA; hasPasskey := enabled_answer passkey; passkeySupported := supported |}
  end.

(** The code that is sent, if any. *)
Definition two_fa_code (code : option str) : option str :=
  match code with Some c => let t := trim c in if truthy t then Some t else None | None => None end.

Definition verifyTwoFA (code : option str) (a : Answer) : VerifyResult :=
  match two_fa_code code with
  | None => Refused (Some (js "Please enter the verification code or backup code"))
  | Some _ =>
      match a with
      | Reply true _ _ => Verified
      | Reply false m _ => Refused (Some (or_message m (js "Verification failed")))
      | Failed m => Refused m
      end
  end.

(** What the browser answers when it is asked for a credential. *)
Inductive CredentialAnswer := Given (c : option (Credential * Assertion)) | DOMException (name : str) (message : option str) | Thrown (message : option str).

Record PasskeyAnswers := { begin_ : Answer; credential_ : CredentialAnswer; finish_ : Answer; verify_ : Answer }.

Section verify.
Context (has_atob has_btoa : bool) (Buffer : option (str → str)) (has_credentials : bool).

Definition accepted (a : Answer) (d : str) (next : VerifyResult) : VerifyResult :=
  match a with Reply true _ _ => next | Reply false m _ => Refused (Some (or_message m d)) | Failed m => Refused m end.

Definition login_payload (a : Answer) : option json :=
  match a with Reply _ _ data => coalesce (opt_prop (js "options") data) data | Failed _ => None end.

Definition verifyPasskey (a : PasskeyAnswers) : VerifyResult :=
  if negb has_credentials then Refused (Some (js "Passkey verification is not supported in this environment"))
  else
    accepted (begin_ a) (js "Failed to start verification")
      match prepareCredentialRequestOptions has_atob Buffer (login_payload (begin_ a)) with
      | Throw => Refused (if json_truthy (passkey_options (login_payload (begin_ a))) then None
                          else Some (js "Unable to parse Passkey login options from response"))
      | Ret _ =>
          match credential_ a with
          | DOMException name m =>
              if bool_decide (name = js "NotAllowedError") then Refused (Some (js "Passkey verification was cancelled or timed out"))
              else if bool_decide (name = js "InvalidStateError") then Refused (Some (js "Passkey verification is not available in the current state"))
              else Refused m
          | Thrown m => Refused m
          | Given None => Refused (Some (js "Passkey verification was cancelled"))
          | Given (Some c) =>
              match buildAssertionResult has_btoa Buffer (Some c) with
              | Throw => Refused None
              | Ret None => Refused (Some (js "Unable to build Passkey assertion"))
              | Ret (Some _) =>
                  accepted (finish_ a) (js "Passkey verification failed")
                    (accepted (verify_ a) (js "Failed to complete verification") Verified)
              end
          end
      end.

Record VerifyAnswers := { va_code : Answer; va_passkey : PasskeyAnswers }.

Definition verify (method : VerificationMethod) (code : option str) (a : VerifyAnswers) : VerifyResult :=
  match method with TwoFA => verifyTwoFA code (va_code a) | PasskeyMethod => verifyPasskey (va_passkey a) end.
End verify.

(** ** Errors of calls *)

(** The response of the server, if any, and the text of the error itself. *)
Record CallError := { e_status : option Z; e_code : option json; e_message : option str; e_text : option str }.

Definition VERIFICATION_CODES : list str := [js "VERIFICATION_REQUIRED"; js "VERIFICATION_EXPIRED"; js "VERIFICATION_INVALID"].

Definition isVerificationRequiredError (e : CallError) : bool :=
  bool_decide (e_status e = Some 403%Z) && match e_code e with Some (JStr c) => bool_decide (c ∈ VERIFICATION_CODES) | _ => false end.

Definition extractVerificationInfo (e : CallError) : str := default (js "Secure verification is required") (e_message e).

(** ** The hook *)

(** The calls that are protected. *)
Inductive Call := FetchChannelKey (channel : Z) | Register | Remove.
#[export] Instance Call_eq : EqDecision Call.
Proof. solve_decision. Defined.

Record StartOptions := { preferredMethod : option VerificationMethod; so_title : option str; so_description : option str }.

Record Hook := {
  methods : VerificationMethods; s_method : option VerificationMethod; s_loading : bool; s_code : str; s_title : option str;
  s_description : option str; s_apiCall : option Call; open : bool }.

Definition initialState (ms : VerificationMethods) : Hook := {|
  methods := ms; s_method := None; s_loading := false; s_code := []; s_title := None; s_description := None; s_apiCall := None; open := false |}.

Inductive Task :=
  | Fetching
  | Starting (c : Call) (config : StartOptions)
  | Trying (c : Call) (config : StartOptions)
  | Verifying (c : Call) (m : VerificationMethod) (code : str)
  | Calling (c : Call) (m : VerificationMethod)
  | Registering
  | Removing.

(** A call is run to see whether it needs a verification, after one, or because none is needed. *)
Inductive Reason := Attempt | After (m : VerificationMethod) | Unprotected.

Inductive Entry :=
  | Opened (c : Call) (ms : VerificationMethods)
  | Asked (c : Call) (m : VerificationMethod) (code : str)
  | Replied (c : Call) (m : VerificationMethod) (code : str) (a : VerifyAnswers)
  | Ran (c : Call) (r : Reason)
  | Denied (c : Call) (m : VerificationMethod) (message : option str)
  | CallFailed (c : Call) (m : VerificationMethod) (message : option str)
  | Succeeded (c : Call) (m : VerificationMethod)
  | Informed (message : str)
  | Complained (message : str).

(** Where the hook is used: the drawer of a channel or the passkeys of a profile. *)
Inductive Client := ChannelDrawer | PasskeyCard.

Record System := { hook : Hook; restrictedMethod : option VerificationMethod; tasks : list Task; log : list Entry }.

Definition set_hook (h : Hook) (s : System) : System := {| hook := h; restrictedMethod := restrictedMethod s; tasks := tasks s; log := log s |}.
Definition restrict (r : option VerificationMethod) (s : System) : System := {| hook := hook s; restrictedMethod := r; tasks := tasks s; log := log s |}.
Definition spawn (t : Task) (s : System) : System := {| hook := hook s; restrictedMethod := restrictedMethod s; tasks := tasks s ++ [t]; log := log s |}.
Definition note (e : Entry) (s : System) : System := {| hook := hook s; restrictedMethod := restrictedMethod s; tasks := tasks s; log := log s ++ [e] |}.
Definition without_task (n : nat) (s : System) : System := {| hook := hook s; restrictedMethod := restrictedMethod s; tasks := delete n (tasks s); log := log s |}.

Definition with_methods (ms : VerificationMethods) (h : Hook) : Hook := {|
  methods := ms; s_method := s_method h; s_loading := s_loading h; s_code := s_code h; s_title := s_title h;
  s_description := s_description h; s_apiCall := s_apiCall h; open := open h |}.
Definition with_loading (b : bool) (h : Hook) : Hook := {|
  methods := methods h; s_method := s_method h; s_loading := b; s_code := s_code h; s_title := s_title h;
  s_description := s_description h; s_apiCall := s_apiCall h; open := open h |}.

Definition reset (h : Hook) : Hook := initialState (methods h).
Definition cancel := reset.

Definition setOpen (b : bool) (h : Hook) : Hook := {|
  methods := methods h; s_method := s_method h; s_loading := s_loading h; s_code := s_code h; s_title := s_title h;
  s_description := s_description h; s_apiCall := s_apiCall h; open := b |}.

Definition setCode (code : str) (h : Hook) : Hook := {|
  methods := methods h; s_method := s_method h; s_loading := s_loading h; s_code := code; s_title := s_title h;
  s_description := s_description h; s_apiCall := s_apiCall h; open := open h |}.

Definition switchMethod (m : VerificationMethod) (h : Hook) : Hook := {|
  methods := methods h; s_method := Some m; s_loading := s_loading h; s_code := []; s_title := s_title h;
  s_description := s_description h; s_apiCall := s_apiCall h; open := open h |}.

Definition canUseMethod (ms : VerificationMethods) (m : VerificationMethod) : bool :=
  match m with TwoFA => has2FA ms | PasskeyMethod => hasPasskey ms && passkeySupported ms end.

Definition recommendedMethod (ms : VerificationMethods) : option VerificationMethod :=
  if hasPasskey ms && passkeySupported ms then Some PasskeyMethod else if has2FA ms then Some TwoFA else None.

Definition NO_METHOD : str := js "Please enable Two-factor Authentication or Passkey before proceeding".

Definition startVerification (c : Call) (config : StartOptions) : System → System := spawn (Starting c config).

(** The methods are known. *)
Definition methods_fetched (c : Call) (config : StartOptions) (ms : VerificationMethods) (s : System) : System :=
  let s := set_hook (with_methods ms (hook s)) s in
  if negb (has2FA ms) && negb (hasPasskey ms) then note (Complained NO_METHOD) s
  else
    let h := hook s in
    note (Opened c ms) (set_hook {|
      methods := methods h;
      s_method := match preferredMethod config with Some m => Some m | None => recommendedMethod ms end;
      s_loading := s_loading h; s_code := s_code h; s_title := so_title config; s_description := so_description config;
      s_apiCall := Some c; open := true |} s).

Definition executeVerification (method : option VerificationMethod) (code : option str) (s : System) : System :=
  let h := hook s in
  match s_apiCall h with
  | None => note (Complained (js "Verification is not configured properly")) s
  | Some c =>
      match (match method with Some m => Some m | None => s_method h end) with
      | None => note (Complained (js "Select a verification method first")) s
      | Some m =>
          let code := default (s_code h) code in
          spawn (Verifying c m code) (note (Asked c m code) (set_hook (with_loading true h) s))
      end
  end.

Definition FAILED_TEXT : str := js "Verification failed".

(** The [catch] and [finally] of [executeVerification]; [e] says what failed. *)
Definition verification_failed (e : Entry) (message : option str) (s : System) : System :=
  set_hook (with_loading false (hook s)) (note e (note (Complained (default FAILED_TEXT message)) s)).

(** [autoReset] is always on; the card forgets its restriction in [onSuccess]. *)
Definition verification_done (cl : Client) (c : Call) (m : VerificationMethod) (s : System) : System :=
  let s := note (Succeeded c m) s in
  let s := match cl with PasskeyCard => restrict None s | ChannelDrawer => s end in
  set_hook (with_loading false (reset (hook s))) s.

(** [withVerification]: the call is made at once. *)
Definition withVerification (c : Call) (config : StartOptions) (s : System) : System := spawn (Trying c config) (note (Ran c Attempt) s).

(** ** The dialog *)

Definition availableTabs (ms : VerificationMethods) : list VerificationMethod :=
  (if has2FA ms then [TwoFA] else []) ++ (if hasPasskey ms && passkeySupported ms then [PasskeyMethod] else []).

Definition activeMethod (ms : VerificationMethods) (h : Hook) : option VerificationMethod :=
  match s_method h with Some m => Some m | None => head (availableTabs ms) end.

Definition verifyDisabled (ms : VerificationMethods) (h : Hook) : bool :=
  s_loading h || (bool_decide (activeMethod ms h = Some TwoFA) && (negb (truthy (trim (s_code h))) || (length (s_code h) <? 6))).

Definition handleVerify (ms : VerificationMethods) (s : System) : System :=
  match activeMethod ms (hook s) with
  | None => s
  | Some m => executeVerification (Some m) (match m with TwoFA => Some (s_code (hook s)) | PasskeyMethod => None end) s
  end.

(** The methods the card lets the dialog offer. *)
Definition dialogMethods (restricted : option VerificationMethod) (ms : VerificationMethods) : VerificationMethods :=
  match restricted with
  | None => ms
  | Some r => {| has2FA := bool_decide (r = TwoFA) && has2FA ms; hasPasskey := bool_decide (r = PasskeyMethod) && hasPasskey ms;
                 passkeySupported := passkeySupported ms |}
  end.

Definition offered (cl : Client) (s : System) : VerificationMethods :=
  match cl with ChannelDrawer => methods (hook s) | PasskeyCard => dialogMethods (restrictedMethod s) (methods (hook s)) end.

(** ** Runs *)

Definition REVEAL_OPTIONS : StartOptions := {|
  preferredMethod := Some PasskeyMethod; so_title := Some (js "Verify to view channel key");
  so_description := Some (js "Use Passkey or 2FA to confirm your identity before revealing this channel key.") |}.

Definition card_options (m : VerificationMethod) (description : str) : StartOptions := {|
  preferredMethod := Some m; so_title := Some (js "Security verification"); so_description := Some description |}.

Definition register_fetched (ms : VerificationMethods) (s : System) : System :=
  let s := set_hook (with_methods ms (hook s)) s in
  if negb (has2FA ms) then note (Ran Register Unprotected) s
  else startVerification Register
         (card_options TwoFA (js "Confirm your identity with Two-factor Authentication before registering a Passkey.")) (restrict (Some TwoFA) s).

Definition remove_fetched (ms : VerificationMethods) (s : System) : System :=
  let s := set_hook (with_methods ms (hook s)) s in
  let required := if has2FA ms then Some TwoFA else if hasPasskey ms then Some PasskeyMethod else None in
  match required with
  | None => note (Complained NO_METHOD) s
  | Some m =>
      if bool_decide (m = PasskeyMethod) && negb (passkeySupported ms) then note (Informed (js "This device does not support Passkey")) s
      else startVerification Remove (card_options m (js "Confirm your identity before removing this Passkey from your account.")) (restrict (Some m) s)
  end.

Inductive CallAnswer := Returned | Raised (e : CallError).

Inductive TaskAnswer :=
  | MethodsAnswer (twoFA passkey : Answer) (supported : bool)
  | CallAnswered (a : CallAnswer)
  | VerifyAnswered (a : VerifyAnswers).

Inductive Event :=
  | Mount
  | Reveal (channel : Z)
  | ClickRegister (supported : bool)
  | ClickRemove
  | PressVerify
  | PressCancel
  | TypeCode (code : str)
  | ChooseTab (m : VerificationMethod)
  | Dismiss
  | Arrived (n : nat) (a : TaskAnswer).

Section runs.
Context (has_atob has_btoa : bool) (Buffer : option (str → str)) (has_credentials : bool) (cl : Client).
Abbreviation verify := (verify has_atob has_btoa Buffer has_credentials).

Definition answered (n : nat) (a : TaskAnswer) (s : System) : System :=
  match tasks s !! n, a with
  | Some Fetching, MethodsAnswer t p b => set_hook (with_methods (checkVerificationMethods t p b) (hook s)) (without_task n s)
  | Some (Starting c config), MethodsAnswer t p b => methods_fetched c config (checkVerificationMethods t p b) (without_task n s)
  | Some Registering, MethodsAnswer t p b => register_fetched (checkVerificationMethods t p b) (without_task n s)
  | Some Removing, MethodsAnswer t p b => remove_fetched (checkVerificationMethods t p b) (without_task n s)
  | Some (Trying c config), CallAnswered Returned => without_task n s
  | Some (Trying c config), CallAnswered (Raised e) =>
      if isVerificationRequiredError e
      then startVerification c config (note (Informed (extractVerificationInfo e)) (without_task n s))
      else without_task n s
  | Some (Verifying c m code), VerifyAnswered va =>
      let s := note (Replied c m code va) (without_task n s) in
      match verify m (Some code) va with
      | Verified => spawn (Calling c m) (note (Ran c (After m)) s)
      | Refused message => verification_failed (Denied c m message) message s
      end
  | Some (Calling c m), CallAnswered Returned => verification_done cl c m (without_task n s)
  | Some (Calling c m), CallAnswered (Raised e) => verification_failed (CallFailed c m (e_text e)) (e_text e) (without_task n s)
  | _, _ => s
  end.

Definition step (s : System) (e : Event) : System :=
  let h := hook s in
  match e with
  | Mount => spawn Fetching s
  | Reveal channel => match cl with ChannelDrawer => withVerification (FetchChannelKey channel) REVEAL_OPTIONS s | PasskeyCard => s end
  | ClickRegister supported =>
      match cl with
      | PasskeyCard => if supported then spawn Registering s else note (Informed (js "This device does not support Passkey")) s
      | ChannelDrawer => s
      end
  | ClickRemove => match cl with PasskeyCard => spawn Removing s | ChannelDrawer => s end
  | PressVerify =>
      if negb (open h) || bool_decide (availableTabs (offered cl s) = []) || verifyDisabled (offered cl s) h then s else handleVerify (offered cl s) s
  | PressCancel =>
      if negb (open h) || s_loading h then s
      else let s := set_hook (cancel h) s in match cl with PasskeyCard => restrict None s | ChannelDrawer => s end
  | TypeCode code => if negb (open h) || s_loading h then s else set_hook (setCode code h) s
  | ChooseTab m => if open h && bool_decide (m ∈ availableTabs (offered cl s)) then set_hook (switchMethod m h) s else s
  | Dismiss =>
      if negb (open h) then s
      else match cl with
           | ChannelDrawer => set_hook (cancel h) s
           | PasskeyCard => restrict None (set_hook (setOpen false h) s)
           end
  | Arrived n a => answered n a s
  end.

Definition start : System := {| hook := initialState defaultMethods; restrictedMethod := None; tasks := []; log := [] |}.

Definition run (es : list Event) : System := fold_left step es start.
End runs.

(** * Properties of the verification before sensitive actions

    Every protected call that is run after a verification was asked for in the dialog it was opened for and was accepted by the server, once per
    request; the card of the passkeys verifies one thing at a time. *)


(** ** Accepted verifications *)

Lemma accepted_verified a d r : accepted a d r = Verified → (∃ m data, a = Reply true m data) ∧ r = Verified.
Proof. destruct a as [[] m data|]; cbn; [|done..]. intros ->. by split; [eexists _, _|]. Qed.

(** What the server and the browser said when a verification succeeds. *)
Definition server_accepted (m : VerificationMethod) (code : option str) (a : VerifyAnswers) : Prop :=
  let ok x := ∃ msg data, x = Reply true msg data in
  match m with
  | TwoFA => is_Some (two_fa_code code) ∧ ok (va_code a)
  | PasskeyMethod => ok (begin_ (va_passkey a)) ∧ (∃ c, credential_ (va_passkey a) = Given (Some c)) ∧ ok (finish_ (va_passkey a)) ∧ ok (verify_ (va_passkey a))
  end.

Lemma verify_accepted has_atob has_btoa Buffer has_credentials m code a :
  verify has_atob has_btoa Buffer has_credentials m code a = Verified → server_accepted m code a.
Proof.
  destruct m; cbn [verify].
  - unfold verifyTwoFA, server_accepted. destruct (two_fa_code code); [|done]. destruct (va_code a) as [[] msg data|]; try done.
    intros _. split; [by eexists|by eexists _, _].
  - unfold verifyPasskey. destruct has_credentials; [|done]. cbn [negb]. intros [H1 H]%accepted_verified.
    destruct (prepareCredentialRequestOptions _ _ _); [|done]. destruct (credential_ _) as [[c|]|name msg|] eqn:Ec; try done.
    + destruct (buildAssertionResult _ _ _) as [[j|]|]; try done. apply accepted_verified in H as [H2 [H3 _]%accepted_verified].
      split; [done|]. split; [by exists c|]. done.
    + destruct (bool_decide _); [discriminate H|]. destruct (bool_decide _); discriminate H.
Qed.

(** ** Accounting *)

Definition same (c c' : Call) (m m' : VerificationMethod) : bool := bool_decide (c = c') && bool_decide (m = m').

Definition is_asked c m (e : Entry) : bool := match e with Asked c' m' _ => same c c' m m' | _ => false end.
Definition is_ran c m (e : Entry) : bool := match e with Ran c' (After m') => same c c' m m' | _ => false end.
Definition is_denied c m (e : Entry) : bool := match e with Denied c' m' _ => same c c' m m' | _ => false end.
Definition is_failed c m (e : Entry) : bool := match e with CallFailed c' m' _ => same c c' m m' | _ => false end.
Definition is_done c m (e : Entry) : bool := match e with Succeeded c' m' => same c c' m m' | _ => false end.
Definition is_verifying c m (t : Task) : bool := match t with Verifying c' m' _ => same c c' m m' | _ => false end.
Definition is_calling c m (t : Task) : bool := match t with Calling c' m' => same c c' m m' | _ => false end.

Definition accounted (s : System) : Prop := ∀ c m,
  countb (is_asked c m) (log s) = countb (is_verifying c m) (tasks s) + countb (is_ran c m) (log s) + countb (is_denied c m) (log s) ∧
  countb (is_ran c m) (log s) = countb (is_calling c m) (tasks s) + countb (is_done c m) (log s) + countb (is_failed c m) (log s).

Ltac counts := cbn [log tasks hook note spawn set_hook restrict without_task is_asked is_ran is_denied is_failed is_done is_verifying is_calling Nat.b2n].

Lemma accounted_hook h s : accounted s → accounted (set_hook h s).
Proof. done. Qed.

Lemma accounted_restrict r s : accounted s → accounted (restrict r s).
Proof. done. Qed.

(** Entries and tasks that are not counted. *)
Definition plain_entry (e : Entry) : bool :=
  match e with Opened _ _ | Replied _ _ _ _ | Ran _ Attempt | Ran _ Unprotected | Informed _ | Complained _ => true | _ => false end.
Definition plain_task (t : Task) : bool := match t with Verifying _ _ _ | Calling _ _ => false | _ => true end.

Lemma accounted_note e s : plain_entry e = true → accounted s → accounted (note e s).
Proof.
  intros He H c m. specialize (H c m). counts. rewrite !countb_snoc.
  destruct e as [| | |? []| | | | |]; try discriminate He; counts; lia.
Qed.

Lemma accounted_spawn t s : plain_task t = true → accounted s → accounted (spawn t s).
Proof.
  intros He H c m. specialize (H c m). counts. rewrite !countb_snoc. destruct t; try discriminate He; counts; lia.
Qed.

Lemma accounted_without n t s : tasks s !! n = Some t → plain_task t = true → accounted s → accounted (without_task n s).
Proof.
  intros Hn Ht H c m. specialize (H c m). counts.
  pose proof (countb_delete (is_verifying c m) _ _ _ Hn). pose proof (countb_delete (is_calling c m) _ _ _ Hn).
  destruct t; try discriminate Ht; counts; cbn [is_verifying is_calling Nat.b2n] in *; lia.
Qed.

Section runs.
Context (has_atob has_btoa : bool) (Buffer : option (str → str)) (has_credentials : bool) (cl : Client).
Abbreviation step := (step has_atob has_btoa Buffer has_credentials cl).
Abbreviation run := (run has_atob has_btoa Buffer has_credentials cl).
Abbreviation answered := (answered has_atob has_btoa Buffer has_credentials cl).

Hint Resolve accounted_hook accounted_restrict : core.

Lemma accounted_start c config s : accounted s → accounted (startVerification c config s).
Proof. by apply accounted_spawn. Qed.

Lemma accounted_methods c config ms s : accounted s → accounted (methods_fetched c config ms s).
Proof. intros H. unfold methods_fetched. destruct (_ && _); apply accounted_note; done. Qed.

Lemma accounted_register ms s : accounted s → accounted (register_fetched ms s).
Proof. intros H. unfold register_fetched. destruct (negb _); [by apply accounted_note|by apply accounted_start]. Qed.

Lemma accounted_remove ms s : accounted s → accounted (remove_fetched ms s).
Proof.
  intros H. unfold remove_fetched. destruct (if has2FA ms then _ else _); [|by apply accounted_note].
  destruct (_ && _); [by apply accounted_note|by apply accounted_start].
Qed.

Lemma accounted_answer n a s : accounted s → accounted (answered n a s).
Proof.
  intros H. unfold SecureVerification.answered. destruct (tasks s !! n) as [t|] eqn:En; [|done].
  pose proof (accounted_without n t s En) as Hw.
  destruct t as [|c config|c config|c m code|c m| |], a as [x y b|[|e]|va]; try exact H; try specialize (Hw eq_refl H).
  - exact Hw.
  - by apply accounted_methods.
  - exact Hw.
  - destruct (isVerificationRequiredError e); [|exact Hw]. by apply accounted_start, accounted_note.
  - clear Hw. destruct (SecureVerification.verify _ _ _ _ _ _ _) as [|message]; intros c' m'; specialize (H c' m');
      pose proof (countb_delete (is_verifying c' m') _ _ _ En); pose proof (countb_delete (is_calling c' m') _ _ _ En);
      unfold verification_failed; counts; rewrite !countb_snoc; counts; cbn [is_verifying is_calling Nat.b2n] in *; lia.
  - clear Hw. intros c' m'. specialize (H c' m').
    pose proof (countb_delete (is_verifying c' m') _ _ _ En). pose proof (countb_delete (is_calling c' m') _ _ _ En).
    unfold verification_done. destruct cl; counts; rewrite !countb_snoc; counts; cbn [is_verifying is_calling Nat.b2n] in *; lia.
  - clear Hw. intros c' m'. specialize (H c' m').
    pose proof (countb_delete (is_verifying c' m') _ _ _ En). pose proof (countb_delete (is_calling c' m') _ _ _ En).
    unfold verification_failed. counts. rewrite !countb_snoc. counts. cbn [is_verifying is_calling Nat.b2n] in *. lia.
  - by apply accounted_register.
  - by apply accounted_remove.
Qed.

Lemma accounted_execute mo code s : accounted s → accounted (executeVerification mo code s).
Proof.
  intros H. unfold executeVerification. destruct (s_apiCall (hook s)) as [c|]; [|by apply accounted_note].
  destruct (match mo with Some m => Some m | None => s_method (hook s) end) as [m|]; [|by apply accounted_note].
  intros c' m'. specialize (H c' m'). counts. rewrite !countb_snoc. counts. lia.
Qed.

Lemma accounted_step s e : accounted s → accounted (step s e).
Proof.
  intros H. unfold SecureVerification.step. destruct e as [|ch|sup| | | |code|m| |n a].
  - by apply accounted_spawn.
  - destruct cl; [|done]. by apply accounted_spawn, accounted_note.
  - destruct cl; [done|]. destruct sup; [by apply accounted_spawn|by apply accounted_note].
  - destruct cl; [done|]. by apply accounted_spawn.
  - destruct (_ || _); [done|]. unfold handleVerify. destruct (activeMethod _ _); [|done]. by apply accounted_execute.
  - destruct (_ || _); [done|]. by destruct cl.
  - by destruct (_ || _).
  - by destruct (_ && _).
  - destruct (negb _); [done|]. by destruct cl.
  - by apply accounted_answer.
Qed.

(** ** History *)

Definition usable (ms : VerificationMethods) : Prop := has2FA ms = true ∨ hasPasskey ms = true.

(** What must have happened before an entry. *)
Definition ok_entry (past : list Entry) (x : Entry) : Prop :=
  match x with
  | Ran c (After m) => ∃ code va, last past = Some (Replied c m code va) ∧ server_accepted m (Some code) va
  | Replied c m code _ => Asked c m code ∈ past
  | Asked c m code => ∃ ms, Opened c ms ∈ past ∧ usable ms
  | _ => True
  end.

Definition good (l : list Entry) : Prop := ∀ i x, l !! i = Some x → ok_entry (take i l) x.

Lemma good_snoc l x : good l → ok_entry l x → good (l ++ [x]).
Proof.
  intros Hl Hx i y Hy. apply lookup_snoc_Some in Hy as [[Hi Hy]|[-> <-]].
  - rewrite take_app_le by lia. by apply Hl.
  - by rewrite take_app_length.
Qed.

Record traced (s : System) : Prop := {
  t_good : good (log s);
  t_call : ∀ c, s_apiCall (hook s) = Some c → ∃ ms, Opened c ms ∈ log s ∧ usable ms;
  t_task : ∀ c m code, Verifying c m code ∈ tasks s → Asked c m code ∈ log s }.

Lemma traced_note e s : ok_entry (log s) e → traced s → traced (note e s).
Proof.
  intros He [H1 H2 H3]. split; cbn [log hook tasks note].
  - by apply good_snoc.
  - intros c Hc. destruct (H2 c Hc) as (ms & Hm & Hu). exists ms. split; [apply elem_of_app; by left|done].
  - intros c m code Ht. apply elem_of_app. left. by apply H3.
Qed.

Lemma traced_hook h s : (∀ c, s_apiCall h = Some c → ∃ ms, Opened c ms ∈ log s ∧ usable ms) → traced s → traced (set_hook h s).
Proof. intros Hh [H1 H2 H3]. by split. Qed.

Lemma traced_same h s : s_apiCall h = s_apiCall (hook s) → traced s → traced (set_hook h s).
Proof. intros E H. apply traced_hook; [|done]. rewrite E. apply (t_call _ H). Qed.

Lemma traced_reset h s : s_apiCall h = None → traced s → traced (set_hook h s).
Proof. intros E H. apply traced_hook; [|done]. by rewrite E. Qed.

Lemma traced_spawn t s : (∀ c m code, t = Verifying c m code → Asked c m code ∈ log s) → traced s → traced (spawn t s).
Proof.
  intros Ht [H1 H2 H3]. split; [done|done|]. cbn [tasks spawn log]. intros c m code [H|H%list_elem_of_singleton]%elem_of_app; [by apply H3|by apply Ht].
Qed.

Lemma traced_without n s : traced s → traced (without_task n s).
Proof.
  intros [H1 H2 H3]. split; [done|done|]. cbn [tasks without_task log]. intros c m code H. apply H3.
  by apply list_elem_of_delete_inv in H.
Qed.

Lemma traced_methods c config ms s : traced s → traced (methods_fetched c config ms s).
Proof.
  intros H. unfold methods_fetched. destruct (has2FA ms) eqn:E1, (hasPasskey ms) eqn:E2; cbn [negb andb];
    try (apply traced_note; [exact I|]; by apply traced_same).
  all: split; cbn [log hook tasks note set_hook s_apiCall];
    [apply good_snoc; [apply (t_good _ H)|exact I] | |intros ? ? ? Ht; apply elem_of_app; left; by apply (t_task _ H)].
  all: intros c' [= <-]; exists ms; split; [apply elem_of_app; right; by apply list_elem_of_singleton|unfold usable; auto].
Qed.

Lemma traced_start c config s : traced s → traced (startVerification c config s).
Proof. by apply traced_spawn. Qed.

Lemma traced_register ms s : traced s → traced (register_fetched ms s).
Proof.
  intros H. unfold register_fetched. assert (traced (set_hook (with_methods ms (hook s)) s)) as H' by by apply traced_same.
  destruct (negb _); [by apply traced_note|]. apply traced_start. by destruct H'.
Qed.

Lemma traced_remove ms s : traced s → traced (remove_fetched ms s).
Proof.
  intros H. unfold remove_fetched. assert (traced (set_hook (with_methods ms (hook s)) s)) as H' by by apply traced_same.
  destruct (if has2FA ms then _ else _); [|by apply traced_note].
  destruct (_ && _); [by apply traced_note|]. apply traced_start. by destruct H'.
Qed.

Lemma traced_answer n a s : traced s → traced (answered n a s).
Proof.
  intros H. unfold SecureVerification.answered. destruct (tasks s !! n) as [t|] eqn:En; [|done].
  pose proof (traced_without n s H) as Hw.
  destruct t as [|c config|c config|c m code|c m| |], a as [x y b|[|e]|va]; try exact H; try exact Hw.
  - by apply traced_same.
  - by apply traced_methods.
  - destruct (isVerificationRequiredError e); [|exact Hw]. by apply traced_start, traced_note.
  - assert (traced (note (Replied c m code va) (without_task n s))) as Hr.
    { apply traced_note; [|exact Hw]. cbn. apply (t_task _ H). by apply (list_elem_of_lookup_2 _ n). }
    cbv zeta. destruct (SecureVerification.verify _ _ _ _ _ _ _) as [|message] eqn:Ev.
    + apply traced_spawn; [done|]. apply traced_note; [|exact Hr]. exists code, va. split; [|by apply verify_accepted in Ev].
      cbn [log note]. by rewrite last_snoc.
    + unfold verification_failed. apply traced_same; [reflexivity|]. by do 2 (apply traced_note; [exact I|]).
  - unfold verification_done. cbv zeta. apply traced_reset; [reflexivity|]. destruct cl; [by apply traced_note|].
    destruct (traced_note (Succeeded c m) _ I Hw) as [H1 H2 H3]. by split.
  - unfold verification_failed. apply traced_same; [reflexivity|]. by do 2 (apply traced_note; [exact I|]).
  - by apply traced_register.
  - by apply traced_remove.
Qed.

Lemma traced_execute mo code s : traced s → traced (executeVerification mo code s).
Proof.
  intros H. unfold executeVerification. destruct (s_apiCall (hook s)) as [c|] eqn:Ec; [|by apply traced_note].
  destruct (match mo with Some m => Some m | None => s_method (hook s) end) as [m|]; [|by apply traced_note].
  cbv zeta. apply traced_spawn.
  - intros c' m' code' [= <- <- <-]. cbn [log note]. apply elem_of_app. right. by apply list_elem_of_singleton.
  - apply traced_note; [|by apply traced_same]. cbn. by apply (t_call _ H).
Qed.

Lemma traced_step s e : traced s → traced (step s e).
Proof.
  intros H. unfold SecureVerification.step. cbv zeta. destruct e as [|ch|sup| | | |code|m| |n a].
  - by apply traced_spawn.
  - destruct cl; [|done]. unfold withVerification. apply traced_spawn; [done|]. by apply traced_note.
  - destruct cl; [done|]. destruct sup; [by apply traced_spawn|by apply traced_note].
  - destruct cl; [done|]. by apply traced_spawn.
  - destruct (_ || _); [done|]. unfold handleVerify. destruct (activeMethod _ _); [|done]. by apply traced_execute.
  - destruct (_ || _); [done|]. destruct (traced_reset (cancel (hook s)) s eq_refl H) as [H1 H2 H3]. destruct cl; by split.
  - destruct (_ || _); [done|]. by apply traced_same.
  - destruct (_ && _); [|done]. by apply traced_same.
  - destruct (negb _); [done|]. destruct cl; [by apply traced_reset|]. destruct (traced_same (setOpen false (hook s)) s eq_refl H) as [H1 H2 H3]. by split.
  - by apply traced_answer.
Qed.

Lemma run_ind (P : System → Prop) : P start → (∀ s e, P s → P (step s e)) → ∀ es, P (run es).
Proof.
  intros H0 Hs es. unfold SecureVerification.run. generalize start H0. clear H0.
  induction es as [|e es IH]; intros s H; [done|]. cbn [fold_left]. apply IH. by apply Hs.
Qed.

(** C26: However a user, the server and the browser act, a protected call that runs after a verification was preceded by the dialog opening for that
    very call with a method the user has, by the user asking to verify it, and immediately by an answer in which the server accepted the
    method; and each request leads to one run at most: requests are those still pending, those refused and those that ran, and
    runs are those pending, those that failed and those that succeeded. *)
Theorem protected_calls_verified es :
  let s := run es in
  (∀ i c m, log s !! i = Some (Ran c (After m)) → ∃ j k code va ms, k < j ∧ j < i ∧
     log s !! k = Some (Opened c ms) ∧ usable ms ∧ log s !! j = Some (Asked c m code) ∧
     log s !! (i - 1) = Some (Replied c m code va) ∧ server_accepted m (Some code) va) ∧
  (∀ c m, countb (is_asked c m) (log s) = countb (is_verifying c m) (tasks s) + countb (is_ran c m) (log s) + countb (is_denied c m) (log s) ∧
          countb (is_ran c m) (log s) = countb (is_calling c m) (tasks s) + countb (is_done c m) (log s) + countb (is_failed c m) (log s)).
Proof.
  cbv zeta. split; [|apply (run_ind accounted); [by intros c m|apply accounted_step]].
  assert (traced (run es)) as H.
  { apply run_ind; [|apply traced_step]. split; [by intros i x|done|]. intros c m code Hn. by apply elem_of_nil in Hn. }
  pose proof (t_good _ H) as Hg. intros i c m Hi. destruct (Hg i _ Hi) as (code & va & Hl & Ha).
  rewrite last_lookup, length_take_le in Hl by (apply lookup_lt_Some in Hi; lia).
  assert (0 < i) as Hpos by (destruct i; [discriminate Hl|lia]).
  replace (pred i) with (i - 1) in Hl by lia. rewrite lookup_take_lt in Hl by lia.
  pose proof (Hg _ _ Hl) as Hask. apply list_elem_of_lookup in Hask as [j Hj].
  apply lookup_take_Some in Hj as [Hj Hjlt]. destruct (Hg _ _ Hj) as (ms & Hk & Hu). apply list_elem_of_lookup in Hk as [k Hk].
  apply lookup_take_Some in Hk as [Hk Hklt]. exists j, k, code, va, ms. split_and!; try done; lia.
Qed.
End runs.

(** ** One at a time *)

Definition executing (t : Task) : bool := match t with Verifying _ _ _ | Calling _ _ => true | _ => false end.

Definition exclusive (s : System) : Prop := countb executing (tasks s) = Nat.b2n (s_loading (hook s)).

Section card.
Context (has_atob has_btoa : bool) (Buffer : option (str → str)) (has_credentials : bool).
Abbreviation step := (step has_atob has_btoa Buffer has_credentials PasskeyCard).
Abbreviation run := (run has_atob has_btoa Buffer has_credentials PasskeyCard).

Ltac exclusive :=
  unfold exclusive in *; cbn [tasks hook note spawn set_hook restrict without_task s_loading with_loading with_methods setOpen setCode switchMethod]; rewrite ?countb_snoc; cbn [executing Nat.b2n] in *; lia.

Lemma exclusive_fetched c config ms s : exclusive s → exclusive (methods_fetched c config ms s).
Proof. intros H. unfold methods_fetched. destruct (_ && _); exclusive. Qed.

Lemma exclusive_register ms s : exclusive s → exclusive (register_fetched ms s).
Proof. intros H. unfold register_fetched, startVerification. destruct (negb _); exclusive. Qed.

Lemma exclusive_remove ms s : exclusive s → exclusive (remove_fetched ms s).
Proof.
  intros H. unfold remove_fetched, startVerification. destruct (if has2FA ms then _ else _); [destruct (_ && _)|]; exclusive.
Qed.

Lemma exclusive_answer n a s : exclusive s → exclusive (answered has_atob has_btoa Buffer has_credentials PasskeyCard n a s).
Proof.
  intros H. unfold answered. destruct (tasks s !! n) as [t|] eqn:En; [|done].
  pose proof (countb_delete executing _ _ _ En) as Hd.
  assert (executing t = false → exclusive (without_task n s)) as Hw by (intros E; rewrite E in Hd; exclusive).
  assert (executing t = true → s_loading (hook s) = true ∧ countb executing (delete n (tasks s)) = 0) as Hx.
  { intros E. rewrite E in Hd. unfold exclusive in H. destruct (s_loading (hook s)); cbn [Nat.b2n] in *; [split; [done|lia]|lia]. }
  destruct t as [|c config|c config|c m code|c m| |], a as [x y b|[|e]|va]; try exact H; try specialize (Hw eq_refl); try destruct (Hx eq_refl) as [El Hz].
  - exclusive.
  - by apply exclusive_fetched.
  - exact Hw.
  - destruct (isVerificationRequiredError e); [|exact Hw]. unfold startVerification. exclusive.
  - cbv zeta. destruct (verify _ _ _ _ _ _ _); [unfold exclusive; cbn [tasks hook note spawn without_task]; rewrite countb_snoc, El; cbn [executing Nat.b2n]; lia|unfold verification_failed; exclusive].
  - unfold verification_done. exclusive.
  - unfold verification_failed. exclusive.
  - by apply exclusive_register.
  - by apply exclusive_remove.
Qed.

(** C27: On the card of the passkeys one verification runs at a time: in every state a run reaches the dialog shows that it is busy exactly while a
    verification, or the call it protects, is pending, and then exactly one is; so it is idle once everything was answered. *)
Theorem card_verifies_one_at_a_time es :
  let s := run es in countb executing (tasks s) = (if s_loading (hook s) then 1 else 0) ∧ (tasks s = [] → s_loading (hook s) = false).
Proof.
  cbv zeta. assert (exclusive (run es)) as H.
  { apply run_ind; [done|]. clear es. intros s e H. unfold SecureVerification.step. cbv zeta. destruct e as [|ch|sup| | | |code|m| |n a].
    - exclusive.
    - done.
    - destruct sup; exclusive.
    - exclusive.
    - destruct (s_loading (hook s)) eqn:El.
      + unfold verifyDisabled. rewrite El. cbn [orb]. by rewrite orb_true_r.
      + destruct (_ || _); [done|]. unfold handleVerify. destruct (activeMethod _ _) as [m|]; [|done].
        unfold executeVerification. destruct (s_apiCall (hook s)); [|exclusive]. cbv zeta. unfold exclusive in H. rewrite El in H. exclusive.
    - destruct (s_loading (hook s)) eqn:El; [by rewrite orb_true_r|]. destruct (_ || _); [done|]. unfold exclusive in *. rewrite El in H. exact H.
    - destruct (_ || _); [done|]. exclusive.
    - destruct (_ && _); [|done]. exclusive.
    - destruct (negb _); [done|]. exclusive.
    - by apply exclusive_answer. }
  unfold exclusive in H. split; [by destruct (s_loading _)|]. intros E. rewrite E in H. by destruct (s_loading _).
Qed.
End card.

(** ** Where it goes wrong *)

Definition yes : Answer := Reply true [] (Some (JObj [(js "enabled", JBool true)])).
Definition no : Answer := Reply true [] (Some (JObj [(js "enabled", JBool false)])).
Definition needed : CallError := {| e_status := Some 403%Z; e_code := Some (JStr (js "VERIFICATION_REQUIRED")); e_message := None; e_text := None |}.
Definition approved : VerifyAnswers := {| va_code := yes; va_passkey := {| begin_ := no; credential_ := Given None; finish_ := no; verify_ := no |} |}.

(** The key of a channel is asked for by a user who has an authenticator app only, who changes to its tab and types a code. *)
Definition reveal_events : list Event :=
  [Reveal 7; Arrived 0 (CallAnswered (Raised needed)); Arrived 0 (MethodsAnswer yes no true); ChooseTab TwoFA; TypeCode (js "123456"); PressVerify].

Abbreviation drawer_run := (run true true None true ChannelDrawer).

(** The passkey is chosen although the user has none: the dialog opens on a tab it does not show, and verifying there asks for a passkey. *)
Lemma preferred_method_unchecked :
  let s := drawer_run (take 3 reveal_events) in
  open (hook s) = true ∧ availableTabs (methods (hook s)) = [TwoFA] ∧ activeMethod (methods (hook s)) (hook s) = Some PasskeyMethod ∧
  canUseMethod (methods (hook s)) PasskeyMethod = false ∧
  tasks (step true true None true ChannelDrawer s PressVerify) = [Verifying (FetchChannelKey 7) PasskeyMethod []].
Proof. vm_compute. done. Qed.

(** Dismissing the dialog while a verification is pending cancels nothing: the key is fetched, and shown, after that. *)
Lemma dismissed_call_still_runs :
  let s := drawer_run (reveal_events ++ [Dismiss; Arrived 0 (VerifyAnswered approved)]) in
  open (hook s) = false ∧ last (log s) = Some (Ran (FetchChannelKey 7) (After TwoFA)).
Proof. vm_compute. done. Qed.

(** The dialog of a later request is then closed by the end of the earlier one, and its request is forgotten. *)
Lemma late_answer_closes_new_dialog :
  let before := drawer_run (reveal_events ++ [Dismiss; Reveal 8; Arrived 1 (CallAnswered (Raised needed)); Arrived 1 (MethodsAnswer yes no true)]) in
  let after := drawer_run (reveal_events ++ [Dismiss; Reveal 8; Arrived 1 (CallAnswered (Raised needed)); Arrived 1 (MethodsAnswer yes no true);
                           Arrived 0 (VerifyAnswered approved); Arrived 0 (CallAnswered Returned)]) in
  open (hook before) = true ∧ s_apiCall (hook before) = Some (FetchChannelKey 8) ∧ open (hook after) = false ∧ s_apiCall (hook after) = None.
Proof. vm_compute. done. Qed.

(** A passkey that the device does not support is a method that can be had but not used: the dialog opens without a way to verify. *)
Lemma unsupported_passkey_dead_end :
  let s := drawer_run [Reveal 7; Arrived 0 (CallAnswered (Raised needed)); Arrived 0 (MethodsAnswer no yes false)] in
  open (hook s) = true ∧ availableTabs (methods (hook s)) = [] ∧ step true true None true ChannelDrawer s PressVerify = s.
Proof. vm_compute. done. Qed.
