(* ===== verification/AuthSession.v ===== *)
(** * The session of a user

    [stores/auth-store.ts] with [features/auth/lib/storage.ts], what happens after a login ([use-auth-redirect.ts], [user-auth-form.tsx], [otp-form.tsx],
    [routes/oauth/$provider.tsx], [routes/(auth)/oauth.tsx]), the guards of all routes and where they redirect (the files of [routes/]), and what ends a session (a 401 answer in [lib/api.ts] and [main.tsx], [sign-out-dialog.tsx],
    [use-oauth-login.ts]).

    The user is a JSON value as the server sent it, [None] being [null].  How the router reads an address, and what the address is after
    a navigation, are arguments. *)

From S2P Require Import Prelude JsString Regex JsNumber JsNumberFacts Json JsonFacts.

(** ** The store *)

Record Store := { user : option json; sessionVerified : bool; ls_user : option str; ls_uid : option str }.

(** [JSON.parse(saved)], [null] being nothing *)
Definition parsed_user (saved : str) : option json := match json_parse saved with Some JNull | None => None | v => v end.

(** The store when the page is loaded: an unreadable text is removed. *)
Definition initUser (saved uid : option str) : Store :=
  match saved with
  | Some t =>
      if truthy t
      then {| user := parsed_user t; sessionVerified := false; ls_user := match json_parse t with None => None | _ => saved end; ls_uid := uid |}
      else {| user := None; sessionVerified := false; ls_user := saved; ls_uid := uid |}
  | None => {| user := None; sessionVerified := false; ls_user := None; ls_uid := uid |}
  end.

Definition setUser (u : option json) (s : Store) : Store := {|
  user := u; sessionVerified := sessionVerified s;
  ls_user := match u with Some v => if json_truthy u then Some (json_stringify v) else None | None => None end; ls_uid := ls_uid s |}.

Definition setSessionVerified (b : bool) (s : Store) : Store := {|
  user := user s; sessionVerified := b; ls_user := ls_user s; ls_uid := ls_uid s |}.

Definition reset (s : Store) : Store := {| user := None; sessionVerified := false; ls_user := None; ls_uid := ls_uid s |}.

Definition saveUserId (id : json) (s : Store) : Store := {|
  user := user s; sessionVerified := sessionVerified s; ls_user := ls_user s; ls_uid := Some (json_to_string id) |}.

Definition removeUserId (s : Store) : Store := {| user := user s; sessionVerified := sessionVerified s; ls_user := ls_user s; ls_uid := None |}.

(** [getCommonHeaders]: the header that names the user *)
Definition user_header (s : Store) : option str := match ls_uid s with Some u => if truthy u then Some u else None | None => None end.

(** ** After a login *)

(** What [/api/user/self] answers. *)
Inductive SelfAnswer := SelfReply (success : bool) (data : option json) | SelfFailed.

Definition confirmed_data (a : SelfAnswer) : option json :=
  match a with SelfReply true data => if json_truthy data then data else None | _ => None end.

Definition member (k : string) (v : option json) : option json := opt_prop (js k) v.

(** [userData.k ?? existing?.k ?? d] *)
Definition field_of (k : string) (u existing : option json) (d : json) : json :=
  default d (coalesce (member k u) (coalesce (member k existing) None)).

Definition or_members (v : option json) : obj := match v with Some j => entries_of j | None => [] end.

Definition merged_user (u existing : option json) (id : json) : json :=
  JObj (fold_left (λ o kv, obj_set (fst kv) (snd kv) o)
    [(js "id", id);
     (js "username", field_of "username" u existing (JStr []));
     (js "display_name", field_of "display_name" u existing (JStr []));
     (js "role", field_of "role" u existing (JNum (num_of_Z 1)));
     (js "status", field_of "status" u existing (JNum (num_of_Z 1)));
     (js "group", field_of "group" u existing (JStr (js "default")));
     (js "quota", field_of "quota" u existing (JNum (num_of_Z 0)));
     (js "used_quota", field_of "used_quota" u existing (JNum (num_of_Z 0)));
     (js "request_count", field_of "request_count" u existing (JNum (num_of_Z 0)))]
    (obj_spread (obj_spread [] (or_members existing)) (or_members u))).

(** The id of a login response, if it has one. *)
Definition login_id (u : option json) : option json := let id := member "id" u in if json_truthy id then id else None.

(** Up to the navigation; then the profile is asked for once more. *)
Definition login_success (u : option json) (s : Store) : Store :=
  match login_id u with
  | Some id => let s := saveUserId id s in setSessionVerified true (setUser (Some (merged_user u (user s) id)) s)
  | None => s
  end.

Definition login_target (redirectTo : option str) : str :=
  match redirectTo with Some t => if truthy t then t else js "/dashboard" | None => js "/dashboard" end.

Definition profile_refreshed (a : SelfAnswer) (s : Store) : Store :=
  match confirmed_data a with
  | Some u =>
      let s := setUser (Some u) s in
      match member "id" (Some u) with Some id => if json_truthy (Some id) then saveUserId id s else s | None => s end
  | None => s
  end.

(** [getSavedLanguage] *)
Definition getSavedLanguage (u : json) : option str :=
  match member "language" (Some u) with
  | Some (JStr l) => Some l
  | _ => match member "setting" (Some u) with
         | Some (JStr t) => match json_parse t with Some v => match member "language" (Some v) with Some (JStr l) => Some l | _ => None end | None => None end
         | _ => None
         end
  end.

(** The answer of a login request. *)
Inductive LoginAnswer := LoginReply (success : bool) (message : str) (data : option json) | LoginFailed (message : option str).

(** The areas of the settings *)
Inductive Area := AuthArea | BillingArea | ContentArea | ModelsArea | OperationsArea | SecurityArea | SiteArea.

(** The pages below [routes/_authenticated], by what their own guards do.  Of the search of the usage logs, the address without its
    [type], if it has one. *)
Inductive AuthPage :=
  | PlainPage | AdminPage | RewardsAdminPage
  | DashboardIndex | DashboardSection (section : str)
  | ModelsIndex | ModelsSection (section : str)
  | UsageLogsIndex | UsageLogsSection (section : str) (withoutType : option str)
  | SettingsIndex | SettingsArea (a : Area) | SettingsSection (a : Area) (section : str)
  | PlaygroundPage | ChatPage (chatId : str).

(** Where redirections and navigations lead: an address, or a route with its parameters. *)
Inductive Dest :=
  | ToText (to : str) | ToSignIn (redirect : option str) | ToOtp | ToBusiness | To403 | To500 | ToHome | ToSignUp
  | ToPage (pathname href : str) (page : AuthPage).

(** [onSubmit] of the form: the second factor is asked for on a page of its own. *)
Definition password_login (a : LoginAnswer) (redirectTo : option str) (s : Store) : Store * option Dest * bool :=
  match a with
  | LoginReply true _ data =>
      if json_truthy (member "require_2fa" data) then (s, Some ToOtp, false)
      else (login_success data s, Some (ToText (login_target redirectTo)), true)
  | _ => (s, None, false)
  end.

(** ** Codes *)

(** [[A-Z0-9]], with the flag [i] of the pattern *)
Definition is_alnum (c : N) : bool := (is_digit c || ((65 <=? c) && (c <=? 90)))%N.
Definition is_alnum_i (c : N) : bool := (is_alnum c || ((97 <=? c) && (c <=? 122)))%N.

Definition isValidOTP (code : str) : bool := (length code =? 6)%nat && forallb is_digit code.

Definition isValidBackupCode (code : str) : bool :=
  (length code =? 9)%nat && forallb is_alnum_i (take 4 code) && bool_decide (code !! 4%nat = Some 45%N) && forallb is_alnum_i (drop 5 code).

Definition formatBackupCode (toUpperCase : str → str) (value : str) : str :=
  let cleaned := take 8 (List.filter is_alnum (toUpperCase value)) in
  if (4 <? length cleaned)%nat then take 4 cleaned ++ [45%N] ++ drop 4 cleaned else cleaned.

Definition cleanBackupCode (code : str) : str := List.filter (λ c, negb (c =? 45)%N) code.

(** The code that is sent, or nothing and a message *)
Definition otp_code (useBackupCode : bool) (otp : str) : option str :=
  if useBackupCode then (if isValidBackupCode otp then Some (cleanBackupCode otp) else None)
  else if isValidOTP otp then Some otp else None.

(** [onSubmit] of the second factor *)
Definition otp_login (a : LoginAnswer) (s : Store) : Store * option Dest :=
  match a with
  | LoginReply true _ data =>
      if json_truthy data
      then let s := setUser data s in
           (match login_id data with Some id => saveUserId id s | None => s end, Some (ToSignIn None))
      else (s, None)
  | _ => (s, None)
  end.

(** ** The callback of a provider *)

Inductive Effect := Go (to : str) | Replace (to : str) | ToastError (message : str) | ToastSuccess | BindingResult (success : bool) | CloseWindow.

Section callback.
(** The path and the search of the address a tenth of a second after a navigation. *)
Context (address : str → str).

Definition normalizedTarget (target : str) : str := if starts_with (js "/") target then target else js "/" ++ target.

Definition safeNavigate (target : str) : list Effect :=
  let n := normalizedTarget target in
  Go target :: if negb (bool_decide (address target = n)) && negb (bool_decide (address target = n ++ js "/")) then [Replace target] else [].

Definition finalizeLogin (a : SelfAnswer) (s : Store) : Store * bool :=
  match confirmed_data a with
  | Some u =>
      let s := setUser (Some u) s in
      (match coalesce (member "id" (Some u)) None with Some id => saveUserId id s | None => s end, true)
  | None => (s, false)
  end.

Definition redirect_target (redirect : option str) : str := login_target redirect.

Definition redirectAfterLogin (redirect : option str) : list Effect := safeNavigate (redirect_target redirect) ++ [ToastSuccess].

Definition or_failed (m : str) : str := if truthy m then m else js "OAuth failed".

Definition handleLoginFailure (self : SelfAnswer) (message : str) (redirect : option str) (s : Store) : Store * list Effect :=
  match finalizeLogin self s with
  | (s, true) => (s, redirectAfterLogin redirect)
  | (s, false) => (s, ToastError message :: safeNavigate (js "/sign-in"))
  end.

Definition BOUND_MESSAGE : str := js "该 GitHub 账户已被绑定".

(** [code] of the address, whether the page was opened to bind an account, the answer for the code and the one about the user *)
Definition OAuthCallback (code : option str) (isBindingFlow : bool) (a : LoginAnswer) (self : SelfAnswer) (redirect : option str) (s : Store)
  : Store * list Effect :=
  match code with
  | Some (_ :: _) =>
      match a with
      | LoginReply true message data =>
          if bool_decide (message = js "bind")
          then (s, [ToastSuccess; BindingResult true] ++ (if isBindingFlow then [CloseWindow] else safeNavigate (js "/_authenticated/profile/")))
          else if json_truthy data
          then let s := setUser data s in
               (match coalesce (member "id" data) None with Some id => saveUserId id s | None => s end, redirectAfterLogin redirect)
          else match finalizeLogin self s with
               | (s, true) => (s, redirectAfterLogin redirect)
               | (s, false) => (s, ToastError (or_failed message) :: safeNavigate (js "/sign-in"))
               end
      | LoginReply false message _ =>
          let message := or_failed message in
          if isBindingFlow then (s, [BindingResult false; ToastError message])
          else if bool_decide (message = BOUND_MESSAGE)
          then match finalizeLogin self s with
               | (s, true) => (s, redirectAfterLogin redirect)
               | (s, false) => handleLoginFailure self message redirect s
               end
          else handleLoginFailure self message redirect s
      | LoginFailed m =>
          let message := default (js "OAuth failed") m in
          if isBindingFlow then (s, [BindingResult false; ToastError message]) else handleLoginFailure self message redirect s
      end
  | _ => (s, ToastError (js "Missing code") :: safeNavigate (js "/sign-in"))
  end.
End callback.

(** ** Guards *)

Definition ADMIN : Z := 10.

(** [user.role < ROLE.ADMIN] *)
Definition below_admin (u : option json) : bool := nlt (opt_number (member "role" u)) (num_of_Z ADMIN).

(** The pages of administrators, the page of rewards, and the pages of models *)
Inductive Access := Anyone | Administrator | RewardAdmin | ModelManager.

Definition access_denied (a : Access) (u : option json) : bool :=
  match a with
  | Anyone => false
  | Administrator => negb (json_truthy u) || below_admin u
  | RewardAdmin => below_admin u
  | ModelManager =>
      negb (json_truthy u) || negb (nle (num_of_Z ADMIN) (opt_number (member "role" u))
        || match opt_prop (js "model_management") (member "permissions" u) with Some (JBool b) => b | _ => false end)
  end.

(** *** The routes *)

Definition area_name (a : Area) : str :=
  match a with
  | AuthArea => js "auth" | BillingArea => js "billing" | ContentArea => js "content" | ModelsArea => js "models"
  | OperationsArea => js "operations" | SecurityArea => js "security" | SiteArea => js "site"
  end.

Definition DASHBOARD_SECTION_IDS : list str := [js "overview"; js "models"; js "users"].
Definition DASHBOARD_DEFAULT_SECTION : str := js "overview".
Definition MODELS_SECTION_IDS : list str := [js "metadata"; js "deployments"].
Definition MODELS_DEFAULT_SECTION : str := js "metadata".
Definition USAGE_LOGS_SECTION_IDS : list str := [js "common"; js "drawing"; js "task"].
Definition USAGE_LOGS_DEFAULT_SECTION : str := js "common".

(** The sections of the settings, and the one that is shown first *)
Definition AUTH_SECTION_IDS : list str := [js "basic-auth"; js "oauth"; js "passkey"; js "bot-protection"; js "custom-oauth"].
Definition AUTH_DEFAULT_SECTION : str := js "basic-auth".
Definition BILLING_SECTION_IDS : list str := [js "reward-programs"; js "quota"; js "currency"; js "model-pricing"; js "group-pricing"; js "payment"; js "checkin"].
Definition BILLING_DEFAULT_SECTION : str := js "reward-programs".
Definition CONTENT_SECTION_IDS : list str := [js "dashboard"; js "announcements"; js "api-info"; js "faq"; js "uptime-kuma"; js "chat"; js "drawing"].
Definition CONTENT_DEFAULT_SECTION : str := js "dashboard".
Definition SETTINGS_MODELS_SECTION_IDS : list str := [js "global"; js "gemini"; js "claude"; js "grok"; js "channel-affinity"; js "model-deployment"].
Definition SETTINGS_MODELS_DEFAULT_SECTION : str := js "global".
Definition OPERATIONS_SECTION_IDS : list str := [js "behavior"; js "monitoring"; js "email"; js "worker"; js "logs"; js "performance"; js "long-context"; js "alipay"; js "update-checker"].
Definition OPERATIONS_DEFAULT_SECTION : str := js "behavior".
Definition SECURITY_SECTION_IDS : list str := [js "rate-limit"; js "sensitive-words"; js "ssrf"].
Definition SECURITY_DEFAULT_SECTION : str := js "rate-limit".
Definition SITE_SECTION_IDS : list str := [js "system-info"; js "notice"; js "header-navigation"; js "business-preview"; js "sidebar-modules"].
Definition SITE_DEFAULT_SECTION : str := js "system-info".

Definition area_sections (a : Area) : list str :=
  match a with
  | AuthArea => AUTH_SECTION_IDS
  | BillingArea => BILLING_SECTION_IDS
  | ContentArea => CONTENT_SECTION_IDS
  | ModelsArea => SETTINGS_MODELS_SECTION_IDS
  | OperationsArea => OPERATIONS_SECTION_IDS
  | SecurityArea => SECURITY_SECTION_IDS
  | SiteArea => SITE_SECTION_IDS
  end.

Definition area_default (a : Area) : str :=
  match a with
  | AuthArea => AUTH_DEFAULT_SECTION
  | BillingArea => BILLING_DEFAULT_SECTION
  | ContentArea => CONTENT_DEFAULT_SECTION
  | ModelsArea => SETTINGS_MODELS_DEFAULT_SECTION
  | OperationsArea => OPERATIONS_DEFAULT_SECTION
  | SecurityArea => SECURITY_DEFAULT_SECTION
  | SiteArea => SITE_DEFAULT_SECTION
  end.

Inductive Route :=
  | Authenticated (pathname href : str) (page : AuthPage)
  | SignInPage (redirect : option str)
  | ModulePage (href : str)
  | SetupPage
  | ConsoleLog | ConsoleR2 | ConsoleTopup (walletHref : str) | RegisterPage
  | PublicPage.

(** An address as the router reads it: the segments of its path, the parameter [redirect], the address without its parameter [type] if it
    has one, and the address of the wallet with its parameters and [show_history]. *)
Record Location := { segments : list str; pathname : str; href : str; search_redirect : option str; without_type : option str; as_wallet : str }.

Definition is_path (l : Location) (p : list string) : bool := bool_decide (segments l = map js p).

(** Pages that need a user and have no guard of their own, those for administrators, and those that a module of the header governs *)
Definition plain_pages : list (list string) :=
  [["channel-monitor"]; ["chat2link"]; ["image-logs"]; ["image-workbench"]; ["intelligence-radar"]; ["keys"]; ["profile"];
   ["rewards"; "recharge"]; ["rewards"; "referral"]; ["topup-orders"]; ["video-logs"]; ["video-workbench"]; ["wallet"]].
Definition admin_pages : list (list string) :=
  [["accounts"]; ["channels"]; ["r2-monitor"]; ["redemption-codes"]; ["subscriptions"]; ["support-console"]; ["users"]].

Definition area_of (s : str) : option Area :=
  List.find (λ a, bool_decide (area_name a = s)) [AuthArea; BillingArea; ContentArea; ModelsArea; OperationsArea; SecurityArea; SiteArea].

(** The routes whose path has a parameter; a path below the layout of the settings that has no route is shown inside that layout *)
Definition section_route (l : Location) : option AuthPage :=
  match segments l with
  | [d; s] =>
      if bool_decide (d = js "dashboard") then Some (DashboardSection s)
      else if bool_decide (d = js "models") then Some (ModelsSection s)
      else if bool_decide (d = js "usage-logs") then Some (UsageLogsSection s (without_type l))
      else if bool_decide (d = js "chat") then Some (ChatPage s)
      else if bool_decide (d = js "errors") then Some PlainPage
      else if bool_decide (d = js "system-settings") then Some (match area_of s with Some a => SettingsArea a | None => AdminPage end)
      else None
  | d :: a :: rest =>
      if bool_decide (d = js "system-settings")
      then Some (match area_of a, rest with Some a, [s] => SettingsSection a s | _, _ => AdminPage end)
      else None
  | _ => None
  end.

Definition auth_page (l : Location) : option AuthPage :=
  if existsb (is_path l) plain_pages then Some PlainPage
  else if existsb (is_path l) admin_pages then Some AdminPage
  else if is_path l ["rewards"; "admin"] then Some RewardsAdminPage
  else if is_path l ["dashboard"] then Some DashboardIndex
  else if is_path l ["models"] then Some ModelsIndex
  else if is_path l ["usage-logs"] then Some UsageLogsIndex
  else if is_path l ["system-settings"] then Some SettingsIndex
  else if is_path l ["playground"] then Some PlaygroundPage
  else section_route l.

(** [/rankings], [/pricing] and [/pricing/$modelId] *)
Definition module_page (l : Location) : bool :=
  match segments l with
  | [p] => bool_decide (p = js "rankings") || bool_decide (p = js "pricing")
  | [p; _] => bool_decide (p = js "pricing")
  | _ => false
  end.

(** The route of an address; all other pages have no guard. *)
Definition route_of (l : Location) : Route :=
  match auth_page l with
  | Some page => Authenticated (pathname l) (href l) page
  | None =>
      if is_path l ["sign-in"] then SignInPage (search_redirect l)
      else if module_page l then ModulePage (href l)
      else if is_path l ["setup"] then SetupPage
      else if is_path l ["console"; "log"] then ConsoleLog
      else if is_path l ["console"; "r2-monitor"] then ConsoleR2
      else if is_path l ["console"; "topup"] then ConsoleTopup (as_wallet l)
      else if is_path l ["register"] then RegisterPage
      else PublicPage
  end.

(** *** What guards decide *)

(** What a guard learns when it runs: the answer about the user, whether the server shows the business pages to everyone, what
    [getFreshModuleAccess] tells of the module, whether the server is set up, and whether the stored configuration of the sidebar has the
    playground. *)
Record Answer := { self : SelfAnswer; preview : bool; moduleEnabled : bool; requireAuth : bool; setupDone : bool; playgroundEnabled : bool }.

Inductive Verdict := Show | Redirect (to : Dest).

(** [pathname.replace(/\/+$/, '') || '/'] *)
Fixpoint drop_slashes (s : str) : str := match s with c :: r => if (c =? 47)%N then drop_slashes r else s | [] => [] end.
Definition normalizedPath (pathname : str) : str := let t := rev (drop_slashes (rev pathname)) in if truthy t then t else js "/".

Definition redirectSignedOutUser (pathname href : str) (preview : bool) : Dest :=
  if bool_decide (normalizedPath pathname = js "/wallet") && preview then ToBusiness else ToSignIn (Some href).

Definition page_access (page : AuthPage) : Access :=
  match page with
  | AdminPage | SettingsIndex | SettingsArea _ | SettingsSection _ _ => Administrator
  | RewardsAdminPage => RewardAdmin
  | ModelsIndex | ModelsSection _ => ModelManager
  | _ => Anyone
  end.

Definition section_dest (base section : str) (page : AuthPage) : Dest := let p := base ++ js "/" ++ section in ToPage p p page.
Definition dashboard_section (s : str) : Dest := section_dest (js "/dashboard") s (DashboardSection s).
Definition models_section (s : str) : Dest := section_dest (js "/models") s (ModelsSection s).
Definition usage_logs_section (s : str) : Dest := section_dest (js "/usage-logs") s (UsageLogsSection s None).
Definition settings_section (a : Area) (s : str) : Dest := section_dest (js "/system-settings/" ++ area_name a) s (SettingsSection a s).

Definition one_of (ids : list str) (s : str) : bool := existsb (λ i, bool_decide (i = s)) ids.

(** Where each page sends a user who may see it *)
Definition dashboard_index : Dest := dashboard_section DASHBOARD_DEFAULT_SECTION.
Definition dashboard_forward (s : str) : option Dest :=
  if one_of DASHBOARD_SECTION_IDS s then None else Some (dashboard_section DASHBOARD_DEFAULT_SECTION).
Definition models_index : Dest := models_section MODELS_DEFAULT_SECTION.
Definition models_forward (s : str) : option Dest := if one_of MODELS_SECTION_IDS s then None else Some (models_section MODELS_DEFAULT_SECTION).
Definition usage_logs_index : Dest := usage_logs_section USAGE_LOGS_DEFAULT_SECTION.
Definition isUsageLogsSectionId (s : str) : bool := one_of USAGE_LOGS_SECTION_IDS s.
Definition usage_logs_forward (s : str) (withoutType : option str) : option Dest :=
  if negb (isUsageLogsSectionId s) then Some (usage_logs_section USAGE_LOGS_DEFAULT_SECTION)
  else match withoutType with
       | Some h => if bool_decide (s = js "common") then None else Some (ToPage (js "/usage-logs/" ++ s) h (UsageLogsSection s None))
       | None => None
       end.
Definition settings_index : Dest := ToText (js "/system-settings/site").
Definition area_index (a : Area) : Dest := settings_section a (area_default a).
Definition area_forward (a : Area) (s : str) : option Dest := if one_of (area_sections a) s then None else Some (settings_section a (area_default a)).
Definition playground_forward (a : Answer) : option Dest := if playgroundEnabled a then None else Some (ToText (js "/dashboard")).
Definition chat_forward (chatId : str) : option Dest := if is_integer (to_number (JStr chatId)) then None else Some (ToText (js "/dashboard")).

Definition forward (page : AuthPage) (a : Answer) : option Dest :=
  match page with
  | PlainPage | AdminPage | RewardsAdminPage => None
  | DashboardIndex => Some dashboard_index
  | DashboardSection s => dashboard_forward s
  | ModelsIndex => Some models_index
  | ModelsSection s => models_forward s
  | UsageLogsIndex => Some usage_logs_index
  | UsageLogsSection s withoutType => usage_logs_forward s withoutType
  | SettingsIndex => Some settings_index
  | SettingsArea ar => Some (area_index ar)
  | SettingsSection ar s => area_forward ar s
  | PlaygroundPage => playground_forward a
  | ChatPage c => chat_forward c
  end.

(** The guard of a page for a user who is there, the guards of its layouts first *)
Definition page_guard (page : AuthPage) (a : Answer) (u : option json) : Verdict :=
  if access_denied (page_access page) u then Redirect To403
  else match forward page a with Some d => Redirect d | None => Show end.

(** The guard of all pages that need a user, then that of the page *)
Definition protected_guard (page : AuthPage) (pathname href : str) (a : Answer) (s : Store) : Store * Verdict :=
  if negb (sessionVerified s) then
    match confirmed_data (self a) with
    | Some u => let s := setSessionVerified true (setUser (Some u) s) in (s, page_guard page a (user s))
    | None => (reset s, Redirect (redirectSignedOutUser pathname href (preview a)))
    end
  else if negb (json_truthy (user s)) then (s, Redirect (redirectSignedOutUser pathname href (preview a)))
  else (s, page_guard page a (user s)).

Definition sign_in_guard (redirect : option str) (s : Store) : Verdict :=
  if json_truthy (user s) then Redirect (ToText (login_target redirect)) else Show.

(** The guard of the rankings and of the prices: a user who is stored is enough. *)
Definition module_guard (href : str) (a : Answer) (s : Store) : Verdict :=
  if negb (moduleEnabled a) then Redirect ToHome
  else if requireAuth a && negb (json_truthy (user s)) then Redirect (ToSignIn (Some href)) else Show.

(** The settings users change themselves: the language and the modules of the sidebar.  The store gets the user that was rendered with the new
    text. *)
Inductive Setting := LanguageSetting | SidebarModules.

Definition setting_key (k : Setting) : string := match k with LanguageSetting => "setting" | SidebarModules => "sidebar_modules" end.

Definition changed_user (k : Setting) (v : str) (rendered : option json) : json :=
  JObj (obj_set (js (setting_key k)) (JStr v) (obj_spread [] (or_members rendered))).

Definition setup_guard (a : Answer) : Verdict := if setupDone a then Redirect ToHome else Show.

(** The routes that only redirect *)
Definition console_log : Dest := ToText (js "/usage-logs").
Definition console_r2_monitor : Dest := ToText (js "/r2-monitor").
Definition console_topup (walletHref : str) : Dest := ToPage (js "/wallet") walletHref PlainPage.
Definition register_page : Dest := ToSignUp.

(** [refreshSelf] *)
Definition refreshSelf (a : SelfAnswer) (s : Store) : Store := match confirmed_data a with Some u => setUser (Some u) s | None => s end.

(** The older page for providers: where it goes *)
Definition OAuthComponent (me : SelfAnswer) (redirect : option str) (s : Store) : Store * Dest :=
  match me with
  | SelfReply true data => (setUser (coalesce data None) s, ToText (login_target redirect))
  | _ => (s, ToSignIn None)
  end.

(** Before a login with a provider, after the end of an account, and when the user signs out *)
Definition resetSession (s : Store) : Store := reset s.
Definition account_deleted (s : Store) : Store := reset s.
Definition handleSignOut (s : Store) : Store := removeUserId (reset s).

Section navigation.
(** How the router reads an address. *)
Context (parse : str → Location).

Definition kind_of (d : Dest) : Route :=
  match d with
  | ToText t => route_of (parse t)
  | ToSignIn r => SignInPage r
  | ToPage pathname href page => Authenticated pathname href page
  | _ => PublicPage
  end.

Definition guard (d : Dest) (a : Answer) (s : Store) : Store * Verdict :=
  match kind_of d with
  | Authenticated pathname href page => protected_guard page pathname href a s
  | SignInPage r => (s, sign_in_guard r s)
  | ModulePage href => (s, module_guard href a s)
  | SetupPage => (s, setup_guard a)
  | ConsoleLog => (s, Redirect console_log)
  | ConsoleR2 => (s, Redirect console_r2_monitor)
  | ConsoleTopup h => (s, Redirect (console_topup h))
  | RegisterPage => (s, Redirect register_page)
  | PublicPage => (s, Show)
  end.

(** Redirections are followed; [answers] says what each guard learns. *)
Fixpoint visit (fuel : nat) (d : Dest) (answers : nat → Answer) (s : Store) : option (Store * Dest) :=
  match fuel with
  | O => None
  | S fuel =>
      match guard d (answers 0%nat) s with
      | (s, Show) => Some (s, d)
      | (s, Redirect d') => visit fuel d' (λ n, answers (S n)) s
      end
  end.

(** ** Runs *)

(** A page of the browser: what it stores, how many profile requests are pending, and the page that is shown. *)
Record Page := { store : Store; refreshes : nat; shown : option Dest }.

(** What happens to a page: it is loaded; logins by password, by another code (WeChat, a passkey) and by a second factor; the page of a
    provider and the older page for providers; navigations, and routes loaded in advance; the answers of profile requests; a user who
    changes an own setting; answers 401 of requests and of queries; the start of a login with a provider; the end of an account and of
    a session. *)
Inductive Event :=
  | Load
  | Login (a : LoginAnswer) (redirectTo : option str) (answers : nat → Answer)
  | CodeLogin (a : LoginAnswer) (redirectTo : option str) (answers : nat → Answer)
  | SecondFactor (a : LoginAnswer) (answers : nat → Answer)
  | Callback (address : str → str) (code : option str) (isBindingFlow : bool) (a : LoginAnswer) (me : SelfAnswer) (redirect : option str)
      (answers : nat → Answer)
  | OAuthPage (me : SelfAnswer) (redirect : option str) (answers : nat → Answer)
  | Visit (d : Dest) (answers : nat → Answer)
  | Preload (d : Dest) (answers : nat → Answer)
  | ProfileAnswer (a : SelfAnswer)
  | RefreshSelf (a : SelfAnswer)
  | ChangeSetting (rendered : option json) (k : Setting) (v : str)
  | Unauthorized
  | QueryUnauthorized (href : str) (answers : nat → Answer)
  | StartOAuth
  | AccountDeleted (answers : nat → Answer)
  | SignOut.

Definition visit_page (fuel : nat) (d : Dest) (answers : nat → Answer) (s : Store) (n : nat) : Page :=
  match visit fuel d answers s with
  | Some (s, d) => {| store := s; refreshes := n; shown := Some d |}
  | None => {| store := s; refreshes := n; shown := None |}
  end.

Definition load (s : Store) : Page := {| store := initUser (ls_user s) (ls_uid s); refreshes := 0; shown := None |}.

(** The navigations of the page of a provider: [window.location.replace] loads the page. *)
Definition follow (fuel : nat) (answers : nat → Answer) (p : Page) (e : Effect) : Page :=
  match e with
  | Go t => visit_page fuel (ToText t) answers (store p) (refreshes p)
  | Replace _ => load (store p)
  | _ => p
  end.

Definition with_store (s : Store) (p : Page) : Page := {| store := s; refreshes := refreshes p; shown := shown p |}.

Definition step (fuel : nat) (p : Page) (e : Event) : Page :=
  let s := store p in
  match e with
  | Load => load s
  | Login a redirectTo answers =>
      match password_login a redirectTo s with
      | (s, Some d, refresh) => visit_page fuel d answers s (refreshes p + if refresh then 1 else 0)
      | (s, None, _) => with_store s p
      end
  | CodeLogin (LoginReply true _ data) redirectTo answers =>
      visit_page fuel (ToText (login_target redirectTo)) answers (login_success data s) (S (refreshes p))
  | CodeLogin _ _ _ => p
  | SecondFactor a answers =>
      match otp_login a s with
      | (s, Some d) => visit_page fuel d answers s (refreshes p)
      | (s, None) => with_store s p
      end
  | Callback address code isBindingFlow a me redirect answers =>
      let (s, effects) := OAuthCallback address code isBindingFlow a me redirect s in
      fold_left (follow fuel answers) effects (with_store s p)
  | OAuthPage me redirect answers => let (s, d) := OAuthComponent me redirect s in visit_page fuel d answers s (refreshes p)
  | Visit d answers => visit_page fuel d answers s (refreshes p)
  | Preload d answers => with_store (store (visit_page fuel d answers s (refreshes p))) p
  | ProfileAnswer a =>
      match refreshes p with
      | O => p
      | S n => {| store := profile_refreshed a s; refreshes := n; shown := shown p |}
      end
  | RefreshSelf a => with_store (refreshSelf a s) p
  | ChangeSetting rendered k v => if json_truthy rendered then with_store (setUser (Some (changed_user k v rendered)) s) p else p
  | Unauthorized => with_store (reset s) p
  | QueryUnauthorized href answers => visit_page fuel (ToSignIn (Some href)) answers (reset s) (refreshes p)
  | StartOAuth => with_store (resetSession s) p
  | AccountDeleted answers => visit_page fuel (ToSignIn None) answers (account_deleted s) (refreshes p)
  | SignOut => load (handleSignOut s)
  end.

Definition run (fuel : nat) (saved uid : option str) (es : list Event) : Page :=
  fold_left (step fuel) es {| store := initUser saved uid; refreshes := 0; shown := None |}.
End navigation.

(** * Properties of the session

    Navigation ends, and a page that needs a user is shown only to a session the server confirmed since it last ended; loading the page
    again keeps the user. *)


Lemma confirmed_truthy a u : confirmed_data a = Some u → json_truthy (Some u) = true.
Proof. destruct a as [[] [d|]|]; cbn [confirmed_data]; try discriminate. destruct (json_truthy (Some d)) eqn:E; [|discriminate]. by intros [= <-]. Qed.

(** ** Navigation *)

(** The addresses to which guards redirect, with the segments of their paths *)
Definition static_targets : list (str * list string) :=
  [(js "/dashboard", ["dashboard"]); (js "/usage-logs", ["usage-logs"]); (js "/system-settings/site", ["system-settings"; "site"]); (js "/r2-monitor", ["r2-monitor"])].

(** What the guards rely on: such an address is read as its segments, and a parameter of an address is part of it. *)
Class Router (parse : str → Location) : Prop := {
  reads_static : ∀ t p, (t, p) ∈ static_targets → segments (parse t) = map js p;
  redirect_inside : ∀ t r, search_redirect (parse t) = Some r → length r < length t }.

Section navigation.
Context (parse : str → Location) {router : Router parse}.

Abbreviation visit := (visit parse).
Abbreviation guard := (guard parse).
Abbreviation kind_of := (kind_of parse).

(** Guards that may run on the way from a route. *)
Definition need (k : Route) : nat := match k with SignInPage (Some r) => length r + 6 | _ => 5 end.

Definition settles (fuel : nat) (d : Dest) : Prop := ∀ answers s, is_Some (visit fuel d answers s).

Lemma settles_mono fuel fuel' d : fuel ≤ fuel' → settles fuel d → settles fuel' d.
Proof using.
  intros Hle H answers s. specialize (H answers s). revert fuel' d answers s Hle H.
  induction fuel as [|fuel IH]; intros fuel' d answers s Hle H; [by destruct H|]. destruct fuel' as [|fuel']; [lia|]. cbn [AuthSession.visit] in *.
  destruct (guard d (answers 0) s) as [s1 [|d1]]; [by eexists|]. apply IH; [lia|done].
Qed.

Lemma public_settles fuel d : kind_of d = PublicPage → 1 ≤ fuel → settles fuel d.
Proof using. intros Hk Hf answers s. destruct fuel as [|fuel]; [lia|]. cbn [AuthSession.visit]. unfold AuthSession.guard. rewrite Hk. by eexists. Qed.

Lemma signed_out_settles fuel r answers s : json_truthy (user s) = false → 1 ≤ fuel → is_Some (visit fuel (ToSignIn r) answers s).
Proof using.
  intros Hu Hf. destruct fuel as [|fuel]; [lia|]. cbn [AuthSession.visit]. unfold AuthSession.guard. cbn [AuthSession.kind_of].
  unfold sign_in_guard. rewrite Hu. by eexists.
Qed.

Lemma signed_out_dest fuel pathname href preview answers s : json_truthy (user s) = false → 1 ≤ fuel →
  is_Some (visit fuel (redirectSignedOutUser pathname href preview) answers s).
Proof using.
  intros Hu Hf. unfold redirectSignedOutUser. destruct (_ && _); [by apply public_settles|by apply signed_out_settles].
Qed.

(** A page settles if everything it forwards to does. *)
Lemma page_settles fuel d pathname href page : kind_of d = Authenticated pathname href page →
  1 ≤ fuel → (∀ a d', forward page a = Some d' → settles fuel d') → settles (S fuel) d.
Proof using.
  intros Hk Hf Hfw answers s. cbn [AuthSession.visit]. unfold AuthSession.guard. rewrite Hk. unfold protected_guard.
  assert (∀ u s, is_Some (match page_guard page (answers 0) u with Show => Some (s, d) | Redirect d' => visit fuel d' (λ n, answers (S n)) s end)) as Hv.
  { intros u s'. unfold page_guard. destruct (access_denied _ _); [by apply public_settles|].
    destruct (forward page (answers 0)) eqn:E; [by apply (Hfw (answers 0))|by eexists]. }
  destruct (sessionVerified s); cbn [negb].
  - destruct (json_truthy (user s)) eqn:Hu; cbn [negb]; [apply Hv|]. by apply signed_out_dest.
  - destruct (confirmed_data _) as [u|]; [apply Hv|]. by apply signed_out_dest.
Qed.

Lemma final_settles d pathname href page : kind_of d = Authenticated pathname href page → (∀ a, forward page a = None) → settles 2 d.
Proof using. intros Hk Hn. apply (page_settles 1 d pathname href page Hk); [lia|]. intros a d'. by rewrite Hn. Qed.

Lemma default_settles base section page : (∀ a, forward page a = None) → settles 2 (section_dest base section page).
Proof using. intros Hn. eapply final_settles; [reflexivity|exact Hn]. Qed.

(** The pages that forward to a section only *)
Definition section_page (page : AuthPage) : Prop := match page with SettingsIndex | PlaygroundPage | ChatPage _ => False | _ => True end.

Lemma section_settles d pathname href page : kind_of d = Authenticated pathname href page → section_page page → settles 3 d.
Proof using.
  intros Hk Hp. apply (page_settles 2 d pathname href page Hk); [lia|]. intros a d' Hf.
  assert (∀ a, settles 2 (settings_section a (area_default a))) as Hs by (intros []; apply default_settles; intros ?; vm_compute; reflexivity).
  assert (settles 2 (dashboard_section DASHBOARD_DEFAULT_SECTION)) as Hd by (apply default_settles; intros ?; vm_compute; reflexivity).
  assert (settles 2 (models_section MODELS_DEFAULT_SECTION)) as Hm by (apply default_settles; intros ?; vm_compute; reflexivity).
  assert (settles 2 (usage_logs_section USAGE_LOGS_DEFAULT_SECTION)) as Hu by (apply default_settles; intros ?; vm_compute; reflexivity).
  destruct page as [| | | |s| |s| |s w| |ar|ar s| |c]; cbn [forward] in Hf; try discriminate Hf; try (by injection Hf as <-); try (by destruct Hp);
    try (injection Hf as <-; apply Hs); unfold dashboard_forward, models_forward, usage_logs_forward, isUsageLogsSectionId, area_forward in Hf;
    try (destruct (one_of _ s) eqn:Eo; [|by injection Hf as <-]); try discriminate Hf.
  cbn [negb] in Hf. destruct w as [h|]; [|discriminate Hf]. destruct (bool_decide _); [discriminate Hf|]. injection Hf as <-.
  eapply final_settles; [reflexivity|]. intros a'. cbn [forward]. unfold usage_logs_forward, isUsageLogsSectionId. by rewrite Eo.
Qed.

(** The address of such a page *)
Lemma static_settles t p page : (t, p) ∈ static_targets → section_page page →
  (∀ l, segments l = map js p → route_of l = Authenticated (pathname l) (href l) page) → settles 3 (ToText t).
Proof using router.
  intros Ht Hp Hr. eapply section_settles; [|exact Hp]. cbn [AuthSession.kind_of]. apply Hr. by apply reads_static.
Qed.

(** The page of a path that is known *)
Lemma route_known l p page : segments l = map js p → section_route l = section_route {| segments := map js p; pathname := []; href := []; search_redirect := None; without_type := without_type l; as_wallet := [] |} →
  auth_page {| segments := map js p; pathname := []; href := []; search_redirect := None; without_type := without_type l; as_wallet := [] |} = Some page →
  route_of l = Authenticated (pathname l) (href l) page.
Proof using. intros Hs Hr Hp. unfold route_of. replace (auth_page l) with (Some page); [done|]. rewrite <- Hp. unfold auth_page, is_path. cbn [segments]. by rewrite Hs, Hr. Qed.

Lemma section_route_segments l l' : segments l = segments l' → without_type l = without_type l' → section_route l = section_route l'.
Proof using. intros E1 E2. unfold section_route. by rewrite E1, E2. Qed.

Lemma static_route t p page : (t, p) ∈ static_targets → section_page page →
  (∀ w, auth_page {| segments := map js p; pathname := []; href := []; search_redirect := None; without_type := w; as_wallet := [] |} = Some page) →
  settles 3 (ToText t).
Proof using router.
  intros Ht Hp Ha. apply (static_settles t p page Ht Hp). intros l Hl. apply (route_known l p); [done| |apply Ha]. by apply section_route_segments.
Qed.

Lemma dashboard_settles : settles 3 (ToText (js "/dashboard")).
Proof using router. apply (static_route _ ["dashboard"] DashboardIndex); [by left|exact I|intros w; vm_compute; reflexivity]. Qed.

Lemma site_settles : settles 3 (ToText (js "/system-settings/site")).
Proof using router.
  apply (static_route _ ["system-settings"; "site"] (SettingsArea SiteArea)); [do 2 right; by left|exact I|intros w; vm_compute; reflexivity].
Qed.

Lemma authenticated_settles d pathname href page : kind_of d = Authenticated pathname href page → settles 4 d.
Proof using router.
  intros Hk. assert (section_page page ∨ ¬ section_page page) as [Hp|Hp] by (destruct page; cbn; tauto).
  { by apply (settles_mono 3); [lia|]; eapply section_settles. }
  apply (page_settles 3 d pathname href page Hk); [lia|]. intros a d' Hf. destruct page as [| | | |s| |s| |s w| |ar|ar s| |c]; try (by destruct Hp); cbn [forward] in Hf.
  - injection Hf as <-. apply site_settles.
  - unfold playground_forward in Hf. destruct (playgroundEnabled a); [discriminate Hf|]. injection Hf as <-. apply dashboard_settles.
  - unfold chat_forward in Hf. destruct (is_integer _); [discriminate Hf|]. injection Hf as <-. apply dashboard_settles.
Qed.

Lemma step_settles fuel d :
  (∀ answers s, match guard d (answers 0) s with (_, Show) => True | (s', Redirect d') => is_Some (visit fuel d' (λ n, answers (S n)) s') end) → settles (S fuel) d.
Proof using. intros H answers s. specialize (H answers s). cbn [AuthSession.visit]. destruct (guard d (answers 0) s) as [s' [|d']]; [by eexists|done]. Qed.

Lemma other_settles d : (∀ r, kind_of d ≠ SignInPage r) → settles 5 d.
Proof using router.
  intros Hn. destruct (kind_of d) as [pn h pg|r|h| | | |h| |] eqn:Hk.
  - apply (settles_mono 4); [lia|]. by apply (authenticated_settles d pn h pg).
  - by destruct (Hn r).
  - apply step_settles. intros answers s. unfold AuthSession.guard. rewrite Hk. unfold module_guard.
    destruct (negb _); [by apply public_settles; [|lia]|]. destruct (requireAuth _); cbn [andb]; [|done].
    destruct (json_truthy (user s)) eqn:Eu; cbn [negb]; [done|]. by apply signed_out_settles; [|lia].
  - apply step_settles. intros answers s. unfold AuthSession.guard. rewrite Hk. unfold setup_guard. destruct (setupDone _); [|done]. by apply public_settles; [|lia].
  - apply step_settles. intros answers s. unfold AuthSession.guard. rewrite Hk. apply (settles_mono 3); [lia|].
    apply (static_route _ ["usage-logs"] UsageLogsIndex); [right; by left|exact I|intros w; vm_compute; reflexivity].
  - apply step_settles. intros answers s. unfold AuthSession.guard. rewrite Hk. apply (settles_mono 3); [lia|].
    apply (static_route _ ["r2-monitor"] AdminPage); [do 3 right; by left|exact I|intros w; vm_compute; reflexivity].
  - apply step_settles. intros answers s. unfold AuthSession.guard. rewrite Hk. apply (settles_mono 2); [lia|]. eapply final_settles; [reflexivity|done].
  - apply step_settles. intros answers s. unfold AuthSession.guard. rewrite Hk. by apply public_settles; [|lia].
  - apply public_settles; [done|lia].
Qed.

Lemma sign_in_settles d r : kind_of d = SignInPage r → settles (need (SignInPage r)) d.
Proof using router.
  remember (match r with Some t => length t | None => 0 end) as n eqn:En. revert d r En.
  induction n as [n IH] using lt_wf_ind. intros d r En Hk answers s.
  assert (∃ m, need (SignInPage r) = S m ∧ 4 ≤ m) as (m & Em & Hm) by (destruct r as [t|]; cbn [need]; eexists; (split; [rewrite ?Nat.add_succ_r; reflexivity|lia])).
  rewrite Em. cbn [AuthSession.visit]. unfold AuthSession.guard. rewrite Hk. unfold sign_in_guard.
  destruct (json_truthy (user s)); [|by eexists].
  destruct r as [t|]; cbn [login_target]; [|by apply (settles_mono 3); [lia|apply dashboard_settles]].
  destruct (truthy t) eqn:Et; [|by apply (settles_mono 3); [lia|apply dashboard_settles]].
  assert (5 ≤ m) as H5 by (cbn [need] in Em; lia). destruct (kind_of (ToText t)) as [pn h pg|r|h| | | |h| |] eqn:Er.
  2: { assert (match r with Some t' => length t' | None => 0 end < length t) as Hr.
       { cbn [AuthSession.kind_of] in Er. unfold route_of in Er. destruct (auth_page _); [discriminate Er|].
         destruct (is_path (parse t) ["sign-in"]) eqn:Ep; [|by repeat (match type of Er with (if ?b then _ else _) = _ => destruct b end; [discriminate Er|])].
         injection Er as <-. destruct (search_redirect (parse t)) as [r'|] eqn:E; [by apply redirect_inside|].
         destruct t as [|c t]; [discriminate Et|simpl; lia]. }
       apply (settles_mono (need (SignInPage r))); [destruct r as [t'|]; cbn [need] in *; lia|]. by apply (IH (match r with Some t' => length t' | None => 0 end)); [subst n|..]. }
  all: apply (settles_mono 5); [lia|apply other_settles; intros r'; rewrite Er; discriminate].
Qed.

(** Every navigation ends: with as many steps as its target may need, whatever is stored and whatever the server answers. *)
Lemma visit_settles d fuel : need (kind_of d) ≤ fuel → settles fuel d.
Proof using router.
  intros Hf. apply (settles_mono (need (kind_of d))); [done|]. destruct (kind_of d) as [pn h pg|r|h| | | |h| |] eqn:Hk; [|by apply sign_in_settles|..];
    apply other_settles; intros r; rewrite Hk; discriminate.
Qed.

(** What is true of the page that is shown, [a] being what its guard learnt. *)
Definition entitled (d : Dest) (a : Answer) (s : Store) : Prop :=
  match kind_of d with
  | Authenticated _ _ page => sessionVerified s = true ∧ json_truthy (user s) = true ∧ access_denied (page_access page) (user s) = false ∧ forward page a = None
  | SignInPage _ => json_truthy (user s) = false
  | ModulePage _ => moduleEnabled a = true ∧ (requireAuth a = true → json_truthy (user s) = true)
  | SetupPage => setupDone a = false
  | ConsoleLog | ConsoleR2 | ConsoleTopup _ | RegisterPage => False
  | PublicPage => True
  end.

Lemma page_guard_shows page a u : page_guard page a u = Show → access_denied (page_access page) u = false ∧ forward page a = None.
Proof using. unfold page_guard. destruct (access_denied _ _); [discriminate|]. by destruct (forward page a). Qed.

Lemma guard_shows d a s s' : guard d a s = (s', Show) → entitled d a s'.
Proof using.
  unfold AuthSession.guard, entitled. destruct (kind_of d) as [pn h pg|r|h| | | |h| |]; try discriminate; [| | | |done].
  - unfold protected_guard. destruct (sessionVerified s) eqn:Ev; cbn [negb].
    + destruct (json_truthy (user s)) eqn:Eu; cbn [negb]; [|discriminate]. intros [= <- [Ha Hf]%page_guard_shows]. done.
    + destruct (confirmed_data _) as [u|] eqn:Ec; [|discriminate]. intros [= <- [Ha Hf]%page_guard_shows]. split; [done|]. split; [by apply confirmed_truthy in Ec|done].
  - unfold sign_in_guard. destruct (json_truthy (user s)) eqn:Eu; [discriminate|]. by intros [= <-].
  - unfold module_guard. destruct (moduleEnabled a); [|discriminate]. cbn [negb]. destruct (requireAuth a); cbn [andb]; [|by intros [= <-]].
    destruct (json_truthy (user s)) eqn:Eu; [|discriminate]. by intros [= <-].
  - unfold setup_guard. destruct (setupDone a); [discriminate|]. by intros [= <-].
Qed.

Lemma visit_entitled fuel d answers s s' d' : visit fuel d answers s = Some (s', d') → ∃ n, entitled d' (answers n) s'.
Proof using.
  revert d answers s. induction fuel as [|fuel IH]; intros d answers s; [discriminate|]. cbn [AuthSession.visit].
  destruct (guard d (answers 0) s) as [s1 [|d1]] eqn:E.
  - intros [= <- <-]. exists 0. by apply guard_shows in E.
  - intros H. apply IH in H as [n Hn]. by exists (S n).
Qed.

(** A visit confirms a session, ends it, or leaves it as it is. *)
Lemma guard_confirms d a s s' v : guard d a s = (s', v) → sessionVerified s' = true →
  sessionVerified s = true ∨ is_Some (confirmed_data (self a)).
Proof using.
  unfold AuthSession.guard. destruct (kind_of d) as [pn h pg|r|h| | | |h| |]; [|intros [= <- _]; auto..].
  unfold protected_guard. destruct (sessionVerified s); cbn [negb]; [auto|].
  destruct (confirmed_data _); [right; by eexists|]. by intros [= <- _].
Qed.

Lemma visit_confirms fuel d answers s s' d' : visit fuel d answers s = Some (s', d') → sessionVerified s' = true →
  sessionVerified s = true ∨ ∃ n, is_Some (confirmed_data (self (answers n))).
Proof using.
  revert d answers s. induction fuel as [|fuel IH]; intros d answers s; [discriminate|]. cbn [AuthSession.visit].
  destruct (guard d (answers 0) s) as [s1 [|d1]] eqn:E; intros Hv Ht.
  - injection Hv as -> ->. apply guard_confirms in E as [?|?]; [by left|right; by exists 0|done].
  - destruct (IH _ _ _ Hv Ht) as [H1|[n Hn]]; [|right; by exists (S n)].
    apply guard_confirms in E as [?|?]; [by left|right; by exists 0|done].
Qed.

(** ** Runs *)

Definition server_confirms (answers : nat → Answer) : Prop := ∃ n, is_Some (confirmed_data (self (answers n))).

(** Events in which the server vouches for the user, and events that end a session. *)
Definition confirms (e : Event) : Prop :=
  match e with
  | Login (LoginReply true _ data) _ answers | CodeLogin (LoginReply true _ data) _ answers => is_Some (login_id data) ∨ server_confirms answers
  | SecondFactor _ answers | Visit _ answers | Preload _ answers | Callback _ _ _ _ _ _ answers | OAuthPage _ _ answers => server_confirms answers
  | _ => False
  end.

Definition ends (e : Event) : bool :=
  match e with Load | Unauthorized | QueryUnauthorized _ _ | StartOAuth | AccountDeleted _ | SignOut => true | _ => false end.

Abbreviation step := (step parse).
Abbreviation run := (run parse).

Lemma visit_page_confirms fuel d answers s n : sessionVerified (store (visit_page parse fuel d answers s n)) = true →
  sessionVerified s = true ∨ server_confirms answers.
Proof using.
  unfold visit_page. destruct (visit fuel d answers s) as [[s' d']|] eqn:E; cbn [store]; [|auto]. intros H. by apply (visit_confirms fuel d answers s s' d').
Qed.

Lemma init_unverified saved uid : sessionVerified (initUser saved uid) = false.
Proof using. unfold initUser. destruct saved as [t|]; [destruct (truthy t)|]; done. Qed.

(** No guard confirms a session that has ended on the way to the sign-in page. *)
Lemma signed_out_unverified fuel r answers s n : sessionVerified (store (visit_page parse fuel (ToSignIn r) answers (reset s) n)) = true → False.
Proof using. unfold visit_page. destruct fuel as [|fuel]; [done|]. cbn [AuthSession.visit]. unfold AuthSession.guard. by cbn. Qed.

Lemma login_success_confirms data s : sessionVerified (login_success data s) = true → is_Some (login_id data) ∨ sessionVerified s = true.
Proof using. unfold login_success. destruct (login_id data); [left; by eexists|auto]. Qed.

Lemma finalize_verified a s : sessionVerified (fst (finalizeLogin a s)) = sessionVerified s.
Proof using. unfold finalizeLogin. destruct (confirmed_data a) as [u|]; [|done]. by destruct (coalesce _ _). Qed.

Lemma failure_verified address a m r s : sessionVerified (fst (handleLoginFailure address a m r s)) = sessionVerified s.
Proof using. unfold handleLoginFailure. pose proof (finalize_verified a s) as H. by destruct (finalizeLogin a s) as [s' []]. Qed.

(** The page of a provider stores a user and leaves it to the guards to confirm the session. *)
Lemma callback_verified address code b a me r s : sessionVerified (fst (OAuthCallback address code b a me r s)) = sessionVerified s.
Proof using.
  unfold OAuthCallback. destruct code as [[|c code]|]; [done| |done]. pose proof (finalize_verified me s) as Hf.
  destruct a as [[] msg data|m].
  - destruct (bool_decide _); [done|]. destruct (json_truthy data); [by destruct (coalesce _ _)|]. by destruct (finalizeLogin me s) as [s' []].
  - destruct b; [done|]. destruct (bool_decide _); [|apply failure_verified]. destruct (finalizeLogin me s) as [s' []]; [done|].
    rewrite failure_verified. done.
  - destruct b; [done|apply failure_verified].
Qed.

Lemma follow_confirms fuel answers effects p : sessionVerified (store (fold_left (follow parse fuel answers) effects p)) = true →
  sessionVerified (store p) = true ∨ server_confirms answers.
Proof using.
  revert p. induction effects as [|e effects IH]; intros p; [auto|]. cbn [fold_left]. intros [H|H]%IH; [|auto].
  destruct e; try (by left); [by apply visit_page_confirms in H|]. cbn [follow load store] in H. by rewrite init_unverified in H.
Qed.

Lemma step_confirms fuel p e : sessionVerified (store (step fuel p e)) = true → confirms e ∨ (sessionVerified (store p) = true ∧ ends e = false).
Proof using.
  unfold AuthSession.step. destruct e as [|a r answers|a r answers|a answers|address code b a me r answers|me r answers|d answers|d answers|a|a|u k v| |href answers| |answers|].
  - cbn [load store]. by rewrite init_unverified.
  - unfold password_login. destruct a as [[] msg data|msg]; [|cbn [with_store store]; auto..]. cbn [confirms].
    destruct (json_truthy _); intros [H|H]%visit_page_confirms; auto. apply login_success_confirms in H as [?|?]; auto.
  - destruct a as [[] msg data|msg]; [|auto..]. cbn [confirms]. intros [[H|H]%login_success_confirms|H]%visit_page_confirms; auto.
  - unfold otp_login. destruct a as [[] msg data|msg]; [|cbn [with_store store]; auto..]. destruct (json_truthy data); [|cbn [with_store store]; auto].
    intros [H|H]%visit_page_confirms; [|by left]. right. split; [|done]. by destruct (login_id data).
  - pose proof (callback_verified address code b a me r (store p)) as Hc. destruct (OAuthCallback _ _ _ _ _ _ _) as [s effects]. cbn [fst] in Hc.
    intros [H|H]%follow_confirms; [|by left]. right. split; [|done]. cbn [with_store store] in H. congruence.
  - unfold OAuthComponent. destruct me as [[] data|]; intros [H|H]%visit_page_confirms; auto.
  - intros [H|H]%visit_page_confirms; [auto|by left].
  - cbn [with_store store]. intros [H|H]%visit_page_confirms; [auto|by left].
  - destruct (refreshes p); [auto|]. cbn [store]. unfold profile_refreshed. destruct (confirmed_data a) as [u|]; [|auto].
    destruct (member "id" (Some u)) as [id|]; [destruct (json_truthy (Some id))|]; auto.
  - cbn [with_store store]. unfold refreshSelf. destruct (confirmed_data a); auto.
  - destruct (json_truthy u); auto.
  - discriminate.
  - by intros H%signed_out_unverified.
  - discriminate.
  - by intros H%signed_out_unverified.
  - cbn [load store]. by rewrite init_unverified.
Qed.

Lemma run_snoc fuel saved uid es e : run fuel saved uid (es ++ [e]) = step fuel (run fuel saved uid es) e.
Proof using. unfold AuthSession.run. by rewrite fold_left_app. Qed.

Lemma run_confirmed fuel saved uid es : sessionVerified (store (run fuel saved uid es)) = true →
  ∃ es1 e es2, es = es1 ++ e :: es2 ∧ confirms e ∧ Forall (λ x, ends x = false) es2.
Proof using.
  induction es as [|e es IH] using rev_ind; [cbn; by rewrite init_unverified|]. rewrite run_snoc. intros [H|[H He]]%step_confirms.
  - by exists es, e, [].
  - destruct (IH H) as (es1 & x & es2 & -> & Hx & Hs). exists es1, x, (es2 ++ [e]). rewrite <- app_assoc. split; [done|]. split; [done|].
    apply Forall_app. split; [done|]. by repeat constructor.
Qed.

(** C23: However pages are loaded, visited and loaded in advance, users log in and out by any of the ways there are and requests fail, every visit ends
    at a page that does not redirect, after a bounded number of redirections.  A page below the layout for users is shown only if the session
    is verified, there is a user and the role of the user suffices; the sign-in page only if no user is stored; the rankings and the prices only if
    their module is on and, where the module asks for a user, one is stored (verified or not).  A session is verified only if the server
    vouched for the user since the session last ended. *)
Theorem protected_pages_confirmed fuel saved uid es :
  let p := run fuel saved uid es in
  (∀ d answers, need (kind_of d) ≤ fuel →
     let p' := step fuel p (Visit d answers) in ∃ d' n, shown p' = Some d' ∧ entitled d' (answers n) (store p')) ∧
  (sessionVerified (store p) = true → ∃ es1 e es2, es = es1 ++ e :: es2 ∧ confirms e ∧ Forall (λ x, ends x = false) es2).
Proof using router.
  cbv zeta. split; [|apply run_confirmed]. intros d answers Hf. set (s := store (run fuel saved uid es)).
  cbn [AuthSession.step]. unfold visit_page. destruct (visit_settles d fuel Hf answers s) as [[s' d'] E]. fold s. rewrite E.
  apply visit_entitled in E as [n Hn]. by exists d', n.
Qed.
End navigation.

(** A router for examples: the parts of a path between slashes, without parameters *)
Definition demo_segments (t : str) : list str :=
  List.filter truthy (let (done_, last) := fold_left (λ acc c, if (c =? 47)%N then (fst acc ++ [snd acc], []) else (fst acc, snd acc ++ [c])) t ([], []) in done_ ++ [last]).

Definition demo_parse (t : str) : Location := {|
  segments := demo_segments t; pathname := t; href := t; search_redirect := None; without_type := None; as_wallet := js "/wallet?show_history=true" |}.

Instance demo_router : Router demo_parse.
Proof.
  split; [|done]. intros t p H. unfold static_targets in H. rewrite !elem_of_cons in H.
  destruct H as [H|[H|[H|[H|H]]]]; [injection H as -> ->; vm_compute; reflexivity..|by apply elem_of_nil in H].
Qed.

Definition demo_answer (me : SelfAnswer) : Answer := {|
  self := me; preview := false; moduleEnabled := true; requireAuth := true; setupDone := true; playgroundEnabled := true |}.

Definition demo_admin : json := JObj [(js "id", JNum (num_of_Z 7)); (js "role", JNum (num_of_Z 10))].

Lemma protected_pages_confirmed_witness :
  let p := run demo_parse 5 None None [] in
  let p' := step demo_parse 5 p (Visit (ToText (js "/models")) (λ _, demo_answer (SelfReply true (Some demo_admin)))) in
  (∃ d' n, shown p' = Some d' ∧ entitled demo_parse d' ((λ _ : nat, demo_answer (SelfReply true (Some demo_admin))) n) (store p')) ∧
  shown p' = Some (models_section (js "metadata")).
Proof.
  split; [|vm_compute; reflexivity].
  apply (protected_pages_confirmed demo_parse 5 None None []). vm_compute. lia.
Defined.

(** The rankings are shown to a user who is stored, though no server confirmed the session. *)
Lemma module_page_trusts_stored_user :
  let p := step demo_parse 5 (run demo_parse 5 (Some (json_stringify demo_admin)) None []) (Visit (ToText (js "/rankings")) (λ _, demo_answer SelfFailed)) in
  shown p = Some (ToText (js "/rankings")) ∧ sessionVerified (store p) = false.
Proof. vm_compute. done. Qed.

(** ** Loading the page again *)

(** An object as the server sends users: proper JSON without numbers as names. *)
Definition plain (o : obj) : Prop := json_ok (JObj o) ∧ Forall (λ k, is_index k = false) (map fst o).
Definition plain_user (u : option json) : Prop := match u with None => True | Some j => ∃ o, j = JObj o ∧ plain o end.

Lemma plain_set k v o : is_index k = false → units k → json_ok v → plain o → plain (obj_set k v o).
Proof.
  intros Hk Hu Hv [Ho Hi]. split; [by apply obj_set_ok|]. rewrite obj_set_keys by done. apply Forall_app. split; [done|].
  destruct (obj_get k o); by repeat constructor.
Qed.

Lemma plain_entries o : plain o → Forall (λ kv, is_index (fst kv) = false ∧ units (fst kv) ∧ json_ok (snd kv)) o.
Proof.
  intros [Ho Hi]. inversion Ho as [| | | | |? H1 H2 _]; subst. rewrite !Forall_forall in *. intros kv Hkv. split_and!; [|by apply H1|by apply H2].
  apply Hi. apply elem_of_lmap. by exists kv.
Qed.

Lemma plain_sets l : Forall (λ kv : str * json, is_index (fst kv) = false ∧ units (fst kv) ∧ json_ok (snd kv)) l → ∀ o, plain o →
  plain (fold_left (λ o kv, obj_set (fst kv) (snd kv) o) l o).
Proof. induction 1 as [|kv l (H1 & H2 & H3) _ IH]; intros o Ho; [done|]. cbn [fold_left]. by apply IH, plain_set. Qed.

Lemma plain_nil : plain [].
Proof. split; [|constructor]. constructor; [constructor|constructor|]. split; [constructor|]. exists [], []. by repeat split; constructor. Qed.

Lemma plain_members u : plain_user u → plain (or_members u).
Proof. destruct u as [j|]; [intros (o & -> & Ho); exact Ho|intros _; apply plain_nil]. Qed.

Lemma plain_member k u v : plain_user u → member k u = Some v → json_ok v.
Proof.
  destruct u as [j|]; [|done]. intros (o & -> & [Ho _]). unfold member. cbn [opt_prop]. intros Hg.
  inversion Ho as [| | | | |? _ H2 _]; subst. rewrite Forall_forall in H2. apply obj_get_elem in Hg. by apply (H2 (js k, v)).
Qed.

Lemma plain_field k u existing d : plain_user u → plain_user existing → json_ok d → json_ok (field_of k u existing d).
Proof.
  intros Hu He Hd. unfold field_of, coalesce.
  destruct (member k u) as [v|] eqn:E1; [destruct v; try (by apply (plain_member k u)); destruct (member k existing) as [w|] eqn:E2|destruct (member k existing) as [w|] eqn:E2];
    try exact Hd; destruct w; try exact Hd; by apply (plain_member k existing).
Qed.

Lemma ok_small z : (0 ≤ z ≤ 1)%Z → json_ok (JNum (num_of_Z z)).
Proof. intros H. constructor. assert (z = 0 ∨ z = 1)%Z as [->| ->] by lia; reflexivity. Qed.

Lemma merged_plain u existing id : plain_user u → plain_user existing → json_ok id → plain_user (Some (merged_user u existing id)).
Proof.
  intros Hu He Hid. eexists. split; [reflexivity|]. apply plain_sets.
  - assert (∀ k v, is_index (js k) = false → units (js k) → json_ok v →
      is_index (fst (js k, v)) = false ∧ units (fst (js k, v)) ∧ json_ok (snd (js k, v))) as H by done.
    repeat (constructor; [apply H; [vm_compute; reflexivity|apply (bool_decide_unpack _); vm_compute; exact I|]|]); [exact Hid|..|constructor];
      apply plain_field; try done; try (by apply ok_small); constructor; apply (bool_decide_unpack _); vm_compute; exact I.
  - unfold obj_spread. apply plain_sets; [by apply plain_entries, plain_members|]. apply plain_sets; [by apply plain_entries, plain_members|apply plain_nil].
Qed.

(** What loading the page would bring back is what is there. *)
Definition kept (s : Store) : Prop :=
  user (initUser (ls_user s) (ls_uid s)) = user s ∧ ls_user (initUser (ls_user s) (ls_uid s)) = ls_user s ∧ plain_user (user s).

Lemma init_text u uid : plain_user (Some u) → user (initUser (Some (json_stringify u)) uid) = Some u ∧ ls_user (initUser (Some (json_stringify u)) uid) = Some (json_stringify u).
Proof.
  intros (o & -> & [Ho _]). unfold initUser. pose proof (stringify_ne _ Ho) as Hne.
  assert (truthy (json_stringify (JObj o)) = true) as -> by by destruct (json_stringify (JObj o)).
  cbn [user ls_user]. unfold parsed_user. by rewrite json_parse_stringify.
Qed.

Lemma kept_uid s s' : user s' = user s → ls_user s' = ls_user s → kept s → kept s'.
Proof.
  intros E1 E2 (H1 & H2 & H3). unfold kept in *. rewrite E1, E2.
  assert (∀ saved uid uid', user (initUser saved uid) = user (initUser saved uid') ∧ ls_user (initUser saved uid) = ls_user (initUser saved uid')) as H.
  { intros [t|] uid uid'; [|done]. unfold initUser. by destruct (truthy t). }
  destruct (H (ls_user s) (ls_uid s') (ls_uid s)) as [-> ->]. done.
Qed.

Lemma kept_set u s : plain_user (Some u) → kept (setUser (Some u) s).
Proof.
  intros Hu. unfold kept, setUser. cbn [user ls_user ls_uid]. pose proof Hu as (o & -> & Ho). cbn [json_truthy].
  destruct (init_text (JObj o) (ls_uid s) Hu) as [-> ->]. done.
Qed.

Lemma kept_reset s : kept (reset s).
Proof. done. Qed.

Lemma kept_init s : kept s → kept (initUser (ls_user s) (ls_uid s)).
Proof. intros H. pose proof H as (H1 & H2 & H3). by apply (kept_uid s). Qed.

Definition answers_plain (answers : nat → Answer) : Prop := ∀ n, plain_user (confirmed_data (self (answers n))).
Definition login_plain (a : LoginAnswer) : Prop := match a with LoginReply _ _ data => plain_user data | LoginFailed _ => True end.
Definition self_plain (a : SelfAnswer) : Prop := match a with SelfReply true data => plain_user (coalesce data None) | _ => True end.

Definition event_plain (e : Event) : Prop :=
  match e with
  | Login a _ answers | CodeLogin a _ answers | SecondFactor a answers => login_plain a ∧ answers_plain answers
  | Callback _ _ _ a me _ answers => login_plain a ∧ plain_user (confirmed_data me) ∧ answers_plain answers
  | OAuthPage me _ answers => self_plain me ∧ answers_plain answers
  | Visit _ answers | Preload _ answers | QueryUnauthorized _ answers | AccountDeleted answers => answers_plain answers
  | ProfileAnswer a | RefreshSelf a => plain_user (confirmed_data a)
  | ChangeSetting rendered _ v => plain_user rendered ∧ units v
  | _ => True
  end.

Lemma kept_set_none s : kept (setUser None s).
Proof. done. Qed.

(** The texts that users change *)
Lemma changed_plain k v u : plain_user u → units v → plain_user (Some (changed_user k v u)).
Proof.
  intros Hu Hv. eexists. split; [reflexivity|]. apply plain_set.
  - destruct k; vm_compute; reflexivity.
  - destruct k; apply (bool_decide_unpack _); vm_compute; exact I.
  - by constructor.
  - unfold obj_spread. apply plain_sets; [by apply plain_entries, plain_members|apply plain_nil].
Qed.

Lemma kept_login_success data s : plain_user data → kept s → kept (login_success data s).
Proof.
  intros Ha Hs. unfold login_success. destruct (login_id data) as [id|] eqn:El; [|done]. assert (json_ok id) as Hid.
  { unfold login_id in El. destruct (json_truthy (member "id" data)); [|discriminate]. by apply (plain_member "id" data). }
  match goal with |- kept (setSessionVerified true ?x) => apply (kept_uid x); [done|done|] end. apply kept_set.
  apply merged_plain; [done| |done]. destruct Hs as (_ & _ & Hp). exact Hp.
Qed.

Lemma kept_save_id id s : kept s → kept (saveUserId id s).
Proof. intros H. by apply (kept_uid s). Qed.

Lemma kept_finalize a s : plain_user (confirmed_data a) → kept s → kept (fst (finalizeLogin a s)).
Proof.
  intros Ha Hs. unfold finalizeLogin. destruct (confirmed_data a) as [u|]; [|done]. pose proof (kept_set u s Ha) as Hk.
  cbn [fst]. destruct (coalesce _ _); [by apply kept_save_id|done].
Qed.

Lemma kept_failure address a m r s : plain_user (confirmed_data a) → kept s → kept (fst (handleLoginFailure address a m r s)).
Proof. intros Ha Hs. unfold handleLoginFailure. pose proof (kept_finalize a s Ha Hs) as H. by destruct (finalizeLogin a s) as [s' []]. Qed.

Lemma kept_callback address code b a me r s : login_plain a → plain_user (confirmed_data me) → kept s → kept (fst (OAuthCallback address code b a me r s)).
Proof.
  intros Ha Hm Hs. unfold OAuthCallback. destruct code as [[|c code]|]; [done| |done]. pose proof (kept_finalize me s Hm Hs) as Hf.
  destruct a as [[] msg data|m]; cbn [login_plain] in Ha.
  - destruct (bool_decide _); [done|]. destruct (json_truthy data) eqn:Et; [|by destruct (finalizeLogin me s) as [s' []]].
    destruct data as [u|]; [|discriminate Et]. pose proof (kept_set u s Ha) as Hk. cbn [fst]. destruct (coalesce _ _); [by apply kept_save_id|done].
  - destruct b; [done|]. destruct (bool_decide _); [|by apply kept_failure]. destruct (finalizeLogin me s) as [s' []]; [done|]. by apply kept_failure.
  - destruct b; [done|by apply kept_failure].
Qed.

Section reload.
Context (parse : str → Location).

Lemma kept_visit fuel d answers s n : answers_plain answers → kept s → kept (store (visit_page parse fuel d answers s n)).
Proof.
  intros Ha Hs. unfold visit_page. destruct (visit parse fuel d answers s) as [[s' d']|] eqn:E; [|done]. cbn [store].
  revert d answers s Ha Hs E. induction fuel as [|fuel IH]; intros d answers s Ha Hs E; [discriminate|]. cbn [visit] in E.
  assert (kept (fst (guard parse d (answers 0) s))) as Hg.
  { unfold guard. destruct (kind_of parse d) as [pn h pg|r|h| | | |h| |]; [|done..]. unfold protected_guard. specialize (Ha 0).
    destruct (sessionVerified s); cbn [negb]; [by destruct (json_truthy (user s))|].
    destruct (confirmed_data (self (answers 0))) as [u|]; [|apply kept_reset]. cbn [fst].
    apply (kept_uid (setUser (Some u) s)); [done|done|by apply kept_set]. }
  destruct (guard parse d (answers 0) s) as [s1 [|d1]]; cbn [fst] in Hg; [by injection E as <- <-|].
  apply (IH d1 (λ n, answers (S n)) s1); [intros m; apply Ha|done|done].
Qed.

Lemma kept_follow fuel answers effects p : answers_plain answers → kept (store p) → kept (store (fold_left (follow parse fuel answers) effects p)).
Proof.
  intros Ha. revert p. induction effects as [|e effects IH]; intros p Hp; [done|]. cbn [fold_left]. apply IH.
  destruct e; try done; [by apply kept_visit|by apply kept_init].
Qed.

Lemma kept_step fuel p e : event_plain e → kept (store p) → kept (store (step parse fuel p e)).
Proof.
  intros He Hs. unfold step. destruct e as [|a r answers|a r answers|a answers|address code b a me r answers|me r answers|d answers|d answers|a|a|u k v| |href answers| |answers|].
  - by apply kept_init.
  - destruct He as [Ha Hn]. unfold password_login. destruct a as [[] msg data|msg]; [|exact Hs..].
    destruct (json_truthy _); [by apply kept_visit|]. apply kept_visit; [done|]. by apply kept_login_success.
  - destruct He as [Ha Hn]. destruct a as [[] msg data|msg]; [|exact Hs..]. apply kept_visit; [done|]. by apply kept_login_success.
  - destruct He as [Ha Hn]. unfold otp_login. destruct a as [[] msg data|msg]; [|exact Hs..]. destruct data as [u|]; [|exact Hs].
    destruct (json_truthy (Some u)); [|exact Hs]. apply kept_visit; [done|]. pose proof (kept_set u (store p) Ha) as Hk.
    destruct (login_id (Some u)); [by apply kept_save_id|exact Hk].
  - destruct He as (Ha & Hm & Hn). pose proof (kept_callback address code b a me r (store p) Ha Hm Hs) as Hk.
    destruct (OAuthCallback _ _ _ _ _ _ _) as [s effects]. by apply kept_follow.
  - destruct He as [Ha Hn]. unfold OAuthComponent. destruct me as [[] data|]; apply kept_visit; try done. cbn [self_plain] in Ha.
    destruct (coalesce data None) as [u|]; [by apply kept_set|apply kept_set_none].
  - by apply kept_visit.
  - cbn [with_store store]. by apply kept_visit.
  - destruct (refreshes p); [done|]. cbn [store]. unfold profile_refreshed. cbn [event_plain] in He.
    destruct (confirmed_data a) as [u|]; [|done]. pose proof (kept_set u (store p) He) as Hk.
    destruct (member "id" (Some u)) as [id|]; [destruct (json_truthy (Some id)); [by apply kept_save_id|exact Hk]|exact Hk].
  - cbn [event_plain with_store store] in *. unfold refreshSelf. destruct (confirmed_data a) as [u|]; [by apply kept_set|done].
  - destruct He as [Hu Hv]. destruct (json_truthy u); [|done]. by apply kept_set, changed_plain.
  - apply kept_reset.
  - apply kept_visit; [done|apply kept_reset].
  - apply kept_reset.
  - apply kept_visit; [done|apply kept_reset].
  - done.
Qed.

(** C24: Loading the page again brings back the user that is there, and asks for confirmation: after any run the stored text is that of the
    user, so that the store after loading has the same user, a session that is not verified, and the same texts. *)
Theorem reload_keeps_user fuel saved uid es :
  (∀ t, saved = Some t → ∃ u, t = json_stringify u ∧ plain_user (Some u)) → Forall event_plain es →
  let p := run parse fuel saved uid es in
  let p' := step parse fuel p Load in
  user (store p') = user (store p) ∧ sessionVerified (store p') = false ∧ ls_user (store p') = ls_user (store p).
Proof.
  intros Hsaved Hes p p'. assert (kept (store p)) as (H1 & H2 & _); [|split; [exact H1|split; [apply init_unverified|exact H2]]].
  unfold p, run. assert (kept (initUser saved uid)) as H0.
  { destruct saved as [t|]; [|done]. destruct (Hsaved t eq_refl) as (u & -> & Hu). destruct (init_text u uid Hu) as [E1 E2].
    unfold kept. rewrite E1, E2. destruct (init_text u (ls_uid (initUser (Some (json_stringify u)) uid)) Hu) as [-> ->]. done. }
  set (p0 := {| store := initUser saved uid; refreshes := 0; shown := None |}). change (initUser saved uid) with (store p0) in H0. clearbody p0. clear p p' Hsaved.
  revert p0 H0. induction Hes as [|e es He _ IH]; intros p0 H0; [done|]. cbn [fold_left]. apply IH. by apply kept_step.
Qed.
End reload.

Definition demo_user (role : Z) : json := JObj [(js "id", JNum (num_of_Z 7)); (js "role", JNum (num_of_Z role))].

Lemma demo_plain : plain_user (Some (demo_user 1)).
Proof.
  eexists. split; [reflexivity|]. split; [|by repeat constructor]. constructor.
  - repeat (constructor; [apply (bool_decide_unpack _); vm_compute; exact I|]). constructor.
  - repeat constructor; vm_compute; reflexivity.
  - split; [apply (bool_decide_unpack _); vm_compute; exact I|]. exists [], [js "id"; js "role"]. repeat split; repeat constructor.
Qed.

Lemma reload_keeps_user_witness :
  let p := run demo_parse 5 (Some (json_stringify (demo_user 1))) None [Unauthorized; Login (LoginReply true [] (Some (demo_user 1))) None (λ _, demo_answer SelfFailed)] in
  user (store (step demo_parse 5 p Load)) = user (store p) ∧ sessionVerified (store p) = true.
Proof.
  intros p. split; [|vm_compute; reflexivity].
  refine (proj1 (reload_keeps_user demo_parse 5 (Some (json_stringify (demo_user 1))) None _ _ _)).
  - intros t Ht. exists (demo_user 1). split; [exact (eq_sym (f_equal (default []) Ht))|exact demo_plain].
  - constructor; [exact I|]. constructor; [|constructor]. split; [exact demo_plain|]. intros n. exact I.
Defined.

(** ** Where it goes wrong *)

(** The target of a callback is followed wherever it leads: a signed-in user who opens such an address with any code at all is sent to another
    site, or to a script, as soon as the router did not take the target for one of its own pages. *)
Lemma callback_redirects_anywhere address target u c :
  truthy target = true → starts_with (js "/") target = false → json_truthy (Some u) = true →
  address target ≠ js "/" ++ target → address target ≠ (js "/" ++ target) ++ js "/" →
  ∀ s m, Replace target ∈ snd (OAuthCallback address (Some (c :: [])) false (LoginReply false m None) (SelfReply true (Some u)) (Some target) s).
Proof.
  intros Ht Hs Hu H1 H2 s m.
  assert (Replace target ∈ redirectAfterLogin address (Some target)) as Hr.
  { unfold redirectAfterLogin, redirect_target, login_target. rewrite Ht. apply elem_of_app. left. unfold safeNavigate, normalizedTarget. rewrite Hs.
    rewrite !bool_decide_false by done. cbn [negb andb]. apply elem_of_cons. right. by apply list_elem_of_singleton. }
  assert (∃ s', finalizeLogin (SelfReply true (Some u)) s = (s', true)) as [s' Ef].
  { unfold finalizeLogin, confirmed_data. rewrite Hu. by eexists. }
  unfold OAuthCallback, handleLoginFailure. rewrite Ef. destruct (bool_decide _); exact Hr.
Qed.

(** A user who needs a second factor ends at the dashboard, whatever page was asked for. *)
Lemma second_factor_loses_target redirectTo s m data : json_truthy (member "require_2fa" (Some data)) = true →
  snd (fst (password_login (LoginReply true m (Some data)) redirectTo s)) = Some ToOtp ∧
  (∀ a s', snd (otp_login a s') = Some (ToSignIn None) ∨ snd (otp_login a s') = None).
Proof.
  intros H. unfold password_login. rewrite H. split; [done|]. intros a s'. unfold otp_login.
  destruct a as [[] msg d|]; [destruct (json_truthy d)|..]; auto.
Qed.

(** An answer about the profile that comes after the session ended puts the user back. *)
Lemma late_profile_restores_user :
  let ok := (λ _ : nat, demo_answer (SelfReply true (Some (demo_user 1)))) in
  let p := run demo_parse 5 None None
    [Login (LoginReply true [] (Some (demo_user 1))) None ok; Unauthorized; ProfileAnswer (SelfReply true (Some (demo_user 1)))] in
  user (store p) = Some (demo_user 1) ∧ is_Some (ls_user (store p)) ∧ sessionVerified (store p) = false.
Proof. vm_compute. split; [reflexivity|]. split; [by eexists|reflexivity]. Qed.

(** The end of a session leaves the header that names the user. *)
Lemma header_outlives_session s : user_header (reset s) = user_header s.
Proof. done. Qed.

(** A user without a role passes the guards of the administrators, but not that of the models. *)
Lemma missing_role_is_admitted :
  let u := Some (JObj [(js "id", JNum (num_of_Z 7))]) in
  access_denied Administrator u = false ∧ access_denied RewardAdmin u = false ∧ access_denied ModelManager u = true ∧
  access_denied RewardAdmin None = false.
Proof. vm_compute. done. Qed.

(** ** Backup codes *)

(** What is typed as a backup code, once complete, is accepted and sent without its hyphen. *)
Lemma backup_code_sent toUpperCase value :
  length (take 8 (List.filter is_alnum (toUpperCase value))) = 8 →
  otp_code true (formatBackupCode toUpperCase value) = Some (take 8 (List.filter is_alnum (toUpperCase value))).
Proof.
  intros Hl. unfold otp_code, formatBackupCode. set (w := take 8 _) in *. rewrite Hl. change (4 <? 8)%nat with true. cbv iota.
  assert (Forall (λ c, is_alnum c = true) w) as Hw.
  { unfold w. apply Forall_take. apply Forall_forall. intros c Hc%list_elem_of_In. by apply filter_In in Hc as [_ Hc]. }
  assert (∀ l, Forall (λ c, is_alnum c = true) l → forallb is_alnum_i l = true) as Hi.
  { intros l H. apply forallb_forall. intros c Hc. rewrite Forall_forall in H. unfold is_alnum_i. rewrite H; [done|by apply list_elem_of_In]. }
  assert (length (take 4 w) = 4) as H4 by (rewrite length_take; lia).
  replace (isValidBackupCode (take 4 w ++ [45%N] ++ drop 4 w)) with true.
  - f_equal. unfold cleanBackupCode. rewrite !bfilter_app. cbn [List.filter negb N.eqb Pos.eqb app].
    rewrite <- (take_drop 4 w) at 3. f_equal; apply bfilter_id; intros c Hc; apply negb_true_iff, N.eqb_neq; intros ->;
      (assert (is_alnum 45 = true); [|done]); [assert (45%N ∈ w) by (rewrite <- (take_drop 4 w); apply elem_of_app; by left)|assert (45%N ∈ w) by (rewrite <- (take_drop 4 w); apply elem_of_app; by right)];
      rewrite Forall_forall in Hw; by apply Hw.
  - symmetry. unfold isValidBackupCode. rewrite !andb_true_iff, bool_decide_eq_true. split_and!.
    + apply Nat.eqb_eq. rewrite !length_app, H4, length_drop, Hl. done.
    + rewrite take_app_length' by done. by apply Hi, Forall_take.
    + rewrite lookup_app_r, H4 by lia. done.
    + rewrite app_assoc, drop_app_length' by (rewrite length_app, H4; done). by apply Hi, Forall_drop.
Qed.
