(* ===== verification/ApiClient.v ===== *)
(** * The HTTP client

    [lib/api.ts]: concurrent GET requests to the same address are one request, errors are reported at most once a minute per request, a 401 answer
    ends the session; [lib/handle-server-error.ts]: an error is reported once whoever sees it; and the handlers of queries and mutations in
    [main.tsx], where an answer 304 to a mutation leads to a message of its own.

    An error is an object, so it has an identity.  [toUpperCase] and the translation of texts are arguments; the clock comes with the events. *)

From stdpp Require Import gmap.
From S2P Require Import Prelude JsString JsNumber Json AuthSession.

(** ** Concurrent requests *)

(** [`${url}?${params}`] *)
Definition get_key (url : str) (params : option json) : str :=
  url ++ js "?" ++ match params with Some p => if json_truthy params then json_stringify p else js "{}" | None => js "{}" end.

(** The requests under way with the callers that wait for each, those sent, and what callers got. *)
Record Gets := { inFlightGet : list (str * list nat); sent : list (nat * str); got : list (nat * nat) }.

Definition join_flight (key : str) (caller : nat) (l : list (str * list nat)) : list (str * list nat) :=
  map (λ kc, if bool_decide (fst kc = key) then (fst kc, snd kc ++ [caller]) else kc) l.

(** [api.get]; a request of its own is not shared. *)
Definition get (caller : nat) (url : str) (params : option json) (disableDuplicate : bool) (g : Gets) : Gets :=
  let key := get_key url params in
  if disableDuplicate then {| inFlightGet := inFlightGet g; sent := sent g ++ [(caller, key)]; got := got g |}
  else if existsb (λ kc, bool_decide (fst kc = key)) (inFlightGet g)
  then {| inFlightGet := join_flight key caller (inFlightGet g); sent := sent g; got := got g |}
  else {| inFlightGet := inFlightGet g ++ [(key, [caller])]; sent := sent g ++ [(caller, key)]; got := got g |}.

(** The shared request for [key] is answered: all its callers get the answer, and it is no longer under way. *)
Definition settled (key : str) (answer : nat) (g : Gets) : Gets :=
  let callers := flat_map (λ kc, if bool_decide (fst kc = key) then snd kc else []) (inFlightGet g) in
  {| inFlightGet := List.filter (λ kc, negb (bool_decide (fst kc = key))) (inFlightGet g); sent := sent g; got := got g ++ map (λ c, (c, answer)) callers |}.

Inductive GetEvent := Get (caller : nat) (url : str) (params : option json) | Settled (key : str) (answer : nat).

Definition get_step (g : Gets) (e : GetEvent) : Gets :=
  match e with Get c url params => get c url params false g | Settled key a => settled key a g end.

Definition get_run (es : list GetEvent) : Gets := fold_left get_step es {| inFlightGet := []; sent := []; got := [] |}.

(** ** Errors *)

Record ApiError := { e_id : nat; e_status : option Z; e_data : option json; e_axios : bool; e_text : str; e_skip : bool; e_method : option str; e_url : option str }.

Definition ERROR_TOAST_COOLDOWN_MS : Z := 60000.

Section errors.
Context (toUpperCase t : str → str).

Definition given_text (v : option json) : option str :=
  match v with Some (JStr s) => if truthy (trim s) then Some s else None | _ => None end.

Definition getServerErrorMessage (e : ApiError) : str :=
  let from_data := match given_text (opt_prop (js "message") (e_data e)) with Some m => Some m | None => given_text (opt_prop (js "title") (e_data e)) end in
  let from_status :=
    if bool_decide (e_status e = Some 429%Z) then Some (t (js "Too many requests") ++ js " " ++ t (js "Please try again later."))
    else if bool_decide (e_status e = Some 401%Z) then Some (t (js "Session expired!"))
    else if bool_decide (e_status e = Some 404%Z) then Some (t (js "Content not found."))
    else if bool_decide (e_status e = Some 500%Z) then Some (t (js "Internal Server Error!")) else None in
  let rest := if truthy (e_text e) then e_text e else t (js "Something went wrong!") in
  if e_axios e then match from_data with Some m => m | None => default rest from_status end else rest.

(** [`${status || 'network'}:${method}:${url}`] *)
Definition error_key (e : ApiError) : str :=
  match e_status e with Some z => if (z =? 0)%Z then js "network" else Z_dec z | None => js "network" end ++ js ":" ++
  toUpperCase (match e_method e with Some m => if truthy m then m else js "GET" | None => js "GET" end) ++ js ":" ++
  match e_url e with Some u => if truthy u then u else js "unknown" | None => js "unknown" end.

(** The message that reports an error, and the one that mutations show for an answer 304 *)
Inductive ToastKind := Report | NotModified.

Record Toast := { t_at : Z; t_error : ApiError; t_kind : ToastKind; t_message : str }.

(** [toasts]: all error messages that were shown, in order *)
Record Client := { recentErrorToasts : gmap str Z; reportedErrors : gset nat; toasts : list Toast; session : Store; navigations : list Dest }.

Definition markServerErrorHandled (e : ApiError) (c : Client) : Client := {|
  recentErrorToasts := recentErrorToasts c; reportedErrors := {[e_id e]} ∪ reportedErrors c; toasts := toasts c; session := session c;
  navigations := navigations c |}.

Definition handleServerError (now : Z) (e : ApiError) (c : Client) : Client :=
  if bool_decide (e_id e ∈ reportedErrors c) then c
  else let c := markServerErrorHandled e c in {|
    recentErrorToasts := recentErrorToasts c; reportedErrors := reportedErrors c;
    toasts := toasts c ++ [{| t_at := now; t_error := e; t_kind := Report; t_message := getServerErrorMessage e |}]; session := session c; navigations := navigations c |}.

Definition shouldShowErrorToast (now : Z) (key : str) (c : Client) : Client * bool :=
  if (now - default 0 (recentErrorToasts c !! key) <? ERROR_TOAST_COOLDOWN_MS)%Z then (c, false)
  else ({| recentErrorToasts := <[key := now]> (recentErrorToasts c); reportedErrors := reportedErrors c; toasts := toasts c; session := session c;
           navigations := navigations c |}, true).

Definition end_session (c : Client) : Client := {|
  recentErrorToasts := recentErrorToasts c; reportedErrors := reportedErrors c; toasts := toasts c; session := reset (session c); navigations := navigations c |}.

Definition navigate (d : Dest) (c : Client) : Client := {|
  recentErrorToasts := recentErrorToasts c; reportedErrors := reportedErrors c; toasts := toasts c; session := session c; navigations := navigations c ++ [d] |}.

(** The response interceptor *)
Definition intercept (now : Z) (e : ApiError) (c : Client) : Client :=
  if bool_decide (e_status e = Some 401%Z) then
    let c := end_session c in if e_skip e then c else handleServerError now e c
  else if e_skip e then c
  else match shouldShowErrorToast now (error_key e) c with
       | (c, true) => handleServerError now e c
       | (c, false) => markServerErrorHandled e c
       end.

(** [onError] of the query cache; [href] is the address of the page *)
Definition query_failed (now : Z) (href : str) (e : ApiError) (c : Client) : Client :=
  if negb (e_axios e) || e_skip e then c
  else if bool_decide (e_status e = Some 401%Z) then navigate (ToSignIn (Some href)) (end_session (handleServerError now e c))
  else if bool_decide (e_status e = Some 500%Z) then navigate To500 (handleServerError now e c)
  else c.

(** [onError] of the mutations *)
Definition mutation_failed (now : Z) (e : ApiError) (c : Client) : Client :=
  let c := handleServerError now e c in
  if e_axios e && bool_decide (e_status e = Some 304%Z)
  then {| recentErrorToasts := recentErrorToasts c; reportedErrors := reportedErrors c;
          toasts := toasts c ++ [{| t_at := now; t_error := e; t_kind := NotModified; t_message := t (js "Content not modified!") |}]; session := session c; navigations := navigations c |}
  else c.

Inductive ErrorEvent :=
  | Intercepted (e : ApiError)
  | QueryFailed (href : str) (e : ApiError)
  | MutationFailed (e : ApiError)
  | Caught (e : ApiError).

Definition error_of (ev : ErrorEvent) : ApiError := match ev with Intercepted e | QueryFailed _ e | MutationFailed e | Caught e => e end.

Definition error_step (c : Client) (nev : Z * ErrorEvent) : Client :=
  match snd nev with
  | Intercepted e => intercept (fst nev) e c
  | QueryFailed href e => query_failed (fst nev) href e c
  | MutationFailed e => mutation_failed (fst nev) e c
  | Caught e => handleServerError (fst nev) e c
  end.

Definition fresh (s : Store) : Client := {| recentErrorToasts := ∅; reportedErrors := ∅; toasts := []; session := s; navigations := [] |}.

Definition error_run (s : Store) (evs : list (Z * ErrorEvent)) : Client := fold_left error_step evs (fresh s).
End errors.

(** * Properties of the HTTP client

    Errors are shown once each and not more than once a minute per request; every caller of a shared request gets one answer. *)


(** ** Errors *)

Section errors.
Context (toUpperCase t : str → str).
Abbreviation error_step := (error_step toUpperCase t).
Abbreviation error_run := (error_run toUpperCase t).
Abbreviation key := (error_key toUpperCase).

(** The messages that report an error *)
Definition reports (l : list Toast) : list Toast := List.filter (λ x, match t_kind x with Report => true | NotModified => false end) l.

Lemma reports_app l l' : reports (l ++ l') = reports l ++ reports l'.
Proof. apply bfilter_app. Qed.

(** The answers 304 to mutations *)
Definition unmodified (ev : ErrorEvent) : bool :=
  match ev with MutationFailed e => e_axios e && bool_decide (e_status e = Some 304%Z) | _ => false end.

Section spacing.
(** Errors whose reports are limited *)
Context (limited : ApiError → Prop).

(** [seen]: the errors the interceptor saw *)
Record tidy (seen : list ApiError) (c : Client) : Prop := {
  y_once : NoDup (map (e_id ∘ t_error) (reports (toasts c)));
  y_reported : ∀ x, x ∈ reports (toasts c) → e_id (t_error x) ∈ reportedErrors c;
  y_seen : ∀ e, e ∈ seen → e_skip e = false → e_id e ∈ reportedErrors c;
  y_recent : ∀ x, x ∈ reports (toasts c) → limited (t_error x) → ∃ r, recentErrorToasts c !! key (t_error x) = Some r ∧ (t_at x ≤ r)%Z;
  y_spaced : ∀ i j x y, i < j → reports (toasts c) !! i = Some x → reports (toasts c) !! j = Some y → limited (t_error x) → limited (t_error y) →
    key (t_error x) = key (t_error y) → (t_at x + ERROR_TOAST_COOLDOWN_MS ≤ t_at y)%Z }.

(** Only the reports, the errors reported and the times matter. *)
Lemma tidy_same seen c c' : reports (toasts c') = reports (toasts c) → reportedErrors c' = reportedErrors c →
  recentErrorToasts c' = recentErrorToasts c → tidy seen c → tidy seen c'.
Proof. intros E1 E2 E3 [H1 H2 H3 H4 H5]. split; rewrite ?E1, ?E2, ?E3; done. Qed.

(** A report that the cooldown allows, or that it does not concern. *)
Lemma tidy_toast seen c now e :
  tidy seen c → (e_id e ∉ reportedErrors c → limited e → recentErrorToasts c !! key e = Some now ∧
    ∀ x, x ∈ reports (toasts c) → limited (t_error x) → key (t_error x) = key e → (t_at x + ERROR_TOAST_COOLDOWN_MS ≤ now)%Z) →
  tidy seen (handleServerError t now e c).
Proof.
  intros [H1 H2 H3 H4 H5] Hl. unfold handleServerError. destruct (bool_decide _) eqn:Ed; [done|].
  apply bool_decide_eq_false in Ed. specialize (Hl Ed).
  split; cbn [toasts reportedErrors recentErrorToasts markServerErrorHandled]; rewrite ?reports_app; cbn [reports List.filter t_kind].
  - rewrite map_app. apply NoDup_app. split; [done|]. split; [|apply NoDup_singleton].
    intros n Hn ->%list_elem_of_singleton. apply elem_of_lmap in Hn as (x & E & Hx). apply Ed. cbn in E. rewrite E. by apply H2.
  - intros x [Hx|Hx%list_elem_of_singleton]%elem_of_app; apply elem_of_union; [right; by apply H2|left; subst; by apply elem_of_singleton].
  - intros e' He Hs. apply elem_of_union. right. by apply H3.
  - intros x [Hx|Hx%list_elem_of_singleton]%elem_of_app Hlx; [by apply H4|]. subst x. cbn [t_error t_at] in *. exists now. by destruct (Hl Hlx).
  - intros i j x y Hij Hi Hj Hlx Hly Hk. apply lookup_snoc_Some in Hj as [[Hj Ey]|[-> Ey]].
    + apply lookup_snoc_Some in Hi as [[Hi Ex]|[-> _]]; [by apply (H5 i j)|lia].
    + apply lookup_snoc_Some in Hi as [[Hi Ex]|[-> _]]; [|lia]. subst y. cbn [t_error t_at] in *. destruct (Hl Hly) as [_ H].
      apply (H x); [by apply (list_elem_of_lookup_2 _ i)|done|done].
Qed.

Lemma tidy_mark seen c e : tidy seen c → tidy seen (markServerErrorHandled e c).
Proof.
  intros [H1 H2 H3 H4 H5]. split; cbn [toasts reportedErrors recentErrorToasts markServerErrorHandled]; try done.
  - intros x Hx. apply elem_of_union. right. by apply H2.
  - intros e' He Hs. apply elem_of_union. right. by apply H3.
Qed.

(** Another error that the interceptor saw *)
Lemma tidy_saw seen c e : (e_skip e = false → e_id e ∈ reportedErrors c) → tidy seen c → tidy (seen ++ [e]) c.
Proof. intros He [H1 H2 H3 H4 H5]. split; try done. intros e' [He'| ->%list_elem_of_singleton]%elem_of_app Hs; auto. Qed.

Lemma reported_now now e c : e_id e ∈ reportedErrors (handleServerError t now e c).
Proof. unfold handleServerError. destruct (bool_decide _) eqn:E; [by apply bool_decide_eq_true in E|]. cbn. set_solver. Qed.

Context (limited_handled : ∀ e, limited e → e_skip e = false ∧ e_status e ≠ Some 401%Z).

Lemma tidy_intercept seen c now e : tidy seen c → tidy (seen ++ [e]) (intercept toUpperCase t now e c).
Proof.
  intros H. unfold intercept. destruct (bool_decide _) eqn:E4.
  - apply bool_decide_eq_true in E4. apply (tidy_same _ _ (end_session c)) in H; [|done..].
    destruct (e_skip e) eqn:Es; [apply tidy_saw; [congruence|done]|]. apply tidy_saw; [intros _; apply reported_now|].
    apply tidy_toast; [done|]. intros _ Hl. by destruct (limited_handled e Hl).
  - destruct (e_skip e) eqn:Es; [apply tidy_saw; [congruence|done]|]. unfold shouldShowErrorToast.
    destruct (_ <? _)%Z eqn:Ec; [apply tidy_saw; [intros _; cbn; set_solver|by apply tidy_mark]|].
    apply Z.ltb_ge in Ec. pose proof (y_recent _ _ H) as Hr.
    assert (∀ x, x ∈ reports (toasts c) → limited (t_error x) → key (t_error x) = key e → (t_at x + ERROR_TOAST_COOLDOWN_MS ≤ now)%Z) as Hk.
    { intros x Hx Hl Hk. destruct (Hr x Hx Hl) as (r & Er & Hle). rewrite Hk in Er. rewrite Er in Ec. cbn in Ec. lia. }
    apply tidy_saw; [intros _; apply reported_now|]. apply tidy_toast; cbn [toasts recentErrorToasts].
    + destruct H as [H1 H2 H3 H4 H5]. split; try done. cbn [toasts recentErrorToasts]. intros x Hx Hl.
      destruct (decide (key (t_error x) = key e)) as [E|E].
      * rewrite E, lookup_insert_eq. exists now. split; [done|]. specialize (Hk x Hx Hl E). unfold ERROR_TOAST_COOLDOWN_MS in Hk. lia.
      * rewrite lookup_insert_ne by done. by apply H4.
    + intros _ _. split; [apply lookup_insert_eq|exact Hk].
Qed.

(** An error with limited reports that the interceptor saw is not reported again. *)
Lemma tidy_again seen c now e : tidy seen c → (limited e → e ∈ seen) → tidy seen (handleServerError t now e c).
Proof.
  intros H He. apply tidy_toast; [done|]. intros Hn Hl. destruct Hn. apply (y_seen _ _ H); [by apply He|by destruct (limited_handled e Hl)].
Qed.

Definition seen_by (ev : ErrorEvent) : list ApiError := match ev with Intercepted e => [e] | _ => [] end.

Lemma tidy_step seen c n ev : tidy seen c → match ev with Intercepted _ => True | _ => limited (error_of ev) → error_of ev ∈ seen end →
  tidy (seen ++ seen_by ev) (error_step c (n, ev)).
Proof.
  intros H Hs. unfold ApiClient.error_step. cbn [fst snd]. destruct ev as [e|href e|e|e]; cbn [error_of seen_by] in *; rewrite ?app_nil_r.
  - by apply tidy_intercept.
  - unfold query_failed. destruct (_ || _); [done|]. pose proof (tidy_again seen c n e H Hs) as Ht.
    destruct (bool_decide _); [by eapply tidy_same; [..|exact Ht]|]. destruct (bool_decide _); [by eapply tidy_same; [..|exact Ht]|done].
  - unfold mutation_failed. pose proof (tidy_again seen c n e H Hs) as Ht. destruct (_ && _); [|done].
    apply (tidy_same _ (handleServerError t n e c)); [|done..|done]. cbn [toasts]. rewrite reports_app. apply app_nil_r.
  - by apply tidy_again.
Qed.
End spacing.

(** The messages of the other kind: one for each answer 304 to a mutation *)
Lemma not_modified_step c n ev :
  List.filter (λ x, match t_kind x with Report => false | NotModified => true end) (toasts (error_step c (n, ev))) =
  List.filter (λ x, match t_kind x with Report => false | NotModified => true end) (toasts c) ++
    (if unmodified ev then [{| t_at := n; t_error := error_of ev; t_kind := NotModified; t_message := t (js "Content not modified!") |}] else []).
Proof.
  assert (∀ now e c, List.filter (λ x, match t_kind x with Report => false | NotModified => true end) (toasts (handleServerError t now e c)) =
    List.filter (λ x, match t_kind x with Report => false | NotModified => true end) (toasts c)) as Hr.
  { intros now e c'. unfold handleServerError. destruct (bool_decide _); [done|]. cbn [toasts markServerErrorHandled]. rewrite bfilter_app. apply app_nil_r. }
  unfold ApiClient.error_step. cbn [fst snd]. destruct ev as [e|href e|e|e]; cbn [unmodified error_of]; rewrite ?app_nil_r.
  - unfold intercept, shouldShowErrorToast. destruct (bool_decide _); [destruct (e_skip e); [done|by rewrite Hr]|]. destruct (e_skip e); [done|].
    destruct (_ <? _)%Z; [done|by rewrite Hr].
  - unfold query_failed. destruct (_ || _); [done|]. destruct (bool_decide _); [cbn; by rewrite Hr|]. destruct (bool_decide _); [cbn; by rewrite Hr|done].
  - unfold mutation_failed. destruct (_ && _); [|by rewrite app_nil_r, Hr]. cbn [toasts]. by rewrite bfilter_app, Hr.
  - apply Hr.
Qed.

(** An error of a request passes the interceptor before anything else sees it. *)
Definition intercepted_first (evs : list (Z * ErrorEvent)) : Prop :=
  ∀ evs1 n ev evs2, evs = evs1 ++ (n, ev) :: evs2 → (∃ n', (n', Intercepted (error_of ev)) ∈ evs) →
    match ev with Intercepted _ => True | _ => ∃ n', (n', Intercepted (error_of ev)) ∈ evs1 end.

(** Errors of requests, other than answers 401 and those the caller handles itself *)
Definition limited (evs : list (Z * ErrorEvent)) (e : ApiError) : Prop :=
  e_skip e = false ∧ e_status e ≠ Some 401%Z ∧ ∃ n, (n, Intercepted e) ∈ evs.

Lemma tidy_run P s evs : (∀ e, P e → e_skip e = false ∧ e_status e ≠ Some 401%Z) →
  (∀ evs1 n ev evs2, evs = evs1 ++ (n, ev) :: evs2 → P (error_of ev) →
    match ev with Intercepted _ => True | _ => ∃ n', (n', Intercepted (error_of ev)) ∈ evs1 end) →
  tidy P (flat_map (seen_by ∘ snd) evs) (error_run s evs).
Proof.
  intros HP. induction evs as [|[n ev] evs IH] using rev_ind; intros Hf.
  { split; cbn; try (intros ? ? ? ? _ Hx; discriminate Hx); try (intros ? Hx; by apply elem_of_nil in Hx). constructor. }
  unfold ApiClient.error_run. rewrite fold_left_app, flat_map_app. cbn [fold_left flat_map compose snd]. rewrite app_nil_r. apply tidy_step; [done|..].
  - apply IH. intros evs1 n' ev' evs2 ->. apply (Hf evs1 n' ev' (evs2 ++ [(n, ev)])). by rewrite <- app_assoc.
  - specialize (Hf evs n ev [] eq_refl). destruct ev; [done|..]; intros Hp; destruct (Hf Hp) as [n' Hn']; cbn [error_of] in *;
      apply list_elem_of_In, in_flat_map; exists (n', Intercepted e); (split; [by apply list_elem_of_In|by left]).
Qed.

End errors.

Definition demo_error (n : nat) : ApiError := {|
  e_id := n; e_status := Some 500%Z; e_data := None; e_axios := true; e_text := js "failed"; e_skip := false; e_method := Some (js "GET"); e_url := Some (js "/api/log") |}.

Definition demo_unmodified : ApiError := {|
  e_id := 3; e_status := Some 304%Z; e_data := None; e_axios := true; e_text := js "failed"; e_skip := false; e_method := Some (js "PUT"); e_url := Some (js "/api/user/self") |}.

Definition demo_errors : list (Z * ErrorEvent) :=
  [(100000, Intercepted (demo_error 0)); (100001, MutationFailed (demo_error 0)); (130000, Intercepted (demo_error 1)); (160000, Intercepted (demo_error 2));
   (170000, Intercepted demo_unmodified); (170001, MutationFailed demo_unmodified)]%Z.


(** ** Shared requests *)

Definition waiting (g : Gets) : list nat := concat (map snd (inFlightGet g)).

Lemma join_flight_keys k c l : map fst (join_flight k c l) = map fst l.
Proof. unfold join_flight. rewrite map_map. apply map_ext. intros kc. by destruct (bool_decide _). Qed.

Lemma join_flight_other k c l : k ∉ map fst l → join_flight k c l = l.
Proof.
  unfold join_flight. induction l as [|[q cs] l IH]; [done|]. cbn [map fst]. rewrite not_elem_of_cons. intros [Hq Hl].
  rewrite bool_decide_false by congruence. by rewrite IH.
Qed.

Lemma join_flight_waiting k c l : NoDup (map fst l) → k ∈ map fst l → concat (map snd (join_flight k c l)) ≡ₚ c :: concat (map snd l).
Proof.
  induction l as [|[q cs] l IH]; intros Hnd Hk; [by apply elem_of_nil in Hk|]. cbn [map fst] in Hnd, Hk. apply NoDup_cons in Hnd as [Hq Hnd].
  unfold join_flight. cbn [map fst snd]. fold (join_flight k c l). destruct (decide (q = k)) as [->|Hne].
  - rewrite bool_decide_true by done. rewrite (join_flight_other k c l) by done. cbn [map snd concat]. rewrite <- app_assoc. cbn [app]. symmetry. apply Permutation_middle.
  - rewrite bool_decide_false by done. cbn [map snd concat]. apply elem_of_cons in Hk as [->|Hk]; [done|]. rewrite (IH Hnd Hk). symmetry. apply Permutation_middle.
Qed.

Lemma settled_waiting k l :
  concat (map snd (List.filter (λ kc : str * list nat, negb (bool_decide (fst kc = k))) l)) ++ flat_map (λ kc, if bool_decide (fst kc = k) then snd kc else []) l
  ≡ₚ concat (map snd l).
Proof.
  induction l as [|[q cs] l IH]; [done|]. cbn [List.filter flat_map fst snd map concat]. destruct (bool_decide (q = k)); cbn [negb].
  - rewrite (Permutation_app_comm cs). rewrite app_assoc, IH. by rewrite (Permutation_app_comm cs).
  - cbn [map snd concat app]. by rewrite <- app_assoc, IH.
Qed.

Definition asked (es : list GetEvent) : list nat := flat_map (λ e, match e with Get c _ _ => [c] | Settled _ _ => [] end) es.

(** One request per address is under way, and every caller waits for one answer or got one. *)
Lemma callers_get_answers es : NoDup (map fst (inFlightGet (get_run es))) ∧ asked es ≡ₚ waiting (get_run es) ++ map fst (got (get_run es)).
Proof.
  induction es as [|e es [IH1 IH2]] using rev_ind; [by split; [constructor|]|]. unfold get_run in *. rewrite fold_left_app. cbn [fold_left].
  unfold asked in *. rewrite flat_map_app. set (g := fold_left get_step es _) in *. unfold waiting in *. destruct e as [c url params|k a]; cbn [get_step flat_map app].
  - unfold get. set (k := get_key url params). destruct (existsb _ _) eqn:E; cbn [inFlightGet got].
    + apply existsb_exists in E as (kc & Hkc & Hk%bool_decide_eq_true). rewrite join_flight_keys. split; [done|].
      rewrite join_flight_waiting; [|done|apply elem_of_lmap; exists kc; split; [done|by apply list_elem_of_In]].
      rewrite IH2. by rewrite <- Permutation_cons_append.
    + assert (k ∉ map fst (inFlightGet g)) as Hk.
      { intros (kc & -> & Hkc)%elem_of_lmap. apply not_true_iff_false in E. apply E, existsb_exists. exists kc. split; [by apply list_elem_of_In|by apply bool_decide_eq_true]. }
      split.
      * rewrite map_app. apply NoDup_app. split; [done|]. split; [|apply NoDup_singleton]. intros x Hx ->%list_elem_of_singleton. done.
      * rewrite map_app, concat_app. cbn [map snd concat app]. rewrite IH2, <- !app_assoc. cbn [app]. apply Permutation_app_head. symmetry. apply Permutation_cons_append.
  - unfold settled. cbn [inFlightGet got]. rewrite app_nil_r. split.
    + apply (sublist_NoDup _ (map fst (inFlightGet g))); [done|]. apply (fmap_sublist fst). clear. induction (inFlightGet g) as [|kc l IH]; [constructor|].
      cbn [List.filter]. destruct (negb _); by constructor.
    + rewrite IH2, map_app, map_map. cbn [fst]. rewrite map_id, <- (settled_waiting k (inFlightGet g)). rewrite <- !app_assoc.
      apply Permutation_app_head, Permutation_app_comm.
Qed.
