(* ===== verification/WalletInfo.v ===== *)
(** * What the wallet offers

    [features/wallet/hooks/use-topup-info.ts] reads the server's top-up configuration, parts of which are JSON texts;
    [components/recharge-form-card.tsx] derives the payment methods on offer from it; [lib/format.ts] and
    [components/dialogs/payment-confirm-dialog.tsx] compute the figures that are shown.  The number formatter of the browser is not modelled. *)

From S2P Require Import Prelude JsString JsNumber JsMap Json Payment.

(** ** Reading the configuration *)

Definition parseJsonArray (data : option json) : list json :=
  match data with
  | Some (JArr l) => l
  | Some (JStr s) => match json_parse s with Some (JArr l) => l | _ => [] end
  | _ => []
  end.

(** [!!item && typeof item === 'object'] *)
Definition is_record (v : json) : bool := match v with JObj _ | JArr _ => true | _ => false end.

(** [typeof item.k === 'string' ? item.k : undefined] *)
Definition text_field (k : str) (item : json) : option str :=
  match opt_prop k (Some item) with Some (JStr s) => Some s | _ => None end.

Section parse.
Context (toLowerCase : str → str).

Definition recommended_flag (v : option json) : bool :=
  match v with
  | Some (JBool b) => b
  | Some (JStr s) => bool_decide (toLowerCase s = js "true")
  | _ => false
  end.

Definition parse_method (stripeMinTopup : num) (item : json) : PaymentMethod :=
  let rawMinTopup := opt_number (opt_prop (js "min_topup") (Some item)) in
  let normalizedMinTopup := if is_finite rawMinTopup then rawMinTopup else pzero in
  let ty := default [] (text_field (js "type") item) in
  {| name := default [] (text_field (js "name") item);
     type := ty;
     color := text_field (js "color") item;
     pm_min_topup := Some (if bool_decide (ty = js "stripe") && nle normalizedMinTopup pzero then stripeMinTopup else normalizedMinTopup);
     icon := text_field (js "icon") item;
     provider := text_field (js "provider") item;
     recommended := Some (recommended_flag (opt_prop (js "recommended") (Some item))) |}.

Definition method_shown (m : PaymentMethod) : bool :=
  truthy (name m) && truthy (type m) && negb (bool_decide (type m = js "waffo")) && negb (bool_decide (type m = js "custom1")).

Definition parsePaymentMethods (data : option json) (stripeMinTopup : num) : list PaymentMethod :=
  List.filter method_shown (map (parse_method stripeMinTopup) (List.filter is_record (parseJsonArray data))).

Record WaffoPayMethod := { wpm_name : str; wpm_icon : option str; payMethodType : option str; payMethodName : option str }.

Definition parseWaffoPayMethods (data : option json) : list WaffoPayMethod :=
  List.filter (λ m, truthy (wpm_name m))
    (map (λ item, {| wpm_name := default [] (text_field (js "name") item); wpm_icon := text_field (js "icon") item;
                     payMethodType := text_field (js "payMethodType") item; payMethodName := text_field (js "payMethodName") item |})
         (List.filter is_record (parseJsonArray data))).

Inductive CreemCurrency := EUR | USD.

Record CreemProduct := { cp_name : str; productId : str; cp_price : num; cp_quota : num; cp_currency : CreemCurrency }.

Definition parseCreemProducts (data : option json) : list CreemProduct :=
  List.filter (λ p, truthy (cp_name p) && truthy (productId p))
    (map (λ item, {| cp_name := default [] (text_field (js "name") item); productId := default [] (text_field (js "productId") item);
                     cp_price := or_zero (opt_number (opt_prop (js "price") (Some item)));
                     cp_quota := or_zero (opt_number (opt_prop (js "quota") (Some item)));
                     cp_currency := if bool_decide (text_field (js "currency") item = Some (js "EUR")) then EUR else USD |})
         (List.filter is_record (parseJsonArray data))).

(** [[...new Set(amounts)]]; no amount is [NaN] or [-0]. *)
Definition parseAmountOptions (data : option json) : list num :=
  array_of_set (List.filter (λ x, nlt pzero x) (map (λ item, normalizeTopupAmount (to_number item)) (parseJsonArray data))).

(** The table read only by key, so the order of its members does not matter. *)
Definition add_discount (result : list (str * num)) (kv : str * json) : list (str * num) :=
  let numericKey := number_of_string (fst kv) in
  let numericValue := to_number (snd kv) in
  if is_finite numericKey && is_finite numericValue then mset result (string_of_num numericKey) numericValue else result.

Definition parseDiscountMap (data : option json) : list (str * num) :=
  if negb (json_truthy data) then []
  else
    let parsedData := match data with Some (JStr s) => json_parse s | _ => data end in
    match parsedData with
    | Some (JObj o) => fold_left add_discount o []
    | _ => []
    end.

(** ** The configuration *)

(** The answer of the server: the fields that are used as they are, and those that are parsed. *)
Record RawTopupInfo := {
  raw_info : TopupInfo; raw_pay_methods : option json; raw_amount_options : option json; raw_discount : option json;
  raw_creem_products : option json; raw_waffo_pay_methods : option json; raw_enable_creem_topup : bool; raw_enable_redemption : option bool }.

Record WalletInfo := {
  wi_info : TopupInfo; amount_options : list num; wi_discount : list (str * num); creem_products : list CreemProduct;
  waffo_pay_methods : list WaffoPayMethod; enable_creem_topup : bool; enable_redemption : option bool }.

Definition with_pay_methods (ms : list PaymentMethod) (i : TopupInfo) : TopupInfo := {|
  enable_online_topup := enable_online_topup i; enable_stripe_topup := enable_stripe_topup i; pay_methods := ms;
  min_topup := min_topup i; stripe_min_topup := stripe_min_topup i;
  enable_waffo_topup := enable_waffo_topup i; waffo_min_topup := waffo_min_topup i;
  enable_waffo_pancake_topup := enable_waffo_pancake_topup i; waffo_pancake_min_topup := waffo_pancake_min_topup i;
  enable_xpay_topup := enable_xpay_topup i; xpay_min_topup := xpay_min_topup i;
  enable_mpay_topup := enable_mpay_topup i; mpay_min_topup := mpay_min_topup i;
  enable_alipay_direct_topup := enable_alipay_direct_topup i; alipay_direct_min_topup := alipay_direct_min_topup i |}.

Definition processedData (r : RawTopupInfo) : WalletInfo := {|
  wi_info := with_pay_methods (parsePaymentMethods (raw_pay_methods r) (stripe_min_topup (raw_info r))) (raw_info r);
  amount_options := parseAmountOptions (raw_amount_options r);
  wi_discount := parseDiscountMap (raw_discount r);
  creem_products := parseCreemProducts (raw_creem_products r);
  waffo_pay_methods := parseWaffoPayMethods (raw_waffo_pay_methods r);
  enable_creem_topup := raw_enable_creem_topup r; enable_redemption := raw_enable_redemption r |}.

Definition preset_amounts (i : WalletInfo) : list PresetAmount :=
  match amount_options i with
  | [] => generatePresetAmounts (getMinTopupAmount (Some (wi_info i)))
  | l => mergePresetAmounts l (wi_discount i)
  end.
End parse.

(** ** The methods on offer ([recharge-form-card.tsx]) *)

Section card.
Context (t : str → str).

Definition hasConfigurableTopup (i : TopupInfo) : bool :=
  enable_online_topup i || enable_stripe_topup i || on (enable_alipay_direct_topup i) || on (enable_mpay_topup i)
  || on (enable_xpay_topup i) || on (enable_waffo_topup i) || on (enable_waffo_pancake_topup i).

Definition configuredPaymentMethods (i : TopupInfo) : list PaymentMethod :=
  List.filter (λ m, negb (bool_decide (type m = XPAY))) (pay_methods i).

Definition hasProviderType (p ty : str) (ms : list PaymentMethod) : bool :=
  existsb (λ m, bool_decide (provider m = Some p) && bool_decide (type m = ty)) ms.

(** [x || 0] of an optional number. *)
Definition or_none (x : option num) : num := match x with Some v => or_zero v | None => pzero end.

Definition fallback_method (ty p nm : str) (min : option num) (rec : option bool) : PaymentMethod := {|
  name := nm; type := ty; color := None; pm_min_topup := Some (or_none min); icon := None; provider := Some p; recommended := rec |}.

Definition fallbackPaymentMethods (i : TopupInfo) : list PaymentMethod :=
  let configured := configuredPaymentMethods i in
  (if on (enable_alipay_direct_topup i) && negb (has_provider P_ALIPAY_DIRECT configured)
   then [fallback_method ALIPAY P_ALIPAY_DIRECT (t (js "Alipay")) (alipay_direct_min_topup i) None] else [])
  ++ (if on (enable_mpay_topup i) then
        (if negb (on (enable_alipay_direct_topup i)) && negb (hasProviderType P_MPAY ALIPAY configured)
         then [fallback_method ALIPAY P_MPAY (t (js "Alipay")) (mpay_min_topup i) None] else [])
        ++ (if negb (hasProviderType P_MPAY WECHAT configured)
            then [fallback_method WECHAT P_MPAY (t (js "WeChat Pay")) (mpay_min_topup i) (Some true)] else [])
      else [])
  ++ (if on (enable_xpay_topup i) && negb (has_provider P_XPAY configured)
      then [fallback_method ALIPAY P_XPAY (t (js "Alipay (XPay backup)")) (xpay_min_topup i) None] else []).

Definition standardPaymentMethods (i : TopupInfo) : list PaymentMethod :=
  sortPaymentMethods (configuredPaymentMethods i ++ fallbackPaymentMethods i).

(** The button of a method. *)
Definition method_disabled (m : PaymentMethod) (topupAmount : num) : bool := nlt topupAmount (or_none (pm_min_topup m)).
End card.

(** ** Figures *)

Definition DEFAULT_DISCOUNT_RATE : num := num_of_Z 1.
Definition QUOTA_PER_DOLLAR : num := num_of_Z 500000.

Definition formatCreemPrice (price : num) (currency : CreemCurrency) : str :=
  (match currency with EUR => [8364%N] | USD => js "$" end) ++ to_fixed 2 price.

Definition formatQuotaShort (quota : num) : str :=
  if nle (num_of_Z 1000000) quota then to_fixed 1 (ndiv quota (num_of_Z 1000000)) ++ js "M"
  else if nle (num_of_Z 1000) quota then to_fixed 1 (ndiv quota (num_of_Z 1000)) ++ js "K"
  else string_of_num quota.

Definition getDiscountLabel (discount : num) : str :=
  if nle DEFAULT_DISCOUNT_RATE discount then []
  else string_of_num (math_round (nmul (nsub (num_of_Z 1) discount) (num_of_Z 100))) ++ js "% OFF".

Record PresetPricing := { displayValue : num; originalPrice : num; actualPrice : num; savedAmount : num; hasDiscount : bool }.

Definition calculatePresetPricing (presetValue priceRatio discount usdExchangeRate : num) (isLocalCurrency : bool) (displayCurrency : str) : PresetPricing :=
  let display := if isLocalCurrency then presetValue else nmul presetValue usdExchangeRate in
  let original := if isLocalCurrency
                  then (if bool_decide (displayCurrency = js "USD") then nmul presetValue usdExchangeRate else presetValue)
                  else nmul display priceRatio in
  let actual := nmul original discount in
  {| displayValue := display; originalPrice := original; actualPrice := actual; savedAmount := nsub original actual;
     hasDiscount := nlt discount (num_of_Z 1) |}.

Definition getDiscountRate (i : option WalletInfo) (topupAmount : num) : num :=
  match (info ← i; discount_of (wi_discount info) topupAmount) with
  | Some d => if num_truthy d then d else DEFAULT_DISCOUNT_RATE
  | None => DEFAULT_DISCOUNT_RATE
  end.

(** The undiscounted price and the saving in the dialog, if a discount is shown. *)
Definition dialog_discount (discountRate paymentAmount : num) : option (num * num) :=
  if nlt pzero discountRate && nlt discountRate (num_of_Z 1) && nlt pzero paymentAmount
  then let original := ndiv paymentAmount discountRate in Some (original, nsub original paymentAmount)
  else None.

(** * Properties *)

(** The amounts on offer are exactly the positive ones of the configuration, as amounts of whole cents, each once. *)
Theorem amount_options_exact data :
  NoDup (parseAmountOptions data) ∧
  ∀ x, x ∈ parseAmountOptions data ↔ nlt pzero x = true ∧ ∃ v, v ∈ parseJsonArray data ∧ x = normalizeTopupAmount (to_number v).
Proof.
  split; [apply array_of_set_NoDup|]. intros x. unfold parseAmountOptions. rewrite elem_of_array_of_set, elem_of_bfilter, elem_of_lmap. naive_solver.
Qed.

Definition same_number (a b : num) : bool := bool_decide (string_of_num a = string_of_num b).

(** The discount of an amount is the last finite value among the members whose key is the same number. *)
Definition discount_step (amount : num) (o : option num) (kv : str * json) : option num :=
  if is_finite (number_of_string (fst kv)) && is_finite (to_number (snd kv)) && same_number (number_of_string (fst kv)) amount
  then Some (to_number (snd kv)) else o.

Lemma discount_of_mset (m : list (str * num)) k v amount :
  discount_of (mset m k v) amount = if bool_decide (k = string_of_num amount) then Some v else discount_of m amount.
Proof.
  unfold discount_of. induction m as [|[k' v'] m IH]; cbn [mset].
  - cbn. by case_bool_decide.
  - destruct (decide (k' = k)) as [->|E]; [cbn [find fst]; by case_bool_decide|].
    cbn [find fst]. destruct (bool_decide (k' = string_of_num amount)) eqn:E1; [|exact IH]. apply bool_decide_eq_true in E1.
    by rewrite bool_decide_false by congruence.
Qed.

Theorem discounts_exact o amount : discount_of (parseDiscountMap (Some (JObj o))) amount = fold_left (discount_step amount) o None.
Proof.
  cbn [parseDiscountMap json_truthy negb].
  assert (∀ l, discount_of (fold_left add_discount o l) amount = fold_left (discount_step amount) o (discount_of l amount)) as H; [|apply (H [])].
  induction o as [|kv o IH]; intros l; [done|]. cbn [fold_left]. rewrite IH. f_equal. unfold add_discount, discount_step, same_number. cbv zeta.
  destruct (is_finite _ && is_finite _); [|done]. rewrite discount_of_mset. cbn [andb]. by case_bool_decide.
Qed.

Lemma elem_of_standard t i m : m ∈ standardPaymentMethods t i ↔ m ∈ configuredPaymentMethods i ∨ m ∈ fallbackPaymentMethods t i.
Proof. unfold standardPaymentMethods. by rewrite elem_of_sorted_methods, elem_of_app. Qed.

(** A method on the card was sent by the server or stands for a gateway that is enabled; every enabled gateway of this kind has a button. *)
Theorem enabled_gateways_offered t i :
  let offered p ty := ∃ m, m ∈ standardPaymentMethods t i ∧ provider m = Some p ∧ (ty = [] ∨ type m = ty) in
  (on (enable_alipay_direct_topup i) = true → offered P_ALIPAY_DIRECT []) ∧
  (on (enable_mpay_topup i) = true → offered P_MPAY WECHAT) ∧
  (on (enable_mpay_topup i) = true → on (enable_alipay_direct_topup i) = false → offered P_MPAY ALIPAY) ∧
  (on (enable_xpay_topup i) = true → offered P_XPAY []) ∧
  (∀ m, m ∈ standardPaymentMethods t i → type m ≠ XPAY ∧ (m ∈ pay_methods i ∨ m ∈ fallbackPaymentMethods t i)).
Proof.
  cbv zeta. setoid_rewrite elem_of_standard.
  assert (∀ p, has_provider p (configuredPaymentMethods i) = true → ∃ m, m ∈ configuredPaymentMethods i ∧ provider m = Some p) as H1.
  { intros p (m & Hm & E%bool_decide_eq_true)%existsb_exists. exists m. split; [by apply list_elem_of_In|done]. }
  assert (∀ p ty, hasProviderType p ty (configuredPaymentMethods i) = true → ∃ m, m ∈ configuredPaymentMethods i ∧ provider m = Some p ∧ type m = ty) as H2.
  { intros p ty (m & Hm & [E1 E2]%andb_true_iff)%existsb_exists. breflect. exists m. split; [by apply list_elem_of_In|done]. }
  split_and!.
  - intros E. destruct (has_provider P_ALIPAY_DIRECT (configuredPaymentMethods i)) eqn:Eh; [destruct (H1 _ Eh) as (m & ? & ?); exists m; auto|].
    exists (fallback_method ALIPAY P_ALIPAY_DIRECT (t (js "Alipay")) (alipay_direct_min_topup i) None). split_and!; [right|reflexivity|left; reflexivity].
    unfold fallbackPaymentMethods. rewrite E, Eh. apply list_elem_of_here.
  - intros E. destruct (hasProviderType P_MPAY WECHAT (configuredPaymentMethods i)) eqn:Eh; [destruct (H2 _ _ Eh) as (m & ? & ? & ?); exists m; auto|].
    exists (fallback_method WECHAT P_MPAY (t (js "WeChat Pay")) (mpay_min_topup i) (Some true)). split_and!; [right|reflexivity|right; reflexivity].
    unfold fallbackPaymentMethods. rewrite E, Eh. cbv zeta. rewrite !elem_of_app. right; left; right. apply list_elem_of_here.
  - intros E E'. destruct (hasProviderType P_MPAY ALIPAY (configuredPaymentMethods i)) eqn:Eh; [destruct (H2 _ _ Eh) as (m & ? & ? & ?); exists m; auto|].
    exists (fallback_method ALIPAY P_MPAY (t (js "Alipay")) (mpay_min_topup i) None). split_and!; [right|reflexivity|right; reflexivity].
    unfold fallbackPaymentMethods. rewrite E, E', Eh. cbv zeta. cbn [negb andb app]. apply list_elem_of_here.
  - intros E. destruct (has_provider P_XPAY (configuredPaymentMethods i)) eqn:Eh; [destruct (H1 _ Eh) as (m & ? & ?); exists m; auto|].
    exists (fallback_method ALIPAY P_XPAY (t (js "Alipay (XPay backup)")) (xpay_min_topup i) None). split_and!; [right|reflexivity|left; reflexivity].
    unfold fallbackPaymentMethods. rewrite E, Eh. cbv zeta. rewrite !elem_of_app. right; right. apply list_elem_of_here.
  - intros m [[Hm E%negb_true_iff%bool_decide_eq_false]%elem_of_bfilter|Hm]; [by split; [|left]|]. split; [|right; exact Hm].
    assert (type m = ALIPAY ∨ type m = WECHAT) as [->| ->]; [|vm_compute; discriminate..].
    unfold fallbackPaymentMethods in Hm. cbv zeta in Hm. rewrite !elem_of_app in Hm.
    repeat match type of Hm with
    | _ ∨ _ => destruct Hm as [Hm|Hm]
    | context [if ?b then _ else _] => destruct b
    | _ ∈ _ ++ _ => apply elem_of_app in Hm
    | _ ∈ [_] => apply list_elem_of_singleton in Hm; subst m
    | _ ∈ [] => by apply elem_of_nil in Hm
    end; (left; reflexivity) || (right; reflexivity).
Qed.
