(* ===== verification/TopupPage.v ===== *)
(** * Paying for a top-up

    The handlers of [features/wallet/index.tsx] that concern amounts and payments, the hooks [use-payment.ts],
    [use-waffo-payment.ts] and [use-waffo-pancake-payment.ts] and the amount field of [recharge-form-card.tsx], as one state machine.  Requests are
    tasks whose answers come in any order; what was asked, ordered, opened and said is logged.

    The dialog that confirms a payment is modal, so the card behind it takes no input while it is open; Escape closes it at any time.  An
    event sees the state of the last rendering, and the effect on a changed amount runs before the next event. *)

From S2P Require Import Prelude JsString JsNumber JsInteger Regex Json Payment WalletInfo.

(** ** Requests and answers *)

Record Response := { success : option bool; message : option str; data : option json; url : option str }.
Inductive Answer := Replied (r : Response) | Failed.

Definition isApiSuccess (r : Response) : bool :=
  bool_decide (success r = Some true) || bool_decide (message r = Some (js "success")).

(** A request for the price of an amount. *)
Inductive Quote :=
  | StripeQuote (amount : num)
  | PancakeQuote (amount : num)
  | WaffoQuote (amount : num)
  | GatewayQuote (amount : num) (payment_provider : option str).

(** A request for an order. *)
Inductive Order :=
  | AlipayDirectOrder (amount : num)
  | MPayOrder (amount : num) (payment_method : str)
  | XPayOrder (amount : num)
  | StripeOrder (amount : num)
  | GatewayOrder (amount : num) (payment_method : str)
  | PancakeOrder (amount : num)
  | WaffoOrder (amount : num) (pay_method_index : nat).

Inductive Target := NewTab | SameTab | PostedForm.

(** What happened: requests carry their number, prices the number of their request. *)
Inductive Entry :=
  | Asked (id : nat) (q : Quote)
  | Unasked (id : nat)
  | Quoted (id : nat) (price : num)
  | Ordered (o : Order)
  | Opened (w : Target) (address : json)
  | Told (text : str)
  | Complained (text : str)
  | UserRefreshed.

Definition FAILED_TEXT : str := js "Payment request failed".
Definition REDIRECT_TEXT : str := js "Redirecting to payment page...".

(** ** The price of an amount ([calculatePaymentAmount]) *)

Definition quote_request (amount : num) (paymentType : str) (paymentProvider : option str) : Quote :=
  if isStripePayment paymentType then StripeQuote amount
  else if isWaffoPancakePayment paymentType then PancakeQuote amount
  else if bool_decide (paymentProvider = Some P_WAFFO) || bool_decide (paymentType = WAFFO) then WaffoQuote amount
  else GatewayQuote amount paymentProvider.

(** The price in an answer, zero if there is none. *)
Definition quoted_price (a : Answer) : num :=
  match a with
  | Failed => pzero
  | Replied r =>
      if isApiSuccess r && json_truthy (data r)
      then let p := parse_float (match data r with Some v => json_to_string v | None => [] end) in
           if is_finite p && nlt pzero p then p else pzero
      else pzero
  end.

(** ** Orders ([processPayment]) *)

Definition order_request (amount : num) (paymentType : str) (paymentProvider : option str) : Order :=
  if bool_decide (paymentProvider = Some P_ALIPAY_DIRECT) then AlipayDirectOrder amount
  else if bool_decide (paymentProvider = Some P_MPAY) then MPayOrder amount paymentType
  else if isXPayRoutedPayment paymentType paymentProvider then XPayOrder amount
  else if isStripePayment paymentType then StripeOrder amount
  else GatewayOrder amount paymentType.

(** [response.message || fallback] *)
Definition or_text (m : option str) (d : str) : str := match m with Some s => if truthy s then s else d | None => d end.

(** [getErrorMessage] *)
Definition getErrorMessage (m : option str) (d : option json) : str :=
  match d with
  | Some (JStr s) => if truthy (trim s) then s else or_text m FAILED_TEXT
  | _ => or_text m FAILED_TEXT
  end.

(** [getPaymentUrl], [getCheckoutUrl]: a field that is a string, if it is not empty. *)
Definition url_field (k : str) (d : option json) : option str := given (match opt_prop k d with Some (JStr s) => Some s | _ => None end).

Section page.
Context (toLowerCase : str → str) (t : str → str) (url_protocol : str → option str).

(** [new URL(trimmed)] gives the protocol or throws. *)
Definition isSafeHttpCheckoutUrl (value : str) : bool :=
  let trimmed := trim value in
  truthy trimmed &&
  match url_protocol trimmed with
  | Some p => bool_decide (p = js "http:") || bool_decide (p = js "https:")
  | None => false
  end.

(** What an answer leads to, and whether the payment is under way. *)
Definition order_answered (o : Order) (a : Answer) : list Entry * bool :=
  match a with
  | Failed => ([Complained FAILED_TEXT], false)
  | Replied r =>
      match o with
      | PancakeOrder _ =>
          match (if isApiSuccess r then url_field (js "checkout_url") (data r) else None) with
          | Some u => if isSafeHttpCheckoutUrl u then ([Told REDIRECT_TEXT; Opened SameTab (JStr u)], true)
                      else ([Complained (js "Invalid payment redirect URL")], false)
          | None => ([Complained (getErrorMessage (message r) (data r))], false)
          end
      | WaffoOrder _ _ =>
          match (if isApiSuccess r then url_field (js "payment_url") (data r) else None) with
          | Some u => ([Opened NewTab (JStr u); Told REDIRECT_TEXT], true)
          | None => ([Complained (getErrorMessage (message r) (data r))], false)
          end
      | _ =>
          if negb (isApiSuccess r) then ([Complained (or_text (message r) FAILED_TEXT)], false)
          else
            match o with
            | AlipayDirectOrder _ | MPayOrder _ _ | XPayOrder _ =>
                match opt_prop (js "pay_url") (data r) with
                | Some u => if json_truthy (Some u)
                            then ([Told REDIRECT_TEXT; Opened (match o with AlipayDirectOrder _ => SameTab | _ => NewTab end) u], true)
                            else ([Complained FAILED_TEXT], false)
                | None => ([Complained FAILED_TEXT], false)
                end
            | StripeOrder _ =>
                match opt_prop (js "pay_link") (data r) with
                | Some u => if json_truthy (Some u) then ([Opened NewTab u; Told REDIRECT_TEXT], true) else ([], false)
                | None => ([], false)
                end
            | _ =>
                match given (url r) with
                | Some u => if json_truthy (data r) then ([Opened PostedForm (JStr u); Told REDIRECT_TEXT], true) else ([], false)
                | None => ([], false)
                end
            end
      end
  end.

(** ** The state of the page *)

(** A pending price, with or without a dialog to open; a pending order of the dialog or of a Waffo button. *)
Inductive Task := Pricing (id : nat) (select : bool) | Paying (o : Order) | PayingWaffo (o : Order).

Inductive Tab := AddFunds | Subscription.
#[local] Instance Tab_eq : EqDecision Tab.
Proof. solve_decision. Defined.

Record Card := {
  activeTab : Tab; topupInfo : option WalletInfo; topupLoading : bool; topupAmount : num; localAmount : str; selectedPreset : option num;
  selectedPaymentMethod : option PaymentMethod; paymentLoading : option str; confirmDialogOpen : bool }.

Record Hooks := { amount : num; calculating : bool; calculationRequest : nat; processing : bool; pancakeProcessing : bool }.

Record Page := { card : Card; hooks : Hooks; tasks : list Task; log : list Entry }.

Definition set_card (f : Card → Card) (s : Page) : Page := {| card := f (card s); hooks := hooks s; tasks := tasks s; log := log s |}.
Definition set_hooks (f : Hooks → Hooks) (s : Page) : Page := {| card := card s; hooks := f (hooks s); tasks := tasks s; log := log s |}.
Definition spawn (k : Task) (s : Page) : Page := {| card := card s; hooks := hooks s; tasks := tasks s ++ [k]; log := log s |}.
Definition without_task (n : nat) (s : Page) : Page := {| card := card s; hooks := hooks s; tasks := delete n (tasks s); log := log s |}.
Definition note (l : list Entry) (s : Page) : Page := {| card := card s; hooks := hooks s; tasks := tasks s; log := log s ++ l |}.

Definition set_tab (b : Tab) (c : Card) : Card := {|
  activeTab := b; topupInfo := topupInfo c; topupLoading := topupLoading c; topupAmount := topupAmount c;
  localAmount := if bool_decide (activeTab c = b) then localAmount c else string_of_num (topupAmount c);
  selectedPreset := selectedPreset c; selectedPaymentMethod := selectedPaymentMethod c; paymentLoading := paymentLoading c;
  confirmDialogOpen := confirmDialogOpen c |}.
Definition set_info (i : option WalletInfo) (c : Card) : Card := {|
  activeTab := activeTab c; topupInfo := i; topupLoading := false; topupAmount := topupAmount c; localAmount := localAmount c;
  selectedPreset := selectedPreset c; selectedPaymentMethod := selectedPaymentMethod c; paymentLoading := paymentLoading c;
  confirmDialogOpen := confirmDialogOpen c |}.
(** [setTopupAmount]; the field follows an amount that changes. *)
Definition set_topup (a : num) (c : Card) : Card := {|
  activeTab := activeTab c; topupInfo := topupInfo c; topupLoading := topupLoading c; topupAmount := a;
  localAmount := if bool_decide (topupAmount c = a) then localAmount c else string_of_num a;
  selectedPreset := selectedPreset c; selectedPaymentMethod := selectedPaymentMethod c; paymentLoading := paymentLoading c;
  confirmDialogOpen := confirmDialogOpen c |}.
Definition set_local (v : str) (c : Card) : Card := {|
  activeTab := activeTab c; topupInfo := topupInfo c; topupLoading := topupLoading c; topupAmount := topupAmount c; localAmount := v;
  selectedPreset := selectedPreset c; selectedPaymentMethod := selectedPaymentMethod c; paymentLoading := paymentLoading c;
  confirmDialogOpen := confirmDialogOpen c |}.
Definition set_preset (p : option num) (c : Card) : Card := {|
  activeTab := activeTab c; topupInfo := topupInfo c; topupLoading := topupLoading c; topupAmount := topupAmount c; localAmount := localAmount c;
  selectedPreset := p; selectedPaymentMethod := selectedPaymentMethod c; paymentLoading := paymentLoading c;
  confirmDialogOpen := confirmDialogOpen c |}.
Definition set_method (m : PaymentMethod) (c : Card) : Card := {|
  activeTab := activeTab c; topupInfo := topupInfo c; topupLoading := topupLoading c; topupAmount := topupAmount c; localAmount := localAmount c;
  selectedPreset := selectedPreset c; selectedPaymentMethod := Some m; paymentLoading := paymentLoading c;
  confirmDialogOpen := confirmDialogOpen c |}.
Definition set_loading (k : option str) (c : Card) : Card := {|
  activeTab := activeTab c; topupInfo := topupInfo c; topupLoading := topupLoading c; topupAmount := topupAmount c; localAmount := localAmount c;
  selectedPreset := selectedPreset c; selectedPaymentMethod := selectedPaymentMethod c; paymentLoading := k;
  confirmDialogOpen := confirmDialogOpen c |}.
Definition set_dialog (b : bool) (c : Card) : Card := {|
  activeTab := activeTab c; topupInfo := topupInfo c; topupLoading := topupLoading c; topupAmount := topupAmount c; localAmount := localAmount c;
  selectedPreset := selectedPreset c; selectedPaymentMethod := selectedPaymentMethod c; paymentLoading := paymentLoading c;
  confirmDialogOpen := b |}.

(** [setCalculating(true)] with a new request number; [setAmount] and [setCalculating(false)]. *)
Definition start_quote (h : Hooks) : Hooks := {|
  amount := amount h; calculating := true; calculationRequest := S (calculationRequest h);
  processing := processing h; pancakeProcessing := pancakeProcessing h |}.
Definition end_quote (p : num) (h : Hooks) : Hooks := {|
  amount := p; calculating := false; calculationRequest := calculationRequest h;
  processing := processing h; pancakeProcessing := pancakeProcessing h |}.
Definition set_processing (o : Order) (b : bool) (h : Hooks) : Hooks := {|
  amount := amount h; calculating := calculating h; calculationRequest := calculationRequest h;
  processing := match o with PancakeOrder _ => processing h | _ => b end;
  pancakeProcessing := match o with PancakeOrder _ => b | _ => pancakeProcessing h end |}.

(** ** Prices *)

(** After [calculatePaymentAmount] returned to [handlePaymentMethodSelect]. *)
Definition method_priced (p : num) (s : Page) : Page :=
  set_card (set_loading None) (if nle p pzero then note [Complained FAILED_TEXT] s else set_card (set_dialog true) s).

Definition calculatePaymentAmount (select : bool) (topup : num) (paymentType : str) (paymentProvider : option str) (s : Page) : Page :=
  let s := set_hooks start_quote s in
  let requestId := calculationRequest (hooks s) in
  let a := normalizeTopupAmount topup in
  if nle a pzero then
    let s := note [Unasked requestId] (set_hooks (end_quote pzero) s) in
    if select then method_priced pzero s else s
  else spawn (Pricing requestId select) (note [Asked requestId (quote_request a paymentType paymentProvider)] s).

(** The answer to a price request: only the latest request counts. *)
Definition priced (requestId : nat) (select : bool) (a : Answer) (s : Page) : Page :=
  if bool_decide (requestId = calculationRequest (hooks s)) then
    let p := quoted_price a in
    let s := note [Quoted requestId p] (set_hooks (end_quote p) s) in
    if select then method_priced p s else s
  else if select then set_card (set_loading None) s else s.

(** ** Handlers *)

Definition base_info (c : Card) : option TopupInfo := wi_info <$> topupInfo c.

Definition getCurrentPaymentContext (c : Card) : str * option str :=
  match selectedPaymentMethod c with
  | Some m => (type m, resolvePaymentProvider m (base_info c))
  | None => (getDefaultPaymentType (base_info c), getDefaultPaymentProvider (base_info c))
  end.

(** The effect on the configuration and the amount. *)
Definition default_topup (s : Page) : Page :=
  match topupInfo (card s) with
  | Some i =>
      if num_eqb (topupAmount (card s)) pzero then
        let minTopup := normalizeTopupAmount (getMinTopupAmount (Some (wi_info i))) in
        calculatePaymentAmount false minTopup (getDefaultPaymentType (Some (wi_info i))) (getDefaultPaymentProvider (Some (wi_info i)))
          (set_card (set_topup minTopup) s)
      else s
  | None => s
  end.

(** A new amount from a preset or from the field, with the effect that follows. *)
Definition change_amount (raw : num) (preset : bool) (s : Page) : Page :=
  let a := normalizeTopupAmount raw in
  let ctx := getCurrentPaymentContext (card s) in
  let s' := calculatePaymentAmount false a (fst ctx) (snd ctx)
              (set_card (λ c, set_preset (if preset then Some a else None) (set_topup a c)) s) in
  if bool_decide (topupAmount (card s) = a) then s' else default_topup s'.

Definition handleSelectPreset (p : PresetAmount) : Page → Page := change_amount (value p) true.
Definition handleTopupAmountChange (raw : num) : Page → Page := change_amount raw false.

(** [/^\d*(?:\.\d{0,2})?$/] *)
Definition AMOUNT_RE : regex :=
  rseq [RBol; rstar (RChar is_digit); ROpt (RSeq (rlit (js ".")) (ROpt (RSeq (RChar is_digit) (ROpt (RChar is_digit))))); REol].

Definition handleAmountChange (v : str) (s : Page) : Page :=
  if negb (test_re AMOUNT_RE v) then s
  else
    let s := set_card (set_local v) s in
    if bool_decide (v ∈ [[]; js "."; js "0"; js "0."]) then s
    else let n := parse_float v in
         if is_finite n && nlt pzero n then handleTopupAmountChange (normalizeTopupAmount n) s else s.

Definition handlePaymentMethodSelect (m : PaymentMethod) (s : Page) : Page :=
  let s := set_card (λ c, set_loading (Some (getPaymentMethodKey m)) (set_method m c)) s in
  let minTopup := match pm_min_topup m with
                  | Some v => if num_truthy v then v else getMinTopupAmount (base_info (card s))
                  | None => getMinTopupAmount (base_info (card s))
                  end in
  if nlt (topupAmount (card s)) minTopup then set_card (set_loading None) s
  else calculatePaymentAmount true (topupAmount (card s)) (type m) (resolvePaymentProvider m (base_info (card s))) s.

(** The order that confirming places, unless the amount is not positive. *)
Definition confirm_order (c : Card) (m : PaymentMethod) : option Order :=
  if isWaffoPancakePayment (type m) then Some (PancakeOrder (math_floor (topupAmount c)))
  else
    let a := normalizeTopupAmount (topupAmount c) in
    if nle a pzero then None else Some (order_request a (type m) (resolvePaymentProvider m (base_info c))).

Definition handlePaymentConfirm (s : Page) : Page :=
  match selectedPaymentMethod (card s) with
  | Some m =>
      if calculating (hooks s) || negb (is_finite (amount (hooks s))) || nle (amount (hooks s)) pzero then s
      else match confirm_order (card s) m with
           | None => note [Complained FAILED_TEXT] s
           | Some o => spawn (Paying o) (note [Ordered o] (set_hooks (set_processing o true) s))
           end
  | None => s
  end.

Definition paid (o : Order) (a : Answer) (s : Page) : Page :=
  let (l, ok) := order_answered o a in
  let s := note l (set_hooks (set_processing o false) s) in
  if ok then note [UserRefreshed] (set_card (set_dialog false) s) else s.

Definition handleWaffoMethodSelect (index : nat) (s : Page) : Page :=
  let o := WaffoOrder (math_floor (topupAmount (card s))) index in
  spawn (PayingWaffo o) (note [Ordered o] (set_card (set_loading (Some (js "waffo-" ++ N_dec (N.of_nat index)))) s)).

(** ** Runs *)

Inductive Event :=
  | InfoArrived (r : option RawTopupInfo)
  | ShowTab (b : Tab)
  | TypeAmount (v : str)
  | ChoosePreset (n : nat)
  | ChooseMethod (n : nat)
  | ChooseWaffo (n : nat)
  | Confirm
  | CloseDialog
  | Arrived (n : nat) (a : Answer).

(** The card with its inputs is on screen and nothing is in front of it. *)
Definition card_open (c : Card) : option WalletInfo :=
  match topupInfo c with
  | Some i => if negb (topupLoading c) && bool_decide (activeTab c = AddFunds) && negb (confirmDialogOpen c) && hasConfigurableTopup (wi_info i)
              then Some i else None
  | None => None
  end.

Definition confirm_disabled (h : Hooks) : bool :=
  processing h || pancakeProcessing h || calculating h || negb (is_finite (amount h)) || nle (amount h) pzero.

Definition arrived (n : nat) (a : Answer) (s : Page) : Page :=
  match tasks s !! n with
  | Some (Pricing id select) => priced id select a (without_task n s)
  | Some (Paying o) => paid o a (without_task n s)
  | Some (PayingWaffo o) => set_card (set_loading None) (note (fst (order_answered o a)) (without_task n s))
  | None => s
  end.

Definition step (s : Page) (e : Event) : Page :=
  let c := card s in
  match e with
  | InfoArrived r =>
      if topupLoading c
      then match r with
           | Some r => default_topup (set_card (set_info (Some (processedData toLowerCase r))) s)
           | None => set_card (set_info None) s
           end
      else s
  | ShowTab b => if confirmDialogOpen c then s else set_card (set_tab b) s
  | TypeAmount v => match card_open c with Some _ => handleAmountChange v s | None => s end
  | ChoosePreset n =>
      match card_open c with
      | Some i => match preset_amounts i !! n with Some p => handleSelectPreset p s | None => s end
      | None => s
      end
  | ChooseMethod n =>
      match card_open c with
      | Some i =>
          match standardPaymentMethods t (wi_info i) !! n with
          | Some m => if method_disabled m (topupAmount c) || bool_decide (is_Some (paymentLoading c)) then s else handlePaymentMethodSelect m s
          | None => s
          end
      | None => s
      end
  | ChooseWaffo n =>
      match card_open c with
      | Some i =>
          if on (enable_waffo_topup (wi_info i)) && (n <? length (waffo_pay_methods i))
             && negb (nlt (topupAmount c) (or_none (waffo_min_topup (wi_info i)))) && negb (bool_decide (is_Some (paymentLoading c)))
          then handleWaffoMethodSelect n s else s
      | None => s
      end
  | Confirm => if confirmDialogOpen c && negb (confirm_disabled (hooks s)) then handlePaymentConfirm s else s
  | CloseDialog => set_card (set_dialog false) s
  | Arrived n a => arrived n a s
  end.

Definition start : Page := {|
  card := {| activeTab := AddFunds; topupInfo := None; topupLoading := true; topupAmount := pzero; localAmount := js "0"; selectedPreset := None;
             selectedPaymentMethod := None; paymentLoading := None; confirmDialogOpen := false |};
  hooks := {| amount := pzero; calculating := false; calculationRequest := 0; processing := false; pancakeProcessing := false |};
  tasks := []; log := [] |}.

Definition run (es : list Event) : Page := fold_left step es start.
End page.
