(* ===== verification/TopupFacts.v ===== *)
(** * Properties of the top-up page

    The price on screen is the answer to the latest request, whatever order answers come in; a payment is confirmed at the price that was quoted
    for its amount and its method, one at a time; the browser leaves the page only for an address of an accepted order. *)

From S2P Require Import Prelude JsString JsNumber JsInteger Regex Json Payment WalletInfo TopupPage.

(** ** The last price request of a log *)

Definition quote_step (o : option (nat * Quote * option num)) (e : Entry) : option (nat * Quote * option num) :=
  match e with
  | Asked id q => Some (id, q, None)
  | Unasked _ => None
  | Quoted id p => match o with Some (id', q, r) => if bool_decide (id = id') then Some (id', q, Some p) else o | None => None end
  | _ => o
  end.

Definition last_quote (l : list Entry) : option (nat * Quote * option num) := fold_left quote_step l None.

Lemma last_quote_snoc l e : last_quote (l ++ [e]) = quote_step (last_quote l) e.
Proof. unfold last_quote. by rewrite fold_left_app. Qed.

Definition silent (e : Entry) : bool := match e with Asked _ _ | Unasked _ | Quoted _ _ => false | _ => true end.

Lemma last_quote_silent l l' : Forall (λ e, silent e = true) l' → last_quote (l ++ l') = last_quote l.
Proof.
  intros H. revert l. induction H as [|e l' He _ IH]; intros l; [by rewrite app_nil_r|].
  rewrite (app_assoc l [e] l' : l ++ e :: l' = _), IH, last_quote_snoc. by destruct e.
Qed.

(** ** Invariant *)

Definition id_is (n : nat) (k : Task) : bool := match k with Pricing id _ => bool_decide (id = n) | _ => false end.
Definition selects (n : nat) (k : Task) : bool := match k with Pricing id true => bool_decide (id = n) | _ => false end.
Definition loads (k : Task) : bool := match k with Pricing _ b => b | Paying _ => false | PayingWaffo _ => true end.
Definition pancake (o : Order) : bool := match o with PancakeOrder _ => true | _ => false end.
Definition pays (b : bool) (k : Task) : bool := match k with Paying o => Bool.eqb (pancake o) b | _ => false end.

Definition present {A} (o : option A) : bool := match o with Some _ => true | None => false end.

(** The price request for what is on the card. *)
Definition card_quote (c : Card) (m : PaymentMethod) : Quote :=
  quote_request (normalizeTopupAmount (topupAmount c)) (type m) (resolvePaymentProvider m (base_info c)).

Definition price_ok (p : num) : Prop := p = pzero ∨ is_finite p = true ∧ nlt pzero p = true.

(** Requests and what the page shows of them. *)
Record quotes_ok (s : Page) : Prop := {
  q_future : ∀ n, calculationRequest (hooks s) < n → countb (id_is n) (tasks s) = 0;
  q_pending : countb (id_is (calculationRequest (hooks s))) (tasks s) = Nat.b2n (calculating (hooks s));
  q_price : price_ok (amount (hooks s));
  q_shown : if calculating (hooks s) then ∃ q, last_quote (log s) = Some (calculationRequest (hooks s), q, None)
            else (last_quote (log s) = None ∧ amount (hooks s) = pzero)
                 ∨ ∃ q, last_quote (log s) = Some (calculationRequest (hooks s), q, Some (amount (hooks s))) }.

Record orders_ok (s : Page) : Prop := {
  o_pancake : countb (pays true) (tasks s) = Nat.b2n (pancakeProcessing (hooks s));
  o_other : countb (pays false) (tasks s) = Nat.b2n (processing (hooks s));
  o_one : processing (hooks s) && pancakeProcessing (hooks s) = false }.

Definition loading_ok (s : Page) : Prop := countb loads (tasks s) = Nat.b2n (present (paymentLoading (card s))).

(** The latest request is for the method and the amount on the card. *)
Definition on_card (s : Page) : Prop :=
  ∃ m r, selectedPaymentMethod (card s) = Some m ∧ last_quote (log s) = Some (calculationRequest (hooks s), card_quote (card s) m, r).

Definition focus_ok (s : Page) : Prop :=
  (0 < countb (selects (calculationRequest (hooks s))) (tasks s) → on_card s) ∧
  (confirmDialogOpen (card s) = true → on_card s ∧ calculating (hooks s) = false ∧ nlt pzero (amount (hooks s)) = true) ∧
  (topupLoading (card s) = true → confirmDialogOpen (card s) = false ∧ tasks s = []).

Definition page_ok (s : Page) : Prop := quotes_ok s ∧ orders_ok s ∧ loading_ok s ∧ focus_ok s.

(** A selecting request is a request. *)
Lemma selects_id n l : countb (selects n) l ≤ countb (id_is n) l.
Proof.
  induction l as [|k l IH]; [done|]. unfold countb in *. cbn [List.filter].
  destruct k as [id []|o|o]; cbn [selects id_is]; [destruct (bool_decide (id = n)); cbn [length]; lia| |done|done].
  destruct (bool_decide (id = n)); cbn [length]; lia.
Qed.

Lemma selects_loads n l : countb (selects n) l ≤ countb loads l.
Proof.
  induction l as [|k l IH]; [done|]. unfold countb in *. cbn [List.filter].
  destruct k as [id []|o|o]; cbn [selects loads length]; [destruct (bool_decide (id = n)); cbn [length]; lia|lia|lia|lia].
Qed.

Lemma start_ok : page_ok start.
Proof.
  split_and!.
  - by split; cbn; [| |left|left].
  - by split.
  - reflexivity.
  - split_and!; cbn; [lia|done|done].
Qed.

Lemma quoted_price_ok a : price_ok (quoted_price a).
Proof.
  unfold quoted_price, price_ok. destruct a as [r|]; [|by left]. destruct (isApiSuccess r && _); [|by left]. cbv zeta.
  destruct (is_finite _) eqn:E1; cbn [andb]; [|by left]. destruct (nlt pzero _) eqn:E2; [by right|by left].
Qed.

Lemma quote_positive p : price_ok p → nle p pzero = false → is_finite p = true ∧ nlt pzero p = true.
Proof. by intros [->|H]. Qed.

(** ** Prices *)

Ltac page := cbn [card hooks tasks log set_card set_hooks spawn without_task note amount calculating calculationRequest processing pancakeProcessing
  start_quote end_quote set_processing confirmDialogOpen topupLoading topupInfo topupAmount selectedPaymentMethod paymentLoading activeTab
  set_tab set_info set_topup set_local set_preset set_method set_loading set_dialog base_info] in *.

Section calculate.
Context (topup : num) (ty : str) (pr : option str) (s : Page).

Lemma calc_shape sel :
  let a := normalizeTopupAmount topup in
  let id := S (calculationRequest (hooks s)) in
  let s' := calculatePaymentAmount sel topup ty pr s in
  if nle a pzero
  then card s' = (if sel then set_loading None (card s) else card s) ∧ hooks s' = end_quote pzero (start_quote (hooks s)) ∧ tasks s' = tasks s ∧
       log s' = log s ++ Unasked id :: (if sel then [Complained FAILED_TEXT] else [])
  else card s' = card s ∧ hooks s' = start_quote (hooks s) ∧ tasks s' = tasks s ++ [Pricing id sel] ∧
       log s' = log s ++ [Asked id (quote_request a ty pr)].
Proof.
  cbv zeta. unfold calculatePaymentAmount. cbv zeta. page. destruct (nle _ pzero); [|by page].
  destruct sel; [|by page]. unfold method_priced. change (nle pzero pzero) with true. cbn iota. page. split_and!; [done..|]. by rewrite <- app_assoc.
Qed.

Lemma calc_quotes sel : quotes_ok s → quotes_ok (calculatePaymentAmount sel topup ty pr s).
Proof using Type.
  intros [Hf Hp Ha Hs]. pose proof (calc_shape sel) as H. cbv zeta in H. destruct (nle _ pzero); destruct H as (_ & Eh & Et & El).
  - assert (last_quote (log (calculatePaymentAmount sel topup ty pr s)) = None) as E.
    { rewrite El, (app_assoc (log s) [_] _ : log s ++ _ :: _ = _), last_quote_silent, last_quote_snoc; [done|]. destruct sel; by repeat constructor. }
    split; rewrite Eh, ?Et, ?E; page; [intros n Hn; apply Hf; lia|apply Hf; lia|by left|by left].
  - split; rewrite Eh, ?Et, ?El; page.
    + intros n Hn. rewrite countb_snoc, Hf by lia. cbn [id_is]. by rewrite bool_decide_false by lia.
    + rewrite countb_snoc, Hf by lia. cbn [id_is]. by rewrite bool_decide_true.
    + done.
    + rewrite last_quote_snoc. by eexists.
Qed.

Lemma calc_orders sel : orders_ok s → orders_ok (calculatePaymentAmount sel topup ty pr s).
Proof using Type.
  intros [H1 H2 H3]. pose proof (calc_shape sel) as H. cbv zeta in H.
  destruct (nle _ pzero); destruct H as (_ & Eh & Et & _); split; rewrite ?Eh, ?Et, ?countb_snoc; page; cbn [pays Nat.b2n]; rewrite ?Nat.add_0_r; done.
Qed.

(** A request without a dialog to open leaves none waiting. *)
Lemma calc_plain : quotes_ok s → loading_ok s → confirmDialogOpen (card s) = false → topupLoading (card s) = false →
  let s' := calculatePaymentAmount false topup ty pr s in loading_ok s' ∧ focus_ok s' ∧ card s' = card s.
Proof using Type.
  intros Hq Hl Hd Hw. cbv zeta. pose proof (calc_shape false) as H. cbv zeta in H.
  pose proof (selects_id (S (calculationRequest (hooks s))) (tasks s)) as Hz. rewrite (q_future s Hq) in Hz by lia.
  unfold loading_ok, focus_ok in *.
  destruct (nle _ pzero); destruct H as (Ec & Eh & Et & _); rewrite Ec, Eh, Et; page; rewrite ?countb_snoc, ?Hl, ?Hd, ?Hw; cbn [loads selects Nat.b2n];
    (split_and!; [lia|intros ?; lia|discriminate|discriminate|done]).
Qed.

(** A request with a dialog to open, for what is on the card. *)
Lemma calc_select m : quotes_ok s → countb loads (tasks s) = 0 → present (paymentLoading (card s)) = true →
  confirmDialogOpen (card s) = false → topupLoading (card s) = false → selectedPaymentMethod (card s) = Some m →
  topup = topupAmount (card s) → ty = type m → pr = resolvePaymentProvider m (base_info (card s)) →
  let s' := calculatePaymentAmount true topup ty pr s in loading_ok s' ∧ focus_ok s'.
Proof using Type.
  intros Hq Hl Hk Hd Hw Hm Eu Ey Ep. cbv zeta. pose proof (calc_shape true) as H. cbv zeta in H.
  pose proof (selects_id (S (calculationRequest (hooks s))) (tasks s)) as Hz. rewrite (q_future s Hq) in Hz by lia.
  unfold loading_ok, focus_ok in *.
  destruct (nle _ pzero); destruct H as (Ec & Eh & Et & El); rewrite Ec, Eh, Et; page; rewrite ?countb_snoc, ?Hl, ?Hd, ?Hw; cbn [loads selects Nat.b2n].
  - split_and!; [done|intros ?; lia|discriminate|discriminate].
  - split_and!; [by rewrite Hk| |discriminate|discriminate]. intros _. exists m, None. rewrite Ec, Eh, El, last_quote_snoc. page. cbn [quote_step].
    by rewrite Hm, Eu, Ey, Ep.
Qed.
End calculate.

(** ** Handlers *)

(** Changes of the card that do not concern pending requests or the dialog. *)
Definition keeps (f : Card → Card) : Prop :=
  ∀ c, paymentLoading (f c) = paymentLoading c ∧ confirmDialogOpen (f c) = confirmDialogOpen c ∧ topupLoading (f c) = topupLoading c.

Definition closed (c : Card) : Prop := confirmDialogOpen c = false ∧ topupLoading c = false.

Lemma quotes_card f s : quotes_ok s → quotes_ok (set_card f s).
Proof. by intros []. Qed.
Lemma orders_card f s : orders_ok s → orders_ok (set_card f s).
Proof. by intros []. Qed.

Lemma plain_request f topup ty pr s : keeps f → page_ok s → closed (card s) →
  let s' := calculatePaymentAmount false topup ty pr (set_card f s) in page_ok s' ∧ card s' = f (card s).
Proof.
  intros Hf (Hq & Ho & Hl & _) (Hd & Hw). destruct (Hf (card s)) as (E1 & E2 & E3). cbv zeta.
  destruct (calc_plain topup ty pr (set_card f s)) as (H1 & H2 & H3).
  - by apply quotes_card.
  - unfold loading_ok. page. by rewrite E1.
  - page. by rewrite E2.
  - page. by rewrite E3.
  - split; [|by rewrite H3]. split_and!; [apply calc_quotes, quotes_card, Hq|apply calc_orders, orders_card, Ho|done|apply H2..].
Qed.

Lemma default_topup_ok s : page_ok s → closed (card s) → page_ok (default_topup s).
Proof.
  intros H Hc. unfold default_topup. destruct (topupInfo (card s)); [|done]. destruct (num_eqb _ _); [|done]. cbv zeta.
  by apply plain_request.
Qed.

Lemma change_amount_ok raw preset s : page_ok s → closed (card s) → page_ok (change_amount raw preset s).
Proof.
  intros H Hc. unfold change_amount. cbv zeta.
  match goal with |- context [calculatePaymentAmount false ?a ?b ?c (set_card ?f s)] => destruct (plain_request f a b c s) as [H1 H2]; [done..|] end.
  case_bool_decide; [done|]. apply default_topup_ok; [done|]. rewrite H2. exact Hc.
Qed.

Lemma amount_change_ok v s : page_ok s → closed (card s) → page_ok (handleAmountChange v s).
Proof.
  intros H Hc. unfold handleAmountChange. destruct (test_re _ _); [|done]. cbn [negb]. cbv zeta.
  assert (page_ok (set_card (set_local v) s)) as H'. { destruct H as (Hq & Ho & Hl & Hf). split_and!; [by apply quotes_card|by apply orders_card|exact Hl|apply Hf..]. }
  destruct (bool_decide _); [done|]. destruct (_ && _); [|done]. by apply change_amount_ok.
Qed.

Lemma method_select_ok m s : page_ok s → closed (card s) → paymentLoading (card s) = None → page_ok (handlePaymentMethodSelect m s).
Proof.
  intros (Hq & Ho & Hl & Hf) (Hd & Hw) Hk. unfold loading_ok in Hl. rewrite Hk in Hl. cbn in Hl. unfold handlePaymentMethodSelect. cbv zeta.
  pose proof (selects_loads (calculationRequest (hooks s)) (tasks s)) as Hz. rewrite Hl in Hz.
  destruct (nlt _ _).
  - split_and!; [by do 2 apply quotes_card|by do 2 apply orders_card|exact Hl|]. unfold focus_ok. page. split_and!; [intros ?; lia|by rewrite Hd|by rewrite Hw].
  - match goal with |- page_ok (calculatePaymentAmount true ?a ?b ?c (set_card ?f s)) => destruct (calc_select a b c (set_card f s) m) as [H1 H2] end;
      [by apply quotes_card|done..|].
    split_and!; [by apply calc_quotes, quotes_card|by apply calc_orders, orders_card|done|apply H2..].
Qed.

(** ** Frames *)

Lemma quotes_frame s s' : quotes_ok s →
  amount (hooks s') = amount (hooks s) → calculating (hooks s') = calculating (hooks s) → calculationRequest (hooks s') = calculationRequest (hooks s) →
  (∀ n, calculationRequest (hooks s) ≤ n → countb (id_is n) (tasks s') = countb (id_is n) (tasks s)) → last_quote (log s') = last_quote (log s) → quotes_ok s'.
Proof.
  intros [Hf Hp Ha Hs] E1 E2 E3 Ht El. split; rewrite ?E1, ?E2, ?E3, ?El; [|by rewrite Ht|done..]. intros n Hn. rewrite Ht by lia. by apply Hf.
Qed.

Lemma on_card_frame s s' : on_card s → topupAmount (card s') = topupAmount (card s) → topupInfo (card s') = topupInfo (card s) →
  selectedPaymentMethod (card s') = selectedPaymentMethod (card s) → calculationRequest (hooks s') = calculationRequest (hooks s) →
  last_quote (log s') = last_quote (log s) → on_card s'.
Proof.
  intros (m & r & E & El) E1 E2 E3 E4 E5. exists m, r. unfold card_quote, base_info in *. by rewrite E1, E2, E3, E4, E5.
Qed.

(** A step that leaves prices alone, and may close the dialog. *)
Lemma focus_frame s s' : focus_ok s → topupAmount (card s') = topupAmount (card s) → topupInfo (card s') = topupInfo (card s) →
  selectedPaymentMethod (card s') = selectedPaymentMethod (card s) → topupLoading (card s') = topupLoading (card s) →
  (confirmDialogOpen (card s') = true → confirmDialogOpen (card s) = true) →
  calculationRequest (hooks s') = calculationRequest (hooks s) → calculating (hooks s') = calculating (hooks s) → amount (hooks s') = amount (hooks s) →
  countb (selects (calculationRequest (hooks s))) (tasks s') = countb (selects (calculationRequest (hooks s))) (tasks s) →
  last_quote (log s') = last_quote (log s) → (topupLoading (card s) = true → tasks s = [] → tasks s' = []) → focus_ok s'.
Proof.
  intros (H1 & H2 & H3) E1 E2 E3 E4 Hd E5 E6 E7 E8 E9 Ht. split_and!.
  - rewrite E5, E8. intros H. by eapply on_card_frame; [apply H1|..].
  - intros H%Hd. destruct (H2 H) as (H4 & H5 & H6). rewrite E6, E7. split; [|done]. by eapply on_card_frame.
  - rewrite E4. intros Hl. destruct (H3 Hl) as [Hc He]. split; [|by apply Ht]. destruct (confirmDialogOpen (card s')) eqn:E; [|done]. by rewrite Hd in Hc.
Qed.

(** ** Orders *)

Lemma order_silent f o a : Forall (λ e, silent e = true) (fst (order_answered f o a)).
Proof.
  unfold order_answered. repeat (break_match; cbn [fst]); by repeat constructor.
Qed.

Lemma confirm_ok s : page_ok s → confirmDialogOpen (card s) = true → confirm_disabled (hooks s) = false → page_ok (handlePaymentConfirm s).
Proof.
  intros H Hd Hc. unfold confirm_disabled in Hc. rewrite !orb_false_iff in Hc. destruct Hc as [[[[Pp Pk] Pc] Pf] Pa]. unfold handlePaymentConfirm.
  destruct (selectedPaymentMethod (card s)) as [m|]; [|done]. rewrite Pc, Pf, Pa. cbn [orb]. destruct H as (Hq & Ho & Hl & Hf).
  assert (topupLoading (card s) = false) as Hw. { destruct (topupLoading (card s)) eqn:E; [|done]. destruct (proj2 (proj2 Hf) E) as [E' _]. by rewrite E' in Hd. }
  destruct (confirm_order _ _) as [o|].
  - split_and!.
    + apply (quotes_frame s); page; [done..| |by apply last_quote_silent; repeat constructor]. intros n _. by rewrite countb_snoc, Nat.add_0_r.
    + destruct Ho as [P1 P2 _]. rewrite Pp, Pk in *. destruct o; (split; page; [rewrite countb_snoc, P1|rewrite countb_snoc, P2|]; by rewrite ?Pp, ?Pk).
    + unfold loading_ok in *. page. by rewrite countb_snoc, Nat.add_0_r.
    + apply (focus_frame s); page; [done..| |by apply last_quote_silent; repeat constructor|by rewrite Hw]. by rewrite countb_snoc, Nat.add_0_r.
  - split_and!; [apply (quotes_frame s)| |exact Hl|apply (focus_frame s)]; page; try done; try (by apply last_quote_silent; repeat constructor). by destruct Ho.
Qed.

Lemma waffo_select_ok n s : page_ok s → closed (card s) → paymentLoading (card s) = None → page_ok (handleWaffoMethodSelect n s).
Proof.
  intros (Hq & Ho & Hl & Hf) (Hd & Hw) Hk. unfold handleWaffoMethodSelect. cbv zeta. split_and!.
  - apply (quotes_frame s); page; [done..| |by apply last_quote_silent; repeat constructor]. intros k _. by rewrite countb_snoc, Nat.add_0_r.
  - destruct Ho as [P1 P2 P3]. split; page; rewrite ?countb_snoc, ?Nat.add_0_r; done.
  - unfold loading_ok in *. page. rewrite countb_snoc, Hl, Hk. done.
  - apply (focus_frame s); page; [done..| |by apply last_quote_silent; repeat constructor|by rewrite Hw]. by rewrite countb_snoc, Nat.add_0_r.
Qed.

(** Removing a task of another kind leaves a count alone. *)
Lemma count_other {A} (f : A → bool) l n x : l !! n = Some x → f x = false → countb f (delete n l) = countb f l.
Proof. intros H E. pose proof (countb_delete f _ _ _ H) as Hd. rewrite E in Hd. cbn in Hd. lia. Qed.

Lemma not_loading s n k : focus_ok s → tasks s !! n = Some k → topupLoading (card s) = false.
Proof. intros (_ & _ & H) E. destruct (topupLoading (card s)); [|done]. destruct (H eq_refl) as [_ H']. by rewrite H' in E. Qed.

Lemma paid_ok f n o a s : page_ok s → tasks s !! n = Some (Paying o) → page_ok (paid f o a (without_task n s)).
Proof.
  intros (Hq & Ho & Hl & Hf) En. pose proof (not_loading s n _ Hf En) as Hw. unfold paid. pose proof (order_silent f o a) as Hs.
  destruct (order_answered f o a) as [l ok]. cbn [fst] in Hs.
  assert (∀ l', Forall (λ e, silent e = true) l' → last_quote ((log s ++ l) ++ l') = last_quote (log s)) as Hlq.
  { intros l' H. by rewrite !last_quote_silent. }
  assert (orders_ok (set_hooks (set_processing o false) (without_task n s))) as Ho'.
  { destruct Ho as [P1 P2 P3]. pose proof (countb_delete (pays true) _ _ _ En) as D1. pose proof (countb_delete (pays false) _ _ _ En) as D2.
    rewrite P1 in D1. rewrite P2 in D2.
    destruct o, (processing (hooks s)) eqn:E1, (pancakeProcessing (hooks s)) eqn:E2; try discriminate P3;
      cbn [pays pancake Bool.eqb Nat.b2n] in *; (split; page; rewrite ?E1, ?E2; cbn; try lia; done). }
  destruct ok; split_and!; try (exact (orders_card _ _ Ho')); try (destruct Ho'; split; page; done);
    try (unfold loading_ok in *; page; by rewrite (count_other _ _ _ _ En)).
  1,3: apply (quotes_frame s); page; [done..|intros k _; by rewrite (count_other _ _ _ _ En)|]; rewrite ?Hlq by (by repeat constructor); rewrite ?last_quote_silent; done.
  all: apply (focus_frame s); page; [done..|by rewrite (count_other _ _ _ _ En)| |by rewrite Hw]; rewrite ?Hlq by (by repeat constructor); rewrite ?last_quote_silent; done.
Qed.

Lemma waffo_paid_ok f n o a s : page_ok s → tasks s !! n = Some (PayingWaffo o) →
  page_ok (set_card (set_loading None) (note (fst (order_answered f o a)) (without_task n s))).
Proof.
  intros (Hq & Ho & Hl & Hf) En. pose proof (not_loading s n _ Hf En) as Hw. pose proof (order_silent f o a) as Hs. split_and!.
  - apply (quotes_frame s); page; [done..|intros k _; by rewrite (count_other _ _ _ _ En)|by rewrite last_quote_silent].
  - destruct Ho as [P1 P2 P3]. split; page; rewrite ?(count_other _ _ _ _ En) by done; done.
  - unfold loading_ok in *. page. pose proof (countb_delete loads _ _ _ En) as D. rewrite Hl in D. cbn [loads Nat.b2n present] in *.
    destruct (paymentLoading (card s)); cbn in D; cbn; lia.
  - apply (focus_frame s); page; [done..|by rewrite (count_other _ _ _ _ En)|by rewrite last_quote_silent|by rewrite Hw].
Qed.

(** ** Answers to price requests *)

(** An answer to a request that is no longer the latest. *)
Lemma late_price_ok n id sel a s : page_ok s → tasks s !! n = Some (Pricing id sel) → id ≠ calculationRequest (hooks s) →
  page_ok (priced id sel a (without_task n s)).
Proof.
  intros (Hq & Ho & Hl & Hf) En Hne. pose proof (not_loading s n _ Hf En) as Hw. unfold priced. page. rewrite bool_decide_false by done.
  assert (id ≤ calculationRequest (hooks s)) as Hle.
  { destruct (decide (id ≤ calculationRequest (hooks s))) as [?|H]; [done|]. pose proof (q_future s Hq id ltac:(lia)) as H0.
    pose proof (countb_delete (id_is id) _ _ _ En) as D. rewrite H0 in D. cbn [id_is] in D. rewrite bool_decide_true in D by done. cbn in D. lia. }
  assert (∀ k, calculationRequest (hooks s) ≤ k → countb (id_is k) (delete n (tasks s)) = countb (id_is k) (tasks s)) as Hid.
  { intros k Hk. apply (count_other _ _ _ _ En). cbn [id_is]. apply bool_decide_false. lia. }
  assert (countb (selects (calculationRequest (hooks s))) (delete n (tasks s)) = countb (selects (calculationRequest (hooks s))) (tasks s)) as Hsel.
  { apply (count_other _ _ _ _ En). destruct sel; cbn [selects]; [|done]. by apply bool_decide_false. }
  assert (orders_ok (without_task n s)) as Ho'.
  { destruct Ho as [P1 P2 P3]. split; page; rewrite ?(count_other _ _ _ _ En) by done; done. }
  pose proof (countb_delete loads _ _ _ En) as D. unfold loading_ok in Hl. rewrite Hl in D. cbn [loads] in D.
  destruct sel; split_and!; try exact Ho'; try (apply orders_card, Ho').
  1,4: by apply (quotes_frame s).
  - unfold loading_ok. page. destruct (paymentLoading (card s)); cbn in *; lia.
  - apply (focus_frame s); page; try done. by rewrite Hw.
  - unfold loading_ok. page. cbn in D. lia.
  - apply (focus_frame s); page; try done. by rewrite Hw.
Qed.

(** The answer to the latest request. *)
Lemma latest_price_ok n sel a s : page_ok s → tasks s !! n = Some (Pricing (calculationRequest (hooks s)) sel) →
  page_ok (priced (calculationRequest (hooks s)) sel a (without_task n s)).
Proof.
  intros (Hq & Ho & Hl & Hf) En. pose proof (not_loading s n _ Hf En) as Hw. unfold priced. page. rewrite bool_decide_true by done. cbv zeta.
  pose proof (countb_delete (id_is (calculationRequest (hooks s))) _ _ _ En) as D. rewrite (q_pending s Hq) in D. cbn [id_is] in D.
  rewrite bool_decide_true in D by done. destruct (calculating (hooks s)) eqn:Ec; cbn in D; [|lia].
  pose proof (q_shown s Hq) as Hs. rewrite Ec in Hs. destruct Hs as [q Eq].
  set (p := quoted_price a). set (s1 := note [Quoted (calculationRequest (hooks s)) p] (set_hooks (end_quote p) (without_task n s))).
  assert (last_quote (log s1) = Some (calculationRequest (hooks s), q, Some p)) as El.
  { unfold s1. page. rewrite last_quote_snoc, Eq. cbn [quote_step]. by rewrite bool_decide_true. }
  assert (quotes_ok s1) as Hq1.
  { split; [|unfold s1; page; cbn [Nat.b2n]; lia|apply quoted_price_ok|right; by exists q].
    intros k Hk. pose proof (countb_delete (id_is k) _ _ _ En) as Dk. unfold s1. page. rewrite (q_future s Hq k Hk) in Dk. lia. }
  assert (orders_ok s1) as Ho1.
  { destruct Ho as [P1 P2 P3]. split; unfold s1; page; rewrite ?(count_other _ _ _ _ En) by done; done. }
  pose proof (selects_id (calculationRequest (hooks s)) (delete n (tasks s))) as Hz.
  destruct Hf as (H1 & H2 & H3). assert (confirmDialogOpen (card s) = false) as Hd.
  { destruct (confirmDialogOpen (card s)); [|done]. destruct (H2 eq_refl) as (_ & E & _). congruence. }
  pose proof (countb_delete loads _ _ _ En) as DL. unfold loading_ok in Hl. rewrite Hl in DL. cbn [loads] in DL.
  destruct sel.
  - destruct (H1 ltac:(pose proof (countb_delete (selects (calculationRequest (hooks s))) _ _ _ En) as DS; cbn [selects] in DS;
      rewrite bool_decide_true in DS by done; cbn in DS; lia)) as (m & r & Em & Er).
    assert (q = card_quote (card s) m) as -> by congruence.
    unfold method_priced. destruct (nle p pzero) eqn:Ep.
    + split_and!; [apply (quotes_frame s1); try done; apply (last_quote_silent (log s1)); by repeat constructor|destruct Ho1; by split|..].
      * unfold loading_ok, s1. page. destruct (paymentLoading (card s)); cbn in *; lia.
      * unfold focus_ok, s1. page. rewrite Hd, Hw. split_and!; [intros ?; lia|discriminate|discriminate].
    + split_and!; [apply (quotes_frame s1); done|destruct Ho1; by split|..].
      * unfold loading_ok, s1. page. destruct (paymentLoading (card s)); cbn in *; lia.
      * assert (on_card (set_card (set_loading None) (set_card (set_dialog true) s1))) as Hon by (exists m, (Some p); exact (conj Em El)).
        split_and!; [done|intros _; split_and!; [done|done|]|by unfold s1; page; rewrite Hw].
        by destruct (quote_positive p (quoted_price_ok a) Ep).
  - split_and!; [done|done|unfold loading_ok, s1; page; cbn in DL; lia|].
    unfold focus_ok, s1. page. rewrite Hd, Hw. split_and!; [intros ?; lia|discriminate|discriminate].
Qed.

Lemma arrived_ok f n a s : page_ok s → page_ok (arrived f n a s).
Proof.
  intros H. unfold arrived. destruct (tasks s !! n) as [[id sel|o|o]|] eqn:En; [|by apply paid_ok|by apply waffo_paid_ok|done].
  destruct (decide (id = calculationRequest (hooks s))) as [->|Hne]; [by apply latest_price_ok|by apply late_price_ok].
Qed.

Lemma card_open_closed c i : card_open c = Some i → topupInfo c = Some i ∧ closed c.
Proof.
  unfold card_open, closed. destruct (topupInfo c); [|done]. destruct (topupLoading c), (activeTab c), (confirmDialogOpen c); try discriminate; cbn.
  destruct (hasConfigurableTopup _); [|done]. by intros [= ->].
Qed.

Section runs.
Context (toLowerCase : str → str) (t : str → str) (url_protocol : str → option str).

Lemma topup_step_ok s e : page_ok s → page_ok (step toLowerCase t url_protocol s e).
Proof.
  intros H. destruct e as [r|b|v|n|n|n| | |n a]; cbn [step].
  - destruct (topupLoading (card s)) eqn:Ew; [|done]. destruct H as (Hq & Ho & Hl & Hf). destruct (proj2 (proj2 Hf) Ew) as [Hd He].
    assert (∀ i, page_ok (set_card (set_info i) s)) as Hi.
    { intros i. split_and!; [by apply quotes_card|by apply orders_card|exact Hl|]. unfold focus_ok. page. rewrite He, Hd. split_and!; [cbn; lia|discriminate|discriminate]. }
    destruct r; [|done]. apply default_topup_ok; [done|]. by split.
  - destruct (confirmDialogOpen (card s)) eqn:Hd; [done|]. destruct H as (Hq & Ho & Hl & Hf).
    split_and!; [by apply quotes_card|by apply orders_card|exact Hl|]. apply (focus_frame s); page; try done.
  - destruct (card_open (card s)) eqn:E; [|done]. apply card_open_closed in E as [_ Hc]. by apply amount_change_ok.
  - destruct (card_open (card s)) eqn:E; [|done]. apply card_open_closed in E as [_ Hc]. destruct (_ !! n); [|done]. by apply change_amount_ok.
  - destruct (card_open (card s)) eqn:E; [|done]. apply card_open_closed in E as [_ Hc]. destruct (_ !! n); [|done].
    destruct (method_disabled _ _); [done|]. cbn [orb]. case_bool_decide as Hk; [done|]. apply method_select_ok; [done..|].
    destruct (paymentLoading (card s)); [|done]. by destruct Hk.
  - destruct (card_open (card s)) eqn:E; [|done]. apply card_open_closed in E as [_ Hc]. destruct (_ && negb (bool_decide _)) eqn:Ek; [|done].
    apply andb_true_iff in Ek as [_ Hk%negb_true_iff%bool_decide_eq_false]. apply waffo_select_ok; [done..|].
    destruct (paymentLoading (card s)); [|done]. by destruct Hk.
  - destruct (confirmDialogOpen (card s)) eqn:E; [|done]. cbn [andb]. destruct (confirm_disabled _) eqn:Ed; [done|]. by apply confirm_ok.
  - destruct H as (Hq & Ho & Hl & Hf). split_and!; [by apply quotes_card|by apply orders_card|exact Hl|]. apply (focus_frame s); page; try done.
  - by apply arrived_ok.
Qed.

Abbreviation run := (run toLowerCase t url_protocol).

Lemma topup_run_ok es : page_ok (run es).
Proof.
  unfold TopupPage.run. generalize start_ok. generalize start. induction es as [|e es IH]; intros s H; [done|]. cbn [fold_left]. by apply IH, topup_step_ok.
Qed.

(** ** Orders of a log *)

Definition orders_of (l : list Entry) : list Order := omap (λ e, match e with Ordered o => Some o | _ => None end) l.

Lemma orders_snoc l l' : orders_of (l ++ l') = orders_of l ++ orders_of l'.
Proof. apply omap_app. Qed.

Lemma calc_log sel topup ty pr s : orders_of (log (calculatePaymentAmount sel topup ty pr s)) = orders_of (log s).
Proof.
  pose proof (calc_shape topup ty pr s sel) as H. cbv zeta in H.
  destruct (nle _ pzero); destruct H as (_ & _ & _ & ->); rewrite orders_snoc; [destruct sel|]; cbn; by rewrite app_nil_r.
Qed.

Lemma default_log s : orders_of (log (default_topup s)) = orders_of (log s).
Proof. unfold default_topup. destruct (topupInfo _); [|done]. destruct (num_eqb _ _); [|done]. cbv zeta. by rewrite calc_log. Qed.

Lemma change_log raw preset s : orders_of (log (change_amount raw preset s)) = orders_of (log s).
Proof. unfold change_amount. cbv zeta. case_bool_decide; rewrite ?default_log, calc_log; done. Qed.

Lemma answer_log f o a : orders_of (fst (order_answered f o a)) = [].
Proof. unfold order_answered. repeat (break_match; cbn [fst]); reflexivity. Qed.

Lemma arrived_log f n a s : orders_of (log (arrived f n a s)) = orders_of (log s).
Proof.
  unfold arrived. destruct (tasks s !! n) as [[id sel|o|o]|]; [| | |done].
  - unfold priced, method_priced. cbv zeta. destruct (bool_decide _); [|by destruct sel]. destruct sel; [destruct (nle _ _)|]; page; rewrite !orders_snoc; cbn; by rewrite !app_nil_r.
  - unfold paid. pose proof (answer_log f o a) as H. destruct (order_answered f o a) as [l []]; cbn [fst] in H; cbv zeta; page; rewrite !orders_snoc, H; cbn; by rewrite !app_nil_r.
  - page. by rewrite orders_snoc, answer_log, app_nil_r.
Qed.

(** Orders are placed by confirming what the dialog shows, or by a Waffo button. *)
Lemma orders_placed s e :
  let s' := step toLowerCase t url_protocol s e in
  orders_of (log s') = orders_of (log s)
  ∨ (∃ m o, e = Confirm ∧ confirmDialogOpen (card s) = true ∧ confirm_disabled (hooks s) = false ∧ selectedPaymentMethod (card s) = Some m ∧
            o = (if isWaffoPancakePayment (type m) then PancakeOrder (math_floor (topupAmount (card s)))
                 else order_request (normalizeTopupAmount (topupAmount (card s))) (type m) (resolvePaymentProvider m (base_info (card s)))) ∧
            orders_of (log s') = orders_of (log s) ++ [o])
  ∨ (∃ n, e = ChooseWaffo n ∧ orders_of (log s') = orders_of (log s) ++ [WaffoOrder (math_floor (topupAmount (card s))) n]).
Proof.
  cbv zeta. destruct e as [r|b|v|n|n|n| | |n a]; cbn [step].
  - left. destruct (topupLoading _); [|done]. destruct r; [|done]. by rewrite default_log.
  - left. by destruct (confirmDialogOpen _).
  - left. destruct (card_open _); [|done]. unfold handleAmountChange. destruct (test_re _ _); [|done]. cbn [negb]. cbv zeta.
    destruct (bool_decide _); [done|]. destruct (_ && _); [|done]. unfold handleTopupAmountChange. by rewrite change_log.
  - left. destruct (card_open _); [|done]. destruct (_ !! n); [|done]. unfold handleSelectPreset. by rewrite change_log.
  - left. destruct (card_open _); [|done]. destruct (_ !! n); [|done]. destruct (_ || _); [done|]. unfold handlePaymentMethodSelect. cbv zeta.
    destruct (nlt _ _); [done|]. by rewrite calc_log.
  - destruct (card_open _); [|by left]. destruct (_ && _); [|by left]. right; right. exists n. split; [done|]. unfold handleWaffoMethodSelect. cbv zeta. page. by rewrite orders_snoc.
  - destruct (confirmDialogOpen (card s)) eqn:Ed; [|by left]. destruct (confirm_disabled (hooks s)) eqn:Ec; [by left|]. cbn [andb negb].
    unfold handlePaymentConfirm. destruct (selectedPaymentMethod (card s)) as [m|] eqn:Em; [|by left]. destruct (_ || _ || _); [by left|].
    destruct (confirm_order (card s) m) as [o|] eqn:Eo; [|left; page; by rewrite orders_snoc, app_nil_r].
    right; left. exists m, o. split_and!; [done..| |page; by rewrite orders_snoc]. unfold confirm_order in Eo. destruct (isWaffoPancakePayment (type m)).
    + by injection Eo.
    + cbv zeta in Eo. destruct (nle _ _); [done|]. by injection Eo.
  - by left.
  - left. apply arrived_log.
Qed.

Lemma pays_split l : countb (λ k, match k with Paying _ => true | _ => false end) l = countb (pays true) l + countb (pays false) l.
Proof.
  induction l as [|k l IH]; [done|]. unfold countb in *. cbn [List.filter]. destruct k as [id sel|o|o]; cbn [pays]; [done| |done].
  destruct (pancake o); cbn [Bool.eqb length]; lia.
Qed.

(** The top-up part of the page: prices, the dialog and its orders. *)
Lemma topup_as_quoted es :
  let s := run es in
  (calculating (hooks s) = false →
     amount (hooks s) = match last_quote (log s) with Some (_, _, Some p) => p | _ => pzero end) ∧
  (confirmDialogOpen (card s) = true → ∃ m id, selectedPaymentMethod (card s) = Some m ∧
     last_quote (log s) = Some (id, card_quote (card s) m, Some (amount (hooks s))) ∧ is_finite (amount (hooks s)) = true ∧ nlt pzero (amount (hooks s)) = true) ∧
  (∀ e, let s' := step toLowerCase t url_protocol s e in
     orders_of (log s') = orders_of (log s)
     ∨ (∃ m o, e = Confirm ∧ confirmDialogOpen (card s) = true ∧ confirm_disabled (hooks s) = false ∧ selectedPaymentMethod (card s) = Some m ∧
               o = (if isWaffoPancakePayment (type m) then PancakeOrder (math_floor (topupAmount (card s)))
                    else order_request (normalizeTopupAmount (topupAmount (card s))) (type m) (resolvePaymentProvider m (base_info (card s)))) ∧
               orders_of (log s') = orders_of (log s) ++ [o])
     ∨ (∃ n, e = ChooseWaffo n ∧ orders_of (log s') = orders_of (log s) ++ [WaffoOrder (math_floor (topupAmount (card s))) n])) ∧
  countb (λ k, match k with Paying _ => true | _ => false end) (tasks s) ≤ 1.
Proof.
  cbv zeta. destruct (topup_run_ok es) as (Hq & Ho & _ & Hf). split_and!.
  - intros Hc. pose proof (q_shown _ Hq) as H. rewrite Hc in H. by destruct H as [[-> ->]|[q ->]].
  - intros Hd. destruct (proj1 (proj2 Hf) Hd) as ((m & r & Em & Er) & Hc & Hp). exists m, (calculationRequest (hooks (run es))).
    pose proof (q_shown _ Hq) as H. rewrite Hc in H. destruct H as [[H _]|[q H]]; [congruence|].
    split_and!; [done|congruence| |done]. destruct (q_price _ Hq) as [E|[E _]]; [by rewrite E in Hp|done].
  - intros e. apply orders_placed.
  - rewrite pays_split. destruct Ho as [-> -> P]. destruct (processing _), (pancakeProcessing _); cbn in *; lia || done.
Qed.
End runs.

(** ** What answers lead to *)

Definition is_opened (e : Entry) : bool := match e with Opened _ _ => true | _ => false end.

(** An address is opened exactly when a payment is under way, which needs an accepted order; Waffo Pancake is left to web addresses only. *)
Lemma opened_when_accepted f o a :
  let r := order_answered f o a in
  existsb is_opened (fst r) = snd r ∧
  (snd r = true → ∃ x, a = Replied x ∧ isApiSuccess x = true) ∧
  (∀ w u, Opened w u ∈ fst r → pancake o = true → w = SameTab ∧ ∃ v, u = JStr v ∧ isSafeHttpCheckoutUrl f v = true).
Proof.
  cbv zeta. destruct a as [x|]; [|split_and!; [done|done|by intros w u [?|?%elem_of_nil]%elem_of_cons]].
  unfold order_answered. split_and!.
  - repeat (break_match; cbn [fst snd]); reflexivity.
  - repeat (break_match; cbn [fst snd]); try discriminate; intros _; exists x; (split; [done|]); congruence || by (apply negb_false_iff).
  - intros w u H Hp. destruct o; try discriminate Hp. revert H. destruct (if isApiSuccess x then _ else _) as [v|]; [|by intros [?|?%elem_of_nil]%elem_of_cons].
    destruct (isSafeHttpCheckoutUrl f v) eqn:E; [|by intros [?|?%elem_of_nil]%elem_of_cons].
    cbn [fst]. intros [?|[[= -> ->]|?%elem_of_nil]%elem_of_cons]%elem_of_cons; [done| |done]. split; [done|]. by exists v.
Qed.

(** A method that is on offer and not below its minimum leads to the dialog once the server names a price. *)
Theorem chosen_method_reaches_dialog toLowerCase t url_protocol s i n m a :
  card_open (card s) = Some i → standardPaymentMethods t (wi_info i) !! n = Some m → method_disabled m (topupAmount (card s)) = false →
  paymentLoading (card s) = None →
  nlt (topupAmount (card s)) (match pm_min_topup m with Some v => if num_truthy v then v else getMinTopupAmount (Some (wi_info i)) | None => getMinTopupAmount (Some (wi_info i)) end) = false →
  nle (normalizeTopupAmount (topupAmount (card s))) pzero = false → nle (quoted_price a) pzero = false →
  let step := step toLowerCase t url_protocol in
  let s' := step (step s (ChooseMethod n)) (Arrived (length (tasks s)) a) in
  confirmDialogOpen (card s') = true ∧ selectedPaymentMethod (card s') = Some m ∧ amount (hooks s') = quoted_price a ∧
  topupAmount (card s') = topupAmount (card s) ∧ paymentLoading (card s') = None ∧ tasks s' = tasks s.
Proof.
  intros Ho Em Ed Ek El En Ep. cbv zeta. cbn [step]. rewrite Ho, Em, Ed, Ek. rewrite bool_decide_false by (by intros []). cbn [orb].
  apply card_open_closed in Ho as [Ei Hc].
  unfold handlePaymentMethodSelect. cbv zeta. page.
  change (base_info (set_loading _ (set_method _ (card s)))) with (wi_info <$> topupInfo (card s)). rewrite Ei. cbn [fmap option_fmap option_map]. rewrite El.
  unfold calculatePaymentAmount. cbv zeta. page. rewrite En. unfold arrived. page. rewrite lookup_app_r, Nat.sub_diag by done. cbn [lookup list_lookup].
  unfold priced, method_priced. page. rewrite bool_decide_true by done. cbv zeta. rewrite Ep. page. split_and!; try done.
  rewrite delete_take_drop, take_app_length, drop_app_ge by lia. replace (S (length (tasks s)) - length (tasks s)) with 1 by lia. by rewrite app_nil_r.
Qed.

(** ** Where the page does not do what it says *)

Definition plain (s : str) : str := s.
Definition any_url (s : str) : option str := Some (js "https:").

(** A configuration with one method of the server. *)
Definition one_method (method_text : string) (min : Z) : RawTopupInfo := {|
  raw_info := {|
    enable_online_topup := true; enable_stripe_topup := false; pay_methods := []; min_topup := num_of_Z min; stripe_min_topup := num_of_Z 1;
    enable_waffo_topup := None; waffo_min_topup := None; enable_waffo_pancake_topup := Some true; waffo_pancake_min_topup := None;
    enable_xpay_topup := None; xpay_min_topup := None; enable_mpay_topup := None; mpay_min_topup := None;
    enable_alipay_direct_topup := None; alipay_direct_min_topup := None |};
  raw_pay_methods := Some (JArr [JObj [(js "name", JStr (js method_text)); (js "type", JStr (js method_text))]]);
  raw_amount_options := None; raw_discount := None; raw_creem_products := None; raw_waffo_pay_methods := None;
  raw_enable_creem_topup := false; raw_enable_redemption := None |}.

Definition price_answer (p : string) : Answer :=
  Replied {| success := Some true; message := None; data := Some (JStr (js p)); url := None |}.

Definition page_after (es : list Event) : Page := TopupPage.run plain plain any_url es.

Definition ten_and_a_half : num := ndiv (num_of_Z 21) (num_of_Z 2).

(** Waffo Pancake is asked for the price of 10.5 and gets an order for 10: the dialog shows the price of something else. *)
Lemma pancake_orders_less :
  log (page_after [InfoArrived (Some (one_method "waffo_pancake" 1)); Arrived 0 (price_answer "1"); TypeAmount (js "10.5"); Arrived 0 (price_answer "10.5");
                   ChooseMethod 0; Arrived 0 (price_answer "10.5"); Confirm]) =
  [Asked 1 (PancakeQuote (num_of_Z 1)); Quoted 1 (num_of_Z 1); Asked 2 (PancakeQuote ten_and_a_half); Quoted 2 ten_and_a_half;
   Asked 3 (PancakeQuote ten_and_a_half); Quoted 3 ten_and_a_half; Ordered (PancakeOrder (num_of_Z 10))].
Proof. vm_compute. reflexivity. Qed.

(** A method without a minimum of its own can be chosen below the minimum of the page, but nothing happens and nothing is said. *)
Lemma choice_below_minimum_ignored :
  let before := [InfoArrived (Some (one_method "alipay" 5)); Arrived 0 (price_answer "5"); TypeAmount (js "3"); Arrived 0 (price_answer "3")] in
  let s := page_after before in
  let s' := page_after (before ++ [ChooseMethod 0]) in
  option_map (λ m, method_disabled m (topupAmount (card s))) (standardPaymentMethods plain (wi_info (processedData plain (one_method "alipay" 5))) !! 0) = Some false ∧
  log s' = log s ∧ tasks s' = tasks s ∧ confirmDialogOpen (card s') = false ∧ paymentLoading (card s') = None.
Proof. vm_compute. split_and!; reflexivity. Qed.

(** Emptying the field keeps the amount it had: choosing a method then asks for the price of that amount. *)
Lemma emptied_field_still_pays :
  let s := page_after [InfoArrived (Some (one_method "alipay" 1)); Arrived 0 (price_answer "1"); TypeAmount (js "30"); Arrived 0 (price_answer "30");
                       TypeAmount []; ChooseMethod 0; Arrived 0 (price_answer "30")] in
  localAmount (card s) = [] ∧ topupAmount (card s) = num_of_Z 30 ∧ confirmDialogOpen (card s) = true.
Proof. vm_compute. split_and!; reflexivity. Qed.
