(* ===== verification/WalletActions.v ===== *)
(** * Redeeming, transferring and buying in the wallet

    The other handlers of [features/wallet/index.tsx] with the hooks [use-redemption.ts], [use-affiliate.ts] and
    [use-creem-payment.ts] and their dialogs.  As on the top-up page requests are tasks
    answered in any order. *)

From S2P Require Import Prelude JsString JsNumber JsInteger Json Payment WalletInfo TopupPage.

(** [response.success && response.data] *)
Definition granted (r : Response) : bool := bool_decide (success r = Some true) && json_truthy (data r).


Inductive Task :=
  | FetchingUser (closesTransfer : bool)
  | Redeeming (code : str) | RedeemRefreshing
  | Transferring (quota : num) | TransferRefreshing
  | BuyingCreem (product_id : str).

Inductive Entry :=
  | SentCode (code : str) | Redeemed (quota : option json)
  | SentTransfer (quota : num) | Transferred (text : str)
  | SentCreem (product_id : str) | OpenedTab (address : json)
  | Told (text : str) | Complained (text : str).

Record Wallet := {
  user : option json; userLoading : bool;
  redemptionCode : str; redeeming : bool;
  transferDialogOpen : bool; transferAmount : num; transferring : bool;
  creemDialogOpen : bool; selectedCreemProduct : option CreemProduct; creemProcessing : bool }.

Record State := { wallet : Wallet; tasks : list Task; log : list Entry }.

Definition set_wallet (f : Wallet → Wallet) (s : State) : State := {| wallet := f (wallet s); tasks := tasks s; log := log s |}.
Definition spawn (k : Task) (s : State) : State := {| wallet := wallet s; tasks := tasks s ++ [k]; log := log s |}.
Definition without_task (n : nat) (s : State) : State := {| wallet := wallet s; tasks := delete n (tasks s); log := log s |}.
Definition note (e : Entry) (s : State) : State := {| wallet := wallet s; tasks := tasks s; log := log s ++ [e] |}.

Definition with_user (u : option json) (b : bool) (w : Wallet) : Wallet := {|
  user := u; userLoading := b; redemptionCode := redemptionCode w; redeeming := redeeming w; transferDialogOpen := transferDialogOpen w;
  transferAmount := transferAmount w; transferring := transferring w; creemDialogOpen := creemDialogOpen w;
  selectedCreemProduct := selectedCreemProduct w; creemProcessing := creemProcessing w |}.
Definition with_redemption (code : str) (b : bool) (w : Wallet) : Wallet := {|
  user := user w; userLoading := userLoading w; redemptionCode := code; redeeming := b; transferDialogOpen := transferDialogOpen w;
  transferAmount := transferAmount w; transferring := transferring w; creemDialogOpen := creemDialogOpen w;
  selectedCreemProduct := selectedCreemProduct w; creemProcessing := creemProcessing w |}.
Definition with_transfer (o : bool) (a : num) (b : bool) (w : Wallet) : Wallet := {|
  user := user w; userLoading := userLoading w; redemptionCode := redemptionCode w; redeeming := redeeming w; transferDialogOpen := o;
  transferAmount := a; transferring := b; creemDialogOpen := creemDialogOpen w;
  selectedCreemProduct := selectedCreemProduct w; creemProcessing := creemProcessing w |}.
Definition with_creem (o : bool) (p : option CreemProduct) (b : bool) (w : Wallet) : Wallet := {|
  user := user w; userLoading := userLoading w; redemptionCode := redemptionCode w; redeeming := redeeming w; transferDialogOpen := transferDialogOpen w;
  transferAmount := transferAmount w; transferring := transferring w; creemDialogOpen := o;
  selectedCreemProduct := p; creemProcessing := b |}.

Definition set_redeeming (b : bool) (w : Wallet) : Wallet := with_redemption (redemptionCode w) b w.
Definition set_transferring (b : bool) (w : Wallet) : Wallet := with_transfer (transferDialogOpen w) (transferAmount w) b w.
(** The dialog starts with the smallest amount whenever it opens. *)
Definition set_transfer_dialog (o : bool) (w : Wallet) : Wallet :=
  with_transfer o (if o && negb (transferDialogOpen w) then QUOTA_PER_DOLLAR else transferAmount w) (transferring w) w.

Definition fetchUser (closesTransfer : bool) (s : State) : State :=
  spawn (FetchingUser closesTransfer) (set_wallet (λ w, with_user (user w) true w) s).

Definition user_fetched (closesTransfer : bool) (a : Answer) (s : State) : State :=
  let s := set_wallet (λ w, with_user (match a with Replied r => if granted r then data r else user w | Failed => user w end) false w) s in
  if closesTransfer then set_wallet (set_transfer_dialog false) s else s.

(** ** Redeeming *)

Definition handleRedeem (s : State) : State :=
  let code := redemptionCode (wallet s) in
  if negb (truthy code) then s
  else if negb (truthy (trim code)) then note (Complained (js "Please enter a redemption code")) s
  else spawn (Redeeming code) (note (SentCode code) (set_wallet (set_redeeming true) s)).

Definition REDEEM_FAILED : str := js "Redemption failed".

Definition redeemed (a : Answer) (s : State) : State :=
  match a with
  | Replied r =>
      if granted r then spawn RedeemRefreshing (note (Redeemed (data r)) s)
      else set_wallet (set_redeeming false) (note (Complained (or_text (message r) REDEEM_FAILED)) s)
  | Failed => set_wallet (set_redeeming false) (note (Complained REDEEM_FAILED) s)
  end.

(** [await refreshSelf()] is inside the [try]. *)
Definition redeem_refreshed (a : Answer) (s : State) : State :=
  match a with
  | Replied _ => fetchUser false (set_wallet (with_redemption [] false) s)
  | Failed => set_wallet (set_redeeming false) (note (Complained REDEEM_FAILED) s)
  end.

(** ** Transferring *)

Definition transferQuota (quota : num) (s : State) : State :=
  spawn (Transferring quota) (note (SentTransfer quota) (set_wallet (set_transferring true) s)).

Definition TRANSFER_FAILED : str := js "Transfer failed".

Definition transferred (a : Answer) (s : State) : State :=
  match a with
  | Replied r =>
      if bool_decide (success r = Some true)
      then spawn TransferRefreshing (note (Transferred (or_text (message r) (js "Transfer successful"))) s)
      else set_wallet (set_transferring false) (note (Complained (or_text (message r) TRANSFER_FAILED)) s)
  | Failed => set_wallet (set_transferring false) (note (Complained TRANSFER_FAILED) s)
  end.

Definition transfer_refreshed (a : Answer) (s : State) : State :=
  match a with
  | Replied _ => fetchUser true (set_wallet (set_transferring false) s)
  | Failed => set_wallet (set_transferring false) (note (Complained TRANSFER_FAILED) s)
  end.

(** ** Buying a product *)

Definition handleCreemProductSelect (p : CreemProduct) : State → State := set_wallet (λ w, with_creem true (Some p) (creemProcessing w) w).

Definition handleCreemConfirm (s : State) : State :=
  match selectedCreemProduct (wallet s) with
  | None => s
  | Some p => spawn (BuyingCreem (productId p)) (note (SentCreem (productId p))
                (set_wallet (λ w, with_creem (creemDialogOpen w) (selectedCreemProduct w) true w) s))
  end.

Definition creem_answered (a : Answer) (s : State) : State :=
  let idle := set_wallet (λ w, with_creem (creemDialogOpen w) (selectedCreemProduct w) false w) in
  match a with
  | Replied r =>
      match (if isApiSuccess r then opt_prop (js "checkout_url") (data r) else None) with
      | Some u =>
          if json_truthy (Some u)
          then fetchUser false (set_wallet (with_creem false None false) (note (Told (js "Redirecting to Creem checkout...")) (note (OpenedTab u) s)))
          else idle (note (Complained (or_text (message r) FAILED_TEXT)) s)
      | None => idle (note (Complained (or_text (message r) FAILED_TEXT)) s)
      end
  | Failed => idle (note (Complained FAILED_TEXT) s)
  end.

(** ** Runs *)

Inductive Event :=
  | TypeCode (code : str) | PressRedeem
  | OpenTransfer | TypeTransfer (v : str) | PressTransfer | CloseTransfer
  | ChooseCreem (p : CreemProduct) | PressCreem | CloseCreem
  | Arrived (n : nat) (a : Answer).

Definition arrived (n : nat) (a : Answer) (s : State) : State :=
  let s' := without_task n s in
  match tasks s !! n with
  | Some (FetchingUser b) => user_fetched b a s'
  | Some (Redeeming _) => redeemed a s'
  | Some RedeemRefreshing => redeem_refreshed a s'
  | Some (Transferring _) => transferred a s'
  | Some TransferRefreshing => transfer_refreshed a s'
  | Some (BuyingCreem _) => creem_answered a s'
  | None => s
  end.

Definition step (s : State) (e : Event) : State :=
  let w := wallet s in
  match e with
  | TypeCode code => set_wallet (λ w, with_redemption code (redeeming w) w) s
  | PressRedeem => if redeeming w then s else handleRedeem s
  | OpenTransfer => set_wallet (set_transfer_dialog true) s
  | TypeTransfer v => if transferDialogOpen w then set_wallet (λ w, with_transfer true (number_of_string v) (transferring w) w) s else s
  | PressTransfer => if transferDialogOpen w && negb (transferring w) then transferQuota (transferAmount w) s else s
  | CloseTransfer => set_wallet (set_transfer_dialog false) s
  | ChooseCreem p => handleCreemProductSelect p s
  | PressCreem => if creemDialogOpen w && negb (creemProcessing w) then handleCreemConfirm s else s
  | CloseCreem => set_wallet (λ w, with_creem false (selectedCreemProduct w) (creemProcessing w) w) s
  | Arrived n a => arrived n a s
  end.

Definition start : State := fetchUser false {|
  wallet := {| user := None; userLoading := true; redemptionCode := []; redeeming := false; transferDialogOpen := false; transferAmount := QUOTA_PER_DOLLAR;
               transferring := false; creemDialogOpen := false; selectedCreemProduct := None; creemProcessing := false |};
  tasks := []; log := [] |}.

Definition run (es : list Event) : State := fold_left step es start.
(** * Properties *)

(** What each busy mark stands for. *)
Definition redeems (k : Task) : bool := match k with Redeeming _ | RedeemRefreshing => true | _ => false end.
Definition transfers (k : Task) : bool := match k with Transferring _ | TransferRefreshing => true | _ => false end.
Definition buys (k : Task) : bool := match k with BuyingCreem _ => true | _ => false end.


Definition busy_ok (s : State) : Prop :=
  countb redeems (tasks s) = Nat.b2n (redeeming (wallet s)) ∧ countb transfers (tasks s) = Nat.b2n (transferring (wallet s)) ∧
  countb buys (tasks s) = Nat.b2n (creemProcessing (wallet s)).

Ltac acts := unfold busy_ok in *; cbn [tasks log wallet set_wallet spawn note without_task fetchUser with_user with_redemption with_transfer
  with_creem set_redeeming set_transferring set_transfer_dialog redeeming transferring creemProcessing] in *; rewrite ?countb_snoc in *;
  cbn [redeems transfers buys Nat.b2n] in *.

Lemma user_fetched_ok b a s : busy_ok s → busy_ok (user_fetched b a s).
Proof. intros H. unfold user_fetched. cbv zeta. destruct b; acts; done. Qed.

Lemma step_busy s e : busy_ok s → busy_ok (step s e).
Proof.
  intros H. destruct e as [c| | |v| | |p| | |n a]; cbn [step]; try done.
  - unfold handleRedeem. destruct (redeeming (wallet s)) eqn:E; [done|]. cbv zeta. destruct (negb _); [done|]. destruct (negb _); [done|].
    acts. rewrite E in H. cbn in H. lia.
  - destruct (transferDialogOpen _); [|done]. acts. done.
  - destruct (transferDialogOpen _), (transferring (wallet s)) eqn:E; try done. unfold transferQuota. cbn [andb negb]. acts. rewrite E in H. cbn in H. lia.
  - destruct (creemDialogOpen _), (creemProcessing (wallet s)) eqn:E; try done. unfold handleCreemConfirm. cbn [andb negb].
    destruct (selectedCreemProduct _); [|done]. acts. rewrite E in H. cbn in H. lia.
  - unfold arrived. destruct (tasks s !! n) as [k|] eqn:En; [|done].
    pose proof (countb_delete redeems _ _ _ En) as D1. pose proof (countb_delete transfers _ _ _ En) as D2. pose proof (countb_delete buys _ _ _ En) as D3.
    unfold busy_ok in H. destruct H as (H1 & H2 & H3). rewrite H1 in D1. rewrite H2 in D2. rewrite H3 in D3.
    destruct (redeeming (wallet s)) eqn:E1, (transferring (wallet s)) eqn:E2, (creemProcessing (wallet s)) eqn:E3;
    destruct k; cbn [redeems transfers buys Nat.b2n] in D1, D2, D3; try lia; cbv zeta;
      unfold user_fetched, redeemed, redeem_refreshed, transferred, transfer_refreshed, creem_answered; cbv zeta;
      repeat break_match; acts; rewrite ?E1, ?E2, ?E3; cbn [Nat.b2n]; lia.
Qed.

Lemma run_busy es : busy_ok (run es).
Proof.
  unfold run. assert (busy_ok start) as H by (split_and!; reflexivity). revert H. generalize start. induction es as [|e es IH]; intros s H; [done|].
  cbn [fold_left]. by apply IH, step_busy.
Qed.

(** At most one code is being redeemed, one amount transferred and one product bought, each exactly while its button is busy. *)
Theorem one_action_at_a_time es :
  let s := run es in
  countb redeems (tasks s) = (if redeeming (wallet s) then 1 else 0) ∧ countb transfers (tasks s) = (if transferring (wallet s) then 1 else 0) ∧
  countb buys (tasks s) = (if creemProcessing (wallet s) then 1 else 0).
Proof. cbv zeta. destruct (run_busy es) as (H1 & H2 & H3). rewrite H1, H2, H3. by destruct (redeeming _), (transferring _), (creemProcessing _). Qed.

Definition accepted : Answer := Replied {| success := Some true; message := None; data := Some (JNum (num_of_Z 500000)); url := None |}.

(** A code that was redeemed is reported as failed, and stays in the field, if the profile cannot be read afterwards. *)
Lemma redeemed_code_reported_failed :
  let s := run [Arrived 0 accepted; TypeCode (js "abc"); PressRedeem; Arrived 0 accepted; Arrived 0 Failed] in
  log s = [SentCode (js "abc"); Redeemed (Some (JNum (num_of_Z 500000))); Complained REDEEM_FAILED] ∧ redemptionCode (wallet s) = js "abc" ∧ tasks s = [].
Proof. vm_compute. split_and!; reflexivity. Qed.

(** The same for a transfer, which the open dialog then lets the user repeat. *)
Lemma transfer_repeated :
  log (run [Arrived 0 accepted; OpenTransfer; PressTransfer; Arrived 0 accepted; Arrived 0 Failed; PressTransfer]) =
  [SentTransfer QUOTA_PER_DOLLAR; Transferred (js "Transfer successful"); Complained TRANSFER_FAILED; SentTransfer QUOTA_PER_DOLLAR].
Proof. vm_compute. reflexivity. Qed.

(** The minimum the dialog names is not checked. *)
Lemma transfer_below_minimum_sent : log (run [Arrived 0 accepted; OpenTransfer; TypeTransfer (js "1"); PressTransfer]) = [SentTransfer (num_of_Z 1)].
Proof. vm_compute. reflexivity. Qed.
