(* ===== verification/WalletPage.v ===== *)
(** * The wallet page

    The top-up part ([TopupPage]) and the other actions ([WalletActions]) of [features/wallet/index.tsx] together: they share the page, and a payment that
    is under way reads the user again.  The tab with subscriptions places orders of its own, which are not modelled. *)

From S2P Require Import Prelude JsString JsNumber JsInteger Json Payment WalletInfo TopupPage TopupFacts WalletActions.

Record WalletPage := { topup : TopupPage.Page; actions : WalletActions.State }.

Inductive WalletEvent := OnTopup (e : TopupPage.Event) | OnActions (e : WalletActions.Event).

Section page.
Context (toLowerCase t : str → str) (url_protocol : str → option str).

(** [await fetchUser()] after a payment that is under way. *)
Definition refreshes (l l' : list TopupPage.Entry) : bool :=
  existsb (λ e, match e with TopupPage.UserRefreshed => true | _ => false end) (drop (length l) l').

Definition wallet_step (w : WalletPage) (e : WalletEvent) : WalletPage :=
  match e with
  | OnTopup e =>
      let p := TopupPage.step toLowerCase t url_protocol (topup w) e in
      {| topup := p; actions := if refreshes (TopupPage.log (topup w)) (TopupPage.log p) then fetchUser false (actions w) else actions w |}
  | OnActions e => {| topup := topup w; actions := WalletActions.step (actions w) e |}
  end.

Definition wallet_start : WalletPage := {| topup := TopupPage.start; actions := WalletActions.start |}.

Definition wallet_run (es : list WalletEvent) : WalletPage := fold_left wallet_step es wallet_start.

(** ** The parts of a run *)

Definition topup_event (e : WalletEvent) : option TopupPage.Event := match e with OnTopup e => Some e | OnActions _ => None end.

Lemma topup_of_run es : topup (wallet_run es) = TopupPage.run toLowerCase t url_protocol (omap topup_event es).
Proof.
  unfold wallet_run, TopupPage.run. change TopupPage.start with (topup wallet_start). generalize wallet_start.
  induction es as [|[e|e] es IH]; intros w; [done|..]; cbn [omap list_omap topup_event fold_left]; by rewrite IH.
Qed.

Lemma actions_busy es : busy_ok (actions (wallet_run es)).
Proof.
  unfold wallet_run. assert (busy_ok (actions wallet_start)) as H by (split_and!; reflexivity). revert H. generalize wallet_start.
  induction es as [|[e|e] es IH]; intros w H; [done|..]; cbn [fold_left]; apply IH; cbn [wallet_step actions].
  - destruct (refreshes _ _); [|done]. acts. destruct H as (H1 & H2 & H3). by rewrite !Nat.add_0_r.
  - by apply step_busy.
Qed.

(** ** Orders *)

Definition products_of (l : list WalletActions.Entry) : list str := omap (λ e, match e with SentCreem id => Some id | _ => None end) l.

Lemma products_snoc l e : products_of (l ++ [e]) = products_of l ++ match e with SentCreem id => [id] | _ => [] end.
Proof. unfold products_of. rewrite omap_app. by destruct e. Qed.

(** A product is ordered only by confirming it in its dialog. *)
Lemma products_placed s e :
  let s' := WalletActions.step s e in
  products_of (log s') = products_of (log s) ∨
  (∃ p, e = PressCreem ∧ creemDialogOpen (wallet s) = true ∧ creemProcessing (wallet s) = false ∧ selectedCreemProduct (wallet s) = Some p ∧
        products_of (log s') = products_of (log s) ++ [productId p]).
Proof.
  cbv zeta. destruct e as [c| | |v| | |p| | |n a]; cbn [WalletActions.step]; try (left; reflexivity).
  - left. destruct (redeeming _); [done|]. unfold handleRedeem. cbv zeta. destruct (negb _); [done|]. destruct (negb _); acts; by rewrite products_snoc, app_nil_r.
  - left. by destruct (transferDialogOpen _).
  - left. destruct (_ && _); [|done]. unfold transferQuota. acts. by rewrite products_snoc, app_nil_r.
  - destruct (creemDialogOpen (wallet s)) eqn:Ed, (creemProcessing (wallet s)) eqn:Ep; try (left; reflexivity). cbn [andb negb].
    unfold handleCreemConfirm. destruct (selectedCreemProduct (wallet s)) as [p|] eqn:Es; [|by left]. right. exists p. split_and!; [done..|]. acts. by rewrite products_snoc.
  - left. unfold WalletActions.arrived. destruct (tasks s !! n) as [k|]; [|done]. cbv zeta.
    destruct k; unfold user_fetched, redeemed, redeem_refreshed, transferred, transfer_refreshed, creem_answered; cbv zeta;
      repeat break_match; acts; rewrite ?products_snoc, ?app_nil_r; done.
Qed.

(** C22: Whatever the user does and in whatever order answers come: a price that is on screen is the server's answer to the latest price request, zero if
    there is none or the answer was of no use; while the payment dialog is open that request was for the amount and the method the dialog shows, and the
    price is positive.  Orders of top-ups and products are placed only by confirming in the payment dialog, for the method it shows and the amount that was
    quoted, except that Waffo Pancake gets the amount rounded down; by a Waffo button, for the amount rounded down; or by confirming in the dialog of a
    product, for the product it shows.  At most one confirmed top-up and one product are pending.  (Subscriptions are ordered elsewhere.) *)
Theorem payments_confirmed_as_quoted es :
  let w := wallet_run es in
  let s := topup w in
  (calculating (hooks s) = false →
     amount (hooks s) = match last_quote (TopupPage.log s) with Some (_, _, Some p) => p | _ => pzero end) ∧
  (confirmDialogOpen (card s) = true → ∃ m id, selectedPaymentMethod (card s) = Some m ∧
     last_quote (TopupPage.log s) =
       Some (id, quote_request (normalizeTopupAmount (topupAmount (card s))) (type m) (resolvePaymentProvider m (base_info (card s))), Some (amount (hooks s))) ∧
     is_finite (amount (hooks s)) = true ∧ nlt pzero (amount (hooks s)) = true) ∧
  (∀ e, let w' := wallet_step w e in
     let same_topups := orders_of (TopupPage.log (topup w')) = orders_of (TopupPage.log s) in
     let same_products := products_of (log (actions w')) = products_of (log (actions w)) in
     (same_topups ∧ same_products)
     ∨ (∃ m o, e = OnTopup Confirm ∧ confirmDialogOpen (card s) = true ∧ confirm_disabled (hooks s) = false ∧ selectedPaymentMethod (card s) = Some m ∧
               o = (if isWaffoPancakePayment (type m) then PancakeOrder (math_floor (topupAmount (card s)))
                    else order_request (normalizeTopupAmount (topupAmount (card s))) (type m) (resolvePaymentProvider m (base_info (card s)))) ∧
               orders_of (TopupPage.log (topup w')) = orders_of (TopupPage.log s) ++ [o] ∧ same_products)
     ∨ (∃ n, e = OnTopup (ChooseWaffo n) ∧
             orders_of (TopupPage.log (topup w')) = orders_of (TopupPage.log s) ++ [WaffoOrder (math_floor (topupAmount (card s))) n] ∧ same_products)
     ∨ (∃ p, e = OnActions PressCreem ∧ creemDialogOpen (wallet (actions w)) = true ∧ selectedCreemProduct (wallet (actions w)) = Some p ∧ same_topups ∧
             products_of (log (actions w')) = products_of (log (actions w)) ++ [productId p])) ∧
  countb (λ k, match k with Paying _ => true | _ => false end) (TopupPage.tasks s) ≤ 1 ∧ countb buys (tasks (actions w)) ≤ 1.
Proof.
  cbv zeta. pose proof (topup_as_quoted toLowerCase t url_protocol (omap topup_event es)) as H. cbv zeta in H. rewrite <- topup_of_run in H.
  destruct H as (H1 & H2 & H3 & H4). split_and!; [done|exact H2| |done|].
  - intros [e|e]; cbn [wallet_step topup actions].
    + assert (∀ l l', products_of (log (if refreshes l l' then fetchUser false (actions (wallet_run es)) else actions (wallet_run es))) =
        products_of (log (actions (wallet_run es)))) as Hp by (intros l l'; by destruct (refreshes l l')).
      destruct (H3 e) as [H|[(m & o & -> & Hd & Hc & Hm & Ho & H)|(n & -> & H)]].
      * left. by split.
      * right; left. by exists m, o.
      * right; right; left. by exists n.
    + destruct (products_placed (actions (wallet_run es)) e) as [H|(p & -> & Hd & _ & Hs & H)]; [by left|]. right; right; right. by exists p.
  - destruct (actions_busy es) as (_ & _ & ->). by destruct (creemProcessing _); cbn; [|lia].
Qed.
End page.
