(* ===== verification/BillingHistory.v ===== *)
(** * The order history of the wallet

    [features/wallet/hooks/use-billing-history.ts] and the handlers of [components/dialogs/billing-history-dialog.tsx].  Requests are tasks answered in
    any order; a changed page, size or search is fetched by the effect that follows it. *)

From S2P Require Import Prelude JsString JsNumber JsInteger Json Payment WalletInfo TopupPage.

Record Query := { q_page : Z; q_size : Z; q_keyword : str }.
#[global] Instance Query_eq : EqDecision Query.
Proof. solve_decision. Defined.

Inductive Task := Fetching (q : Query) | Completing (tradeNo : str) (shown : Query) | Refreshing (q : Query).

Record State := {
  query : Query; records : list json; total : num; loading : bool; completing : bool; confirmTradeNo : option str;
  tasks : list Task; sent : list (bool * Query); completed : list str; told : list str }.

Definition LOAD_FAILED : str := js "Failed to load billing history".

Definition with_records (rs : list json) (n : num) (s : State) : State := {|
  query := query s; records := rs; total := n; loading := false; completing := completing s; confirmTradeNo := confirmTradeNo s;
  tasks := tasks s; sent := sent s; completed := completed s; told := told s |}.
Definition tell (m : str) (s : State) : State := {|
  query := query s; records := records s; total := total s; loading := loading s; completing := completing s; confirmTradeNo := confirmTradeNo s;
  tasks := tasks s; sent := sent s; completed := completed s; told := told s ++ [m] |}.
Definition with_tasks (l : list Task) (s : State) : State := {|
  query := query s; records := records s; total := total s; loading := loading s; completing := completing s; confirmTradeNo := confirmTradeNo s;
  tasks := l; sent := sent s; completed := completed s; told := told s |}.
Definition with_completing (b : bool) (trade : option str) (s : State) : State := {|
  query := query s; records := records s; total := total s; loading := loading s; completing := b; confirmTradeNo := trade;
  tasks := tasks s; sent := sent s; completed := completed s; told := told s |}.

(** The items and the total of an answer. *)
Definition history_of (r : Response) : option (list json * num) :=
  if isApiSuccess r && json_truthy (data r)
  then Some (match opt_prop (js "items") (data r) with Some (JArr l) => l | _ => [] end,
             match opt_prop (js "total") (data r) with Some (JNum n) => or_zero n | _ => pzero end)
  else None.

(** [Math.ceil(total / pageSize)] *)
Definition totalPages (s : State) : num := SFopp (math_floor (SFopp (ndiv (total s) (num_of_Z (q_size (query s)))))).

(** The question whether to complete an order is in front of the list. *)
Definition dialog (s : State) : bool := match confirmTradeNo s with Some _ => true | None => false end.

Section history.
Context (isAdmin : bool).

(** The request goes to all orders for an administrator and to the user's own otherwise. *)
Definition fetchBillingHistory (k : Query → Task) (q : Query) (s : State) : State := {|
  query := query s; records := records s; total := total s; loading := true; completing := completing s; confirmTradeNo := confirmTradeNo s;
  tasks := tasks s ++ [k q]; sent := sent s ++ [(isAdmin, q)]; completed := completed s; told := told s |}.

Definition history_fetched (a : Answer) (s : State) : State :=
  match a with
  | Replied r =>
      match history_of r with
      | Some (items, n) => with_records items n s
      | None => with_records [] pzero (tell (or_text (message r) LOAD_FAILED) s)
      end
  | Failed => with_records [] pzero (tell LOAD_FAILED s)
  end.

(** A changed query is fetched by the effect that follows. *)
Definition set_query (q : Query) (s : State) : State :=
  let s' := {| query := q; records := records s; total := total s; loading := loading s; completing := completing s; confirmTradeNo := confirmTradeNo s;
               tasks := tasks s; sent := sent s; completed := completed s; told := told s |} in
  if bool_decide (q = query s) then s' else fetchBillingHistory Fetching q s'.

Definition handlePageChange (p : Z) (s : State) : State := set_query {| q_page := p; q_size := q_size (query s); q_keyword := q_keyword (query s) |} s.
Definition handlePageSizeChange (n : Z) (s : State) : State := set_query {| q_page := 1; q_size := n; q_keyword := q_keyword (query s) |} s.
Definition handleSearch (k : str) (s : State) : State := set_query {| q_page := 1; q_size := q_size (query s); q_keyword := k |} s.

Definition handleCompleteOrder (tradeNo : str) (s : State) : State :=
  if negb isAdmin then tell (js "Admin access required") s
  else let s := with_completing true (confirmTradeNo s) s in
       {| query := query s; records := records s; total := total s; loading := loading s; completing := completing s; confirmTradeNo := confirmTradeNo s;
          tasks := tasks s ++ [Completing tradeNo (query s)]; sent := sent s; completed := completed s ++ [tradeNo]; told := told s |}.

Definition COMPLETE_FAILED : str := js "Failed to complete order".

(** The list is refreshed with the query that was on screen when the order was confirmed. *)
Definition order_completed (shown : Query) (a : Answer) (s : State) : State :=
  match a with
  | Replied r =>
      if isApiSuccess r then fetchBillingHistory Refreshing shown (tell (js "Order completed successfully") s)
      else with_completing false (confirmTradeNo s) (tell (or_text (message r) COMPLETE_FAILED) s)
  | Failed => with_completing false (confirmTradeNo s) (tell COMPLETE_FAILED s)
  end.

Inductive Event :=
  | PrevPage | NextPage | SetSize (n : Z) | Search (k : str)
  | AskComplete (tradeNo : str) | CancelComplete | ConfirmComplete
  | Arrived (n : nat) (a : Answer).

Definition step (s : State) (e : Event) : State :=
  match e with
  | PrevPage => if dialog s || (q_page (query s) <=? 1)%Z then s else handlePageChange (q_page (query s) - 1) s
  | NextPage => if dialog s || nle (totalPages s) (num_of_Z (q_page (query s))) then s else handlePageChange (q_page (query s) + 1) s
  | SetSize n => if dialog s then s else handlePageSizeChange n s
  | Search k => if dialog s then s else handleSearch k s
  | AskComplete trade => if isAdmin && negb (completing s) then with_completing (completing s) (Some trade) s else s
  | CancelComplete => with_completing (completing s) None s
  | ConfirmComplete =>
      match confirmTradeNo s with
      | Some trade => if truthy trade && negb (completing s) then handleCompleteOrder trade s else s
      | None => s
      end
  | Arrived n a =>
      let s' := with_tasks (delete n (tasks s)) s in
      match tasks s !! n with
      | Some (Fetching _) => history_fetched a s'
      | Some (Completing _ shown) => order_completed shown a s'
      | Some (Refreshing _) => with_completing false None (history_fetched a s')
      | None => s
      end
  end.

Definition start : State := fetchBillingHistory Fetching {| q_page := 1; q_size := 10; q_keyword := [] |} {|
  query := {| q_page := 1; q_size := 10; q_keyword := [] |}; records := []; total := pzero; loading := false; completing := false; confirmTradeNo := None;
  tasks := []; sent := []; completed := []; told := [] |}.

Definition run (es : list Event) : State := fold_left step es start.
End history.

(** * Properties *)

Lemma sent_only_own_step s e isAdmin : Forall (λ x, fst x = isAdmin) (sent s) → (isAdmin = false → completed s = []) →
  let s' := step isAdmin s e in Forall (λ x, fst x = isAdmin) (sent s') ∧ (isAdmin = false → completed s' = []).
Proof.
  intros H Hc. cbv zeta.
  assert (∀ k q s, Forall (λ x, fst x = isAdmin) (sent s) → Forall (λ x, fst x = isAdmin) (sent (fetchBillingHistory isAdmin k q s))) as Hf.
  { intros k q u Hu. apply Forall_app. split; [done|]. by constructor. }
  assert (∀ q s, Forall (λ x, fst x = isAdmin) (sent s) → (isAdmin = false → completed s = []) →
    Forall (λ x, fst x = isAdmin) (sent (set_query isAdmin q s)) ∧ (isAdmin = false → completed (set_query isAdmin q s) = [])) as Hq.
  { intros q u Hu Hcu. unfold set_query. cbv zeta. case_bool_decide; [done|]. split; [by apply Hf|done]. }
  assert (∀ a u, sent (history_fetched a u) = sent u ∧ completed (history_fetched a u) = completed u) as Hh.
  { intros a u. unfold history_fetched. by repeat break_match. }
  destruct e as [| |n|k|trade| | |n a]; cbn [step].
  - destruct (_ || _); [done|]. by apply Hq.
  - destruct (_ || _); [done|]. by apply Hq.
  - destruct (dialog s); [done|]. by apply Hq.
  - destruct (dialog s); [done|]. by apply Hq.
  - by destruct (_ && _).
  - done.
  - destruct (confirmTradeNo s); [|done]. destruct (_ && _); [|done]. unfold handleCompleteOrder. cbv zeta. by destruct isAdmin.
  - destruct (tasks s !! n) as [[q|trade shown|q]|]; [..|done]; cbv zeta.
    + destruct (Hh a (with_tasks (delete n (tasks s)) s)) as [-> ->]. done.
    + unfold order_completed. destruct a as [r|]; [|done]. destruct (isApiSuccess r); [|done]. split; [by apply Hf|done].
    + cbn [sent completed with_completing]. destruct (Hh a (with_tasks (delete n (tasks s)) s)) as [-> ->]. done.
Qed.

(** A user who is not an administrator asks for his own orders only and completes none. *)
Theorem history_unprivileged es : let s := run false es in Forall (λ x, fst x = false) (sent s) ∧ completed s = [].
Proof.
  cbv zeta. unfold run.
  assert (Forall (λ x, fst x = false) (sent (start false)) ∧ completed (start false) = []) as H by (split; [by repeat constructor|done]).
  revert H. generalize (start false). induction es as [|e es IH]; intros s [H1 H2]; [done|]. cbn [fold_left]. apply IH.
  destruct (sent_only_own_step s e false H1 (λ _, H2)) as [H3 H4]. by split; [|apply H4].
Qed.

Definition done_answer : Answer := Replied {| success := Some true; message := None; data := None; url := None |}.

Definition items_answer (id : Z) (n : Z) : Answer :=
  Replied {| success := Some true; message := None; url := None;
             data := Some (JObj [(js "items", JArr [JNum (num_of_Z id)]); (js "total", JNum (num_of_Z n))]) |}.

(** Answers are not told apart: the orders of an older search are shown for a newer one if they come later. *)
Lemma late_orders_shown :
  let s := run false [Arrived 0 (items_answer 1 1); Search (js "a"); Search (js "ab"); Arrived 1 (items_answer 3 1); Arrived 0 (items_answer 2 1)] in
  q_keyword (query s) = js "ab" ∧ records s = [JNum (num_of_Z 2)] ∧ loading s = false ∧ tasks s = [].
Proof. vm_compute. split_and!; reflexivity. Qed.

(** Completing an order reads again the page that was on screen when it was confirmed, whatever is on screen now. *)
Lemma completed_order_shows_old_page :
  let s := run true [Arrived 0 (items_answer 1 30); AskComplete (js "t"); ConfirmComplete; CancelComplete; NextPage; Arrived 1 (items_answer 2 30);
                     Arrived 0 done_answer; Arrived 0 (items_answer 1 30)] in
  q_page (query s) = 2%Z ∧ records s = [JNum (num_of_Z 1)] ∧ tasks s = [].
Proof. vm_compute. split_and!; reflexivity. Qed.
