(* ===== verification/ChannelUpstream.v ===== *)
(** * Upstream model updates of channels

    [features/channels/lib/upstream-update-utils.ts], the hook [use-channel-upstream-updates.ts] and the dialog
    [components/dialogs/upstream-update-dialog.tsx], which [channels-dialogs.tsx] mounts once with the page.  The server keeps, in the settings of a
    channel, the models it found to add and to remove; an administrator chooses among them.  Requests are tasks answered in any order. *)

From S2P Require Import Prelude JsString JsNumber Json.

(** ** Reading the settings *)

Definition model_text (v : json) : str := if json_truthy (Some v) then json_to_string v else [].

Definition normalize_names (l : list str) : list str := array_of_set (List.filter truthy (map trim l)).

(** [.map] of a value that is no array throws. *)
Definition normalizeModelList (v : option json) : outcome (list str) :=
  if negb (json_truthy v) then Ret []
  else match v with Some (JArr l) => Ret (normalize_names (map model_text l)) | _ => Throw end.

Record UpdateMeta := { enabled : bool; pendingAddModels : list str; pendingRemoveModels : list str }.

Definition no_updates : UpdateMeta := {| enabled := false; pendingAddModels := []; pendingRemoveModels := [] |}.

Definition parseUpstreamUpdateMeta (settings : option json) : outcome UpdateMeta :=
  let parsed := match settings with
                | Some (JObj o) => Some (JObj o)
                | Some (JStr s) => json_parse s
                | _ => None
                end in
  match parsed with
  | Some (JObj _) | Some (JArr _) =>
      add ← normalizeModelList (opt_prop (js "upstream_model_update_last_detected_models") parsed);
      rem ← normalizeModelList (opt_prop (js "upstream_model_update_last_removed_models") parsed);
      Ret {| enabled := bool_decide (opt_prop (js "upstream_model_update_check_enabled") parsed = Some (JBool true));
             pendingAddModels := add; pendingRemoveModels := rem |}
  | _ => Ret no_updates
  end.

Definition getManualIgnoredModelCount (settings : option json) : outcome nat :=
  let parsed := match settings with
                | Some (JObj _) | Some (JArr _) => settings
                | Some (JStr s) => json_parse s
                | _ => None
                end in
  if negb (json_truthy parsed) then Ret 0
  else l ← normalizeModelList (opt_prop (js "upstream_model_update_ignored_models") parsed); Ret (length l).

(** ** The hook and the dialog *)

Inductive Tab := AddTab | RemoveTab.

Record ApplyRequest := { ar_id : Z; add_models : list str; ignore_models : list str; remove_models : list str }.

(** The four requests. *)
Inductive Kind := Apply (r : ApplyRequest) | ApplyAll | Detect (id : Z) | DetectAll.

(** A request, and the refresh of the table that follows its success. *)
Inductive Task := Calling (k : Kind) | Refreshing (k : Kind).

Inductive Answer :=
  | Replied (success : bool) (message : option str) (data : option json)
  | Raised (response_message error_message : option str).

(** [Thrown] is the report of an exception whose text is the engine's. *)
Inductive Entry := Sent (k : Kind) | Succeeded (k : Kind) (counts : list nat) | Informed (text : str) | Complained (text : str) | Thrown.

Record Hook := {
  showModal : bool; channel : option Z; addModels : list str; removeModels : list str; preferredTab : Tab;
  applyRef : bool; applyAllRef : bool; detectRef : bool; detectAllRef : bool }.

Record Dialog := {
  activeTab : Tab; searchAdd : str; searchRemove : str; selectedAdd : list str; selectedRemove : list str; partialConfirmOpen : bool }.

Record State := { hook : Hook; dialog : Dialog; tasks : list Task; log : list Entry }.

Definition set_hook (f : Hook → Hook) (s : State) : State := {| hook := f (hook s); dialog := dialog s; tasks := tasks s; log := log s |}.
Definition set_dialog (f : Dialog → Dialog) (s : State) : State := {| hook := hook s; dialog := f (dialog s); tasks := tasks s; log := log s |}.
Definition spawn (k : Task) (s : State) : State := {| hook := hook s; dialog := dialog s; tasks := tasks s ++ [k]; log := log s |}.
Definition without_task (n : nat) (s : State) : State := {| hook := hook s; dialog := dialog s; tasks := delete n (tasks s); log := log s |}.
Definition note (e : Entry) (s : State) : State := {| hook := hook s; dialog := dialog s; tasks := tasks s; log := log s ++ [e] |}.

Definition with_modal (b : bool) (c : option Z) (add rem : list str) (t : Tab) (h : Hook) : Hook := {|
  showModal := b; channel := c; addModels := add; removeModels := rem; preferredTab := t;
  applyRef := applyRef h; applyAllRef := applyAllRef h; detectRef := detectRef h; detectAllRef := detectAllRef h |}.

(** The mark that a request of a kind is under way; the loading flags of the page have the same value. *)
Definition busy (k : Kind) (h : Hook) : bool :=
  match k with Apply _ => applyRef h | ApplyAll => applyAllRef h | Detect _ => detectRef h | DetectAll => detectAllRef h end.

Definition set_busy (k : Kind) (b : bool) (h : Hook) : Hook := {|
  showModal := showModal h; channel := channel h; addModels := addModels h; removeModels := removeModels h; preferredTab := preferredTab h;
  applyRef := match k with Apply _ => b | _ => applyRef h end;
  applyAllRef := match k with ApplyAll => b | _ => applyAllRef h end;
  detectRef := match k with Detect _ => b | _ => detectRef h end;
  detectAllRef := match k with DetectAll => b | _ => detectAllRef h end |}.

Definition nonzero (id : option Z) : option Z := match id with Some z => if (z =? 0)%Z then None else Some z | None => None end.

Definition openModal (record : option Z) (pendingAdd pendingRemove : list str) (tab : Tab) (s : State) : State :=
  let normAdd := normalize_names pendingAdd in
  let normRemove := normalize_names pendingRemove in
  match nonzero record, normAdd ++ normRemove with
  | None, _ | _, [] => note (Informed (js "No processable upstream model updates for this channel")) s
  | Some id, _ => set_hook (with_modal true (Some id) normAdd normRemove tab) s
  end.

Definition closeModal : State → State := set_hook (with_modal false None [] [] AddTab).

Definition send (k : Kind) (s : State) : State := spawn (Calling k) (note (Sent k) (set_hook (set_busy k true) s)).

Definition applyUpdates (add rem : list str) (s : State) : State :=
  if applyRef (hook s) then s
  else match nonzero (channel (hook s)) with
       | None => closeModal s
       | Some id =>
           let normSelectedAdd := normalize_names add in
           send (Apply {| ar_id := id; add_models := normSelectedAdd;
                          ignore_models := List.filter (λ m, negb (set_has m normSelectedAdd)) (addModels (hook s));
                          remove_models := normalize_names rem |}) s
       end.

Definition applyAllUpdates (s : State) : State := if applyAllRef (hook s) then s else send ApplyAll s.
Definition detectAllUpdates (s : State) : State := if detectAllRef (hook s) then s else send DetectAll s.
Definition detectChannelUpdates (id : option Z) (s : State) : State :=
  if detectRef (hook s) then s else match nonzero id with None => s | Some z => send (Detect z) s end.

(** ** Answers *)

Definition failed_text (k : Kind) : str :=
  match k with
  | Apply _ => js "Operation failed" | ApplyAll => js "Batch processing failed"
  | Detect _ => js "Detection failed" | DetectAll => js "Batch detection failed"
  end.

Definition or_text (m : option str) (d : str) : str := match m with Some s => if truthy s then s else d | None => d end.

(** [x?.length || 0] and [x || 0] of a count *)
Definition list_length (v : option json) : nat := match v with Some (JArr l) => length l | Some (JStr s) => length s | _ => 0 end.
Definition count_of (v : option json) : nat :=
  match v with Some (JNum x) => match integer_of x with Some z => Z.to_nat z | None => 0 end | _ => 0 end.

(** The numbers in the message of success. *)
Definition success_counts (k : Kind) (data : option json) : outcome (list nat) :=
  let d p := opt_prop (js p) data in
  match k with
  | Apply r => total ← getManualIgnoredModelCount (d "settings"%string);
               Ret [list_length (d "added_models"%string); list_length (d "removed_models"%string); length (normalize_names (ignore_models r)); total]
  | ApplyAll => Ret [count_of (d "processed_channels"%string); count_of (d "added_models"%string); count_of (d "removed_models"%string); list_length (d "failed_channel_ids"%string)]
  | Detect _ => Ret [list_length (d "add_models"%string); list_length (d "remove_models"%string)]
  | DetectAll => Ret [count_of (d "processed_channels"%string); count_of (d "detected_add_models"%string); count_of (d "detected_remove_models"%string); list_length (d "failed_channel_ids"%string)]
  end.

(** The [catch] and the [finally]. *)
Definition fail (k : Kind) (e : Entry) (s : State) : State := set_hook (set_busy k false) (note e s).

Definition called (k : Kind) (a : Answer) (s : State) : State :=
  match a with
  | Replied true _ data =>
      match success_counts k data with
      | Ret counts =>
          let s := note (Succeeded k counts) s in
          spawn (Refreshing k) (match k with Apply _ => closeModal s | _ => s end)
      | Throw => fail k Thrown s
      end
  | Replied false m _ => fail k (Complained (or_text m (failed_text k))) s
  | Raised r m => fail k (Complained (or_text r (or_text m (failed_text k)))) s
  end.

Definition refreshed (k : Kind) (a : Answer) (s : State) : State :=
  match a with
  | Raised r m => fail k (Complained (or_text r (or_text m (failed_text k)))) s
  | _ => set_hook (set_busy k false) s
  end.

(** ** The dialog *)

Section dialog.
Context (toLowerCase : str → str).

Definition filtered (search : str) (models : list str) : list str := List.filter (λ m, includes (toLowerCase search) (toLowerCase m)) models.

Definition set_delete (m : str) (l : list str) : list str := List.filter (λ x, negb (bool_decide (x = m))) l.

Definition toggleModel (m : str) (l : list str) : list str := if set_has m l then set_delete m l else set_add l m.

Definition toggleAllVisible (models l : list str) : list str :=
  if forallb (λ m, set_has m l) models then fold_left (λ l m, set_delete m l) models l else fold_left set_add models l.

Definition select_add (l : list str) (d : Dialog) : Dialog := {|
  activeTab := activeTab d; searchAdd := searchAdd d; searchRemove := searchRemove d; selectedAdd := l; selectedRemove := selectedRemove d;
  partialConfirmOpen := partialConfirmOpen d |}.
Definition select_remove (l : list str) (d : Dialog) : Dialog := {|
  activeTab := activeTab d; searchAdd := searchAdd d; searchRemove := searchRemove d; selectedAdd := selectedAdd d; selectedRemove := l;
  partialConfirmOpen := partialConfirmOpen d |}.
Definition set_search (t : Tab) (v : str) (d : Dialog) : Dialog := {|
  activeTab := activeTab d; searchAdd := match t with AddTab => v | RemoveTab => searchAdd d end;
  searchRemove := match t with AddTab => searchRemove d | RemoveTab => v end;
  selectedAdd := selectedAdd d; selectedRemove := selectedRemove d; partialConfirmOpen := partialConfirmOpen d |}.
Definition set_tab (t : Tab) (d : Dialog) : Dialog := {|
  activeTab := t; searchAdd := searchAdd d; searchRemove := searchRemove d; selectedAdd := selectedAdd d; selectedRemove := selectedRemove d;
  partialConfirmOpen := partialConfirmOpen d |}.
Definition set_partial (b : bool) (d : Dialog) : Dialog := {|
  activeTab := activeTab d; searchAdd := searchAdd d; searchRemove := searchRemove d; selectedAdd := selectedAdd d; selectedRemove := selectedRemove d;
  partialConfirmOpen := b |}.

Definition is_nil {A} (l : list A) : bool := match l with [] => true | _ => false end.

Definition handleConfirm (s : State) : State :=
  let d := dialog s in
  if negb (is_nil (addModels (hook s))) && negb (is_nil (removeModels (hook s))) && negb (Bool.eqb (is_nil (selectedAdd d)) (is_nil (selectedRemove d)))
  then set_dialog (set_partial true) s
  else applyUpdates (selectedAdd d) (selectedRemove d) s.

(** ** Runs *)

Inductive Event :=
  | OpenFor (id : Z) (settings : option json) (tab : Tab)
  | Cancel
  | ShowTab (t : Tab) | SearchIn (t : Tab) (v : str)
  | ToggleIn (t : Tab) (n : nat) | ToggleVisible (t : Tab)
  | PressConfirm | AnswerPartial (yes : bool)
  | PressApplyAll | PressDetectAll | PressDetect (id : Z)
  | Arrived (n : nat) (a : Answer).

(** The list of a tab, what is visible of it, and the selection in it. *)
Definition visible (t : Tab) (s : State) : list str :=
  match t with AddTab => filtered (searchAdd (dialog s)) (addModels (hook s)) | RemoveTab => filtered (searchRemove (dialog s)) (removeModels (hook s)) end.
Definition selection (t : Tab) (d : Dialog) : list str := match t with AddTab => selectedAdd d | RemoveTab => selectedRemove d end.
Definition set_selection (t : Tab) (l : list str) : Dialog → Dialog := match t with AddTab => select_add l | RemoveTab => select_remove l end.

Definition inputs (s : State) : bool := showModal (hook s) && negb (partialConfirmOpen (dialog s)).

Definition step (s : State) (e : Event) : State :=
  match e with
  | OpenFor id settings tab =>
      if showModal (hook s) then s
      else match parseUpstreamUpdateMeta settings with
           | Ret m => openModal (Some id) (pendingAddModels m) (pendingRemoveModels m) tab s
           | Throw => s
           end
  | Cancel => if inputs s then closeModal s else s
  | ShowTab t => if inputs s then set_dialog (set_tab t) s else s
  | SearchIn t v => if inputs s then set_dialog (set_search t v) s else s
  | ToggleIn t n =>
      if inputs s then match visible t s !! n with
                       | Some m => set_dialog (set_selection t (toggleModel m (selection t (dialog s)))) s
                       | None => s
                       end
      else s
  | ToggleVisible t =>
      if inputs s && negb (is_nil (visible t s)) then set_dialog (set_selection t (toggleAllVisible (visible t s) (selection t (dialog s)))) s else s
  | PressConfirm =>
      if inputs s && negb (applyRef (hook s)) && negb (is_nil (addModels (hook s)) && is_nil (removeModels (hook s))) then handleConfirm s else s
  | AnswerPartial yes =>
      if partialConfirmOpen (dialog s)
      then let s := set_dialog (set_partial false) s in
           if yes then applyUpdates (selectedAdd (dialog s)) (selectedRemove (dialog s)) s else s
      else s
  | PressApplyAll => applyAllUpdates s
  | PressDetectAll => detectAllUpdates s
  | PressDetect id => detectChannelUpdates (Some id) s
  | Arrived n a =>
      match tasks s !! n with
      | Some (Calling k) => called k a (without_task n s)
      | Some (Refreshing k) => refreshed k a (without_task n s)
      | None => s
      end
  end.

(** The dialog is mounted with the page, when there is nothing to choose from. *)
Definition start : State := {|
  hook := {| showModal := false; channel := None; addModels := []; removeModels := []; preferredTab := AddTab;
             applyRef := false; applyAllRef := false; detectRef := false; detectAllRef := false |};
  dialog := {| activeTab := AddTab; searchAdd := []; searchRemove := []; selectedAdd := []; selectedRemove := []; partialConfirmOpen := false |};
  tasks := []; log := [] |}.

Definition run (es : list Event) : State := fold_left step es start.
End dialog.

(** * Properties of the upstream model updates

    Every pending addition is either added or ignored, as it was selected, and a request for one channel names only models that are pending for it as long as the
    dialog is opened once; requests of a kind are made one at a time.  The selection outlives the dialog: the last part shows what that does. *)


(** ** Lists of models *)

Definition normal (l : list str) : Prop := NoDup l ∧ ∀ m, m ∈ l → truthy m = true ∧ trimmed m.

Lemma names_normal l : normal (normalize_names l).
Proof.
  split; [apply array_of_set_NoDup|]. intros m. unfold normalize_names. rewrite elem_of_array_of_set, elem_of_bfilter, elem_of_lmap.
  intros [(x & -> & _) H]. split; [done|]. apply trim_trimmed.
Qed.

Lemma map_trim_id l : (∀ m, m ∈ l → truthy m = true ∧ trimmed m) → map trim l = l.
Proof. induction l as [|m l IH]; intros H; [done|]. cbn [map]. rewrite trim_id by (apply H, list_elem_of_here).
  f_equal. apply IH. intros x Hx. by apply H, list_elem_of_further. Qed.

Lemma normalize_id l : normal l → normalize_names l = l.
Proof.
  intros [Hd H]. unfold normalize_names. rewrite (map_trim_id l H), bfilter_id by (intros m Hm; by destruct (H m Hm)).
  unfold array_of_set. rewrite fold_set_add_disjoint; [done|done|]. by intros x _ ?%elem_of_nil.
Qed.

Lemma elem_of_normalize l m : m ∈ normalize_names l ↔ truthy m = true ∧ ∃ x, x ∈ l ∧ m = trim x.
Proof. unfold normalize_names. rewrite elem_of_array_of_set, elem_of_bfilter, elem_of_lmap. naive_solver. Qed.

Lemma meta_normal settings m : parseUpstreamUpdateMeta settings = Ret m → normal (pendingAddModels m) ∧ normal (pendingRemoveModels m).
Proof.
  assert (∀ v l, normalizeModelList v = Ret l → normal l) as H.
  { intros v l. unfold normalizeModelList. destruct (negb _); [intros [= <-]; split; [apply NoDup_nil_2|by intros ? ?%elem_of_nil]|].
    destruct v as [[]|]; try discriminate. intros [= <-]. apply names_normal. }
  assert (normal []) as H0 by (split; [apply NoDup_nil_2|by intros ? ?%elem_of_nil]).
  unfold parseUpstreamUpdateMeta. cbv zeta. generalize (js "upstream_model_update_last_detected_models") (js "upstream_model_update_last_removed_models")
    (js "upstream_model_update_check_enabled"). intros k1 k2 k3.
  generalize (match settings with Some (JObj o) => Some (JObj o) | Some (JStr s) => json_parse s | _ => None end). intros parsed.
  assert ((add ← normalizeModelList (opt_prop k1 parsed); rem ← normalizeModelList (opt_prop k2 parsed);
           Ret {| enabled := bool_decide (opt_prop k3 parsed = Some (JBool true)); pendingAddModels := add; pendingRemoveModels := rem |}) = Ret m →
          normal (pendingAddModels m) ∧ normal (pendingRemoveModels m)) as Hb.
  { destruct (normalizeModelList (opt_prop k1 parsed)) as [a|] eqn:E1; [|discriminate]. destruct (normalizeModelList (opt_prop k2 parsed)) as [b|] eqn:E2; [|discriminate].
    intros [= <-]. split; [exact (H _ _ E1)|exact (H _ _ E2)]. }
  destruct parsed as [[]|]; first [exact Hb|intros [= <-]; done].
Qed.

(** ** The lists in the dialog *)

Definition lists_ok (h : Hook) : Prop := normal (addModels h) ∧ normal (removeModels h).

Lemma normal_nil : normal [].
Proof. split; [apply NoDup_nil_2|by intros ? ?%elem_of_nil]. Qed.

Section runs.
Context (toLowerCase : str → str).
Abbreviation step := (step toLowerCase).
Abbreviation run := (run toLowerCase).
Abbreviation visible := (visible toLowerCase).

(** What an event can do to the dialog: open it on pending models, close it, or leave its lists alone. *)
Definition same_lists (s s' : State) : Prop :=
  addModels (hook s') = addModels (hook s) ∧ removeModels (hook s') = removeModels (hook s) ∧ channel (hook s') = channel (hook s) ∧
  showModal (hook s') = showModal (hook s).
Definition closed_lists (s' : State) : Prop :=
  addModels (hook s') = [] ∧ removeModels (hook s') = [] ∧ channel (hook s') = None ∧ showModal (hook s') = false.

Lemma apply_lists add rem s : (same_lists s (applyUpdates add rem s) ∨ closed_lists (applyUpdates add rem s)) ∧ dialog (applyUpdates add rem s) = dialog s.
Proof. unfold applyUpdates. destruct (applyRef _); [by split; [left|]|]. destruct (nonzero _); split; try done; [by left|by right]. Qed.

Lemma arrived_lists n a s : let s' := step s (Arrived n a) in (same_lists s s' ∨ closed_lists s') ∧ dialog s' = dialog s.
Proof.
  cbn [ChannelUpstream.step]. destruct (tasks s !! n) as [[k|k]|]; [| |by split; [left|]].
  - unfold called. destruct a as [[] m data|r m]; [|by split; [left|]..]. destruct (success_counts k data); [|by split; [left|]].
    cbv zeta. destruct k; split; try done; [by right|by left..].
  - unfold refreshed. destruct a; by split; [left|].
Qed.

Lemma open_lists id settings tab s : showModal (hook s) = false → lists_ok (hook s) →
  let s' := step s (OpenFor id settings tab) in
  (same_lists s s' ∨ channel (hook s') = Some id ∧ showModal (hook s') = true ∧ lists_ok (hook s')) ∧ dialog s' = dialog s.
Proof.
  intros Hm Hl. cbn [ChannelUpstream.step]. rewrite Hm. destruct (parseUpstreamUpdateMeta settings) as [m|]; [|by split; [left|]].
  unfold openModal. cbv zeta. cbn [nonzero]. destruct (id =? 0)%Z; [by split; [left|]|].
  destruct (normalize_names (pendingAddModels m) ++ normalize_names (pendingRemoveModels m)) eqn:E; [by split; [left|]|].
  split; [right|done]. split_and!; [done|done|]. split; apply names_normal.
Qed.

(** Every other event leaves the lists alone or closes the dialog. *)
Definition opens (e : Event) : bool := match e with OpenFor _ _ _ => true | _ => false end.

Lemma other_lists s e : opens e = false → same_lists s (step s e) ∨ closed_lists (step s e).
Proof.
  intros He. destruct e; try discriminate He; cbn [ChannelUpstream.step].
  - destruct (inputs s); [by right|by left].
  - left. by destruct (inputs s).
  - left. by destruct (inputs s).
  - left. destruct (inputs s); [|done]. by destruct (visible _ _ !! n).
  - left. by destruct (_ && _).
  - destruct (_ && _ && _); [|by left]. unfold handleConfirm. cbv zeta. destruct (_ && _ && _); [by left|]. apply apply_lists.
  - destruct (partialConfirmOpen _); [|by left]. cbv zeta. destruct yes; [|by left]. apply (apply_lists _ _ (set_dialog (set_partial false) s)).
  - left. unfold applyAllUpdates. by destruct (applyAllRef _).
  - left. unfold detectAllUpdates. by destruct (detectAllRef _).
  - left. unfold detectChannelUpdates. destruct (detectRef _); [done|]. by destruct (nonzero _).
  - apply arrived_lists.
Qed.

Definition modal_ok (s : State) : Prop := lists_ok (hook s) ∧ (showModal (hook s) = true ↔ channel (hook s) ≠ None).

Lemma step_modal s e : modal_ok s → modal_ok (step s e).
Proof.
  intros [Hl Hc]. destruct (opens e) eqn:He.
  - destruct e as [id settings tab| | | | | | | | | | |]; try discriminate He. destruct (showModal (hook s)) eqn:Hm.
    + cbn [ChannelUpstream.step]. rewrite Hm. by split; [|rewrite Hm].
    + destruct (open_lists id settings tab s Hm Hl) as [[(E1 & E2 & E3 & E4)|(E1 & E2 & E3)] _].
      * unfold modal_ok, lists_ok. by rewrite E1, E2, E3, E4, Hm.
      * split; [done|]. by rewrite E1, E2.
  - destruct (other_lists s e He) as [(E1 & E2 & E3 & E4)|(E1 & E2 & E3 & E4)]; unfold modal_ok, lists_ok; rewrite E1, E2, E3, E4; [done|].
    split; [split; apply normal_nil|]. by split.
Qed.

Lemma run_modal es : modal_ok (run es).
Proof.
  unfold ChannelUpstream.run. assert (modal_ok start) as H. { split; [split; apply normal_nil|]. by split. }
  revert H. generalize start. induction es as [|e es IH]; intros s H; [done|]. cbn [fold_left]. by apply IH, step_modal.
Qed.

(** ** Selections *)

Lemma elem_of_set_delete m l x : x ∈ set_delete m l ↔ x ∈ l ∧ x ≠ m.
Proof. unfold set_delete. rewrite elem_of_bfilter, negb_true_iff, bool_decide_eq_false. done. Qed.

Lemma delete_all_NoDup models l : NoDup l → NoDup (fold_left (λ l m, set_delete m l) models l).
Proof. revert l. induction models as [|m ms IH]; intros l H; [done|]. cbn [fold_left]. by apply IH, bfilter_NoDup. Qed.

Lemma elem_of_delete_all models l x : x ∈ fold_left (λ l m, set_delete m l) models l → x ∈ l.
Proof. revert l. induction models as [|m ms IH]; intros l H; [done|]. cbn [fold_left] in H. apply IH in H. by apply elem_of_set_delete in H as [? _]. Qed.

Lemma toggle_sub m l x : x ∈ toggleModel m l → x ∈ l ∨ x = m.
Proof. unfold toggleModel. destruct (set_has m l); [rewrite elem_of_set_delete; naive_solver|by rewrite elem_of_set_add]. Qed.

Lemma toggle_all_sub ms l x : x ∈ toggleAllVisible ms l → x ∈ l ∨ x ∈ ms.
Proof. unfold toggleAllVisible. destruct (forallb _ ms); [intros H%elem_of_delete_all; by left|by rewrite elem_of_fold_set_add]. Qed.

Lemma toggle_NoDup m l : NoDup l → NoDup (toggleModel m l).
Proof. intros H. unfold toggleModel. destruct (set_has m l); [by apply bfilter_NoDup|by apply set_add_NoDup]. Qed.

Lemma toggle_all_NoDup ms l : NoDup l → NoDup (toggleAllVisible ms l).
Proof. intros H. unfold toggleAllVisible. destruct (forallb _ ms); [by apply delete_all_NoDup|by apply fold_set_add_NoDup]. Qed.

(** A visible model is one of the list. *)
Definition tab_list (t : Tab) (s : State) : list str := match t with AddTab => addModels (hook s) | RemoveTab => removeModels (hook s) end.

Lemma visible_sub t s x : x ∈ visible t s → x ∈ tab_list t s.
Proof. destruct t; cbn [ChannelUpstream.visible tab_list]; unfold filtered; by intros [? _]%elem_of_bfilter. Qed.

Lemma confirm_dialog s : ∀ t, selection t (dialog (handleConfirm s)) = selection t (dialog s).
Proof. intros t. unfold handleConfirm. cbv zeta. destruct (_ && _ && _); [by destruct t|]. by rewrite (proj2 (apply_lists _ _ s)). Qed.

(** An event changes a selection only by models of the list it belongs to. *)
Lemma step_selection s e t :
  NoDup (selection t (dialog s)) →
  NoDup (selection t (dialog (step s e))) ∧
  ∀ x, x ∈ selection t (dialog (step s e)) → x ∈ selection t (dialog s) ∨ x ∈ tab_list t s ∧ same_lists s (step s e).
Proof.
  intros Hd. assert (∀ s', (∀ t, selection t (dialog s') = selection t (dialog s)) →
    NoDup (selection t (dialog s')) ∧ ∀ x, x ∈ selection t (dialog s') → x ∈ selection t (dialog s) ∨ x ∈ tab_list t s ∧ same_lists s s') as Hs.
  { intros s' E. rewrite E. split; [done|]. by left. }
  assert (∀ t' l, (∀ x, x ∈ l → x ∈ selection t' (dialog s) ∨ x ∈ tab_list t' s) → (NoDup (selection t' (dialog s)) → NoDup l) →
    NoDup (selection t (dialog (set_dialog (set_selection t' l) s))) ∧
    ∀ x, x ∈ selection t (dialog (set_dialog (set_selection t' l) s)) → x ∈ selection t (dialog s) ∨ x ∈ tab_list t s ∧ same_lists s (set_dialog (set_selection t' l) s)) as Ht.
  { intros t' l Hx Hn. destruct t, t'; cbn [set_dialog dialog set_selection select_add select_remove selection selectedAdd selectedRemove] in *;
      (split; [by auto|]); intros x Hin; try (by left); destruct (Hx x Hin); [by left|by right|by left|by right]. }
  destruct e as [id settings tab| |t'|t' v|t' n|t'| |yes| | |id|n a].
  - apply Hs. intros ?. cbn [ChannelUpstream.step]. destruct (showModal (hook s)); [done|]. destruct (parseUpstreamUpdateMeta settings); [|done].
    unfold openModal. cbv zeta. destruct (nonzero _); [|done]. by destruct (_ ++ _).
  - apply Hs. intros ?. cbn [ChannelUpstream.step]. by destruct (inputs s).
  - apply Hs. intros u. cbn [ChannelUpstream.step]. destruct (inputs s); by destruct u.
  - apply Hs. intros u. cbn [ChannelUpstream.step]. destruct (inputs s); by destruct u, t'.
  - cbn [ChannelUpstream.step]. destruct (inputs s); [|by apply Hs]. destruct (visible t' s !! n) as [m|] eqn:E; [|by apply Hs].
    apply Ht; [|by apply toggle_NoDup]. intros x [?| ->]%toggle_sub; [by left|right]. apply visible_sub. by apply list_elem_of_lookup_2 in E.
  - cbn [ChannelUpstream.step]. destruct (_ && _); [|by apply Hs]. apply Ht; [|by apply toggle_all_NoDup].
    intros x [?|?]%toggle_all_sub; [by left|right]. by apply visible_sub.
  - apply Hs. intros u. cbn [ChannelUpstream.step]. destruct (_ && _ && _); [|done]. apply confirm_dialog.
  - apply Hs. intros u. cbn [ChannelUpstream.step]. destruct (partialConfirmOpen _); [|done]. cbv zeta. destruct yes; [|by destruct u].
    rewrite (proj2 (apply_lists _ _ (set_dialog (set_partial false) s))). by destruct u.
  - apply Hs. intros u. cbn [ChannelUpstream.step]. unfold applyAllUpdates. by destruct (applyAllRef _).
  - apply Hs. intros u. cbn [ChannelUpstream.step]. unfold detectAllUpdates. by destruct (detectAllRef _).
  - apply Hs. intros u. cbn [ChannelUpstream.step]. unfold detectChannelUpdates. destruct (detectRef _); [done|]. by destruct (nonzero _).
  - apply Hs. intros u. by rewrite (proj2 (arrived_lists n a s)).
Qed.

(** The requests of a log that apply updates. *)
Definition applies (l : list Entry) : list ApplyRequest := omap (λ e, match e with Sent (Apply r) => Some r | _ => None end) l.

Lemma applies_app l l' : applies (l ++ l') = applies l ++ applies l'.
Proof. apply omap_app. Qed.

(** The request for what is selected. *)
Definition request_of (s : State) (id : Z) : ApplyRequest := {|
  ar_id := id; add_models := normalize_names (selectedAdd (dialog s));
  ignore_models := List.filter (λ m, negb (set_has m (normalize_names (selectedAdd (dialog s))))) (addModels (hook s));
  remove_models := normalize_names (selectedRemove (dialog s)) |}.

Definition requests (s s' : State) : Prop :=
  applies (log s') = applies (log s) ∨ ∃ id, channel (hook s) = Some id ∧ applies (log s') = applies (log s) ++ [request_of s id].

Lemma apply_requests s : requests s (applyUpdates (selectedAdd (dialog s)) (selectedRemove (dialog s)) s).
Proof.
  unfold applyUpdates, requests. destruct (applyRef _); [by left|]. destruct (channel (hook s)) as [id|] eqn:E; cbn [nonzero]; [|by left].
  destruct (id =? 0)%Z; [by left|]. right. exists id. split; [done|]. cbn [log spawn note set_hook send]. by rewrite applies_app.
Qed.

Lemma step_requests s e : requests s (step s e).
Proof.
  destruct e as [id settings tab| |t'|t' v|t' n|t'| |yes| | |id|n a]; cbn [ChannelUpstream.step].
  - left. destruct (showModal (hook s)); [done|]. destruct (parseUpstreamUpdateMeta settings); [|done]. unfold openModal. cbv zeta.
    destruct (nonzero _); [destruct (_ ++ _)|]; cbn [log note set_hook]; rewrite ?applies_app, ?app_nil_r; done.
  - left. by destruct (inputs s).
  - left. by destruct (inputs s).
  - left. by destruct (inputs s).
  - left. destruct (inputs s); [|done]. by destruct (visible t' s !! n).
  - left. by destruct (_ && _).
  - destruct (_ && _ && _); [|by left]. unfold handleConfirm. cbv zeta. destruct (_ && _ && _); [by left|]. apply apply_requests.
  - destruct (partialConfirmOpen _); [|by left]. cbv zeta. destruct yes; [|by left]. exact (apply_requests (set_dialog (set_partial false) s)).
  - left. unfold applyAllUpdates. destruct (applyAllRef _); [done|]. cbn [log send spawn note set_hook]. by rewrite applies_app, app_nil_r.
  - left. unfold detectAllUpdates. destruct (detectAllRef _); [done|]. cbn [log send spawn note set_hook]. by rewrite applies_app, app_nil_r.
  - left. unfold detectChannelUpdates. destruct (detectRef _); [done|]. destruct (nonzero _); [|done]. cbn [log send spawn note set_hook]. by rewrite applies_app, app_nil_r.
  - left. destruct (tasks s !! n) as [[k|k]|]; [| |done].
    + unfold called, fail. destruct a as [[] m data|r m]; [destruct (success_counts k data); cbv zeta; [destruct k|]|..]; cbn [log spawn note closeModal set_hook without_task]; by rewrite applies_app, app_nil_r.
    + unfold refreshed, fail. destruct a; cbn [log note set_hook without_task]; rewrite ?applies_app, ?app_nil_r; done.
Qed.

(** ** Runs in which the dialog is opened once *)

Lemma open_dialog id settings tab s : dialog (step s (OpenFor id settings tab)) = dialog s.
Proof.
  cbn [ChannelUpstream.step]. destruct (showModal (hook s)); [done|]. destruct (parseUpstreamUpdateMeta settings); [|done].
  unfold openModal. cbv zeta. destruct (nonzero _); [|done]. by destruct (_ ++ _).
Qed.

Record selection_ok (opened : nat) (s : State) : Prop := {
  so_normal : ∀ t, normal (selection t (dialog s));
  so_before : opened = 0 → channel (hook s) = None ∧ ∀ t, selection t (dialog s) = [] ∧ tab_list t s = [];
  so_during : opened ≤ 1 → channel (hook s) ≠ None → ∀ t x, x ∈ selection t (dialog s) → x ∈ tab_list t s }.

Lemma same_tab s s' t : same_lists s s' → tab_list t s' = tab_list t s.
Proof. intros (E1 & E2 & _). by destruct t. Qed.

Lemma no_elements {A} (l : list A) : (∀ x, x ∉ l) → l = [].
Proof. destruct l as [|x l]; [done|]. intros H. destruct (H x). apply list_elem_of_here. Qed.

Lemma step_selection_ok opened s e : modal_ok s → selection_ok opened s → selection_ok (opened + Nat.b2n (opens e)) (step s e).
Proof.
  intros [Hl _] [Hn Hb Hd]. destruct (opens e) eqn:He; cbn [Nat.b2n].
  - destruct e as [id settings tab| | | | | | | | | | |]; try discriminate He. split; [by rewrite open_dialog|lia|]. intros Ho _ t x. rewrite open_dialog.
    rewrite (proj1 (proj2 (Hb ltac:(lia)) t)). by intros ?%elem_of_nil.
  - rewrite Nat.add_0_r. pose proof (other_lists s e He) as Ho.
    assert (∀ t, normal (tab_list t s)) as Ht by (by intros []; apply Hl).
    split.
    + intros t. destruct (step_selection s e t (proj1 (Hn t))) as [H1 H2]. split; [done|]. intros x [Hx|[Hx _]]%H2; [by apply (proj2 (Hn t))|by apply (proj2 (Ht t))].
    + intros H0. destruct (Hb H0) as [Hc Hs]. split; [destruct Ho as [(_ & _ & -> & _)|(_ & _ & -> & _)]; done|]. intros t. split.
      * apply no_elements. intros x [Hx|[Hx _]]%(proj2 (step_selection s e t (proj1 (Hn t)))); revert Hx.
        -- rewrite (proj1 (Hs t)). apply not_elem_of_nil.
        -- rewrite (proj2 (Hs t)). apply not_elem_of_nil.
      * destruct Ho as [Hsame|(E1 & E2 & _)]; [by rewrite (same_tab _ _ _ Hsame), (proj2 (Hs t))|by destruct t].
    + intros H1 Hc t x. destruct Ho as [Hsame|(_ & _ & E & _)]; [|by rewrite E in Hc]. rewrite (same_tab _ _ _ Hsame).
      intros [Hx|[Hx _]]%(proj2 (step_selection s e t (proj1 (Hn t)))); [|done]. apply Hd; [done| |done]. by destruct Hsame as (_ & _ & E & _); rewrite <- E.
Qed.

Lemma upstream_run_snoc es e : run (es ++ [e]) = step (run es) e.
Proof. unfold ChannelUpstream.run. by rewrite fold_left_app. Qed.

Lemma run_selection es : selection_ok (countb opens es) (run es).
Proof.
  induction es as [|e es IH] using rev_ind.
  - split; cbn; [intros []; apply normal_nil|intros _; split; [done|by intros []]|by intros].
  - rewrite upstream_run_snoc, countb_snoc. apply step_selection_ok; [apply run_modal|done].
Qed.

(** C9: Updates are applied only for the channel whose dialog is open, with the selected models: every model pending for addition is then either added or ignored,
    as it was selected.  If the dialog was opened once on the page, the models that are added and ignored are exactly those pending for the
    channel, and only models pending for removal are removed. *)
Theorem updates_applied_exactly es e :
  let s := run es in let s' := step s e in
  applies (log s') = applies (log s) ∨
  ∃ r id, channel (hook s) = Some id ∧ showModal (hook s) = true ∧ applies (log s') = applies (log s) ++ [r] ∧ ar_id r = id ∧
    add_models r = selectedAdd (dialog s) ∧ remove_models r = selectedRemove (dialog s) ∧
    (∀ m, m ∈ addModels (hook s) → (m ∈ ignore_models r ↔ m ∉ add_models r)) ∧
    (countb opens es ≤ 1 → addModels (hook s) ≡ₚ add_models r ++ ignore_models r ∧ remove_models r ⊆ removeModels (hook s)).
Proof.
  cbv zeta. destruct (step_requests (run es) e) as [E|(id & Hc & E)]; [by left|]. right.
  destruct (run_modal es) as [Hl Hm]. destruct (run_selection es) as [Hn _ Hd].
  exists (request_of (run es) id), id. unfold request_of. cbn [ar_id add_models ignore_models remove_models].
  rewrite (normalize_id _ (Hn AddTab : normal (selectedAdd _))), (normalize_id _ (Hn RemoveTab : normal (selectedRemove _))).
  assert (∀ m, m ∈ List.filter (λ m, negb (set_has m (selectedAdd (dialog (run es))))) (addModels (hook (run es))) ↔
               m ∈ addModels (hook (run es)) ∧ m ∉ selectedAdd (dialog (run es))) as Hi.
  { intros m. by rewrite elem_of_bfilter, negb_true_iff, set_has_false. }
  split_and!; [done|apply Hm; by rewrite Hc| |done|done|done| |].
  - rewrite E. unfold request_of. by rewrite (normalize_id _ (Hn AddTab : normal (selectedAdd _))), (normalize_id _ (Hn RemoveTab : normal (selectedRemove _))).
  - intros m Hin. rewrite Hi. naive_solver.
  - intros Ho. assert (channel (hook (run es)) ≠ None) as Hne by (by rewrite Hc). specialize (Hd Ho Hne). split; [|exact (Hd RemoveTab)].
    apply NoDup_Permutation; [apply Hl| |].
    + apply NoDup_app. split_and!; [apply (Hn AddTab)|by intros m ? [_ ?]%Hi|apply bfilter_NoDup, Hl].
    + intros m. rewrite elem_of_app, Hi. destruct (decide (m ∈ selectedAdd (dialog (run es)))) as [Hs|Hs]; [|naive_solver].
      pose proof (Hd AddTab m Hs). naive_solver.
Qed.
End runs.

(** ** The selection outlives the dialog *)

Definition plain (s : str) : str := s.

Definition detected (models : list string) : option json :=
  Some (JObj [(js "upstream_model_update_check_enabled", JBool true);
              (js "upstream_model_update_last_detected_models", JArr (map (λ m, JStr (js m)) models))]).

Definition applied_answer : Answer := Replied true None None.

(** Nothing is selected when the dialog opens, although its state is set up with everything selected. *)
Lemma nothing_preselected : let s := run plain [OpenFor 1 (detected ["a"; "b"]%string) AddTab] in
  showModal (hook s) = true ∧ addModels (hook s) = [js "a"; js "b"] ∧ selectedAdd (dialog s) = [].
Proof. vm_compute. split_and!; reflexivity. Qed.

(** What was selected for one channel is added to the next one, and what is pending there is ignored. *)
Lemma selection_reaches_next_channel :
  applies (log (run plain [OpenFor 1 (detected ["a"]%string) AddTab; ToggleIn AddTab 0; PressConfirm; Arrived 0 applied_answer; Arrived 0 applied_answer;
                           OpenFor 2 (detected ["b"]%string) AddTab; PressConfirm])) =
  [{| ar_id := 1; add_models := [js "a"]; ignore_models := []; remove_models := [] |};
   {| ar_id := 2; add_models := [js "a"]; ignore_models := [js "b"]; remove_models := [] |}].
Proof. vm_compute. reflexivity. Qed.

(** The tab that was asked for is not shown: the dialog stays on the tab it was on. *)
Lemma preferred_tab_ignored : ∀ es id settings tab, activeTab (dialog (step plain (run plain es) (OpenFor id settings tab))) = activeTab (dialog (run plain es)).
Proof. intros es id settings tab. by rewrite open_dialog. Qed.

(** A settings text in which the pending models are no list makes reading it fail. *)
Lemma odd_settings_throw : parseUpstreamUpdateMeta (Some (JObj [(js "upstream_model_update_last_detected_models", JStr (js "gpt-4"))])) = Throw.
Proof. vm_compute. reflexivity. Qed.
