(* ===== verification/ChannelDrawer.v ===== *)
(** * Saving a channel

    The drawer [features/channels/components/drawers/channel-mutate-drawer.tsx] with its two questions
    ([status-code-risk-dialog.tsx], [missing-models-confirmation-dialog.tsx]) and the mutation [use-channel-mutate-form.ts]: the form is filled from the
    channel, edited, checked, and sent.  The checks are those of [StatusCodeRiskGuard] and [ModelMapping], the payloads those of [ChannelForm].

    The questions are modal: while one is open neither the form nor the drawer takes input, but an answer of the server may arrive at any time.  The schema of the
    form is an argument ([schema_errors], the fields it refuses): of its rules this development has those of [ChannelForm].  Details that are in the cache arrive at once, and they are
    fetched again when the window is focused. *)

From S2P Require Import Prelude JsString JsNumber JsInteger JsDate Currency Json ModelMapping StatusCodeRiskGuard ChannelUtils ChannelForm.

(** ** Helpers *)

Definition CHANNEL_FORM_DEFAULT_VALUES : ChannelFormValues := {|
  f_name := []; f_type := num_of_Z 1; f_base_url := Some []; f_key := []; f_openai_organization := Some []; f_models := []; f_group := [js "default"];
  f_model_mapping := Some []; f_priority := Some (num_of_Z 0); f_weight := Some (num_of_Z 0); f_test_model := Some []; f_auto_ban := Some (num_of_Z 1);
  f_status := num_of_Z 1; f_status_code_mapping := Some []; f_tag := Some []; f_remark := Some []; f_setting := Some []; f_param_override := Some [];
  f_header_override := Some []; f_settings := Some (js "{}"); f_other := Some []; f_multi_key_mode := Some (js "single"); f_multi_key_type := Some (js "random");
  f_batch_add_set_key_prefix_2_name := Some false; f_key_mode := Some (js "append");
  f_extra := {| force_format := Some (JBool false); thinking_to_content := Some (JBool false); proxy := Some (JStr []); pass_through_body_enabled := Some (JBool false);
                system_prompt := Some (JStr []); system_prompt_override := Some (JBool false); max_concurrency := Some (num_of_Z 0);
                max_concurrency_per_user := Some (num_of_Z 0); large_request_eligible := Some false; upstream_request_gzip_enabled := Some true;
                upstream_request_gzip_min_mib := Some (num_of_Z 1) |};
  f_types := {| is_enterprise_account := Some false; vertex_key_type := Some (JStr (js "json")); aws_key_type := Some (JStr (js "ak_sk"));
                azure_responses_version := Some (JStr []); allow_service_tier := Some false; disable_store := Some false; allow_safety_identifier := Some false;
                allow_include_obfuscation := Some false; allow_inference_geo := Some false; allow_speed := Some false; claude_beta_query := Some false;
                upstream_model_update_check_enabled := Some false; upstream_model_update_auto_sync_enabled := Some false;
                upstream_model_update_ignored_models := Some [] |} |}.

(** [form.setValue] for the fields the handlers write. *)
Definition with_models (m : str) (f : ChannelFormValues) : ChannelFormValues := {|
  f_name := f_name f; f_type := f_type f; f_base_url := f_base_url f; f_key := f_key f; f_openai_organization := f_openai_organization f; f_models := m;
  f_group := f_group f; f_model_mapping := f_model_mapping f; f_priority := f_priority f; f_weight := f_weight f; f_test_model := f_test_model f;
  f_auto_ban := f_auto_ban f; f_status := f_status f; f_status_code_mapping := f_status_code_mapping f; f_tag := f_tag f; f_remark := f_remark f;
  f_setting := f_setting f; f_param_override := f_param_override f; f_header_override := f_header_override f; f_settings := f_settings f; f_other := f_other f;
  f_multi_key_mode := f_multi_key_mode f; f_multi_key_type := f_multi_key_type f; f_batch_add_set_key_prefix_2_name := f_batch_add_set_key_prefix_2_name f;
  f_key_mode := f_key_mode f; f_extra := f_extra f; f_types := f_types f |}.
Definition with_key (k : str) (f : ChannelFormValues) : ChannelFormValues := {|
  f_name := f_name f; f_type := f_type f; f_base_url := f_base_url f; f_key := k; f_openai_organization := f_openai_organization f; f_models := f_models f;
  f_group := f_group f; f_model_mapping := f_model_mapping f; f_priority := f_priority f; f_weight := f_weight f; f_test_model := f_test_model f;
  f_auto_ban := f_auto_ban f; f_status := f_status f; f_status_code_mapping := f_status_code_mapping f; f_tag := f_tag f; f_remark := f_remark f;
  f_setting := f_setting f; f_param_override := f_param_override f; f_header_override := f_header_override f; f_settings := f_settings f; f_other := f_other f;
  f_multi_key_mode := f_multi_key_mode f; f_multi_key_type := f_multi_key_type f; f_batch_add_set_key_prefix_2_name := f_batch_add_set_key_prefix_2_name f;
  f_key_mode := f_key_mode f; f_extra := f_extra f; f_types := f_types f |}.
Definition with_type (ty : num) (base other : option str) (f : ChannelFormValues) : ChannelFormValues := {|
  f_name := f_name f; f_type := ty; f_base_url := base; f_key := f_key f; f_openai_organization := f_openai_organization f; f_models := f_models f;
  f_group := f_group f; f_model_mapping := f_model_mapping f; f_priority := f_priority f; f_weight := f_weight f; f_test_model := f_test_model f;
  f_auto_ban := f_auto_ban f; f_status := f_status f; f_status_code_mapping := f_status_code_mapping f; f_tag := f_tag f; f_remark := f_remark f;
  f_setting := f_setting f; f_param_override := f_param_override f; f_header_override := f_header_override f; f_settings := f_settings f; f_other := other;
  f_multi_key_mode := f_multi_key_mode f; f_multi_key_type := f_multi_key_type f; f_batch_add_set_key_prefix_2_name := f_batch_add_set_key_prefix_2_name f;
  f_key_mode := f_key_mode f; f_extra := f_extra f; f_types := f_types f |}.

(** [s && truthy] of an optional text, and emptiness of a list *)
Definition given_text (s : option str) : option str := match s with Some v => if truthy v then Some v else None | None => None end.
Definition is_empty {A} (l : list A) : bool := match l with [] => true | _ => false end.

(** [x?.trim()] and [x] of an optional text or setting, as conditions. *)
Definition filled (s : option str) : bool := match s with Some v => truthy (trim v) | None => false end.
Definition filled_json (v : option json) : bool := match v with Some (JStr s) => truthy (trim s) | _ => false end.
Definition on (b : option bool) : bool := match b with Some b => b | None => false end.
Definition nonzero (x : option num) : bool := match x with Some v => num_truthy v | None => false end.

Definition hasAdvancedSettingsValues (v : ChannelFormValues) : bool :=
  let e := f_extra v in let ts := f_types v in
  filled (f_param_override v) || filled (f_header_override v) || filled (f_status_code_mapping v) || filled (f_tag v) || filled (f_remark v)
  || nonzero (f_priority v) || nonzero (f_weight v) || filled_json (proxy e) || filled_json (system_prompt e)
  || json_truthy (force_format e) || json_truthy (thinking_to_content e) || json_truthy (pass_through_body_enabled e) || json_truthy (system_prompt_override e)
  || on (upstream_request_gzip_enabled e) || on (claude_beta_query ts) || on (upstream_model_update_check_enabled ts)
  || on (upstream_model_update_auto_sync_enabled ts) || filled (upstream_model_update_ignored_models ts).

(** Fields of the advanced part, which opens when one of them is refused. *)
Definition ADVANCED_SETTINGS_FIELDS : list str :=
  map js ["priority"; "weight"; "test_model"; "auto_ban"; "tag"; "remark"; "param_override"; "header_override"; "status_code_mapping"; "force_format";
          "thinking_to_content"; "pass_through_body_enabled"; "proxy"; "system_prompt"; "system_prompt_override"; "upstream_request_gzip_enabled";
          "upstream_request_gzip_min_mib"; "allow_service_tier"; "disable_store"; "allow_safety_identifier"; "allow_include_obfuscation"; "allow_inference_geo";
          "allow_speed"; "claude_beta_query"; "upstream_model_update_check_enabled"; "upstream_model_update_auto_sync_enabled";
          "upstream_model_update_ignored_models"]%string.
Definition isAdvancedSettingsField (fieldName : str) : bool := set_has fieldName ADVANCED_SETTINGS_FIELDS.
Definition hasAdvancedSettingsErrors (errors : list str) : bool := existsb isAdvancedSettingsField errors.

(** ** What the form shows of a mapping *)

Record Guardrail := { invalidJson : bool; entries : list (str * str); missingSourceModels : list str; exposedTargetModels : list str }.

Definition emptyGuardrail : Guardrail := {| invalidJson := false; entries := []; missingSourceModels := []; exposedTargetModels := [] |}.
Definition invalidGuardrail : Guardrail := {| invalidJson := true; entries := []; missingSourceModels := []; exposedTargetModels := [] |}.

(** [String(rawTarget ?? '')] *)
Definition target_text (v : json) : str := match v with JNull => [] | _ => json_to_string v end.

Definition mapping_pairs (o : obj) : list (str * str) :=
  List.filter (λ st, truthy (fst st) && truthy (snd st)) (map (λ kv, (trim (fst kv), trim (target_text (snd kv)))) o).

Definition modelMappingGuardrail (mapping : option str) (models : list str) : Guardrail :=
  match mapping with
  | Some text =>
      if negb (truthy (trim text)) then emptyGuardrail
      else match json_parse text with
           | Some (JObj o) =>
               let ps := mapping_pairs o in
               {| invalidJson := false; entries := ps;
                  missingSourceModels := array_of_set (map fst (List.filter (λ st, truthy (fst st) && negb (set_has (fst st) models)) ps));
                  exposedTargetModels := array_of_set (map snd (List.filter (λ st, truthy (snd st) && set_has (snd st) models) ps)) |}
           | _ => invalidGuardrail
           end
  | None => emptyGuardrail
  end.

(** ** The state *)

Inductive MissingModelsAction := CancelMissing | SubmitAnyway | AddMissing.

(** The channel that is edited, with its id and whether it has several keys. *)
Record Editing := { ed_id : num; ed_multi : bool }.

Inductive Payload := Create (p : CreatePayload) | Update (p : UpdatePayload) (key_mode : option str).

Inductive Entry :=
  | Loaded (row : ChannelRow)
  | Submitted (editing : option Editing) (orig : str) (d : ChannelFormValues)
  | KeyRequired
  | RiskConfirmed (lines : list str)
  | MissingAnswered (a : MissingModelsAction)
  | Sent (d : ChannelFormValues) (p : Payload)
  | Told (text : str) | Complained (text : str) | ThrownText
  | Remembered (expanded : bool)
  | Closed.

(** The question about risky redirects, with the submission that waits for it; what was ticked and typed stays. *)
Record RiskDialog := { waiting : option (list str * ChannelFormValues); checkedItems : list nat; confirmText : str }.

Record Drawer := {
  opened : bool; editing : option Editing; values : ChannelFormValues; advancedOpen : bool;
  initialModels : list str; initialModelMapping : str; initialStatusCodeMapping : str;
  risk : RiskDialog; missing : option (list str * ChannelFormValues); pending : option bool; log : list Entry }.

Definition note (e : Entry) (s : Drawer) : Drawer := {|
  opened := opened s; editing := editing s; values := values s; advancedOpen := advancedOpen s; initialModels := initialModels s;
  initialModelMapping := initialModelMapping s; initialStatusCodeMapping := initialStatusCodeMapping s; risk := risk s; missing := missing s;
  pending := pending s; log := log s ++ [e] |}.
Definition set_values (f : ChannelFormValues → ChannelFormValues) (s : Drawer) : Drawer := {|
  opened := opened s; editing := editing s; values := f (values s); advancedOpen := advancedOpen s; initialModels := initialModels s;
  initialModelMapping := initialModelMapping s; initialStatusCodeMapping := initialStatusCodeMapping s; risk := risk s; missing := missing s;
  pending := pending s; log := log s |}.
Definition set_risk (f : RiskDialog → RiskDialog) (s : Drawer) : Drawer := {|
  opened := opened s; editing := editing s; values := values s; advancedOpen := advancedOpen s; initialModels := initialModels s;
  initialModelMapping := initialModelMapping s; initialStatusCodeMapping := initialStatusCodeMapping s; risk := f (risk s); missing := missing s;
  pending := pending s; log := log s |}.
Definition set_missing (m : option (list str * ChannelFormValues)) (s : Drawer) : Drawer := {|
  opened := opened s; editing := editing s; values := values s; advancedOpen := advancedOpen s; initialModels := initialModels s;
  initialModelMapping := initialModelMapping s; initialStatusCodeMapping := initialStatusCodeMapping s; risk := risk s; missing := m;
  pending := pending s; log := log s |}.
(** A save under way: of an existing channel or of a new one. *)
Definition set_pending (b : option bool) (s : Drawer) : Drawer := {|
  opened := opened s; editing := editing s; values := values s; advancedOpen := advancedOpen s; initialModels := initialModels s;
  initialModelMapping := initialModelMapping s; initialStatusCodeMapping := initialStatusCodeMapping s; risk := risk s; missing := missing s;
  pending := b; log := log s |}.
Definition set_advanced (b : bool) (s : Drawer) : Drawer := {|
  opened := opened s; editing := editing s; values := values s; advancedOpen := b; initialModels := initialModels s;
  initialModelMapping := initialModelMapping s; initialStatusCodeMapping := initialStatusCodeMapping s; risk := risk s; missing := missing s;
  pending := pending s; log := log s |}.
(** [form.reset] with the values of a channel or the defaults, and the refs that go with it. *)
Definition reset_form (b : bool) (e : option Editing) (v : ChannelFormValues) (adv : bool) (ms : list str) (mapping codes : str) (s : Drawer) : Drawer := {|
  opened := b; editing := e; values := v; advancedOpen := adv; initialModels := ms; initialModelMapping := mapping; initialStatusCodeMapping := codes;
  risk := risk s; missing := missing s; pending := pending s; log := log s |}.

Definition ask_risk (w : option (list str * ChannelFormValues)) (r : RiskDialog) : RiskDialog := {|
  waiting := w; checkedItems := checkedItems r; confirmText := confirmText r |}.
Definition clear_risk (r : RiskDialog) : RiskDialog := {| waiting := waiting r; checkedItems := []; confirmText := [] |}.

(** ** Opening, loading and closing *)

(** Opening only says which channel is edited: the form is filled when its details arrive. *)
Definition openFor (e : option Editing) (s : Drawer) : Drawer :=
  reset_form true e (values s) (advancedOpen s) (initialModels s) (initialModelMapping s) (initialStatusCodeMapping s) s.

(** The effect on the channel's details, at first and whenever they are fetched again. *)
Definition channel_loaded (preference : bool) (row : ChannelRow) (s : Drawer) : Drawer :=
  let defaults := transformChannelToFormDefaults row in
  note (Loaded row) (reset_form (opened s) (editing s) defaults (preference || hasAdvancedSettingsValues defaults)
    (parseModelsString (str_or (c_models row) [])) (str_or (c_model_mapping row) []) (str_or (c_status_code_mapping row) []) s).

(** Closing resets the form; the drawer then has no channel, which clears the refs. *)
Definition closeDrawer (s : Drawer) : Drawer := reset_form false None CHANNEL_FORM_DEFAULT_VALUES false [] [] [] s.

(** Opening or closing the advanced part is remembered in the browser. *)
Definition handleAdvancedSettingsOpenChange (nextOpen : bool) (s : Drawer) : Drawer := note (Remembered nextOpen) (set_advanced nextOpen s).

Definition onInvalid (errors : list str) (s : Drawer) : Drawer :=
  note (Complained (js "Please fix the highlighted fields before saving"))
    (if hasAdvancedSettingsErrors errors then handleAdvancedSettingsOpenChange true s else s).

(** ** Model lists and keys *)

Definition currentModelsArray (s : Drawer) : list str := parseModelsString (f_models (values s)).

Definition updateModels (newModels : list str) (merge : bool) (s : Drawer) : Drawer :=
  set_values (with_models (formatModelsArray (if merge then currentModelsArray s ++ newModels else newModels))) s.

Definition basicModels (type : num) (allModels : list str) : list str :=
  if num_eqb type (num_of_Z 1)
  then List.filter (λ m, starts_with (js "gpt-") m || starts_with (js "text-") m) allModels
  else allModels.

Definition handleFillRelatedModels (allModels : list str) (s : Drawer) : Drawer :=
  match basicModels (f_type (values s)) allModels with
  | [] => note (Told (js "No related models available for this channel type")) s
  | ms => note (Told (js "Filled {{count}} related model(s)")) (updateModels ms false s)
  end.

Definition handleFillAllModels (allModels : list str) (s : Drawer) : Drawer :=
  match allModels with
  | [] => note (Told (js "No models available")) s
  | ms => note (Told (js "Filled {{count}} model(s)")) (updateModels ms false s)
  end.

Definition handleClearModels (s : Drawer) : Drawer := note (Told (js "Cleared all models")) (set_values (with_models []) s).

(** A group's items are a list or the text of one; their declared type is [string[]]. *)
Definition prefill_items (items : json) : option (list json) :=
  match items with
  | JArr l => Some l
  | JStr text => match json_parse text with Some (JArr l) => Some l | _ => None end
  | _ => None
  end.

Definition handleAddPrefillGroup (items : json) (s : Drawer) : Drawer :=
  match prefill_items items with
  | Some l => note (Told (js "Added {{count}} models")) (updateModels (map json_to_string l) true s)
  | None => note (Complained (js "Failed to parse group items")) s
  end.

Definition handleModelsChange (selected : list str) : Drawer → Drawer := set_values (with_models (join (js ",") selected)).

Definition handleDeduplicateKeys (s : Drawer) : Drawer :=
  let currentKey := f_key (values s) in
  if negb (truthy (trim currentKey)) then note (Told (js "Please enter keys first")) s
  else let result := deduplicateKeys currentKey in
       if (removedCount result =? 0)%Z then note (Told (js "No duplicate keys found")) s
       else note (Told (js "Removed duplicate keys")) (set_values (with_key (deduplicatedText result)) s).

(** A new type; on creation two types get a default. *)
Definition changeType (ty : num) (s : Drawer) : Drawer :=
  let fill (n : Z) (cur : option str) (d : string) :=
    if negb (match editing s with Some _ => true | None => false end) && num_eqb ty (num_of_Z n) && negb (match cur with Some v => truthy v | None => false end)
    then Some (js d) else cur in
  set_values (λ v, with_type ty (fill 45%Z (f_base_url v) "https://ark.cn-beijing.volces.com"%string) (fill 18%Z (f_other v) "v2.1"%string) v) s.

(** ** Submitting *)

Section submit.
Context (schema_errors : ChannelFormValues → list str) (requiredText : str).

Definition is_editing (s : Drawer) : bool := match editing s with Some _ => true | None => false end.
Definition isSubmitting (s : Drawer) : bool := match pending s with Some _ => true | None => false end.

Definition payload_of (e : option Editing) (d : ChannelFormValues) : outcome Payload :=
  match e with
  | Some ed => p ← transformFormDataToUpdatePayload d (ed_id ed); Ret (Update p (if ed_multi ed then given_text (f_key_mode d) else None))
  | None => p ← transformFormDataToCreatePayload d; Ret (Create p)
  end.

(** [channelMutation.mutateAsync(data)] *)
Definition mutate (d : ChannelFormValues) (s : Drawer) : Drawer :=
  match payload_of (editing s) d with
  | Ret p => note (Sent d p) (set_pending (Some (is_editing s)) s)
  | Throw => note ThrownText s
  end.

Definition has_model_mapping (d : ChannelFormValues) : option str :=
  match f_model_mapping d with Some m => if truthy (trim m) then Some m else None | None => None end.

(** From the question about redirects on. *)
Definition submit_models (d : ChannelFormValues) (s : Drawer) : Drawer :=
  match has_model_mapping d with
  | None => mutate d s
  | Some mapping =>
      match validateModelMappingJson mapping with
      | Invalid error => note (Complained error) s
      | Valid =>
          let normalizedModels := parseModelsString (f_models d) in
          let missingModels := findMissingModelsInMapping mapping normalizedModels in
          if negb (is_empty missingModels) && hasModelConfigChanged normalizedModels mapping (initialModels s) (initialModelMapping s)
          then set_missing (Some (missingModels, d)) s
          else mutate d s
      end
  end.

Definition onSubmit (d : ChannelFormValues) (s : Drawer) : Drawer :=
  let s := note (Submitted (editing s) (initialStatusCodeMapping s) d) s in
  if negb (is_editing s) && negb (truthy (trim (f_key d))) then note KeyRequired s
  else match f_status_code_mapping d with
       | Some codes =>
           if truthy (trim codes) then
             match collectInvalidStatusCodeEntries codes with
             | [] =>
                 match collectNewDisallowedStatusCodeRedirects (initialStatusCodeMapping s) codes with
                 | [] => submit_models d s
                 | riskyRedirects => set_risk (ask_risk (Some (riskyRedirects, d))) s
                 end
             | _ => note (Complained (js "Invalid status code mapping entries: {{entries}}")) s
             end
           else submit_models d s
       | None => submit_models d s
       end.

(** ** The question about redirects *)

Definition CHECKLIST_SIZE : nat := 4.

Definition canConfirm (r : RiskDialog) : bool :=
  (length (checkedItems r) =? CHECKLIST_SIZE) && bool_decide (trim (confirmText r) = trim requiredText).

Definition toggleCheck (idx : nat) (r : RiskDialog) : RiskDialog := {|
  waiting := waiting r; confirmText := confirmText r;
  checkedItems := if set_has idx (checkedItems r) then List.filter (λ i, negb (i =? idx)) (checkedItems r) else set_add (checkedItems r) idx |}.

Definition typeConfirm (v : str) (r : RiskDialog) : RiskDialog := {| waiting := waiting r; checkedItems := checkedItems r; confirmText := v |}.

(** [handleStatusCodeRiskAction] *)
Definition handleStatusCodeRiskAction (confirmed : bool) (s : Drawer) : Drawer :=
  match waiting (risk s) with
  | Some (lines, d) =>
      let s := set_risk (ask_risk None) s in
      if confirmed then submit_models d (note (RiskConfirmed lines) s) else s
  | None => s
  end.

(** [handleConfirm] and [handleCancel] of the dialog; Escape only calls [onOpenChange]. *)
Definition confirmRisk (s : Drawer) : Drawer :=
  if canConfirm (risk s) then handleStatusCodeRiskAction true (set_risk clear_risk s) else s.
Definition cancelRisk (s : Drawer) : Drawer := handleStatusCodeRiskAction false (set_risk clear_risk s).
Definition dismissRisk (s : Drawer) : Drawer := handleStatusCodeRiskAction false s.

(** ** The question about missing models *)

Definition handleMissingModelsAction (a : MissingModelsAction) (s : Drawer) : Drawer :=
  match missing s with
  | Some (missingModels, d) =>
      let s := note (MissingAnswered a) (set_missing None s) in
      match a with
      | CancelMissing => s
      | SubmitAnyway => mutate d s
      | AddMissing =>
          let updatedModels := array_of_set (parseModelsString (f_models d) ++ missingModels) in
          let m := formatModelsArray updatedModels in
          mutate (with_models m d) (set_values (with_models m) s)
      end
  | None => s
  end.

(** ** Answers to the mutation *)

Inductive SaveAnswer := Accepted | Refused (message : option str) | Failed (message : option str).

(** A success closes the drawer from outside: the form is reset because the drawer has no channel any more, which is no change after a creation. *)
Definition save_answered (updating : bool) (a : SaveAnswer) (s : Drawer) : Drawer :=
  let s' := set_pending None s in
  let failed := if updating then js "Failed to update channel" else js "Failed to create channel" in
  match a with
  | Accepted =>
      let s1 := note (Told (if updating then js "Channel updated successfully" else js "Channel created successfully")) s' in
      note Closed (if is_editing s then closeDrawer s1
                   else reset_form false None (values s) (advancedOpen s) (initialModels s) (initialModelMapping s) (initialStatusCodeMapping s) s1)
  | Refused m => note (Complained (match given_text m with Some t => t | None => failed end)) s'
  | Failed m => note (Complained (match given_text m with Some t => t | None => js "Failed to create channel" end)) s'
  end.

(** ** Runs *)

Inductive Event :=
  | OpenDrawer (e : option Editing)
  | Fetched (preference : bool) (row : ChannelRow)
  | Edit (v : ChannelFormValues)
  | ChangeType (ty : num)
  | FillRelated (allModels : list str) | FillAll (allModels : list str) | ClearModels | AddPrefill (items : json) | PickModels (selected : list str)
  | DeduplicateKeys
  | ToggleAdvanced (expanded : bool)
  | Submit
  | TickRisk (idx : nat) | TypeRisk (v : str) | ConfirmRisk | CancelRisk | DismissRisk
  | AnswerMissing (a : MissingModelsAction)
  | SaveAnswered (a : SaveAnswer)
  | CloseDrawer.

Definition asked (s : Drawer) : bool := match waiting (risk s), missing s with None, None => false | _, _ => true end.

Definition step (s : Drawer) (e : Event) : Drawer :=
  let free (f : Drawer → Drawer) := if opened s && negb (asked s) then f s else s in
  let in_risk (f : Drawer → Drawer) := match waiting (risk s) with Some _ => f s | None => s end in
  match e with
  | OpenDrawer ed => if opened s || asked s then s else openFor ed s
  | Fetched preference row => match editing s with Some _ => channel_loaded preference row s | None => s end
  | Edit v => free (set_values (λ _, v))
  | ChangeType ty => free (changeType ty)
  | FillRelated ms => free (handleFillRelatedModels ms)
  | FillAll ms => free (handleFillAllModels ms)
  | ClearModels => free handleClearModels
  | AddPrefill items => free (handleAddPrefillGroup items)
  | PickModels ms => free (handleModelsChange ms)
  | DeduplicateKeys => free handleDeduplicateKeys
  | ToggleAdvanced b => free (handleAdvancedSettingsOpenChange b)
  | Submit =>
      if isSubmitting s then s
      else free (λ s, match schema_errors (values s) with [] => onSubmit (values s) s | errors => onInvalid errors s end)
  | TickRisk idx => if idx <? CHECKLIST_SIZE then in_risk (set_risk (toggleCheck idx)) else s
  | TypeRisk v => in_risk (set_risk (typeConfirm v))
  | ConfirmRisk => in_risk confirmRisk
  | CancelRisk => in_risk cancelRisk
  | DismissRisk => in_risk dismissRisk
  | AnswerMissing a => handleMissingModelsAction a s
  | SaveAnswered a => match pending s with Some updating => save_answered updating a s | None => s end
  | CloseDrawer => free closeDrawer
  end.

Definition start : Drawer := {|
  opened := false; editing := None; values := CHANNEL_FORM_DEFAULT_VALUES; advancedOpen := false; initialModels := []; initialModelMapping := [];
  initialStatusCodeMapping := []; risk := {| waiting := None; checkedItems := []; confirmText := [] |}; missing := None; pending := None; log := [] |}.

Definition run (es : list Event) : Drawer := fold_left step es start.
End submit.

(** * Properties of the drawer of channels

    A channel is sent only after every check of the drawer passed or the user answered the question it asks; the last part shows what the form keeps that it should not. *)


(** ** What a log says *)

Definition orig_ok (l : list Entry) (orig : str) : Prop := orig = [] ∨ ∃ row, Loaded row ∈ l ∧ orig = str_or (c_status_code_mapping row) [].

Definition codes_ok (l : list Entry) (orig : str) (d : ChannelFormValues) : Prop :=
  ∀ codes, f_status_code_mapping d = Some codes → truthy (trim codes) = true →
    collectInvalidStatusCodeEntries codes = [] ∧
    (collectNewDisallowedStatusCodeRedirects orig codes = [] ∨ RiskConfirmed (collectNewDisallowedStatusCodeRedirects orig codes) ∈ l).

Definition key_ok (ed : option Editing) (d : ChannelFormValues) : Prop := ed = None → truthy (trim (f_key d)) = true.

(** A submission that passed the checks of keys and status codes. *)
Definition passed (l : list Entry) (d : ChannelFormValues) : Prop :=
  ∃ ed orig, Submitted ed orig d ∈ l ∧ orig_ok l orig ∧ key_ok ed d ∧ codes_ok l orig d.

(** Models and mapping are those of a channel that was loaded. *)
Definition unchanged (l : list Entry) (models : list str) (mapping : str) : Prop :=
  ∃ row, Loaded row ∈ l ∧ models = parseModelsString (str_or (c_models row) []) ∧ trim mapping = trim (str_or (c_model_mapping row) []).

Definition models_ok (l : list Entry) (d : ChannelFormValues) : Prop :=
  ∀ mapping, has_model_mapping d = Some mapping → validateModelMappingJson mapping = Valid ∧
    ∀ m, m ∈ findMissingModelsInMapping mapping (parseModelsString (f_models d)) →
      44%N ∈ m ∨ MissingAnswered SubmitAnyway ∈ l ∨ unchanged l (parseModelsString (f_models d)) mapping.

Definition sent_ok (l : list Entry) (d : ChannelFormValues) : Prop :=
  (∃ d0, passed l d0 ∧ (d = d0 ∨ ∃ m, d = with_models m d0)) ∧ models_ok l d.

(** Everything in a log stays in it. *)
Lemma orig_mono l l' o : l ⊆ l' → orig_ok l o → orig_ok l' o.
Proof. intros Hs [->|(row & H & ->)]; [by left|right]. exists row. by split; [apply Hs|]. Qed.

Lemma passed_mono l l' d : l ⊆ l' → passed l d → passed l' d.
Proof.
  intros Hs (ed & orig & H & Ho & Hk & Hc). exists ed, orig. split_and!; [by apply Hs|by eapply orig_mono|done|].
  intros codes E T. destruct (Hc codes E T) as [H1 [H2|H2]]; (split; [done|]); [by left|right; by apply Hs].
Qed.

Lemma unchanged_mono l l' ms m : l ⊆ l' → unchanged l ms m → unchanged l' ms m.
Proof. intros Hs (row & H & E). exists row. by split; [apply Hs|]. Qed.

Lemma sent_mono l l' d : l ⊆ l' → sent_ok l d → sent_ok l' d.
Proof.
  intros Hs [(d0 & Hp & E) Hm]. split; [exists d0; by split; [eapply passed_mono|]|]. intros mapping Em. destruct (Hm mapping Em) as [Hv H]. split; [done|].
  intros m Hin. destruct (H m Hin) as [?|[?|?]]; [by left|right; left; by apply Hs|right; right; by eapply unchanged_mono].
Qed.

Lemma snoc_sub (l : list Entry) e : l ⊆ l ++ [e].
Proof. intros x Hx. apply elem_of_app. by left. Qed.

(** ** Invariant *)

Definition refs_ok (s : Drawer) : Prop :=
  orig_ok (log s) (initialStatusCodeMapping s) ∧
  (initialModels s = [] ∧ initialModelMapping s = [] ∨
   ∃ row, Loaded row ∈ log s ∧ initialModels s = parseModelsString (str_or (c_models row) []) ∧ initialModelMapping s = str_or (c_model_mapping row) []).

Definition risk_waits (l : list Entry) (w : list str * ChannelFormValues) : Prop :=
  ∃ ed orig codes, Submitted ed orig (snd w) ∈ l ∧ orig_ok l orig ∧ key_ok ed (snd w) ∧ f_status_code_mapping (snd w) = Some codes ∧
    collectInvalidStatusCodeEntries codes = [] ∧ fst w = collectNewDisallowedStatusCodeRedirects orig codes.

Definition missing_waits (l : list Entry) (w : list str * ChannelFormValues) : Prop :=
  passed l (snd w) ∧ ∃ mapping, has_model_mapping (snd w) = Some mapping ∧ validateModelMappingJson mapping = Valid ∧
    fst w = findMissingModelsInMapping mapping (parseModelsString (f_models (snd w))).

Record drawer_ok (s : Drawer) : Prop := {
  d_refs : refs_ok s;
  d_risk : ∀ w, waiting (risk s) = Some w → risk_waits (log s) w;
  d_missing : ∀ w, missing s = Some w → missing_waits (log s) w;
  d_sent : ∀ d p, Sent d p ∈ log s → sent_ok (log s) d }.

Lemma risk_waits_mono l l' w : l ⊆ l' → risk_waits l w → risk_waits l' w.
Proof. intros Hs (ed & orig & codes & H & Ho & Hk & E). exists ed, orig, codes. split_and!; [by apply Hs|by eapply orig_mono|done|apply E..]. Qed.

Lemma missing_waits_mono l l' w : l ⊆ l' → missing_waits l w → missing_waits l' w.
Proof. intros Hs [H E]. split; [by eapply passed_mono|done]. Qed.

Lemma refs_mono s s' : log s ⊆ log s' → initialModels s' = initialModels s → initialModelMapping s' = initialModelMapping s →
  initialStatusCodeMapping s' = initialStatusCodeMapping s → refs_ok s → refs_ok s'.
Proof.
  intros Hs E1 E2 E3 [H1 H2]. unfold refs_ok. rewrite E1, E2, E3. split; [by eapply orig_mono|]. destruct H2 as [?|(row & H & E)]; [by left|right].
  exists row. by split; [apply Hs|].
Qed.

Definition is_sent (e : Entry) : bool := match e with Sent _ _ => true | _ => false end.

(** A step that sends nothing and asks nothing. *)
Lemma quiet_ok s s' l : drawer_ok s → log s' = log s ++ l → Forall (λ e, is_sent e = false) l → refs_ok s' →
  (∀ w, waiting (risk s') = Some w → waiting (risk s) = Some w) → (∀ w, missing s' = Some w → missing s = Some w) → drawer_ok s'.
Proof.
  intros [Hr Hk Hm Hs] El Hl Hr' Hw Hm'.
  assert (log s ⊆ log s') as Hsub by (rewrite El; intros x Hx; apply elem_of_app; by left).
  split; [done| | |].
  - intros w E. eapply risk_waits_mono; [done|]. by apply Hk, Hw.
  - intros w E. eapply missing_waits_mono; [done|]. by apply Hm, Hm'.
  - intros d p H. rewrite El, elem_of_app in H. destruct H as [H|H]; [eapply sent_mono; [done|]; by eapply Hs|].
    by apply (proj1 (Forall_forall _ _) Hl) in H.
Qed.

Lemma quiet_note s e : drawer_ok s → is_sent e = false → drawer_ok (note e s).
Proof.
  intros H He. apply (quiet_ok s _ [e]); try done; [by constructor|]. apply (refs_mono s); try done; [apply snoc_sub|apply (d_refs s H)].
Qed.

Lemma quiet_values f s : drawer_ok s → drawer_ok (set_values f s).
Proof. intros [? ? ? ?]. by split. Qed.

(** Clearing the refs, or keeping them, is fine. *)
Lemma reset_ok b e v adv s : drawer_ok s → drawer_ok (reset_form b e v adv [] [] [] s).
Proof. intros [_ ? ? ?]. split; try done. split; [by left|by left]. Qed.

Lemma reopen_ok b e v adv s : drawer_ok s →
  drawer_ok (reset_form b e v adv (initialModels s) (initialModelMapping s) (initialStatusCodeMapping s) s).
Proof. intros [? ? ? ?]. by split. Qed.

Lemma load_ok pref row s : drawer_ok s → drawer_ok (channel_loaded pref row s).
Proof.
  intros H. unfold channel_loaded. cbv zeta. apply (quiet_ok s _ [Loaded row]); try done; [by constructor|].
  split; [right|right]; exists row; (split; [apply elem_of_app; right; apply list_elem_of_here|done]).
Qed.

(** ** Sending *)

Lemma mutate_ok d s : drawer_ok s → sent_ok (log s) d → drawer_ok (mutate d s).
Proof.
  intros H Hd. unfold mutate. destruct (payload_of (editing s) d) as [p|]; [|by apply quiet_note].
  destruct H as [Hr Hk Hm Hs]. split; cbn [log note set_pending risk missing waiting].
  - apply (refs_mono s); try done. apply snoc_sub.
  - intros w E. eapply risk_waits_mono; [apply snoc_sub|by apply Hk].
  - intros w E. eapply missing_waits_mono; [apply snoc_sub|by apply Hm].
  - intros d' p' [H|[= -> ->]%list_elem_of_singleton]%elem_of_app; (eapply sent_mono; [apply snoc_sub|]); [by eapply Hs|done].
Qed.

(** What the comparison with the loaded channel says. *)
Lemma config_unchanged s ms mapping : refs_ok s → hasModelConfigChanged ms mapping (initialModels s) (initialModelMapping s) = false →
  unchanged (log s) ms mapping.
Proof.
  intros [_ [[E1 E2]|(row & Hin & E1 & E2)]] (Hne & -> & Et)%model_config_changed_exact; rewrite ?E1, ?E2 in *; [by destruct Hne|]. by exists row.
Qed.

Lemma submit_models_ok d s : drawer_ok s → passed (log s) d → drawer_ok (submit_models d s).
Proof.
  intros H Hp. unfold submit_models. destruct (has_model_mapping d) as [mapping|] eqn:Em.
  - destruct (validateModelMappingJson mapping) as [|error] eqn:Ev; [|by apply quiet_note]. cbv zeta.
    set (found := findMissingModelsInMapping mapping (parseModelsString (f_models d))) in *.
    set (changed := hasModelConfigChanged (parseModelsString (f_models d)) mapping (initialModels s) (initialModelMapping s)) in *.
    destruct (is_empty found || negb changed) eqn:Eb.
    + replace (negb (is_empty found) && changed) with false by (by destruct (is_empty found), changed).
      apply mutate_ok; [done|]. split; [exists d; by split; [|left]|]. intros m' [= <-]%(eq_trans (eq_sym Em)). split; [done|]. intros m Hin. right; right.
      apply orb_true_iff in Eb as [Eb|Eb%negb_true_iff]; [by fold found in Hin; destruct found; [apply elem_of_nil in Hin|]|].
      by apply config_unchanged; [apply (d_refs s H)|].
    + apply orb_false_iff in Eb as [E1 E2%negb_false_iff]. rewrite E1, E2. cbn [negb andb].
      destruct H as [Hr Hk Hm Hs]. split; try done. intros w [= <-]. split; [done|]. by exists mapping.
  - apply mutate_ok; [done|]. split; [exists d; by split; [|left]|]. intros m' E. by rewrite Em in E.
Qed.

Lemma submit_ok d s : drawer_ok s → drawer_ok (onSubmit d s).
Proof.
  intros H. unfold onSubmit. cbv zeta.
  set (s1 := note (Submitted (editing s) (initialStatusCodeMapping s) d) s).
  assert (drawer_ok s1) as H1 by (by apply quiet_note).
  assert (Submitted (editing s) (initialStatusCodeMapping s) d ∈ log s1) as Hin by (apply elem_of_app; right; apply list_elem_of_here).
  pose proof (proj1 (d_refs s1 H1)) as Ho. change (initialStatusCodeMapping s1) with (initialStatusCodeMapping s) in *.
  destruct (negb (is_editing s1) && negb (truthy (trim (f_key d)))) eqn:Ek; [by apply quiet_note|].
  assert (key_ok (editing s) d) as Hk. { intros E. unfold is_editing in Ek. change (editing s1) with (editing s) in Ek. rewrite E in Ek. by destruct (truthy _). }
  assert (codes_ok (log s1) (initialStatusCodeMapping s) d → drawer_ok (submit_models d s1)) as Hgo.
  { intros Hc. apply submit_models_ok; [done|]. by exists (editing s), (initialStatusCodeMapping s). }
  destruct (f_status_code_mapping d) as [codes|] eqn:Ec; [|apply Hgo; intros c E; congruence].
  destruct (truthy (trim codes)) eqn:Et; [|apply Hgo; intros c E; congruence].
  destruct (collectInvalidStatusCodeEntries codes) eqn:Ei; [|by apply quiet_note].
  destruct (collectNewDisallowedStatusCodeRedirects (initialStatusCodeMapping s) codes) as [|line lines] eqn:En.
  - apply Hgo. intros c [= <-]%(eq_trans (eq_sym Ec)) _. split; [done|by left].
  - destruct H1 as [Hr Hw Hm Hs]. split; try done. intros w [= <-]. exists (editing s), (initialStatusCodeMapping s), codes. by rewrite En.
Qed.

(** ** Answers *)

Lemma clear_ok s : drawer_ok s → drawer_ok (set_risk clear_risk s).
Proof. intros [? ? ? ?]. by split. Qed.

Lemma risk_action_ok b s : drawer_ok s → drawer_ok (handleStatusCodeRiskAction b s).
Proof.
  intros H. unfold handleStatusCodeRiskAction. destruct (waiting (risk s)) as [[lines d]|] eqn:Ew; [|done]. cbv zeta.
  pose proof (d_risk s H _ Ew) as (ed & orig & codes & Hin & Ho & Hk & Ec & Ei & El). cbn [fst snd] in *.
  assert (drawer_ok (set_risk (ask_risk None) s)) as H' by (destruct H; by split).
  destruct b; [|done]. apply submit_models_ok; [by apply quiet_note|]. apply (passed_mono (log s ++ [RiskConfirmed lines])); [done|].
  exists ed, orig. split_and!; [by apply snoc_sub|eapply orig_mono; [apply snoc_sub|done]|done|].
  intros c [= <-]%(eq_trans (eq_sym Ec)) _. split; [done|right]. rewrite <- El. apply elem_of_app. right. apply list_elem_of_here.
Qed.

(** A name without a comma is read back from any list it was written with. *)
Lemma name_read_back x l : model_name x → x ∈ l → x ∈ parseModelsString (join (js ",") l).
Proof.
  intros (Ht & Hne & Hc) Hin. unfold parseModelsString. change (js ",") with [44%N].
  assert (x ∈ split [44%N] (join [44%N] l)) as Hs.
  { induction l as [|a l IH]; [by apply elem_of_nil in Hin|]. destruct l as [|b l].
    - apply list_elem_of_singleton in Hin as <-. cbn [join]. unfold split. rewrite split_go_clean by done. apply list_elem_of_here.
    - rewrite join_cons by done. change (a ++ [44%N] ++ join [44%N] (b :: l)) with (a ++ 44%N :: join [44%N] (b :: l)). rewrite split_app, elem_of_app.
      apply elem_of_cons in Hin as [<-|Hin]; [left|right; by apply IH]. unfold split. rewrite split_go_clean by done. apply list_elem_of_here. }
  destruct (join [44%N] l) as [|c s] eqn:E; [apply list_elem_of_singleton in Hs; done|]. cbn [truthy].
  apply elem_of_bfilter. split; [|by destruct x]. apply elem_of_lmap. exists x. split; [by rewrite trim_id|done].
Qed.

(** Adding the missing models leaves only names that a list of models cannot hold. *)
Lemma added_models_listed mapping models m : Forall model_name models →
  let updated := array_of_set (models ++ findMissingModelsInMapping mapping models) in
  m ∈ findMissingModelsInMapping mapping (parseModelsString (formatModelsArray updated)) → 44%N ∈ m.
Proof.
  intros Hn. cbv zeta. intros (Ht & Hne & (o & k & Eo & Hk & ->) & Hnot)%elem_of_missing. destruct (decide (44%N ∈ trim k)) as [?|Hc]; [done|exfalso].
  apply Hnot. apply elem_of_lmap. exists (trim k). split; [by rewrite trim_idemp|].
  unfold formatModelsArray. rewrite (array_of_set_id (array_of_set _)) by apply array_of_set_NoDup.
  destruct (decide (trim k ∈ map trim models)) as [Hin|Hin].
  - apply elem_of_lmap in Hin as (x & Ex & Hx). pose proof (proj1 (Forall_forall _ _) Hn x Hx) as Hx'. rewrite (trim_id x) in Ex by apply Hx'. rewrite Ex.
    apply name_read_back; [done|]. apply elem_of_array_of_set, elem_of_app. by left.
  - apply name_read_back; [split_and!; [apply trim_trimmed|done|done]|]. apply elem_of_array_of_set, elem_of_app. right.
    apply elem_of_missing. split_and!; [done|done|by exists o, k|done].
Qed.

Lemma has_mapping_models m d : has_model_mapping (with_models m d) = has_model_mapping d.
Proof. done. Qed.

Lemma missing_action_ok a s : drawer_ok s → drawer_ok (handleMissingModelsAction a s).
Proof.
  intros H. unfold handleMissingModelsAction. destruct (missing s) as [[l d]|] eqn:Em; [|done]. cbv zeta.
  pose proof (d_missing s H _ Em) as [Hp (mapping & E1 & Ev & El)]. cbn [fst snd] in *.
  assert (drawer_ok (note (MissingAnswered a) (set_missing None s))) as H1. { apply quiet_note; [|done]. destruct H; by split. }
  assert (passed (log s ++ [MissingAnswered a]) d) as Hp1 by (eapply passed_mono; [apply snoc_sub|done]).
  destruct a; [done| |].
  - apply mutate_ok; [done|]. split; [exists d; by split; [|left]|]. intros m' [= <-]%(eq_trans (eq_sym E1)). split; [done|].
    intros m _. right; left. apply elem_of_app. right. apply list_elem_of_here.
  - apply mutate_ok; [by apply quiet_values|]. split; [exists d; split; [done|right; by eexists]|]. intros m' E. rewrite has_mapping_models in E.
    injection (eq_trans (eq_sym E1) E) as <-. split; [done|]. cbn [f_models with_models]. rewrite El. intros m Hm. left.
    apply (added_models_listed mapping (parseModelsString (f_models d))); [apply parse_models_names|done].
Qed.

Lemma advanced_ok b s : drawer_ok s → drawer_ok (handleAdvancedSettingsOpenChange b s).
Proof. intros H. apply quiet_note; [|done]. destruct H. by split. Qed.

Section runs.
Context (schema_errors : ChannelFormValues → list str) (requiredText : str).
Abbreviation step := (step schema_errors requiredText).
Abbreviation run := (run schema_errors requiredText).

Lemma channel_step_ok s e : drawer_ok s → drawer_ok (step s e).
Proof.
  intros H. assert (∀ f, (drawer_ok s → drawer_ok (f s)) → drawer_ok (if opened s && negb (asked s) then f s else s)) as Hfree.
  { intros f Hf. destruct (_ && _); [by apply Hf|done]. }
  destruct e; cbn [ChannelDrawer.step].
  - destruct (_ || _); [done|by apply reopen_ok].
  - destruct (editing s); [by apply load_ok|done].
  - apply Hfree. intros. by apply quiet_values.
  - apply Hfree. intros. by apply quiet_values.
  - apply Hfree. intros. unfold handleFillRelatedModels. destruct (basicModels _ _); (apply quiet_note; [|done]); [done|by apply quiet_values].
  - apply Hfree. intros. unfold handleFillAllModels. destruct allModels; (apply quiet_note; [|done]); [done|by apply quiet_values].
  - apply Hfree. intros. apply quiet_note; [by apply quiet_values|done].
  - apply Hfree. intros. unfold handleAddPrefillGroup. destruct (prefill_items items); (apply quiet_note; [|done]); [by apply quiet_values|done].
  - apply Hfree. intros. by apply quiet_values.
  - apply Hfree. intros. clear Hfree. unfold handleDeduplicateKeys. cbv zeta. destruct (negb _); [by apply quiet_note|]. destruct (_ =? _)%Z; (apply quiet_note; [|done]); [done|by apply quiet_values].
  - apply Hfree. intros. by apply advanced_ok.
  - destruct (isSubmitting s); [done|]. apply (Hfree (λ s, match schema_errors (values s) with [] => onSubmit (values s) s | _ => _ end)). intros _.
    destruct (schema_errors (values s)); [by apply submit_ok|]. unfold onInvalid. apply quiet_note; [|done]. destruct (hasAdvancedSettingsErrors _); [by apply advanced_ok|done].
  - destruct (_ <? _); [|done]. destruct (waiting (risk s)) eqn:E; [|done]. destruct H. by split.
  - destruct (waiting (risk s)) eqn:E; [|done]. destruct H. by split.
  - destruct (waiting (risk s)); [|done]. unfold confirmRisk. destruct (canConfirm _ _); [|done]. by apply risk_action_ok, clear_ok.
  - destruct (waiting (risk s)); [|done]. by apply risk_action_ok, clear_ok.
  - destruct (waiting (risk s)); [|done]. by apply risk_action_ok.
  - by apply missing_action_ok.
  - destruct (pending s) as [b|]; [|done]. unfold save_answered. cbv zeta.
    assert (drawer_ok (set_pending None s)) as H' by (destruct H; by split).
    destruct a; [|by apply quiet_note..]. apply quiet_note; [|done]. destruct (is_editing s); [by apply reset_ok, quiet_note|].
    apply (reopen_ok false None (values s) (advancedOpen s) (note _ (set_pending None s))). by apply quiet_note.
  - apply Hfree. intros. by apply reset_ok.
Qed.

Lemma channel_run_ok es : drawer_ok (run es).
Proof.
  unfold ChannelDrawer.run. assert (drawer_ok start) as H. { split; [by split; left|done|done|by intros d p ?%elem_of_nil]. }
  revert H. generalize start. induction es as [|e es IH]; intros s H; [done|]. cbn [fold_left]. by apply IH, channel_step_ok.
Qed.

(** A redirect that was not confirmed was there before. *)
Lemma redirect_known l orig codes from to :
  orig_ok l orig → collectNewDisallowedStatusCodeRedirects orig codes = [] ∨ RiskConfirmed (collectNewDisallowedStatusCodeRedirects orig codes) ∈ l →
  redirects codes from to →
  (∃ row, Loaded row ∈ l ∧ redirects (str_or (c_status_code_mapping row) []) from to) ∨ ∃ lines, RiskConfirmed lines ∈ l ∧ redirect_line from to ∈ lines.
Proof.
  intros Ho Hc Hr. pose proof (proj1 (new_disallowed_redirects_exact orig codes) from to (redirects_nonneg _ _ _ Hr)) as Hx.
  destruct (decide (redirect_line from to ∈ collectNewDisallowedStatusCodeRedirects orig codes)) as [Hin|Hin].
  - right. destruct Hc as [E|Hc]; [by rewrite E in Hin; apply elem_of_nil in Hin|]. by exists (collectNewDisallowedStatusCodeRedirects orig codes).
  - left. destruct Ho as [->|(row & Hl & ->)].
    + exfalso. apply Hin, Hx. split; [done|]. intros (k & v & Hkv & _). by apply elem_of_nil in Hkv.
    + exists row. split; [done|].
      assert (redirect_line from to ∈ collectDisallowedStatusCodeRedirects (str_or (c_status_code_mapping row) [])) as Hd.
      { assert (redirect_line from to ∈ collectDisallowedStatusCodeRedirects codes) as Hcur by (by apply (proj2 (proj2 (proj2 (disallowed_redirects_exact codes))))).
        unfold collectNewDisallowedStatusCodeRedirects in Hin. cbv zeta in Hin.
        destruct (collectDisallowedStatusCodeRedirects codes) as [|c0 cs] eqn:E; [by apply elem_of_nil in Hcur|].
        destruct (decide (redirect_line from to ∈ collectDisallowedStatusCodeRedirects (str_or (c_status_code_mapping row) []))) as [?|Hn]; [done|].
        destruct Hin. apply elem_of_bfilter. split; [done|]. apply negb_true_iff, set_has_false. by rewrite elem_of_array_of_set. }
      destruct (redirects_nonneg _ _ _ Hr) as [Hf Ht]. by apply (line_reported _ from to Hf Ht).
Qed.

(** C8: Whatever happens in the drawer, a channel that is sent was submitted, with a key if it is new, changed at most in its list of models.  Its status code mapping
    maps codes to codes, and every redirect of a code that must not be redirected was in the channel as it was loaded or was listed in a question that was confirmed.  Its
    model mapping is an object of strings, and every model it maps is in the list, unless its name has a comma, the user chose to submit anyway, or
    list and mapping are those that were loaded. *)
Theorem saved_channel_checked es d p :
  Sent d p ∈ log (run es) →
  let l := log (run es) in
  (∃ ed orig d0, Submitted ed orig d0 ∈ l ∧ (ed = None → truthy (trim (f_key d0)) = true) ∧ (d = d0 ∨ ∃ m, d = with_models m d0)) ∧
  (∀ codes, f_status_code_mapping d = Some codes → truthy (trim codes) = true →
     (∀ k v, (k, v) ∈ mapping_entries codes → ∃ from to, parseStatusCodeKey k = Some from ∧ parseStatusCodeMappingTarget v = Some to) ∧
     ∀ from to, redirects codes from to →
       (∃ row, Loaded row ∈ l ∧ redirects (str_or (c_status_code_mapping row) []) from to) ∨ ∃ lines, RiskConfirmed lines ∈ l ∧ redirect_line from to ∈ lines) ∧
  (∀ mapping, has_model_mapping d = Some mapping → validateModelMappingJson mapping = Valid ∧
     ∀ o k, parse_object mapping = Some o → k ∈ obj_keys o → trim k ≠ [] →
       trim k ∈ parseModelsString (f_models d) ∨ 44%N ∈ trim k ∨ MissingAnswered SubmitAnyway ∈ l ∨ unchanged l (parseModelsString (f_models d)) mapping).
Proof.
  intros Hin. cbv zeta. destruct (d_sent _ (channel_run_ok es) d p Hin) as [(d0 & (ed & orig & Hs & Ho & Hk & Hc) & Hd) Hm].
  assert (f_status_code_mapping d = f_status_code_mapping d0) as Ecodes by (by destruct Hd as [->|[m ->]]).
  split_and!.
  - by exists ed, orig, d0.
  - intros codes E T. rewrite Ecodes in E. destruct (Hc codes E T) as [Hi Hr]. split; [by apply (proj1 (invalid_entries_exact codes))|].
    intros from to Hft. by eapply redirect_known.
  - intros mapping E. destruct (Hm mapping E) as [Hv Hl]. split; [done|]. intros o k Eo Hk' Hne.
    destruct (decide (trim k ∈ parseModelsString (f_models d))) as [?|Hn]; [by left|]. right. apply Hl, elem_of_missing. split_and!; [|done|by exists o, k|].
    + unfold has_model_mapping in E. destruct (f_model_mapping d) as [m|]; [|done]. destruct (truthy (trim m)) eqn:T; [|done]. injection E as ->.
      by destruct (trim mapping).
    + intros (x & Ex & Hx)%elem_of_lmap. apply Hn. rewrite Ex.
      by rewrite (trim_id x) by apply (proj1 (Forall_forall _ _) (parse_models_names (f_models d)) x Hx).
Qed.
End runs.

(** ** Examples *)

Definition with_mappings (codes mapping : str) (f : ChannelFormValues) : ChannelFormValues := {|
  f_name := f_name f; f_type := f_type f; f_base_url := f_base_url f; f_key := f_key f; f_openai_organization := f_openai_organization f; f_models := f_models f;
  f_group := f_group f; f_model_mapping := Some mapping; f_priority := f_priority f; f_weight := f_weight f; f_test_model := f_test_model f;
  f_auto_ban := f_auto_ban f; f_status := f_status f; f_status_code_mapping := Some codes; f_tag := f_tag f; f_remark := f_remark f;
  f_setting := f_setting f; f_param_override := f_param_override f; f_header_override := f_header_override f; f_settings := f_settings f; f_other := f_other f;
  f_multi_key_mode := f_multi_key_mode f; f_multi_key_type := f_multi_key_type f; f_batch_add_set_key_prefix_2_name := f_batch_add_set_key_prefix_2_name f;
  f_key_mode := f_key_mode f; f_extra := f_extra f; f_types := f_types f |}.

(** A mapping from 504 to 200, and one from the model [a] to [b]. *)
Definition timeout_hidden : str := [123; 34; 53; 48; 52; 34; 58; 50; 48; 48; 125]%N.
Definition a_to_b : str := [123; 34; 97; 34; 58; 34; 98; 34; 125]%N.

Definition any_values (v : ChannelFormValues) : list str := [].
Definition I_AGREE : str := js "I agree".

Definition sample (codes mapping : str) : ChannelFormValues :=
  with_mappings codes mapping (with_models (js "gpt-4") (with_key (js "sk-1") CHANNEL_FORM_DEFAULT_VALUES)).

Definition ticks : list Event := [TickRisk 0; TickRisk 1; TickRisk 2; TickRisk 3; TypeRisk I_AGREE].

Definition drawer (es : list Event) : Drawer := run any_values I_AGREE es.

Definition sent_values (s : Drawer) : list ChannelFormValues := omap (λ e, match e with Sent d _ => Some d | _ => None end) (log s).

(** A new channel that hides timeouts and maps a model that is not in its list. *)
Definition risky_creation : list Event :=
  [OpenDrawer None; Edit (sample timeout_hidden a_to_b); Submit] ++ ticks ++ [ConfirmRisk; AnswerMissing AddMissing].

Definition added : ChannelFormValues := with_models (js "gpt-4,a") (sample timeout_hidden a_to_b).

Lemma risky_creation_sent : sent_values (run any_values I_AGREE risky_creation) = [added].
Proof. vm_compute. reflexivity. Qed.

Lemma elem_of_sent d s : d ∈ sent_values s → ∃ p, Sent d p ∈ log s.
Proof.
  unfold sent_values. rewrite list_elem_of_omap. intros (e & Hin & E). destruct e as [| | | | |d' p| | | | |]; try discriminate E. exists p.
  assert (d' = d) as -> by (by injection E). exact Hin.
Qed.

Lemma timeout_entry : mapping_entries timeout_hidden = [(js "504", JNum (num_of_Z 200))].
Proof. vm_compute. reflexivity. Qed.

Lemma timeout_redirected : redirects timeout_hidden 504 200.
Proof.
  exists (js "504"), (JNum (num_of_Z 200)). rewrite timeout_entry. split_and!.
  - apply list_elem_of_here.
  - vm_compute. reflexivity.
  - vm_compute. reflexivity.
  - apply list_elem_of_here.
  - discriminate.
Qed.

Lemma added_codes : f_status_code_mapping added = Some timeout_hidden.
Proof. reflexivity. Qed.

Lemma timeout_given : truthy (trim timeout_hidden) = true.
Proof. vm_compute. reflexivity. Qed.

Lemma risky_creation_logged : ∃ p, Sent added p ∈ log (run any_values I_AGREE risky_creation).
Proof.
  apply elem_of_sent. generalize (run any_values I_AGREE risky_creation) risky_creation_sent. intros s E. rewrite E. apply list_elem_of_here.
Qed.

Lemma saved_channel_checked_witness :
  ∃ p, Sent added p ∈ log (run any_values I_AGREE risky_creation) ∧
    ((∃ row, Loaded row ∈ log (run any_values I_AGREE risky_creation) ∧ redirects (str_or (c_status_code_mapping row) []) 504 200) ∨
     ∃ lines, RiskConfirmed lines ∈ log (run any_values I_AGREE risky_creation) ∧ redirect_line 504 200 ∈ lines).
Proof.
  destruct risky_creation_logged as [p Hp]. exists p. split; [exact Hp|].
  pose proof (proj1 (proj2 (saved_channel_checked any_values I_AGREE risky_creation added p Hp)) timeout_hidden added_codes timeout_given) as [_ H].
  exact (H 504%Z 200%Z timeout_redirected).
Defined.

(** ** What the form keeps *)

(** Ticks and text of a question that was dismissed with Escape are still there when it is asked again: one press confirms. *)
Lemma ticks_survive_dismissal :
  sent_values (drawer ([OpenDrawer None; Edit (sample timeout_hidden []); Submit] ++ ticks ++ [DismissRisk; Submit; ConfirmRisk])) = [sample timeout_hidden []].
Proof. vm_compute. reflexivity. Qed.

(** A created channel stays in the form: the next creation starts with its key. *)
Lemma created_values_stay :
  f_key (values (drawer [OpenDrawer None; Edit (sample [] []); Submit; SaveAnswered Accepted; OpenDrawer None])) = js "sk-1".
Proof. vm_compute. reflexivity. Qed.

(** They are even sent to another channel if it is saved before its details arrive. *)
Lemma created_values_overwrite_channel :
  omap (λ e, match e with Sent _ (Update p _) => Some (u_id p, u_key p, c_models (u_channel p)) | _ => None end)
    (log (drawer [OpenDrawer None; Edit (sample [] []); Submit; SaveAnswered Accepted; OpenDrawer (Some {| ed_id := num_of_Z 7; ed_multi := false |}); Submit])) =
  [(num_of_Z 7, Some (js "sk-1"), Some (js "gpt-4"))].
Proof. vm_compute. reflexivity. Qed.

(** Details that are fetched again replace what was edited. *)
Lemma refetch_discards_edits pref row s : editing s ≠ None →
  values (step any_values I_AGREE s (Fetched pref row)) = transformChannelToFormDefaults row.
Proof. intros H. cbn [step]. by destruct (editing s). Qed.

(** A mapped model whose name has a comma is still missing after it was added. *)
Lemma comma_source_stays_missing :
  let mapping := [123; 34; 97; 44; 98; 34; 58; 34; 99; 34; 125]%N in
  let found := findMissingModelsInMapping mapping [] in
  found = [js "a,b"] ∧ findMissingModelsInMapping mapping (parseModelsString (formatModelsArray (array_of_set found))) = [js "a,b"].
Proof. vm_compute. split; reflexivity. Qed.

(** The hint under the mapping leaves out a source without a target, which the check on saving reports. *)
Lemma hint_misses_empty_target :
  let mapping := [123; 34; 97; 34; 58; 34; 34; 125]%N in
  missingSourceModels (modelMappingGuardrail (Some mapping) []) = [] ∧ findMissingModelsInMapping mapping [] = [js "a"] ∧ validateModelMappingJson mapping = Valid.
Proof. vm_compute. split_and!; reflexivity. Qed.
